(* ===== verification/_CoqProject ===== *)
-Q . S2P
Prelude.v
OrderMap.v
Bitcoin.v
Types.v
Messages.v
M6.v
Dbs.v
BlockHashes.v
Treasury.v
Diff.v
Reversible.v
Handlers.v
HandlerProofs.v
HandlerSpecs.v
ConnectBlock.v
ConnectProofs.v
Reorg.v
BlockRules.v
Accept.v
TreasurySafety.v
HashOrder.v
Unconsolidated.v
Enforcer.v
EnforcerProofs.v
Sync.v
SyncProofs.v
SyncTermination.v
BlockFiles.v
BlockFileProofs.v
Headers.v
HeaderProofs.v
Facade.v
FacadeProofs.v
Policy.v
PolicyProofs.v
Producer.v
ProducerProofs.v
SuffixProofs.v
Mining.v
Mine.v
MiningProofs.v
MineProofs.v
SeedStore.v
SeedProofs.v
P2p.v
P2pProofs.v
Wallet.v
WalletProofs.v
WalletSync.v
WalletSyncProofs.v
WalletEnforcer.v
Proto.v
Server.v
ProducerServer.v
Cli.v
WalletServer.v
ServerProofs.v
ServiceProofs.v
NodeChecks.v
Summary.v
SummaryProofs.v
Tasks.v
TaskProofs.v
Http.v
App.v
AppProofs.v
Locks.v
Backend.v
WalletInfo.v
Scenario.v
SyncScenario.v
PolicyScenario.v
ProducerScenario.v
BlockFileScenario.v
MiningScenario.v
SeedScenario.v
WalletScenario.v
WalletSyncScenario.v
ServerScenario.v
AppScenario.v
