(* ===== verification/Prelude.v ===== *)
(** * BIP300/301 enforcer: a verification development

    The enforcer runs beside a Bitcoin node and enforces drivechains: BIP300
    (sidechains with a treasury on the main chain, and withdrawals that miners
    vote on) and BIP301 (blind merged mining). This library models its
    consensus core, the synchronisation with the node, the block producer, local
    mining, the wallet, the RPC services and the application that puts them together, and
    proves them correct. Paths below are relative to [src/lib], those of the application to [src].

    ** The program's parts and their files

    - External code ([Bitcoin]): transactions, blocks, script builders and the
      nom parsers, as data with the documented behaviour of the functions the
      enforcer calls; hashing, header work and parsing primitives are the
      classes [Bitcoin] and [Nom], with their laws in [BitcoinLaws] and
      [NomLaws]. [Bitcoin.Runnable] has executable instances. [OrderMap] has the
      insertion-ordered maps ([LinkedHashMap], [LinkedHashSet]).
    - Types and messages ([Types], [Messages], [M6]): [types.rs] and
      [messages.rs]; the encodings of M1 to M4, M7 and M8, the duplicate checks
      of [CoinbaseMessages], the [CoinbaseBuilder], treasury scripts, and blinded
      bundles with their ids.
    - Tables ([Dbs], [BlockHashes]): [validator/dbs/mod.rs] and
      [block_hashes.rs]. An LMDB table is a finite map, a write transaction is
      the state threaded through the code, a missing row is an error value.
    - Diffs ([Diff], [Reversible], [Treasury]): [validator/dbs/diff.rs]. The
      trait [Diff] is a class with [apply] and [undo]; [Reversible] is the class
      of the ones that undo what they applied. [Treasury] refines the four
      treasury tables to one list of treasury UTXOs per slot.
    - Block handler ([Handlers], [ConnectBlock]): the methods of [BlockHandler]
      in [validator/task/mod.rs]: the handler of each message, the
      classification of transactions (M5, M6, M8), [connect_block] and
      [disconnect_block] with every check, event and error.
    - Enforcer ([Enforcer]): [validator/cusf_enforcer.rs], what the node drives:
      connecting, disconnecting and validating blocks, accepting mempool
      transactions, and dry runs.
    - Synchronisation ([Headers], [Sync]): [sync_to_tip], [sync_headers] and
      [sync_blocks] of [validator/task/mod.rs], [block_files.rs],
      [chainstates.rs] and the REST client, over an abstract node whose answers
      are arbitrary.
    - Block files ([BlockFiles]): [validator/parse_block_files.rs], the parser of
      the node's obfuscated [blk] files and of its block index, which gives
      [sync_from_directory] its blocks. A directory is its contents; decoding of
      headers and transactions is the class [BlockDecode].
    - Queries ([Facade]): [validator/mod.rs].
    - Policy store ([Policy]): [block_producer/db.rs], SQLite tables as lists of
      rows; it is reconciled with the validator's chain through [chain_diff].
    - Block producer ([Producer]): [block_producer/coinbase.rs] and [mod.rs]:
      the drivechain messages of a new coinbase, the withdrawals and the
      consolidation at the end of a block, block templates, the BMM auction.
    - Local mining ([Mining], [Mine]): [mining.rs] and [block_producer/mine.rs]:
      assembling a block from the node's template, grinding its nonce or running
      a miner program, signet solutions, and the polling for the result. The
      miner and the node are oracles.
    - Seed store ([SeedStore]): [wallet/seed_store.rs] and the
      creation of a wallet. A function is a program of system calls, run
      on a [World] of file contents, of which some are durable and some are lost
      in a power failure, and which another process may change between calls.
    - P2P client ([P2p]): [p2p.rs], the handshake and the relay of one transaction
      to a peer, over a stream of the peer's messages.
    - Wallet transactions ([Wallet]): [wallet/mod.rs] and [rpc_client.rs]: deposits,
      BMM requests, payments and their replay protection. BDK's wallet and
      transaction builder are the records [BdkWallet] and [TxBuilder] with
      their documented behaviour in [BdkLaws].
    - Wallet synchronisation ([WalletSync]): [wallet/sync.rs] and the wallet's part of
      [wallet/cusf_block_producer.rs]: following the validator's chain block by
      block, the fast-forward, the full scan and the sync from a chain source. BDK's
      local chain is a record with its laws in [BdkChainLaws].
    - The enforcers together ([WalletEnforcer]): [sync_to_tip] of [validator/cusf_enforcer.rs] and of
      [wallet/cusf_block_producer.rs], with the shutdown signal, and what the block producer
      passes on to the validator. What the validator promises its clients is the
      record [serves_chain] of [FacadeProofs]; it holds of the tables of every chain.
    - Protobuf messages ([Proto]): [proto.rs], the conversions between the
      enforcer's data and the messages of its interface, with their errors. The
      messages are the module [Pb]; consensus encodings and hex are the class
      [ProtoLib], with their round trips in [ProtoLaws].
    - Services: [Server] has [server/mod.rs] and the validator's handlers of
      [server/validator/grpc.rs]; [ProducerServer] the handlers of
      [server/block_producer.rs], [server/mining.rs] and [server/crypto.rs];
      [WalletServer] those of [server/wallet/grpc.rs] with the error codes of
      [wallet/error.rs]. A handler is a function of the request and of the
      component it calls, a stream is the list of its items.
    - What the wallet tells of itself ([Backend], [WalletInfo]): [wallet/sync_state.rs] and the
      part of [wallet/mod.rs] that connects to Electrum or Esplora and retries it, the
      remaining handlers of [server/wallet/grpc.rs].
    - Locks of the wallet ([Locks]): [wallet/locks.rs], and the locks each function of the
      wallet takes and drops as a list of operations. A step relation runs any number of
      them at once; a waiting writer keeps new readers out, as the lock of the source does.
    - Checks at start-up ([NodeChecks]): [node_checks.rs] and [version.rs].
    - Summary of the consensus state ([Summary]): [validator/sync_state_summary.rs], and the
      verification against a reference in [app/main.rs].
    - Tasks ([Tasks]): [app/main.rs] and [app/error.rs], the loop that syncs again after a
      failure, the mempool tasks and the endpoint for block templates. An attempt is what it
      does and how it ends; the node and the clock are a [World] for each attempt.
    - HTTP layers ([Http]): the access log, the defaults of requests and the layers that
      catch panics, of [app/main.rs].
    - Command line ([Cli]): [cli.rs], with the data directory of [types.rs].
    - Application ([App]): [main] of [app/main.rs] from the options to the [Plan] of tasks and
      services, the bounded syncs, and the result of the process.

    A Rust function is a definition of the same name where this is possible.
    [Result] is [Res] with a third case [Panic] for [unwrap], [expect], [assert]
    and overflowing arithmetic. The loops are [foldM] over the collection, or
    recursive functions; what a loop body does has a definition of its own.
    Integers are [Z] with the checked, saturating or wrapping operation of the
    source written out. The cumulative work of a header, 256 bits in the source, is an
    unbounded sum.

    ** The theorems

    - Messages: scripts of messages parse back to the message and nothing else
      does, and what the builder writes the validator reads ([Messages], [M6]).
    - Handlers ([HandlerSpecs], [HandlerProofs], [BlockRules]): what each message
      does to the tables, on every branch; votes never overflow; BMM requests
      are matched by the coinbase. [HashOrder] shows that the iteration order of
      hash maps does not matter.
    - Treasuries ([TreasurySafety], [Unconsolidated]): no coins leave a treasury
      but by an authorised withdrawal; over a block the recorded treasury is
      an output of the chain with its value, and changes by the deposits and by
      the payouts and the committed fees of the withdrawals; the outputs of a block
      that are not consolidated yet are indexed consistently.
    - Reorganisations ([ConnectProofs], [Reorg], [EnforcerProofs]): disconnecting
      is the inverse of connecting; the state depends on the current chain only;
      the enforcer refines a state machine on chains, and its events lead a
      subscriber to the same chain; a dry run answers as a commit does.
    - Synchronisation ([SyncProofs], [HeaderProofs], [SyncTermination]): with a node
      that answers truthfully from a block tree, the tables are those of one linked chain,
      also when calls fail or a block is invalid; on success it
      is the node's; block synchronisation ends.
    - Block files ([BlockFileProofs]): from the index entry of a block on, the
      parser reads exactly the blocks that the node wrote, across files;
      integers of the index are read exactly; on any contents a file is read to
      its end or to an error, without a panic.
    - Queries and policy ([FacadeProofs], [PolicyProofs]): [chain_diff] is the
      difference of two chains, and the policy store follows it: its rows are marked with the
      last block that mined or settled them, but for rows that two blocks of
      the old chain hit, of which exactly the forgotten ones are characterised.
    - Producer ([Accept], [ProducerProofs], [SuffixProofs]): the coinbase that the producer
      builds is one that the validator accepts, and so are, one after the other, the
      withdrawals and the consolidation at the end of the block, after which nothing is
      left unconsolidated; the auction picks the highest bid.
    - Mining ([MiningProofs], [MineProofs]): a block that grinding returns meets its
      target and is the first nonce that does; a generated block has the
      producer's coinbase outputs, the subsidy and the fees, and the merkle root and
      witness commitment of its transactions; no more coins than the limit are
      ever mined.
    - Seed store ([SeedProofs]): at every moment, also next to another process, a seed that
      was stored is still there, and so it is after a power loss if the deletion of
      the legacy row syncs the directory; a seed file is never
      overwritten; a wallet that was created can be opened.
    - P2P ([P2pProofs]): a transaction is reported as sent exactly when the peer
      completed the handshake, asked for this transaction and answered the last ping.
    - Wallet ([WalletProofs]): a deposit that the wallet builds is one that the
      validator counts as that deposit; a BMM request can be included exactly in a block
      on its parent with its commitment, and is evicted exactly when it is stale; transactions are replay protected; the amounts that the wallet
      reports are those of the transaction.
    - Wallet synchronisation ([WalletSyncProofs]): the wallet reaches the validator's
      tip through linked blocks if its own tip is on the node's branch or it replays block by block; a connected block leaves no unconfirmed transaction
      that it spends from or confirms. Validator and wallet, synced one after the other, then end on
      the same chain ([WalletEnforcer]).
    - Services ([ServerProofs], [ServiceProofs]): the messages of a sidechain's
      subscriber show its part of every event and nothing else; declarations,
      hashes and policies are read back from their messages; a proposal or a
      bundle that was accepted over RPC is pending in the policy store, and every
      refusal has its code; the coinbase of [GetCoinbasePSBT] is read back as the
      messages of the request; a deposit or BMM request over RPC is one that the
      validator counts; a signature of the service verifies.
    - Checks ([NodeChecks]): the check of the REST server asks a bounded number of
      times, that of the index ends when the index is complete, and exactly the
      supported versions pass.
    - Locks and backend ([Locks], [Backend]): functions of the wallet never deadlock, and all
      end; a backend that is down at start-up is shown as such and comes up later, with
      delays that double up to a limit. A first deposit is listed ([WalletInfo]).
    - Summary ([SummaryProofs]): on the state of a linked chain a summary always exists, two
      runs have the same one exactly if they have the same sidechains, treasuries and
      bundles, and two summaries have no difference exactly if they are equal.
    - Tasks ([TaskProofs]): block templates are served exactly from the publication of a server after a
      mempool sync until the slot is cleared, right after that sync ends, and the loop gives up exactly after too many quick failures in a row.
    - Application ([AppProofs], [Http]): one task advances the validator; verification
      against a reference is exact; the dump of the configuration shows no secret; each
      chain has its own directory; each call is logged once, and a request without
      a message gets an empty one.
    - Flaws: some theorems show behaviour that the code does not intend (a
      header sync that never ends, a panic before activation, a bundle that
      stops block production, a title that is not read back, the files of
      testnet4, deposits missing from a list, a wallet that keeps a stale tip, a
      reachable peer that is hidden by one that times out, confirmations that are not
      counted, an upvote that is read as an alarm, a payment that is dropped, a locked wallet
      that ends the process, a reference that a failed verification replaces, a request
      whose body is lost, a proposal that the summary hides, a mark of the policy store that a
      reorganisation loses, templates that are served after the mempool sync has ended).

    [Scenario] runs one block with every kind of message through the definitions
    and applies the theorems to it; [SyncScenario], [PolicyScenario],
    [ProducerScenario], [BlockFileScenario], [MiningScenario],
    [SeedScenario], [P2pProofs.P2pScenario], [WalletScenario], [WalletSyncScenario],
    [ServerScenario] and [AppScenario] do the same for the other parts.

    ** Fuel

    Loops that follow parent pointers ([peg_data_loop], [disconnect_to],
    [ancestors_until], [list_headers_loop]) take the height of the block as
    fuel, which is enough on header tables that are trees.
    [read_script], [many0] and [refill_loop] take the length of their input;
    [pre_activation_loop] and [process_cached_blocks] the number of missing
    blocks; [best_ancestor_loop] the height of the tip, which bounds the binary
    search. [all_blocks] takes the length of the file, since every block advances
    the reader, and [dir_next_block] two rounds for each file of the directory;
    [dir_items] has a fuel parameter. [fetch_loop] waits for the node, so its fuel is a parameter, with a
    theorem that some fuel is enough if the node's background validation ends.
    [header_loop] has a fuel parameter too: its theorem is on whatever happens
    within any fuel, since there are nodes on which it does not end. The
    polling of the miner has the bound of the source. [exchange_loop] of the P2P
    client takes one more than the number of messages that arrive, the wallet's
    [connect_missing_loop] twice the height of the target plus one, and its
    [connect_loop] one more than that height; the theorems show that this is enough. The
    wait of [check_txindex] for the node has a fuel parameter, and the check of the REST
    server the retries of the source. [resync_loop] can go on for ever, so its fuel is a
    parameter and its theorems are on some or any fuel. A loop that is out of fuel is [None], which is distinct from every result.

    ** Not modelled

    Logging, progress reports, and the errors of LMDB, SQLite and the network other than as
    answers of the abstract node. The copy of the node's index database is file I/O, and so is
    the wallet's connection to its database. The mempool library that drives the
    enforcer, BDK, the clients of Electrum and Esplora, clap and the HTTP libraries are
    code of others: their answers are arguments. Of the services, the texts of errors and the
    generated code behind the messages (wire format and routing) are left out. Of the
    application, the panic hook, the set-up of the log, request ids, the drain of tasks
    at the end and the options that only reach external code are left out. *)

From Stdlib Require Import Strings.Byte.
From stdpp Require Import base numbers list gmap.

Declare Scope enforcer_scope.
Delimit Scope enforcer_scope with enf.
Open Scope enforcer_scope.
Open Scope Z_scope.

(** ** Bytes *)

Abbreviation byte := Byte.byte.
Abbreviation bytes := (list Byte.byte).

#[global] Instance byte_eq_dec : EqDecision byte := Byte.byte_eq_dec.

#[global] Program Instance byte_countable : Countable byte :=
  inj_countable Byte.to_N Byte.of_N _.
Next Obligation. apply Byte.of_to_N. Qed.

(** The unsigned value of a byte, and the low byte of an integer (Rust's [as u8]). *)
Definition u8_val (b : byte) : Z := Z.of_N (Byte.to_N b).
Definition to_u8 (z : Z) : byte := default x00 (Byte.of_N (Z.to_N (z mod 256))).

Lemma u8_val_range b : 0 <= u8_val b < 256.
Proof. unfold u8_val. pose proof (Byte.to_N_bounded b). lia. Qed.

Lemma u8_val_inj b1 b2 : u8_val b1 = u8_val b2 -> b1 = b2.
Proof.
  unfold u8_val. intros H%N2Z.inj.
  pose proof (Byte.of_to_N b1) as E1. pose proof (Byte.of_to_N b2) as E2. congruence.
Qed.

Lemma u8_val_to_u8 z : u8_val (to_u8 z) = z mod 256.
Proof.
  unfold u8_val, to_u8. pose proof (Z.mod_pos_bound z 256 ltac:(lia)) as Hb.
  destruct (Byte.of_N _) as [b|] eqn:E; simpl.
  - apply Byte.to_of_N in E. rewrite E. lia.
  - apply Byte.of_N_None_iff in E. lia.
Qed.

Lemma to_u8_val b : to_u8 (u8_val b) = b.
Proof.
  apply u8_val_inj. rewrite u8_val_to_u8. apply Z.mod_small, u8_val_range.
Qed.

(** ** Machine integers

    Unsigned integers are [Z]; the width shows in the operations. An addition
    that overflows panics in a build with overflow checks; the theorems that
    rule the overflow out make both build profiles agree. *)

Definition u16_max : Z := 65535.
Definition u32_max : Z := 4294967295.
Definition u64_max : Z := 18446744073709551615.

Definition saturating_sub (a b : Z) : Z := Z.max 0 (a - b).
Definition checked_sub (a b : Z) : option Z := if bool_decide (b <= a) then Some (a - b) else None.
Definition checked_add_u64 (a b : Z) : option Z :=
  if bool_decide (a + b <= u64_max) then Some (a + b) else None.

Lemma checked_sub_Some a b c : checked_sub a b = Some c <-> b <= a /\ c = a - b.
Proof. unfold checked_sub. case_bool_decide; naive_solver lia. Qed.

Lemma checked_add_u64_Some a b c :
  checked_add_u64 a b = Some c <-> a + b <= u64_max /\ c = a + b.
Proof. unfold checked_add_u64. case_bool_decide; naive_solver lia. Qed.

(** ** Byte encodings of integers *)

(** [to_le_bytes] of an [n]-byte unsigned integer, and its inverse. *)
Fixpoint le_bytes (n : nat) (z : Z) : bytes :=
  match n with O => [] | S n => to_u8 z :: le_bytes n (z / 256) end.

Definition le_val (l : bytes) : Z := foldr (fun b acc => u8_val b + 256 * acc) 0 l.

(** [u64::to_be_bytes] and [u64::from_be_bytes] *)
Definition be_bytes (n : nat) (z : Z) : bytes := rev (le_bytes n z).
Definition be_val (l : bytes) : Z := le_val (rev l).
#[global] Arguments be_bytes : simpl never.
#[global] Arguments be_val : simpl never.

Lemma le_val_bytes n z : 0 <= z < 256 ^ Z.of_nat n -> le_val (le_bytes n z) = z.
Proof.
  revert z. induction n as [|n IH]; intros z Hz; [simpl in *; lia|].
  cbn [le_bytes le_val foldr] in *. fold (le_val (le_bytes n (z / 256))).
  rewrite IH, u8_val_to_u8. 2:{ rewrite Nat2Z.inj_succ, Z.pow_succ_r in Hz by lia.
    split; [apply Z.div_pos; lia|apply Z.div_lt_upper_bound; lia]. }
  pose proof (Z.div_mod z 256). lia.
Qed.

Lemma length_le_bytes n z : length (le_bytes n z) = n.
Proof. revert z. induction n; intros; simpl; auto. Qed.

Lemma le_bytes_val l : le_bytes (length l) (le_val l) = l.
Proof.
  induction l as [|b l IH]; [done|]. cbn [length le_bytes le_val foldr].
  fold (le_val l). pose proof (u8_val_range b) as Hb. f_equal.
  - apply u8_val_inj. rewrite u8_val_to_u8, Z.mul_comm, Z_mod_plus_full.
    by apply Z.mod_small.
  - rewrite Z.mul_comm, Z.div_add, Z.div_small by lia. done.
Qed.

Lemma le_val_range l : 0 <= le_val l < 256 ^ Z.of_nat (length l).
Proof.
  induction l as [|b l IH]; [simpl; lia|]. cbn [length le_val foldr]. fold (le_val l).
  pose proof (u8_val_range b). rewrite Nat2Z.inj_succ, Z.pow_succ_r by lia. lia.
Qed.

Lemma length_be_bytes n z : length (be_bytes n z) = n.
Proof. unfold be_bytes. rewrite length_rev. apply length_le_bytes. Qed.

Lemma be_val_bytes n z : 0 <= z < 256 ^ Z.of_nat n -> be_val (be_bytes n z) = z.
Proof. intros. unfold be_val, be_bytes. rewrite rev_involutive. by apply le_val_bytes. Qed.

Lemma be_bytes_val l : be_bytes (length l) (be_val l) = l.
Proof.
  unfold be_val, be_bytes. rewrite <- (length_rev l), le_bytes_val. apply rev_involutive.
Qed.

Lemma be_val_range l : 0 <= be_val l < 256 ^ Z.of_nat (length l).
Proof. unfold be_val. rewrite <- (length_rev l). apply le_val_range. Qed.

(** ** Results

    [Ok] and [Err] are Rust's [Result]; [Panic] is the outcome of a failed
    [assert!], [unwrap], [expect], indexing or overflow check. *)

Inductive Res (E A : Type) : Type :=
| Ok (a : A)
| Err (e : E)
| Panic.
Arguments Ok {_ _} _.
Arguments Err {_ _} _.
Arguments Panic {_ _}.

#[global] Instance Res_ret {E} : MRet (Res E) := fun _ a => Ok a.
#[global] Instance Res_bind {E} : MBind (Res E) := fun _ _ f m =>
  match m with Ok a => f a | Err e => Err e | Panic => Panic end.
#[global] Instance Res_fmap {E} : FMap (Res E) := fun _ _ f m =>
  match m with Ok a => Ok (f a) | Err e => Err e | Panic => Panic end.

(** The error conversion a Rust [?] inserts through [From]. *)
Definition map_err {E F A} (f : E -> F) (m : Res E A) : Res F A :=
  match m with Ok a => Ok a | Err e => Err (f e) | Panic => Panic end.

(** A call with fuel has no result when it runs out of it; [obind] keeps that apart. *)
Definition obind {E A B} (m : option (Res E A)) (f : A -> option (Res E B)) : option (Res E B) :=
  match m with None => None | Some (Ok a) => f a | Some (Err e) => Some (Err e) | Some Panic => Some Panic end.
Notation "x ⇐ m ; k" := (obind m (fun x => k)) (at level 20, m at level 100, k at level 200, only parsing) : enforcer_scope.
Definition omap_err {E F A} (f : E -> F) (m : option (Res E A)) : option (Res F A) := map_err f <$> m.

Definition ok_or {E A} (e : E) (o : option A) : Res E A :=
  match o with Some a => Ok a | None => Err e end.

Definition unwrap {E A} (o : option A) : Res E A :=
  match o with Some a => Ok a | None => Panic end.

Definition assert_or_panic {E} (b : bool) : Res E unit := if b then Ok tt else Panic.

Definition is_ok {E A} (m : Res E A) : bool := match m with Ok _ => true | _ => false end.

(** [x += 1] on a [u16]. *)
Definition u16_incr {E} (a : Z) : Res E Z := if bool_decide (a < u16_max) then Ok (a + 1) else Panic.

Lemma bind_Ok {E A B} (m : Res E A) (f : A -> Res E B) b :
  (m ≫= f) = Ok b <-> exists a, m = Ok a /\ f a = Ok b.
Proof. destruct m; naive_solver. Qed.

Lemma fmap_Ok {E A B} (m : Res E A) (f : A -> B) b :
  (f <$> m) = Ok b <-> exists a, m = Ok a /\ b = f a.
Proof. destruct m; cbn; naive_solver. Qed.

Lemma map_err_Ok {E F A} (f : E -> F) (m : Res E A) a : map_err f m = Ok a <-> m = Ok a.
Proof. destruct m; naive_solver. Qed.

Lemma ok_or_Ok {E A} (e : E) (o : option A) a : ok_or e o = Ok a <-> o = Some a.
Proof. destruct o; naive_solver. Qed.

Lemma unwrap_Ok {E A} (o : option A) (a : A) : (unwrap o : Res E A) = Ok a <-> o = Some a.
Proof. destruct o; naive_solver. Qed.

Lemma assert_or_panic_Ok {E} b u : (assert_or_panic b : Res E unit) = Ok u <-> b = true.
Proof. destruct b, u; naive_solver. Qed.

Lemma u16_incr_Ok {E} a b : (u16_incr a : Res E Z) = Ok b <-> a < u16_max /\ b = a + 1.
Proof. unfold u16_incr. case_bool_decide; naive_solver. Qed.

Lemma bind_assoc {E A B C} (m : Res E A) (f : A -> Res E B) (g : B -> Res E C) :
  ((m ≫= f) ≫= g) = (m ≫= fun a => f a ≫= g).
Proof. by destruct m. Qed.

(** [res_inv] turns a hypothesis [computation = Ok x] into its successful steps. *)
Ltac res_inv_step :=
  match goal with
  | H : (_ ≫= _) = Ok _ |- _ => apply bind_Ok in H; destruct H as (? & ? & ?)
  | H : (_ <$> _) = Ok _ |- _ => apply fmap_Ok in H; destruct H as (? & ? & ?)
  | H : map_err _ _ = Ok _ |- _ => apply map_err_Ok in H
  | H : ok_or _ _ = Ok _ |- _ => apply ok_or_Ok in H
  | H : unwrap _ = Ok _ |- _ => apply unwrap_Ok in H
  | H : assert_or_panic _ = Ok _ |- _ => apply assert_or_panic_Ok in H
  | H : u16_incr _ = Ok _ |- _ => apply u16_incr_Ok in H; destruct H as [? ?]
  | H : mret _ = Ok _ |- _ => unfold mret, Res_ret in H
  | H : Ok _ = Ok _ |- _ => injection H as ?
  | H : Err _ = Ok _ |- _ => discriminate H
  | H : Panic = Ok _ |- _ => discriminate H
  | H : match ?x with (_, _) => _ end = Ok _ |- _ => is_var x; destruct x
  | H : match ?x with (_, _) => _ end = Ok _ |- _ =>
      match type of x with (_ * _)%type => destruct x eqn:? end
  end.
Ltac res_inv := repeat res_inv_step; subst.

(** ** Lists *)

Lemma elem_of_concat {A} (ls : list (list A)) (x : A) : x ∈ concat ls <-> exists l, x ∈ l /\ l ∈ ls.
Proof.
  rewrite list_elem_of_In, in_concat. split; intros (l & H1 & H2); exists l; by rewrite !list_elem_of_In in *.
Qed.

(** ** Monadic loops *)

(** A [for] loop over [l] that threads a state and stops at the first error. *)
Fixpoint foldM {E A S} (f : S -> A -> Res E S) (l : list A) (s : S) : Res E S :=
  match l with
  | [] => Ok s
  | a :: l => s' ← f s a; foldM f l s'
  end.

Lemma foldM_app {E A S} (f : S -> A -> Res E S) l1 l2 s :
  foldM f (l1 ++ l2) s = (foldM f l1 s ≫= foldM f l2).
Proof.
  revert s. induction l1 as [|a l1 IH]; intros s; [done|].
  simpl. destruct (f s a); cbn; auto.
Qed.

Lemma foldM_invariant {E A S} (P : S -> Prop) (f : S -> A -> Res E S) l s s' :
  (forall s s' a, a ∈ l -> P s -> f s a = Ok s' -> P s') ->
  P s -> foldM f l s = Ok s' -> P s'.
Proof.
  revert s. induction l as [|a l IH]; intros s Hstep HP Hf; simpl in Hf; res_inv; [done|].
  eapply IH; [|eapply Hstep; [left| |]; eauto|eauto].
  intros ??? Hin. eapply Hstep. by right.
Qed.

(** An invariant that mentions the elements processed so far. *)
Lemma foldM_prefix {E A S} (P : list A -> S -> Prop) (f : S -> A -> Res E S) l s s' :
  (forall pre a s1 s2, (pre ++ [a]) `prefix_of` l -> P pre s1 -> f s1 a = Ok s2 -> P (pre ++ [a]) s2) ->
  P [] s -> foldM f l s = Ok s' -> P l s'.
Proof.
  intros Hstep H0. enough (Hgen : forall pre l', pre ++ l' = l -> forall s1, P pre s1 ->
    foldM f l' s1 = Ok s' -> P l s') by (intros Hf; by eapply (Hgen [] l)).
  intros pre l'. revert pre. induction l' as [|a l' IH]; intros pre <- s1 HP Hf; cbn in Hf; res_inv.
  - by rewrite app_nil_r.
  - eapply (IH (pre ++ [a])); [by rewrite <- app_assoc| |done].
    eapply Hstep; [|done..]. exists l'. by rewrite <- app_assoc.
Qed.

(** A loop whose body succeeds under an invariant succeeds. *)
Lemma foldM_progress {E A S} (P : list A -> S -> Prop) (f : S -> A -> Res E S) l s :
  P [] s ->
  (forall pre a s1, (pre ++ [a]) `prefix_of` l -> P pre s1 -> exists s2, f s1 a = Ok s2 /\ P (pre ++ [a]) s2) ->
  exists s', foldM f l s = Ok s' /\ P l s'.
Proof.
  intros H0 Hstep. enough (Hgen : forall pre l', pre ++ l' = l -> forall s1, P pre s1 ->
    exists s', foldM f l' s1 = Ok s' /\ P l s') by by apply (Hgen [] l).
  intros pre l'. revert pre. induction l' as [|a l' IH]; intros pre Hl s1 HP; cbn.
  - exists s1. split; [done|]. by rewrite <- Hl, app_nil_r.
  - assert (Hl' : (pre ++ [a]) ++ l' = l) by by rewrite <- app_assoc.
    destruct (Hstep pre a s1) as (s2 & -> & HP2); [by exists l'|done|]. cbn. by apply (IH (pre ++ [a])).
Qed.

(** A loop whose body commutes with [g] commutes with [g]. *)
Lemma foldM_frame {E A S} (g : S -> S) (f : S -> A -> Res E S) l s :
  (forall s a, a ∈ l -> f (g s) a = g <$> f s a) -> foldM f l (g s) = g <$> foldM f l s.
Proof.
  revert s. induction l as [|a l IH]; intros s Hf; cbn; [done|].
  rewrite Hf by left. destruct (f s a); cbn; [|done..]. apply IH. intros. apply Hf. by right.
Qed.

(** Two loops that agree on the outcome of every pair of adjacent iterations
    agree on every permutation: the iteration order of a hash map is irrelevant. *)
Lemma foldM_perm_Ok {E A S} (P : S -> Prop) (f : S -> A -> Res E S) l1 l2 s s' :
  (forall a b s s1 s2, a ∈ l1 -> b ∈ l1 -> P s -> f s a = Ok s1 -> f s1 b = Ok s2 ->
     a = b \/ exists s1', f s b = Ok s1' /\ f s1' a = Ok s2) ->
  (forall a s s', a ∈ l1 -> P s -> f s a = Ok s' -> P s') ->
  l1 ≡ₚ l2 -> P s -> foldM f l1 s = Ok s' -> foldM f l2 s = Ok s'.
Proof.
  intros Hcomm Hpres Hp. revert s Hcomm Hpres.
  induction Hp as [|x l1 l2 Hp IH|x y l|l1 l2 l3 H1 IH1 H2 IH2]; intros s Hcomm Hpres HP Hf.
  - done.
  - simpl in *. res_inv. rewrite H. cbn. eapply IH; [| |eapply Hpres; [left| |]; eauto|done].
    + intros a b ????? . apply Hcomm; by right.
    + intros a ???. apply Hpres; by right.
  - simpl in *. res_inv.
    destruct (Hcomm y x s x0 x1) as [->|(s1' & E1 & E2)]; try set_solver.
    + by rewrite H; cbn; rewrite H0.
    + by rewrite E1; cbn; rewrite E2.
  - eapply IH2; [| | |eapply IH1; eauto]; eauto.
    + intros a b ???. rewrite <- H1. apply Hcomm.
    + intros a ??. rewrite <- H1. apply Hpres.
Qed.

(** ** Loops over the entries of a map *)

Section MapLoops.
Context `{Countable K} {V : Type}.
Implicit Types (m d : gmap K V).

Lemma foldl_delete_lookup m (ks : list K) i :
  foldl (fun m k => delete k m) m ks !! i = if decide (i ∈ ks) then None else m !! i.
Proof.
  revert m. induction ks as [|k ks IH]; intros m; cbn.
  - by rewrite decide_False by apply not_elem_of_nil.
  - rewrite IH. destruct (decide (i ∈ ks)); [by rewrite decide_True by by right|].
    destruct (decide (i = k)) as [->|].
    + rewrite decide_True by left. by rewrite lookup_delete_eq.
    + rewrite decide_False by (rewrite elem_of_cons; naive_solver). by rewrite lookup_delete_ne.
Qed.

Lemma foldl_delete_difference m d :
  foldl (fun m k => delete k m) m (map_to_list d).*1 = m ∖ d.
Proof.
  apply map_eq. intros i. rewrite foldl_delete_lookup, lookup_difference.
  destruct (d !! i) as [x|] eqn:Hi.
  - rewrite decide_True; [done|]. apply (list_elem_of_fmap_2 fst _ (i, x)). by apply elem_of_map_to_list.
  - rewrite decide_False; [done|]. intros ([k x] & -> & Hx)%list_elem_of_fmap.
    apply elem_of_map_to_list in Hx. cbn in *. congruence.
Qed.

Lemma foldl_insert_lookup m (l : list (K * V)) i :
  NoDup l.*1 ->
  foldl (fun m e => <[e.1 := e.2]> m) m l !! i = (list_to_map l : gmap K V) !! i ∪ m !! i.
Proof.
  revert m. induction l as [|[k x] l IH]; intros m Hnd; cbn.
  - rewrite lookup_empty. by destruct (m !! i).
  - apply NoDup_cons in Hnd as [Hk Hnd]. rewrite IH by done. destruct (decide (k = i)) as [->|Hne].
    + rewrite !lookup_insert_eq, (not_elem_of_list_to_map_1 l) by done. by destruct (m !! i).
    + by rewrite !lookup_insert_ne.
Qed.

Lemma foldl_insert_union m d :
  foldl (fun m e => <[e.1 := e.2]> m) m (map_to_list d) = d ∪ m.
Proof.
  apply map_eq. intros i. rewrite foldl_insert_lookup by apply NoDup_fst_map_to_list.
  by rewrite list_to_map_to_list, lookup_union.
Qed.

End MapLoops.

(** ** Loops that fill a map

    Each iteration computes an optional entry for its own key. *)

Section Collect.
Context {E A : Type} `{Countable K} {V : Type}.
Variables (key : A -> K) (g : A -> Res E (option V)) (f : gmap K V -> A -> Res E (gmap K V)).
Hypothesis Hf : forall d a, f d a = (o ← g a; Ok (match o with Some y => <[key a := y]> d | None => d end)).

Lemma foldM_collect_from l d0 d :
  NoDup (key <$> l) -> (forall a, a ∈ l -> d0 !! key a = None) ->
  (foldM f l d0 = Ok d <->
   (forall a, a ∈ l -> g a = Ok (d !! key a)) /\ (forall k, k ∉ key <$> l -> d !! k = d0 !! k)).
Proof.
  revert d0. induction l as [|a l IH]; intros d0 Hnd Hnew; cbn.
  - split.
    + intros [= ->]. split; [by intros ? ?%elem_of_nil|done].
    + intros [_ Hd]. f_equal. apply map_eq. intros k. symmetry. apply Hd, not_elem_of_nil.
  - apply NoDup_cons in Hnd as [Ha Hnd]. rewrite Hf.
    assert (Hother : forall b, b ∈ l -> key b <> key a).
    { intros b Hb E0. apply Ha. rewrite <- E0. by apply list_elem_of_fmap_2. }
    assert (Hstep : forall o, foldM f l (match o with Some y => <[key a := y]> d0 | None => d0 end) = Ok d <->
      (forall b, b ∈ l -> g b = Ok (d !! key b)) /\ d !! key a = o /\
      (forall k, k ∉ key a :: (key <$> l) -> d !! k = d0 !! k)).
    { intros o. rewrite IH; [|done|].
      2:{ intros b Hb. destruct o; [|apply Hnew; by right].
          rewrite lookup_insert_ne by (symmetry; by apply Hother). apply Hnew. by right. }
      split; (intros (Hin & Hout); split; [exact Hin|]).
      - split.
        + rewrite Hout by done. destruct o; [by rewrite lookup_insert_eq|apply Hnew; by left].
        + intros k [? ?]%not_elem_of_cons. rewrite Hout by done. destruct o; [by rewrite lookup_insert_ne|done].
      - destruct Hout as [Hk Hout]. intros k Hk'. destruct (decide (k = key a)) as [->|Hne].
        + rewrite Hk. destruct o; [by rewrite lookup_insert_eq|symmetry; apply Hnew; by left].
        + rewrite Hout by (rewrite not_elem_of_cons; done). destruct o; [by rewrite lookup_insert_ne|done]. }
    destruct (g a) as [o|e|] eqn:Eg; cbn.
    + rewrite Hstep. split.
      * intros (Hin & Hk & Hout). split; [|done]. intros b [->|Hb]%elem_of_cons; [congruence|by apply Hin].
      * intros [Hin Hout]. split_and!; [intros; apply Hin; by right| |done].
        specialize (Hin a ltac:(left)). congruence.
    + split; [done|]. intros [Hin _]. specialize (Hin a ltac:(left)). congruence.
    + split; [done|]. intros [Hin _]. specialize (Hin a ltac:(left)). congruence.
Qed.

Lemma foldM_collect l d :
  NoDup (key <$> l) ->
  (foldM f l ∅ = Ok d <->
   (forall a, a ∈ l -> g a = Ok (d !! key a)) /\ (forall k, k ∉ key <$> l -> d !! k = None)).
Proof.
  intros Hnd. rewrite foldM_collect_from by (done || (intros; apply lookup_empty)).
  split; intros [Hin Hout]; (split; [done|]); intros k Hk; specialize (Hout k Hk); by rewrite ?lookup_empty in *.
Qed.

(** The loop succeeds when every iteration does, and otherwise fails with the
    error of one. *)
Lemma foldM_collect_total l d0 :
  (forall a, a ∈ l -> exists o, g a = Ok o) -> exists d, foldM f l d0 = Ok d.
Proof.
  revert d0. induction l as [|a l IH]; intros d0 Hall; cbn; [by eexists|]. rewrite Hf.
  destruct (Hall a) as [o ->]; [by left|]. cbn. apply IH. intros. apply Hall. by right.
Qed.

Lemma foldM_collect_Err l d0 a e :
  a ∈ l -> g a = Err e -> (forall b, b ∈ l -> g b <> Panic) ->
  exists b e', b ∈ l /\ g b = Err e' /\ foldM f l d0 = Err e'.
Proof.
  revert d0. induction l as [|b l IH]; intros d0 Ha Eg Hp; [by apply elem_of_nil in Ha|].
  cbn. rewrite Hf. destruct (g b) as [o|e'|] eqn:Eb; cbn.
  - apply elem_of_cons in Ha as [->|Ha]; [congruence|].
    destruct (IH (match o with Some y => <[key b := y]> d0 | None => d0 end) Ha Eg) as (c & e' & Hc & ? & ->).
    { intros. apply Hp. by right. }
    exists c, e'. split_and!; [by right|done..].
  - exists b, e'. split_and!; [by left|done..].
  - destruct (Hp b); [by left|done].
Qed.

End Collect.
