(* ===== verification/OrderMap.v ===== *)
(** * Insertion-ordered maps

    The containers whose order the enforcer depends on, by their documented
    behaviour: [ordermap::OrderMap] (the pending withdrawal bundles of a
    sidechain, which M4 votes index by position) and
    [hashlink::LinkedHashMap] (the BMM commitments of a block). Both are lists
    of entries, in order, without repeated keys. *)

From stdpp Require Import base numbers list.
From S2P Require Import Prelude.

Section OrderMap.
Context {K V : Type} `{EqDecision K}.
Implicit Types (l : list (K * V)) (k : K) (v : V).

Definition om_keys l : list K := l.*1.

(** Each key occurs once. *)
Definition om_wf l : Prop := NoDup (om_keys l).

Fixpoint om_get_full k l : option (nat * V) :=
  match l with
  | [] => None
  | (k', v) :: l =>
      if decide (k = k') then Some (O, v)
      else match om_get_full k l with Some (i, v) => Some (S i, v) | None => None end
  end.

Definition om_get k l : option V := snd <$> om_get_full k l.
Definition om_contains k l : bool := bool_decide (is_Some (om_get k l)).
Definition om_get_index (i : nat) l : option (K * V) := l !! i.

(** [insert]: an existing key keeps its position, a new one goes last. *)
Fixpoint om_insert k v l : list (K * V) :=
  match l with
  | [] => [(k, v)]
  | (k', v') :: l => if decide (k = k') then (k', v) :: l else (k', v') :: om_insert k v l
  end.

(** [remove]: the entries after the removed one shift down. *)
Fixpoint om_remove k l : list (K * V) :=
  match l with
  | [] => []
  | (k', v') :: l => if decide (k = k') then l else (k', v') :: om_remove k l
  end.

(** [get_mut]: update a value in place; nothing happens on a missing key. *)
Fixpoint om_update k (f : V -> V) l : list (K * V) :=
  match l with
  | [] => []
  | (k', v') :: l => if decide (k = k') then (k', f v') :: l else (k', v') :: om_update k f l
  end.

(** [values_mut().for_each(f)] *)
Definition om_map (f : K -> V -> V) l : list (K * V) := (fun e => (e.1, f e.1 e.2)) <$> l.

(** [shift_insert]: put an entry at an index; panics when out of bounds. *)
Definition om_shift_insert {E} (i : nat) k v l : Res E (list (K * V)) :=
  let put l := take i l ++ (k, v) :: drop i l in
  if om_contains k l then
    if decide (i < length l)%nat then Ok (put (om_remove k l)) else Panic
  else if decide (i <= length l)%nat then Ok (put l) else Panic.

(** [LinkedHashMap::insert]: an existing key moves to the back. *)
Definition lhm_insert k v l : list (K * V) := om_remove k l ++ [(k, v)].

(** ** Lookups *)

Lemma om_get_full_Some k l i v :
  om_get_full k l = Some (i, v) -> l !! i = Some (k, v) /\ k ∉ om_keys (take i l).
Proof.
  revert i. induction l as [|[k' v'] l IH]; intros i; [done|]. simpl.
  case_decide; subst.
  - intros [= <- <-]. by split; [|apply not_elem_of_nil].
  - destruct (om_get_full k l) as [[j w]|]; [|done]. intros [= <- <-].
    destruct (IH j eq_refl) as [? Hn]. split; [done|].
    simpl. rewrite not_elem_of_cons. done.
Qed.

Lemma om_get_full_None k l : om_get_full k l = None <-> k ∉ om_keys l.
Proof.
  induction l as [|[k' v'] l IH]; simpl; [split; [intros _; apply not_elem_of_nil|done]|].
  rewrite not_elem_of_cons. case_decide; [naive_solver|].
  destruct (om_get_full k l) as [[]|]; naive_solver.
Qed.

Lemma om_get_None k l : om_get k l = None <-> k ∉ om_keys l.
Proof. unfold om_get. rewrite fmap_None. apply om_get_full_None. Qed.

Lemma om_get_is_Some k l : is_Some (om_get k l) <-> k ∈ om_keys l.
Proof.
  rewrite <- not_eq_None_Some, om_get_None. split; [|naive_solver].
  intros Hn. destruct (decide (k ∈ om_keys l)); naive_solver.
Qed.

Lemma om_contains_true k l : om_contains k l = true <-> k ∈ om_keys l.
Proof. unfold om_contains. rewrite bool_decide_eq_true. apply om_get_is_Some. Qed.

Lemma om_contains_false k l : om_contains k l = false <-> k ∉ om_keys l.
Proof. rewrite <- om_contains_true. destruct (om_contains k l); naive_solver. Qed.

Lemma om_get_elem k v l : om_get k l = Some v -> (k, v) ∈ l.
Proof.
  unfold om_get. intros ([i w] & E & ->)%fmap_Some. cbn.
  apply om_get_full_Some in E as [E _]. by eapply list_elem_of_lookup_2.
Qed.

Lemma om_elem_get k v l : om_wf l -> (k, v) ∈ l -> om_get k l = Some v.
Proof.
  unfold om_wf, om_get. induction l as [|[k' v'] l IH]; simpl; [by rewrite elem_of_nil|].
  intros [Hk Hl]%NoDup_cons [[= -> ->]|Hin]%elem_of_cons.
  - by rewrite decide_True.
  - rewrite decide_False. 2:{ intros ->. apply Hk. by apply (list_elem_of_fmap_2 fst _ (k', v)). }
    specialize (IH Hl Hin). by destruct (om_get_full k l) as [[]|].
Qed.

(** Two ordered maps with the same keys in the same order and the same values
    are equal. *)
Lemma om_ext l l' :
  om_wf l -> om_keys l = om_keys l' -> (forall k, om_get k l = om_get k l') -> l = l'.
Proof.
  unfold om_wf, om_get. revert l'. induction l as [|[k v] l IH]; intros [|[k' v'] l']; simpl; try done.
  intros [Hk Hl]%NoDup_cons [= <- Hkeys] Hget. f_equal.
  - specialize (Hget k). rewrite !decide_True in Hget by done. by injection Hget as ->.
  - apply IH; [done..|]. intros k0. specialize (Hget k0). case_decide; subst.
    + rewrite !(proj2 (om_get_full_None _ _)); [done|by rewrite Hkeys in Hk|done].
    + destruct (om_get_full k0 l) as [[]|], (om_get_full k0 l') as [[]|]; naive_solver.
Qed.

(** ** Updates *)

Lemma om_keys_update k f l : om_keys (om_update k f l) = om_keys l.
Proof. induction l as [|[k' v'] l IH]; simpl; [done|]. case_decide; simpl; congruence. Qed.

Lemma om_keys_map f l : om_keys (om_map f l) = om_keys l.
Proof. unfold om_keys, om_map. rewrite <- list_fmap_compose. by apply list_fmap_ext. Qed.

Lemma om_get_update k f l k' :
  om_get k' (om_update k f l) = (if decide (k = k') then f <$> om_get k' l else om_get k' l).
Proof.
  unfold om_get. induction l as [|[k0 v0] l IH]; simpl; [by case_decide|].
  destruct (decide (k = k0)) as [->|]; simpl.
  - destruct (decide (k' = k0)) as [->|]; [by rewrite decide_True|]. by rewrite decide_False.
  - destruct (decide (k' = k0)) as [->|]; [by rewrite decide_False|].
    revert IH. case_decide; destruct (om_get_full k' l) as [[]|],
      (om_get_full k' (om_update k f l)) as [[]|]; simpl; naive_solver.
Qed.

Lemma om_get_map f l k : om_get k (om_map f l) = f k <$> om_get k l.
Proof.
  unfold om_get. induction l as [|[k0 v0] l IH]; simpl; [done|]. case_decide; subst; [done|].
  revert IH. destruct (om_get_full k l) as [[]|], (om_get_full k (om_map f l)) as [[]|];
    simpl; naive_solver.
Qed.

Lemma om_insert_fresh k v l : k ∉ om_keys l -> om_insert k v l = l ++ [(k, v)].
Proof.
  induction l as [|[k' v'] l IH]; simpl; [done|]. rewrite not_elem_of_cons. intros [? ?].
  rewrite decide_False by done. by rewrite IH.
Qed.

Lemma om_remove_fresh k l : k ∉ om_keys l -> om_remove k l = l.
Proof.
  induction l as [|[k' v'] l IH]; simpl; [done|]. rewrite not_elem_of_cons. intros [? ?].
  rewrite decide_False by done. by rewrite IH.
Qed.

Lemma om_remove_insert k v l : k ∉ om_keys l -> om_remove k (om_insert k v l) = l.
Proof.
  induction l as [|[k' v'] l IH]; simpl; [by rewrite decide_True|].
  rewrite not_elem_of_cons. intros [? ?]. rewrite decide_False by done. simpl.
  rewrite decide_False by done. by rewrite IH.
Qed.

(** Removing the entry at index [i] drops exactly that entry. *)
Lemma om_remove_split k l i v :
  om_get_full k l = Some (i, v) -> om_remove k l = take i l ++ drop (S i) l.
Proof.
  revert i. induction l as [|[k' v'] l IH]; intros i; [done|]. simpl.
  case_decide; subst.
  - intros [= <- <-]. done.
  - destruct (om_get_full k l) as [[j w]|]; [|done]. intros [= <- <-].
    by rewrite (IH j).
Qed.

Lemma om_keys_remove k l k' : om_wf l -> k' ∈ om_keys (om_remove k l) <-> k' ∈ om_keys l /\ k' <> k.
Proof.
  unfold om_wf. induction l as [|[k0 v0] l IH]; simpl; [by rewrite elem_of_nil; naive_solver|].
  intros [Hk Hl]%NoDup_cons. case_decide; subst; simpl; rewrite !elem_of_cons.
  - naive_solver.
  - rewrite IH by done. naive_solver.
Qed.

Lemma om_wf_insert k v l : om_wf l -> om_wf (om_insert k v l).
Proof.
  unfold om_wf. intros Hl. destruct (decide (k ∈ om_keys l)) as [Hin|Hn].
  - replace (om_keys (om_insert k v l)) with (om_keys l); [done|].
    clear Hl. induction l as [|[k' v'] l IH]; simpl; [by apply elem_of_nil in Hin|].
    case_decide; subst; [done|]. simpl. f_equal. apply IH.
    simpl in Hin. apply elem_of_cons in Hin. naive_solver.
  - rewrite om_insert_fresh by done. unfold om_keys. rewrite fmap_app.
    apply NoDup_app. split_and!; [done| |apply NoDup_singleton].
    intros x Hx ->%list_elem_of_singleton. done.
Qed.

Lemma om_remove_sublist k l : om_remove k l `sublist_of` l.
Proof.
  induction l as [|[k' v'] l IH]; simpl; [constructor|]. case_decide; [by constructor|by apply sublist_skip].
Qed.

Lemma om_wf_sublist l l' : l `sublist_of` l' -> om_wf l' -> om_wf l.
Proof. intros Hs Hl. eapply sublist_NoDup; [exact Hl|]. by apply fmap_sublist. Qed.

Lemma om_wf_remove k l : om_wf l -> om_wf (om_remove k l).
Proof. apply om_wf_sublist, om_remove_sublist. Qed.

Lemma om_wf_keys l l' : om_keys l = om_keys l' -> om_wf l -> om_wf l'.
Proof. unfold om_wf. by intros ->. Qed.

(** [shift_insert] at the recorded index undoes [remove]: this is how a
    disconnected M6 puts its bundle back. *)
Lemma om_shift_insert_remove {E} k l i v :
  om_wf l -> om_get_full k l = Some (i, v) ->
  (om_shift_insert i k v (om_remove k l) : Res E _) = Ok l.
Proof.
  intros Hwf Hget. pose proof (om_get_full_Some _ _ _ _ Hget) as [Hi _].
  assert (Hn : k ∉ om_keys (om_remove k l)) by (rewrite om_keys_remove by done; naive_solver).
  pose proof (lookup_lt_Some _ _ _ Hi) as Hlt.
  unfold om_shift_insert. rewrite (proj2 (om_contains_false _ _) Hn).
  rewrite (om_remove_split _ _ _ _ Hget).
  assert (Hlen : length (take i l) = i) by (rewrite length_take; lia).
  rewrite decide_True by (rewrite length_app, Hlen; lia). f_equal.
  rewrite take_app_le by lia. rewrite take_take, Nat.min_id.
  rewrite drop_app_ge by lia. rewrite Hlen, Nat.sub_diag, drop_0.
  by rewrite <- (take_drop_middle l i (k, v)) at 3.
Qed.

End OrderMap.

Create HintDb om.
#[export] Hint Resolve om_wf_insert om_wf_remove : om.
#[export] Hint Rewrite @om_keys_update @om_keys_map @om_get_update @om_get_map : om.
