(* ===== verification/Bitcoin.v ===== *)
(** * External code the enforcer calls

    The enforcer's data comes from rust-bitcoin ([Transaction], [Block],
    [Script], hashes) and its parsers are built from nom combinators. Neither
    is part of the repository, so their functions are members of two classes,
    [Bitcoin] and [Nom]; what the enforcer relies on is in [BitcoinLaws] and
    [NomLaws], each law a sentence of the library's documentation. The
    instances at the end implement both classes and prove the laws, so the
    hypotheses of every theorem can be met and the model can be run. *)

From Stdlib Require Import Strings.Byte.
From stdpp Require Import base numbers list gmap.
From S2P Require Import Prelude.
Open Scope Z_scope.

(** ** Data *)

Abbreviation Hash := bytes.
Abbreviation Txid := bytes.
Abbreviation BlockHash := bytes.
(** [bitcoin::Amount]: satoshis, a [u64]. *)
Abbreviation Amount := Z.

Definition all_zeros : bytes := replicate 32 x00.
#[global] Arguments all_zeros : simpl never.

Record OutPoint := mkOutPoint { op_txid : Txid; op_vout : Z }.

#[global] Instance OutPoint_eq_dec : EqDecision OutPoint.
Proof. solve_decision. Defined.
#[global] Program Instance OutPoint_countable : Countable OutPoint :=
  inj_countable' (fun o => (op_txid o, op_vout o)) (fun p => mkOutPoint p.1 p.2) _.
Next Obligation. by intros []. Qed.

Record TxIn := mkTxIn {
  previous_output : OutPoint;
  script_sig : bytes;
  sequence : Z;
  witness : list bytes }.

Record TxOut := mkTxOut { value : Amount; script_pubkey : bytes }.

Record Transaction := mkTransaction {
  version : Z;
  lock_time : Z;
  input : list TxIn;
  output : list TxOut }.

Record Header := mkHeader {
  h_version : Z;
  prev_blockhash : BlockHash;
  merkle_root : bytes;
  time : Z;
  bits : Z;
  nonce : Z }.

Record Block := mkBlock { header : Header; txdata : list Transaction }.

#[global] Instance TxIn_eq_dec : EqDecision TxIn.
Proof. solve_decision. Defined.
#[global] Instance TxOut_eq_dec : EqDecision TxOut.
Proof. solve_decision. Defined.
#[global] Instance Transaction_eq_dec : EqDecision Transaction.
Proof. solve_decision. Defined.

Definition OP_RETURN : byte := x6a.
Definition OP_PUSHBYTES_1 : byte := x01.
Definition OP_TRUE : byte := x51.
Definition OP_NOP5 : byte := xb4.
Definition OP_NOP8 : byte := xb7.

Inductive Instruction := Op (opcode : byte) | PushBytes (data : bytes).
#[global] Instance Instruction_eq_dec : EqDecision Instruction.
Proof. solve_decision. Defined.

(** ** rust-bitcoin *)

Class Bitcoin := {
  (** [sha256d::Hash::hash] *)
  sha256d : bytes -> Hash;
  (** [Transaction::compute_txid] *)
  compute_txid : Transaction -> Txid;
  (** [Header::block_hash], [Header::work] *)
  block_hash : Header -> BlockHash;
  header_work : Header -> Z;
  (** [Script::instructions], collected; [None] is a script error *)
  instructions : bytes -> list (option Instruction);
  (** [ScriptBuf::new_op_return], [push_opcode], [push_slice] *)
  new_op_return : bytes -> bytes;
  push_opcode : bytes -> byte -> bytes;
  push_slice : bytes -> bytes -> bytes;
  (** [PushBytesBuf::try_from(Vec<u8>)] *)
  push_bytes_try_from : bytes -> option bytes;
  (** [VarInt::consensus_encode] *)
  varint_encode : Z -> bytes }.

Class BitcoinLaws `{Bitcoin} := {
  sha256d_length d : length (sha256d d) = 32%nat;
  compute_txid_length tx : length (compute_txid tx) = 32%nat;
  (** a header's work is the expected number of hashes, at least one *)
  header_work_pos h : 0 < header_work h;
  (** reading back a script made by [new_op_return] *)
  instructions_new_op_return d :
    push_bytes_try_from d = Some d ->
    instructions (new_op_return d) = [Some (Op OP_RETURN); Some (PushBytes d)];
  (** at most 75 bytes are pushed by the one-byte opcode [OP_PUSHBYTES_n] *)
  new_op_return_short d :
    (length d <= 75)%nat -> new_op_return d = OP_RETURN :: to_u8 (Z.of_nat (length d)) :: d;
  push_opcode_app s op : push_opcode s op = s ++ [op];
  push_slice_short s d :
    (length d <= 75)%nat -> push_slice s d = s ++ to_u8 (Z.of_nat (length d)) :: d;
  (** a push holds fewer than 2^32 bytes *)
  push_bytes_small d : Z.of_nat (length d) < 2 ^ 32 -> push_bytes_try_from d = Some d;
  push_bytes_large d : 2 ^ 32 <= Z.of_nat (length d) -> push_bytes_try_from d = None }.

(** ** nom

    The value of a nom error is only ever logged, so a parser that fails
    returns [None]; [Some (rest, out)] is [Ok((rest, out))]. *)

Abbreviation IResult A := (option (bytes * A)).

Class Nom := {
  nom_take : nat -> bytes -> IResult bytes;
  nom_tag : bytes -> bytes -> IResult bytes;
  nom_rest : bytes -> IResult bytes;
  nom_eof : bytes -> IResult unit;
  nom_be_u8 : bytes -> IResult byte;
  nom_alt {A} : list (bytes -> IResult A) -> bytes -> IResult A;
  nom_many0 {A} : (bytes -> IResult A) -> bytes -> IResult (list A) }.

Class NomLaws `{Nom} := {
  nom_take_eq n i :
    nom_take n i = if decide (n <= length i)%nat then Some (drop n i, take n i) else None;
  nom_tag_eq t i :
    nom_tag t i = if decide (take (length t) i = t) then Some (drop (length t) i, t) else None;
  nom_rest_eq i : nom_rest i = Some ([], i);
  nom_eof_eq i : nom_eof i = if decide (i = []) then Some ([], tt) else None;
  nom_be_u8_eq i : nom_be_u8 i = match i with b :: i' => Some (i', b) | [] => None end;
  (** [alt] returns the first success *)
  nom_alt_nil {A} i : nom_alt (A := A) [] i = None;
  nom_alt_cons {A} (p : bytes -> IResult A) ps i :
    nom_alt (p :: ps) i = match p i with Some r => Some r | None => nom_alt ps i end;
  (** [many0] repeats a parser until it fails; the elements are collected *)
  nom_many0_stop {A} (p : bytes -> IResult A) i : p i = None -> nom_many0 p i = Some (i, []);
  nom_many0_step {A} (p : bytes -> IResult A) i i' a :
    p i = Some (i', a) -> (length i' < length i)%nat ->
    nom_many0 p i = match nom_many0 p i' with
                    | Some (r, l) => Some (r, a :: l)
                    | None => None
                    end }.

Create HintDb nom.
#[export] Hint Rewrite @nom_take_eq @nom_tag_eq @nom_rest_eq @nom_eof_eq @nom_be_u8_eq
  @nom_alt_nil @nom_alt_cons using (typeclasses eauto) : nom.

Section NomFacts.
Context `{NomLaws}.

Lemma nom_take_app (a b : bytes) n : length a = n -> nom_take n (a ++ b) = Some (b, a).
Proof.
  intros <-. rewrite nom_take_eq, decide_True by (rewrite length_app; lia).
  by rewrite drop_app_length, take_app_length.
Qed.

Lemma nom_take_all (a : bytes) n : length a = n -> nom_take n a = Some ([], a).
Proof. intros Hn. pose proof (nom_take_app a [] n Hn) as E. by rewrite app_nil_r in E. Qed.

Lemma nom_take_1 (b : byte) (i : bytes) : nom_take 1 (b :: i) = Some (i, [b]).
Proof. by apply (nom_take_app [b] i). Qed.

Lemma nom_tag_app (t b : bytes) : nom_tag t (t ++ b) = Some (b, t).
Proof. rewrite nom_tag_eq, take_app_length, decide_True by done. by rewrite drop_app_length. Qed.

Lemma nom_tag_Some (t i r o : bytes) : nom_tag t i = Some (r, o) -> i = t ++ r /\ o = t.
Proof.
  rewrite nom_tag_eq. case_decide as Hd; [|done]. intros [= <- <-]. split; [|done].
  rewrite <- Hd at 1. by rewrite take_drop.
Qed.

Lemma nom_take_Some n (i r o : bytes) : nom_take n i = Some (r, o) -> i = o ++ r /\ length o = n.
Proof.
  rewrite nom_take_eq. case_decide; [|done]. intros [= <- <-].
  rewrite take_drop. split; [done|]. rewrite length_take. lia.
Qed.

Lemma nom_eof_Some (i r : bytes) u : nom_eof i = Some (r, u) -> i = [] /\ r = [].
Proof. rewrite nom_eof_eq. case_decide; naive_solver. Qed.

(** [many0(take(2))] splits an even number of bytes into pairs, and stops
    before an odd last byte. *)
Lemma many0_take2_pairs (ps : list (byte * byte)) r :
  (length r < 2)%nat ->
  nom_many0 (nom_take 2) (concat ((fun p => [p.1; p.2]) <$> ps) ++ r)
  = Some (r, (fun p => [p.1; p.2]) <$> ps).
Proof.
  intros Hr. induction ps as [|[a b] ps IH]; simpl.
  - apply nom_many0_stop. rewrite nom_take_eq, decide_False by lia. done.
  - rewrite (nom_many0_step _ _ (concat ((fun p => [p.1; p.2]) <$> ps) ++ r) [a; b]).
    + by rewrite IH.
    + apply (nom_take_app [a; b]). done.
    + apply Nat.lt_lt_succ_r, Nat.lt_succ_diag_r.
Qed.

End NomFacts.

(** ** Runnable instances *)

Module Runnable.

(** A script reader: data pushes by [OP_PUSHBYTES_n] and [OP_PUSHDATA1/2/4],
    every other byte an opcode. The fuel is the script's length. *)
Definition take_push (n : nat) (s : bytes) : option (bytes * bytes) :=
  if decide (n <= length s)%nat then Some (take n s, drop n s) else None.

Definition read_push (w : nat) (s : bytes) : option (bytes * bytes) :=
  match take_push w s with
  | Some (len, s') => take_push (Z.to_nat (le_val len)) s'
  | None => None
  end.

Fixpoint read_script (fuel : nat) (s : bytes) : list (option Instruction) :=
  match fuel, s with
  | S fuel, b :: s =>
      let push r := match r with
                    | Some (d, s') => Some (PushBytes d) :: read_script fuel s'
                    | None => [None]
                    end in
      if decide (u8_val b <= 75) then push (take_push (Z.to_nat (u8_val b)) s)
      else if decide (b = x4c) then push (read_push 1 s)
      else if decide (b = x4d) then push (read_push 2 s)
      else if decide (b = x4e) then push (read_push 4 s)
      else Some (Op b) :: read_script fuel s
  | _, _ => []
  end.

Definition push_prefix (n : Z) : bytes :=
  if decide (n <= 75) then [to_u8 n]
  else if decide (n < 2 ^ 8) then x4c :: le_bytes 1 n
  else if decide (n < 2 ^ 16) then x4d :: le_bytes 2 n
  else x4e :: le_bytes 4 n.

Definition push (s d : bytes) : bytes := s ++ push_prefix (Z.of_nat (length d)) ++ d.

(** Stand-ins for the hashes: 32 bytes that tell small inputs apart. *)
Definition digest (l : list Z) : bytes := take 32 ((to_u8 <$> l) ++ replicate 32 x00).

Lemma length_digest l : length (digest l) = 32%nat.
Proof.
  unfold digest. rewrite length_take, length_app, length_replicate. lia.
Qed.

#[export] Instance bitcoin : Bitcoin := {|
  sha256d d := digest (Z.of_nat (length d) :: (u8_val <$> d));
  compute_txid tx := digest ([1; version tx; lock_time tx; Z.of_nat (length (input tx));
                              Z.of_nat (length (output tx))] ++ (value <$> output tx));
  block_hash h := digest [2; h_version h; time h; nonce h];
  header_work h := Z.max 1 (bits h);
  instructions s := read_script (length s) s;
  new_op_return d := push [OP_RETURN] d;
  push_opcode s op := s ++ [op];
  push_slice s d := push s d;
  push_bytes_try_from d := if decide (Z.of_nat (length d) < 2 ^ 32) then Some d else None;
  varint_encode n := if decide (n < 253) then [to_u8 n]
                     else if decide (n < 2 ^ 16) then xfd :: le_bytes 2 n
                     else if decide (n < 2 ^ 32) then xfe :: le_bytes 4 n
                     else xff :: le_bytes 8 n |}.

Lemma take_push_app (d s : bytes) : take_push (length d) (d ++ s) = Some (d, s).
Proof.
  unfold take_push. rewrite decide_True by (rewrite length_app; lia).
  by rewrite take_app_length, drop_app_length.
Qed.

Lemma read_push_app w (d : bytes) :
  0 <= Z.of_nat (length d) < 256 ^ Z.of_nat w ->
  read_push w (le_bytes w (Z.of_nat (length d)) ++ d) = Some (d, []).
Proof.
  intros Hd. unfold read_push.
  replace w with (length (le_bytes w (Z.of_nat (length d)))) at 1 by apply length_le_bytes.
  rewrite take_push_app, le_val_bytes, Nat2Z.id by done.
  by rewrite <- (app_nil_r d) at 2; rewrite take_push_app.
Qed.

Lemma read_script_push fuel (d : bytes) :
  Z.of_nat (length d) < 2 ^ 32 ->
  read_script (S fuel) (push_prefix (Z.of_nat (length d)) ++ d) = [Some (PushBytes d)].
Proof.
  intros Hd. unfold push_prefix.
  assert (Hnil : forall r, r = Some (d, []) ->
    match r with Some (d, s') => Some (PushBytes d) :: read_script fuel s' | None => [None] end
    = [Some (PushBytes d)]) by (intros r ->; by destruct fuel).
  repeat case_decide; cbn [app read_script].
  - rewrite u8_val_to_u8, Z.mod_small by lia. rewrite decide_True by lia.
    apply Hnil. rewrite Nat2Z.id. by rewrite <- (app_nil_r d) at 2; rewrite take_push_app.
  - apply Hnil, read_push_app. simpl. lia.
  - apply Hnil, read_push_app. simpl. lia.
  - apply Hnil, read_push_app. simpl. lia.
Qed.

Lemma read_script_return fuel s :
  read_script (S fuel) (OP_RETURN :: s) = Some (Op OP_RETURN) :: read_script fuel s.
Proof. reflexivity. Qed.

#[export] Instance bitcoin_laws : BitcoinLaws.
Proof.
  split.
  - intros. apply length_digest.
  - intros. apply length_digest.
  - simpl. lia.
  - intros d Hd. assert (Z.of_nat (length d) < 2 ^ 32) as Hlen.
    { revert Hd. cbn [push_bytes_try_from bitcoin]. by case_decide. }
    cbn [instructions new_op_return bitcoin]. unfold push. cbn [app length].
    rewrite read_script_return. f_equal.
    destruct (length (_ ++ d)) eqn:E; [|by apply read_script_push].
    exfalso. apply nil_length_inv in E. unfold push_prefix in E.
    repeat case_decide; discriminate E.
  - intros d Hd. simpl. unfold push, push_prefix. by rewrite decide_True by lia.
  - done.
  - intros s d Hd. simpl. unfold push, push_prefix. by rewrite decide_True by lia.
  - intros d Hd. simpl. by rewrite decide_True.
  - intros d Hd. simpl. by rewrite decide_False by lia.
Qed.

Fixpoint many0 {A} (fuel : nat) (p : bytes -> IResult A) (i : bytes) : IResult (list A) :=
  match fuel with
  | O => Some (i, [])
  | S fuel =>
      match p i with
      | None => Some (i, [])
      | Some (i', a) =>
          if decide (length i' < length i)%nat then
            match many0 fuel p i' with Some (r, l) => Some (r, a :: l) | None => None end
          else None
      end
  end.

Lemma many0_fuel {A} n m (p : bytes -> IResult A) i :
  (length i < n)%nat -> (length i < m)%nat -> many0 n p i = many0 m p i.
Proof.
  revert m i. induction n as [|n IH]; intros [|m] i Hn Hm; try lia.
  simpl. destruct (p i) as [[i' a]|]; [|done]. case_decide; [|done].
  by rewrite (IH m i') by lia.
Qed.

#[export] Instance nom : Nom := {|
  nom_take n i := if decide (n <= length i)%nat then Some (drop n i, take n i) else None;
  nom_tag t i := if decide (take (length t) i = t) then Some (drop (length t) i, t) else None;
  nom_rest i := Some ([], i);
  nom_eof i := if decide (i = []) then Some ([], tt) else None;
  nom_be_u8 i := match i with b :: i' => Some (i', b) | [] => None end;
  nom_alt A ps i := foldr (fun p r => match p i with Some x => Some x | None => r end) None ps;
  nom_many0 A p i := many0 (S (length i)) p i |}.

#[export] Instance nom_laws : NomLaws.
Proof.
  split; try done.
  - intros A p i E. simpl. by rewrite E.
  - intros A p i i' a E Hlt. unfold nom_many0, nom. cbn [many0]. rewrite E, decide_True by done.
    by rewrite (many0_fuel (length i) (S (length i'))) by lia.
Qed.

End Runnable.
