(* ===== verification/Types.v ===== *)
(** * Shared types and policies ([lib/types.rs])

    The network parameters, the data the validator stores, the events it
    emits, the sidechain declaration parser and the block producer's voting
    policies. *)

From Stdlib Require Import Strings.Byte Strings.String.
From stdpp Require Import base numbers list gmap strings.
From S2P Require Import Prelude OrderMap Bitcoin.
Open Scope Z_scope.

(** ** Network parameters *)

(** [bitcoin::Network] *)
Inductive Network := Mainnet | Testnet | Testnet4 | Signet | Regtest.
#[global] Instance Network_eq_dec : EqDecision Network.
Proof. solve_decision. Defined.

Inductive Fork := ForkBitcoin | ForkEcash.
#[global] Instance Fork_eq_dec : EqDecision Fork.
Proof. solve_decision. Defined.

Definition fork_detect (subversion : string) : option Fork :=
  if String.prefix "/eCash" subversion then Some ForkEcash
  else if String.prefix "/Satoshi:" subversion then Some ForkBitcoin
  else None.

Definition fork_name (f : Fork) : string :=
  match f with ForkBitcoin => "bitcoin" | ForkEcash => "ecash" end.

Record Thresholds := mkThresholds {
  withdrawal_bundle_max_age : Z;
  withdrawal_bundle_inclusion_threshold : Z;
  unused_sidechain_slot_proposal_max_age : Z;
  unused_sidechain_slot_activation_threshold : Z }.

Definition BTC_MAINNET : Thresholds := mkThresholds 26300 13150 2016 1815.
Definition ECX_MAINNET : Thresholds :=
  mkThresholds 12096 6048
    (unused_sidechain_slot_proposal_max_age BTC_MAINNET)
    (unused_sidechain_slot_activation_threshold BTC_MAINNET).
Definition SHORT : Thresholds := mkThresholds 10 5 10 5.

Definition thresholds_for_network (fork : Fork) (network : Network) : Thresholds :=
  match fork, network with
  | ForkBitcoin, Mainnet => BTC_MAINNET
  | ForkEcash, Mainnet => ECX_MAINNET
  | _, _ => SHORT
  end.

Definition activates_unused_slot (t : Thresholds) (vote_count proposal_age : Z) : bool :=
  bool_decide (unused_sidechain_slot_activation_threshold t < vote_count) &&
  bool_decide (proposal_age <= unused_sidechain_slot_proposal_max_age t).

(** [OpDrivechain]: the opcode a network reserves for treasury outputs. *)
Definition NOP5 : byte := OP_NOP5.
Definition NOP8 : byte := OP_NOP8.

Record NetworkParams := mkNetworkParams {
  np_fork : Fork;
  np_thresholds : Thresholds;
  bip300_activation_height : Z;
  network_magic : option bytes;
  op_drivechain : byte;
  replay_protection_lock_time : option Z }.

Definition NEVER_ACTIVATES : Z := u32_max.

Definition ecash_network_magic (n : Network) : option bytes :=
  match n with
  | Mainnet => Some [xec; xa5; xdc; xb7]
  | Testnet => Some [xec; xa5; xb1; x14]
  | Testnet4 => Some [xec; xa5; xb1; x24]
  | Regtest => Some [xec; xa5; xb1; x34]
  | Signet => None
  end.

Section NetworkParams.
Context `{Bitcoin}.

(** [p2p::compute_signet_magic] *)
Definition compute_signet_magic (fork : Fork) (signet_challenge : bytes) : bytes :=
  let tag := if decide (fork = ForkBitcoin) then [] else [[x65; x63; x61; x73; x68]] in
  let hasher := concat ((fun b => varint_encode (Z.of_nat (List.length b)) ++ b) <$> (tag ++ [signet_challenge])) in
  take 4 (sha256d hasher).

Definition network_params_new (fork : Fork) (network : Network) (signet_challenge : option bytes)
    : NetworkParams :=
  let magic := compute_signet_magic fork <$> signet_challenge in
  let thresholds := thresholds_for_network fork network in
  let height := match network with Mainnet => NEVER_ACTIVATES | _ => 0 end in
  if decide (fork = ForkBitcoin) then mkNetworkParams fork thresholds height magic NOP5 None
  else
    mkNetworkParams fork thresholds
      (if decide (network = Mainnet) then 973728 else height)
      (match ecash_network_magic network with Some m => Some m | None => magic end)
      NOP8 (Some 499999998).
End NetworkParams.

(** ** Sidechains *)

(** [SidechainNumber(u8)] and [M6id(Txid)] are transparent wrappers. *)
Abbreviation SidechainNumber := byte.
Abbreviation M6id := bytes.
Abbreviation BmmCommitment := bytes.
Abbreviation SidechainDescription := bytes.

Record Ctip := mkCtip { ctip_outpoint : OutPoint; ctip_value : Amount }.
#[global] Instance Ctip_eq_dec : EqDecision Ctip.
Proof. solve_decision. Defined.
#[global] Program Instance Ctip_countable : Countable Ctip :=
  inj_countable' (fun c => (ctip_outpoint c, ctip_value c)) (fun p => mkCtip p.1 p.2) _.
Next Obligation. by intros []. Qed.

(** Weight is four times the non-witness size. *)
Definition consolidation_tx_weight (n_treasuries : Z) : Z :=
  let VERSION_AND_LOCKTIME := 4 + 4 in
  let COUNTS := 2 * (1 + 4) in
  let INPUT := 36 + 1 + 4 in
  let TREASURY_OUTPUT := 8 + 1 + 4 in
  4 * (VERSION_AND_LOCKTIME + COUNTS + n_treasuries * (2 * INPUT + TREASURY_OUTPUT)).

Record SidechainProposalId := mkSidechainProposalId {
  spi_sidechain_number : SidechainNumber;
  spi_description_hash : Hash }.
#[global] Instance SidechainProposalId_eq_dec : EqDecision SidechainProposalId.
Proof. solve_decision. Defined.
#[global] Program Instance SidechainProposalId_countable : Countable SidechainProposalId :=
  inj_countable' (fun i => (spi_sidechain_number i, spi_description_hash i))
    (fun p => mkSidechainProposalId p.1 p.2) _.
Next Obligation. by intros []. Qed.

Record SidechainProposal := mkSidechainProposal {
  sp_sidechain_number : SidechainNumber;
  sp_description : SidechainDescription }.
#[global] Instance SidechainProposal_eq_dec : EqDecision SidechainProposal.
Proof. solve_decision. Defined.

Definition compute_id `{Bitcoin} (p : SidechainProposal) : SidechainProposalId :=
  mkSidechainProposalId (sp_sidechain_number p) (sha256d (sp_description p)).

Inductive DeserializeSidechainProposalError := MissingSidechainNumber.

Definition sidechain_proposal_try_from (b : bytes)
    : Res DeserializeSidechainProposalError SidechainProposal :=
  match b with
  | [] => Err MissingSidechainNumber
  | hd :: tl => Ok (mkSidechainProposal hd tl)
  end.

Record SidechainProposalStatus := mkStatus {
  vote_count : Z;
  proposal_height : Z;
  activation_height : option Z }.
#[global] Instance SidechainProposalStatus_eq_dec : EqDecision SidechainProposalStatus.
Proof. solve_decision. Defined.

Record Sidechain := mkSidechain {
  sc_proposal : SidechainProposal;
  sc_status : SidechainProposalStatus }.
#[global] Instance Sidechain_eq_dec : EqDecision Sidechain.
Proof. solve_decision. Defined.

Record TreasuryUtxo := mkTreasuryUtxo {
  tu_sidechain_number : SidechainNumber;
  tu_outpoint : OutPoint;
  tu_total_value : Amount;
  tu_previous_total_value : Amount }.

Record PendingM6idInfo := mkPending { pm_vote_count : Z; pm_proposal_height : Z }.
#[global] Instance PendingM6idInfo_eq_dec : EqDecision PendingM6idInfo.
Proof. solve_decision. Defined.

Definition pending_m6id_info_new (height : Z) : PendingM6idInfo := mkPending 1 height.

(** [dbs::PendingM6ids], an [OrderMap]. *)
Abbreviation PendingM6ids := (list (M6id * PendingM6idInfo)).
(** [BmmCommitments], a [LinkedHashMap]. *)
Abbreviation BmmCommitments := (list (SidechainNumber * BmmCommitment)).

(** ** Events *)

Record Deposit := mkDeposit {
  dep_sequence_number : Z;
  dep_outpoint : OutPoint;
  dep_address : bytes;
  dep_value : Amount }.

Record HeaderInfo := mkHeaderInfo {
  hi_block_hash : BlockHash;
  hi_prev_block_hash : BlockHash;
  hi_height : Z;
  hi_work : Z;
  hi_timestamp : Z }.

Inductive WithdrawalBundleEventKind :=
| Submitted
| Failed
| Succeeded (sequence_number : Z) (transaction : Transaction).

Record WithdrawalBundleEvent := mkWithdrawalBundleEvent {
  wb_sidechain_id : SidechainNumber;
  wb_m6id : M6id;
  wb_kind : WithdrawalBundleEventKind }.

Inductive BlockEvent :=
| BE_Deposits (deposits : gmap SidechainNumber Deposit)
| BE_SidechainProposal (vout : Z) (proposal : SidechainProposal)
| BE_WithdrawalBundle (event : WithdrawalBundleEvent).

Record BlockInfo := mkBlockInfo {
  bi_bmm_commitments : BmmCommitments;
  bi_coinbase_txid : Txid;
  bi_events : list BlockEvent }.

Inductive Event :=
| ConnectBlock (header_info : HeaderInfo) (block_info : BlockInfo)
| DisconnectBlock (block_hash : BlockHash).

Record SidechainWithdrawalBundleEvent := mkSidechainWithdrawalBundleEvent {
  swb_m6id : M6id;
  swb_kind : WithdrawalBundleEventKind }.

Inductive SidechainBlockEvent :=
| SBE_Deposit (d : Deposit)
| SBE_SidechainProposal (vout : Z) (description : SidechainDescription)
| SBE_WithdrawalBundle (event : SidechainWithdrawalBundleEvent).

Record SidechainBlockInfo := mkSidechainBlockInfo {
  sbi_bmm_commitment : option BmmCommitment;
  sbi_events : list SidechainBlockEvent }.

Definition sidechain_proposals (bi : BlockInfo) : list (Z * SidechainProposal) :=
  omap (fun e => match e with BE_SidechainProposal vout p => Some (vout, p) | _ => None end) (bi_events bi).

Definition withdrawal_bundle_events (bi : BlockInfo) : list WithdrawalBundleEvent :=
  omap (fun e => match e with BE_WithdrawalBundle w => Some w | _ => None end) (bi_events bi).

Definition only_sidechain_event (n : SidechainNumber) (e : BlockEvent) : option SidechainBlockEvent :=
  match e with
  | BE_Deposits deposits => SBE_Deposit <$> deposits !! n
  | BE_SidechainProposal _ _ => None
  | BE_WithdrawalBundle (mkWithdrawalBundleEvent id m6id kind) =>
      if decide (id = n) then Some (SBE_WithdrawalBundle (mkSidechainWithdrawalBundleEvent m6id kind))
      else None
  end.

Definition only_sidechain (bi : BlockInfo) (n : SidechainNumber) : SidechainBlockInfo :=
  mkSidechainBlockInfo (om_get n (bi_bmm_commitments bi)) (omap (only_sidechain_event n) (bi_events bi)).

Record TwoWayPegData := mkTwoWayPegData {
  twp_header_info : HeaderInfo;
  twp_block_info : BlockInfo }.

(** ** Sidechain declarations (M1 version 0) *)

(** [std::str::from_utf8]: well-formed byte sequences of the Unicode standard. *)
Definition in_range (lo hi : Z) (b : byte) : bool :=
  bool_decide (lo <= u8_val b) && bool_decide (u8_val b <= hi).
Definition is_cont : byte -> bool := in_range 128 191.

Fixpoint utf8_valid (s : bytes) : bool :=
  match s with
  | [] => true
  | b0 :: s1 =>
      if in_range 0 127 b0 then utf8_valid s1
      else match s1 with
      | [] => false
      | b1 :: s2 =>
          if in_range 194 223 b0 then is_cont b1 && utf8_valid s2
          else match s2 with
          | [] => false
          | b2 :: s3 =>
              if in_range 224 239 b0 then
                (if decide (b0 = xe0) then in_range 160 191 b1
                 else if decide (b0 = xed) then in_range 128 159 b1 else is_cont b1)
                && is_cont b2 && utf8_valid s3
              else match s3 with
              | [] => false
              | b3 :: s4 =>
                  in_range 240 244 b0 &&
                  (if decide (b0 = xf0) then in_range 144 191 b1
                   else if decide (b0 = xf4) then in_range 128 143 b1 else is_cont b1)
                  && is_cont b2 && is_cont b3 && utf8_valid s4
              end
          end
      end
  end.

Definition from_utf8 (s : bytes) : option bytes := if utf8_valid s then Some s else None.

Record SidechainDeclaration := mkSidechainDeclaration {
  sd_title : bytes;
  sd_description : bytes;
  sd_hash_id_1 : bytes;
  sd_hash_id_2 : bytes }.

Inductive ParseSidechainDeclarationError :=
| InvalidUtf8Title
| InvalidUtf8Description
| FailedToDeserialize
| UnknownVersion (v : byte).

Section Declaration.
Context `{Nom}.

Definition sidechain_declaration_try_parse (i : bytes)
    : Res ParseSidechainDeclarationError (bytes * SidechainDeclaration) :=
  '(i, _) ← match nom_tag [x00] i with
            | Some r => Ok r
            | None => match i with
                      | v :: _ => Err (UnknownVersion v)
                      | [] => Err FailedToDeserialize
                      end
            end;
  '(i, title_length) ← ok_or FailedToDeserialize (nom_be_u8 i);
  '(i, title_bytes) ← ok_or FailedToDeserialize (nom_take (Z.to_nat (u8_val title_length)) i);
  title ← ok_or InvalidUtf8Title (from_utf8 title_bytes);
  description_length ← ok_or FailedToDeserialize (checked_sub (Z.of_nat (List.length i)) (32 + 20));
  '(i, description_bytes) ← ok_or FailedToDeserialize (nom_take (Z.to_nat description_length) i);
  description ← ok_or InvalidUtf8Description (from_utf8 description_bytes);
  '(i, hash_id_1) ← ok_or FailedToDeserialize (nom_take 32 i);
  '(i, hash_id_2) ← ok_or FailedToDeserialize (nom_take 20 i);
  Ok (i, mkSidechainDeclaration title description hash_id_1 hash_id_2).

(** [TryFrom<&SidechainDescription>] *)
Definition sidechain_declaration_try_from (d : SidechainDescription)
    : Res ParseSidechainDeclarationError SidechainDeclaration :=
  '(i, decl) ← sidechain_declaration_try_parse d;
  _ ← assert_or_panic (bool_decide (i = []));
  Ok decl.

(** Nothing is left after a successful parse, so the assertion never fires. *)
Lemma try_parse_consumes_all `{!NomLaws} i r decl :
  sidechain_declaration_try_parse i = Ok (r, decl) -> r = [].
Proof.
  unfold sidechain_declaration_try_parse. intros Hp. res_inv.
  repeat match goal with
  | E : nom_take _ _ = Some _ |- _ => apply nom_take_Some in E as [-> E]
  | E : checked_sub _ _ = Some _ |- _ => apply checked_sub_Some in E as [? ->]
  end.
  rewrite !length_app in *. destruct r; [done|]. simpl in *. lia.
Qed.

End Declaration.

(** ** Voting policies of the block producer *)

Inductive AckAllProposalsPolicy := AAP_None | AAP_NewSlots | AAP_All.

Definition auto_acks (p : AckAllProposalsPolicy) (slot_is_used : bool) : bool :=
  match p with AAP_None => false | AAP_NewSlots => negb slot_is_used | AAP_All => true end.

Definition is_automatic (p : AckAllProposalsPolicy) : bool :=
  match p with AAP_None => false | _ => true end.

Inductive WithdrawalBundlePolicy := WBP_None | WBP_Known | WBP_All | WBP_Alarm.

Inductive WithdrawalBundleVote := Abstain | Alarm | Upvote (index : Z).
#[global] Instance WithdrawalBundleVote_eq_dec : EqDecision WithdrawalBundleVote.
Proof. solve_decision. Defined.

(** [Iterator::position] *)
Fixpoint position {A} (p : A -> bool) (l : list A) : option nat :=
  match l with
  | [] => None
  | a :: l => if p a then Some O else S <$> position p l
  end.

Definition first_matching (pending : list M6id) (worth_backing : M6id -> bool)
    : option WithdrawalBundleVote :=
  match position worth_backing pending with
  | Some i => if decide (Z.of_nat i <= u16_max) then Some (Upvote (Z.of_nat i)) else None
  | None => None
  end.

Definition resolve (policy : WithdrawalBundlePolicy) (pending : list M6id)
    (acked ours : gset M6id) : WithdrawalBundleVote :=
  match first_matching pending (fun m => bool_decide (m ∈ acked)) with
  | Some vote => vote
  | None =>
      match policy with
      | WBP_None => Abstain
      | WBP_Alarm => Alarm
      | WBP_Known => default Abstain (first_matching pending (fun m => bool_decide (m ∈ ours)))
      | WBP_All => default Abstain (first_matching pending (fun _ => true))
      end
  end.
