(* ===== verification/Messages.v ===== *)
(** * BIP300/301 messages ([lib/messages.rs])

    The coinbase messages M1-M4 and M7, the M8 request, treasury scripts,
    deposit addresses, the validated list of coinbase messages and the
    coinbase builder. *)

From Stdlib Require Import Strings.Byte.
From stdpp Require Import base numbers list gmap.
From S2P Require Import Prelude OrderMap Bitcoin Types.
Open Scope Z_scope.

(** [bitcoin::script::PushBytesError] *)
Inductive PushBytesError := PushTooLong.

Record M1ProposeSidechain := mkM1 {
  m1_sidechain_number : SidechainNumber;
  m1_description : SidechainDescription }.
Record M2AckSidechain := mkM2 {
  m2_sidechain_number : SidechainNumber;
  m2_description_hash : Hash }.
Record M3ProposeBundle := mkM3 {
  m3_sidechain_number : SidechainNumber;
  m3_bundle_txid : bytes }.
Inductive M4AckBundles :=
| RepeatPrevious
| OneByte (upvotes : list byte)
| TwoBytes (upvotes : list Z)
| LeadingBy50.
Record M7BmmAccept := mkM7 {
  m7_sidechain_number : SidechainNumber;
  m7_sidechain_block_hash : BmmCommitment }.
Record M8BmmRequest := mkM8 {
  m8_sidechain_number : SidechainNumber;
  m8_sidechain_block_hash : BmmCommitment;
  m8_prev_mainchain_block_hash : BlockHash }.

Inductive CoinbaseMessage :=
| CM_M1 (m : M1ProposeSidechain)
| CM_M2 (m : M2AckSidechain)
| CM_M3 (m : M3ProposeBundle)
| CM_M4 (m : M4AckBundles)
| CM_M7 (m : M7BmmAccept).

Definition M1_TAG : bytes := [xd5; xe0; xc4; xaf].
Definition M2_TAG : bytes := [xd6; xe1; xc5; xdf].
Definition M3_TAG : bytes := [xd4; x5a; xa9; x43].
Definition M4_TAG : bytes := [xd7; x7d; x17; x76].
Definition M7_TAG : bytes := [xd1; x61; x73; x68].
Definition M8_TAG : bytes := [x00; xbf; x00].

Definition ABSTAIN_ONE_BYTE : byte := xff.
Definition ABSTAIN_TWO_BYTES : Z := 65535.
Definition ALARM_ONE_BYTE : byte := xfe.
Definition ALARM_TWO_BYTES : Z := 65534.
Definition REPEAT_PREVIOUS_TAG : bytes := [x00].
Definition ONE_BYTE_TAG : bytes := [x01].
Definition TWO_BYTES_TAG : bytes := [x02].
Definition LEADING_BY_50_TAG : bytes := [x03].
Definition MAX_ONE_BYTE_UPVOTE : Z := u8_val ALARM_ONE_BYTE - 1.

(** ** Parsers *)

Section Parsers.
Context `{Nom}.

Definition m1_parse (i : bytes) : IResult M1ProposeSidechain :=
  '(i, n) ← nom_take 1 i;
  n ← n !! 0%nat;
  '(i, description) ← nom_rest i;
  Some (i, mkM1 n description).

Definition m2_parse (i : bytes) : IResult M2AckSidechain :=
  '(i, n) ← nom_take 1 i;
  n ← n !! 0%nat;
  '(i, description_hash) ← nom_take 32 i;
  '(i, _) ← nom_eof i;
  Some (i, mkM2 n description_hash).

Definition m3_parse (i : bytes) : IResult M3ProposeBundle :=
  '(i, n) ← nom_take 1 i;
  n ← n !! 0%nat;
  '(i, bundle_txid) ← nom_take 32 i;
  '(i, _) ← nom_eof i;
  Some (i, mkM3 n bundle_txid).

(** [LittleEndian::read_u16] *)
Definition read_u16 (b : bytes) : Z := le_val (take 2 b).

Definition m4_parse (i : bytes) : IResult M4AckBundles :=
  '(i, m4_tag) ← nom_alt [nom_tag REPEAT_PREVIOUS_TAG; nom_tag ONE_BYTE_TAG;
                          nom_tag TWO_BYTES_TAG; nom_tag LEADING_BY_50_TAG] i;
  if decide (m4_tag = REPEAT_PREVIOUS_TAG) then
    '(i, _) ← nom_eof i; Some (i, RepeatPrevious)
  else if decide (m4_tag = ONE_BYTE_TAG) then
    '(i, upvotes) ← nom_rest i; Some (i, OneByte upvotes)
  else if decide (m4_tag = TWO_BYTES_TAG) then
    '(i, upvotes) ← nom_many0 (nom_take 2) i;
    '(i, _) ← nom_eof i;
    Some (i, TwoBytes (read_u16 <$> upvotes))
  else if decide (m4_tag = LEADING_BY_50_TAG) then
    '(i, _) ← nom_eof i; Some (i, LeadingBy50)
  else None.

Definition parse_bmm_commitment (i : bytes) : IResult BmmCommitment := nom_take 32 i.

Definition m7_parse (i : bytes) : IResult M7BmmAccept :=
  '(i, n) ← nom_take 1 i;
  n ← n !! 0%nat;
  '(i, h) ← parse_bmm_commitment i;
  '(i, _) ← nom_eof i;
  Some (i, mkM7 n h).

Definition m8_parse (i : bytes) : IResult M8BmmRequest :=
  '(i, _) ← nom_tag [OP_RETURN; to_u8 (3 + 1 + 32 + 32)] i;
  '(i, _) ← nom_tag M8_TAG i;
  '(i, n) ← nom_take 1 i;
  n ← n !! 0%nat;
  '(i, h) ← parse_bmm_commitment i;
  '(i, p) ← nom_take 32 i;
  '(i, _) ← nom_eof i;
  Some (i, mkM8 n h p).

(** The part of [CoinbaseMessage::parse] after the script instructions. *)
Definition coinbase_data_parse (i : bytes) : IResult CoinbaseMessage :=
  '(i, message_tag) ← nom_alt [nom_tag M1_TAG; nom_tag M2_TAG; nom_tag M3_TAG;
                               nom_tag M4_TAG; nom_tag M7_TAG] i;
  let lift {A} (f : A -> CoinbaseMessage) (r : IResult A) := prod_map id f <$> r in
  if decide (message_tag = M1_TAG) then lift CM_M1 (m1_parse i)
  else if decide (message_tag = M2_TAG) then lift CM_M2 (m2_parse i)
  else if decide (message_tag = M3_TAG) then lift CM_M3 (m3_parse i)
  else if decide (message_tag = M4_TAG) then lift CM_M4 (m4_parse i)
  else if decide (message_tag = M7_TAG) then lift CM_M7 (m7_parse i)
  else None.

Context `{Bitcoin}.

(** [CoinbaseMessage::parse]: exactly [OP_RETURN <push>]. *)
Definition coinbase_message_parse (script : bytes) : IResult CoinbaseMessage :=
  match instructions script with
  | Some (Op op) :: Some (PushBytes data) :: rest =>
      if decide (op = OP_RETURN) then
        match rest with [] => coinbase_data_parse data | _ :: _ => None end
      else None
  | _ => None
  end.

Definition parse_m8_tx (tx : Transaction) : option M8BmmRequest :=
  output ← head (output tx);
  '(_, bmm_request) ← m8_parse (script_pubkey output);
  Some bmm_request.

Definition try_parse_op_return_address (script : bytes) : option bytes :=
  match instructions script with
  | [Some (Op op); Some (PushBytes address)] => if decide (op = OP_RETURN) then Some address else None
  | _ => None
  end.

(** [OpDrivechain::parse]: [OP_DRIVECHAIN OP_PUSHBYTES_1 <S> OP_TRUE]. *)
Definition op_drivechain_parse (op : byte) (i : bytes) : IResult SidechainNumber :=
  '(i, _) ← nom_tag [op; OP_PUSHBYTES_1] i;
  '(i, n) ← nom_take 1 i;
  n ← n !! 0%nat;
  '(i, _) ← nom_tag [OP_TRUE] i;
  '(i, _) ← nom_eof i;
  Some (i, n).

End Parsers.

(** ** Encoders *)

Section Encoders.
Context `{Bitcoin}.

Definition m4_tag (m : M4AckBundles) : bytes :=
  match m with
  | RepeatPrevious => REPEAT_PREVIOUS_TAG
  | OneByte _ => ONE_BYTE_TAG
  | TwoBytes _ => TWO_BYTES_TAG
  | LeadingBy50 => LEADING_BY_50_TAG
  end.

Definition m4_upvote_bytes (m : M4AckBundles) : bytes :=
  match m with
  | OneByte upvotes => upvotes
  | TwoBytes upvotes => concat (le_bytes 2 <$> upvotes)
  | _ => []
  end.

(** The message each [TryFrom<..> for ScriptBuf] concatenates. *)
Definition coinbase_message_data (m : CoinbaseMessage) : bytes :=
  match m with
  | CM_M1 (mkM1 n description) => M1_TAG ++ [n] ++ description
  | CM_M2 (mkM2 n description_hash) => M2_TAG ++ [n] ++ description_hash
  | CM_M3 (mkM3 n bundle_txid) => M3_TAG ++ [n] ++ bundle_txid
  | CM_M4 m4 => M4_TAG ++ m4_tag m4 ++ m4_upvote_bytes m4
  | CM_M7 (mkM7 n h) => M7_TAG ++ [n] ++ h
  end.

Definition op_return_script (data : bytes) : Res PushBytesError bytes :=
  data ← ok_or PushTooLong (push_bytes_try_from data);
  Ok (new_op_return data).

(** [TryFrom<CoinbaseMessage> for ScriptBuf] *)
Definition coinbase_message_script (m : CoinbaseMessage) : Res PushBytesError bytes :=
  op_return_script (coinbase_message_data m).

Definition m8_data (n : SidechainNumber) (h : BmmCommitment) (p : BlockHash) : Res PushBytesError bytes :=
  ok_or PushTooLong (push_bytes_try_from (M8_TAG ++ [n] ++ h ++ p)).

Definition m8_script_pubkey (n : SidechainNumber) (h : BmmCommitment) (p : BlockHash)
    : Res PushBytesError bytes :=
  d ← m8_data n h p; Ok (new_op_return d).

(** [OpDrivechain::script] ([lib/types.rs]) *)
Definition op_drivechain_script (op : byte) (n : SidechainNumber) : bytes :=
  push_opcode (push_slice (push_opcode [] op) [n]) OP_TRUE.

Definition create_m5_deposit_output (op : byte) (n : SidechainNumber) (deposit_amount : Amount) : TxOut :=
  mkTxOut deposit_amount (op_drivechain_script op n).

Definition create_op_return_output (msg : bytes) : Res PushBytesError TxOut :=
  script ← op_return_script msg; Ok (mkTxOut 0 script).

(** [M4AckBundles::from_votes] *)
Definition from_votes (votes : list WithdrawalBundleVote) : M4AckBundles :=
  let needs_two_bytes :=
    existsb (fun v => match v with Upvote i => bool_decide (MAX_ONE_BYTE_UPVOTE < i) | _ => false end) votes in
  if needs_two_bytes then
    TwoBytes ((fun v => match v with
                        | Abstain => ABSTAIN_TWO_BYTES
                        | Alarm => ALARM_TWO_BYTES
                        | Upvote i => i
                        end) <$> votes)
  else
    OneByte ((fun v => match v with
                       | Abstain => ABSTAIN_ONE_BYTE
                       | Alarm => ALARM_ONE_BYTE
                       | Upvote i => to_u8 i
                       end) <$> votes).

Definition create_sidechain_proposal (n : SidechainNumber) (decl : SidechainDeclaration)
    : Res PushBytesError (TxOut * SidechainDescription) :=
  let description :=
    [x00] ++ [to_u8 (Z.of_nat (length (sd_title decl)))] ++ sd_title decl ++ sd_description decl
    ++ sd_hash_id_1 decl ++ sd_hash_id_2 decl in
  script ← coinbase_message_script (CM_M1 (mkM1 n description));
  Ok (mkTxOut 0 script, description).

End Encoders.

(** ** The validated list of coinbase messages *)

Inductive CoinbaseMessagesError :=
| MultipleM1 (first_index : nat)
| DuplicateM2 (index : nat) (slot : SidechainNumber)
| MultipleM3 (index : nat)
| DuplicateM4 (index : nat)
| DuplicateM7 (index : nat) (slot : SidechainNumber).

Record CoinbaseMessages := mkCoinbaseMessages {
  messages : list (CoinbaseMessage * nat);
  m1_index : option nat;
  m2_ack_slot_to_index : gmap SidechainNumber nat;
  m3_index : option nat;
  m4_index : option nat;
  m7_slot_to_commitment_index : gmap SidechainNumber (BmmCommitment * nat) }.

Definition coinbase_messages_default : CoinbaseMessages := mkCoinbaseMessages [] None ∅ None None ∅.

Definition m2_ack_slot_vout (c : CoinbaseMessages) (n : SidechainNumber) : option nat :=
  m2_ack_slot_to_index c !! n.
Definition m2_ack_slots (c : CoinbaseMessages) : gset SidechainNumber := dom (m2_ack_slot_to_index c).
Definition m3_exists (c : CoinbaseMessages) : bool := bool_decide (is_Some (m3_index c)).
Definition m4_exists (c : CoinbaseMessages) : bool := bool_decide (is_Some (m4_index c)).
Definition m7_bmm_accept_slot_vout (c : CoinbaseMessages) (n : SidechainNumber) : option nat :=
  snd <$> m7_slot_to_commitment_index c !! n.
Definition m7_bmm_accepts (c : CoinbaseMessages) : gmap SidechainNumber BmmCommitment :=
  fst <$> m7_slot_to_commitment_index c.

Definition push (c : CoinbaseMessages) (msg : CoinbaseMessage) (vout : nat)
    : Res CoinbaseMessagesError CoinbaseMessages :=
  let 'mkCoinbaseMessages ms i1 i2 i3 i4 i7 := c in
  let ms' := ms ++ [(msg, vout)] in
  match msg with
  | CM_M1 _ =>
      match i1 with
      | Some first_index => Err (MultipleM1 first_index)
      | None => Ok (mkCoinbaseMessages ms' (Some vout) i2 i3 i4 i7)
      end
  | CM_M2 m2 =>
      match i2 !! m2_sidechain_number m2 with
      | Some index => Err (DuplicateM2 index (m2_sidechain_number m2))
      | None => Ok (mkCoinbaseMessages ms' i1 (<[m2_sidechain_number m2 := vout]> i2) i3 i4 i7)
      end
  | CM_M4 _ =>
      match i4 with
      | Some index => Err (DuplicateM4 index)
      | None => Ok (mkCoinbaseMessages ms' i1 i2 i3 (Some vout) i7)
      end
  | CM_M7 m7 =>
      match i7 !! m7_sidechain_number m7 with
      | Some (_, index) => Err (DuplicateM7 index (m7_sidechain_number m7))
      | None => Ok (mkCoinbaseMessages ms' i1 i2 i3 i4
                      (<[m7_sidechain_number m7 := (m7_sidechain_block_hash m7, vout)]> i7))
      end
  | CM_M3 _ =>
      match i3 with
      | Some index => Err (MultipleM3 index)
      | None => Ok (mkCoinbaseMessages ms' i1 i2 (Some vout) i4 i7)
      end
  end.

Section CoinbaseMessages.
Context `{Bitcoin, Nom}.

(** One iteration of the loops over coinbase outputs: outputs that are not
    messages are skipped. *)
Definition push_output (c : CoinbaseMessages) (o : nat * TxOut) : Res CoinbaseMessagesError CoinbaseMessages :=
  match coinbase_message_parse (script_pubkey o.2) with
  | Some (_, message) => push c message o.1
  | None => Ok c
  end.

(** [enumerate()] *)
Definition enumerate {A} (l : list A) : list (nat * A) := zip (seq 0 (length l)) l.

Definition coinbase_messages_new (outs : list TxOut) : Res CoinbaseMessagesError CoinbaseMessages :=
  foldM push_output (enumerate outs) coinbase_messages_default.

(** ** The coinbase builder *)

Record CoinbaseBuilder := mkCoinbaseBuilder {
  coinbase_txouts : list TxOut;
  cb_messages : CoinbaseMessages }.

Definition coinbase_builder_new (outs : list TxOut) : Res CoinbaseMessagesError CoinbaseBuilder :=
  ms ← coinbase_messages_new outs; Ok (mkCoinbaseBuilder outs ms).

(** [Iterator::skip_while] *)
Fixpoint skip_while {A} (p : A -> bool) (l : list A) : list A :=
  match l with [] => [] | a :: l' => if p a then skip_while p l' else l end.

(** [collect::<Result<Vec<_>, _>>()] *)
Fixpoint mapM_res {E A B} (f : A -> Res E B) (l : list A) : Res E (list B) :=
  match l with
  | [] => Ok []
  | a :: l => b ← f a; bs ← mapM_res f l; Ok (b :: bs)
  end.

Definition build_extension (b : CoinbaseBuilder) : Res PushBytesError (list TxOut) :=
  mapM_res (fun mv : CoinbaseMessage * nat =>
              script ← coinbase_message_script mv.1; Ok (mkTxOut 0 script))
    (skip_while (fun mv => bool_decide (mv.2 < length (coinbase_txouts b))%nat)
       (messages (cb_messages b))).

Definition build (b : CoinbaseBuilder) : Res PushBytesError (list TxOut) :=
  extension ← build_extension b; Ok (coinbase_txouts b ++ extension).

Definition next_vout_index (b : CoinbaseBuilder) : nat :=
  match last (messages (cb_messages b)) with
  | Some (_, vout) => Nat.max (length (coinbase_txouts b)) (vout + 1)
  | None => length (coinbase_txouts b)
  end.

Definition builder_push (b : CoinbaseBuilder) (m : CoinbaseMessage) : Res CoinbaseMessagesError CoinbaseBuilder :=
  ms ← push (cb_messages b) m (next_vout_index b); Ok (mkCoinbaseBuilder (coinbase_txouts b) ms).

Definition propose_sidechain (b : CoinbaseBuilder) (p : SidechainProposal) :=
  builder_push b (CM_M1 (mkM1 (sp_sidechain_number p) (sp_description p))).
Definition ack_sidechain (b : CoinbaseBuilder) (n : SidechainNumber) (description_hash : Hash) :=
  builder_push b (CM_M2 (mkM2 n description_hash)).
Definition propose_bundle (b : CoinbaseBuilder) (n : SidechainNumber) (m6id : M6id) :=
  builder_push b (CM_M3 (mkM3 n m6id)).
Definition ack_bundles (b : CoinbaseBuilder) (m4 : M4AckBundles) := builder_push b (CM_M4 m4).
Definition bmm_accept (b : CoinbaseBuilder) (n : SidechainNumber) (h : BmmCommitment) :=
  builder_push b (CM_M7 (mkM7 n h)).

End CoinbaseMessages.

(** ** Round trips of the encodings *)

(** A message as the Rust types can hold it: hashes are 32 bytes, votes are
    16-bit, and the payload fits a push. *)
Definition message_wf (m : CoinbaseMessage) : Prop :=
  match m with
  | CM_M1 _ => True
  | CM_M2 m2 => length (m2_description_hash m2) = 32%nat
  | CM_M3 m3 => length (m3_bundle_txid m3) = 32%nat
  | CM_M4 (TwoBytes upvotes) => Forall (fun v => 0 <= v <= u16_max) upvotes
  | CM_M4 _ => True
  | CM_M7 m7 => length (m7_sidechain_block_hash m7) = 32%nat
  end.

Definition message_fits (m : CoinbaseMessage) : Prop :=
  Z.of_nat (length (coinbase_message_data m)) < 2 ^ 32.

Section RoundTrips.
Context `{Bitcoin, !BitcoinLaws, Nom, !NomLaws}.

(** [alt] over tags of one length reads back whichever tag is there. *)
Lemma nom_alt_tags (ts : list bytes) (t r : bytes) :
  t ∈ ts -> Forall (fun t' => length t' = length t) ts ->
  nom_alt (nom_tag <$> ts) (t ++ r) = Some (r, t).
Proof.
  induction ts as [|t' ts IH]; [by intros ?%elem_of_nil|].
  intros Hin [Hlen Hall]%Forall_cons. cbn. rewrite nom_alt_cons.
  destruct (decide (t' = t)) as [->|Hne]; [by rewrite nom_tag_app|].
  rewrite nom_tag_eq, Hlen, take_app_length, decide_False by congruence.
  apply IH; [|done]. apply elem_of_cons in Hin as [->|]; done.
Qed.

Lemma nom_alt_tags_Some (ts : list bytes) (i r t : bytes) :
  nom_alt (nom_tag <$> ts) i = Some (r, t) -> i = t ++ r /\ t ∈ ts.
Proof.
  induction ts as [|t' ts IH]; cbn; [by rewrite nom_alt_nil|]. rewrite nom_alt_cons.
  destruct (nom_tag t' i) as [[r' o]|] eqn:E.
  - apply nom_tag_Some in E as [-> ->]. intros [= -> ->]. split; [done|left].
  - intros [-> ?]%IH. split; [done|by right].
Qed.

Lemma le_bytes_2 v : exists a b, le_bytes 2 v = [a; b].
Proof. by eexists _, _. Qed.

Lemma many0_upvotes (upvotes : list Z) :
  Forall (fun v => 0 <= v <= u16_max) upvotes ->
  exists bs, nom_many0 (nom_take 2) (concat (le_bytes 2 <$> upvotes)) = Some ([], bs)
             /\ read_u16 <$> bs = upvotes.
Proof.
  intros Hr. exists (le_bytes 2 <$> upvotes). split.
  - clear Hr. induction upvotes as [|v vs IH]; simpl.
    + apply nom_many0_stop. by rewrite nom_take_eq, decide_False by (simpl; lia).
    + rewrite (nom_many0_step _ _ (concat (le_bytes 2 <$> vs)) (le_bytes 2 v)).
      * by rewrite IH.
      * by apply (nom_take_app (le_bytes 2 v)).
      * apply Nat.lt_lt_succ_r, Nat.lt_succ_diag_r.
  - rewrite <- list_fmap_compose. induction Hr as [|v vs Hv _ IH]; [done|].
    rewrite fmap_cons, IH. f_equal. unfold compose, read_u16.
    rewrite take_ge by (rewrite length_le_bytes; lia). apply le_val_bytes. unfold u16_max in Hv. simpl. lia.
Qed.

(** Every pair [many0(take(2))] reads re-encodes to the bytes it was read from. *)
Lemma many0_take2_Some (i r : bytes) l :
  nom_many0 (nom_take 2) i = Some (r, l) ->
  i = concat l ++ r /\ Forall (fun p => length p = 2%nat) l.
Proof.
  remember (length i) as n eqn:Hn. revert i Hn r l.
  induction (lt_wf n) as [n _ IH]. intros i -> r l.
  destruct (nom_take 2 i) as [[i' p]|] eqn:E.
  - pose proof (nom_take_Some _ _ _ _ E) as [-> Hp].
    rewrite (nom_many0_step _ _ _ _ E) by (rewrite length_app; lia).
    destruct (nom_many0 (nom_take 2) i') as [[r' l']|] eqn:E'; [|done]. intros [= -> <-].
    destruct (IH (length i') ltac:(rewrite length_app; lia) i' eq_refl r l' E') as [-> Hl].
    split; [simpl; by rewrite (assoc_L (++))|by constructor].
  - rewrite (nom_many0_stop _ _ E). by intros [= <- <-].
Qed.

(** [pick_branch] selects the branch of a chain of tag comparisons. *)
Ltac pick_branch := rewrite ?decide_False by done; rewrite decide_True by done.

Lemma m4_parse_encode m4 :
  message_wf (CM_M4 m4) -> m4_parse (m4_tag m4 ++ m4_upvote_bytes m4) = Some ([], m4).
Proof.
  intros Hwf. unfold m4_parse.
  rewrite (nom_alt_tags [REPEAT_PREVIOUS_TAG; ONE_BYTE_TAG; TWO_BYTES_TAG; LEADING_BY_50_TAG]);
    [|destruct m4; cbn; rewrite !elem_of_cons; tauto|destruct m4; by repeat constructor].
  cbn -[decide nom_many0]. destruct m4 as [|u|u|]; cbn [m4_tag m4_upvote_bytes]; pick_branch.
  - by rewrite nom_eof_eq.
  - by rewrite nom_rest_eq.
  - destruct (many0_upvotes u Hwf) as (bs & -> & Hbs). cbn.
    rewrite nom_eof_eq. cbn. by rewrite Hbs.
  - by rewrite nom_eof_eq.
Qed.

Lemma coinbase_data_parse_encode m :
  message_wf m -> coinbase_data_parse (coinbase_message_data m) = Some ([], m).
Proof.
  intros Hwf. unfold coinbase_data_parse.
  assert (Htag : forall t r, t ∈ [M1_TAG; M2_TAG; M3_TAG; M4_TAG; M7_TAG] ->
    nom_alt [nom_tag M1_TAG; nom_tag M2_TAG; nom_tag M3_TAG; nom_tag M4_TAG; nom_tag M7_TAG] (t ++ r)
    = Some (r, t)).
  { intros t r Ht. apply (nom_alt_tags [M1_TAG; M2_TAG; M3_TAG; M4_TAG; M7_TAG]); [done|].
    assert (length t = 4%nat) as -> by (set_unfold in Ht; destruct_or! Ht; by subst).
    by repeat constructor. }
  destruct m as [[n d]|[n h]|[n t]|m4|[n h]]; cbn [coinbase_message_data];
    rewrite Htag by (rewrite !elem_of_cons; tauto); cbn -[decide m1_parse m2_parse m3_parse m4_parse m7_parse];
    pick_branch.
  - unfold m1_parse. rewrite nom_take_1. cbn. by rewrite nom_rest_eq.
  - unfold m2_parse. rewrite nom_take_1. cbn. rewrite nom_take_all by done. cbn.
    by rewrite nom_eof_eq.
  - unfold m3_parse. rewrite nom_take_1. cbn. rewrite nom_take_all by done. cbn.
    by rewrite nom_eof_eq.
  - by rewrite m4_parse_encode.
  - unfold m7_parse, parse_bmm_commitment. rewrite nom_take_1. cbn.
    rewrite nom_take_all by done. cbn. by rewrite nom_eof_eq.
Qed.

(** Parsing accepts nothing but encodings: what is parsed re-encodes to the
    payload it was read from, with no bytes left over. *)

Lemma slot_hash_parse {A} (mk : byte -> bytes -> A) (i r : bytes) (m : A) :
  ('(i, n) ← nom_take 1 i; n ← n !! 0%nat; '(i, h) ← nom_take 32 i; '(i, _) ← nom_eof i;
   Some (i, mk n h)) = Some (r, m) ->
  exists n h, i = n :: h /\ length h = 32%nat /\ r = [] /\ m = mk n h.
Proof.
  destruct (nom_take 1 i) as [[i1 n]|] eqn:E1; [|done].
  apply nom_take_Some in E1 as [-> Hn]. destruct n as [|n [|]]; try done. cbn.
  destruct (nom_take 32 i1) as [[i2 h]|] eqn:E2; [|done]. cbn.
  apply nom_take_Some in E2 as [-> Hh].
  destruct (nom_eof i2) as [[i3 u]|] eqn:E3; [|done]. cbn.
  apply nom_eof_Some in E3 as [-> ->]. intros [= <- <-].
  exists n, h. by rewrite app_nil_r.
Qed.

Lemma m1_parse_exact i r m :
  m1_parse i = Some (r, m) -> r = [] /\ i = m1_sidechain_number m :: m1_description m.
Proof.
  unfold m1_parse. destruct (nom_take 1 i) as [[i1 n]|] eqn:E1; [|done].
  apply nom_take_Some in E1 as [-> Hn]. destruct n as [|n [|]]; try done. cbn.
  rewrite nom_rest_eq. by intros [= <- <-].
Qed.

Lemma m4_parse_exact i r m4 :
  m4_parse i = Some (r, m4) ->
  r = [] /\ i = m4_tag m4 ++ m4_upvote_bytes m4 /\ message_wf (CM_M4 m4).
Proof.
  unfold m4_parse. destruct (nom_alt _ _) as [[i1 t]|] eqn:E; [|done].
  apply (nom_alt_tags_Some [REPEAT_PREVIOUS_TAG; ONE_BYTE_TAG; TWO_BYTES_TAG; LEADING_BY_50_TAG])
    in E as [-> _]. cbn -[decide nom_many0].
  repeat case_decide; try subst t; try done.
  - destruct (nom_eof i1) as [[]|] eqn:E; [|done]. apply nom_eof_Some in E as [-> ->].
    by intros [= <- <-].
  - rewrite nom_rest_eq. by intros [= <- <-].
  - destruct (nom_many0 _ i1) as [[i2 l]|] eqn:E; [|done]. cbn.
    apply many0_take2_Some in E as [-> Hl].
    destruct (nom_eof i2) as [[]|] eqn:E; [|done]. apply nom_eof_Some in E as [-> ->].
    intros [= <- <-]. split; [done|]. cbn. rewrite app_nil_r. split.
    + do 2 f_equal. rewrite <- list_fmap_compose. clear -Hl.
      induction Hl as [|p l Hp _ IH]; [done|]. rewrite fmap_cons. f_equal; [|done].
      unfold compose, read_u16. rewrite take_ge by lia.
      pose proof (le_bytes_val p) as Hv. by rewrite Hp in Hv.
    + apply Forall_fmap. eapply Forall_impl; [exact Hl|]. intros p Hp. cbn in Hp. unfold compose, read_u16.
      rewrite take_ge by lia. pose proof (le_val_range p) as Hr. rewrite Hp in Hr.
      unfold u16_max. simpl in Hr. lia.
  - destruct (nom_eof i1) as [[]|] eqn:E; [|done]. apply nom_eof_Some in E as [-> ->].
    by intros [= <- <-].
Qed.

Lemma coinbase_data_parse_exact i r m :
  coinbase_data_parse i = Some (r, m) -> r = [] /\ i = coinbase_message_data m /\ message_wf m.
Proof.
  unfold coinbase_data_parse. destruct (nom_alt _ _) as [[i1 t]|] eqn:E; [|done].
  apply (nom_alt_tags_Some [M1_TAG; M2_TAG; M3_TAG; M4_TAG; M7_TAG]) in E as [-> _].
  cbn -[decide m1_parse m2_parse m3_parse m4_parse m7_parse].
  repeat case_decide; try subst t; try done; intros ([r' m'] & E & [= -> ->])%fmap_Some.
  - apply m1_parse_exact in E as [-> ->]. by destruct m'.
  - by apply (slot_hash_parse mkM2) in E as (n & h & -> & Hh & -> & ->).
  - by apply (slot_hash_parse mkM3) in E as (n & h & -> & Hh & -> & ->).
  - by apply m4_parse_exact in E as (-> & -> & Hwf).
  - by apply (slot_hash_parse mkM7) in E as (n & h & -> & Hh & -> & ->).
Qed.

Lemma op_return_script_ok d :
  Z.of_nat (length d) < 2 ^ 32 -> op_return_script d = Ok (new_op_return d).
Proof. intros Hd. unfold op_return_script. by rewrite push_bytes_small. Qed.

Lemma coinbase_message_parse_script m :
  message_wf m -> message_fits m ->
  coinbase_message_script m = Ok (new_op_return (coinbase_message_data m)) /\
  coinbase_message_parse (new_op_return (coinbase_message_data m)) = Some ([], m).
Proof.
  intros Hwf Hfits. split; [by apply op_return_script_ok|].
  unfold coinbase_message_parse. rewrite instructions_new_op_return by by apply push_bytes_small.
  rewrite decide_True by done. by apply coinbase_data_parse_encode.
Qed.

(** Round trip of the coinbase messages: the script built for an M1, M2,
    M3, M4 or M7 message is parsed back to that message with no bytes left. *)
Theorem coinbase_message_roundtrip m :
  message_wf m -> message_fits m ->
  exists script, coinbase_message_script m = Ok script /\ coinbase_message_parse script = Some ([], m).
Proof.
  intros Hwf Hfits. eexists. by apply coinbase_message_parse_script.
Qed.

(** Exactness of the coinbase parser: a script parsed as a message is
    [OP_RETURN] and one push of exactly that message's encoding (so M2, M3 and
    M7 have their 38-byte form and M4 versions 0 and 3 have nothing after the
    version byte), and nothing is left unread. *)
Theorem coinbase_message_parse_exact script r m :
  coinbase_message_parse script = Some (r, m) ->
  r = [] /\ message_wf m /\
  instructions script = [Some (Op OP_RETURN); Some (PushBytes (coinbase_message_data m))].
Proof.
  unfold coinbase_message_parse. destruct (instructions script) as [|[[op|]|] [|[[|d]|] [|]]]; try done.
  - case_decide as Hop; [|done]. subst. by intros (-> & -> & Hwf)%coinbase_data_parse_exact.
  - by case_decide.
Qed.

(** Round trip of M8 requests: the script built for a request is parsed
    back to it. *)
Theorem m8_roundtrip n h p :
  length h = 32%nat -> length p = 32%nat ->
  exists script, m8_script_pubkey n h p = Ok script /\ m8_parse script = Some ([], mkM8 n h p).
Proof.
  intros Hh Hp. assert (Hlen : length (M8_TAG ++ [n] ++ h ++ p) = 68%nat).
  { rewrite !length_app, Hh, Hp. done. }
  exists (new_op_return (M8_TAG ++ [n] ++ h ++ p)). split.
  - unfold m8_script_pubkey, m8_data. by rewrite push_bytes_small by lia.
  - rewrite new_op_return_short by lia. rewrite Hlen. unfold m8_parse.
    change (Z.of_nat 68) with (3 + 1 + 32 + 32).
    pose proof (nom_tag_app [OP_RETURN; to_u8 (3 + 1 + 32 + 32)]) as E.
    cbn [app] in E. rewrite E. cbn [mbind option_bind]. rewrite nom_tag_app.
    cbn [mbind option_bind app]. rewrite nom_take_1. cbn. unfold parse_bmm_commitment.
    rewrite nom_take_app by done. cbn. rewrite nom_take_all by done. cbn. by rewrite nom_eof_eq.
Qed.

Lemma op_drivechain_parse_Some op i r n :
  op_drivechain_parse op i = Some (r, n) <-> r = [] /\ i = op_drivechain_script op n.
Proof.
  unfold op_drivechain_script. rewrite !push_opcode_app, push_slice_short by (simpl; lia).
  unfold op_drivechain_parse. split.
  - destruct (nom_tag _ i) as [[i1 t]|] eqn:E1; [|done]. apply nom_tag_Some in E1 as [-> ->]. cbn.
    destruct (nom_take 1 i1) as [[i2 m]|] eqn:E2; [|done]. apply nom_take_Some in E2 as [-> Hm].
    destruct m as [|m [|]]; try done. cbn.
    destruct (nom_tag _ i2) as [[i3 t]|] eqn:E3; [|done]. apply nom_tag_Some in E3 as [-> ->]. cbn.
    destruct (nom_eof i3) as [[i4 []]|] eqn:E4; [|done]. apply nom_eof_Some in E4 as [-> ->]. cbn.
    by intros [= <- <-].
  - intros [-> ->]. cbn [app length].
    pose proof (nom_tag_app [op; OP_PUSHBYTES_1] [n; OP_TRUE]) as E. cbn [app] in E.
    change (to_u8 (Z.of_nat 1)) with OP_PUSHBYTES_1. rewrite E. cbn. rewrite nom_take_1. cbn.
    rewrite nom_tag_eq. cbn [length take drop]. rewrite decide_True by done. cbn.
    by rewrite nom_eof_eq.
Qed.

(** Treasury scripts are exact: an output script is recognised under a
    network's opcode exactly when it is the script built for that opcode and
    slot, without trailing bytes, so a treasury output of a network that uses
    another opcode is an ordinary output. *)
Theorem treasury_scripts_exact op op' i n :
  (forall r, op_drivechain_parse op i = Some (r, n) <-> r = [] /\ i = op_drivechain_script op n) /\
  (op_drivechain_parse op' (op_drivechain_script op n) <> None <-> op = op').
Proof.
  split; [intros r; apply op_drivechain_parse_Some|]. split.
  - destruct (op_drivechain_parse op' _) as [[r m]|] eqn:E; [|done]. intros _.
    apply op_drivechain_parse_Some in E as [_ E]. unfold op_drivechain_script in E.
    rewrite !push_opcode_app, !push_slice_short in E by (simpl; lia). by injection E.
  - intros -> E. assert (op_drivechain_parse op' (op_drivechain_script op' n) = Some ([], n)).
    { by apply op_drivechain_parse_Some. }
    congruence.
Qed.

(** Round trip of sidechain declarations: the M1 output created for a
    declaration (whose title has at most 255 bytes) parses as an M1 for that
    slot, and its description parses back to the declaration. *)
Theorem sidechain_proposal_roundtrip n decl :
  (length (sd_title decl) < 256)%nat -> utf8_valid (sd_title decl) = true ->
  utf8_valid (sd_description decl) = true ->
  length (sd_hash_id_1 decl) = 32%nat -> length (sd_hash_id_2 decl) = 20%nat ->
  Z.of_nat (length (sd_description decl)) < 2 ^ 31 ->
  exists out d, create_sidechain_proposal n decl = Ok (out, d) /\
    coinbase_message_parse (script_pubkey out) = Some ([], CM_M1 (mkM1 n d)) /\
    sidechain_declaration_try_from d = Ok decl.
Proof.
  intros Ht Hut Hud Hh1 Hh2 Hd. destruct decl as [title desc h1 h2]; cbn in *.
  unfold create_sidechain_proposal. cbn [sd_title sd_description sd_hash_id_1 sd_hash_id_2].
  set (d := [x00] ++ _).
  destruct (coinbase_message_parse_script (CM_M1 (mkM1 n d))) as [Hs Hp]; [done| |].
  { unfold message_fits. cbn [coinbase_message_data]. subst d.
    rewrite !length_app, Hh1, Hh2. cbn [length M1_TAG]. lia. }
  rewrite Hs. eexists _, _. split; [done|]. split; [exact Hp|].
  unfold sidechain_declaration_try_from, sidechain_declaration_try_parse. subst d.
  rewrite nom_tag_app. cbn [mbind Res_bind app]. rewrite nom_be_u8_eq. cbn [ok_or mbind Res_bind].
  rewrite u8_val_to_u8, Z.mod_small, Nat2Z.id by lia.
  rewrite nom_take_app by done. cbn [ok_or mbind Res_bind]. unfold from_utf8. rewrite Hut. cbn [ok_or mbind Res_bind].
  replace (checked_sub _ _) with (Some (Z.of_nat (length desc))).
  2:{ symmetry. apply checked_sub_Some. rewrite !length_app. lia. }
  cbn [ok_or mbind Res_bind]. rewrite Nat2Z.id, nom_take_app by done. cbn [ok_or mbind Res_bind].
  rewrite Hud. cbn [ok_or mbind Res_bind]. rewrite nom_take_app by done. cbn [ok_or mbind Res_bind].
  rewrite nom_take_all by done. done.
Qed.

(** A title of 256 bytes or more does not survive: its length is stored in one
    byte, so the description parses to another declaration or not at all. *)
Theorem long_title_does_not_roundtrip n decl out d :
  (256 <= length (sd_title decl))%nat ->
  create_sidechain_proposal n decl = Ok (out, d) ->
  sidechain_declaration_try_from d <> Ok decl.
Proof.
  intros Ht Hc Hp. unfold create_sidechain_proposal in Hc. res_inv.
  unfold sidechain_declaration_try_from, sidechain_declaration_try_parse in Hp.
  cbn [app] in Hp. pose proof (nom_tag_app [x00]) as E. cbn [app] in E. rewrite E in Hp.
  cbn [mbind Res_bind] in Hp. rewrite nom_be_u8_eq in Hp. cbn [ok_or mbind Res_bind] in Hp.
  rewrite u8_val_to_u8 in Hp. res_inv.
  match goal with E : nom_take (Z.to_nat (_ mod 256)) _ = _ |- _ => apply nom_take_Some in E as [_ E] end.
  match goal with E : from_utf8 _ = Some _ |- _ => unfold from_utf8 in E; case_match; simplify_eq end.
  match goal with E : from_utf8 _ = Some _ |- _ => unfold from_utf8 in E; case_match; simplify_eq end.
  cbn [sd_title] in *.
  match goal with E : length ?t = Z.to_nat (Z.of_nat (length ?t) mod 256) |- _ =>
    pose proof (Z.mod_pos_bound (Z.of_nat (length t)) 256) end. lia.
Qed.
End RoundTrips.

(** ** What [CoinbaseMessages] accepts *)

Definition m1_vouts (ms : list (CoinbaseMessage * nat)) : list nat :=
  omap (fun mv => match mv.1 with CM_M1 _ => Some mv.2 | _ => None end) ms.
Definition m2_slots (ms : list (CoinbaseMessage * nat)) : list (SidechainNumber * nat) :=
  omap (fun mv => match mv.1 with CM_M2 m => Some (m2_sidechain_number m, mv.2) | _ => None end) ms.
Definition m3_vouts (ms : list (CoinbaseMessage * nat)) : list nat :=
  omap (fun mv => match mv.1 with CM_M3 _ => Some mv.2 | _ => None end) ms.
Definition m4_vouts (ms : list (CoinbaseMessage * nat)) : list nat :=
  omap (fun mv => match mv.1 with CM_M4 _ => Some mv.2 | _ => None end) ms.
Definition m7_slots (ms : list (CoinbaseMessage * nat)) : list (SidechainNumber * (BmmCommitment * nat)) :=
  omap (fun mv => match mv.1 with
                  | CM_M7 m => Some (m7_sidechain_number m, (m7_sidechain_block_hash m, mv.2))
                  | _ => None end) ms.

(** BIP300/301: one M1, one M3 and one M4 per coinbase, one M2 and one M7 per
    slot. *)
Definition no_duplicates (ms : list (CoinbaseMessage * nat)) : Prop :=
  (length (m1_vouts ms) <= 1)%nat /\ NoDup (m2_slots ms).*1 /\ (length (m3_vouts ms) <= 1)%nat /\
  (length (m4_vouts ms) <= 1)%nat /\ NoDup (m7_slots ms).*1.

(** The indices of a [CoinbaseMessages] describe its list of messages. *)
Record cm_wf (c : CoinbaseMessages) : Prop := {
  cm_m1 : m1_vouts (messages c) = option_list (m1_index c);
  cm_m2 : m2_ack_slot_to_index c = list_to_map (m2_slots (messages c));
  cm_m2_nodup : NoDup (m2_slots (messages c)).*1;
  cm_m3 : m3_vouts (messages c) = option_list (m3_index c);
  cm_m4 : m4_vouts (messages c) = option_list (m4_index c);
  cm_m7 : m7_slot_to_commitment_index c = list_to_map (m7_slots (messages c));
  cm_m7_nodup : NoDup (m7_slots (messages c)).*1 }.

Lemma cm_wf_no_duplicates c : cm_wf c -> no_duplicates (messages c).
Proof.
  intros [E1 _ N2 E3 E4 _ N7]. unfold no_duplicates. rewrite E1, E3, E4.
  split_and!; try done; by destruct (m1_index c), (m3_index c), (m4_index c); simpl; lia.
Qed.

Lemma no_duplicates_app_l ms1 ms2 : no_duplicates (ms1 ++ ms2) -> no_duplicates ms1.
Proof.
  unfold no_duplicates, m1_vouts, m2_slots, m3_vouts, m4_vouts, m7_slots.
  rewrite !omap_app, !fmap_app, !length_app. intros (? & ?%NoDup_app & ? & ? & ?%NoDup_app).
  split_and!; try lia; naive_solver.
Qed.

Lemma list_to_map_snoc {A} (l : list (SidechainNumber * A)) k x :
  k ∉ l.*1 -> (list_to_map (l ++ [(k, x)]) : gmap SidechainNumber A) = <[k := x]> (list_to_map l).
Proof.
  intros Hk. rewrite list_to_map_app. cbn. rewrite insert_empty.
  apply map_eq. intros j. rewrite lookup_union, lookup_insert.
  destruct (decide (k = j)) as [<-|].
  - by rewrite (not_elem_of_list_to_map_1 _ _ Hk), lookup_singleton_eq.
  - rewrite lookup_singleton_ne by done. by destruct (list_to_map l !! j).
Qed.

Lemma NoDup_fmap_fst_snoc {A} (l : list (SidechainNumber * A)) k x :
  NoDup (l ++ [(k, x)]).*1 <-> NoDup l.*1 /\ k ∉ l.*1.
Proof.
  rewrite fmap_app, NoDup_app. cbn. split.
  - intros (? & Hd & _). split; [done|]. intros Hk. apply (Hd _ Hk). by left.
  - intros [? Hk]. split_and!; [done| |apply NoDup_singleton].
    intros y Hy ->%list_elem_of_singleton. done.
Qed.

Lemma slot_free {A} (l : list (SidechainNumber * A)) k :
  (list_to_map l : gmap SidechainNumber A) !! k = None <-> k ∉ l.*1.
Proof. split; [apply not_elem_of_list_to_map_2|apply not_elem_of_list_to_map_1]. Qed.

Lemma push_spec c m v :
  cm_wf c ->
  (no_duplicates (messages c ++ [(m, v)]) ->
     exists c', push c m v = Ok c' /\ messages c' = messages c ++ [(m, v)] /\ cm_wf c') /\
  (~ no_duplicates (messages c ++ [(m, v)]) -> exists e, push c m v = Err e).
Proof.
  intros Hwf. pose proof (cm_wf_no_duplicates c Hwf) as Hnd.
  destruct Hwf as [E1 E2 N2 E3 E4 E7 N7]. destruct c as [ms i1 i2 i3 i4 i7]; cbn in *.
  unfold no_duplicates in *.
  assert (Hms : forall {B} (f : CoinbaseMessage * nat -> option B), omap f (ms ++ [(m, v)])
    = omap f ms ++ match f (m, v) with Some x => [x] | None => [] end).
  { intros B f. rewrite omap_app. cbn. by destruct (f (m, v)). }
  unfold m1_vouts, m2_slots, m3_vouts, m4_vouts, m7_slots in *. rewrite !Hms.
  destruct m as [m|m|m|m|m]; cbn [fst snd push]; rewrite ?app_nil_r.
  - rewrite E1, length_app. destruct i1 as [i|]; cbn; split; intros Hd.
    + exfalso. destruct_and! Hd. simpl in *. lia.
    + by eexists.
    + eexists. split; [done|]. split; [done|]. split; cbn; rewrite ?Hms; cbn; rewrite ?app_nil_r, ?E1; done.
    + exfalso. destruct_and! Hnd. apply Hd. split_and!; done.
  - rewrite NoDup_fmap_fst_snoc. destruct (i2 !! m2_sidechain_number m) as [i|] eqn:Ei.
    + split; intros Hd; [|by eexists]. exfalso.
      assert (Hs : i2 !! m2_sidechain_number m = None); [|congruence]. rewrite E2. apply slot_free. tauto.
    + rewrite E2 in Ei. apply slot_free in Ei. split; intros Hd; [|exfalso; tauto].
      eexists. split; [done|]. split; [done|]. split; cbn; rewrite ?Hms; cbn; rewrite ?app_nil_r; try done.
      * by rewrite list_to_map_snoc, E2.
      * by apply NoDup_fmap_fst_snoc.
  - rewrite E3, length_app. destruct i3 as [i|]; cbn; split; intros Hd.
    + exfalso. destruct_and! Hd. simpl in *. lia.
    + by eexists.
    + eexists. split; [done|]. split; [done|]. split; cbn; rewrite ?Hms; cbn; rewrite ?app_nil_r, ?E3; done.
    + exfalso. destruct_and! Hnd. apply Hd. split_and!; done.
  - rewrite E4, length_app. destruct i4 as [i|]; cbn; split; intros Hd.
    + exfalso. destruct_and! Hd. simpl in *. lia.
    + by eexists.
    + eexists. split; [done|]. split; [done|]. split; cbn; rewrite ?Hms; cbn; rewrite ?app_nil_r, ?E4; done.
    + exfalso. destruct_and! Hnd. apply Hd. split_and!; done.
  - rewrite NoDup_fmap_fst_snoc. destruct (i7 !! m7_sidechain_number m) as [[h i]|] eqn:Ei.
    + split; intros Hd; [|by eexists]. exfalso.
      assert (Hs : i7 !! m7_sidechain_number m = None); [|congruence]. rewrite E7. apply slot_free. tauto.
    + rewrite E7 in Ei. apply slot_free in Ei. split; intros Hd; [|exfalso; tauto].
      eexists. split; [done|]. split; [done|]. split; cbn; rewrite ?Hms; cbn; rewrite ?app_nil_r; try done.
      * by rewrite list_to_map_snoc, E7.
      * by apply NoDup_fmap_fst_snoc.
Qed.

Lemma cm_wf_default : cm_wf coinbase_messages_default.
Proof. split; done || constructor. Qed.

Section CoinbaseSpec.
Context `{Bitcoin, !BitcoinLaws, Nom, !NomLaws}.

(** The messages of a coinbase, with the index of their output. *)
Definition parsed_messages (outs : list (nat * TxOut)) : list (CoinbaseMessage * nat) :=
  omap (fun o => (fun r => (r.2, o.1)) <$> coinbase_message_parse (script_pubkey o.2)) outs.

Definition push_all (ms : list (CoinbaseMessage * nat)) (c : CoinbaseMessages) :=
  foldM (fun c mv => push c mv.1 mv.2) ms c.

Lemma foldM_push_output outs c : foldM push_output outs c = push_all (parsed_messages outs) c.
Proof.
  revert c. induction outs as [|o outs IH]; intros c; [done|].
  unfold push_all, parsed_messages. cbn. unfold push_output.
  destruct (coinbase_message_parse _) as [[r m]|]; cbn; [|apply IH].
  destruct (push c m o.1); cbn; [apply IH|done..].
Qed.

Lemma push_all_spec ms c :
  cm_wf c ->
  (no_duplicates (messages c ++ ms) ->
     exists c', push_all ms c = Ok c' /\ messages c' = messages c ++ ms /\ cm_wf c') /\
  (~ no_duplicates (messages c ++ ms) -> exists e, push_all ms c = Err e).
Proof.
  revert c. induction ms as [|[m v] ms IH]; intros c Hwf; cbn.
  - rewrite app_nil_r. split; [by exists c|]. intros []. by apply cm_wf_no_duplicates.
  - replace (messages c ++ (m, v) :: ms) with ((messages c ++ [(m, v)]) ++ ms)
      by by rewrite <- app_assoc.
    destruct (push_spec c m v Hwf) as [Hok Herr].
    split; intros Hd.
    + destruct Hok as (c1 & -> & Hm & Hwf1); [by eapply no_duplicates_app_l|]. cbn.
      rewrite <- Hm in Hd |- *. by apply (IH c1 Hwf1).
    + destruct (push c m v) as [c1|e|] eqn:E; cbn; [|by eexists|].
      * destruct Hok as (c1' & [= <-] & Hm & Hwf1).
        { apply dec_stable. intros Hn. destruct (Herr Hn) as [e Ee]. done. }
        rewrite <- Hm in Hd. by apply (IH c1 Hwf1).
      * exfalso. destruct c as [? [] ? [] [] ?], m; cbn in E; by repeat case_match.
Qed.

(** [CoinbaseMessages::new] accepts a coinbase exactly when its messages
    are without duplicates (one M1, M3 and M4, one M2 and M7 per slot), keeps
    all of them in output order, and its slot indices describe them; otherwise
    it returns an error (never a panic). *)
Theorem coinbase_messages_new_spec outs :
  let ms := parsed_messages (enumerate outs) in
  (no_duplicates ms ->
     exists c, coinbase_messages_new outs = Ok c /\ messages c = ms /\ cm_wf c) /\
  (~ no_duplicates ms -> exists e, coinbase_messages_new outs = Err e).
Proof.
  cbn. unfold coinbase_messages_new. rewrite foldM_push_output.
  apply (push_all_spec _ coinbase_messages_default cm_wf_default).
Qed.

Lemma cm_wf_eq c c' : cm_wf c -> cm_wf c' -> messages c = messages c' -> c = c'.
Proof.
  assert (Hinj : forall (o o' : option nat), option_list o = option_list o' -> o = o').
  { intros [] []; cbn; congruence. }
  destruct c, c'. intros [E1 E2 _ E3 E4 E7 _] [E1' E2' _ E3' E4' E7' _] Hm. cbn in *. subst.
  f_equal; try congruence; apply Hinj; congruence.
Qed.

Lemma coinbase_messages_new_Ok outs c :
  coinbase_messages_new outs = Ok c <-> cm_wf c /\ messages c = parsed_messages (enumerate outs).
Proof.
  unfold coinbase_messages_new. rewrite foldM_push_output.
  destruct (push_all_spec (parsed_messages (enumerate outs)) _ cm_wf_default) as [Hok Herr].
  cbn in Hok, Herr. split.
  - intros E. destruct Hok as (c' & E' & ? & ?).
    { apply dec_stable. intros Hn. destruct (Herr Hn). congruence. }
    rewrite E in E'. by injection E' as <-.
  - intros [Hwf Hm]. destruct Hok as (c' & -> & Hm' & Hwf').
    { rewrite <- Hm. by apply cm_wf_no_duplicates. }
    f_equal. apply cm_wf_eq; congruence.
Qed.

(** ** The builder *)

(** The states of a builder over the outputs [outs], by calls of
    [propose_sidechain], [ack_sidechain], [propose_bundle], [ack_bundles] and
    [bmm_accept], which all end in a push. *)
Inductive builder_reachable (outs : list TxOut) : CoinbaseBuilder -> Prop :=
| builder_start b : coinbase_builder_new outs = Ok b -> builder_reachable outs b
| builder_step b m b' :
    builder_reachable outs b -> message_wf m -> message_fits m ->
    builder_push b m = Ok b' -> builder_reachable outs b'.

(** The messages of a builder: those of the original outputs, then the new
    ones, which will occupy the following output indices. *)
Record builder_wf (outs : list TxOut) (b : CoinbaseBuilder) (ext : list (CoinbaseMessage * nat)) : Prop := {
  bw_outs : coinbase_txouts b = outs;
  bw_messages : messages (cb_messages b) = parsed_messages (enumerate outs) ++ ext;
  bw_vouts : ext.*2 = seq (length outs) (length ext);
  bw_cm : cm_wf (cb_messages b);
  bw_ext : Forall (fun mv => message_wf mv.1 /\ message_fits mv.1) ext }.

Lemma parsed_messages_vouts outs mv :
  mv ∈ parsed_messages (enumerate outs) -> (mv.2 < length outs)%nat.
Proof.
  unfold parsed_messages, enumerate. intros ([i o] & Hin & E)%list_elem_of_omap.
  apply fmap_Some in E as (r & _ & ->). cbn. apply elem_of_zip_l in Hin.
  apply elem_of_seq in Hin. lia.
Qed.

Lemma next_vout_index_ext outs b ext :
  builder_wf outs b ext -> next_vout_index b = (length outs + length ext)%nat.
Proof.
  intros [Ho Hm Hv _ _]. unfold next_vout_index. rewrite Hm, Ho.
  destruct ext as [|mv ext _] using rev_ind; cbn.
  - rewrite app_nil_r. destruct (last _) as [[m v]|] eqn:E; [|lia].
    apply last_Some_elem_of, parsed_messages_vouts in E. cbn in E. lia.
  - rewrite app_assoc, last_snoc. destruct mv as [m v].
    rewrite fmap_app, length_app in Hv. cbn in Hv.
    rewrite seq_app in Hv. cbn in Hv. apply app_inj_tail in Hv as [_ ->].
    rewrite length_app. cbn. lia.
Qed.

Lemma builder_new_wf outs b : coinbase_builder_new outs = Ok b -> builder_wf outs b [].
Proof.
  intros Hb. unfold coinbase_builder_new in Hb. res_inv.
  match goal with E : coinbase_messages_new _ = _ |- _ => apply coinbase_messages_new_Ok in E as [Hc Hms] end.
  split; cbn; rewrite ?app_nil_r; done || constructor.
Qed.

Lemma builder_push_wf outs b ext m b' :
  builder_wf outs b ext -> message_wf m -> message_fits m -> builder_push b m = Ok b' ->
  builder_wf outs b' (ext ++ [(m, (length outs + length ext)%nat)]).
Proof.
  intros Hwf Hm Hf Hp. unfold builder_push in Hp. res_inv.
  rewrite (next_vout_index_ext _ _ _ Hwf) in *. destruct Hwf as [Ho Hms Hv Hc He].
  destruct (push_spec (cb_messages b) m (length outs + length ext) Hc) as [Hok Herr].
  destruct Hok as (c' & E' & Hm' & Hc').
  { apply dec_stable. intros Hn. destruct (Herr Hn). congruence. }
  match goal with E : push _ _ _ = Ok _ |- _ => rewrite E in E'; injection E' as <- end.
  split; cbn; try done.
  - by rewrite Hm', Hms, app_assoc.
  - by rewrite fmap_app, length_app, seq_app, Hv.
  - apply Forall_app. split; [done|]. by apply Forall_singleton.
Qed.

Lemma builder_reachable_wf outs b : builder_reachable outs b -> exists ext, builder_wf outs b ext.
Proof.
  induction 1 as [b Hb|b m b' _ [ext Hwf] Hm Hf Hp]; [exists []; by apply builder_new_wf|].
  eexists. by eapply builder_push_wf.
Qed.

Lemma skip_while_app {A} (p : A -> bool) l1 l2 :
  Forall (fun a => p a = true) l1 -> skip_while p (l1 ++ l2) = skip_while p l2.
Proof. induction 1 as [|a l1 Ha _ IH]; cbn; [done|]. by rewrite Ha. Qed.

Lemma skip_while_id {A} (p : A -> bool) l :
  Forall (fun a => p a = false) l -> skip_while p l = l.
Proof. destruct 1 as [|a l Ha _]; cbn; [done|]. by rewrite Ha. Qed.

Definition message_output (mv : CoinbaseMessage * nat) : TxOut :=
  mkTxOut 0 (new_op_return (coinbase_message_data mv.1)).

Lemma build_extension_ext outs b ext :
  builder_wf outs b ext -> build_extension b = Ok (message_output <$> ext).
Proof.
  intros [Ho Hm Hv Hc He]. unfold build_extension. rewrite Hm, Ho, skip_while_app, skip_while_id.
  - clear Hm Hv Hc. induction He as [|mv ext [Hw Hf] _ IH]; cbn; [done|].
    rewrite (proj1 (coinbase_message_parse_script mv.1 Hw Hf)). cbn. by rewrite IH.
  - apply Forall_forall. intros mv Hin. apply bool_decide_eq_false.
    assert (Hs : mv.2 ∈ ext.*2) by by apply list_elem_of_fmap_2.
    rewrite Hv in Hs. apply elem_of_seq in Hs. lia.
  - apply Forall_forall. intros mv Hin. apply bool_decide_eq_true. by apply parsed_messages_vouts.
Qed.

Lemma parsed_messages_output ext k :
  Forall (fun mv => message_wf mv.1 /\ message_fits mv.1) ext ->
  ext.*2 = seq k (length ext) ->
  parsed_messages (zip (seq k (length ext)) (message_output <$> ext)) = ext.
Proof.
  revert k. induction ext as [|[m v] ext IH]; intros k He Hv; [done|].
  apply Forall_cons in He as [[Hw Hf] He]. cbn in Hv. injection Hv as -> Hv.
  unfold parsed_messages. cbn [length seq fmap list_fmap zip_with zip omap list_omap].
  cbn. rewrite (proj2 (coinbase_message_parse_script m Hw Hf)). cbn. f_equal.
  by apply (IH (S k)).
Qed.

Lemma builder_wf_build outs b ext :
  builder_wf outs b ext ->
  build b = Ok (outs ++ (message_output <$> ext)) /\ coinbase_messages_new (outs ++ (message_output <$> ext)) = Ok (cb_messages b).
Proof.
  intros Hwf. unfold build. rewrite (build_extension_ext _ _ _ Hwf). destruct Hwf as [Ho Hm Hv Hc He]. cbn. rewrite Ho.
  split; [done|]. apply coinbase_messages_new_Ok. split; [done|]. rewrite Hm.
  unfold enumerate. rewrite length_app, seq_app, zip_with_app by by rewrite length_seq.
  unfold parsed_messages at 2. rewrite omap_app. f_equal.
  rewrite length_fmap. symmetry. by apply parsed_messages_output.
Qed.

(** C40. The validator reads back what the builder wrote: whatever sequence of
    messages was pushed, building succeeds, keeps the original outputs as a
    prefix, and parsing the built outputs yields exactly the builder's
    messages, at the same output indices. *)
Theorem builder_roundtrip outs b :
  builder_reachable outs b ->
  exists ext, build b = Ok (outs ++ ext) /\ coinbase_messages_new (outs ++ ext) = Ok (cb_messages b).
Proof.
  intros Hb. destruct (builder_reachable_wf _ _ Hb) as [ext Hwf]. eexists. by apply builder_wf_build.
Qed.

End CoinbaseSpec.
