(* ===== verification/M6.v ===== *)
(** * Withdrawal transactions ([lib/messages.rs], [lib/types.rs])

    The blinded id of a withdrawal ([OpDrivechain::compute_m6id]), the blinded
    bundle a sidechain proposes ([BlindedM6]), and its completion to a
    mainchain transaction ([BlindedM6::into_m6]). *)

From Stdlib Require Import Strings.Byte.
From stdpp Require Import base numbers list gmap.
From S2P Require Import Prelude OrderMap Bitcoin Types Messages.
Open Scope Z_scope.

Section M6.
Context `{Bitcoin, !BitcoinLaws, Nom, !NomLaws}.

(** [CheckedSum] over amounts. *)
Fixpoint checked_sum_from (acc : Amount) (l : list Amount) : option Amount :=
  match l with
  | [] => Some acc
  | v :: l => acc ← checked_add_u64 acc v; checked_sum_from acc l
  end.
Definition checked_sum : list Amount -> option Amount := checked_sum_from 0.

(** ** The id of a withdrawal *)

Inductive M6idError :=
| InsufficientTreasury (spend_sats treasury_sats : Z)
| InvalidSpk (script : bytes)
| MissingTreasuryInputs
| MissingTreasuryOutput
| TotalOutputAmountOverflow
| WithdrawalAmountOverflow.

(** [OpDrivechain::compute_m6id] *)
Definition compute_m6id (op : byte) (tx : Transaction) (previous_treasury_utxo_total : Amount)
    : Res M6idError (M6id * SidechainNumber) :=
  match output tx with
  | [] => Err MissingTreasuryOutput
  | first_output :: payout_outputs =>
      '(_, sidechain_number) ← ok_or (InvalidSpk (script_pubkey first_output))
                                 (op_drivechain_parse op (script_pubkey first_output));
      let t_n := value first_output in
      if decide (input tx = []) then Err MissingTreasuryInputs else
      p_total ← ok_or WithdrawalAmountOverflow (checked_sum (value <$> payout_outputs));
      let t_n_minus_1 := previous_treasury_utxo_total in
      total_output_amount ← ok_or TotalOutputAmountOverflow (checked_add_u64 t_n p_total);
      f_total ← ok_or (InsufficientTreasury total_output_amount t_n_minus_1)
                  (checked_sub t_n_minus_1 total_output_amount);
      let fee_output := mkTxOut 0 (new_op_return (be_bytes 8 f_total)) in
      Ok (compute_txid (mkTransaction (version tx) (lock_time tx) [] (fee_output :: payout_outputs)),
          sidechain_number)
  end.

(** ** Blinded bundles *)

Record BlindedM6 := mkBlindedM6 { fee : Amount; payout : Amount; blinded_tx : Transaction }.

Inductive BlindedM6Error :=
| FeeInvalidSpk (spk : bytes)
| FeeNonZeroValue
| FeeScript
| MissingFeeOutput
| NonEmptyInputs
| OutputAmountOverflow
| ZeroPayout.

(** [Instructions::next], where a script error ends the iteration *)
Definition next_instruction (l : list (option Instruction))
    : Res BlindedM6Error (option Instruction * list (option Instruction)) :=
  match l with
  | [] => Ok (None, [])
  | Some i :: l => Ok (Some i, l)
  | None :: _ => Err FeeScript
  end.

(** [TryFrom<Cow<Transaction>> for BlindedM6] *)
Definition blinded_m6_try_from (tx : Transaction) : Res BlindedM6Error BlindedM6 :=
  match input tx, output tx with
  | _ :: _, _ => Err NonEmptyInputs
  | [], [] => Err MissingFeeOutput
  | [], fee_output :: _ =>
      if negb (bool_decide (value fee_output = 0)) then Err FeeNonZeroValue else
      payout ← ok_or OutputAmountOverflow (checked_sum (value <$> output tx));
      if bool_decide (payout = 0) then Err ZeroPayout else
      let invalid_spk := FeeInvalidSpk (script_pubkey fee_output) in
      '(op, instrs) ← next_instruction (instructions (script_pubkey fee_output));
      if negb (bool_decide (op = Some (Op OP_RETURN))) then Err invalid_spk else
      '(push, instrs) ← next_instruction instrs;
      match push with
      | Some (PushBytes fee_be_bytes) =>
          if negb (bool_decide (length fee_be_bytes = 8%nat)) then Err invalid_spk else
          let fee := be_val fee_be_bytes in
          match instrs with
          | [] => Ok (mkBlindedM6 fee payout tx)
          | _ :: _ => Err invalid_spk
          end
      | _ => Err invalid_spk
      end
  end.

Definition blinded_compute_m6id (b : BlindedM6) : M6id := compute_txid (blinded_tx b).

Inductive AmountUnderflowError := AmountUnderflow.

(** [..Default::default()] of a [TxIn] that spends [o] *)
Definition txin_of (o : OutPoint) : TxIn := mkTxIn o [] u32_max [].

(** [BlindedM6::into_m6] *)
Definition into_m6 (b : BlindedM6) (op : byte) (n : SidechainNumber) (consolidated : Ctip) (unconsolidated : list Ctip)
    : Res AmountUnderflowError Transaction :=
  let tx := blinded_tx b in
  match output tx with
  | [] => Panic
  | _ :: payout_outputs =>
      _ ← assert_or_panic (bool_decide (input tx = []));
      '(treasury_value_in, inputs) ←
        foldM (fun '(v, ins) c =>
                 v ← unwrap (checked_add_u64 v (ctip_value c));
                 Ok (v, ins ++ [txin_of (ctip_outpoint c)]))
          unconsolidated (ctip_value consolidated, [txin_of (ctip_outpoint consolidated)]);
      after_payout ← ok_or AmountUnderflow (checked_sub treasury_value_in (payout b));
      treasury_output_value ← ok_or AmountUnderflow (checked_sub after_payout (fee b));
      Ok (mkTransaction (version tx) (lock_time tx) inputs
            (mkTxOut treasury_output_value (op_drivechain_script op n) :: payout_outputs))
  end.

(** ** Sums *)

Lemma checked_sum_from_Some acc l t :
  checked_sum_from acc l = Some t -> t = acc + foldr Z.add 0 l.
Proof.
  revert acc. induction l as [|v l IH]; intros acc; cbn; [intros [= <-]; lia|].
  destruct (checked_add_u64 acc v) as [a|] eqn:E; cbn; [|done].
  apply checked_add_u64_Some in E as [_ ->]. intros ->%IH. lia.
Qed.

Lemma into_m6_inputs us v ins v' ins' :
  foldM (fun '(v, ins) c =>
           v ← unwrap (checked_add_u64 v (ctip_value c));
           Ok (v, ins ++ [txin_of (ctip_outpoint c)])) us (v, ins) = (Ok (v', ins') : Res AmountUnderflowError _) ->
  v' = v + foldr Z.add 0 (ctip_value <$> us) /\ (v <= u64_max -> v' <= u64_max) /\
  ins' = ins ++ (txin_of <$> (ctip_outpoint <$> us)).
Proof.
  revert v ins. induction us as [|c us IH]; intros v ins Hf; cbn in Hf; res_inv; cbn.
  - split_and!; [lia|done|by rewrite app_nil_r].
  - match goal with E : checked_add_u64 _ _ = Some _ |- _ => apply checked_add_u64_Some in E as [? ->] end.
    match goal with E : foldM _ _ _ = _ |- _ => apply IH in E as (-> & ? & ->) end.
    split_and!; [lia|auto|by rewrite <- app_assoc].
Qed.

Lemma sum_nonneg l : Forall (fun v => 0 <= v) l -> 0 <= foldr Z.add 0 l.
Proof. induction 1; cbn; lia. Qed.

Lemma blinded_m6_try_from_Ok tx b :
  blinded_m6_try_from tx = Ok b ->
  exists o payouts, input tx = [] /\ output tx = o :: payouts /\ value o = 0 /\ blinded_tx b = tx /\
    checked_sum (value <$> payouts) = Some (payout b) /\ payout b <> 0 /\ 0 <= fee b <= u64_max /\
    instructions (script_pubkey o) = [Some (Op OP_RETURN); Some (PushBytes (be_bytes 8 (fee b)))].
Proof.
  unfold blinded_m6_try_from. destruct (input tx); [|done]. destruct (output tx) as [|o payouts] eqn:Eo; [done|].
  case_bool_decide as Ev; cbn [negb]; [|done]. rewrite fmap_cons. intros Hf. apply bind_Ok in Hf as (p & Hp & Hf).
  apply ok_or_Ok in Hp. revert Hf. case_bool_decide as Hz; [done|].
  destruct (instructions (script_pubkey o)) as [|[i1|] l1] eqn:Ei; cbn; try done.
  case_bool_decide as Hi; cbn [negb]; [|done]. injection Hi as ->.
  destruct l1 as [|[[|d]|] l2]; cbn; try done.
  case_bool_decide as Hd; cbn [negb]; [|done]. destruct l2; [|done]. intros [= <-]. cbn [fee payout blinded_tx].
  exists o, payouts. pose proof (be_val_range d) as Hr. rewrite Hd in Hr. change (Z.of_nat 8) with 8 in Hr.
  split_and!; try done; try (unfold u64_max; lia).
  - revert Hp. unfold checked_sum. cbn. rewrite Ev. done.
  - pose proof (be_bytes_val d) as Eb. rewrite Hd in Eb. by rewrite Eb, Ei.
Qed.

Lemma op_drivechain_parse_script op n : op_drivechain_parse op (op_drivechain_script op n) = Some ([], n).
Proof. by apply op_drivechain_parse_Some. Qed.

(** A completed bundle: its inputs, its outputs, and its id. *)
Lemma into_m6_completes tx b op n c us tx' :
  Forall (fun o => 0 <= value o) (output tx) -> 0 <= ctip_value c <= u64_max ->
  Forall (fun u => 0 <= ctip_value u) us ->
  blinded_m6_try_from tx = Ok b ->
  head (output tx) = Some (mkTxOut 0 (new_op_return (be_bytes 8 (fee b)))) ->
  into_m6 b op n c us = Ok tx' ->
  let treasury_in := ctip_value c + foldr Z.add 0 (ctip_value <$> us) in
  compute_m6id op tx' treasury_in = Ok (blinded_compute_m6id b, n) /\
  input tx' = txin_of <$> (ctip_outpoint c :: (ctip_outpoint <$> us)) /\
  output tx' = mkTxOut (treasury_in - payout b - fee b) (op_drivechain_script op n) :: tail (output tx) /\
  foldr Z.add 0 (value <$> tail (output tx)) = payout b /\ 0 < payout b /\ 0 <= fee b /\ treasury_in <= u64_max.
Proof.
  intros Hout Hc Hus Htry Hhead Hinto. cbv zeta.
  destruct (blinded_m6_try_from_Ok _ _ Htry) as (o & payouts & Hin & Ho & Hv & Htx & Hsum & Hp & Hfee & _).
  rewrite Ho in Hhead |- *. injection Hhead as ->. unfold into_m6 in Hinto. rewrite Htx, Ho in Hinto. res_inv.
  match goal with E : foldM _ us _ = Ok _ |- _ => apply into_m6_inputs in E as (-> & Hmax & ->) end.
  set (treasury_in := ctip_value c + foldr Z.add 0 (ctip_value <$> us)) in *. unfold checked_sum in Hsum. pose proof (checked_sum_from_Some _ _ _ Hsum) as Hpay.
  rewrite Z.add_0_l in Hpay. repeat match goal with E : checked_sub _ _ = Some _ |- _ => apply checked_sub_Some in E as [? ->] end.
  assert (0 <= payout b).
  { rewrite Hpay. apply sum_nonneg, Forall_fmap. rewrite Ho in Hout. by apply Forall_cons in Hout as [_ ?]. }
  split_and!; cbn; [|by rewrite <- !list_fmap_compose|done|by symmetry|lia|by destruct Hfee|by apply Hmax, Hc].
  unfold compute_m6id. cbn [output script_pubkey value input]. rewrite op_drivechain_parse_script. cbn [ok_or mbind Res_bind].
  rewrite decide_False by done. unfold checked_sum. rewrite Hsum. cbn [ok_or mbind Res_bind].
  replace (checked_add_u64 _ _) with (Some (treasury_in - fee b)).
  2:{ symmetry. apply checked_add_u64_Some. specialize (Hmax (proj2 Hc)). lia. }
  cbn [ok_or mbind Res_bind]. replace (checked_sub _ _) with (Some (fee b)).
  2:{ symmetry. apply checked_sub_Some. lia. }
  cbn. do 2 f_equal. unfold blinded_compute_m6id. f_equal.
  destruct (blinded_tx b) as [ver lt ins outs]; cbn in *. by subst.
Qed.

(** The id of a paid bundle is the id that was voted on: completing a
    blinded bundle whose fee output is the canonical one, for any slot and any
    treasury inputs, gives a transaction from which [compute_m6id] recovers the
    slot and the id of the blinded bundle, when it is given the value of the
    treasury inputs. The transaction spends exactly these inputs, and its
    outputs and the fee account for their whole value. *)
Theorem into_m6_keeps_m6id tx b op n c us tx' :
  Forall (fun o => 0 <= value o) (output tx) -> 0 <= ctip_value c <= u64_max ->
  Forall (fun u => 0 <= ctip_value u) us ->
  blinded_m6_try_from tx = Ok b ->
  head (output tx) = Some (mkTxOut 0 (new_op_return (be_bytes 8 (fee b)))) ->
  into_m6 b op n c us = Ok tx' ->
  let treasury_in := ctip_value c + foldr Z.add 0 (ctip_value <$> us) in
  compute_m6id op tx' treasury_in = Ok (blinded_compute_m6id b, n) /\
  (previous_output <$> input tx') = ctip_outpoint c :: (ctip_outpoint <$> us) /\
  foldr Z.add 0 (value <$> output tx') + fee b = treasury_in /\ 0 < payout b.
Proof.
  intros Hout Hc Hus Htry Hhead Hinto.
  destruct (into_m6_completes _ _ _ _ _ _ _ Hout Hc Hus Htry Hhead Hinto) as (Hid & Hin & Ho & Hpay & Hpos & _).
  split_and!; [done| | |done].
  - rewrite Hin, <- list_fmap_compose. apply list_fmap_id.
  - rewrite Ho. cbn. rewrite Hpay. lia.
Qed.

End M6.
