(* ===== verification/Dbs.v ===== *)
(** * The validator's databases ([lib/validator/dbs/mod.rs])

    Each LMDB table is a finite map; a write transaction is the state that is
    passed along. A [get] of a missing key is a [DbError]; I/O failures of the
    storage engine are not modelled. The block diffs ([dbs/diff.rs]) are
    declared here because the [diff] table stores them. *)

From Stdlib Require Import Strings.Byte.
From stdpp Require Import base numbers list gmap.
From S2P Require Import Prelude OrderMap Bitcoin Types.
Open Scope Z_scope.

(** ** Diffs *)

Record NewSidechainProposal := mkNewSidechainProposal {
  nsp_id : SidechainProposalId;
  nsp_sidechain : Sidechain }.

Inductive Effect := NoActivation | ReplaceActive (prev : Sidechain) | SlotActivation.

Record AckSidechainProposal := mkAckSidechainProposal {
  asp_id : SidechainProposalId;
  asp_effect : Effect }.

Record ProposeBundle := mkProposeBundle {
  pb_sidechain_number : SidechainNumber;
  pb_m6id : M6id }.

Inductive AckBundleAction :=
| AlarmAction (positive_votes_proposals : gset M6id)
| UpvoteAction (m6id : M6id) (downvoted_others : list M6id).

Abbreviation AckBundles := (gmap SidechainNumber AckBundleAction).

Inductive CoinbaseMsg :=
| D_AckBundles (d : AckBundles)
| D_AckSidechainProposal (d : AckSidechainProposal)
| D_NewSidechainProposal (d : NewSidechainProposal)
| D_ProposeBundle (d : ProposeBundle).

Abbreviation FailedProposals := (gmap SidechainProposalId Sidechain).

(** [BTreeMap<usize, _>]: ascending positions in the pending list. *)
Abbreviation FailedPositions := (list (nat * (M6id * PendingM6idInfo))).
Abbreviation FailedM6ids := (gmap SidechainNumber FailedPositions).

Record CoinbaseDiff := mkCoinbaseDiff {
  cd_msgs : list CoinbaseMsg;
  cd_failed_proposals : FailedProposals;
  cd_failed_m6ids : FailedM6ids }.

Record M5 := mkM5Diff { new_ctips : gmap SidechainNumber Ctip }.

Record M6 := mkM6Diff {
  m6_sidechain_number : SidechainNumber;
  m6_new_ctip : Ctip;
  removed_pending_withdrawal : M6id;
  removed_pending_withdrawal_index : nat;
  removed_pending_withdrawal_info : PendingM6idInfo }.

Inductive TxDiff := D_M5 (d : M5) | D_M6 (d : M6).

Record BlockDiff := mkBlockDiff {
  bd_coinbase : CoinbaseDiff;
  bd_txs : list TxDiff }.

(** ** Tables *)

Inductive DbError := MissingValue | Inconsistent.

Definition db_get `{Countable K} {V} (m : gmap K V) (k : K) : Res DbError V := ok_or MissingValue (m !! k).
Definition contains_key `{Countable K} {V} (m : gmap K V) (k : K) : bool := bool_decide (is_Some (m !! k)).

Record ActiveSidechainDbs := mkActive {
  ctip : gmap SidechainNumber Ctip;
  ctip_outpoint_to_value_seq : gmap OutPoint (SidechainNumber * Amount * Z);
  pending_m6ids : gmap SidechainNumber PendingM6ids;
  sidechain : gmap SidechainNumber Sidechain;
  slot_sequence_to_treasury_utxo : gmap (SidechainNumber * Z) TreasuryUtxo;
  treasury_utxo_count : gmap SidechainNumber Z }.

Definition set_pending (db : ActiveSidechainDbs) p : ActiveSidechainDbs :=
  mkActive (ctip db) (ctip_outpoint_to_value_seq db) p (sidechain db)
    (slot_sequence_to_treasury_utxo db) (treasury_utxo_count db).

Record BlockHashDbs := mkBlockHashes {
  bmm_commitments : gmap BlockHash BmmCommitments;
  coinbase_txid : gmap BlockHash Txid;
  cumulative_work : gmap BlockHash Z;
  diff : gmap BlockHash BlockDiff;
  events : gmap BlockHash (list BlockEvent);
  headers : gmap BlockHash Header;
  height : gmap BlockHash Z;
  seen_bmm_request_txs : gmap (BlockHash * SidechainNumber) (gset (Txid * BmmCommitment)) }.

Record Dbs := mkDbs {
  active_sidechains : ActiveSidechainDbs;
  block_hashes : BlockHashDbs;
  current_chain_tip : option BlockHash;
  proposal_id_to_sidechain : gmap SidechainProposalId Sidechain;
  seen_unconsolidated_ctip_outputs : gmap OutPoint (SidechainNumber * Amount) }.

Definition set_active (s : Dbs) a : Dbs :=
  mkDbs a (block_hashes s) (current_chain_tip s) (proposal_id_to_sidechain s)
    (seen_unconsolidated_ctip_outputs s).
Definition set_block_hashes (s : Dbs) b : Dbs :=
  mkDbs (active_sidechains s) b (current_chain_tip s) (proposal_id_to_sidechain s)
    (seen_unconsolidated_ctip_outputs s).
Definition set_tip (s : Dbs) t : Dbs :=
  mkDbs (active_sidechains s) (block_hashes s) t (proposal_id_to_sidechain s)
    (seen_unconsolidated_ctip_outputs s).
Definition set_proposals (s : Dbs) p : Dbs :=
  mkDbs (active_sidechains s) (block_hashes s) (current_chain_tip s) p
    (seen_unconsolidated_ctip_outputs s).

(** ** Operations of [ActiveSidechainDbs] *)

(** Table keys in LMDB's byte order. *)
Definition all_slots : list SidechainNumber := to_u8 <$> seqZ 0 256.

Definition numbers (db : ActiveSidechainDbs) : list SidechainNumber :=
  filter (fun n => is_Some (sidechain db !! n)) all_slots.

Definition put_ctip {E} (db : ActiveSidechainDbs) (n : SidechainNumber) (c : Ctip)
    : Res E (ActiveSidechainDbs * Z) :=
  let count := default 0 (treasury_utxo_count db !! n) in
  let sequence_number := count in
  let old_treasury_value := match ctip db !! n with Some old => ctip_value old | None => 0 end in
  let treasury_utxo := mkTreasuryUtxo n (ctip_outpoint c) (ctip_value c) old_treasury_value in
  new_count ← unwrap (checked_add_u64 1 count);
  Ok (mkActive (<[n := c]> (ctip db))
        (<[ctip_outpoint c := (n, ctip_value c, sequence_number)]> (ctip_outpoint_to_value_seq db))
        (pending_m6ids db) (sidechain db)
        (<[(n, sequence_number) := treasury_utxo]> (slot_sequence_to_treasury_utxo db))
        (<[n := new_count]> (treasury_utxo_count db)), sequence_number).

Definition delete_ctip (db : ActiveSidechainDbs) (n : SidechainNumber) : Res DbError ActiveSidechainDbs :=
  c ← db_get (ctip db) n;
  let outpoints := delete (ctip_outpoint c) (ctip_outpoint_to_value_seq db) in
  count ← db_get (treasury_utxo_count db) n;
  let sequence_number := count - 1 in
  let counts := if decide (sequence_number = 0) then delete n (treasury_utxo_count db)
                else <[n := sequence_number]> (treasury_utxo_count db) in
  let utxos := delete (n, sequence_number) (slot_sequence_to_treasury_utxo db) in
  ctips ← match checked_sub sequence_number 1 with
          | Some prev =>
              prev_utxo ← db_get utxos (n, prev);
              Ok (<[n := mkCtip (tu_outpoint prev_utxo) (tu_total_value prev_utxo)]> (ctip db))
          | None => Ok (delete n (ctip db))
          end;
  Ok (mkActive ctips outpoints (pending_m6ids db) (sidechain db) utxos counts).

Definition put_sidechain (db : ActiveSidechainDbs) (n : SidechainNumber) (sc : Sidechain) : ActiveSidechainDbs :=
  let pending := if contains_key (pending_m6ids db) n then pending_m6ids db
                 else <[n := []]> (pending_m6ids db) in
  mkActive (ctip db) (ctip_outpoint_to_value_seq db) pending (<[n := sc]> (sidechain db))
    (slot_sequence_to_treasury_utxo db) (treasury_utxo_count db).

Definition delete_sidechain (db : ActiveSidechainDbs) (n : SidechainNumber) : ActiveSidechainDbs :=
  mkActive (ctip db) (ctip_outpoint_to_value_seq db) (delete n (pending_m6ids db)) (delete n (sidechain db))
    (slot_sequence_to_treasury_utxo db) (treasury_utxo_count db).

(** The closure may fail; [conv] is the error conversion of the caller. *)
Definition with_pending_withdrawals {E} (conv : DbError -> E) (db : ActiveSidechainDbs) (n : SidechainNumber)
    (f : PendingM6ids -> Res E PendingM6ids) : Res E ActiveSidechainDbs :=
  pending ← map_err conv (db_get (pending_m6ids db) n);
  pending' ← f pending;
  Ok (set_pending db (<[n := pending']> (pending_m6ids db))).

Definition put_pending_m6id (db : ActiveSidechainDbs) (n : SidechainNumber) (m6id : M6id) (h : Z)
    : Res DbError ActiveSidechainDbs :=
  with_pending_withdrawals id db n (fun p => Ok (om_insert m6id (pending_m6id_info_new h) p)).

Definition delete_pending_withdrawal (db : ActiveSidechainDbs) (n : SidechainNumber) (m6id : M6id)
    : Res DbError ActiveSidechainDbs :=
  with_pending_withdrawals id db n (fun p => Ok (om_remove m6id p)).

Definition map_votes (f : Z -> Z) (i : PendingM6idInfo) : PendingM6idInfo :=
  mkPending (f (pm_vote_count i)) (pm_proposal_height i).

Definition alarm_pending_m6ds (db : ActiveSidechainDbs) (n : SidechainNumber) : Res DbError ActiveSidechainDbs :=
  with_pending_withdrawals id db n (fun p => Ok (om_map (fun _ => map_votes (fun v => saturating_sub v 1)) p)).

(** An empty set of databases, as created at first start. *)
Definition empty_active : ActiveSidechainDbs := mkActive ∅ ∅ ∅ ∅ ∅ ∅.
Definition empty_block_hashes : BlockHashDbs := mkBlockHashes ∅ ∅ ∅ ∅ ∅ ∅ ∅ ∅.
Definition dbs_new : Dbs := mkDbs empty_active empty_block_hashes None ∅ ∅.
