(* ===== verification/BlockHashes.v ===== *)
(** * Per-block tables ([lib/validator/dbs/block_hashes.rs])

    Headers, heights, cumulative work and what connecting a block produced,
    by block hash. The header table is a tree: [chain_wf] is the invariant the
    comments on the tables state, and [last_common_ancestor] and the range
    query are shown to walk it correctly. *)

From Stdlib Require Import Strings.Byte.
From stdpp Require Import base numbers list gmap.
From S2P Require Import Prelude OrderMap Bitcoin Types Dbs.
Open Scope Z_scope.

Inductive PutBlockInfoError :=
| MissingHeader (hash : BlockHash)
| MissingParent (hash prev_block_hash : BlockHash).

Inductive LastCommonAncestorError :=
| LCA_Db (e : DbError)
| MissingAncestor (hash : BlockHash) (depth height : Z).

Inductive GetHeaderInfoError := GHI_Db (e : DbError) | GHI_MissingHeader (hash : BlockHash).
Inductive GetBlockInfoError := GBI_Db (e : DbError) | GBI_MissingValue (hash : BlockHash).

Inductive GetTwoWayPegDataRangeError :=
| GTW_Db (e : DbError)
| EndBlockNotFound (end_block : BlockHash)
| PreviousBlockNotFound (block prev_block : BlockHash)
| StartBlockNotAncestor (start_block end_block : BlockHash).

Section BlockHashes.
Context `{Bitcoin}.
Implicit Types (b : BlockHashDbs).

Definition set_headers b hs ht : BlockHashDbs :=
  mkBlockHashes (bmm_commitments b) (coinbase_txid b) (cumulative_work b) (diff b) (events b) hs ht
    (seen_bmm_request_txs b).

Definition contains_header b (h : BlockHash) : bool := contains_key (headers b) h.

(** One iteration of [put_headers]; [height - 1] is checked. *)
Definition put_header b (e : Header * Z) : Res DbError BlockHashDbs :=
  let '(hd, k) := e in
  let h := block_hash hd in
  let hs := <[h := hd]> (headers b) in
  let ht := <[h := k]> (height b) in
  if decide (prev_blockhash hd = all_zeros) then Ok (set_headers b hs ht)
  else pk ← unwrap (checked_sub k 1); Ok (set_headers b hs (<[prev_blockhash hd := pk]> ht)).

Definition put_headers b (l : list (Header * Z)) : Res DbError BlockHashDbs := foldM put_header l b.

Definition put_block_info b (h : BlockHash) (info : BlockInfo) (d : BlockDiff) : Res PutBlockInfoError BlockHashDbs :=
  hd ← ok_or (MissingHeader h) (headers b !! h);
  work ← (if decide (prev_blockhash hd = all_zeros) then Ok (header_work hd)
          else match cumulative_work b !! prev_blockhash hd with
               | Some parent_cumulative_work => Ok (parent_cumulative_work + header_work hd)
               | None => Err (MissingParent h (prev_blockhash hd))
               end);
  Ok (mkBlockHashes (<[h := bi_bmm_commitments info]> (bmm_commitments b))
        (<[h := bi_coinbase_txid info]> (coinbase_txid b))
        (<[h := work]> (cumulative_work b))
        (<[h := d]> (diff b))
        (<[h := bi_events info]> (events b))
        (headers b) (height b) (seen_bmm_request_txs b)).

(** [ancestor_headers(..).next()]: the iterator's state is the next hash. *)
Definition ancestor_next b (cur : BlockHash) : option ((BlockHash * Header) * BlockHash) :=
  hd ← headers b !! cur; Some ((cur, hd), prev_blockhash hd).

(** [n] calls of [next] from depth [depth]; the error is the missing depth. *)
Fixpoint skip_ancestors b (n : nat) (depth : Z) (cur : BlockHash) : Z + BlockHash :=
  match n with
  | O => inr cur
  | S n => match ancestor_next b cur with
           | Some (_, cur') => skip_ancestors b n (depth + 1) cur'
           | None => inl depth
           end
  end.

(** The loop [for common_depth in 0..=min(height0, height1)], with [n]
    iterations left. *)
Fixpoint common_loop b (hash0 hash1 : BlockHash) (height0 height1 : Z) (n : nat) (common_depth : Z)
    (cur0 cur1 : BlockHash) : Res LastCommonAncestorError BlockHash :=
  match n with
  | O => Ok all_zeros
  | S n =>
      let current_height := Z.min height0 height1 - common_depth in
      match ancestor_next b cur0 with
      | None => Err (MissingAncestor hash0 (height0 - current_height) height0)
      | Some ((ancestor0, _), cur0) =>
          match ancestor_next b cur1 with
          | None => Err (MissingAncestor hash1 (height1 - current_height) height1)
          | Some ((ancestor1, _), cur1) =>
              if decide (ancestor0 = ancestor1) then Ok ancestor0
              else common_loop b hash0 hash1 height0 height1 n (common_depth + 1) cur0 cur1
          end
      end
  end.

Definition last_common_ancestor b (hash0 hash1 : BlockHash) : Res LastCommonAncestorError BlockHash :=
  if decide (hash0 = hash1) then Ok hash0 else
  if decide (hash0 = all_zeros \/ hash1 = all_zeros) then Ok all_zeros else
  height0 ← map_err LCA_Db (db_get (height b) hash0);
  height1 ← map_err LCA_Db (db_get (height b) hash1);
  let skipped := fun hash (hgt n : Z) =>
    match skip_ancestors b (Z.to_nat n) 0 hash with
    | inr cur => Ok cur
    | inl depth => Err (MissingAncestor hash depth hgt)
    end in
  '(cur0, cur1) ←
    match height0 ?= height1 with
    | Eq => Ok (hash0, hash1)
    | Lt => cur1 ← skipped hash1 height1 (height1 - height0); Ok (hash0, cur1)
    | Gt => cur0 ← skipped hash0 height0 (height0 - height1); Ok (cur0, hash1)
    end;
  common_loop b hash0 hash1 height0 height1 (Z.to_nat (Z.min height0 height1 + 1)) 0 cur0 cur1.

Definition try_get_header_info b (h : BlockHash) : Res DbError (option HeaderInfo) :=
  match headers b !! h with
  | None => Ok None
  | Some hd =>
      _ ← assert_or_panic (bool_decide (block_hash hd = h));
      k ← ok_or Inconsistent (height b !! h);
      Ok (Some (mkHeaderInfo (block_hash hd) (prev_blockhash hd) k (header_work hd) (time hd)))
  end.

Definition get_header_info b (h : BlockHash) : Res GetHeaderInfoError HeaderInfo :=
  o ← map_err GHI_Db (try_get_header_info b h);
  ok_or (GHI_MissingHeader h) o.

(** The loop of [try_get_header_infos]; it counts [ancestors] down. *)
Fixpoint header_infos_loop b (ancestors : nat) (ancestor : BlockHash) (res : list HeaderInfo)
    : Res DbError (list HeaderInfo) :=
  match ancestors with
  | O => Ok res
  | S ancestors =>
      if decide (ancestor = all_zeros) then Ok res else
      o ← try_get_header_info b ancestor;
      match o with
      | None => Ok res
      | Some info => header_infos_loop b ancestors (hi_prev_block_hash info) (res ++ [info])
      end
  end.

Definition try_get_header_infos b (h : BlockHash) (max_ancestors : nat) : Res DbError (option (list HeaderInfo)) :=
  o ← try_get_header_info b h;
  match o with
  | None => Ok None
  | Some info => res ← header_infos_loop b max_ancestors (hi_prev_block_hash info) [info]; Ok (Some res)
  end.

Definition try_get_block_info b (h : BlockHash) : Res DbError (option BlockInfo) :=
  match bmm_commitments b !! h with
  | None => Ok None
  | Some bmm =>
      txid ← ok_or Inconsistent (coinbase_txid b !! h);
      evs ← ok_or Inconsistent (events b !! h);
      Ok (Some (mkBlockInfo bmm txid evs))
  end.

Definition get_block_info b (h : BlockHash) : Res GetBlockInfoError BlockInfo :=
  o ← map_err GBI_Db (try_get_block_info b h);
  ok_or (GBI_MissingValue h) o.

Definition try_get_two_way_peg_data b (h : BlockHash) : Res DbError (option TwoWayPegData) :=
  hi ← try_get_header_info b h;
  match hi with
  | None => Ok None
  | Some hi =>
      bi ← try_get_block_info b h;
      match bi with
      | None => Ok None
      | Some bi => Ok (Some (mkTwoWayPegData hi bi))
      end
  end.

(** The [while] loop of the range query; [None] when the fuel runs out.
    [peg_data_range_spec] shows that one more than the end block's height is
    enough. *)
Fixpoint peg_data_loop b (fuel : nat) (start_block : option BlockHash) (end_block prev_block current_block : BlockHash)
    (res : list TwoWayPegData) : option (Res GetTwoWayPegDataRangeError (list TwoWayPegData)) :=
  match fuel with
  | O => None
  | S fuel =>
      if decide (Some current_block = start_block) then Some (Ok res) else
      if decide (current_block = all_zeros) then
        Some match start_block with
             | Some start_block => Err (StartBlockNotAncestor start_block end_block)
             | None => Ok res
             end
      else
        match map_err GTW_Db (try_get_two_way_peg_data b current_block) with
        | Err e => Some (Err e)
        | Panic => Some Panic
        | Ok None => Some (Err (PreviousBlockNotFound current_block prev_block))
        | Ok (Some d) =>
            peg_data_loop b fuel start_block end_block current_block
              (hi_prev_block_hash (twp_header_info d)) (res ++ [d])
        end
  end.

Definition get_two_way_peg_data_range b (fuel : nat) (start_block : option BlockHash) (end_block : BlockHash)
    : option (Res GetTwoWayPegDataRangeError (list TwoWayPegData)) :=
  match map_err GTW_Db (try_get_two_way_peg_data b end_block) with
  | Err e => Some (Err e)
  | Panic => Some Panic
  | Ok None => Some (Err (EndBlockNotFound end_block))
  | Ok (Some d) =>
      if decide (Some end_block = start_block) then Some (Ok [d]) else
      match peg_data_loop b fuel start_block end_block end_block (hi_prev_block_hash (twp_header_info d)) [d] with
      | Some (Ok res) => Some (Ok (rev res))
      | r => r
      end
  end.

(** ** Seen BMM requests *)

Definition collect_requests (l : list (Txid * BmmCommitment)) : gmap BmmCommitment (gset Txid) :=
  foldl (fun res '(txid, c) => <[c := {[txid]} ∪ default ∅ (res !! c)]> res) ∅ l.

Definition get_seen_bmm_requests b (parent : BlockHash) (slot : SidechainNumber) : gmap BmmCommitment (gset Txid) :=
  collect_requests (elements (default ∅ (seen_bmm_request_txs b !! (parent, slot)))).

Definition get_seen_bmm_requests_for_parent_block b (parent : BlockHash)
    : gmap SidechainNumber (gmap BmmCommitment (gset Txid)) :=
  foldl (fun res '((_, slot), (txid, c)) =>
           let m := default ∅ (res !! slot) in
           <[slot := <[c := {[txid]} ∪ default ∅ (m !! c)]> m]> res) ∅
    (concat ((fun e : _ * gset (Txid * BmmCommitment) => pair e.1 <$> elements e.2)
               <$> filter (fun e => e.1.1 = parent) (map_to_list (seen_bmm_request_txs b)))).

Definition put_seen_bmm_request b (parent : BlockHash) (slot : SidechainNumber) (txid : Txid) (c : BmmCommitment)
    : BlockHashDbs :=
  mkBlockHashes (bmm_commitments b) (coinbase_txid b) (cumulative_work b) (diff b) (events b) (headers b) (height b)
    (<[(parent, slot) := {[(txid, c)]} ∪ default ∅ (seen_bmm_request_txs b !! (parent, slot))]>
       (seen_bmm_request_txs b)).

End BlockHashes.

(** ** The header tree *)

(** A block and its ancestors; the parent of the genesis block is the hash of
    zeros. *)
Inductive is_ancestor (b : BlockHashDbs) : BlockHash -> BlockHash -> Prop :=
| ancestor_refl x : is_ancestor b x x
| ancestor_step a x hd :
    headers b !! x = Some hd -> is_ancestor b a (prev_blockhash hd) -> is_ancestor b a x.

(** What the tables' comments require: a header is stored under its hash, with
    its height, and all its ancestors are stored too. *)
Record chain_wf `{Bitcoin} (b : BlockHashDbs) : Prop := {
  cw_zero : headers b !! all_zeros = None;
  cw_hash x hd : headers b !! x = Some hd -> block_hash hd = x;
  cw_height x hd : headers b !! x = Some hd -> exists k, height b !! x = Some k /\ 0 <= k /\
    if decide (prev_blockhash hd = all_zeros) then k = 0
    else is_Some (headers b !! prev_blockhash hd) /\ height b !! prev_blockhash hd = Some (k - 1) }.

Section Ancestors.
Context `{Bitcoin}.
Variable b : BlockHashDbs.
Hypothesis Hwf : chain_wf b.

(** A stored block at height [k]. *)
Definition at_height (x : BlockHash) (k : Z) : Prop :=
  is_Some (headers b !! x) /\ height b !! x = Some k /\ 0 <= k.

Lemma at_height_next x k :
  at_height x k -> exists hd p, ancestor_next b x = Some ((x, hd), p) /\ headers b !! x = Some hd /\
    p = prev_blockhash hd /\ (if decide (p = all_zeros) then k = 0 else at_height p (k - 1) /\ 0 < k).
Proof.
  intros ([hd Hx] & Hk & Hpos). exists hd, (prev_blockhash hd).
  destruct (cw_height b Hwf x hd Hx) as (k' & Hk' & ? & Hp). assert (k' = k) as -> by congruence.
  unfold ancestor_next. rewrite Hx. split_and!; [done..|]. case_decide; [done|]. destruct Hp as [Hs Hh].
  assert (0 < k) by (destruct Hs as [hd' Hs]; destruct (cw_height b Hwf _ _ Hs) as (k' & ? & ? & _);
    assert (k' = k - 1) by congruence; lia).
  split; [|done]. split_and!; [done..|lia].
Qed.

Lemma at_height_zero x k : at_height x k -> x <> all_zeros.
Proof. intros ([hd Hx] & _) ->. by rewrite (cw_zero b Hwf) in Hx. Qed.

(** Ancestors are lower. *)
Lemma is_ancestor_lower a x k :
  is_ancestor b a x -> at_height x k -> a = x \/ a = all_zeros \/ exists j, at_height a j /\ j < k.
Proof.
  intros Ha. revert k. induction Ha as [x|a x hd Hx Ha IH]; intros k Hk; [by left|right].
  destruct (at_height_next x k Hk) as (hd' & p & _ & Hx' & -> & Hp). assert (hd' = hd) as -> by congruence.
  case_decide as Hz.
  - left. rewrite Hz in Ha. inversion Ha as [|? ? ? Hl]; subst; [done|].
    rewrite (cw_zero b Hwf) in Hl. done.
  - destruct Hp as [Hp ?]. destruct (IH _ Hp) as [->|[->|(j & ? & ?)]]; [right; eexists; split; [done|lia]|by left|].
    right. exists j. split; [done|lia].
Qed.

Lemma is_ancestor_prev a x hd :
  headers b !! x = Some hd -> is_ancestor b a x -> a = x \/ is_ancestor b a (prev_blockhash hd).
Proof. intros Hx Ha. inversion Ha as [|? ? hd' Hx']; subst; [by left|]. rewrite Hx in Hx'. injection Hx' as <-. by right. Qed.

Lemma skip_ancestors_spec n d x k :
  at_height x k -> Z.of_nat n <= k ->
  exists y, skip_ancestors b n d x = inr y /\ at_height y (k - Z.of_nat n) /\ is_ancestor b y x /\
    (forall a, is_ancestor b a x ->
       a = all_zeros \/ (exists j, at_height a j /\ j <= k - Z.of_nat n) -> is_ancestor b a y).
Proof.
  revert d x k. induction n as [|n IH]; intros d x k Hx Hn; cbn [skip_ancestors].
  - exists x. rewrite Z.sub_0_r. split_and!; [done..|constructor|done].
  - destruct (at_height_next x k Hx) as (hd & p & -> & Hh & -> & Hp).
    rewrite decide_False in Hp by (intros E; rewrite decide_True in Hp by done; lia).
    destruct Hp as [Hp _]. destruct (IH (d + 1) _ _ Hp ltac:(lia)) as (y & E & Hy & Ha & Hmax).
    replace (k - 1 - Z.of_nat n) with (k - Z.of_nat (S n)) in * by lia.
    exists y. split_and!; [done..|by eapply ancestor_step|].
    intros a Hax Hlow. apply Hmax; [|done]. destruct (is_ancestor_prev _ _ _ Hh Hax) as [->|]; [|done].
    exfalso. destruct Hlow as [->|(j & (_ & Hj & _) & ?)]; [by apply (at_height_zero _ _ Hx)|].
    destruct Hx as (_ & Hx & _). assert (j = k) by congruence. lia.
Qed.

Lemma zeros_is_ancestor k x : at_height x (Z.of_nat k) -> is_ancestor b all_zeros x.
Proof.
  revert x. induction k as [|k IH]; intros x Hx; destruct (at_height_next x _ Hx) as (hd & p & _ & Hh & -> & Hp);
    eapply ancestor_step; try done; case_decide as Hz; try (rewrite Hz; constructor).
  - lia.
  - apply IH. destruct Hp as [Hp _]. by replace (Z.of_nat k) with (Z.of_nat (S k) - 1) by lia.
Qed.

Lemma common_loop_spec h0 h1 k0 k1 k d x0 x1 :
  at_height x0 (Z.of_nat k) -> at_height x1 (Z.of_nat k) ->
  exists r, common_loop b h0 h1 k0 k1 (S k) d x0 x1 = Ok r /\ is_ancestor b r x0 /\ is_ancestor b r x1 /\
    (forall a, is_ancestor b a x0 -> is_ancestor b a x1 -> is_ancestor b a r).
Proof.
  revert d x0 x1. induction k as [|k IH]; intros d x0 x1 Hx0 Hx1; cbn [common_loop];
    destruct (at_height_next x0 _ Hx0) as (hd0 & p0 & -> & Hh0 & -> & Hp0);
    destruct (at_height_next x1 _ Hx1) as (hd1 & p1 & -> & Hh1 & -> & Hp1);
    (destruct (decide (x0 = x1)) as [Heq|Heq]; [rewrite <- Heq in *; exists x0; split_and!; [done|by constructor..|done]|]).
  - exists all_zeros. split_and!; [done|by apply (zeros_is_ancestor 0)..|]. intros a Ha0 Ha1.
    destruct (is_ancestor_lower _ _ _ Ha0 Hx0) as [->|[->|(j & (_ & _ & ?) & ?)]]; [|constructor|lia].
    destruct (is_ancestor_lower _ _ _ Ha1 Hx1) as [->|[->|(j & (_ & _ & ?) & ?)]]; [done|constructor|lia].
  - rewrite decide_False in Hp0 by (intros E; rewrite decide_True in Hp0 by done; lia).
    rewrite decide_False in Hp1 by (intros E; rewrite decide_True in Hp1 by done; lia).
    destruct Hp0 as [Hp0 _], Hp1 as [Hp1 _].
    replace (Z.of_nat (S k) - 1) with (Z.of_nat k) in * by lia.
    destruct (IH (d + 1) _ _ Hp0 Hp1) as (r & E & Hr0 & Hr1 & Hmax). exists r.
    split_and!; [exact E|by eapply ancestor_step..|]. intros a Ha0 Ha1.
    assert (Hx : forall x y, at_height x (Z.of_nat (S k)) -> at_height y (Z.of_nat (S k)) -> x <> y -> ~ is_ancestor b x y).
    { intros x y Hx Hy Hne Hxy. destruct (is_ancestor_lower _ _ _ Hxy Hy) as [->|[->|(j & (_ & Hj & _) & ?)]]; [done| |].
      - by apply (at_height_zero _ _ Hx).
      - destruct Hx as (_ & Hx & _). assert (j = Z.of_nat (S k)) by congruence. lia. }
    destruct (is_ancestor_prev _ _ _ Hh0 Ha0) as [->|]; [by eapply Hx in Ha1|].
    destruct (is_ancestor_prev _ _ _ Hh1 Ha1) as [->|]; [by eapply Hx in Ha0; [| | |congruence]|]. by apply Hmax.
Qed.

Lemma equalized_ancestors x0 x1 k0 k1 :
  at_height x0 k0 -> at_height x1 k1 -> k0 <= k1 ->
  exists y, skip_ancestors b (Z.to_nat (k1 - k0)) 0 x1 = inr y /\ at_height y k0 /\ is_ancestor b y x1 /\
    (forall a, is_ancestor b a x0 -> is_ancestor b a x1 -> is_ancestor b a y).
Proof.
  intros Hs0 Hs1 Hle. destruct (skip_ancestors_spec (Z.to_nat (k1 - k0)) 0 x1 k1 Hs1) as (y & E & Hy & Ha & Hmax).
  { destruct Hs0 as (_ & _ & ?). lia. }
  rewrite Z2Nat.id in * by lia. replace (k1 - (k1 - k0)) with k0 in * by lia.
  exists y. split_and!; [done..|]. intros a Ha0 Ha1. apply Hmax; [done|].
  destruct (is_ancestor_lower _ _ _ Ha0 Hs0) as [->|[->|(j & ? & ?)]]; [right; by exists k0|by left|].
  right. exists j. split; [done|lia].
Qed.

Lemma is_ancestor_trans x y z : is_ancestor b x y -> is_ancestor b y z -> is_ancestor b x z.
Proof. intros Hxy Hyz. induction Hyz; [done|]. eapply ancestor_step; eauto. Qed.

Lemma last_common_ancestor_stored x0 x1 k0 k1 :
  x0 <> x1 -> at_height x0 k0 -> at_height x1 k1 ->
  exists r, last_common_ancestor b x0 x1 = Ok r /\ is_ancestor b r x0 /\ is_ancestor b r x1 /\
    (forall a, is_ancestor b a x0 -> is_ancestor b a x1 -> is_ancestor b a r).
Proof.
  intros Hne Hs0 Hs1. unfold last_common_ancestor. rewrite decide_False by done.
  rewrite decide_False by (intros [E|E]; [by apply (at_height_zero _ _ Hs0)|by apply (at_height_zero _ _ Hs1)]).
  unfold db_get. rewrite (proj1 (proj2 Hs0)), (proj1 (proj2 Hs1)). cbn [ok_or map_err mbind Res_bind].
  pose proof (proj2 (proj2 Hs0)). pose proof (proj2 (proj2 Hs1)).
  destruct (Z.compare_spec k0 k1) as [->|Hlt|Hlt]; cbn [mbind Res_bind].
  - replace (Z.to_nat (Z.min k1 k1 + 1)) with (S (Z.to_nat k1)) by lia.
    apply common_loop_spec; by rewrite Z2Nat.id by lia.
  - destruct (equalized_ancestors _ _ _ _ Hs0 Hs1 ltac:(lia)) as (y & -> & Hy & Ha & Hmax). cbn [mbind Res_bind].
    replace (Z.to_nat (Z.min k0 k1 + 1)) with (S (Z.to_nat k0)) by lia.
    destruct (common_loop_spec x0 x1 k0 k1 (Z.to_nat k0) 0 x0 y) as (r & -> & Hr0 & Hr1 & Hm);
      [by rewrite Z2Nat.id by lia..|].
    exists r. split_and!; [done..|exact (is_ancestor_trans _ _ _ Hr1 Ha)|]. auto.
  - destruct (equalized_ancestors _ _ _ _ Hs1 Hs0 ltac:(lia)) as (y & -> & Hy & Ha & Hmax). cbn [mbind Res_bind].
    replace (Z.to_nat (Z.min k0 k1 + 1)) with (S (Z.to_nat k1)) by lia.
    destruct (common_loop_spec x0 x1 k0 k1 (Z.to_nat k1) 0 y x1) as (r & -> & Hr0 & Hr1 & Hm);
      [by rewrite Z2Nat.id by lia..|].
    exists r. split_and!; [done|exact (is_ancestor_trans _ _ _ Hr0 Ha)|done|]. auto.
Qed.

End Ancestors.

Lemma last_common_ancestor_found `{Bitcoin} b x0 x1 :
  chain_wf b ->
  (x0 = all_zeros \/ is_Some (headers b !! x0)) -> (x1 = all_zeros \/ is_Some (headers b !! x1)) ->
  exists r, last_common_ancestor b x0 x1 = Ok r /\ is_ancestor b r x0 /\ is_ancestor b r x1 /\
    (forall a, is_ancestor b a x0 -> is_ancestor b a x1 -> is_ancestor b a r).
Proof.
  intros Hwf Hs0 Hs1. destruct (decide (x0 = x1)) as [<-|Hne].
  { exists x0. unfold last_common_ancestor. rewrite decide_True by done. split_and!; [done|constructor..|done]. }
  assert (Hzero : forall a, is_ancestor b a all_zeros -> a = all_zeros).
  { intros a Ha. inversion Ha as [|? ? hd Hz]; [done|]. by rewrite (cw_zero b Hwf) in Hz. }
  assert (Hat : forall x, x = all_zeros \/ is_Some (headers b !! x) -> x <> all_zeros -> exists k, at_height b x k).
  { intros x [?|[hd Hx]] ?; [done|]. destruct (cw_height b Hwf x hd Hx) as (k & ? & ? & _).
    exists k. split_and!; [by exists hd|done..]. }
  destruct (decide (x0 = all_zeros \/ x1 = all_zeros)) as [Hz|Hz].
  - exists all_zeros. unfold last_common_ancestor. rewrite decide_False, decide_True by done. destruct (decide (x0 = all_zeros)) as [->|Hz0].
    + destruct (Hat x1 Hs1 ltac:(done)) as [k Hk]. split_and!; [done|constructor| |].
      * eapply (zeros_is_ancestor b Hwf (Z.to_nat k)). rewrite Z2Nat.id; [done|apply Hk].
      * intros a Ha _. rewrite (Hzero a Ha). constructor.
    + destruct Hz as [->| ->]; [done|]. destruct (Hat x0 Hs0 Hz0) as [k Hk]. split_and!; [done| |constructor|].
      * eapply (zeros_is_ancestor b Hwf (Z.to_nat k)). rewrite Z2Nat.id; [done|apply Hk].
      * intros a _ Ha. rewrite (Hzero a Ha). constructor.
  - destruct (Hat x0 Hs0 ltac:(tauto)) as [k0 Hk0], (Hat x1 Hs1 ltac:(tauto)) as [k1 Hk1].
    by apply last_common_ancestor_stored with (k0 := k0) (k1 := k1).
Qed.

(** [last_common_ancestor] finds the fork point: on a well-formed header
    table, for any two stored blocks (or the hash of zeros, the parent of the
    genesis block) it returns a block, never an error; the block is an ancestor
    of both, and every other common ancestor is an ancestor of it. *)
Theorem last_common_ancestor_spec `{Bitcoin} b x0 x1 :
  chain_wf b ->
  (x0 = all_zeros \/ is_Some (headers b !! x0)) -> (x1 = all_zeros \/ is_Some (headers b !! x1)) ->
  exists r, last_common_ancestor b x0 x1 = Ok r /\ is_ancestor b r x0 /\ is_ancestor b r x1 /\
    (forall a, is_ancestor b a x0 -> is_ancestor b a x1 -> is_ancestor b a r).
Proof. apply last_common_ancestor_found. Qed.

(** ** Storing headers *)

(** The tables have the block's information. *)
Definition has_info (b : BlockHashDbs) (h : BlockHash) : Prop :=
  is_Some (bmm_commitments b !! h) /\ is_Some (coinbase_txid b !! h) /\ is_Some (events b !! h).

Lemma has_info_get b h : has_info b h <-> exists info, try_get_block_info b h = Ok (Some info).
Proof.
  unfold has_info, try_get_block_info. split.
  - intros ([x ->] & [y ->] & [z ->]). cbn. by eexists.
  - intros [info Hi]. destruct (bmm_commitments b !! h), (coinbase_txid b !! h), (events b !! h); try done; split_and!; by eexists.
Qed.

Lemma put_header_info `{Bitcoin} b e b' h : put_header b e = Ok b' -> has_info b' h <-> has_info b h.
Proof. destruct e as [hd k]. unfold put_header. intros Hp. unfold has_info. case_decide; [by injection Hp as <-|]. apply bind_Ok in Hp as (pk & _ & [= <-]). done. Qed.

Lemma put_headers_info `{Bitcoin} l b b' h : put_headers b l = Ok b' -> has_info b' h <-> has_info b h.
Proof.
  unfold put_headers. revert b. induction l as [|e l IH]; intros b Hp; cbn in Hp; [by injection Hp as <-|]. apply bind_Ok in Hp as (b1 & H1 & Hp).
  rewrite (IH _ Hp). by eapply put_header_info.
Qed.

Lemma put_block_info_info `{Bitcoin} b x info d b' h : put_block_info b x info d = Ok b' -> has_info b' h <-> h = x \/ has_info b h.
Proof.
  unfold put_block_info. intros Hp. apply bind_Ok in Hp as (hd & _ & Hp). apply bind_Ok in Hp as (w & _ & [= <-]). unfold has_info. cbn.
  rewrite !lookup_insert_is_Some'. naive_solver.
Qed.

Lemma put_header_tree `{Bitcoin} b hd k b' :
  chain_wf b -> block_hash hd <> all_zeros -> headers b !! block_hash hd = None ->
  (if decide (prev_blockhash hd = all_zeros) then k = 0 else at_height b (prev_blockhash hd) (k - 1)) ->
  put_headers b [(hd, k)] = Ok b' ->
  chain_wf b' /\ headers b' = <[block_hash hd := hd]> (headers b) /\ height b' = <[block_hash hd := k]> (height b) /\
  diff b' = diff b /\ 0 <= k.
Proof.
  intros Hwf Hnz Hnew Hpar Hput. cbn in Hput. apply bind_Ok in Hput as (b1 & Hput & [= ->]).
  set (h := block_hash hd) in *. set (p := prev_blockhash hd) in *.
  assert (Hb' : headers b' = <[h := hd]> (headers b) /\ height b' = <[h := k]> (height b) /\ diff b' = diff b /\ 0 <= k).
  { unfold put_header in Hput. fold p h in Hput. destruct (decide (p = all_zeros)) as [Hz|Hz].
    - injection Hput as <-. cbn. by rewrite Hpar.
    - res_inv. cbn. destruct Hpar as ([hp Hp] & Hh & ?).
      match goal with E : checked_sub _ _ = Some _ |- _ => apply checked_sub_Some in E as [_ ->] end.
      split_and!; [done| |done|lia]. apply insert_id. rewrite lookup_insert_ne; [done|].
      intros E. rewrite <- E in Hp. congruence. }
  destruct Hb' as (Eh & Ek & Ed & Hk). split; [|done].
  assert (Hkeep : forall x j, at_height b x j -> at_height b' x j).
  { intros x j (Hx & Hj & ?). assert (x <> h) by (intros ->; rewrite Hnew in Hx; by destruct Hx).
    split_and!; [rewrite Eh, lookup_insert_ne by done; done|rewrite Ek, lookup_insert_ne by done; done|done]. }
  split.
  - rewrite Eh, lookup_insert_ne by done. apply (cw_zero b Hwf).
  - intros x hd'. rewrite Eh. intros [[<- <-]|[? Hx]]%lookup_insert_Some; [done|by eapply cw_hash].
  - intros x hd'. rewrite Eh at 1. intros [[<- <-]|[Hne Hx]]%lookup_insert_Some.
    + exists k. rewrite Ek, lookup_insert_eq. fold p. split_and!; [done..|].
      case_decide; [done|]. apply Hkeep in Hpar as (? & Hh & _). by rewrite <- Ek.
    + destruct (cw_height b Hwf x hd' Hx) as (j & Hj & Hj0 & Hp). exists j.
      rewrite Ek at 1. rewrite lookup_insert_ne by done. split_and!; [done..|]. case_decide; [done|].
      destruct Hp as [Hp1 Hp2]. destruct (Hkeep (prev_blockhash hd') (j - 1)) as (? & ? & _); [|done].
      destruct Hp1 as [hp Hp1]. destruct (cw_height b Hwf _ _ Hp1) as (j' & Hj' & ? & _).
      assert (j' = j - 1) as -> by congruence. split_and!; [by exists hp|done..].
Qed.

(** Storing a header keeps the header table a tree: a new header whose
    parent is stored one height below (or a genesis header at height 0) can be
    stored, and the invariant on which ancestor walks rely still holds. *)
Theorem put_header_wf `{Bitcoin} b hd k b' :
  chain_wf b -> block_hash hd <> all_zeros -> headers b !! block_hash hd = None ->
  (if decide (prev_blockhash hd = all_zeros) then k = 0 else at_height b (prev_blockhash hd) (k - 1)) ->
  put_headers b [(hd, k)] = Ok b' ->
  chain_wf b' /\ at_height b' (block_hash hd) k /\
  (forall x j, at_height b x j -> at_height b' x j).
Proof.
  intros Hwf Hnz Hnew Hpar Hput. destruct (put_header_tree b hd k b' Hwf Hnz Hnew Hpar Hput) as (Hwf' & Eh & Ek & _ & Hk).
  split_and!; [done| |].
  - unfold at_height. rewrite Eh, Ek, !lookup_insert_eq. split_and!; [by eexists|done..].
  - intros x j (Hx & Hj & ?). assert (x <> block_hash hd) by (intros ->; rewrite Hnew in Hx; by destruct Hx).
    unfold at_height. by rewrite Eh, Ek, !lookup_insert_ne.
Qed.

(** ** Range queries *)

(** [segment b x l y]: [l] lists the blocks after [x] up to [y], in order. *)
Inductive segment (b : BlockHashDbs) (x : BlockHash) : list BlockHash -> BlockHash -> Prop :=
| segment_nil : segment b x [] x
| segment_snoc l y hd :
    headers b !! y = Some hd -> segment b x l (prev_blockhash hd) -> segment b x (l ++ [y]) y.

Section Range.
Context `{Bitcoin}.
Variable b : BlockHashDbs.
Hypothesis Hwf : chain_wf b.

Lemma peg_data_stored y hd :
  headers b !! y = Some hd -> has_info b y ->
  exists d, try_get_two_way_peg_data b y = Ok (Some d) /\
    hi_block_hash (twp_header_info d) = y /\ hi_prev_block_hash (twp_header_info d) = prev_blockhash hd.
Proof.
  intros Hy ([bmm Hb] & [txid Ht] & [evs He]). destruct (cw_height b Hwf y hd Hy) as (k & Hk & _).
  pose proof (cw_hash b Hwf y hd Hy) as Hh.
  unfold try_get_two_way_peg_data, try_get_header_info, try_get_block_info.
  rewrite Hy, bool_decide_eq_true_2 by done. cbn. rewrite Hk. cbn. rewrite Hb. cbn. rewrite Ht. cbn. rewrite He. cbn.
  by eexists.
Qed.

Lemma segment_ne x l y : segment b x l y -> l <> [] -> is_Some (headers b !! x) \/ x = all_zeros -> y <> x.
Proof.
  intros Hs Hl Hx ->. inversion Hs as [|l' ? hd Hy Hs']; subst; [done|].
  destruct Hx as [_| ->]; [|by rewrite (cw_zero b Hwf) in Hy].
  assert (Ha : is_ancestor b x (prev_blockhash hd)).
  { clear Hs Hy Hl. induction Hs'; [constructor|by eapply ancestor_step]. }
  destruct (cw_height b Hwf x hd Hy) as (k & Hk & ? & Hp). case_decide as Hz.
  - rewrite Hz in Ha. inversion Ha as [|? ? hd' Hz']; subst; [by rewrite (cw_zero b Hwf) in Hy|by rewrite (cw_zero b Hwf) in Hz'].
  - destruct Hp as [Hp Hpk]. assert (Hat : at_height b (prev_blockhash hd) (k - 1)).
    { destruct Hp as [hp Hp]. destruct (cw_height b Hwf _ _ Hp) as (j & Hj & ? & _).
      assert (j = k - 1) as -> by congruence. split_and!; [by exists hp|done..]. }
    destruct (is_ancestor_lower b Hwf _ _ _ Ha Hat) as [E|[E|(j & (_ & Hj & _) & ?)]].
    + rewrite E in Hk. rewrite Hk in Hpk. injection Hpk. lia.
    + rewrite E in Hy. by rewrite (cw_zero b Hwf) in Hy.
    + assert (j = k) by congruence. lia.
Qed.

Lemma peg_data_loop_spec fuel start x l e q y res :
  segment b x l y -> Forall (has_info b) l -> is_Some (headers b !! x) \/ x = all_zeros ->
  (start = Some x \/ (start = None /\ x = all_zeros)) -> (length l < fuel)%nat ->
  exists ds, peg_data_loop b fuel start e q y res = Some (Ok (res ++ rev ds)) /\
    (hi_block_hash ∘ twp_header_info <$> ds) = l.
Proof.
  intros Hs. revert fuel q res. induction Hs as [|l y hd Hy Hs IH]; intros fuel q res Hinfo Hx Hst Hf.
  - destruct fuel; [cbn in Hf; lia|]. exists []. cbn. rewrite app_nil_r. split; [|done].
    destruct Hst as [->|[-> ->]]; [by rewrite decide_True|]. rewrite decide_False, decide_True by done. done.
  - rewrite length_app in Hf. cbn in Hf. destruct fuel as [|fuel]; [lia|]. cbn [peg_data_loop].
    apply Forall_app in Hinfo as [Hinfo Hyi]. apply Forall_cons in Hyi as [Hyi _].
    assert (Hyx : y <> x) by (eapply segment_ne; [by eapply segment_snoc|by destruct l|done]).
    rewrite decide_False by (destruct Hst as [->|[-> _]]; congruence).
    rewrite decide_False by (intros ->; by rewrite (cw_zero b Hwf) in Hy).
    destruct (peg_data_stored y hd Hy Hyi) as (d & -> & Hh & Hp). cbn [map_err]. rewrite Hp.
    destruct (IH fuel y (res ++ [d]) Hinfo Hx Hst ltac:(lia)) as (ds & -> & Hds).
    exists (ds ++ [d]). rewrite fmap_app, Hds. cbn. rewrite Hh, rev_app_distr. cbn. by rewrite <- app_assoc.
Qed.

End Range.

(** The range query returns the blocks after the start block up to the
    end block, oldest first: whenever the blocks in between are stored, with
    fuel one more than their number (at most the end block's height plus two)
    it terminates with exactly their data. Without a start block the range
    begins at the genesis block. *)
Theorem peg_data_range_spec `{Bitcoin} b fuel start x l e :
  chain_wf b -> segment b x l e -> l <> [] -> Forall (has_info b) l ->
  is_Some (headers b !! x) \/ x = all_zeros ->
  (start = Some x \/ (start = None /\ x = all_zeros)) -> (length l <= fuel)%nat ->
  exists ds, get_two_way_peg_data_range b fuel start e = Some (Ok ds) /\
    (hi_block_hash ∘ twp_header_info <$> ds) = l.
Proof.
  intros Hwf Hs Hl Hinfo Hx Hst Hf. pose proof (segment_ne b Hwf _ _ _ Hs Hl Hx) as Hne.
  destruct Hs as [|l y hd Hy Hs]; [done|]. unfold get_two_way_peg_data_range.
  apply Forall_app in Hinfo as [Hinfo Hyi]. apply Forall_cons in Hyi as [Hyi _].
  destruct (peg_data_stored b Hwf y hd Hy Hyi) as (d & -> & Hh & Hp). cbn [map_err].
  rewrite decide_False by (destruct Hst as [->|[-> _]]; congruence). rewrite Hp.
  rewrite length_app in Hf. cbn in Hf.
  destruct (peg_data_loop_spec b Hwf fuel start x l y y (prev_blockhash hd) [d] Hs Hinfo Hx Hst ltac:(lia)) as (ds & -> & Hds).
  exists (ds ++ [d]). rewrite rev_app_distr, rev_involutive. split; [done|].
  rewrite fmap_app, Hds. cbn. by rewrite Hh.
Qed.

(** ** Seen BMM requests *)

Lemma collect_requests_spec (l : list (Txid * BmmCommitment)) c txid :
  txid ∈ default ∅ (collect_requests l !! c) <-> (txid, c) ∈ l.
Proof.
  unfold collect_requests.
  enough (Hgen : forall m : gmap BmmCommitment (gset Txid),
    txid ∈ default ∅ (foldl (fun res '(t, k) => <[k := {[t]} ∪ default ∅ (res !! k)]> res) m l !! c)
    <-> txid ∈ default ∅ (m !! c) \/ (txid, c) ∈ l).
  { rewrite Hgen, lookup_empty. cbn. set_solver. }
  induction l as [|[t k] l IH]; intros m; cbn; [set_solver|]. rewrite IH, elem_of_cons.
  destruct (decide (k = c)) as [->|Hne].
  - rewrite lookup_insert_eq. cbn. set_solver.
  - rewrite lookup_insert_ne by done. split; [tauto|]. intros [?|[[= -> ->]|?]]; [tauto|done|tauto].
Qed.

(** Seen BMM requests are an index by parent, slot and commitment: storing
    one adds exactly that transaction under its parent, slot and commitment. *)
Theorem seen_bmm_request_spec b parent slot txid c parent' slot' txid' c' :
  txid' ∈ default ∅ (get_seen_bmm_requests (put_seen_bmm_request b parent slot txid c) parent' slot' !! c') <->
  txid' ∈ default ∅ (get_seen_bmm_requests b parent' slot' !! c') \/
  (parent', slot', txid', c') = (parent, slot, txid, c).
Proof.
  unfold get_seen_bmm_requests. rewrite !collect_requests_spec, !elem_of_elements. cbn.
  destruct (decide ((parent, slot) = (parent', slot'))) as [E|Hne].
  - rewrite E, lookup_insert_eq. cbn. set_solver.
  - rewrite lookup_insert_ne by done. split; [tauto|]. intros [?|[= -> -> -> ->]]; done.
Qed.
