(* ===== verification/Treasury.v ===== *)
(** * The treasury tables refine a history of treasury UTXOs

    [ActiveSidechainDbs] keeps a sidechain's treasury in four tables: the
    current CTIP, all CTIPs ever by outpoint, all CTIPs by sequence number, and
    their count. The abstract specification is one list of CTIPs per slot;
    [put_ctip] appends to it and [delete_ctip] removes the last entry. *)

From Stdlib Require Import Strings.Byte.
From stdpp Require Import base numbers list gmap.
From S2P Require Import Prelude OrderMap Bitcoin Types Dbs.
Open Scope Z_scope.

(** ** Specification *)

Module TreasurySpec.

Definition history := SidechainNumber -> list Ctip.

Definition init : history := fun _ => [].
Definition append (h : history) (n : SidechainNumber) (c : Ctip) : history :=
  fun n' => if decide (n' = n) then h n ++ [c] else h n'.
Definition remove_last (h : history) (n : SidechainNumber) : history :=
  fun n' => if decide (n' = n) then removelast (h n) else h n'.

Lemma remove_last_append h n c n' : remove_last (append h n c) n n' = h n'.
Proof.
  unfold remove_last, append. case_decide; subst; [|done].
  rewrite decide_True by done. apply removelast_last.
Qed.
End TreasurySpec.
Import TreasurySpec.

(** The UTXO stored at sequence number [k] of a history. *)
Definition utxo_at (n : SidechainNumber) (l : list Ctip) (k : nat) : option TreasuryUtxo :=
  (fun c => mkTreasuryUtxo n (ctip_outpoint c) (ctip_value c)
              match k with O => 0 | S k' => from_option ctip_value 0 (l !! k') end) <$> l !! k.

Record treasury_repr (h : history) (db : ActiveSidechainDbs) : Prop := {
  tr_ctip n : ctip db !! n = last (h n);
  tr_count n : treasury_utxo_count db !! n
               = if decide (h n = []) then None else Some (Z.of_nat (length (h n)));
  tr_utxo n k : slot_sequence_to_treasury_utxo db !! (n, k)
                = if decide (0 <= k) then utxo_at n (h n) (Z.to_nat k) else None;
  tr_outpoint o n v k : ctip_outpoint_to_value_seq db !! o = Some (n, v, k)
                        <-> 0 <= k /\ h n !! Z.to_nat k = Some (mkCtip o v) }.

(** The two tables outside the treasury. *)
Definition same_frame (db db' : ActiveSidechainDbs) : Prop :=
  pending_m6ids db = pending_m6ids db' /\ sidechain db = sidechain db'.

#[global] Instance same_frame_equiv : Equivalence same_frame.
Proof. split; unfold same_frame; repeat intro; naive_solver congruence. Qed.

Lemma treasury_repr_ext h h' db : (forall n, h n = h' n) -> treasury_repr h db -> treasury_repr h' db.
Proof. intros Hext [E1 E2 E3 E4]. split; intros; rewrite <- Hext; auto. Qed.

(** The history determines the tables. *)
Lemma treasury_repr_inj h db db' :
  treasury_repr h db -> treasury_repr h db' -> same_frame db db' -> db = db'.
Proof.
  intros [E1 E2 E3 E4] [E1' E2' E3' E4'] [Hp Hs]. destruct db, db'; cbn in *. subst.
  f_equal; apply map_eq.
  - intros n. by rewrite E1, E1'.
  - intros o. apply option_eq. intros [[n v] k]. by rewrite E4, E4'.
  - intros [n k]. by rewrite E3, E3'.
  - intros n. by rewrite E2, E2'.
Qed.

Lemma treasury_repr_empty : treasury_repr init empty_active.
Proof.
  split; intros; cbn; rewrite ?lookup_empty; try done.
  - by case_decide.
  - split; [done|]. intros [_ ?]. done.
Qed.

(** ** [put_ctip] *)

Definition outpoint_fresh (o : OutPoint) (db : ActiveSidechainDbs) : Prop :=
  ctip_outpoint_to_value_seq db !! o = None.

Lemma utxo_at_snoc n (l : list Ctip) c k :
  utxo_at n (l ++ [c]) k =
  if decide (k = length l)
  then Some (mkTreasuryUtxo n (ctip_outpoint c) (ctip_value c) (from_option ctip_value 0 (last l)))
  else utxo_at n l k.
Proof.
  unfold utxo_at. case_decide as Hk; subst.
  - rewrite lookup_app_r, Nat.sub_diag by lia. cbn. do 2 f_equal.
    rewrite last_lookup. destruct (length l) eqn:E; cbn.
    + apply nil_length_inv in E as ->. done.
    + by rewrite lookup_app_l by lia.
  - destruct (decide (k < length l)%nat).
    + rewrite lookup_app_l by done. destruct k; [done|]. by rewrite lookup_app_l by lia.
    + rewrite !lookup_ge_None_2; rewrite ?length_app; cbn; try lia; done.
Qed.

Lemma snoc_ne_nil {A} (l : list A) x : l ++ [x] <> [].
Proof. by destruct l. Qed.

Lemma lookup_snoc_Some {A} (l : list A) x k y :
  (l ++ [x]) !! k = Some y <-> l !! k = Some y \/ (k = length l /\ y = x).
Proof.
  destruct (decide (k = length l)) as [->|Hk].
  - rewrite lookup_app_r, Nat.sub_diag, (lookup_ge_None_2 l) by lia. naive_solver.
  - destruct (decide (k < length l)%nat).
    + rewrite lookup_app_l by done. naive_solver.
    + rewrite !lookup_ge_None_2; rewrite ?length_app; cbn; try lia. naive_solver.
Qed.

Lemma put_ctip_repr h db db' n c q :
  treasury_repr h db -> outpoint_fresh (ctip_outpoint c) db ->
  @put_ctip DbError db n c = Ok (db', q) ->
  treasury_repr (append h n c) db' /\ same_frame db db' /\ q = Z.of_nat (length (h n)).
Proof.
  intros [E1 E2 E3 E4] Hfresh Hput. unfold put_ctip in Hput. res_inv.
  match goal with E : checked_add_u64 _ _ = Some _ |- _ => apply checked_add_u64_Some in E as [_ ->] end.
  assert (Hcount : default 0 (treasury_utxo_count db !! n) = Z.of_nat (length (h n))).
  { rewrite E2. case_decide as Hn; [by rewrite Hn|done]. }
  rewrite Hcount. split; [|by split]. unfold append. split; cbn.
  - intros n'. rewrite lookup_insert. repeat case_decide; try congruence. by rewrite last_snoc.
  - intros n'. rewrite lookup_insert. repeat case_decide; subst; try congruence.
    + by exfalso; eapply snoc_ne_nil.
    + rewrite length_app. cbn. f_equal. lia.
    + rewrite E2. by rewrite decide_True.
    + rewrite E2. by rewrite decide_False.
  - intros n' k. rewrite lookup_insert, E3, E1.
    destruct (decide (n' = n)) as [->|Hne].
    + rewrite utxo_at_snoc. repeat case_decide; simplify_eq; try lia; try done.
      exfalso. match goal with H : (_, _) <> (_, _) |- _ => apply H end. f_equal. lia.
    + rewrite decide_False by congruence. done.
  - intros o n' v k. rewrite lookup_insert. destruct (decide (n' = n)) as [->|Hne].
    + rewrite lookup_snoc_Some. case_decide as Ho.
      * split.
        -- intros [= <- <-]. split; [lia|]. right. split; [lia|]. destruct c; cbn in *. by subst.
        -- intros [Hk [Hl|[Hl <-]]].
           ++ exfalso. assert (ctip_outpoint_to_value_seq db !! o = Some (n, v, k)) by by apply E4.
              unfold outpoint_fresh in Hfresh. congruence.
           ++ cbn. do 2 f_equal. lia.
      * rewrite E4. split; [intros [? ?]; split; [done|by left]|].
        intros [Hk [Hl|[Hl <-]]]; [by split|done].
    + case_decide as Ho; [|by rewrite E4]. split; [congruence|].
      intros Hl. apply E4 in Hl. unfold outpoint_fresh in Hfresh. congruence.
Qed.

Lemma put_ctip_total {E} h db n c :
  treasury_repr h db -> Z.of_nat (length (h n)) < u64_max ->
  exists db' q, @put_ctip E db n c = Ok (db', q).
Proof.
  intros Hr Hlt. unfold put_ctip.
  replace (checked_add_u64 _ _) with (Some (1 + default 0 (treasury_utxo_count db !! n))); [by do 2 eexists|].
  symmetry. apply checked_add_u64_Some. split; [|done]. rewrite (tr_count _ _ Hr).
  unfold u64_max in *. case_decide; cbn; lia.
Qed.

(** ** [delete_ctip] *)

Lemma utxo_at_app_l n (l : list Ctip) c k :
  (k < length l)%nat -> utxo_at n (l ++ [c]) k = utxo_at n l k.
Proof. intros Hk. rewrite utxo_at_snoc. by rewrite decide_False by lia. Qed.

Lemma utxo_at_last n (l : list Ctip) c :
  last l = Some c ->
  exists p, utxo_at n l (length l - 1) = Some (mkTreasuryUtxo n (ctip_outpoint c) (ctip_value c) p).
Proof.
  destruct l as [|x l _] using rev_ind; [done|]. rewrite last_snoc. intros [= ->].
  rewrite length_app, Nat.add_sub. eexists. rewrite utxo_at_snoc. by rewrite decide_True by done.
Qed.

Lemma delete_ctip_repr h db n l c :
  treasury_repr h db -> h n = l ++ [c] ->
  exists db', delete_ctip db n = Ok db' /\ treasury_repr (remove_last h n) db' /\ same_frame db db'.
Proof.
  intros [E1 E2 E3 E4] Hn. unfold delete_ctip, db_get.
  assert (Hc : ctip db !! n = Some c) by (by rewrite E1, Hn, last_snoc).
  assert (Hk : treasury_utxo_count db !! n = Some (Z.of_nat (length l) + 1)).
  { rewrite E2, Hn, decide_False by apply snoc_ne_nil. rewrite length_app. cbn. f_equal. lia. }
  rewrite Hc, Hk. cbn [ok_or mbind Res_bind]. rewrite Z.add_simpl_r.
  assert (Hrl : removelast (h n) = l) by (rewrite Hn; apply removelast_last).
  assert (Hutxo : forall k, delete (n, Z.of_nat (length l)) (slot_sequence_to_treasury_utxo db) !! (n, k)
    = if decide (0 <= k) then utxo_at n l (Z.to_nat k) else None).
  { intros k. rewrite lookup_delete. case_decide as Hk'.
    - injection Hk' as <-. rewrite decide_True, Nat2Z.id by lia. unfold utxo_at. by rewrite lookup_ge_None_2.
    - rewrite E3, Hn. case_decide; [|done]. rewrite utxo_at_snoc, decide_False; [done|].
      intros Hl. apply Hk'. f_equal. lia. }
  assert (Hctips : exists ctips, match checked_sub (Z.of_nat (length l)) 1 with
    | Some prev =>
        prev_utxo ← ok_or MissingValue
          (delete (n, Z.of_nat (length l)) (slot_sequence_to_treasury_utxo db) !! (n, prev));
        Ok (<[n := mkCtip (tu_outpoint prev_utxo) (tu_total_value prev_utxo)]> (ctip db))
    | None => Ok (delete n (ctip db))
    end = Ok ctips /\ forall n', ctips !! n' = if decide (n' = n) then last l else ctip db !! n').
  { unfold checked_sub. case_bool_decide as Hl.
    - destruct (last l) as [c'|] eqn:El; [|apply last_None in El as ->; done].
      destruct (utxo_at_last n l c' El) as [p Hp].
      rewrite Hutxo, decide_True by lia. replace (Z.to_nat (Z.of_nat (length l) - 1)) with (length l - 1)%nat by lia.
      rewrite Hp. cbn. eexists. split; [done|]. intros n'. rewrite lookup_insert.
      repeat case_decide; subst; try done. by destruct c'.
    - destruct l; [|cbn in Hl; lia]. eexists. split; [done|]. intros n'. rewrite lookup_delete.
      by repeat case_decide; subst. }
  destruct Hctips as (ctips & -> & Hctips). eexists. split; [done|]. split; [|done].
  unfold remove_last. split; cbn.
  - intros n'. rewrite Hctips. rewrite Hrl. by case_decide.
  - intros n'. destruct (decide (n' = n)) as [->|Hne].
    + rewrite Hrl. destruct l as [|x l].
      * rewrite !decide_True by done. by rewrite lookup_delete_eq.
      * rewrite !decide_False by (cbn; lia || done). by rewrite lookup_insert_eq.
    + case_decide; rewrite ?lookup_delete_ne, ?lookup_insert_ne by done; apply E2.
  - intros n' k. destruct (decide (n' = n)) as [->|Hne]; [by rewrite Hrl|].
    rewrite lookup_delete_ne by congruence. apply E3.
  - intros o n' v k. rewrite lookup_delete.
    assert (Hlast : forall n' v k, ctip_outpoint_to_value_seq db !! ctip_outpoint c = Some (n', v, k) ->
      n' = n /\ k = Z.of_nat (length l)).
    { intros n0 v0 k0 Ho. assert (Ho' : ctip_outpoint_to_value_seq db !! ctip_outpoint c
        = Some (n, ctip_value c, Z.of_nat (length l))).
      { apply E4. rewrite Hn, Nat2Z.id, lookup_app_r, Nat.sub_diag by lia. split; [lia|]. by destruct c. }
      rewrite Ho in Ho'. by injection Ho'. }
    destruct (decide (n' = n)) as [->|Hne].
    + rewrite Hrl. destruct (decide (ctip_outpoint c = o)) as [<-|Ho].
      * split; [done|]. intros [Hk' Hl]. exfalso.
        destruct (Hlast n v k) as [_ ->].
        { apply E4. rewrite Hn. split; [done|]. by apply lookup_app_l_Some. }
        apply lookup_lt_Some in Hl. lia.
      * rewrite E4, Hn, lookup_snoc_Some. split.
        -- intros [? [?|[_ Hc']]]; [by split|]. by destruct Ho; rewrite <- Hc'.
        -- intros [? ?]. split; [done|by left].
    + destruct (decide (ctip_outpoint c = o)) as [<-|Ho]; [|by rewrite E4]. split; [done|]. intros Hl%E4.
      destruct (Hlast _ _ _ Hl). done.
Qed.
