(* ===== verification/Diff.v ===== *)
(** * Block diffs ([lib/validator/dbs/diff.rs])

    Each diff can be applied when its block is connected and undone when the
    block is disconnected. The trait [Diff] is the class [Diff]; the file ends
    with the lemmas that undoing a diff restores the tables it was applied to. *)

From Stdlib Require Import Strings.Byte.
From stdpp Require Import base numbers list gmap.
From S2P Require Import Prelude OrderMap Bitcoin Types Dbs Treasury.
Open Scope Z_scope.

Inductive UndoError :=
| UE_Db (e : DbError)
| SidechainVoteCountUnderflow (n : SidechainNumber)
| BundleVoteCountUnderflow (n : SidechainNumber) (m6id : M6id).

Class Diff (D DB : Type) := {
  apply : D -> Z -> DB -> Res DbError DB;
  undo : D -> DB -> Res UndoError DB }.

(** ** Sidechain proposals *)

#[export] Instance new_sidechain_proposal_diff
    : Diff NewSidechainProposal (gmap SidechainProposalId Sidechain) := {|
  apply d _ dbs := Ok (<[nsp_id d := nsp_sidechain d]> dbs);
  undo d dbs := Ok (delete (nsp_id d) dbs) |}.

Definition set_votes (sc : Sidechain) (v : Z) : Sidechain :=
  mkSidechain (sc_proposal sc)
    (mkStatus v (proposal_height (sc_status sc)) (activation_height (sc_status sc))).
Definition set_activation (sc : Sidechain) (a : option Z) : Sidechain :=
  mkSidechain (sc_proposal sc)
    (mkStatus (vote_count (sc_status sc)) (proposal_height (sc_status sc)) a).

Definition ack_sidechain_proposal_apply (d : AckSidechainProposal) (h : Z) (dbs : Dbs) : Res DbError Dbs :=
  sc ← db_get (proposal_id_to_sidechain dbs) (asp_id d);
  votes ← u16_incr (vote_count (sc_status sc));
  let sc := set_votes sc votes in
  match asp_effect d with
  | NoActivation => Ok (set_proposals dbs (<[asp_id d := sc]> (proposal_id_to_sidechain dbs)))
  | SlotActivation | ReplaceActive _ =>
      let sc := set_activation sc (Some h) in
      let dbs := set_active dbs
                   (put_sidechain (active_sidechains dbs) (spi_sidechain_number (asp_id d)) sc) in
      Ok (set_proposals dbs (delete (asp_id d) (proposal_id_to_sidechain dbs)))
  end.

Definition ack_sidechain_proposal_undo (d : AckSidechainProposal) (dbs : Dbs) : Res UndoError Dbs :=
  let n := spi_sidechain_number (asp_id d) in
  '(sc, dbs) ← match asp_effect d with
    | NoActivation =>
        sc ← map_err UE_Db (db_get (proposal_id_to_sidechain dbs) (asp_id d));
        Ok (sc, dbs)
    | ReplaceActive prev =>
        sc ← map_err UE_Db (db_get (sidechain (active_sidechains dbs)) n);
        Ok (set_activation sc None, set_active dbs (put_sidechain (active_sidechains dbs) n prev))
    | SlotActivation =>
        sc ← map_err UE_Db (db_get (sidechain (active_sidechains dbs)) n);
        Ok (set_activation sc None, set_active dbs (delete_sidechain (active_sidechains dbs) n))
    end;
  votes ← ok_or (SidechainVoteCountUnderflow n) (checked_sub (vote_count (sc_status sc)) 1);
  Ok (set_proposals dbs (<[asp_id d := set_votes sc votes]> (proposal_id_to_sidechain dbs))).

#[export] Instance ack_sidechain_proposal_diff : Diff AckSidechainProposal Dbs := {|
  apply := ack_sidechain_proposal_apply;
  undo := ack_sidechain_proposal_undo |}.

(** ** Withdrawal bundles *)

#[export] Instance propose_bundle_diff : Diff ProposeBundle ActiveSidechainDbs := {|
  apply d h db := put_pending_m6id db (pb_sidechain_number d) (pb_m6id d) h;
  undo d db := map_err UE_Db (delete_pending_withdrawal db (pb_sidechain_number d) (pb_m6id d)) |}.

Definition downvote : PendingM6idInfo -> PendingM6idInfo := map_votes (fun v => saturating_sub v 1).

Definition upvote_apply (m6id : M6id) (downvoted_others : list M6id) (p : PendingM6ids)
    : Res DbError PendingM6ids :=
  info ← unwrap (om_get m6id p);
  votes ← u16_incr (pm_vote_count info);
  Ok (foldl (fun p other => om_update other downvote p)
        (om_update m6id (map_votes (fun _ => votes)) p) downvoted_others).

Definition upvote_undo (n : SidechainNumber) (m6id : M6id) (downvoted_others : list M6id) (p : PendingM6ids)
    : Res UndoError PendingM6ids :=
  info ← unwrap (om_get m6id p);
  votes ← ok_or (BundleVoteCountUnderflow n m6id) (checked_sub (pm_vote_count info) 1);
  foldM (fun p other =>
           match om_get other p with
           | Some info => votes ← u16_incr (pm_vote_count info);
                          Ok (om_update other (map_votes (fun _ => votes)) p)
           | None => Ok p
           end) downvoted_others (om_update m6id (map_votes (fun _ => votes)) p).

(** [iter_mut().for_each(..)] of an undone alarm. *)
Fixpoint alarm_undo (positive : gset M6id) (p : PendingM6ids) : Res UndoError PendingM6ids :=
  match p with
  | [] => Ok []
  | (m6id, info) :: p =>
      info' ← (if decide (m6id ∈ positive) then
                 votes ← u16_incr (pm_vote_count info); Ok (map_votes (fun _ => votes) info)
               else Ok info);
      p' ← alarm_undo positive p;
      Ok ((m6id, info') :: p')
  end.

Definition ack_bundle_action_apply (db : ActiveSidechainDbs) (e : SidechainNumber * AckBundleAction)
    : Res DbError ActiveSidechainDbs :=
  match e.2 with
  | AlarmAction _ => alarm_pending_m6ds db e.1
  | UpvoteAction m6id others => with_pending_withdrawals id db e.1 (upvote_apply m6id others)
  end.

Definition ack_bundle_action_undo (db : ActiveSidechainDbs) (e : SidechainNumber * AckBundleAction)
    : Res UndoError ActiveSidechainDbs :=
  with_pending_withdrawals UE_Db db e.1
    match e.2 with
    | AlarmAction positive => alarm_undo positive
    | UpvoteAction m6id others => upvote_undo e.1 m6id others
    end.

(** The hash map is iterated in an arbitrary order; [HashOrder] shows that
    every order gives the same result. *)
#[export] Instance ack_bundles_diff : Diff AckBundles ActiveSidechainDbs := {|
  apply d _ db := foldM ack_bundle_action_apply (map_to_list d) db;
  undo d db := foldM ack_bundle_action_undo (map_to_list d) db |}.

(** ** Failures by age *)

#[export] Instance failed_proposals_diff : Diff FailedProposals (gmap SidechainProposalId Sidechain) := {|
  apply d _ dbs := Ok (foldl (fun dbs id => delete id dbs) dbs (map_to_list d).*1);
  undo d dbs := Ok (foldl (fun dbs e => <[e.1 := e.2]> dbs) dbs (map_to_list d)) |}.

(** The loop of [remove_failed_withdrawals]: [idx] counts the entries taken
    from [pending]; the recursion is on [pending], from which each iteration
    takes an entry. *)
Fixpoint remove_failed_loop (idx : nat) (failed : list nat) (pending non_failed : PendingM6ids) : PendingM6ids :=
  match pending with
  | [] => non_failed
  | (m6id, info) :: pending' =>
      match failed with
      | f :: failed' =>
          if decide (f = idx) then remove_failed_loop (S idx) failed' pending' non_failed
          else remove_failed_loop (S idx) failed pending' (om_insert m6id info non_failed)
      | [] => remove_failed_loop (S idx) failed pending' (om_insert m6id info non_failed)
      end
  end.

Definition remove_failed_withdrawals (failed : FailedPositions) (pending : PendingM6ids)
    : Res DbError PendingM6ids :=
  _ ← assert_or_panic (bool_decide (length failed <= length pending)%nat);
  Ok (remove_failed_loop 0 failed.*1 pending []).

(** The loop of [refill_pending_withdrawals]: each iteration takes an entry
    from [failed] or from [non_failed], so their joint length is enough fuel
    ([refill_remove] shows that it never runs out). *)
Fixpoint refill_loop (fuel idx : nat) (failed : FailedPositions) (non_failed pending : PendingM6ids)
    : option PendingM6ids :=
  match fuel with
  | O => None
  | S fuel =>
      match failed with
      | (f, (m6id, info)) :: failed' =>
          if decide (f = idx) then refill_loop fuel (S idx) failed' non_failed (om_insert m6id info pending)
          else match non_failed with
               | (m6id, info) :: non_failed' =>
                   refill_loop fuel (S idx) failed non_failed' (om_insert m6id info pending)
               | [] => Some pending
               end
      | [] =>
          match non_failed with
          | (m6id, info) :: non_failed' =>
              refill_loop fuel (S idx) failed non_failed' (om_insert m6id info pending)
          | [] => Some pending
          end
      end
  end.

Definition refill_pending_withdrawals (failed : FailedPositions) (non_failed : PendingM6ids)
    : Res UndoError PendingM6ids :=
  unwrap (refill_loop (S (length failed + length non_failed)) 0 failed non_failed []).

#[export] Instance failed_m6ids_diff : Diff FailedM6ids ActiveSidechainDbs := {|
  apply d _ db := foldM (fun db e => with_pending_withdrawals id db e.1 (remove_failed_withdrawals e.2))
                    (map_to_list d) db;
  undo d db := foldM (fun db e => with_pending_withdrawals UE_Db db e.1 (refill_pending_withdrawals e.2))
                 (map_to_list d) db |}.

(** ** Coinbase *)

Definition on_active {E} (f : ActiveSidechainDbs -> Res E ActiveSidechainDbs) (s : Dbs) : Res E Dbs :=
  a ← f (active_sidechains s); Ok (set_active s a).
Definition on_proposals {E} (f : gmap SidechainProposalId Sidechain -> Res E (gmap SidechainProposalId Sidechain))
    (s : Dbs) : Res E Dbs :=
  p ← f (proposal_id_to_sidechain s); Ok (set_proposals s p).

#[export] Instance coinbase_msg_diff : Diff CoinbaseMsg Dbs := {|
  apply d h s :=
    match d with
    | D_AckBundles d => on_active (apply d h) s
    | D_AckSidechainProposal d => apply d h s
    | D_NewSidechainProposal d => on_proposals (apply d h) s
    | D_ProposeBundle d => on_active (apply d h) s
    end;
  undo d s :=
    match d with
    | D_AckBundles d => on_active (undo d) s
    | D_AckSidechainProposal d => undo d s
    | D_NewSidechainProposal d => on_proposals (undo d) s
    | D_ProposeBundle d => on_active (undo d) s
    end |}.

#[export] Instance coinbase_diff : Diff CoinbaseDiff Dbs := {|
  apply d h s :=
    s ← foldM (fun s msg => apply msg h s) (cd_msgs d) s;
    s ← on_proposals (apply (cd_failed_proposals d) h) s;
    on_active (apply (cd_failed_m6ids d) h) s;
  undo d s :=
    s ← on_active (undo (cd_failed_m6ids d)) s;
    s ← on_proposals (undo (cd_failed_proposals d)) s;
    foldM (fun s msg => undo msg s) (rev (cd_msgs d)) s |}.

(** ** Transactions *)

Definition put_new_ctip (db : ActiveSidechainDbs) (e : SidechainNumber * Ctip) : Res DbError ActiveSidechainDbs :=
  fst <$> put_ctip db e.1 e.2.

#[export] Instance m5_diff : Diff M5 ActiveSidechainDbs := {|
  apply d _ db := foldM put_new_ctip (map_to_list (new_ctips d)) db;
  undo d db := foldM (fun db n => map_err UE_Db (delete_ctip db n)) (map_to_list (new_ctips d)).*1 db |}.

#[export] Instance m6_diff : Diff M6 ActiveSidechainDbs := {|
  apply d _ db :=
    db ← put_new_ctip db (m6_sidechain_number d, m6_new_ctip d);
    delete_pending_withdrawal db (m6_sidechain_number d) (removed_pending_withdrawal d);
  undo d db :=
    db ← map_err UE_Db (delete_ctip db (m6_sidechain_number d));
    with_pending_withdrawals UE_Db db (m6_sidechain_number d)
      (om_shift_insert (removed_pending_withdrawal_index d) (removed_pending_withdrawal d)
         (removed_pending_withdrawal_info d)) |}.

#[export] Instance tx_diff : Diff TxDiff ActiveSidechainDbs := {|
  apply d h db := match d with D_M5 d => apply d h db | D_M6 d => apply d h db end;
  undo d db := match d with D_M5 d => undo d db | D_M6 d => undo d db end |}.

#[export] Instance block_diff : Diff BlockDiff Dbs := {|
  apply d h s :=
    s ← apply (bd_coinbase d) h s;
    foldM (fun s tx => on_active (apply tx h) s) (bd_txs d) s;
  undo d s :=
    s ← foldM (fun s tx => on_active (undo tx) s) (rev (bd_txs d)) s;
    undo (bd_coinbase d) s |}.

(** ** Loops over slots

    The diffs of several sidechains update the pending bundles of different
    slots, so they commute and each can be undone on its own. *)

Section Keyed.
Context {A : Type}.
Implicit Types (l : list (SidechainNumber * A)) (db : ActiveSidechainDbs).

Definition keyed_fold {E} (conv : DbError -> E) (f : SidechainNumber -> A -> PendingM6ids -> Res E PendingM6ids)
    l db : Res E ActiveSidechainDbs :=
  foldM (fun db e => with_pending_withdrawals conv db e.1 (f e.1 e.2)) l db.

Lemma set_pending_id db : set_pending db (pending_m6ids db) = db.
Proof. by destruct db. Qed.

Lemma with_pending_Ok {E} (conv : DbError -> E) db n f db' :
  with_pending_withdrawals conv db n f = Ok db' <->
  exists p p', pending_m6ids db !! n = Some p /\ f p = Ok p' /\
               db' = set_pending db (<[n := p']> (pending_m6ids db)).
Proof.
  unfold with_pending_withdrawals, db_get. destruct (pending_m6ids db !! n) as [p|]; cbn.
  - destruct (f p) as [p'| |] eqn:Hf; cbn; (split; [intros [=]|intros (q & q' & [= <-] & Hq & ->)]);
      try congruence.
    exists p, p'. by subst.
  - split; [done|]. by intros (? & ? & ? & _).
Qed.

Lemma keyed_fold_inv {E} (conv : DbError -> E) f l db db' :
  NoDup l.*1 -> keyed_fold conv f l db = Ok db' ->
  exists ps, db' = set_pending db ps /\
    (forall k a, (k, a) ∈ l -> exists p p', pending_m6ids db !! k = Some p /\ f k a p = Ok p' /\ ps !! k = Some p') /\
    (forall k, k ∉ l.*1 -> ps !! k = pending_m6ids db !! k).
Proof.
  unfold keyed_fold. revert db. induction l as [|[k a] l IH]; intros db Hnd Hf; cbn in *.
  - res_inv. exists (pending_m6ids db'). rewrite set_pending_id. split_and!; [done| |done].
    by intros ?? ?%elem_of_nil.
  - apply NoDup_cons in Hnd as [Hk Hnd]. apply bind_Ok in Hf as (db1 & E1 & Hf).
    apply with_pending_Ok in E1 as (p & p' & Hp & Hfp & ->).
    apply IH in Hf as (ps & -> & Hin & Hout); [|done].
    exists ps. split; [done|]. cbn in Hin, Hout. split.
    + intros k' a' [[= -> ->]|Hl]%elem_of_cons.
      * exists p, p'. split_and!; [done..|]. rewrite Hout by done. by rewrite lookup_insert_eq.
      * destruct (Hin k' a' Hl) as (q & q' & Hq & ? & ?). exists q, q'. split_and!; try done.
        rewrite lookup_insert_ne in Hq; [done|]. intros ->.
        apply Hk. by apply (list_elem_of_fmap_2 fst _ (k', a')).
    + intros k' [? ?]%not_elem_of_cons. rewrite Hout by done. by rewrite lookup_insert_ne.
Qed.

Lemma keyed_fold_total {E} (conv : DbError -> E) f l db :
  NoDup l.*1 ->
  (forall k a, (k, a) ∈ l -> exists p p', pending_m6ids db !! k = Some p /\ f k a p = Ok p') ->
  exists db', keyed_fold conv f l db = Ok db'.
Proof.
  unfold keyed_fold. revert db. induction l as [|[k a] l IH]; intros db Hnd Hall; [by eexists|].
  rewrite fmap_cons in Hnd. apply NoDup_cons in Hnd as [Hk Hnd]. cbn [foldM fst snd].
  destruct (Hall k a) as (p & p' & Hp & Hf); [by left|].
  erewrite (proj2 (with_pending_Ok conv db k (f k a) _)) by (exists p, p'; done). cbn.
  apply IH; [done|]. intros k' a' Hl. destruct (Hall k' a') as (q & q' & ? & ?); [by right|].
  exists q, q'. cbn. rewrite lookup_insert_ne; [done|]. intros ->.
  apply Hk. by apply (list_elem_of_fmap_2 fst _ (k', a')).
Qed.

(** Undoing in any order restores the tables. *)
Lemma keyed_fold_undo {E F} (conv : DbError -> E) (conv' : DbError -> F) f g l l' db db' :
  NoDup l.*1 -> l ≡ₚ l' -> keyed_fold conv f l db = Ok db' ->
  (forall k a p p', (k, a) ∈ l -> pending_m6ids db !! k = Some p -> f k a p = Ok p' -> g k a p' = Ok p) ->
  keyed_fold conv' g l' db' = Ok db.
Proof.
  intros Hnd Hp Hf Hinv. apply keyed_fold_inv in Hf as (ps & -> & Hin & Hout); [|done].
  assert (Hnd' : NoDup l'.*1) by by rewrite <- Hp.
  destruct (keyed_fold_total conv' g l' (set_pending db ps)) as [db2 E2]; [done| |].
  { intros k a Hl. rewrite <- Hp in Hl. destruct (Hin k a Hl) as (p & p' & ? & ? & ?).
    exists p', p. split; [done|]. by eapply Hinv. }
  rewrite E2. f_equal. apply keyed_fold_inv in E2 as (qs & -> & Hin' & Hout'); [|done].
  rewrite <- (set_pending_id db). unfold set_pending; cbn. f_equal. apply map_eq. intros k.
  destruct (decide (k ∈ l.*1)) as [Hk|Hk].
  - apply list_elem_of_fmap in Hk as ([k' a] & -> & Hl). cbn.
    destruct (Hin k' a Hl) as (p & p' & Hpp & Hfp & Hps).
    destruct (Hin' k' a) as (q & q' & Hq & Hg & ->); [by rewrite <- Hp|]. cbn in Hq.
    rewrite Hps in Hq. injection Hq as <-. rewrite (Hinv k' a p p') in Hg by done.
    injection Hg as <-. done.
  - rewrite Hout' by by rewrite <- Hp. cbn. by apply Hout.
Qed.

(** Applying in any order gives the same tables. *)
Lemma keyed_fold_perm {E} (conv : DbError -> E) f l l' db db' :
  NoDup l.*1 -> l ≡ₚ l' -> keyed_fold conv f l db = Ok db' -> keyed_fold conv f l' db = Ok db'.
Proof.
  intros Hnd Hp Hf. assert (Hnd' : NoDup l'.*1) by by rewrite <- Hp.
  apply keyed_fold_inv in Hf as (ps & -> & Hin & Hout); [|done].
  destruct (keyed_fold_total conv f l' db) as [db2 E2]; [done| |].
  { intros k a Hl. rewrite <- Hp in Hl. destruct (Hin k a Hl) as (p & p' & ? & ? & ?). by exists p, p'. }
  rewrite E2. f_equal. apply keyed_fold_inv in E2 as (qs & -> & Hin' & Hout'); [|done].
  f_equal. apply map_eq. intros k. destruct (decide (k ∈ l.*1)) as [Hk|Hk].
  - apply list_elem_of_fmap in Hk as ([k' a] & -> & Hl). cbn.
    destruct (Hin k' a Hl) as (p & p' & Hpp & Hfp & ->).
    destruct (Hin' k' a) as (q & q' & Hq & Hg & ->); [by rewrite <- Hp|]. congruence.
  - rewrite Hout, Hout'; [done|by rewrite <- Hp|done].
Qed.

End Keyed.

(** ** Votes *)

(** [downvoted_others_for_upvote] and [positive_votes_proposals_for_alarm]
    ([task/mod.rs]): the bundles an upvote or an alarm takes a vote from. *)
Definition downvoted_others_for_upvote (pending : PendingM6ids) (upvote_target : M6id) : list M6id :=
  (filter (fun e => e.1 <> upvote_target /\ 0 < pm_vote_count e.2) pending).*1.

Definition positive_votes_proposals_for_alarm (pending : PendingM6ids) : gset M6id :=
  list_to_set (filter (fun e => 0 < pm_vote_count e.2) pending).*1.

Definition votes_ok (i : PendingM6idInfo) : Prop := 0 <= pm_vote_count i <= u16_max.

(** The pending bundles of a slot: distinct ids, 16-bit vote counts. *)
Definition pending_wf (p : PendingM6ids) : Prop := om_wf p /\ Forall (fun e => votes_ok e.2) p.

Lemma pending_wf_get p m i : pending_wf p -> om_get m p = Some i -> votes_ok i.
Proof. intros [_ Hv] Hg%om_get_elem. rewrite Forall_forall in Hv. by apply (Hv (m, i)). Qed.

Lemma pending_wf_intro p :
  om_wf p -> (forall m i, om_get m p = Some i -> votes_ok i) -> pending_wf p.
Proof.
  intros Hwf Hv. split; [done|]. apply Forall_forall. intros [m i] Hin. cbn.
  apply (Hv m). by apply om_elem_get.
Qed.

Lemma elem_of_downvoted p m o :
  om_wf p -> o ∈ downvoted_others_for_upvote p m <->
  o <> m /\ exists i, om_get o p = Some i /\ 0 < pm_vote_count i.
Proof.
  intros Hwf. unfold downvoted_others_for_upvote. rewrite list_elem_of_fmap. split.
  - intros ([o' i] & -> & [[? ?] Hin]%list_elem_of_filter). cbn in *. split; [done|].
    exists i. split; [by apply om_elem_get|done].
  - intros [? (i & Hg & ?)]. exists (o, i). split; [done|]. apply list_elem_of_filter.
    split; [done|]. by apply om_get_elem.
Qed.

Lemma elem_of_positive p o :
  om_wf p -> o ∈ positive_votes_proposals_for_alarm p <->
  exists i, om_get o p = Some i /\ 0 < pm_vote_count i.
Proof.
  intros Hwf. unfold positive_votes_proposals_for_alarm. rewrite elem_of_list_to_set, list_elem_of_fmap. split.
  - intros ([o' i] & -> & [? Hin]%list_elem_of_filter). cbn in *.
    exists i. split; [by apply om_elem_get|done].
  - intros (i & Hg & ?). exists (o, i). split; [done|]. apply list_elem_of_filter.
    split; [done|]. by apply om_get_elem.
Qed.

Lemma NoDup_downvoted p m : om_wf p -> NoDup (downvoted_others_for_upvote p m).
Proof.
  intros Hwf. eapply sublist_NoDup; [exact Hwf|]. apply fmap_sublist, sublist_filter.
Qed.

Lemma foldl_update_keys others f (p : PendingM6ids) :
  om_keys (foldl (fun p o => om_update o f p) p others) = om_keys p.
Proof.
  revert p. induction others as [|o os IH]; intros p; [done|].
  etrans; [apply IH|apply om_keys_update].
Qed.

Lemma foldl_update_get others f (p : PendingM6ids) k :
  NoDup others ->
  om_get k (foldl (fun p o => om_update o f p) p others)
  = if decide (k ∈ others) then f <$> om_get k p else om_get k p.
Proof.
  intros Hnd. revert p. induction Hnd as [|o os Ho Hnd IH]; intros p.
  - rewrite decide_False by apply not_elem_of_nil. done.
  - etrans; [apply IH|]. cbv beta. rewrite om_get_update. destruct (decide (o = k)) as [->|].
    + rewrite decide_False by done. by rewrite decide_True by left.
    + destruct (decide (k ∈ os)); [rewrite decide_True by by right|rewrite decide_False]; try done.
      by rewrite elem_of_cons; intros [?|?]; congruence.
Qed.

Lemma om_update_ext k (f g : PendingM6idInfo -> PendingM6idInfo) (p : PendingM6ids) i :
  om_get k p = Some i -> f i = g i -> om_update k f p = om_update k g p.
Proof.
  unfold om_get. induction p as [|[k' v] p IH]; cbn; [done|]. case_decide; cbn.
  - intros [= ->] ->. done.
  - intros Hg Hfg. f_equal. apply IH; [|done]. by destruct (om_get_full k p) as [[]|].
Qed.

(** Giving a vote back to the bundles that lost one. *)
Lemma foldM_revote others (p : PendingM6ids) :
  NoDup others -> (forall o, o ∈ others -> exists i, om_get o p = Some i /\ pm_vote_count i < u16_max) ->
  foldM (fun p other =>
           match om_get other p with
           | Some info => votes ← u16_incr (pm_vote_count info);
                          Ok (om_update other (map_votes (fun _ => votes)) p)
           | None => Ok p
           end) others p
  = (Ok (foldl (fun p o => om_update o (map_votes (fun v => v + 1)) p) p others) : Res UndoError _).
Proof.
  intros Hnd. revert p. induction Hnd as [|o os Ho Hnd IH]; intros p Hall; cbn; [done|].
  destruct (Hall o ltac:(left)) as (i & Hi & Hlt). rewrite Hi. unfold u16_incr.
  rewrite bool_decide_eq_true_2 by done. cbn.
  rewrite (om_update_ext o _ (map_votes (fun v => v + 1)) p i) by done. apply IH.
  intros o' Ho'. rewrite om_get_update, decide_False by congruence. apply Hall. by right.
Qed.

Lemma upvote_apply_get p m p' :
  pending_wf p -> upvote_apply m (downvoted_others_for_upvote p m) p = Ok p' ->
  exists i, om_get m p = Some i /\ pm_vote_count i < u16_max /\ om_keys p' = om_keys p /\
  forall k, om_get k p' =
    if decide (k = m) then Some (mkPending (pm_vote_count i + 1) (pm_proposal_height i))
    else (fun j => mkPending (saturating_sub (pm_vote_count j) 1) (pm_proposal_height j)) <$> om_get k p.
Proof.
  intros [Hwf Hv] Ha. unfold upvote_apply in Ha. res_inv. eexists. split_and!; [done..| |].
  - by rewrite foldl_update_keys, om_keys_update.
  - intros k. rewrite foldl_update_get by by apply NoDup_downvoted. rewrite om_get_update.
    destruct (decide (k = m)) as [->|Hk].
    + rewrite decide_False by (rewrite elem_of_downvoted by done; naive_solver).
      rewrite decide_True by done. match goal with E : om_get _ _ = Some _ |- _ => rewrite E end. done.
    + rewrite (decide_False (P := m = k)) by congruence. case_decide as Hin; [done|].
      rewrite elem_of_downvoted in Hin by done. destruct (om_get k p) as [j|] eqn:Hj; [|done]. cbn.
      destruct (pending_wf_get p k j (conj Hwf Hv) Hj) as [Hj0 _].
      destruct (decide (pm_vote_count j = 0)) as [Hz|]; [|destruct Hin; split; [done|exists j; split; [done|lia]]].
      destruct j as [v h']; cbn in *. unfold saturating_sub. do 2 f_equal. lia.
Qed.

Lemma upvote_undo_apply n p m p' :
  pending_wf p -> upvote_apply m (downvoted_others_for_upvote p m) p = Ok p' ->
  upvote_undo n m (downvoted_others_for_upvote p m) p' = Ok p.
Proof.
  intros Hwf Ha. destruct (upvote_apply_get _ _ _ Hwf Ha) as (i & Hi & Hlt & Hkeys & Hget).
  pose proof (pending_wf_get _ _ _ Hwf Hi) as [Hi0 _]. destruct Hwf as [Hwf Hv].
  unfold upvote_undo. rewrite Hget, decide_True by done. cbn [unwrap mbind Res_bind pm_vote_count].
  replace (checked_sub _ _) with (Some (pm_vote_count i)).
  2:{ symmetry. apply checked_sub_Some. lia. }
  cbn [ok_or mbind Res_bind].
  assert (Hother : forall o, o ∈ downvoted_others_for_upvote p m -> exists j, om_get o p = Some j /\
     0 < pm_vote_count j <= u16_max /\ o <> m).
  { intros o [? (j & Hj & ?)]%elem_of_downvoted; [|done]. exists j. split; [done|].
    pose proof (pending_wf_get p o j (conj Hwf Hv) Hj) as [_ ?]. done. }
  rewrite foldM_revote.
  - f_equal. symmetry. apply om_ext; [done|by rewrite foldl_update_keys, om_keys_update, Hkeys|].
    intros k. rewrite foldl_update_get, om_get_update, Hget by by apply NoDup_downvoted.
    destruct (decide (k = m)) as [->|Hk].
    + rewrite decide_False by (intros (j & _ & _ & ?)%Hother; done). rewrite decide_True by done.
      cbn. rewrite Hi. by destruct i.
    + rewrite (decide_False (P := m = k)) by congruence. destruct (om_get k p) as [j|] eqn:Hj; cbn.
      2:{ by case_decide. }
      pose proof (pending_wf_get p k j (conj Hwf Hv) Hj) as [Hj0 _].
      case_decide as Hin; cbn; destruct j as [v h']; unfold map_votes; cbn in *; do 2 f_equal;
        rewrite elem_of_downvoted in Hin by done; unfold saturating_sub.
      * destruct Hin as [_ (j' & Hj' & ?)]. rewrite Hj in Hj'. injection Hj' as <-. cbn in *. lia.
      * destruct (decide (v = 0)) as [->|]; [done|]. destruct Hin. split; [done|].
        eexists. split; [done|]. cbn. lia.
  - by apply NoDup_downvoted.
  - intros o Ho. destruct (Hother o Ho) as (j & Hj & Hv' & Hne).
    rewrite om_get_update, decide_False, Hget, decide_False, Hj by congruence. cbn.
    eexists. split; [done|]. cbn. unfold saturating_sub. lia.
Qed.

(** An alarm takes a vote from every bundle that has one; undoing it gives
    the vote back to exactly the bundles recorded in the diff. *)
Lemma alarm_undo_map (pos : gset M6id) (p : PendingM6ids) :
  (forall m i, (m, i) ∈ p -> votes_ok i /\ (m ∈ pos <-> 0 < pm_vote_count i)) ->
  alarm_undo pos (om_map (fun _ => downvote) p) = Ok p.
Proof.
  induction p as [|[m i] p IH]; intros Hall; [done|].
  change (alarm_undo pos ((m, downvote i) :: om_map (fun _ => downvote) p) = Ok ((m, i) :: p)).
  cbn [alarm_undo]. destruct (Hall m i) as [Hv Hpos]; [by left|]. unfold votes_ok in Hv.
  rewrite IH by (intros; apply Hall; by right). destruct i as [v h]. cbn in *.
  unfold saturating_sub. case_decide as Hin.
  - apply Hpos in Hin. unfold u16_incr. rewrite bool_decide_eq_true_2 by (cbn; lia). cbn.
    unfold map_votes; cbn. do 3 f_equal. f_equal. lia.
  - assert (v = 0) as -> by (destruct (decide (0 < v)) as [Hlt|]; [by apply Hpos in Hlt|lia]). done.
Qed.

Lemma alarm_undo_apply p :
  pending_wf p -> alarm_undo (positive_votes_proposals_for_alarm p) (om_map (fun _ => downvote) p) = Ok p.
Proof.
  intros [Hwf Hv]. apply alarm_undo_map. intros m i Hin. rewrite Forall_forall in Hv.
  split; [by apply (Hv (m, i))|]. rewrite elem_of_positive by done. apply om_elem_get in Hin; [|done].
  rewrite Hin. naive_solver.
Qed.

(** ** Failed bundles *)

(** The entries of [p] that satisfy [P], with their positions counted from [i]
    ([enumerate().filter(..)]). *)
Definition enumerate_filter (P : PendingM6idInfo -> bool) (i : nat) (p : PendingM6ids) : FailedPositions :=
  filter (fun e => P e.2.2 = true) (imap (fun k e => ((i + k)%nat, e)) p).

Definition survivors (P : PendingM6idInfo -> bool) (p : PendingM6ids) : PendingM6ids :=
  filter (fun e => P e.2 = false) p.

Lemma survivors_cons P e p :
  survivors P (e :: p) = if P e.2 then survivors P p else e :: survivors P p.
Proof. unfold survivors. rewrite filter_cons. by destruct (P e.2). Qed.

Lemma enumerate_filter_cons P i e p :
  enumerate_filter P i (e :: p) =
  if P e.2 then (i, e) :: enumerate_filter P (S i) p else enumerate_filter P (S i) p.
Proof.
  unfold enumerate_filter. rewrite imap_cons, filter_cons. cbn. rewrite Nat.add_0_r.
  replace (imap _ p) with (imap (fun k e => ((S i + k)%nat, e)) p).
  2:{ apply imap_ext. intros. cbn. f_equal. lia. }
  destruct (P e.2); cbn; reflexivity.
Qed.

Lemma enumerate_filter_ge P i p k e : (k, e) ∈ enumerate_filter P i p -> (i <= k)%nat.
Proof.
  revert i. induction p as [|x p IH]; intros i; [by intros ?%elem_of_nil|].
  rewrite enumerate_filter_cons. destruct (P x.2).
  - intros [[= -> ->]|Hin]%elem_of_cons; [done|]. apply IH in Hin. lia.
  - intros Hin. apply IH in Hin. lia.
Qed.

Lemma enumerate_filter_length P i p :
  (length (enumerate_filter P i p) + length (survivors P p) = length p)%nat.
Proof.
  revert i. induction p as [|x p IH]; intros i; [done|].
  rewrite enumerate_filter_cons, survivors_cons. specialize (IH (S i)). destruct (P x.2); cbn; lia.
Qed.

Lemma survivors_all P p i : enumerate_filter P i p = [] -> survivors P p = p.
Proof.
  revert i. induction p as [|x p IH]; intros i; [done|]. rewrite enumerate_filter_cons, survivors_cons.
  destruct (P x.2); [done|]. intros E. f_equal. by eapply IH.
Qed.

Lemma enumerate_filter_head P i p f e l :
  enumerate_filter P (S i) p = (f, e) :: l -> f <> i.
Proof.
  intros E. assert (Hin : (f, e) ∈ enumerate_filter P (S i) p) by (rewrite E; by left).
  apply enumerate_filter_ge in Hin. lia.
Qed.

Lemma om_wf_app_cons (acc p : PendingM6ids) m i :
  om_wf (acc ++ (m, i) :: p) -> om_insert m i acc = acc ++ [(m, i)] /\ om_wf ((acc ++ [(m, i)]) ++ p) /\ om_wf (acc ++ p).
Proof.
  intros Hwf. split_and!.
  - apply om_insert_fresh. unfold om_wf, om_keys in *. rewrite fmap_app, fmap_cons in Hwf.
    apply NoDup_app in Hwf as (_ & Hd & _). intros Hin. apply (Hd _ Hin). by left.
  - by rewrite <- app_assoc.
  - eapply om_wf_sublist; [|exact Hwf]. apply sublist_app; [done|by apply sublist_cons].
Qed.

Lemma remove_failed_loop_spec P i p acc :
  om_wf (acc ++ p) ->
  remove_failed_loop i (enumerate_filter P i p).*1 p acc = acc ++ survivors P p.
Proof.
  revert i acc. induction p as [|[m x] p IH]; intros i acc Hwf; [by rewrite app_nil_r|].
  destruct (om_wf_app_cons _ _ _ _ Hwf) as (Hins & Hwf1 & Hwf2).
  rewrite enumerate_filter_cons, survivors_cons. cbn. destruct (P x) eqn:HP; cbn.
  - rewrite decide_True by done. by apply IH.
  - rewrite Hins. specialize (IH (S i) (acc ++ [(m, x)]) Hwf1). rewrite <- app_assoc in IH. cbn in IH.
    destruct (enumerate_filter P (S i) p) as [|[f e] l] eqn:Ee; cbn in *; [done|].
    rewrite decide_False by (by eapply enumerate_filter_head). done.
Qed.

Lemma refill_loop_spec P fuel i p acc :
  om_wf (acc ++ p) -> (length p < fuel)%nat ->
  refill_loop fuel i (enumerate_filter P i p) (survivors P p) acc = Some (acc ++ p).
Proof.
  revert fuel i acc. induction p as [|[m x] p IH]; intros fuel i acc Hwf Hf.
  { destruct fuel; cbn in *; [lia|]. by rewrite app_nil_r. }
  destruct fuel as [|fuel]; cbn in Hf; [lia|].
  destruct (om_wf_app_cons _ _ _ _ Hwf) as (Hins & Hwf1 & _).
  specialize (IH fuel (S i) (acc ++ [(m, x)]) Hwf1 ltac:(lia)).
  rewrite <- app_assoc in IH. cbn in IH.
  rewrite enumerate_filter_cons, survivors_cons. cbn.
  destruct (P x) eqn:HP; cbn.
  - rewrite decide_True by done. by rewrite Hins.
  - destruct (enumerate_filter P (S i) p) as [|[f [m' x']] l] eqn:Ee; cbn in *; [by rewrite Hins|].
    rewrite decide_False by (by eapply enumerate_filter_head). by rewrite Hins.
Qed.

Lemma remove_failed_spec P p :
  om_wf p -> remove_failed_withdrawals (enumerate_filter P 0 p) p = Ok (survivors P p).
Proof.
  intros Hwf. unfold remove_failed_withdrawals. pose proof (enumerate_filter_length P 0 p).
  rewrite bool_decide_eq_true_2 by lia. cbn. f_equal. by apply (remove_failed_loop_spec P 0 p []).
Qed.

(** Refilling puts every failed bundle back at its old position. *)
Lemma refill_remove P p :
  om_wf p -> refill_pending_withdrawals (enumerate_filter P 0 p) (survivors P p) = Ok p.
Proof.
  intros Hwf. unfold refill_pending_withdrawals. pose proof (enumerate_filter_length P 0 p).
  by rewrite (refill_loop_spec P) by (done || lia).
Qed.
