(* ===== verification/Reversible.v ===== *)
(** * Undoing diffs

    The contract of [dbs::diff::Diff]: on well-formed tables, a diff that was
    computed for these tables keeps them well formed when it is applied, and
    undoing it restores them. The contract is the class [DiffLaws]; every
    diff of the validator is an instance, up to the diff of a whole block. *)

From Stdlib Require Import Strings.Byte.
From stdpp Require Import base numbers list gmap.
From S2P Require Import Prelude OrderMap Bitcoin Types Dbs Treasury Diff.
Import TreasurySpec.
Open Scope Z_scope.

(** ** The contract *)

(** The invariant of a set of tables. *)
Class WellFormed (DB : Type) := wf : DB -> Prop.

Class DiffLaws (D DB : Type) `{Diff D DB, WellFormed DB} := {
  (** What the diff of a block at some height relies on. *)
  valid : D -> Z -> DB -> Prop;
  apply_wf d h s s' : wf s -> valid d h s -> apply d h s = Ok s' -> wf s';
  undo_apply d h s s' : wf s -> valid d h s -> apply d h s = Ok s' -> undo d s' = Ok s }.

(** Diffs applied one after the other, each valid where it is applied. *)
Inductive run {D DB} `{DiffLaws D DB} (h : Z) : list D -> DB -> DB -> Prop :=
| run_nil s : run h [] s s
| run_snoc ds d s s1 s2 :
    run h ds s s1 -> valid d h s1 -> apply d h s1 = Ok s2 -> run h (ds ++ [d]) s s2.

Section Run.
Context {D DB : Type} `{DiffLaws D DB}.
Implicit Types (ds : list D) (s : DB).

Lemma run_apply h ds s s' : run h ds s s' -> foldM (fun s d => apply d h s) ds s = Ok s'.
Proof.
  induction 1 as [|ds d s s1 s2 Hr IH Hv Ha]; [done|]. rewrite foldM_app, IH. cbn. by rewrite Ha.
Qed.

Lemma run_wf h ds s s' : wf s -> run h ds s s' -> wf s'.
Proof. intros Hs. induction 1; eauto using apply_wf. Qed.

Lemma run_undo h ds s s' : wf s -> run h ds s s' -> foldM (fun s d => undo d s) (rev ds) s' = Ok s.
Proof.
  intros Hs. induction 1 as [|ds d s s1 s2 Hr IH Hv Ha]; [done|].
  rewrite rev_app_distr. cbn.
  rewrite (undo_apply d h s1 s2) by eauto using run_wf. cbn. by apply IH.
Qed.

Lemma run_trans h ds1 ds2 s1 s2 s3 : run h ds1 s1 s2 -> run h ds2 s2 s3 -> run h (ds1 ++ ds2) s1 s3.
Proof.
  intros Hr1 Hr2. revert Hr1. induction Hr2; intros Hr1; [by rewrite app_nil_r|].
  rewrite app_assoc. eapply run_snoc; eauto.
Qed.

End Run.

(** ** The invariant of the validator's tables *)

Record active_wf (a : ActiveSidechainDbs) : Prop := {
  aw_dom n : is_Some (pending_m6ids a !! n) <-> is_Some (sidechain a !! n);
  aw_pending n p : pending_m6ids a !! n = Some p -> pending_wf p;
  aw_treasury : exists h, treasury_repr h a }.

Definition proposal_wf `{Bitcoin} (id : SidechainProposalId) (sc : Sidechain) : Prop :=
  compute_id (sc_proposal sc) = id /\ 0 <= vote_count (sc_status sc) <= u16_max
  /\ activation_height (sc_status sc) = None.

#[export] Instance active_well_formed : WellFormed ActiveSidechainDbs := active_wf.
#[export] Instance proposals_well_formed `{Bitcoin} : WellFormed (gmap SidechainProposalId Sidechain) :=
  map_Forall proposal_wf.
#[export] Instance dbs_well_formed `{Bitcoin} : WellFormed Dbs := fun s =>
  wf (active_sidechains s) /\ wf (proposal_id_to_sidechain s).

Lemma treasury_repr_set_pending h a p : treasury_repr h (set_pending a p) <-> treasury_repr h a.
Proof. split; intros [E1 E2 E3 E4]; by split. Qed.

Lemma active_wf_set_pending a n p p' :
  active_wf a -> pending_m6ids a !! n = Some p -> pending_wf p' ->
  active_wf (set_pending a (<[n := p']> (pending_m6ids a))).
Proof.
  intros [Hd Hp [h Ht]] Hn Hp'. split; cbn.
  - intros m. rewrite <- Hd, lookup_insert_is_Some. destruct (decide (n = m)) as [->|]; [|naive_solver].
    rewrite Hn. naive_solver.
  - intros m q [[-> <-]|[? ?]]%lookup_insert_Some; [done|by eapply Hp].
  - exists h. by apply treasury_repr_set_pending.
Qed.

Lemma active_wf_keyed {A E} (conv : DbError -> E) f (l : list (SidechainNumber * A)) a a' :
  active_wf a -> NoDup l.*1 -> keyed_fold conv f l a = Ok a' ->
  (forall k x p p', (k, x) ∈ l -> pending_m6ids a !! k = Some p -> f k x p = Ok p' -> pending_wf p') ->
  active_wf a'.
Proof.
  intros [Hd Hp [h Ht]] Hnd Hf Hpw. apply keyed_fold_inv in Hf as (ps & -> & Hin & Hout); [|done].
  assert (Hcase : forall n, (exists x p p', (n, x) ∈ l /\ pending_m6ids a !! n = Some p /\ f n x p = Ok p' /\ ps !! n = Some p')
                  \/ ps !! n = pending_m6ids a !! n).
  { intros n. destruct (decide (n ∈ l.*1)) as [Hk|Hk]; [left|right; by apply Hout].
    apply list_elem_of_fmap in Hk as ([k x] & -> & Hl).
    destruct (Hin k x Hl) as (p & p' & ? & ? & ?). by exists x, p, p'. }
  split; cbn.
  - intros n. rewrite <- Hd. destruct (Hcase n) as [(x & p & p' & _ & -> & _ & ->)| ->]; [|done]. by split; eauto.
  - intros n q Hq. destruct (Hcase n) as [(x & p & p' & Hl & Hn & Hfp & Hps)|Hn].
    + rewrite Hps in Hq. injection Hq as <-. by eapply Hpw.
    + rewrite Hn in Hq. by eapply Hp.
  - exists h. by apply treasury_repr_set_pending.
Qed.

(** ** Sidechain proposals *)

#[export] Instance new_sidechain_proposal_laws `{Bitcoin}
    : DiffLaws NewSidechainProposal (gmap SidechainProposalId Sidechain).
Proof.
  refine {| valid d _ s := s !! nsp_id d = None /\ proposal_wf (nsp_id d) (nsp_sidechain d) |}.
  - intros d h s s' Hs [_ Hp] [= <-]. by apply map_Forall_insert_2.
  - intros d h s s' _ [Hn _] [= <-]. cbn. by rewrite delete_insert_id.
Defined.

(** The slot is free for an activation, or holds the sidechain that the diff
    records as replaced. *)
Definition ack_valid (d : AckSidechainProposal) (a : ActiveSidechainDbs) : Prop :=
  let n := spi_sidechain_number (asp_id d) in
  match asp_effect d with
  | NoActivation => True
  | SlotActivation => sidechain a !! n = None
  | ReplaceActive prev => sidechain a !! n = Some prev
  end.

Lemma active_wf_put_sidechain a n sc : active_wf a -> active_wf (put_sidechain a n sc).
Proof.
  intros [Hd Hp [h Ht]]. unfold put_sidechain, contains_key. split; cbn.
  - intros m. case_bool_decide as Hc; rewrite ?lookup_insert_is_Some, Hd;
      destruct (decide (n = m)) as [->|]; naive_solver.
  - intros m p. case_bool_decide; [apply Hp|].
    intros [[-> <-]|[? ?]]%lookup_insert_Some; [|by eapply Hp].
    split; [by apply NoDup_nil|by constructor].
  - exists h. by destruct Ht; split.
Qed.

Lemma delete_put_sidechain a n sc :
  active_wf a -> sidechain a !! n = None -> delete_sidechain (put_sidechain a n sc) n = a.
Proof.
  intros [Hd _ _] Hn. unfold delete_sidechain, put_sidechain, contains_key.
  rewrite bool_decide_eq_false_2 by (rewrite Hd, Hn; by intros []). cbn.
  rewrite !delete_insert_id; [by destruct a|done|].
  apply eq_None_not_Some. rewrite Hd, Hn. by intros [].
Qed.

Lemma put_put_sidechain a n sc prev :
  active_wf a -> sidechain a !! n = Some prev -> put_sidechain (put_sidechain a n sc) n prev = a.
Proof.
  intros [Hd _ _] Hn. unfold put_sidechain, contains_key.
  assert (Hs : is_Some (pending_m6ids a !! n)) by (rewrite Hd, Hn; eauto).
  rewrite (bool_decide_eq_true_2 _ Hs). cbn. rewrite (bool_decide_eq_true_2 _ Hs).
  rewrite insert_insert_eq, insert_id by done. by destruct a.
Qed.

Lemma set_votes_votes sc v : set_votes (set_votes sc v) (vote_count (sc_status sc)) = sc.
Proof. by destruct sc as [? []]. Qed.

Lemma set_activation_votes sc v a :
  activation_height (sc_status sc) = None ->
  set_votes (set_activation (set_activation (set_votes sc v) a) None) (vote_count (sc_status sc)) = sc.
Proof. destruct sc as [? []]. cbn. by intros ->. Qed.

#[export] Instance ack_sidechain_proposal_laws `{Bitcoin} : DiffLaws AckSidechainProposal Dbs.
Proof.
  refine {| valid d _ s := ack_valid d (active_sidechains s) |}.
  - intros [id eff] h s s' [Ha Hp] Hv Happ. cbn in Happ. unfold ack_sidechain_proposal_apply, db_get in Happ.
    res_inv. cbn in *. match goal with E : _ !! id = Some _ |- _ => pose proof (Hp _ _ E) as (Hid & Hr & Hact) end.
    assert (Hdel : wf (delete id (proposal_id_to_sidechain s))) by by apply map_Forall_delete.
    destruct eff; res_inv; (split; cbn; [try done; by apply active_wf_put_sidechain|]); try done.
    apply map_Forall_insert_2; [|done]. split_and!; cbn; try done; lia.
  - intros [id eff] h s s' [Ha Hp] Hv Happ. cbn in Happ. unfold ack_sidechain_proposal_apply, db_get in Happ.
    res_inv. cbn in *. match goal with E : _ !! id = Some _ |- _ => pose proof (Hp _ _ E) as (Hid & Hr & Hact) end.
    unfold ack_sidechain_proposal_undo, ack_valid, db_get in *. cbn in *.
    destruct eff as [|prev|]; res_inv; cbn in *; rewrite lookup_insert_eq; cbn;
      (unfold checked_sub; rewrite bool_decide_eq_true_2 by lia; cbn; rewrite Z.add_simpl_r).
    + rewrite set_votes_votes, insert_insert_eq, (insert_id _ _ x) by done. by destruct s.
    + rewrite set_activation_votes by done. rewrite insert_delete_eq, (insert_id _ _ x) by done.
      rewrite put_put_sidechain by done. by destruct s.
    + rewrite set_activation_votes by done. rewrite insert_delete_eq, (insert_id _ _ x) by done.
      rewrite delete_put_sidechain by done. by destruct s.
Defined.

(** ** Withdrawal bundles *)

Lemma pending_wf_sublist p p' : p `sublist_of` p' -> pending_wf p' -> pending_wf p.
Proof.
  intros Hs [Hwf Hv]. split; [by eapply om_wf_sublist|]. rewrite Forall_forall in *.
  intros e He. apply Hv. by eapply elem_of_submseteq, sublist_submseteq.
Qed.

#[export] Instance propose_bundle_laws : DiffLaws ProposeBundle ActiveSidechainDbs.
Proof.
  refine {| valid d _ a :=
    exists p, pending_m6ids a !! pb_sidechain_number d = Some p /\ om_contains (pb_m6id d) p = false |}.
  - intros d h a a' Ha (p & Hn & Hc) (q & q' & Hq & [= <-] & ->)%with_pending_Ok.
    eapply active_wf_set_pending; [done..|]. destruct (aw_pending _ Ha _ _ Hq) as [Hwf Hv].
    rewrite Hn in Hq. injection Hq as <-. apply om_contains_false in Hc.
    split; [by apply om_wf_insert|]. rewrite om_insert_fresh by done.
    apply Forall_app. split; [done|]. repeat constructor; cbn; done.
  - intros d h a a' Ha (p & Hn & Hc) (q & q' & Hq & [= <-] & ->)%with_pending_Ok.
    rewrite Hn in Hq. injection Hq as <-. apply om_contains_false in Hc.
    cbn. unfold delete_pending_withdrawal, with_pending_withdrawals, db_get. cbn.
    rewrite lookup_insert_eq. cbn. rewrite om_remove_insert by done. f_equal.
    unfold set_pending. cbn. rewrite insert_insert_eq, insert_id by done. apply set_pending_id.
Defined.

(** The votes of a slot as the M4 handlers record them. *)
Definition action_valid (p : PendingM6ids) (act : AckBundleAction) : Prop :=
  match act with
  | AlarmAction pos => pos = positive_votes_proposals_for_alarm p
  | UpvoteAction m others => others = downvoted_others_for_upvote p m
  end.

Definition action_apply (n : SidechainNumber) (act : AckBundleAction) (p : PendingM6ids) : Res DbError PendingM6ids :=
  match act with
  | AlarmAction _ => Ok (om_map (fun _ => downvote) p)
  | UpvoteAction m others => upvote_apply m others p
  end.

Definition action_undo (n : SidechainNumber) (act : AckBundleAction) : PendingM6ids -> Res UndoError PendingM6ids :=
  match act with
  | AlarmAction pos => alarm_undo pos
  | UpvoteAction m others => upvote_undo n m others
  end.

Lemma ack_bundles_apply_keyed l a : foldM ack_bundle_action_apply l a = keyed_fold id action_apply l a.
Proof.
  unfold keyed_fold. revert a. induction l as [|[n act] l IH]; intros a; [done|].
  cbn [foldM]. replace (ack_bundle_action_apply a (n, act))
    with (with_pending_withdrawals id a n (action_apply n act)) by by destruct act.
  cbn [fst snd]. destruct (with_pending_withdrawals _ _ _ _); cbn; [apply IH|done..].
Qed.

Lemma ack_bundles_undo_keyed l a : foldM ack_bundle_action_undo l a = keyed_fold UE_Db action_undo l a.
Proof.
  unfold keyed_fold. revert a. induction l as [|[n act] l IH]; intros a; [done|].
  cbn [foldM]. replace (ack_bundle_action_undo a (n, act))
    with (with_pending_withdrawals UE_Db a n (action_undo n act)) by by destruct act.
  cbn [fst snd]. destruct (with_pending_withdrawals _ _ _ _); cbn; [apply IH|done..].
Qed.

Lemma downvote_ok i : votes_ok i -> votes_ok (downvote i).
Proof. unfold votes_ok, downvote, map_votes, saturating_sub. cbn. lia. Qed.

Lemma action_apply_wf n act p p' :
  pending_wf p -> action_valid p act -> action_apply n act p = Ok p' -> pending_wf p'.
Proof.
  intros Hwf Hv Ha. destruct act as [pos|m others]; cbn in *.
  - injection Ha as <-. destruct Hwf as [Hwf Hvs]. split.
    + eapply om_wf_keys; [|exact Hwf]. by rewrite om_keys_map.
    + unfold om_map. apply Forall_fmap. eapply Forall_impl; [exact Hvs|]. intros e. apply downvote_ok.
  - subst. destruct (upvote_apply_get _ _ _ Hwf Ha) as (i & Hi & Hlt & Hk & Hg).
    apply pending_wf_intro; [eapply om_wf_keys; [|apply Hwf]; done|].
    intros k j. rewrite Hg. pose proof (pending_wf_get _ _ _ Hwf Hi) as Hvi. unfold votes_ok in *.
    case_decide; [intros [= <-]; cbn; lia|]. intros (j' & Hj & ->)%fmap_Some.
    apply (pending_wf_get _ _ _ Hwf) in Hj. by apply downvote_ok in Hj.
Qed.

Lemma action_undo_apply n act p p' :
  pending_wf p -> action_valid p act -> action_apply n act p = Ok p' -> action_undo n act p' = Ok p.
Proof.
  intros Hwf Hv Ha. destruct act as [pos|m others]; cbn in *; subst.
  - injection Ha as <-. by apply alarm_undo_apply.
  - by apply upvote_undo_apply.
Qed.

Definition per_slot {A} (P : PendingM6ids -> A -> Prop) (d : gmap SidechainNumber A) (a : ActiveSidechainDbs) : Prop :=
  map_Forall (fun n x => exists p, pending_m6ids a !! n = Some p /\ P p x) d.

Lemma per_slot_elem {A} (P : PendingM6ids -> A -> Prop) d a n x p :
  per_slot P d a -> (n, x) ∈ map_to_list d -> pending_m6ids a !! n = Some p -> P p x.
Proof.
  intros Hd Hin%elem_of_map_to_list Hn. destruct (Hd _ _ Hin) as (q & Hq & HP). congruence.
Qed.

#[export] Instance ack_bundles_laws : DiffLaws AckBundles ActiveSidechainDbs.
Proof.
  refine {| valid d _ a := per_slot action_valid d a |}.
  - intros d h a a' Ha Hv Happ. cbn in Happ. rewrite ack_bundles_apply_keyed in Happ.
    eapply active_wf_keyed; [done|apply NoDup_fst_map_to_list|done|].
    intros n x p p' Hin Hn Hp'. eapply action_apply_wf; [by eapply aw_pending|by eapply per_slot_elem|done].
  - intros d h a a' Ha Hv Happ. cbn in *. rewrite ack_bundles_apply_keyed in Happ. rewrite ack_bundles_undo_keyed.
    eapply keyed_fold_undo; [apply NoDup_fst_map_to_list|done|done|].
    intros n x p p' Hin Hn Hp'. eapply action_undo_apply; [by eapply aw_pending|by eapply per_slot_elem|done].
Defined.

(** ** Failures by age *)

#[export] Instance failed_proposals_laws `{Bitcoin}
    : DiffLaws FailedProposals (gmap SidechainProposalId Sidechain).
Proof.
  refine {| valid d _ s := d ⊆ s |}.
  - intros d h s s' Hs Hd [= <-]. rewrite foldl_delete_difference.
    intros id sc [Hid _]%lookup_difference_Some. by apply Hs.
  - intros d h s s' Hs Hd [= <-]. cbn.
    rewrite foldl_delete_difference, foldl_insert_union. f_equal. by apply map_difference_union.
Defined.

#[export] Instance failed_m6ids_laws : DiffLaws FailedM6ids ActiveSidechainDbs.
Proof.
  refine {| valid d _ a := exists P, per_slot (fun p f => f = enumerate_filter P 0 p) d a |}.
  - intros d h a a' Ha [P Hv] Happ.
    eapply (active_wf_keyed id (fun _ => remove_failed_withdrawals)); [done|apply NoDup_fst_map_to_list|exact Happ|].
    intros n f p p' Hin Hn Hp'. pose proof (aw_pending _ Ha _ _ Hn) as Hwf.
    rewrite (per_slot_elem _ _ _ _ _ _ Hv Hin Hn), remove_failed_spec in Hp' by apply Hwf. injection Hp' as <-.
    eapply pending_wf_sublist; [apply sublist_filter|done].
  - intros d h a a' Ha [P Hv] Happ.
    eapply (keyed_fold_undo id UE_Db (fun _ => remove_failed_withdrawals) (fun _ => refill_pending_withdrawals));
      [apply NoDup_fst_map_to_list|done|exact Happ|].
    intros n f p p' Hin Hn Hp'. destruct (aw_pending _ Ha _ _ Hn) as [Hwf _]. cbn in *.
    pose proof (per_slot_elem _ _ _ _ _ _ Hv Hin Hn) as ->. rewrite remove_failed_spec in Hp' by done.
    injection Hp' as <-. by apply refill_remove.
Defined.

(** ** Deposits and withdrawals *)

(** The new CTIPs of a transaction do not exist yet and are distinct. *)
Definition fresh_ctips (l : list (SidechainNumber * Ctip)) (a : ActiveSidechainDbs) : Prop :=
  NoDup (ctip_outpoint <$> l.*2) /\ Forall (fun e => outpoint_fresh (ctip_outpoint e.2) a) l.

Definition append_all (h : history) (l : list (SidechainNumber * Ctip)) : history :=
  foldl (fun h e => append h e.1 e.2) h l.

Lemma append_all_out h l n : n ∉ l.*1 -> append_all h l n = h n.
Proof.
  revert h. induction l as [|[k c] l IH]; intros h; [done|]. cbn. intros [Hk Hl]%not_elem_of_cons.
  unfold append_all in *. cbn. rewrite IH by done. unfold append. by rewrite decide_False.
Qed.

Lemma append_all_in h l n c : NoDup l.*1 -> (n, c) ∈ l -> append_all h l n = h n ++ [c].
Proof.
  revert h. induction l as [|[k c'] l IH]; intros h Hnd; [by intros ?%elem_of_nil|].
  cbn in Hnd. apply NoDup_cons in Hnd as [Hk Hnd]. intros [[= -> ->]|Hin]%elem_of_cons.
  - change (append_all (append h k c') l k = h k ++ [c']). rewrite append_all_out by done.
    unfold append. by rewrite decide_True.
  - change (append_all (append h k c') l n = h n ++ [c]). rewrite (IH _ Hnd Hin).
    unfold append. rewrite decide_False; [done|]. intros ->. apply Hk. by apply (list_elem_of_fmap_2 fst _ (k, c)).
Qed.

Lemma put_new_ctips_repr h l a a' :
  treasury_repr h a -> fresh_ctips l a -> foldM put_new_ctip l a = Ok a' ->
  treasury_repr (append_all h l) a' /\ same_frame a a'.
Proof.
  revert h a. induction l as [|[n c] l IH]; intros h a Hr [Hnd Hfr] Hf; cbn in Hf; res_inv; [by split|].
  cbn in Hnd. apply NoDup_cons in Hnd as [Hc Hnd]. apply Forall_cons in Hfr as [Hc' Hfr]. cbn in Hc'.
  unfold put_new_ctip in *. res_inv. cbn in *.
  match goal with E : put_ctip a n c = Ok ?x |- _ => destruct x as [a1 q]; rename E into Hput end.
  destruct (put_ctip_repr h a a1 n c q Hr Hc' Hput) as (Hr1 & Hfr1 & _).
  eapply IH in Hr1 as [Hr2 Hs2]; [split; [exact Hr2|by etrans]| |done].
  split; [done|]. apply Forall_forall. intros [n' c'] Hin. rewrite Forall_forall in Hfr.
  specialize (Hfr _ Hin). unfold put_ctip in Hput. res_inv. unfold outpoint_fresh in *. cbn in *.
  rewrite lookup_insert_ne; [done|]. intros E. apply Hc. rewrite E.
  apply (list_elem_of_fmap_2 ctip_outpoint _ c'), (list_elem_of_fmap_2 snd _ (n', c')), Hin.
Qed.

Lemma delete_ctips_repr h h' ks a :
  treasury_repr h a -> NoDup ks -> (forall n, n ∈ ks -> exists c, h n = h' n ++ [c]) ->
  (forall n, n ∉ ks -> h n = h' n) ->
  exists a', foldM (fun a n => map_err UE_Db (delete_ctip a n)) ks a = Ok a' /\ treasury_repr h' a' /\ same_frame a a'.
Proof.
  revert h a. induction ks as [|k ks IH]; intros h a Hr Hnd Hin Hout; cbn.
  - exists a. split_and!; [done| |done]. eapply treasury_repr_ext; [|done]. intros n. apply Hout, not_elem_of_nil.
  - apply NoDup_cons in Hnd as [Hk Hnd]. destruct (Hin k) as [c Hc]; [by left|].
    destruct (delete_ctip_repr h a k (h' k) c Hr Hc) as (a1 & -> & Hr1 & Hs1). cbn.
    destruct (IH (remove_last h k) a1 Hr1 Hnd) as (a2 & -> & Hr2 & Hs2).
    + intros n Hn. unfold remove_last. rewrite decide_False by congruence. apply Hin. by right.
    + intros n Hn. unfold remove_last. case_decide; subst.
      * rewrite Hc. apply removelast_last.
      * apply Hout. rewrite not_elem_of_cons. done.
    + exists a2. split_and!; [done..|by etrans].
Qed.

Lemma active_wf_treasury a a' h : active_wf a -> same_frame a a' -> treasury_repr h a' -> active_wf a'.
Proof.
  intros [Hd Hp _] [Ep Es] Hr. split; [|intros n p; rewrite <- Ep; apply Hp|by exists h].
  intros n. by rewrite <- Ep, <- Es.
Qed.

#[export] Instance m5_laws : DiffLaws M5 ActiveSidechainDbs.
Proof.
  refine {| valid d _ a := fresh_ctips (map_to_list (new_ctips d)) a |}.
  - intros d h a a' Ha Hv Happ. destruct (aw_treasury _ Ha) as [hi Hr].
    destruct (put_new_ctips_repr _ _ _ _ Hr Hv Happ). by eapply active_wf_treasury.
  - intros d h a a' Ha Hv Happ. destruct (aw_treasury _ Ha) as [hi Hr].
    destruct (put_new_ctips_repr _ _ _ _ Hr Hv Happ) as [Hr1 Hs1].
    pose proof (NoDup_fst_map_to_list (new_ctips d)) as Hnd.
    destruct (delete_ctips_repr _ hi (map_to_list (new_ctips d)).*1 a' Hr1 Hnd) as (a2 & E2 & Hr2 & Hs2).
    + intros n ([k c] & -> & Hin)%list_elem_of_fmap. exists c. by apply append_all_in.
    + intros n Hn. by apply append_all_out.
    + cbn. rewrite E2. f_equal. apply (treasury_repr_inj hi); [done..|]. symmetry. by etrans.
Defined.

#[export] Instance m6_laws : DiffLaws M6 ActiveSidechainDbs.
Proof.
  refine {| valid d _ a := outpoint_fresh (ctip_outpoint (m6_new_ctip d)) a /\
    exists p, pending_m6ids a !! m6_sidechain_number d = Some p /\
      om_get_full (removed_pending_withdrawal d) p
      = Some (removed_pending_withdrawal_index d, removed_pending_withdrawal_info d) |}.
  - intros d h a a' Ha [Hf (p & Hp & Hg)] Happ. cbn in Happ. unfold put_new_ctip in Happ. res_inv.
    match goal with E : put_ctip _ _ _ = Ok ?x |- _ => destruct x as [a1 q]; rename E into Hput end. cbn in *.
    destruct (aw_treasury _ Ha) as [hi Hr]. destruct (put_ctip_repr _ _ _ _ _ _ Hr Hf Hput) as (Hr1 & Hs1 & _).
    match goal with E : delete_pending_withdrawal _ _ _ = Ok _ |- _ =>
      apply with_pending_Ok in E as (p1 & ? & Hp1 & [= <-] & ->) end.
    assert (Ha1 : active_wf a1) by by eapply active_wf_treasury.
    eapply active_wf_set_pending; [done..|].
    eapply pending_wf_sublist; [apply om_remove_sublist|by eapply aw_pending].
  - intros d h a a' Ha [Hf (p & Hp & Hg)] Happ. cbn in Happ. unfold put_new_ctip in Happ. res_inv.
    match goal with E : put_ctip _ _ _ = Ok ?x |- _ => destruct x as [a1 q]; rename E into Hput end. cbn in *.
    destruct (aw_treasury _ Ha) as [hi Hr]. destruct (put_ctip_repr _ _ _ _ _ _ Hr Hf Hput) as (Hr1 & Hs1 & _).
    match goal with E : delete_pending_withdrawal _ _ _ = Ok _ |- _ =>
      apply with_pending_Ok in E as (p1 & ? & Hp1 & [= <-] & ->) end.
    rewrite <- (proj1 Hs1), Hp in Hp1. injection Hp1 as <-. set (n := m6_sidechain_number d) in *.
    set (a2 := set_pending _ _).
    destruct (delete_ctip_repr (append hi n (m6_new_ctip d)) a2 n (hi n) (m6_new_ctip d)) as (a3 & -> & Hr3 & Hs3).
    + by apply treasury_repr_set_pending.
    + unfold append. by rewrite decide_True.
    + cbn. unfold with_pending_withdrawals, db_get. rewrite <- (proj1 Hs3). cbn. rewrite lookup_insert_eq. cbn.
      destruct (aw_pending _ Ha _ _ Hp) as [Hwf _]. rewrite om_shift_insert_remove by done. cbn. f_equal.
      apply (treasury_repr_inj hi); [|done|].
      * apply treasury_repr_set_pending. eapply treasury_repr_ext; [|exact Hr3]. intros. apply remove_last_append.
      * destruct Hs1 as [Hs1 Hs1'], Hs3 as [Hs3 Hs3']. split; cbn.
        -- rewrite <- Hs1, insert_insert_eq. by apply insert_id.
        -- rewrite <- Hs3'. cbn. done.
Defined.

#[export] Instance tx_laws : DiffLaws TxDiff ActiveSidechainDbs.
Proof.
  refine {| valid d h a := match d with D_M5 d => valid d h a | D_M6 d => valid d h a end |}.
  - intros [d|d] h a a' Ha Hv Happ; [by apply (apply_wf d h a)|by apply (apply_wf d h a)].
  - intros [d|d] h a a' Ha Hv Happ; [by apply (undo_apply d h a)|by apply (undo_apply d h a)].
Defined.

(** ** Blocks *)

Section Block.
Context `{Bitcoin}.

Lemma on_active_Ok {E} (f : ActiveSidechainDbs -> Res E ActiveSidechainDbs) s s' :
  on_active f s = Ok s' <-> exists a, f (active_sidechains s) = Ok a /\ s' = set_active s a.
Proof. unfold on_active. destruct (f _); cbn; naive_solver. Qed.

Lemma on_proposals_Ok {E} (f : gmap SidechainProposalId Sidechain -> Res E (gmap SidechainProposalId Sidechain)) s s' :
  on_proposals f s = Ok s' <-> exists p, f (proposal_id_to_sidechain s) = Ok p /\ s' = set_proposals s p.
Proof. unfold on_proposals. destruct (f _); cbn; naive_solver. Qed.

Lemma on_active_wf {D} `{DiffLaws D ActiveSidechainDbs} (d : D) h s s' :
  wf (active_sidechains s) -> valid d h (active_sidechains s) -> on_active (apply d h) s = Ok s' ->
  wf (active_sidechains s') /\ proposal_id_to_sidechain s' = proposal_id_to_sidechain s.
Proof. intros Ha Hv (a & E & ->)%on_active_Ok. split; [by eapply apply_wf|done]. Qed.

Lemma on_active_undo {D} `{DiffLaws D ActiveSidechainDbs} (d : D) h s s' :
  wf (active_sidechains s) -> valid d h (active_sidechains s) -> on_active (apply d h) s = Ok s' ->
  on_active (undo d) s' = Ok s.
Proof.
  intros Ha Hv (a & E & ->)%on_active_Ok. apply on_active_Ok. exists (active_sidechains s).
  split; [by eapply undo_apply|]. by destruct s.
Qed.

Lemma on_proposals_wf {D} `{DiffLaws D (gmap SidechainProposalId Sidechain)} (d : D) h s s' :
  wf (proposal_id_to_sidechain s) -> valid d h (proposal_id_to_sidechain s) -> on_proposals (apply d h) s = Ok s' ->
  wf (proposal_id_to_sidechain s') /\ active_sidechains s' = active_sidechains s.
Proof. intros Ha Hv (a & E & ->)%on_proposals_Ok. split; [by eapply apply_wf|done]. Qed.

Lemma on_proposals_undo {D} `{DiffLaws D (gmap SidechainProposalId Sidechain)} (d : D) h s s' :
  wf (proposal_id_to_sidechain s) -> valid d h (proposal_id_to_sidechain s) -> on_proposals (apply d h) s = Ok s' ->
  on_proposals (undo d) s' = Ok s.
Proof.
  intros Ha Hv (a & E & ->)%on_proposals_Ok. apply on_proposals_Ok. exists (proposal_id_to_sidechain s).
  split; [by eapply undo_apply|]. by destruct s.
Qed.

#[export] Instance coinbase_msg_laws : DiffLaws CoinbaseMsg Dbs.
Proof.
  refine {| valid d h s :=
    match d with
    | D_AckBundles d => valid d h (active_sidechains s)
    | D_AckSidechainProposal d => valid d h s
    | D_NewSidechainProposal d => valid d h (proposal_id_to_sidechain s)
    | D_ProposeBundle d => valid d h (active_sidechains s)
    end |}.
  - intros [d|d|d|d] h s s' [Ha Hp] Hv Happ.
    + destruct (on_active_wf d h s s' Ha Hv Happ) as [? Ep]. split; [done|by rewrite Ep].
    + by apply (apply_wf d h s).
    + destruct (on_proposals_wf d h s s' Hp Hv Happ) as [? Ea]. split; [by rewrite Ea|done].
    + destruct (on_active_wf d h s s' Ha Hv Happ) as [? Ep]. split; [done|by rewrite Ep].
  - intros [d|d|d|d] h s s' [Ha Hp] Hv Happ.
    + by apply (on_active_undo d h s s').
    + by apply (undo_apply d h s).
    + by apply (on_proposals_undo d h s s').
    + by apply (on_active_undo d h s s').
Defined.

Lemma on_active_foldM {E D} (f : D -> ActiveSidechainDbs -> Res E ActiveSidechainDbs) ds s :
  foldM (fun s d => on_active (f d) s) ds s = on_active (fun a => foldM (fun a d => f d a) ds a) s.
Proof.
  revert s. induction ds as [|d ds IH]; intros s; [by destruct s|]. cbn [foldM].
  unfold on_active in *. destruct (f d (active_sidechains s)) as [a| |]; cbn; [|done..]. rewrite IH. cbn.
  by destruct (foldM _ ds a).
Qed.

Lemma coinbase_apply_eq (d : CoinbaseDiff) h s :
  apply d h s =
  (s ← foldM (fun s msg => apply msg h s) (cd_msgs d) s;
   s ← on_proposals (apply (cd_failed_proposals d) h) s;
   on_active (apply (cd_failed_m6ids d) h) s).
Proof. done. Qed.

Lemma coinbase_undo_eq (d : CoinbaseDiff) s :
  undo d s =
  (s ← on_active (undo (cd_failed_m6ids d)) s;
   s ← on_proposals (undo (cd_failed_proposals d)) s;
   foldM (fun s msg => undo msg s) (rev (cd_msgs d)) s).
Proof. done. Qed.

Lemma block_apply_eq (d : BlockDiff) h s :
  apply d h s = (s ← apply (bd_coinbase d) h s; on_active (fun a => foldM (fun a tx => apply tx h a) (bd_txs d) a) s).
Proof.
  change (apply d h s) with
    (s ← apply (bd_coinbase d) h s; foldM (fun s tx => on_active (apply tx h) s) (bd_txs d) s).
  destruct (apply (bd_coinbase d) h s) as [s1| |]; [|done..]. apply (on_active_foldM (fun tx => apply tx h)).
Qed.

Lemma block_undo_eq (d : BlockDiff) s :
  undo d s = (s ← on_active (fun a => foldM (fun a tx => undo tx a) (rev (bd_txs d)) a) s; undo (bd_coinbase d) s).
Proof. rewrite <- (on_active_foldM (fun tx => undo tx)). done. Qed.

(** The messages were handled in order; failures by age were computed on the
    resulting tables. *)
#[export] Instance coinbase_laws : DiffLaws CoinbaseDiff Dbs.
Proof.
  refine {| valid d h s := exists s1, run h (cd_msgs d) s s1
    /\ valid (cd_failed_proposals d) h (proposal_id_to_sidechain s1)
    /\ valid (cd_failed_m6ids d) h (active_sidechains s1) |}.
  - intros d h s s' Hs (s1 & Hr & Hv1 & Hv2) Happ. rewrite coinbase_apply_eq, (run_apply _ _ _ _ Hr) in Happ.
    destruct (run_wf _ _ _ _ Hs Hr) as [Ha1 Hp1]. cbn [mbind Res_bind] in Happ. apply bind_Ok in Happ as (s2 & E2 & E3).
    destruct (on_proposals_wf _ h s1 s2 Hp1 Hv1 E2) as [Hp2 Ea]. rewrite <- Ea in Ha1, Hv2.
    destruct (on_active_wf _ h s2 s' Ha1 Hv2 E3) as [? Ep]. split; [done|by rewrite Ep].
  - intros d h s s' Hs (s1 & Hr & Hv1 & Hv2) Happ. rewrite coinbase_apply_eq, (run_apply _ _ _ _ Hr) in Happ.
    destruct (run_wf _ _ _ _ Hs Hr) as [Ha1 Hp1]. cbn [mbind Res_bind] in Happ. apply bind_Ok in Happ as (s2 & E2 & E3).
    destruct (on_proposals_wf _ h s1 s2 Hp1 Hv1 E2) as [Hp2 Ea]. rewrite <- Ea in Ha1, Hv2.
    rewrite coinbase_undo_eq, (on_active_undo _ h s2 s' Ha1 Hv2 E3). cbn [mbind Res_bind].
    rewrite (on_proposals_undo _ h s1 s2 Hp1 Hv1 E2). cbn [mbind Res_bind]. by eapply run_undo.
Defined.

#[export] Instance block_laws : DiffLaws BlockDiff Dbs.
Proof.
  refine {| valid d h s := valid (bd_coinbase d) h s /\
    exists s1 a2, apply (bd_coinbase d) h s = Ok s1 /\ run h (bd_txs d) (active_sidechains s1) a2 |}.
  - intros d h s s' Hs (Hv & s1 & a2 & E1 & Hr) Happ. rewrite block_apply_eq, E1 in Happ.
    assert (Hs1 : wf s1) by by eapply (apply_wf (bd_coinbase d)).
    apply on_active_Ok in Happ as (a & E & ->).
    rewrite (run_apply _ _ _ _ Hr) in E. injection E as <-. split; [|apply Hs1].
    eapply run_wf; [apply Hs1|done].
  - intros d h s s' Hs (Hv & s1 & a2 & E1 & Hr) Happ. rewrite block_apply_eq, E1 in Happ.
    assert (Hs1 : wf s1) by by eapply (apply_wf (bd_coinbase d)).
    apply on_active_Ok in Happ as (a & E & ->).
    rewrite (run_apply _ _ _ _ Hr) in E. injection E as <-.
    rewrite block_undo_eq. unfold on_active. cbn [active_sidechains set_active].
    rewrite (run_undo h (bd_txs d) (active_sidechains s1)) by (done || apply Hs1). cbn [mbind Res_bind].
    replace (set_active _ _) with s1 by by destruct s1. by eapply undo_apply.
Defined.

End Block.
