(* ===== verification/Handlers.v ===== *)
(** * Message and transaction handlers ([lib/validator/task/mod.rs])

    The methods of [BlockHandler] that read the tables and compute the diff of
    one coinbase message or one transaction, with the error types of
    [lib/validator/task/error.rs]. They do not change the tables; the diffs
    are applied by the loops of [ConnectBlock.v]. *)

From Stdlib Require Import Strings.Byte.
From stdpp Require Import base numbers list gmap sorting.
From S2P Require Import Prelude OrderMap Bitcoin Types Messages M6 Dbs Diff.
Open Scope Z_scope.

(** ** Errors *)

Inductive HandleM3ProposeBundle :=
| BundleAlreadyPending (n : SidechainNumber) (m6id : M6id)
| M3_Db (e : DbError)
| InactiveSidechain (n : SidechainNumber).

Inductive HandleM4Votes :=
| M4V_Db (e : DbError)
| InvalidVotes (expected len : nat)
| UpvoteFailed (n : SidechainNumber) (index : Z).

Inductive HandleM4AckBundles :=
| M4_Votes (e : HandleM4Votes)
| M4_Db (e : DbError)
| TwoBytesWithinByteRange.

Inductive InvalidM6 :=
| InsufficientVoteCount (m6id : M6id) (threshold vote_count : Z)
| MissingPendingWithdrawal (m6id : M6id) (n : SidechainNumber)
| TreasuryOutputCount (n_treasury_outputs : nat)
| TreasuryOutputIndex (treasury_vout : Z)
| UnexpectedInput (unexpected : OutPoint)
| MissingConsolidatedInput (n : SidechainNumber).

Inductive HandleM5M6 :=
| Ambiguous
| M5M6_Db (e : DbError)
| M5M6_InvalidM6 (e : InvalidM6)
| M5M6_M6id (e : M6idError)
| MissingDepositAddress (n : SidechainNumber)
| MultipleOpDrivechainOutputs (n : SidechainNumber)
| TreasurySpentWithoutNewCtip (n : SidechainNumber)
| ZeroDiff.

Inductive HandleM8 := BmmRequestExpired | NotAcceptedByMiners.

Inductive HandleTransaction := HT_M5M6 (e : HandleM5M6) | HT_M8 (e : HandleM8).

(** The [#[fatal(..)]] attributes: a fatal error is a failure of the enforcer,
    any other one makes the block or the transaction invalid. *)
Definition m3_fatal (e : HandleM3ProposeBundle) : bool := match e with M3_Db _ => true | _ => false end.
Definition m4_votes_fatal (e : HandleM4Votes) : bool := match e with M4V_Db _ => true | _ => false end.
Definition m4_fatal (e : HandleM4AckBundles) : bool :=
  match e with M4_Votes e => m4_votes_fatal e | M4_Db _ => true | TwoBytesWithinByteRange => false end.
Definition m5m6_fatal (e : HandleM5M6) : bool := match e with M5M6_Db _ => true | _ => false end.
Definition transaction_fatal (e : HandleTransaction) : bool :=
  match e with HT_M5M6 e => m5m6_fatal e | HT_M8 _ => false end.

(** ** State *)

(** The tables are passed separately. *)
Record BlockHandler := mkBlockHandler {
  bh_network : Network;
  bh_params : NetworkParams;
  bh_thresholds : Thresholds;
  require_payable_bundles : bool }.

Definition block_handler_new (network : Network) (params : NetworkParams) : BlockHandler :=
  mkBlockHandler network params (np_thresholds params) true.

Definition LEADING_BY_50_MARGIN : Z := 50.

Inductive DepositsOrSuccessfulWithdrawal :=
| M5Deposits (deposits : gmap SidechainNumber Deposit) (diff : M5)
| M6Withdrawal (sidechain_id : SidechainNumber) (m6id : M6id) (sequence_number : Z) (diff : M6).

Inductive CoinbaseMessageEvent :=
| NewSidechainProposalEvent (sidechain : Sidechain)
| CoinbaseWithdrawalBundle (e : WithdrawalBundleEvent).

Inductive TransactionEvent :=
| Deposits (deposits : gmap SidechainNumber Deposit)
| TxWithdrawalBundle (e : WithdrawalBundleEvent).

(** [UnconsolidatedCtips]: treasury outputs created in this block that are not
    yet the CTIP of their slot; a [LinkedHashSet] is a list without
    repetitions. *)
Record UnconsolidatedCtips := mkUnconsolidated {
  by_outpoint : gmap OutPoint (SidechainNumber * Amount);
  by_sidechain : gmap SidechainNumber (list Ctip) }.

Definition unconsolidated_default : UnconsolidatedCtips := mkUnconsolidated ∅ ∅.

Definition lhs_insert (c : Ctip) (l : list Ctip) : list Ctip := filter (fun c' => c' <> c) l ++ [c].
Definition lhs_remove (c : Ctip) (l : list Ctip) : list Ctip := filter (fun c' => c' <> c) l.

Definition uc_insert (n : SidechainNumber) (c : Ctip) (u : UnconsolidatedCtips) : UnconsolidatedCtips :=
  mkUnconsolidated (<[ctip_outpoint c := (n, ctip_value c)]> (by_outpoint u))
    (<[n := lhs_insert c (default [] (by_sidechain u !! n))]> (by_sidechain u)).

Definition uc_is_empty (u : UnconsolidatedCtips) : bool := bool_decide (by_outpoint u = ∅).

Definition uc_remove (o : OutPoint) (u : UnconsolidatedCtips) : UnconsolidatedCtips * bool :=
  match by_outpoint u !! o with
  | None => (u, false)
  | Some (n, v) =>
      let ctips := match by_sidechain u !! n with
                   | Some l => let l := lhs_remove (mkCtip o v) l in
                               if decide (l = []) then delete n (by_sidechain u) else <[n := l]> (by_sidechain u)
                   | None => by_sidechain u
                   end in
      (mkUnconsolidated (delete o (by_outpoint u)) ctips, true)
  end.

Definition uc_get_by_sidechain (u : UnconsolidatedCtips) (n : SidechainNumber) : option (list Ctip) :=
  by_sidechain u !! n.

Definition uc_remove_sidechain (n : SidechainNumber) (u : UnconsolidatedCtips) : UnconsolidatedCtips * list Ctip :=
  let res := default [] (by_sidechain u !! n) in
  (mkUnconsolidated (foldl (fun m c => delete (ctip_outpoint c) m) (by_outpoint u) res)
     (delete n (by_sidechain u)), res).

Record TxCtipsInfo := mkTxCtipsInfo {
  consolidated_ctip_input : option Ctip;
  unconsolidated_ctip_inputs : gset Ctip;
  ctip_output : Ctip }.

(** [usize as u32] *)
Definition as_u32 (n : nat) : Z := Z.of_nat n mod 2 ^ 32.

(** [Amount]'s [+] and [sum], which panic on overflow. *)
Definition amount_add {E} (a b : Amount) : Res E Amount := unwrap (checked_add_u64 a b).
Definition amount_sum {E} (l : list Amount) : Res E Amount := unwrap (checked_sum l).

(** ** Coinbase messages *)

Section Handlers.
Context `{Bitcoin, Nom}.
Implicit Types (bh : BlockHandler) (s : Dbs).

Definition handle_m1_propose_sidechain s (proposal : SidechainProposal) (h : Z) : option NewSidechainProposal :=
  let proposal_id := compute_id proposal in
  if contains_key (proposal_id_to_sidechain s) proposal_id then None
  else Some (mkNewSidechainProposal proposal_id (mkSidechain proposal (mkStatus 0 h None))).

Definition handle_m2_ack_sidechain bh s (h : Z) (n : SidechainNumber) (description_hash : Hash)
    : Res DbError (option AckSidechainProposal) :=
  let t := bh_thresholds bh in
  let proposal_id := mkSidechainProposalId n description_hash in
  match proposal_id_to_sidechain s !! proposal_id with
  | None => Ok None
  | Some sc =>
      if decide (h = proposal_height (sc_status sc)) then Ok None else
      votes ← u16_incr (vote_count (sc_status sc));
      let age := saturating_sub h (proposal_height (sc_status sc)) in
      let existing := sidechain (active_sidechains s) !! n in
      let slot_is_used := bool_decide (is_Some existing) in
      let activated :=
        (slot_is_used && bool_decide (withdrawal_bundle_inclusion_threshold t < votes)
         && bool_decide (age <= withdrawal_bundle_max_age t))
        || (negb slot_is_used && activates_unused_slot t votes age) in
      let effect := if activated
                    then match existing with Some replaced => ReplaceActive replaced | None => SlotActivation end
                    else NoActivation in
      Ok (Some (mkAckSidechainProposal proposal_id effect))
  end.

(** The closure of [handle_failed_sidechain_proposals]. *)
Definition proposal_failed bh s (h : Z) (sc : Sidechain) : bool :=
  let t := bh_thresholds bh in
  let age := saturating_sub h (proposal_height (sc_status sc)) in
  let slot_is_used := contains_key (sidechain (active_sidechains s)) (sp_sidechain_number (sc_proposal sc)) in
  let '(max_age, threshold) :=
    if slot_is_used then (withdrawal_bundle_max_age t, withdrawal_bundle_inclusion_threshold t)
    else (unused_sidechain_slot_proposal_max_age t, unused_sidechain_slot_activation_threshold t) in
  let max_fails := saturating_sub max_age threshold in
  let fails := saturating_sub age (vote_count (sc_status sc)) in
  bool_decide (max_age < age) || (bool_decide (max_fails < age) && bool_decide (max_fails <= fails)).

Definition handle_failed_sidechain_proposals bh s (h : Z) : FailedProposals :=
  filter (fun e => proposal_failed bh s h e.2 = true) (proposal_id_to_sidechain s).

Definition handle_m3_propose_bundle s (n : SidechainNumber) (m6id : M6id) : Res HandleM3ProposeBundle ProposeBundle :=
  if negb (contains_key (sidechain (active_sidechains s)) n) then Err (InactiveSidechain n) else
  pending ← map_err M3_Db (db_get (pending_m6ids (active_sidechains s)) n);
  if om_contains m6id pending then Err (BundleAlreadyPending n m6id)
  else Ok (mkProposeBundle n m6id).

(** The body of the loop over the votes. *)
Definition handle_m4_vote s (diff : AckBundles) (e : SidechainNumber * Z) : Res HandleM4Votes AckBundles :=
  let '(n, vote) := e in
  if decide (vote = ABSTAIN_TWO_BYTES) then Ok diff else
  pending ← map_err M4V_Db (db_get (pending_m6ids (active_sidechains s)) n);
  if decide (vote = ALARM_TWO_BYTES) then
    let positive := positive_votes_proposals_for_alarm pending in
    if decide (positive = ∅) then Ok diff else Ok (<[n := AlarmAction positive]> diff)
  else match om_get_index (Z.to_nat vote) pending with
       | Some (m6id, info) =>
           if bool_decide (pm_vote_count info < u16_max)
           then Ok (<[n := UpvoteAction m6id (downvoted_others_for_upvote pending m6id)]> diff)
           else Ok diff
       | None => Err (UpvoteFailed n vote)
       end.

Definition handle_m4_votes s (upvotes : list Z) : Res HandleM4Votes AckBundles :=
  let active := numbers (active_sidechains s) in
  if decide (length upvotes = length active)
  then foldM (handle_m4_vote s) (zip active upvotes) ∅
  else Err (InvalidVotes (length active) (length upvotes)).

(** [sort_unstable_by_key(Reverse(votes))] leaves the order of equal votes
    open; the specification of [handle_m4_leading_by_50] shows that it does not
    matter. *)
Definition by_votes_desc (x y : M6id * Z) : Prop := y.2 <= x.2.
#[global] Instance by_votes_desc_dec : RelDecision by_votes_desc.
Proof. intros x y. unfold by_votes_desc. solve_decision. Defined.

(** The bundle a sorted list of votes makes leader, if any. *)
Definition leader (by_votes : list (M6id * Z)) : option M6id :=
  match by_votes with
  | [] => None
  | (leader_m6id, lead_votes) :: rest =>
      let second_highest := match rest with (_, v) :: _ => v | [] => 0 end in
      if bool_decide (LEADING_BY_50_MARGIN <= saturating_sub lead_votes second_highest)
         && bool_decide (lead_votes < u16_max)
      then Some leader_m6id else None
  end.

Definition leading_by_50_slot s (diff : AckBundles) (n : SidechainNumber) : Res HandleM4Votes AckBundles :=
  pending ← map_err M4V_Db (db_get (pending_m6ids (active_sidechains s)) n);
  let by_votes := merge_sort by_votes_desc ((fun e => (e.1, pm_vote_count e.2)) <$> pending) in
  match leader by_votes with
  | Some m6id => Ok (<[n := UpvoteAction m6id (downvoted_others_for_upvote pending m6id)]> diff)
  | None => Ok diff
  end.

Definition handle_m4_leading_by_50 s : Res HandleM4Votes AckBundles :=
  foldM (leading_by_50_slot s) (numbers (active_sidechains s)) ∅.

(** The body of the loop over the previous block's votes. *)
Definition repeat_action s (rebuilt : AckBundles) (e : SidechainNumber * AckBundleAction)
    : Res HandleM4AckBundles AckBundles :=
  let '(n, action) := e in
  pending ← map_err M4_Db (db_get (pending_m6ids (active_sidechains s)) n);
  match action with
  | UpvoteAction target _ =>
      match om_get target pending with
      | None => Ok rebuilt
      | Some info =>
          if decide (pm_vote_count info = u16_max) then Ok rebuilt
          else Ok (<[n := UpvoteAction target (downvoted_others_for_upvote pending target)]> rebuilt)
      end
  | AlarmAction _ =>
      let positive := positive_votes_proposals_for_alarm pending in
      if decide (positive = ∅) then Ok rebuilt else Ok (<[n := AlarmAction positive]> rebuilt)
  end.

(** [find_map] for the block's [AckBundles] message. *)
Fixpoint find_ack_bundles (msgs : list CoinbaseMsg) : option AckBundles :=
  match msgs with
  | [] => None
  | D_AckBundles ab :: _ => Some ab
  | _ :: msgs => find_ack_bundles msgs
  end.

Definition handle_m4_repeat_previous s (prev_block_hash : BlockHash) : Res HandleM4AckBundles AckBundles :=
  if decide (prev_block_hash = all_zeros) then Ok ∅ else
  prev_diff ← map_err M4_Db (db_get (diff (block_hashes s)) prev_block_hash);
  match find_ack_bundles (cd_msgs (bd_coinbase prev_diff)) with
  | None => Ok ∅
  | Some prev => foldM (repeat_action s) (map_to_list prev) ∅
  end.

Definition widen_vote (vote : byte) : Z :=
  if decide (vote = ABSTAIN_ONE_BYTE) then ABSTAIN_TWO_BYTES
  else if decide (vote = ALARM_ONE_BYTE) then ALARM_TWO_BYTES
  else u8_val vote.

Definition handle_m4_ack_bundles s (prev_block_hash : BlockHash) (m4 : M4AckBundles) : Res HandleM4AckBundles AckBundles :=
  match m4 with
  | LeadingBy50 => map_err M4_Votes (handle_m4_leading_by_50 s)
  | RepeatPrevious => handle_m4_repeat_previous s prev_block_hash
  | OneByte upvotes => map_err M4_Votes (handle_m4_votes s (widen_vote <$> upvotes))
  | TwoBytes upvotes =>
      if forallb (fun v => bool_decide (v <= 253)) upvotes then Err TwoBytesWithinByteRange
      else map_err M4_Votes (handle_m4_votes s upvotes)
  end.

(** The filter of [handle_failed_m6ids]. *)
Definition bundle_failed bh (block_height : Z) (info : PendingM6idInfo) : bool :=
  bool_decide (withdrawal_bundle_max_age (bh_thresholds bh) < saturating_sub block_height (pm_proposal_height info)).

Definition failed_m6ids_slot bh s (block_height : Z) (failed_m6ids : FailedM6ids) (n : SidechainNumber)
    : Res DbError FailedM6ids :=
  pending ← db_get (pending_m6ids (active_sidechains s)) n;
  let failed := enumerate_filter (bundle_failed bh block_height) 0 pending in
  if decide (failed = []) then Ok failed_m6ids else Ok (<[n := failed]> failed_m6ids).

Definition handle_failed_m6ids bh s (block_height : Z) : Res DbError FailedM6ids :=
  foldM (failed_m6ids_slot bh s block_height) (numbers (active_sidechains s)) ∅.

(** ** Deposits and withdrawals *)

Definition handle_m6 bh s (tx : Transaction) (old_treasury_value : Amount)
    : Res HandleM5M6 (M6id * SidechainNumber * nat * PendingM6idInfo) :=
  '(m6id, n) ← map_err M5M6_M6id (compute_m6id (op_drivechain (bh_params bh)) tx old_treasury_value);
  let missing := M5M6_InvalidM6 (MissingPendingWithdrawal m6id n) in
  pending ← ok_or missing (pending_m6ids (active_sidechains s) !! n);
  '(index, info) ← ok_or missing (om_get_full m6id pending);
  let threshold := withdrawal_bundle_inclusion_threshold (bh_thresholds bh) in
  if negb (require_payable_bundles bh) || bool_decide (threshold < pm_vote_count info)
  then Ok (m6id, n, index, info)
  else Err (M5M6_InvalidM6 (InsufficientVoteCount m6id threshold (pm_vote_count info))).

(** The two loops of [fill_ctips]. *)
Definition fill_ctip_output bh s (txid : Txid) (res : gmap SidechainNumber TxCtipsInfo) (e : nat * TxOut)
    : Res HandleM5M6 (gmap SidechainNumber TxCtipsInfo) :=
  let '(vout, out) := e in
  match op_drivechain_parse (op_drivechain (bh_params bh)) (script_pubkey out) with
  | None => Ok res
  | Some (_, n) =>
      if negb (contains_key (sidechain (active_sidechains s)) n) then Ok res else
      match res !! n with
      | Some _ => Err (MultipleOpDrivechainOutputs n)
      | None => Ok (<[n := mkTxCtipsInfo None ∅ (mkCtip (mkOutPoint txid (as_u32 vout)) (value out))]> res)
      end
  end.

Definition fill_ctip_input s (u : UnconsolidatedCtips) (res : gmap SidechainNumber TxCtipsInfo) (txin : TxIn)
    : Res HandleM5M6 (gmap SidechainNumber TxCtipsInfo) :=
  let o := previous_output txin in
  match ctip_outpoint_to_value_seq (active_sidechains s) !! o with
  | Some (n, amount, _) =>
      info ← ok_or (TreasurySpentWithoutNewCtip n) (res !! n);
      _ ← assert_or_panic (bool_decide (consolidated_ctip_input info = None));
      Ok (<[n := mkTxCtipsInfo (Some (mkCtip o amount)) (unconsolidated_ctip_inputs info) (ctip_output info)]> res)
  | None =>
      match by_outpoint u !! o with
      | Some (n, amount) =>
          info ← ok_or (TreasurySpentWithoutNewCtip n) (res !! n);
          Ok (<[n := mkTxCtipsInfo (consolidated_ctip_input info)
                       ({[mkCtip o amount]} ∪ unconsolidated_ctip_inputs info) (ctip_output info)]> res)
      | None => Ok res
      end
  end.

Definition fill_ctips bh s (u : UnconsolidatedCtips) (tx : Transaction)
    : Res HandleM5M6 (gmap SidechainNumber TxCtipsInfo) :=
  res ← foldM (fill_ctip_output bh s (compute_txid tx)) (enumerate (output tx)) ∅;
  foldM (fill_ctip_input s u) (input tx) res.

(** The M6 arm of the loop in [handle_m5_m6]. *)
Definition handle_withdrawal bh s (tx : Transaction) (n_ctip_outputs : nat)
    (res : option DepositsOrSuccessfulWithdrawal) (n : SidechainNumber) (info : TxCtipsInfo) (treasury_value_in : Amount)
    : Res HandleM5M6 DepositsOrSuccessfulWithdrawal :=
  consolidated ← ok_or (M5M6_InvalidM6 (MissingConsolidatedInput n)) (consolidated_ctip_input info);
  let ctip_inputs : gset OutPoint :=
    {[ctip_outpoint consolidated]} ∪ set_map ctip_outpoint (unconsolidated_ctip_inputs info) in
  _ ← foldM (fun (_ : unit) txin =>
               if decide (previous_output txin ∈ ctip_inputs) then Ok tt
               else Err (M5M6_InvalidM6 (UnexpectedInput (previous_output txin)))) (input tx) tt;
  let vout := op_vout (ctip_outpoint (ctip_output info)) in
  if negb (bool_decide (vout = 0)) then Err (M5M6_InvalidM6 (TreasuryOutputIndex vout)) else
  '(m6id, n', removed_index, m6info) ← handle_m6 bh s tx treasury_value_in;
  _ ← assert_or_panic (bool_decide (n = n'));
  let sequence_number := default 0 (treasury_utxo_count (active_sidechains s) !! n) in
  let diff := mkM6Diff n (ctip_output info) m6id removed_index m6info in
  match res with
  | None => Ok (M6Withdrawal n m6id sequence_number diff)
  | Some (M5Deposits _ _) => Err Ambiguous
  | Some (M6Withdrawal _ _ _ _) => Err (M5M6_InvalidM6 (TreasuryOutputCount n_ctip_outputs))
  end.

(** The M5 arm: a deposit, or a consolidation of deposits of equal value. *)
Definition handle_deposit s (tx : Transaction) (res : option DepositsOrSuccessfulWithdrawal)
    (n : SidechainNumber) (info : TxCtipsInfo) (treasury_value_in : Amount)
    : Res HandleM5M6 DepositsOrSuccessfulWithdrawal :=
  let c := ctip_output info in
  deposit ← (if bool_decide (treasury_value_in < ctip_value c) then
               address_output ← ok_or (MissingDepositAddress n) (output tx !! S (Z.to_nat (op_vout (ctip_outpoint c))));
               address ← ok_or (MissingDepositAddress n) (try_parse_op_return_address (script_pubkey address_output));
               let sequence_number := default 0 (treasury_utxo_count (active_sidechains s) !! n) in
               Ok (Some (mkDeposit sequence_number (ctip_outpoint c) address (ctip_value c - treasury_value_in)))
             else Ok None);
  let stays_unconsolidated := bool_decide (consolidated_ctip_input info = None)
                              && contains_key (ctip (active_sidechains s)) n in
  match res with
  | None =>
      Ok (M5Deposits (match deposit with Some d => {[n := d]} | None => ∅ end)
            (mkM5Diff (if stays_unconsolidated then ∅ else {[n := c]})))
  | Some (M5Deposits deposits diff) =>
      Ok (M5Deposits (match deposit with Some d => <[n := d]> deposits | None => deposits end)
            (if stays_unconsolidated then diff else mkM5Diff (<[n := c]> (new_ctips diff))))
  | Some (M6Withdrawal _ _ _ _) => Err Ambiguous
  end.

(** The body of the loop in [handle_m5_m6]: the classification of the slot,
    then the bookkeeping of unconsolidated outputs. *)
Definition classify_slot bh s (tx : Transaction) (n_ctip_outputs : nat) (res : option DepositsOrSuccessfulWithdrawal)
    (n : SidechainNumber) (info : TxCtipsInfo) : Res HandleM5M6 DepositsOrSuccessfulWithdrawal :=
  let consolidated_value := match consolidated_ctip_input info with Some c => ctip_value c | None => 0 end in
  unconsolidated_value ← amount_sum (ctip_value <$> elements (unconsolidated_ctip_inputs info));
  treasury_value_in ← amount_add consolidated_value unconsolidated_value;
  match ctip_value (ctip_output info) ?= treasury_value_in with
  | Eq => if decide (unconsolidated_ctip_inputs info = ∅) then Err ZeroDiff
          else handle_deposit s tx res n info treasury_value_in
  | Lt => handle_withdrawal bh s tx n_ctip_outputs res n info treasury_value_in
  | Gt => handle_deposit s tx res n info treasury_value_in
  end.

Definition update_unconsolidated s (u : UnconsolidatedCtips) (n : SidechainNumber) (info : TxCtipsInfo)
    : UnconsolidatedCtips :=
  let u := foldl (fun u c => (uc_remove (ctip_outpoint c) u).1) u (elements (unconsolidated_ctip_inputs info)) in
  if bool_decide (consolidated_ctip_input info = None) && contains_key (ctip (active_sidechains s)) n
  then uc_insert n (ctip_output info) u else u.

Definition handle_m5_m6_slot bh s (tx : Transaction) (n_ctip_outputs : nat)
    (st : option DepositsOrSuccessfulWithdrawal * UnconsolidatedCtips) (e : SidechainNumber * TxCtipsInfo)
    : Res HandleM5M6 (option DepositsOrSuccessfulWithdrawal * UnconsolidatedCtips) :=
  res ← classify_slot bh s tx n_ctip_outputs st.1 e.1 e.2;
  Ok (Some res, update_unconsolidated s st.2 e.1 e.2).

(** The hash map of slots is iterated in an arbitrary order;
    [HashOrder] shows that the outcome does not depend on it. *)
Definition handle_m5_m6 bh s (u : UnconsolidatedCtips) (tx : Transaction)
    : Res HandleM5M6 (option DepositsOrSuccessfulWithdrawal * UnconsolidatedCtips) :=
  infos ← fill_ctips bh s u tx;
  foldM (handle_m5_m6_slot bh s tx (size infos)) (map_to_list infos) (None, u).

(** ** BMM requests and transactions *)

Definition handle_m8 (tx : Transaction) (accepted_bmm_requests : option BmmCommitments)
    (prev_mainchain_block_hash : BlockHash) : Res HandleM8 bool :=
  match parse_m8_tx tx with
  | None => Ok false
  | Some r =>
      let not_accepted := match accepted_bmm_requests with
                          | Some accepted => negb (bool_decide (om_get (m8_sidechain_number r) accepted
                                                                = Some (m8_sidechain_block_hash r)))
                          | None => false
                          end in
      if not_accepted then Err NotAcceptedByMiners
      else if decide (m8_prev_mainchain_block_hash r = prev_mainchain_block_hash) then Ok true
      else Err BmmRequestExpired
  end.

Definition handle_transaction bh s (accepted_bmm_requests : option BmmCommitments) (u : UnconsolidatedCtips)
    (prev_mainchain_block_hash : BlockHash) (tx : Transaction)
    : Res HandleTransaction (option (TransactionEvent * TxDiff) * UnconsolidatedCtips) :=
  '(r, u) ← map_err HT_M5M6 (handle_m5_m6 bh s u tx);
  let res := match r with
             | Some (M5Deposits deposits diff) => Some (Deposits deposits, D_M5 diff)
             | Some (M6Withdrawal sidechain_id m6id sequence_number diff) =>
                 Some (TxWithdrawalBundle (mkWithdrawalBundleEvent sidechain_id m6id (Succeeded sequence_number tx)),
                       D_M6 diff)
             | None => None
             end in
  _ ← map_err HT_M8 (handle_m8 tx accepted_bmm_requests prev_mainchain_block_hash);
  Ok (res, u).

End Handlers.
