(* ===== verification/HandlerProofs.v ===== *)
(** * What the handlers compute

    The diffs of the handlers are valid for the tables they were computed on
    (the hypotheses of the undo theorems), and what each handler accepts,
    rejects and produces. *)

From Stdlib Require Import Strings.Byte.
From stdpp Require Import base numbers list gmap sorting.
From S2P Require Import Prelude OrderMap Bitcoin Types Messages M6 Dbs Treasury Diff Reversible Handlers.
Open Scope Z_scope.

Lemma contains_key_true `{Countable K} {V} (m : gmap K V) k : contains_key m k = true <-> is_Some (m !! k).
Proof. unfold contains_key. apply bool_decide_eq_true. Qed.

Lemma contains_key_false `{Countable K} {V} (m : gmap K V) k : contains_key m k = false <-> m !! k = None.
Proof. unfold contains_key. rewrite bool_decide_eq_false. symmetry. apply eq_None_not_Some. Qed.

Lemma elem_of_enumerate {A} (l : list A) i x : (i, x) ∈ enumerate l <-> l !! i = Some x.
Proof.
  unfold enumerate. rewrite list_elem_of_lookup. split.
  - intros [k Hk]. apply lookup_zip_Some in Hk as [Hs Hl]. apply lookup_seq in Hs as [-> _]. done.
  - intros Hi. exists i. apply lookup_zip_Some. split; [|done]. apply lookup_seq. split; [done|].
    by eapply lookup_lt_Some.
Qed.

Section Validity.
Context `{Bitcoin, Nom}.
Implicit Types (bh : BlockHandler) (s : Dbs).

(** ** Coinbase messages *)

Lemma m1_valid s p h d : handle_m1_propose_sidechain s p h = Some d -> valid d h (proposal_id_to_sidechain s).
Proof.
  unfold handle_m1_propose_sidechain. destruct (contains_key _ _) eqn:E; [done|].
  apply contains_key_false in E. intros [= <-]. cbn. split; [done|]. repeat split; cbn; done.
Qed.

Lemma m2_valid bh s h n hash d :
  handle_m2_ack_sidechain bh s h n hash = Ok (Some d) -> valid d h s.
Proof.
  unfold handle_m2_ack_sidechain. destruct (_ !! _) as [sc|]; [|done]. case_decide; [done|]. intros Hr. res_inv.
  cbn. unfold ack_valid. cbn [asp_id asp_effect spi_sidechain_number].
  destruct (sidechain (active_sidechains s) !! n) as [prev|] eqn:E; destruct (_ || _); cbn; done.
Qed.

Lemma m3_valid s n m d h : handle_m3_propose_bundle s n m = Ok d -> valid d h (active_sidechains s).
Proof.
  unfold handle_m3_propose_bundle, db_get. destruct (contains_key _ _); [|done]. cbn [negb].
  intros Hr. res_inv. destruct (om_contains _ _) eqn:Hc; [done|]. res_inv. cbn. eauto.
Qed.

Lemma per_slot_insert {A} (P : PendingM6ids -> A -> Prop) d a n p x :
  per_slot P d a -> pending_m6ids a !! n = Some p -> P p x -> per_slot P (<[n := x]> d) a.
Proof. intros Hd Hn HP. apply map_Forall_insert_2; [by exists p|done]. Qed.

Lemma m4_vote_valid s d e d' :
  per_slot action_valid d (active_sidechains s) -> handle_m4_vote s d e = Ok d' ->
  per_slot action_valid d' (active_sidechains s).
Proof.
  destruct e as [n v]. unfold handle_m4_vote, db_get, om_get_index. intros Hd. case_decide; [by intros [= <-]|].
  intros Hr. res_inv. destruct (decide (v = ALARM_TWO_BYTES)).
  - case_decide; res_inv; [done|]. by eapply per_slot_insert.
  - destruct (_ !! Z.to_nat v) as [[m i]|]; [|done]. case_bool_decide; res_inv; [|done].
    by eapply per_slot_insert.
Qed.

Lemma leading_slot_valid s d n d' :
  per_slot action_valid d (active_sidechains s) -> leading_by_50_slot s d n = Ok d' ->
  per_slot action_valid d' (active_sidechains s).
Proof.
  unfold leading_by_50_slot, db_get. intros Hd Hr. res_inv.
  destruct (leader _); res_inv; [by eapply per_slot_insert|done].
Qed.

Lemma repeat_action_valid s d e d' :
  per_slot action_valid d (active_sidechains s) -> repeat_action s d e = Ok d' ->
  per_slot action_valid d' (active_sidechains s).
Proof.
  destruct e as [n act]. unfold repeat_action, db_get. intros Hd Hr. res_inv. destruct act as [pos|m others].
  - case_decide; res_inv; [done|]. by eapply per_slot_insert.
  - destruct (om_get _ _) as [i|]; res_inv; [|done]. case_decide; res_inv; [done|]. by eapply per_slot_insert.
Qed.

Lemma m4_valid s prev m4 d h :
  handle_m4_ack_bundles s prev m4 = Ok d -> valid d h (active_sidechains s).
Proof.
  assert (Hvotes : forall l d, handle_m4_votes s l = Ok d -> per_slot action_valid d (active_sidechains s)).
  { intros l d'. unfold handle_m4_votes. case_decide; [|done]. intros Hf.
    eapply (foldM_invariant (fun d => per_slot action_valid d _)); [|apply map_Forall_empty|exact Hf].
    intros. by eapply m4_vote_valid. }
  destruct m4 as [|l|l|]; cbn; intros Hr.
  - unfold handle_m4_repeat_previous, db_get in Hr. case_decide; res_inv; [apply map_Forall_empty|].
    destruct (find_ack_bundles _); res_inv; [|apply map_Forall_empty].
    eapply (foldM_invariant (fun d => per_slot action_valid d _)); [|apply map_Forall_empty|eassumption].
    intros. by eapply repeat_action_valid.
  - res_inv. by eapply Hvotes.
  - destruct (forallb _ _); [done|]. res_inv. by eapply Hvotes.
  - res_inv. unfold handle_m4_leading_by_50 in *.
    eapply (foldM_invariant (fun d => per_slot action_valid d _)); [|apply map_Forall_empty|eassumption].
    intros. by eapply leading_slot_valid.
Qed.

(** ** Failures by age *)

Lemma failed_proposals_valid bh s h :
  valid (handle_failed_sidechain_proposals bh s h) h (proposal_id_to_sidechain s).
Proof. cbn. apply map_filter_subseteq. Qed.

Lemma failed_m6ids_valid bh s h d :
  handle_failed_m6ids bh s h = Ok d -> valid d h (active_sidechains s).
Proof.
  intros Hf. exists (bundle_failed bh h).
  eapply (foldM_invariant (fun d => per_slot _ d _)); [|apply map_Forall_empty|exact Hf]. intros d1 d2 n _ Hd.
  unfold failed_m6ids_slot, db_get. intros Hr. res_inv. case_decide; res_inv; [done|]. by eapply per_slot_insert.
Qed.

End Validity.

(** ** Treasury inputs and outputs of a transaction *)

Section FillCtips.
Context `{Bitcoin, Nom}.
Variables (bh : BlockHandler) (s : Dbs) (u : UnconsolidatedCtips) (tx : Transaction).

(** An output that is a treasury output of an active slot. *)
Definition designates (out : TxOut) (n : SidechainNumber) : Prop :=
  (exists r, op_drivechain_parse (op_drivechain (bh_params bh)) (script_pubkey out) = Some (r, n))
  /\ is_Some (sidechain (active_sidechains s) !! n).

Definition output_ctip (v : nat) (out : TxOut) : Ctip :=
  mkCtip (mkOutPoint (compute_txid tx) (as_u32 v)) (value out).

Definition spent (o : OutPoint) : Prop := o ∈ previous_output <$> input tx.

(** What [fill_ctips] finds: the single treasury output of each slot, the
    treasury UTXO it spends and the unconsolidated outputs it spends. *)
Record fill_spec (spent : OutPoint -> Prop) (infos : gmap SidechainNumber TxCtipsInfo) : Prop := {
  fs_output n info : infos !! n = Some info ->
    exists v out, output tx !! v = Some out /\ designates out n /\ ctip_output info = output_ctip v out;
  fs_output_all v out n : output tx !! v = Some out -> designates out n ->
    exists info, infos !! n = Some info /\ ctip_output info = output_ctip v out;
  fs_consolidated n info c : infos !! n = Some info -> consolidated_ctip_input info = Some c ->
    spent (ctip_outpoint c) /\
    exists q, ctip_outpoint_to_value_seq (active_sidechains s) !! ctip_outpoint c = Some (n, ctip_value c, q);
  fs_consolidated_all o n v q : spent o ->
    ctip_outpoint_to_value_seq (active_sidechains s) !! o = Some (n, v, q) ->
    exists info, infos !! n = Some info /\ consolidated_ctip_input info = Some (mkCtip o v);
  fs_unconsolidated n info c : infos !! n = Some info -> c ∈ unconsolidated_ctip_inputs info ->
    spent (ctip_outpoint c) /\ ctip_outpoint_to_value_seq (active_sidechains s) !! ctip_outpoint c = None /\
    by_outpoint u !! ctip_outpoint c = Some (n, ctip_value c);
  fs_unconsolidated_all o n v : spent o ->
    ctip_outpoint_to_value_seq (active_sidechains s) !! o = None -> by_outpoint u !! o = Some (n, v) ->
    exists info, infos !! n = Some info /\ mkCtip o v ∈ unconsolidated_ctip_inputs info }.

(** The loop over the outputs, after the outputs [pre]. *)
Definition outputs_inv (pre : list (nat * TxOut)) (infos : gmap SidechainNumber TxCtipsInfo) : Prop :=
  (forall n info, infos !! n = Some info -> exists v out, (v, out) ∈ pre /\
     designates out n /\ info = mkTxCtipsInfo None ∅ (output_ctip v out)) /\
  (forall v out n, (v, out) ∈ pre -> designates out n ->
     infos !! n = Some (mkTxCtipsInfo None ∅ (output_ctip v out))).

Lemma outputs_inv_skip pre infos v out :
  outputs_inv pre infos -> (forall n, ~ designates out n) -> outputs_inv (pre ++ [(v, out)]) infos.
Proof.
  intros [Hsound Hall] Hno. split.
  - intros n info Hn. destruct (Hsound n info Hn) as (v' & out' & Hin & Hd). exists v', out'.
    split; [|done]. apply elem_of_app. by left.
  - intros v' out' n [Hin|Hin]%elem_of_app Hd; [by apply Hall|].
    apply list_elem_of_singleton in Hin as [= -> ->]. by destruct (Hno n).
Qed.

Lemma outputs_inv_step pre infos infos' e :
  outputs_inv pre infos -> fill_ctip_output bh s (compute_txid tx) infos e = Ok infos' ->
  outputs_inv (pre ++ [e]) infos'.
Proof.
  destruct e as [v out]. intros Hinv Hstep. unfold fill_ctip_output in Hstep.
  destruct (op_drivechain_parse _ _) as [[r n]|] eqn:Ep.
  2:{ res_inv. apply outputs_inv_skip; [done|]. intros n [[r Hr] _]. congruence. }
  destruct (contains_key _ n) eqn:Ec; cbn [negb] in Hstep.
  2:{ res_inv. apply outputs_inv_skip; [done|]. intros n' [[r' Hr] Hact]. rewrite Ep in Hr. injection Hr as <- <-.
      apply contains_key_false in Ec. rewrite Ec in Hact. by destruct Hact. }
  apply contains_key_true in Ec. destruct (infos !! n) eqn:Em; [done|]. injection Hstep as <-.
  assert (Hd : designates out n) by (split; [by exists r|done]). destruct Hinv as [Hsound Hall]. split.
  - intros n' info [[<- <-]|[Hne Hn]]%lookup_insert_Some.
    + exists v, out. split_and!; [|done..]. apply elem_of_app. right. by left.
    + destruct (Hsound n' info Hn) as (v' & out' & Hin & Hd'). exists v', out'.
      split; [|done]. apply elem_of_app. by left.
  - intros v' out' n' [Hin|Hin]%elem_of_app Hd'.
    + rewrite lookup_insert_ne; [by apply Hall|]. intros <-. rewrite (Hall _ _ _ Hin Hd') in Em. done.
    + apply list_elem_of_singleton in Hin as [= -> ->]. destruct Hd' as [[r' Hr] _].
      rewrite Ep in Hr. injection Hr as <- <-. by rewrite lookup_insert_eq.
Qed.

Lemma fill_outputs infos :
  foldM (fill_ctip_output bh s (compute_txid tx)) (enumerate (output tx)) ∅ = Ok infos ->
  fill_spec (fun _ => False) infos.
Proof.
  intros Hf. assert (Hinv : outputs_inv (enumerate (output tx)) infos).
  { revert Hf. apply (foldM_prefix outputs_inv).
    - intros pre e m1 m2 _. apply outputs_inv_step.
    - split; [intros ? ?; by rewrite lookup_empty|]. by intros ??? ?%elem_of_nil. }
  destruct Hinv as [Hsound Hall]. split.
  - intros n info Hn. destruct (Hsound n info Hn) as (v & out & Hin%elem_of_enumerate & Hd & ->). by exists v, out.
  - intros v out n Hv Hd. eexists. split; [apply Hall; [by apply elem_of_enumerate|done]|done].
  - intros n info c Hn Hc. destruct (Hsound n info Hn) as (v & out & _ & _ & ->). done.
  - done.
  - intros n info c Hn Hc. destruct (Hsound n info Hn) as (v & out & _ & _ & ->). cbn in Hc. set_solver.
  - done.
Qed.

(** Recording an input in the entry of its slot keeps the treasury outputs. *)
Lemma fill_outputs_kept P infos n info info' :
  fill_spec P infos -> infos !! n = Some info -> ctip_output info' = ctip_output info ->
  (forall n' i, <[n := info']> infos !! n' = Some i ->
     exists v out, output tx !! v = Some out /\ designates out n' /\ ctip_output i = output_ctip v out) /\
  (forall v out n', output tx !! v = Some out -> designates out n' ->
     exists i, <[n := info']> infos !! n' = Some i /\ ctip_output i = output_ctip v out).
Proof.
  intros Hs Hn Hc. split.
  - intros n' i [[<- <-]|[_ Hi]]%lookup_insert_Some; [rewrite Hc|]; by eapply fs_output.
  - intros v out n' Hv Hd. destruct (fs_output_all _ _ Hs v out n' Hv Hd) as (i & Hi & Hc').
    destruct (decide (n = n')) as [<-|Hne].
    + rewrite lookup_insert_eq. eexists. split; [done|]. congruence.
    + rewrite lookup_insert_ne by done. by exists i.
Qed.

Lemma fill_consolidated P infos n info o v q :
  fill_spec P infos -> ctip_outpoint_to_value_seq (active_sidechains s) !! o = Some (n, v, q) ->
  infos !! n = Some info -> consolidated_ctip_input info = None ->
  fill_spec (fun o' => P o' \/ o' = o)
    (<[n := mkTxCtipsInfo (Some (mkCtip o v)) (unconsolidated_ctip_inputs info) (ctip_output info)]> infos).
Proof.
  intros Hs Et Hn Hnone. set (info' := mkTxCtipsInfo _ _ _).
  destruct (fill_outputs_kept P infos n info info' Hs Hn eq_refl) as [Ho1 Ho2]. split; [exact Ho1|exact Ho2|..].
  - intros n' i c [[<- <-]|[_ Hi]]%lookup_insert_Some Hc.
    + injection Hc as <-. split; [by right|by exists q].
    + destruct (fs_consolidated _ _ Hs n' i c Hi Hc). split; [by left|done].
  - intros o' n' v' q' Ho Hl. destruct (decide (n = n')) as [<-|Hne].
    + destruct Ho as [Ho| ->].
      * destruct (fs_consolidated_all _ _ Hs _ _ _ _ Ho Hl) as (i & Hi & Hc). congruence.
      * rewrite Et in Hl. injection Hl as <- <-. rewrite lookup_insert_eq. by eexists.
    + destruct Ho as [Ho|Ho]; [|congruence]. rewrite lookup_insert_ne by done. by eapply fs_consolidated_all.
  - intros n' i c Hi Hc. assert (Hu : exists i', infos !! n' = Some i' /\ c ∈ unconsolidated_ctip_inputs i').
    { apply lookup_insert_Some in Hi as [[<- <-]|[_ Hi]]; eauto. }
    destruct Hu as (i' & Hi' & Hc'). destruct (fs_unconsolidated _ _ Hs n' i' c Hi' Hc') as (? & ? & ?).
    split; [by left|done].
  - intros o' n' v' [Ho| ->] Hl Hu'; [|congruence].
    destruct (fs_unconsolidated_all _ _ Hs _ _ _ Ho Hl Hu') as (i & Hi & Hc).
    destruct (decide (n = n')) as [<-|Hne].
    + rewrite lookup_insert_eq. eexists. split; [done|]. cbn. congruence.
    + rewrite lookup_insert_ne by done. by exists i.
Qed.

Lemma fill_unconsolidated P infos n info o v :
  fill_spec P infos -> ctip_outpoint_to_value_seq (active_sidechains s) !! o = None ->
  by_outpoint u !! o = Some (n, v) -> infos !! n = Some info ->
  fill_spec (fun o' => P o' \/ o' = o)
    (<[n := mkTxCtipsInfo (consolidated_ctip_input info)
              ({[mkCtip o v]} ∪ unconsolidated_ctip_inputs info) (ctip_output info)]> infos).
Proof.
  intros Hs Et Eu Hn. set (info' := mkTxCtipsInfo _ _ _).
  destruct (fill_outputs_kept P infos n info info' Hs Hn eq_refl) as [Ho1 Ho2]. split; [exact Ho1|exact Ho2|..].
  - intros n' i c Hi Hc. assert (Hu : exists i', infos !! n' = Some i' /\ consolidated_ctip_input i' = Some c).
    { apply lookup_insert_Some in Hi as [[<- <-]|[_ Hi]]; eauto. }
    destruct Hu as (i' & Hi' & Hc'). destruct (fs_consolidated _ _ Hs n' i' c Hi' Hc'). split; [by left|done].
  - intros o' n' v' q' [Ho| ->] Hl; [|congruence].
    destruct (fs_consolidated_all _ _ Hs _ _ _ _ Ho Hl) as (i & Hi & Hc).
    destruct (decide (n = n')) as [<-|Hne].
    + rewrite lookup_insert_eq. eexists. split; [done|]. cbn. congruence.
    + rewrite lookup_insert_ne by done. by exists i.
  - intros n' i c [[<- <-]|[_ Hi]]%lookup_insert_Some Hc.
    + cbn in Hc. apply elem_of_union in Hc as [->%elem_of_singleton|Hc]; [split; [by right|done]|].
      destruct (fs_unconsolidated _ _ Hs n info c Hn Hc) as (? & ? & ?). split; [by left|done].
    + destruct (fs_unconsolidated _ _ Hs n' i c Hi Hc) as (? & ? & ?). split; [by left|done].
  - intros o' n' v' Ho Hl Hu'. destruct (decide (n = n')) as [<-|Hne].
    + rewrite lookup_insert_eq. eexists. split; [done|]. cbn. destruct Ho as [Ho| ->].
      * destruct (fs_unconsolidated_all _ _ Hs _ _ _ Ho Hl Hu') as (i & Hi & Hc).
        assert (i = info) as -> by congruence. set_solver.
      * rewrite Eu in Hu'. injection Hu' as <-. set_solver.
    + destruct Ho as [Ho| ->]; [|congruence]. rewrite lookup_insert_ne by done. by eapply fs_unconsolidated_all.
Qed.

Lemma fill_input_step P infos infos' txin :
  fill_spec P infos -> fill_ctip_input s u infos txin = Ok infos' ->
  fill_spec (fun o => P o \/ o = previous_output txin) infos'.
Proof.
  intros Hs Hstep. unfold fill_ctip_input in Hstep.
  destruct (ctip_outpoint_to_value_seq _ !! _) as [[[n v] q]|] eqn:Et;
    [|destruct (by_outpoint u !! _) as [[n v]|] eqn:Eu]; res_inv.
  - match goal with E : bool_decide _ = true |- _ => apply bool_decide_eq_true in E end.
    by eapply fill_consolidated.
  - by eapply fill_unconsolidated.
  - destruct Hs as [F1 F2 F3 F4 F5 F6]. split; try done.
    + intros n i c Hi Hc. destruct (F3 n i c Hi Hc). split; [by left|done].
    + intros o n v q [Ho| ->] Hl; [by eapply F4|congruence].
    + intros n i c Hi Hc. destruct (F5 n i c Hi Hc) as (? & ? & ?). split; [by left|done].
    + intros o n v [Ho| ->] Hl Hu; [by eapply F6|congruence].
Qed.

Lemma fill_spec_iff P Q infos : (forall o, P o <-> Q o) -> fill_spec P infos -> fill_spec Q infos.
Proof.
  intros HPQ [F1 F2 F3 F4 F5 F6]. split; try done; intros; rewrite <- ?HPQ in *; eauto.
Qed.

Lemma fill_ctips_spec infos : fill_ctips bh s u tx = Ok infos -> fill_spec spent infos.
Proof.
  unfold fill_ctips. intros Hf. apply bind_Ok in Hf as (m & Hout & Hin). apply fill_outputs in Hout.
  eapply (foldM_prefix (fun pre => fill_spec (fun o => o ∈ previous_output <$> pre))); [| |exact Hin].
  - intros pre txin m1 m2 _ Hpre Hstep. eapply fill_spec_iff; [|by eapply fill_input_step].
    intros o. rewrite fmap_app, elem_of_app. cbn. by rewrite list_elem_of_singleton.
  - eapply fill_spec_iff; [|exact Hout]. intros o. cbn. by rewrite elem_of_nil.
Qed.

End FillCtips.

(** ** Classification of a transaction *)

Section Classify.
Context `{Bitcoin, Nom}.
Variables (bh : BlockHandler) (s : Dbs) (tx : Transaction) (k : nat).

Definition treasury_in (info : TxCtipsInfo) : Amount :=
  match consolidated_ctip_input info with Some c => ctip_value c | None => 0 end
  + foldr Z.add 0 (ctip_value <$> elements (unconsolidated_ctip_inputs info)).

(** The slot's new output does not become its CTIP in this transaction. *)
Definition stays_unconsolidated (n : SidechainNumber) (info : TxCtipsInfo) : bool :=
  bool_decide (consolidated_ctip_input info = None) && contains_key (ctip (active_sidechains s)) n.

(** A deposit into slot [n], or a consolidation of its outputs. *)
Definition deposit_ok (n : SidechainNumber) (info : TxCtipsInfo) (dep : option Deposit) : Prop :=
  let c := ctip_output info in
  match dep with
  | Some d => treasury_in info < ctip_value c /\
      exists out address, output tx !! S (Z.to_nat (op_vout (ctip_outpoint c))) = Some out /\
        try_parse_op_return_address (script_pubkey out) = Some address /\
        d = mkDeposit (default 0 (treasury_utxo_count (active_sidechains s) !! n)) (ctip_outpoint c) address
              (ctip_value c - treasury_in info)
  | None => treasury_in info = ctip_value c /\ unconsolidated_ctip_inputs info <> ∅
  end.

(** A withdrawal from slot [n]. *)
Definition withdrawal_ok (n : SidechainNumber) (info : TxCtipsInfo) (m6id : M6id) (index : nat) (i : PendingM6idInfo) : Prop :=
  ctip_value (ctip_output info) < treasury_in info /\
  (exists c, consolidated_ctip_input info = Some c /\ forall txin, txin ∈ input tx ->
     previous_output txin = ctip_outpoint c \/
     exists c', c' ∈ unconsolidated_ctip_inputs info /\ previous_output txin = ctip_outpoint c') /\
  op_vout (ctip_outpoint (ctip_output info)) = 0 /\
  handle_m6 bh s tx (treasury_in info) = Ok (m6id, n, index, i).

Lemma inputs_check (S : gset OutPoint) l :
  foldM (fun (_ : unit) txin => if decide (previous_output txin ∈ S) then Ok tt
         else Err (M5M6_InvalidM6 (UnexpectedInput (previous_output txin)))) l tt = Ok tt <->
  forall txin, txin ∈ l -> previous_output txin ∈ S.
Proof.
  induction l as [|t l IH]; cbn.
  - split; [intros _ ? ?%elem_of_nil; done|done].
  - case_decide; cbn.
    + rewrite IH. split; [intros Hl txin [->|?]%elem_of_cons; [done|by apply Hl]|].
      intros Hl txin ?. apply Hl. by right.
    + split; [done|]. intros Hl. destruct H1. apply Hl. by left.
Qed.

Lemma handle_deposit_Ok res n info r :
  handle_deposit s tx res n info (treasury_in info) = Ok r ->
  treasury_in info < ctip_value (ctip_output info)
    \/ (treasury_in info = ctip_value (ctip_output info) /\ unconsolidated_ctip_inputs info <> ∅) ->
  exists dep, deposit_ok n info dep /\
    let new := if stays_unconsolidated n info then ∅ else {[n := ctip_output info]} in
    match res with
    | None => r = M5Deposits (match dep with Some d => {[n := d]} | None => ∅ end) (mkM5Diff new)
    | Some (M5Deposits ds d) =>
        r = M5Deposits (match dep with Some d => <[n := d]> ds | None => ds end) (mkM5Diff (new ∪ new_ctips d))
    | Some (M6Withdrawal _ _ _ _) => False
    end.
Proof.
  intros Hr Hcase. unfold handle_deposit in Hr. apply bind_Ok in Hr as (dep & Hdep & Hr).
  exists dep. split.
  - destruct (decide (treasury_in info < ctip_value (ctip_output info))) as [Hlt|Hlt].
    + rewrite bool_decide_eq_true_2 in Hdep by done. clear Hr. res_inv. unfold deposit_ok. split; [done|]. by do 2 eexists.
    + rewrite bool_decide_eq_false_2 in Hdep by done. injection Hdep as <-. unfold deposit_ok. destruct Hcase as [?|?]; [lia|done].
  - cbn zeta. unfold stays_unconsolidated. destruct res as [[ds [d]|]|]; cbn in *; [|done|].
    + injection Hr as <-. f_equal. destruct (_ && _); cbn.
      * by rewrite (left_id_L ∅ (∪)).
      * by rewrite insert_union_singleton_l.
    + by injection Hr as <-.
Qed.

Lemma handle_withdrawal_Ok res n info r :
  handle_withdrawal bh s tx k res n info (treasury_in info) = Ok r ->
  ctip_value (ctip_output info) < treasury_in info ->
  res = None /\ exists m6id index i, withdrawal_ok n info m6id index i /\
    r = M6Withdrawal n m6id (default 0 (treasury_utxo_count (active_sidechains s) !! n))
          (mkM6Diff n (ctip_output info) m6id index i).
Proof.
  intros Hr Hlt. unfold handle_withdrawal in Hr. apply bind_Ok in Hr as (c & Hc & Hr). apply ok_or_Ok in Hc.
  apply bind_Ok in Hr as ([] & Hin & Hr). 
  pose proof (proj1 (inputs_check ({[ctip_outpoint c]} ∪ set_map ctip_outpoint (unconsolidated_ctip_inputs info)) _) Hin) as Hin'.
  clear Hin. rename Hin' into Hin.
  case_bool_decide as Hv; cbn [negb] in Hr; [|done]. apply bind_Ok in Hr as ([[[m n'] idx] i] & Hm & Hr).
  apply bind_Ok in Hr as (? & Hn%assert_or_panic_Ok%bool_decide_eq_true & Hr). subst n'.
  destruct res as [[]|]; [done..|]. injection Hr as <-. split; [done|]. exists m, idx, i. split; [|done].
  split_and!; [done| |done..]. exists c. split; [done|]. intros txin Ht. specialize (Hin txin Ht).
  apply elem_of_union in Hin as [->%elem_of_singleton|(c' & -> & ?)%elem_of_map]; [by left|right; by exists c'].
Qed.

Lemma classify_Ok res n info r :
  classify_slot bh s tx k res n info = Ok r ->
  (exists dep, deposit_ok n info dep /\
     let new := if stays_unconsolidated n info then ∅ else {[n := ctip_output info]} in
     match res with
     | None => r = M5Deposits (match dep with Some d => {[n := d]} | None => ∅ end) (mkM5Diff new)
     | Some (M5Deposits ds d) =>
         r = M5Deposits (match dep with Some d => <[n := d]> ds | None => ds end) (mkM5Diff (new ∪ new_ctips d))
     | Some (M6Withdrawal _ _ _ _) => False
     end) \/
  (res = None /\ exists m6id index i, withdrawal_ok n info m6id index i /\
     r = M6Withdrawal n m6id (default 0 (treasury_utxo_count (active_sidechains s) !! n))
           (mkM6Diff n (ctip_output info) m6id index i)).
Proof.
  unfold classify_slot, amount_sum, amount_add. intros Hr. apply bind_Ok in Hr as (uv & Huv & Hr).
  apply bind_Ok in Hr as (tin & Htin & Hr). apply unwrap_Ok in Huv, Htin.
  apply checked_sum_from_Some in Huv. rewrite Z.add_0_l in Huv. apply checked_add_u64_Some in Htin as [_ ->].
  rewrite Huv in Hr. fold (treasury_in info) in Hr.
  destruct (Z.compare_spec (ctip_value (ctip_output info)) (treasury_in info)) as [He|Hl|Hg].
  - case_decide as Hu; [done|]. left. apply handle_deposit_Ok; [done|]. by right.
  - right. by apply handle_withdrawal_Ok.
  - left. apply handle_deposit_Ok; [done|]. by left.
Qed.

(** The outcome of the loop over the slots, in any order [l]. *)
Definition slots_outcome (l : list (SidechainNumber * TxCtipsInfo)) (r : option DepositsOrSuccessfulWithdrawal) : Prop :=
  match r with
  | None => l = []
  | Some (M5Deposits ds d) =>
      l <> [] /\
      (forall n info, (n, info) ∈ l -> deposit_ok n info (ds !! n) /\
         new_ctips d !! n = if stays_unconsolidated n info then None else Some (ctip_output info)) /\
      (forall n, n ∉ l.*1 -> ds !! n = None /\ new_ctips d !! n = None)
  | Some (M6Withdrawal n m6id q d) =>
      exists info, l = [(n, info)] /\
        withdrawal_ok n info m6id (removed_pending_withdrawal_index d) (removed_pending_withdrawal_info d) /\
        q = default 0 (treasury_utxo_count (active_sidechains s) !! n) /\
        m6_sidechain_number d = n /\ m6_new_ctip d = ctip_output info /\ removed_pending_withdrawal d = m6id
  end.

Lemma slots_outcome_step l n info r r' :
  n ∉ l.*1 -> slots_outcome l r -> classify_slot bh s tx k r n info = Ok r' ->
  slots_outcome (l ++ [(n, info)]) (Some r').
Proof.
  intros Hn Hl Hc. apply classify_Ok in Hc as [(dep & Hdep & Hr)|(-> & m & idx & i & Hw & ->)].
  - assert (Hres : exists ds d, (r = None /\ ds = ∅ /\ d = mkM5Diff ∅ \/ r = Some (M5Deposits ds d)) /\
      r' = M5Deposits (match dep with Some d => <[n := d]> ds | None => ds end)
             (mkM5Diff ((if stays_unconsolidated n info then ∅ else {[n := ctip_output info]}) ∪ new_ctips d))).
    { cbn zeta in Hr. destruct r as [[ds d|]|]; [|done|]; [by exists ds, d; split; [right|]|].
      exists ∅, (mkM5Diff ∅). split; [by left|]. rewrite Hr. cbn. rewrite (right_id_L ∅ (∪)). by destruct dep. }
    destruct Hres as (ds & d & Hr0 & ->).
    assert (Hl' : (forall n info, (n, info) ∈ l -> deposit_ok n info (ds !! n) /\
         new_ctips d !! n = if stays_unconsolidated n info then None else Some (ctip_output info)) /\
      (forall n, n ∉ l.*1 -> ds !! n = None /\ new_ctips d !! n = None)).
    { destruct Hr0 as [(-> & -> & ->)| ->]; [|by destruct Hl as (_ & ? & ?)]. cbn in Hl. subst.
      split; [by intros ?? ?%elem_of_nil|]. intros. by rewrite !lookup_empty. }
    destruct Hl' as [Hin Hout]. destruct (Hout n Hn) as [Hds Hnew]. cbn.
    assert (Hds' : forall n', n' <> n -> match dep with Some d => <[n := d]> ds | None => ds end !! n' = ds !! n').
    { intros n' Hne. destruct dep; [by rewrite lookup_insert_ne|done]. }
    assert (Hnew' : forall n', n' <> n ->
      ((if stays_unconsolidated n info then ∅ else {[n := ctip_output info]}) ∪ new_ctips d) !! n' = new_ctips d !! n').
    { intros n' Hne. rewrite lookup_union. destruct (stays_unconsolidated _ _).
      - rewrite lookup_empty. by destruct (_ !! n').
      - rewrite lookup_singleton_ne by done. by destruct (_ !! n'). }
    split_and!; [by destruct l| |].
    + intros n' i [Hl'|Hl']%elem_of_app.
      * assert (n' <> n) by (intros ->; apply Hn; by apply (list_elem_of_fmap_2 fst _ (n, i))).
        rewrite Hds', Hnew' by done. by apply Hin.
      * apply list_elem_of_singleton in Hl' as [= -> ->]. split.
        -- destruct dep; [by rewrite lookup_insert_eq|by rewrite Hds].
        -- rewrite lookup_union, Hnew. destruct (stays_unconsolidated _ _); [by rewrite lookup_empty|].
           by rewrite lookup_singleton_eq.
    + intros n' Hn'. rewrite fmap_app, not_elem_of_app in Hn'. destruct Hn' as [? Hne].
      cbn in Hne. rewrite list_elem_of_singleton in Hne. rewrite Hds', Hnew' by done. by apply Hout.
  - cbn in Hl. subst l. exists info. by split_and!.
Qed.

Lemma handle_slots_outcome l u r u' :
  NoDup l.*1 -> foldM (handle_m5_m6_slot bh s tx k) l (None, u) = Ok (r, u') ->
  slots_outcome l r /\ u' = foldl (fun u e => update_unconsolidated s u e.1 e.2) u l.
Proof.
  intros Hnd Hf.
  apply (foldM_prefix (fun pre st => slots_outcome pre st.1 /\
    st.2 = foldl (fun u e => update_unconsolidated s u e.1 e.2) u pre)) in Hf; [done| |done].
  intros pre [n info] [r1 u1] st2 [rest Hpre] [Ho Hu] Hstep. cbn in *. unfold handle_m5_m6_slot in Hstep. res_inv. cbn.
  split; [|by rewrite foldl_app]. eapply slots_outcome_step; [|done..].
  rewrite !fmap_app in Hnd. cbn in Hnd. apply NoDup_app in Hnd as (Hnd & _ & _).
  apply NoDup_app in Hnd as (_ & Hd & _). intros Hin. apply (Hd _ Hin). by left.
Qed.

End Classify.

(** ** The diff of a transaction *)

(** No treasury output recorded so far belongs to the transaction: transaction
    ids are unique. *)
Definition txid_fresh `{Bitcoin} (tx : Transaction) (a : ActiveSidechainDbs) : Prop :=
  forall o, op_txid o = compute_txid tx -> outpoint_fresh o a.

(** A block has fewer than 2^32 outputs (its size is limited to 4 MB). *)
Definition outputs_bounded (tx : Transaction) : Prop := Z.of_nat (length (output tx)) < 2 ^ 32.

Section Transactions.
Context `{Bitcoin, Nom}.
Implicit Types (bh : BlockHandler) (s : Dbs).

Lemma as_u32_inj v1 v2 n : (v1 < n)%nat -> (v2 < n)%nat -> Z.of_nat n < 2 ^ 32 -> as_u32 v1 = as_u32 v2 -> v1 = v2.
Proof. unfold as_u32. intros ???. rewrite !Z.mod_small by lia. lia. Qed.

Lemma designates_inj bh s out n n' : designates bh s out n -> designates bh s out n' -> n = n'.
Proof. intros [[r Hr] _] [[r' Hr'] _]. congruence. Qed.

Lemma output_ctip_inj bh s u tx infos n1 n2 i1 i2 :
  fill_spec bh s u tx (spent tx) infos -> outputs_bounded tx ->
  infos !! n1 = Some i1 -> infos !! n2 = Some i2 ->
  ctip_outpoint (ctip_output i1) = ctip_outpoint (ctip_output i2) -> n1 = n2.
Proof.
  intros Hs Hb E1 E2 Ho. destruct (fs_output _ _ _ _ _ _ Hs _ _ E1) as (v1 & o1 & Hv1 & Hd1 & Hc1).
  destruct (fs_output _ _ _ _ _ _ Hs _ _ E2) as (v2 & o2 & Hv2 & Hd2 & Hc2).
  rewrite Hc1, Hc2 in Ho. injection Ho as Ho.
  assert (v1 = v2) as <- by (eapply as_u32_inj; [by eapply lookup_lt_Some..|exact Hb|exact Ho]).
  assert (o1 = o2) as <- by congruence. by eapply designates_inj.
Qed.

Lemma handle_m6_pending bh s tx v m n idx i :
  handle_m6 bh s tx v = Ok (m, n, idx, i) ->
  compute_m6id (op_drivechain (bh_params bh)) tx v = Ok (m, n) /\
  (exists p, pending_m6ids (active_sidechains s) !! n = Some p /\ om_get_full m p = Some (idx, i)) /\
  (require_payable_bundles bh = true ->
   withdrawal_bundle_inclusion_threshold (bh_thresholds bh) < pm_vote_count i).
Proof.
  unfold handle_m6. intros Hr. res_inv. destruct (_ || _) eqn:Hb; [|done]. res_inv.
  split_and!; [done|by eexists|]. intros Hreq. rewrite Hreq in Hb. by apply bool_decide_eq_true in Hb.
Qed.

(** The outcome of [handle_m5_m6]. *)
Lemma handle_m5_m6_outcome bh s u tx r u' :
  handle_m5_m6 bh s u tx = Ok (r, u') ->
  exists infos, fill_spec bh s u tx (spent tx) infos /\ slots_outcome bh s tx (map_to_list infos) r /\
    u' = foldl (fun u e => update_unconsolidated s u e.1 e.2) u (map_to_list infos).
Proof.
  unfold handle_m5_m6. intros Hr. apply bind_Ok in Hr as (infos & Hf & Hr). exists infos.
  split; [by apply fill_ctips_spec|]. eapply handle_slots_outcome; [|exact Hr]. apply NoDup_fst_map_to_list.
Qed.

Lemma m5_new_ctip bh s tx infos ds d n c :
  slots_outcome bh s tx (map_to_list infos) (Some (M5Deposits ds d)) -> new_ctips d !! n = Some c ->
  exists info, infos !! n = Some info /\ c = ctip_output info /\ stays_unconsolidated s n info = false.
Proof.
  intros (_ & Hin & Hout) Hn. destruct (infos !! n) as [info|] eqn:Hi.
  - destruct (Hin n info) as [_ E]; [by apply elem_of_map_to_list|]. rewrite Hn in E. exists info.
    destruct (stays_unconsolidated _ _ _); [done|]. by injection E as <-.
  - destruct (Hout n) as [_ E]; [|congruence]. intros ([n' i] & -> & Hl)%list_elem_of_fmap.
    apply elem_of_map_to_list in Hl. cbn in *. congruence.
Qed.

Lemma m5_m6_valid bh s u tx r u' h :
  txid_fresh tx (active_sidechains s) -> outputs_bounded tx -> handle_m5_m6 bh s u tx = Ok (Some r, u') ->
  match r with
  | M5Deposits _ d => valid d h (active_sidechains s)
  | M6Withdrawal _ _ _ d => valid d h (active_sidechains s)
  end.
Proof.
  intros Hfr Hb Hr. apply handle_m5_m6_outcome in Hr as (infos & Hs & Ho & _).
  assert (Hfresh : forall n info, infos !! n = Some info -> outpoint_fresh (ctip_outpoint (ctip_output info)) (active_sidechains s)).
  { intros n info Hi. destruct (fs_output _ _ _ _ _ _ Hs _ _ Hi) as (v & out & _ & _ & ->). by apply Hfr. }
  destruct r as [ds d|n m q d].
  - split.
    + rewrite <- list_fmap_compose. apply NoDup_fmap_2_strong; [|apply NoDup_map_to_list].
      intros [n1 c1] [n2 c2] E1%elem_of_map_to_list E2%elem_of_map_to_list E. cbn in E.
      destruct (m5_new_ctip _ _ _ _ _ _ _ _ Ho E1) as (i1 & Hi1 & -> & _).
      destruct (m5_new_ctip _ _ _ _ _ _ _ _ Ho E2) as (i2 & Hi2 & -> & _).
      assert (n1 = n2) as <- by by eapply (output_ctip_inj bh s u tx infos). congruence.
    + apply Forall_forall. intros [n c] E%elem_of_map_to_list. cbn.
      destruct (m5_new_ctip _ _ _ _ _ _ _ _ Ho E) as (i & Hi & -> & _). by eapply Hfresh.
  - destruct Ho as (info & Hl & Hw & _ & <- & Hc & <-).
    assert (Hi : infos !! m6_sidechain_number d = Some info) by (apply elem_of_map_to_list; rewrite Hl; by left).
    split; [rewrite Hc; by eapply Hfresh|]. destruct Hw as (_ & _ & _ & Hm6).
    by destruct (handle_m6_pending _ _ _ _ _ _ _ _ Hm6) as (_ & Hp & _).
Qed.

Lemma transaction_valid bh s acc u parent tx ev d u' h :
  txid_fresh tx (active_sidechains s) -> outputs_bounded tx ->
  handle_transaction bh s acc u parent tx = Ok (Some (ev, d), u') -> valid d h (active_sidechains s).
Proof.
  intros Hfr Hb Hr. unfold handle_transaction in Hr. apply bind_Ok in Hr as ([r u1] & Hr & Hrest).
  apply map_err_Ok in Hr. res_inv. destruct r as [r|]; [|done].
  pose proof (m5_m6_valid bh s u tx r _ h Hfr Hb Hr) as Hv. destruct r; simplify_eq/=; exact Hv.
Qed.

End Transactions.
