(* ===== verification/HandlerSpecs.v ===== *)
(** * What the message handlers accept, reject and produce

    BIP300's rules for M2, M4 and expiry and BIP301's rule for M8, stated for
    the handlers of [Handlers.v]. *)

From Stdlib Require Import Strings.Byte.
From stdpp Require Import base numbers list gmap sorting.
From S2P Require Import Prelude OrderMap Bitcoin Types Messages M6 Dbs Treasury Diff Reversible Handlers HandlerProofs.
Open Scope Z_scope.

Section Specs.
Context `{Bitcoin, Nom}.
Implicit Types (bh : BlockHandler) (s : Dbs).

(** ** Sidechain proposals *)

(** The maximum age and the threshold that apply to a proposal for slot [n]. *)
Definition slot_rule bh s (n : SidechainNumber) : Z * Z :=
  let t := bh_thresholds bh in
  if contains_key (sidechain (active_sidechains s)) n
  then (withdrawal_bundle_max_age t, withdrawal_bundle_inclusion_threshold t)
  else (unused_sidechain_slot_proposal_max_age t, unused_sidechain_slot_activation_threshold t).

(** An M2 counts exactly once its proposal is known from an earlier block:
    it adds one vote, and the proposal is activated (replacing the slot's
    sidechain if there is one) exactly when the new count exceeds the slot's
    threshold within the slot's maximum age. Any other M2 is ignored. *)
Theorem m2_spec bh s h n hash :
  let id := mkSidechainProposalId n hash in
  let '(max_age, threshold) := slot_rule bh s n in
  match proposal_id_to_sidechain s !! id with
  | None => handle_m2_ack_sidechain bh s h n hash = Ok None
  | Some sc =>
      let votes := vote_count (sc_status sc) in
      let age := saturating_sub h (proposal_height (sc_status sc)) in
      (h = proposal_height (sc_status sc) -> handle_m2_ack_sidechain bh s h n hash = Ok None) /\
      (h <> proposal_height (sc_status sc) -> votes < u16_max ->
       exists d s', handle_m2_ack_sidechain bh s h n hash = Ok (Some d) /\ apply d h s = Ok s' /\
         if bool_decide (threshold < votes + 1 /\ age <= max_age)
         then sidechain (active_sidechains s') !! n = Some (set_activation (set_votes sc (votes + 1)) (Some h)) /\
              proposal_id_to_sidechain s' = delete id (proposal_id_to_sidechain s)
         else active_sidechains s' = active_sidechains s /\
              proposal_id_to_sidechain s' = <[id := set_votes sc (votes + 1)]> (proposal_id_to_sidechain s))
  end.
Proof.
  cbn zeta. unfold slot_rule. set (id := mkSidechainProposalId n hash).
  destruct (if contains_key _ _ then _ else _) as [max_age threshold] eqn:Hrule.
  unfold handle_m2_ack_sidechain. fold id. destruct (proposal_id_to_sidechain s !! id) as [sc|] eqn:Hid; [|done].
  split; [intros; by rewrite decide_True|]. intros Hne Hv. rewrite decide_False by done.
  assert (Hincr : forall E, @u16_incr E (vote_count (sc_status sc)) = Ok (vote_count (sc_status sc) + 1)).
  { intros. by apply u16_incr_Ok. }
  rewrite Hincr. cbn [mbind Res_bind].
  set (votes := vote_count (sc_status sc)) in *. set (age := saturating_sub _ _).
  match goal with |- context [mkAckSidechainProposal id (if ?act then _ else _)] =>
    assert (Hact : act = bool_decide (threshold < votes + 1 /\ age <= max_age)) end.
  { unfold contains_key, activates_unused_slot in *. case_bool_decide; injection Hrule as <- <-;
      cbn; rewrite ?orb_false_r, <- bool_decide_and; done. }
  rewrite Hact. clear Hact. case_bool_decide as Hb.
  - destruct (sidechain (active_sidechains s) !! n); cbn; unfold ack_sidechain_proposal_apply, db_get; cbn;
      do 2 eexists; (split; [done|]); cbn; rewrite Hid; cbn; fold votes; rewrite Hincr; cbn; (split; [done|]);
      cbn; by rewrite lookup_insert_eq.
  - do 2 eexists. split; [done|]. cbn. unfold ack_sidechain_proposal_apply, db_get. cbn. rewrite Hid. cbn.
    fold votes. rewrite Hincr. cbn. split; done.
Qed.

(** Proposals are dropped exactly when they are hopeless: when the age
    exceeds the slot's maximum, or when even a vote in every remaining block of
    the window could not exceed the threshold. The single exception is a
    proposal that never got a vote, which is dropped one block later. *)
Theorem failed_iff_hopeless bh s h id sc max_age threshold :
  let votes := vote_count (sc_status sc) in
  let age := h - proposal_height (sc_status sc) in
  slot_rule bh s (sp_sidechain_number (sc_proposal sc)) = (max_age, threshold) ->
  proposal_id_to_sidechain s !! id = Some sc -> 0 <= votes <= age -> 0 <= threshold <= max_age ->
  handle_failed_sidechain_proposals bh s h !! id = None <->
  age <= max_age /\ (threshold < votes + (max_age - age) \/ (votes = 0 /\ age = max_age - threshold)).
Proof.
  cbn zeta. intros Hrule Hid Hv Ht.
  unfold handle_failed_sidechain_proposals. rewrite map_lookup_filter_None.
  assert (Hfail : proposal_failed bh s h sc = false <-> h - proposal_height (sc_status sc) <= max_age /\
    (threshold < vote_count (sc_status sc) + (max_age - (h - proposal_height (sc_status sc))) \/
     vote_count (sc_status sc) = 0 /\ h - proposal_height (sc_status sc) = max_age - threshold)).
  { unfold proposal_failed. unfold slot_rule in Hrule. rewrite Hrule. unfold saturating_sub.
    rewrite orb_false_iff, andb_false_iff, !bool_decide_eq_false. lia. }
  rewrite <- Hfail. cbn. split.
  - intros [Hn|Hall]; [congruence|]. specialize (Hall sc Hid). by destruct (proposal_failed _ _ _ _).
  - intros Hf. right. intros sc' E. assert (sc' = sc) as -> by congruence. by rewrite Hf.
Qed.

(** ** The order of the slots *)

Lemma NoDup_all_slots : NoDup all_slots.
Proof.
  unfold all_slots. apply NoDup_fmap_2_strong; [|apply NoDup_seqZ].
  intros x y Hx%elem_of_seqZ Hy%elem_of_seqZ E%(f_equal u8_val).
  rewrite !u8_val_to_u8, !Z.mod_small in E by lia. done.
Qed.

Lemma NoDup_numbers a : NoDup (numbers a).
Proof. apply NoDup_filter, NoDup_all_slots. Qed.

Lemma elem_of_numbers a n : n ∈ numbers a <-> is_Some (sidechain a !! n).
Proof.
  unfold numbers. rewrite list_elem_of_filter. split; [tauto|]. intros Hs. split; [done|].
  unfold all_slots. apply list_elem_of_fmap. exists (u8_val n). split; [by rewrite to_u8_val|].
  apply elem_of_seqZ. pose proof (u8_val_range n). lia.
Qed.

(** ** M4: votes on withdrawal bundles *)

(** The bundles of a slot after a vote for position [v] (or abstaining, or
    raising the alarm): the bundle voted for gains a vote, all others lose one. *)
Definition voted (p : PendingM6ids) (v : Z) : PendingM6ids :=
  if decide (v = ABSTAIN_TWO_BYTES) then p
  else if decide (v = ALARM_TWO_BYTES) then om_map (fun _ => downvote) p
  else match p !! Z.to_nat v with
       | Some (m, i) =>
           if bool_decide (pm_vote_count i < u16_max)
           then om_map (fun m' j => if decide (m' = m) then map_votes (fun w => w + 1) j else downvote j) p
           else p
       | None => p
       end.

(** A vote that a slot with bundles [p] accepts. *)
Definition vote_valid (p : PendingM6ids) (v : Z) : Prop :=
  v = ABSTAIN_TWO_BYTES \/ v = ALARM_TWO_BYTES \/ (Z.to_nat v < length p)%nat.

(** The entry of the diff for a vote. *)
Definition vote_action (p : PendingM6ids) (v : Z) : option AckBundleAction :=
  if decide (v = ABSTAIN_TWO_BYTES) then None
  else if decide (v = ALARM_TWO_BYTES) then
    if decide (positive_votes_proposals_for_alarm p = ∅) then None
    else Some (AlarmAction (positive_votes_proposals_for_alarm p))
  else match p !! Z.to_nat v with
       | Some (m, i) => if bool_decide (pm_vote_count i < u16_max)
                        then Some (UpvoteAction m (downvoted_others_for_upvote p m)) else None
       | None => None
       end.

Definition vote_entry s (e : SidechainNumber * Z) : Res HandleM4Votes (option AckBundleAction) :=
  if decide (e.2 = ABSTAIN_TWO_BYTES) then Ok None else
  pending ← map_err M4V_Db (db_get (pending_m6ids (active_sidechains s)) e.1);
  if decide (e.2 <> ALARM_TWO_BYTES /\ pending !! Z.to_nat e.2 = None) then Err (UpvoteFailed e.1 e.2)
  else Ok (vote_action pending e.2).

Lemma handle_m4_vote_entry s d e :
  handle_m4_vote s d e = (o ← vote_entry s e; Ok (match o with Some y => <[e.1 := y]> d | None => d end)).
Proof.
  destruct e as [n v]. unfold handle_m4_vote, vote_entry, vote_action, om_get_index. cbn [fst snd].
  destruct (decide (v = ABSTAIN_TWO_BYTES)); [done|]. destruct (db_get _ n) as [p| |]; cbn; [|done..].
  destruct (decide (v = ALARM_TWO_BYTES)).
  - rewrite (decide_False (P := _ /\ _)) by naive_solver. cbn. by case_decide.
  - destruct (p !! Z.to_nat v) as [[m i]|] eqn:E; cbn.
    + rewrite (decide_False (P := _ /\ _)) by naive_solver. cbn. by case_bool_decide.
    + by rewrite (decide_True (P := _ /\ _)) by naive_solver.
Qed.

Lemma om_map_id_ext (f : M6id -> PendingM6idInfo -> PendingM6idInfo) (p : PendingM6ids) :
  (forall m i, (m, i) ∈ p -> f m i = i) -> om_map f p = p.
Proof.
  induction p as [|[m i] p IH]; intros Hf; [done|].
  change (om_map f ((m, i) :: p)) with ((m, f m i) :: om_map f p).
  rewrite Hf by left. f_equal. apply IH. intros. apply Hf. by right.
Qed.

Lemma alarm_nobody p :
  pending_wf p -> positive_votes_proposals_for_alarm p = ∅ -> om_map (fun _ => downvote) p = p.
Proof.
  intros [Hwf Hv] He. apply om_map_id_ext. intros m i Hin. rewrite Forall_forall in Hv.
  specialize (Hv _ Hin). unfold votes_ok in Hv. cbn in Hv. apply om_elem_get in Hin; [|done].
  assert (~ 0 < pm_vote_count i). { intros ?. assert (m ∈ positive_votes_proposals_for_alarm p) by (apply elem_of_positive; eauto). set_solver. }
  destruct i as [w h]. unfold downvote, map_votes, saturating_sub. cbn in *. f_equal. lia.
Qed.

(** Applying the entry of a vote gives [voted]. *)
Lemma action_apply_voted n p v :
  pending_wf p -> vote_valid p v ->
  match vote_action p v with
  | Some act => action_apply n act p = Ok (voted p v)
  | None => voted p v = p
  end.
Proof.
  intros Hwf Hv. unfold vote_action, voted. destruct (decide (v = ABSTAIN_TWO_BYTES)); [done|].
  destruct (decide (v = ALARM_TWO_BYTES)).
  - case_decide; [by apply alarm_nobody|done].
  - destruct (p !! Z.to_nat v) as [[m i]|] eqn:Hp; [|done]. case_bool_decide as Hlt; [|done]. cbn.
    assert (Hg : om_get m p = Some i) by (apply om_elem_get; [apply Hwf|by eapply list_elem_of_lookup_2]).
    destruct (upvote_apply m (downvoted_others_for_upvote p m) p) as [p'| |] eqn:Ha.
    2,3: exfalso; revert Ha; unfold upvote_apply; rewrite Hg; cbn; unfold u16_incr;
      by rewrite bool_decide_eq_true_2 by done.
    destruct (upvote_apply_get _ _ _ Hwf Ha) as (j & Hj & _ & Hk & Hget). assert (j = i) as -> by congruence.
    f_equal. apply om_ext; [eapply om_wf_keys; [|apply Hwf]; done|by rewrite om_keys_map|].
    intros k. rewrite Hget, om_get_map. destruct (decide (k = m)) as [->|Hne]; [by rewrite Hg|].
    by destruct (om_get k p).
Qed.

Lemma ack_bundles_slots (d : AckBundles) h a :
  (forall n act, d !! n = Some act -> exists p p', pending_m6ids a !! n = Some p /\ action_apply n act p = Ok p') ->
  exists ps, apply d h a = Ok (set_pending a ps) /\
    (forall n act p p', d !! n = Some act -> pending_m6ids a !! n = Some p -> action_apply n act p = Ok p' ->
       ps !! n = Some p') /\
    (forall n, d !! n = None -> ps !! n = pending_m6ids a !! n).
Proof.
  intros Hall. change (apply d h a) with (foldM ack_bundle_action_apply (map_to_list d) a).
  rewrite ack_bundles_apply_keyed. pose proof (NoDup_fst_map_to_list d) as Hnd.
  destruct (keyed_fold_total id action_apply (map_to_list d) a Hnd) as [a' Ha].
  { intros n act Hin%elem_of_map_to_list. by apply Hall. }
  destruct (keyed_fold_inv _ _ _ _ _ Hnd Ha) as (ps & -> & Hin & Hout). exists ps. split_and!; [done| |].
  - intros n act p p' Hn Hp Hap. apply elem_of_map_to_list in Hn.
    destruct (Hin n act Hn) as (q & q' & ? & ? & ?). congruence.
  - intros n Hn. apply Hout. intros ([k act] & -> & Hl)%list_elem_of_fmap.
    apply elem_of_map_to_list in Hl. cbn in *. congruence.
Qed.

Lemma zip_numbers_lookup {A B} (l : list A) (k : list B) x y :
  (x, y) ∈ zip l k <-> exists i, l !! i = Some x /\ k !! i = Some y.
Proof. rewrite list_elem_of_lookup. by setoid_rewrite lookup_zip_Some. Qed.

Lemma pending_of_number s n :
  wf (active_sidechains s) -> n ∈ numbers (active_sidechains s) ->
  exists p, pending_m6ids (active_sidechains s) !! n = Some p /\ pending_wf p.
Proof.
  intros Hwf Hn%elem_of_numbers. apply (aw_dom _ Hwf) in Hn as [p Hp]. exists p. split; [done|]. by eapply aw_pending.
Qed.

Lemma vote_entry_spec s n v p :
  pending_m6ids (active_sidechains s) !! n = Some p ->
  (vote_valid p v -> vote_entry s (n, v) = Ok (vote_action p v)) /\
  (~ vote_valid p v -> vote_entry s (n, v) = Err (UpvoteFailed n v)).
Proof.
  intros Hp. unfold vote_entry, vote_valid, db_get. cbn. rewrite Hp. cbn. split.
  - intros Hv. destruct (decide (v = ABSTAIN_TWO_BYTES)) as [->|]; [done|].
    rewrite decide_False; [done|]. intros [Ha Hn%lookup_ge_None]. destruct Hv as [?|[?|?]]; [done..|lia].
  - intros Hv. rewrite decide_False by tauto. rewrite decide_True; [done|]. split; [tauto|].
    apply lookup_ge_None. lia.
Qed.

(** The vote [v] is the one for slot [n], whose bundles are [p]. *)
Definition vote_at s (upvotes : list Z) (n : SidechainNumber) (v : Z) (p : PendingM6ids) : Prop :=
  exists i, numbers (active_sidechains s) !! i = Some n /\ upvotes !! i = Some v /\
    pending_m6ids (active_sidechains s) !! n = Some p.

#[local] Instance vote_valid_dec p v : Decision (vote_valid p v).
Proof. unfold vote_valid. solve_decision. Defined.

Lemma vote_at_zip s upvotes e :
  wf (active_sidechains s) -> e ∈ zip (numbers (active_sidechains s)) upvotes ->
  exists p, vote_at s upvotes e.1 e.2 p /\ pending_wf p.
Proof.
  destruct e as [n v]. intros Hwf (i & Hn & Hv)%zip_numbers_lookup.
  destruct (pending_of_number s n Hwf) as (p & Hp & Hpw); [by eapply list_elem_of_lookup_2|].
  exists p. split; [by exists i|done].
Qed.

Lemma fst_zip_numbers s (upvotes : list Z) :
  length upvotes = length (numbers (active_sidechains s)) ->
  (zip (numbers (active_sidechains s)) upvotes).*1 = numbers (active_sidechains s).
Proof. intros Hlen. apply fst_zip. lia. Qed.

(** An accepted list of votes gives each slot its entry. *)
Lemma m4_votes_diff s upvotes :
  wf (active_sidechains s) -> length upvotes = length (numbers (active_sidechains s)) ->
  (forall n v p, vote_at s upvotes n v p -> vote_valid p v) ->
  exists d, handle_m4_votes s upvotes = Ok d /\
    (forall n v p, vote_at s upvotes n v p -> d !! n = vote_action p v) /\
    (forall n, n ∉ numbers (active_sidechains s) -> d !! n = None).
Proof.
  intros Hwf Hlen Hvalid. unfold handle_m4_votes. rewrite decide_True by done.
  pose proof (NoDup_numbers (active_sidechains s)) as Hnd. rewrite <- (fst_zip_numbers s upvotes Hlen) in Hnd.
  destruct (foldM_collect_total fst _ _ (handle_m4_vote_entry s) (zip (numbers (active_sidechains s)) upvotes) ∅) as [d Hd].
  { intros e He. destruct (vote_at_zip s upvotes e Hwf He) as (p & Hat & _). exists (vote_action p e.2).
    pose proof (Hvalid _ _ _ Hat) as Hv. destruct e as [n v], Hat as (_ & _ & _ & Hp). by apply vote_entry_spec. }
  exists d. destruct (proj1 (foldM_collect fst _ _ (handle_m4_vote_entry s) _ d Hnd) Hd) as [Hin Hout].
  rewrite fst_zip_numbers in Hout by done. split_and!; [done| |done].
  intros n v p Hat. pose proof (Hvalid _ _ _ Hat) as Hv. destruct Hat as (i & Hn & Hi & Hp).
  specialize (Hin (n, v) ltac:(apply zip_numbers_lookup; by exists i)).
  rewrite (proj1 (vote_entry_spec s n v p Hp) Hv) in Hin. by injection Hin.
Qed.

Lemma m4_votes_rejected s upvotes n v p :
  wf (active_sidechains s) -> length upvotes = length (numbers (active_sidechains s)) ->
  vote_at s upvotes n v p -> ~ vote_valid p v ->
  exists n' v', handle_m4_votes s upvotes = Err (UpvoteFailed n' v').
Proof.
  intros Hwf Hlen (i & Hn & Hi & Hp) Hnv. unfold handle_m4_votes. rewrite decide_True by done.
  assert (Hcase : forall e, e ∈ zip (numbers (active_sidechains s)) upvotes ->
    (exists o, vote_entry s e = Ok o) \/ vote_entry s e = Err (UpvoteFailed e.1 e.2)).
  { intros [n' v'] He. destruct (vote_at_zip s upvotes _ Hwf He) as (p' & (_ & _ & _ & Hp') & _). cbn in Hp'.
    destruct (vote_entry_spec s n' v' p' Hp') as [Hok Herr].
    destruct (decide (vote_valid p' v')) as [Hd|Hd]; [left; eauto|right; eauto]. }
  destruct (foldM_collect_Err fst _ _ (handle_m4_vote_entry s) (zip (numbers (active_sidechains s)) upvotes) ∅ (n, v)
    (UpvoteFailed n v)) as (e & err & He & Eg & ->).
  - apply zip_numbers_lookup. by exists i.
  - by apply (vote_entry_spec s n v p Hp).
  - intros e He. destruct (Hcase e He) as [[o ->]| ->]; done.
  - destruct (Hcase e He) as [[o Ho]|Ho]; rewrite Ho in Eg; [done|]. injection Eg as <-. by do 2 eexists.
Qed.

(** Valid votes are accepted, and their diff applies. *)
Lemma m4_votes_apply s upvotes h :
  let a := active_sidechains s in
  wf a -> length upvotes = length (numbers a) -> (forall n v p, vote_at s upvotes n v p -> vote_valid p v) ->
  exists d ps, handle_m4_votes s upvotes = Ok d /\ apply d h a = Ok (set_pending a ps) /\
    (forall n v p, vote_at s upvotes n v p -> ps !! n = Some (voted p v)).
Proof.
  cbn zeta. intros Hwf Hlen Hvalid. destruct (m4_votes_diff s upvotes Hwf Hlen Hvalid) as (d & Hd & Hin & Hout).
  destruct (ack_bundles_slots d h (active_sidechains s)) as (ps & Hap & Hps & Hps').
  { intros n act Hn. destruct (decide (n ∈ numbers (active_sidechains s))) as [Hl|Hl]; [|by rewrite Hout in Hn].
    rewrite <- (fst_zip_numbers s upvotes Hlen) in Hl. apply list_elem_of_fmap in Hl as ([n' v] & -> & He).
    destruct (vote_at_zip s upvotes _ Hwf He) as (p & Hat & Hpw). cbn in *.
    pose proof (action_apply_voted n' p v Hpw (Hvalid _ _ _ Hat)) as Ha.
    rewrite <- (Hin _ _ _ Hat), Hn in Ha. destruct Hat as (_ & _ & _ & Hp). by exists p, (voted p v). }
  exists d, ps. split_and!; [done..|]. intros n v p Hat. pose proof (Hin _ _ _ Hat) as Hdn.
  pose proof (Hvalid _ _ _ Hat) as Hv. destruct Hat as (i & _ & _ & Hp).
  pose proof (action_apply_voted n p v (aw_pending _ Hwf _ _ Hp) Hv) as Ha.
  destruct (vote_action p v) as [act|] eqn:Eact; [by eapply Hps|]. by rewrite Hps', Ha.
Qed.

(** C39. M4 votes: the list must have one vote per active slot, in slot order.
    If every vote names a pending bundle, abstains or raises the alarm, the
    message is accepted, its diff applies, and each slot's bundles change
    exactly as [voted] says; if any vote names no bundle, the block is
    rejected. *)
Theorem m4_votes_spec s upvotes h :
  let a := active_sidechains s in
  wf a ->
  (length upvotes <> length (numbers a) ->
   handle_m4_votes s upvotes = Err (InvalidVotes (length (numbers a)) (length upvotes))) /\
  (length upvotes = length (numbers a) -> (forall n v p, vote_at s upvotes n v p -> vote_valid p v) ->
   exists d ps, handle_m4_votes s upvotes = Ok d /\ apply d h a = Ok (set_pending a ps) /\
     (forall n v p, vote_at s upvotes n v p -> ps !! n = Some (voted p v))) /\
  (length upvotes = length (numbers a) -> (exists n v p, vote_at s upvotes n v p /\ ~ vote_valid p v) ->
   exists n v, handle_m4_votes s upvotes = Err (UpvoteFailed n v)).
Proof.
  cbn zeta. intros Hwf. split_and!.
  - intros Hlen. unfold handle_m4_votes. by rewrite decide_False.
  - by apply m4_votes_apply.
  - intros Hlen (n & v & p & Hat & Hnv). by eapply m4_votes_rejected.
Qed.

(** ** M4 by lead *)

(** Bundle [m] leads the others by the margin. *)
Definition leads (p : PendingM6ids) (m : M6id) : Prop :=
  exists i, om_get m p = Some i /\ LEADING_BY_50_MARGIN <= pm_vote_count i < u16_max /\
    forall m' j, m' <> m -> om_get m' p = Some j -> pm_vote_count j + LEADING_BY_50_MARGIN <= pm_vote_count i.

Lemma elem_of_votes p m v :
  om_wf p -> (m, v) ∈ ((fun e => (e.1, pm_vote_count e.2)) <$> p : list (M6id * Z)) <->
  exists i, om_get m p = Some i /\ v = pm_vote_count i.
Proof.
  intros Hwf. rewrite list_elem_of_fmap. split.
  - intros ([m' i] & [= -> ->] & Hin). exists i. split; [by apply om_elem_get|done].
  - intros (i & Hg & ->). exists (m, i). split; [done|]. by apply om_get_elem.
Qed.

(** The leader of any list of the votes that is sorted by votes: how equal
    votes are ordered makes no difference. *)
Lemma leader_spec p bv m :
  pending_wf p -> StronglySorted by_votes_desc bv ->
  bv ≡ₚ ((fun e => (e.1, pm_vote_count e.2)) <$> p) -> leader bv = Some m <-> leads p m.
Proof.
  intros [Hwf Hv] Hs Hp.
  assert (Hin : forall m v, (m, v) ∈ bv <-> exists i, om_get m p = Some i /\ v = pm_vote_count i).
  { intros. rewrite Hp. by apply elem_of_votes. }
  assert (Hnd : NoDup bv.*1).
  { rewrite Hp, <- list_fmap_compose. exact Hwf. }
  assert (Hpos : forall m i, om_get m p = Some i -> 0 <= pm_vote_count i).
  { intros m' i Hg. by apply (pending_wf_get p m' i (conj Hwf Hv)). }
  destruct bv as [|[l v] rest]; cbn.
  - split; [done|]. intros (i & Hg & _). exfalso. apply (not_elem_of_nil (m, pm_vote_count i)). apply Hin. eauto.
  - destruct (proj1 (Hin l v) ltac:(left)) as (il & Hl & ->). cbn in Hnd. apply NoDup_cons in Hnd as [Hnl Hnd].
    inversion Hs as [|? ? Hs' Hall]; subst. rewrite Forall_forall in Hall.
    unfold leads, saturating_sub, LEADING_BY_50_MARGIN in *.
    set (second := match rest with (_, v) :: _ => v | [] => 0 end).
    assert (Hsecond : forall m' j, m' <> l -> om_get m' p = Some j -> pm_vote_count j <= second).
    { intros m' j Hne Hj. assert (Hm' : (m', pm_vote_count j) ∈ (l, pm_vote_count il) :: rest) by (apply Hin; eauto).
      apply elem_of_cons in Hm' as [[= ? ?]|Hm']; [done|]. subst second. destruct rest as [|[x w] rest]; [by apply elem_of_nil in Hm'|].
      inversion Hs' as [|? ? _ Hr]; subst. rewrite Forall_forall in Hr.
      apply elem_of_cons in Hm' as [[= ? ->]|Hm']; [done|]. apply (Hr _ Hm'). }
    assert (Hsec : second = 0 \/ exists m' j, m' <> l /\ om_get m' p = Some j /\ pm_vote_count j = second).
    { subst second. destruct rest as [|[x w] rest]; [by left|right].
      destruct (proj1 (Hin x w)) as (j & Hj & ->); [right; by left|]. exists x, j. split_and!; [|done..].
      intros ->. apply Hnl. by left. }
    assert (0 <= second) by (destruct Hsec as [->|(m' & j & _ & Hj & <-)]; [done|by eapply Hpos]).
    destruct (_ && _) eqn:Hb.
    + apply andb_prop in Hb as [Hb1%bool_decide_eq_true Hb2%bool_decide_eq_true]. split.
      * intros [= <-]. exists il. split_and!; [done|lia|lia|]. intros m' j Hne Hj. specialize (Hsecond m' j Hne Hj). lia.
      * intros (i & Hi & Hm & Hlead). destruct (decide (l = m)) as [->|Hne]; [done|].
        specialize (Hlead l il Hne Hl). specialize (Hsecond m i ltac:(congruence) Hi). lia.
    + split; [done|]. intros (i & Hi & Hm & Hlead). exfalso.
      assert (l = m) as ->.
      { destruct (decide (l = m)); [done|]. specialize (Hlead l il ltac:(done) Hl).
        assert ((m, pm_vote_count i) ∈ (l, pm_vote_count il) :: rest) as Hmi by (apply Hin; eauto).
        apply elem_of_cons in Hmi as [[= ? ?]|Hmi]; [done|]. specialize (Hall _ Hmi). unfold by_votes_desc in Hall. cbn in Hall. lia. }
      assert (i = il) as -> by congruence. apply andb_false_iff in Hb as [Hb|Hb]; apply bool_decide_eq_false in Hb; [|lia].
      destruct Hsec as [->|(m' & j & Hne & Hj & <-)]; [lia|]. specialize (Hlead m' j Hne Hj). lia.
Qed.

(** LeadingBy50: on well-formed tables the message is always accepted and
    votes in exactly the slots that have a bundle leading all others by the
    margin, for that bundle, whatever order the unstable sort leaves bundles of
    equal votes in. *)
Theorem leading_by_50_spec s :
  wf (active_sidechains s) ->
  (exists d, handle_m4_leading_by_50 s = Ok d /\
     forall n p, pending_m6ids (active_sidechains s) !! n = Some p ->
       (forall m, d !! n = Some (UpvoteAction m (downvoted_others_for_upvote p m)) <-> leads p m) /\
       (d !! n = None <-> forall m, ~ leads p m)) /\
  (forall p bv bv', pending_wf p -> bv ≡ₚ ((fun e => (e.1, pm_vote_count e.2)) <$> p) -> bv ≡ₚ bv' ->
     StronglySorted by_votes_desc bv -> StronglySorted by_votes_desc bv' -> leader bv = leader bv').
Proof.
  intros Hwf. split.
  2:{ intros p bv bv' Hp E1 E2 S1 S2. apply option_eq. intros m.
      assert (E3 : bv' ≡ₚ ((fun e => (e.1, pm_vote_count e.2)) <$> p)) by by rewrite <- E2.
      by rewrite (leader_spec p bv m), (leader_spec p bv' m). }
  set (g := fun n => pending ← map_err M4V_Db (db_get (pending_m6ids (active_sidechains s)) n);
    Ok ((fun m => UpvoteAction m (downvoted_others_for_upvote pending m)) <$>
        leader (merge_sort by_votes_desc ((fun e => (e.1, pm_vote_count e.2)) <$> pending)))).
  assert (Hg : forall d n, leading_by_50_slot s d n = (o ← g n; Ok (match o with Some y => <[n := y]> d | None => d end))).
  { intros d n. unfold leading_by_50_slot, g. destruct (map_err _ _); cbn; [|done..]. by destruct (leader _). }
  unfold handle_m4_leading_by_50.
  assert (Hnd : NoDup (id <$> numbers (active_sidechains s))) by (rewrite list_fmap_id; apply NoDup_numbers).
  destruct (foldM_collect_total id g _ Hg (numbers (active_sidechains s)) ∅) as [d Hd].
  { intros n Hn. destruct (pending_of_number s n Hwf Hn) as (p & Hp & _). unfold g, db_get. rewrite Hp. by eexists. }
  exists d. split; [done|]. destruct (proj1 (foldM_collect id g _ Hg _ d Hnd) Hd) as [Hin _]. intros n p Hp.
  assert (Hn : n ∈ numbers (active_sidechains s)) by (apply elem_of_numbers, (aw_dom _ Hwf); eauto).
  specialize (Hin n Hn). unfold g, db_get in Hin. rewrite Hp in Hin. cbn in Hin. injection Hin as Hin.
  set (bv := merge_sort _ _) in Hin.
  assert (Hl : forall m, leader bv = Some m <-> leads p m).
  { intros m. apply leader_spec; [by eapply aw_pending| |apply merge_sort_Permutation].
    apply Sorted_StronglySorted; [|apply Sorted_merge_sort].
    - intros x y z. unfold by_votes_desc. lia.
    - intros x y. unfold by_votes_desc. lia. }
  rewrite <- Hin. split.
  - intros m. rewrite <- Hl. rewrite fmap_Some. split; [|eauto]. intros (m' & E & [= ->]). done.
  - rewrite fmap_None. split; [intros E m Hm%Hl; congruence|]. intros Hno. apply eq_None_not_Some.
    intros [m Hm]. by apply (Hno m), Hl.
Qed.

(** ** M4 by repetition *)

(** The vote of the previous block's action on the bundles [p] of now. *)
Definition repeated (p : PendingM6ids) (act : AckBundleAction) : option AckBundleAction :=
  match act with
  | UpvoteAction m _ =>
      i ← om_get m p;
      if decide (pm_vote_count i = u16_max) then None else Some (UpvoteAction m (downvoted_others_for_upvote p m))
  | AlarmAction _ =>
      if decide (positive_votes_proposals_for_alarm p = ∅) then None
      else Some (AlarmAction (positive_votes_proposals_for_alarm p))
  end.

(** RepeatPrevious casts the previous block's votes again on the bundles
    of now: a bundle that is no longer pending, or whose count is full, gets
    no vote, and the bundles that lose a vote are those of now. There is
    nothing to repeat in the first block or after a block without votes. *)
Theorem repeat_previous_spec s prev pd :
  wf (active_sidechains s) -> prev <> all_zeros -> diff (block_hashes s) !! prev = Some pd ->
  let votes := default ∅ (find_ack_bundles (cd_msgs (bd_coinbase pd))) in
  (forall n, is_Some (votes !! n) -> is_Some (sidechain (active_sidechains s) !! n)) ->
  handle_m4_repeat_previous s all_zeros = Ok ∅ /\
  exists d, handle_m4_repeat_previous s prev = Ok d /\
    forall n, d !! n = (act ← votes !! n; p ← pending_m6ids (active_sidechains s) !! n; repeated p act).
Proof.
  intros Hwf Hnz Hpd votes Hact. unfold handle_m4_repeat_previous, db_get.
  split; [by rewrite decide_True|]. rewrite decide_False by done. rewrite Hpd. cbn.
  set (g := fun e : SidechainNumber * AckBundleAction =>
    pending ← map_err M4_Db (ok_or MissingValue (pending_m6ids (active_sidechains s) !! e.1)); Ok (repeated pending e.2)).
  assert (Hg : forall d e, repeat_action s d e = (o ← g e; Ok (match o with Some y => <[e.1 := y]> d | None => d end))).
  { intros d [n act]. unfold repeat_action, g, db_get. cbn. destruct (map_err _ _) as [p| |]; cbn; [|done..].
    destruct act as [pos|m others]; cbn; [by case_decide|]. destruct (om_get m p); cbn; [|done]. by case_decide. }
  assert (Hloop : exists d, foldM (repeat_action s) (map_to_list votes) ∅ = Ok d /\
    forall n, d !! n = (act ← votes !! n; p ← pending_m6ids (active_sidechains s) !! n; repeated p act)).
  { destruct (foldM_collect_total fst g _ Hg (map_to_list votes) ∅) as [d Hd].
    { intros [n act] Hin%elem_of_map_to_list. destruct (proj2 (aw_dom _ Hwf n)) as [p Hp]; [apply Hact; eauto|].
      unfold g. cbn. rewrite Hp. by eexists. }
    exists d. split; [done|].
    destruct (proj1 (foldM_collect fst g _ Hg _ d (NoDup_fst_map_to_list votes)) Hd) as [Hin Hout].
    intros n. destruct (votes !! n) as [act|] eqn:Hn; cbn.
    - specialize (Hin (n, act) ltac:(by apply elem_of_map_to_list)). unfold g in Hin. cbn in Hin.
      destruct (pending_m6ids _ !! n); [|done]. cbn in *. by injection Hin.
    - apply Hout. intros ([k act] & -> & Hl%elem_of_map_to_list)%list_elem_of_fmap. cbn in *. congruence. }
  subst votes. destruct (find_ack_bundles _); [exact Hloop|]. exists ∅. split; [done|]. intros n. by rewrite !lookup_empty.
Qed.

(** ** Votes of the block producer *)

Definition vote_index (v : WithdrawalBundleVote) : Z :=
  match v with Abstain => ABSTAIN_TWO_BYTES | Alarm => ALARM_TWO_BYTES | Upvote i => i end.

Lemma widen_to_u8 i : 0 <= i <= MAX_ONE_BYTE_UPVOTE -> widen_vote (to_u8 i) = i.
Proof.
  intros Hi. change MAX_ONE_BYTE_UPVOTE with 253 in Hi. unfold widen_vote.
  assert (Hv : u8_val (to_u8 i) = i) by (rewrite u8_val_to_u8; apply Z.mod_small; lia).
  rewrite !decide_False; [done|..]; intros E; rewrite E in Hv; vm_compute in Hv; lia.
Qed.

Lemma from_votes_read s prev votes :
  Forall (fun v => match v with Upvote i => 0 <= i < ALARM_TWO_BYTES | _ => True end) votes ->
  handle_m4_ack_bundles s prev (from_votes votes) = map_err M4_Votes (handle_m4_votes s (vote_index <$> votes)).
Proof.
  intros Hv. unfold from_votes. destruct (existsb _ votes) eqn:Hex; cbn.
  - apply existsb_exists in Hex as (v & Hin & Hb). rewrite <- list_elem_of_In in Hin.
    destruct (forallb _ _) eqn:Hall; [|done]. exfalso. rewrite forallb_forall in Hall.
    destruct v as [| |i]; try done. apply bool_decide_eq_true in Hb.
    specialize (Hall i). rewrite <- list_elem_of_In, bool_decide_eq_true in Hall.
    change MAX_ONE_BYTE_UPVOTE with 253 in Hb.
    assert (i <= 253); [|lia]. apply Hall, list_elem_of_fmap. by exists (Upvote i).
  - f_equal. f_equal. rewrite <- list_fmap_compose. apply list_fmap_ext. intros k v Hk. cbn.
    destruct v as [| |i]; [done..|]. apply widen_to_u8.
    apply list_elem_of_lookup_2 in Hk. rewrite Forall_forall in Hv. specialize (Hv _ Hk). cbn in Hv |- *. split; [lia|].
    apply Z.nlt_ge. intros Hlt. apply not_true_iff_false in Hex. apply Hex, existsb_exists.
    exists (Upvote i). rewrite <- list_elem_of_In. split; [done|]. by apply bool_decide_eq_true.
Qed.

(** The votes a block producer encodes are the votes the validator
    counts: whichever width [from_votes] picks, the handler accepts the
    encoding and reads the same votes, if no position collides with the
    two-byte codes for abstaining and alarm. *)
Theorem from_votes_decodes s prev votes :
  Forall (fun v => match v with Upvote i => 0 <= i < ALARM_TWO_BYTES | _ => True end) votes ->
  handle_m4_ack_bundles s prev (from_votes votes) = map_err M4_Votes (handle_m4_votes s (vote_index <$> votes)).
Proof. apply from_votes_read. Qed.

(** ** Expiry of bundles *)

Lemma failed_m6ids_removed bh s h :
  wf (active_sidechains s) ->
  exists d ps, handle_failed_m6ids bh s h = Ok d /\
    apply d h (active_sidechains s) = Ok (set_pending (active_sidechains s) ps) /\
    forall n, ps !! n = survivors (bundle_failed bh h) <$> pending_m6ids (active_sidechains s) !! n.
Proof.
  intros Hwf. set (a := active_sidechains s) in *.
  set (g := fun n => pending ← db_get (pending_m6ids a) n;
    Ok (let failed := enumerate_filter (bundle_failed bh h) 0 pending in
        if decide (failed = []) then None else Some failed)).
  assert (Hg : forall d n, failed_m6ids_slot bh s h d n = (o ← g n; Ok (match o with Some y => <[n := y]> d | None => d end))).
  { intros d n. unfold failed_m6ids_slot, g. fold a. destruct (db_get _ _); cbn; [|done..]. by case_decide. }
  assert (Hnd : NoDup (id <$> numbers a)) by (rewrite list_fmap_id; apply NoDup_numbers).
  destruct (foldM_collect_total id g _ Hg (numbers a) ∅) as [d Hd].
  { intros n Hn. destruct (pending_of_number s n Hwf Hn) as (p & Hp & _). unfold g, db_get. subst a. rewrite Hp. by eexists. }
  destruct (proj1 (foldM_collect id g _ Hg _ d Hnd) Hd) as [Hin Hout].
  assert (Hd' : forall n p, pending_m6ids a !! n = Some p -> pending_wf p /\
    d !! n = let failed := enumerate_filter (bundle_failed bh h) 0 p in if decide (failed = []) then None else Some failed).
  { intros n p Hp. split; [by eapply aw_pending|]. specialize (Hin n ltac:(apply elem_of_numbers, (aw_dom _ Hwf); eauto)).
    unfold g, db_get in Hin. rewrite Hp in Hin. cbn in Hin. by injection Hin. }
  assert (Hnone : forall n, pending_m6ids a !! n = None -> d !! n = None).
  { intros n Hp. apply Hout. rewrite list_fmap_id. rewrite elem_of_numbers. fold a. rewrite <- (aw_dom _ Hwf n), Hp. by intros []. }
  assert (Hrem : forall n f p, d !! n = Some f -> pending_m6ids a !! n = Some p ->
    remove_failed_withdrawals f p = Ok (survivors (bundle_failed bh h) p)).
  { intros n f p Hn Hp. destruct (Hd' n p Hp) as [[Hwp _] E]. rewrite Hn in E. cbn zeta in E. case_decide; [done|].
    injection E as ->. by apply remove_failed_spec. }
  pose proof (NoDup_fst_map_to_list d) as Hndd.
  destruct (keyed_fold_total id (fun _ => remove_failed_withdrawals) (map_to_list d) a Hndd) as [a' Ha].
  { intros n f Hl%elem_of_map_to_list. destruct (pending_m6ids a !! n) as [p|] eqn:Hp; [|by rewrite Hnone in Hl].
    exists p. eexists. split; [done|]. by eapply Hrem. }
  destruct (keyed_fold_inv _ _ _ _ _ Hndd Ha) as (ps & -> & Hpin & Hpout).
  exists d, ps. split_and!; [done|exact Ha|]. intros n. destruct (d !! n) as [f|] eqn:Hn.
  - destruct (Hpin n f) as (p & p' & Hp & Hr & ->); [by apply elem_of_map_to_list|]. rewrite Hp. cbn.
    rewrite (Hrem n f p Hn Hp) in Hr. by injection Hr as <-.
  - rewrite Hpout. 2:{ intros ([k f] & -> & Hl%elem_of_map_to_list)%list_elem_of_fmap. cbn in *. congruence. }
    destruct (pending_m6ids a !! n) as [p|] eqn:Hp; cbn; [|done]. f_equal. destruct (Hd' n p Hp) as [_ E].
    rewrite Hn in E. cbn zeta in E. case_decide as He; [|done]. symmetry. by apply (survivors_all _ _ 0).
Qed.

(** Bundles expire by age alone: on well-formed tables the expiry step
    always succeeds and removes from every slot exactly the bundles older than
    the maximum age, keeping the order of the others and all other tables. *)
Theorem failed_m6ids_spec bh s h :
  wf (active_sidechains s) ->
  exists d ps, handle_failed_m6ids bh s h = Ok d /\
    apply d h (active_sidechains s) = Ok (set_pending (active_sidechains s) ps) /\
    forall n, ps !! n = survivors (bundle_failed bh h) <$> pending_m6ids (active_sidechains s) !! n.
Proof. apply failed_m6ids_removed. Qed.

End Specs.
