(* ===== verification/ConnectBlock.v ===== *)
(** * Connecting and disconnecting blocks ([lib/validator/task/mod.rs])

    [connect_block] runs the handlers over a block, applies each diff as it is
    computed and stores the block's diff; [disconnect_block] undoes it. The
    write transaction is the state that is passed along: on an error the
    caller drops it. *)

From Stdlib Require Import Strings.Byte.
From stdpp Require Import base numbers list gmap.
From S2P Require Import Prelude OrderMap Bitcoin Types Messages M6 Dbs BlockHashes Treasury Diff Reversible Handlers.
Open Scope Z_scope.

(** ** Errors *)

Inductive PartialConnectBlock :=
| BlockParent (parent tip : BlockHash) (tip_height : Z)
| PCB_CoinbaseMessages (e : CoinbaseMessagesError)
| PCB_Db (e : DbError)
| PCB_FailedM6Ids (e : DbError)
| PCB_M2 (e : DbError)
| PCB_M3 (e : HandleM3ProposeBundle)
| PCB_M4 (e : HandleM4AckBundles)
| MultipleBmmBlocks (n : SidechainNumber)
| MultipleBmmRequests (n : SidechainNumber)
| NoCoinbase
| PCB_Transaction (txid : Txid) (hash : BlockHash) (e : HandleTransaction).

Inductive RecordBlock := RB_Db (e : DbError) | RB_PutBlockInfo (e : PutBlockInfoError).

Inductive FinalizeConnectBlock :=
| Record_ (e : RecordBlock)
| UnconsolidatedCtip (o : OutPoint) (n : SidechainNumber).

Inductive ConnectBlockError := CB_Finalize (e : FinalizeConnectBlock) | CB_Partial (e : PartialConnectBlock).

Inductive DisconnectBlockError :=
| DB_Db (e : DbError)
| DB_GetHeaderInfo (e : GetHeaderInfoError)
| DB_TipHash (hash tip_hash : BlockHash)
| DB_Undo (e : UndoError).

Definition partial_fatal (e : PartialConnectBlock) : bool :=
  match e with
  | PCB_Db _ | PCB_FailedM6Ids _ | PCB_M2 _ => true
  | PCB_M3 e => m3_fatal e
  | PCB_M4 e => m4_fatal e
  | PCB_Transaction _ _ e => transaction_fatal e
  | _ => false
  end.

Definition connect_block_fatal (e : ConnectBlockError) : bool :=
  match e with
  | CB_Finalize (Record_ _) => true
  | CB_Finalize (UnconsolidatedCtip _ _) => false
  | CB_Partial e => partial_fatal e
  end.

(** ** [DiffBuilder] *)

Record DiffBuilder (D DB : Type) := mkDiffBuilder { builder_dbs : DB; builder_diffs : list D }.
Arguments mkDiffBuilder {_ _} _ _.
Arguments builder_dbs {_ _} _.
Arguments builder_diffs {_ _} _.

Definition diff_builder_new {D DB} (s : DB) : DiffBuilder D DB := mkDiffBuilder s [].

Definition diff_builder_apply {D DB} `{Diff D DB} (h : Z) (d : D) (b : DiffBuilder D DB) : Res DbError (DiffBuilder D DB) :=
  s ← apply d h (builder_dbs b); Ok (mkDiffBuilder s (builder_diffs b ++ [d])).

Record PartiallyConnectedBlockInfo := mkPartiallyConnected {
  pc_header_info : HeaderInfo;
  pc_block_info : BlockInfo;
  pc_diff : BlockDiff;
  pc_unconsolidated : UnconsolidatedCtips }.

Section ConnectBlock.
Context `{Bitcoin, Nom}.
Implicit Types (bh : BlockHandler) (s : Dbs).

Definition handle_coinbase_message bh s (h : Z) (prev_block_hash : BlockHash) (accepted : BmmCommitments)
    (message : CoinbaseMessage)
    : Res PartialConnectBlock (option CoinbaseMessageEvent * option CoinbaseMsg * BmmCommitments) :=
  match message with
  | CM_M1 (mkM1 n description) =>
      match handle_m1_propose_sidechain s (mkSidechainProposal n description) h with
      | Some d => Ok (Some (NewSidechainProposalEvent (nsp_sidechain d)), Some (D_NewSidechainProposal d), accepted)
      | None => Ok (None, None, accepted)
      end
  | CM_M2 (mkM2 n description_hash) =>
      d ← map_err PCB_M2 (handle_m2_ack_sidechain bh s h n description_hash);
      Ok (None, option_map D_AckSidechainProposal d, accepted)
  | CM_M3 (mkM3 n bundle_txid) =>
      d ← map_err PCB_M3 (handle_m3_propose_bundle s n bundle_txid);
      Ok (Some (CoinbaseWithdrawalBundle (mkWithdrawalBundleEvent n bundle_txid Submitted)),
          Some (D_ProposeBundle d), accepted)
  | CM_M4 m4 =>
      d ← map_err PCB_M4 (handle_m4_ack_bundles s prev_block_hash m4);
      Ok (None, if decide (d = ∅) then None else Some (D_AckBundles d), accepted)
  | CM_M7 (mkM7 n sidechain_block_hash) =>
      if om_contains n accepted then Err (MultipleBmmBlocks n)
      else Ok (None, None, lhm_insert n sidechain_block_hash accepted)
  end.

(** [ensure_tip_is_parent]; a missing height counts as 0. *)
Definition ensure_tip_is_parent s (parent : BlockHash) : Res PartialConnectBlock unit :=
  let mismatch tip := Err (BlockParent parent tip (default 0 (height (block_hashes s) !! tip))) in
  match current_chain_tip s with
  | Some tip => if decide (parent = tip) then Ok tt else mismatch tip
  | None => if decide (parent = all_zeros) then Ok tt else mismatch all_zeros
  end.

Definition empty_block_info_and_diff (txid : Txid) : BlockInfo * BlockDiff :=
  (mkBlockInfo [] txid [], mkBlockDiff (mkCoinbaseDiff [] ∅ ∅) []).

(** *** The loops of [partial_connect_block] *)

(** Collecting the messages: the map records the first output of each M1. *)
Definition collect_message (st : CoinbaseMessages * gmap (SidechainNumber * Hash) Z) (e : nat * TxOut)
    : Res CoinbaseMessagesError (CoinbaseMessages * gmap (SidechainNumber * Hash) Z) :=
  let '(ms, m1s) := st in
  let '(vout, out) := e in
  match coinbase_message_parse (script_pubkey out) with
  | None => Ok (ms, m1s)
  | Some (_, message) =>
      let m1s := match message with
                 | CM_M1 (mkM1 n description) =>
                     let k := (n, sha256d description) in
                     match m1s !! k with Some _ => m1s | None => <[k := as_u32 vout]> m1s end
                 | _ => m1s
                 end in
      ms ← push ms message vout; Ok (ms, m1s)
  end.

Definition MessageState : Type := DiffBuilder CoinbaseMsg Dbs * BmmCommitments * list BlockEvent.

Definition message_event (m1s : gmap (SidechainNumber * Hash) Z) (e : option CoinbaseMessageEvent)
    : Res PartialConnectBlock (list BlockEvent) :=
  match e with
  | Some (NewSidechainProposalEvent sc) =>
      let p := sc_proposal sc in
      index ← unwrap (m1s !! (sp_sidechain_number p, sha256d (sp_description p)));
      Ok [BE_SidechainProposal index p]
  | Some (CoinbaseWithdrawalBundle e) => Ok [BE_WithdrawalBundle e]
  | None => Ok []
  end.

Definition connect_message bh (h : Z) (parent : BlockHash) (m1s : gmap (SidechainNumber * Hash) Z)
    (st : MessageState) (m : CoinbaseMessage * nat) : Res PartialConnectBlock MessageState :=
  let '(b, accepted, evs) := st in
  '(event, d, accepted) ← handle_coinbase_message bh (builder_dbs b) h parent accepted m.1;
  new_evs ← message_event m1s event;
  b ← match d with Some d => map_err PCB_Db (diff_builder_apply h d b) | None => Ok b end;
  Ok (b, accepted, evs ++ new_evs).

(** A coinbase without M4 counts as one that abstains for every slot. *)
Definition connect_default_m4 (h : Z) (parent : BlockHash) (m4_exists : bool) (b : DiffBuilder CoinbaseMsg Dbs)
    : Res PartialConnectBlock (DiffBuilder CoinbaseMsg Dbs) :=
  if m4_exists then Ok b else
  let s := builder_dbs b in
  let upvotes := replicate (size (sidechain (active_sidechains s))) ABSTAIN_ONE_BYTE in
  d ← map_err PCB_M4 (handle_m4_ack_bundles s parent (OneByte upvotes));
  if decide (d = ∅) then Ok b else map_err PCB_Db (diff_builder_apply h (D_AckBundles d) b).

Definition failed_m6id_events (d : FailedM6ids) : list BlockEvent :=
  concat ((fun e : SidechainNumber * FailedPositions =>
             (fun f => BE_WithdrawalBundle (mkWithdrawalBundleEvent e.1 f.2.1 Failed)) <$> e.2) <$> map_to_list d).

Record TxState := mkTxState {
  ts_builder : DiffBuilder TxDiff ActiveSidechainDbs;
  ts_unconsolidated : UnconsolidatedCtips;
  ts_bmm_request_slots : gset SidechainNumber;
  ts_events : list BlockEvent }.

(** The transaction loop; [s] holds the tables other than the active
    sidechains, which the loop changes. *)
Definition connect_transaction bh (h : Z) (parent hash : BlockHash) (accepted : BmmCommitments) (s : Dbs)
    (st : TxState) (tx : Transaction) : Res PartialConnectBlock TxState :=
  let '(mkTxState b u slots evs) := st in
  '(handled, u) ← map_err (PCB_Transaction (compute_txid tx) hash)
                    (handle_transaction bh (set_active s (builder_dbs b)) (Some accepted) u parent tx);
  slots ← match parse_m8_tx tx with
          | Some r => if decide (m8_sidechain_number r ∈ slots) then Err (MultipleBmmRequests (m8_sidechain_number r))
                      else Ok ({[m8_sidechain_number r]} ∪ slots)
          | None => Ok slots
          end;
  match handled with
  | None => Ok (mkTxState b u slots evs)
  | Some (tx_event, d) =>
      b ← map_err PCB_Db (diff_builder_apply h d b);
      Ok (mkTxState b u slots
            (evs ++ [match tx_event with
                     | Deposits deposits => BE_Deposits deposits
                     | TxWithdrawalBundle e => BE_WithdrawalBundle e
                     end]))
  end.

(** The part of [partial_connect_block] above the activation height. *)
Definition process_block bh s (h : Z) (hash parent : BlockHash) (coinbase : Transaction) (txs : list Transaction)
    : Res PartialConnectBlock (Dbs * BlockInfo * BlockDiff * UnconsolidatedCtips) :=
  '(ms, m1s) ← map_err PCB_CoinbaseMessages
                 (foldM collect_message (enumerate (output coinbase)) (coinbase_messages_default, ∅));
  '(b, accepted, evs) ← foldM (connect_message bh h parent m1s) (messages ms) (diff_builder_new s, [], []);
  b ← connect_default_m4 h parent (m4_exists ms) b;
  let s := builder_dbs b in
  let failed_proposals := handle_failed_sidechain_proposals bh s h in
  s ← map_err PCB_Db (on_proposals (apply failed_proposals h) s);
  failed_m6ids ← map_err PCB_FailedM6Ids (handle_failed_m6ids bh s h);
  s ← map_err PCB_Db (on_active (apply failed_m6ids h) s);
  let evs := evs ++ failed_m6id_events failed_m6ids in
  let coinbase_diff := mkCoinbaseDiff (builder_diffs b) failed_proposals failed_m6ids in
  ts ← foldM (connect_transaction bh h parent hash accepted s) txs
         (mkTxState (diff_builder_new (active_sidechains s)) unconsolidated_default ∅ evs);
  Ok (set_active s (builder_dbs (ts_builder ts)), mkBlockInfo accepted (compute_txid coinbase) (ts_events ts),
      mkBlockDiff coinbase_diff (builder_diffs (ts_builder ts)), ts_unconsolidated ts).

Definition partial_connect_block bh s (block : Block) : Res PartialConnectBlock (Dbs * PartiallyConnectedBlockInfo) :=
  let parent := prev_blockhash (header block) in
  _ ← ensure_tip_is_parent s parent;
  let hash := block_hash (header block) in
  h ← map_err PCB_Db (db_get (height (block_hashes s)) hash);
  match txdata block with
  | [] => Err NoCoinbase
  | coinbase :: txs =>
      let header_info := mkHeaderInfo hash parent h (header_work (header block)) (time (header block)) in
      if bool_decide (h < bip300_activation_height (bh_params bh)) then
        let '(block_info, block_diff) := empty_block_info_and_diff (compute_txid coinbase) in
        Ok (s, mkPartiallyConnected header_info block_info block_diff unconsolidated_default)
      else
        '(s, block_info, block_diff, u) ← process_block bh s h hash parent coinbase txs;
        Ok (s, mkPartiallyConnected header_info block_info block_diff u)
  end.

Definition record_block s (hi : HeaderInfo) (bi : BlockInfo) (d : BlockDiff) : Res RecordBlock (Dbs * Event) :=
  let hash := hi_block_hash hi in
  b ← map_err RB_PutBlockInfo (put_block_info (block_hashes s) hash bi d);
  let s := set_block_hashes s b in
  tip_work ← match current_chain_tip s with
             | None => Ok None
             | Some tip => w ← map_err RB_Db (db_get (cumulative_work b) tip); Ok (Some w)
             end;
  work ← map_err RB_Db (db_get (cumulative_work b) hash);
  let more_work := match tip_work with None => true | Some w => bool_decide (w < work) end in
  Ok (if more_work then set_tip s (Some hash) else s, ConnectBlock hi bi).

Definition finalize_connect_block s (p : PartiallyConnectedBlockInfo) : Res FinalizeConnectBlock (Dbs * Event) :=
  match map_to_list (by_outpoint (pc_unconsolidated p)) with
  | (o, (n, _)) :: _ => Err (UnconsolidatedCtip o n)
  | [] => map_err Record_ (record_block s (pc_header_info p) (pc_block_info p) (pc_diff p))
  end.

Definition connect_block bh s (block : Block) : Res ConnectBlockError (Dbs * Event) :=
  '(s, p) ← map_err CB_Partial (partial_connect_block bh s block);
  map_err CB_Finalize (finalize_connect_block s p).

(** The events the caller collects are returned with the tables. *)
Definition disconnect_block s (evs : list Event) (hash : BlockHash) : Res DisconnectBlockError (Dbs * list Event) :=
  match diff (block_hashes s) !! hash with
  | None => Ok (s, evs)
  | Some d =>
      _ ← match current_chain_tip s with
          | Some tip => if decide (tip = hash) then Ok tt else Err (DB_TipHash hash tip)
          | None => Ok tt
          end;
      hi ← map_err DB_GetHeaderInfo (get_header_info (block_hashes s) hash);
      s ← map_err DB_Undo (undo d s);
      let s := if decide (hi_prev_block_hash hi = all_zeros) then set_tip s None
               else set_tip s (Some (hi_prev_block_hash hi)) in
      Ok (s, evs ++ [DisconnectBlock hash])
  end.

End ConnectBlock.
