(* ===== verification/ConnectProofs.v ===== *)
(** * Connecting and disconnecting are inverse

    The diff that [connect_block] stores is valid for the tables it started
    from, so undoing it restores them; [disconnect_block] does that and puts
    the chain tip back. *)

From Stdlib Require Import Strings.Byte.
From stdpp Require Import base numbers list gmap.
From S2P Require Import Prelude OrderMap Bitcoin Types Messages M6 Dbs BlockHashes Treasury Diff Reversible Handlers HandlerProofs ConnectBlock.
Open Scope Z_scope.

(** ** Frame

    Diffs read and change only the active sidechains and the proposals. *)

(** [s], with the other tables of [r]. *)
Definition reframe (r s : Dbs) : Dbs :=
  mkDbs (active_sidechains s) (block_hashes r) (current_chain_tip r) (proposal_id_to_sidechain s)
    (seen_unconsolidated_ctip_outputs r).

Definition frame_only {E} (f : Dbs -> Res E Dbs) : Prop := forall r s, f (reframe r s) = reframe r <$> f s.

Lemma reframe_id s : reframe s s = s.
Proof. by destruct s. Qed.

Lemma frame_only_Ok {E} (f : Dbs -> Res E Dbs) s s' : frame_only f -> f s = Ok s' -> s' = reframe s s'.
Proof. intros Hf E1. pose proof (Hf s s) as E2. rewrite reframe_id, E1 in E2. by injection E2. Qed.

Lemma frame_on_active {E} (f : ActiveSidechainDbs -> Res E ActiveSidechainDbs) : frame_only (on_active f).
Proof. intros r s. unfold on_active. cbn. by destruct (f _). Qed.

Lemma frame_on_proposals {E} (f : gmap SidechainProposalId Sidechain -> Res E (gmap SidechainProposalId Sidechain)) :
  frame_only (on_proposals f).
Proof. intros r s. unfold on_proposals. cbn. by destruct (f _). Qed.

Lemma frame_bind {E} (f g : Dbs -> Res E Dbs) : frame_only f -> frame_only g -> frame_only (fun s => f s ≫= g).
Proof. intros Hf Hg r s. rewrite Hf. destruct (f s); cbn; [apply Hg|done..]. Qed.

Lemma frame_foldM {E A} (f : A -> Dbs -> Res E Dbs) l :
  (forall a, frame_only (f a)) -> frame_only (foldM (fun s a => f a s) l).
Proof. intros Hf r s. apply foldM_frame. intros. apply Hf. Qed.

Lemma frame_ack_apply d h : frame_only (ack_sidechain_proposal_apply d h).
Proof.
  intros r s. unfold ack_sidechain_proposal_apply. cbn.
  destruct (db_get _ _) as [sc| |]; cbn; [|done..]. destruct (u16_incr _); cbn; [|done..].
  by destruct (asp_effect d).
Qed.

Lemma frame_ack_undo d : frame_only (ack_sidechain_proposal_undo d).
Proof.
  intros r s. unfold ack_sidechain_proposal_undo. cbn.
  destruct (asp_effect d); cbn; destruct (db_get _ _) as [sc| |]; cbn; try done; by destruct (ok_or _ _).
Qed.

Lemma frame_msg_apply (d : CoinbaseMsg) h : frame_only (apply d h).
Proof. destruct d; [apply frame_on_active|apply frame_ack_apply|apply frame_on_proposals|apply frame_on_active]. Qed.

Lemma frame_msg_undo (d : CoinbaseMsg) : frame_only (undo d).
Proof. destruct d; [apply frame_on_active|apply frame_ack_undo|apply frame_on_proposals|apply frame_on_active]. Qed.

Lemma frame_block_apply (d : BlockDiff) h : frame_only (apply d h).
Proof.
  apply (frame_bind (apply (bd_coinbase d) h)).
  - apply (frame_bind (foldM (fun s msg => apply msg h s) (cd_msgs (bd_coinbase d)))).
    + apply (frame_foldM (fun m => apply m h)). intros. apply frame_msg_apply.
    + apply (frame_bind (on_proposals _)); [apply frame_on_proposals|apply frame_on_active].
  - apply (frame_foldM (fun tx => on_active (apply tx h))). intros. apply frame_on_active.
Qed.

Lemma frame_block_undo (d : BlockDiff) : frame_only (undo d).
Proof.
  apply (frame_bind (foldM (fun s tx => on_active (undo tx) s) (rev (bd_txs d)))).
  - apply (frame_foldM (fun tx => on_active (undo tx))). intros. apply frame_on_active.
  - apply (frame_bind (on_active _)); [apply frame_on_active|].
    apply (frame_bind (on_proposals _)); [apply frame_on_proposals|].
    apply (frame_foldM (fun m => undo m)). intros. apply frame_msg_undo.
Qed.

(** ** The diffs of a block are valid where they are applied *)

Section Connect.
Context `{Bitcoin, Nom}.
Implicit Types (bh : BlockHandler) (s : Dbs).

Lemma coinbase_message_valid bh s h parent acc m ev d acc' :
  handle_coinbase_message bh s h parent acc m = Ok (ev, Some d, acc') -> valid d h s.
Proof.
  destruct m as [[n desc]|[n hash]|[n txid]|m4|[n c]]; cbn [handle_coinbase_message]; intros Hr.
  - destruct (handle_m1_propose_sidechain _ _ _) eqn:E; [|done]. injection Hr as <- <- <-. by eapply m1_valid.
  - apply bind_Ok in Hr as (o & Ho & Hr). apply map_err_Ok in Ho. destruct o; [|done].
    injection Hr as <- <- <-. by eapply m2_valid.
  - apply bind_Ok in Hr as (o & Ho & Hr). apply map_err_Ok in Ho. injection Hr as <- <- <-. by eapply m3_valid.
  - apply bind_Ok in Hr as (o & Ho & Hr). apply map_err_Ok in Ho. case_decide; [done|].
    injection Hr as <- <- <-. by eapply m4_valid.
  - destruct (om_contains _ _); done.
Qed.

Lemma builder_run {D DB} `{DiffLaws D DB} h (d : D) (b b' : DiffBuilder D DB) (s0 : DB) :
  run h (builder_diffs b) s0 (builder_dbs b) -> valid d h (builder_dbs b) ->
  diff_builder_apply h d b = Ok b' -> run h (builder_diffs b') s0 (builder_dbs b').
Proof.
  intros Hr Hv Ha. unfold diff_builder_apply in Ha. res_inv. cbn. by eapply run_snoc.
Qed.

Lemma connect_message_run bh h parent m1s st m st' s0 :
  run h (builder_diffs st.1.1) s0 (builder_dbs st.1.1) -> connect_message bh h parent m1s st m = Ok st' ->
  run h (builder_diffs st'.1.1) s0 (builder_dbs st'.1.1).
Proof.
  destruct st as [[b acc] evs]. cbn. intros Hr Hc. unfold connect_message in Hc.
  apply bind_Ok in Hc as ([[ev d] acc'] & Hm & Hc). apply bind_Ok in Hc as (nev & _ & Hc).
  apply bind_Ok in Hc as (b1 & Hb & Hc). injection Hc as <-. cbn.
  destruct d as [d|]; [|by injection Hb as <-]. apply map_err_Ok in Hb.
  eapply (builder_run h d b b1 s0 Hr); [|exact Hb]. by eapply coinbase_message_valid.
Qed.

Lemma connect_messages_run bh h parent m1s ms b acc evs st' s0 :
  run h (builder_diffs b) s0 (builder_dbs b) ->
  foldM (connect_message bh h parent m1s) ms (b, acc, evs) = Ok st' ->
  run h (builder_diffs st'.1.1) s0 (builder_dbs st'.1.1).
Proof.
  intros Hr Hf.
  eapply (foldM_invariant (fun st : MessageState => run h (builder_diffs st.1.1) s0 (builder_dbs st.1.1)));
    [| |exact Hf]; [|exact Hr].
  intros. by eapply connect_message_run.
Qed.

Lemma connect_default_m4_run h parent ex b b' s0 :
  run h (builder_diffs b) s0 (builder_dbs b) -> connect_default_m4 h parent ex b = Ok b' ->
  run h (builder_diffs b') s0 (builder_dbs b').
Proof.
  intros Hr. unfold connect_default_m4. destruct ex; [by intros [= <-]|]. intros Hc.
  apply bind_Ok in Hc as (d & Hd & Hc). apply map_err_Ok in Hd. case_decide; [by injection Hc as <-|].
  apply map_err_Ok in Hc. eapply (builder_run h (D_AckBundles d) b b' s0 Hr); [|exact Hc]. exact (m4_valid _ _ _ _ h Hd).
Qed.

(** *** The treasury outputs in the tables *)

Definition known (a : ActiveSidechainDbs) (o : OutPoint) : Prop := is_Some (ctip_outpoint_to_value_seq a !! o).

(** The CTIPs and the outpoints of all treasury UTXOs. *)
Definition treasury_tables (a : ActiveSidechainDbs) :
  gmap SidechainNumber Ctip * gmap OutPoint (SidechainNumber * Amount * Z) := (ctip a, ctip_outpoint_to_value_seq a).

Lemma msg_apply_treasury (d : CoinbaseMsg) h s s' :
  apply d h s = Ok s' -> treasury_tables (active_sidechains s') = treasury_tables (active_sidechains s).
Proof.
  destruct d as [d|d|d|d]; intros Ha.
  - apply on_active_Ok in Ha as (a & Ha & ->). cbn in Ha. rewrite ack_bundles_apply_keyed in Ha.
    apply keyed_fold_inv in Ha as (ps & -> & _); [done|apply NoDup_fst_map_to_list].
  - cbn in Ha. unfold ack_sidechain_proposal_apply in Ha. res_inv. by destruct (asp_effect d); res_inv.
  - by apply on_proposals_Ok in Ha as (p & _ & ->).
  - apply on_active_Ok in Ha as (a & Ha & ->). by apply with_pending_Ok in Ha as (? & ? & _ & _ & ->).
Qed.

Lemma run_msgs_treasury h (ds : list CoinbaseMsg) s s' :
  run h ds s s' -> treasury_tables (active_sidechains s') = treasury_tables (active_sidechains s).
Proof. induction 1; [done|]. erewrite msg_apply_treasury by done. done. Qed.

Lemma failed_m6ids_treasury (d : FailedM6ids) h a a' :
  apply d h a = Ok a' -> treasury_tables a' = treasury_tables a.
Proof.
  intros Ha. apply (keyed_fold_inv id (fun _ => remove_failed_withdrawals)) in Ha as (ps & -> & _); [done|].
  apply NoDup_fst_map_to_list.
Qed.

Lemma put_new_ctip_known a e a' o :
  put_new_ctip a e = Ok a' -> known a' o -> known a o \/ o = ctip_outpoint e.2.
Proof.
  unfold put_new_ctip, put_ctip, known. intros Hp. res_inv. cbn. rewrite lookup_insert_is_Some.
  intros [<-|[_ ?]]; [by right|by left].
Qed.

Lemma tx_apply_known (d : TxDiff) h a a' o :
  apply d h a = Ok a' -> known a' o ->
  known a o \/ match d with D_M5 d => exists n c, new_ctips d !! n = Some c /\ o = ctip_outpoint c
               | D_M6 d => o = ctip_outpoint (m6_new_ctip d) end.
Proof.
  destruct d as [d|d]; intros Ha Hk.
  - cbn in Ha. revert Ha Hk. assert (Hl : forall n c, (n, c) ∈ map_to_list (new_ctips d) -> new_ctips d !! n = Some c).
    { intros n c. by rewrite elem_of_map_to_list. }
    revert a Hl. generalize (map_to_list (new_ctips d)) as l. induction l as [|[n c] l IH]; intros a Hl Ha Hk.
    + cbn in Ha. injection Ha as <-. by left.
    + cbn [foldM] in Ha. apply bind_Ok in Ha as (a1 & E1 & Ha).
      destruct (IH a1) as [Hk1|?]; [intros; apply Hl; by right|done|done| |by right].
      eapply put_new_ctip_known in E1 as [?| ->]; [by left| |done]. right. exists n, c. split; [apply Hl; by left|done].
  - cbn in Ha. apply bind_Ok in Ha as (a1 & E1 & Ha). apply with_pending_Ok in Ha as (? & ? & _ & _ & ->).
    by eapply put_new_ctip_known in E1.
Qed.

Lemma transaction_outpoints bh s acc u parent tx ev d u' h a' o :
  handle_transaction bh s acc u parent tx = Ok (Some (ev, d), u') -> apply d h (active_sidechains s) = Ok a' ->
  known a' o -> known (active_sidechains s) o \/ op_txid o = compute_txid tx.
Proof.
  intros Hr Ha Hk. destruct (tx_apply_known _ _ _ _ _ Ha Hk) as [?|Hnew]; [by left|right].
  unfold handle_transaction in Hr. apply bind_Ok in Hr as ([r u1] & Hr & Hrest). apply map_err_Ok in Hr. res_inv.
  destruct r as [r|]; [|done]. apply handle_m5_m6_outcome in Hr as (infos & Hs & Ho & _).
  assert (Hout : forall n info, infos !! n = Some info -> op_txid (ctip_outpoint (ctip_output info)) = compute_txid tx).
  { intros n info Hi. by destruct (fs_output _ _ _ _ _ _ Hs _ _ Hi) as (v & out & _ & _ & ->). }
  destruct r as [ds d'|n m q d']; simplify_eq/=.
  - destruct Hnew as (n & c & Hn & ->). destruct (m5_new_ctip bh s tx infos ds d' n c Ho Hn) as (i & Hi & -> & _). by eapply Hout.
  - destruct Ho as (info & Hl & _ & _ & _ & -> & _). apply (Hout n). apply elem_of_map_to_list. rewrite Hl. by left.
Qed.

(** *** Processing a block *)

(** The transactions of a block have new, distinct ids. *)
Definition txs_fresh (txs : list Transaction) (a : ActiveSidechainDbs) : Prop :=
  NoDup (compute_txid <$> txs) /\ Forall (fun tx => txid_fresh tx a /\ outputs_bounded tx) txs.

Lemma connect_transactions_run bh h parent hash acc s txs u slots evs ts' :
  txs_fresh txs (active_sidechains s) ->
  foldM (connect_transaction bh h parent hash acc s) txs
    (mkTxState (diff_builder_new (active_sidechains s)) u slots evs) = Ok ts' ->
  run h (builder_diffs (ts_builder ts')) (active_sidechains s) (builder_dbs (ts_builder ts')).
Proof.
  intros [Hnd Hfr] Hf. set (a0 := active_sidechains s) in *.
  apply (foldM_prefix (fun pre ts =>
    run h (builder_diffs (ts_builder ts)) a0 (builder_dbs (ts_builder ts)) /\
    (forall o, known (builder_dbs (ts_builder ts)) o -> known a0 o \/ op_txid o ∈ compute_txid <$> pre))) in Hf;
    [by destruct Hf| |split; [constructor|by left]].
  intros pre tx [b u1 sl1 ev1] ts2 [rest Hpre] [Hr Hk] Hstep. cbn [ts_builder] in *. unfold connect_transaction in Hstep.
  apply bind_Ok in Hstep as ([handled u2] & Hh & Hstep). apply map_err_Ok in Hh.
  apply bind_Ok in Hstep as (sl2 & _ & Hstep).
  assert (Hkeep : forall o, known (builder_dbs b) o -> known a0 o \/ op_txid o ∈ compute_txid <$> pre ++ [tx]).
  { intros o Ho. rewrite fmap_app, elem_of_app. destruct (Hk o Ho); [by left|right; by left]. }
  destruct handled as [[ev d]|]; [|by injection Hstep as <-].
  apply bind_Ok in Hstep as (b2 & Hb & Hstep). apply map_err_Ok in Hb. injection Hstep as <-. cbn.
  assert (Htx : txid_fresh tx (builder_dbs b) /\ outputs_bounded tx).
  { rewrite Forall_forall in Hfr. destruct (Hfr tx) as [Hf0 ?].
    { rewrite Hpre, !elem_of_app. left. right. by left. }
    split; [|done]. intros o Ho. apply eq_None_not_Some. intros Hs. destruct (Hk o Hs) as [Hk0|Hin].
    - specialize (Hf0 o Ho). unfold outpoint_fresh in Hf0. unfold known in Hk0. rewrite Hf0 in Hk0. by destruct Hk0.
    - rewrite Hpre, !fmap_app in Hnd. apply NoDup_app in Hnd as (Hnd & _ & _).
      apply NoDup_app in Hnd as (_ & Hd & _). apply (Hd _ Hin). rewrite Ho. by left. }
  destruct Htx as [Htx Hob]. split.
  - eapply (builder_run h d b b2 a0 Hr); [|exact Hb]. exact (transaction_valid bh (set_active s (builder_dbs b)) _ _ _ tx ev d _ h Htx Hob Hh).
  - intros o Ho. unfold diff_builder_apply in Hb. apply bind_Ok in Hb as (a2 & Ha & [= <-]). cbn in Ho.
    destruct (transaction_outpoints bh (set_active s (builder_dbs b)) _ _ _ tx ev d _ h a2 o Hh Ha Ho) as [Hk'|Ht].
    + by apply Hkeep.
    + right. rewrite fmap_app, elem_of_app. right. rewrite Ht. by left.
Qed.

Lemma process_block_valid bh s h hash parent cb txs s' bi d u :
  txs_fresh txs (active_sidechains s) ->
  process_block bh s h hash parent cb txs = Ok (s', bi, d, u) ->
  valid d h s /\ apply d h s = Ok s'.
Proof.
  intros Hfr Hp. unfold process_block in Hp. apply bind_Ok in Hp as ([ms m1s] & _ & Hp).
  apply bind_Ok in Hp as ([[b0 acc] evs] & Hms & Hp). apply bind_Ok in Hp as (b & Hm4 & Hp).
  eapply (connect_messages_run _ _ _ _ _ (diff_builder_new s) [] [] _ s) in Hms; [|constructor]. cbn in Hms.
  apply (connect_default_m4_run _ _ _ _ _ s Hms) in Hm4. clear Hms. set (s1 := builder_dbs b) in *.
  apply bind_Ok in Hp as (s2 & Hfp & Hp). apply map_err_Ok in Hfp.
  apply bind_Ok in Hp as (fm & Hfm & Hp). apply map_err_Ok in Hfm.
  apply bind_Ok in Hp as (s3 & Hfm' & Hp). apply map_err_Ok in Hfm'.
  apply bind_Ok in Hp as (ts & Hts & Hp). injection Hp as <- <- <- <-.
  pose proof (failed_proposals_valid bh s1 h) as Hv1.
  assert (Ea : active_sidechains s2 = active_sidechains s1) by (by apply on_proposals_Ok in Hfp as (p & _ & ->)).
  pose proof (failed_m6ids_valid bh s2 h fm Hfm) as Hv2. rewrite Ea in Hv2.
  assert (Hcb : apply (mkCoinbaseDiff (builder_diffs b) (handle_failed_sidechain_proposals bh s1 h) fm) h s = Ok s3).
  { rewrite coinbase_apply_eq. cbn [cd_msgs cd_failed_proposals cd_failed_m6ids].
    rewrite (run_apply _ _ _ _ Hm4). cbn [mbind Res_bind]. rewrite Hfp. cbn [mbind Res_bind]. done. }
  apply connect_transactions_run in Hts.
  2:{ assert (E : treasury_tables (active_sidechains s3) = treasury_tables (active_sidechains s)).
      { apply on_active_Ok in Hfm' as (a3 & E3 & ->). cbn [active_sidechains set_active].
        rewrite (failed_m6ids_treasury _ _ _ _ E3), Ea. by apply (run_msgs_treasury h (builder_diffs b)). }
      apply (f_equal snd) in E. cbn in E.
      destruct Hfr as [Hnd Hfr]. split; [done|]. eapply Forall_impl; [exact Hfr|]. intros tx [Ht ?]. split; [|done].
      intros o Ho. specialize (Ht o Ho). unfold outpoint_fresh in *. by rewrite E. }
  split.
  - split; [by exists s1|]. exists s3, (builder_dbs (ts_builder ts)). done.
  - rewrite block_apply_eq. cbn [bd_coinbase bd_txs]. rewrite Hcb. cbn [mbind Res_bind].
    unfold on_active. rewrite (run_apply _ _ _ _ Hts). done.
Qed.

End Connect.

(** ** Connect and disconnect *)

Section Inverse.
Context `{Bitcoin, !BitcoinLaws, Nom}.
Implicit Types (bh : BlockHandler) (s : Dbs).

(** What the caller guarantees of a block it connects: the header is stored,
    and the transactions after the coinbase are new. *)
Record block_ok (block : Block) (s : Dbs) : Prop := {
  bo_header : headers (block_hashes s) !! block_hash (header block) = Some (header block);
  bo_txs : txs_fresh (tail (txdata block)) (active_sidechains s);
  bo_tip : current_chain_tip s <> Some all_zeros }.

Lemma empty_block_valid txid h s : valid (empty_block_info_and_diff txid).2 h s /\
  apply (empty_block_info_and_diff txid).2 h s = Ok s.
Proof.
  assert (E : apply (bd_coinbase (empty_block_info_and_diff txid).2) h s = Ok s).
  { rewrite coinbase_apply_eq. cbn. unfold on_proposals. cbn. rewrite map_to_list_empty. cbn.
    unfold on_active. cbn. rewrite map_to_list_empty. cbn. by destruct s. }
  split; [split|].
  - exists s. split_and!; [constructor|apply map_empty_subseteq|]. exists (fun _ => false). apply map_Forall_empty.
  - exists s, (active_sidechains s). split; [exact E|constructor].
  - rewrite block_apply_eq, E. cbn. unfold on_active. cbn. by destruct s.
Qed.

Lemma partial_connect_valid bh s block s' p :
  block_ok block s -> partial_connect_block bh s block = Ok (s', p) ->
  exists h, height (block_hashes s) !! block_hash (header block) = Some h /\
    valid (pc_diff p) h s /\ apply (pc_diff p) h s = Ok s' /\
    hi_block_hash (pc_header_info p) = block_hash (header block) /\
    (current_chain_tip s = Some (prev_blockhash (header block)) \/
     current_chain_tip s = None /\ prev_blockhash (header block) = all_zeros).
Proof.
  intros [_ Hfr _] Hp. unfold partial_connect_block in Hp. apply bind_Ok in Hp as ([] & Htip & Hp).
  apply bind_Ok in Hp as (h & Hh & Hp). apply map_err_Ok, ok_or_Ok in Hh. exists h. split; [done|].
  assert (Ht : current_chain_tip s = Some (prev_blockhash (header block)) \/
     current_chain_tip s = None /\ prev_blockhash (header block) = all_zeros).
  { unfold ensure_tip_is_parent in Htip. destruct (current_chain_tip s); case_decide; subst; naive_solver. }
  destruct (txdata block) as [|cb txs]; [done|]. cbn [tail] in Hfr. case_bool_decide.
  - destruct (empty_block_valid (compute_txid cb) h s) as [Hv Ha].
    cbn in Hp. injection Hp as <- <-. split_and!; try done.
  - apply bind_Ok in Hp as ([[[s1 bi] d] u] & Hp & Hq). injection Hq as <- <-.
    destruct (process_block_valid _ _ _ _ _ _ _ _ _ _ _ Hfr Hp). done.
Qed.

Lemma record_block_Ok s hi bi d s' ev hd :
  headers (block_hashes s) !! hi_block_hash hi = Some hd ->
  (current_chain_tip s = Some (prev_blockhash hd) \/ current_chain_tip s = None /\ prev_blockhash hd = all_zeros) ->
  current_chain_tip s <> Some all_zeros ->
  record_block s hi bi d = Ok (s', ev) ->
  exists b, s' = set_tip (set_block_hashes s b) (Some (hi_block_hash hi)) /\
    diff b !! hi_block_hash hi = Some d /\ headers b = headers (block_hashes s) /\ height b = height (block_hashes s) /\
    ev = ConnectBlock hi bi.
Proof.
  intros Hh Htip Hnz Hr. unfold record_block, put_block_info in Hr. rewrite Hh in Hr. cbn [ok_or mbind Res_bind map_err] in Hr.
  set (hash := hi_block_hash hi) in *.
  apply bind_Ok in Hr as (b & Hb & Hr). apply map_err_Ok, bind_Ok in Hb as (w & Hw & [= <-]). cbn in Hr.
  apply bind_Ok in Hr as (tw & Htw & Hr). unfold db_get in Hr. cbn in Hr. rewrite lookup_insert_eq in Hr. cbn in Hr.
  match type of Hr with context [set_block_hashes s ?b] => exists b end. split.
  2:{ cbn. split_and!; [apply lookup_insert_eq|done..|]. by injection Hr. }
  destruct Htip as [Htip|[Htip Hz]]; rewrite Htip in Htw.
  - apply bind_Ok in Htw as (tw' & Htw & [= <-]). apply map_err_Ok, ok_or_Ok in Htw. cbn in Htw.
    injection Hr as <- <-. destruct (decide (prev_blockhash hd = hash)) as [He|Hne].
    + unfold set_tip, set_block_hashes. cbn. rewrite Htip, He. by case_bool_decide.
    + rewrite lookup_insert_ne in Htw by congruence. rewrite decide_False in Hw by congruence.
      rewrite Htw in Hw. injection Hw as <-. pose proof (header_work_pos hd).
      by rewrite bool_decide_eq_true_2 by lia.
  - injection Htw as <-. by injection Hr as <- <-.
Qed.

(** What a block leaves in the per-block tables under its hash. *)
Definition agree_at (hash : BlockHash) (b b' : BlockHashDbs) : Prop :=
  diff b !! hash = diff b' !! hash /\ headers b !! hash = headers b' !! hash /\ height b !! hash = height b' !! hash /\
  (has_info b hash <-> has_info b' hash).

(** The two tables agree on the consensus state. *)
Definition same_core (s s' : Dbs) : Prop :=
  active_sidechains s = active_sidechains s' /\ proposal_id_to_sidechain s = proposal_id_to_sidechain s' /\
  current_chain_tip s = current_chain_tip s'.

#[global] Instance same_core_equiv : Equivalence same_core.
Proof. split; unfold same_core; repeat intro; naive_solver congruence. Qed.

(** [r] with the consensus state of [s]. *)
Definition with_core (r s : Dbs) : Dbs :=
  mkDbs (active_sidechains s) (block_hashes r) (current_chain_tip s) (proposal_id_to_sidechain s)
    (seen_unconsolidated_ctip_outputs r).

(** Disconnecting from tables [r] that still hold the block, whatever happened
    to the rest of the per-block tables. *)
Lemma disconnect_restores bh s block s' ev evs r :
  wf s -> block_ok block s -> connect_block bh s block = Ok (s', ev) ->
  same_core r s' -> agree_at (block_hash (header block)) (block_hashes r) (block_hashes s') ->
  disconnect_block r evs (block_hash (header block))
  = Ok (with_core r s, evs ++ [DisconnectBlock (block_hash (header block))]).
Proof.
  intros Hwf Hok Hc (Ca & Cp & Ct) (Ad & Ah & Ak & _). unfold connect_block in Hc. apply bind_Ok in Hc as ([s1 p] & Hp & Hf).
  apply map_err_Ok in Hp, Hf. destruct (partial_connect_valid _ _ _ _ _ Hok Hp) as (h & Hh & Hv & Ha & Hhash & Htip).
  pose proof (frame_only_Ok _ _ _ (frame_block_apply (pc_diff p) h) Ha) as E1.
  assert (Eb : block_hashes s1 = block_hashes s) by by rewrite E1.
  assert (Et : current_chain_tip s1 = current_chain_tip s) by by rewrite E1.
  unfold finalize_connect_block in Hf. destruct (map_to_list _) as [|[o [n v]] l]; [|done]. apply map_err_Ok in Hf.
  destruct Hok as [Hhd _ Hnz]. rewrite <- Eb, <- Hhash in Hhd. rewrite <- Et in Htip, Hnz.
  destruct (record_block_Ok _ _ _ _ _ _ _ Hhd Htip Hnz Hf) as (b1 & -> & Hd & Ehd & Eh & _).
  rewrite Hhash in *. rewrite <- Eb in Hh. cbn in Ca, Cp, Ct, Ad, Ah, Ak.
  unfold disconnect_block. rewrite Ad, Hd, Ct, decide_True by done. cbn [mbind Res_bind].
  unfold get_header_info, try_get_header_info. rewrite Ah, Ehd, Hhd.
  rewrite bool_decide_eq_true_2 by done. cbn [assert_or_panic mbind Res_bind]. rewrite Ak, Eh, Hh.
  cbn [ok_or map_err mbind Res_bind hi_prev_block_hash].
  replace r with (reframe r s1) at 1 by (unfold reframe; rewrite <- Ca, <- Cp; by destruct r).
  rewrite (frame_block_undo (pc_diff p)), (undo_apply (pc_diff p) h s s1 Hwf Hv Ha). cbn [fmap Res_fmap map_err mbind Res_bind].
  do 2 f_equal. unfold reframe, set_tip, with_core. cbn.
  destruct Htip as [Htip|[Htip Hz]].
  - rewrite decide_False by congruence. by rewrite <- Et, Htip.
  - rewrite decide_True by done. by rewrite <- Et, Htip.
Qed.

(** A connected block leaves the mempool's table alone. *)
Lemma connect_block_seen bh s block s' ev :
  block_ok block s -> connect_block bh s block = Ok (s', ev) ->
  seen_unconsolidated_ctip_outputs s' = seen_unconsolidated_ctip_outputs s.
Proof.
  intros Hok Hc. unfold connect_block in Hc. apply bind_Ok in Hc as ([s1 p] & Hp & Hf).
  apply map_err_Ok in Hp, Hf. destruct (partial_connect_valid _ _ _ _ _ Hok Hp) as (h & _ & _ & Ha & _).
  rewrite (frame_only_Ok _ _ _ (frame_block_apply (pc_diff p) h) Ha) in Hf.
  unfold finalize_connect_block in Hf. destruct (map_to_list _) as [|[o [n v]] l]; [|done]. apply map_err_Ok in Hf.
  unfold record_block in Hf. apply bind_Ok in Hf as (b & _ & Hf). apply bind_Ok in Hf as (tw & _ & Hf).
  apply bind_Ok in Hf as (w & _ & [= <- _]). by destruct (match tw with Some _ => _ | None => _ end).
Qed.

(** C1. Disconnecting undoes connecting: after a block was connected, with its
    header stored and new transaction ids, [disconnect_block] succeeds and
    restores the active sidechains (sidechains, treasuries, pending bundles
    with their votes and order), the proposals and the chain tip; only the
    per-block tables keep the block. *)
Theorem connect_disconnect bh s block s' ev evs :
  wf s -> block_ok block s -> connect_block bh s block = Ok (s', ev) ->
  disconnect_block s' evs (block_hash (header block))
  = Ok (set_block_hashes s (block_hashes s'), evs ++ [DisconnectBlock (block_hash (header block))]).
Proof.
  intros Hwf Hok Hc. rewrite (disconnect_restores bh s block s' ev evs s' Hwf Hok Hc) by done.
  unfold with_core. by rewrite (connect_block_seen _ _ _ _ _ Hok Hc).
Qed.

Lemma connect_block_Ok bh s block s' ev :
  connect_block bh s block = Ok (s', ev) ->
  exists s1 p, partial_connect_block bh s block = Ok (s1, p) /\ by_outpoint (pc_unconsolidated p) = ∅ /\
    record_block s1 (pc_header_info p) (pc_block_info p) (pc_diff p) = Ok (s', ev).
Proof.
  intros Hc. unfold connect_block in Hc. apply bind_Ok in Hc as ([s1 p] & Hp & Hf).
  apply map_err_Ok in Hp, Hf. unfold finalize_connect_block in Hf.
  destruct (map_to_list _) as [|[o [n v]] l] eqn:E; [|done]. apply map_err_Ok in Hf.
  apply map_to_list_empty_iff in E. by exists s1, p.
Qed.

Lemma record_block_event s hi bi d s' ev : record_block s hi bi d = Ok (s', ev) -> ev = ConnectBlock hi bi.
Proof. unfold record_block. intros Hr. do 3 apply bind_Ok in Hr as (? & _ & Hr). by injection Hr as _ <-. Qed.

Lemma record_block_core s hi bi d s' ev :
  record_block s hi bi d = Ok (s', ev) ->
  active_sidechains s' = active_sidechains s /\ proposal_id_to_sidechain s' = proposal_id_to_sidechain s.
Proof.
  unfold record_block. intros Hr. apply bind_Ok in Hr as (b & _ & Hr). apply bind_Ok in Hr as (tw & _ & Hr).
  apply bind_Ok in Hr as (w & _ & [= <- _]). by destruct (match tw with Some _ => _ | None => _ end).
Qed.

(** A block connected above the activation height was processed. *)
Lemma connect_block_process bh s block s' hi bi :
  connect_block bh s block = Ok (s', ConnectBlock hi bi) ->
  bip300_activation_height (bh_params bh) <= hi_height hi ->
  exists cb txs s1 d u, txdata block = cb :: txs /\
    process_block bh s (hi_height hi) (block_hash (header block)) (prev_blockhash (header block)) cb txs = Ok (s1, bi, d, u) /\
    by_outpoint u = ∅ /\ active_sidechains s' = active_sidechains s1 /\
    proposal_id_to_sidechain s' = proposal_id_to_sidechain s1.
Proof.
  intros Hc Hh. apply connect_block_Ok in Hc as (s1 & p & Hp & Hu & Hr). pose proof (record_block_event _ _ _ _ _ _ Hr) as [= -> ->].
  apply record_block_core in Hr as [Ea Ep]. unfold partial_connect_block in Hp.
  apply bind_Ok in Hp as (? & _ & Hp). apply bind_Ok in Hp as (h & _ & Hp).
  destruct (txdata block) as [|cb txs]; [done|]. exists cb, txs. case_bool_decide as Hlt; cbn in Hp.
  - injection Hp as _ <-. cbn in Hh. lia.
  - apply bind_Ok in Hp as ([[[s2 bi] d] u] & Hp & Hq). injection Hq as <- <-. cbn in *. by exists s2, d, u.
Qed.

Lemma dbs_new_wf : wf dbs_new.
Proof.
  split; [|apply map_Forall_empty]. split; cbn.
  - intros n. by rewrite !lookup_empty.
  - intros n p. by rewrite lookup_empty.
  - exists TreasurySpec.init. apply treasury_repr_empty.
Qed.

Lemma connect_block_keeps_wf bh s block s' ev :
  wf s -> block_ok block s -> connect_block bh s block = Ok (s', ev) -> wf s'.
Proof.
  intros Hwf Hok Hc. apply connect_block_Ok in Hc as (s1 & p & Hp & _ & Hr).
  destruct (partial_connect_valid _ _ _ _ _ Hok Hp) as (h & _ & Hv & Ha & _).
  destruct (apply_wf (pc_diff p) h s s1 Hwf Hv Ha) as [Hw1 Hw2].
  apply record_block_core in Hr as [Ea Ep]. split; [by rewrite Ea|by rewrite Ep].
Qed.

(** C5. Connecting a block keeps the tables well formed: every active slot and
    no other has a list of pending bundles, without repeated ids and with
    16-bit vote counts; the four treasury tables describe one history of
    treasury UTXOs per slot; every proposal is stored under its id, is not
    activated and has a 16-bit vote count. The empty tables are well formed. *)
Theorem connect_block_wf bh s block s' ev :
  wf dbs_new /\ (wf s -> block_ok block s -> connect_block bh s block = Ok (s', ev) -> wf s').
Proof. split; [apply dbs_new_wf|apply connect_block_keeps_wf]. Qed.

End Inverse.
