(* ===== verification/Reorg.v ===== *)
(** * Reorganisations

    Any sequence of connected and disconnected blocks leaves the consensus
    state (the active sidechains, the proposals and the tip) that belongs to
    the blocks still on the chain: disconnecting always returns to the state
    before the block, and connecting depends on nothing else. *)

From Stdlib Require Import Strings.Byte.
From stdpp Require Import base numbers list gmap.
From S2P Require Import Prelude OrderMap Bitcoin Types Messages M6 Dbs BlockHashes Treasury Diff Reversible Handlers HandlerProofs ConnectBlock ConnectProofs.
Open Scope Z_scope.

(** ** The consensus state *)

Lemma same_core_wf `{Bitcoin} s s' : same_core s s' -> wf s -> wf s'.
Proof. intros (Ea & Ep & _) [Ha Hp]. split; [by rewrite <- Ea|by rewrite <- Ep]. Qed.

Lemma agree_at_refl x b : agree_at x b b.
Proof. done. Qed.

Lemma agree_at_sym x b b' : agree_at x b b' -> agree_at x b' b.
Proof. intros (? & ? & ? & ?). done. Qed.

Lemma agree_at_trans x b b' b'' : agree_at x b b' -> agree_at x b' b'' -> agree_at x b b''.
Proof. intros (E1 & E2 & E3 & E4) (? & ? & ? & E). split_and!; [congruence..|by rewrite E4]. Qed.

(** ** Connecting depends on the consensus state

    What a block reads besides it: its own height and its parent's diff. *)

Section Frame.
Context `{Bitcoin, Nom}.
Implicit Types (bh : BlockHandler) (r s : Dbs).

(** [r] and [s] store the same diff for the parent, if there is one. *)
Definition same_parent_diff (parent : BlockHash) r s : Prop :=
  parent = all_zeros \/ diff (block_hashes r) !! parent = diff (block_hashes s) !! parent.

Lemma handle_m4_reframe r s parent m4 :
  same_parent_diff parent r s -> handle_m4_ack_bundles (reframe r s) parent m4 = handle_m4_ack_bundles s parent m4.
Proof.
  intros Hd. destruct m4; try done. unfold handle_m4_ack_bundles, handle_m4_repeat_previous, db_get. cbn.
  destruct Hd as [->|Hd]; [by rewrite !decide_True|]. by rewrite Hd.
Qed.

Lemma handle_message_reframe bh r s h parent acc m :
  same_parent_diff parent r s ->
  handle_coinbase_message bh (reframe r s) h parent acc m = handle_coinbase_message bh s h parent acc m.
Proof. intros Hd. destruct m as [[]|[]|[]|m4|[]]; try done. cbn. by rewrite handle_m4_reframe. Qed.

Definition reframe_builder {D} r (b : DiffBuilder D Dbs) : DiffBuilder D Dbs :=
  mkDiffBuilder (reframe r (builder_dbs b)) (builder_diffs b).

Lemma apply_reframe h (d : CoinbaseMsg) r b :
  diff_builder_apply h d (reframe_builder r b) = reframe_builder r <$> diff_builder_apply h d b.
Proof. unfold diff_builder_apply. cbn [builder_dbs reframe_builder]. rewrite frame_msg_apply. by destruct (apply d h _). Qed.

Definition reframe_messages r (st : MessageState) : MessageState := (reframe_builder r st.1.1, st.1.2, st.2).

(** The block tables do not change while messages are processed. *)
Lemma apply_msg_tables (d : CoinbaseMsg) h s s' : apply d h s = Ok s' -> block_hashes s' = block_hashes s.
Proof. intros Ha. by rewrite (frame_only_Ok _ _ _ (frame_msg_apply d h) Ha). Qed.

Lemma connect_message_reframe bh h parent m1s r st m :
  same_parent_diff parent r (builder_dbs st.1.1) ->
  connect_message bh h parent m1s (reframe_messages r st) m = reframe_messages r <$> connect_message bh h parent m1s st m.
Proof.
  destruct st as [[b acc] evs]. intros Hd. unfold connect_message, reframe_messages.
  cbn [fst snd builder_dbs reframe_builder] in *. rewrite handle_message_reframe by done.
  destruct (handle_coinbase_message _ _ _ _ _ _) as [[[ev d] acc']| |]; cbn [mbind Res_bind fmap Res_fmap]; [|done..].
  destruct (message_event m1s ev); cbn [mbind Res_bind fmap Res_fmap]; [|done..]. destruct d as [d|]; [|done].
  fold (reframe_builder r b). rewrite apply_reframe. by destruct (diff_builder_apply h d b).
Qed.

Lemma connect_message_tables bh h parent m1s st m st' :
  connect_message bh h parent m1s st m = Ok st' -> block_hashes (builder_dbs st'.1.1) = block_hashes (builder_dbs st.1.1).
Proof.
  destruct st as [[b acc] evs]. intros Hc. unfold connect_message in Hc.
  apply bind_Ok in Hc as ([[ev d] acc'] & _ & Hc). apply bind_Ok in Hc as (nev & _ & Hc).
  apply bind_Ok in Hc as (b1 & Hb & [= <-]). cbn. destruct d as [d|]; [|by injection Hb as <-].
  apply map_err_Ok in Hb. unfold diff_builder_apply in Hb. apply bind_Ok in Hb as (s1 & Ha & [= <-]). by eapply apply_msg_tables.
Qed.

Lemma connect_messages_reframe bh h parent m1s r ms st :
  same_parent_diff parent r (builder_dbs st.1.1) ->
  foldM (connect_message bh h parent m1s) ms (reframe_messages r st)
  = reframe_messages r <$> foldM (connect_message bh h parent m1s) ms st.
Proof.
  revert st. induction ms as [|m ms IH]; intros st Hd; cbn [foldM]; [done|].
  rewrite connect_message_reframe by done. destruct (connect_message _ _ _ _ st m) as [st1| |] eqn:E; cbn; [|done..].
  apply IH. unfold same_parent_diff. by rewrite (connect_message_tables _ _ _ _ _ _ _ E).
Qed.

Lemma connect_messages_tables bh h parent m1s ms st st' :
  foldM (connect_message bh h parent m1s) ms st = Ok st' ->
  block_hashes (builder_dbs st'.1.1) = block_hashes (builder_dbs st.1.1).
Proof.
  intros Hf. apply (foldM_invariant (fun st2 : MessageState =>
    block_hashes (builder_dbs st2.1.1) = block_hashes (builder_dbs st.1.1))) in Hf; [done| |done].
  intros s1 s2 m _ E1 E2. by rewrite (connect_message_tables _ _ _ _ _ _ _ E2).
Qed.

Lemma connect_default_m4_reframe h parent ex r b :
  same_parent_diff parent r (builder_dbs b) ->
  connect_default_m4 h parent ex (reframe_builder r b) = reframe_builder r <$> connect_default_m4 h parent ex b.
Proof.
  intros Hd. unfold connect_default_m4. destruct ex; [done|]. cbn [builder_dbs reframe_builder].
  change (sidechain (active_sidechains (reframe r (builder_dbs b)))) with (sidechain (active_sidechains (builder_dbs b))).
  rewrite handle_m4_reframe by done. destruct (handle_m4_ack_bundles _ _ _); cbn [mbind Res_bind fmap Res_fmap map_err]; [|done..].
  destruct (decide (_ = ∅)); [done|]. fold (reframe_builder r b). rewrite apply_reframe. by destruct (diff_builder_apply h _ b).
Qed.

Lemma connect_txs_reframe bh h parent hash acc r s txs ts :
  foldM (connect_transaction bh h parent hash acc (reframe r s)) txs ts
  = foldM (connect_transaction bh h parent hash acc s) txs ts.
Proof.
  revert ts. induction txs as [|tx txs IH]; intros ts; cbn [foldM]; [done|].
  assert (E : connect_transaction bh h parent hash acc (reframe r s) ts tx = connect_transaction bh h parent hash acc s ts tx)
    by by destruct ts.
  rewrite E. destruct (connect_transaction _ _ _ _ _ s ts tx); cbn; [apply IH|done..].
Qed.

Lemma process_block_reframe bh r s h hash parent cb txs :
  same_parent_diff parent r s ->
  process_block bh (reframe r s) h hash parent cb txs
  = (fun '(s', bi, d, u) => (reframe r s', bi, d, u)) <$> process_block bh s h hash parent cb txs.
Proof.
  intros Hd. unfold process_block. destruct (map_err _ (foldM collect_message _ _)) as [[ms m1s]| |]; cbn [mbind Res_bind fmap Res_fmap]; [|done..].
  change (diff_builder_new (reframe r s), [], []) with (reframe_messages r (diff_builder_new s, [], [])).
  rewrite connect_messages_reframe by done.
  destruct (foldM (connect_message _ _ _ _) _ _) as [[[b acc] evs]| |] eqn:Em; cbn [mbind Res_bind fmap Res_fmap]; [|done..].
  unfold reframe_messages. cbn [fst snd]. apply connect_messages_tables in Em. cbn in Em.
  rewrite connect_default_m4_reframe by (unfold same_parent_diff; by rewrite Em).
  destruct (connect_default_m4 _ _ _ b) as [b1| |]; cbn [mbind Res_bind fmap Res_fmap]; [|done..]. cbn [builder_dbs reframe_builder].
  change (handle_failed_sidechain_proposals bh (reframe r (builder_dbs b1)) h) with (handle_failed_sidechain_proposals bh (builder_dbs b1) h).
  rewrite frame_on_proposals. destruct (on_proposals _ (builder_dbs b1)) as [s2| |]; cbn [mbind Res_bind fmap Res_fmap map_err]; [|done..].
  change (handle_failed_m6ids bh (reframe r s2) h) with (handle_failed_m6ids bh s2 h).
  destruct (handle_failed_m6ids bh s2 h) as [fm| |]; cbn [mbind Res_bind fmap Res_fmap map_err]; [|done..].
  rewrite frame_on_active. destruct (on_active _ s2) as [s3| |]; cbn [mbind Res_bind fmap Res_fmap map_err]; [|done..].
  rewrite connect_txs_reframe. change (active_sidechains (reframe r s3)) with (active_sidechains s3).
  by destruct (foldM (connect_transaction _ _ _ _ _ s3) _ _).
Qed.

End Frame.

(** ** Histories *)

Section Chains.
Context `{Bitcoin, !BitcoinLaws, Nom}.
Variable bh : BlockHandler.
Implicit Types (s t : Dbs) (bs : list Block) (b : Block).

Definition hash_of b : BlockHash := block_hash (header b).

Lemma record_block_tables s hi bi d s' ev :
  record_block s hi bi d = Ok (s', ev) ->
  diff (block_hashes s') = <[hi_block_hash hi := d]> (diff (block_hashes s)) /\
  headers (block_hashes s') = headers (block_hashes s) /\ height (block_hashes s') = height (block_hashes s) /\
  ev = ConnectBlock hi bi.
Proof.
  unfold record_block, put_block_info. intros Hr. apply bind_Ok in Hr as (tb & Ht & Hr).
  apply map_err_Ok in Ht. apply bind_Ok in Ht as (hd & _ & Ht). apply bind_Ok in Ht as (w & _ & [= <-]).
  apply bind_Ok in Hr as (tw & _ & Hr). apply bind_Ok in Hr as (w' & _ & [= <- <-]).
  by destruct (match tw with Some _ => _ | None => _ end).
Qed.

Lemma record_block_info s hi bi d s' ev h :
  record_block s hi bi d = Ok (s', ev) -> has_info (block_hashes s') h <-> h = hi_block_hash hi \/ has_info (block_hashes s) h.
Proof.
  unfold record_block. intros Hr. apply bind_Ok in Hr as (tb & Ht%map_err_Ok & Hr). apply bind_Ok in Hr as (tw & _ & Hr). apply bind_Ok in Hr as (w & _ & [= <- _]).
  rewrite <- (put_block_info_info _ _ _ _ _ h Ht). by destruct (match tw with Some _ => _ | None => _ end).
Qed.

(** What connecting a block does, by way of [partial_connect_block]. *)
Lemma connect_block_summary s b s' ev :
  block_ok b s -> connect_block bh s b = Ok (s', ev) ->
  exists s1 p, partial_connect_block bh s b = Ok (s1, p) /\
    active_sidechains s' = active_sidechains s1 /\ proposal_id_to_sidechain s' = proposal_id_to_sidechain s1 /\
    current_chain_tip s' = Some (hash_of b) /\
    diff (block_hashes s') = <[hash_of b := pc_diff p]> (diff (block_hashes s)) /\
    headers (block_hashes s') = headers (block_hashes s) /\ height (block_hashes s') = height (block_hashes s) /\
    ev = ConnectBlock (pc_header_info p) (pc_block_info p) /\
    (current_chain_tip s = Some (prev_blockhash (header b)) \/
     current_chain_tip s = None /\ prev_blockhash (header b) = all_zeros).
Proof.
  intros Hok Hc. apply connect_block_Ok in Hc as (s1 & p & Hp & _ & Hr).
  destruct (partial_connect_valid _ _ _ _ _ Hok Hp) as (h & _ & _ & Ha & Hhash & Htip).
  pose proof (frame_only_Ok _ _ _ (frame_block_apply (pc_diff p) h) Ha) as E1.
  assert (Eb : block_hashes s1 = block_hashes s) by by rewrite E1.
  assert (Et : current_chain_tip s1 = current_chain_tip s) by by rewrite E1.
  destruct (record_block_tables _ _ _ _ _ _ Hr) as (Td & Th & Tk & Tev).
  destruct (record_block_core _ _ _ _ _ _ Hr) as [Ea Ep]. rewrite Eb, Hhash in Td. rewrite Eb in Th, Tk.
  exists s1, p. split_and!; try done.
  destruct Hok as [Hhd _ Hnz]. rewrite <- Eb, <- Hhash in Hhd. rewrite <- Et in Htip, Hnz.
  destruct (record_block_Ok _ _ _ _ _ _ _ Hhd Htip Hnz Hr) as (b1 & -> & _). cbn. by rewrite Hhash.
Qed.

(** Connecting a block stores its information. *)
Lemma connect_block_info s b s' ev h : block_ok b s -> connect_block bh s b = Ok (s', ev) -> has_info (block_hashes s') h <-> h = hash_of b \/ has_info (block_hashes s) h.
Proof.
  intros Hok Hc. apply connect_block_Ok in Hc as (s1 & p & Hp & _ & Hr).
  destruct (partial_connect_valid _ _ _ _ _ Hok Hp) as (k & _ & _ & Ha & Hhash & _). pose proof (frame_only_Ok _ _ _ (frame_block_apply (pc_diff p) k) Ha) as E1.
  assert (Eb : block_hashes s1 = block_hashes s) by by rewrite E1. rewrite <- Eb. unfold hash_of. rewrite <- Hhash. by eapply record_block_info.
Qed.

(** Connecting agrees on tables that agree on what it reads. *)
Lemma connect_agree s t b s' t' ev ev' :
  block_ok b s -> block_ok b t -> same_core s t ->
  height (block_hashes s) !! hash_of b = height (block_hashes t) !! hash_of b ->
  same_parent_diff (prev_blockhash (header b)) t s ->
  connect_block bh s b = Ok (s', ev) -> connect_block bh t b = Ok (t', ev') ->
  same_core s' t' /\ ev = ev' /\ diff (block_hashes s') !! hash_of b = diff (block_hashes t') !! hash_of b.
Proof.
  intros Hs Ht (Ca & Cp & Ct) Hh Hd Hc Hc'.
  destruct (connect_block_summary _ _ _ _ Hs Hc) as (s1 & p & Hp & Ea & Ep & Et & Ed & _ & _ & -> & _).
  destruct (connect_block_summary _ _ _ _ Ht Hc') as (t1 & q & Hq & Ea' & Ep' & Et' & Ed' & _ & _ & -> & _).
  unfold same_core. rewrite Ea, Ea', Ep, Ep', Et, Et', Ed, Ed', !lookup_insert_eq. assert (E : t = reframe t s) by (unfold reframe; rewrite Ca, Cp; by destruct t).
  enough (q = p /\ active_sidechains t1 = active_sidechains s1 /\ proposal_id_to_sidechain t1 = proposal_id_to_sidechain s1)
    as (-> & -> & ->) by done.
  unfold partial_connect_block in Hp, Hq. apply bind_Ok in Hp as (? & _ & Hp), Hq as (? & _ & Hq).
  unfold db_get in Hp, Hq. unfold hash_of in Hh. rewrite Hh in Hp.
  destruct (height (block_hashes t) !! _) as [h|]; cbn [ok_or map_err mbind Res_bind] in Hp, Hq; [|done].
  destruct (txdata b) as [|cb txs]; [done|]. case_bool_decide.
  - cbn in Hp, Hq. injection Hp as <- <-. injection Hq as <- <-. done.
  - rewrite E, process_block_reframe in Hq by done.
    destruct (process_block bh s _ _ _ _ _) as [[[[s2 bi] d] u]| |]; cbn in Hp, Hq; [|done..].
    injection Hp as <- <-. injection Hq as <- <-. done.
Qed.

(** [b] can be connected to the chain [bs]: Bitcoin's rules, and a header
    stored at the next height. *)
Record step_ok s bs b : Prop := {
  so_block : block_ok b s;
  so_new : hash_of b ∉ hash_of <$> bs;
  so_height : height (block_hashes s) !! hash_of b = Some (Z.of_nat (length bs)) }.

Definition agree_on bs s t : Prop := forall c, c ∈ bs -> agree_at (hash_of c) (block_hashes s) (block_hashes t).

(** The tables [s] belong to the chain [bs] after any sequence of connected
    and disconnected blocks; other blocks and the mempool may change the
    remaining tables at any time. *)
Inductive reach : Dbs -> list Block -> Prop :=
| reach_init s : same_core s dbs_new -> reach s []
| reach_connect s bs b s' ev :
    reach s bs -> step_ok s bs b -> connect_block bh s b = Ok (s', ev) -> reach s' (bs ++ [b])
| reach_disconnect s bs b evs s' evs' :
    reach s (bs ++ [b]) -> disconnect_block s evs (hash_of b) = Ok (s', evs') -> reach s' bs
| reach_other s bs s' : reach s bs -> same_core s' s -> agree_on bs s' s -> reach s' bs.

(** The chain connected block by block, without detours. *)
Inductive hist : Dbs -> list Block -> Prop :=
| hist_nil s : same_core s dbs_new -> hist s []
| hist_snoc s bs b t t' ev :
    hist t bs -> step_ok t bs b -> connect_block bh t b = Ok (t', ev) ->
    same_core s t' -> agree_on (bs ++ [b]) s t' -> hist s (bs ++ [b]).

Lemma hist_ext s s' bs : hist s bs -> same_core s' s -> agree_on bs s' s -> hist s' bs.
Proof.
  intros Hh Hc Ha. destruct Hh as [s Hs|s bs b t t' ev Ht Hok Hcon Hs Hag].
  - apply hist_nil. by rewrite Hc.
  - eapply hist_snoc; [done..| |].
    + by rewrite Hc.
    + intros c Hin. eapply agree_at_trans; [by apply Ha|by apply Hag].
Qed.

Lemma hist_snoc_inv s bs b :
  hist s (bs ++ [b]) -> exists t t' ev, hist t bs /\ step_ok t bs b /\ connect_block bh t b = Ok (t', ev) /\
    same_core s t' /\ agree_on (bs ++ [b]) s t'.
Proof.
  intros Hh. remember (bs ++ [b]) as l eqn:E. destruct Hh as [s Hs|s bs0 b0 t t' ev Ht Hok Hcon Hs Hag]; [by destruct bs|].
  apply app_inj_tail in E as [-> ->]. by exists t, t', ev.
Qed.

Lemma hist_wf s bs : hist s bs -> wf s.
Proof.
  induction 1 as [s Hs|s bs b t t' ev Ht IH Hok Hcon Hs _]; (eapply same_core_wf; [symmetry; exact Hs|]); [apply dbs_new_wf|].
  eapply connect_block_keeps_wf; [done|by destruct Hok|done].
Qed.

Lemma hist_tip s bs : hist s bs -> current_chain_tip s = hash_of <$> last bs.
Proof.
  destruct 1 as [s (_ & _ & ->)|s bs b t t' ev _ [Hok _ _] Hcon (_ & _ & ->) _]; [done|].
  destruct (connect_block_summary _ _ _ _ Hok Hcon) as (s1 & p & _ & _ & _ & -> & _). by rewrite last_snoc.
Qed.

(** Connecting [b] changes nothing under the hashes of other blocks. *)
Lemma connect_agree_on s bs b s' ev :
  step_ok s bs b -> connect_block bh s b = Ok (s', ev) -> agree_on bs s' s.
Proof.
  intros [Hok Hnew _] Hcon c Hc.
  destruct (connect_block_summary _ _ _ _ Hok Hcon) as (s1 & p & _ & _ & _ & _ & Ed & Eh & Ek & _).
  assert (hash_of b <> hash_of c) by (intros E; apply Hnew; rewrite E; by apply list_elem_of_fmap_2).
  split_and!; [by rewrite Ed, lookup_insert_ne|by rewrite Eh|by rewrite Ek|]. rewrite (connect_block_info _ _ _ _ _ Hok Hcon). naive_solver.
Qed.

(** Disconnecting the last block. *)
Lemma hist_disconnect s bs b evs :
  hist s (bs ++ [b]) -> exists s', disconnect_block s evs (hash_of b) = Ok (s', evs ++ [DisconnectBlock (hash_of b)]) /\
    hist s' bs /\ block_hashes s' = block_hashes s.
Proof.
  intros Hh. apply hist_snoc_inv in Hh as (t & t' & ev & Ht & Hok & Hcon & Hs & Hag).
  exists (with_core s t). split_and!; [|..|done].
  - eapply disconnect_restores; [by eapply hist_wf|by destruct Hok|done|done|].
    apply Hag, elem_of_app. right. by left.
  - eapply hist_ext; [exact Ht|by destruct t|]. intros c Hc. cbn.
    eapply agree_at_trans; [apply Hag, elem_of_app; by left|]. by eapply connect_agree_on.
Qed.

Lemma reach_hist s bs : reach s bs -> hist s bs.
Proof.
  induction 1 as [s Hs|s bs b s' ev _ IH Hok Hcon|s bs b evs s' evs' _ IH Hd|s bs s' _ IH Hs Ha].
  - by apply hist_nil.
  - eapply hist_snoc; [done..| |]; [done|]. intros c _. apply agree_at_refl.
  - destruct (hist_disconnect s bs b evs IH) as (s1 & E & Hh & _). rewrite E in Hd. by injection Hd as <- _.
  - by eapply hist_ext.
Qed.

Lemma hist_determined s t bs :
  hist s bs -> hist t bs -> same_core s t /\ forall c, c ∈ bs -> diff (block_hashes s) !! hash_of c = diff (block_hashes t) !! hash_of c.
Proof.
  intros Hs. revert t. induction Hs as [s Hs|s bs b u u' ev Hu IH Hok Hcon Hs Hag]; intros t Ht.
  - inversion Ht as [? Ht'|]; [|by destruct bs]. subst. split; [by rewrite Hs, Ht'|by intros ? ?%elem_of_nil].
  - apply hist_snoc_inv in Ht as (v & v' & ev' & Hv & Hok' & Hcon' & Ht & Hag').
    destruct (IH v Hv) as [Hc Hd].
    assert (Hpd : same_parent_diff (prev_blockhash (header b)) v u).
    { destruct (connect_block_summary _ _ _ _ (so_block _ _ _ Hok) Hcon) as (? & ? & _ & _ & _ & _ & _ & _ & _ & _ & Htip).
      rewrite (hist_tip _ _ Hu) in Htip. destruct Htip as [Htip|[_ ?]]; [right|by left].
      apply fmap_Some in Htip as (c & Hl & ->). symmetry. apply Hd. by apply last_Some_elem_of. }
    destruct (connect_agree u v b u' v' ev ev') as (Hc' & _ & Hd'); try done.
    { by destruct Hok. } { by destruct Hok'. } { by rewrite (so_height _ _ _ Hok), (so_height _ _ _ Hok'). }
    split; [by rewrite Hs, Ht|]. intros c Hc0. destruct (Hag c Hc0) as (-> & _), (Hag' c Hc0) as (-> & _).
    apply elem_of_app in Hc0 as [Hc0|Hc0].
    + destruct (connect_agree_on _ _ _ _ _ Hok Hcon c Hc0) as (-> & _).
      destruct (connect_agree_on _ _ _ _ _ Hok' Hcon' c Hc0) as (-> & _). by apply Hd.
    + apply list_elem_of_singleton in Hc0 as ->. exact Hd'.
Qed.

(** C2. The consensus state depends on the chain alone: whatever blocks were
    connected and disconnected on the way, two nodes whose chains consist of
    the same blocks have the same active sidechains, treasuries, pending
    bundles with their votes, proposals and tip; and these tables are well
    formed. *)
Theorem state_determined_by_chain s t bs :
  reach s bs -> reach t bs -> same_core s t /\ wf s /\ current_chain_tip s = hash_of <$> last bs.
Proof.
  intros Hs%reach_hist Ht%reach_hist. split_and!; [by eapply hist_determined|by eapply hist_wf|by apply hist_tip].
Qed.

End Chains.
