(* ===== verification/BlockRules.v ===== *)
(** * What an accepted block obeys

    The rules on the coinbase messages and BMM requests of a block that
    [partial_connect_block] accepts above the activation height. *)

From Stdlib Require Import Strings.Byte.
From stdpp Require Import base numbers list gmap.
From S2P Require Import Prelude OrderMap Bitcoin Types Messages M6 Dbs BlockHashes Treasury Diff Reversible Handlers HandlerProofs ConnectBlock ConnectProofs.
Open Scope Z_scope.

Section BlockRules.
Context `{Bitcoin, !BitcoinLaws, Nom, !NomLaws}.
Implicit Types (bh : BlockHandler) (s : Dbs).

(** ** The messages of the coinbase *)

(** The M1 index holds every M1 among the messages. *)
Definition m1s_complete (ms : CoinbaseMessages) (m1s : gmap (SidechainNumber * Hash) Z) : Prop :=
  forall n d v, (CM_M1 (mkM1 n d), v) ∈ messages ms -> is_Some (m1s !! (n, sha256d d)).

Lemma push_messages ms m v ms' : push ms m v = Ok ms' -> messages ms' = messages ms ++ [(m, v)].
Proof.
  destruct ms as [l i1 i2 i3 i4 i7], m; cbn; intros Hp;
    repeat match type of Hp with context [match ?x with _ => _ end] => destruct x end; by simplify_eq/=.
Qed.

Lemma collect_push st e st' :
  collect_message st e = Ok st' -> push_output st.1 e = Ok st'.1.
Proof.
  destruct st as [ms m1s], e as [vout out]. unfold collect_message, push_output. cbn.
  destruct (coinbase_message_parse _) as [[r m]|]; [|by intros [= <-]].
  intros Hc. apply bind_Ok in Hc as (ms' & Hp & [= <-]). exact Hp.
Qed.

Lemma collect_index st e st' :
  m1s_complete st.1 st.2 -> collect_message st e = Ok st' -> m1s_complete st'.1 st'.2.
Proof.
  destruct st as [ms m1s], e as [vout out]. unfold collect_message. cbn. intros Hm.
  destruct (coinbase_message_parse _) as [[r m]|]; [|by intros [= <-]].
  intros Hc. apply bind_Ok in Hc as (ms' & Hp & [= <-]). intros n d v. cbn. rewrite (push_messages _ _ _ _ Hp).
  assert (Hkeep : forall k, is_Some (m1s !! k) ->
    is_Some (match m with CM_M1 (mkM1 n0 d0) => match m1s !! (n0, sha256d d0) with Some _ => m1s
               | None => <[(n0, sha256d d0) := as_u32 vout]> m1s end | _ => m1s end !! k)).
  { intros k Hk. destruct m as [[n0 d0]|m|m|m|m]; try done. destruct (m1s !! (n0, sha256d d0)) eqn:E; [done|].
    rewrite lookup_insert_ne; [done|]. intros <-. rewrite E in Hk. by destruct Hk. }
  intros [Hin|Hin]%elem_of_app; [by apply Hkeep, (Hm n d v)|].
  apply list_elem_of_singleton in Hin as [= <- <-]. destruct (m1s !! (n, sha256d d)) eqn:E; [by rewrite E|].
  rewrite lookup_insert_eq. by eexists.
Qed.

Lemma collect_messages outs ms m1s :
  foldM collect_message (enumerate outs) (coinbase_messages_default, ∅) = Ok (ms, m1s) ->
  coinbase_messages_new outs = Ok ms /\ m1s_complete ms m1s.
Proof.
  intros Hf. split.
  - unfold coinbase_messages_new. revert Hf. generalize (enumerate outs) as l.
    assert (Hgen : forall l st, foldM collect_message l st = Ok (ms, m1s) -> foldM push_output l st.1 = Ok ms).
    { induction l as [|e l IH]; intros st Hf; cbn in Hf |- *; [by injection Hf as ->|].
      apply bind_Ok in Hf as (st1 & Hc & Hf). rewrite (collect_push _ _ _ Hc). cbn. by apply IH. }
    intros l Hl. by apply (Hgen l (coinbase_messages_default, ∅)).
  - apply (foldM_invariant (fun st => m1s_complete st.1 st.2)) in Hf; [done| |by intros ??? ?%elem_of_nil].
    intros st st' e _. apply collect_index.
Qed.

(** ** Accepted BMM commitments *)

(** The M7 messages, in order. *)
Definition m7_entries (ms : list (CoinbaseMessage * nat)) : BmmCommitments :=
  omap (fun mv => match mv.1 with
                  | CM_M7 m => Some (m7_sidechain_number m, m7_sidechain_block_hash m) | _ => None end) ms.

Lemma lhm_insert_fresh (n : SidechainNumber) (c : BmmCommitment) l :
  om_contains n l = false -> lhm_insert n c l = l ++ [(n, c)].
Proof.
  intros Hc. unfold lhm_insert. f_equal. apply om_remove_fresh. by apply om_contains_false.
Qed.

Lemma connect_message_accepted bh h parent m1s st m st' :
  connect_message bh h parent m1s st m = Ok st' ->
  st'.1.2 = st.1.2 ++ m7_entries [m] /\ (om_wf st.1.2 -> om_wf st'.1.2).
Proof.
  destruct st as [[b acc] evs], m as [m v]. intros Hc. unfold connect_message in Hc. cbn [fst snd] in *.
  apply bind_Ok in Hc as ([[ev d] acc'] & Hm & Hc). apply bind_Ok in Hc as (nev & _ & Hc).
  apply bind_Ok in Hc as (b1 & _ & [= <-]). cbn [fst snd]. clear nev b1.
  destruct m as [[n de]|[n hs]|[n tx]|m4|[n c]]; cbn [handle_coinbase_message m7_entries omap list_omap fst snd] in *.
  - rewrite app_nil_r. destruct (handle_m1_propose_sidechain _ _ _); by injection Hm as _ _ <-.
  - rewrite app_nil_r. by apply bind_Ok in Hm as (? & _ & [= _ _ <-]).
  - rewrite app_nil_r. by apply bind_Ok in Hm as (? & _ & [= _ _ <-]).
  - rewrite app_nil_r. by apply bind_Ok in Hm as (? & _ & [= _ _ <-]).
  - destruct (om_contains n acc) eqn:E; [done|]. injection Hm as _ _ <-. rewrite lhm_insert_fresh by done.
    split; [done|]. intros Hwf. unfold om_wf, om_keys in *. rewrite fmap_app. apply NoDup_app. split_and!; [done| |apply NoDup_singleton].
    intros k Hk ->%list_elem_of_singleton. apply om_contains_false in E. done.
Qed.

Lemma connect_messages_accepted bh h parent m1s ms b acc evs b' acc' evs' :
  foldM (connect_message bh h parent m1s) ms (b, acc, evs) = Ok (b', acc', evs') -> om_wf acc ->
  acc' = acc ++ m7_entries ms /\ om_wf acc'.
Proof.
  intros Hf Hwf. apply (foldM_prefix (fun pre (st : MessageState) => st.1.2 = acc ++ m7_entries pre /\ om_wf st.1.2)) in Hf;
    [done| |by rewrite app_nil_r].
  intros pre m st st2 _ [E1 Hw] Hc. apply connect_message_accepted in Hc as [E2 Hw']. split; [|by apply Hw'].
  rewrite E2, E1. unfold m7_entries. by rewrite omap_app, app_assoc.
Qed.

(** ** The BMM requests of a block *)

Definition requests (txs : list Transaction) : list M8BmmRequest := omap parse_m8_tx txs.

Lemma handle_m8_accepted tx acc parent r :
  handle_m8 tx (Some acc) parent = Ok r -> forall q, parse_m8_tx tx = Some q ->
  om_get (m8_sidechain_number q) acc = Some (m8_sidechain_block_hash q) /\ m8_prev_mainchain_block_hash q = parent.
Proof.
  unfold handle_m8. intros Hr q Hq. rewrite Hq in Hr. case_bool_decide; cbn in Hr; [|done]. by case_decide.
Qed.

Lemma connect_transaction_request bh h parent hash acc s ts tx ts' :
  connect_transaction bh h parent hash acc s ts tx = Ok ts' ->
  (forall q, parse_m8_tx tx = Some q ->
     om_get (m8_sidechain_number q) acc = Some (m8_sidechain_block_hash q) /\ m8_prev_mainchain_block_hash q = parent /\
     m8_sidechain_number q ∉ ts_bmm_request_slots ts) /\
  ts_bmm_request_slots ts' = list_to_set (m8_sidechain_number <$> requests [tx]) ∪ ts_bmm_request_slots ts.
Proof.
  destruct ts as [b u sl evs]. unfold connect_transaction. intros Hc. apply bind_Ok in Hc as ([handled u'] & Hh & Hc).
  apply map_err_Ok in Hh. unfold handle_transaction in Hh. apply bind_Ok in Hh as ([r u1] & _ & Hh).
  apply bind_Ok in Hh as (r8 & H8%map_err_Ok & _). pose proof (handle_m8_accepted _ _ _ _ H8) as Hacc.
  apply bind_Ok in Hc as (sl' & Hsl & Hc).
  assert (Hsl' : ts_bmm_request_slots ts' = sl').
  { destruct handled as [[ev d]|]; [|by injection Hc as <-]. by apply bind_Ok in Hc as (? & _ & [= <-]). }
  unfold requests. cbn. destruct (parse_m8_tx tx) as [q|].
  - destruct (decide (m8_sidechain_number q ∈ sl)); [done|]. injection Hsl as <-. split; [|rewrite Hsl'; cbn; set_solver].
    intros q' [= <-]. destruct (Hacc q eq_refl). done.
  - injection Hsl as <-. split; [done|]. rewrite Hsl'. cbn. set_solver.
Qed.

Lemma connect_transactions_requests bh h parent hash acc s txs b u evs ts' :
  foldM (connect_transaction bh h parent hash acc s) txs (mkTxState b u ∅ evs) = Ok ts' ->
  NoDup (m8_sidechain_number <$> requests txs) /\
  forall q, q ∈ requests txs ->
    om_get (m8_sidechain_number q) acc = Some (m8_sidechain_block_hash q) /\ m8_prev_mainchain_block_hash q = parent.
Proof.
  intros Hf. apply (foldM_prefix (fun pre ts =>
    (NoDup (m8_sidechain_number <$> requests pre) /\ forall q, q ∈ requests pre ->
       om_get (m8_sidechain_number q) acc = Some (m8_sidechain_block_hash q) /\ m8_prev_mainchain_block_hash q = parent) /\
    ts_bmm_request_slots ts = list_to_set (m8_sidechain_number <$> requests pre))) in Hf; [by destruct Hf| |].
  2:{ split; [|done]. split; [constructor|by intros ? ?%elem_of_nil]. }
  intros pre tx ts ts2 _ [[Hnd Hall] Hsl] Hc. apply connect_transaction_request in Hc as [Hq Hsl2].
  unfold requests in *. rewrite omap_app, fmap_app. split; [split|].
  - cbn in *. destruct (parse_m8_tx tx) as [q|]; cbn; [|by rewrite app_nil_r].
    apply NoDup_app. split_and!; [done| |apply NoDup_singleton]. intros k Hk ->%list_elem_of_singleton.
    destruct (Hq q eq_refl) as (_ & _ & Hn). apply Hn. rewrite Hsl. by apply elem_of_list_to_set.
  - intros q [Hin|Hin]%elem_of_app; [by apply Hall|]. cbn in Hin. destruct (parse_m8_tx tx) as [q'|]; [|by apply elem_of_nil in Hin].
    apply list_elem_of_singleton in Hin as ->. by destruct (Hq q' eq_refl) as (? & ? & _).
  - rewrite Hsl2, Hsl, list_to_set_app_L. cbn. destruct (parse_m8_tx tx); set_solver.
Qed.

(** The BMM messages of a connected block *)
Lemma connected_bmm bh s block s' hi bi :
  connect_block bh s block = Ok (s', ConnectBlock hi bi) ->
  bip300_activation_height (bh_params bh) <= hi_height hi ->
  exists cb txs ms, txdata block = cb :: txs /\ coinbase_messages_new (output cb) = Ok ms /\
    bi_bmm_commitments bi = m7_entries (messages ms) /\ om_wf (bi_bmm_commitments bi) /\
    NoDup (m8_sidechain_number <$> requests txs) /\
    forall q, q ∈ requests txs ->
      om_get (m8_sidechain_number q) (bi_bmm_commitments bi) = Some (m8_sidechain_block_hash q) /\
      m8_prev_mainchain_block_hash q = prev_blockhash (header block).
Proof.
  intros Hc Hh. destruct (connect_block_process _ _ _ _ _ _ Hc Hh) as (cb & txs & s1 & d & u & Htx & Hp & _).
  exists cb, txs. unfold process_block in Hp. apply bind_Ok in Hp as ([ms m1s] & Hcol & Hp). apply map_err_Ok in Hcol.
  apply bind_Ok in Hp as ([[b0 acc] evs] & Hms & Hp). apply bind_Ok in Hp as (b & _ & Hp).
  apply bind_Ok in Hp as (s2 & _ & Hp). apply bind_Ok in Hp as (fm & _ & Hp). apply bind_Ok in Hp as (s3 & _ & Hp).
  apply bind_Ok in Hp as (ts & Hts & Hp). injection Hp as _ <- _ _. cbn.
  apply collect_messages in Hcol as [Hcol _]. apply connect_messages_accepted in Hms as [-> Hwf]; [|constructor].
  apply connect_transactions_requests in Hts as [Hnd Hq]. exists ms. by split_and!.
Qed.

(** C18. BIP301, blind merged mining: in a block connected at or above the
    activation height, the commitments recorded are exactly the M7 messages of
    its coinbase, one per slot and in order; every BMM request in the block has
    the recorded commitment of its slot and names the block's parent, and no
    slot has two requests. *)
Theorem bmm_rules bh s block s' hi bi :
  connect_block bh s block = Ok (s', ConnectBlock hi bi) ->
  bip300_activation_height (bh_params bh) <= hi_height hi ->
  exists cb txs ms, txdata block = cb :: txs /\ coinbase_messages_new (output cb) = Ok ms /\
    bi_bmm_commitments bi = m7_entries (messages ms) /\ om_wf (bi_bmm_commitments bi) /\
    NoDup (m8_sidechain_number <$> requests txs) /\
    forall q, q ∈ requests txs ->
      om_get (m8_sidechain_number q) (bi_bmm_commitments bi) = Some (m8_sidechain_block_hash q) /\
      m8_prev_mainchain_block_hash q = prev_blockhash (header block).
Proof. apply connected_bmm. Qed.

(** ** Votes for proposals *)

Definition max_proposal_age (t : Thresholds) : Z :=
  Z.max (withdrawal_bundle_max_age t) (unused_sidechain_slot_proposal_max_age t).

(** After the block at height [h]: a proposal has at most one vote per block
    since it was made, and it is not older than allowed. *)
Definition votes_bounded (t : Thresholds) (h : Z) s : Prop :=
  forall id sc, proposal_id_to_sidechain s !! id = Some sc ->
    proposal_height (sc_status sc) <= h /\
    0 <= vote_count (sc_status sc) <= h - proposal_height (sc_status sc) /\
    h - proposal_height (sc_status sc) <= max_proposal_age t.

(** What a message does to the proposals. *)
Lemma connect_message_proposals bh h parent m1s st m st' id sc' :
  connect_message bh h parent m1s st m = Ok st' ->
  proposal_id_to_sidechain (builder_dbs st'.1.1) !! id = Some sc' ->
  proposal_id_to_sidechain (builder_dbs st.1.1) !! id = Some sc' \/
  sc_status sc' = mkStatus 0 h None \/
  exists sc hash, proposal_id_to_sidechain (builder_dbs st.1.1) !! id = Some sc /\
    proposal_height (sc_status sc) <> h /\ sc' = set_votes sc (vote_count (sc_status sc) + 1) /\
    m.1 = CM_M2 (mkM2 (spi_sidechain_number id) hash).
Proof.
  destruct st as [[b acc] evs], m as [m v]. intros Hc Hl. unfold connect_message in Hc. cbn [fst snd] in *.
  apply bind_Ok in Hc as ([[ev d] acc'] & Hm & Hc). apply bind_Ok in Hc as (nev & _ & Hc).
  apply bind_Ok in Hc as (b1 & Hb & [= <-]). cbn [fst snd] in Hl. destruct d as [d|]; [|injection Hb as <-; by left].
  apply map_err_Ok in Hb. unfold diff_builder_apply in Hb. apply bind_Ok in Hb as (s1 & Ha & [= <-]). cbn in Hl.
  destruct d as [d|d|d|d].
  - apply on_active_Ok in Ha as (a & _ & ->). by left.
  - assert (Hm2 : exists n hash, m = CM_M2 (mkM2 n hash) /\ handle_m2_ack_sidechain bh (builder_dbs b) h n hash = Ok (Some d)).
    { destruct m as [[n de]|[n hs]|[n tx]|m4|[n c]]; cbn [handle_coinbase_message] in Hm.
      - by destruct (handle_m1_propose_sidechain _ _ _).
      - apply bind_Ok in Hm as (o & Ho & [= _ E _]). apply map_err_Ok in Ho. destruct o; [|done]. injection E as ->. by exists n, hs.
      - by apply bind_Ok in Hm as (? & _ & ?).
      - apply bind_Ok in Hm as (o & _ & Hm). by case_decide.
      - by destruct (om_contains _ _). }
    destruct Hm2 as (n & hash & -> & Hk2). unfold handle_m2_ack_sidechain in Hk2.
    destruct (proposal_id_to_sidechain (builder_dbs b) !! mkSidechainProposalId n hash) as [sc|] eqn:Es; [|done].
    case_decide as Hne; [done|]. apply bind_Ok in Hk2 as (v' & Hv & [= <-]).
    cbn in Ha. unfold ack_sidechain_proposal_apply in Ha. cbn [asp_id asp_effect] in Ha. unfold db_get in Ha. rewrite Es in Ha.
    cbn [ok_or mbind Res_bind] in Ha. rewrite Hv in Ha. cbn [mbind Res_bind] in Ha. apply u16_incr_Ok in Hv as [_ ->].
    set (eff := if _ : bool then _ else _) in Ha. destruct eff; injection Ha as <-; cbn in Hl.
    + apply lookup_insert_Some in Hl as [[<- <-]|[_ Hl]]; [|by left]. right. right. exists sc, hash. by split_and!.
    + apply lookup_delete_Some in Hl as [_ Hl]. by left.
    + apply lookup_delete_Some in Hl as [_ Hl]. by left.
  - apply on_proposals_Ok in Ha as (p & Hp & ->). cbn in Hp. injection Hp as <-. cbn in Hl.
    apply lookup_insert_Some in Hl as [[<- <-]|[_ Hl]]; [|by left]. right. left.
    destruct m as [[n de]|[n hs]|[n tx]|m4|[n c]]; cbn [handle_coinbase_message] in Hm.
    + unfold handle_m1_propose_sidechain in Hm. destruct (contains_key _ _); [done|]. by injection Hm as _ <- _.
    + apply bind_Ok in Hm as (o & _ & [= _ E _]). by destruct o.
    + by apply bind_Ok in Hm as (? & _ & ?).
    + apply bind_Ok in Hm as (o & _ & Hm). by case_decide.
    + by destruct (om_contains _ _).
  - apply on_active_Ok in Ha as (a & _ & ->). by left.
Qed.

(** The loop over the messages, after the messages [pre]. *)
Definition votes_inv (h : Z) (pre : list (CoinbaseMessage * nat)) (ps : gmap SidechainProposalId Sidechain) : Prop :=
  forall id sc, ps !! id = Some sc ->
    let ph := proposal_height (sc_status sc) in let v := vote_count (sc_status sc) in
    ph <= h /\ 0 <= v /\ (ph = h -> v = 0) /\
    (ph <> h -> v <= h - 1 - ph + if decide (spi_sidechain_number id ∈ (m2_slots pre).*1) then 1 else 0).

Lemma m2_slots_app (pre ms : list (CoinbaseMessage * nat)) :
  (m2_slots (pre ++ ms)).*1 = (m2_slots pre).*1 ++ (m2_slots ms).*1.
Proof. unfold m2_slots. by rewrite omap_app, fmap_app. Qed.

Lemma votes_inv_step bh h parent m1s pre st m st' :
  NoDup (m2_slots (pre ++ [m])).*1 -> votes_inv h pre (proposal_id_to_sidechain (builder_dbs st.1.1)) ->
  connect_message bh h parent m1s st m = Ok st' ->
  votes_inv h (pre ++ [m]) (proposal_id_to_sidechain (builder_dbs st'.1.1)).
Proof.
  intros Hnd Hinv Hc id sc' Hl. rewrite m2_slots_app in *.
  destruct (connect_message_proposals _ _ _ _ _ _ _ _ _ Hc Hl) as [Hl0|[Hst|(sc & hash & Hl0 & Hne & -> & Em)]].
  - destruct (Hinv id sc' Hl0) as (? & ? & ? & Hv). cbn zeta. split_and!; [done..|]. intros Hne. specialize (Hv Hne).
    destruct (decide (_ ∈ (m2_slots pre).*1)); [|case_decide; lia]. rewrite decide_True; [lia|]. apply elem_of_app. by left.
  - rewrite Hst. cbn. split_and!; [lia|lia|done|done].
  - destruct m as [m v]. cbn in Em. subst m. cbn in *. destruct (Hinv id sc Hl0) as (? & ? & ? & Hv). specialize (Hv Hne).
    apply NoDup_app in Hnd as (_ & Hd & _).
    rewrite decide_False in Hv by (intros Hin; apply (Hd _ Hin); by left).
    split_and!; [lia..|done|]. intros _. rewrite decide_True; [lia|]. apply elem_of_app. right. by left.
Qed.

Lemma connect_default_m4_proposals h parent ex b b' :
  connect_default_m4 h parent ex b = Ok b' ->
  proposal_id_to_sidechain (builder_dbs b') = proposal_id_to_sidechain (builder_dbs b).
Proof.
  unfold connect_default_m4. destruct ex; [by intros [= <-]|]. intros Hc. apply bind_Ok in Hc as (d & _ & Hc).
  case_decide; [by injection Hc as <-|]. apply map_err_Ok in Hc. unfold diff_builder_apply in Hc.
  apply bind_Ok in Hc as (s1 & Ha & [= <-]). apply on_active_Ok in Ha as (a & _ & ->). done.
Qed.

(** The proposals that the expiry step leaves. *)
Lemma failed_proposals_left bh s h s' id sc :
  on_proposals (apply (handle_failed_sidechain_proposals bh s h) h) s = Ok s' ->
  proposal_id_to_sidechain s' !! id = Some sc ->
  proposal_id_to_sidechain s !! id = Some sc /\ h - proposal_height (sc_status sc) <= max_proposal_age (bh_thresholds bh).
Proof.
  intros Ha Hl. apply on_proposals_Ok in Ha as (p & Hp & ->). cbn in Hp, Hl. injection Hp as <-.
  assert (Hl' : (proposal_id_to_sidechain s ∖ handle_failed_sidechain_proposals bh s h) !! id = Some sc)
    by (rewrite <- foldl_delete_difference; done).
  apply lookup_difference_Some in Hl' as [Hs Hn]. split; [done|]. unfold handle_failed_sidechain_proposals in Hn.
  apply map_lookup_filter_None in Hn as [Hn|Hn]; [congruence|]. specialize (Hn sc Hs). cbn in Hn.
  apply not_true_is_false in Hn. unfold proposal_failed in Hn. unfold max_proposal_age.
  destruct (contains_key _ _); apply orb_false_iff in Hn as [Hn _]; apply bool_decide_eq_false in Hn; unfold saturating_sub in Hn; lia.
Qed.

Lemma process_block_votes bh s h hash parent cb txs s' bi d u :
  votes_bounded (bh_thresholds bh) (h - 1) s -> process_block bh s h hash parent cb txs = Ok (s', bi, d, u) ->
  votes_bounded (bh_thresholds bh) h s'.
Proof.
  intros Hv Hp. unfold process_block in Hp. apply bind_Ok in Hp as ([ms m1s] & Hcol & Hp). apply map_err_Ok in Hcol.
  apply collect_messages in Hcol as [Hcol _]. apply coinbase_messages_new_Ok in Hcol as [Hwf _].
  apply bind_Ok in Hp as ([[b0 acc] evs] & Hms & Hp). apply bind_Ok in Hp as (b & Hm4 & Hp).
  apply connect_default_m4_proposals in Hm4.
  apply bind_Ok in Hp as (s2 & Hf & Hp). apply map_err_Ok in Hf.
  apply bind_Ok in Hp as (fm & _ & Hp). apply bind_Ok in Hp as (s3 & Ha & Hp). apply map_err_Ok, on_active_Ok in Ha as (a & _ & ->).
  apply bind_Ok in Hp as (ts & _ & Hp). injection Hp as <- _ _ _.
  assert (Hinv : votes_inv h (messages ms) (proposal_id_to_sidechain (builder_dbs b0))).
  { apply (foldM_prefix (fun pre (st : MessageState) => votes_inv h pre (proposal_id_to_sidechain (builder_dbs st.1.1)))) in Hms;
      [done| |].
    - intros pre m st st2 [rest Hpre] Hinv Hc. eapply votes_inv_step; [|done..]. pose proof (cm_m2_nodup _ Hwf) as Hnd.
      rewrite Hpre, m2_slots_app in Hnd. by apply NoDup_app in Hnd as (? & _ & _).
    - intros id sc Hl. cbn in *. destruct (Hv id sc Hl) as (? & ? & ?). split_and!; [lia|lia|lia|].
      intros _. rewrite decide_False by apply not_elem_of_nil. lia. }
  intros id sc Hl. cbn in Hl. destruct (failed_proposals_left _ _ _ _ _ _ Hf Hl) as [Hl' Hage].
  rewrite Hm4 in Hl'. destruct (Hinv id sc Hl') as (Hph & H0' & Hz & Hv'). cbn zeta in *. split_and!; [done|done| |done].
  destruct (decide (proposal_height (sc_status sc) = h)) as [E|E]; [specialize (Hz E); lia|].
  specialize (Hv' E). case_decide; lia.
Qed.

(** C19. Vote counts of proposals cannot overflow: connecting the block at
    height h keeps the invariant that a proposal has at most one vote per
    block since it was made and is not older than the longest voting period,
    so with periods below 2^16 the next M2 never overflows the 16-bit count. *)
Theorem proposal_votes_bounded bh s block s' hi bi :
  connect_block bh s block = Ok (s', ConnectBlock hi bi) ->
  bip300_activation_height (bh_params bh) <= hi_height hi ->
  votes_bounded (bh_thresholds bh) (hi_height hi - 1) s ->
  votes_bounded (bh_thresholds bh) (hi_height hi) s' /\
  (max_proposal_age (bh_thresholds bh) < u16_max ->
   forall h n hash, exists r, handle_m2_ack_sidechain bh s' h n hash = Ok r).
Proof.
  intros Hc Hh Hv. destruct (connect_block_process _ _ _ _ _ _ Hc Hh) as (cb & txs & s1 & d & u & _ & Hp & _ & _ & Ep).
  assert (Hv' : votes_bounded (bh_thresholds bh) (hi_height hi) s').
  { unfold votes_bounded. rewrite Ep. by eapply process_block_votes. }
  split; [done|]. intros Hm h n hash. unfold handle_m2_ack_sidechain.
  destruct (proposal_id_to_sidechain s' !! _) as [sc|] eqn:E; [|by eexists]. case_decide; [by eexists|].
  destruct (Hv' _ _ E) as (_ & ? & ?). replace (u16_incr _) with (@Ok DbError Z (vote_count (sc_status sc) + 1)); [by eexists|].
  symmetry. apply u16_incr_Ok. lia.
Qed.

End BlockRules.
