(* ===== verification/Accept.v ===== *)
(** * Coinbases the validator accepts

    When the messages of a coinbase go through: the steps of the message loop
    of [partial_connect_block] that succeed, and what they leave unchanged. *)

From Stdlib Require Import Strings.Byte.
From stdpp Require Import base numbers list gmap.
From S2P Require Import Prelude OrderMap Bitcoin Types Messages M6 Dbs BlockHashes Treasury Diff Reversible Handlers HandlerProofs HandlerSpecs ConnectBlock ConnectProofs BlockRules.
Open Scope Z_scope.

Section Accept.
Context `{Bitcoin, Nom}.
Implicit Types (bh : BlockHandler) (s : Dbs) (b : DiffBuilder CoinbaseMsg Dbs).

(** ** Collecting *)

Lemma collect_total outs ms :
  coinbase_messages_new outs = Ok ms ->
  exists m1s, foldM collect_message (enumerate outs) (coinbase_messages_default, ∅) = Ok (ms, m1s) /\ m1s_complete ms m1s.
Proof.
  assert (Hgen : forall l c m1s, foldM push_output l c = Ok ms -> exists m1s', foldM collect_message l (c, m1s) = Ok (ms, m1s')).
  { induction l as [|[vout out] l IH]; intros c m1s; cbn [foldM]; [intros [= ->]; by eexists|].
    intros Hf. apply bind_Ok in Hf as (c1 & Hp & Hf).
    assert (E : exists m1s1, collect_message (c, m1s) (vout, out) = Ok (c1, m1s1)) by
      (unfold collect_message; unfold push_output in Hp; cbn in Hp; destruct (coinbase_message_parse _) as [[r m]|];
       [rewrite Hp; by eexists|injection Hp as ->; by eexists]).
    destruct E as [m1s1 ->]. by apply IH. }
  intros Hn. destruct (Hgen _ _ ∅ Hn) as [m1s Hm]. exists m1s. split; [done|]. by apply collect_messages in Hm as [_ ?].
Qed.

(** ** The messages one by one *)

Lemma put_sidechain_frame a n sc :
  active_wf a ->
  (forall k, k <> n -> sidechain (put_sidechain a n sc) !! k = sidechain a !! k /\ pending_m6ids (put_sidechain a n sc) !! k = pending_m6ids a !! k) /\
  (is_Some (sidechain a !! n) -> is_Some (sidechain (put_sidechain a n sc) !! n) /\ pending_m6ids (put_sidechain a n sc) !! n = pending_m6ids a !! n).
Proof.
  intros Hwf. unfold put_sidechain. cbn. split.
  - intros k Hk. rewrite lookup_insert_ne by done. split; [done|]. destruct (contains_key _ _); [done|]. by rewrite lookup_insert_ne.
  - intros Hn. rewrite lookup_insert_eq. split; [done|]. apply (aw_dom _ Hwf) in Hn. by rewrite (proj2 (contains_key_true _ _) Hn).
Qed.

Section Steps.
Context (bh : BlockHandler) (h : Z) (parent : BlockHash) (m1s : gmap (SidechainNumber * Hash) Z).

Abbreviation step := (connect_message bh h parent m1s).

Lemma m1_step b acc evs n d v :
  is_Some (m1s !! (n, sha256d d)) ->
  exists b' evs', step (b, acc, evs) (CM_M1 (mkM1 n d), v) = Ok (b', acc, evs') /\
    active_sidechains (builder_dbs b') = active_sidechains (builder_dbs b) /\
    forall id sc, proposal_id_to_sidechain (builder_dbs b') !! id = Some sc ->
      proposal_id_to_sidechain (builder_dbs b) !! id = Some sc \/ proposal_height (sc_status sc) = h /\ vote_count (sc_status sc) = 0.
Proof.
  intros [k Hk]. unfold connect_message, handle_coinbase_message, handle_m1_propose_sidechain.
  cbn [fst]. destruct (contains_key (proposal_id_to_sidechain (builder_dbs b)) (compute_id (mkSidechainProposal n d))); cbn;
    [by exists b, (evs ++ []); eauto|]. rewrite Hk. cbn.
  eexists _, _. split_and!; [reflexivity|done|]. cbn. intros id sc [[<- <-]|[_ ?]]%lookup_insert_Some; [by right|by left].
Qed.

Lemma m2_step b acc evs n hash v :
  let s := builder_dbs b in let id := mkSidechainProposalId n hash in
  active_wf (active_sidechains s) ->
  (forall sc, proposal_id_to_sidechain s !! id = Some sc -> vote_count (sc_status sc) < u16_max) ->
  exists b' evs', step (b, acc, evs) (CM_M2 (mkM2 n hash), v) = Ok (b', acc, evs') /\
    let s' := builder_dbs b' in
    (forall i, spi_sidechain_number i <> n -> proposal_id_to_sidechain s' !! i = proposal_id_to_sidechain s !! i) /\
    (forall k, k <> n -> sidechain (active_sidechains s') !! k = sidechain (active_sidechains s) !! k /\
                         pending_m6ids (active_sidechains s') !! k = pending_m6ids (active_sidechains s) !! k) /\
    (is_Some (sidechain (active_sidechains s) !! n) -> is_Some (sidechain (active_sidechains s') !! n) /\
       pending_m6ids (active_sidechains s') !! n = pending_m6ids (active_sidechains s) !! n) /\
    (sidechain (active_sidechains s) !! n = None ->
     (forall sc, proposal_id_to_sidechain s !! id = Some sc -> h <> proposal_height (sc_status sc) ->
        activates_unused_slot (bh_thresholds bh) (vote_count (sc_status sc) + 1) (saturating_sub h (proposal_height (sc_status sc))) = false) ->
     sidechain (active_sidechains s') !! n = None).
Proof.
  intros s id Hwf Hv. unfold connect_message, handle_coinbase_message, handle_m2_ack_sidechain. cbn [fst]. cbn zeta. fold s. fold id.
  destruct (proposal_id_to_sidechain s !! id) as [sc|] eqn:Hsc; [|exists b, (evs ++ []); cbn; split; [done|]; by repeat split].
  case_decide as Hh; [exists b, (evs ++ []); cbn; split; [done|]; by repeat split|]. specialize (Hv sc eq_refl).
  assert (Hi : forall E, @u16_incr E (vote_count (sc_status sc)) = Ok (vote_count (sc_status sc) + 1)) by (intros; by apply u16_incr_Ok).
  rewrite Hi. cbn -[activates_unused_slot bool_decide]. unfold diff_builder_apply. fold s. cbn -[activates_unused_slot bool_decide].
  unfold ack_sidechain_proposal_apply, db_get. cbn [asp_id]. rewrite Hsc. cbn -[activates_unused_slot bool_decide]. rewrite Hi. cbn -[activates_unused_slot bool_decide].
  match goal with |- context [if ?c then match sidechain _ !! n with _ => _ end else _] => destruct c eqn:Ea end.
  - assert (Ha : sidechain (active_sidechains s) !! n = None -> activates_unused_slot (bh_thresholds bh) (vote_count (sc_status sc) + 1)
      (saturating_sub h (proposal_height (sc_status sc))) = true).
    { intros En. rewrite En in Ea. rewrite (bool_decide_eq_false_2 (is_Some None)) in Ea by by intros []. done. }
    destruct (put_sidechain_frame (active_sidechains s) n (set_activation (set_votes sc (vote_count (sc_status sc) + 1)) (Some h)) Hwf) as [Ho Hn].
    destruct (sidechain (active_sidechains s) !! n) as [r|]; cbn -[put_sidechain]; eexists _, _; (split; [reflexivity|]); cbn -[put_sidechain];
      (split; [intros i Hne; apply lookup_delete_ne; by intros <-|]); (split; [done|]); (split; [done|]); [done|].
    intros _ Hno. exfalso. specialize (Hno sc eq_refl Hh). by rewrite Ha in Hno.
  - cbn. eexists _, _. split; [reflexivity|]. cbn. split_and!; [|done..]. intros i Hne. apply lookup_insert_ne. by intros <-.
Qed.

(** A list of M2s, one per slot. *)
Lemma m2s_step (l : list (SidechainNumber * Hash * nat)) b acc evs s0 :
  let s := builder_dbs b in
  wf s0 -> run h (builder_diffs b) s0 s ->
  NoDup ((fun e => e.1.1) <$> l) ->
  (forall id sc, spi_sidechain_number id ∈ (fun e => e.1.1) <$> l -> proposal_id_to_sidechain s !! id = Some sc -> vote_count (sc_status sc) < u16_max) ->
  exists b' evs', foldM step ((fun e => (CM_M2 (mkM2 e.1.1 e.1.2), e.2)) <$> l) (b, acc, evs) = Ok (b', acc, evs') /\
    let s' := builder_dbs b' in
    run h (builder_diffs b') s0 s' /\
    (forall n, is_Some (sidechain (active_sidechains s) !! n) -> is_Some (sidechain (active_sidechains s') !! n) /\
       pending_m6ids (active_sidechains s') !! n = pending_m6ids (active_sidechains s) !! n) /\
    ((forall n hash v sc, (n, hash, v) ∈ l -> sidechain (active_sidechains s) !! n = None ->
        proposal_id_to_sidechain s !! mkSidechainProposalId n hash = Some sc -> h <> proposal_height (sc_status sc) ->
        activates_unused_slot (bh_thresholds bh) (vote_count (sc_status sc) + 1) (saturating_sub h (proposal_height (sc_status sc))) = false) ->
     forall n, sidechain (active_sidechains s) !! n = None -> sidechain (active_sidechains s') !! n = None).
Proof.
  cbn zeta. revert b evs. induction l as [|[[n hash] v] l IH]; intros b evs Hwf Hr Hnd Hv; [by exists b, evs|].
  cbn [fmap list_fmap fst snd] in *. apply NoDup_cons in Hnd as [Hn Hnd]. cbn [foldM]. pose proof (run_wf _ _ _ _ Hwf Hr) as [Hwa _].
  destruct (m2_step b acc evs n hash v Hwa) as (b1 & evs1 & Hs & Hp & Hk & Hu & Hf).
  { intros sc Hsc. apply (Hv (mkSidechainProposalId n hash)); [left|done]. }
  pose proof (connect_message_run _ _ _ _ (b, acc, evs) _ _ s0 Hr Hs) as Hr1. cbn in Hr1. rewrite Hs. cbn [mbind Res_bind].
  destruct (IH b1 evs1 Hwf Hr1 Hnd) as (b' & evs' & Hs' & Hr' & Hu' & Hf').
  { intros id sc Hin Hsc. apply (Hv id); [by right|]. rewrite Hp in Hsc; [done|]. by intros <-. }
  assert (Hkeep : forall k, is_Some (sidechain (active_sidechains (builder_dbs b)) !! k) ->
    is_Some (sidechain (active_sidechains (builder_dbs b1)) !! k) /\
    pending_m6ids (active_sidechains (builder_dbs b1)) !! k = pending_m6ids (active_sidechains (builder_dbs b)) !! k).
  { intros k Hks. destruct (decide (k = n)) as [->|Hne]; [by apply Hu|]. destruct (Hk k Hne) as [-> ->]. done. }
  exists b', evs'. split_and!; [exact Hs'|done|..].
  - intros k Hks. destruct (Hkeep k Hks) as [H1 E1]. destruct (Hu' k H1) as [H2 E2]. split; [done|]. by rewrite E2.
  - intros Hno k Hks. apply Hf'.
    + intros n' hash' v' sc Hin Hn' Hsc Hne. assert (Hd : n' <> n).
      { intros ->. apply Hn, list_elem_of_fmap. by exists (n, hash', v'). }
      destruct (Hk n' Hd) as [Es _]. rewrite Es in Hn'. rewrite (Hp (mkSidechainProposalId n' hash') Hd) in Hsc.
      eapply Hno; [right; exact Hin|done..].
    + destruct (decide (k = n)) as [->|Hne]; [|by destruct (Hk k Hne) as [-> _]]. apply Hf; [done|].
      intros sc Hsc Hne. eapply (Hno n hash v); [left|done..].
Qed.

Lemma m3_step b acc evs n m6id v p :
  let s := builder_dbs b in
  is_Some (sidechain (active_sidechains s) !! n) -> pending_m6ids (active_sidechains s) !! n = Some p -> om_get m6id p = None ->
  exists b' evs' p', step (b, acc, evs) (CM_M3 (mkM3 n m6id), v) = Ok (b', acc, evs') /\
    sidechain (active_sidechains (builder_dbs b')) = sidechain (active_sidechains s) /\
    pending_m6ids (active_sidechains (builder_dbs b')) = <[n := p']> (pending_m6ids (active_sidechains s)) /\
    (length p <= length p')%nat.
Proof.
  intros s Hn Hp Hm. unfold connect_message, handle_coinbase_message, handle_m3_propose_bundle, db_get. cbn [fst]. fold s.
  rewrite (proj2 (contains_key_true _ _) Hn). cbn [negb]. rewrite Hp. cbn.
  assert (Hc : om_contains m6id p = false) by (unfold om_contains; rewrite Hm; by apply bool_decide_eq_false_2; intros []).
  rewrite Hc. cbn. unfold diff_builder_apply. cbn. fold s. unfold on_active, put_pending_m6id, with_pending_withdrawals, db_get.
  rewrite Hp. cbn. eexists _, _, _. split; [reflexivity|]. cbn. split_and!; [done|reflexivity|].
  clear. induction p as [|[k i] p IH]; cbn; [lia|]. case_decide; cbn; lia.
Qed.

(** Votes that are valid for the pending bundles. *)
Lemma m4_step b acc evs votes v :
  let s := builder_dbs b in
  active_wf (active_sidechains s) ->
  Forall (fun v => match v with Upvote i => 0 <= i < ALARM_TWO_BYTES | _ => True end) votes ->
  length votes = length (numbers (active_sidechains s)) ->
  (forall n v p, vote_at s (vote_index <$> votes) n v p -> vote_valid p v) ->
  exists b' evs', step (b, acc, evs) (CM_M4 (from_votes votes), v) = Ok (b', acc, evs').
Proof.
  intros s Hwf Hv Hlen Hvalid. unfold connect_message, handle_coinbase_message. cbn [fst]. fold s. rewrite from_votes_read by done.
  destruct (m4_votes_apply s (vote_index <$> votes) h Hwf) as (d & ps & Hd & Hap & _); [by rewrite length_fmap|done|].
  rewrite Hd. cbn -[diff_builder_apply]. case_decide; cbn -[diff_builder_apply]; [by eexists _, _|].
  unfold diff_builder_apply. cbn. fold s. unfold on_active. cbn in Hap. rewrite Hap. cbn. by eexists _, _.
Qed.

End Steps.

Lemma length_numbers a : length (numbers a) = size (sidechain a).
Proof.
  rewrite <- (length_map_to_list (sidechain a)), <- (length_fmap fst (map_to_list (sidechain a))). apply Permutation_length, NoDup_Permutation.
  - apply NoDup_numbers.
  - apply NoDup_fst_map_to_list.
  - intros n. rewrite elem_of_numbers, list_elem_of_fmap. split.
    + intros [sc Hsc]. exists (n, sc). split; [done|]. by apply elem_of_map_to_list.
    + intros ([k sc] & -> & Hin%elem_of_map_to_list). by eexists.
Qed.

(** Abstaining for every slot is always possible. *)
Lemma default_m4_total h parent ex b :
  active_wf (active_sidechains (builder_dbs b)) -> exists b', connect_default_m4 h parent ex b = Ok b'.
Proof.
  intros Hwf. unfold connect_default_m4. destruct ex; [by eexists|]. cbn -[diff_builder_apply replicate]. set (s := builder_dbs b) in *.
  destruct (m4_votes_apply s (widen_vote <$> replicate (size (sidechain (active_sidechains s))) ABSTAIN_ONE_BYTE) h Hwf) as (d & ps & -> & Hap & _).
  - by rewrite length_fmap, length_replicate, length_numbers.
  - intros n v p (i & _ & Hv & _). left. apply list_lookup_fmap_Some in Hv as (x & -> & Hx). by apply lookup_replicate in Hx as [-> _].
  - cbn -[diff_builder_apply]. case_decide; [by eexists|]. unfold diff_builder_apply. cbn. fold s. unfold on_active. cbn in Hap.
    rewrite Hap. cbn. by eexists.
Qed.

(** ** The whole coinbase *)

(** A block with nothing but a coinbase is processed if its messages are. *)
Lemma coinbase_block_total bh s h hash parent cb ms :
  wf s -> coinbase_messages_new (output cb) = Ok ms ->
  (forall m1s, m1s_complete ms m1s ->
     exists st, foldM (connect_message bh h parent m1s) (messages ms) (diff_builder_new s, [], []) = Ok st) ->
  exists r, process_block bh s h hash parent cb [] = Ok r.
Proof.
  intros Hwf Hms Hall. destruct (collect_total _ _ Hms) as (m1s & Hcol & Hcomp). destruct (Hall m1s Hcomp) as [[[b acc] evs] Hst].
  unfold process_block. rewrite Hcol. cbn -[handle_failed_m6ids handle_failed_sidechain_proposals connect_default_m4]. rewrite Hst.
  cbn -[handle_failed_m6ids handle_failed_sidechain_proposals connect_default_m4].
  assert (Hr : run h (builder_diffs b) s (builder_dbs b)) by exact (connect_messages_run _ _ _ _ _ (diff_builder_new s) _ _ _ s (run_nil h s) Hst).
  destruct (default_m4_total h parent (m4_exists ms) b) as [b' Hb]; [by apply (run_wf _ _ _ _ Hwf Hr)|]. rewrite Hb.
  cbn -[handle_failed_m6ids handle_failed_sidechain_proposals].
  pose proof (connect_default_m4_run _ _ _ _ _ _ Hr Hb) as Hr'. pose proof (run_wf _ _ _ _ Hwf Hr') as [Hwa _].
  set (s1 := set_proposals (builder_dbs b') _).
  destruct (failed_m6ids_removed bh s1 h Hwa) as (d & ps & -> & Hap & _). cbn. unfold on_active. cbn in Hap. rewrite Hap. cbn. by eexists.
Qed.


End Accept.
