(* ===== verification/TreasurySafety.v ===== *)
(** * Safety of the treasuries

    What one transaction, and one block, may do to the coins a sidechain's
    treasury holds. The treasury of a slot is its CTIP together with the
    treasury outputs of the block that are not consolidated yet. *)

From Stdlib Require Import Strings.Byte.
From stdpp Require Import base numbers list gmap.
From S2P Require Import Prelude OrderMap Bitcoin Types Messages M6 Dbs BlockHashes Treasury Diff Reversible Handlers HandlerProofs ConnectBlock ConnectProofs.
Open Scope Z_scope.

(** ** The coins a transaction spends *)

Definition sum (l : list Amount) : Amount := foldr Z.add 0 l.
#[global] Arguments sum : simpl never.

Lemma sum_cons v l : sum (v :: l) = v + sum l.
Proof. done. Qed.

Lemma sum_app l1 l2 : sum (l1 ++ l2) = sum l1 + sum l2.
Proof. induction l1; cbn; rewrite ?sum_cons, ?IHl1; [done|lia]. Qed.

#[global] Instance sum_proper : Proper ((≡ₚ) ==> eq) sum.
Proof. induction 1; rewrite ?sum_cons; lia. Qed.

(** The slot and the value of a treasury UTXO. *)
Definition treasury_utxo (s : Dbs) (u : UnconsolidatedCtips) (o : OutPoint) : option (SidechainNumber * Amount) :=
  match ctip_outpoint_to_value_seq (active_sidechains s) !! o with
  | Some (n, v, _) => Some (n, v)
  | None => by_outpoint u !! o
  end.

(** What an input takes from the treasury of slot [n]. *)
Definition input_value (s : Dbs) (u : UnconsolidatedCtips) (n : SidechainNumber) (txin : TxIn) : Amount :=
  match treasury_utxo s u (previous_output txin) with
  | Some (n', v) => if decide (n' = n) then v else 0
  | None => 0
  end.

Definition spent_value (s : Dbs) (u : UnconsolidatedCtips) (n : SidechainNumber) (ins : list TxIn) : Amount :=
  sum (input_value s u n <$> ins).

Lemma spent_value_snoc s u n ins txin :
  spent_value s u n (ins ++ [txin]) = spent_value s u n ins + input_value s u n txin.
Proof. unfold spent_value. rewrite fmap_app, sum_app. cbn. rewrite sum_cons. change (sum []) with 0. lia. Qed.

Lemma spent_value_zero s u n ins :
  (forall txin v, txin ∈ ins -> treasury_utxo s u (previous_output txin) <> Some (n, v)) -> spent_value s u n ins = 0.
Proof.
  intros Hins. induction ins as [|t ins IH]; [done|]. unfold spent_value in *. cbn. rewrite sum_cons.
  rewrite IH by (intros txin v Ht; apply Hins; by right). unfold input_value.
  destruct (treasury_utxo s u _) as [[n' v]|] eqn:E; [|done]. destruct (decide (n' = n)) as [->|]; [|done].
  destruct (Hins t v); [by left|done].
Qed.

Section Spent.
Context `{Bitcoin, Nom}.
Variables (bh : BlockHandler) (s : Dbs) (u : UnconsolidatedCtips) (tx : Transaction).

Definition counted (pre : list TxIn) (infos : gmap SidechainNumber TxCtipsInfo) : Prop :=
  forall n info, infos !! n = Some info -> treasury_in info = spent_value s u n pre.

Lemma counted_skip pre infos txin :
  (forall n info, infos !! n = Some info -> input_value s u n txin = 0) -> counted pre infos -> counted (pre ++ [txin]) infos.
Proof. intros Hz Hc n info Hn. rewrite spent_value_snoc, (Hz n info Hn), (Hc n info Hn). lia. Qed.

(** An entry that grows by the value of the input it records. *)
Lemma counted_insert pre infos txin n info info' v :
  infos !! n = Some info -> treasury_utxo s u (previous_output txin) = Some (n, v) ->
  treasury_in info' = treasury_in info + v ->
  counted pre infos -> counted (pre ++ [txin]) (<[n := info']> infos).
Proof.
  intros Hn Ht Hv Hc n' i. rewrite spent_value_snoc. unfold input_value. rewrite Ht.
  intros [[<- <-]|[Hne Hi]]%lookup_insert_Some.
  - rewrite decide_True, Hv, (Hc n info Hn) by done. lia.
  - rewrite decide_False, (Hc n' i Hi) by done. lia.
Qed.

Lemma treasury_in_union info o v (X : gset Ctip) c :
  mkCtip o v ∉ X ->
  treasury_in (mkTxCtipsInfo c ({[mkCtip o v]} ∪ X) (ctip_output info)) = treasury_in (mkTxCtipsInfo c X (ctip_output info)) + v.
Proof.
  intros Hn. unfold treasury_in. cbn. fold (sum (ctip_value <$> elements X)).
  fold (sum (ctip_value <$> elements ({[mkCtip o v]} ∪ X))). rewrite elements_union_singleton by done.
  cbn. rewrite sum_cons. cbn. lia.
Qed.

Lemma counted_step pre infos infos' txin :
  previous_output txin ∉ previous_output <$> pre ->
  fill_spec bh s u tx (fun o => o ∈ previous_output <$> pre) infos -> counted pre infos ->
  fill_ctip_input s u infos txin = Ok infos' -> counted (pre ++ [txin]) infos'.
Proof.
  intros Hnew Hs Hc Hstep. unfold fill_ctip_input in Hstep.
  destruct (ctip_outpoint_to_value_seq _ !! _) as [[[n v] q]|] eqn:Et;
    [|destruct (by_outpoint u !! _) as [[n v]|] eqn:Eu]; res_inv.
  - match goal with E : bool_decide _ = true |- _ => apply bool_decide_eq_true in E; rename E into Hnone end.
    eapply (counted_insert pre infos txin n x _ v); [done| | |done].
    + unfold treasury_utxo. by rewrite Et.
    + unfold treasury_in. cbn. rewrite Hnone. lia.
  - eapply (counted_insert pre infos txin n x _ v); [done| | |done].
    + unfold treasury_utxo. by rewrite Et.
    + rewrite treasury_in_union; [by destruct x|]. intros Hin. apply Hnew.
      by destruct (fs_unconsolidated _ _ _ _ _ _ Hs n x _ ltac:(done) Hin).
  - apply counted_skip; [|done]. intros. unfold input_value, treasury_utxo. by rewrite Et, Eu.
Qed.

(** The value [fill_ctips] finds for a slot is what the transaction spends. *)
Lemma fill_ctips_spent infos :
  NoDup (previous_output <$> input tx) -> fill_ctips bh s u tx = Ok infos -> counted (input tx) infos.
Proof.
  intros Hnd Hf. unfold fill_ctips in Hf. apply bind_Ok in Hf as (m & Hout & Hin).
  assert (H0' : counted [] m).
  { revert Hout. apply (foldM_invariant (counted [])); [|by intros ??; rewrite lookup_empty].
    intros m1 m2 [v out] _ Hm Hstep n info Hn. unfold fill_ctip_output in Hstep.
    destruct (op_drivechain_parse _ _) as [[r n']|]; [|simplify_eq/=; by apply Hm].
    destruct (negb _); [simplify_eq/=; by apply Hm|]. destruct (m1 !! n') eqn:E; [done|]. injection Hstep as <-.
    apply lookup_insert_Some in Hn as [[<- <-]|[_ Hn]]; [|by apply Hm]. done. }
  apply (fill_outputs bh s u tx) in Hout.
  apply (foldM_prefix (fun pre infos => fill_spec bh s u tx (fun o => o ∈ previous_output <$> pre) infos /\ counted pre infos))
    in Hin; [by destruct Hin| |].
  - intros pre txin m1 m2 [rest Hpre] [Hs Hc] Hstep. split.
    + eapply fill_spec_iff; [|by eapply fill_input_step]. intros o. rewrite fmap_app, elem_of_app. cbn.
      by rewrite list_elem_of_singleton.
    + eapply counted_step; [|done..]. rewrite Hpre, !fmap_app in Hnd. apply NoDup_app in Hnd as (Hnd & _ & _).
      apply NoDup_app in Hnd as (_ & Hd & _). intros Ho. apply (Hd _ Ho). by left.
  - split; [|done]. eapply fill_spec_iff; [|exact Hout]. intros o. cbn. by rewrite elem_of_nil.
Qed.

End Spent.

(** ** One transaction *)

Section Transaction.
Context `{Bitcoin, Nom}.
Implicit Types (bh : BlockHandler) (s : Dbs) (u : UnconsolidatedCtips).

Lemma handle_m5_m6_flows bh s u tx r u' :
  NoDup (previous_output <$> input tx) -> handle_m5_m6 bh s u tx = Ok (r, u') ->
  exists infos, fill_spec bh s u tx (spent tx) infos /\ counted s u (input tx) infos /\
    slots_outcome bh s tx (map_to_list infos) r /\
    u' = foldl (fun u e => update_unconsolidated s u e.1 e.2) u (map_to_list infos).
Proof.
  intros Hnd Hr. unfold handle_m5_m6 in Hr. apply bind_Ok in Hr as (infos & Hf & Hr). exists infos.
  split; [by apply fill_ctips_spec|]. split; [by eapply fill_ctips_spent|].
  eapply handle_slots_outcome; [|exact Hr]. apply NoDup_fst_map_to_list.
Qed.

(** A slot whose treasury is touched has an entry. *)
Lemma spent_has_info bh s u tx infos txin n v :
  fill_spec bh s u tx (spent tx) infos -> txin ∈ input tx -> treasury_utxo s u (previous_output txin) = Some (n, v) ->
  is_Some (infos !! n).
Proof.
  intros Hs Hin Ht. assert (Hsp : spent tx (previous_output txin)) by by apply list_elem_of_fmap_2.
  unfold treasury_utxo in Ht. destruct (ctip_outpoint_to_value_seq _ !! _) as [[[n' v'] q]|] eqn:E.
  - injection Ht as -> ->. destruct (fs_consolidated_all _ _ _ _ _ _ Hs _ _ _ _ Hsp E) as (? & ? & _). by eexists.
  - destruct (fs_unconsolidated_all _ _ _ _ _ _ Hs _ _ _ Hsp E Ht) as (? & ? & _). by eexists.
Qed.

(** Every input of the transaction is a treasury UTXO of slot [n]. *)
Definition spends_only s u tx n : Prop :=
  forall txin, txin ∈ input tx -> exists v, treasury_utxo s u (previous_output txin) = Some (n, v).

(** The withdrawal of a bundle of slot [n] that was voted for: the transaction
    pays the bundle, which is pending with more votes than the threshold, it
    spends nothing but the slot's treasury, and its first output is the only
    treasury output. *)
Record authorised bh s u tx n (m6id : M6id) : Prop := {
  au_id : compute_m6id (op_drivechain (bh_params bh)) tx (spent_value s u n (input tx)) = Ok (m6id, n);
  au_votes : exists p i info, pending_m6ids (active_sidechains s) !! n = Some p /\ om_get_full m6id p = Some (i, info) /\
    (require_payable_bundles bh = true ->
     withdrawal_bundle_inclusion_threshold (bh_thresholds bh) < pm_vote_count info);
  au_inputs : spends_only s u tx n;
  au_outputs : forall vout out n', output tx !! vout = Some out -> designates bh s out n' -> vout = O /\ n' = n }.

Lemma withdrawal_authorised bh s u tx infos n info m idx i :
  fill_spec bh s u tx (spent tx) infos -> counted s u (input tx) infos -> outputs_bounded tx ->
  map_to_list infos = [(n, info)] -> withdrawal_ok bh s tx n info m idx i -> authorised bh s u tx n m.
Proof.
  intros Hs Hc Hb Hl (_ & (c & Hcons & Hins) & Hv0 & Hm6).
  assert (Hi : infos !! n = Some info) by (apply elem_of_map_to_list; rewrite Hl; by left).
  rewrite (Hc n info Hi) in Hm6. apply handle_m6_pending in Hm6 as (Hid & (p & Hp & Hg) & Hvotes). split; [done|by exists p, idx, i|..].
  - intros txin Ht. unfold treasury_utxo. destruct (Hins txin Ht) as [->|(c' & Hc' & ->)].
    + destruct (fs_consolidated _ _ _ _ _ _ Hs _ _ _ Hi Hcons) as (_ & q & ->). by eexists.
    + destruct (fs_unconsolidated _ _ _ _ _ _ Hs _ _ _ Hi Hc') as (_ & -> & ->). by eexists.
  - intros vout out n' Ho Hd. destruct (fs_output_all _ _ _ _ _ _ Hs _ _ _ Ho Hd) as (info' & Hi' & Hout).
    assert (n' = n) as ->.
    { apply elem_of_map_to_list in Hi'. rewrite Hl in Hi'. by apply list_elem_of_singleton in Hi' as [= -> ->]. }
    split; [|done]. assert (info' = info) as -> by congruence. rewrite Hout in Hv0. cbn in Hv0. unfold as_u32 in Hv0.
    apply lookup_lt_Some in Ho. unfold outputs_bounded in Hb. rewrite Z.mod_small in Hv0 by lia. lia.
Qed.

(** C4. No coins leave a treasury without an authorised withdrawal. Let a
    transaction be accepted. (1) If it spends a treasury UTXO of a slot, it has
    a treasury output for that slot. (2) It has at most one per slot. (3) The
    value of that output is at least what the transaction spends from the
    slot's treasury, or the transaction is classified as the withdrawal of an
    authorised bundle of that slot. *)
Theorem treasury_conservation bh s u tx r u' :
  NoDup (previous_output <$> input tx) -> outputs_bounded tx -> handle_m5_m6 bh s u tx = Ok (r, u') ->
  (forall txin n v, txin ∈ input tx -> treasury_utxo s u (previous_output txin) = Some (n, v) ->
     exists vout out, output tx !! vout = Some out /\ designates bh s out n) /\
  (forall vout vout' out out' n, output tx !! vout = Some out -> output tx !! vout' = Some out' ->
     designates bh s out n -> designates bh s out' n -> vout' = vout) /\
  (forall vout out n, output tx !! vout = Some out -> designates bh s out n ->
     spent_value s u n (input tx) <= value out \/
     exists m6id q d, r = Some (M6Withdrawal n m6id q d) /\ authorised bh s u tx n m6id).
Proof.
  intros Hnd Hb Hr. destruct (handle_m5_m6_flows _ _ _ _ _ _ Hnd Hr) as (infos & Hs & Hc & Ho & _). split_and!.
  - intros txin n v Ht Hu. destruct (spent_has_info _ _ _ _ _ _ _ _ Hs Ht Hu) as [info Hi].
    destruct (fs_output _ _ _ _ _ _ Hs _ _ Hi) as (vout & out & ? & ? & _). by exists vout, out.
  - intros v1 v2 o1 o2 n E1 E2 D1 D2.
    destruct (fs_output_all _ _ _ _ _ _ Hs _ _ _ E1 D1) as (i1 & Hi1 & C1).
    destruct (fs_output_all _ _ _ _ _ _ Hs _ _ _ E2 D2) as (i2 & Hi2 & C2).
    assert (i2 = i1) as -> by congruence. rewrite C1 in C2. injection C2 as C2 _.
    symmetry. eapply as_u32_inj; [by eapply lookup_lt_Some..|exact Hb|exact C2].
  - intros vout out n Hv Hd. destruct (fs_output_all _ _ _ _ _ _ Hs _ _ _ Hv Hd) as (info & Hi & Hout).
    assert (Hval : ctip_value (ctip_output info) = value out) by by rewrite Hout.
    assert (Hl : (n, info) ∈ map_to_list infos) by by apply elem_of_map_to_list.
    destruct r as [[ds d|n' m q d]|].
    + left. destruct Ho as (_ & Hin & _). destruct (Hin n info Hl) as [Hdep _].
      rewrite <- (Hc n info Hi), <- Hval. unfold deposit_ok in Hdep. destruct (ds !! n); destruct Hdep; lia.
    + destruct Ho as (info' & Hl' & Hw & _). rewrite Hl' in Hl. apply list_elem_of_singleton in Hl as [= -> ->].
      right. exists m, q, d. split; [done|]. by eapply withdrawal_authorised.
    + cbn in Ho. rewrite Ho in Hl. by apply elem_of_nil in Hl.
Qed.

End Transaction.

(** ** The balance of a treasury *)

(** The value of the unconsolidated outputs of slot [n]. *)
Definition slot_value (n : SidechainNumber) (_ : OutPoint) (e : SidechainNumber * Amount) (acc : Amount) : Amount :=
  if decide (e.1 = n) then e.2 + acc else acc.

Definition unconsolidated_value (u : UnconsolidatedCtips) (n : SidechainNumber) : Amount :=
  map_fold (slot_value n) 0 (by_outpoint u).

Definition ctip_amount (a : ActiveSidechainDbs) (n : SidechainNumber) : Amount := from_option ctip_value 0 (ctip a !! n).

Definition balance (a : ActiveSidechainDbs) (u : UnconsolidatedCtips) (n : SidechainNumber) : Amount :=
  ctip_amount a n + unconsolidated_value u n.

Lemma map_fold_slot_insert m n o e :
  m !! o = None -> map_fold (slot_value n) 0 (<[o := e]> m) = slot_value n o e (map_fold (slot_value n) 0 m).
Proof.
  intros Hn. apply (map_fold_insert_L (slot_value n)); [|done]. intros.
  unfold slot_value. repeat case_decide; lia.
Qed.

Lemma map_fold_slot_delete m n o e :
  m !! o = Some e -> map_fold (slot_value n) 0 m = slot_value n o e (map_fold (slot_value n) 0 (delete o m)).
Proof. intros Hs. by rewrite <- (map_fold_slot_insert (delete o m) n o e), insert_delete_id by apply lookup_delete_eq || done. Qed.

Lemma uc_remove_by_outpoint o u : by_outpoint (uc_remove o u).1 = delete o (by_outpoint u).
Proof. unfold uc_remove. destruct (by_outpoint u !! o) as [[n v]|] eqn:E; cbn; [done|]. by rewrite delete_id. Qed.

(** Removing outputs of slot [n]. *)
Lemma uc_remove_all (l : list Ctip) u n m :
  NoDup (ctip_outpoint <$> l) -> (forall c, c ∈ l -> by_outpoint u !! ctip_outpoint c = Some (n, ctip_value c)) ->
  let u' := foldl (fun u c => (uc_remove (ctip_outpoint c) u).1) u l in
  (forall o, by_outpoint u' !! o = if decide (o ∈ ctip_outpoint <$> l) then None else by_outpoint u !! o) /\
  unconsolidated_value u' m = unconsolidated_value u m - (if decide (n = m) then sum (ctip_value <$> l) else 0).
Proof.
  revert u. induction l as [|c l IH]; intros u Hnd Hl; cbn.
  - split; [|case_decide; change (sum []) with 0; lia]. intros o. by rewrite decide_False by apply not_elem_of_nil.
  - apply NoDup_cons in Hnd as [Hc Hnd]. set (u1 := (uc_remove (ctip_outpoint c) u).1).
    assert (E1 : by_outpoint u1 = delete (ctip_outpoint c) (by_outpoint u)) by apply uc_remove_by_outpoint.
    destruct (IH u1) as [IHo IHv]; [done| |].
    { intros c' Hc'. rewrite E1, lookup_delete_ne; [apply Hl; by right|].
      intros Ho. apply Hc. rewrite Ho. by apply list_elem_of_fmap_2. }
    split.
    + intros o. rewrite IHo, E1. destruct (decide (o = ctip_outpoint c)) as [->|Hne].
      * rewrite decide_False, decide_True by (done || by left). apply lookup_delete_eq.
      * rewrite lookup_delete_ne by done. destruct (decide (o ∈ ctip_outpoint <$> l)).
        -- by rewrite decide_True by by right.
        -- rewrite decide_False; [done|]. by intros [?|?]%elem_of_cons.
    + rewrite IHv. unfold unconsolidated_value. rewrite E1.
      rewrite (map_fold_slot_delete (by_outpoint u) m (ctip_outpoint c) (n, ctip_value c)) by (apply Hl; by left).
      rewrite sum_cons. set (r := map_fold _ _ _). unfold slot_value. cbn. case_decide; lia.
Qed.

Lemma uc_insert_value n c u m :
  by_outpoint u !! ctip_outpoint c = None ->
  unconsolidated_value (uc_insert n c u) m = unconsolidated_value u m + (if decide (n = m) then ctip_value c else 0).
Proof.
  intros Hn. unfold unconsolidated_value. cbn. rewrite map_fold_slot_insert by done. unfold slot_value at 1. cbn.
  case_decide; lia.
Qed.

(** The inputs and the output of a slot, as far as [u] is concerned. *)
Definition slot_ok u (e : SidechainNumber * TxCtipsInfo) : Prop :=
  (forall c, c ∈ unconsolidated_ctip_inputs e.2 -> by_outpoint u !! ctip_outpoint c = Some (e.1, ctip_value c)) /\
  by_outpoint u !! ctip_outpoint (ctip_output e.2) = None.

(** What the slot loop adds to the unconsolidated value of a slot. *)
Definition slot_gain s (e : SidechainNumber * TxCtipsInfo) : Amount :=
  (if stays_unconsolidated s e.1 e.2 then ctip_value (ctip_output e.2) else 0)
  - sum (ctip_value <$> elements (unconsolidated_ctip_inputs e.2)).

Lemma update_unconsolidated_step s u n info :
  slot_ok u (n, info) ->
  (forall o, by_outpoint (update_unconsolidated s u n info) !! o
     = if decide (o ∈ ctip_outpoint <$> elements (unconsolidated_ctip_inputs info)) then None
       else if stays_unconsolidated s n info && bool_decide (o = ctip_outpoint (ctip_output info))
            then Some (n, ctip_value (ctip_output info)) else by_outpoint u !! o) /\
  (forall m, unconsolidated_value (update_unconsolidated s u n info) m
     = unconsolidated_value u m + (if decide (n = m) then slot_gain s (n, info) else 0)).
Proof.
  intros [Hin Hout]. cbn in Hin, Hout. unfold update_unconsolidated. fold (stays_unconsolidated s n info).
  set (l := elements (unconsolidated_ctip_inputs info)).
  assert (Hl : forall c, c ∈ l -> by_outpoint u !! ctip_outpoint c = Some (n, ctip_value c)).
  { intros c Hc. apply Hin. by apply elem_of_elements. }
  assert (Hnd : NoDup (ctip_outpoint <$> l)).
  { apply NoDup_fmap_2_strong; [|apply NoDup_elements]. intros [o1 v1] [o2 v2] H1 H2 E. cbn in E. subst o2.
    pose proof (Hl _ H1). pose proof (Hl _ H2). cbn in *. congruence. }
  set (u1 := foldl _ u l). assert (E1 : by_outpoint u1 !! ctip_outpoint (ctip_output info) = None).
  { destruct (uc_remove_all l u n n Hnd Hl) as [Ho _]. unfold u1. rewrite Ho. by case_decide. }
  assert (Hnot : ctip_outpoint (ctip_output info) ∉ ctip_outpoint <$> l).
  { intros (c & Hc & Hcl)%list_elem_of_fmap. rewrite Hc, (Hl c Hcl) in Hout. done. }
  split.
  - intros o. destruct (uc_remove_all l u n n Hnd Hl) as [Ho _]. specialize (Ho o). fold u1 in Ho.
    destruct (stays_unconsolidated s n info); cbn [andb]; [|exact Ho].
    cbn. destruct (decide (o = ctip_outpoint (ctip_output info))) as [->|Hne].
    + by rewrite lookup_insert_eq, decide_False, bool_decide_eq_true_2.
    + rewrite lookup_insert_ne, bool_decide_eq_false_2 by done. exact Ho.
  - intros m. destruct (uc_remove_all l u n m Hnd Hl) as [_ Hv]. fold u1 in Hv. unfold slot_gain. cbn [fst snd]. fold l.
    destruct (stays_unconsolidated s n info); [rewrite uc_insert_value by done|]; rewrite Hv; case_decide; lia.
Qed.

Definition gains s (l : list (SidechainNumber * TxCtipsInfo)) (m : SidechainNumber) : Amount :=
  sum ((fun e => if decide (e.1 = m) then slot_gain s e else 0) <$> l).

Lemma update_all_value s u l m :
  NoDup l.*1 -> NoDup ((fun e => ctip_outpoint (ctip_output e.2)) <$> l) -> Forall (slot_ok u) l ->
  unconsolidated_value (foldl (fun u e => update_unconsolidated s u e.1 e.2) u l) m = unconsolidated_value u m + gains s l m.
Proof.
  revert u. induction l as [|[n info] l IH]; intros u Hk Ho Hl; cbn.
  - unfold gains. cbn. change (sum []) with 0. lia.
  - apply NoDup_cons in Hk as [Hn Hk]. apply NoDup_cons in Ho as [Hout Ho]. apply Forall_cons in Hl as [He Hl].
    destruct (update_unconsolidated_step s u n info He) as [Hby Hval].
    unfold gains. cbn. rewrite sum_cons. fold (gains s l m). rewrite IH, Hval; [lia|done..|].
    apply Forall_forall. intros [n' i'] Hin. rewrite Forall_forall in Hl. destruct (Hl _ Hin) as [Hin' Hout'].
    cbn in Hin', Hout'. assert (Hne : n' <> n) by (intros ->; apply Hn; by apply (list_elem_of_fmap_2 fst _ (n, i'))).
    split; cbn [fst snd].
    + intros c Hc. rewrite Hby, decide_False, bool_decide_eq_false_2, andb_false_r; [by apply Hin'|..].
      * intros E. destruct He as [_ He]. cbn in He. rewrite <- E, (Hin' c Hc) in He. done.
      * intros (c' & E & Hc'%elem_of_elements)%list_elem_of_fmap. destruct He as [He _]. cbn in He.
        pose proof (He c' Hc') as E1. rewrite <- E, (Hin' c Hc) in E1. congruence.
    + rewrite Hby. case_decide; [done|]. rewrite bool_decide_eq_false_2, andb_false_r; [done|].
      intros E. apply Hout. cbn. rewrite <- E. by apply (list_elem_of_fmap_2 (fun e => ctip_outpoint (ctip_output e.2)) _ (n', i')).
Qed.

Lemma gains_lookup s (infos : gmap SidechainNumber TxCtipsInfo) m :
  gains s (map_to_list infos) m = from_option (fun info => slot_gain s (m, info)) 0 (infos !! m).
Proof.
  induction infos as [|n info infos Hn IH] using map_ind; [done|].
  unfold gains in *. rewrite map_to_list_insert by done. cbn. rewrite sum_cons, IH.
  destruct (decide (n = m)) as [->|Hne].
  - rewrite Hn, lookup_insert_eq. cbn. lia.
  - rewrite lookup_insert_ne by done. lia.
Qed.

(** ** Applying the diff of a transaction *)

Lemma put_new_ctips_tables l a a' :
  foldM put_new_ctip l a = Ok a' ->
  ctip a' = foldl (fun m e => <[e.1 := e.2]> m) (ctip a) l /\
  forall o n v q, ctip_outpoint_to_value_seq a' !! o = Some (n, v, q) ->
    ctip_outpoint_to_value_seq a !! o = Some (n, v, q) \/ (n, mkCtip o v) ∈ l.
Proof.
  revert a. induction l as [|[n0 [o0 v0]] l IH]; intros a Hf; cbn [foldM] in Hf.
  - injection Hf as <-. split; [done|by left].
  - apply bind_Ok in Hf as (a1 & E1 & Hf). apply IH in Hf as [-> Ht]. unfold put_new_ctip, put_ctip in E1. res_inv.
    cbn in *. split; [done|]. intros o n v q Ho. destruct (Ht o n v q Ho) as [[[<- E]|[_ Ha]]%lookup_insert_Some|Hl].
    + injection E as <- <- _. right. by left.
    + by left.
    + right. by right.
Qed.

Definition diff_ctips (d : TxDiff) : gmap SidechainNumber Ctip :=
  match d with D_M5 d => new_ctips d | D_M6 d => {[m6_sidechain_number d := m6_new_ctip d]} end.

Lemma tx_apply_tables (d : TxDiff) h a a' :
  apply d h a = Ok a' ->
  ctip a' = diff_ctips d ∪ ctip a /\
  forall o n v q, ctip_outpoint_to_value_seq a' !! o = Some (n, v, q) ->
    ctip_outpoint_to_value_seq a !! o = Some (n, v, q) \/ diff_ctips d !! n = Some (mkCtip o v).
Proof.
  destruct d as [d|d]; intros Ha.
  - apply put_new_ctips_tables in Ha as [-> Ht]. split; [apply foldl_insert_union|]. intros o n v q Ho.
    destruct (Ht o n v q Ho) as [?|Hl]; [by left|right]. by apply elem_of_map_to_list in Hl.
  - cbn in Ha. apply bind_Ok in Ha as (a1 & E1 & Ha). apply with_pending_Ok in Ha as (? & ? & _ & _ & ->).
    destruct (put_new_ctips_tables [(m6_sidechain_number d, m6_new_ctip d)] a a1) as [Hc Ht].
    { cbn. by rewrite E1. }
    cbn in *. rewrite Hc. split; [by rewrite insert_union_singleton_l|]. intros o n v q Ho.
    destruct (Ht o n v q Ho) as [?|Hl]; [by left|right]. apply list_elem_of_singleton in Hl as [= -> ->].
    apply lookup_singleton_eq.
Qed.

Section Balance.
Context `{Bitcoin, Nom}.
Implicit Types (bh : BlockHandler) (s : Dbs) (u : UnconsolidatedCtips).

(** The outpoints are unspent: those that are treasury UTXOs are the CTIP of
    their slot. *)
Definition unspent (a : ActiveSidechainDbs) (ins : list OutPoint) : Prop :=
  forall o n v q, o ∈ ins -> ctip_outpoint_to_value_seq a !! o = Some (n, v, q) -> ctip a !! n = Some (mkCtip o v).

(** No unconsolidated output belongs to the transaction. *)
Definition uc_fresh (tx : Transaction) u : Prop := forall o, op_txid o = compute_txid tx -> by_outpoint u !! o = None.

Lemma slots_ok bh s u tx infos :
  fill_spec bh s u tx (spent tx) infos -> outputs_bounded tx -> uc_fresh tx u ->
  NoDup ((fun e => ctip_outpoint (ctip_output e.2)) <$> map_to_list infos) /\ Forall (slot_ok u) (map_to_list infos).
Proof.
  intros Hs Hb Hu. split.
  - apply NoDup_fmap_2_strong; [|apply NoDup_map_to_list].
    intros [n1 i1] [n2 i2] E1%elem_of_map_to_list E2%elem_of_map_to_list E. cbn in E.
    assert (n1 = n2) as <- by by eapply (output_ctip_inj bh s u tx infos). congruence.
  - apply Forall_forall. intros [n info] Hi%elem_of_map_to_list. split; cbn.
    + intros c Hc. by destruct (fs_unconsolidated _ _ _ _ _ _ Hs _ _ _ Hi Hc) as (_ & _ & ?).
    + destruct (fs_output _ _ _ _ _ _ Hs _ _ Hi) as (v & out & _ & _ & ->). by apply Hu.
Qed.

Definition result_diff (r : DepositsOrSuccessfulWithdrawal) : TxDiff :=
  match r with M5Deposits _ d => D_M5 d | M6Withdrawal _ _ _ d => D_M6 d end.

(** The CTIPs a transaction's diff sets. *)
Lemma outcome_ctips bh s tx infos r n :
  slots_outcome bh s tx (map_to_list infos) (Some r) ->
  diff_ctips (result_diff r) !! n
  = info ← infos !! n; if stays_unconsolidated s n info then None else Some (ctip_output info).
Proof.
  intros Ho. destruct r as [ds d|n' m q d]; cbn.
  - destruct Ho as (_ & Hin & Hout). destruct (infos !! n) as [info|] eqn:E; cbn.
    + by destruct (Hin n info) as [_ ->]; [apply elem_of_map_to_list|].
    + apply Hout. intros ([n' i] & -> & Hl%elem_of_map_to_list)%list_elem_of_fmap. cbn in *. congruence.
  - destruct Ho as (info & Hl & (_ & (c & Hc & _) & _) & _ & -> & -> & _).
    assert (E : infos = {[n' := info]}).
    { apply map_eq. intros n0. apply option_eq. intros i. rewrite <- elem_of_map_to_list, Hl, list_elem_of_singleton.
      rewrite lookup_singleton_Some. naive_solver. }
    rewrite E. destruct (decide (n' = n)) as [->|Hne].
    + rewrite !lookup_singleton_eq. cbn. unfold stays_unconsolidated. by rewrite Hc.
    + by rewrite !lookup_singleton_ne.
Qed.

(** What the transaction does to the balance of a slot. *)
Lemma tx_balance bh s u tx infos r h a' n :
  fill_spec bh s u tx (spent tx) infos -> slots_outcome bh s tx (map_to_list infos) (Some r) ->
  outputs_bounded tx -> uc_fresh tx u -> unspent (active_sidechains s) (previous_output <$> input tx) ->
  apply (result_diff r) h (active_sidechains s) = Ok a' ->
  balance a' (foldl (fun u e => update_unconsolidated s u e.1 e.2) u (map_to_list infos)) n
  = balance (active_sidechains s) u n
    + from_option (fun info => ctip_value (ctip_output info) - treasury_in info) 0 (infos !! n).
Proof.
  intros Hs Ho Hb Hu Hun Ha. destruct (slots_ok _ _ _ _ _ Hs Hb Hu) as [Hnd Hok].
  unfold balance. rewrite update_all_value by (done || apply NoDup_fst_map_to_list). rewrite gains_lookup.
  unfold ctip_amount. apply tx_apply_tables in Ha as [-> _]. rewrite lookup_union, (outcome_ctips _ _ _ _ _ _ Ho).
  destruct (infos !! n) as [info|] eqn:Hi; cbn; [|rewrite (left_id_L None (∪)); lia].
  unfold slot_gain, treasury_in. cbn. fold (sum (ctip_value <$> elements (unconsolidated_ctip_inputs info))).
  unfold stays_unconsolidated, contains_key. destruct (consolidated_ctip_input info) as [c|] eqn:Hc; cbn.
  - destruct (fs_consolidated _ _ _ _ _ _ Hs _ _ _ Hi Hc) as (Hsp & q & Ht).
    pose proof (Hun _ _ _ _ Hsp Ht) as E. rewrite E. cbn. lia.
  - case_bool_decide as Hn; cbn.
    + rewrite (left_id_L None (∪)). lia.
    + apply eq_None_not_Some in Hn. rewrite Hn. cbn. lia.
Qed.

(** *** Deposits and payouts *)

Definition event_deposit (n : SidechainNumber) (e : BlockEvent) : Amount :=
  match e with BE_Deposits ds => from_option dep_value 0 (ds !! n) | _ => 0 end.

(** The payouts of a withdrawal: all outputs but the first. *)
Definition event_payout (n : SidechainNumber) (e : BlockEvent) : Amount :=
  match e with
  | BE_WithdrawalBundle (mkWithdrawalBundleEvent id _ (Succeeded _ tx)) =>
      if decide (id = n) then sum (value <$> tail (output tx)) else 0
  | _ => 0
  end.

Definition withdraws (n : SidechainNumber) (e : BlockEvent) : bool :=
  match e with
  | BE_WithdrawalBundle (mkWithdrawalBundleEvent id _ (Succeeded _ _)) => bool_decide (id = n)
  | _ => false
  end.

Definition deposited (n : SidechainNumber) (evs : list BlockEvent) : Amount := sum (event_deposit n <$> evs).
Definition paid_out (n : SidechainNumber) (evs : list BlockEvent) : Amount := sum (event_payout n <$> evs).

(** The fee of a withdrawal from slot [n]: the one its bundle, for which the
    miners voted, commits to. The id of the bundle is the hash of its payouts and
    of this fee, so the treasury that [compute_m6id] is given is the sum of the
    outputs and the fee. *)
Definition bundle_fee bh (n : SidechainNumber) (e : BlockEvent) (fee : Amount) : Prop :=
  exists m6id q tx, e = BE_WithdrawalBundle (mkWithdrawalBundleEvent n m6id (Succeeded q tx)) /\ 0 <= fee /\
    compute_m6id (op_drivechain (bh_params bh)) tx (sum (value <$> output tx) + fee) = Ok (m6id, n).

(** The events account for the change of a balance, with one fee for each
    withdrawal among them. *)
Definition accounted bh (n : SidechainNumber) (evs : list BlockEvent) (before after : Amount) : Prop :=
  exists fees, Forall2 (bundle_fee bh n) (List.filter (withdraws n) evs) fees /\
    after + paid_out n evs + sum fees = before + deposited n evs.

Lemma accounted_app bh n e1 e2 b0 b1 b2 :
  accounted bh n e1 b0 b1 -> accounted bh n e2 b1 b2 -> accounted bh n (e1 ++ e2) b0 b2.
Proof.
  intros (f1 & F1 & E1) (f2 & F2 & E2). exists (f1 ++ f2). unfold deposited, paid_out in *.
  rewrite List.filter_app, !fmap_app, !sum_app. split; [by apply Forall2_app|lia].
Qed.

(** An event that moves no coins of slot [n] *)
Definition silent_for (n : SidechainNumber) (e : BlockEvent) : Prop :=
  event_deposit n e = 0 /\ event_payout n e = 0 /\ withdraws n e = false.

Lemma accounted_silent bh n evs b : Forall (silent_for n) evs -> accounted bh n evs b b.
Proof.
  intros Hz. exists []. unfold deposited, paid_out. change (sum []) with 0.
  induction Hz as [|e evs (E1 & E2 & E3) Hz [IH1 IH2]]; cbn; [split; [constructor|change (sum []) with 0; lia]|]. rewrite !sum_cons, E3. split; [exact IH1|lia].
Qed.

Lemma withdrawal_flow bh s u tx infos n info m idx i :
  fill_spec bh s u tx (spent tx) infos -> outputs_bounded tx -> infos !! n = Some info ->
  withdrawal_ok bh s tx n info m idx i ->
  exists fee, treasury_in info = ctip_value (ctip_output info) + sum (value <$> tail (output tx)) + fee /\
    forall q, bundle_fee bh n (BE_WithdrawalBundle (mkWithdrawalBundleEvent n m (Succeeded q tx))) fee.
Proof.
  intros Hs Hb Hi (_ & _ & Hv0 & Hm6). apply handle_m6_pending in Hm6 as (Hid & _ & _). pose proof Hid as Hid0.
  destruct (fs_output _ _ _ _ _ _ Hs _ _ Hi) as (v & out & Hv & _ & Hout).
  rewrite Hout in Hv0. cbn in Hv0. unfold as_u32 in Hv0. pose proof (lookup_lt_Some _ _ _ Hv). unfold outputs_bounded in Hb.
  rewrite Z.mod_small in Hv0 by lia. assert (v = O) as -> by lia.
  unfold compute_m6id in Hid. destruct (output tx) as [|first rest] eqn:Eo; [done|]. cbn in Hv. injection Hv as ->.
  apply bind_Ok in Hid as ([r n'] & _ & Hid). destruct (decide (input tx = [])); [done|].
  apply bind_Ok in Hid as (p_total & Hp%ok_or_Ok%checked_sum_from_Some & Hid).
  apply bind_Ok in Hid as (total & [_ ->]%ok_or_Ok%checked_add_u64_Some & Hid).
  apply bind_Ok in Hid as (fee & [? ->]%ok_or_Ok%checked_sub_Some & _).
  exists (treasury_in info - (value out + p_total)). assert (Ep : p_total = sum (value <$> rest)) by (unfold sum; lia).
  split; [rewrite Hout; cbn; lia|]. intros q. exists m, q, tx. split_and!; [done|lia|]. rewrite Eo. cbn. rewrite sum_cons, <- Ep.
  by replace (_ + _) with (treasury_in info) by lia.
Qed.

Definition tx_events (handled : option (TransactionEvent * TxDiff)) : list BlockEvent :=
  match handled with
  | Some (Deposits ds, _) => [BE_Deposits ds]
  | Some (TxWithdrawalBundle e, _) => [BE_WithdrawalBundle e]
  | None => []
  end.

(** The event of a transaction accounts for what it does to every balance. *)
Lemma tx_accounted bh s acc u parent tx handled u' h a' n :
  NoDup (previous_output <$> input tx) -> outputs_bounded tx -> uc_fresh tx u ->
  unspent (active_sidechains s) (previous_output <$> input tx) ->
  handle_transaction bh s acc u parent tx = Ok (handled, u') ->
  match handled with Some (_, d) => apply d h (active_sidechains s) = Ok a' | None => a' = active_sidechains s end ->
  accounted bh n (tx_events handled) (balance (active_sidechains s) u n) (balance a' u' n).
Proof.
  intros Hnd Hb Hu Hun Hr Ha. unfold handle_transaction in Hr. apply bind_Ok in Hr as ([r u1] & Hr & Hrest).
  apply map_err_Ok in Hr. apply bind_Ok in Hrest as (x & _ & E). injection E as E ->.
  destruct (handle_m5_m6_flows _ _ _ _ _ _ Hnd Hr) as (infos & Hs & _ & Ho & ->).
  destruct r as [r|].
  2:{ cbn in Ho. rewrite Ho. subst handled a'. by apply accounted_silent. }
  assert (Ha' : apply (result_diff r) h (active_sidechains s) = Ok a') by by destruct r; subst handled.
  rewrite (tx_balance _ _ _ _ _ _ _ _ n Hs Ho Hb Hu Hun Ha').
  destruct r as [ds d|n0 m q d]; subst handled; cbn [tx_events].
  - exists []. split; [done|]. unfold paid_out, deposited. cbn. rewrite !sum_cons. change (sum []) with 0.
    destruct Ho as (_ & Hin & Hout). destruct (infos !! n) as [info|] eqn:Hi; cbn.
    + destruct (Hin n info) as [Hdep _]; [by apply elem_of_map_to_list|]. unfold deposit_ok in Hdep.
      destruct (ds !! n) as [dep|]; cbn; [|lia]. destruct Hdep as (_ & out & addr & _ & _ & ->). cbn. lia.
    + destruct (Hout n) as [-> _]; [|cbn; lia]. intros ([n' i] & -> & Hl%elem_of_map_to_list)%list_elem_of_fmap. cbn in *. congruence.
  - destruct Ho as (info & Hl & Hw & _). assert (Hi : infos !! n0 = Some info) by (apply elem_of_map_to_list; rewrite Hl; by left).
    destruct (withdrawal_flow _ _ _ _ _ _ _ _ _ _ Hs Hb Hi Hw) as (fee & Hin & Hfee).
    destruct (decide (n0 = n)) as [->|Hne].
    + exists [fee]. unfold paid_out, deposited. cbn. rewrite !sum_cons, Hi, bool_decide_eq_true_2, decide_True by done.
      change (sum []) with 0. cbn. split; [by repeat constructor|lia].
    + assert (infos !! n = None) as ->.
      { destruct (infos !! n) as [i|] eqn:Hi'; [|done]. apply elem_of_map_to_list in Hi'. rewrite Hl in Hi'.
        by apply list_elem_of_singleton in Hi' as [= -> ->]. }
      cbn. rewrite Z.add_0_r. apply accounted_silent. constructor; [|constructor]. unfold silent_for. cbn. by rewrite decide_False, bool_decide_eq_false_2.
Qed.

(** ** One block *)

Definition inputs_of (txs : list Transaction) : list OutPoint :=
  concat ((fun tx => previous_output <$> input tx) <$> txs).

(** Bitcoin's rules on the transactions after the coinbase: distinct ids, no
    output is spent twice, and only unspent treasury UTXOs are spent. *)
Record utxo_rules (txs : list Transaction) (a : ActiveSidechainDbs) : Prop := {
  ur_txids : NoDup (compute_txid <$> txs);
  ur_inputs : NoDup (inputs_of txs);
  ur_unspent : unspent a (inputs_of txs);
  ur_bounded : Forall outputs_bounded txs }.

Lemma inputs_of_snoc pre tx : inputs_of (pre ++ [tx]) = inputs_of pre ++ (previous_output <$> input tx).
Proof. unfold inputs_of. rewrite fmap_app, concat_app. cbn. by rewrite app_nil_r. Qed.

Lemma utxo_rules_prefix pre tx txs a :
  (pre ++ [tx]) `prefix_of` txs -> utxo_rules txs a ->
  NoDup (previous_output <$> input tx) /\ outputs_bounded tx /\ compute_txid tx ∉ compute_txid <$> pre /\
  forall o, o ∈ previous_output <$> input tx -> o ∉ inputs_of pre /\ o ∈ inputs_of txs.
Proof.
  intros [rest ->] [Ht Hi _ Hb]. unfold inputs_of in Hi. rewrite fmap_app, concat_app in Hi.
  fold (inputs_of (pre ++ [tx])) (inputs_of rest) in Hi. rewrite inputs_of_snoc in Hi.
  apply NoDup_app in Hi as (Hi & _ & _). apply NoDup_app in Hi as (_ & Hd & Hnd).
  rewrite !fmap_app in Ht. apply NoDup_app in Ht as (Ht & _ & _). apply NoDup_app in Ht as (_ & Hdt & _).
  split_and!; [done| | |].
  - rewrite Forall_forall in Hb. apply Hb. apply elem_of_app. left. apply elem_of_app. right. by left.
  - intros Hin. apply (Hdt _ Hin). by left.
  - intros o Ho. split; [intros Hp; by apply (Hd _ Hp)|]. unfold inputs_of. rewrite fmap_app, concat_app.
    apply elem_of_app. left. fold (inputs_of (pre ++ [tx])). rewrite inputs_of_snoc. apply elem_of_app. by right.
Qed.

Lemma update_all_keys s u l o e :
  by_outpoint (foldl (fun u e => update_unconsolidated s u e.1 e.2) u l) !! o = Some e ->
  is_Some (by_outpoint u !! o) \/ o ∈ (fun e => ctip_outpoint (ctip_output e.2)) <$> l.
Proof.
  revert u. induction l as [|[n info] l IH]; intros u Hl; [by left; eexists|]. cbn in Hl.
  apply IH in Hl as [[e' Hs]|Hl]; [|right; by right]. unfold update_unconsolidated in Hs.
  set (u1 := foldl _ u _) in Hs. assert (H1 : forall e, by_outpoint u1 !! o = Some e -> is_Some (by_outpoint u !! o)).
  { subst u1. revert u Hs. generalize (elements (unconsolidated_ctip_inputs info)) as cs.
    intros cs u _. revert u. induction cs as [|c cs IHc]; intros u e0 He; cbn in He; [by eexists|].
    apply IHc in He as [e1 He]. rewrite uc_remove_by_outpoint in He. apply lookup_delete_Some in He as [_ ?]. by eexists. }
  destruct (_ && _); [|left; by eapply H1]. cbn in Hs. apply lookup_insert_Some in Hs as [[<- _]|[_ Hs]].
  - right. by left.
  - left. by eapply H1.
Qed.

(** Outpoints of treasury UTXOs are unspent or were spent before. *)
Definition spent_before (a0 : ActiveSidechainDbs) (pre : list Transaction) (a : ActiveSidechainDbs) : Prop :=
  forall o n v q, ctip_outpoint_to_value_seq a !! o = Some (n, v, q) ->
    ctip a !! n = Some (mkCtip o v) \/ o ∈ inputs_of pre \/
    (ctip_outpoint_to_value_seq a0 !! o = Some (n, v, q) /\ ctip a0 !! n <> Some (mkCtip o v)).

Lemma spent_before_unspent a0 a pre tx txs :
  (pre ++ [tx]) `prefix_of` txs -> utxo_rules txs a0 -> spent_before a0 pre a ->
  unspent a (previous_output <$> input tx).
Proof.
  intros Hpre Hr Hsb o n v q Ho Ht. destruct (utxo_rules_prefix _ _ _ _ Hpre Hr) as (_ & _ & _ & Hin).
  destruct (Hin o Ho) as [Hnp Hall]. destruct (Hsb o n v q Ht) as [?|[?|[Ht0 Hne]]]; [done|done|].
  destruct Hne. by eapply (ur_unspent _ _ Hr).
Qed.

Lemma spent_before_step bh s u tx infos r h a0 a' pre :
  fill_spec bh s u tx (spent tx) infos -> slots_outcome bh s tx (map_to_list infos) (Some r) ->
  unspent (active_sidechains s) (previous_output <$> input tx) ->
  apply (result_diff r) h (active_sidechains s) = Ok a' ->
  spent_before a0 pre (active_sidechains s) -> spent_before a0 (pre ++ [tx]) a'.
Proof.
  intros Hs Ho Hun Ha Hsb o n v q Ht. apply tx_apply_tables in Ha as [Hc Htab]. rewrite Hc, inputs_of_snoc, lookup_union.
  destruct (Htab o n v q Ht) as [Ht0|Hnew]; [|left; rewrite Hnew; by destruct (ctip _ !! n)].
  destruct (Hsb o n v q Ht0) as [Hcur|[?|?]]; [|right; left; rewrite elem_of_app; by left|by right; right].
  rewrite (outcome_ctips _ _ _ _ _ _ Ho), Hcur. destruct (infos !! n) as [info|] eqn:Hi; cbn; [|by left].
  destruct (stays_unconsolidated s n info) eqn:Hst; [by left|]. right; left. apply elem_of_app; right.
  unfold stays_unconsolidated, contains_key in Hst. rewrite Hcur in Hst.
  destruct (consolidated_ctip_input info) as [c|] eqn:Ec; [|done].
  destruct (fs_consolidated _ _ _ _ _ _ Hs _ _ _ Hi Ec) as (Hsp & q' & Ht').
  pose proof (Hun _ _ _ _ Hsp Ht') as E. rewrite Hcur in E. by injection E as -> _.
Qed.

(** Where the CTIP of slot [n] comes from: it is the one from before, or it is a
    treasury output of one of the transactions, with the value of that output. *)
Definition ctip_from bh (txs : list Transaction) (a0 a : ActiveSidechainDbs) (n : SidechainNumber) : Prop :=
  ctip a !! n = ctip a0 !! n \/
  exists tx vout out r, tx ∈ txs /\ output tx !! vout = Some out /\
    op_drivechain_parse (op_drivechain (bh_params bh)) (script_pubkey out) = Some (r, n) /\
    ctip a !! n = Some (mkCtip (mkOutPoint (compute_txid tx) (Z.of_nat vout)) (value out)).

Lemma ctip_from_same bh pre tx a0 a n : ctip_from bh pre a0 a n -> ctip_from bh (pre ++ [tx]) a0 a n.
Proof.
  intros [?|(t & vout & out & r & Ht & ?)]; [by left|right]. exists t, vout, out, r. split; [|done].
  rewrite elem_of_app. by left.
Qed.

Lemma ctip_from_step bh s u tx infos r h a0 a' pre n :
  fill_spec bh s u tx (spent tx) infos -> slots_outcome bh s tx (map_to_list infos) (Some r) -> outputs_bounded tx ->
  apply (result_diff r) h (active_sidechains s) = Ok a' ->
  ctip_from bh pre a0 (active_sidechains s) n -> ctip_from bh (pre ++ [tx]) a0 a' n.
Proof.
  intros Hs Ho Hb Ha Hf. apply tx_apply_tables in Ha as [Hc _].
  assert (E : ctip a' !! n = (diff_ctips (result_diff r) ∪ ctip (active_sidechains s)) !! n) by by rewrite Hc.
  rewrite lookup_union, (outcome_ctips _ _ _ _ _ _ Ho) in E. destruct (infos !! n) as [info|] eqn:Hi; cbn in E.
  2:{ rewrite (left_id_L None (∪)) in E. apply ctip_from_same. unfold ctip_from in *. by rewrite E. }
  destruct (stays_unconsolidated s n info); cbn in E.
  { rewrite (left_id_L None (∪)) in E. apply ctip_from_same. unfold ctip_from in *. by rewrite E. }
  right. destruct (fs_output _ _ _ _ _ _ Hs _ _ Hi) as (v & out & Hv & [[rest Hp] _] & Hout). exists tx, v, out, rest.
  split_and!; [rewrite elem_of_app; right; by left|done|done|]. rewrite E, Hout.
  assert (Hz : as_u32 v = Z.of_nat v).
  { apply lookup_lt_Some in Hv. unfold outputs_bounded in Hb. unfold as_u32. rewrite Z.mod_small; lia. }
  unfold output_ctip. rewrite Hz. apply union_Some. by left.
Qed.

Lemma connect_transaction_Ok bh h parent hash acc s b u slots evs tx ts' :
  connect_transaction bh h parent hash acc s (mkTxState b u slots evs) tx = Ok ts' ->
  exists handled, handle_transaction bh (set_active s (builder_dbs b)) (Some acc) u parent tx
      = Ok (handled, ts_unconsolidated ts') /\
    ts_events ts' = evs ++ tx_events handled /\
    match handled with Some (_, d) => apply d h (builder_dbs b) = Ok (builder_dbs (ts_builder ts'))
    | None => builder_dbs (ts_builder ts') = builder_dbs b end.
Proof.
  intros Hc. unfold connect_transaction in Hc. apply bind_Ok in Hc as ([handled u'] & Hh & Hc). apply map_err_Ok in Hh.
  apply bind_Ok in Hc as (sl & _ & Hc). exists handled. destruct handled as [[ev d]|].
  - apply bind_Ok in Hc as (b' & Hb & Hc). apply map_err_Ok in Hb. injection Hc as <-. unfold diff_builder_apply in Hb.
    apply bind_Ok in Hb as (a' & Ha & [= <-]). split_and!; [done|by destruct ev|done].
  - injection Hc as <-. cbn. by rewrite app_nil_r.
Qed.

(** The invariant of the transaction loop. *)
Record loop_inv bh (a0 : ActiveSidechainDbs) (evs0 : list BlockEvent) (pre : list Transaction) (ts : TxState) : Prop := {
  li_balance n : exists evs, ts_events ts = evs0 ++ evs /\
    accounted bh n evs (balance a0 unconsolidated_default n) (balance (builder_dbs (ts_builder ts)) (ts_unconsolidated ts) n);
  li_ctip n : ctip_from bh pre a0 (builder_dbs (ts_builder ts)) n;
  li_spent : spent_before a0 pre (builder_dbs (ts_builder ts));
  li_fresh o e : by_outpoint (ts_unconsolidated ts) !! o = Some e -> op_txid o ∈ compute_txid <$> pre }.

Lemma connect_transactions_accounted bh h parent hash acc s txs slots evs ts' :
  utxo_rules txs (active_sidechains s) ->
  foldM (connect_transaction bh h parent hash acc s) txs
    (mkTxState (diff_builder_new (active_sidechains s)) unconsolidated_default slots evs) = Ok ts' ->
  loop_inv bh (active_sidechains s) evs txs ts'.
Proof.
  intros Hr Hf. revert Hf. apply (foldM_prefix (loop_inv bh (active_sidechains s) evs)).
  2:{ split; cbn; [|by left|by intros ????? ; destruct (decide (ctip (active_sidechains s) !! n = Some (mkCtip o v))); auto|].
      - intros n. exists []. rewrite app_nil_r. split; [done|]. by apply accounted_silent.
      - by intros o e; rewrite lookup_empty. }
  intros pre tx [b u sl ev] ts2 Hpre [Hbal Hct Hsp Hfr] Hstep. cbn in Hbal, Hct, Hsp, Hfr.
  destruct (utxo_rules_prefix _ _ _ _ Hpre Hr) as (Hnd & Hb & Hnew & _).
  pose proof (spent_before_unspent _ _ _ _ _ Hpre Hr Hsp) as Hun.
  assert (Hu : uc_fresh tx u).
  { intros o Ho. destruct (by_outpoint u !! o) eqn:E; [|done]. apply Hfr in E. rewrite Ho in E. done. }
  apply connect_transaction_Ok in Hstep as (handled & Hh & Hev & Ha). split.
  - intros n. destruct (Hbal n) as (evs1 & Eev & Hacc). exists (evs1 ++ tx_events handled).
    rewrite Hev, Eev, <- app_assoc. split; [done|]. eapply accounted_app; [exact Hacc|].
    exact (tx_accounted bh (set_active s (builder_dbs b)) _ _ _ tx handled _ h _ n Hnd Hb Hu Hun Hh Ha).
  - intros n. unfold handle_transaction in Hh. apply bind_Ok in Hh as ([r u1] & Hm & Hh). apply map_err_Ok in Hm.
    apply bind_Ok in Hh as (? & _ & Hh). injection Hh as <- _.
    apply handle_m5_m6_outcome in Hm as (infos & Hs & Ho & _). destruct r as [r|].
    + eapply (ctip_from_step bh (set_active s (builder_dbs b)) u tx infos r h); [done..| |apply Hct]. by destruct r.
    + rewrite Ha. apply ctip_from_same, Hct.
  - unfold handle_transaction in Hh. apply bind_Ok in Hh as ([r u1] & Hm & Hh). apply map_err_Ok in Hm.
    apply bind_Ok in Hh as (? & _ & Hh). injection Hh as <- _.
    apply handle_m5_m6_outcome in Hm as (infos & Hs & Ho & _). destruct r as [r|].
    + eapply (spent_before_step bh (set_active s (builder_dbs b)) u tx infos r h); [done..| |done]. by destruct r.
    + rewrite Ha. intros o n v q Ht. rewrite inputs_of_snoc, elem_of_app. destruct (Hsp o n v q Ht) as [?|[?|?]]; auto.
  - intros o e He. rewrite fmap_app, elem_of_app. unfold handle_transaction in Hh.
    apply bind_Ok in Hh as ([r u1] & Hm & Hh). apply map_err_Ok in Hm. apply bind_Ok in Hh as (? & _ & Hh).
    injection Hh as _ Eu. apply handle_m5_m6_outcome in Hm as (infos & Hs & _ & Eu'). rewrite <- Eu, Eu' in He.
    apply update_all_keys in He as [[e' He]|Hl]; [left; by eapply Hfr|].
    apply list_elem_of_fmap in Hl as ([n info] & -> & Hi%elem_of_map_to_list). right. cbn.
    destruct (fs_output _ _ _ _ _ _ Hs _ _ Hi) as (v & out & _ & _ & ->). by left.
Qed.

(** *** The coinbase *)

(** An event of the coinbase moves no coins. *)
Definition silent (e : BlockEvent) : Prop := forall n, silent_for n e.

Lemma connect_messages_silent bh h parent m1s ms b acc evs st' :
  Forall silent evs -> foldM (connect_message bh h parent m1s) ms (b, acc, evs) = Ok st' -> Forall silent st'.2.
Proof.
  intros He Hf. apply (foldM_invariant (fun st : MessageState => Forall silent st.2)) in Hf; [done| |done].
  intros [[b1 acc1] ev1] st2 [m vout] _ Hev Hc. unfold connect_message in Hc.
  apply bind_Ok in Hc as ([[e d] acc'] & Hm & Hc). apply bind_Ok in Hc as (nev & Hn & Hc).
  apply bind_Ok in Hc as (b2 & _ & [= <-]). cbn in *. apply Forall_app. split; [done|].
  assert (Hcase : e = None \/ (exists sc, e = Some (NewSidechainProposalEvent sc)) \/
    exists n m6, e = Some (CoinbaseWithdrawalBundle (mkWithdrawalBundleEvent n m6 Submitted))).
  { destruct m as [[n de]|[n hs]|[n tx]|m4|[n c]]; cbn [handle_coinbase_message] in Hm.
    - destruct (handle_m1_propose_sidechain _ _ _); injection Hm as <- _ _; eauto.
    - apply bind_Ok in Hm as (o & _ & [= <- _ _]). auto.
    - apply bind_Ok in Hm as (o & _ & [= <- _ _]). eauto.
    - apply bind_Ok in Hm as (o & _ & [= <- _ _]). auto.
    - destruct (om_contains _ _); [done|]. injection Hm as <- _ _. auto. }
  destruct Hcase as [->|[[sc ->]|(n & m6 & ->)]]; cbn in Hn.
  - by injection Hn as <-.
  - apply bind_Ok in Hn as (i & _ & [= <-]). by repeat constructor.
  - injection Hn as <-. by repeat constructor.
Qed.

Lemma failed_events_silent d : Forall silent (failed_m6id_events d).
Proof.
  unfold failed_m6id_events. apply Forall_concat, Forall_forall. intros l ([n ps] & -> & _)%list_elem_of_fmap.
  apply Forall_forall. intros e (f & -> & _)%list_elem_of_fmap. done.
Qed.

(** What the coinbase leaves to the transactions. *)
Lemma process_block_stages bh s h hash parent cb txs s' bi d u :
  process_block bh s h hash parent cb txs = Ok (s', bi, d, u) ->
  exists s1 evs ts, treasury_tables (active_sidechains s1) = treasury_tables (active_sidechains s) /\ Forall silent evs /\
    foldM (connect_transaction bh h parent hash (bi_bmm_commitments bi) s1) txs
      (mkTxState (diff_builder_new (active_sidechains s1)) unconsolidated_default ∅ evs) = Ok ts /\
    active_sidechains s' = builder_dbs (ts_builder ts) /\ bi_events bi = ts_events ts /\ u = ts_unconsolidated ts.
Proof.
  intros Hp. unfold process_block in Hp. apply bind_Ok in Hp as ([ms m1s] & _ & Hp).
  apply bind_Ok in Hp as ([[b0 acc] evs] & Hms & Hp). apply bind_Ok in Hp as (b & Hm4 & Hp).
  pose proof (connect_messages_silent _ _ _ _ _ _ _ _ _ (Forall_nil_2 silent) Hms) as Hev. cbn in Hev.
  eapply (connect_messages_run _ _ _ _ _ (diff_builder_new s) [] [] _ s) in Hms; [|constructor]. cbn in Hms.
  apply (connect_default_m4_run _ _ _ _ _ s Hms) in Hm4. clear Hms.
  apply bind_Ok in Hp as (s2 & Hfp & Hp). apply map_err_Ok, on_proposals_Ok in Hfp as (p & _ & ->).
  apply bind_Ok in Hp as (fm & _ & Hp). apply bind_Ok in Hp as (s3 & Hfm & Hp). apply map_err_Ok in Hfm.
  apply on_active_Ok in Hfm as (a3 & E3 & ->).
  apply bind_Ok in Hp as (ts & Hts & Hp). injection Hp as <- <- _ <-.
  eexists _, _, ts. split_and!; [| |exact Hts|done..].
  - cbn [active_sidechains set_active]. rewrite (failed_m6ids_treasury _ _ _ _ E3). cbn [active_sidechains set_proposals]. by apply (run_msgs_treasury h (builder_diffs b)).
  - apply Forall_app. split; [done|apply failed_events_silent].
Qed.

Lemma unspent_tables a a' ins : treasury_tables a' = treasury_tables a -> unspent a ins -> unspent a' ins.
Proof. intros [= Ec Eo] Hu o n v q. rewrite Ec, Eo. apply Hu. Qed.

Lemma accounted_silent_app bh n evs0 evs b0 b1 : Forall silent evs0 -> accounted bh n evs b0 b1 -> accounted bh n (evs0 ++ evs) b0 b1.
Proof.
  intros Hs Ha. eapply accounted_app; [|exact Ha]. apply accounted_silent.
  eapply Forall_impl; [exact Hs|]. by intros e He.
Qed.

(** C3. Treasury accounting over a block. When a block is connected, then for
    every slot: (1) its CTIP is the one from before the block, or it is a treasury
    output for the slot of one of the block's transactions, with the value that
    this output has. (2) The value of the CTIP after the block, plus the payouts
    of the withdrawals from the slot among the block's events, plus their fees, is
    the value of the CTIP before the block plus the deposits among the events,
    where the fee of each withdrawal is the one that its bundle commits to.
    Without a withdrawal the CTIP grows by exactly the deposits. The hypothesis
    states Bitcoin's own rules. *)
Theorem treasury_accounting bh s block s' hi bi n :
  utxo_rules (tail (txdata block)) (active_sidechains s) ->
  connect_block bh s block = Ok (s', ConnectBlock hi bi) ->
  ctip_from bh (tail (txdata block)) (active_sidechains s) (active_sidechains s') n /\
  exists fees, Forall2 (bundle_fee bh n) (List.filter (withdraws n) (bi_events bi)) fees /\
    ctip_amount (active_sidechains s') n + paid_out n (bi_events bi) + sum fees
    = ctip_amount (active_sidechains s) n + deposited n (bi_events bi).
Proof.
  intros Hr Hc. apply connect_block_Ok in Hc as (s1 & p & Hp & Hu & Hrec).
  assert (Hbi : bi = pc_block_info p).
  { unfold record_block in Hrec. repeat (apply bind_Ok in Hrec as (? & _ & Hrec)). by injection Hrec as _ _ <-. }
  apply record_block_core in Hrec as [-> _]. subst bi. unfold partial_connect_block in Hp.
  apply bind_Ok in Hp as (? & _ & Hp). apply bind_Ok in Hp as (h & _ & Hp).
  destruct (txdata block) as [|cb txs]; [done|]. cbn [tail] in *. case_bool_decide; cbn in Hp.
  { injection Hp as <- <-. split; [by left|]. cbn. exists []. unfold paid_out, deposited. cbn. change (sum []) with 0. split; [done|lia]. }
  apply bind_Ok in Hp as ([[[s2 bi] d] u] & Hp & Hq). injection Hq as <- <-. cbn in *.
  apply process_block_stages in Hp as (s3 & evs & ts & Et & Hs & Hf & -> & -> & ->).
  apply connect_transactions_accounted in Hf as [Hbal Hct _ _].
  2:{ destruct Hr as [R1 R2 R3 R4]. split; [done|done|by eapply unspent_tables|done]. }
  pose proof (f_equal fst Et) as Ec. cbn in Ec. split.
  { specialize (Hct n). unfold ctip_from in *. by rewrite Ec in Hct. }
  destruct (Hbal n) as (evs1 & -> & Hacc).
  apply (accounted_silent_app bh n evs _ _ _ Hs) in Hacc. unfold accounted, balance, unconsolidated_value in Hacc.
  rewrite Hu in Hacc. cbn in Hacc. rewrite map_fold_empty, !Z.add_0_r in Hacc.
  unfold ctip_amount in *. by rewrite Ec in Hacc.
Qed.

End Balance.
