(* ===== verification/HashOrder.v ===== *)
(** * Hash maps are iterated in an arbitrary order

    Rust's [HashMap] and [HashSet] are iterated in an order that differs from
    process to process, while the definitions of this library use the order of
    [map_to_list] and [elements]. The lemmas here show that the consensus
    result of the loops does not depend on it. *)

From Stdlib Require Import Strings.Byte.
From stdpp Require Import base numbers list gmap.
From S2P Require Import Prelude OrderMap Bitcoin Types Messages M6 Dbs BlockHashes Treasury Diff Reversible Handlers HandlerProofs TreasurySafety.
Open Scope Z_scope.

(** ** Unconsolidated outputs *)

Section Unconsolidated.
Implicit Types (u : UnconsolidatedCtips).

Definition uc_drop u (o : OutPoint) : UnconsolidatedCtips := (uc_remove o u).1.

(** What removing [(o, v)] does to the set of its slot. *)
Definition drop_ctip (c : Ctip) (l : list Ctip) : option (list Ctip) :=
  if decide (lhs_remove c l = []) then None else Some (lhs_remove c l).

Lemma uc_drop_eq u o n v :
  by_outpoint u !! o = Some (n, v) ->
  uc_drop u o = mkUnconsolidated (delete o (by_outpoint u))
                  (partial_alter (fun l => l ≫= drop_ctip (mkCtip o v)) n (by_sidechain u)).
Proof.
  intros E. unfold uc_drop, uc_remove. rewrite E. cbn. f_equal. apply map_eq. intros k.
  destruct (by_sidechain u !! n) as [l|] eqn:El; unfold drop_ctip.
  - destruct (decide (k = n)) as [->|Hne].
    + rewrite lookup_partial_alter_eq, El. cbn. case_decide; by rewrite ?lookup_delete_eq, ?lookup_insert_eq.
    + rewrite lookup_partial_alter_ne by done. case_decide; by rewrite ?lookup_delete_ne, ?lookup_insert_ne.
  - destruct (decide (k = n)) as [->|Hne]; [by rewrite lookup_partial_alter_eq, El|by rewrite lookup_partial_alter_ne].
Qed.

Lemma uc_drop_None u o : by_outpoint u !! o = None -> uc_drop u o = u.
Proof. intros E. unfold uc_drop, uc_remove. by rewrite E. Qed.

Lemma uc_drop_lookup u o o' : by_outpoint (uc_drop u o) !! o' = if decide (o = o') then None else by_outpoint u !! o'.
Proof.
  unfold uc_drop. rewrite uc_remove_by_outpoint. case_decide; subst; [apply lookup_delete_eq|by apply lookup_delete_ne].
Qed.

Lemma drop_ctip_comm c1 c2 (l : option (list Ctip)) :
  (l ≫= drop_ctip c1) ≫= drop_ctip c2 = (l ≫= drop_ctip c2) ≫= drop_ctip c1.
Proof.
  destruct l as [l|]; [|done]. cbn. unfold drop_ctip.
  assert (E : lhs_remove c2 (lhs_remove c1 l) = lhs_remove c1 (lhs_remove c2 l)).
  { unfold lhs_remove. rewrite !list_filter_filter. apply list_filter_iff. naive_solver. }
  assert (Hn : forall c, lhs_remove c [] = []) by done.
  repeat case_decide; cbn; repeat case_decide; try congruence.
Qed.

Lemma uc_drop_comm u o1 o2 : uc_drop (uc_drop u o1) o2 = uc_drop (uc_drop u o2) o1.
Proof.
  destruct (decide (o1 = o2)) as [->|Hne]; [done|].
  destruct (by_outpoint u !! o1) as [[n1 v1]|] eqn:E1, (by_outpoint u !! o2) as [[n2 v2]|] eqn:E2.
  - assert (E1' : by_outpoint (uc_drop u o2) !! o1 = Some (n1, v1)) by (rewrite uc_drop_lookup; by case_decide).
    assert (E2' : by_outpoint (uc_drop u o1) !! o2 = Some (n2, v2)) by (rewrite uc_drop_lookup; by case_decide).
    rewrite (uc_drop_eq _ _ _ _ E1'), (uc_drop_eq _ _ _ _ E2'), (uc_drop_eq _ _ _ _ E1), (uc_drop_eq _ _ _ _ E2). cbn.
    f_equal; [apply delete_delete|]. destruct (decide (n1 = n2)) as [->|Hn].
    + rewrite !partial_alter_partial_alter_eq. apply partial_alter_ext. intros l _. cbn. apply drop_ctip_comm.
    + by rewrite partial_alter_partial_alter_ne.
  - rewrite (uc_drop_None u o2) by done. apply uc_drop_None. rewrite uc_drop_lookup. by case_decide.
  - rewrite (uc_drop_None u o1) by done. symmetry. apply uc_drop_None. rewrite uc_drop_lookup. by case_decide.
  - by rewrite !(uc_drop_None u).
Qed.

Lemma uc_drop_insert u o n c :
  o <> ctip_outpoint c -> (forall m v, by_outpoint u !! o = Some (m, v) -> m <> n) ->
  uc_drop (uc_insert n c u) o = uc_insert n c (uc_drop u o).
Proof.
  intros Ho Hm. destruct (by_outpoint u !! o) as [[m v]|] eqn:E.
  - assert (E' : by_outpoint (uc_insert n c u) !! o = Some (m, v)) by (cbn; by rewrite lookup_insert_ne).
    rewrite (uc_drop_eq _ _ _ _ E'), (uc_drop_eq _ _ _ _ E). specialize (Hm m v eq_refl). unfold uc_insert. cbn.
    rewrite delete_insert_ne, lookup_partial_alter_ne by done. f_equal. unfold insert, map_insert.
    by rewrite partial_alter_partial_alter_ne.
  - rewrite !uc_drop_None; [done|done|]. cbn. by rewrite lookup_insert_ne.
Qed.

Lemma uc_insert_comm u n1 c1 n2 c2 :
  n1 <> n2 -> ctip_outpoint c1 <> ctip_outpoint c2 ->
  uc_insert n2 c2 (uc_insert n1 c1 u) = uc_insert n1 c1 (uc_insert n2 c2 u).
Proof.
  intros Hn Ho. unfold uc_insert. cbn. rewrite !(lookup_insert_ne (by_sidechain u)) by done.
  f_equal; by rewrite insert_insert_ne.
Qed.

(** *** Several removals *)

Lemma uc_drops_comm1 u o os : foldl uc_drop (uc_drop u o) os = uc_drop (foldl uc_drop u os) o.
Proof. revert u. induction os as [|o' os IH]; intros u; [done|]. cbn. by rewrite uc_drop_comm, IH. Qed.

Lemma uc_drops_comm u os1 os2 : foldl uc_drop (foldl uc_drop u os1) os2 = foldl uc_drop (foldl uc_drop u os2) os1.
Proof. revert u. induction os1 as [|o os IH]; intros u; [done|]. cbn. by rewrite IH, uc_drops_comm1. Qed.

(** The set of removed outputs is iterated in any order. *)
Lemma uc_drops_perm u os1 os2 : os1 ≡ₚ os2 -> foldl uc_drop u os1 = foldl uc_drop u os2.
Proof.
  intros Hp. revert u. induction Hp as [|o l1 l2 _ IH|o1 o2 l|l1 l2 l3 _ IH1 _ IH2]; intros u; cbn; [done|..].
  - apply IH.
  - by rewrite uc_drop_comm.
  - by rewrite IH1, IH2.
Qed.

Lemma uc_drops_insert u os n c :
  ctip_outpoint c ∉ os -> (forall o m v, o ∈ os -> by_outpoint u !! o = Some (m, v) -> m <> n) ->
  foldl uc_drop (uc_insert n c u) os = uc_insert n c (foldl uc_drop u os).
Proof.
  revert u. induction os as [|o os IH]; intros u Hc Hm; [done|]. cbn. apply not_elem_of_cons in Hc as [? ?].
  rewrite uc_drop_insert; [|done|intros m v; apply Hm; by left]. apply IH; [done|].
  intros o' m v Ho'. rewrite uc_drop_lookup. case_decide; [done|]. apply Hm. by right.
Qed.

Lemma uc_drops_lookup u os o : by_outpoint (foldl uc_drop u os) !! o = if decide (o ∈ os) then None else by_outpoint u !! o.
Proof.
  revert u. induction os as [|o' os IH]; intros u; cbn; [by rewrite decide_False by apply not_elem_of_nil|].
  rewrite IH, uc_drop_lookup. destruct (decide (o ∈ os)); [by rewrite decide_True by by right|].
  case_decide; [subst; by rewrite decide_True by by left|]. rewrite decide_False; [done|].
  by intros [?|?]%elem_of_cons.
Qed.

End Unconsolidated.

(** ** The votes of a block *)

(** The actions of [AckBundles], a hash map, in any order. *)
Lemma ack_bundles_any_order (d : AckBundles) (h : Z) a a' l :
  l ≡ₚ map_to_list d ->
  (foldM ack_bundle_action_apply l a = Ok a' <-> apply d h a = Ok a') /\
  (foldM ack_bundle_action_undo l a = Ok a' <-> undo d a = Ok a').
Proof.
  intros Hp. pose proof (NoDup_fst_map_to_list d) as Hnd. assert (Hnd' : NoDup l.*1) by by rewrite Hp.
  cbn. rewrite !ack_bundles_apply_keyed, !ack_bundles_undo_keyed. split; split; by apply keyed_fold_perm.
Qed.

(** ** The slots of a transaction *)

#[export] Instance TxCtipsInfo_eq_dec : EqDecision TxCtipsInfo.
Proof. solve_decision. Defined.

Section Slots.
Context `{Bitcoin, !BitcoinLaws, Nom, !NomLaws}.
Variables (bh : BlockHandler) (s : Dbs) (tx : Transaction) (k : nat).
Implicit Types (u : UnconsolidatedCtips) (e : SidechainNumber * TxCtipsInfo).

(** Classifying a slot is classifying it alone and merging the result. *)
Definition merge_slot (res : option DepositsOrSuccessfulWithdrawal) (x : DepositsOrSuccessfulWithdrawal)
    : Res HandleM5M6 DepositsOrSuccessfulWithdrawal :=
  match res, x with
  | None, x => Ok x
  | Some (M5Deposits ds d), M5Deposits ds' d' => Ok (M5Deposits (ds' ∪ ds) (mkM5Diff (new_ctips d' ∪ new_ctips d)))
  | Some (M6Withdrawal _ _ _ _), M6Withdrawal _ _ _ _ => Err (M5M6_InvalidM6 (TreasuryOutputCount k))
  | _, _ => Err Ambiguous
  end.

Lemma deposit_merge res n info v :
  handle_deposit s tx res n info v = (x ← handle_deposit s tx None n info v; merge_slot res x).
Proof.
  unfold handle_deposit. destruct (if bool_decide _ then _ else _) as [dep| |]; [|done..].
  cbn [mbind Res_bind]. destruct res as [[ds [d]|]|]; [|done..]. cbn.
  destruct dep, (_ && _); rewrite ?insert_union_singleton_l, ?(left_id_L ∅ (∪)); done.
Qed.

Lemma withdrawal_merge res n info v :
  handle_withdrawal bh s tx k res n info v = (x ← handle_withdrawal bh s tx k None n info v; merge_slot res x).
Proof.
  unfold handle_withdrawal. destruct (ok_or _ _); [|done..]. cbn [mbind Res_bind].
  destruct (foldM _ _ _); [|done..]. cbn [mbind Res_bind]. destruct (negb _); [done|].
  destruct (handle_m6 _ _ _ _) as [[[[m n'] i] mi]| |]; [|done..]. cbn [mbind Res_bind].
  destruct (assert_or_panic _); [|done..]. cbn [mbind Res_bind]. by destruct res as [[]|].
Qed.

Lemma classify_merge res n info :
  classify_slot bh s tx k res n info = (x ← classify_slot bh s tx k None n info; merge_slot res x).
Proof.
  unfold classify_slot. destruct (amount_sum _); [|done..]. cbn [mbind Res_bind].
  destruct (amount_add _ _); [|done..]. cbn [mbind Res_bind].
  destruct (_ ?= _); [case_decide; [done|apply deposit_merge]|apply withdrawal_merge|apply deposit_merge].
Qed.

(** A deposit only writes the entries of its slot. *)
Lemma classify_alone n info ds d m :
  classify_slot bh s tx k None n info = Ok (M5Deposits ds d) -> m <> n -> ds !! m = None /\ new_ctips d !! m = None.
Proof.
  intros Hc Hm. apply classify_Ok in Hc as [(dep & _ & Hr)|(_ & m6 & i & mi & _ & Hr)]; [|done].
  cbn in Hr. injection Hr as -> ->. cbn. split; [by destruct dep; rewrite ?lookup_singleton_ne|].
  by destruct (stays_unconsolidated _ _ _); rewrite ?lookup_singleton_ne.
Qed.

Lemma classify_disjoint n1 i1 n2 i2 ds1 d1 ds2 d2 :
  n1 <> n2 -> classify_slot bh s tx k None n1 i1 = Ok (M5Deposits ds1 d1) ->
  classify_slot bh s tx k None n2 i2 = Ok (M5Deposits ds2 d2) -> ds1 ##ₘ ds2 /\ new_ctips d1 ##ₘ new_ctips d2.
Proof.
  intros Hne E1 E2. split; apply map_disjoint_spec; intros m v1 v2 L1 L2; destruct (decide (m = n1)) as [->|Hm].
  1,3: destruct (classify_alone _ _ _ _ n1 E2) as [? ?]; congruence.
  all: destruct (classify_alone _ _ _ _ m E1) as [? ?]; congruence.
Qed.

Lemma classify_comm res n1 i1 n2 i2 r1 r2 :
  n1 <> n2 -> classify_slot bh s tx k res n1 i1 = Ok r1 -> classify_slot bh s tx k (Some r1) n2 i2 = Ok r2 ->
  exists r1', classify_slot bh s tx k res n2 i2 = Ok r1' /\ classify_slot bh s tx k (Some r1') n1 i1 = Ok r2.
Proof.
  intros Hne. rewrite (classify_merge res n1), (classify_merge (Some r1)), (classify_merge res n2).
  setoid_rewrite (classify_merge (Some _) n1).
  destruct (classify_slot bh s tx k None n1 i1) as [x1| |] eqn:E1; [|done..].
  destruct (classify_slot bh s tx k None n2 i2) as [x2| |] eqn:E2; [|done..]. cbn [mbind Res_bind]. intros M1 M2.
  destruct x1 as [ds1 [d1]|], x2 as [ds2 [d2]|], res as [[ds [d]|]|]; cbn in M1; simplify_eq/=; try done;
    destruct (classify_disjoint _ _ _ _ _ _ _ _ Hne E1 E2) as [D1 D2]; cbn in D2;
    (eexists; split; [done|]); cbn.
  - by rewrite !(assoc_L (∪)), (map_union_comm ds1), (map_union_comm d1).
  - by rewrite (map_union_comm ds1), (map_union_comm d1).
Qed.

(** *** The bookkeeping of unconsolidated outputs *)

Definition slot_inputs e : list OutPoint := ctip_outpoint <$> elements (unconsolidated_ctip_inputs e.2).
Definition slot_output e : OutPoint := ctip_outpoint (ctip_output e.2).
Definition slot_insert e u : UnconsolidatedCtips :=
  if stays_unconsolidated s e.1 e.2 then uc_insert e.1 (ctip_output e.2) u else u.

Lemma update_unconsolidated_eq u e :
  update_unconsolidated s u e.1 e.2 = slot_insert e (foldl uc_drop u (slot_inputs e)).
Proof.
  unfold update_unconsolidated, slot_insert. fold (stays_unconsolidated s e.1 e.2). unfold slot_inputs.
  assert (E : forall l u, foldl (fun u c => (uc_remove (ctip_outpoint c) u).1) u l = foldl uc_drop u (ctip_outpoint <$> l)).
  { induction l as [|c l IH]; intros u0; [done|]. cbn. apply IH. }
  by rewrite E.
Qed.

(** The inputs of a slot are no unconsolidated outputs of another one. *)
Definition inputs_ok (l : list (SidechainNumber * TxCtipsInfo)) u : Prop :=
  forall e o m v, e ∈ l -> o ∈ slot_inputs e -> by_outpoint u !! o = Some (m, v) -> m = e.1.

(** The outputs of different slots differ, and none of them is an input. *)
Definition outputs_ok (l : list (SidechainNumber * TxCtipsInfo)) : Prop :=
  forall e e', e ∈ l -> e' ∈ l -> slot_output e ∉ slot_inputs e' /\ (e <> e' -> e.1 <> e'.1 /\ slot_output e <> slot_output e').

Lemma slot_insert_lookup e u o :
  by_outpoint (slot_insert e u) !! o = if stays_unconsolidated s e.1 e.2 && bool_decide (slot_output e = o)
                                       then Some (e.1, ctip_value (ctip_output e.2)) else by_outpoint u !! o.
Proof.
  unfold slot_insert. destruct (stays_unconsolidated _ _ _); [|done]. cbn. unfold slot_output.
  case_bool_decide as E; [by rewrite E, lookup_insert_eq|by rewrite lookup_insert_ne].
Qed.

Lemma update_inputs_ok l e u :
  outputs_ok l -> e ∈ l -> inputs_ok l u -> inputs_ok l (update_unconsolidated s u e.1 e.2).
Proof.
  intros Ho He Hi e' o m v He' Hin. rewrite update_unconsolidated_eq, slot_insert_lookup, uc_drops_lookup.
  rewrite bool_decide_eq_false_2, andb_false_r by (intros <-; by apply (proj1 (Ho e e' He He'))).
  case_decide; [done|]. by apply Hi.
Qed.

Lemma slot_insert_drops l e e' u :
  outputs_ok l -> e ∈ l -> e' ∈ l -> e <> e' -> inputs_ok l u ->
  foldl uc_drop (slot_insert e u) (slot_inputs e') = slot_insert e (foldl uc_drop u (slot_inputs e')).
Proof.
  intros Ho He He' Hne Hi. unfold slot_insert. destruct (stays_unconsolidated _ _ _); [|done].
  destruct (Ho e e' He He') as [Hout Hd]. destruct (Hd Hne) as [Hn _]. apply uc_drops_insert; [exact Hout|].
  intros o m v Hin Hb ->. by rewrite (Hi e' o e.1 v He' Hin Hb) in Hn.
Qed.

Lemma inputs_ok_drops l u os : inputs_ok l u -> inputs_ok l (foldl uc_drop u os).
Proof. intros Hi e o m v He Hin. rewrite uc_drops_lookup. case_decide; [done|]. by apply Hi. Qed.

Lemma update_comm l e1 e2 u :
  outputs_ok l -> e1 ∈ l -> e2 ∈ l -> e1 <> e2 -> inputs_ok l u ->
  update_unconsolidated s (update_unconsolidated s u e1.1 e1.2) e2.1 e2.2
  = update_unconsolidated s (update_unconsolidated s u e2.1 e2.2) e1.1 e1.2.
Proof.
  intros Ho E1 E2 Hne Hi. rewrite !update_unconsolidated_eq.
  rewrite (slot_insert_drops l e1 e2), (slot_insert_drops l e2 e1) by (done || by apply inputs_ok_drops).
  rewrite uc_drops_comm. unfold slot_insert.
  destruct (Ho e1 e2 E1 E2) as [_ Hd]. destruct (Hd Hne) as [Hn Hout].
  destruct (stays_unconsolidated s e1.1 e1.2), (stays_unconsolidated s e2.1 e2.2); try done.
  by apply uc_insert_comm.
Qed.

Lemma slots_any_order l l' u r u' :
  outputs_ok l -> inputs_ok l u -> l ≡ₚ l' ->
  foldM (handle_m5_m6_slot bh s tx k) l (None, u) = Ok (r, u') ->
  foldM (handle_m5_m6_slot bh s tx k) l' (None, u) = Ok (r, u').
Proof.
  intros Ho Hi Hp. apply (foldM_perm_Ok (fun st => inputs_ok l st.2)); [| |done|done].
  - intros e1 e2 [r0 u0] st1 st2 E1 E2 Hi0 F1 F2. destruct (decide (e1 = e2)) as [->|Hne]; [by left|right].
    unfold handle_m5_m6_slot in F1, F2. apply bind_Ok in F1 as (r1 & C1 & [= <-]). apply bind_Ok in F2 as (r2 & C2 & [= <-]).
    cbn in C1, C2, Hi0. destruct (Ho e1 e2 E1 E2) as [_ Hd]. destruct (Hd Hne) as [Hn _].
    destruct (classify_comm _ _ _ _ _ _ _ Hn C1 C2) as (r1' & D1 & D2).
    exists (Some r1', update_unconsolidated s u0 e2.1 e2.2). unfold handle_m5_m6_slot. cbn. rewrite D1. cbn.
    split; [done|]. rewrite D2. cbn. by rewrite (update_comm l e1 e2).
  - intros e [r0 u0] st1 E Hi0 F. unfold handle_m5_m6_slot in F. apply bind_Ok in F as (r1 & _ & [= <-]). cbn.
    by apply update_inputs_ok.
Qed.

End Slots.

Section AnyOrder.
Context `{Bitcoin, !BitcoinLaws, Nom, !NomLaws}.
Implicit Types (bh : BlockHandler) (s : Dbs).

Lemma infos_ok bh s u tx infos :
  fill_spec bh s u tx (spent tx) infos -> outputs_bounded tx -> uc_fresh tx u ->
  outputs_ok (map_to_list infos) /\ inputs_ok (map_to_list infos) u.
Proof.
  intros Hs Hb Hu. destruct (slots_ok _ _ _ _ _ Hs Hb Hu) as [_ Hok]. rewrite Forall_forall in Hok.
  assert (Hin : forall e o, e ∈ map_to_list infos -> o ∈ slot_inputs e -> exists v, by_outpoint u !! o = Some (e.1, v)).
  { intros e o He (c & -> & Hc%elem_of_elements)%list_elem_of_fmap. exists (ctip_value c). by apply (proj1 (Hok e He)). }
  split.
  - intros e e' He He'. split.
    + intros Ho. destruct (Hin _ _ He' Ho) as [v Hv]. destruct (Hok e He) as [_ Hn]. unfold slot_output in Hv. congruence.
    + intros Hne. destruct e as [n i], e' as [n' i']. apply elem_of_map_to_list in He, He'. cbn.
      assert (Hn : n <> n') by (intros <-; congruence). split; [done|]. intros E. apply Hn.
      by eapply (output_ctip_inj bh s u tx infos).
  - intros e o m v He Ho Hb'. destruct (Hin _ _ He Ho) as [v' Hv]. congruence.
Qed.

(** C21. The classification of a transaction is deterministic: the slots of
    the transaction are kept in a hash map, and whatever the order in which the
    loop of [handle_m5_m6] visits them, the transaction is accepted in one
    order exactly when it is accepted in the other, with the same deposits or
    withdrawal and the same unconsolidated outputs. *)
Theorem handle_m5_m6_any_order bh s u tx infos l r u' :
  outputs_bounded tx -> uc_fresh tx u -> fill_ctips bh s u tx = Ok infos -> l ≡ₚ map_to_list infos ->
  foldM (handle_m5_m6_slot bh s tx (size infos)) l (None, u) = Ok (r, u') <-> handle_m5_m6 bh s u tx = Ok (r, u').
Proof.
  intros Hb Hu Hf Hp. unfold handle_m5_m6. rewrite Hf. cbn [mbind Res_bind].
  destruct (infos_ok _ _ _ _ _ (fill_ctips_spec _ _ _ _ _ Hf) Hb Hu) as [Ho Hi].
  split; apply slots_any_order; try done.
  - intros e e' He He'. rewrite Hp in He, He'. by apply Ho.
  - intros e o m v He. rewrite Hp in He. by apply Hi.
Qed.

End AnyOrder.
