(* ===== verification/Unconsolidated.v ===== *)
(** * Treasury outputs that are not consolidated

    [UnconsolidatedCtips] keeps the treasury outputs of the current block in two
    indexes. They agree, and every transaction keeps it so. *)

From Stdlib Require Import Strings.Byte.
From stdpp Require Import base numbers list gmap.
From S2P Require Import Prelude OrderMap Bitcoin Types Messages M6 Dbs BlockHashes Treasury Diff Reversible Handlers HandlerProofs ConnectBlock ConnectProofs TreasurySafety HashOrder.
Open Scope Z_scope.

(** The two indexes of [UnconsolidatedCtips] agree. *)
Record indexed (u : UnconsolidatedCtips) : Prop := {
  ix_agree n c : c ∈ default [] (by_sidechain u !! n) <-> by_outpoint u !! ctip_outpoint c = Some (n, ctip_value c);
  ix_nodup n l : by_sidechain u !! n = Some l -> NoDup l /\ l <> [] }.

(** Outputs of this block that the tables do not have, of active slots. *)
Record uc_ok (a : ActiveSidechainDbs) (u : UnconsolidatedCtips) : Prop := {
  uo_indexed : indexed u;
  uo_fresh o e : by_outpoint u !! o = Some e -> ctip_outpoint_to_value_seq a !! o = None;
  uo_active o n v : by_outpoint u !! o = Some (n, v) -> is_Some (sidechain a !! n);
  uo_value o n v : by_outpoint u !! o = Some (n, v) -> 0 <= v }.

Abbreviation slot_ctips u n := (default [] (by_sidechain u !! n)).

Lemma slot_ctips_nodup u n : indexed u -> NoDup (ctip_outpoint <$> slot_ctips u n).
Proof.
  intros Hix. apply NoDup_fmap_2_strong.
  - intros [o1 v1] [o2 v2] E1%(ix_agree u Hix) E2%(ix_agree u Hix) E. cbn in *. congruence.
  - destruct (by_sidechain u !! n) as [l|] eqn:E; [by apply (ix_nodup u Hix) in E as [? _]|constructor].
Qed.

Lemma uc_remove_list_lookup l u o e :
  by_outpoint (foldl (fun u c => (uc_remove (ctip_outpoint c) u).1) u l) !! o = Some e
  <-> by_outpoint u !! o = Some e /\ o ∉ ctip_outpoint <$> l.
Proof.
  revert u. induction l as [|c l IH]; intros u; cbn.
  - rewrite elem_of_nil. naive_solver.
  - rewrite IH, uc_remove_by_outpoint, lookup_delete_Some, elem_of_cons. naive_solver.
Qed.


(** ** The operations keep the indexes in agreement *)

Lemma default_indexed : indexed unconsolidated_default.
Proof. split; cbn; intros; rewrite ?lookup_empty in *; [|done]. cbn. rewrite elem_of_nil. naive_solver. Qed.

Lemma elem_of_lhs_remove c c' l : c' ∈ lhs_remove c l <-> c' <> c /\ c' ∈ l.
Proof. unfold lhs_remove. by rewrite list_elem_of_filter. Qed.

Lemma uc_remove_indexed o u : indexed u -> indexed (uc_drop u o).
Proof.
  intros Hix. destruct (by_outpoint u !! o) as [[n v]|] eqn:Eo; [|by rewrite uc_drop_None].
  rewrite (uc_drop_eq _ _ _ _ Eo). split; cbn.
  - intros n' c. rewrite lookup_delete_Some. destruct (decide (n' = n)) as [->|Hne].
    + assert (E : slot_ctips (mkUnconsolidated ∅ (partial_alter (fun l => l ≫= drop_ctip (mkCtip o v)) n (by_sidechain u))) n
        = lhs_remove (mkCtip o v) (slot_ctips u n)).
      { cbn. rewrite lookup_partial_alter_eq. destruct (by_sidechain u !! n) as [l|]; [|done]. cbn. unfold drop_ctip. by case_decide. }
      cbn in E. rewrite E, elem_of_lhs_remove, (ix_agree u Hix). split; [|intros [? ?]; split; [|done]; by intros ->].
      intros [Hc Hb]. split; [|done]. intros ->. apply Hc. rewrite Hb in Eo. injection Eo as <-. by destruct c.
    + rewrite lookup_partial_alter_ne by done. rewrite (ix_agree u Hix). split; [|naive_solver]. intros Hb. split; [|done]. intros ->. congruence.
  - intros n' l. destruct (decide (n' = n)) as [->|Hne]; [|rewrite lookup_partial_alter_ne by done; apply (ix_nodup u Hix)].
    rewrite lookup_partial_alter_eq. destruct (by_sidechain u !! n) as [l0|] eqn:El; [|done]. cbn. unfold drop_ctip. case_decide; [done|].
    intros [= <-]. split; [|done]. apply NoDup_filter. by destruct (ix_nodup u Hix _ _ El).
Qed.

Lemma uc_remove_all_indexed l u : indexed u -> indexed (foldl (fun u c => (uc_remove (ctip_outpoint c) u).1) u l).
Proof. revert u. induction l as [|c l IH]; intros u Hix; [done|]. cbn. apply IH. by apply uc_remove_indexed. Qed.

Lemma uc_insert_indexed n c u : indexed u -> by_outpoint u !! ctip_outpoint c = None -> indexed (uc_insert n c u).
Proof.
  intros Hix Hfr. assert (Hno : forall n', c ∉ slot_ctips u n').
  { intros n' Hc%(ix_agree u Hix). congruence. }
  unfold uc_insert, lhs_insert. fold (lhs_remove c (slot_ctips u n)). split; cbn.
  - intros n' c'. rewrite lookup_insert_Some. destruct (decide (n' = n)) as [->|Hne].
    + rewrite lookup_insert_eq. cbn. rewrite elem_of_app, elem_of_lhs_remove, list_elem_of_singleton, (ix_agree u Hix).
      destruct c as [o v], c' as [o' v']. cbn in *. split.
      * intros [[Hc Hb]|[= -> ->]]; [|by left]. right. split; [congruence|done].
      * intros [[-> [= ->]]|[Hne Hb]]; [by right|left]. split; [congruence|done].
    + rewrite lookup_insert_ne by done. rewrite (ix_agree u Hix). split; [|naive_solver]. intros Hb. right. split; [congruence|done].
  - intros n' l. rewrite lookup_insert_Some. intros [[<- <-]|[_ Hl]]; [|by eapply (ix_nodup u Hix)].
    split; [|apply snoc_ne_nil]. apply NoDup_app. split_and!; [|intros c' [Hc _]%elem_of_lhs_remove Hc'; by apply list_elem_of_singleton in Hc'|apply NoDup_singleton].
    apply NoDup_filter. destruct (by_sidechain u !! n) as [l|] eqn:E; [by destruct (ix_nodup u Hix _ _ E)|constructor].
Qed.

(** ** One transaction *)

Section Step.
Context `{Bitcoin, Nom}.
Implicit Types (bh : BlockHandler) (s : Dbs) (u : UnconsolidatedCtips).

Lemma update_all_indexed s l u :
  indexed u -> NoDup ((fun e => ctip_outpoint (ctip_output e.2)) <$> l) ->
  (forall e, e ∈ l -> by_outpoint u !! ctip_outpoint (ctip_output e.2) = None) ->
  indexed (foldl (fun u e => update_unconsolidated s u e.1 e.2) u l).
Proof.
  revert u. induction l as [|[n info] l IH]; intros u Hix Hnd Hfr; [done|]. cbn. apply NoDup_cons in Hnd as [Hn Hnd].
  assert (Hkeys : forall o, by_outpoint u !! o = None -> ctip_outpoint (ctip_output info) <> o -> by_outpoint (update_unconsolidated s u n info) !! o = None).
  { intros o Ho Hne. destruct (by_outpoint (update_unconsolidated s u n info) !! o) eqn:E; [exfalso|done].
    destruct (update_all_keys s u [(n, info)] o _ E) as [[? Hs]|Hl]; [congruence|]. by apply list_elem_of_singleton in Hl. }
  apply IH; [|done|].
  - unfold update_unconsolidated. destruct (_ && _); [|by apply uc_remove_all_indexed].
    apply uc_insert_indexed; [by apply uc_remove_all_indexed|].
    destruct (_ !! _) eqn:E; [exfalso|done]. apply uc_remove_list_lookup in E as [E _].
    pose proof (Hfr (n, info) ltac:(by left)) as E'. cbn in E'. congruence.
  - intros e He. apply Hkeys; [apply Hfr; by right|]. intros E. apply Hn. cbn. rewrite E.
    by apply (list_elem_of_fmap_2 (fun e : SidechainNumber * TxCtipsInfo => ctip_outpoint (ctip_output e.2))).
Qed.

Lemma sidechain_kept (d : TxDiff) h a a' : apply d h a = Ok a' -> sidechain a' = sidechain a.
Proof.
  assert (Hput : forall l a a', foldM put_new_ctip l a = Ok a' -> sidechain a' = sidechain a).
  { intros l a1 a2. apply (foldM_invariant (fun x => sidechain x = sidechain a1)); [|done].
    intros x y [n c] _ <- Hp. unfold put_new_ctip, put_ctip in Hp. res_inv. done. }
  destruct d as [d|d]; intros Ha.
  - eapply Hput; exact Ha.
  - cbn in Ha. apply bind_Ok in Ha as (a1 & E1 & Ha). apply with_pending_Ok in Ha as (? & ? & _ & _ & ->).
    eapply (Hput [(m6_sidechain_number d, m6_new_ctip d)] a a1). cbn. by rewrite E1.
Qed.

(** An output that is unconsolidated after a transaction was so before, or is
    an output of the transaction that is not the CTIP it sets. *)
Lemma update_all_lookup s l u o x :
  by_outpoint (foldl (fun u e => update_unconsolidated s u e.1 e.2) u l) !! o = Some x ->
  by_outpoint u !! o = Some x \/ exists e, e ∈ l /\ stays_unconsolidated s e.1 e.2 = true /\
    o = ctip_outpoint (ctip_output e.2) /\ x = (e.1, ctip_value (ctip_output e.2)).
Proof.
  revert u. induction l as [|[n info] l IH]; intros u; [by left|]. cbn. intros [Hl|(e & He & ?)]%IH.
  2:{ right. exists e. split; [by right|done]. }
  unfold update_unconsolidated in Hl. fold (stays_unconsolidated s n info) in Hl.
  destruct (stays_unconsolidated s n info) eqn:Est; [|left; by apply uc_remove_list_lookup in Hl as [? _]].
  cbn in Hl. apply lookup_insert_Some in Hl as [[<- <-]|[_ Hl]]; [|left; by apply uc_remove_list_lookup in Hl as [? _]].
  right. exists (n, info). split_and!; [by left|done..].
Qed.

(** C20. The bookkeeping of unconsolidated treasury outputs. After every
    accepted transaction of a block, the two indexes of the unconsolidated
    outputs agree, without repetitions or empty entries; none of these outputs
    is in the treasury tables; and each belongs to an active slot. *)
Theorem unconsolidated_invariant bh s u tx r u' h a' :
  uc_ok (active_sidechains s) u -> txid_fresh tx (active_sidechains s) -> uc_fresh tx u -> outputs_bounded tx ->
  Forall (fun o => 0 <= value o) (output tx) ->
  handle_m5_m6 bh s u tx = Ok (r, u') ->
  match r with Some r => apply (result_diff r) h (active_sidechains s) = Ok a' | None => a' = active_sidechains s end ->
  uc_ok a' u'.
Proof.
  intros Hok Htx Hu Hb Hout Hm Ha. apply handle_m5_m6_outcome in Hm as (infos & Hs & Ho & ->).
  destruct r as [r|]; [|cbn in Ho; by rewrite Ho, Ha]. destruct Hok as [Hix Hfr Hact Hval].
  destruct (slots_ok bh s u tx infos Hs Hb Hu) as [Hnd Hok]. rewrite Forall_forall in Hok.
  pose proof (sidechain_kept _ _ _ _ Ha) as Esc. apply tx_apply_tables in Ha as [_ Htab].
  assert (Hnew : forall n info, infos !! n = Some info ->
    is_Some (sidechain (active_sidechains s) !! n) /\ 0 <= ctip_value (ctip_output info) /\
    op_txid (ctip_outpoint (ctip_output info)) = compute_txid tx).
  { intros n info Hi. destruct (fs_output _ _ _ _ _ _ Hs _ _ Hi) as (v & out & Hv & [_ ?] & ->). split_and!; [done| |done].
    apply list_elem_of_lookup_2 in Hv. cbn. by eapply Forall_forall in Hout. }
  split.
  - apply update_all_indexed; [done|done|]. intros e He. by destruct (Hok e He).
  - intros o [n v] Hl. destruct (ctip_outpoint_to_value_seq a' !! o) as [[[n' v'] q]|] eqn:Et; [exfalso|done].
    assert (Hdiff : diff_ctips (result_diff r) !! n' = Some (mkCtip o v') -> exists info, infos !! n' = Some info /\
      stays_unconsolidated s n' info = false /\ ctip_outpoint (ctip_output info) = o).
    { rewrite (outcome_ctips _ _ _ _ _ _ Ho). destruct (infos !! n') as [info|]; [|done]. cbn.
      destruct (stays_unconsolidated s n' info) eqn:Est; [done|]. intros [= E]. exists info. by rewrite E. }
    apply update_all_lookup in Hl as [Hl|([n0 i0] & Hi0%elem_of_map_to_list & Hst & -> & _)]; cbn [fst snd] in *.
    + destruct (Htab _ _ _ _ Et) as [Et0|(info & Hi & _ & <-)%Hdiff]; [by rewrite (Hfr _ _ Hl) in Et0|].
      destruct (Hnew _ _ Hi) as (_ & _ & Et'). by rewrite (Hu _ Et') in Hl.
    + destruct (Hnew _ _ Hi0) as (_ & _ & Et'). destruct (Htab _ _ _ _ Et) as [Et0|(info & Hi & Hf & Eo)%Hdiff].
      * by rewrite (Htx _ Et') in Et0.
      * assert (n' = n0) as -> by by eapply (output_ctip_inj bh s u tx infos). congruence.
  - intros o n v [Hl|([n0 i0] & Hi0%elem_of_map_to_list & _ & _ & [= -> _])]%update_all_lookup; rewrite Esc; [by eapply Hact|].
    by destruct (Hnew _ _ Hi0).
  - intros o n v [Hl|([n0 i0] & Hi0%elem_of_map_to_list & _ & _ & [= _ ->])]%update_all_lookup; [by eapply Hval|].
    by destruct (Hnew _ _ Hi0) as (_ & ? & _).
Qed.

End Step.
