(* ===== verification/Enforcer.v ===== *)
(** * The validator as an enforcer ([lib/validator/cusf_enforcer.rs])

    The handlers that Bitcoin Core's node drives: connecting and disconnecting
    blocks, validating blocks without connecting them, and accepting
    transactions into the mempool. A write transaction is a copy of the tables:
    committing it replaces the validator's tables (or, for a nested
    transaction, the parent's copy), aborting it drops the copy. *)

From Stdlib Require Import Strings.Byte.
From stdpp Require Import base numbers list gmap.
From S2P Require Import Prelude OrderMap Bitcoin Types Messages M6 Dbs BlockHashes Treasury Diff Reversible Handlers ConnectBlock.
Open Scope Z_scope.

(** ** State

    [events_tx] is the broadcast channel, as the list of the events sent. *)

Record Validator := mkValidator {
  v_dbs : Dbs;
  v_network : Network;
  v_network_params : NetworkParams;
  events_tx : list Event }.

Definition set_dbs (v : Validator) (s : Dbs) : Validator := mkValidator s (v_network v) (v_network_params v) (events_tx v).
Definition send_events (v : Validator) (evs : list Event) : Validator :=
  mkValidator (v_dbs v) (v_network v) (v_network_params v) (events_tx v ++ evs).

Definition validator_handler (v : Validator) : BlockHandler := block_handler_new (v_network v) (v_network_params v).

(** ** Outcomes *)

Inductive RejectReason :=
| RR_ConnectBlock (e : ConnectBlockError)
| MissingParentHeight (block_hash parent : BlockHash).

(** Fatal errors of [connect_block]. *)
Inductive EnforcerConnectBlockError := ECB_ConnectBlock (e : ConnectBlockError) | ECB_Db (e : DbError).

Inductive ConnectBlockAction := AcceptBlock (remove_mempool_txs : gset Txid) | RejectBlock.

Inductive TxAcceptAction := AcceptTx (conflicts_with : gset Txid) (weight_tweak : Z) | RejectTx.

Inductive ValidateTransaction := VT_Db (e : DbError) | NoChainTip | VT_Transaction (e : HandleTransaction).

Inductive ValidatedTx :=
| V_M5 (new_unconsolidated_ctips : UnconsolidatedCtips)
| V_Invalid
| V_Valid
| V_Payout (n : SidechainNumber) (m6id : M6id).

(** ** Commit and dry-run modes *)

(** [finish_child] returns the parent transaction after the child was
    committed or aborted; [finish_parent] and [reject] the validator after
    the parent was. *)
Class ConnectBlockMode (Mode Output Accepted : Type) := {
  finish_child : Mode -> forall (parent_rwtxn child_rwtxn : Dbs), Event -> gset Txid -> Dbs * Accepted;
  finish_parent : Validator -> forall (parent_rwtxn : Dbs), Accepted -> Validator * Output;
  reject : Validator -> forall (header_rwtxn : Dbs), RejectReason -> Validator * Output }.

Inductive ConnectBlockCommit := Commit.

#[export] Instance commit_mode : ConnectBlockMode ConnectBlockCommit ConnectBlockAction (Event * gset Txid) := {|
  finish_child _ _ child_rwtxn event remove_mempool_txs := (child_rwtxn, (event, remove_mempool_txs));
  finish_parent v parent_rwtxn accepted :=
    (send_events (set_dbs v parent_rwtxn) [accepted.1], AcceptBlock accepted.2);
  reject v header_rwtxn _ := (set_dbs v header_rwtxn, RejectBlock) |}.

(** The closure reads the tables in which the block is connected. *)
Record ConnectBlockDryRun (A : Type) := DryRun { dry_run_closure : Dbs -> A }.
Arguments DryRun {_} _.
Arguments dry_run_closure {_} _ _.

#[export] Instance dry_run_mode {A} : ConnectBlockMode (ConnectBlockDryRun A) (A + RejectReason) A := {|
  finish_child f parent_rwtxn child_rwtxn _ _ := (parent_rwtxn, dry_run_closure f child_rwtxn);
  finish_parent v _ res := (v, inl res);
  reject v _ reason := (v, inr reason) |}.

Section Enforcer.
Context `{Bitcoin, Nom}.
Implicit Types (v : Validator) (s : Dbs).

(** [x + 1] on a [u32]. *)
Definition u32_incr {E} (a : Z) : Res E Z := if bool_decide (a < u32_max) then Ok (a + 1) else Panic.

(** Stores the header of a block that is not known yet; [inr] if the height of
    its parent is not known. The same code opens [connect_block_with_mode] and
    [partial_connect_block_dry_run]. *)
Definition store_header s (block : Block) : Res EnforcerConnectBlockError (Dbs + RejectReason) :=
  let hash := block_hash (header block) in
  let parent := prev_blockhash (header block) in
  if contains_header (block_hashes s) hash then Ok (inl s) else
  h ← (if decide (parent = all_zeros) then Ok (Some 0)
       else match height (block_hashes s) !! parent with
            | Some parent_height => h ← u32_incr parent_height; Ok (Some h)
            | None => Ok None
            end);
  match h with
  | Some h => b ← map_err ECB_Db (put_headers (block_hashes s) [(header block, h)]); Ok (inl (set_block_hashes s b))
  | None => Ok (inr (MissingParentHeight hash parent))
  end.

(** The transactions of a map of seen BMM requests. *)
Definition request_txids (m : gmap BmmCommitment (gset Txid)) : gset Txid := ⋃ (map_to_list m).*2.
Definition all_request_txids (m : gmap SidechainNumber (gmap BmmCommitment (gset Txid))) : gset Txid :=
  ⋃ (request_txids <$> (map_to_list m).*2).

Definition connect_block_with_mode {Mode Output Accepted} `{ConnectBlockMode Mode Output Accepted}
    (mode : Mode) v (block : Block) : Res EnforcerConnectBlockError (Validator * Output) :=
  stored ← store_header (v_dbs v) block;
  match stored with
  | inr reason => Ok (reject (Mode := Mode) v (v_dbs v) reason)
  | inl parent_rwtxn =>
      match connect_block (validator_handler v) parent_rwtxn block with
      | Ok (child_rwtxn, event) =>
          let remove_mempool_txs := all_request_txids
            (get_seen_bmm_requests_for_parent_block (block_hashes child_rwtxn) (prev_blockhash (header block))) in
          let '(parent_rwtxn, accepted) := finish_child mode parent_rwtxn child_rwtxn event remove_mempool_txs in
          Ok (finish_parent (Mode := Mode) v parent_rwtxn accepted)
      | Err e => if connect_block_fatal e then Err (ECB_ConnectBlock e)
                 else Ok (reject (Mode := Mode) v parent_rwtxn (RR_ConnectBlock e))
      | Panic => Panic
      end
  end.

(** ** The handlers *)

Definition enforcer_connect_block v (block : Block) : Res EnforcerConnectBlockError (Validator * ConnectBlockAction) :=
  connect_block_with_mode Commit v block.

(** The reason is returned as such, not as text. *)
Definition validate_block v (block : Block) : Res EnforcerConnectBlockError (Validator * option RejectReason) :=
  '(v, r) ← connect_block_with_mode (DryRun (fun _ => tt)) v block;
  Ok (v, match r with inl _ => None | inr reason => Some reason end).

Definition enforcer_disconnect_block v (hash : BlockHash) : Res DisconnectBlockError (Validator * gset Txid) :=
  '(rwtxn, evs) ← disconnect_block (v_dbs v) [] hash;
  let remove_mempool_txs :=
    all_request_txids (get_seen_bmm_requests_for_parent_block (block_hashes rwtxn) hash) in
  Ok (send_events (set_dbs v rwtxn) evs, remove_mempool_txs).

(** [validate_tx] ([task/mod.rs]); its transaction is always aborted. *)
Definition seen_inputs s (tx : Transaction) : UnconsolidatedCtips :=
  foldl (fun u txin => match seen_unconsolidated_ctip_outputs s !! previous_output txin with
                       | Some (n, value) => uc_insert n (mkCtip (previous_output txin) value) u
                       | None => u
                       end) unconsolidated_default (input tx).

Definition validate_tx (bh : BlockHandler) s (tx : Transaction) : Res ValidateTransaction ValidatedTx :=
  tip_hash ← ok_or NoChainTip (current_chain_tip s);
  tip_height ← map_err VT_Db (db_get (height (block_hashes s)) tip_hash);
  let handler := mkBlockHandler (bh_network bh) (bh_params bh) (bh_thresholds bh) false in
  match handle_transaction handler s None (seen_inputs s tx) tip_hash tx with
  | Ok (None, _) => Ok V_Valid
  | Ok (Some (event, d), u) =>
      _ ← map_err VT_Db (apply d tip_height (active_sidechains s));
      Ok match event with
         | TxWithdrawalBundle e => V_Payout (wb_sidechain_id e) (wb_m6id e)
         | Deposits _ => V_M5 u
         end
  | Err e => if transaction_fatal e then Err (VT_Transaction e) else Ok V_Invalid
  | Panic => Panic
  end.

(** Weight of an M7 output: value, script length and script, times 4. *)
Definition BMM_ACCEPT_OUTPUT_WEIGHT : Z := (8 + 1 + 39) * 4.

Definition put_seen_ctips s (u : UnconsolidatedCtips) : Dbs :=
  mkDbs (active_sidechains s) (block_hashes s) (current_chain_tip s) (proposal_id_to_sidechain s)
    (foldl (fun m e => <[e.1 := e.2]> m) (seen_unconsolidated_ctip_outputs s) (map_to_list (by_outpoint u))).

(** What [accept_tx_with_payout] stores and returns for a valid transaction. *)
Definition record_tx v (tx : Transaction) (u : UnconsolidatedCtips) : Validator * TxAcceptAction :=
  let s := v_dbs v in
  let txid := compute_txid tx in
  let '(s, conflicts_with, weight_tweak) :=
    match parse_m8_tx tx with
    | Some r =>
        let parent := m8_prev_mainchain_block_hash r in
        let slot := m8_sidechain_number r in
        (set_block_hashes s (put_seen_bmm_request (block_hashes s) parent slot txid (m8_sidechain_block_hash r)),
         request_txids (get_seen_bmm_requests (block_hashes s) parent slot) ∖ {[txid]}, BMM_ACCEPT_OUTPUT_WEIGHT)
    | None => (s, ∅, 0)
    end in
  let n_treasury_outputs :=
    length (filter (fun out => is_Some (op_drivechain_parse (op_drivechain (v_network_params v)) (script_pubkey out))) (output tx)) in
  let weight_tweak := weight_tweak + (if decide (n_treasury_outputs = 0%nat) then 0
                                      else consolidation_tx_weight (Z.of_nat n_treasury_outputs)) in
  (set_dbs v (put_seen_ctips s u), AcceptTx conflicts_with weight_tweak).

Definition accept_tx_with_payout v (tx : Transaction)
    : Res ValidateTransaction (Validator * TxAcceptAction * option (SidechainNumber * M6id)) :=
  validated ← validate_tx (validator_handler v) (v_dbs v) tx;
  match validated with
  | V_Invalid => Ok (v, RejectTx, None)
  | V_M5 u => Ok (record_tx v tx u, None)
  | V_Valid => Ok (record_tx v tx unconsolidated_default, None)
  | V_Payout n m6id => Ok (record_tx v tx unconsolidated_default, Some (n, m6id))
  end.

Definition accept_tx v (tx : Transaction) : Res ValidateTransaction (Validator * TxAcceptAction) :=
  '(v, action, _) ← accept_tx_with_payout v tx; Ok (v, action).

(** ** Speculative connection for block production *)

Record Ctips := mkCtips { consolidated : gmap SidechainNumber Ctip; unconsolidated : UnconsolidatedCtips }.
Record WithdrawalState := mkWithdrawalState {
  ws_ctips : Ctips;
  pending_withdrawals : gmap SidechainNumber PendingM6ids }.

Definition partial_connect_block_dry_run {A} v (block : Block) (f : Dbs -> PartiallyConnectedBlockInfo -> A)
    : Res EnforcerConnectBlockError (A + RejectReason) :=
  stored ← store_header (v_dbs v) block;
  match stored with
  | inr reason => Ok (inr reason)
  | inl parent_rwtxn =>
      match partial_connect_block (validator_handler v) parent_rwtxn block with
      | Ok (child_rwtxn, info) => Ok (inl (f child_rwtxn info))
      | Err e => if partial_fatal e then Err (ECB_ConnectBlock (CB_Partial e))
                 else Ok (inr (RR_ConnectBlock (CB_Partial e)))
      | Panic => Panic
      end
  end.

Definition get_withdrawal_state_after v (block : Block) : Res EnforcerConnectBlockError (WithdrawalState + RejectReason) :=
  partial_connect_block_dry_run v block (fun s info =>
    mkWithdrawalState (mkCtips (ctip (active_sidechains s)) (pc_unconsolidated info))
      (pending_m6ids (active_sidechains s))).

End Enforcer.
