(* ===== verification/EnforcerProofs.v ===== *)
(** * The enforcer follows the chain

    Dry runs against commits, and the enforcer's handlers as a state machine
    whose committed tables and events always belong to one chain of blocks. *)

From Stdlib Require Import Strings.Byte.
From stdpp Require Import base numbers list gmap.
From S2P Require Import Prelude OrderMap Bitcoin Types Messages M6 Dbs BlockHashes Treasury Diff Reversible Handlers HandlerProofs ConnectBlock ConnectProofs Reorg Enforcer.
Open Scope Z_scope.

(** ** Modes *)

Section Modes.
Context `{Bitcoin, !BitcoinLaws, Nom, !NomLaws}.
Implicit Types (v : Validator) (s : Dbs).

(** C17. A dry run is the connection without its effects: it accepts, rejects
    or fails exactly as committing the block does, its closure sees exactly the
    tables that committing the block leaves, and it never changes the
    validator. A commit sends the event of an accepted block and nothing for a
    rejected one, whose tables change by at most its header. *)
Theorem dry_run_faithful {A} (f : Dbs -> A) v block :
  match enforcer_connect_block v block, connect_block_with_mode (DryRun f) v block with
  | Ok (v', AcceptBlock _), Ok (w, inl x) =>
      w = v /\ x = f (v_dbs v') /\ exists hi bi, events_tx v' = events_tx v ++ [ConnectBlock hi bi]
  | Ok (v', RejectBlock), Ok (w, inr _) =>
      w = v /\ events_tx v' = events_tx v /\
      (v' = v \/ store_header (v_dbs v) block = Ok (inl (v_dbs v')))
  | Err e, Err e' => e = e'
  | Panic, Panic => True
  | _, _ => False
  end.
Proof.
  unfold enforcer_connect_block, connect_block_with_mode.
  destruct (store_header (v_dbs v) block) as [[s1|reason]|e|] eqn:Es; cbn; [|by destruct v; auto|done|done].
  destruct (connect_block (validator_handler v) s1 block) as [[s2 ev]|e|] eqn:Ec; cbn; [| |done].
  - split_and!; [done..|]. apply connect_block_Ok in Ec as (? & ? & _ & _ & Hr).
    apply record_block_event in Hr as ->. by eexists _, _.
  - destruct (connect_block_fatal e); cbn; [done|]. auto.
Qed.

End Modes.

(** ** Chains that the tables hold *)

Section Following.
Context `{Bitcoin, !BitcoinLaws, Nom, !NomLaws}.
Implicit Types (v : Validator) (s : Dbs) (bs : list Block) (bh : BlockHandler).

(** The blocks of the chain are stored at their heights. *)
Lemma hist_stored bh s bs i c :
  hist bh s bs -> bs !! i = Some c ->
  headers (block_hashes s) !! hash_of c = Some (header c) /\
  height (block_hashes s) !! hash_of c = Some (Z.of_nat i) /\ is_Some (diff (block_hashes s) !! hash_of c).
Proof.
  intros Hh. revert i c. induction Hh as [s Hs|s bs b t t' ev Ht IH Hok Hcon Hs Hag]; intros i c Hi; [done|].
  assert (Hc : c ∈ bs ++ [b]) by by eapply list_elem_of_lookup_2.
  destruct (Hag c Hc) as (-> & -> & -> & _). apply lookup_app_Some in Hi as [Hi|[Hlen Hi]].
  - assert (Hc' : c ∈ bs) by by eapply list_elem_of_lookup_2.
    destruct (connect_agree_on _ _ _ _ _ _ Hok Hcon c Hc') as (-> & -> & -> & _). by apply IH.
  - destruct (i - length bs)%nat as [|] eqn:E; [|done]. injection Hi as <-.
    destruct (connect_block_summary _ _ _ _ _ (so_block _ _ _ Hok) Hcon) as (s1 & p & _ & _ & _ & _ & -> & -> & -> & _).
    rewrite lookup_insert_eq. split_and!; [apply (bo_header _ _ (so_block _ _ _ Hok))| |by eexists].
    rewrite (so_height _ _ _ Hok). f_equal. lia.
Qed.

(** Every block names its predecessor. *)
Inductive linked : list Block -> Prop :=
| linked_nil : linked []
| linked_snoc bs b :
    linked bs -> prev_blockhash (header b) = default all_zeros (hash_of <$> last bs) -> linked (bs ++ [b]).

Lemma hist_linked bh s bs : hist bh s bs -> linked bs.
Proof.
  induction 1 as [s Hs|s bs b t t' ev Ht IH Hok Hcon Hs Hag]; constructor; [done|].
  destruct (connect_block_summary _ _ _ _ _ (so_block _ _ _ Hok) Hcon) as (? & ? & _ & _ & _ & _ & _ & _ & _ & _ & Htip).
  rewrite (hist_tip _ _ _ Ht) in Htip. by destruct Htip as [->|[-> ->]].
Qed.

(** ** Headers *)

(** The header tables: a tree, and only stored blocks have a height. *)
Record header_inv (b : BlockHashDbs) : Prop := {
  hi_wf : chain_wf b;
  hi_stored x : is_Some (height b !! x) -> is_Some (headers b !! x) }.

Lemma header_inv_ext b b' : headers b' = headers b -> height b' = height b -> header_inv b -> header_inv b'.
Proof. intros Eh Ek [[W1 W2 W3] Hs]. split; [split|]; by rewrite ?Eh, ?Ek. Qed.

(** Storing a header under a known parent. *)
Lemma put_header_inv b hd k b' :
  header_inv b -> block_hash hd <> all_zeros -> headers b !! block_hash hd = None ->
  (if decide (prev_blockhash hd = all_zeros) then k = 0 else height b !! prev_blockhash hd = Some (k - 1)) ->
  put_headers b [(hd, k)] = Ok b' ->
  header_inv b' /\ headers b' !! block_hash hd = Some hd /\ diff b' = diff b /\
  forall x, is_Some (headers b !! x) -> agree_at x b' b.
Proof.
  intros [Hwf Hs] Hnz Hnew Hpar Hput.
  assert (Hp : if decide (prev_blockhash hd = all_zeros) then k = 0 else at_height b (prev_blockhash hd) (k - 1)).
  { destruct (decide _); [done|]. assert (Hst : is_Some (headers b !! prev_blockhash hd)) by (apply Hs; by eexists).
    split_and!; [done|done|]. destruct Hst as [ph Hph]. destruct (cw_height b Hwf _ _ Hph) as (j & Hj & ? & _).
    rewrite Hpar in Hj. by injection Hj as ->. }
  destruct (put_header_tree b hd k b' Hwf Hnz Hnew Hp Hput) as (Hwf' & Eh & Ek & Ed & _).
  split_and!; [split; [done|]|by rewrite Eh, lookup_insert_eq|done|].
  - intros x. rewrite Eh, Ek. rewrite !lookup_insert_is_Some'. intros [->|Hx]; [by left|right; by apply Hs].
  - intros x Hx. assert (x <> block_hash hd) by (intros ->; rewrite Hnew in Hx; by destruct Hx).
    unfold agree_at. rewrite Ed, Eh, Ek, !lookup_insert_ne, (put_headers_info _ _ _ _ Hput) by done. done.
Qed.

(** What the node guarantees of a block it connects: its transactions after
    the coinbase are new, and its hash is that of no other stored header. *)
Record node_block s (b : Block) : Prop := {
  nb_fresh : txs_fresh (tail (txdata b)) (active_sidechains s);
  nb_header hd : headers (block_hashes s) !! hash_of b = Some hd -> hd = header b;
  nb_hash : hash_of b <> all_zeros }.

Lemma store_header_spec s b s1 :
  header_inv (block_hashes s) -> node_block s b -> store_header s b = Ok (inl s1) ->
  exists t1, s1 = set_block_hashes s t1 /\ header_inv t1 /\ headers t1 !! hash_of b = Some (header b) /\
    forall x, is_Some (headers (block_hashes s) !! x) -> agree_at x t1 (block_hashes s).
Proof.
  intros Hinv [_ Hhd Hnz] Hst. unfold store_header in Hst. fold (hash_of b) in Hst.
  unfold contains_header in Hst. destruct (contains_key _ _) eqn:Ec.
  - injection Hst as <-. exists (block_hashes s). apply contains_key_true in Ec as [hd Ehd].
    split_and!; [by destruct s|done|by rewrite Ehd, (Hhd hd)|]. intros x _. apply agree_at_refl.
  - apply contains_key_false in Ec. apply bind_Ok in Hst as (h & Hh & Hst). destruct h as [h|]; [|done].
    apply bind_Ok in Hst as (t1 & Hput & [= <-]). apply map_err_Ok in Hput. exists t1. split; [done|].
    destruct (put_header_inv (block_hashes s) (header b) h t1 Hinv Hnz Ec) as (? & ? & _ & ?); [|done|by split_and!].
    destruct (decide _); [by injection Hh as ->|]. destruct (height (block_hashes s) !! _) as [ph|] eqn:Eph; [|done].
    apply bind_Ok in Hh as (h' & Hi & [= ->]). unfold u32_incr in Hi. case_bool_decide; [|done]. injection Hi as <-.
    f_equal. lia.
Qed.

(** ** The state machine *)

(** The chain a subscriber of the events arrives at. *)
Definition follow (chain : list BlockHash) (e : Event) : list BlockHash :=
  match e with
  | ConnectBlock hi _ => chain ++ [hi_block_hash hi]
  | DisconnectBlock hash => if decide (last chain = Some hash) then removelast chain else chain
  end.
Definition followed (evs : list Event) : list BlockHash := foldl follow [] evs.

(** One call of a handler that returns; a call that fails aborts its
    transaction and leaves the validator unchanged. The node disconnects
    blocks only while there is a tip. *)
Inductive enforcer_step v : Validator -> Prop :=
| step_connect b v' action :
    node_block (v_dbs v) b -> enforcer_connect_block v b = Ok (v', action) -> enforcer_step v v'
| step_disconnect hash v' txids :
    current_chain_tip (v_dbs v) <> None -> enforcer_disconnect_block v hash = Ok (v', txids) -> enforcer_step v v'
| step_validate b v' reason : validate_block v b = Ok (v', reason) -> enforcer_step v v'
| step_accept tx v' action payout : accept_tx_with_payout v tx = Ok (v', action, payout) -> enforcer_step v v'.

(** The committed tables are those of the chain [bs], and the events lead a
    subscriber to it. *)
Record follows v bs : Prop := {
  fo_chain : hist (validator_handler v) (v_dbs v) bs;
  fo_headers : header_inv (block_hashes (v_dbs v));
  fo_events : followed (events_tx v) = hash_of <$> bs }.

(** The next block of a chain is stored at the next height. *)
Lemma next_step_ok bh s bs b s' ev :
  hist bh s bs -> header_inv (block_hashes s) -> headers (block_hashes s) !! hash_of b = Some (header b) ->
  txs_fresh (tail (txdata b)) (active_sidechains s) -> connect_block bh s b = Ok (s', ev) -> step_ok s bs b.
Proof.
  intros Hh [Hwf _] Hhd Hfr Hcon.
  assert (Hlast : forall c, last bs = Some c -> hash_of c <> all_zeros).
  { intros c Hc E. rewrite last_lookup in Hc. destruct (hist_stored _ _ _ _ _ Hh Hc) as (Hc' & _).
    by rewrite E, (cw_zero _ Hwf) in Hc'. }
  assert (Hok : block_ok b s).
  { split; [done..|]. rewrite (hist_tip _ _ _ Hh). destruct (last bs) as [c|] eqn:E; [|done].
    cbn. intros [= Ez]. by eapply Hlast. }
  assert (Hk : height (block_hashes s) !! hash_of b = Some (Z.of_nat (length bs))).
  { destruct (connect_block_summary _ _ _ _ _ Hok Hcon) as (? & ? & _ & _ & _ & _ & _ & _ & _ & _ & Htip).
    rewrite (hist_tip _ _ _ Hh) in Htip. destruct (cw_height _ Hwf _ _ Hhd) as (k & -> & _ & Hk). f_equal.
    destruct (last bs) as [c|] eqn:El; cbn in Htip.
    - destruct Htip as [[= Ep]|[? _]]; [|done]. rewrite decide_False in Hk by (rewrite <- Ep; by apply Hlast).
      destruct Hk as [_ Hk]. rewrite last_lookup in El. destruct (hist_stored _ _ _ _ _ Hh El) as (_ & Hc & _).
      rewrite <- Ep, Hc in Hk. injection Hk as Hk. apply lookup_lt_Some in El. lia.
    - destruct Htip as [?|[_ Ez]]; [done|]. rewrite decide_True in Hk by done. apply last_None in El as ->. done. }
  split; [done| |done]. intros (c & Ec & [i Hi]%list_elem_of_lookup)%list_elem_of_fmap.
  destruct (hist_stored _ _ _ _ _ Hh Hi) as (_ & Hc & _). rewrite <- Ec, Hk in Hc. apply lookup_lt_Some in Hi.
  injection Hc as Hc. lia.
Qed.

(** After its header was stored, a block is connected to the same chain. *)
Lemma stored_hist bh s bs b s1 :
  hist bh s bs -> header_inv (block_hashes s) -> node_block s b -> store_header s b = Ok (inl s1) ->
  hist bh s1 bs /\ header_inv (block_hashes s1) /\ headers (block_hashes s1) !! hash_of b = Some (header b) /\
  active_sidechains s1 = active_sidechains s.
Proof.
  intros Hh Hi Hn Hst. destruct (store_header_spec _ _ _ Hi Hn Hst) as (t1 & -> & Hi' & Hhd & Hag).
  split_and!; [|done..]. eapply hist_ext; [done|done|]. intros c [i Hc]%list_elem_of_lookup. apply Hag.
  destruct (hist_stored _ _ _ _ _ Hh Hc) as (-> & _). by eexists.
Qed.

Lemma connect_header_info bh s b s' hi bi : connect_block bh s b = Ok (s', ConnectBlock hi bi) -> hi_block_hash hi = hash_of b.
Proof.
  intros Hc. apply connect_block_Ok in Hc as (s1 & p & Hp & _ & Hr). apply record_block_event in Hr. injection Hr as -> _.
  unfold partial_connect_block in Hp. apply bind_Ok in Hp as (? & _ & Hp). apply bind_Ok in Hp as (h & _ & Hp).
  destruct (txdata b) as [|cb txs]; [done|]. case_bool_decide; [by injection Hp as _ <-|].
  apply bind_Ok in Hp as ([[[? ?] ?] ?] & _ & Hp). by injection Hp as _ <-.
Qed.

Lemma followed_snoc evs e : followed (evs ++ [e]) = follow (followed evs) e.
Proof. unfold followed. by rewrite foldl_app. Qed.

Lemma connect_follows v bs b v' action :
  follows v bs -> node_block (v_dbs v) b -> enforcer_connect_block v b = Ok (v', action) ->
  follows v' bs /\ action = RejectBlock \/ follows v' (bs ++ [b]) /\ action <> RejectBlock.
Proof.
  intros [Hh Hi He] Hn Hc. unfold enforcer_connect_block, connect_block_with_mode in Hc.
  apply bind_Ok in Hc as ([s1|reason] & Hst & Hc); [|injection Hc as <- <-; left; split; [|done]; split; [by destruct v|done..]].
  destruct (stored_hist _ _ _ _ _ Hh Hi Hn Hst) as (Hh1 & Hi1 & Hhd & Ea).
  destruct (connect_block (validator_handler v) s1 b) as [[s2 ev]|e|] eqn:Ec; [| |done].
  - cbn in Hc. injection Hc as <- <-. right. split; [|done].
    assert (Hok : step_ok s1 bs b) by (eapply next_step_ok; [done..| |done]; rewrite Ea; apply Hn).
    destruct (connect_block_summary _ _ _ _ _ (so_block _ _ _ Hok) Ec) as (? & p & _ & _ & _ & _ & _ & Eh & Ek & -> & _).
    split; cbn.
    + eapply hist_snoc; [done..| |]; [done|]. intros c _. apply agree_at_refl.
    + by eapply header_inv_ext.
    + rewrite followed_snoc, He, fmap_app. cbn. by rewrite (connect_header_info _ _ _ _ _ _ Ec).
  - destruct (connect_block_fatal e); [done|]. injection Hc as <- <-. left. by split.
Qed.

Lemma disconnect_follows v bs hash v' txids :
  follows v bs -> current_chain_tip (v_dbs v) <> None -> enforcer_disconnect_block v hash = Ok (v', txids) ->
  follows v' bs \/ exists bs' b, bs = bs' ++ [b] /\ hash = hash_of b /\ follows v' bs'.
Proof.
  intros [Hh Hi He] Ht Hd. unfold enforcer_disconnect_block in Hd. apply bind_Ok in Hd as ([s' evs] & Hd & [= <- _]).
  destruct (diff (block_hashes (v_dbs v)) !! hash) as [d|] eqn:Ed.
  - right. destruct (last bs) as [b|] eqn:El; [|by rewrite (hist_tip _ _ _ Hh), El in Ht].
    apply last_Some in El as [bs' ->]. exists bs', b.
    assert (hash = hash_of b) as ->.
    { unfold disconnect_block in Hd. rewrite Ed, (hist_tip _ _ _ Hh), last_snoc in Hd. cbn in Hd.
      by destruct (decide (hash_of b = hash)). }
    destruct (hist_disconnect _ _ _ _ [] Hh) as (s1 & E & Hh' & Eb). rewrite E in Hd. injection Hd as <- <-.
    split_and!; [done..|]. split; [done|cbn; by rewrite Eb|]. cbn. rewrite followed_snoc, He, fmap_app. cbn.
    rewrite last_snoc, decide_True by done. apply removelast_last.
  - left. unfold disconnect_block in Hd. rewrite Ed in Hd. injection Hd as <- <-.
    split; [done..|]. cbn. by rewrite app_nil_r.
Qed.

Lemma record_tx_follows v bs tx u v' action : follows v bs -> record_tx v tx u = (v', action) -> follows v' bs.
Proof.
  intros [Hh Hi He] Hr. unfold record_tx in Hr.
  set (w := (match parse_m8_tx tx with Some _ => _ | None => _ end)) in Hr.
  assert (Hw : exists b, w.1.1 = set_block_hashes (v_dbs v) b /\ diff b = diff (block_hashes (v_dbs v)) /\
                 headers b = headers (block_hashes (v_dbs v)) /\ height b = height (block_hashes (v_dbs v)) /\
                 forall x, has_info b x <-> has_info (block_hashes (v_dbs v)) x).
  { unfold w. destruct (parse_m8_tx tx); [by eexists; split_and!|]. exists (block_hashes (v_dbs v)).
    split_and!; [by destruct (v_dbs v)|done..]. }
  destruct w as [[s1 cf] wt], Hw as (b & Hs & Ed & Eh & Ek & Ei). cbn in Hs. subst s1. injection Hr as <- _. split; cbn.
  - eapply hist_ext; [exact Hh|done|]. intros c _. unfold agree_at. cbn. by rewrite Ed, Eh, Ek, Ei.
  - by eapply header_inv_ext.
  - done.
Qed.

Lemma step_follows v bs v' : follows v bs -> enforcer_step v v' -> exists bs', follows v' bs'.
Proof.
  intros Hf [b v1 action Hn Hc|hash v1 txids Ht Hd|b v1 reason Hv|tx v1 action payout Ha].
  - destruct (connect_follows _ _ _ _ _ Hf Hn Hc) as [[? _]|[? _]]; by eexists.
  - destruct (disconnect_follows _ _ _ _ _ Hf Ht Hd) as [?|(bs' & b & _ & _ & ?)]; by eexists.
  - unfold validate_block in Hv. apply bind_Ok in Hv as ([w r] & Hv & [= <- _]). exists bs.
    unfold connect_block_with_mode in Hv. apply bind_Ok in Hv as ([s1|?] & _ & Hv); [|by injection Hv as <- _].
    destruct (connect_block _ _ _) as [[s2 ev]|e|]; [by injection Hv as <- _| |done].
    destruct (connect_block_fatal e); [done|]. by injection Hv as <- _.
  - unfold accept_tx_with_payout in Ha. apply bind_Ok in Ha as (r & _ & Ha). exists bs.
    destruct r as [u| | |n m]; [|by injection Ha as <- _ _|..]; injection Ha as Hr _;
      exact (record_tx_follows _ _ _ _ _ _ Hf Hr).
Qed.

Lemma fresh_follows network params :
  follows (mkValidator dbs_new network params []) [].
Proof.
  split; [by apply hist_nil| |done]. split; [split|]; cbn.
  - apply lookup_empty.
  - intros x hd Hx. by rewrite lookup_empty in Hx.
  - intros x hd Hx. by rewrite lookup_empty in Hx.
  - intros x Hx. rewrite lookup_empty in Hx. by destruct Hx.
Qed.

(** C6. The enforcer follows one chain: whatever sequence of connected,
    disconnected and validated blocks and mempool transactions the node sends
    to a new validator, its committed tables are the result of connecting the
    blocks of some linked chain one after the other, its tip is the last of
    them, the tables are well formed, and the events it sent lead every
    subscriber to exactly this chain. *)
Theorem enforcer_follows_chain network params v :
  rtc enforcer_step (mkValidator dbs_new network params []) v ->
  exists bs, hist (validator_handler v) (v_dbs v) bs /\ linked bs /\ wf (v_dbs v) /\
    current_chain_tip (v_dbs v) = hash_of <$> last bs /\ followed (events_tx v) = hash_of <$> bs.
Proof.
  intros Hr. assert (Hf : exists bs, follows v bs).
  { pose proof (fresh_follows network params) as H0'. revert H0'. generalize (@nil Block) as bs.
    induction Hr as [v|v v1 v2 Hs _ IH]; intros bs Hf; [by eexists|].
    destruct (step_follows _ _ _ Hf Hs) as [bs' Hf']. by eapply IH. }
  destruct Hf as [bs [Hh Hi He]]. exists bs.
  split_and!; [done|by eapply hist_linked|by eapply hist_wf|by eapply hist_tip|done].
Qed.

End Following.

(** ** The mempool *)

Section Mempool.
Context `{Bitcoin, !BitcoinLaws, Nom, !NomLaws}.
Implicit Types (v : Validator) (s : Dbs).

(** A BMM request for the slot and parent block was seen in transaction [t]. *)
Definition seen s (parent : BlockHash) (n : SidechainNumber) (t : Txid) : Prop :=
  exists c, (t, c) ∈ default ∅ (seen_bmm_request_txs (block_hashes s) !! (parent, n)).

Lemma elem_of_request_txids (m : gmap BmmCommitment (gset Txid)) t :
  t ∈ request_txids m <-> exists c, t ∈ default ∅ (m !! c).
Proof.
  unfold request_txids. rewrite elem_of_union_list. split.
  - intros (X & ([c X'] & -> & Hm%elem_of_map_to_list)%list_elem_of_fmap & Ht). exists c. by rewrite Hm.
  - intros [c Ht]. destruct (m !! c) as [X|] eqn:E; [|by apply not_elem_of_empty in Ht]. exists X. split; [|done].
    apply (list_elem_of_fmap_2 snd _ (c, X)). by apply elem_of_map_to_list.
Qed.

Lemma elem_of_all_request_txids (m : gmap SidechainNumber (gmap BmmCommitment (gset Txid))) t :
  t ∈ all_request_txids m <-> exists n c, t ∈ default ∅ (default ∅ (m !! n) !! c).
Proof.
  unfold all_request_txids. rewrite elem_of_union_list. split.
  - intros (X & (m' & -> & ([n m''] & -> & Hm%elem_of_map_to_list)%list_elem_of_fmap)%list_elem_of_fmap & Ht).
    apply elem_of_request_txids in Ht as [c Ht]. exists n, c. by rewrite Hm.
  - intros (n & c & Ht). destruct (m !! n) as [m'|] eqn:E; [|by apply not_elem_of_empty in Ht].
    exists (request_txids m'). split; [|apply elem_of_request_txids; by exists c].
    apply list_elem_of_fmap_2, (list_elem_of_fmap_2 snd _ (n, m')). by apply elem_of_map_to_list.
Qed.

(** The loop of [get_seen_bmm_requests_for_parent_block]. *)
Lemma requests_fold (l : list ((BlockHash * SidechainNumber) * (Txid * BmmCommitment)))
    (m : gmap SidechainNumber (gmap BmmCommitment (gset Txid))) n c t :
  t ∈ default ∅ (default ∅ (foldl (fun res '((_, slot), (txid, c)) =>
         let m := default ∅ (res !! slot) in <[slot := <[c := {[txid]} ∪ default ∅ (m !! c)]> m]> res) m l !! n) !! c)
  <-> t ∈ default ∅ (default ∅ (m !! n) !! c) \/ exists p, ((p, n), (t, c)) ∈ l.
Proof.
  revert m. induction l as [|[[p n'] [t' c']] l IH]; intros m; cbn -[lookup].
  - split; [by left|]. intros [?|[p Hp%elem_of_nil]]; done.
  - rewrite IH. cbn zeta. assert (Hl : (exists p0, ((p0, n), (t, c)) ∈ ((p, n'), (t', c')) :: l)
      <-> (n', t', c') = (n, t, c) \/ exists p0, ((p0, n), (t, c)) ∈ l).
    { split.
      - intros [p0 [[= -> -> -> ->]|?]%elem_of_cons]; [by left|right; by eexists].
      - intros [[= -> -> ->]|[p0 ?]]; [exists p; by left|exists p0; by right]. }
    rewrite Hl. destruct (decide (n' = n)) as [->|Hn].
    + rewrite lookup_insert_eq. cbn -[lookup]. destruct (decide (c' = c)) as [->|Hc].
      * rewrite lookup_insert_eq. cbn. rewrite elem_of_union, elem_of_singleton. naive_solver.
      * rewrite lookup_insert_ne by done. naive_solver.
    + rewrite lookup_insert_ne by done. naive_solver.
Qed.

Lemma evicted_spec s parent t :
  t ∈ all_request_txids (get_seen_bmm_requests_for_parent_block (block_hashes s) parent) <-> exists n, seen s parent n t.
Proof.
  rewrite elem_of_all_request_txids. unfold get_seen_bmm_requests_for_parent_block. split.
  - intros (n & c & Ht). exists n, c. apply requests_fold in Ht as [Ht|[p Hp]];
      [by apply not_elem_of_empty in Ht|].
    apply elem_of_concat in Hp as (l & Hp & Hl).
    apply list_elem_of_fmap in Hl as ([[p' n'] X] & -> & [Hp' HX]%list_elem_of_filter). cbn in Hp'. subst p'.
    apply list_elem_of_fmap in Hp as ([t' c'] & [= -> -> -> ->] & Hx%elem_of_elements).
    apply elem_of_map_to_list in HX. by rewrite HX.
  - intros (n & c & Hs). exists n, c. apply requests_fold. right. exists parent.
    destruct (seen_bmm_request_txs (block_hashes s) !! (parent, n)) as [X|] eqn:E; [|by apply not_elem_of_empty in Hs].
    apply elem_of_concat. exists (pair (parent, n) <$> elements X). split.
    + apply list_elem_of_fmap_2. by apply elem_of_elements.
    + apply (list_elem_of_fmap_2 (fun e : _ * gset (Txid * BmmCommitment) => pair e.1 <$> elements e.2) _ ((parent, n), X)).
      apply list_elem_of_filter. split; [done|]. by apply elem_of_map_to_list.
Qed.

Lemma partial_connect_tables bh s b s1 p :
  partial_connect_block bh s b = Ok (s1, p) -> block_hashes s1 = block_hashes s.
Proof.
  unfold partial_connect_block. intros Hp. apply bind_Ok in Hp as (? & _ & Hp). apply bind_Ok in Hp as (h & _ & Hp).
  destruct (txdata b) as [|cb txs]; [done|]. case_bool_decide; [by injection Hp as <- _|].
  apply bind_Ok in Hp as ([[[s2 bi] d] u] & Hb & Hp). injection Hp as <- _.
  pose proof (process_block_reframe bh s s h (block_hash (header b)) (prev_blockhash (header b)) cb txs) as E.
  rewrite reframe_id, Hb in E. cbn in E. assert (E' : s2 = reframe s s2) by (by injection (E (or_intror eq_refl))).
  by rewrite E'.
Qed.

Lemma connect_block_requests bh s b s' ev :
  connect_block bh s b = Ok (s', ev) -> seen_bmm_request_txs (block_hashes s') = seen_bmm_request_txs (block_hashes s).
Proof.
  intros Hc. apply connect_block_Ok in Hc as (s1 & p & Hp & _ & Hr). apply partial_connect_tables in Hp. rewrite <- Hp.
  unfold record_block, put_block_info in Hr. apply bind_Ok in Hr as (tb & Ht & Hr). apply map_err_Ok in Ht.
  apply bind_Ok in Ht as (hd & _ & Ht). apply bind_Ok in Ht as (w & _ & [= <-]).
  apply bind_Ok in Hr as (tw & _ & Hr). apply bind_Ok in Hr as (w' & _ & [= <- _]).
  by destruct (match tw with Some _ => _ | None => _ end).
Qed.

Lemma store_header_requests s b s1 :
  store_header s b = Ok (inl s1) -> seen_bmm_request_txs (block_hashes s1) = seen_bmm_request_txs (block_hashes s).
Proof.
  unfold store_header. intros Hst. destruct (contains_header _ _); [by injection Hst as <-|].
  apply bind_Ok in Hst as ([h|] & _ & Hst); [|done]. apply bind_Ok in Hst as (b1 & Hb & [= <-]). apply map_err_Ok in Hb.
  cbn in Hb. apply bind_Ok in Hb as (b2 & Hb & [= <-]). unfold put_header in Hb.
  destruct (decide _); [by injection Hb as <-|]. by apply bind_Ok in Hb as (k & _ & [= <-]).
Qed.

Lemma disconnect_block_requests s evs hash s' evs' :
  disconnect_block s evs hash = Ok (s', evs') -> block_hashes s' = block_hashes s.
Proof.
  unfold disconnect_block. destruct (diff (block_hashes s) !! hash) as [d|]; [|by intros [= <- _]].
  intros Hd. apply bind_Ok in Hd as (? & _ & Hd). apply bind_Ok in Hd as (hi & _ & Hd).
  apply bind_Ok in Hd as (s1 & Hu & [= <- _]). apply map_err_Ok in Hu.
  rewrite (frame_only_Ok _ _ _ (frame_block_undo d) Hu). by case_decide.
Qed.

Lemma record_tx_spec v tx u v' cf w :
  record_tx v tx u = (v', AcceptTx cf w) ->
  same_core (v_dbs v') (v_dbs v) /\ events_tx v' = events_tx v /\
  match parse_m8_tx tx with
  | None => cf = ∅ /\ block_hashes (v_dbs v') = block_hashes (v_dbs v)
  | Some q =>
      let parent := m8_prev_mainchain_block_hash q in let n := m8_sidechain_number q in
      (forall t, t ∈ cf <-> t <> compute_txid tx /\ seen (v_dbs v) parent n t) /\
      (forall p' n' t, seen (v_dbs v') p' n' t <-> seen (v_dbs v) p' n' t \/ (p', n', t) = (parent, n, compute_txid tx))
  end.
Proof.
  unfold record_tx. destruct (parse_m8_tx tx) as [q|]; intros Hr; injection Hr as <- <- _; [|by split_and!].
  split; [done|]. split; [done|]. split.
  - intros t. rewrite elem_of_difference, elem_of_singleton, elem_of_request_txids. unfold get_seen_bmm_requests.
    setoid_rewrite collect_requests_spec. setoid_rewrite elem_of_elements. unfold seen. naive_solver.
  - intros p' n' t. unfold seen. cbn.
    destruct (decide ((m8_prev_mainchain_block_hash q, m8_sidechain_number q) = (p', n'))) as [[= <- <-]|Hne].
    + rewrite lookup_insert_eq. cbn. setoid_rewrite elem_of_union. setoid_rewrite elem_of_singleton. naive_solver.
    + rewrite lookup_insert_ne by done. naive_solver.
Qed.

(** The mempool's bookkeeping. Accepting a transaction changes neither
    the consensus state nor the events. A BMM request is accepted only on the
    current tip, conflicts with exactly the other requests seen for its slot
    and parent, and is remembered; connecting a block then evicts exactly the
    requests seen on its parent, and disconnecting a block exactly those seen
    on the block. *)
Theorem mempool_tracks_requests v :
  (forall tx v' cf w, accept_tx v tx = Ok (v', AcceptTx cf w) ->
     same_core (v_dbs v') (v_dbs v) /\ events_tx v' = events_tx v /\
     forall q, parse_m8_tx tx = Some q ->
       current_chain_tip (v_dbs v) = Some (m8_prev_mainchain_block_hash q) /\
       (forall t, t ∈ cf <-> t <> compute_txid tx /\ seen (v_dbs v) (m8_prev_mainchain_block_hash q) (m8_sidechain_number q) t) /\
       forall p n t, seen (v_dbs v') p n t <->
         seen (v_dbs v) p n t \/ (p, n, t) = (m8_prev_mainchain_block_hash q, m8_sidechain_number q, compute_txid tx)) /\
  (forall tx v', accept_tx v tx = Ok (v', RejectTx) -> v' = v) /\
  (forall b v' evicted t, enforcer_connect_block v b = Ok (v', AcceptBlock evicted) ->
     t ∈ evicted <-> exists n, seen (v_dbs v) (prev_blockhash (header b)) n t) /\
  (forall hash v' evicted t, enforcer_disconnect_block v hash = Ok (v', evicted) ->
     t ∈ evicted <-> exists n, seen (v_dbs v) hash n t).
Proof.
  split_and!.
  - intros tx v' cf w Ha. unfold accept_tx, accept_tx_with_payout in Ha. apply bind_Ok in Ha as ([[v1 act] po] & Ha & [= -> ->]).
    apply bind_Ok in Ha as (r & Hv & Ha). assert (Hr : r <> V_Invalid /\ exists u, record_tx v tx u = (v', AcceptTx cf w)).
    { destruct r as [u| | |n m]; [|by injection Ha|..]; injection Ha as Hr _; (split; [done|]); by eexists. }
    destruct Hr as [Hr [u Hrec]]. apply record_tx_spec in Hrec as (Hc & He & Hm). split_and!; [done..|].
    intros q Hq. rewrite Hq in Hm. split; [|exact Hm]. unfold validate_tx in Hv. apply bind_Ok in Hv as (tip & Ht & Hv).
    apply ok_or_Ok in Ht. rewrite Ht. apply bind_Ok in Hv as (th & _ & Hv).
    destruct (handle_transaction _ _ _ _ _ _) as [hr|e|] eqn:Eh; [| |done].
    2:{ destruct (transaction_fatal e); [done|]. by injection Hv as <-. }
    unfold handle_transaction in Eh. apply bind_Ok in Eh as ([r1 u1] & _ & Eh). apply bind_Ok in Eh as (ok & H8 & _).
    apply map_err_Ok in H8. unfold handle_m8 in H8. rewrite Hq in H8. by case_decide; subst.
  - intros tx v' Ha. unfold accept_tx, accept_tx_with_payout in Ha. apply bind_Ok in Ha as ([[v1 act] po] & Ha & [= -> ->]).
    apply bind_Ok in Ha as (r & _ & Ha). destruct r as [u| | |n m]; try by injection Ha. 
    all: unfold record_tx in Ha; destruct (parse_m8_tx tx); done.
  - intros b v' ev t Hc. unfold enforcer_connect_block, connect_block_with_mode in Hc.
    apply bind_Ok in Hc as ([s1|?] & Hst & Hc); [|done].
    destruct (connect_block (validator_handler v) s1 b) as [[s2 e2]|e|] eqn:Ec; [| |done].
    2:{ by destruct (connect_block_fatal e). }
    injection Hc as _ <-. rewrite evicted_spec. unfold seen.
    by rewrite (connect_block_requests _ _ _ _ _ Ec), (store_header_requests _ _ _ Hst).
  - intros hash v' ev t Hd. unfold enforcer_disconnect_block in Hd. apply bind_Ok in Hd as ([s' evs] & Hd & [= _ <-]).
    rewrite evicted_spec. unfold seen. by rewrite (disconnect_block_requests _ _ _ _ _ Hd).
Qed.

End Mempool.
