(* ===== verification/Sync.v ===== *)
(** * Synchronising blocks with the node

    [sync_blocks] ([lib/validator/task/mod.rs]) rewinds the enforcer's chain to
    its last common ancestor with the node's tip and connects the missing
    blocks: those below the activation height from their headers, the others
    from Bitcoin Core's block files ([task/block_files.rs]) and then over RPC,
    following the node's background validation of an assumeutxo snapshot
    ([task/chainstates.rs]).

    The code commits as it goes, so an error does not undo what was committed:
    a computation returns the state it leaves together with its result. The
    node is an abstract world whose answers may change at any time. *)

From Stdlib Require Import Strings.Byte.
From stdpp Require Import base numbers list gmap.
From S2P Require Import Prelude OrderMap Bitcoin Types Messages M6 Dbs BlockHashes Treasury Diff Reversible Handlers ConnectBlock.
Open Scope Z_scope.

(** ** Errors *)

(** Errors of the RPC and REST clients carry no more than the method. *)
Inductive SyncError :=
| SE_JsonRpc
| SE_Rest
| SE_BlockDir
| SE_ParseBlockFiles
| SE_Decode
| BlockNotInActiveChain (h : BlockHash)
| SE_ConnectBlock (e : ConnectBlockError)
| SE_Db (e : DbError)
| SE_DisconnectBlock (e : DisconnectBlockError)
| SE_GetHeaderInfo (e : GetHeaderInfoError)
| SE_LastCommonAncestor (e : LastCommonAncestorError)
| MissingBackgroundChainstate
| Shutdown
| SnapshotBaseHeaderUnknown (h : BlockHash).

Record InvalidBlock := mkInvalidBlock { ib_block_hash : BlockHash; ib_reason : ConnectBlockError }.

(** ** Computations

    [None] is a loop that has not ended within its fuel. *)

Definition SyncM (S A : Type) : Type := S -> S * option (Res SyncError A).

Definition sret {S A} (a : A) : SyncM S A := fun s => (s, Some (Ok a)).
Definition sbind {S A B} (m : SyncM S A) (f : A -> SyncM S B) : SyncM S B := fun s =>
  match m s with
  | (s', Some (Ok a)) => f a s'
  | (s', Some (Err e)) => (s', Some (Err e))
  | (s', Some Panic) => (s', Some Panic)
  | (s', None) => (s', None)
  end.
Definition slift {S A} (r : Res SyncError A) : SyncM S A := fun s => (s, Some r).
Definition sget {S} : SyncM S S := fun s => (s, Some (Ok s)).
Definition sput {S} (s : S) : SyncM S unit := fun _ => (s, Some (Ok tt)).
Definition sout_of_fuel {S A} : SyncM S A := fun s => (s, None).

#[export] Instance SyncM_bind {S} : MBind (SyncM S) := fun A B f m => sbind m f.
#[export] Instance SyncM_ret {S} : MRet (SyncM S) := fun A a => sret a.

(** ** The node *)

Record ChainstateInfo := mkChainstateInfo {
  cs_blocks : option Z;
  cs_snapshot_blockhash : option BlockHash;
  cs_validated : option bool }.

(** What is asked of Bitcoin Core over RPC, the cancellation token, and the
    decoding of the node's answers by rust-bitcoin. [None] is a failed
    request. [sleep] tells whether the wait was cancelled. *)
Class Node (W : Type) := {
  getblock_batch : W -> list BlockHash -> W * option (list bytes);
  getchainstates : W -> W * option (list ChainstateInfo);
  is_cancelled : W -> W * bool;
  sleep : W -> W * bool;
  deserialize_block : bytes -> option Block }.

(** The validator's committed tables, the events sent, and the node. *)
Record SyncState (W : Type) := mkSync { sy_dbs : Dbs; sy_events : list Event; sy_world : W }.
Arguments mkSync {_} _ _ _.
Arguments sy_dbs {_} _.
Arguments sy_events {_} _.
Arguments sy_world {_} _.

(** [rwtxn.commit()] followed by [broadcast_events]. *)
Definition commit {W} (s : Dbs) (evs : list Event) : SyncM (SyncState W) unit := fun st =>
  (mkSync s (sy_events st ++ evs) (sy_world st), Some (Ok tt)).

(** A request to the node. *)
Definition ask {W A} (e : SyncError) (f : W -> W * option A) : SyncM (SyncState W) A := fun st =>
  let '(w, r) := f (sy_world st) in (mkSync (sy_dbs st) (sy_events st) w, Some (ok_or e r)).

Definition ask_bool {W} (f : W -> W * bool) : SyncM (SyncState W) bool := fun st =>
  let '(w, b) := f (sy_world st) in (mkSync (sy_dbs st) (sy_events st) w, Some (Ok b)).

(** ** Chainstates *)

Record BackgroundSync := mkBackgroundSync { snapshot_blockhash : BlockHash; bs_background_height : Z }.

Fixpoint find_map {A B} (f : A -> option B) (l : list A) : option B :=
  match l with [] => None | x :: l => match f x with Some y => Some y | None => find_map f l end end.

Fixpoint max_list (l : list Z) : option Z :=
  match l with
  | [] => None
  | x :: l => Some (match max_list l with Some y => Z.max x y | None => x end)
  end.

Definition background_sync (chainstates : list ChainstateInfo) : Res SyncError (option BackgroundSync) :=
  match find_map (fun c => if decide (cs_validated c = Some true) then None else cs_snapshot_blockhash c) chainstates with
  | None => Ok None
  | Some hash =>
      let background := filter (fun c => cs_snapshot_blockhash c = None) chainstates in
      h ← ok_or MissingBackgroundChainstate (max_list ((fun c => default 0 (cs_blocks c)) <$> background));
      Ok (Some (mkBackgroundSync hash h))
  end.

Record BlockDataGap := mkBlockDataGap { background_height : Z; snapshot_base_height : Z }.

Definition gap_contains (g : BlockDataGap) (h : Z) : bool :=
  bool_decide (background_height g < h) && bool_decide (h <= snapshot_base_height g).

Section Sync.
Context `{Bitcoin, Nom} {W : Type} `{!Node W}.
Implicit Types (bh : BlockHandler) (s : Dbs).

Definition block_data_gap : SyncM (SyncState W) (option BlockDataGap) :=
  chainstates ← ask SE_JsonRpc getchainstates;
  bg ← slift (background_sync chainstates);
  match bg with
  | None => sret None
  | Some bg =>
      st ← sget;
      match height (block_hashes (sy_dbs st)) !! snapshot_blockhash bg with
      | None => slift (Err (SnapshotBaseHeaderUnknown (snapshot_blockhash bg)))
      | Some h => sret (Some (mkBlockDataGap (bs_background_height bg) h))
      end
  end.

(** ** Batches of blocks *)

(** The nested transaction of a block is dropped unless the block connects. *)
Fixpoint handle_block_batch bh s (blocks : list Block) (evs : list Event)
    : Res SyncError (Dbs * list Event * option InvalidBlock) :=
  match blocks with
  | [] => Ok (s, evs, None)
  | block :: blocks =>
      match connect_block bh s block with
      | Ok (s, event) => handle_block_batch bh s blocks (evs ++ [event])
      | Err e => if connect_block_fatal e then Err (SE_ConnectBlock e)
                 else Ok (s, evs, Some (mkInvalidBlock (block_hash (header block)) e))
      | Panic => Panic
      end
  end.

Definition handle_block_batch_and_commit bh (blocks : list Block) : SyncM (SyncState W) (option InvalidBlock) :=
  st ← sget;
  '(s, evs, invalid_block) ← slift (handle_block_batch bh (sy_dbs st) blocks []);
  _ ← commit s evs;
  sret invalid_block.

(** ** Blocks below the activation height *)

(** [missing_blocks] is a stack; here its next block is the head. *)
Definition missing_blocks_connect_to_tip (missing_blocks : list BlockHash) (main_tip : BlockHash)
    : SyncM (SyncState W) bool :=
  st ← sget;
  let tip := default all_zeros (current_chain_tip (sy_dbs st)) in
  match missing_blocks with
  | next_block :: _ =>
      hi ← slift (map_err SE_GetHeaderInfo (get_header_info (block_hashes (sy_dbs st)) next_block));
      sret (bool_decide (hi_prev_block_hash hi = tip))
  | [] => sret (bool_decide (tip = main_tip))
  end.

Definition connect_block_from_header bh s (hash : BlockHash) : Res SyncError (Dbs * Event) :=
  hi ← map_err SE_GetHeaderInfo (get_header_info (block_hashes s) hash);
  _ ← assert_or_panic (bool_decide (hi_height hi < bip300_activation_height (bh_params bh)));
  _ ← map_err (fun e => SE_ConnectBlock (CB_Partial e)) (ensure_tip_is_parent s (hi_prev_block_hash hi));
  let '(block_info, block_diff) := empty_block_info_and_diff all_zeros in
  map_err (fun e => SE_ConnectBlock (CB_Finalize (Record_ e))) (record_block s hi block_info block_diff).

(** The inner [while] loop: a batch of at most [n] more blocks. *)
Fixpoint pre_activation_batch bh (n : nat) s (missing_blocks : list BlockHash) (evs : list Event)
    : Res SyncError (Dbs * list BlockHash * list Event) :=
  match n, missing_blocks with
  | S n, hash :: missing' =>
      h ← map_err SE_Db (db_get (height (block_hashes s)) hash);
      if bool_decide (h < bip300_activation_height (bh_params bh)) then
        '(s, event) ← connect_block_from_header bh s hash;
        pre_activation_batch bh n s missing' (evs ++ [event])
      else Ok (s, missing_blocks, evs)
  | _, _ => Ok (s, missing_blocks, evs)
  end.

Definition PRE_ACTIVATION_BATCH_SIZE : nat := Z.to_nat 10000.

(** The outer loop; every iteration but the last connects a block. *)
Fixpoint pre_activation_loop bh (fuel : nat) (missing_blocks : list BlockHash) (connected : nat)
    : SyncM (SyncState W) (list BlockHash * nat) :=
  match fuel with
  | O => sout_of_fuel
  | S fuel =>
      cancelled ← ask_bool is_cancelled;
      if cancelled : bool then slift (Err Shutdown) else
      st ← sget;
      '(s, missing', evs) ← slift (pre_activation_batch bh PRE_ACTIVATION_BATCH_SIZE (sy_dbs st) missing_blocks []);
      if decide (length evs = 0%nat) then sret (missing_blocks, connected) else
      _ ← commit s evs;
      pre_activation_loop bh fuel missing' (connected + length evs)
  end.

Definition connect_pre_activation_blocks bh (missing_blocks : list BlockHash)
    : SyncM (SyncState W) (list BlockHash * nat) :=
  if decide (bip300_activation_height (bh_params bh) = 0) then sret (missing_blocks, 0%nat)
  else pre_activation_loop bh (S (length missing_blocks)) missing_blocks 0.

(** ** Rewinding to the common ancestor *)

(** The [while] loop; a block without a diff would be tried forever. *)
Fixpoint disconnect_to (fuel : nat) s (evs : list Event) (current_enforcer_tip last_common_ancestor : BlockHash)
    : option (Res SyncError (Dbs * list Event * BlockHash)) :=
  if decide (current_enforcer_tip = last_common_ancestor) then Some (Ok (s, evs, current_enforcer_tip)) else
  match fuel with
  | O => None
  | S fuel =>
      match disconnect_block s evs current_enforcer_tip with
      | Ok (s, evs) => disconnect_to fuel s evs (default all_zeros (current_chain_tip s)) last_common_ancestor
      | Err e => Some (Err (SE_DisconnectBlock e))
      | Panic => Some Panic
      end
  end.

(** Enough fuel for walks from a block to its ancestors. *)
Definition header_fuel s (hash : BlockHash) : nat := S (S (Z.to_nat (default 0 (height (block_hashes s) !! hash)))).

Definition rewind (main_tip : BlockHash) : SyncM (SyncState W) BlockHash :=
  st ← sget;
  let s := sy_dbs st in
  let current_enforcer_tip := default all_zeros (current_chain_tip s) in
  lca ← slift (map_err SE_LastCommonAncestor (last_common_ancestor (block_hashes s) current_enforcer_tip main_tip));
  if decide (current_enforcer_tip = lca) then sret current_enforcer_tip else
  '(s, evs, tip) ← ((fun st => (st, disconnect_to (header_fuel s current_enforcer_tip) s [] current_enforcer_tip lca)) : SyncM (SyncState W) _);
  _ ← commit s evs;
  sret tip.

(** The ancestors of [cur], the block itself first, until [stop]. *)
Fixpoint ancestors_until (fuel : nat) (b : BlockHashDbs) (cur stop : BlockHash) : option (list BlockHash) :=
  match fuel with
  | O => None
  | S fuel =>
      match ancestor_next b cur with
      | None => Some []
      | Some (_, prev) => if decide (cur = stop) then Some []
                          else l ← ancestors_until fuel b prev stop; Some (cur :: l)
      end
  end.

(** The missing blocks, the next one first, and the height of the tip. *)
Definition find_missing_blocks (main_tip current_enforcer_tip : BlockHash) : SyncM (SyncState W) (list BlockHash * Z) :=
  st ← sget;
  let b := block_hashes (sy_dbs st) in
  missing ← ((fun st => (st, option_map Ok (ancestors_until (header_fuel (sy_dbs st) main_tip) b main_tip current_enforcer_tip)))
             : SyncM (SyncState W) _);
  h ← slift (map_err SE_Db (db_get (height b) main_tip));
  sret (rev missing, h).

(** ** Fetching blocks over RPC *)

Definition fetch_blocks_batch (hashes : list BlockHash) : SyncM (SyncState W) (list Block) :=
  raw ← ask SE_JsonRpc (fun w => getblock_batch w hashes);
  slift (foldM (fun blocks r => b ← ok_or SE_Decode (deserialize_block r); Ok (blocks ++ [b])) raw []).

Definition BLOCK_FETCH_BATCH_SIZE : nat := 50.

(** The size of the next batch; [None] inside the gap. *)
Definition batch_size (gap : option BlockDataGap) (next_height : Z) : option nat :=
  match gap with
  | Some g =>
      if gap_contains g next_height then None
      else if bool_decide (next_height <= background_height g)
           then Some (Nat.min BLOCK_FETCH_BATCH_SIZE (Z.to_nat (background_height g - next_height + 1)))
           else Some BLOCK_FETCH_BATCH_SIZE
  | None => Some BLOCK_FETCH_BATCH_SIZE
  end.

(** [remaining] is [missing_blocks_rev[next_idx..]], of which the first has
    height [next_height]. *)
Fixpoint fetch_loop bh (fuel : nat) (gap : option BlockDataGap) (remaining : list BlockHash) (next_height : Z)
    : SyncM (SyncState W) (option InvalidBlock) :=
  match fuel with
  | O => sout_of_fuel
  | S fuel =>
      if decide (remaining = []) then sret None else
      cancelled ← ask_bool is_cancelled;
      if cancelled : bool then slift (Err Shutdown) else
      match batch_size gap next_height with
      | None =>
          interrupted ← ask_bool sleep;
          if interrupted : bool then slift (Err Shutdown) else
          gap ← block_data_gap;
          fetch_loop bh fuel gap remaining next_height
      | Some n =>
          let batch := take n remaining in
          blocks ← fetch_blocks_batch batch;
          invalid_block ← handle_block_batch_and_commit bh blocks;
          match invalid_block with
          | Some invalid_block => sret (Some invalid_block)
          | None => fetch_loop bh fuel gap (drop n remaining) (next_height + Z.of_nat (length batch))
          end
      end
  end.

End Sync.
(** ** Block files *)

(** A block of a file: the transactions are only parsed when needed. *)
Record ParsedBlock := mkParsedBlock { pb_header : Header; parse_tx_data : Res SyncError (list Transaction) }.

(** *** [BlockCache] *)

Record BlockCache := mkBlockCache {
  cached_blocks : gmap BlockHash Block;
  insertion_order : list BlockHash;
  max_size : nat }.

Definition block_cache_new (n : nat) : BlockCache := mkBlockCache ∅ [] n.

(** The eviction loop; it would spin on a full cache without an order. *)
Fixpoint evict (max_size : nat) (blocks : gmap BlockHash Block) (order : list BlockHash)
    : option (gmap BlockHash Block * list BlockHash) :=
  if decide (max_size <= size blocks)%nat then
    match order with
    | oldest :: order => evict max_size (delete oldest blocks) order
    | [] => None
    end
  else Some (blocks, order).

Definition cache_insert (c : BlockCache) (hash : BlockHash) (block : Block) : option BlockCache :=
  if contains_key (cached_blocks c) hash then Some c else
  '(blocks, order) ← evict (max_size c) (cached_blocks c) (insertion_order c);
  Some (mkBlockCache (<[hash := block]> blocks) (order ++ [hash]) (max_size c)).

(** The order holds a hash at most once. *)
Definition cache_remove (c : BlockCache) (hash : BlockHash) : BlockCache * option Block :=
  match cached_blocks c !! hash with
  | Some block =>
      (mkBlockCache (delete hash (cached_blocks c)) (filter (fun h => h <> hash) (insertion_order c)) (max_size c), Some block)
  | None => (c, None)
  end.

Definition MAX_BLOCK_CACHE_SIZE : nat := Z.to_nat 5000.
Definition MAX_ITERATIONS_WITHOUT_MATCH : nat := Z.to_nat 5000.
Definition BLOCKS_DIR_CONNECT_BATCH_SIZE : nat := Z.to_nat 2000.

(** *** The sync *)

(** The mutable arguments and locals: an error leaves them as they are. *)
Record DirState (W : Type) := mkDirState {
  ds_sync : SyncState W;
  ds_missing : list BlockHash;
  ds_pending : list Block;
  ds_cache : BlockCache;
  ds_total : nat }.
Arguments mkDirState {_} _ _ _ _ _.
Arguments ds_sync {_} _.
Arguments ds_missing {_} _.
Arguments ds_pending {_} _.
Arguments ds_cache {_} _.
Arguments ds_total {_} _.

Definition on_sync {W A} (m : SyncM (SyncState W) A) : SyncM (DirState W) A := fun d =>
  let '(st, r) := m (ds_sync d) in (mkDirState st (ds_missing d) (ds_pending d) (ds_cache d) (ds_total d), r).
Definition set_queue {W} (missing : list BlockHash) (pending : list Block) (total : nat) : SyncM (DirState W) unit := fun d =>
  (mkDirState (ds_sync d) missing pending (ds_cache d) total, Some (Ok tt)).
Definition set_cache {W} (c : BlockCache) : SyncM (DirState W) unit := fun d =>
  (mkDirState (ds_sync d) (ds_missing d) (ds_pending d) c (ds_total d), Some (Ok tt)).

Section BlockFiles.
Context `{Bitcoin, Nom} {W : Type} `{!Node W}.
Implicit Types (bh : BlockHandler).

Definition restore_pending_blocks (missing_blocks : list BlockHash) (pending_blocks : list Block) : list BlockHash :=
  ((fun b => block_hash (header b)) <$> pending_blocks) ++ missing_blocks.

Definition position (hash : BlockHash) (blocks : list Block) : option nat :=
  fst <$> list_find (fun b => block_hash (header b) = hash) blocks.

Definition connect_pending_blocks bh : SyncM (DirState W) bool :=
  d ← sget;
  invalid_block ← on_sync (handle_block_batch_and_commit bh (ds_pending d));
  match invalid_block with
  | None =>
      _ ← set_queue (ds_missing d) [] (ds_total d + length (ds_pending d));
      sret true
  | Some invalid_block =>
      rejected_idx ← slift (unwrap (position (ib_block_hash invalid_block) (ds_pending d)));
      _ ← set_queue (restore_pending_blocks (ds_missing d) (drop rejected_idx (ds_pending d))) [] (ds_total d + rejected_idx);
      sret false
  end.

(** A staged block, then the batch if it is full or the last one; [false] when
    a block was rejected. *)
Definition stage_block bh (block : Block) : SyncM (DirState W) bool :=
  d ← sget;
  let pending := ds_pending d ++ [block] in
  let missing := tail (ds_missing d) in
  _ ← set_queue missing pending (ds_total d);
  if decide (BLOCKS_DIR_CONNECT_BATCH_SIZE <= length pending \/ missing = [])%nat then connect_pending_blocks bh
  else sret true.

Fixpoint process_cached_blocks bh (fuel : nat) : SyncM (DirState W) bool :=
  match fuel with
  | O => sout_of_fuel
  | S fuel =>
      d ← sget;
      match ds_missing d with
      | [] => sret true
      | expected :: _ =>
          match cache_remove (ds_cache d) expected with
          | (_, None) => sret true
          | (cache, Some block) =>
              _ ← set_cache cache;
              continue ← stage_block bh block;
              if continue : bool then process_cached_blocks bh fuel else sret false
          end
      end
  end.

Definition cache_block (hash : BlockHash) (block : ParsedBlock) : SyncM (DirState W) unit :=
  txs ← slift (parse_tx_data block);
  d ← sget;
  match cache_insert (ds_cache d) hash (mkBlock (pb_header block) txs) with
  | Some cache => set_cache cache
  | None => sout_of_fuel
  end.

(** Batches that are still staged when the loop ends. *)
Definition flush_pending bh : SyncM (DirState W) unit :=
  d ← sget;
  if decide (length (ds_pending d) = 0%nat) then sret tt else
  _ ← connect_pending_blocks bh;
  sret tt.

(** The loop over the blocks of the parser. *)
Fixpoint dir_loop bh (first_missing : BlockHash) (blocks : list (Res SyncError ParsedBlock)) (iteration_count : nat)
    (has_found_start : bool) (iterations_without_match : nat) : SyncM (DirState W) unit :=
  cancelled ← (if decide (iteration_count mod 100 = 0)%nat then on_sync (ask_bool is_cancelled) else sret false);
  if cancelled : bool then _ ← flush_pending bh; slift (Err Shutdown) else
  match blocks with
  | [] => sret tt
  | item :: blocks =>
      block ← slift item;
      let hash := block_hash (pb_header block) in
      let next := dir_loop bh first_missing blocks (S iteration_count) in
      if negb has_found_start && negb (bool_decide (hash = first_missing)) then
        _ ← cache_block hash block; next false iterations_without_match
      else
        d ← sget;
        match ds_missing d with
        | [] => sret tt
        | expected :: _ =>
            if decide (hash = expected) then
              txs ← slift (parse_tx_data block);
              continue ← stage_block bh (mkBlock (pb_header block) txs);
              if continue : bool then
                d ← sget;
                continue ← process_cached_blocks bh (S (length (ds_missing d)));
                if continue : bool then next true 0%nat else sret tt
              else sret tt
            else
              _ ← cache_block hash block;
              if decide (MAX_ITERATIONS_WITHOUT_MATCH <= S iterations_without_match)%nat then flush_pending bh
              else next true (S iterations_without_match)
        end
  end.

(** [open_dir] is the block file parser positioned at the first missing block;
    an error is one of opening the directory or of its block index. *)
Definition sync_from_directory_inner bh (open_dir : BlockHash -> Res SyncError (list (Res SyncError ParsedBlock)))
    : SyncM (DirState W) nat :=
  d ← sget;
  first_missing ← slift (unwrap (head (ds_missing d)));
  blocks ← slift (open_dir first_missing);
  target ← slift (unwrap (last (ds_missing d)));
  _ ← slift (map_err SE_Db (db_get (height (block_hashes (sy_dbs (ds_sync d)))) target));
  _ ← dir_loop bh first_missing blocks 0 false 0;
  _ ← flush_pending bh;
  d ← sget;
  sret (ds_total d).

(** Returns the remaining missing blocks also when it fails. *)
Definition sync_from_directory bh (open_dir : BlockHash -> Res SyncError (list (Res SyncError ParsedBlock)))
    (missing_blocks : list BlockHash) : SyncM (SyncState W) (list BlockHash * Res SyncError nat) := fun st =>
  let '(d, r) := sync_from_directory_inner bh open_dir
                   (mkDirState st missing_blocks [] (block_cache_new MAX_BLOCK_CACHE_SIZE) 0) in
  let missing := restore_pending_blocks (ds_missing d) (ds_pending d) in
  (ds_sync d, match r with Some Panic => Some Panic | Some r => Some (Ok (missing, r)) | None => None end).

(** ** [sync_blocks] *)

Definition sync_blocks bh (fuel : nat)
    (main_blocks_dir : option (BlockHash -> Res SyncError (list (Res SyncError ParsedBlock)))) (main_tip : BlockHash)
    : SyncM (SyncState W) (option InvalidBlock) :=
  tip ← rewind main_tip;
  '(missing, main_tip_height) ← find_missing_blocks main_tip tip;
  if decide (missing = []) then sret None else
  '(missing, _) ← connect_pre_activation_blocks bh missing;
  missing ← match main_blocks_dir with
            | None => sret missing
            | Some open_dir =>
                '(missing, r) ← sync_from_directory bh open_dir missing;
                match r with
                | Err e =>
                    ok ← missing_blocks_connect_to_tip missing main_tip;
                    if ok : bool then sret missing else slift (Err e)
                | _ => sret missing
                end
            end;
  gap ← block_data_gap;
  fetch_loop bh fuel gap missing (main_tip_height + 1 - Z.of_nat (length missing)).

End BlockFiles.
