(* ===== verification/SyncProofs.v ===== *)
(** * Block synchronisation reaches the node's tip

    Whatever the node answers, the committed tables and the events always
    belong to one chain of blocks; when [sync_blocks] succeeds, that chain ends
    at the node's tip, and when it reports an invalid block, at the block's
    parent. *)

From Stdlib Require Import Strings.Byte.
From stdpp Require Import base numbers list gmap.
From S2P Require Import Prelude OrderMap Bitcoin Types Messages M6 Dbs BlockHashes Treasury Diff Reversible Handlers HandlerProofs ConnectBlock ConnectProofs Reorg Enforcer EnforcerProofs Sync.
Open Scope Z_scope.

Section SyncProofs.
Context `{Bitcoin, !BitcoinLaws, Nom, !NomLaws} {W : Type} `{!Node W}.
Implicit Types (bh : BlockHandler) (s : Dbs) (bs : list Block).

(** ** Computations *)

(** Runs a computation as far as it goes. *)
Ltac run := unfold mbind, SyncM_bind, sbind, slift, sget, sret, sout_of_fuel, commit; cbn beta iota zeta delta [fst snd sy_dbs sy_events sy_world].

(** [m] started in a state with [P] ends with [ok], or fails, panics or runs
    out of fuel in a state with [fail]. *)
Definition triple {S A} (P : S -> Prop) (m : SyncM S A) (ok : A -> S -> Prop) (fail : S -> Prop) : Prop :=
  forall st, P st -> match m st with (st', Some (Ok a)) => ok a st' | (st', _) => fail st' end.

Lemma triple_bind {S A B} P (m : SyncM S A) (f : A -> SyncM S B) ok1 ok fail :
  triple P m ok1 fail -> (forall a, triple (ok1 a) (f a) ok fail) -> triple P (m ≫= f) ok fail.
Proof.
  intros Hm Hf st HP. unfold mbind, SyncM_bind, sbind. specialize (Hm st HP).
  destruct (m st) as [st1 [[a|e|]|]]; [|done..]. by apply Hf.
Qed.

Lemma triple_get {S} (P : S -> Prop) fail : triple P sget (fun a st => P st /\ a = st) fail.
Proof. by intros st HP. Qed.

Lemma triple_ret {S A} (P : S -> Prop) (a : A) ok fail : (forall st, P st -> ok a st) -> triple P (sret a) ok fail.
Proof. intros Hok st HP. by apply Hok. Qed.

Lemma triple_lift {S A} (P : S -> Prop) (r : Res SyncError A) ok fail :
  (forall st a, P st -> r = Ok a -> ok a st) -> (forall st, P st -> fail st) -> triple P (slift r) ok fail.
Proof. intros Hok Hf st HP. unfold slift. destruct r; [by apply Hok|by apply Hf..]. Qed.

Lemma triple_fail {S A} (P : S -> Prop) (m : SyncM S A) ok (fail fail' : S -> Prop) :
  triple P m ok fail -> (forall st, fail st -> fail' st) -> triple P m ok fail'.
Proof. intros Hm Hf st HP. specialize (Hm st HP). destruct (m st) as [st1 [[a|e|]|]]; auto. Qed.

Lemma triple_weaken {S A} (P P' : S -> Prop) (m : SyncM S A) ok ok' fail :
  triple P' m ok' fail -> (forall st, P st -> P' st) -> (forall a st, ok' a st -> ok a st) -> triple P m ok fail.
Proof. intros Hm HP Hok st Hst. specialize (Hm st (HP st Hst)). destruct (m st) as [st1 [[a|e|]|]]; auto. Qed.

(** ** Chains in the tables *)

(** The tip, or the hash of zeros before the first block. *)
Definition tip_of s : BlockHash := default all_zeros (current_chain_tip s).

Lemma hist_tip_of bh s bs : hist bh s bs -> tip_of s = default all_zeros (hash_of <$> last bs).
Proof. intros Hh. unfold tip_of. by rewrite (hist_tip _ _ _ Hh). Qed.

Lemma connect_block_parent bh s b s' ev :
  connect_block bh s b = Ok (s', ev) -> prev_blockhash (header b) = tip_of s.
Proof.
  intros Hc. apply connect_block_Ok in Hc as (s1 & p & Hp & _). unfold partial_connect_block in Hp.
  apply bind_Ok in Hp as ([] & Ht & _). unfold ensure_tip_is_parent in Ht. unfold tip_of.
  destruct (current_chain_tip s); cbn; by case_decide.
Qed.

(** [hs] lists the blocks after [tip] up to [target]. *)
Fixpoint path (b : BlockHashDbs) (tip : BlockHash) (hs : list BlockHash) (target : BlockHash) : Prop :=
  match hs with
  | [] => tip = target
  | h :: hs => exists hd, headers b !! h = Some hd /\ prev_blockhash hd = tip /\ path b h hs target
  end.

Lemma path_app b tip hs1 hs2 target :
  path b tip (hs1 ++ hs2) target <-> exists mid, path b tip hs1 mid /\ path b mid hs2 target.
Proof.
  revert tip. induction hs1 as [|h hs1 IH]; intros tip; cbn.
  - split; [by intros Hp; exists tip|by intros (? & -> & ?)].
  - setoid_rewrite IH. naive_solver.
Qed.

Lemma path_ext b b' tip hs target : headers b' = headers b -> path b tip hs target -> path b' tip hs target.
Proof. intros E. revert tip. induction hs as [|h hs IH]; intros tip; cbn; [done|]. rewrite E. naive_solver. Qed.

Lemma path_ancestor b tip hs target : path b tip hs target -> is_ancestor b tip target.
Proof.
  revert target. induction hs as [|h hs IH] using rev_ind; intros target Hp; [cbn in Hp; subst; constructor|].
  apply path_app in Hp as (mid & Hp & hd & Hhd & <- & <-). cbn in *. eapply ancestor_step; [done|]. by apply IH.
Qed.

(** ** The invariant of the synchronisation

    The header tables do not change while blocks are synchronised. *)

Record synced bh (b0 : BlockHashDbs) (s : Dbs) (evs : list Event) bs : Prop := {
  sd_chain : hist bh s bs;
  sd_headers : headers (block_hashes s) = headers b0 /\ height (block_hashes s) = height b0;
  sd_events : followed evs = hash_of <$> bs }.

Lemma synced_inv bh b0 s evs bs : header_inv b0 -> synced bh b0 s evs bs -> header_inv (block_hashes s).
Proof. intros Hi [_ [Eh Ek] _]. by eapply header_inv_ext. Qed.

Lemma synced_tip bh b0 s evs bs : synced bh b0 s evs bs -> tip_of s = default all_zeros (hash_of <$> last bs).
Proof. intros [Hh _ _]. by eapply hist_tip_of. Qed.

(** Blocks of the node fit the chain they extend, and their header is the one
    stored under their hash. *)
Record good_block bh (b0 : BlockHashDbs) (b : Block) : Prop := {
  gb_header hd : headers b0 !! hash_of b = Some hd -> hd = header b;
  gb_fresh s bs : hist bh s bs -> linked (bs ++ [b]) -> txs_fresh (tail (txdata b)) (active_sidechains s) }.

Lemma connect_synced bh b0 s evs bs b s' ev :
  header_inv b0 -> good_block bh b0 b -> is_Some (headers b0 !! hash_of b) ->
  synced bh b0 s evs bs -> connect_block bh s b = Ok (s', ev) ->
  synced bh b0 s' (evs ++ [ev]) (bs ++ [b]) /\ tip_of s' = hash_of b.
Proof.
  intros Hi [Hhd Hfr] [hd Hst] Hs Hc. pose proof (synced_inv _ _ _ _ _ Hi Hs) as Hi'. destruct Hs as [Hh [Eh Ek] He].
  assert (Hl : linked (bs ++ [b])).
  { constructor; [by eapply hist_linked|]. rewrite (connect_block_parent _ _ _ _ _ Hc). by eapply hist_tip_of. }
  assert (Hok : step_ok s bs b).
  { eapply next_step_ok; [done..| |by eapply Hfr|done]. rewrite Eh, Hst. f_equal. by apply Hhd. }
  destruct (connect_block_summary _ _ _ _ _ (so_block _ _ _ Hok) Hc) as (s1 & p & _ & _ & _ & Et & _ & Eh' & Ek' & -> & _).
  split; [split|].
  - eapply hist_snoc; [done..| |]; [done|]. intros c _. apply agree_at_refl.
  - by rewrite Eh', Ek'.
  - rewrite followed_snoc, He, fmap_app. cbn. by rewrite (connect_header_info _ _ _ _ _ _ Hc).
  - unfold tip_of. by rewrite Et.
Qed.

Lemma path_end b tip hs target : path b tip hs target -> target = default tip (last hs).
Proof.
  intros Hp. destruct (last hs) as [h|] eqn:E; cbn.
  - apply last_Some in E as [hs' ->]. by apply path_app in Hp as (mid & _ & hd & _ & _ & <-).
  - apply last_None in E as ->. done.
Qed.

(** ** Batches *)

(** A batch connects a prefix of its blocks: all of them, or those before the
    block that is reported as invalid. *)
Lemma batch_synced bh b0 blocks s evs0 evs bs s' evs' ib :
  header_inv b0 -> Forall (fun b => good_block bh b0 b /\ is_Some (headers b0 !! hash_of b)) blocks ->
  synced bh b0 s (evs0 ++ evs) bs -> handle_block_batch bh s blocks evs = Ok (s', evs', ib) ->
  exists n, synced bh b0 s' (evs0 ++ evs') (bs ++ take n blocks) /\ tip_of s' = default (tip_of s) (last (hash_of <$> take n blocks)) /\
    match ib with
    | None => take n blocks = blocks
    | Some ib => exists b, blocks !! n = Some b /\ ib_block_hash ib = hash_of b
    end.
Proof.
  intros Hi. revert s evs bs. induction blocks as [|b blocks IH]; intros s evs bs Hall Hs Hb; cbn in Hb.
  - injection Hb as <- <- <-. exists 0%nat. cbn. by rewrite app_nil_r.
  - apply Forall_cons in Hall as [[Hg Hst] Hall].
    destruct (connect_block bh s b) as [[s1 ev]|e|] eqn:Ec; [| |done].
    + destruct (connect_synced _ _ _ _ _ _ _ _ Hi Hg Hst Hs Ec) as [Hs1 Ht]. rewrite <- app_assoc in Hs1.
      destruct (IH s1 (evs ++ [ev]) (bs ++ [b]) Hall Hs1 Hb) as (n & Hn & Htip & Hib). exists (S n). cbn.
      rewrite <- app_assoc in Hn. split_and!; [done| |by destruct ib; [|f_equal]].
      rewrite Htip, Ht, last_cons. by destruct (last _).
    + destruct (connect_block_fatal e); [done|]. injection Hb as <- <- <-. exists 0%nat. cbn. rewrite app_nil_r.
      split_and!; [done..|]. by exists b.
Qed.

(** ** States *)

Section Blocks.
Variables (bh : BlockHandler) (b0 : BlockHashDbs) (main_tip : BlockHash).
Hypothesis Hheaders : header_inv b0.
Implicit Types (st : SyncState W).

Definition safe st : Prop := exists bs, synced bh b0 (sy_dbs st) (sy_events st) bs.

(** The blocks [missing] lead from the committed tip to the node's tip. *)
Definition at_path (missing : list BlockHash) st : Prop :=
  safe st /\ path b0 (tip_of (sy_dbs st)) missing main_tip.

(** The committed chain ends at the parent of the invalid block, which leads
    to the node's tip. *)
Definition stopped_at (ib : InvalidBlock) st : Prop := exists rest, at_path (ib_block_hash ib :: rest) st.

Lemma at_path_safe missing st : at_path missing st -> safe st.
Proof. by intros []. Qed.

Lemma same_tables_path missing st st' :
  sy_dbs st' = sy_dbs st -> sy_events st' = sy_events st -> at_path missing st -> at_path missing st'.
Proof. intros E1 E2. unfold at_path, safe. by rewrite E1, E2. Qed.

Lemma ask_path {A} e (f : W -> W * option A) missing :
  triple (at_path missing) (ask e f) (fun _ => at_path missing) safe.
Proof.
  intros st Hst. unfold ask. destruct (f (sy_world st)) as [w [a|]]; cbn; [by eapply same_tables_path|].
  eapply at_path_safe, same_tables_path; [..|exact Hst]; done.
Qed.

Lemma ask_bool_path (f : W -> W * bool) missing :
  triple (at_path missing) (ask_bool f) (fun _ => at_path missing) safe.
Proof. intros st Hst. unfold ask_bool. destruct (f (sy_world st)) as [w a]. by eapply same_tables_path. Qed.

Lemma path_stored tip hs rest : path b0 tip (hs ++ rest) main_tip -> Forall (fun h => is_Some (headers b0 !! h)) hs.
Proof.
  revert tip. induction hs as [|h hs IH]; intros tip Hp; [constructor|].
  cbn in Hp. destruct Hp as (hd & Hhd & _ & Hp). constructor; [by eexists|by eapply IH].
Qed.

(** A batch that fails commits nothing. *)
Lemma batch_commit_path blocks rest :
  Forall (good_block bh b0) blocks ->
  triple (at_path ((hash_of <$> blocks) ++ rest)) (handle_block_batch_and_commit bh blocks)
    (fun ib st => match ib with
                  | None => at_path rest st
                  | Some ib => exists n b, blocks !! n = Some b /\ ib_block_hash ib = hash_of b /\
                                 at_path ((hash_of <$> drop n blocks) ++ rest) st
                  end) (at_path ((hash_of <$> blocks) ++ rest)).
Proof.
  intros Hg st [[bs Hs] Hp]. unfold handle_block_batch_and_commit. run.
  destruct (handle_block_batch bh (sy_dbs st) blocks []) as [[[s' evs] ib]|e|] eqn:Eb; run; [|split; [by exists bs|done]..].
  assert (Hall : Forall (fun b => good_block bh b0 b /\ is_Some (headers b0 !! hash_of b)) blocks).
  { apply Forall_and. split; [done|]. apply path_stored in Hp. exact (proj1 (Forall_fmap _ _ _) Hp). }
  rewrite <- (app_nil_r (sy_events st)) in Hs.
  destruct (batch_synced _ _ _ _ _ _ _ _ _ _ Hheaders Hall Hs Eb) as (n & Hs' & Ht & Hib).
  assert (Hsafe : safe (mkSync s' (sy_events st ++ evs) (sy_world st))) by by eexists.
  rewrite <- (take_drop n blocks), fmap_app, <- app_assoc in Hp. apply path_app in Hp as (mid & Hp1 & Hp2).
  apply path_end in Hp1. rewrite <- Ht in Hp1. subst mid. destruct ib as [ib|].
  - destruct Hib as (b & Hn & Eib). by exists n, b.
  - split; [done|]. rewrite <- (take_drop n blocks) in Hib at 2. rewrite <- (app_nil_r (take n blocks)) in Hib at 1.
    apply app_inv_head in Hib. by rewrite <- Hib in Hp2.
Qed.

(** ** Fetching blocks *)

(** A block the node returns for a hash has this hash, and fits the chain. *)
Definition honest_node : Prop := forall w hashes w' raws,
  getblock_batch w hashes = (w', Some raws) ->
  Forall2 (fun h r => forall b, deserialize_block r = Some b -> hash_of b = h /\ good_block bh b0 b) hashes raws.

Lemma decode_blocks raws acc blocks :
  foldM (fun blocks r => b ← ok_or SE_Decode (deserialize_block r); Ok (blocks ++ [b])) raws acc = Ok blocks ->
  exists l, blocks = acc ++ l /\ Forall2 (fun r b => deserialize_block r = Some b) raws l.
Proof.
  revert acc. induction raws as [|r raws IH]; intros acc Hf; cbn in Hf.
  - injection Hf as <-. exists []. by rewrite app_nil_r.
  - destruct (deserialize_block r) as [b|] eqn:Eb; [|done]. cbn in Hf. destruct (IH _ Hf) as (l & -> & Hl).
    exists (b :: l). rewrite <- app_assoc. by split; [|constructor].
Qed.

Lemma decoded_blocks hashes raws blocks :
  Forall2 (fun h r => forall b, deserialize_block r = Some b -> hash_of b = h /\ good_block bh b0 b) hashes raws ->
  Forall2 (fun r b => deserialize_block r = Some b) raws blocks ->
  hash_of <$> blocks = hashes /\ Forall (good_block bh b0) blocks.
Proof.
  intros Hn. revert blocks. induction Hn as [|h r hashes raws Hr _ IH]; intros blocks Hd; inversion Hd as [|? b ? l Hb Hl]; subst.
  - by split.
  - destruct (Hr b Hb) as [Eh Hg]. destruct (IH l Hl) as [El Hgl]. cbn. rewrite Eh, El. by split; [|constructor].
Qed.

Lemma fetch_blocks_path hashes missing :
  honest_node ->
  triple (at_path missing) (fetch_blocks_batch hashes)
    (fun blocks st => at_path missing st /\ hash_of <$> blocks = hashes /\ Forall (good_block bh b0) blocks) safe.
Proof.
  intros Hn. eapply (triple_bind _ _ _
    (fun raws st => at_path missing st /\
       Forall2 (fun h r => forall b, deserialize_block r = Some b -> hash_of b = h /\ good_block bh b0 b) hashes raws)).
  - intros st Hst. pose proof (ask_path SE_JsonRpc (fun w => getblock_batch w hashes) missing st Hst) as Ha. unfold ask in *.
    destruct (getblock_batch (sy_world st) hashes) as [w [raws|]] eqn:E; cbn in *; [|done]. split; [done|]. by eapply Hn.
  - intros raws. apply triple_lift; [|by intros st [? _]; eapply at_path_safe].
    intros st blocks [Hst Hr] Hd. apply decode_blocks in Hd as (l & -> & Hl). split; [done|]. by eapply decoded_blocks.
Qed.

Lemma block_data_gap_path missing : triple (at_path missing) block_data_gap (fun _ => at_path missing) safe.
Proof.
  eapply triple_bind; [apply ask_path|]. intros chainstates.
  eapply (triple_bind _ _ _ (fun _ => at_path missing)); [apply triple_lift; [done|by apply at_path_safe]|].
  intros [bg|]; [|by apply triple_ret]. eapply triple_bind; [apply triple_get|]. intros st. cbn beta.
  destruct (_ !! _); [apply triple_ret; by intros ? [? _]|].
  apply triple_lift; [done|]. intros ? [? _]. by eapply at_path_safe.
Qed.

(** What [sync_blocks] promises. *)
Definition outcome (r : option InvalidBlock) st : Prop :=
  match r with None => at_path [] st | Some ib => stopped_at ib st end.

Lemma fetch_loop_path fuel gap remaining next_height :
  honest_node -> triple (at_path remaining) (fetch_loop bh fuel gap remaining next_height) outcome safe.
Proof.
  intros Hn. revert gap remaining next_height. induction fuel as [|fuel IH]; intros gap remaining next_height; cbn [fetch_loop].
  { intros st Hst. by eapply at_path_safe. }
  case_decide as Hr; [subst; by apply triple_ret|].
  eapply triple_bind; [apply ask_bool_path|]. intros [|]; [apply triple_lift; [done|by apply at_path_safe]|].
  destruct (batch_size gap next_height) as [n|].
  - eapply triple_bind; [by apply fetch_blocks_path|]. intros blocks.
    intros st (Hst & Eh & Hg). assert (Er : remaining = (hash_of <$> blocks) ++ drop n remaining) by by rewrite Eh, take_drop.
    rewrite Er in Hst. revert st Hst.
    change (triple (at_path ((hash_of <$> blocks) ++ drop n remaining))
      (handle_block_batch_and_commit bh blocks ≫= fun ib => match ib with Some ib => sret (Some ib)
         | None => fetch_loop bh fuel gap (drop n remaining) (next_height + Z.of_nat (length (take n remaining))) end) outcome safe).
    eapply triple_bind; [eapply triple_fail; [by apply batch_commit_path|apply at_path_safe]|]. intros [ib|]; [|apply IH].
    apply triple_ret. intros st (k & b & Hk & Eb & Hp). cbn. exists ((hash_of <$> drop (S k) blocks) ++ drop n remaining).
    rewrite (drop_S _ _ _ Hk) in Hp. by rewrite Eb.
  - eapply triple_bind; [apply ask_bool_path|]. intros [|]; [apply triple_lift; [done|by apply at_path_safe]|].
    eapply triple_bind; [apply block_data_gap_path|]. intros gap'. apply IH.
Qed.

(** ** Blocks below the activation height *)

(** The recorded coinbase transaction matters to no table of the consensus. *)
Lemma record_block_txid s hi bmm t1 t2 es d s1 ev1 :
  record_block s hi (mkBlockInfo bmm t1 es) d = Ok (s1, ev1) ->
  exists s2, record_block s hi (mkBlockInfo bmm t2 es) d = Ok (s2, ConnectBlock hi (mkBlockInfo bmm t2 es)) /\
    same_core s1 s2 /\ diff (block_hashes s1) = diff (block_hashes s2) /\
    headers (block_hashes s1) = headers (block_hashes s2) /\ height (block_hashes s1) = height (block_hashes s2) /\
    forall x, has_info (block_hashes s1) x <-> has_info (block_hashes s2) x.
Proof.
  intros Hr1. enough (exists s2, record_block s hi (mkBlockInfo bmm t2 es) d = Ok (s2, ConnectBlock hi (mkBlockInfo bmm t2 es)) /\
    same_core s1 s2 /\ diff (block_hashes s1) = diff (block_hashes s2) /\
    headers (block_hashes s1) = headers (block_hashes s2) /\ height (block_hashes s1) = height (block_hashes s2)) as (s2 & Hr2 & ? & ? & ? & ?).
  { exists s2. split_and!; [done..|]. intros x. by rewrite (record_block_info _ _ _ _ _ _ _ Hr1), (record_block_info _ _ _ _ _ _ _ Hr2). }
  revert Hr1. unfold record_block, put_block_info. destruct (headers _ !! _) as [hd|]; [|done]. cbn [ok_or mbind Res_bind map_err].
  destruct (if decide _ then _ else _) as [w| |]; cbn [mbind Res_bind map_err]; [|done..].
  cbn [cumulative_work set_block_hashes current_chain_tip hi_block_hash bi_bmm_commitments bi_coinbase_txid bi_events].
  destruct (match current_chain_tip s with Some _ => _ | None => _ end) as [tw| |]; cbn [mbind Res_bind]; [|done..].
  destruct (map_err RB_Db _) as [w'| |]; cbn [mbind Res_bind]; [|done..].
  destruct (match tw with Some _ => _ | None => _ end); intros [= <- _]; eexists; (split; [done|]); by split_and!.
Qed.

Lemma from_header_synced s evs bs h hd s' ev :
  synced bh b0 s evs bs -> headers b0 !! h = Some hd -> connect_block_from_header bh s h = Ok (s', ev) ->
  exists b, synced bh b0 s' (evs ++ [ev]) (bs ++ [b]) /\ tip_of s' = h.
Proof.
  intros Hs Hhd Hc. pose proof (sd_headers _ _ _ _ _ Hs) as [Eh Ek]. unfold connect_block_from_header in Hc.
  apply bind_Ok in Hc as (hi & Hi%map_err_Ok & Hc). apply bind_Ok in Hc as ([] & Hlt & Hc).
  apply assert_or_panic_Ok, bool_decide_eq_true in Hlt. apply bind_Ok in Hc as ([] & Ht%map_err_Ok & Hc).
  cbn [empty_block_info_and_diff] in Hc. apply map_err_Ok in Hc.
  unfold get_header_info, try_get_header_info in Hi. rewrite Eh, Hhd in Hi.
  destruct (decide (block_hash hd = h)) as [Eq|]; [|rewrite bool_decide_eq_false_2 in Hi by done; done].
  rewrite bool_decide_eq_true_2 in Hi by done. cbn in Hi. destruct (height (block_hashes s) !! h) as [k|] eqn:Hk; [|done].
  cbn in Hi. injection Hi as <-. cbn in Hlt, Ht.
  set (tx := mkTransaction 0 0 [] []). set (b := mkBlock hd [tx]).
  destruct (record_block_txid _ _ _ _ (compute_txid tx) _ _ _ _ Hc) as (s2 & Hr2 & Hcore & Ed & Eh2 & Ek2 & Ei2).
  assert (Hcon : exists hi2 bi2, connect_block bh s b = Ok (s2, ConnectBlock hi2 bi2)).
  { eexists _, _. unfold connect_block, partial_connect_block. cbn [header b txdata]. rewrite Ht. cbn [mbind Res_bind].
    unfold db_get. rewrite Eq, Hk. cbn [ok_or map_err mbind Res_bind]. rewrite bool_decide_eq_true_2 by done.
    cbn [empty_block_info_and_diff map_err mbind Res_bind]. unfold finalize_connect_block. cbn [pc_unconsolidated by_outpoint unconsolidated_default].
    rewrite map_to_list_empty. cbn [pc_header_info pc_block_info pc_diff]. rewrite <- Eq, Hr2. done. }
  destruct Hcon as (hi2 & bi2 & Hcon). exists b.
  assert (Eb : hash_of b = h) by exact Eq.
  assert (Hg : good_block bh b0 b).
  { split; [|split; constructor]. intros hd'. rewrite Eb, Hhd. by intros [= <-]. }
  destruct (connect_synced _ _ _ _ _ _ _ _ Hheaders Hg ltac:(rewrite Eb; by eexists) Hs Hcon) as [[Hh2 Hhead2 He2] Ht2].
  apply record_block_event in Hc as ->. split; [split|].
  - eapply hist_ext; [exact Hh2|done|]. intros c _. unfold agree_at. by rewrite Ed, Eh2, Ek2, Ei2.
  - by rewrite Eh2, Ek2.
  - rewrite followed_snoc in He2 |- *. cbn in *. rewrite (connect_header_info _ _ _ _ _ _ Hcon) in He2. done.
  - destruct Hcore as (_ & _ & Et). unfold tip_of in *. by rewrite Et, Ht2.
Qed.

Lemma pre_activation_synced n s missing evs0 evs bs s' missing' evs' :
  synced bh b0 s (evs0 ++ evs) bs -> path b0 (tip_of s) missing main_tip ->
  pre_activation_batch bh n s missing evs = Ok (s', missing', evs') ->
  (exists bs', synced bh b0 s' (evs0 ++ evs') bs') /\ path b0 (tip_of s') missing' main_tip.
Proof.
  revert s missing evs bs. induction n as [|n IH]; intros s missing evs bs Hs Hp Hb; cbn in Hb.
  { injection Hb as <- <- <-. split; [by eexists|done]. }
  destruct missing as [|h missing]; [injection Hb as <- <- <-; split; [by eexists|done]|].
  apply bind_Ok in Hb as (k & _ & Hb). case_bool_decide; [|injection Hb as <- <- <-; split; [by eexists|done]].
  apply bind_Ok in Hb as ([s1 ev] & Hc & Hb). destruct Hp as (hd & Hhd & _ & Hp).
  destruct (from_header_synced _ _ _ _ _ _ _ Hs Hhd Hc) as (b & Hs1 & Ht). rewrite <- app_assoc in Hs1. rewrite <- Ht in Hp.
  by apply (IH _ _ _ _ Hs1 Hp Hb).
Qed.

Lemma pre_activation_loop_path fuel missing connected :
  triple (at_path missing) (pre_activation_loop bh fuel missing connected) (fun r => at_path r.1) safe.
Proof.
  revert missing connected. induction fuel as [|fuel IH]; intros missing connected; cbn [pre_activation_loop].
  { intros st Hst. by eapply at_path_safe. }
  eapply triple_bind; [apply ask_bool_path|]. intros [|]; [apply triple_lift; [done|by apply at_path_safe]|].
  intros st [[bs Hs] Hp]. run.
  destruct (pre_activation_batch bh PRE_ACTIVATION_BATCH_SIZE (sy_dbs st) missing []) as [[[s' missing'] evs]|e|] eqn:Eb; run; [|by exists bs..].
  case_decide as Hlen; run.
  - split; [by exists bs|done].
  - rewrite <- (app_nil_r (sy_events st)) in Hs.
    destruct (pre_activation_synced _ _ _ _ _ _ _ _ _ Hs Hp Eb) as (Hs' & Hp'). apply IH. by split.
Qed.

Lemma pre_activation_path missing :
  triple (at_path missing) (connect_pre_activation_blocks bh missing) (fun r => at_path r.1) safe.
Proof. unfold connect_pre_activation_blocks. case_decide; [by apply triple_ret|apply pre_activation_loop_path]. Qed.

(** ** Rewinding *)

Lemma is_ancestor_ext b b' x y : headers b' = headers b -> is_ancestor b x y -> is_ancestor b' x y.
Proof. intros E. induction 1; [constructor|]. eapply ancestor_step; [by rewrite E|done]. Qed.

(** The ancestors of the tip are the blocks of the chain. *)
Lemma chain_ancestor s bs a :
  hist bh s bs -> chain_wf (block_hashes s) -> is_ancestor (block_hashes s) a (tip_of s) ->
  exists pre post, bs = pre ++ post /\ a = default all_zeros (hash_of <$> last pre).
Proof.
  intros Hh Hwf. rewrite (hist_tip_of _ _ _ Hh). pose proof (hist_linked _ _ _ Hh) as Hl.
  assert (Hst : forall i c, bs !! i = Some c -> headers (block_hashes s) !! hash_of c = Some (header c)).
  { intros i c Hi. by destruct (hist_stored _ _ _ _ _ Hh Hi) as (? & _). }
  clear Hh. induction Hl as [|bs b Hl IH Hb]; cbn; intros Ha.
  - exists [], []. split; [done|]. inversion Ha as [|? ? hd Hz]; [done|]. by rewrite (cw_zero _ Hwf) in Hz.
  - rewrite last_snoc in Ha. cbn in Ha. assert (Hhd : headers (block_hashes s) !! hash_of b = Some (header b)).
    { apply (Hst (length bs)). by rewrite lookup_app_r, Nat.sub_diag by lia. }
    destruct (is_ancestor_prev _ _ _ _ Hhd Ha) as [->|Ha'].
    + exists (bs ++ [b]), []. rewrite app_nil_r, last_snoc. done.
    + rewrite Hb in Ha'. destruct IH as (pre & post & -> & ->); [|done|exists pre, (post ++ [b]); by rewrite app_assoc].
      intros i c Hi. apply (Hst i). by apply lookup_app_l_Some.
Qed.

Lemma disconnect_to_synced pre post fuel s evs0 evs :
  synced bh b0 s (evs0 ++ evs) (pre ++ post) -> (length post <= fuel)%nat ->
  let a := default all_zeros (hash_of <$> last pre) in
  exists s' evs', disconnect_to fuel s evs (tip_of s) a = Some (Ok (s', evs', a)) /\
    (exists bs, synced bh b0 s' (evs0 ++ evs') bs) /\ tip_of s' = a.
Proof.
  intros Hs Hf a. revert fuel s evs Hs Hf. induction post as [|b post IH] using rev_ind; intros fuel s evs Hs Hf.
  - rewrite app_nil_r in Hs. pose proof (synced_tip _ _ _ _ _ Hs) as Ht. exists s, evs.
    destruct fuel; cbn; rewrite decide_True by done; rewrite Ht; (split_and!; [done|by eexists|done]).
  - rewrite length_app in Hf. cbn in Hf. destruct fuel as [|fuel]; [lia|]. cbn [disconnect_to].
    destruct (decide (tip_of s = a)) as [Ea|Ea]; [exists s, evs; rewrite Ea; split_and!; [done|by eexists|done]|].
    pose proof (synced_tip _ _ _ _ _ Hs) as Ht. rewrite app_assoc, last_snoc in Ht. cbn in Ht. rewrite Ht.
    destruct Hs as [Hh Hhead He]. rewrite app_assoc in Hh, He.
    destruct (hist_disconnect _ _ _ _ evs Hh) as (s1 & -> & Hh1 & Eb). fold (tip_of s1). apply IH; [|lia].
    split; [done|by rewrite Eb|]. rewrite app_assoc, followed_snoc, He, fmap_app. cbn. rewrite last_snoc, decide_True by done.
    apply removelast_last.
Qed.

Lemma rewind_path :
  is_Some (headers b0 !! main_tip) ->
  triple safe (rewind main_tip)
    (fun tip st => safe st /\ tip = tip_of (sy_dbs st) /\ is_ancestor b0 tip main_tip) (fun _ => False).
Proof.
  intros Hm st [bs Hs]. pose proof (sd_headers _ _ _ _ _ Hs) as [Eh Ek]. pose proof (synced_inv _ _ _ _ _ Hheaders Hs) as [Hwf _].
  unfold rewind. run. fold (tip_of (sy_dbs st)).
  destruct (last_common_ancestor_found (block_hashes (sy_dbs st)) (tip_of (sy_dbs st)) main_tip Hwf) as (r & Hr & Ha & Hb & _).
  { destruct (last bs) as [c|] eqn:El; [right|left; by rewrite (synced_tip _ _ _ _ _ Hs), El].
    rewrite (synced_tip _ _ _ _ _ Hs), El. rewrite last_lookup in El.
    destruct (hist_stored _ _ _ _ _ (sd_chain _ _ _ _ _ Hs) El) as (? & _). by eexists. }
  { right. by rewrite Eh. }
  rewrite Hr. cbn [map_err]. apply (is_ancestor_ext _ b0) in Hb; [|done].
  case_decide as Ht; run; [rewrite Ht; split_and!; [by exists bs|done..]|].
  destruct (chain_ancestor _ _ _ (sd_chain _ _ _ _ _ Hs) Hwf Ha) as (pre & post & -> & Er).
  rewrite <- (app_nil_r (sy_events st)) in Hs.
  destruct (disconnect_to_synced pre post (header_fuel (sy_dbs st) (tip_of (sy_dbs st))) (sy_dbs st) (sy_events st) [] Hs)
    as (s' & evs' & Hd & Hs' & Ht').
  { destruct (last (pre ++ post)) as [c|] eqn:El; [|apply last_None, app_eq_nil in El as [_ ->]; cbn; lia].
    pose proof El as El'. rewrite last_lookup in El'. destruct (hist_stored _ _ _ _ _ (sd_chain _ _ _ _ _ Hs) El') as (_ & Hk & _).
    unfold header_fuel. rewrite (synced_tip _ _ _ _ _ Hs), El. cbn [fmap option_fmap option_map default from_option].
    change (hash_of <$> Some c) with (Some (hash_of c)). cbn. rewrite Hk. cbn. rewrite length_app. lia. }
  rewrite Er in *. rewrite Hd. run. split_and!; [done..|by rewrite Ht'|done].
Qed.

(** ** The missing blocks *)

Lemma ancestors_until_path b k x tip fuel :
  chain_wf b -> at_height b x (Z.of_nat k) -> is_ancestor b tip x -> (k + 1 < fuel)%nat ->
  exists l, ancestors_until fuel b x tip = Some l /\ path b tip (rev l) x.
Proof.
  intros Hwf. revert x fuel. induction k as [|k IH]; intros x fuel Hx Ha Hf; (destruct fuel as [|fuel]; [lia|]); cbn [ancestors_until];
    destruct (at_height_next b Hwf x _ Hx) as (hd & p & -> & Hhd & -> & Hp);
    (destruct (decide (x = tip)) as [->|Hne]; [exists []; by split|]);
    (destruct (is_ancestor_prev b _ _ _ Hhd Ha) as [->|Ha']; [done|]).
  - case_decide as Hz; [|lia]. rewrite Hz in Ha' |- *. inversion Ha' as [|? ? hd' Hz']; [|by rewrite (cw_zero b Hwf) in Hz'].
    subst. destruct fuel as [|fuel]; [lia|]. cbn [ancestors_until]. unfold ancestor_next. rewrite (cw_zero b Hwf). cbn.
    exists [x]. split; [done|]. exists hd. by rewrite Hz.
  - rewrite decide_False in Hp by (intros E; rewrite decide_True in Hp by done; lia). destruct Hp as [Hp _].
    replace (Z.of_nat (S k) - 1) with (Z.of_nat k) in Hp by lia.
    destruct (IH _ fuel Hp Ha' ltac:(lia)) as (l & -> & Hl). exists (x :: l). split; [done|].
    cbn [rev]. apply path_app. exists (prev_blockhash hd). split; [done|]. by exists hd.
Qed.

Lemma find_missing_path tip :
  is_Some (headers b0 !! main_tip) ->
  triple (fun st => safe st /\ tip = tip_of (sy_dbs st) /\ is_ancestor b0 tip main_tip) (find_missing_blocks main_tip tip)
    (fun r => at_path r.1) (fun _ => False).
Proof.
  intros [hd Hm] st ([bs Hs] & -> & Ha). pose proof (sd_headers _ _ _ _ _ Hs) as [Eh Ek].
  pose proof (synced_inv _ _ _ _ _ Hheaders Hs) as [Hwf _].
  destruct (cw_height _ (hi_wf _ Hheaders) _ _ Hm) as (k & Hk & Hk0 & _).
  destruct (ancestors_until_path (block_hashes (sy_dbs st)) (Z.to_nat k) main_tip (tip_of (sy_dbs st)) (header_fuel (sy_dbs st) main_tip) Hwf)
    as (l & Hl & Hp).
  { unfold at_height. rewrite Eh, Ek, Z2Nat.id by done. split_and!; [by eexists|done..]. }
  { by apply (is_ancestor_ext b0). }
  { unfold header_fuel. rewrite Ek, Hk. cbn. lia. }
  unfold find_missing_blocks. run. rewrite Hl. cbn [option_map]. run. unfold db_get. rewrite Ek, Hk. cbn [ok_or map_err]. run.
  split; [by exists bs|]. by eapply path_ext.
Qed.

(** ** Block files *)

(** Along a path the heights increase by one, so no block occurs twice. *)
Lemma path_heights tip hs target :
  path b0 tip hs target -> exists k0, forall i h, hs !! i = Some h -> height b0 !! h = Some (k0 + Z.of_nat i).
Proof.
  revert tip. induction hs as [|h hs IH]; intros tip Hp; cbn in Hp; [by exists 0|].
  destruct Hp as (hd & Hhd & _ & Hp). destruct (cw_height _ (hi_wf _ Hheaders) _ _ Hhd) as (k & Hk & _).
  destruct (IH _ Hp) as [k0 Hall]. exists k. intros [|i] x Hx; cbn in Hx; [injection Hx as <-; by rewrite Z.add_0_r|].
  rewrite (Hall i x Hx). f_equal. destruct hs as [|h2 hs]; [done|]. destruct Hp as (hd2 & Hhd2 & Hprev & _).
  pose proof (Hall 0%nat h2 eq_refl) as Hk2. destruct (cw_height _ (hi_wf _ Hheaders) _ _ Hhd2) as (k2 & Hk2' & _ & Hpk).
  rewrite decide_False in Hpk by (rewrite Hprev; intros Ez; by rewrite Ez, (cw_zero _ (hi_wf _ Hheaders)) in Hhd).
  destruct Hpk as [_ Hpk]. rewrite Hprev, Hk in Hpk. rewrite Hk2 in Hk2'. injection Hpk as ->. injection Hk2' as <-. lia.
Qed.

Lemma path_nodup tip hs target : path b0 tip hs target -> NoDup hs.
Proof.
  intros Hp. destruct (path_heights _ _ _ Hp) as [k0 Hk]. apply NoDup_alt. intros i j h Hi Hj.
  pose proof (Hk i h Hi) as Ei. rewrite (Hk j h Hj) in Ei. injection Ei as Ei. lia.
Qed.

Definition cache_ok (c : BlockCache) : Prop :=
  forall h b, cached_blocks c !! h = Some b -> hash_of b = h /\ good_block bh b0 b.

(** The staged and the missing blocks lead to the node's tip. *)
Record dir_at (d : DirState W) : Prop := {
  da_path : at_path ((hash_of <$> ds_pending d) ++ ds_missing d) (ds_sync d);
  da_pending : Forall (good_block bh b0) (ds_pending d);
  da_cache : cache_ok (ds_cache d) }.

Lemma connect_pending_dir :
  triple dir_at (connect_pending_blocks bh) (fun _ d => dir_at d /\ ds_pending d = []) dir_at.
Proof.
  intros d [Hp Hg Hc]. unfold connect_pending_blocks, on_sync, set_queue. run.
  pose proof (batch_commit_path (ds_pending d) (ds_missing d) Hg (ds_sync d) Hp) as Hb.
  destruct (handle_block_batch_and_commit bh (ds_pending d) (ds_sync d)) as [st' [[ib|e|]|]]; cbn in Hb; [|by split..].
  destruct ib as [ib|]; run; [|by split].
  destruct Hb as (n & b & Hn & Eib & Hst'). assert (Hpos : position (ib_block_hash ib) (ds_pending d) = Some n).
  { unfold position. enough (Hf : list_find (fun b => block_hash (header b) = ib_block_hash ib) (ds_pending d) = Some (n, b))
      by by rewrite Hf.
    apply list_find_Some. split_and!; [done|by rewrite Eib|]. intros j y Hj Hlt Ey.
    destruct Hp as [_ Hp]. apply path_nodup, NoDup_app in Hp as (Hnd & _ & _).
    assert (j = n); [|lia]. eapply (NoDup_alt (hash_of <$> ds_pending d)); [done|rewrite list_lookup_fmap, Hj; done|].
    rewrite list_lookup_fmap, Hn. cbn. by rewrite <- Eib, <- Ey. }
  rewrite Hpos. run. split; [split; cbn|done]; [exact Hst'|constructor|done].
Qed.

Lemma flush_pending_dir : triple dir_at (flush_pending bh) (fun _ => dir_at) dir_at.
Proof.
  unfold flush_pending. eapply triple_bind; [apply triple_get|]. intros d0. case_decide.
  - apply triple_ret. by intros ? [].
  - eapply triple_bind; [eapply triple_weaken; [apply connect_pending_dir|by intros ? []|]|].
    + intros b d Hd. exact Hd.
    + intros []; apply triple_ret; by intros ? [].
Qed.

Lemma stage_block_dir block :
  good_block bh b0 block ->
  triple (fun d => dir_at d /\ head (ds_missing d) = Some (hash_of block)) (stage_block bh block) (fun _ => dir_at) dir_at.
Proof.
  intros Hb d [[Hp Hg Hc] Hm]. unfold stage_block, set_queue. run.
  set (d' := mkDirState _ _ _ _ _). assert (Hd' : dir_at d').
  { destruct (ds_missing d) as [|h missing] eqn:Em; [done|]. injection Hm as ->. split; cbn; [|apply Forall_app; split; [done|apply Forall_singleton; done]|done].
    rewrite fmap_app, <- app_assoc. exact Hp. }
  case_decide; [|done]. pose proof (connect_pending_dir d' Hd') as Hk.
  destruct (connect_pending_blocks bh d') as [d2 [[a|e|]|]]; [by destruct Hk|done..].
Qed.

Lemma cache_remove_ok c h c' block :
  cache_ok c -> cache_remove c h = (c', Some block) -> cache_ok c' /\ hash_of block = h /\ good_block bh b0 block.
Proof.
  intros Hc. unfold cache_remove. destruct (cached_blocks c !! h) as [b|] eqn:E; [|done]. intros [= <- <-].
  split; [|by apply Hc]. intros h' b' Hl. cbn in Hl. apply lookup_delete_Some in Hl as [_ Hl]. by apply Hc.
Qed.

Lemma process_cached_dir fuel : triple dir_at (process_cached_blocks bh fuel) (fun _ => dir_at) dir_at.
Proof.
  induction fuel as [|fuel IH]; cbn [process_cached_blocks]; [by intros d Hd|].
  intros d Hd. run. destruct (ds_missing d) as [|expected missing] eqn:Em; [done|].
  destruct (cache_remove (ds_cache d) expected) as [cache [block|]] eqn:Er; [|done].
  pose proof Hd as [Hp Hg Hc]. destruct (cache_remove_ok _ _ _ _ Hc Er) as (Hc' & Eh & Hb).
  unfold set_cache. run. set (d' := mkDirState _ _ _ _ _).
  assert (Hd' : dir_at d' /\ head (ds_missing d') = Some (hash_of block)) by (split; [by split|unfold d'; cbn; by rewrite Em, Eh]).
  pose proof (stage_block_dir block Hb d' Hd') as Hs. destruct (stage_block bh block d') as [d2 [[[|]|e|]|]]; [by apply IH|done..].
Qed.

Lemma evict_subset n blocks order blocks' order' : evict n blocks order = Some (blocks', order') -> blocks' ⊆ blocks.
Proof.
  revert blocks. induction order as [|o order IH]; intros blocks Hev; cbn in Hev; case_decide; try done; try (by injection Hev as <- _).
  etrans; [by eapply IH|]. apply delete_subseteq.
Qed.

Lemma cache_insert_ok c block c' :
  cache_ok c -> good_block bh b0 block -> cache_insert c (hash_of block) block = Some c' -> cache_ok c'.
Proof.
  intros Hc Hb. unfold cache_insert. destruct (contains_key _ _); [by intros [= <-]|].
  destruct (evict _ _ _) as [[blocks order]|] eqn:Ev; [|done]. intros [= <-] h b Hl. cbn in Hl.
  apply lookup_insert_Some in Hl as [[<- <-]|[_ Hl]]; [done|]. apply Hc. eapply lookup_weaken; [done|by eapply evict_subset].
Qed.

(** A block of the parser fits the chain once its transactions are parsed. *)
Definition good_item (item : Res SyncError ParsedBlock) : Prop :=
  forall block txs, item = Ok block -> parse_tx_data block = Ok txs -> good_block bh b0 (mkBlock (pb_header block) txs).

Lemma cache_block_dir block :
  good_item (Ok block) -> triple dir_at (cache_block (block_hash (pb_header block)) block) (fun _ => dir_at) dir_at.
Proof.
  intros Hgi d [Hp Hg Hc]. unfold cache_block, set_cache. run. destruct (parse_tx_data block) as [txs| |] eqn:Et; run; [|by split..].
  destruct (cache_insert _ _ _) as [c|] eqn:Ei; run; [|by split]. split; cbn; [done..|].
  eapply (cache_insert_ok _ (mkBlock (pb_header block) txs)); [done|by apply Hgi|exact Ei].
Qed.

Lemma ask_cancelled_dir n :
  triple dir_at (if decide (n mod 100 = 0)%nat then on_sync (ask_bool is_cancelled) else sret false) (fun _ => dir_at) dir_at.
Proof.
  case_decide; [|by apply triple_ret]. intros d [Hp Hg Hc]. unfold on_sync.
  pose proof (ask_bool_path is_cancelled _ (ds_sync d) Hp) as Ha. unfold ask_bool in *.
  destruct (is_cancelled (sy_world (ds_sync d))) as [w c]. by split.
Qed.

Lemma dir_loop_dir first blocks n found misses :
  Forall good_item blocks -> triple dir_at (dir_loop bh first blocks n found misses) (fun _ => dir_at) dir_at.
Proof.
  intros Hall. revert n found misses. induction Hall as [|item blocks Hitem _ IH]; intros n found misses; cbn [dir_loop];
    (eapply triple_bind; [apply ask_cancelled_dir|]);
    (intros [|]; [eapply triple_bind; [apply flush_pending_dir|intros []; by apply triple_lift]|]);
    [by apply triple_ret|].
  eapply (triple_bind _ _ _ (fun block d => dir_at d /\ item = Ok block)); [by apply triple_lift|]. intros block.
  intros d [Hd Hit]. assert (Hgi : good_item (Ok block)) by by rewrite <- Hit. clear Hit. revert d Hd.
  set (next := dir_loop bh first blocks (S n)) in *.
  change (triple dir_at (if negb found && negb (bool_decide (block_hash (pb_header block) = first))
    then cache_block (block_hash (pb_header block)) block ≫= (fun _ => next false misses)
    else sget ≫= fun d => match ds_missing d with [] => sret tt | expected :: _ =>
      if decide (block_hash (pb_header block) = expected) then
        slift (parse_tx_data block) ≫= fun txs => stage_block bh (mkBlock (pb_header block) txs) ≫= fun continue : bool =>
        if continue then sget ≫= fun d => process_cached_blocks bh (S (length (ds_missing d))) ≫= fun continue : bool =>
          if continue then next true 0%nat else sret tt
        else sret tt
      else cache_block (block_hash (pb_header block)) block ≫= fun _ =>
        if decide (MAX_ITERATIONS_WITHOUT_MATCH <= S misses)%nat then flush_pending bh else next true (S misses) end)
    (fun _ => dir_at) dir_at).
  destruct (negb found && _); [eapply triple_bind; [by apply cache_block_dir|intros []; apply IH]|].
  eapply triple_bind; [apply triple_get|]. intros d0.
  destruct (ds_missing d0) as [|expected missing] eqn:Em; [apply triple_ret; by intros ? []|].
  destruct (decide (block_hash (pb_header block) = expected)) as [Eh|].
  - eapply (triple_bind _ _ _ (fun txs d => (dir_at d /\ head (ds_missing d) = Some expected) /\ parse_tx_data block = Ok txs)).
    { apply triple_lift; [|by intros ? []]. intros d txs [Hd ->] Ht. by rewrite Em. }
    intros txs d [Hd Ht]. revert d Hd.
    match goal with |- forall d, _ -> match ?m d with _ => _ end =>
      change (triple (fun d => dir_at d /\ head (ds_missing d) = Some expected) m (fun _ => dir_at) dir_at) end.
    eapply triple_bind; [rewrite <- Eh; by apply (stage_block_dir (mkBlock (pb_header block) txs)), (Hgi block txs)|].
    intros [|]; [|by apply triple_ret]. eapply triple_bind; [apply triple_get|]. intros d1.
    eapply triple_bind; [eapply triple_weaken; [apply process_cached_dir|by intros ? []|]|].
    { intros c d Hd. exact Hd. }
    intros [|]; [apply IH|by apply triple_ret].
  - eapply triple_bind; [eapply triple_weaken; [by apply cache_block_dir|by intros ? []|intros c d Hd; exact Hd]|].
    intros []. case_decide; [apply flush_pending_dir|apply IH].
Qed.

(** The blocks of the directory fit the chain. *)
Definition good_dir (open_dir : BlockHash -> Res SyncError (list (Res SyncError ParsedBlock))) : Prop :=
  forall h items, open_dir h = Ok items -> Forall good_item items.

Lemma sync_from_directory_path open_dir missing :
  good_dir open_dir -> triple (at_path missing) (sync_from_directory bh open_dir missing) (fun r => at_path r.1) safe.
Proof.
  intros Hg st Hst. unfold sync_from_directory. set (d0 := mkDirState st _ _ _ _).
  assert (Hd0 : dir_at d0) by (split; cbn; [done|constructor|intros h b Hl; cbn in Hl; by rewrite lookup_empty in Hl]).
  assert (Hinner : triple dir_at (sync_from_directory_inner bh open_dir) (fun _ => dir_at) dir_at).
  { unfold sync_from_directory_inner. eapply triple_bind; [apply triple_get|]. intros d.
    eapply (triple_bind _ _ _ (fun _ d => dir_at d)); [apply triple_lift; [by intros ?? []|by intros ? []]|]. intros first.
    eapply (triple_bind _ _ _ (fun items d => dir_at d /\ Forall good_item items)).
    { apply triple_lift; [|done]. intros d1 items Hd1 Ho. split; [done|by eapply Hg]. }
    intros items. eapply (triple_bind _ _ _ (fun _ d => dir_at d /\ Forall good_item items)); [apply triple_lift; [by intros ?? []|by intros ? []]|].
    intros target. eapply (triple_bind _ _ _ (fun _ d => dir_at d /\ Forall good_item items)); [apply triple_lift; [by intros ?? []|by intros ? []]|].
    intros _. eapply (triple_bind _ _ _ (fun _ => dir_at)).
    { intros d1 [Hd1 Hitems]. by apply dir_loop_dir. }
    intros []. eapply triple_bind; [apply flush_pending_dir|]. intros []. eapply triple_bind; [apply triple_get|]. intros d1.
    apply triple_ret. by intros ? []. }
  specialize (Hinner d0 Hd0). destruct (sync_from_directory_inner bh open_dir d0) as [d1 r]. cbn.
  assert (Hd1 : dir_at d1) by by destruct r as [[]|]. destruct Hd1 as [Hp _ _].
  destruct r as [[a|e|]|]; cbn; [exact Hp..|by eapply at_path_safe|by eapply at_path_safe].
Qed.

Lemma sync_blocks_path fuel dir :
  is_Some (headers b0 !! main_tip) -> honest_node -> (forall open_dir, dir = Some open_dir -> good_dir open_dir) ->
  triple safe (sync_blocks bh fuel dir main_tip) outcome safe.
Proof.
  intros Hm Hn Hdir. unfold sync_blocks.
  eapply triple_bind; [eapply triple_fail; [by apply rewind_path|done]|]. intros tip.
  eapply triple_bind; [eapply triple_fail; [by apply find_missing_path|done]|]. intros [missing h]. cbn [fst].
  case_decide as Hnil; [subst; by apply triple_ret|].
  eapply triple_bind; [apply pre_activation_path|]. intros [missing1 n]. cbn [fst].
  eapply (triple_bind _ _ _ (fun missing => at_path missing)).
  - destruct dir as [open_dir|]; [|by apply triple_ret].
    eapply triple_bind; [by apply sync_from_directory_path, Hdir|]. intros [missing2 r]. cbn [fst].
    destruct r as [a|e|]; [by apply triple_ret| |by apply triple_ret].
    eapply (triple_bind _ _ _ (fun _ => at_path missing2)).
    + unfold missing_blocks_connect_to_tip. eapply triple_bind; [apply triple_get|]. intros st0.
      destruct missing2 as [|next missing2]; [apply triple_ret; by intros ? []|].
      eapply (triple_bind _ _ _ (fun _ => at_path (next :: missing2))); [apply triple_lift; [by intros ?? []|]|].
      { intros ? [? _]. by eapply at_path_safe. }
      intros hi. by apply triple_ret.
    + intros [|]; [by apply triple_ret|]. apply triple_lift; [done|by apply at_path_safe].
  - intros missing3. eapply triple_bind; [apply block_data_gap_path|]. intros gap. by apply fetch_loop_path.
Qed.

(** What a run of the synchronisation leaves behind. *)
Lemma sync_outcome st' (r : option (Res SyncError (option InvalidBlock))) :
  is_Some (headers b0 !! main_tip) ->
  match (st', r) with (st', Some (Ok a)) => outcome a st' | (st', _) => safe st' end ->
  (exists bs', hist bh (sy_dbs st') bs' /\ linked bs' /\ wf (sy_dbs st') /\ followed (sy_events st') = hash_of <$> bs') /\
  (r = Some (Ok None) -> current_chain_tip (sy_dbs st') = Some main_tip) /\
  (forall ib, r = Some (Ok (Some ib)) -> exists hd, headers b0 !! ib_block_hash ib = Some hd /\
     tip_of (sy_dbs st') = prev_blockhash hd /\ is_ancestor b0 (ib_block_hash ib) main_tip).
Proof.
  intros Hm Ht.
  assert (Hout : safe st' /\ forall a, r = Some (Ok a) -> outcome a st').
  { destruct r as [[a|e|]|]; [|by split..]. split; [|by intros ? [= <-]].
    destruct a as [ib|]; [destruct Ht as [rest [? _]]|destruct Ht as [? _]]; done. }
  destruct Hout as [[bs' [Hh' [Eh Ek] He']] Hout]. split_and!.
  - exists bs'. split_and!; [done|by eapply hist_linked|by eapply hist_wf|done].
  - intros ->. destruct (Hout None eq_refl) as [_ Hp]. cbn in Hp. unfold tip_of in Hp.
    destruct (current_chain_tip (sy_dbs st')) as [t|]; cbn in Hp; [by rewrite Hp|].
    rewrite <- Hp, (cw_zero _ (hi_wf _ Hheaders)) in Hm. by destruct Hm.
  - intros ib ->. destruct (Hout (Some ib) eq_refl) as (rest & _ & hd & Hhd & Hp & Hrest). exists hd.
    split_and!; [done..|by eapply path_ancestor].
Qed.

End Blocks.

(** C7. Synchronising blocks is safe and reaches the node's tip. Start from
    tables of a chain [bs] whose events lead to it, with the header of the
    node's tip stored, and let the blocks that the node and the block files
    deliver fit the chain they extend. Whatever else happens (reorganisations,
    rejected blocks, failed requests, shutdown), the committed tables afterwards
    are again those of a linked chain and the events sent lead to it. If
    [sync_blocks] succeeds, the chain ends at the node's tip; if it reports an
    invalid block, the chain ends at the block's parent, and the block is an
    ancestor of the node's tip. *)
Theorem sync_blocks_correct bh main_tip fuel dir (st st' : SyncState W) bs r :
  let b0 := block_hashes (sy_dbs st) in
  hist bh (sy_dbs st) bs -> header_inv b0 -> followed (sy_events st) = hash_of <$> bs -> is_Some (headers b0 !! main_tip) ->
  honest_node bh b0 -> (forall open_dir, dir = Some open_dir -> good_dir bh b0 open_dir) ->
  sync_blocks bh fuel dir main_tip st = (st', r) ->
  (exists bs', hist bh (sy_dbs st') bs' /\ linked bs' /\ wf (sy_dbs st') /\ followed (sy_events st') = hash_of <$> bs') /\
  (r = Some (Ok None) -> current_chain_tip (sy_dbs st') = Some main_tip) /\
  (forall ib, r = Some (Ok (Some ib)) -> exists hd, headers b0 !! ib_block_hash ib = Some hd /\
     tip_of (sy_dbs st') = prev_blockhash hd /\ is_ancestor b0 (ib_block_hash ib) main_tip).
Proof.
  intros b0 Hh Hi He Hm Hn Hd Hs. assert (Hsafe : safe bh b0 st) by (exists bs; by split).
  pose proof (sync_blocks_path bh b0 main_tip Hi fuel dir Hm Hn Hd st Hsafe) as Ht. rewrite Hs in Ht. by apply sync_outcome.
Qed.

(** A blocks directory makes the synchronisation panic before the
    activation: when the blocks below the activation height are all that is
    missing, [sync_from_directory] is called without any missing block and its
    [expect] fails, although everything is synchronised. On Bitcoin's main
    network, where BIP300 never activates, this is every synchronisation with
    a blocks directory that finds missing blocks. *)
Theorem blocks_dir_panics_before_activation bh main_tip fuel open_dir (st st1 st2 st3 : SyncState W) tip missing h n :
  rewind main_tip st = (st1, Some (Ok tip)) -> find_missing_blocks main_tip tip st1 = (st2, Some (Ok (missing, h))) ->
  missing <> [] -> connect_pre_activation_blocks bh missing st2 = (st3, Some (Ok ([], n))) ->
  sync_blocks bh fuel (Some open_dir) main_tip st = (st3, Some Panic).
Proof.
  intros H1' H2' Hm H3'. unfold sync_blocks. run. rewrite H1', H2'. rewrite decide_False by done. rewrite H3'. done.
Qed.

End SyncProofs.
