(* ===== verification/SyncTermination.v ===== *)
(** * Block synchronisation ends

    Every loop of [sync_blocks] but one is bounded by the tables; the loop that
    follows the node's background validation ends when the node does. *)

From Stdlib Require Import Strings.Byte.
From stdpp Require Import base numbers list gmap.
From S2P Require Import Prelude OrderMap Bitcoin Types Messages M6 Dbs BlockHashes Treasury Diff Reversible Handlers HandlerProofs ConnectBlock ConnectProofs Reorg Enforcer EnforcerProofs Sync SyncProofs.
Open Scope Z_scope.

(** ** Computations that end *)

(** [m] ends, and a value it returns satisfies [Q]. *)
Definition halts {S A} (P : S -> Prop) (m : SyncM S A) (Q : A -> S -> Prop) : Prop :=
  forall st, P st -> match m st with (st', Some (Ok a)) => Q a st' | (_, Some _) => True | (_, None) => False end.

(** With enough fuel [m] ends, and more fuel makes no difference. *)
Definition settles {S A} (P : S -> Prop) (m : nat -> SyncM S A) : Prop :=
  forall st, P st -> exists N st' r, forall fuel, (N <= fuel)%nat -> m fuel st = (st', Some r).

Create HintDb halts.

Lemma halts_bind {S A B} P Q (m : SyncM S A) (f : A -> SyncM S B) R :
  halts P m Q -> (forall a, halts (Q a) (f a) R) -> halts P (m ≫= f) R.
Proof.
  intros Hm Hf st HP. unfold mbind, SyncM_bind, sbind. specialize (Hm st HP).
  destruct (m st) as [st1 [[a|e|]|]]; [by apply Hf|done..].
Qed.

Lemma halts_ret {S A} (P : S -> Prop) (a : A) (Q : A -> S -> Prop) : (forall st, P st -> Q a st) -> halts P (sret a) Q.
Proof. intros Hq st HP. by apply Hq. Qed.

Lemma halts_get {S} (P : S -> Prop) : halts P sget (fun a st => P st /\ a = st).
Proof. by intros st HP. Qed.

Lemma halts_lift {S A} (P : S -> Prop) (r : Res SyncError A) : halts P (slift r) (fun _ => P).
Proof. intros st HP. unfold slift. by destruct r. Qed.

Lemma halts_weaken {S A} (P P' : S -> Prop) (m : SyncM S A) Q Q' :
  halts P' m Q' -> (forall st, P st -> P' st) -> (forall a st, Q' a st -> Q a st) -> halts P m Q.
Proof. intros Hm HP HQ st Hst. specialize (Hm st (HP st Hst)). destruct (m st) as [st1 [[a|e|]|]]; auto. Qed.

Lemma halts_triple {S A} (P : S -> Prop) (m : SyncM S A) Q : triple P m Q (fun _ => False) -> halts P m Q.
Proof. intros Hm st HP. specialize (Hm st HP). by destruct (m st) as [st1 [[a|e|]|]]. Qed.

Lemma settles_halts {S A} (P : S -> Prop) (m : SyncM S A) Q : halts P m Q -> settles P (fun _ => m).
Proof. intros Hm st HP. specialize (Hm st HP). destruct (m st) as [st1 [r|]]; [|done]. by exists 0%nat, st1, r. Qed.

Lemma settles_bind {S A B} P Q (m : SyncM S A) (f : nat -> A -> SyncM S B) :
  halts P m Q -> (forall a, settles (Q a) (fun fuel => f fuel a)) -> settles P (fun fuel => m ≫= f fuel).
Proof.
  intros Hm Hf st HP. unfold mbind, SyncM_bind, sbind. specialize (Hm st HP).
  destruct (m st) as [st1 [[a|e|]|]]; [by apply Hf|by exists 0%nat, st1; eexists..|done].
Qed.

#[export] Hint Resolve halts_get halts_lift : halts.

Section SyncTermination.
Context `{Bitcoin, !BitcoinLaws, Nom, !NomLaws} {W : Type} `{!Node W}.
Implicit Types (bh : BlockHandler) (st : SyncState W) (d : DirState W).

Definition anything {S} (_ : S) : Prop := True.

Lemma ask_halts {A} e (f : W -> W * option A) : halts anything (ask e f) (fun _ => anything).
Proof. intros st _. unfold ask. destruct (f (sy_world st)) as [w [a|]]; done. Qed.

Lemma ask_bool_halts (f : W -> W * bool) : halts anything (ask_bool f) (fun _ => anything).
Proof. intros st _. unfold ask_bool. by destruct (f (sy_world st)). Qed.

Lemma batch_commit_halts bh blocks : halts (S := SyncState W) anything (handle_block_batch_and_commit bh blocks) (fun _ => anything).
Proof.
  intros st _. unfold handle_block_batch_and_commit, mbind, SyncM_bind, sbind, sget, slift, commit.
  by destruct (handle_block_batch _ _ _ _) as [[[]]| |].
Qed.

Lemma batch_commit_world bh blocks st :
  let '(st', r) := handle_block_batch_and_commit bh blocks st in sy_world st' = sy_world st /\ r <> None.
Proof.
  unfold handle_block_batch_and_commit, mbind, SyncM_bind, sbind, sget, slift, commit.
  by destruct (handle_block_batch _ _ _ _) as [[[]]| |].
Qed.

(** ** Blocks below the activation height *)

Lemma pre_activation_length bh n s missing evs s' missing' evs' :
  pre_activation_batch bh n s missing evs = Ok (s', missing', evs') ->
  (length missing' + length evs' = length missing + length evs)%nat.
Proof.
  revert s missing evs. induction n as [|n IH]; intros s [|h missing] evs Hb; cbn in Hb; try (by injection Hb as <- <- <-).
  apply bind_Ok in Hb as (k & _ & Hb). case_bool_decide; [|by injection Hb as <- <- <-].
  apply bind_Ok in Hb as ([s1 ev] & _ & Hb). apply IH in Hb. rewrite length_app in Hb. cbn in *. lia.
Qed.

Lemma pre_activation_loop_halts bh fuel missing connected :
  (length missing < fuel)%nat ->
  halts (S := SyncState W) anything (pre_activation_loop bh fuel missing connected) (fun _ => anything).
Proof.
  revert missing connected. induction fuel as [|fuel IH]; intros missing connected Hf; [lia|]. cbn [pre_activation_loop].
  eapply halts_bind; [apply ask_bool_halts|]. intros [|]; [eapply halts_weaken; [apply halts_lift|intros; exact I..]|].
  intros st _. unfold mbind, SyncM_bind, sbind, sget, slift, sret, commit.
  destruct (pre_activation_batch _ _ _ _ _) as [[[s' missing'] evs]| |] eqn:Eb; [|done..].
  apply pre_activation_length in Eb. cbn in Eb. case_decide; [done|]. apply (IH missing' (connected + length evs)%nat); [lia|done].
Qed.

Lemma pre_activation_halts bh missing : halts (S := SyncState W) anything (connect_pre_activation_blocks bh missing) (fun _ => anything).
Proof. unfold connect_pre_activation_blocks. case_decide; [by apply halts_ret|]. apply pre_activation_loop_halts. lia. Qed.

(** ** Block files *)

(** Every cached block is in the insertion order, so that eviction makes room. *)
Record cache_fits (c : BlockCache) : Prop := {
  cf_room : (0 < max_size c)%nat;
  cf_order h : is_Some (cached_blocks c !! h) -> h ∈ insertion_order c }.

Lemma evict_fits n blocks order :
  (0 < n)%nat -> (forall h, is_Some (blocks !! h) -> h ∈ order) ->
  exists blocks' order', evict n blocks order = Some (blocks', order') /\ (size blocks' < n)%nat /\
    forall h, is_Some (blocks' !! h) -> h ∈ order'.
Proof.
  intros Hn. revert blocks. induction order as [|o order IH]; intros blocks Hin; cbn [evict].
  - case_decide as Hs; [|by exists blocks, []; split_and!; [|lia|]]. exfalso.
    assert (E : blocks = ∅); [|rewrite E, map_size_empty in Hs; lia].
    apply map_empty. intros h. destruct (blocks !! h) eqn:El; [|done]. destruct (not_elem_of_nil h). apply Hin. by eexists.
  - case_decide as Hs; [|by exists blocks, (o :: order); split_and!; [|lia|]].
    apply IH. intros h [blk Hb]. apply lookup_delete_Some in Hb as [Hne Hb].
    assert (Ho : h ∈ o :: order) by (apply Hin; by eexists). by apply elem_of_cons in Ho as [->|].
Qed.

Lemma cache_insert_fits c hash block :
  cache_fits c -> exists c', cache_insert c hash block = Some c' /\ cache_fits c'.
Proof.
  intros [Hn Ho]. unfold cache_insert. destruct (contains_key _ _); [by exists c|].
  destruct (evict_fits _ _ _ Hn Ho) as (blocks & order & -> & _ & Hin). cbn. eexists. split; [done|].
  split; cbn; [done|]. intros h [blk Hb]. apply elem_of_app. apply lookup_insert_Some in Hb as [[-> _]|[_ Hb]].
  - right. by apply list_elem_of_singleton.
  - left. apply Hin. by eexists.
Qed.

Lemma cache_remove_fits c hash : cache_fits c -> cache_fits (cache_remove c hash).1.
Proof.
  intros [Hn Ho]. unfold cache_remove. destruct (cached_blocks c !! hash); [|done]. split; cbn; [done|].
  intros h [blk Hb]. apply lookup_delete_Some in Hb as [Hne Hb]. apply list_elem_of_filter. split; [done|]. apply Ho. by eexists.
Qed.

Definition fits d : Prop := cache_fits (ds_cache d).

Lemma on_sync_halts {A} (m : SyncM (SyncState W) A) (P : DirState W -> Prop) :
  halts anything m (fun _ => anything) -> (forall st d, P d -> P (mkDirState st (ds_missing d) (ds_pending d) (ds_cache d) (ds_total d))) ->
  halts P (on_sync m) (fun _ => P).
Proof.
  intros Hm HP d Hd. unfold on_sync. specialize (Hm (ds_sync d) I). destruct (m (ds_sync d)) as [st [[a|e|]|]]; [by apply HP|done..].
Qed.

(** A batch that connects leaves the missing blocks. *)
Lemma connect_pending_halts bh missing :
  halts (fun d => fits d /\ ds_missing d = missing) (connect_pending_blocks bh)
    (fun ok d => fits d /\ (ok = true -> ds_missing d = missing)).
Proof.
  unfold connect_pending_blocks. eapply halts_bind; [apply halts_get|]. intros d0.
  eapply (halts_bind _ (fun _ d => (fits d /\ ds_missing d = missing) /\ ds_missing d0 = missing)).
  { eapply halts_weaken; [apply (on_sync_halts _ (fun d => (fits d /\ ds_missing d = missing) /\ ds_missing d0 = missing));
      [apply batch_commit_halts|by intros st d [[? ?] ?]]|by intros d [Hd ->]; destruct Hd|done]. }
  intros [ib|].
  - eapply halts_bind; [apply halts_lift|]. intros k. by intros d [[Hf Hm] Hm0].
  - by intros d [[Hf Hm] Hm0].
Qed.

Lemma stage_block_halts bh block missing :
  halts (fun d => fits d /\ ds_missing d = missing) (stage_block bh block)
    (fun ok d => fits d /\ (ok = true -> ds_missing d = tail missing)).
Proof.
  unfold stage_block. eapply halts_bind; [apply halts_get|]. intros d0.
  eapply (halts_bind _ (fun _ d => fits d /\ ds_missing d = tail missing)); [by intros d [[? <-] ->]|].
  intros []. case_decide; [apply connect_pending_halts|]. apply halts_ret. by intros d [? ->].
Qed.

Lemma process_cached_halts bh fuel :
  halts (fun d => fits d /\ (length (ds_missing d) < fuel)%nat) (process_cached_blocks bh fuel) (fun _ => fits).
Proof.
  induction fuel as [|fuel IH]; [by intros d [_ ?]; lia|]. cbn [process_cached_blocks].
  eapply halts_bind; [apply halts_get|]. intros d0.
  destruct (ds_missing d0) as [|expected missing] eqn:Em; [apply halts_ret; by intros d [[] _]|].
  destruct (cache_remove (ds_cache d0) expected) as [cache [block|]] eqn:Ec; [|apply halts_ret; by intros d [[] _]].
  eapply (halts_bind _ (fun _ d => (fits d /\ ds_missing d = expected :: missing) /\ (length missing < fuel)%nat)).
  { intros d [[Hf Hl] ->]. rewrite Em in Hl. cbn in *. split; [split; [|done]|lia].
    pose proof (cache_remove_fits _ expected Hf) as Hc. by rewrite Ec in Hc. }
  intros []. eapply (halts_bind _ (fun ok d => fits d /\ (ok = true -> (length (ds_missing d) < fuel)%nat))).
  { intros d [Hd Hl]. pose proof (stage_block_halts bh block (expected :: missing) d Hd) as Hs.
    destruct (stage_block bh block d) as [d' [[ok|e|]|]]; [|done..]. destruct Hs as [Hf Hm]. split; [done|].
    intros Hok. by rewrite (Hm Hok). }
  intros [|]; [|apply halts_ret; by intros ? []]. eapply halts_weaken; [apply IH|by intros d [? Hl]; split; [|apply Hl]|done].
Qed.

Lemma cache_block_halts hash block : halts fits (cache_block hash block) (fun _ => fits).
Proof.
  unfold cache_block. eapply halts_bind; [apply halts_lift|]. intros txs d Hf. unfold mbind, SyncM_bind, sbind, sget.
  by destruct (cache_insert_fits _ hash (mkBlock (pb_header block) txs) Hf) as (c & -> & Hc).
Qed.

Lemma flush_pending_halts bh : halts fits (flush_pending bh) (fun _ => fits).
Proof.
  unfold flush_pending. eapply halts_bind; [apply halts_get|]. intros d0. case_decide; [apply halts_ret; by intros ? []|].
  intros d [Hf _]. revert d Hf. eapply (halts_bind _ (fun _ => fits)); [|by intros a; apply halts_ret].
  intros d Hf. pose proof (connect_pending_halts bh (ds_missing d) d (conj Hf eq_refl)) as Hd.
  destruct (connect_pending_blocks bh d) as [d' [[a|e|]|]]; [apply Hd|done..].
Qed.

Lemma dir_loop_halts bh first blocks n found misses : halts fits (dir_loop bh first blocks n found misses) (fun _ => fits).
Proof.
  revert n found misses. induction blocks as [|item blocks IH]; intros n found misses; cbn [dir_loop];
    (eapply (halts_bind _ (fun _ => fits));
     [case_decide; [by apply on_sync_halts; [apply ask_bool_halts|]|by apply halts_ret]|]);
    (intros [|]; [eapply halts_bind; [apply flush_pending_halts|]; intros []; apply halts_lift|]); [by apply halts_ret|].
  eapply halts_bind; [apply halts_lift|]. intros block.
  destruct (_ && _); [eapply halts_bind; [apply cache_block_halts|]; intros []; apply IH|].
  eapply halts_bind; [apply halts_get|]. intros d0. destruct (ds_missing d0) as [|expected missing] eqn:Em; [apply halts_ret; by intros ? []|].
  case_decide.
  - eapply halts_bind; [apply halts_lift|]. intros txs. eapply halts_bind.
    { eapply halts_weaken; [apply (stage_block_halts bh _ (expected :: missing))|by intros d [? ->]|]. intros ok d Hd. exact Hd. }
    intros [|]; [|apply halts_ret; by intros ? []]. intros d [Hf _]. revert d Hf. eapply halts_bind; [apply halts_get|]. intros d1.
    eapply halts_bind.
    { eapply halts_weaken; [apply process_cached_halts|by intros d [? ->]; split; [|lia]|]. intros ok d Hd. exact Hd. }
    intros [|]; [apply IH|by apply halts_ret].
  - eapply (halts_bind _ (fun _ => fits)); [eapply halts_weaken; [apply cache_block_halts|by intros ? []|done]|].
    intros []. case_decide; [apply flush_pending_halts|apply IH].
Qed.

Lemma sync_from_directory_halts bh open_dir missing :
  halts (S := SyncState W) anything (sync_from_directory bh open_dir missing) (fun _ => anything).
Proof.
  intros st _. unfold sync_from_directory. set (d0 := mkDirState _ _ _ _ _).
  assert (Hd0 : fits d0).
  { split; [apply Nat2Z.inj_lt; vm_compute; reflexivity|]. intros h [b Hb]. cbn in Hb. by rewrite lookup_empty in Hb. }
  assert (Hinner : halts fits (sync_from_directory_inner bh open_dir) (fun _ => fits)).
  { unfold sync_from_directory_inner. eapply halts_bind; [apply halts_get|]. intros d.
    do 4 (eapply halts_bind; [apply halts_lift|]; intros ?). eapply halts_bind.
    { eapply halts_weaken; [apply dir_loop_halts|by intros ? []|]. intros u d1 Hd. exact Hd. }
    intros []. eapply halts_bind; [apply flush_pending_halts|]. intros []. eapply halts_bind; [apply halts_get|]. intros ?.
    apply halts_ret. by intros ? []. }
  specialize (Hinner d0 Hd0). by destruct (sync_from_directory_inner bh open_dir d0) as [d1 [[a|e|]|]].
Qed.

(** ** Fetching blocks *)

(** [busy] bounds how often the node has to be asked again until its background
    validation is over. *)
Record patient (busy : W -> nat) : Prop := {
  pa_blocks w hashes : (busy (getblock_batch w hashes).1 <= busy w)%nat;
  pa_chainstates w : (busy (getchainstates w).1 <= busy w)%nat;
  pa_cancelled w : (busy (is_cancelled w).1 <= busy w)%nat;
  pa_sleep w : (busy (sleep w).1 <= pred (busy w))%nat;
  pa_done w w' chainstates : busy w = 0%nat -> getchainstates w = (w', Some chainstates) ->
    forall bg, background_sync chainstates <> Ok (Some bg) }.

Lemma batch_size_pos gap h n : batch_size gap h = Some n -> (0 < n)%nat.
Proof.
  unfold batch_size. assert (Hb : (0 < BLOCK_FETCH_BATCH_SIZE)%nat) by (unfold BLOCK_FETCH_BATCH_SIZE; lia).
  generalize dependent BLOCK_FETCH_BATCH_SIZE. intros size Hsize. destruct gap as [g|]; [|intros [= <-]; lia].
  destruct (gap_contains g h); [done|]. case_bool_decide; intros [= <-]; lia.
Qed.

Definition waits (gap : option BlockDataGap) : nat := match gap with Some _ => 1 | None => 0 end.

(** Asking for the gap again. *)
Lemma poll_gap busy st : patient busy ->
  let '(st', r) := block_data_gap st in
  (busy (sy_world st') <= busy (sy_world st))%nat /\
  exists x, r = Some x /\ forall gap, x = Ok gap -> busy (sy_world st) = 0%nat -> gap = None.
Proof.
  intros Hp. unfold block_data_gap, ask, mbind, SyncM_bind, sbind, slift, sget, sret.
  pose proof (pa_chainstates _ Hp (sy_world st)) as Hle. pose proof (pa_done _ Hp (sy_world st)) as Hdone.
  destruct (getchainstates (sy_world st)) as [w [cs|]]; cbn in *; [|by split; [|eexists]].
  destruct (background_sync cs) as [[bg|]| |] eqn:Eb; [|split; [done|]; eexists; split; [done|]; by intros ? [= <-]|by split; [|eexists]..].
  destruct (_ !! _); (split; [done|]; eexists; split; [done|]); [|done]. intros ? _ Hz. by destruct (Hdone w cs Hz eq_refl bg).
Qed.

Lemma fetch_loop_ends bh busy k gap remaining h st : patient busy ->
  (length remaining + busy (sy_world st) + waits gap <= k)%nat ->
  exists st' r, forall fuel, (k < fuel)%nat -> fetch_loop bh fuel gap remaining h st = (st', Some r).
Proof.
  intros Hp. revert gap remaining h st. induction k as [k IH] using lt_wf_ind; intros gap remaining h st Hk.
  destruct (decide (remaining = [])) as [->|Hne].
  { exists st, (Ok None). intros [|fuel] Hf; [lia|]. done. }
  destruct (is_cancelled (sy_world st)) as [w1 cancelled] eqn:Ec. pose proof (pa_cancelled _ Hp (sy_world st)) as Hc. rewrite Ec in Hc. cbn in Hc.
  set (st1 := mkSync (sy_dbs st) (sy_events st) w1).
  assert (Hstart : forall fuel, fetch_loop bh (S fuel) gap remaining h st =
    (if cancelled then slift (Err Shutdown) else
      match batch_size gap h with
      | None => interrupted ← ask_bool sleep; if interrupted : bool then slift (Err Shutdown) else
                gap ← block_data_gap; fetch_loop bh fuel gap remaining h
      | Some n => blocks ← fetch_blocks_batch (take n remaining); ib ← handle_block_batch_and_commit bh blocks;
                match ib with Some ib => sret (Some ib)
                | None => fetch_loop bh fuel gap (drop n remaining) (h + Z.of_nat (length (take n remaining))) end
      end) st1).
  { intros fuel. cbn [fetch_loop]. rewrite decide_False by done. unfold mbind, SyncM_bind, sbind at 1, ask_bool at 1. by rewrite Ec. }
  destruct cancelled; [by exists st1, (Err Shutdown); intros [|fuel] ?; [lia|rewrite Hstart]|].
  destruct (batch_size gap h) as [n|] eqn:En.
  - apply batch_size_pos in En.
    assert (Hd : (length (drop n remaining) < length remaining)%nat) by (rewrite length_drop; destruct remaining; [done|cbn; lia]).
    pose proof (pa_blocks _ Hp w1 (take n remaining)) as Hb. unfold fetch_blocks_batch, ask, mbind, SyncM_bind, sbind, slift in Hstart.
    cbn [sy_world sy_dbs sy_events st1] in Hstart. destruct (getblock_batch w1 (take n remaining)) as [w2 raws]. cbn in Hb.
    destruct (ok_or SE_JsonRpc raws) as [raw|e|]; [|by eexists _, _; intros [|fuel] ?; [lia|rewrite Hstart]..].
    destruct (foldM _ raw []) as [blocks|e|]; [|by eexists _, _; intros [|fuel] ?; [lia|rewrite Hstart]..].
    pose proof (batch_commit_world bh blocks (mkSync (sy_dbs st) (sy_events st) w2)) as Hw.
    destruct (handle_block_batch_and_commit bh blocks _) as [st2 [[[ib|]|e|]|]]; cbn in Hw;
      [by eexists _, _; intros [|fuel] ?; [lia|rewrite Hstart]| |by eexists _, _; intros [|fuel] ?; [lia|rewrite Hstart]..|by destruct Hw].
    destruct Hw as [Ew _].
    destruct (IH (pred k) ltac:(lia) gap (drop n remaining) (h + Z.of_nat (length (take n remaining))) st2) as (st' & r & Hr); [rewrite Ew; lia|].
    exists st', r. intros [|fuel] Hf; [lia|]. rewrite Hstart. apply Hr. lia.
  - pose proof (pa_sleep _ Hp w1) as Hs. unfold ask_bool, mbind, SyncM_bind, sbind, slift in Hstart. cbn [sy_world sy_dbs sy_events st1] in Hstart.
    destruct (sleep w1) as [w2 [|]]; cbn in Hs; [by eexists _, _; intros [|fuel] ?; [lia|rewrite Hstart]|].
    destruct gap as [g|]; [|done]. cbn [waits] in Hk.
    pose proof (poll_gap busy (mkSync (sy_dbs st) (sy_events st) w2) Hp) as Hg.
    destruct (block_data_gap _) as [st2 r]. cbn [sy_world] in Hg. destruct Hg as (Hle & x & -> & Hx).
    destruct x as [gap'|e|]; [|by eexists _, _; intros [|fuel] ?; [lia|rewrite Hstart]..].
    assert (Hlt : (length remaining + busy (sy_world st2) + waits gap' <= pred k)%nat).
    { destruct (decide (busy w2 = 0%nat)) as [Hz|Hz]; [rewrite (Hx gap' eq_refl Hz); cbn; lia|destruct gap'; cbn; lia]. }
    destruct (IH (pred k) ltac:(lia) gap' remaining h st2 Hlt) as (st' & r & Hr).
    exists st', r. intros [|fuel] Hf; [lia|]. rewrite Hstart. apply Hr. lia.
Qed.

Lemma block_data_gap_halts : halts (S := SyncState W) anything block_data_gap (fun _ => anything).
Proof.
  eapply halts_bind; [apply ask_halts|]. intros cs. eapply halts_bind; [apply halts_lift|]. intros [bg|]; [|by apply halts_ret].
  eapply halts_bind; [apply halts_get|]. intros st0. destruct (_ !! _); [by apply halts_ret|].
  eapply halts_weaken; [apply halts_lift|intros; exact I..].
Qed.

Lemma connect_to_tip_halts missing main_tip :
  halts (S := SyncState W) anything (missing_blocks_connect_to_tip missing main_tip) (fun _ => anything).
Proof.
  eapply halts_bind; [apply halts_get|]. intros st0. destruct missing; [by apply halts_ret|].
  eapply halts_bind; [apply halts_lift|]. intros hi. by apply halts_ret.
Qed.

Lemma sync_blocks_settles bh b0 main_tip dir busy :
  header_inv b0 -> is_Some (headers b0 !! main_tip) -> patient busy ->
  settles (safe bh b0) (fun fuel => sync_blocks bh fuel dir main_tip).
Proof.
  intros Hi Hm Hp. unfold sync_blocks. eapply settles_bind; [by eapply halts_triple, rewind_path|]. intros tip.
  eapply (settles_bind _ (fun _ => anything)).
  { eapply halts_weaken; [by eapply halts_triple, find_missing_path|intros st Hst; exact Hst|intros; exact I]. }
  intros [missing h]. case_decide; [by apply (settles_halts _ _ (fun _ => anything)), halts_ret|].
  eapply settles_bind; [apply pre_activation_halts|]. intros [missing1 n]. eapply (settles_bind _ (fun _ => anything)).
  { destruct dir as [open_dir|]; [|by apply halts_ret; intros; exact I]. eapply halts_bind; [apply sync_from_directory_halts|].
    intros [missing2 [a|e|]]; [by apply halts_ret| |by apply halts_ret]. eapply halts_bind; [apply connect_to_tip_halts|]; cbn beta.
    intros [|]; [by apply halts_ret|]. eapply halts_weaken; [apply halts_lift|intros; exact I..]. }
  intros missing2. eapply settles_bind; [apply block_data_gap_halts|]. intros gap st _.
  set (k := (length missing2 + busy (sy_world st) + waits gap)%nat).
  destruct (fetch_loop_ends bh busy k gap missing2 (h + 1 - Z.of_nat (length missing2)) st Hp ltac:(lia)) as (st' & r & Hr).
  exists (S k), st', r. intros fuel Hf. apply Hr. lia.
Qed.

(** C8. Synchronising blocks ends. When the tables are those of a chain, the
    header of the node's tip is stored, and the node's background validation
    of a snapshot is over after finitely many polls, [sync_blocks] returns: the
    rewinding, the search for missing blocks, the batches below the activation
    height, the block files with their cache, and the requests all end, whatever
    the node answers. The result does not depend on the fuel, once there is
    enough of it. *)
Theorem sync_blocks_terminates bh main_tip dir busy st bs :
  let b0 := block_hashes (sy_dbs st) in
  hist bh (sy_dbs st) bs -> header_inv b0 -> followed (sy_events st) = hash_of <$> bs -> is_Some (headers b0 !! main_tip) ->
  patient busy ->
  exists N st' r, forall fuel, (N <= fuel)%nat -> sync_blocks bh fuel dir main_tip st = (st', Some r).
Proof.
  intros b0 Hh Hi He Hm Hp. apply (sync_blocks_settles bh b0 main_tip dir busy Hi Hm Hp). exists bs. by split.
Qed.

End SyncTermination.
