(* ===== verification/BlockFiles.v ===== *)
(** * Block files of the node

    [lib/validator/parse_block_files.rs]: the parser of Bitcoin Core's
    [blk*.dat] files, which are obfuscated with a key that is repeated over the
    file, and of the entries of its block index. A directory is the contents of
    [xor.dat], the numbered files and the index; reading an open file does not
    fail other than at its end. *)

From Stdlib Require Import Strings.Byte.
From stdpp Require Import base numbers list gmap.
From S2P Require Import Prelude OrderMap Bitcoin Types Messages M6 Dbs BlockHashes Treasury Diff Reversible Handlers ConnectBlock Sync.
Open Scope Z_scope.

(** Decoding by rust-bitcoin: the 80 bytes of a header, and the transactions
    of a block. *)
Class BlockDecode := {
  header_consensus_decode : bytes -> option Header;
  txs_consensus_decode : bytes -> option (list Transaction) }.

(** ** Network magic *)

Definition MAINNET_MAGIC : bytes := [xf9; xbe; xb4; xd9].
Definition TESTNET_MAGIC : bytes := [x0b; x11; x09; x07].
Definition SIGNET_MAGIC : bytes := [x0a; x03; xcf; x40].
Definition REGTEST_MAGIC : bytes := [xfa; xbf; xb5; xda].

Definition magic_for_network (network : Network) : bytes :=
  match network with
  | Mainnet => MAINNET_MAGIC
  | Testnet | Testnet4 => TESTNET_MAGIC
  | Signet => SIGNET_MAGIC
  | Regtest => REGTEST_MAGIC
  end.

(** rust-bitcoin's [Network::magic] *)
Definition bitcoin_magic (network : Network) : bytes :=
  match network with
  | Mainnet => [xf9; xbe; xb4; xd9]
  | Testnet => [x0b; x11; x09; x07]
  | Testnet4 => [x1c; x16; x3f; x28]
  | Signet => [x0a; x03; xcf; x40]
  | Regtest => [xfa; xbf; xb5; xda]
  end.

Definition MAX_BLOCK_SERIALIZED_SIZE : Z := 4000000.

Inductive ParseBlockFileError :=
| PB_Io
| InvalidMagic (found expected : bytes) (offset : Z)
| InvalidNetwork (found expected : Network)
| BlockSizeTooLarge (size : Z)
| BlockSizeTooSmall (size : Z)
| TxDataDecode
| HeaderDecode
| UintDecode
| PB_UnexpectedEof
| BlockSizeMismatch (expected actual : Z).

(** ** The reader *)

(** [offset] is also the position in the file: both start at 0, advance by the
    bytes read, and are set together. *)
Record XorReader := mkXorReader { xr_file : bytes; xr_key : option bytes; xr_offset : Z }.

Definition xor_u8 (a b : byte) : byte := to_u8 (Z.lxor (u8_val a) (u8_val b)).
Definition key_byte (key : bytes) (i : Z) : byte := nth (Z.to_nat (i mod Z.of_nat (length key))) key x00.

(** The bytes [b] of a file from position [offset] on, without the key. *)
Definition xor_from (key : option bytes) (offset : Z) (b : bytes) : bytes :=
  match key with
  | None => b
  | Some key => imap (fun i x => xor_u8 x (key_byte key (offset + Z.of_nat i))) b
  end.

(** [read_exact]: [None] at the end of the file, which is then reached. *)
Definition read_exact (n : Z) (r : XorReader) : XorReader * option bytes :=
  let rest := drop (Z.to_nat (xr_offset r)) (xr_file r) in
  let got := take (Z.to_nat n) rest in
  (mkXorReader (xr_file r) (xr_key r) (xr_offset r + Z.of_nat (length got)),
   if decide (Z.of_nat (length got) = n) then Some (xor_from (xr_key r) (xr_offset r) got) else None).

Definition seek (pos : Z) (r : XorReader) : XorReader := mkXorReader (xr_file r) (xr_key r) pos.

(** A computation on the reader. *)
Definition ReadM (A : Type) : Type := XorReader -> XorReader * Res ParseBlockFileError A.
#[export] Instance ReadM_ret : MRet ReadM := fun A a r => (r, Ok a).
#[export] Instance ReadM_bind : MBind ReadM := fun A B f m r =>
  match m r with
  | (r, Ok a) => f a r
  | (r, Err e) => (r, Err e)
  | (r, Panic) => (r, Panic)
  end.
Definition rlift {A} (x : Res ParseBlockFileError A) : ReadM A := fun r => (r, x).
Definition read_or (e : ParseBlockFileError) (n : Z) : ReadM bytes := fun r =>
  let '(r, b) := read_exact n r in (r, ok_or e b).

(** ** Block files *)

(** [ParsedBlock] *)
Record FileBlock := mkFileBlock { fb_header : Header; fb_raw_tx_data : bytes; fb_offset : Z }.

Record BlockFileParser := mkBlockFileParser {
  bp_reader : XorReader;
  bp_network : Network;
  bp_magic_override : option bytes }.

Definition block_file_parser_new (xor_key : option bytes) (file : bytes) (network : Network) (magic_override : option bytes) : BlockFileParser :=
  mkBlockFileParser (mkXorReader file xor_key 0) network magic_override.

Definition expected_magic (p : BlockFileParser) : bytes := default (magic_for_network (bp_network p)) (bp_magic_override p).

Definition file_set_offset (offset : Z) (p : BlockFileParser) : BlockFileParser :=
  mkBlockFileParser (seek offset (bp_reader p)) (bp_network p) (bp_magic_override p).

(** The file ends where the bytes as they are stored are zero. *)
Definition is_end_of_file (key : option bytes) (offset : Z) (magic : bytes) : bool :=
  match key with
  | Some key => forallb (fun b => bool_decide (b = x00)) (imap (fun i b => xor_u8 b (key_byte key (offset - 4 + Z.of_nat i))) magic)
  | None => forallb (fun b => bool_decide (b = x00)) magic
  end.

Definition known_networks : list Network := [Mainnet; Regtest; Testnet; Signet].

Definition wrong_magic (p : BlockFileParser) (magic : bytes) (offset : Z) : ParseBlockFileError :=
  match bp_magic_override p, list_find (fun net => bitcoin_magic net = magic) known_networks with
  | None, Some (_, network) => InvalidNetwork network (bp_network p)
  | _, _ => InvalidMagic magic (expected_magic p) offset
  end.

Section Parser.
Context `{BlockDecode}.

(** After the magic bytes. *)
Definition read_block (offset : Z) : ReadM FileBlock :=
  b ← read_or UintDecode 4;
  let size := le_val b in
  if bool_decide (MAX_BLOCK_SERIALIZED_SIZE < size) then rlift (Err (BlockSizeTooLarge size)) else
  hb ← read_or HeaderDecode 80;
  header ← rlift (ok_or HeaderDecode (header_consensus_decode hb));
  txdata_len ← rlift (ok_or (BlockSizeTooSmall size) (checked_sub size 80));
  txdata ← read_or PB_Io txdata_len;
  mret (mkFileBlock header txdata offset).

Definition next_block_reader (p : BlockFileParser) : ReadM (option FileBlock) := fun r =>
  let offset := xr_offset r in
  match read_exact 4 r with
  | (r, None) => (r, Ok None)
  | (r, Some magic) =>
      if is_end_of_file (xr_key r) (xr_offset r) magic then (r, Ok None)
      else if negb (bool_decide (magic = expected_magic p)) then (r, Err (wrong_magic p magic offset))
      else (block ← read_block offset; mret (Some block)) r
  end.

Definition next_block (p : BlockFileParser) : BlockFileParser * Res ParseBlockFileError (option FileBlock) :=
  let '(r, res) := next_block_reader p (bp_reader p) in
  (mkBlockFileParser r (bp_network p) (bp_magic_override p), res).

(** The error is that of the block at the index of the list. *)
Fixpoint all_blocks_loop (fuel : nat) (blocks : list FileBlock) (p : BlockFileParser)
    : option (BlockFileParser * Res (nat * ParseBlockFileError) (list FileBlock)) :=
  match fuel with
  | O => None
  | S fuel =>
      match next_block p with
      | (p, Ok (Some block)) => all_blocks_loop fuel (blocks ++ [block]) p
      | (p, Ok None) => Some (p, Ok blocks)
      | (p, Err e) => Some (p, Err (length blocks, e))
      | (p, Panic) => Some (p, Panic)
      end
  end.

(** Every block but the last call advances the reader. *)
Definition all_blocks (p : BlockFileParser) := all_blocks_loop (S (length (xr_file (bp_reader p)))) [] p.

Definition file_parse_tx_data (b : FileBlock) : Res ParseBlockFileError (list Transaction) :=
  ok_or TxDataDecode (txs_consensus_decode (fb_raw_tx_data b)).

End Parser.

(** ** The directory *)

Inductive BlockDirectoryParserError := ReadXorKey.

(** [xor.dat], the files [blk00000.dat], [blk00001.dat], ..., by number, and the
    index database. *)
Record BlocksDir := mkBlocksDir {
  xor_dat : option bytes;
  blk_files : gmap Z bytes;
  index_get : bytes -> option bytes }.

Record BlockDirectoryParser := mkBlockDirectoryParser {
  dp_dir : BlocksDir;
  dp_xor_key : option bytes;
  dp_network : Network;
  dp_magic_override : option bytes;
  file_index : Z;
  current_parser : option BlockFileParser }.

Definition block_directory_parser_new (dir : BlocksDir) (network : Network) (magic_override : option bytes)
    : Res BlockDirectoryParserError BlockDirectoryParser :=
  xor_key ← ok_or ReadXorKey (xor_dat dir);
  _ ← assert_or_panic (bool_decide (length xor_key = 8%nat));
  let xor_key := if forallb (fun b => bool_decide (b = x00)) xor_key then None else Some xor_key in
  Ok (mkBlockDirectoryParser dir xor_key network magic_override 0 None).

Definition set_file_number (num : Z) (p : BlockDirectoryParser) : BlockDirectoryParser :=
  mkBlockDirectoryParser (dp_dir p) (dp_xor_key p) (dp_network p) (dp_magic_override p) num (current_parser p).
Definition set_current (c : option BlockFileParser) (p : BlockDirectoryParser) : BlockDirectoryParser :=
  mkBlockDirectoryParser (dp_dir p) (dp_xor_key p) (dp_network p) (dp_magic_override p) (file_index p) c.

Definition open_file (p : BlockDirectoryParser) (file : bytes) : BlockFileParser :=
  block_file_parser_new (dp_xor_key p) file (dp_network p) (dp_magic_override p).

(** [None]: the file cannot be opened. *)
Definition get_or_init_parser (p : BlockDirectoryParser) : option (BlockDirectoryParser * BlockFileParser) :=
  match current_parser p with
  | Some parser => Some (p, parser)
  | None => file ← blk_files (dp_dir p) !! file_index p;
            let parser := open_file p file in Some (set_current (Some parser) p, parser)
  end.

Definition dir_set_offset (offset : Z) (p : BlockDirectoryParser) : option BlockDirectoryParser :=
  '(p, parser) ← get_or_init_parser p;
  Some (set_current (Some (file_set_offset offset parser)) p).

Section Directory.
Context `{BlockDecode}.

(** The file number overflows with a panic. *)
Fixpoint dir_next_block (fuel : nat) (p : BlockDirectoryParser)
    : option (BlockDirectoryParser * Res ParseBlockFileError (option FileBlock)) :=
  match fuel with
  | O => None
  | S fuel =>
      match current_parser p with
      | Some parser =>
          match next_block parser with
          | (parser, Ok (Some block)) => Some (set_current (Some parser) p, Ok (Some block))
          | (parser, Ok None) =>
              if bool_decide (file_index p = u32_max) then Some (p, Panic)
              else dir_next_block fuel (set_file_number (file_index p + 1) (set_current None p))
          | (parser, Err e) => Some (set_current (Some parser) p, Err e)
          | (parser, Panic) => Some (set_current (Some parser) p, Panic)
          end
      | None =>
          match blk_files (dp_dir p) !! file_index p with
          | None => Some (p, Ok None)
          | Some file => dir_next_block fuel (set_current (Some (open_file p file)) p)
          end
      end
  end.

(** Two rounds for each file are enough. *)
Definition dir_fuel (p : BlockDirectoryParser) : nat := 2 * size (blk_files (dp_dir p)) + 3.

(** The iterator until its first error. *)
Fixpoint dir_items (fuel : nat) (p : BlockDirectoryParser) : option (list (Res ParseBlockFileError FileBlock)) :=
  match fuel with
  | O => None
  | S fuel =>
      match dir_next_block (dir_fuel p) p with
      | None => None
      | Some (p, Ok (Some block)) => items ← dir_items fuel p; Some (Ok block :: items)
      | Some (_, Ok None) => Some []
      | Some (_, Err e) => Some [Err e]
      | Some (_, Panic) => Some [Panic]
      end
  end.

End Directory.

(** ** The block index *)

Inductive IndexIoError := UnexpectedEof | VarIntTooLarge.

(** [read_varint]: the end of the bytes, or a value above 64 bits, is an error. *)
Fixpoint read_varint_loop (n : Z) (s : bytes) : Res IndexIoError (Z * bytes) :=
  match s with
  | [] => Err UnexpectedEof
  | b :: s =>
      let ch_data := u8_val b in
      if bool_decide (Z.shiftr u64_max 7 < n) then Err VarIntTooLarge else
      let n := Z.lor (Z.shiftl n 7) (Z.land ch_data 127) in
      if bool_decide (Z.land ch_data 128 <> 0) then
        if bool_decide (n = u64_max) then Err VarIntTooLarge else read_varint_loop (n + 1) s
      else Ok (n, s)
  end.
Definition read_varint : bytes -> Res IndexIoError (Z * bytes) := read_varint_loop 0.

(** [read_exact] on a slice *)
Definition read_n (n : nat) (s : bytes) : Res IndexIoError (bytes * bytes) :=
  if bool_decide (n <= length s)%nat then Ok (take n s, drop n s) else Err UnexpectedEof.

Definition read_uint256 : bytes -> Res IndexIoError (bytes * bytes) := read_n 32.
Definition read_uint32 (s : bytes) : Res IndexIoError (Z * bytes) := '(b, s) ← read_n 4 s; Ok (le_val b, s).

Definition HAVE_DATA : Z := 8.
Definition HAVE_UNDO : Z := 16.
Definition has_data (status : Z) : bool := bool_decide (Z.land status HAVE_DATA <> 0).
Definition has_undo (status : Z) : bool := bool_decide (Z.land status HAVE_UNDO <> 0).

Record CDiskBlockIndex := mkCDiskBlockIndex {
  bi_version : Z;
  bi_height : Z;
  bi_status : Z;
  tx_count : Z;
  file_number : option Z;
  data_pos : option Z;
  undo_pos : option Z;
  block_version : Z;
  bi_prev_block_hash : BlockHash;
  bi_merkle_root : BlockHash;
  bi_timestamp : Z;
  difficulty_target : Z;
  bi_nonce : Z }.

(** [as u32] *)
Definition to_u32 (z : Z) : Z := z mod 2 ^ 32.

(** A field that is there if [c]. *)
Definition read_if (c : bool) (s : bytes) : Res IndexIoError (option Z * bytes) :=
  if c then '(n, s) ← read_varint s; Ok (Some n, s) else Ok (None, s).

Definition index_deserialize (s : bytes) : Res IndexIoError CDiskBlockIndex :=
  '(version, s) ← read_varint s;
  '(height, s) ← read_varint s;
  '(status_raw, s) ← read_varint s;
  let status := to_u32 status_raw in
  '(tx_count, s) ← read_varint s;
  '(file_number, s) ← read_if (has_data status || has_undo status) s;
  '(data_pos, s) ← read_if (has_data status) s;
  '(undo_pos, s) ← read_if (has_undo status) s;
  '(block_version, s) ← read_uint32 s;
  '(prev_block_hash, s) ← read_uint256 s;
  '(merkle_root, s) ← read_uint256 s;
  '(timestamp, s) ← read_uint32 s;
  '(difficulty_target, s) ← read_uint32 s;
  '(nonce, s) ← read_uint32 s;
  Ok (mkCDiskBlockIndex version height status tx_count (to_u32 <$> file_number) data_pos undo_pos block_version
        prev_block_hash merkle_root timestamp difficulty_target nonce).

(** The magic bytes and the size precede the block. *)
Definition adjusted_data_pos (i : CDiskBlockIndex) : option Z := pos ← data_pos i; checked_sub pos 8.

Inductive FetchBlockIndexError :=
| IndexNotFound (h : BlockHash)
| IndexDeserialize (h : BlockHash) (e : IndexIoError)
| MissingFileNumber
| MissingDataPos.

(** [fetch_block_index_inner]; the database is copied, opened and closed around it. *)
Definition fetch_block_index (get : bytes -> option bytes) (h : BlockHash) : Res FetchBlockIndexError CDiskBlockIndex :=
  value ← ok_or (IndexNotFound h) (get (x62 :: h));
  map_err (IndexDeserialize h) (index_deserialize value).

(** ** The source of blocks of [sync_from_directory] *)

Section Source.
Context `{BlockDecode}.

(** The parser at the first missing block. *)
Definition open_blocks_dir (dir : BlocksDir) (network : Network) (magic : option bytes) (genesis_hash first_missing : BlockHash)
    : Res SyncError BlockDirectoryParser :=
  parser ← map_err (fun _ => SE_BlockDir) (block_directory_parser_new dir network magic);
  if bool_decide (first_missing = genesis_hash) then Ok parser else
  i ← map_err (fun _ => SE_BlockDir) (fetch_block_index (index_get dir) first_missing);
  n ← ok_or SE_BlockDir (file_number i);
  pos ← ok_or SE_BlockDir (adjusted_data_pos i);
  ok_or SE_BlockDir (dir_set_offset pos (set_file_number n parser)).

Definition parsed_block (b : FileBlock) : ParsedBlock :=
  mkParsedBlock (fb_header b) (map_err (fun _ => SE_ParseBlockFiles) (file_parse_tx_data b)).

Definition parsed_item (item : Res ParseBlockFileError FileBlock) : Res SyncError ParsedBlock :=
  b ← map_err (fun _ => SE_ParseBlockFiles) item; Ok (parsed_block b).

(** The items the loop of [sync_from_directory_inner] takes from the parser. *)
Definition blocks_source (fuel : nat) (dir : BlocksDir) (network : Network) (magic : option bytes) (genesis_hash first_missing : BlockHash)
    : option (Res SyncError (list (Res SyncError ParsedBlock))) :=
  match open_blocks_dir dir network magic genesis_hash first_missing with
  | Ok parser => option_map (fun items => Ok (parsed_item <$> items)) (dir_items fuel parser)
  | Err e => Some (Err e)
  | Panic => Some Panic
  end.

End Source.
