(* ===== verification/BlockFileProofs.v ===== *)
(** * Reading the node's block files

    The parser reads back what the node wrote: every block of a file from any
    block's position on, across the files of the directory, and the entries of
    the block index. The node's side is given by reference definitions of its
    formats. *)

From Stdlib Require Import Strings.Byte.
From stdpp Require Import base numbers list gmap.
From S2P Require Import Prelude OrderMap Bitcoin Types Messages M6 Dbs BlockHashes Treasury Diff Reversible Handlers ConnectBlock Sync BlockFiles.
Open Scope Z_scope.

(** ** Obfuscation *)

Lemma lxor_u8 a b : Z.lxor (u8_val a) (u8_val b) mod 256 = Z.lxor (u8_val a) (u8_val b).
Proof.
  change 256 with (2 ^ 8). rewrite <- Z.land_ones by lia. apply Z.bits_inj'. intros i Hi.
  rewrite Z.land_spec, !Z.lxor_spec. destruct (decide (i < 8)).
  - by rewrite Z.ones_spec_low, andb_true_r by lia.
  - pose proof (u8_val_range a). pose proof (u8_val_range b). change 256 with (2 ^ 8) in *.
    rewrite Z.ones_spec_high, andb_false_r by lia. rewrite <- (Z.mod_small (u8_val a) (2 ^ 8)), <- (Z.mod_small (u8_val b) (2 ^ 8)) by done.
    by rewrite !Z.mod_pow2_bits_high by lia.
Qed.

Lemma xor_u8_involutive a k : xor_u8 (xor_u8 a k) k = a.
Proof.
  unfold xor_u8. apply u8_val_inj. rewrite !u8_val_to_u8, lxor_u8, Z.lxor_assoc, Z.lxor_nilpotent, Z.lxor_0_r.
  apply Z.mod_small, u8_val_range.
Qed.

Lemma length_xor_from key o b : length (xor_from key o b) = length b.
Proof. destruct key; [apply length_imap|done]. Qed.

Lemma xor_from_involutive key o b : xor_from key o (xor_from key o b) = b.
Proof.
  destruct key as [key|]; [|done]. cbn. apply list_eq. intros i. rewrite !list_lookup_imap.
  destruct (b !! i); cbn; [|done]. by rewrite xor_u8_involutive.
Qed.

Lemma xor_from_app key o a b : xor_from key o (a ++ b) = xor_from key o a ++ xor_from key (o + Z.of_nat (length a)) b.
Proof.
  destruct key as [key|]; [|done]. cbn. rewrite imap_app. f_equal. apply imap_ext. intros i x _. do 2 f_equal. cbn. lia.
Qed.

(** ** Reading *)

(** The bytes of the file that are not read yet. *)
Definition unread (r : XorReader) : bytes := drop (Z.to_nat (xr_offset r)) (xr_file r).
Definition advance (n : nat) (r : XorReader) : XorReader := mkXorReader (xr_file r) (xr_key r) (xr_offset r + Z.of_nat n).

Lemma unread_advance n r : 0 <= xr_offset r -> unread (advance n r) = drop n (unread r).
Proof. intros Ho. unfold unread, advance. cbn. rewrite drop_drop. f_equal. lia. Qed.

(** [a] is stored next in the file. *)
Lemma read_exact_app r a rest :
  unread r = xor_from (xr_key r) (xr_offset r) a ++ rest ->
  read_exact (Z.of_nat (length a)) r = (advance (length a) r, Some a).
Proof.
  intros Hu. unfold read_exact. fold (unread r). rewrite Hu, Nat2Z.id.
  rewrite take_app_length' by by rewrite length_xor_from. rewrite length_xor_from, decide_True by done.
  by rewrite xor_from_involutive.
Qed.

Lemma read_exact_short r n : (length (unread r) < n)%nat -> exists r', read_exact (Z.of_nat n) r = (r', None).
Proof.
  intros Hlt. unfold read_exact. fold (unread r). rewrite Nat2Z.id, take_ge by lia. eexists. rewrite decide_False; [done|lia].
Qed.

Lemma read_or_app e r a rest :
  unread r = xor_from (xr_key r) (xr_offset r) a ++ rest ->
  read_or e (Z.of_nat (length a)) r = (advance (length a) r, Ok a).
Proof. intros Hu. unfold read_or. by rewrite (read_exact_app _ _ _ Hu). Qed.

(** What is stored after [a]. *)
Lemma unread_after r a b rest :
  0 <= xr_offset r -> unread r = xor_from (xr_key r) (xr_offset r) (a ++ b) ++ rest ->
  unread (advance (length a) r) = xor_from (xr_key (advance (length a) r)) (xr_offset (advance (length a) r)) b ++ rest.
Proof.
  intros Ho Hu. rewrite unread_advance, Hu, xor_from_app, <- app_assoc by done. cbn.
  by rewrite drop_app_length' by by rewrite length_xor_from.
Qed.

(** ** The format of the files *)

(** The fields of a header have their widths. *)
Definition header_fields_ok (h : Header) : Prop :=
  - 2 ^ 31 <= h_version h < 2 ^ 31 /\ length (prev_blockhash h) = 32%nat /\ length (merkle_root h) = 32%nat /\
  0 <= time h < 2 ^ 32 /\ 0 <= bits h < 2 ^ 32 /\ 0 <= nonce h < 2 ^ 32.

(** rust-bitcoin encodes a header in 80 bytes and decodes them to the header. *)
Class HeaderCodec `{BlockDecode} := {
  header_consensus_encode : Header -> bytes;
  length_header_encode h : header_fields_ok h -> length (header_consensus_encode h) = 80%nat;
  header_decode_encode h : header_fields_ok h -> header_consensus_decode (header_consensus_encode h) = Some h }.

Section Format.
Context `{HeaderCodec}.

(** A stored block: the header and the encoded transactions. *)
Abbreviation StoredBlock := (Header * bytes)%type.

Definition store_block (magic : bytes) (b : StoredBlock) : bytes :=
  magic ++ le_bytes 4 (80 + Z.of_nat (length b.2)) ++ header_consensus_encode b.1 ++ b.2.

Definition store_blocks (magic : bytes) (l : list StoredBlock) : bytes := concat (store_block magic <$> l).

(** A file: the obfuscated blocks, and zeros up to the allocated size. *)
Definition block_file (key : option bytes) (magic : bytes) (l : list StoredBlock) (padding : nat) : bytes :=
  xor_from key 0 (store_blocks magic l) ++ replicate padding x00.

(** The position of the block after [l]. *)
Definition position_after (magic : bytes) (l : list StoredBlock) : Z := Z.of_nat (length (store_blocks magic l)).

(** The blocks the parser returns for [l] from position [o] on. *)
Fixpoint blocks_at (magic : bytes) (o : Z) (l : list StoredBlock) : list FileBlock :=
  match l with
  | [] => []
  | b :: l => mkFileBlock b.1 b.2 o :: blocks_at magic (o + Z.of_nat (length (store_block magic b))) l
  end.

(** Blocks of the allowed size, none of whose magic bytes the key turns into
    the zeros of the padding. *)
Definition storable (b : StoredBlock) : Prop := header_fields_ok b.1 /\ 80 + Z.of_nat (length b.2) <= MAX_BLOCK_SERIALIZED_SIZE.

Definition visible (key : option bytes) (magic : bytes) (o : Z) : Prop :=
  exists x, x ∈ xor_from key o magic /\ x <> x00.

Lemma end_of_file_stored key o magic :
  is_end_of_file key (o + 4) magic = forallb (fun b => bool_decide (b = x00)) (xor_from key o magic).
Proof. unfold is_end_of_file, xor_from. destruct key; [|done]. f_equal. apply imap_ext. intros i x _. do 2 f_equal. lia. Qed.

Lemma visible_not_end key o magic : visible key magic o -> is_end_of_file key (o + 4) magic = false.
Proof.
  intros (x & Hx & Hne). rewrite end_of_file_stored. apply not_true_iff_false. rewrite forallb_forall. intros Hall.
  apply list_elem_of_In, Hall, bool_decide_eq_true in Hx. done.
Qed.

(** After the magic bytes, the rest of a stored block. *)
Lemma read_block_stored o r b rest :
  storable b -> 0 <= xr_offset r ->
  unread r = xor_from (xr_key r) (xr_offset r) (le_bytes 4 (80 + Z.of_nat (length b.2)) ++ header_consensus_encode b.1 ++ b.2) ++ rest ->
  exists r', read_block o r = (r', Ok (mkFileBlock b.1 b.2 o)) /\ r' = advance (84 + length b.2) r.
Proof.
  intros [Hhd Hb] Ho Hu. destruct b as [hd tx]. unfold MAX_BLOCK_SERIALIZED_SIZE in Hb. cbn [fst snd] in *.
  set (size := 80 + Z.of_nat (length tx)) in *.
  pose proof (unread_after _ _ _ _ Ho Hu) as Hu1. rewrite length_le_bytes in Hu1. set (r1 := advance 4 r) in *.
  assert (Ho1 : 0 <= xr_offset r1) by (cbn; lia).
  pose proof (unread_after _ _ _ _ Ho1 Hu1) as Hu2. rewrite length_header_encode in Hu2 by done. set (r2 := advance 80 r1) in *.
  rewrite xor_from_app, <- app_assoc in Hu, Hu1. apply (read_or_app UintDecode) in Hu. apply (read_or_app HeaderDecode) in Hu1.
  apply (read_or_app PB_Io) in Hu2. rewrite length_le_bytes in Hu. rewrite length_header_encode in Hu1 by done.
  change (Z.of_nat 4) with 4 in Hu. change (Z.of_nat 80) with 80 in Hu1. fold r1 in Hu. fold r2 in Hu1.
  unfold read_block, mbind, ReadM_bind, rlift. rewrite Hu. cbv zeta. rewrite le_val_bytes by (unfold size; lia).
  rewrite bool_decide_eq_false_2 by (unfold MAX_BLOCK_SERIALIZED_SIZE; lia). rewrite Hu1, header_decode_encode by done. cbn [ok_or].
  replace (checked_sub size 80) with (Some (Z.of_nat (length tx))) by (symmetry; apply checked_sub_Some; unfold size; lia).
  cbn [ok_or]. rewrite Hu2. eexists. split; [done|]. unfold r2, r1, advance. cbn [xr_file xr_key xr_offset]. f_equal. lia.
Qed.

Lemma length_store_block magic b : length magic = 4%nat -> storable b -> length (store_block magic b) = (88 + length b.2)%nat.
Proof. intros Hm [Hb _]. unfold store_block. rewrite !length_app, length_le_bytes, length_header_encode by done. lia. Qed.

(** A parser whose reader moved. *)
Definition moved (r : XorReader) (p : BlockFileParser) : BlockFileParser := mkBlockFileParser r (bp_network p) (bp_magic_override p).

Lemma next_block_stored p r b rest :
  length (expected_magic p) = 4%nat -> storable b -> 0 <= xr_offset r -> visible (xr_key r) (expected_magic p) (xr_offset r) ->
  unread r = xor_from (xr_key r) (xr_offset r) (store_block (expected_magic p) b) ++ rest ->
  next_block (moved r p) = (moved (advance (length (store_block (expected_magic p) b)) r) p, Ok (Some (mkFileBlock b.1 b.2 (xr_offset r)))).
Proof.
  intros Hm Hb Ho Hvis Hu. unfold store_block in Hu. pose proof (unread_after _ _ _ _ Ho Hu) as Hu1. rewrite Hm in Hu1.
  destruct (read_block_stored (xr_offset r) (advance 4 r) b rest Hb) as (r' & Hr & ->); [cbn; lia|exact Hu1|].
  rewrite xor_from_app, <- app_assoc in Hu. apply read_exact_app in Hu. rewrite Hm in Hu. change (Z.of_nat 4) with 4 in Hu.
  unfold next_block, next_block_reader. cbn [bp_reader moved]. rewrite Hu. cbv beta iota zeta. cbn [xr_key xr_offset advance].
  change (Z.of_nat 4) with 4. rewrite visible_not_end by done. cbn [expected_magic bp_network bp_magic_override moved] in *.
  rewrite bool_decide_eq_true_2 by done. cbn [negb]. unfold mbind, ReadM_bind.
  rewrite Hr. cbv beta iota zeta. rewrite length_store_block by done. unfold mret, ReadM_ret, moved, advance. cbn. do 3 f_equal. lia.
Qed.

Lemma next_block_padding p r n :
  0 <= xr_offset r -> unread r = replicate n x00 -> exists r', next_block (moved r p) = (moved r' p, Ok None).
Proof.
  intros Ho Hu. unfold next_block, next_block_reader. cbn [bp_reader moved].
  destruct (decide (n < 4)%nat) as [Hlt|Hge].
  - destruct (read_exact_short r 4) as [r' Hr]; [rewrite Hu, length_replicate; lia|]. change (Z.of_nat 4) with 4 in Hr. rewrite Hr. by exists r'.
  - set (z := replicate 4 x00). assert (Hu' : unread r = xor_from (xr_key r) (xr_offset r) (xor_from (xr_key r) (xr_offset r) z) ++ replicate (n - 4) x00).
    { rewrite xor_from_involutive, Hu. unfold z. rewrite <- replicate_add. f_equal. lia. }
    apply read_exact_app in Hu'. rewrite length_xor_from in Hu'. change (Z.of_nat (length z)) with 4 in Hu'. rewrite Hu'.
    cbn [xr_key xr_offset advance]. change (Z.of_nat (length z)) with 4. rewrite end_of_file_stored, xor_from_involutive. cbn. by eexists.
Qed.

(** The blocks [l] are stored from the reader's position on, up to the padding. *)
Definition holds (p : BlockFileParser) (r : XorReader) (l : list StoredBlock) (padding : nat) : Prop :=
  0 <= xr_offset r /\ length (expected_magic p) = 4%nat /\ Forall storable l /\
  (forall pre b post, l = pre ++ b :: post -> visible (xr_key r) (expected_magic p) (xr_offset r + position_after (expected_magic p) pre)) /\
  unread r = xor_from (xr_key r) (xr_offset r) (store_blocks (expected_magic p) l) ++ replicate padding x00.

Lemma holds_next p r b l padding :
  holds p r (b :: l) padding ->
  next_block (moved r p) = (moved (advance (length (store_block (expected_magic p) b)) r) p, Ok (Some (mkFileBlock b.1 b.2 (xr_offset r)))) /\
  holds p (advance (length (store_block (expected_magic p) b)) r) l padding.
Proof.
  intros (Ho & Hm & Hall & Hvis & Hu). apply Forall_cons in Hall as [Hb Hall]. unfold store_blocks in Hu. cbn [fmap list_fmap concat] in Hu.
  pose proof (unread_after _ _ _ _ Ho Hu) as Hu1. rewrite xor_from_app, <- app_assoc in Hu. split.
  - eapply next_block_stored; [done..| |exact Hu]. specialize (Hvis [] b l eq_refl). unfold position_after in Hvis. cbn in Hvis. by rewrite Z.add_0_r in Hvis.
  - split_and!; [cbn; lia|done|done| |exact Hu1]. intros pre b' post ->. specialize (Hvis (b :: pre) b' post eq_refl).
    unfold position_after, store_blocks in *. cbn in *. rewrite length_app in Hvis. replace (_ + _ + _) with
      (xr_offset r + Z.of_nat (length (store_block (expected_magic p) b) + length (concat (store_block (expected_magic p) <$> pre)))) by lia. done.
Qed.

Lemma all_blocks_stored p r l padding fuel acc :
  holds p r l padding -> (length l < fuel)%nat ->
  exists r', all_blocks_loop fuel acc (moved r p) = Some (moved r' p, Ok (acc ++ blocks_at (expected_magic p) (xr_offset r) l)).
Proof.
  revert r fuel acc. induction l as [|b l IH]; intros r fuel acc Hh Hf; (destruct fuel as [|fuel]; [cbn in Hf; lia|]); cbn [all_blocks_loop].
  - destruct Hh as (Ho & _ & _ & _ & Hu). destruct (next_block_padding p r padding Ho) as [r' ->].
    { rewrite Hu. by destruct (xr_key r). }
    exists r'. cbn. by rewrite app_nil_r.
  - apply holds_next in Hh as [-> Hh]. destruct (IH _ fuel (acc ++ [mkFileBlock b.1 b.2 (xr_offset r)]) Hh) as [r' ->]; [cbn in Hf; lia|].
    exists r'. by rewrite <- app_assoc.
Qed.

Lemma length_store_blocks magic l : length magic = 4%nat -> (length l <= length (store_blocks magic l))%nat.
Proof.
  intros Hm. induction l as [|b l IH]; [done|].
  change (store_blocks magic (b :: l)) with (store_block magic b ++ store_blocks magic l).
  unfold store_block. rewrite !length_app, Hm. cbn [length]. lia.
Qed.

Lemma store_blocks_app magic l1 l2 : store_blocks magic (l1 ++ l2) = store_blocks magic l1 ++ store_blocks magic l2.
Proof. unfold store_blocks. by rewrite fmap_app, concat_app. Qed.

(** A file that can be read: its blocks have the allowed size and are visible. *)
Definition readable (key : option bytes) (magic : bytes) (l : list StoredBlock) : Prop :=
  length magic = 4%nat /\ Forall storable l /\
  forall pre b post, l = pre ++ b :: post -> visible key magic (position_after magic pre).

(** The parser at the block after [l1]. *)
Lemma holds_at p key l1 l2 padding :
  readable key (expected_magic p) (l1 ++ l2) ->
  holds p (mkXorReader (block_file key (expected_magic p) (l1 ++ l2) padding) key (position_after (expected_magic p) l1)) l2 padding.
Proof.
  intros (Hm & Hst & Hvis). apply Forall_app in Hst as [_ Hst]. split_and!; [unfold position_after; cbn; lia|done|done| |].
  - intros pre b post ->. rewrite app_assoc in Hvis. specialize (Hvis _ _ _ eq_refl). cbn.
    unfold position_after in *. by rewrite store_blocks_app, length_app, Nat2Z.inj_add in Hvis.
  - unfold unread, block_file, position_after. cbn. rewrite Nat2Z.id, store_blocks_app, xor_from_app, <- app_assoc.
    by rewrite drop_app_length' by by rewrite length_xor_from.
Qed.

(** The parser reads a file back: positioned at any block of a file that the
    node wrote, with or without a key, it returns exactly this block and the
    ones after it, with their positions, and stops at the padding. *)
Theorem block_file_roundtrip p key l1 l2 padding :
  readable key (expected_magic p) (l1 ++ l2) ->
  let file := block_file key (expected_magic p) (l1 ++ l2) padding in
  let o := position_after (expected_magic p) l1 in
  exists p', all_blocks (file_set_offset o (block_file_parser_new key file (bp_network p) (bp_magic_override p)))
    = Some (p', Ok (blocks_at (expected_magic p) o l2)).
Proof.
  intros Hr file o. pose proof (holds_at p key l1 l2 padding Hr) as Hh. fold file o in Hh.
  destruct (all_blocks_stored p _ l2 padding (S (length file)) [] Hh) as [r' Hb].
  - destruct Hr as (Hm & _ & _). unfold file, block_file. rewrite length_app, length_xor_from, store_blocks_app, length_app.
    pose proof (length_store_blocks _ l2 Hm). lia.
  - exists (moved r' p). exact Hb.
Qed.

(** *** Directories *)

Definition dir_magic (p : BlockDirectoryParser) : bytes := default (magic_for_network (dp_network p)) (dp_magic_override p).

(** The files of the directory from number [n] on are [files], blocks and
    padding each, and the next one does not exist. *)
Definition files_from (p : BlockDirectoryParser) (n : Z) (files : list (list StoredBlock * nat)) : Prop :=
  (forall i, (i <= length files)%nat -> blk_files (dp_dir p) !! (n + Z.of_nat i)
     = (fun f : list StoredBlock * nat => block_file (dp_xor_key p) (dir_magic p) f.1 f.2) <$> files !! i) /\
  Forall (fun f => readable (dp_xor_key p) (dir_magic p) f.1) files /\ n + Z.of_nat (length files) <= u32_max.

Definition all_files (magic : bytes) (files : list (list StoredBlock * nat)) : list FileBlock :=
  concat ((fun f => blocks_at magic 0 f.1) <$> files).

(** The parser stands in a file before the blocks [l]; [files] follow. *)
Definition dir_at (p : BlockDirectoryParser) (rest : list FileBlock) (files : list (list StoredBlock * nat)) : Prop :=
  exists r l padding, let fp := mkBlockFileParser r (dp_network p) (dp_magic_override p) in
    current_parser p = Some fp /\ holds fp r l padding /\
    files_from p (file_index p + 1) files /\ rest = blocks_at (dir_magic p) (xr_offset r) l ++ all_files (dir_magic p) files.

Lemma files_from_next p n f files :
  files_from p n (f :: files) ->
  blk_files (dp_dir p) !! n = Some (block_file (dp_xor_key p) (dir_magic p) f.1 f.2) /\
  readable (dp_xor_key p) (dir_magic p) f.1 /\ n <= u32_max - 1 /\ files_from p (n + 1) files.
Proof.
  intros (Hf & Hr & Hn). apply Forall_cons in Hr as [Hr0 Hr]. cbn in Hn. split_and!; [|done|lia|].
  - specialize (Hf 0%nat). cbn in Hf. rewrite Z.add_0_r in Hf. apply Hf. lia.
  - split_and!; [|done|lia]. intros i Hi. etrans; [|exact (Hf (S i) ltac:(cbn; lia))]. f_equal. lia.
Qed.

Lemma files_from_end p n : files_from p n [] -> blk_files (dp_dir p) !! n = None.
Proof. intros (Hf & _). specialize (Hf 0%nat). cbn in Hf. rewrite Z.add_0_r in Hf. apply Hf. lia. Qed.

(** The parser of a file that was just opened. *)
Lemma opened p f files :
  readable (dp_xor_key p) (dir_magic p) f.1 -> files_from p (file_index p + 1) files ->
  dir_at (set_current (Some (open_file p (block_file (dp_xor_key p) (dir_magic p) f.1 f.2))) p) (all_files (dir_magic p) (f :: files)) files.
Proof.
  intros Hr Hf. pose (fp := block_file_parser_new (dp_xor_key p) [] (dp_network p) (dp_magic_override p)).
  pose proof (holds_at fp (dp_xor_key p) [] f.1 f.2 Hr) as Hh. eexists _, f.1, f.2. split_and!; [done|exact Hh|exact Hf|done].
Qed.

Lemma dir_next_block_at fuel p rest files :
  dir_at p rest files -> (2 * length files + 2 <= fuel)%nat ->
  exists p', dir_next_block fuel p = Some (p', Ok (head rest)) /\
    (rest <> [] -> exists files', (length files' <= length files)%nat /\ dir_at p' (tail rest) files' /\ dp_dir p' = dp_dir p).
Proof.
  revert fuel p rest. induction files as [|f files IH]; intros fuel p rest (r & l & padding & Hc & Hh & Hf & ->) Hfuel;
    (destruct fuel as [|fuel]; [cbn in Hfuel; lia|]); cbn [dir_next_block]; rewrite Hc;
    (destruct l as [|b l];
      [|apply holds_next in Hh as [Hn Hh]; unfold moved in Hn at 1; cbn [bp_network bp_magic_override] in Hn; rewrite Hn; eexists; split;
        [done|intros _; eexists; split; [done|]; split; [|done]; eexists _, l, padding; split_and!; [done|exact Hh|exact Hf|done]]]).
  - destruct Hh as (Ho & _ & _ & _ & Hu).
    destruct (next_block_padding (mkBlockFileParser r (dp_network p) (dp_magic_override p)) r padding Ho) as [r' Hn]; [by rewrite Hu; destruct (xr_key r)|].
    unfold moved in Hn at 1. cbn [bp_network bp_magic_override] in Hn. rewrite Hn.
    rewrite bool_decide_eq_false_2 by (destruct Hf as (_ & _ & Hf); cbn in Hf; lia).
    destruct fuel as [|fuel]; [cbn in Hfuel; lia|]. cbn [dir_next_block]. cbn. rewrite (files_from_end _ _ Hf). by eexists.
  - destruct Hh as (Ho & _ & _ & _ & Hu).
    destruct (next_block_padding (mkBlockFileParser r (dp_network p) (dp_magic_override p)) r padding Ho) as [r' Hn]; [by rewrite Hu; destruct (xr_key r)|].
    unfold moved in Hn at 1. cbn [bp_network bp_magic_override] in Hn. rewrite Hn.
    destruct (files_from_next _ _ _ _ Hf) as (Hfile & Hr & Hlt & Hf'). rewrite bool_decide_eq_false_2 by lia.
    destruct fuel as [|fuel]; [cbn in Hfuel; lia|]. cbn [dir_next_block].
    set (p1 := set_file_number (file_index p + 1) (set_current None p)). change (current_parser p1) with (@None BlockFileParser). cbv iota beta.
    change (blk_files (dp_dir p1) !! file_index p1) with (blk_files (dp_dir p) !! (file_index p + 1)). rewrite Hfile.
    pose proof (opened p1 f files Hr Hf') as Hop.
    destruct (IH fuel _ _ Hop) as (p' & Hp' & Hrest); [cbn in Hfuel; lia|]. exists p'. split; [exact Hp'|].
    intros Hne. destruct (Hrest Hne) as (files' & Hl & Hd & Hdir). exists files'. split_and!; [cbn; lia|done|done].
Qed.

Lemma files_from_length p n files : files_from p n files -> (length files <= size (blk_files (dp_dir p)))%nat.
Proof.
  intros (Hf & _). pose (ks := (fun i => n + Z.of_nat i) <$> seq 0 (length files)).
  assert (Hnd : NoDup ks) by (apply NoDup_fmap_2_strong; [intros; lia|apply NoDup_seq]).
  replace (length files) with (length ks) by (unfold ks; by rewrite length_fmap, length_seq).
  rewrite <- (size_list_to_set (C := gset Z)), <- size_dom by done. apply subseteq_size. intros k' Hk%elem_of_list_to_set.
  apply list_elem_of_fmap in Hk as (i & -> & Hi%elem_of_seq). apply elem_of_dom. rewrite Hf by lia.
  destruct (lookup_lt_is_Some_2 files i) as [f ->]; [lia|by eexists].
Qed.

Lemma dir_items_at fuel p rest files :
  dir_at p rest files -> (length files <= size (blk_files (dp_dir p)))%nat -> (length rest < fuel)%nat ->
  dir_items fuel p = Some (Ok <$> rest).
Proof.
  revert fuel p files. induction rest as [|b rest IH]; intros fuel p files Hd Hl Hf; (destruct fuel as [|fuel]; [cbn in Hf; lia|]); cbn [dir_items].
  - destruct (dir_next_block_at (dir_fuel p) p [] files Hd) as (p' & -> & _); [unfold dir_fuel; lia|done].
  - destruct (dir_next_block_at (dir_fuel p) p (b :: rest) files Hd) as (p' & -> & Hrest); [unfold dir_fuel; lia|]. cbn [head].
    destruct (Hrest ltac:(done)) as (files' & Hl' & Hd' & Ed). cbn [tail] in Hd'.
    rewrite (IH fuel p' files' Hd'); [done|rewrite Ed; lia|cbn in Hf; lia].
Qed.

End Format.

(** ** Variable length integers *)

(** The node's encoding (base 128, most significant digit first, where every
    digit but the last has its high bit set and counts one more): the digits
    before the last one of a number that is [m] in base 128 without it. *)
Fixpoint varint_prefix (fuel : nat) (m : Z) : bytes :=
  match fuel with
  | O => []
  | S fuel => if decide (m <= 0) then [] else varint_prefix fuel ((m - 1) / 128) ++ [to_u8 (128 + (m - 1) mod 128)]
  end.
Definition write_varint (n : Z) : bytes := varint_prefix 10 (n / 128) ++ [to_u8 (n mod 128)].

Lemma digit_split b : Z.land (u8_val b) 127 = u8_val b mod 128 /\ (Z.land (u8_val b) 128 <> 0 <-> 128 <= u8_val b).
Proof. destruct b; vm_compute; split; split; intros; (discriminate || congruence || done). Qed.

Lemma lor_digit n d : 0 <= d < 128 -> Z.lor (Z.shiftl n 7) d = n * 128 + d.
Proof.
  intros Hd. rewrite Z.shiftl_mul_pow2 by lia. change (2 ^ 7) with 128.
  assert (Hl : Z.land (n * 128) d = 0).
  { apply Z.bits_inj'. intros i Hi. rewrite Z.land_spec, Z.bits_0. change 128 with (2 ^ 7). destruct (decide (i < 7)).
    - by rewrite Z.mul_pow2_bits_low.
    - rewrite <- (Z.mod_small d (2 ^ 7)) by (change (2 ^ 7) with 128; lia). by rewrite Z.mod_pow2_bits_high, andb_false_r by lia. }
  by rewrite <- Z.lxor_lor, <- Z.add_nocarry_lxor by done.
Qed.

(** One round of the loop. *)
Lemma read_digit v b s :
  read_varint_loop v (b :: s) =
  if decide (u64_max / 128 < v) then Err VarIntTooLarge else
  let n := v * 128 + u8_val b mod 128 in
  if decide (128 <= u8_val b) then if decide (n = u64_max) then Err VarIntTooLarge else read_varint_loop (n + 1) s
  else Ok (n, s).
Proof.
  cbn [read_varint_loop]. destruct (digit_split b) as [-> Hh]. rewrite lor_digit by (apply Z.mod_pos_bound; lia).
  change (Z.shiftr u64_max 7) with (u64_max / 128). cbv zeta. rewrite (bool_decide_ext _ _ Hh).
  repeat case_bool_decide; repeat case_decide; done.
Qed.

Lemma varint_prefix_fuel f m : m < 128 ^ Z.of_nat f -> varint_prefix (S f) m = varint_prefix f m.
Proof.
  revert m. induction f as [|f IH]; intros m Hm.
  - cbn. by rewrite decide_True by (cbn in Hm; lia).
  - change (varint_prefix (S (S f)) m) with (if decide (m <= 0) then [] else varint_prefix (S f) ((m - 1) / 128) ++ [to_u8 (128 + (m - 1) mod 128)]).
    cbn [varint_prefix]. case_decide; [done|]. f_equal. apply IH. rewrite Nat2Z.inj_succ, Z.pow_succ_r in Hm by lia.
    apply Z.div_lt_upper_bound; lia.
Qed.

Lemma varint_prefix_digit v b :
  0 <= v <= u64_max / 128 -> 128 <= u8_val b ->
  varint_prefix 10 (v * 128 + u8_val b mod 128 + 1) = varint_prefix 10 v ++ [b].
Proof.
  intros Hv Hb. pose proof (u8_val_range b). assert (Eb : u8_val b mod 128 = u8_val b - 128) by (rewrite <- (Z.mod_small (u8_val b - 128) 128), Zminus_mod, Z_mod_same_full, Z.sub_0_r, Z.mod_mod by lia; done).
  change (varint_prefix 10 (v * 128 + u8_val b mod 128 + 1)) with
    (if decide (v * 128 + u8_val b mod 128 + 1 <= 0) then [] else
     varint_prefix 9 ((v * 128 + u8_val b mod 128 + 1 - 1) / 128) ++ [to_u8 (128 + (v * 128 + u8_val b mod 128 + 1 - 1) mod 128)]).
  rewrite decide_False by lia. replace (v * 128 + u8_val b mod 128 + 1 - 1) with (u8_val b - 128 + v * 128) by lia.
  assert (E1 : (u8_val b - 128 + v * 128) / 128 = v) by (rewrite Z.div_add, Z.div_small by lia; lia).
  assert (E2 : (u8_val b - 128 + v * 128) mod 128 = u8_val b - 128) by (rewrite Z_mod_plus_full; apply Z.mod_small; lia).
  rewrite E1, E2, <- (varint_prefix_fuel 9 v) by (change (u64_max / 128) with 144115188075855871 in Hv; change (128 ^ Z.of_nat 9) with 9223372036854775808; lia).
  do 2 f_equal. replace (128 + (u8_val b - 128)) with (u8_val b) by lia. apply to_u8_val.
Qed.

Lemma read_prefix f m s :
  0 <= m <= u64_max -> m < 128 ^ Z.of_nat f -> read_varint_loop 0 (varint_prefix f m ++ s) = read_varint_loop m s.
Proof.
  revert m s. induction f as [|f IH]; intros m s Hm Hf; cbn [varint_prefix].
  - replace m with 0 by (cbn in Hf; lia). done.
  - case_decide; [by replace m with 0 by lia|]. rewrite <- app_assoc. rewrite Nat2Z.inj_succ, Z.pow_succ_r in Hf by lia.
    assert (Hd : 0 <= (m - 1) mod 128 < 128) by (apply Z.mod_pos_bound; lia). pose proof (Z.div_mod (m - 1) 128 ltac:(lia)).
    assert (Hq : 0 <= (m - 1) / 128 <= u64_max / 128) by (split; [apply Z.div_pos; lia|apply Z.div_le_mono; lia]).
    rewrite IH; [|lia|apply Z.div_lt_upper_bound; lia]. cbn [app]. rewrite read_digit, u8_val_to_u8, (Z.mod_small _ 256) by lia.
    rewrite decide_False by lia. cbv zeta. replace ((128 + (m - 1) mod 128) mod 128) with ((m - 1) mod 128)
      by (rewrite <- Z.add_mod_idemp_l, Z_mod_same_full, Z.add_0_l, Z.mod_mod by lia; done).
    rewrite decide_True by lia. rewrite decide_False by lia. f_equal. lia.
Qed.

Lemma read_varint_loop_Ok v s n rest :
  0 <= v -> read_varint_loop v s = Ok (n, rest) ->
  0 <= n <= u64_max /\ varint_prefix 10 v ++ s = write_varint n ++ rest.
Proof.
  revert v. induction s as [|b s IH]; intros v Hv; [done|]. rewrite read_digit. case_decide as Hmax; [done|]. cbv zeta.
  pose proof (u8_val_range b). assert (Hd : 0 <= u8_val b mod 128 < 128) by (apply Z.mod_pos_bound; lia).
  assert (Hu : u64_max / 128 * 128 + 127 = u64_max) by reflexivity. case_decide as Hb.
  - case_decide as Ho; [done|]. intros [Hn E]%IH; [|lia]. split; [done|]. rewrite <- E, varint_prefix_digit by lia. by rewrite <- app_assoc.
  - intros [= <- <-]. rewrite (Z.mod_small (u8_val b) 128) by lia. split; [lia|]. unfold write_varint.
    rewrite Z.div_add_l, (Z.div_small (u8_val b)), Z.add_0_r, Z.add_comm, Z_mod_plus_full, Z.mod_small, to_u8_val by lia. by rewrite <- app_assoc.
Qed.

Lemma read_write_varint n rest : 0 <= n <= u64_max -> read_varint (write_varint n ++ rest) = Ok (n, rest).
Proof.
  intros Hn. unfold read_varint, write_varint. assert (Hq : 0 <= n / 128 <= u64_max / 128) by (split; [apply Z.div_pos; lia|apply Z.div_le_mono; lia]).
  assert (Hd : 0 <= n mod 128 < 128) by (apply Z.mod_pos_bound; lia). pose proof (Z.div_mod n 128 ltac:(lia)).
  change (u64_max / 128) with 144115188075855871 in *.
  rewrite <- app_assoc, read_prefix; [|unfold u64_max; lia|change (128 ^ Z.of_nat 10) with 1180591620717411303424; lia]. cbn [app].
  rewrite read_digit, u8_val_to_u8, (Z.mod_small (n mod 128) 256) by lia. change (u64_max / 128) with 144115188075855871.
  rewrite decide_False, decide_False, Z.mod_mod by lia. do 2 f_equal. lia.
Qed.

(** The integers of the block index are read exactly: [read_varint] accepts
    precisely the node's encodings of the numbers below 2^64, each of which has
    only one, and leaves the bytes after it. *)
Theorem read_varint_exact s n rest : read_varint s = Ok (n, rest) <-> 0 <= n <= u64_max /\ s = write_varint n ++ rest.
Proof.
  split; [|intros [Hn ->]; by apply read_write_varint]. intros Hr. by apply read_varint_loop_Ok in Hr.
Qed.

(** ** Entries of the block index *)

Definition write_opt (o : option Z) : bytes := from_option write_varint [] o.

(** The node's serialisation of an entry. *)
Definition index_serialize (i : CDiskBlockIndex) : bytes :=
  write_varint (bi_version i) ++ write_varint (bi_height i) ++ write_varint (bi_status i) ++ write_varint (tx_count i) ++
  write_opt (file_number i) ++ write_opt (data_pos i) ++ write_opt (undo_pos i) ++
  le_bytes 4 (block_version i) ++ bi_prev_block_hash i ++ bi_merkle_root i ++ le_bytes 4 (bi_timestamp i) ++
  le_bytes 4 (difficulty_target i) ++ le_bytes 4 (bi_nonce i).

Definition u32_range (z : Z) : Prop := 0 <= z < 2 ^ 32.
Definition u64_range (z : Z) : Prop := 0 <= z <= u64_max.

(** A field is there exactly if the status says so. *)
Definition present (c : bool) (o : option Z) : Prop := is_Some o <-> c = true.

Record index_wf (i : CDiskBlockIndex) : Prop := {
  iw_version : u64_range (bi_version i);
  iw_height : u64_range (bi_height i);
  iw_status : u32_range (bi_status i);
  iw_tx_count : u64_range (tx_count i);
  iw_file : present (has_data (bi_status i) || has_undo (bi_status i)) (file_number i) /\ forall n, file_number i = Some n -> u32_range n;
  iw_data : present (has_data (bi_status i)) (data_pos i) /\ forall n, data_pos i = Some n -> u64_range n;
  iw_undo : present (has_undo (bi_status i)) (undo_pos i) /\ forall n, undo_pos i = Some n -> u64_range n;
  iw_fields : Forall u32_range [block_version i; bi_timestamp i; difficulty_target i; bi_nonce i];
  iw_hashes : length (bi_prev_block_hash i) = 32%nat /\ length (bi_merkle_root i) = 32%nat }.

Lemma read_if_write c o s :
  present c o -> (forall n, o = Some n -> u64_range n) -> read_if c (write_opt o ++ s) = Ok (o, s).
Proof.
  intros Hp Hr. unfold read_if, write_opt. destruct o as [n|], c; cbn [from_option app].
  - rewrite read_write_varint; [done|by apply Hr].
  - by pose proof (proj1 Hp ltac:(by eexists)).
  - by destruct (proj2 Hp eq_refl).
  - done.
Qed.

Lemma read_n_app n a s : length a = n -> read_n n (a ++ s) = Ok (a, s).
Proof.
  intros <-. unfold read_n. rewrite length_app, bool_decide_eq_true_2 by lia. by rewrite take_app_length, drop_app_length.
Qed.

Lemma read_uint32_write z s : u32_range z -> read_uint32 (le_bytes 4 z ++ s) = Ok (z, s).
Proof.
  intros Hz. unfold read_uint32. rewrite read_n_app by apply length_le_bytes. cbn [mbind Res_bind].
  by rewrite le_val_bytes.
Qed.

Lemma index_roundtrip i : index_wf i -> index_deserialize (index_serialize i) = Ok i.
Proof.
  intros [Hv Hh Hs Ht [Hf Hf'] [Hd Hd'] [Hu Hu'] Hfs [Hl1 Hl2]]. unfold index_serialize, index_deserialize.
  rewrite !Forall_cons in Hfs. destruct Hfs as (F1 & F2 & F3 & F4 & _).
  assert (Es : to_u32 (bi_status i) = bi_status i) by (apply Z.mod_small, Hs).
  assert (Hs64 : u64_range (bi_status i)) by (unfold u64_range, u64_max, u32_range in *; lia).
  do 4 (rewrite read_write_varint by done; cbn [mbind Res_bind]). cbv zeta. rewrite Es.
  rewrite (read_if_write _ (file_number i)) by (done || (intros n Hn%Hf'; unfold u64_range, u64_max, u32_range in *; lia)). cbn [mbind Res_bind].
  rewrite (read_if_write _ (data_pos i)) by done. cbn [mbind Res_bind]. rewrite (read_if_write _ (undo_pos i)) by done. cbn [mbind Res_bind].
  rewrite read_uint32_write by done. cbn [mbind Res_bind]. unfold read_uint256.
  do 2 (rewrite read_n_app by done; cbn [mbind Res_bind]). do 2 (rewrite read_uint32_write by done; cbn [mbind Res_bind]). rewrite <- (app_nil_r (le_bytes 4 (bi_nonce i))), read_uint32_write by done. cbn [mbind Res_bind].
  assert (Ef : to_u32 <$> file_number i = file_number i).
  { destruct (file_number i) as [n|] eqn:E; [|done]. cbn. f_equal. apply Z.mod_small, (Hf' n eq_refl). }
  rewrite Ef. by destruct i.
Qed.

(** ** From the index to the blocks *)

Section Source.
Context `{HeaderCodec}.

(** The parser of a directory before any file is opened. *)
Definition dir_parser (dir : BlocksDir) (key : bytes) (network : Network) (magic : option bytes) : BlockDirectoryParser :=
  mkBlockDirectoryParser dir (if forallb (fun b => bool_decide (b = x00)) key then None else Some key) network magic 0 None.

Lemma opened_at p l1 l2 padding files :
  readable (dp_xor_key p) (dir_magic p) (l1 ++ l2) -> files_from p (file_index p + 1) files ->
  dir_at (set_current (Some (file_set_offset (position_after (dir_magic p) l1)
            (open_file p (block_file (dp_xor_key p) (dir_magic p) (l1 ++ l2) padding)))) p)
    (blocks_at (dir_magic p) (position_after (dir_magic p) l1) l2 ++ all_files (dir_magic p) files) files.
Proof.
  intros Hr Hf. pose (fp := block_file_parser_new (dp_xor_key p) [] (dp_network p) (dp_magic_override p)).
  pose proof (holds_at fp (dp_xor_key p) l1 l2 padding Hr) as Hh. eexists _, l2, padding. split_and!; [done|exact Hh|exact Hf|done].
Qed.

(** The items of a parser that has no file open yet. *)
Lemma dir_items_unopened fuel p f files :
  current_parser p = None -> files_from p (file_index p) (f :: files) -> (length (all_files (dir_magic p) (f :: files)) < fuel)%nat ->
  dir_items fuel p = Some (Ok <$> all_files (dir_magic p) (f :: files)).
Proof.
  intros Hc Hf Hl. pose proof (files_from_length _ _ _ Hf) as Hsz. cbn in Hsz.
  destruct (files_from_next _ _ _ _ Hf) as (Hfile & Hr & _ & Hf').
  pose proof (opened p f files Hr Hf') as Hop. set (rest := all_files _ _) in *. destruct fuel as [|fuel]; [lia|]. cbn [dir_items].
  assert (E : exists fuel', dir_fuel p = S fuel' /\ (2 * length files + 2 <= fuel')%nat) by (unfold dir_fuel; eexists; split; [by rewrite Nat.add_succ_r|lia]).
  destruct E as (fuel' & -> & Hfu). cbn [dir_next_block]. rewrite Hc, Hfile.
  destruct (dir_next_block_at fuel' _ rest files Hop Hfu) as (p' & -> & Hrest). destruct rest as [|b rest]; [done|]. cbn [head].
  destruct (Hrest ltac:(done)) as (files' & Hl' & Hd' & Ed). cbn [tail] in Hd'.
  rewrite (dir_items_at fuel p' rest files' Hd'); [done|rewrite Ed; cbn; lia|cbn in Hl; lia].
Qed.

(** Where the first missing block is: the genesis block at the start of the
    first file, any other where its entry in the index says. *)
Definition located (dir : BlocksDir) (genesis_hash first_missing : BlockHash) (n o : Z) : Prop :=
  (first_missing = genesis_hash /\ n = 0 /\ o = 0) \/
  (first_missing <> genesis_hash /\ exists i, index_get dir (x62 :: first_missing) = Some (index_serialize i) /\ index_wf i /\
     file_number i = Some n /\ data_pos i = Some (o + 8)).

(** C22. Synchronisation from the blocks directory sees the node's blocks: on a
    directory that the node wrote, the items that [sync_from_directory] takes
    from the parser are exactly the first missing block, the blocks after it in
    its file, and those of the following files up to the first number that does
    not exist, in the order in which they are stored. *)
Theorem blocks_dir_reads dir key network magic genesis_hash first_missing n l1 l2 padding files fuel :
  let p := set_file_number n (dir_parser dir key network magic) in
  xor_dat dir = Some key -> length key = 8%nat ->
  files_from p n ((l1 ++ l2, padding) :: files) ->
  located dir genesis_hash first_missing n (position_after (dir_magic p) l1) ->
  let blocks := blocks_at (dir_magic p) (position_after (dir_magic p) l1) l2 ++ all_files (dir_magic p) files in
  (length blocks < fuel)%nat ->
  blocks_source fuel dir network magic genesis_hash first_missing = Some (Ok ((fun b => Ok (parsed_block b)) <$> blocks)).
Proof.
  intros p Hx Hk Hf Hloc blocks Hfuel. unfold blocks_source, open_blocks_dir, block_directory_parser_new. rewrite Hx. cbn [ok_or mbind Res_bind].
  rewrite (bool_decide_eq_true_2 (length key = 8%nat)) by done. cbn [assert_or_panic mbind Res_bind map_err]. fold (dir_parser dir key network magic).
  enough (Hitems : match (if bool_decide (first_missing = genesis_hash) then Ok (dir_parser dir key network magic) else
      i ← map_err (fun _ => SE_BlockDir) (fetch_block_index (index_get dir) first_missing);
      n ← ok_or SE_BlockDir (file_number i); pos ← ok_or SE_BlockDir (adjusted_data_pos i);
      ok_or SE_BlockDir (dir_set_offset pos (set_file_number n (dir_parser dir key network magic)))) with
    | Ok parser => dir_items fuel parser = Some (Ok <$> blocks) | _ => False end).
  { revert Hitems. match goal with |- match ?x with _ => _ end -> _ => destruct x as [parser| |]; [|done..] end. intros ->. cbn [option_map]. do 2 f_equal. by rewrite <- list_fmap_compose. }
  destruct Hloc as [(-> & -> & Ho)|(Hne & i & Hg & Hwf & Hn & Hpos)].
  - rewrite bool_decide_eq_true_2 by done. assert (l1 = []) as ->.
    { destruct l1 as [|b l1]; [done|]. destruct (files_from_next _ _ _ _ Hf) as (_ & [Hm _] & _). unfold position_after in Ho.
      pose proof (length_store_blocks _ (b :: l1) Hm) as Hl. cbn [length] in Hl. lia. }
    exact (dir_items_unopened fuel p (l2, padding) files eq_refl Hf Hfuel).
  - rewrite bool_decide_eq_false_2 by done. unfold fetch_block_index. rewrite Hg. cbn [ok_or mbind Res_bind]. rewrite index_roundtrip by done.
    cbn [map_err mbind Res_bind]. rewrite Hn. cbn [ok_or mbind Res_bind]. unfold adjusted_data_pos. rewrite Hpos. cbn [mbind option_bind].
    replace (checked_sub _ 8) with (Some (position_after (dir_magic p) l1)) by (symmetry; apply checked_sub_Some; unfold position_after; lia).
    cbn [ok_or mbind Res_bind]. unfold dir_set_offset, get_or_init_parser. fold p. change (current_parser p) with (@None BlockFileParser). cbv iota beta.
    pose proof (files_from_length _ _ _ Hf) as Hsz. cbn in Hsz. destruct (files_from_next _ _ _ _ Hf) as (Hfile & Hr & _ & Hf').
    change (file_index p) with n. rewrite Hfile. cbn [fst snd mbind option_bind ok_or].
    eapply dir_items_at; [exact (opened_at p l1 l2 padding files Hr Hf')|cbn; lia|done].
Qed.

End Source.

(** ** Any file *)

Section AnyFile.
Context `{HeaderCodec}.

Lemma read_or_Ok e n r r' b :
  0 <= n -> read_or e n r = (r', Ok b) -> Z.of_nat (length b) = n /\ r' = advance (length b) r /\ (length b <= length (unread r))%nat.
Proof.
  intros Hn. unfold read_or, read_exact. fold (unread r). case_decide as Hd; cbn; [|done]. intros [= <- <-].
  rewrite length_xor_from in *. split_and!; [done|done|]. rewrite length_take. lia.
Qed.

Lemma read_or_no_panic e n r : (read_or e n r).2 <> Panic.
Proof. unfold read_or, read_exact. case_decide; done. Qed.

Lemma read_block_any o r :
  (read_block o r).2 <> Panic /\
  forall r' b, 0 <= xr_offset r -> read_block o r = (r', Ok b) -> Z.of_nat (length (fb_raw_tx_data b)) + 80 <= MAX_BLOCK_SERIALIZED_SIZE /\
    fb_offset b = o /\ r' = advance (84 + length (fb_raw_tx_data b)) r /\ (84 + length (fb_raw_tx_data b) <= length (unread r))%nat.
Proof.
  unfold read_block, mbind, ReadM_bind, rlift.
  pose proof (read_or_no_panic UintDecode 4 r) as P1. destruct (read_or UintDecode 4 r) as [r1 [sz| |]] eqn:E1; [|done..]. cbv zeta.
  apply read_or_Ok in E1 as (L1 & -> & U1); [|lia]. case_bool_decide as Hsz; [done|].
  pose proof (read_or_no_panic HeaderDecode 80 (advance (length sz) r)) as P2.
  destruct (read_or HeaderDecode 80 _) as [r2 [hb| |]] eqn:E2; [|done..]. apply read_or_Ok in E2 as (L2 & -> & U2); [|lia].
  destruct (header_consensus_decode hb) as [hd|]; cbn [ok_or]; [|done]. destruct (checked_sub (le_val sz) 80) as [n|] eqn:En; cbn [ok_or]; [|done].
  apply checked_sub_Some in En as [Hn ->]. set (r2 := advance (length hb) _) in *. pose proof (read_or_no_panic PB_Io (le_val sz - 80) r2) as P3.
  destruct (read_or PB_Io _ r2) as [r3 [tx| |]] eqn:E3; [|done..]. apply read_or_Ok in E3 as (L3 & -> & U3); [|lia].
  split; [done|]. intros r' b Ho [= <- <-]. cbn [fb_raw_tx_data fb_offset]. unfold r2 in *.
  rewrite !unread_advance, !length_drop in U3 by (cbn; lia). rewrite unread_advance, length_drop in U2 by done.
  split_and!; [lia|done| |lia]. unfold advance. cbn. f_equal. lia.
Qed.

(** Reading never panics, and a block that is read was in the file. *)
Lemma next_block_any p p' res :
  0 <= xr_offset (bp_reader p) -> next_block p = (p', res) -> res <> Panic /\ forall b, res = Ok (Some b) ->
    Z.of_nat (length (fb_raw_tx_data b)) + 80 <= MAX_BLOCK_SERIALIZED_SIZE /\ fb_offset b = xr_offset (bp_reader p) /\
    p' = moved (advance (88 + length (fb_raw_tx_data b)) (bp_reader p)) p /\
    (88 + length (fb_raw_tx_data b) <= length (unread (bp_reader p)))%nat.
Proof.
  intros Ho. unfold next_block, next_block_reader. destruct p as [r net mo]. cbn [bp_reader bp_network bp_magic_override] in *.
  unfold read_exact. fold (unread r). change (Z.to_nat 4) with 4%nat. case_decide as Hd; [|by intros [= <- <-]].
  set (magic := xor_from _ _ _). set (r1 := mkXorReader _ _ _). destruct (is_end_of_file _ _ _); [by intros [= <- <-]|].
  destruct (negb _); [by intros [= <- <-]|]. unfold mbind, ReadM_bind, mret, ReadM_ret.
  assert (Hl : length (take 4 (unread r)) = 4%nat) by lia. rewrite length_take in Hl.
  assert (Er1 : r1 = advance 4 r) by (unfold r1, advance; f_equal; lia).
  destruct (read_block_any (xr_offset r) r1) as [Hp Hb]. destruct (read_block (xr_offset r) r1) as [r2 [b| |]] eqn:E; intros [= <- <-]; [|done..].
  split; [done|]. intros b' [= <-]. destruct (Hb r2 b) as (Hmax & Hoff & -> & Hlen); [rewrite Er1; cbn; lia|done|]. rewrite Er1, unread_advance, length_drop in Hlen by done.
  split_and!; [done|done| |lia]. unfold moved. cbn. f_equal. rewrite Er1. unfold advance. cbn. f_equal. lia.
Qed.

Lemma all_blocks_loop_total fuel acc p :
  0 <= xr_offset (bp_reader p) -> (length (unread (bp_reader p)) < fuel)%nat -> exists p' r, all_blocks_loop fuel acc p = Some (p', r) /\ r <> Panic /\
    forall l, r = Ok l -> Forall (fun b => Z.of_nat (length (fb_raw_tx_data b)) + 80 <= MAX_BLOCK_SERIALIZED_SIZE) acc ->
      Forall (fun b => Z.of_nat (length (fb_raw_tx_data b)) + 80 <= MAX_BLOCK_SERIALIZED_SIZE) l.
Proof.
  revert acc p. induction fuel as [|fuel IH]; intros acc p Ho Hf; [lia|]. cbn [all_blocks_loop].
  destruct (next_block p) as [p' res] eqn:E. apply next_block_any in E as [Hp Hb]; [|done]. destruct res as [[b|]|e|]; [| | |done].
  - destruct (Hb b eq_refl) as (Hmax & _ & -> & Hlen). cbn [bp_reader moved] in *.
    destruct (IH (acc ++ [b]) (moved (advance (88 + length (fb_raw_tx_data b)) (bp_reader p)) p)) as (p' & r & Hr & Hpn & Hall).
    + cbn. lia.
    + cbn [bp_reader moved]. rewrite unread_advance, length_drop by done. lia.
    + exists p', r. split_and!; [done|done|]. intros l Hl Hacc. eapply Hall; [done|]. apply Forall_app. split; [done|]. by constructor.
  - exists p', (Ok acc). split_and!; [done|done|]. by intros l [= <-].
  - by exists p', (Err (length acc, e)).
Qed.

(** A corrupt block file cannot hurt the parser: on any contents, from any
    position, [all_blocks] ends without a panic, with an error or with blocks
    none of which is larger than the maximal size of a block. *)
Theorem block_file_parser_safe key file network magic_override o :
  0 <= o -> exists p r, all_blocks (file_set_offset o (block_file_parser_new key file network magic_override)) = Some (p, r) /\ r <> Panic /\
    forall l, r = Ok l -> Forall (fun b => Z.of_nat (length (fb_raw_tx_data b)) + 80 <= MAX_BLOCK_SERIALIZED_SIZE) l.
Proof.
  intros Ho. destruct (all_blocks_loop_total (S (length file)) [] (file_set_offset o (block_file_parser_new key file network magic_override))) as (p & r & Hr & Hp & Hl).
  - done.
  - cbn. unfold unread. cbn. rewrite length_drop. lia.
  - exists p, r. split_and!; [done|done|]. intros l E. apply (Hl l E). constructor.
Qed.

(** Block files of testnet4 cannot be read: without an override the parser
    expects the magic bytes of testnet3 for testnet4, so it fails on the first
    block of any file that a testnet4 node wrote. *)
Theorem testnet4_files_rejected key b l padding :
  visible key (bitcoin_magic Testnet4) 0 ->
  all_blocks (block_file_parser_new key (block_file key (bitcoin_magic Testnet4) (b :: l) padding) Testnet4 None)
  = Some (moved (advance 4 (mkXorReader (block_file key (bitcoin_magic Testnet4) (b :: l) padding) key 0)) (block_file_parser_new key [] Testnet4 None),
          Err (0%nat, InvalidMagic (bitcoin_magic Testnet4) TESTNET_MAGIC 0)).
Proof.
  intros Hvis. set (file := block_file _ _ _ _). unfold all_blocks. cbn [all_blocks_loop]. unfold next_block, next_block_reader. cbn [bp_reader block_file_parser_new].
  assert (Hu : exists rest, unread (mkXorReader file key 0) = xor_from key 0 (bitcoin_magic Testnet4) ++ rest).
  { unfold unread, file, block_file, store_blocks. cbn [xr_offset xr_file fmap list_fmap concat]. unfold store_block at 1.
    rewrite <- !app_assoc, xor_from_app, <- !app_assoc. by eexists. }
  destruct Hu as [rest Hu].
  apply read_exact_app in Hu. change (Z.of_nat (length (bitcoin_magic Testnet4))) with 4 in Hu. rewrite Hu. cbv beta iota zeta.
  change (xr_offset (advance _ _)) with (0 + 4). cbn [xr_key advance]. rewrite visible_not_end by done.
  rewrite bool_decide_eq_false_2 by (cbn; discriminate). done.
Qed.

End AnyFile.
