(* ===== verification/Headers.v ===== *)
(** * Synchronising headers with the node

    [sync_headers] ([lib/validator/task/mod.rs]) finds the highest block of the
    node's chain whose header is stored by a binary search over heights, and
    fetches the headers after it in batches: from Bitcoin Core's REST interface
    ([lib/validator/main_rest_client.rs]) when there is one, over RPC otherwise.
    [sync_to_tip] synchronises the headers and then the blocks. *)

From Stdlib Require Import Strings.Byte.
From stdpp Require Import base numbers list gmap.
From S2P Require Import Prelude OrderMap Bitcoin Types Messages M6 Dbs BlockHashes Treasury Diff Reversible Handlers ConnectBlock Enforcer Sync.
Open Scope Z_scope.

(** ** The node *)

(** Requests about headers; [None] is a failed request. Batched RPC requests
    return either every answer or an error. [rest_headers] is the REST client,
    if it is configured; the decoding of headers is rust-bitcoin's. *)
Class HeaderNode `{Bitcoin} (W : Type) := {
  getblockheader_height : W -> BlockHash -> W * option Z;
  getblockhash : W -> Z -> W * option BlockHash;
  getblockhash_batch : W -> list Z -> W * option (list BlockHash);
  getblockheader_batch : W -> list BlockHash -> W * option (list bytes);
  rest_headers : option (W -> BlockHash -> nat -> W * option bytes);
  deserialize_header_hex : bytes -> option Header;
  deserialize_header : bytes -> option Header }.

Definition checked_add_u32 (a b : Z) : option Z := if bool_decide (a + b <= u32_max) then Some (a + b) else None.

Lemma checked_add_u32_Some a b c : checked_add_u32 a b = Some c <-> a + b <= u32_max /\ c = a + b.
Proof. unfold checked_add_u32. case_bool_decide; naive_solver lia. Qed.

(** [u32::midpoint] *)
Definition midpoint (a b : Z) : Z := (a + b) / 2.

(** A header with its hash and height. *)
Abbreviation HeaderEntry := (Header * BlockHash * Z)%type.

(** ** Answers of the REST interface *)

Inductive MainRestClientError :=
| RestHttp
| InvalidBlockHash
| InvalidBlockHeadersLength (length : nat)
| BlockHeaderDecode (index : nat)
| BlockHeaderHeightOverflow (start_height : Z) (offset : nat).

Definition SERIALIZED_HEADER_LEN : nat := 80.

(** [bytes.chunks_exact(SERIALIZED_HEADER_LEN)], [n] chunks *)
Fixpoint chunks_exact (n : nat) (b : bytes) : list bytes :=
  match n with O => [] | S n => take SERIALIZED_HEADER_LEN b :: chunks_exact n (drop SERIALIZED_HEADER_LEN b) end.

Section Headers.
Context `{Bitcoin, Nom} {W : Type} `{!Node W, !HeaderNode W}.
Implicit Types (bh : BlockHandler) (s : Dbs).

(** The closure of [decode_block_headers]. *)
Definition decode_block_header (start_height : Z) (offset : nat) (chunk : bytes) : Res MainRestClientError HeaderEntry :=
  hd ← ok_or (BlockHeaderDecode offset) (deserialize_header chunk);
  _ ← ok_or (BlockHeaderHeightOverflow start_height offset)
        (if bool_decide (Z.of_nat offset <= u32_max) then Some tt else None);
  h ← ok_or (BlockHeaderHeightOverflow start_height offset) (checked_add_u32 start_height (Z.of_nat offset));
  Ok (hd, block_hash hd, h).

Definition decode_block_headers (b : bytes) (start_height : Z) : Res MainRestClientError (list HeaderEntry) :=
  if decide (length b mod SERIALIZED_HEADER_LEN = 0)%nat then
    foldM (fun acc '(offset, chunk) => e ← decode_block_header start_height offset chunk; Ok (acc ++ [e]))
      (imap pair (chunks_exact (length b / SERIALIZED_HEADER_LEN) b)) []
  else Err (InvalidBlockHeadersLength (length b)).

(** What [get_block_headers] does with the body of a response. *)
Definition check_rest_headers (hash : BlockHash) (start_height : Z) (body : bytes) : Res MainRestClientError (list HeaderEntry) :=
  headers ← decode_block_headers body start_height;
  match headers with
  | (_, returned_hash, _) :: _ => if decide (returned_hash = hash) then Ok headers else Err InvalidBlockHash
  | [] => Ok []
  end.

Definition get_block_headers (request : W -> BlockHash -> nat -> W * option bytes) (hash : BlockHash) (start_height : Z)
    (descendants : nat) : SyncM (SyncState W) (list HeaderEntry) :=
  body ← ask SE_Rest (fun w => request w hash descendants);
  slift (map_err (fun _ => SE_Rest) (check_rest_headers hash start_height body)).

(** ** Answers of the RPC interface *)

(** The loop of [validate_rpc_header_batch]. *)
Fixpoint validate_headers (start_height : Z) (offset : Z) (previous : option BlockHash) (l : list (BlockHash * bytes))
    (validated : list HeaderEntry) : Res SyncError (list HeaderEntry) :=
  match l with
  | [] => Ok validated
  | (hash, raw) :: l =>
      _ ← assert_or_panic (bool_decide (offset <= u32_max));
      expected_height ← unwrap (checked_add_u32 start_height offset);
      hd ← ok_or SE_Decode (deserialize_header_hex raw);
      if negb (bool_decide (block_hash hd = hash))
         || match previous with Some p => negb (bool_decide (prev_blockhash hd = p)) | None => false end
      then Err (BlockNotInActiveChain hash)
      else validate_headers start_height (offset + 1) (Some hash) l (validated ++ [(hd, hash, expected_height)])
  end.

Definition validate_rpc_header_batch (start_block_hash : BlockHash) (start_height : Z) (block_hashes : list BlockHash)
    (raw_headers : list bytes) : Res SyncError (list HeaderEntry) :=
  if decide (head block_hashes = Some start_block_hash)
  then validate_headers start_height 0 None (zip block_hashes raw_headers) []
  else Err (BlockNotInActiveChain start_block_hash).

(** The heights [start_height .. start_height + n], a panic on overflow. *)
Fixpoint batch_heights (n : nat) (start_height offset : Z) : Res SyncError (list Z) :=
  match n with
  | O => Ok []
  | S n => h ← unwrap (checked_add_u32 start_height offset); l ← batch_heights n start_height (offset + 1); Ok (h :: l)
  end.

Definition fetch_rpc_headers (hash : BlockHash) (start_height : Z) (n : nat) : SyncM (SyncState W) (list HeaderEntry) :=
  heights ← slift (batch_heights n start_height 0);
  block_hashes ← ask SE_JsonRpc (fun w => getblockhash_batch w heights);
  raw_headers ← ask SE_JsonRpc (fun w => getblockheader_batch w block_hashes);
  slift (validate_rpc_header_batch hash start_height block_hashes raw_headers).

(** ** The best known ancestor *)

(** The search loop: [best] is known, [oldest_missing] is not. *)
Fixpoint best_ancestor_loop (fuel : nat) (best : option (BlockHash * Z)) (oldest_missing : Z)
    : SyncM (SyncState W) (option (BlockHash * Z)) :=
  match fuel with
  | O => sout_of_fuel
  | S fuel =>
      let best_height := snd <$> best in
      let mid := midpoint oldest_missing (default 0 best_height) in
      if decide (Some mid = best_height \/ mid = oldest_missing) then sret best else
      mid_hash ← ask SE_JsonRpc (fun w => getblockhash w mid);
      st ← sget;
      if contains_header (block_hashes (sy_dbs st)) mid_hash
      then best_ancestor_loop fuel (Some (mid_hash, mid)) oldest_missing
      else best_ancestor_loop fuel best mid
  end.

(** Every round narrows the range of heights, so their number is enough. *)
Definition fetch_best_ancestor (node_tip : BlockHash) (node_tip_height : Z) : SyncM (SyncState W) (option (BlockHash * Z)) :=
  if decide (node_tip = all_zeros) then sret None else
  st ← sget;
  if contains_header (block_hashes (sy_dbs st)) node_tip then sret (Some (node_tip, node_tip_height))
  else best_ancestor_loop (S (S (Z.to_nat node_tip_height))) None node_tip_height.

(** ** The header sync *)

Definition HEADER_FETCH_BATCH_SIZE : nat := Z.to_nat 2000.

(** [put_headers] in a transaction of its own. *)
Definition store_headers (headers : list HeaderEntry) : SyncM (SyncState W) unit :=
  st ← sget;
  b ← slift (map_err SE_Db (put_headers (block_hashes (sy_dbs st)) ((fun '(hd, _, h) => (hd, h)) <$> headers)));
  commit (set_block_hashes (sy_dbs st) b) [].

Fixpoint header_loop (fuel : nat) (main_tip : BlockHash) (main_tip_height : Z) (current_block_hash : BlockHash)
    (current_height : Z) : SyncM (SyncState W) unit :=
  match fuel with
  | O => sout_of_fuel
  | S fuel =>
      cancelled ← ask_bool is_cancelled;
      if cancelled : bool then slift (Err Shutdown) else
      new_headers ← slift (unwrap (checked_sub main_tip_height current_height));
      headers_needed ← slift (unwrap (checked_add_u32 new_headers 1));
      let n := Nat.min HEADER_FETCH_BATCH_SIZE (Z.to_nat headers_needed) in
      headers ← match rest_headers with
                | Some client => get_block_headers client current_block_hash current_height n
                | None => fetch_rpc_headers current_block_hash current_height n
                end;
      match last headers with
      | None => slift (Err (BlockNotInActiveChain current_block_hash))
      | Some (_, last_block_hash, last_block_height) =>
          _ ← store_headers headers;
          if decide (last_block_hash = main_tip) then sret tt
          else if decide (last_block_height = main_tip_height) then slift (Err (BlockNotInActiveChain main_tip))
          else header_loop fuel main_tip main_tip_height last_block_hash last_block_height
      end
  end.

Definition sync_headers (fuel : nat) (main_tip : BlockHash) : SyncM (SyncState W) unit :=
  if decide (main_tip = all_zeros) then sret tt else
  main_tip_height ← ask SE_JsonRpc (fun w => getblockheader_height w main_tip);
  best_ancestor ← fetch_best_ancestor main_tip main_tip_height;
  match best_ancestor with
  | Some (ancestor, h) =>
      if decide (ancestor = main_tip) then sret tt else
      _ ← slift (unwrap (checked_sub main_tip_height h));
      header_loop fuel main_tip main_tip_height ancestor h
  | None =>
      genesis_block_hash ← ask SE_JsonRpc (fun w => getblockhash w 0);
      _ ← slift (unwrap (checked_add_u32 main_tip_height 1));
      header_loop fuel main_tip main_tip_height genesis_block_hash 0
  end.

(** [BlockHandler::sync_to_tip] *)
Definition sync_to_tip bh (fuel : nat)
    (main_blocks_dir : option (BlockHash -> Res SyncError (list (Res SyncError ParsedBlock)))) (main_tip : BlockHash)
    : SyncM (SyncState W) (option InvalidBlock) :=
  _ ← sync_headers fuel main_tip;
  sync_blocks bh fuel main_blocks_dir main_tip.

End Headers.
