(* ===== verification/HeaderProofs.v ===== *)
(** * Header synchronisation

    The headers stored are always those of the node's block tree, at their
    heights; a successful synchronisation has stored the header of the tip, and
    with the blocks it ends at the tip. *)

From Stdlib Require Import Strings.Byte.
From stdpp Require Import base numbers list gmap.
From S2P Require Import Prelude OrderMap Bitcoin Types Messages M6 Dbs BlockHashes Treasury Diff Reversible Handlers HandlerProofs ConnectBlock ConnectProofs Reorg Enforcer EnforcerProofs Sync SyncProofs SyncTermination Headers.
Open Scope Z_scope.

Section HeaderProofs.
Context `{Bitcoin, !BitcoinLaws, Nom, !NomLaws} {W : Type} `{!Node W, !HeaderNode W}.
Implicit Types (bh : BlockHandler) (b : BlockHashDbs) (st : SyncState W).

(** ** The block tree *)

(** The blocks there are, each with its header and its height. *)
Record block_tree (tree : gmap BlockHash (Header * Z)) : Prop := {
  bt_hash x hd k : tree !! x = Some (hd, k) -> block_hash hd = x /\ x <> all_zeros /\ 0 <= k;
  bt_parent x hd k : tree !! x = Some (hd, k) ->
    if decide (prev_blockhash hd = all_zeros) then k = 0 else exists hp, tree !! prev_blockhash hd = Some (hp, k - 1) }.

Variable tree : gmap BlockHash (Header * Z).
Hypothesis Htree : block_tree tree.

Record in_tree b : Prop := {
  it_inv : header_inv b;
  it_sub x hd : headers b !! x = Some hd -> exists k, tree !! x = Some (hd, k) /\ height b !! x = Some k }.

Lemma in_tree_ext b b' : headers b' = headers b -> height b' = height b -> in_tree b -> in_tree b'.
Proof. intros Eh Ek [Hi Hs]. split; [by eapply header_inv_ext|]. intros x hd. rewrite Eh, Ek. apply Hs. Qed.

Lemma tree_genesis x hd : tree !! x = Some (hd, 0) -> prev_blockhash hd = all_zeros.
Proof.
  intros Hx. pose proof (bt_parent _ Htree _ _ _ Hx) as Hp. case_decide; [done|]. destruct Hp as [hp Hp].
  destruct (bt_hash _ Htree _ _ _ Hp) as (_ & _ & ?). lia.
Qed.

(** Storing a header again changes nothing. *)
Lemma put_header_known b hd k :
  chain_wf b -> headers b !! block_hash hd = Some hd -> height b !! block_hash hd = Some k -> put_header b (hd, k) = Ok b.
Proof.
  intros Hwf Eh Hk. destruct (cw_height _ Hwf _ _ Eh) as (k' & Hk' & _ & Hpar). rewrite Hk in Hk'. injection Hk' as <-.
  unfold put_header. rewrite (insert_id _ _ _ Eh), (insert_id _ _ _ Hk). case_decide; [by destruct b|]. destruct Hpar as [[hp Hp] Hpar].
  destruct (cw_height _ Hwf _ _ Hp) as (j & Hj & ? & _). rewrite Hpar in Hj. injection Hj as <-.
  rewrite (proj2 (checked_sub_Some k 1 (k - 1))) by lia. cbn. rewrite (insert_id _ _ _ Hpar). by destruct b.
Qed.

(** Storing a header of the tree whose parent is stored. *)
Lemma put_header_in_tree b hd k b' :
  in_tree b -> tree !! block_hash hd = Some (hd, k) -> prev_blockhash hd = all_zeros \/ is_Some (headers b !! prev_blockhash hd) ->
  put_header b (hd, k) = Ok b' ->
  in_tree b' /\ headers b' !! block_hash hd = Some hd /\ forall x, is_Some (headers b !! x) -> agree_at x b' b.
Proof.
  intros [Hi Hs] Ht Hp Hput. destruct (bt_hash _ Htree _ _ _ Ht) as (_ & Hnz & Hk0). pose proof (bt_parent _ Htree _ _ _ Ht) as Htp.
  destruct (headers b !! block_hash hd) as [hd'|] eqn:Eh.
  - destruct (Hs _ _ Eh) as (k' & Ht' & Hk). rewrite Ht in Ht'. injection Ht' as <- <-.
    rewrite (put_header_known b hd k (hi_wf _ Hi) Eh Hk) in Hput. injection Hput as <-.
    split_and!; [by split|done|by intros; apply agree_at_refl].
  - assert (Hput' : put_headers b [(hd, k)] = Ok b') by (cbn [put_headers foldM]; by rewrite Hput).
    assert (Hparent : if decide (prev_blockhash hd = all_zeros) then k = 0 else height b !! prev_blockhash hd = Some (k - 1)).
    { case_decide as Hz; [done|]. destruct Hp as [|[hp Hp]]; [done|]. destruct Htp as [hp' Htp]. destruct (Hs _ _ Hp) as (j & Hj & ->).
      rewrite Htp in Hj. by injection Hj as _ ->. }
    destruct (put_header_inv b hd k b' Hi Hnz Eh Hparent Hput') as (Hi' & Hst & _ & Hag). split_and!; [split; [done|]|done..].
    destruct (put_header_tree b hd k b' (hi_wf _ Hi) Hnz Eh) as (_ & Eh' & Ek' & _); [|done|].
    { case_decide as Hz; [done|]. destruct Hp as [|Hp]; [done|]. split_and!; [done..|]. destruct Htp as [hp' Htp]. by apply (bt_hash _ Htree) in Htp as (_ & _ & ?). }
    intros x hx. rewrite Eh', Ek'. intros [[<- <-]|[Hne Hx]]%lookup_insert_Some; [exists k; by rewrite lookup_insert_eq|].
    rewrite lookup_insert_ne by done. by apply Hs.
Qed.

(** ** Segments of the chain *)

(** Headers of the tree, each with the one before as its parent. *)
Fixpoint segment_of (prev : option BlockHash) (hds : list Header) : Prop :=
  match hds with
  | [] => True
  | hd :: hds => (exists k, tree !! block_hash hd = Some (hd, k)) /\ (forall p, prev = Some p -> prev_blockhash hd = p) /\
                 segment_of (Some (block_hash hd)) hds
  end.

Fixpoint entries (k : Z) (hds : list Header) : list HeaderEntry :=
  match hds with [] => [] | hd :: hds => (hd, block_hash hd, k) :: entries (k + 1) hds end.

Lemma entries_snoc k hds hd : entries k (hds ++ [hd]) = entries k hds ++ [(hd, block_hash hd, k + Z.of_nat (length hds))].
Proof.
  revert k. induction hds as [|x hds IH]; intros k; cbn [entries app length]; [by rewrite Z.add_0_r|]. rewrite IH. cbn [app]. do 4 f_equal. lia.
Qed.

(** Storing a segment that starts at a stored block, or at a block without a
    parent, with its heights. *)
Lemma put_segment prev hds b k b' :
  in_tree b -> segment_of prev hds -> (forall p, prev = Some p -> exists hp, tree !! p = Some (hp, k - 1) /\ is_Some (headers b !! p)) ->
  (prev = None -> forall hd, head hds = Some hd -> tree !! block_hash hd = Some (hd, k) /\ (is_Some (headers b !! block_hash hd) \/ k = 0)) ->
  put_headers b ((fun '(hd, _, h) => (hd, h)) <$> entries k hds) = Ok b' ->
  in_tree b' /\ (forall x, is_Some (headers b !! x) -> agree_at x b' b) /\
  forall i hd, hds !! i = Some hd -> headers b' !! block_hash hd = Some hd /\ tree !! block_hash hd = Some (hd, k + Z.of_nat i).
Proof.
  revert prev b k. induction hds as [|hd hds IH]; intros prev b k Hb Hseg Hprev Hfirst Hput; cbn in Hput.
  { injection Hput as <-. split_and!; [done|by intros; apply agree_at_refl|done]. }
  apply bind_Ok in Hput as (b1 & Hput1 & Hput). destruct Hseg as ((k' & Hk') & Hpp & Hseg).
  assert (Hat : tree !! block_hash hd = Some (hd, k) /\ (prev_blockhash hd = all_zeros \/ is_Some (headers b !! prev_blockhash hd))).
  { destruct prev as [p|].
    - destruct (Hprev p eq_refl) as (hp & Hp & Hst). pose proof (Hpp p eq_refl) as E. split; [|right; by rewrite E].
      rewrite Hk'. do 2 f_equal. pose proof (bt_parent _ Htree _ _ _ Hk') as Hpar. destruct (bt_hash _ Htree _ _ _ Hp) as (_ & Hnz & _).
      rewrite E, decide_False in Hpar by done. destruct Hpar as [hp' Hpar]. rewrite Hp in Hpar. injection Hpar as _ Hpar. lia.
    - destruct (Hfirst eq_refl hd eq_refl) as (Ht & Hor). split; [done|]. destruct Hor as [[hx Hx]| ->]; [|left; by eapply tree_genesis].
      destruct (it_sub _ Hb _ _ Hx) as (j & Hj & _). rewrite Ht in Hj. injection Hj as <- <-.
      destruct (cw_height _ (hi_wf _ (it_inv _ Hb)) _ _ Hx) as (j & _ & _ & Hpar). case_decide; [by left|right; apply Hpar]. }
  destruct Hat as [Ht Hor]. destruct (put_header_in_tree _ _ _ _ Hb Ht Hor Hput1) as (Hb1 & Hst1 & Hag1).
  destruct (IH (Some (block_hash hd)) b1 (k + 1) Hb1 Hseg) as (Hb' & Hag & Hall); [|done|done|].
  { intros p [= <-]. exists hd. replace (k + 1 - 1) with k by lia. split; [done|by eexists]. }
  split_and!; [done| |].
  - intros x Hx. eapply agree_at_trans; [apply Hag|by apply Hag1]. destruct (Hag1 x Hx) as (_ & -> & _). done.
  - intros [|i] hx Hx; cbn in Hx.
    + injection Hx as <-. rewrite Z.add_0_r. split; [|done]. destruct (Hag (block_hash hd)) as (_ & -> & _); [by eexists|done].
    + destruct (Hall i hx Hx) as [? ->]. split; [done|]. do 2 f_equal. lia.
Qed.

(** ** What the node returns *)

(** The node answers from the tree: a block at a height has this height, and a
    header it sends is one of the tree's. The REST interface returns the headers
    of consecutive blocks; the RPC answers are checked for this. *)
Record serves_tree : Prop := {
  sv_hash w k w' h : getblockhash w k = (w', Some h) -> exists hd, tree !! h = Some (hd, k);
  sv_headers w hs w' raws : getblockheader_batch w hs = (w', Some raws) ->
    Forall (fun r => forall hd, deserialize_header_hex r = Some hd -> exists k, tree !! block_hash hd = Some (hd, k)) raws;
  sv_rest client w h n w' body k es : rest_headers = Some client -> client w h n = (w', Some body) ->
    decode_block_headers body k = Ok es -> segment_of None (es.*1).*1 }.

Lemma validate_segment start off prev l acc es :
  Forall (fun e => forall hd, deserialize_header_hex e.2 = Some hd -> exists k, tree !! block_hash hd = Some (hd, k)) l ->
  validate_headers start off prev l acc = Ok es ->
  exists hds, es = acc ++ entries (start + off) hds /\ segment_of prev hds /\ (block_hash <$> hds) = l.*1.
Proof.
  revert off prev acc. induction l as [|[h r] l IH]; intros off prev acc Hall Hv; cbn [validate_headers] in Hv.
  { injection Hv as <-. exists []. by rewrite app_nil_r. }
  apply Forall_cons in Hall as [Hhd Hall]. apply bind_Ok in Hv as ([] & _ & Hv). apply bind_Ok in Hv as (k & Hk & Hv).
  apply bind_Ok in Hv as (hd & Hd & Hv). apply ok_or_Ok in Hd. apply unwrap_Ok, checked_add_u32_Some in Hk as [_ ->].
  case_bool_decide as Eh; [|done]. cbn [negb orb] in Hv.
  destruct (match prev with Some p => _ | None => false end) eqn:Ep; [done|].
  destruct (IH _ _ _ Hall Hv) as (hds & -> & Hseg & Hh). exists (hd :: hds). cbn [entries segment_of fmap list_fmap]. rewrite Eh.
  replace (start + (off + 1)) with (start + off + 1) by lia. rewrite <- app_assoc. split_and!; [done| | |done|cbn; by f_equal].
  - rewrite <- Eh. by apply Hhd.
  - intros p ->. by case_bool_decide.
Qed.

Lemma decode_entries k n chunks acc es :
  foldM (fun acc '(offset, chunk) => e ← decode_block_header k offset chunk; Ok (acc ++ [e])) (imap (fun i => pair (n + i)%nat) chunks) acc = Ok es ->
  exists hds, es = acc ++ entries (k + Z.of_nat n) hds.
Proof.
  revert n acc. induction chunks as [|c chunks IH]; intros n acc Hf; cbn in Hf.
  { injection Hf as <-. exists []. by rewrite app_nil_r. }
  apply bind_Ok in Hf as (acc1 & He & Hf). apply bind_Ok in He as ([[hd h] k1] & Hd & [= <-]).
  unfold decode_block_header in Hd. apply bind_Ok in Hd as (hd' & _ & Hd). apply bind_Ok in Hd as ([] & _ & Hd).
  apply bind_Ok in Hd as (k' & Hk & [= -> <- ->]). apply ok_or_Ok, checked_add_u32_Some in Hk as [_ ->]. rewrite Nat.add_0_r in *.
  destruct (IH (S n) (acc ++ [(hd, block_hash hd, k + Z.of_nat n)])) as (hds & ->).
  { rewrite <- Hf. f_equal. apply imap_ext. intros i x _. cbn. by rewrite Nat.add_succ_r. }
  exists (hd :: hds). cbn [entries]. rewrite <- app_assoc. by replace (k + Z.of_nat (S n)) with (k + Z.of_nat n + 1) by lia.
Qed.

Lemma decode_block_headers_entries body k es : decode_block_headers body k = Ok es -> exists hds, es = entries k hds.
Proof.
  unfold decode_block_headers. case_decide; [|done]. intros Hf. destruct (decode_entries k 0 _ [] es Hf) as (hds & ->).
  exists hds. by rewrite Z.add_0_r.
Qed.

Lemma entries_headers k hds : (entries k hds).*1.*1 = hds.
Proof. revert k. induction hds as [|hd hds IH]; intros k; cbn; [done|]. by rewrite IH. Qed.

(** A predicate on the tables and events only. *)
Definition of_tables (P : SyncState W -> Prop) : Prop :=
  forall st st', sy_dbs st' = sy_dbs st -> sy_events st' = sy_events st -> P st -> P st'.

Lemma triple_ask {A} P e (f : W -> W * option A) (R : A -> Prop) :
  of_tables P -> (forall w w' a, f w = (w', Some a) -> R a) -> triple P (ask e f) (fun a st => P st /\ R a) P.
Proof.
  intros HP HR st Hst. unfold ask. destruct (f (sy_world st)) as [w [a|]] eqn:Ef; cbn; [split; [|by eapply HR]|]; by apply (HP st).
Qed.

Lemma triple_ask_bool P (f : W -> W * bool) : of_tables P -> triple P (ask_bool f) (fun _ => P) P.
Proof. intros HP st Hst. unfold ask_bool. destruct (f (sy_world st)) as [w a]. by apply (HP st). Qed.

(** The next batch, from either interface. *)
Definition batch_from (cur : BlockHash) (k : Z) (es : list HeaderEntry) : Prop :=
  exists hds, es = entries k hds /\ segment_of None hds /\ forall hd, head hds = Some hd -> block_hash hd = cur.

Lemma get_block_headers_batch P client cur k n :
  of_tables P -> serves_tree -> rest_headers = Some client ->
  triple P (get_block_headers client cur k n) (fun es st => P st /\ batch_from cur k es) P.
Proof.
  intros HP Hsv Hr. eapply triple_bind.
  { apply triple_ask; [done|]. intros w w' body Hb. exact (fun es He => sv_rest Hsv _ _ _ _ _ _ k es Hr Hb He). }
  intros body. apply triple_lift; [|by intros ? []]. intros st es [Hst Hseg] He. apply map_err_Ok in He. split; [done|].
  unfold check_rest_headers in He. apply bind_Ok in He as (es' & Hd & He). specialize (Hseg es' Hd).
  destruct (decode_block_headers_entries _ _ _ Hd) as (hds & ->). rewrite entries_headers in Hseg. exists hds.
  destruct hds as [|hd hds]; cbn in He; [by injection He as <-|]. case_decide as Hcur; [|done]. injection He as <-.
  split_and!; [done..|]. by intros ? [= <-].
Qed.

Lemma fetch_rpc_headers_batch P cur k n :
  of_tables P -> serves_tree -> triple P (fetch_rpc_headers cur k n) (fun es st => P st /\ batch_from cur k es) P.
Proof.
  intros HP Hsv. eapply (triple_bind _ _ _ (fun _ => P)); [by apply triple_lift|]. intros heights.
  eapply (triple_bind _ _ _ (fun _ => P)); [eapply triple_weaken; [by apply (triple_ask _ _ _ (fun _ => True))|done|by intros ?? []]|].
  intros hashes. eapply triple_bind; [apply triple_ask; [done|]; intros w w' raws Hb; exact (sv_headers Hsv _ _ _ _ Hb)|].
  intros raws. apply triple_lift; [|by intros ? []]. intros st es [Hst Hraws] He. split; [done|].
  unfold validate_rpc_header_batch in He. case_decide as Hcur; [|done].
  destruct (validate_segment k 0 None (zip hashes raws) [] es) as (hds & -> & Hseg & Hh); [|done|].
  { clear -Hraws. revert raws Hraws. induction hashes as [|h hashes IH]; intros [|r raws] Hraws; cbn; try constructor.
    - by apply Forall_cons in Hraws as [? _].
    - apply IH. by apply Forall_cons in Hraws as [_ ?]. }
  exists hds. rewrite Z.add_0_r. split_and!; [done..|]. intros hd Hhd. destruct hds as [|hd' hds]; [done|]. injection Hhd as ->.
  destruct hashes as [|h hashes], raws as [|r raws]; try done. injection Hcur as ->. by injection Hh.
Qed.

(** ** The loops *)

Section Loops.
Variable bh : BlockHandler.
Hypothesis Hsv : serves_tree.

(** The tables are those of a chain that the events lead to, and their headers
    are the tree's. *)
Definition ready st : Prop :=
  (exists bs, hist bh (sy_dbs st) bs /\ followed (sy_events st) = hash_of <$> bs) /\ in_tree (block_hashes (sy_dbs st)).

Definition anchored (cur : BlockHash) (k : Z) st : Prop :=
  (exists hd, tree !! cur = Some (hd, k)) /\ (is_Some (headers (block_hashes (sy_dbs st)) !! cur) \/ k = 0).

Lemma ready_tables P : (forall st st', sy_dbs st' = sy_dbs st -> P st -> P st') -> of_tables (fun st => ready st /\ P st).
Proof. intros HP st st' E1 E2 [[Hc Hi] Hp]. split; [|by eapply HP]. unfold ready. by rewrite E1, E2. Qed.

Lemma store_batch cur k es :
  triple (fun st => (ready st /\ anchored cur k st) /\ batch_from cur k es) (store_headers es)
    (fun _ st => ready st /\ forall hd h j, last es = Some (hd, h, j) -> anchored h j st /\ is_Some (headers (block_hashes (sy_dbs st)) !! h))
    ready.
Proof.
  intros st [[[[bs [Hh He]] Hi] [[hc Hc] Ha]] (hds & -> & Hseg & Hcur)]. unfold store_headers, mbind, SyncM_bind, sbind, sget, slift, commit.
  destruct (put_headers _ _) as [b'|e|] eqn:Ep; cbn [map_err]; [|split; [by exists bs|done]..].
  destruct (put_segment None hds _ k b' Hi Hseg) as (Hi' & Hag & Hall); [done| |done|].
  { intros _ hd Hhd. rewrite (Hcur hd Hhd). assert (E : hc = hd); [|by rewrite <- E].
    destruct hds as [|hd' hds]; [done|]. injection Hhd as ->. destruct Hseg as [[j Hj] _]. rewrite (Hcur hd eq_refl), Hc in Hj. by injection Hj. }
  cbn [sy_dbs sy_events]. rewrite app_nil_r. split.
  - split; [|done]. exists bs. split; [|done]. eapply hist_ext; [done|done|]. intros c Hin. apply list_elem_of_lookup in Hin as [i Hi0].
    apply Hag. destruct (hist_stored _ _ _ _ _ Hh Hi0) as (Hc0 & _). by eexists.
  - intros hd h j Hl. destruct hds as [|hd' hds] using rev_ind; [done|]. rewrite entries_snoc, last_snoc in Hl. injection Hl as <- <- <-.
    destruct (Hall (length hds) hd') as [Hst Ht]; [by rewrite lookup_app_r, Nat.sub_diag by lia|].
    split; [split; [by eexists|left; by eexists]|by eexists].
Qed.

Lemma header_loop_ready fuel main_tip tip_height cur k :
  triple (fun st => ready st /\ anchored cur k st) (header_loop fuel main_tip tip_height cur k)
    (fun _ st => ready st /\ is_Some (headers (block_hashes (sy_dbs st)) !! main_tip)) ready.
Proof.
  revert cur k. induction fuel as [|fuel IH]; intros cur k; cbn [header_loop]; [by intros st [? _]|].
  set (P := fun st => ready st /\ anchored cur k st).
  assert (HP : of_tables P) by (apply ready_tables; unfold anchored; by intros st st' ->).
  assert (Hr : forall st, P st -> ready st) by by intros st [].
  eapply triple_bind; [eapply triple_fail; [by apply triple_ask_bool|done]|]. intros [|]; [by apply triple_lift|].
  do 2 (eapply (triple_bind _ _ _ (fun _ => P)); [by apply triple_lift|]; intros ?).
  eapply (triple_bind _ _ _ (fun es st => P st /\ batch_from cur k es)).
  { eapply triple_fail; [|exact Hr]. destruct rest_headers as [client|] eqn:Er;
      [by apply get_block_headers_batch|by apply fetch_rpc_headers_batch]. }
  intros es. destruct (last es) as [[[hd h] j]|] eqn:El; [|apply triple_lift; [done|by intros st [[] _]]].
  eapply triple_bind; [apply store_batch|]. intros []. rewrite El.
  case_decide as Ht; [subst; apply triple_ret; intros st [Hst Hl]; split; [done|by eapply (Hl _ _ _ eq_refl)]|].
  case_decide; [apply triple_lift; [done|by intros st []]|]. eapply triple_weaken; [apply IH| |done].
  intros st [Hst Hl]. split; [done|by eapply (Hl _ _ _ eq_refl)].
Qed.

(** A stored block of the tree at its height. *)
Definition known (h : BlockHash) (k : Z) st : Prop :=
  (exists hd, tree !! h = Some (hd, k)) /\ is_Some (headers (block_hashes (sy_dbs st)) !! h).

Lemma best_ancestor_ready fuel best oldest :
  triple (fun st => ready st /\ forall h k, best = Some (h, k) -> known h k st) (best_ancestor_loop fuel best oldest)
    (fun r st => ready st /\ forall h k, r = Some (h, k) -> known h k st) ready.
Proof.
  revert best oldest. induction fuel as [|fuel IH]; intros best oldest; cbn [best_ancestor_loop]; [by intros st [? _]|].
  case_decide; [by apply triple_ret|]. set (P := fun st => ready st /\ _).
  assert (HP : of_tables P) by (apply ready_tables; unfold known; by intros st st' ->).
  eapply triple_bind; [eapply triple_fail; [apply triple_ask; [done|]; intros w w' h Hh; exact (sv_hash Hsv _ _ _ _ Hh)|by intros st []]|].
  intros h. eapply triple_bind; [apply triple_get|]. intros st0. destruct (contains_header _ _) eqn:Ec.
  - eapply triple_weaken; [apply IH| |done]. intros st [[[Hst _] Ht] <-]. split; [done|]. intros ? ? [= <- <-].
    split; [done|]. by apply contains_key_true in Ec.
  - eapply triple_weaken; [apply IH| |done]. by intros st [[Hst _] _].
Qed.

(** After the header sync the tip is stored. *)
Lemma sync_headers_ready fuel main_tip :
  main_tip <> all_zeros ->
  triple ready (sync_headers fuel main_tip) (fun _ st => ready st /\ is_Some (headers (block_hashes (sy_dbs st)) !! main_tip)) ready.
Proof.
  intros Hz. unfold sync_headers. rewrite decide_False by done.
  assert (HP : of_tables ready) by (intros st st' E1 E2; unfold ready; by rewrite E1, E2).
  eapply (triple_bind _ _ _ (fun _ => ready)).
  { eapply triple_weaken; [by apply (triple_ask _ _ _ (fun _ => True))|done|by intros ?? []]. }
  intros tip_height. eapply (triple_bind _ _ _ (fun r st => ready st /\ forall h k, r = Some (h, k) -> 
    (h = main_tip /\ is_Some (headers (block_hashes (sy_dbs st)) !! main_tip)) \/ known h k st)).
  { unfold fetch_best_ancestor. rewrite decide_False by done. eapply triple_bind; [apply triple_get|]. intros st0.
    destruct (contains_header _ _) eqn:Ec.
    - apply triple_ret. intros st [Hst <-]. split; [done|]. intros ? ? [= <- <-]. left. split; [done|]. by apply contains_key_true in Ec.
    - eapply triple_weaken; [apply best_ancestor_ready|by intros st [? _]|]. intros r st [Hst Hr]. split; [done|]. intros h k E. right. by apply Hr. }
  intros [[h k]|].
  - case_decide as Ht; [subst; apply triple_ret|].
    + intros st [Hst Hr]. split; [done|]. by destruct (Hr _ _ eq_refl) as [[_ ?]|[_ ?]].
    + eapply (triple_bind _ _ _ (fun _ st => ready st /\ anchored h k st)).
      { apply triple_lift; [|by intros st []]. intros st _ [Hst Hr] _. split; [done|].
        destruct (Hr _ _ eq_refl) as [[? _]|[? ?]]; [done|]. split; [done|by left]. }
      intros _. apply header_loop_ready.
  - intros st [Hst _]. revert st Hst. eapply triple_bind.
    { apply triple_ask; [done|]. intros w w' h Hh. exact (sv_hash Hsv _ _ _ _ Hh). }
    intros h. eapply (triple_bind _ _ _ (fun _ st => ready st /\ anchored h 0 st)).
    { apply triple_lift; [|by intros st []]. intros st _ [Hst Ht] _. split; [done|]. split; [done|by right]. }
    intros _. apply header_loop_ready.
Qed.

End Loops.

(** The tables and the events after a synchronisation, however it ends *)
Lemma sync_to_tip_states bh main_tip fuel dir st st' bs r :
  serves_tree -> in_tree (block_hashes (sy_dbs st)) -> hist bh (sy_dbs st) bs -> followed (sy_events st) = hash_of <$> bs ->
  main_tip <> all_zeros ->
  (forall b, in_tree b -> honest_node bh b /\ forall open_dir, dir = Some open_dir -> good_dir bh b open_dir) ->
  sync_to_tip bh fuel dir main_tip st = (st', r) ->
  (exists bs', hist bh (sy_dbs st') bs' /\ followed (sy_events st') = hash_of <$> bs') /\ in_tree (block_hashes (sy_dbs st')) /\
  (r = Some (Ok None) -> current_chain_tip (sy_dbs st') = Some main_tip) /\
  (forall ib, r = Some (Ok (Some ib)) -> exists hd k, tree !! ib_block_hash ib = Some (hd, k) /\ tip_of (sy_dbs st') = prev_blockhash hd).
Proof.
  intros Hsv Hi Hh He Hz Hnode Hs.
  pose proof (sync_headers_ready bh Hsv fuel main_tip Hz st (conj (ex_intro _ bs (conj Hh He)) Hi)) as Hr.
  unfold sync_to_tip, mbind, SyncM_bind, sbind in Hs. destruct (sync_headers fuel main_tip st) as [st1 [[[]|e|]|]];
    [|injection Hs as <- <-; destruct Hr as [? Hi']; by split_and!..].
  destruct Hr as [[(bs1 & Hh1 & He1) Hi1] Hm]. destruct (Hnode _ Hi1) as [Hn Hd].
  pose proof (sync_blocks_path bh _ main_tip (it_inv _ Hi1) fuel dir Hm Hn Hd st1 (ex_intro _ bs1 (Build_synced _ _ _ _ _ Hh1 (conj eq_refl eq_refl) He1))) as Ht.
  rewrite Hs in Ht. destruct (sync_outcome bh _ main_tip (it_inv _ Hi1) st' r Hm Ht) as ((bs' & ? & _ & _ & ?) & Hok & Hib). split_and!; [by exists bs'| |done|].
  - assert (Hsafe : safe bh (block_hashes (sy_dbs st1)) st').
    { destruct r as [[[ib|]|e|]|]; [destruct Ht as [rest [? _]]|destruct Ht as [? _]|..]; done. }
    destruct Hsafe as [bs2 [_ [Eh Ek] _]]. by eapply in_tree_ext.
  - intros ib E. destruct (Hib ib E) as (hd & Hhd & Htip & _). destruct (it_sub _ Hi1 _ _ Hhd) as (k & Hk & _). by exists hd, k.
Qed.

(** C9. Synchronising with the tip of a truthful node is safe and reaches it. The
    node's answers are truthful: its headers, with their heights, come from one
    fixed block tree, of which the stored headers are a part, its batches of
    headers are consecutive, its blocks are the ones asked for, and so are those
    in the blocks directory, if one is read. The tables belong to a chain of
    blocks that the events lead to. Calls may fail, and blocks may be invalid:
    however the synchronisation of the headers and then of the blocks ends, the
    committed tables belong to a linked chain that the events lead to, and the
    stored headers are the tree's, at their heights. When [sync_to_tip] succeeds
    the chain ends at the tip, and when it reports an invalid block, at the parent
    of that block. *)
Theorem sync_to_tip_correct bh main_tip fuel dir st st' bs r :
  serves_tree -> in_tree (block_hashes (sy_dbs st)) -> hist bh (sy_dbs st) bs -> followed (sy_events st) = hash_of <$> bs ->
  main_tip <> all_zeros ->
  (forall b, in_tree b -> honest_node bh b /\ forall open_dir, dir = Some open_dir -> good_dir bh b open_dir) ->
  sync_to_tip bh fuel dir main_tip st = (st', r) ->
  (exists bs', hist bh (sy_dbs st') bs' /\ linked bs' /\ wf (sy_dbs st') /\ followed (sy_events st') = hash_of <$> bs') /\
  in_tree (block_hashes (sy_dbs st')) /\
  (r = Some (Ok None) -> current_chain_tip (sy_dbs st') = Some main_tip) /\
  (forall ib, r = Some (Ok (Some ib)) -> exists hd k, tree !! ib_block_hash ib = Some (hd, k) /\ tip_of (sy_dbs st') = prev_blockhash hd).
Proof.
  intros Hsv Hi Hh He Hz Hnode Hs. destruct (sync_to_tip_states bh main_tip fuel dir st st' bs r Hsv Hi Hh He Hz Hnode Hs) as ((bs' & Hh' & He') & Hi' & Hok & Hib).
  split_and!; [|done..]. exists bs'. split_and!; [done|by eapply hist_linked|by eapply hist_wf|done].
Qed.

(** ** The binary search *)

Section Search.
Variables (b : BlockHashDbs) (chain : list BlockHash).
Hypothesis Hwf : chain_wf b.

(** The node's chain by height, which does not change during the search. *)
Record stable_chain : Prop := {
  sc_node w k : 0 <= k -> exists w', getblockhash w k = (w', chain !! Z.to_nat k);
  sc_linked i p x hd : chain !! i = Some p -> chain !! S i = Some x -> headers b !! x = Some hd -> prev_blockhash hd = p;
  sc_zeros : all_zeros ∉ chain }.

Definition stored_at (k : Z) : Prop := exists x, chain !! Z.to_nat k = Some x /\ is_Some (headers b !! x).

(** The stored blocks of the chain are those up to some height. *)
Lemma stored_below j k : stable_chain -> 0 <= j <= k -> stored_at k -> stored_at j.
Proof.
  intros [_ Hl Hz] [Hj Hjk]. replace k with (j + Z.of_nat (Z.to_nat (k - j))) by lia. generalize (Z.to_nat (k - j)). clear k Hjk.
  induction n as [|n IH]; [by rewrite Z.add_0_r|]. intros (x & Hx & [hd Hhd]). apply IH.
  replace (Z.to_nat (j + Z.of_nat (S n))) with (S (Z.to_nat (j + Z.of_nat n))) in Hx by lia.
  destruct (lookup_lt_is_Some_2 chain (Z.to_nat (j + Z.of_nat n))) as [p Hp]; [apply lookup_lt_Some in Hx; lia|].
  exists p. split; [done|]. pose proof (Hl _ _ _ _ Hp Hx Hhd) as E. destruct (cw_height _ Hwf _ _ Hhd) as (j' & _ & _ & Hpar).
  rewrite E in Hpar. case_decide as Ez; [|apply Hpar]. destruct Hz. rewrite <- Ez. by apply list_elem_of_lookup_2 in Hp.
Qed.

Lemma best_ancestor_search fuel best oldest st :
  stable_chain -> block_hashes (sy_dbs st) = b ->
  (forall h k, best = Some (h, k) -> 0 <= k < oldest /\ chain !! Z.to_nat k = Some h /\ is_Some (headers b !! h)) ->
  0 <= oldest < Z.of_nat (length chain) -> ~ stored_at oldest ->
  oldest - default (-1) (snd <$> best) < Z.of_nat fuel ->
  exists st' r, best_ancestor_loop fuel best oldest st = (st', Some (Ok r)) /\ sy_dbs st' = sy_dbs st /\ sy_events st' = sy_events st /\
    match r with
    | Some (h, k) => 0 <= k /\ chain !! Z.to_nat k = Some h /\ is_Some (headers b !! h) /\ ~ stored_at (k + 1)
    | None => ~ stored_at 0
    end.
Proof.
  intros Hc Eb. revert best oldest st Eb. induction fuel as [|fuel IH]; intros best oldest st Eb Hbest Hold Hno Hf.
  { destruct best as [[h k]|]; cbn in Hf; [destruct (Hbest h k eq_refl)|]; lia. }
  cbn [best_ancestor_loop]. unfold midpoint. set (mid := (oldest + default 0 (snd <$> best)) / 2).
  assert (Hmid : match best with Some (_, k) => k <= mid < oldest | None => 0 <= mid <= oldest /\ (mid = oldest -> oldest = 0) end).
  { subst mid. destruct best as [[h k]|]; cbn; [destruct (Hbest h k eq_refl)|]; Z.to_euclidean_division_equations; lia. }
  case_decide as Hstop.
  - exists st, best. split_and!; [done..|]. destruct best as [[h k]|]; cbn in Hstop.
    + destruct (Hbest h k eq_refl) as (? & ? & ?). split_and!; [lia|done..|]. replace (k + 1) with oldest; [done|].
      destruct Hstop as [[= E]|E]; [|lia]. subst mid. cbn in E. Z.to_euclidean_division_equations; lia.
    + destruct Hstop as [[=]|E]. replace 0 with oldest by (apply Hmid; lia). done.
  - assert (Hm0 : 0 <= mid < oldest) by (destruct best as [[h k]|]; [destruct (Hbest h k eq_refl)|]; lia).
    destruct (sc_node Hc (sy_world st) mid ltac:(lia)) as [w' Hw]. destruct (chain !! Z.to_nat mid) as [x|] eqn:Ex; [|apply lookup_ge_None in Ex; lia].
    unfold ask, mbind, SyncM_bind, sbind, sget. rewrite Hw. cbn [ok_or sy_dbs]. set (st1 := mkSync _ _ _).
    rewrite Eb. destruct (contains_header b x) eqn:Ec.
    + apply contains_key_true in Ec. destruct (IH (Some (x, mid)) oldest st1 Eb) as (st' & r & Hr & Ed & Ee & Hspec); [|done..| |].
      * intros h k [= <- <-]. split_and!; [lia..|done|done].
      * cbn. destruct best as [[h k]|]; cbn in Hf, Hstop; [|lia]. destruct (Hbest h k eq_refl).
        assert (mid <> k) by (intros E; apply Hstop; left; by rewrite E). lia.
      * exists st', r. by rewrite Hr, Ed, Ee.
    + destruct (IH best mid st1 Eb) as (st' & r & Hr & Ed & Ee & Hspec).
      * intros h k E. destruct (Hbest h k E) as (? & ? & ?). split_and!; [lia| |done..]. subst best. cbn in Hmid, Hstop.
        assert (mid <> k) by (intros E; apply Hstop; left; by rewrite E). lia.
      * lia.
      * intros (y & Hy & Hst). rewrite Ex in Hy. injection Hy as <-. apply contains_key_false in Ec. rewrite Ec in Hst. by destruct Hst.
      * destruct best as [[h k]|]; cbn in *; lia.
      * exists st', r. by rewrite Hr, Ed, Ee.
Qed.

End Search.

(** The search for the best known ancestor ends, and finds it: with a node
    whose active chain does not change meanwhile, [fetch_best_ancestor] returns
    the block of the chain with the greatest height whose header is stored, and
    nothing when not even the first block is stored. The tables stay as they are. *)
Theorem fetch_best_ancestor_spec chain node_tip st :
  let b := block_hashes (sy_dbs st) in
  chain_wf b -> stable_chain b chain -> last chain = Some node_tip ->
  exists st' r, fetch_best_ancestor node_tip (Z.of_nat (length chain) - 1) st = (st', Some (Ok r)) /\
    sy_dbs st' = sy_dbs st /\ sy_events st' = sy_events st /\
    match r with
    | Some (h, k) => 0 <= k /\ chain !! Z.to_nat k = Some h /\ is_Some (headers b !! h) /\
        forall i, k < i < Z.of_nat (length chain) -> ~ stored_at b chain i
    | None => forall i, 0 <= i < Z.of_nat (length chain) -> ~ stored_at b chain i
    end.
Proof.
  intros b Hwf Hc Hl. rewrite last_lookup in Hl. pose proof (lookup_lt_Some _ _ _ Hl) as Hlen.
  assert (Hz : node_tip <> all_zeros) by (intros ->; by destruct (sc_zeros _ _ Hc); apply list_elem_of_lookup_2 in Hl).
  replace (Nat.pred (length chain)) with (Z.to_nat (Z.of_nat (length chain) - 1)) in Hl by lia.
  unfold fetch_best_ancestor. rewrite decide_False by done. unfold mbind, SyncM_bind, sbind, sget, sret. fold b.
  destruct (contains_header b node_tip) eqn:Ec.
  - exists st, (Some (node_tip, Z.of_nat (length chain) - 1)). apply contains_key_true in Ec. split_and!; [done..|lia|done|done|lia].
  - assert (Hno : ~ stored_at b chain (Z.of_nat (length chain) - 1)).
    { intros (x & Hx & Hst). rewrite Hl in Hx. injection Hx as <-. apply contains_key_false in Ec. rewrite Ec in Hst. by destruct Hst. }
    destruct (best_ancestor_search b chain (S (S (Z.to_nat (Z.of_nat (length chain) - 1)))) None (Z.of_nat (length chain) - 1) st Hc eq_refl)
      as (st' & r & Hr & Ed & Ee & Hspec); [done|lia|done|cbn; lia|].
    exists st', r. split_and!; [done..|]. destruct r as [[h k]|].
    + destruct Hspec as (Hk & Hx & Hst & Hn). split_and!; [done..|]. intros i Hi Hs. apply Hn. apply (stored_below b chain Hwf (k + 1) i); [done|lia|done].
    + intros i Hi Hs. apply Hspec. apply (stored_below b chain Hwf 0 i); [done|lia|done].
Qed.

(** The header sync does not end when Bitcoin Core's REST interface has
    nothing after the current block: if the current block has become the tip of
    the node's active chain (say, its child [main_tip] was invalidated), the
    answer is its header alone, which is neither empty nor an error. The loop then
    asks again, whatever the fuel, and changes nothing. *)
Theorem rest_header_sync_stalls client main_tip main_tip_height cur k hd body fuel st :
  let b := block_hashes (sy_dbs st) in
  rest_headers = Some client -> chain_wf b -> headers b !! cur = Some hd -> height b !! cur = Some k ->
  (forall w, (is_cancelled w).2 = false) -> (forall w n, (client w cur n).2 = Some body) ->
  decode_block_headers body k = Ok [(hd, cur, k)] -> cur <> main_tip -> k < main_tip_height < u32_max ->
  exists w', header_loop fuel main_tip main_tip_height cur k st = (mkSync (sy_dbs st) (sy_events st) w', None).
Proof.
  intros b Hr Hwf Eh Hk Hc Hcl Hd Hne Hlt. subst b. revert st Hwf Eh Hk. induction fuel as [|fuel IH]; intros st Hwf Eh Hk.
  { exists (sy_world st). cbn. by destruct st. }
  cbn [header_loop]. rewrite Hr. unfold get_block_headers, store_headers, ask, ask_bool, mbind, SyncM_bind, sbind, slift, sget, commit.
  destruct (cw_height _ Hwf _ _ Eh) as (k' & Hk' & Hk0 & _). rewrite Hk in Hk'. injection Hk' as <-.
  pose proof (Hc (sy_world st)) as Hc'. destruct (is_cancelled (sy_world st)) as [w1 c]. cbn in Hc'. subst c. cbn [sy_world sy_dbs sy_events].
  rewrite (proj2 (checked_sub_Some main_tip_height k (main_tip_height - k))) by lia. cbn [unwrap].
  rewrite (proj2 (checked_add_u32_Some (main_tip_height - k) 1 (main_tip_height - k + 1))) by lia. cbn [unwrap sy_world].
  match goal with |- context [client w1 cur ?n] => pose proof (Hcl w1 n) as Hb; destruct (client w1 cur n) as [w2 body'] end.
  cbn in Hb. subst body'. cbn [ok_or sy_world sy_dbs sy_events]. unfold check_rest_headers. rewrite Hd. cbn.
  rewrite decide_True by done. cbn.
  assert (Eput : put_header (block_hashes (sy_dbs st)) (hd, k) = Ok (block_hashes (sy_dbs st))).
  { apply put_header_known; [done|..]; by rewrite (cw_hash _ Hwf _ _ Eh). }
  unfold put_header in Eput. rewrite Eput. cbn. rewrite !decide_False by (done || lia).
  assert (Ed : set_block_hashes (sy_dbs st) (block_hashes (sy_dbs st)) = sy_dbs st) by by destruct (sy_dbs st).
  rewrite Ed, app_nil_r. by destruct (IH (mkSync (sy_dbs st) (sy_events st) w2) Hwf Eh Hk) as [w' ->]; exists w'.
Qed.

End HeaderProofs.
