(* ===== verification/Facade.v ===== *)
(** * The validator's queries

    The read side of [lib/validator/mod.rs]: every query reads one snapshot of
    the tables. [chain_diff] describes how the chain changed since an earlier
    block; [list_headers] lists the active chain. *)

From Stdlib Require Import Strings.Byte.
From stdpp Require Import base numbers list gmap sorting.
From S2P Require Import Prelude OrderMap Bitcoin Types Messages M6 Dbs BlockHashes Treasury Diff Reversible Handlers ConnectBlock Enforcer Sync.
Open Scope Z_scope.

(** ** The order of keys

    LMDB iterates in the order of the encoded keys; that of a proposal id is
    its number followed by its hash. *)

Fixpoint bytes_leb (a b : bytes) : bool :=
  match a, b with
  | [], _ => true
  | _ :: _, [] => false
  | x :: a, y :: b => bool_decide (u8_val x < u8_val y) || (bool_decide (x = y) && bytes_leb a b)
  end.

Definition proposal_id_le (a b : SidechainProposalId) : Prop :=
  Is_true (bytes_leb (spi_sidechain_number a :: spi_description_hash a) (spi_sidechain_number b :: spi_description_hash b)).

#[global] Instance proposal_id_le_dec a b : Decision (proposal_id_le a b).
Proof. unfold proposal_id_le. apply _. Defined.

(** ** Outcomes *)

Inductive ChainDiffError :=
| CD_Db (e : DbError)
| CD_LastCommonAncestor (e : LastCommonAncestorError)
| MissingBlockInfo (h : BlockHash).

Record ChainDiff := mkChainDiff {
  cd_tip : BlockHash;
  cd_tip_height : Z;
  rebuilt : bool;
  disconnected : list BlockHash;
  connected : list (BlockHash * BlockInfo) }.

Inductive GetBlockInfosError :=
| GBIs_Db (e : DbError)
| MissingHeaderBlock (h : BlockHash).

Section Facade.
Context `{Bitcoin}.
Implicit Types (v : Validator).

(** ** Sidechains and treasuries *)

Definition try_get_pending_withdrawal v (n : SidechainNumber) (m6id : M6id) : option PendingM6idInfo :=
  pending ← pending_m6ids (active_sidechains (v_dbs v)) !! n; om_get m6id pending.

Definition get_sidechains v : list (SidechainProposalId * Sidechain) :=
  merge_sort (fun a b => proposal_id_le a.1 b.1) (map_to_list (proposal_id_to_sidechain (v_dbs v))).

(** The [assert!] is of a stored activation height. *)
Definition get_active_sidechains v : Res DbError (list Sidechain) :=
  foldM (fun acc n => match sidechain (active_sidechains (v_dbs v)) !! n with
                      | Some sc => _ ← assert_or_panic (bool_decide (is_Some (activation_height (sc_status sc)))); Ok (acc ++ [sc])
                      | None => Ok acc
                      end) (numbers (active_sidechains (v_dbs v))) [].

Definition get_ctip_sequence_number v (n : SidechainNumber) : Res DbError (option Z) :=
  match treasury_utxo_count (active_sidechains (v_dbs v)) !! n with
  | None => Ok None
  | Some count => q ← unwrap (checked_sub count 1); Ok (Some q)
  end.

Definition try_get_ctip v (n : SidechainNumber) : option Ctip := ctip (active_sidechains (v_dbs v)) !! n.
Definition get_ctip v (n : SidechainNumber) : Res DbError Ctip := db_get (ctip (active_sidechains (v_dbs v))) n.
Definition get_ctips v : gmap SidechainNumber Ctip := ctip (active_sidechains (v_dbs v)).

Definition try_get_ctip_value_seq v (o : OutPoint) : option (SidechainNumber * Amount * Z) :=
  ctip_outpoint_to_value_seq (active_sidechains (v_dbs v)) !! o.

Definition get_treasury_utxo v (n : SidechainNumber) (sequence : Z) : Res DbError TreasuryUtxo :=
  db_get (slot_sequence_to_treasury_utxo (active_sidechains (v_dbs v))) (n, sequence).

Definition get_pending_withdrawals v (n : SidechainNumber) : Res DbError PendingM6ids :=
  db_get (pending_m6ids (active_sidechains (v_dbs v))) n.

(** ** Blocks *)

(** The loop of [try_get_block_infos] over the ancestors. *)
Fixpoint block_infos_loop v (tail : list HeaderInfo) (res : list (HeaderInfo * BlockInfo)) : Res DbError (list (HeaderInfo * BlockInfo)) :=
  match tail with
  | [] => Ok res
  | hi :: tail =>
      o ← try_get_block_info (block_hashes (v_dbs v)) (hi_block_hash hi);
      match o with Some info => block_infos_loop v tail (res ++ [(hi, info)]) | None => Ok res end
  end.

Definition try_get_block_infos v (h : BlockHash) (max_ancestors : nat) : Res DbError (option (list (HeaderInfo * BlockInfo))) :=
  o ← try_get_header_infos (block_hashes (v_dbs v)) h max_ancestors;
  match o with
  | Some (hi :: header_infos) =>
      info ← try_get_block_info (block_hashes (v_dbs v)) h;
      match info with
      | None => Ok None
      | Some info => res ← block_infos_loop v header_infos [(hi, info)]; Ok (Some res)
      end
  | _ => Ok None
  end.

Definition get_block_infos v (h : BlockHash) (max_ancestors : nat) : Res GetBlockInfosError (list (HeaderInfo * BlockInfo)) :=
  o ← map_err GBIs_Db (try_get_block_infos v h max_ancestors);
  ok_or (MissingHeaderBlock h) o.

(** The [while] loop of [list_headers], newest first. *)
Fixpoint list_headers_loop (b : BlockHashDbs) (fuel : nat) (start_height : Z) (cur : BlockHash) (res : list (Z * BlockHash))
    : option (Res DbError (list (Z * BlockHash))) :=
  match fuel with
  | O => None
  | S fuel =>
      match ancestor_next b cur with
      | None => Some (Ok res)
      | Some ((h, _), prev) =>
          match db_get (height b) h with
          | Ok k => if bool_decide (k < start_height) then Some (Ok res)
                    else list_headers_loop b fuel start_height prev (res ++ [(k, h)])
          | Err e => Some (Err e)
          | Panic => Some Panic
          end
      end
  end.

Definition list_headers v (start_height : Z) : option (Res DbError (list (Z * BlockHash))) :=
  match current_chain_tip (v_dbs v) with
  | None => Some (Ok [])
  | Some tip => option_map (fun r => res ← r; Ok (rev res))
                  (list_headers_loop (block_hashes (v_dbs v)) (header_fuel (v_dbs v) tip) start_height tip [])
  end.

Definition try_get_mainchain_tip v : option BlockHash := current_chain_tip (v_dbs v).
Definition get_mainchain_tip v : Res DbError BlockHash := ok_or MissingValue (current_chain_tip (v_dbs v)).

Definition try_get_block_height v : Res DbError (option Z) :=
  match current_chain_tip (v_dbs v) with
  | None => Ok None
  | Some tip => h ← db_get (height (block_hashes (v_dbs v))) tip; Ok (Some h)
  end.

(** [ancestor_headers(head)] up to [n] blocks, newest first. *)
Fixpoint take_ancestors (b : BlockHashDbs) (n : nat) (cur : BlockHash) : list BlockHash :=
  match n with
  | O => []
  | S n => match ancestor_next b cur with Some ((h, _), prev) => h :: take_ancestors b n prev | None => [] end
  end.

Fixpoint take_while_some {A} (l : list (option A)) : list A :=
  match l with Some a :: l => a :: take_while_some l | _ => [] end.

Definition try_get_bmm_commitments v (h : BlockHash) (max_ancestors : nat) : list BmmCommitments :=
  let b := block_hashes (v_dbs v) in
  take_while_some ((fun h => bmm_commitments b !! h) <$> take_ancestors b (S max_ancestors) h).

(** ** [chain_diff] *)

(** The blocks after the fork point, newest first, and their info. *)
Definition branch (s : Dbs) (head fork_point : BlockHash) : option (list BlockHash) :=
  ancestors_until (header_fuel s head) (block_hashes s) head fork_point.

Definition with_block_info (b : BlockHashDbs) (h : BlockHash) : Res ChainDiffError (BlockHash * BlockInfo) :=
  o ← map_err CD_Db (try_get_block_info b h);
  info ← ok_or (MissingBlockInfo h) o;
  Ok (h, info).

Definition collect_infos (b : BlockHashDbs) (hs : list BlockHash) : Res ChainDiffError (list (BlockHash * BlockInfo)) :=
  foldM (fun acc h => e ← with_block_info b h; Ok (acc ++ [e])) hs [].

(** The disconnected and the connected blocks, newest first; [None] is a walk
    that has not ended within its fuel. *)
Definition diff_branches v (from : option BlockHash) (tip : BlockHash) (tip_height : Z)
    : option (Res ChainDiffError (list BlockHash * list BlockHash)) :=
  let s := v_dbs v in
  match from with
  | Some from =>
      match last_common_ancestor (block_hashes s) from tip with
      | Ok fork_point =>
          d ← branch s from fork_point; c ← branch s tip fork_point; Some (Ok (d, c))
      | Err e => Some (Err (CD_LastCommonAncestor e))
      | Panic => Some Panic
      end
  | None => let count := saturating_sub (tip_height + 1) (bip300_activation_height (v_network_params v)) in
            Some (Ok ([], take_ancestors (block_hashes s) (Z.to_nat count) tip))
  end.

Definition chain_diff v (from : option BlockHash) : option (Res ChainDiffError (option ChainDiff)) :=
  let b := block_hashes (v_dbs v) in
  match current_chain_tip (v_dbs v) with
  | None => Some (Ok None)
  | Some tip =>
      match db_get (height b) tip with
      | Ok tip_height =>
          let from := match from with Some h => if contains_header b h then Some h else None | None => None end in
          r ← diff_branches v from tip tip_height;
          Some ('(disconnected, newest_first) ← r;
                connected ← collect_infos b (rev newest_first);
                Ok (Some (mkChainDiff tip tip_height (bool_decide (from = None)) disconnected connected)))
      | Err e => Some (Err (CD_Db e))
      | Panic => Some Panic
      end
  end.

End Facade.
