(* ===== verification/FacadeProofs.v ===== *)
(** * What the queries return

    On tables whose headers form a tree, [chain_diff] splits the old and the new
    chain at their last common block, and [list_headers] lists the active chain. *)

From Stdlib Require Import Strings.Byte.
From stdpp Require Import base numbers list gmap sorting.
From S2P Require Import Prelude OrderMap Bitcoin Types Messages M6 Dbs BlockHashes Treasury Diff Reversible Handlers HandlerProofs ConnectBlock ConnectProofs Reorg Enforcer EnforcerProofs Sync SyncProofs Facade.
Open Scope Z_scope.

Section FacadeProofs.
Context `{Bitcoin}.
Implicit Types (v : Validator) (b : BlockHashDbs).

(** The blocks from the first one to [t] with their infos; a block's height is
    its index. *)
Inductive chain_to b : BlockHash -> list (BlockHash * BlockInfo) -> Prop :=
| chain_to_start : chain_to b all_zeros []
| chain_to_snoc t hd info l :
    headers b !! t = Some hd -> try_get_block_info b t = Ok (Some info) -> chain_to b (prev_blockhash hd) l ->
    chain_to b t (l ++ [(t, info)]).

Section Chain.
Variable b : BlockHashDbs.
Hypothesis Hwf : chain_wf b.

Lemma chain_to_height t l : chain_to b t l -> t = all_zeros /\ l = [] \/ height b !! t = Some (Z.of_nat (length l) - 1) /\ last l.*1 = Some t.
Proof.
  induction 1 as [|t hd info l Hhd Hi Hc IH]; [by left|]. right. rewrite fmap_app, length_app. split; [|by apply last_snoc].
  destruct (cw_height b Hwf t hd Hhd) as (k & Hk & _ & Hp). rewrite Hk. f_equal. case_decide as Hz.
  - rewrite Hz in *. destruct IH as [[_ ->]|[Hz' _]]; [done|]. inversion Hc as [|? hd' ? ? Hhd']; [done|]. by rewrite (cw_zero b Hwf) in Hhd'.
  - destruct IH as [[? _]|[Hp' _]]; [done|]. destruct Hp as [_ Hp]. rewrite Hp' in Hp. injection Hp as Hp. cbn. lia.
Qed.

Lemma chain_to_last t l : chain_to b t l -> t <> all_zeros -> last l.*1 = Some t.
Proof. intros Hc Hz. by destruct (chain_to_height t l Hc) as [[? _]|[_ ?]]. Qed.

(** A chain contains the chain of every ancestor. *)
Lemma chain_to_ancestor r t l :
  chain_to b t l -> is_ancestor b r t -> exists l1 l2, l = l1 ++ l2 /\ chain_to b r l1 /\ path b r l2.*1 t.
Proof.
  induction 1 as [|t hd info l Hhd Hi Hc IH]; intros Ha.
  - exists [], []. inversion Ha as [|? ? hd' Hz]; subst; [split_and!; [done|constructor|done]|]. by rewrite (cw_zero b Hwf) in Hz.
  - destruct (is_ancestor_prev _ _ _ _ Hhd Ha) as [->|Ha'].
    + exists (l ++ [(t, info)]), []. rewrite app_nil_r. split_and!; [done|by eapply chain_to_snoc|done].
    + destruct (IH Ha') as (l1 & l2 & -> & Hc1 & Hp). exists l1, (l2 ++ [(t, info)]). rewrite app_assoc. split_and!; [done..|].
      rewrite fmap_app. apply path_app. exists (prev_blockhash hd). split; [done|]. by exists hd.
Qed.

Lemma chain_to_infos t l : chain_to b t l -> Forall (fun e => try_get_block_info b e.1 = Ok (Some e.2)) l.
Proof. induction 1 as [|t hd info l Hhd Hi Hc IH]; [constructor|]. apply Forall_app. split; [done|]. by constructor. Qed.

Lemma chain_to_lookup t l i h info : chain_to b t l -> l !! i = Some (h, info) -> height b !! h = Some (Z.of_nat i) /\ is_Some (headers b !! h).
Proof.
  induction 1 as [|t hd info' l Hhd Hi Hc IH]; [done|]. intros [Hl|[Hge Hl]]%lookup_app_Some; [by apply IH|].
  destruct (i - length l)%nat as [|] eqn:E; [|done]. injection Hl as <- <-. split; [|by eexists].
  destruct (chain_to_height t (l ++ [(t, info')])) as [[Hz _]|[Hk _]].
  - by eapply chain_to_snoc.
  - by rewrite Hz, (cw_zero b Hwf) in Hhd.
  - rewrite Hk, length_app. f_equal. cbn. lia.
Qed.

Lemma chain_to_det t l l' : chain_to b t l -> chain_to b t l' -> l = l'.
Proof.
  intros Hc. revert l'. induction Hc as [|t hd info l Hhd Hi Hc IH]; intros l' Hc'; inversion Hc' as [|t' hd' info' l'' Hhd' Hi' Hc'']; subst.
  - done.
  - by rewrite (cw_zero b Hwf) in Hhd'.
  - by rewrite (cw_zero b Hwf) in Hhd.
  - rewrite Hhd in Hhd'. injection Hhd' as <-. rewrite Hi in Hi'. injection Hi' as <-. by rewrite (IH l'').
Qed.

Lemma chain_to_nodup t l : chain_to b t l -> NoDup l.*1.
Proof.
  intros Hc. apply NoDup_alt. intros i j h Hi Hj. apply list_lookup_fmap_Some in Hi as ([h1 i1] & [= ->] & Hi).
  apply list_lookup_fmap_Some in Hj as ([h2 i2] & [= ->] & Hj).
  destruct (chain_to_lookup _ _ _ _ _ Hc Hi) as [Ei _], (chain_to_lookup _ _ _ _ _ Hc Hj) as [Ej _].
  rewrite Ei in Ej. injection Ej as Ej. lia.
Qed.

(** ** Walks *)

Lemma ancestors_until_of_path fuel r hs t :
  path b r hs t -> r ∉ hs -> (length hs < fuel)%nat -> ancestors_until fuel b t r = Some (rev hs).
Proof.
  revert t fuel. induction hs as [|h hs IH] using rev_ind; intros t fuel Hp Hn Hf; (destruct fuel as [|fuel]; [cbn in Hf; lia|]); cbn [ancestors_until].
  - cbn in Hp. subst t. unfold ancestor_next. destruct (headers b !! r); cbn; [|done]. by rewrite decide_True.
  - apply path_app in Hp as (mid & Hp & hd & Hhd & <- & Et). cbn in Et. subst t. unfold ancestor_next. rewrite Hhd. cbn.
    assert (h <> r) by (intros ->; apply Hn, elem_of_app; right; by apply list_elem_of_singleton).
    rewrite decide_False by done. rewrite length_app in Hf. cbn in Hf. rewrite (IH (prev_blockhash hd) fuel); [|done| |lia].
    + cbn. by rewrite rev_app_distr.
    + intros Hin. apply Hn, elem_of_app. by left.
Qed.

Lemma take_ancestors_chain n t l : chain_to b t l -> take_ancestors b n t = rev (drop (length l - n) l).*1.
Proof.
  intros Hc. revert n. induction Hc as [|t hd info l Hhd Hi Hc IH]; intros n.
  - destruct n; [done|]. cbn. unfold ancestor_next. by rewrite (cw_zero b Hwf).
  - destruct n as [|n]; cbn [take_ancestors].
    + rewrite Nat.sub_0_r, drop_all. done.
    + unfold ancestor_next. rewrite Hhd. cbn. rewrite IH, length_app. cbn. replace (length l + 1 - S n)%nat with (length l - n)%nat by lia.
      rewrite drop_app_le by lia. rewrite fmap_app, rev_app_distr. done.
Qed.

Lemma collect_infos_chain acc l :
  Forall (fun e => try_get_block_info b e.1 = Ok (Some e.2)) l ->
  foldM (fun acc h => e ← with_block_info b h; Ok (acc ++ [e])) l.*1 acc = Ok (acc ++ l).
Proof.
  revert acc. induction l as [|[h info] l IH]; intros acc Hall; cbn; [by rewrite app_nil_r|]. apply Forall_cons in Hall as [Hh Hall].
  cbn in Hh. unfold with_block_info. rewrite Hh. cbn. rewrite IH by done. by rewrite <- app_assoc.
Qed.

(** An ancestor other than the hash of zeros is a block of the chain. *)
Lemma ancestor_in_chain r t l : chain_to b t l -> is_ancestor b r t -> r <> all_zeros -> r ∈ l.*1.
Proof.
  intros Hc Ha Hz. destruct (chain_to_ancestor _ _ _ Hc Ha) as (l1 & l2 & -> & Hc1 & _). rewrite fmap_app. apply elem_of_app. left.
  apply chain_to_last in Hc1; [|done]. rewrite last_lookup in Hc1. by eapply list_elem_of_lookup_2.
Qed.

End Chain.

(** ** [chain_diff] *)

Lemma branch_of_chain v r t l1 l2 :
  let b := block_hashes (v_dbs v) in
  chain_wf b -> chain_to b t (l1 ++ l2) -> chain_to b r l1 -> path b r l2.*1 t -> branch (v_dbs v) t r = Some (rev l2.*1).
Proof.
  intros b Hwf Hc Hc1 Hp. apply ancestors_until_of_path; [done| |].
  - intros Hin. pose proof (chain_to_nodup b Hwf _ _ Hc) as Hnd. rewrite fmap_app in Hnd. apply NoDup_app in Hnd as (_ & Hdis & _).
    destruct (decide (r = all_zeros)) as [->|Hz].
    + apply list_elem_of_fmap in Hin as ([h info] & Ez & Hin). cbn in Ez. apply list_elem_of_lookup in Hin as [i Hi].
      destruct (chain_to_lookup b Hwf t (l1 ++ l2) (length l1 + i) h info Hc) as [_ [hd Hhd]].
      { rewrite lookup_app_r by lia. by replace (length l1 + i - length l1)%nat with i by lia. }
      by rewrite <- Ez, (cw_zero b Hwf) in Hhd.
    + apply (Hdis r); [|done]. apply (chain_to_last b Hwf) in Hc1; [|done]. rewrite last_lookup in Hc1. by eapply list_elem_of_lookup_2.
  - rewrite length_fmap. unfold header_fuel. fold b. destruct (chain_to_height b Hwf _ _ Hc) as [[_ E]|[-> _]].
    + apply app_eq_nil in E as [_ ->]. cbn. lia.
    + rewrite length_app. cbn. lia.
Qed.

Lemma chain_diff_found v tip new from :
  let b := block_hashes (v_dbs v) in
  chain_wf b -> current_chain_tip (v_dbs v) = Some tip -> tip <> all_zeros -> chain_to b tip new ->
  match from with
  | Some f =>
      forall old, f <> all_zeros -> chain_to b f old ->
      exists pre o n, old = pre ++ o /\ new = pre ++ n /\ (forall x, head o.*1 = Some x -> head n.*1 <> Some x) /\
        chain_diff v from = Some (Ok (Some (mkChainDiff tip (Z.of_nat (length new) - 1) false (rev o.*1) n)))
  | None =>
      0 <= bip300_activation_height (v_network_params v) ->
      chain_diff v from = Some (Ok (Some (mkChainDiff tip (Z.of_nat (length new) - 1) true []
                                            (drop (Z.to_nat (bip300_activation_height (v_network_params v))) new))))
  end.
Proof.
  intros b Hwf Htip Hz Hc. pose proof (chain_to_infos b _ _ Hc) as Hinfos.
  destruct (chain_to_height b Hwf _ _ Hc) as [[? _]|[Hk _]]; [done|].
  assert (Hdb : db_get (height b) tip = Ok (Z.of_nat (length new) - 1)) by (unfold db_get; by rewrite Hk).
  unfold chain_diff. rewrite Htip. fold b. rewrite Hdb. destruct from as [f|].
  - intros old Hzf Hcf. assert (Hf : is_Some (headers b !! f)) by (inversion Hcf; subst; [done|by eexists]).
    assert (Ht : is_Some (headers b !! tip)) by (inversion Hc; subst; [done|by eexists]).
    destruct (last_common_ancestor_found b f tip Hwf (or_intror Hf) (or_intror Ht)) as (r & Hr & Haf & Hat & Hmax).
    destruct (chain_to_ancestor b Hwf r f old Hcf Haf) as (pre & o & -> & Hpre & Hpo).
    destruct (chain_to_ancestor b Hwf r tip new Hc Hat) as (pre' & n & -> & Hpre' & Hpn).
    rewrite (chain_to_det b Hwf _ _ _ Hpre' Hpre) in *. exists pre, o, n. split_and!; [done..| |].
    + intros x Ho Hn. pose proof (chain_to_nodup b Hwf _ _ Hcf) as Hnd. rewrite fmap_app in Hnd. apply NoDup_app in Hnd as (_ & Hdis & _).
      destruct o as [|[x' i] o]; [done|]. destruct n as [|[x'' j] n]; [done|]. injection Ho as ->. injection Hn as ->.
      destruct Hpo as (hd & Hhd & _ & Hpo). destruct Hpn as (_ & _ & _ & Hpn). cbn in Hhd, Hpo, Hpn.
      apply (Hdis x); [|left]. apply (ancestor_in_chain b Hwf _ r); [done| |intros Ez; by rewrite Ez, (cw_zero b Hwf) in Hhd].
      apply Hmax; by eapply path_ancestor.
    + unfold contains_header. rewrite (proj2 (contains_key_true (headers b) f) Hf). cbn [diff_branches]. fold b. rewrite Hr.
      rewrite (branch_of_chain v r f pre o), (branch_of_chain v r tip pre n) by done. cbn. rewrite rev_involutive.
      unfold collect_infos. rewrite collect_infos_chain by (by apply Forall_app in Hinfos as [_ ?]). done.
  - intros Hact. cbn -[take_ancestors collect_infos saturating_sub]. fold b. rewrite (take_ancestors_chain b Hwf _ _ _ Hc), rev_involutive.
    unfold collect_infos. rewrite collect_infos_chain by by apply Forall_drop. cbn -[saturating_sub]. do 4 f_equal. unfold saturating_sub.
    destruct (decide (Z.to_nat (bip300_activation_height (v_network_params v)) <= length new)%nat); [f_equal; lia|].
    rewrite !drop_ge by lia. done.
Qed.

(** C10. [chain_diff] describes the change of the chain. If [from] is a stored
    block with chain [old], and the validator's tip has the chain [new], the
    disconnected blocks are those of [old] after the longest common prefix,
    newest first, and the connected ones those of [new] after it, oldest first,
    with their infos. Without a known block the connected blocks are all of
    [new] from the activation height on. *)
Theorem chain_diff_spec v tip new from :
  let b := block_hashes (v_dbs v) in
  chain_wf b -> current_chain_tip (v_dbs v) = Some tip -> tip <> all_zeros -> chain_to b tip new ->
  match from with
  | Some f =>
      forall old, f <> all_zeros -> chain_to b f old ->
      exists pre o n, old = pre ++ o /\ new = pre ++ n /\ (forall x, head o.*1 = Some x -> head n.*1 <> Some x) /\
        chain_diff v from = Some (Ok (Some (mkChainDiff tip (Z.of_nat (length new) - 1) false (rev o.*1) n)))
  | None =>
      0 <= bip300_activation_height (v_network_params v) ->
      chain_diff v from = Some (Ok (Some (mkChainDiff tip (Z.of_nat (length new) - 1) true []
                                            (drop (Z.to_nat (bip300_activation_height (v_network_params v))) new))))
  end.
Proof. apply chain_diff_found. Qed.

Lemma chain_diff_unknown v f : contains_header (block_hashes (v_dbs v)) f = false -> chain_diff v (Some f) = chain_diff v None.
Proof. intros E. unfold chain_diff. by rewrite E. Qed.

(** ** [list_headers] *)

Lemma list_headers_loop_chain b start_height t l fuel res :
  chain_wf b -> chain_to b t l -> (length l < fuel)%nat ->
  list_headers_loop b fuel start_height t res
  = Some (Ok (res ++ rev (drop (Z.to_nat start_height) (imap (fun i e => (Z.of_nat i, e.1)) l)))).
Proof.
  intros Hwf Hc. revert fuel res. induction Hc as [|t hd info l Hhd Hi Hc IH]; intros fuel res Hf; (destruct fuel as [|fuel]; [lia|]);
    cbn [list_headers_loop]; unfold ancestor_next.
  - rewrite (cw_zero b Hwf). cbn. by rewrite drop_nil, app_nil_r.
  - rewrite Hhd. cbn. destruct (chain_to_height b Hwf t (l ++ [(t, info)])) as [[Hz _]|[Hk _]].
    { by eapply chain_to_snoc. } { by rewrite Hz, (cw_zero b Hwf) in Hhd. }
    unfold db_get. rewrite Hk. cbn [ok_or]. rewrite length_app in *. cbn [length] in *. rewrite imap_app. cbn [imap].
    case_bool_decide as Hs.
    + rewrite drop_ge; [by rewrite app_nil_r|]. rewrite length_app, length_imap. cbn. lia.
    + rewrite IH by lia. rewrite drop_app_le by (rewrite length_imap; lia). rewrite rev_app_distr, <- app_assoc. cbn. do 5 f_equal. lia.
Qed.

(** The active chain from [start_height] on, in ascending order with one block
    per height. *)
Lemma list_headers_chain v tip l start_height :
  let b := block_hashes (v_dbs v) in
  chain_wf b -> current_chain_tip (v_dbs v) = Some tip -> tip <> all_zeros -> chain_to b tip l ->
  list_headers v start_height = Some (Ok (drop (Z.to_nat start_height) (imap (fun i e => (Z.of_nat i, e.1)) l))).
Proof.
  intros b Hwf Htip Hz Hc. unfold list_headers. rewrite Htip. fold b. rewrite (list_headers_loop_chain _ _ _ l); [|done..|].
  - cbn. by rewrite rev_involutive.
  - unfold header_fuel. fold b. destruct (chain_to_height b Hwf _ _ Hc) as [[? _]|[-> _]]; [done|]. cbn. lia.
Qed.

End FacadeProofs.

(** ** What the validator promises to its clients *)

(** The headers are a tree, and the blocks from the first one to the tip are stored with
    their information. *)
Record serves_chain `{Bitcoin} (v : Validator) (tip : BlockHash) (l : list (BlockHash * BlockInfo)) : Prop := {
  sc_tree : chain_wf (block_hashes (v_dbs v));
  sc_tip : current_chain_tip (v_dbs v) = Some tip;
  sc_not_zero : tip <> all_zeros;
  sc_chain : chain_to (block_hashes (v_dbs v)) tip l }.

Section Serves.
Context `{Bitcoin, !BitcoinLaws, Nom, !NomLaws}.

Lemma hist_info bh s bs c : hist bh s bs -> c ∈ bs -> has_info (block_hashes s) (hash_of c).
Proof.
  induction 1 as [s Hs|s bs b t t' ev Ht IH Hok Hcon Hs Hag]; intros Hc; [by apply elem_of_nil in Hc|].
  destruct (Hag c Hc) as (_ & _ & _ & ->). rewrite (connect_block_info _ _ _ _ _ _ (so_block _ _ _ Hok) Hcon).
  apply elem_of_app in Hc as [Hc| ->%list_elem_of_singleton]; [right; by apply IH|by left].
Qed.

Lemma linked_chain_to b bs :
  linked bs -> Forall (fun c => headers b !! hash_of c = Some (header c) /\ has_info b (hash_of c)) bs ->
  exists l, chain_to b (default all_zeros (hash_of <$> last bs)) l /\ l.*1 = hash_of <$> bs.
Proof.
  induction 1 as [|bs c _ IH Hp]; intros Hall; [exists []; split; [constructor|done]|]. apply Forall_app in Hall as [Hall [[Hhd Hi] _]%Forall_cons].
  destruct (IH Hall) as (l & Hl & El). apply has_info_get in Hi as [info Hi]. exists (l ++ [(hash_of c, info)]). rewrite last_snoc, !fmap_app, El. split; [|done].
  apply chain_to_snoc with (header c); [done..|]. by rewrite Hp.
Qed.

(** A validator whose tables belong to a chain serves it. *)
Lemma hist_serves v bh bs c :
  hist bh (v_dbs v) (bs ++ [c]) -> header_inv (block_hashes (v_dbs v)) ->
  exists l, serves_chain v (hash_of c) l /\ l.*1 = hash_of <$> bs ++ [c].
Proof.
  intros Hh Hi. assert (Hall : Forall (fun c => headers (block_hashes (v_dbs v)) !! hash_of c = Some (header c) /\ has_info (block_hashes (v_dbs v)) (hash_of c)) (bs ++ [c])).
  { apply Forall_forall. intros d Hd. split; [|by eapply hist_info]. apply list_elem_of_lookup in Hd as [i Hd]. by apply (hist_stored _ _ _ _ _ Hh Hd). }
  destruct (linked_chain_to _ _ (hist_linked _ _ _ Hh) Hall) as (l & Hl & El). rewrite last_snoc in Hl. exists l. split; [|done]. split; [apply Hi| | |done].
  - by rewrite (hist_tip _ _ _ Hh), last_snoc.
  - apply Forall_app in Hall as [_ [[Hhd _] _]%Forall_cons]. intros E. by rewrite E, (cw_zero _ (hi_wf _ Hi)) in Hhd.
Qed.

End Serves.
