(* ===== verification/Policy.v ===== *)
(** * The block producer's policy store

    [lib/block_producer/db.rs]: the tables of [db.sqlite] with the proposals and
    bundles this node queued, its explicit votes and its policies. An SQL
    [UPDATE] is a map over the rows, an [INSERT] fails when it would violate a
    [UNIQUE] constraint. The block hashes stored as text are kept as hashes. *)

From Stdlib Require Import Strings.Byte Strings.String.
From stdpp Require Import base numbers list gmap strings.
From S2P Require Import Prelude OrderMap Bitcoin Types Messages M6 Dbs BlockHashes Treasury Diff Reversible Handlers ConnectBlock Enforcer Sync Facade.
Open Scope Z_scope.

(** ** Transactions as bytes *)

(** rust-bitcoin's consensus encoding: whole transactions, and the decoders of
    their parts, which return the rest of the input. *)
Class TxCodec := {
  tx_serialize : Transaction -> bytes;
  tx_deserialize : bytes -> option Transaction;
  version_decode : bytes -> option (Z * bytes);
  varint_decode : bytes -> option (Z * bytes);
  txout_decode : bytes -> option (TxOut * bytes);
  lock_time_decode : bytes -> option (Z * bytes) }.

(** The encoder's output is read back. *)
Class TxCodecLaws `{TxCodec} := { tx_roundtrip tx : tx_deserialize (tx_serialize tx) = Some tx }.

Fixpoint txouts_decode `{TxCodec} (n : nat) (b : bytes) : option (list TxOut * bytes) :=
  match n with
  | O => Some ([], b)
  | S n => '(o, b) ← txout_decode b; '(os, b) ← txouts_decode n b; Some (o :: os, b)
  end.

Definition serialize_blinded `{TxCodec} (m : BlindedM6) : bytes := tx_serialize (blinded_tx m).

(** The legacy form of a transaction without inputs. The count comes from the
    input; more outputs than bytes cannot be decoded. *)
Definition deserialize_tx `{TxCodec} (b : bytes) : option Transaction :=
  match tx_deserialize b with
  | Some tx => Some tx
  | None =>
      '(version, r) ← version_decode b;
      '(input_count, r) ← varint_decode r;
      if decide (input_count = 0) then
        '(output_count, r) ← varint_decode r;
        '(output, r) ← txouts_decode (Z.to_nat output_count) r;
        '(lock_time, r) ← lock_time_decode r;
        if decide (r = []) then Some (mkTransaction version lock_time [] output) else None
      else None
  end.

(** ** The tables *)

Record ProposalRow := mkProposalRow {
  pr_sidechain_number : SidechainNumber;
  pr_data_hash : Hash;
  pr_data : SidechainDescription;
  mined_in : option BlockHash;
  pr_queued_at : option Z }.

Record BundleRow := mkBundleRow {
  br_sidechain_number : SidechainNumber;
  bundle_hash : M6id;
  bundle_tx : bytes;
  settled_in : option BlockHash;
  br_queued_at : option Z;
  paid_out : option bool }.

Record PolicyDb := mkPolicyDb {
  proposal_rows : list ProposalRow;
  sidechain_acks : list (SidechainNumber * Hash);
  bundle_rows : list BundleRow;
  bundle_acks : list (SidechainNumber * M6id);
  ack_policy : AckAllProposalsPolicy;
  bundle_policy : WithdrawalBundlePolicy;
  policy_tip : option BlockHash }.

Definition set_rows (db : PolicyDb) (ps : list ProposalRow) (bs : list BundleRow) (tip : option BlockHash) : PolicyDb :=
  mkPolicyDb ps (sidechain_acks db) bs (bundle_acks db) (ack_policy db) (bundle_policy db) tip.
Definition set_acks (db : PolicyDb) (sa : list (SidechainNumber * Hash)) (ba : list (SidechainNumber * M6id)) : PolicyDb :=
  mkPolicyDb (proposal_rows db) sa (bundle_rows db) ba (ack_policy db) (bundle_policy db) (policy_tip db).

Definition with_mined_in (r : ProposalRow) (m : option BlockHash) : ProposalRow :=
  mkProposalRow (pr_sidechain_number r) (pr_data_hash r) (pr_data r) m (pr_queued_at r).
Definition with_settled (r : BundleRow) (m : option BlockHash) (paid : option bool) : BundleRow :=
  mkBundleRow (br_sidechain_number r) (bundle_hash r) (bundle_tx r) m (br_queued_at r) paid.

(** A database just after the migrations, with the tables of [Db::new]. *)
Definition policy_db_new : PolicyDb := mkPolicyDb [] [] [] [] AAP_NewSlots WBP_Known None.

(** *** Policies as text *)

Definition ack_policy_to_sql (p : AckAllProposalsPolicy) : string := match p with AAP_None => "none" | AAP_NewSlots => "new_slots" | AAP_All => "all" end.
Definition ack_policy_column_result (s : string) : option AckAllProposalsPolicy :=
  if decide (s = "none"%string) then Some AAP_None else if decide (s = "new_slots"%string) then Some AAP_NewSlots else if decide (s = "all"%string) then Some AAP_All else None.
Definition bundle_policy_to_sql (p : WithdrawalBundlePolicy) : string := match p with WBP_None => "none" | WBP_Known => "known" | WBP_All => "all" | WBP_Alarm => "alarm" end.
Definition bundle_policy_column_result (s : string) : option WithdrawalBundlePolicy :=
  if decide (s = "none"%string) then Some WBP_None else if decide (s = "known"%string) then Some WBP_Known
  else if decide (s = "all"%string) then Some WBP_All else if decide (s = "alarm"%string) then Some WBP_Alarm else None.

(** A stored policy is read back, and nothing else is read as one. *)
Lemma stored_policies_read_back :
  (forall s p, ack_policy_column_result s = Some p <-> s = ack_policy_to_sql p) /\ (forall s p, bundle_policy_column_result s = Some p <-> s = bundle_policy_to_sql p).
Proof.
  split; intros s p; (split; [|intros ->; by destruct p]); unfold ack_policy_column_result, bundle_policy_column_result; intros Hs; repeat case_decide; by simplify_eq.
Qed.

Inductive PolicyError :=
| PE_ChainDiff (e : ChainDiffError)
| PE_GetHeaderInfo (e : GetHeaderInfoError)
| PE_Unique
| PE_DecodeBlindedM6
| AlreadyPaidOut (m6id : M6id).

(** ** Marks *)

Definition after_queued (queued_at : option Z) (h : Z) : bool :=
  match queued_at with None => true | Some q => bool_decide (q < h) end.

(** The updates of one connected block. *)
Definition mark_proposal (hash : BlockHash) (h : Z) (id : SidechainProposalId) (r : ProposalRow) : ProposalRow :=
  if bool_decide (pr_sidechain_number r = spi_sidechain_number id) && bool_decide (pr_data_hash r = spi_description_hash id)
     && after_queued (pr_queued_at r) h
  then with_mined_in r (Some hash) else r.

(** [None] for an event that does not settle the bundle. *)
Definition settles_as (k : WithdrawalBundleEventKind) : option bool :=
  match k with Failed => Some false | Succeeded _ _ => Some true | Submitted => None end.

Definition mark_bundle (hash : BlockHash) (h : Z) (e : WithdrawalBundleEvent) (r : BundleRow) : BundleRow :=
  match settles_as (wb_kind e) with
  | None => r
  | Some paid =>
      if bool_decide (br_sidechain_number r = wb_sidechain_id e) && bool_decide (bundle_hash r = wb_m6id e)
         && after_queued (br_queued_at r) h
      then with_settled r (Some hash) (Some paid) else r
  end.

Section Policy.
Context `{Bitcoin, TxCodec}.
Implicit Types (v : Validator) (db : PolicyDb).

Definition mark_block db (e : BlockHash * BlockInfo * Z) : PolicyDb :=
  let '(hash, info, h) := e in
  let ids := compute_id ∘ snd <$> sidechain_proposals info in
  set_rows db (foldl (fun rows id => mark_proposal hash h id <$> rows) (proposal_rows db) ids)
    (foldl (fun rows e => mark_bundle hash h e <$> rows) (bundle_rows db) (withdrawal_bundle_events info)) (policy_tip db).

Definition unmark_block db (hash : BlockHash) : PolicyDb :=
  set_rows db ((fun r => if decide (mined_in r = Some hash) then with_mined_in r None else r) <$> proposal_rows db)
    ((fun r => if decide (settled_in r = Some hash) then with_settled r None None else r) <$> bundle_rows db) (policy_tip db).

Definition clear_marks db : PolicyDb :=
  set_rows db ((fun r => with_mined_in r None) <$> proposal_rows db) ((fun r => with_settled r None None) <$> bundle_rows db) (policy_tip db).

Definition apply_chain_diff db (d : ChainDiff) : Res PolicyError PolicyDb :=
  let db := if rebuilt d then clear_marks db else db in
  let db := foldl unmark_block db (disconnected d) in
  first ← unwrap (checked_sub (cd_tip_height d + 1) (Z.of_nat (length (connected d))));
  let db := foldl mark_block db (zip (connected d) (seqZ first (Z.of_nat (length (connected d))))) in
  Ok (set_rows db (proposal_rows db) (bundle_rows db) (Some (cd_tip d))).

(** Returns the height of the tip the tables are in line with. *)
Definition reconcile v db : option (Res PolicyError (PolicyDb * option Z)) :=
  r ← chain_diff v (policy_tip db);
  Some (d ← map_err PE_ChainDiff r;
        match d with
        | None => Ok (db, None)
        | Some d =>
            if decide (policy_tip db = Some (cd_tip d)) then Ok (db, Some (cd_tip_height d)) else
            db ← apply_chain_diff db d;
            Ok (db, Some (cd_tip_height d))
        end).

(** One transaction: reconcile, then [f]; an error rolls both back. *)
Definition reconciled {A} v db (f : PolicyDb -> option Z -> Res PolicyError (PolicyDb * A)) : option (Res PolicyError (PolicyDb * A)) :=
  r ← reconcile v db;
  Some ('(db, tip_height) ← r; f db tip_height).

(** ** Start *)

Definition start_cursor v db : Res PolicyError PolicyDb :=
  match policy_tip db with
  | Some _ => Ok db
  | None =>
      match try_get_mainchain_tip v with
      | None => Ok db
      | Some tip =>
          hi ← map_err PE_GetHeaderInfo (get_header_info (block_hashes (v_dbs v)) tip);
          let q r := match r with None => Some (hi_height hi) | Some q => Some q end in
          Ok (set_rows db
                ((fun r => mkProposalRow (pr_sidechain_number r) (pr_data_hash r) (pr_data r) (mined_in r) (q (pr_queued_at r)))
                   <$> proposal_rows db)
                ((fun r => mkBundleRow (br_sidechain_number r) (bundle_hash r) (bundle_tx r) (settled_in r) (q (br_queued_at r)) (paid_out r))
                   <$> bundle_rows db) (Some tip))
      end
  end.

(** ** Sidechain proposals *)

Definition get_our_sidechain_proposals v db : option (Res PolicyError (PolicyDb * list SidechainProposal)) :=
  reconciled v db (fun db _ =>
    Ok (db, (fun r => mkSidechainProposal (pr_sidechain_number r) (pr_data r)) <$> filter (fun r => mined_in r = None) (proposal_rows db))).

Definition row_is (n : SidechainNumber) (hash : Hash) (r : ProposalRow) : Prop := pr_sidechain_number r = n /\ pr_data_hash r = hash.
#[global] Instance row_is_dec n hash r : Decision (row_is n hash r).
Proof. unfold row_is. apply _. Defined.

Definition policy_propose_sidechain v db (p : SidechainProposal) : option (Res PolicyError (PolicyDb * unit)) :=
  let n := sp_sidechain_number p in
  let data_hash := sha256d (sp_description p) in
  reconciled v db (fun db tip_height =>
    let requeued := filter (fun r => row_is n data_hash r /\ mined_in r <> None) (proposal_rows db) in
    if decide (requeued = []) then
      if decide (Exists (row_is n data_hash) (proposal_rows db)) then Err PE_Unique
      else Ok (set_rows db (proposal_rows db ++ [mkProposalRow n data_hash (sp_description p) None tip_height]) (bundle_rows db) (policy_tip db), tt)
    else Ok (set_rows db ((fun r => if decide (row_is n data_hash r /\ mined_in r <> None)
                                    then mkProposalRow n data_hash (pr_data r) None tip_height else r) <$> proposal_rows db)
               (bundle_rows db) (policy_tip db), tt)).

(** ** Votes and policies *)

Definition policy_ack_sidechain db (n : SidechainNumber) (hash : Hash) : Res PolicyError PolicyDb :=
  if decide ((n, hash) ∈ sidechain_acks db) then Err PE_Unique
  else Ok (set_acks db (sidechain_acks db ++ [(n, hash)]) (bundle_acks db)).
Definition nack_sidechain db (n : SidechainNumber) (hash : Hash) : PolicyDb :=
  set_acks db (filter (fun a => a <> (n, hash)) (sidechain_acks db)) (bundle_acks db).
Definition ack_bundle db (n : SidechainNumber) (m6id : M6id) : PolicyDb :=
  if decide ((n, m6id) ∈ bundle_acks db) then db else set_acks db (sidechain_acks db) (bundle_acks db ++ [(n, m6id)]).
Definition delete_bundle_ack db (n : SidechainNumber) (m6id : M6id) : PolicyDb :=
  set_acks db (sidechain_acks db) (filter (fun a => a <> (n, m6id)) (bundle_acks db)).
Definition set_ack_policy db (p : AckAllProposalsPolicy) : PolicyDb :=
  mkPolicyDb (proposal_rows db) (sidechain_acks db) (bundle_rows db) (bundle_acks db) p (bundle_policy db) (policy_tip db).
Definition set_bundle_policy db (p : WithdrawalBundlePolicy) : PolicyDb :=
  mkPolicyDb (proposal_rows db) (sidechain_acks db) (bundle_rows db) (bundle_acks db) (ack_policy db) p (policy_tip db).

(** ** Bundles *)

Definition decode_bundle (b : bytes) : Res PolicyError BlindedM6 :=
  tx ← ok_or PE_DecodeBlindedM6 (deserialize_tx b);
  map_err (fun _ => PE_DecodeBlindedM6) (blinded_m6_try_from tx).

Definition db_get_bundle_proposals v db
    : option (Res PolicyError (PolicyDb * gmap SidechainNumber (list (M6id * BlindedM6)))) :=
  reconciled v db (fun db _ =>
    res ← foldM (fun m r => b ← decode_bundle (bundle_tx r);
                            Ok (<[br_sidechain_number r := default [] (m !! br_sidechain_number r) ++ [(bundle_hash r, b)]]> m))
            (filter (fun r => settled_in r = None) (bundle_rows db)) ∅;
    Ok (db, res)).

Definition bundle_is (n : SidechainNumber) (m6id : M6id) (r : BundleRow) : Prop := br_sidechain_number r = n /\ bundle_hash r = m6id.
#[global] Instance bundle_is_dec n m6id r : Decision (bundle_is n m6id r).
Proof. unfold bundle_is. apply _. Defined.

Definition put_withdrawal_bundle v db (n : SidechainNumber) (m : BlindedM6) : option (Res PolicyError (PolicyDb * M6id)) :=
  let m6id := blinded_compute_m6id m in
  let tx_bytes := serialize_blinded m in
  reconciled v db (fun db tip_height =>
    match list_find (bundle_is n m6id) (bundle_rows db) with
    | Some (_, r) =>
        if decide (paid_out r = Some true) then Err (AlreadyPaidOut m6id)
        else Ok (set_rows db (proposal_rows db)
                   ((fun r => if decide (bundle_is n m6id r)
                              then mkBundleRow n m6id (bundle_tx r) None tip_height None else r) <$> bundle_rows db) (policy_tip db), m6id)
    | None => Ok (set_rows db (proposal_rows db) (bundle_rows db ++ [mkBundleRow n m6id tx_bytes None tip_height None]) (policy_tip db), m6id)
    end).

End Policy.
