(* ===== verification/PolicyProofs.v ===== *)
(** * The policy store follows the chain

    A row is marked with the last block of the chain, after the row was queued,
    that mined the proposal or settled the bundle. [reconcile] moves the marks
    along with the chain. It agrees with marking the whole chain afresh but in one
    case, which the theorems describe exactly: of two such blocks for a row the
    later one is disconnected and nothing takes its place. *)

From Stdlib Require Import Strings.Byte.
From stdpp Require Import base numbers list gmap.
From S2P Require Import Prelude OrderMap Bitcoin Types Messages M6 Dbs BlockHashes Treasury Diff Reversible Handlers HandlerProofs ConnectBlock Enforcer EnforcerProofs Sync SyncProofs Facade FacadeProofs Policy.
Open Scope Z_scope.

(** ** Marks of one row *)

(** Blocks with their heights, from height [k] on. *)
Fixpoint with_heights (k : Z) (l : list (BlockHash * BlockInfo)) : list (BlockHash * BlockInfo * Z) :=
  match l with [] => [] | e :: l => (e, k) :: with_heights (k + 1) l end.

Lemma with_heights_app k l1 l2 : with_heights k (l1 ++ l2) = with_heights k l1 ++ with_heights (k + Z.of_nat (length l1)) l2.
Proof.
  revert k. induction l1 as [|e l1 IH]; intros k; [by rewrite Z.add_0_r|]. cbn [with_heights app length]. rewrite IH. cbn [app].
  do 3 f_equal. lia.
Qed.

Lemma with_heights_zip k l : zip l (seqZ k (Z.of_nat (length l))) = with_heights k l.
Proof.
  revert k. induction l as [|e l IH]; intros k; [done|]. cbn [length]. rewrite Nat2Z.inj_succ, seqZ_cons by lia. cbn.
  by rewrite Z.pred_succ, IH.
Qed.

Lemma with_heights_lookup k l i e : with_heights k l !! i = Some e <-> exists x, l !! i = Some x /\ e = (x, k + Z.of_nat i).
Proof.
  revert k i. induction l as [|x l IH]; intros k i; cbn; [naive_solver|]. destruct i as [|i]; cbn.
  - rewrite Z.add_0_r. naive_solver.
  - rewrite IH. replace (k + 1 + Z.of_nat i) with (k + Z.of_nat (S i)) by lia. done.
Qed.

Section Mark.
Context {A : Type} (hit : BlockHash * BlockInfo * Z -> option A).

Definition set_mark (m : option (BlockHash * A)) (e : BlockHash * BlockInfo * Z) : option (BlockHash * A) :=
  match hit e with Some a => Some (e.1.1, a) | None => m end.
Definition unset_mark (m : option (BlockHash * A)) (hash : BlockHash) : option (BlockHash * A) :=
  match m with Some (x, _) => if decide (x = hash) then None else m | None => None end.

(** The last hit of the chain. *)
Definition mark_of (l : list (BlockHash * BlockInfo)) : option (BlockHash * A) := foldl set_mark None (with_heights 0 l).

Definition single_hit (l : list (BlockHash * BlockInfo)) : Prop :=
  forall i j e e', with_heights 0 l !! i = Some e -> with_heights 0 l !! j = Some e' -> hit e <> None -> hit e' <> None -> i = j.

Lemma mark_of_app l1 l2 : mark_of (l1 ++ l2) = foldl set_mark (mark_of l1) (with_heights (Z.of_nat (length l1)) l2).
Proof. unfold mark_of. by rewrite with_heights_app, foldl_app. Qed.

Lemma foldl_set_mark m l : foldl set_mark m l = m \/ exists e a, e ∈ l /\ hit e = Some a /\ foldl set_mark m l = Some (e.1.1, a).
Proof.
  revert m. induction l as [|e l IH]; intros m; cbn; [by left|]. destruct (IH (set_mark m e)) as [->|(e' & a & Hin & Hh & ->)].
  - unfold set_mark. destruct (hit e) as [a|] eqn:E; [|by left]. right. exists e, a. split_and!; [left|done..].
  - right. exists e', a. split_and!; [by right|done..].
Qed.

Lemma foldl_no_hit m l : Forall (fun e => hit e = None) l -> foldl set_mark m l = m.
Proof. revert m. induction l as [|e l IH]; intros m Hall; cbn; [done|]. apply Forall_cons in Hall as [E Hall]. unfold set_mark at 2. rewrite E. by apply IH. Qed.

Lemma unset_marks m hs : foldl unset_mark m hs = match m with Some (x, a) => if decide (x ∈ hs) then None else m | None => None end.
Proof.
  revert m. induction hs as [|h hs IH]; intros m; cbn [foldl]; rewrite ?IH.
  - destruct m as [[x a]|]; [|done]. case_decide as Hin; [by apply not_elem_of_nil in Hin|done].
  - destruct m as [[x a]|]; [|done]. cbn. destruct (decide (x = h)) as [->|Hne].
    + rewrite decide_True; [done|left].
    + destruct (decide (x ∈ hs)); [rewrite decide_True; [done|by right]|]. rewrite decide_False; [done|].
      by intros [?|?]%elem_of_cons.
Qed.

(** An earlier block of the chain hit, a later one that is left behind hit as
    well, and none that replaces it does. *)
Definition forgets (pre o n : list (BlockHash * BlockInfo)) : Prop :=
  is_Some (mark_of pre) /\ (exists e, e ∈ with_heights (Z.of_nat (length pre)) o /\ hit e <> None) /\
  Forall (fun e => hit e = None) (with_heights (Z.of_nat (length pre)) n).

(** Disconnecting takes the mark back, or leaves none although there is an
    earlier hit. *)
Lemma unset_mark_any pre o :
  NoDup (pre ++ o).*1 ->
  foldl unset_mark (mark_of (pre ++ o)) (rev o.*1) = mark_of pre \/
  foldl unset_mark (mark_of (pre ++ o)) (rev o.*1) = None /\ is_Some (mark_of pre) /\
    exists e, e ∈ with_heights (Z.of_nat (length pre)) o /\ hit e <> None.
Proof.
  intros Hnd. rewrite unset_marks, mark_of_app.
  destruct (foldl_set_mark (mark_of pre) (with_heights (Z.of_nat (length pre)) o)) as [E|(e & a & Hin & Hh & E)]; rewrite E.
  - left. unfold mark_of. destruct (foldl_set_mark None (with_heights 0 pre)) as [->|(e & a & Hin & _ & ->)]; [done|].
    rewrite decide_False; [done|]. apply list_elem_of_lookup in Hin as (i & (y & Hy & ->)%with_heights_lookup). cbn.
    intros Hin%list_elem_of_In%in_rev%list_elem_of_In. rewrite fmap_app in Hnd.
    apply NoDup_app in Hnd as (_ & Hdis & _). apply (Hdis y.1); [|done]. apply list_elem_of_fmap. exists y. split; [done|]. by eapply list_elem_of_lookup_2.
  - rewrite decide_True.
    + destruct (mark_of pre); [right|by left]. split_and!; [done..|]. exists e. by rewrite Hh.
    + apply list_elem_of_lookup in Hin as (j & (y & Hy & ->)%with_heights_lookup).
      apply list_elem_of_In. rewrite <- in_rev. apply list_elem_of_In, list_elem_of_fmap. exists y. split; [done|]. by eapply list_elem_of_lookup_2.
Qed.

(** A hit decides the mark, whatever it was before. *)
Lemma foldl_set_mark_any m m' l : foldl set_mark m l = foldl set_mark m' l \/ Forall (fun e => hit e = None) l.
Proof.
  revert m m'. induction l as [|e l IH]; intros m m'; [by right|]. cbn. unfold set_mark at 2 4. destruct (hit e) eqn:E; [by left|].
  destruct (IH m m') as [?|?]; [by left|right]. by constructor.
Qed.

(** The mark after the chain has changed from [pre ++ o] to [pre ++ n] *)
Lemma follow_mark pre o n :
  NoDup (pre ++ o).*1 ->
  let m := foldl set_mark (foldl unset_mark (mark_of (pre ++ o)) (rev o.*1)) (with_heights (Z.of_nat (length pre)) n) in
  m = mark_of (pre ++ n) \/ m = None /\ forgets pre o n.
Proof.
  intros Hnd. cbn zeta. rewrite (mark_of_app pre n). destruct (unset_mark_any pre o Hnd) as [->|(-> & Hp & Ho)]; [by left|].
  destruct (foldl_set_mark_any None (mark_of pre) (with_heights (Z.of_nat (length pre)) n)) as [->|Hn]; [by left|right].
  by rewrite foldl_no_hit.
Qed.

Lemma single_hit_forgets pre o n : single_hit (pre ++ o) -> forgets pre o n -> False.
Proof.
  intros Hs ([[x a] Hp] & (e & He & Hh) & _). unfold mark_of in Hp.
  destruct (foldl_set_mark None (with_heights 0 pre)) as [E|(e' & a' & He' & Hh' & _)]; [by rewrite E in Hp|].
  apply list_elem_of_lookup in He as (j & (y & Hy & ->)%with_heights_lookup). apply list_elem_of_lookup in He' as (i & (z & Hz & ->)%with_heights_lookup).
  assert (i = (length pre + j)%nat); [|apply lookup_lt_Some in Hz; lia].
  eapply Hs; [apply with_heights_lookup; exists z; split; [by apply lookup_app_l_Some|reflexivity]| |by rewrite Hh'|exact Hh].
  apply with_heights_lookup. exists y. rewrite lookup_app_r by lia. replace (length pre + j - length pre)%nat with j by lia. split; [done|]. f_equal. lia.
Qed.

End Mark.

(** ** Rows *)

Lemma foldl_map_rows {R E} (f : E -> R -> R) (rows : list R) (es : list E) :
  foldl (fun rows e => f e <$> rows) rows es = (fun r => foldl (fun r e => f e r) r es) <$> rows.
Proof.
  revert rows. induction es as [|e es IH]; intros rows; cbn; [by rewrite list_fmap_id|]. rewrite IH, <- list_fmap_compose. done.
Qed.

Section PolicyProofs.
Context `{Bitcoin, TxCodec}.
Implicit Types (v : Validator) (db : PolicyDb).

(** The block mines the row's proposal. *)
Definition p_hit (r : ProposalRow) (e : BlockHash * BlockInfo * Z) : option unit :=
  if existsb (fun id => bool_decide (pr_sidechain_number r = spi_sidechain_number id) && bool_decide (pr_data_hash r = spi_description_hash id))
       (compute_id ∘ snd <$> sidechain_proposals e.1.2) && after_queued (pr_queued_at r) e.2
  then Some tt else None.

(** The block settles the row's bundle; the last event counts. *)
Definition b_hit (r : BundleRow) (e : BlockHash * BlockInfo * Z) : option bool :=
  if after_queued (br_queued_at r) e.2 then
    foldl (fun acc ev => match settles_as (wb_kind ev) with
                         | Some paid => if bool_decide (br_sidechain_number r = wb_sidechain_id ev) && bool_decide (bundle_hash r = wb_m6id ev)
                                        then Some paid else acc
                         | None => acc
                         end) None (withdrawal_bundle_events e.1.2)
  else None.

Definition p_step (e : BlockHash * BlockInfo * Z) (r : ProposalRow) : ProposalRow :=
  match p_hit r e with Some _ => with_mined_in r (Some e.1.1) | None => r end.
Definition b_step (e : BlockHash * BlockInfo * Z) (r : BundleRow) : BundleRow :=
  match b_hit r e with Some paid => with_settled r (Some e.1.1) (Some paid) | None => r end.

Lemma mark_proposals_row hash info h r :
  foldl (fun r id => mark_proposal hash h id r) r (compute_id ∘ snd <$> sidechain_proposals info) = p_step (hash, info, h) r.
Proof.
  unfold p_step, p_hit. cbn [fst snd]. generalize (compute_id ∘ snd <$> sidechain_proposals info). intros ids.
  destruct r as [n d data m q]. revert m. induction ids as [|id ids IH]; intros m; cbn; [done|].
  unfold mark_proposal at 2, with_mined_in. unfold with_mined_in in IH. cbn.
  destruct (bool_decide (n = _) && bool_decide (d = _)), (after_queued q h) eqn:Eq; cbn; rewrite IH; cbn;
    rewrite ?Eq, ?andb_true_r, ?andb_false_r; try done; match goal with |- context [existsb ?f ids] => by destruct (existsb f ids) end.
Qed.

Lemma mark_bundles_row hash info h r :
  foldl (fun r e => mark_bundle hash h e r) r (withdrawal_bundle_events info) = b_step (hash, info, h) r.
Proof.
  unfold b_step, b_hit. cbn [fst snd]. generalize (withdrawal_bundle_events info). intros evs. destruct r as [n d tx m q p]. cbn [br_queued_at].
  destruct (after_queued q h) eqn:Eq.
  - assert (Hgen : forall (acc : option bool) m p, foldl (fun r e => mark_bundle hash h e r)
        (match acc with Some b => mkBundleRow n d tx (Some hash) q (Some b) | None => mkBundleRow n d tx m q p end) evs
      = match foldl (fun acc ev => match settles_as (wb_kind ev) with
                         | Some paid => if bool_decide (n = wb_sidechain_id ev) && bool_decide (d = wb_m6id ev) then Some paid else acc
                         | None => acc end) acc evs with
        | Some paid => mkBundleRow n d tx (Some hash) q (Some paid) | None => mkBundleRow n d tx m q p end).
    { induction evs as [|ev evs IH]; intros acc m' p'; cbn; [done|]. rewrite <- IH. f_equal. unfold mark_bundle.
      destruct (settles_as (wb_kind ev)); [|done]. destruct acc; cbn -[after_queued]; rewrite Eq, andb_true_r; by destruct (_ && _). }
    exact (Hgen None m p).
  - assert (Hno : forall ev, mark_bundle hash h ev (mkBundleRow n d tx m q p) = mkBundleRow n d tx m q p).
    { intros ev. unfold mark_bundle. cbn -[after_queued]. rewrite Eq, andb_false_r. by destruct (settles_as _). }
    induction evs as [|ev evs IH]; cbn [foldl]; [done|]. by rewrite Hno, IH.
Qed.

Lemma mark_block_rows db e :
  mark_block db e = set_rows db (p_step e <$> proposal_rows db) (b_step e <$> bundle_rows db) (policy_tip db).
Proof.
  destruct e as [[hash info] h]. unfold mark_block. rewrite !foldl_map_rows. f_equal; apply list_fmap_ext; intros i r _;
    [apply mark_proposals_row|apply mark_bundles_row].
Qed.

(** A row carries the mark [m]. *)
Definition p_marked (m : option (BlockHash * unit)) (r : ProposalRow) : Prop := mined_in r = fst <$> m.
Definition b_marked (m : option (BlockHash * bool)) (r : BundleRow) : Prop := settled_in r = fst <$> m /\ paid_out r = snd <$> m.

Definition p_unmark (h : BlockHash) (r : ProposalRow) : ProposalRow := if decide (mined_in r = Some h) then with_mined_in r None else r.
Definition b_unmark (h : BlockHash) (r : BundleRow) : BundleRow := if decide (settled_in r = Some h) then with_settled r None None else r.

Lemma p_steps r m es : p_marked m r ->
  let r' := foldl (fun r e => p_step e r) r es in p_marked (foldl (set_mark (p_hit r)) m es) r' /\ p_hit r' = p_hit r.
Proof.
  revert r m. induction es as [|e es IH]; intros r m Hm; cbn; [done|].
  assert (Hh : p_hit (p_step e r) = p_hit r) by (unfold p_step; by destruct (p_hit r e)).
  destruct (IH (p_step e r) (set_mark (p_hit r) m e)) as [Hmk Ehit].
  - unfold p_step, set_mark. destruct (p_hit r e); [done|exact Hm].
  - by rewrite Hh in Hmk, Ehit.
Qed.

Lemma b_steps r m es : b_marked m r ->
  let r' := foldl (fun r e => b_step e r) r es in b_marked (foldl (set_mark (b_hit r)) m es) r' /\ b_hit r' = b_hit r.
Proof.
  revert r m. induction es as [|e es IH]; intros r m Hm; cbn; [done|].
  assert (Hh : b_hit (b_step e r) = b_hit r) by (unfold b_step; by destruct (b_hit r e)).
  destruct (IH (b_step e r) (set_mark (b_hit r) m e)) as [Hmk Ehit].
  - unfold b_step, set_mark. destruct (b_hit r e); [by split|exact Hm].
  - by rewrite Hh in Hmk, Ehit.
Qed.

Lemma p_unmarks r m hs : p_marked m r ->
  let r' := foldl (fun r h => p_unmark h r) r hs in p_marked (foldl unset_mark m hs) r' /\ p_hit r' = p_hit r.
Proof.
  revert r m. induction hs as [|h hs IH]; intros r m Hm; cbn; [done|].
  assert (Hh : p_hit (p_unmark h r) = p_hit r) by (unfold p_unmark; by case_decide).
  destruct (IH (p_unmark h r) (unset_mark m h)) as [Hmk Ehit]; [|by rewrite Hh in Ehit].
  unfold p_unmark, unset_mark, p_marked in *. destruct m as [[x []]|]; cbn in *; rewrite Hm; [|done].
  repeat case_decide; simplify_eq; done.
Qed.

Lemma b_unmarks r m hs : b_marked m r ->
  let r' := foldl (fun r h => b_unmark h r) r hs in b_marked (foldl unset_mark m hs) r' /\ b_hit r' = b_hit r.
Proof.
  revert r m. induction hs as [|h hs IH]; intros r m Hm; cbn; [done|].
  assert (Hh : b_hit (b_unmark h r) = b_hit r) by (unfold b_unmark; by case_decide).
  destruct (IH (b_unmark h r) (unset_mark m h)) as [Hmk Ehit]; [|by rewrite Hh in Ehit].
  unfold b_unmark, unset_mark, b_marked in *. destruct Hm as [Hm Hp]. destruct m as [[x p]|]; cbn in *; rewrite Hm; [|done].
  repeat case_decide; simplify_eq; done.
Qed.

(** ** The tables *)

(** Every row carries the mark of the chain. *)
Definition marks_match (l : list (BlockHash * BlockInfo)) db : Prop :=
  Forall (fun r => p_marked (mark_of (p_hit r) l) r) (proposal_rows db) /\
  Forall (fun r => b_marked (mark_of (b_hit r) l) r) (bundle_rows db).

Definition single_hits (l : list (BlockHash * BlockInfo)) db : Prop :=
  Forall (fun r => single_hit (p_hit r) l) (proposal_rows db) /\ Forall (fun r => single_hit (b_hit r) l) (bundle_rows db).

Lemma mark_blocks_rows db es :
  foldl mark_block db es = set_rows db ((fun r => foldl (fun r e => p_step e r) r es) <$> proposal_rows db)
    ((fun r => foldl (fun r e => b_step e r) r es) <$> bundle_rows db) (policy_tip db).
Proof.
  revert db. induction es as [|e es IH]; intros db; cbn [foldl]; [rewrite !list_fmap_id; by destruct db|].
  rewrite IH, mark_block_rows. unfold set_rows. cbn. rewrite <- !list_fmap_compose. done.
Qed.

Lemma unmark_blocks_rows db hs :
  foldl unmark_block db hs = set_rows db ((fun r => foldl (fun r h => p_unmark h r) r hs) <$> proposal_rows db)
    ((fun r => foldl (fun r h => b_unmark h r) r hs) <$> bundle_rows db) (policy_tip db).
Proof.
  revert db. induction hs as [|h hs IH]; intros db; cbn [foldl]; [rewrite !list_fmap_id; by destruct db|].
  rewrite IH. unfold unmark_block, set_rows. cbn. rewrite <- !list_fmap_compose. done.
Qed.

(** Rows of the same proposals and bundles, whatever their marks. *)
Definition same_rows db db' : Prop :=
  (fun r => with_mined_in r None) <$> proposal_rows db = (fun r => with_mined_in r None) <$> proposal_rows db' /\
  (fun r => with_settled r None None) <$> bundle_rows db = (fun r => with_settled r None None) <$> bundle_rows db' /\
  sidechain_acks db = sidechain_acks db' /\ bundle_acks db = bundle_acks db' /\ ack_policy db = ack_policy db' /\ bundle_policy db = bundle_policy db'.

Lemma same_rows_trans db1 db2 db3 : same_rows db1 db2 -> same_rows db2 db3 -> same_rows db1 db3.
Proof. intros (?&?&?&?&?&?) (?&?&?&?&?&?). split_and!; by etrans. Qed.

Lemma p_steps_same r es : with_mined_in (foldl (fun r e => p_step e r) r es) None = with_mined_in r None.
Proof. revert r. induction es as [|e es IH]; intros r; cbn; [done|]. rewrite IH. unfold p_step. by destruct (p_hit r e). Qed.
Lemma b_steps_same r es : with_settled (foldl (fun r e => b_step e r) r es) None None = with_settled r None None.
Proof. revert r. induction es as [|e es IH]; intros r; cbn; [done|]. rewrite IH. unfold b_step. by destruct (b_hit r e). Qed.
Lemma p_unmarks_same r hs : with_mined_in (foldl (fun r h => p_unmark h r) r hs) None = with_mined_in r None.
Proof. revert r. induction hs as [|h hs IH]; intros r; cbn; [done|]. rewrite IH. unfold p_unmark. by case_decide. Qed.
Lemma b_unmarks_same r hs : with_settled (foldl (fun r h => b_unmark h r) r hs) None None = with_settled r None None.
Proof. revert r. induction hs as [|h hs IH]; intros r; cbn; [done|]. rewrite IH. unfold b_unmark. by case_decide. Qed.

Lemma set_rows_same db (f : ProposalRow -> ProposalRow) (g : BundleRow -> BundleRow) tip :
  (forall r, with_mined_in (f r) None = with_mined_in r None) -> (forall r, with_settled (g r) None None = with_settled r None None) ->
  same_rows db (set_rows db (f <$> proposal_rows db) (g <$> bundle_rows db) tip).
Proof.
  intros Hf Hg. split_and!; cbn; try done; rewrite <- list_fmap_compose; apply list_fmap_ext; intros i r _; cbn; by rewrite ?Hf, ?Hg.
Qed.

Lemma apply_chain_diff_same db d db' : apply_chain_diff db d = Ok db' -> same_rows db db'.
Proof.
  unfold apply_chain_diff. intros Ha. apply bind_Ok in Ha as (k & _ & [= <-]). set (db1 := if rebuilt d then clear_marks db else db).
  assert (H1 : same_rows db db1) by (unfold db1; destruct (rebuilt d); [by apply set_rows_same|by split_and!]).
  rewrite mark_blocks_rows, unmark_blocks_rows. eapply same_rows_trans; [exact H1|].
  set (db2 := set_rows db1 _ _ _).
  assert (H2 : same_rows db1 db2) by (apply set_rows_same; intros r; [apply p_unmarks_same|apply b_unmarks_same]).
  eapply same_rows_trans; [exact H2|]. apply (set_rows_same db2); intros r; [apply p_steps_same|apply b_steps_same].
Qed.

(** Whatever the chain, reconciling changes only marks and the cursor. *)
Lemma reconcile_same v db db' k : reconcile v db = Some (Ok (db', k)) -> same_rows db db'.
Proof.
  unfold reconcile. destruct (chain_diff v (policy_tip db)) as [r|]; cbn; [|done]. intros [= Hr].
  apply bind_Ok in Hr as (d & _ & Hr). destruct d as [d|]; [|injection Hr as <- <-; by split_and!].
  case_decide; [injection Hr as <- <-; by split_and!|]. apply bind_Ok in Hr as (db1 & Ha & [= <- <-]). by eapply apply_chain_diff_same.
Qed.

(** Marking the next blocks. *)
Lemma marks_extend db pre n :
  marks_match pre db -> let db' := foldl mark_block db (with_heights (Z.of_nat (length pre)) n) in
  marks_match (pre ++ n) db' /\ same_rows db db'.
Proof.
  intros [Hp Hb]. cbn. rewrite mark_blocks_rows. split; [split; cbn|apply set_rows_same; intros r; [apply p_steps_same|apply b_steps_same]];
    apply Forall_fmap; (eapply Forall_impl; [eassumption|]); intros r Hr; cbn in *.
  - destruct (p_steps r _ (with_heights (Z.of_nat (length pre)) n) Hr) as [? E]. rewrite mark_of_app. cbn in E. by rewrite E.
  - destruct (b_steps r _ (with_heights (Z.of_nat (length pre)) n) Hr) as [? E]. rewrite mark_of_app. cbn in E. by rewrite E.
Qed.

(** Every row carries the mark of the chain [new], or it is one whose earlier
    block is forgotten on the way from the chain of the cursor. *)
Definition marks_follow (forgotten : forall A, (BlockHash * BlockInfo * Z -> option A) -> Prop) (new : list (BlockHash * BlockInfo)) db : Prop :=
  Forall (fun r => p_marked (mark_of (p_hit r) new) r \/ p_marked None r /\ forgotten _ (p_hit r)) (proposal_rows db) /\
  Forall (fun r => b_marked (mark_of (b_hit r) new) r \/ b_marked None r /\ forgotten _ (b_hit r)) (bundle_rows db).

Lemma marks_match_follow forgotten new db : marks_match new db -> marks_follow forgotten new db.
Proof. intros [Hp Hb]. split; (eapply Forall_impl; [eassumption|]); by left. Qed.

(** Unmarking the last blocks, newest first, and marking those that replace them. *)
Lemma marks_move db pre o n :
  NoDup (pre ++ o).*1 -> marks_match (pre ++ o) db ->
  let db' := foldl mark_block (foldl unmark_block db (rev o.*1)) (with_heights (Z.of_nat (length pre)) n) in
  marks_follow (fun _ hit => forgets hit pre o n) (pre ++ n) db' /\ (single_hits (pre ++ o) db -> marks_match (pre ++ n) db').
Proof.
  intros Hnd [Hp Hb]. cbn zeta. rewrite mark_blocks_rows, unmark_blocks_rows. cbn.
  assert (Hpr : Forall (fun r => let r' := foldl (fun r e => p_step e r) (foldl (fun r h => p_unmark h r) r (rev o.*1)) (with_heights (Z.of_nat (length pre)) n) in
    p_hit r' = p_hit r /\ (p_marked (mark_of (p_hit r) (pre ++ n)) r' \/ p_marked None r' /\ forgets (p_hit r) pre o n)) (proposal_rows db)).
  { eapply Forall_impl; [exact Hp|]. intros r Hr. cbn in *. destruct (p_unmarks r _ (rev o.*1) Hr) as [Hm E].
    destruct (p_steps _ _ (with_heights (Z.of_nat (length pre)) n) Hm) as [Hm' E']. cbn in *. rewrite E in *. split; [done|].
    destruct (follow_mark (p_hit r) pre o n Hnd) as [Ef|[Ef ?]]; rewrite Ef in Hm'; [by left|by right]. }
  assert (Hbr : Forall (fun r => let r' := foldl (fun r e => b_step e r) (foldl (fun r h => b_unmark h r) r (rev o.*1)) (with_heights (Z.of_nat (length pre)) n) in
    b_hit r' = b_hit r /\ (b_marked (mark_of (b_hit r) (pre ++ n)) r' \/ b_marked None r' /\ forgets (b_hit r) pre o n)) (bundle_rows db)).
  { eapply Forall_impl; [exact Hb|]. intros r Hr. cbn in *. destruct (b_unmarks r _ (rev o.*1) Hr) as [Hm E].
    destruct (b_steps _ _ (with_heights (Z.of_nat (length pre)) n) Hm) as [Hm' E']. cbn in *. rewrite E in *. split; [done|].
    destruct (follow_mark (b_hit r) pre o n Hnd) as [Ef|[Ef ?]]; rewrite Ef in Hm'; [by left|by right]. }
  split; [split|intros [Sp Sb]; split]; cbn; rewrite <- list_fmap_compose; apply Forall_fmap.
  - eapply Forall_impl; [exact Hpr|]. intros r [E Hr]. cbn in *. by rewrite E.
  - eapply Forall_impl; [exact Hbr|]. intros r [E Hr]. cbn in *. by rewrite E.
  - eapply Forall_impl; [apply Forall_and; split; [exact Hpr|exact Sp]|]. intros r [[E Hr] Hs]. cbn in *. rewrite E.
    destruct Hr as [|[_ Hf]]; [done|]. by destruct (single_hit_forgets _ _ _ _ Hs Hf).
  - eapply Forall_impl; [apply Forall_and; split; [exact Hbr|exact Sb]|]. intros r [[E Hr] Hs]. cbn in *. rewrite E.
    destruct Hr as [|[_ Hf]]; [done|]. by destruct (single_hit_forgets _ _ _ _ Hs Hf).
Qed.

(** A block that mines no proposal and settles no bundle. *)
Definition quiet (e : BlockHash * BlockInfo) : Prop := sidechain_proposals e.2 = [] /\ withdrawal_bundle_events e.2 = [].

Lemma quiet_mark_of {A} (hit : BlockHash * BlockInfo * Z -> option A) l :
  (forall e h, quiet e -> hit (e, h) = None) -> Forall quiet l -> mark_of hit l = None.
Proof.
  intros Hq Hl. unfold mark_of. apply foldl_no_hit, Forall_lookup. intros i e (x & Hx & ->)%with_heights_lookup.
  apply Hq. eapply Forall_lookup in Hl; done.
Qed.

Lemma quiet_p r e h : quiet e -> p_hit r (e, h) = None.
Proof. intros [E _]. unfold p_hit. cbn. by rewrite E. Qed.
Lemma quiet_b r e h : quiet e -> b_hit r (e, h) = None.
Proof. intros [_ E]. unfold b_hit. cbn. rewrite E. by destruct (after_queued _ _). Qed.

Lemma marks_clear db l : Forall quiet l -> marks_match l (clear_marks db) /\ same_rows db (clear_marks db).
Proof.
  intros Hq. split; [split; cbn|by apply set_rows_same]; apply Forall_fmap, Forall_forall; intros r _; cbn.
  - unfold p_marked. rewrite quiet_mark_of; [done| |done]. apply quiet_p.
  - unfold b_marked. rewrite quiet_mark_of; [done| |done]. apply quiet_b.
Qed.

(** ** [reconcile] *)

(** The cursor is at a block whose chain the marks match, unless the validator
    does not have that block. *)
Definition cursor_at v db : Prop :=
  match policy_tip db with
  | Some f => is_Some (headers (block_hashes (v_dbs v)) !! f) ->
              exists old, chain_to (block_hashes (v_dbs v)) f old /\ marks_match old db
  | None => True
  end.

(** The same, and that chain has at most one block per row that hits it. *)
Definition cursor_ok v db : Prop :=
  match policy_tip db with
  | Some f => is_Some (headers (block_hashes (v_dbs v)) !! f) ->
              exists old, chain_to (block_hashes (v_dbs v)) f old /\ marks_match old db /\ single_hits old db
  | None => True
  end.

Lemma cursor_ok_at v db : cursor_ok v db -> cursor_at v db.
Proof. unfold cursor_ok, cursor_at. destruct (policy_tip db); [|done]. intros Hc (old & ? & ? & _)%Hc. by exists old. Qed.

(** A row loses its mark on the way from the cursor's chain to [new]. *)
Definition forgotten v db (new : list (BlockHash * BlockInfo)) (A : Type) (hit : BlockHash * BlockInfo * Z -> option A) : Prop :=
  exists f pre o n, policy_tip db = Some f /\ chain_to (block_hashes (v_dbs v)) f (pre ++ o) /\ new = pre ++ n /\ forgets hit pre o n.

Lemma apply_chain_diff_height db d pre :
  cd_tip_height d = Z.of_nat (length (pre ++ connected d)) - 1 ->
  let db' := foldl mark_block (foldl unmark_block (if rebuilt d then clear_marks db else db) (disconnected d))
               (with_heights (Z.of_nat (length pre)) (connected d)) in
  apply_chain_diff db d = Ok (set_rows db' (proposal_rows db') (bundle_rows db') (Some (cd_tip d))).
Proof.
  intros Hh. unfold apply_chain_diff. rewrite Hh, length_app.
  unfold checked_sub. rewrite bool_decide_eq_true_2 by lia. cbn -[foldl zip seqZ].
  replace (Z.of_nat (length pre + length (connected d)) - 1 + 1 - Z.of_nat (length (connected d))) with (Z.of_nat (length pre)) by lia.
  by rewrite with_heights_zip.
Qed.

Lemma in_line_rebuild v db tip new :
  let b := block_hashes (v_dbs v) in let act := bip300_activation_height (v_network_params v) in
  chain_wf b -> current_chain_tip (v_dbs v) = Some tip -> tip <> all_zeros -> chain_to b tip new -> 0 <= act ->
  Forall quiet (take (Z.to_nat act) new) -> policy_tip db <> Some tip -> chain_diff v (policy_tip db) = chain_diff v None ->
  exists db', reconcile v db = Some (Ok (db', Some (Z.of_nat (length new) - 1))) /\ policy_tip db' = Some tip /\ marks_match new db'.
Proof.
  intros b act Hwf Htip Hz Hc Hact Hq Hne Hnone. unfold reconcile. rewrite Hnone, (chain_diff_found v tip new None) by done. cbn -[apply_chain_diff].
  rewrite decide_False by done. fold act. destruct (marks_clear db _ Hq) as [Hm _].
  rewrite (apply_chain_diff_height db _ (take (Z.to_nat act) new)) by (cbn; by rewrite take_drop). cbn -[foldl].
  destruct (marks_extend _ (take (Z.to_nat act) new) (drop (Z.to_nat act) new) Hm) as [Hm' _]. rewrite take_drop in Hm'. by eexists.
Qed.

Lemma in_line_follow v db tip new f old :
  let b := block_hashes (v_dbs v) in
  chain_wf b -> current_chain_tip (v_dbs v) = Some tip -> tip <> all_zeros -> chain_to b tip new ->
  policy_tip db = Some f -> f <> all_zeros -> chain_to b f old -> marks_match old db ->
  exists db', reconcile v db = Some (Ok (db', Some (Z.of_nat (length new) - 1))) /\ policy_tip db' = Some tip /\
    marks_follow (forgotten v db new) new db' /\ (single_hits old db -> marks_match new db').
Proof.
  intros b Hwf Htip Hz Hc Hf Hzf Hcf Hm.
  destruct (chain_diff_found v tip new (Some f) Hwf Htip Hz Hc old Hzf Hcf) as (pre & o & n & -> & -> & _ & Hd).
  unfold reconcile. rewrite Hf, Hd. cbn -[apply_chain_diff]. case_decide as Hsame.
  - injection Hsame as ->. rewrite (chain_to_det b Hwf _ _ _ Hc Hcf). exists db. split_and!; [done..|by apply marks_match_follow|done].
  - rewrite (apply_chain_diff_height db _ pre) by done. cbn -[foldl].
    destruct (marks_move db pre o n) as [[Hp Hb] Hs]; [by eapply chain_to_nodup|done|].
    assert (Hfg : forall A (hit : _ -> option A), forgets hit pre o n -> forgotten v db (pre ++ n) A hit).
    { intros A hit ?. by exists f, pre, o, n. }
    eexists. split_and!; [reflexivity|done|split|exact Hs]; (eapply Forall_impl; [eassumption|]); cbn; naive_solver.
Qed.

Lemma reconcile_moves v db tip new :
  let b := block_hashes (v_dbs v) in let act := bip300_activation_height (v_network_params v) in
  chain_wf b -> current_chain_tip (v_dbs v) = Some tip -> tip <> all_zeros -> chain_to b tip new -> 0 <= act ->
  Forall quiet (take (Z.to_nat act) new) -> cursor_at v db ->
  exists db', reconcile v db = Some (Ok (db', Some (Z.of_nat (length new) - 1))) /\ policy_tip db' = Some tip /\ same_rows db db' /\
    marks_follow (forgotten v db new) new db' /\ (cursor_ok v db -> marks_match new db').
Proof.
  intros b act Hwf Htip Hz Hc Hact Hq Hcur.
  cut (exists db', reconcile v db = Some (Ok (db', Some (Z.of_nat (length new) - 1))) /\ policy_tip db' = Some tip /\
    marks_follow (forgotten v db new) new db' /\ (cursor_ok v db -> marks_match new db')).
  { intros (db' & Hr & ? & ? & ?). exists db'. split_and!; [done..|by eapply reconcile_same|done|done]. }
  assert (Hre : policy_tip db <> Some tip -> chain_diff v (policy_tip db) = chain_diff v None ->
    exists db', reconcile v db = Some (Ok (db', Some (Z.of_nat (length new) - 1))) /\ policy_tip db' = Some tip /\
      marks_follow (forgotten v db new) new db' /\ (cursor_ok v db -> marks_match new db')).
  { intros Hne Hcd. destruct (in_line_rebuild v db tip new) as (db' & ? & ? & ?); [done..|]. exists db'. split_and!; [done..|by apply marks_match_follow|done]. }
  unfold cursor_at in Hcur. destruct (policy_tip db) as [f|] eqn:Hf; [|by apply Hre].
  destruct (decide (is_Some (headers b !! f))) as [Hin|Hout].
  - destruct (Hcur Hin) as (old & Hcf & Hm). destruct (in_line_follow v db tip new f old) as (db' & Hr & Ht & Hfo & Hs); [done..| |done|done|].
    { intros ->. rewrite (cw_zero b Hwf) in Hin. by destruct Hin. }
    exists db'. split_and!; [done..|]. unfold cursor_ok. rewrite Hf. intros (old' & Hcf' & _ & Hs')%(fun H => H Hin).
    apply Hs. by rewrite (chain_to_det b Hwf _ _ _ Hcf Hcf').
  - apply Hre.
    + intros [= ->]. inversion Hc; subst; [done|]. apply Hout. by eexists.
    + apply chain_diff_unknown. fold b. unfold contains_header. destruct (contains_key (headers b) f) eqn:E; [|done].
      by apply contains_key_true in E.
Qed.

Lemma reconciled_in_line v db tip new :
  let b := block_hashes (v_dbs v) in let act := bip300_activation_height (v_network_params v) in
  chain_wf b -> current_chain_tip (v_dbs v) = Some tip -> tip <> all_zeros -> chain_to b tip new -> 0 <= act ->
  Forall quiet (take (Z.to_nat act) new) -> cursor_ok v db ->
  exists db', reconcile v db = Some (Ok (db', Some (Z.of_nat (length new) - 1))) /\
    policy_tip db' = Some tip /\ marks_match new db' /\ same_rows db db'.
Proof.
  intros b act Hwf Htip Hz Hc Hact Hq Hcur. destruct (reconcile_moves v db tip new) as (db' & ? & ? & ? & _ & Hm); [done..|by apply cursor_ok_at|].
  exists db'. split_and!; [done|done|by apply Hm|done].
Qed.


(** A proposal that two blocks mined: when the later one is disconnected, the row
    is unmarked, as if no block had mined it. *)
Lemma earlier_mark_forgotten n d x y :
  x <> y ->
  let info := mkBlockInfo [] [] [BE_SidechainProposal 0 (mkSidechainProposal n d)] in
  let db m tip := mkPolicyDb [mkProposalRow n (sha256d d) d m (Some (-1))] [] [] [] AAP_NewSlots WBP_Known (Some tip) in
  marks_match [(x, info); (y, info)] (db (Some y) y) /\
  apply_chain_diff (db (Some y) y) (mkChainDiff x 0 false [y] []) = Ok (db None x) /\
  marks_match [(x, info)] (db (Some x) x).
Proof.
  intros Hne info db. assert (Hh : forall m h, 0 <= h -> p_hit (mkProposalRow n (sha256d d) d m (Some (-1))) (y, info, h) = Some tt
    /\ p_hit (mkProposalRow n (sha256d d) d m (Some (-1))) (x, info, h) = Some tt).
  { intros m h Hq. unfold p_hit. cbn. by rewrite !bool_decide_eq_true_2 by (done || lia). }
  split_and!; [|unfold apply_chain_diff; cbn; unfold unmark_block, set_rows, with_mined_in; cbn; by rewrite decide_True|];
    (split; [|constructor]); constructor; [|done| |done]; unfold p_marked, mark_of, set_mark; cbn -[p_hit].
  - by rewrite (proj1 (Hh _ 1 ltac:(lia))).
  - by rewrite (proj2 (Hh _ 0 ltac:(lia))).
Qed.

(** ** Queueing *)

(** No block of the chain is after the tip, so a row queued there has no mark. *)
Lemma queued_at_tip {A} (hit : BlockHash * BlockInfo * Z -> option A) (l : list (BlockHash * BlockInfo)) :
  (forall e, after_queued (Some (Z.of_nat (length l) - 1)) e.2 = false -> hit e = None) -> mark_of hit l = None.
Proof.
  intros Hh. unfold mark_of. apply foldl_no_hit, Forall_lookup. intros i e (x & Hx & ->)%with_heights_lookup.
  apply Hh. apply bool_decide_eq_false_2. cbn. apply lookup_lt_Some in Hx. lia.
Qed.

Lemma queued_proposal l n hash data : p_marked (mark_of (p_hit (mkProposalRow n hash data None (Some (Z.of_nat (length l) - 1)))) l)
  (mkProposalRow n hash data None (Some (Z.of_nat (length l) - 1))).
Proof. unfold p_marked. rewrite queued_at_tip; [done|]. intros e E. unfold p_hit. cbn [pr_queued_at]. by rewrite E, andb_false_r. Qed.

Lemma queued_bundle l n m6id tx : b_marked (mark_of (b_hit (mkBundleRow n m6id tx None (Some (Z.of_nat (length l) - 1)) None)) l)
  (mkBundleRow n m6id tx None (Some (Z.of_nat (length l) - 1)) None).
Proof. unfold b_marked. rewrite queued_at_tip; [done|]. intros e E. unfold b_hit. cbn [br_queued_at]. by rewrite E. Qed.

Lemma filter_fmap_others {A} (P : A -> Prop) `{!forall x, Decision (P x)} (f : A -> A) (l : list A) :
  (forall x, P x -> P (f x)) -> filter (fun x => ~ P x) ((fun x => if decide (P x) then f x else x) <$> l) = filter (fun x => ~ P x) l.
Proof.
  intros Hf. induction l as [|x l IH]; [done|]. cbn [fmap list_fmap]. destruct (decide (P x)) as [Hx|Hx].
  - rewrite !filter_cons_False; [done|by intros ?|]. intros Hn. by apply Hn, Hf.
  - rewrite !filter_cons_True by done. by rewrite IH.
Qed.

(** The last block that settled the bundle paid it out. *)
Definition paid_in (l : list (BlockHash * BlockInfo)) db (n : SidechainNumber) (m6id : M6id) : bool :=
  match list_find (bundle_is n m6id) (bundle_rows db) with
  | Some (_, r) => bool_decide (snd <$> mark_of (b_hit r) l = Some true)
  | None => false
  end.

(** [put_withdrawal_bundle] refuses a bundle exactly when the store holds
    it and the last block of the chain that settled it paid it out. Otherwise
    the bundle is pending afterwards, whether it is new, still pending or
    failed earlier; every other row is as the reconciliation left it, and all
    rows still carry the marks of the chain. *)
Theorem put_withdrawal_bundle_spec v db tip new n m :
  let b := block_hashes (v_dbs v) in let act := bip300_activation_height (v_network_params v) in
  let m6id := blinded_compute_m6id m in
  chain_wf b -> current_chain_tip (v_dbs v) = Some tip -> tip <> all_zeros -> chain_to b tip new -> 0 <= act ->
  Forall quiet (take (Z.to_nat act) new) -> cursor_ok v db ->
  exists db1, reconcile v db = Some (Ok (db1, Some (Z.of_nat (length new) - 1))) /\ marks_match new db1 /\
    if paid_in new db1 n m6id
    then put_withdrawal_bundle v db n m = Some (Err (AlreadyPaidOut m6id))
    else exists db', put_withdrawal_bundle v db n m = Some (Ok (db', m6id)) /\
           policy_tip db' = Some tip /\ marks_match new db' /\
           filter (fun r => ~ bundle_is n m6id r) (bundle_rows db') = filter (fun r => ~ bundle_is n m6id r) (bundle_rows db1) /\
           (exists r, r ∈ bundle_rows db' /\ bundle_is n m6id r) /\
           (forall r, r ∈ bundle_rows db' -> bundle_is n m6id r -> settled_in r = None).
Proof.
  intros b act m6id Hwf Htip Hz Hc Hact Hq Hcur.
  destruct (reconciled_in_line v db tip new Hwf Htip Hz Hc Hact Hq Hcur) as (db1 & Hr & Ht & [Hp Hb] & _).
  exists db1. split_and!; [done..|]. unfold put_withdrawal_bundle, reconciled, paid_in. rewrite Hr. cbn. fold m6id.
  destruct (list_find (bundle_is n m6id) (bundle_rows db1)) as [[i r]|] eqn:Hf.
  - apply list_find_Some in Hf as (Hi & His & _).
    assert (Hpo : paid_out r = snd <$> mark_of (b_hit r) new) by (eapply Forall_lookup in Hb as [_ ?]; done).
    rewrite <- Hpo. case_bool_decide as Hpaid; [by rewrite decide_True|]. rewrite decide_False by done.
    eexists. split_and!; [reflexivity|done|split|..]; cbn.
    + done.
    + apply Forall_fmap. eapply Forall_impl; [exact Hb|]. intros r' Hr'. cbn. case_decide; [apply queued_bundle|done].
    + by apply (filter_fmap_others (bundle_is n m6id)).
    + eexists. split; [apply list_elem_of_fmap; exists r; split; [reflexivity|by eapply list_elem_of_lookup_2]|]. by rewrite decide_True.
    + intros r' (r0 & -> & _)%list_elem_of_fmap. case_decide; [done|]. by intros ?.
  - apply list_find_None in Hf. eexists. split_and!; [reflexivity|done|split|..]; cbn.
    + done.
    + apply Forall_app. split; [done|]. constructor; [apply queued_bundle|done].
    + rewrite filter_app, filter_cons_False, filter_nil, app_nil_r; [done|]. intros Hn. by apply Hn.
    + eexists. split; [apply elem_of_app; right; by apply list_elem_of_singleton|done].
    + intros r' [Hin|Hin]%elem_of_app; [|by apply list_elem_of_singleton in Hin as ->]. intros Hb'. eapply Forall_forall in Hf; [|done]. done.
Qed.

End PolicyProofs.
