(* ===== verification/Producer.v ===== *)
(** * The block producer

    [lib/block_producer/coinbase.rs] and [lib/block_producer/mod.rs]: the
    drivechain messages of a new coinbase (M1 to M4, and M7 for the selected
    requests), the transactions at the end of the block (withdrawals that are
    due, and one that consolidates the treasuries), and the producer as the
    node's enforcer. *)

From Stdlib Require Import Strings.Byte.
From stdpp Require Import base numbers list gmap.
From S2P Require Import Prelude OrderMap Bitcoin Types Messages M6 Dbs BlockHashes Treasury Diff Reversible Handlers ConnectBlock Enforcer Sync Facade Policy.
Open Scope Z_scope.

(** ** The environment *)

(** A [HashMap] is iterated in an order of its own. *)
Class HashIter := {
  hash_iter {A} : gmap SidechainNumber A -> list (SidechainNumber * A);
  hash_iter_perm {A} (m : gmap SidechainNumber A) : hash_iter m ≡ₚ map_to_list m }.

(** What a template takes from rust-bitcoin and from the system: transaction
    weights, the Merkle root of the transaction ids, the script with a block's
    height, the easiest target and the time. *)
Class TemplateEnv := {
  tx_weight : Transaction -> Z;
  merkle_root_of : list Txid -> bytes;
  bip34_height_script : Z -> bytes;
  max_target_bits : Z;
  unix_time : Z }.

(** The enums of [error.rs] for templates and coinbases, without the nesting: an
    error of the validator, of the policy store or of the builder is wrapped
    once. The text of a rejection is the validator's [RejectReason]. *)
Inductive ProducerError :=
| PRE_Policy (e : PolicyError)
| PRE_Db (e : DbError)
| PRE_GetHeaderInfo (e : GetHeaderInfoError)
| PRE_CoinbaseMessages (e : CoinbaseMessagesError)
| PRE_PushBytes (e : PushBytesError)
| NoCoinbaseTxn
| BmmBidFee
| PRE_ConnectBlock (e : EnforcerConnectBlockError)
| ApplyCoinbase (reason : RejectReason)
| RejectedTemplate (reason : RejectReason).

(** *** Computations on the policy store

    [None] is a walk over headers that has not ended within its fuel. A failed
    step keeps what earlier transactions committed. *)

Definition ProducerM (A : Type) : Type := PolicyDb -> PolicyDb * option (Res ProducerError A).

Definition pret {A} (a : A) : ProducerM A := fun db => (db, Some (Ok a)).
Definition pbind {A B} (m : ProducerM A) (f : A -> ProducerM B) : ProducerM B := fun db =>
  match m db with
  | (db, Some (Ok a)) => f a db
  | (db, Some (Err e)) => (db, Some (Err e))
  | (db, Some Panic) => (db, Some Panic)
  | (db, None) => (db, None)
  end.
Definition plift {E A} (conv : E -> ProducerError) (r : Res E A) : ProducerM A := fun db => (db, Some (map_err conv r)).
Definition pget : ProducerM PolicyDb := fun db => (db, Some (Ok db)).
Definition transact {A} (f : PolicyDb -> option (Res PolicyError (PolicyDb * A))) : ProducerM A := fun db =>
  match f db with
  | Some (Ok (db', a)) => (db', Some (Ok a))
  | Some (Err e) => (db, Some (Err (PRE_Policy e)))
  | Some Panic => (db, Some Panic)
  | None => (db, None)
  end.

#[export] Instance ProducerM_bind : MBind ProducerM := fun A B f m => pbind m f.
#[export] Instance ProducerM_ret : MRet ProducerM := fun A a => pret a.

(** [Iterator::min_by_key]: the first of the smallest. *)
Definition min_by_key {A} (key : A -> bytes) (l : list A) : option A :=
  foldl (fun best a => match best with
                       | None => Some a
                       | Some b => if bytes_leb (key b) (key a) then best else Some a
                       end) None l.

Definition saturating_add_u32 (a b : Z) : Z := Z.min u32_max (a + b).
Definition saturating_add_u16 (a b : Z) : Z := Z.min u16_max (a + b).

Abbreviation BundleProposals := (list (M6id * BlindedM6 * option PendingM6idInfo)).

(** ** Acknowledgements *)

Section Acks.
Context `{Bitcoin, HashIter}.

Definition used_slots (active : list Sidechain) : gset SidechainNumber :=
  list_to_set ((fun sc => sp_sidechain_number (sc_proposal sc)) <$> active).

(** A later proposal for the same slot replaces an earlier one. *)
Definition get_active_sidechain_proposals (v : Validator) : gmap SidechainNumber SidechainProposal :=
  foldl (fun m '(_, sc) => <[sp_sidechain_number (sc_proposal sc) := sc_proposal sc]> m) ∅ (get_sidechains v).

Definition validate_sidechain_ack (ack : SidechainNumber * Hash) (pending_proposals : gmap SidechainNumber SidechainProposal) : bool :=
  match pending_proposals !! ack.1 with
  | None => false
  | Some p => bool_decide (sha256d (sp_description p) = ack.2)
  end.

(** The automatic ACKs, one per slot. *)
Definition auto_ack (used : gset SidechainNumber) (policy : AckAllProposalsPolicy) (acks : list (SidechainNumber * Hash))
    (e : SidechainNumber * SidechainProposal) : list (SidechainNumber * Hash) :=
  let '(n, p) := e in
  if negb (auto_acks policy (bool_decide (n ∈ used))) then acks
  else if existsb (fun ack => bool_decide (ack.1 = n)) acks then acks
  else acks ++ [(n, sha256d (sp_description p))].

Definition select_sidechain_acks (stored : list (SidechainNumber * Hash)) (pending_proposals : gmap SidechainNumber SidechainProposal)
    (used : gset SidechainNumber) (policy : AckAllProposalsPolicy)
    : list (SidechainNumber * Hash) * list (SidechainNumber * Hash) :=
  let valid := filter (fun ack => validate_sidechain_ack ack pending_proposals = true) stored in
  let stale := filter (fun ack => validate_sidechain_ack ack pending_proposals = false) stored in
  (foldl (auto_ack used policy) valid (hash_iter pending_proposals), stale).

Definition select_sidechain_proposal (queued : list SidechainProposal) (proposed : gset SidechainProposalId) : option SidechainProposal :=
  min_by_key (fun p => spi_sidechain_number (compute_id p) :: spi_description_hash (compute_id p))
    (filter (fun p => compute_id p ∉ proposed) queued).

(** An M2 for a slot without an active sidechain. *)
Definition unused_slot_ack (used : gset SidechainNumber) (m : CoinbaseMessage * nat) : option SidechainProposalId :=
  match m.1 with
  | CM_M2 m2 => if decide (m2_sidechain_number m2 ∈ used) then None
                else Some (mkSidechainProposalId (m2_sidechain_number m2) (m2_description_hash m2))
  | _ => None
  end.

Definition m2s_may_activate_unused_slot (v : Validator) (c : CoinbaseMessages) (used : gset SidechainNumber) (next_height : Z) : bool :=
  if decide (m2_ack_slots c = ∅) then false else
  let unused_slot_acks : gset SidechainProposalId := list_to_set (omap (unused_slot_ack used) (messages c)) in
  if decide (unused_slot_acks = ∅) then false else
  existsb (fun '(id, sc) =>
             let age := saturating_sub next_height (proposal_height (sc_status sc)) in
             bool_decide (id ∈ unused_slot_acks)
             && activates_unused_slot (np_thresholds (v_network_params v)) (saturating_add_u16 (vote_count (sc_status sc)) 1) age)
    (get_sidechains v).

End Acks.

(** ** Bundles *)

Section Bundles.
Context `{Bitcoin, TxCodec, HashIter}.

Definition join_bundles (v : Validator) (used : gset SidechainNumber) (res : gmap SidechainNumber BundleProposals)
    (e : SidechainNumber * list (M6id * BlindedM6)) : Res ProducerError (gmap SidechainNumber BundleProposals) :=
  let '(n, m6ids) := e in
  if negb (bool_decide (n ∈ used)) then Ok res else
  pending ← map_err PRE_Db (get_pending_withdrawals v n);
  let l := (fun e => (e, om_get e.1 pending)) <$> m6ids in
  Ok (if decide (l = []) then res else <[n := l]> res).

Definition get_bundle_proposals (v : Validator) (used : gset SidechainNumber) : ProducerM (gmap SidechainNumber BundleProposals) :=
  stored ← transact (db_get_bundle_proposals v);
  plift id (foldM (join_bundles v used) (hash_iter stored) ∅).

(** The bundles of a slot that are not on the chain. *)
Definition unproposed (e : SidechainNumber * BundleProposals) : list (SidechainNumber * M6id) :=
  (fun b : M6id * BlindedM6 * option PendingM6idInfo => (e.1, b.1.1)) <$> filter (fun b => b.2 = None) e.2.

Definition select_bundle_proposal (bundle_proposals : gmap SidechainNumber BundleProposals) : option (SidechainNumber * M6id) :=
  min_by_key (fun e => e.1 :: e.2)
    (concat (unproposed <$> hash_iter bundle_proposals)).

(** The explicit ACKs of a slot. *)
Definition acked_by_slot (acks : list (SidechainNumber * M6id)) (n : SidechainNumber) : gset M6id :=
  list_to_set (snd <$> filter (fun a => a.1 = n) acks).

Definition bundle_vote (v : Validator) (acks : list (SidechainNumber * M6id)) (bundle_proposals : gmap SidechainNumber BundleProposals)
    (policy : WithdrawalBundlePolicy) (votes : list WithdrawalBundleVote) (sc : Sidechain) : Res DbError (list WithdrawalBundleVote) :=
  let n := sp_sidechain_number (sc_proposal sc) in
  pending ← get_pending_withdrawals v n;
  let ours : gset M6id := list_to_set ((fun e => e.1.1) <$> default [] (bundle_proposals !! n)) in
  Ok (votes ++ [resolve policy (fst <$> pending) (acked_by_slot acks n) ours]).

Definition select_bundle_votes (v : Validator) (acks : list (SidechainNumber * M6id)) (bundle_proposals : gmap SidechainNumber BundleProposals)
    (active : list Sidechain) (policy : WithdrawalBundlePolicy) : Res DbError (list WithdrawalBundleVote) :=
  foldM (bundle_vote v acks bundle_proposals policy) active [].

End Bundles.

(** ** The coinbase *)

Section Coinbase.
Context `{Bitcoin, Nom, TxCodec, HashIter}.

(** The loop over the ACKs. *)
Definition add_ack (b : CoinbaseBuilder) (ack : SidechainNumber * Hash) : Res CoinbaseMessagesError CoinbaseBuilder :=
  if bool_decide (is_Some (m2_ack_slot_vout (cb_messages b) ack.1)) then Ok b else ack_sidechain b ack.1 ack.2.

Definition extend_coinbase_txouts (v : Validator) (ack_policy : AckAllProposalsPolicy) (bundle_policy : WithdrawalBundlePolicy)
    (mainchain_tip : BlockHash) (coinbase_txouts : list TxOut) : ProducerM (list TxOut) :=
  hi ← plift PRE_GetHeaderInfo (get_header_info (block_hashes (v_dbs v)) mainchain_tip);
  let next_height := saturating_add_u32 (hi_height hi) 1 in
  if bool_decide (next_height < bip300_activation_height (v_network_params v)) then pret coinbase_txouts else
  b ← plift PRE_CoinbaseMessages (coinbase_builder_new coinbase_txouts);
  sidechain_proposals ← transact (get_our_sidechain_proposals v);
  let proposed : gset SidechainProposalId := list_to_set (fst <$> get_sidechains v) in
  b ← match select_sidechain_proposal sidechain_proposals proposed with
      | Some p => plift PRE_CoinbaseMessages (propose_sidechain b p)
      | None => pret b
      end;
  db ← pget;
  let active_sidechain_proposals := get_active_sidechain_proposals v in
  active ← plift PRE_Db (get_active_sidechains v);
  let used := used_slots active in
  let acks := (select_sidechain_acks (sidechain_acks db) active_sidechain_proposals used ack_policy).1 in
  b ← plift PRE_CoinbaseMessages (foldM add_ack acks b);
  bundle_proposals ← get_bundle_proposals v used;
  b ← match (if m3_exists (cb_messages b) then None else select_bundle_proposal bundle_proposals) with
      | Some (n, m6id) => plift PRE_CoinbaseMessages (propose_bundle b n m6id)
      | None => pret b
      end;
  db ← pget;
  votes ← plift PRE_Db (select_bundle_votes v (bundle_acks db) bundle_proposals active bundle_policy);
  let votes_something := existsb (fun vote => negb (bool_decide (vote = Abstain))) votes in
  b ← (if votes_something && negb (m2s_may_activate_unused_slot v (cb_messages b) used next_height)
       then plift PRE_CoinbaseMessages (ack_bundles b (from_votes votes)) else pret b);
  plift PRE_PushBytes (build b).

End Coinbase.

(** ** The suffix *)

Section Suffix.
Context `{Bitcoin, Nom, TxCodec, HashIter}.

Definition new_treasury_value (v fee payout : Amount) : Res AmountUnderflowError Amount :=
  ok_or AmountUnderflow (a ← checked_sub v fee; checked_sub a payout).

Definition finalize_m6 (op : byte) (n : SidechainNumber) (c : Ctip) (us : list Ctip) (b : BlindedM6)
    : Res AmountUnderflowError (Transaction * Ctip) :=
  total ← amount_sum (ctip_value <$> us);
  treasury_value_in ← amount_add (ctip_value c) total;
  new_value ← new_treasury_value treasury_value_in (fee b) (payout b);
  m6 ← into_m6 b op n c us;
  Ok (m6, mkCtip (mkOutPoint (compute_txid m6) 0) new_value).

(** The bundles of one slot. *)
Fixpoint slot_m6s (params : NetworkParams) (n : SidechainNumber) (m6ids : BundleProposals) (ctips : Ctips) (res : list Transaction)
    : Res ProducerError (Ctips * list Transaction) :=
  match m6ids with
  | [] => Ok (ctips, res)
  | (_, _, None) :: m6ids => slot_m6s params n m6ids ctips res
  | (_, b, Some info) :: m6ids =>
      if bool_decide (pm_vote_count info <= withdrawal_bundle_inclusion_threshold (np_thresholds params))
      then slot_m6s params n m6ids ctips res else
      match consolidated ctips !! n with
      | None => Ok (ctips, res)
      | Some c =>
          let us := default [] (uc_get_by_sidechain (unconsolidated ctips) n) in
          total ← amount_sum (ctip_value <$> us);
          _ ← amount_add (ctip_value c) total;
          match finalize_m6 (op_drivechain params) n c us b with
          | Ok (m6, successor) =>
              slot_m6s params n m6ids
                (mkCtips (<[n := successor]> (consolidated ctips)) (uc_remove_sidechain n (unconsolidated ctips)).1) (res ++ [m6])
          | Err _ => slot_m6s params n m6ids ctips res
          | Panic => Panic
          end
      end
  end.

(** One slot's part of the consolidation; values are added with a panic on
    overflow. *)
Definition consolidate_slot (params : NetworkParams) (st : gmap SidechainNumber Ctip * Transaction) (e : SidechainNumber * list Ctip)
    : Res ProducerError (gmap SidechainNumber Ctip * Transaction) :=
  let '(ctips, tx) := st in
  let '(n, us) := e in
  let cs := match ctips !! n with Some c => c :: us | None => us end in
  value_out ← foldM (fun v c => amount_add v (ctip_value c)) cs 0;
  Ok (delete n ctips, mkTransaction (version tx) (lock_time tx) (input tx ++ (txin_of ∘ ctip_outpoint <$> cs))
                        (output tx ++ [create_m5_deposit_output (op_drivechain params) n value_out])).

Definition suffix_txs_for_proposals (bundle_proposals : gmap SidechainNumber BundleProposals) (ctips : Ctips) (params : NetworkParams)
    : Res ProducerError (list Transaction) :=
  '(ctips, res) ← foldM (fun st e => slot_m6s params e.1 e.2 st.1 st.2) (hash_iter bundle_proposals) (ctips, []);
  if uc_is_empty (unconsolidated ctips) then Ok res else
  '(_, tx) ← foldM (consolidate_slot params) (hash_iter (by_sidechain (unconsolidated ctips)))
               (consolidated ctips, mkTransaction 2 0 [] []);
  Ok (res ++ [tx]).

(** Bundles that are not payable after the transactions before the suffix. *)
Definition still_payable (params : NetworkParams) (pending : option PendingM6ids) (m6id : M6id) : bool :=
  match (p ← pending; om_get m6id p) with
  | Some after => bool_decide (withdrawal_bundle_inclusion_threshold (np_thresholds params) < pm_vote_count after)
  | None => false
  end.

Definition generate_suffix_txs (v : Validator) (ctips : Ctips) (pending_withdrawals : option (gmap SidechainNumber PendingM6ids))
    : ProducerM (list Transaction) :=
  let params := v_network_params v in
  active ← plift PRE_Db (get_active_sidechains v);
  bundle_proposals ← get_bundle_proposals v (used_slots active);
  let bundle_proposals := match pending_withdrawals with
    | None => bundle_proposals
    | Some pending =>
        map_imap (fun n (m6ids : BundleProposals) =>
                    Some ((fun '(m6id, b, info) => (m6id, b, if still_payable params (pending !! n) m6id then info else None)) <$> m6ids))
          bundle_proposals
    end in
  plift id (suffix_txs_for_proposals bundle_proposals ctips params).

End Suffix.

(** ** The producer as the node's enforcer *)

Record BlockProducer := mkBlockProducer {
  bp_validator : Validator;
  bp_db : PolicyDb;
  mempool_payouts : gmap Txid (SidechainNumber * M6id);
  last_gbt_error : option ProducerError }.

Section Enforcing.
Context `{Bitcoin, Nom}.
Implicit Types (p : BlockProducer).

Definition set_validator p (v : Validator) : BlockProducer := mkBlockProducer v (bp_db p) (mempool_payouts p) (last_gbt_error p).
Definition set_payouts p (m : gmap Txid (SidechainNumber * M6id)) : BlockProducer := mkBlockProducer (bp_validator p) (bp_db p) m (last_gbt_error p).

Definition forget_mempool_payouts p (block : Block) : BlockProducer :=
  set_payouts p (foldl (fun m tx => delete (compute_txid tx) m) (mempool_payouts p) (txdata block)).

Definition producer_connect_block p (block : Block) : Res EnforcerConnectBlockError (BlockProducer * ConnectBlockAction) :=
  '(v, res) ← enforcer_connect_block (bp_validator p) block;
  let p := set_validator p v in
  Ok (match res with AcceptBlock _ => forget_mempool_payouts p block | _ => p end, res).

Definition producer_accept_tx p (tx : Transaction) : Res ValidateTransaction (BlockProducer * TxAcceptAction) :=
  '(v, action, payout) ← accept_tx_with_payout (bp_validator p) tx;
  let p := set_validator p v in
  Ok (match payout with Some o => set_payouts p (<[compute_txid tx := o]> (mempool_payouts p)) | None => p end, action).

(** The mempool's withdrawals that are not payable after the coinbase. *)
Definition unpayable (threshold : Z) (pending_after : gmap SidechainNumber PendingM6ids) (o : SidechainNumber * M6id) : bool :=
  match (pending ← pending_after !! o.1; om_get o.2 pending) with
  | None => true
  | Some info => bool_decide (pm_vote_count info <= threshold)
  end.

Definition unpayable_mempool_payouts p (pending_after : gmap SidechainNumber PendingM6ids) : gset Txid :=
  let threshold := withdrawal_bundle_inclusion_threshold (np_thresholds (v_network_params (bp_validator p))) in
  dom (filter (fun e => unpayable threshold pending_after e.2 = true) (mempool_payouts p)).

End Enforcing.

(** ** Templates *)

(** The winning bid of every slot: the highest fee, the first of equal ones. *)
Definition auction_bid (winners : gmap SidechainNumber (BmmCommitment * Txid * Amount)) (bid : SidechainNumber * BmmCommitment * Txid * Amount)
    : gmap SidechainNumber (BmmCommitment * Txid * Amount) :=
  let '(n, commitment, txid, fee) := bid in
  match winners !! n with
  | None => <[n := (commitment, txid, fee)]> winners
  | Some winner => if bool_decide (winner.2 < fee) then <[n := (commitment, txid, fee)]> winners else winners
  end.

Definition bmm_auction_winners (bids : list (SidechainNumber * BmmCommitment * Txid * Amount))
    : gmap SidechainNumber (BmmCommitment * Txid * Amount) := foldl auction_bid ∅ bids.

Record InitialTemplate := mkInitialTemplate {
  it_coinbase_txouts : list TxOut;
  exclude_mempool_txs : gset Txid;
  it_reserved : list Z }.

Record FilledTemplate := mkFilledTemplate {
  ft_coinbase_txouts : list TxOut;
  ft_prefix_txs : list (Transaction * Amount);
  ft_suffix_txs : list (Transaction * Amount) }.

Definition MAX_MONEY : Amount := 2100000000000000.

Section Templates.
Context `{Bitcoin, Nom, TxCodec, HashIter, TemplateEnv}.
(** [Validator::bmm_bid_fee]: the fee of a mempool transaction, [Ok None] if it
    is not there, an error if the node cannot be asked. *)
Context (bmm_bid_fee : Txid -> Res ProducerError (option Amount)).

Definition dry_run_block (tip : BlockHash) (h : Z) (coinbase_txouts : list TxOut) (prefix_txs : list Transaction) : Block :=
  let coinbase := mkTransaction 2 0 [mkTxIn (mkOutPoint all_zeros 4294967295) (bip34_height_script h) u32_max [all_zeros]] coinbase_txouts in
  mkBlock (mkHeader 2 tip (merkle_root_of (compute_txid coinbase :: (compute_txid <$> prefix_txs))) unix_time max_target_bits 0)
    (coinbase :: prefix_txs).

(** The bids of a slot, in any order. *)
Definition slot_requests (requests : gmap BmmCommitment (gset Txid)) : list (BmmCommitment * Txid) :=
  concat ((fun e : BmmCommitment * gset Txid => pair e.1 <$> elements e.2) <$> map_to_list requests).

Definition fetch_bid (bids : list (SidechainNumber * BmmCommitment * Txid * Amount)) (e : SidechainNumber * (BmmCommitment * Txid))
    : Res ProducerError (list (SidechainNumber * BmmCommitment * Txid * Amount)) :=
  fee ← bmm_bid_fee e.2.2;
  Ok (match fee with Some fee => bids ++ [(e.1, e.2.1, e.2.2, fee)] | None => bids end).

Definition fetch_bids (seen : gmap SidechainNumber (gmap BmmCommitment (gset Txid)))
    : Res ProducerError (list (SidechainNumber * BmmCommitment * Txid * Amount)) :=
  foldM fetch_bid (concat ((fun e : SidechainNumber * gmap BmmCommitment (gset Txid) => pair e.1 <$> slot_requests e.2) <$> hash_iter seen)) [].

(** The bids that lost, or could not be asked for. *)
Definition losing_bids (seen : gmap SidechainNumber (gmap BmmCommitment (gset Txid)))
    (winners : gmap SidechainNumber (BmmCommitment * Txid * Amount)) : gset Txid :=
  list_to_set (concat ((fun e : SidechainNumber * gmap BmmCommitment (gset Txid) =>
    filter (fun txid => Some txid <> ((fun w : BmmCommitment * Txid * Amount => w.1.2) <$> winners !! e.1)) (snd <$> slot_requests e.2))
      <$> map_to_list seen)).

Definition fake_ctips : Ctips :=
  mkCtips (list_to_map ((fun n => (to_u8 n, mkCtip (mkOutPoint (replicate 32 (to_u8 n)) 0) MAX_MONEY)) <$> seqZ 0 256)) unconsolidated_default.

Definition initial_block_template (p : BlockProducer) (parent_block_hash : BlockHash) (coinbase_txn : bool) (t : InitialTemplate)
    : ProducerM InitialTemplate :=
  let v := bp_validator p in
  if negb coinbase_txn then plift id (Err NoCoinbaseTxn) else
  mainchain_tip ← plift PRE_Db (get_mainchain_tip v);
  db ← pget;
  txouts ← extend_coinbase_txouts v (ack_policy db) (bundle_policy db) mainchain_tip (it_coinbase_txouts t);
  hi ← plift PRE_GetHeaderInfo (get_header_info (block_hashes (v_dbs v)) mainchain_tip);
  state ← plift PRE_ConnectBlock (get_withdrawal_state_after v (dry_run_block mainchain_tip (hi_height hi + 1) txouts []));
  state ← plift id (match state with inl state => Ok state | inr reason => Err (ApplyCoinbase reason) end);
  let seen := get_seen_bmm_requests_for_parent_block (block_hashes (v_dbs v)) parent_block_hash in
  bids ← plift id (fetch_bids seen);
  fake_suffix_txs ← generate_suffix_txs v fake_ctips None;
  pret (mkInitialTemplate txouts
          (exclude_mempool_txs t ∪ unpayable_mempool_payouts p (pending_withdrawals state) ∪ losing_bids seen (bmm_auction_winners bids))
          (it_reserved t ++ (tx_weight <$> fake_suffix_txs))).

(** The loop over the prefix: an M7 for the first request of every slot. *)
Definition accept_request (b : CoinbaseBuilder) (tx : Transaction) : Res CoinbaseMessagesError CoinbaseBuilder :=
  match parse_m8_tx tx with
  | Some r => if bool_decide (m7_bmm_accept_slot_vout (cb_messages b) (m8_sidechain_number r) = None)
              then bmm_accept b (m8_sidechain_number r) (m8_sidechain_block_hash r) else Ok b
  | None => Ok b
  end.

Definition block_template_suffix (p : BlockProducer) (coinbase_txn : bool) (t : FilledTemplate) : ProducerM FilledTemplate :=
  let v := bp_validator p in
  if negb coinbase_txn then pret t else
  '(tip, h) ← plift PRE_GetHeaderInfo match try_get_mainchain_tip v with
               | Some tip => hi ← get_header_info (block_hashes (v_dbs v)) tip; Ok (tip, hi_height hi + 1)
               | None => Ok (all_zeros, 0)
               end;
  b ← plift PRE_CoinbaseMessages (coinbase_builder_new (ft_coinbase_txouts t));
  b ← plift PRE_CoinbaseMessages (foldM accept_request (fst <$> ft_prefix_txs t) b);
  ext ← plift PRE_PushBytes (build_extension b);
  let txouts := ft_coinbase_txouts t ++ ext in
  state ← plift PRE_ConnectBlock (get_withdrawal_state_after v (dry_run_block tip h txouts (fst <$> ft_prefix_txs t)));
  state ← plift id (match state with inl state => Ok state | inr reason => Err (RejectedTemplate reason) end);
  suffix_txs ← generate_suffix_txs v (ws_ctips state) (Some (pending_withdrawals state));
  pret (mkFilledTemplate txouts (ft_prefix_txs t) (ft_suffix_txs t ++ ((fun tx => (tx, 0)) <$> suffix_txs))).

(** The public handlers keep the last error. *)
Definition record_gbt_result {A} (p : BlockProducer) (m : ProducerM A) : BlockProducer * option (Res ProducerError A) :=
  let '(db, r) := m (bp_db p) in
  (mkBlockProducer (bp_validator p) db (mempool_payouts p) (match r with Some (Err e) => Some e | Some (Ok _) => None | _ => last_gbt_error p end), r).

End Templates.
