(* ===== verification/ProducerProofs.v ===== *)
(** * The producer's blocks and the validator

    The coinbase the producer builds from the validator's tables and its policy
    store is one that the validator accepts. *)

From Stdlib Require Import Strings.Byte.
From stdpp Require Import base numbers list gmap sorting.
From S2P Require Import Prelude OrderMap Bitcoin Types Messages M6 Dbs BlockHashes Treasury Diff Reversible Handlers HandlerProofs HandlerSpecs ConnectBlock ConnectProofs Reorg BlockRules Accept Enforcer EnforcerProofs Sync Facade Policy PolicyProofs Producer.
Open Scope Z_scope.

(** ** Computations *)

Lemma pbind_Ok {A B} (m : ProducerM A) (f : A -> ProducerM B) db db' b :
  (m ≫= f) db = (db', Some (Ok b)) <-> exists db1 a, m db = (db1, Some (Ok a)) /\ f a db1 = (db', Some (Ok b)).
Proof.
  unfold mbind, ProducerM_bind, pbind. destruct (m db) as [db1 [[a|e|]|]]; split; try naive_solver.
Qed.

Lemma plift_Ok {E A} (conv : E -> ProducerError) (r : Res E A) db db' a :
  plift conv r db = (db', Some (Ok a)) <-> db' = db /\ r = Ok a.
Proof. unfold plift. destruct r; cbn; naive_solver. Qed.

Lemma transact_Ok {A} (f : PolicyDb -> option (Res PolicyError (PolicyDb * A))) db db' a :
  transact f db = (db', Some (Ok a)) <-> f db = Some (Ok (db', a)).
Proof. unfold transact. destruct (f db) as [[[db1 x]| |]|]; naive_solver. Qed.

Ltac prod_inv :=
  repeat match goal with
  | E : (?m ≫= ?f) _ = (_, Some (Ok _)) |- _ => apply pbind_Ok in E as (? & ? & ? & E)
  | E : plift _ _ _ = (_, Some (Ok _)) |- _ => apply plift_Ok in E as [-> E]
  | E : transact _ _ = (_, Some (Ok _)) |- _ => apply transact_Ok in E
  | E : pret _ _ = (_, Some (Ok _)) |- _ => injection E as <- <-
  | E : pget _ = (_, Some (Ok _)) |- _ => injection E as <- <-
  end.

Section ProducerProofs.
Context `{Bitcoin, !BitcoinLaws, Nom, !NomLaws, TxCodec, HashIter}.
Implicit Types (v : Validator) (db : PolicyDb).

(** ** Small selections *)

Lemma min_by_key_elem {A} (key : A -> bytes) l a : min_by_key key l = Some a -> a ∈ l.
Proof.
  unfold min_by_key. set (f := fun best a => _).
  assert (Hgen : forall l o, foldl f o l = Some a -> a ∈ l \/ o = Some a).
  { clear l. induction l as [|x l IH]; intros o; cbn; [by right|]. intros Hf. destruct (IH _ Hf) as [?|Hx]; [by left; right|].
    unfold f in Hx. destruct o as [b|]; [|injection Hx as ->; by left; left]. destruct (bytes_leb _ _); [by right|]. injection Hx as ->. by left; left. }
  intros Hf. by destruct (Hgen l None Hf).
Qed.

Lemma hash_iter_elem {A} (m : gmap SidechainNumber A) n x : (n, x) ∈ hash_iter m <-> m !! n = Some x.
Proof. by rewrite hash_iter_perm, elem_of_map_to_list. Qed.

(** Only pending proposals are acknowledged. *)
Lemma select_acks_hash stored pending used policy ack :
  ack ∈ (select_sidechain_acks stored pending used policy).1 -> exists p, pending !! ack.1 = Some p /\ ack.2 = sha256d (sp_description p).
Proof.
  unfold select_sidechain_acks. cbn [fst].
  assert (Hgen : forall l acks, (forall e, e ∈ l -> pending !! e.1 = Some e.2) ->
    (forall a, a ∈ acks -> exists p, pending !! a.1 = Some p /\ a.2 = sha256d (sp_description p)) ->
    forall a, a ∈ foldl (auto_ack used policy) acks l -> exists p, pending !! a.1 = Some p /\ a.2 = sha256d (sp_description p)).
  { induction l as [|[n p] l IH]; intros acks Hl Hacks; cbn [foldl]; [done|]. apply IH; [intros e He; apply Hl; by right|].
    unfold auto_ack. destruct (negb _); [done|]. destruct (existsb _ _); [done|].
    intros a [Ha| ->%list_elem_of_singleton]%elem_of_app; [by apply Hacks|]. exists p. split; [|done]. apply (Hl (n, p)). left. }
  apply Hgen.
  - intros [n p] He. by apply hash_iter_elem.
  - intros a [Ha _]%list_elem_of_filter. unfold validate_sidechain_ack in Ha. destruct (pending !! a.1) as [p|]; [|done].
    apply bool_decide_eq_true in Ha. by exists p.
Qed.

(** A vote for a bundle is for one of the pending ones. *)
Lemma resolve_index policy pending acked ours i :
  resolve policy pending acked ours = Upvote i -> 0 <= i <= u16_max /\ i < Z.of_nat (length pending).
Proof.
  assert (Hf : forall f w i, first_matching pending f = Some w -> w = Upvote i -> 0 <= i <= u16_max /\ i < Z.of_nat (length pending)).
  { intros f w j. unfold first_matching. destruct (Types.position f pending) as [k|] eqn:E; [|done]. case_decide; [|done].
    intros [= <-] [= <-]. split; [lia|].
    assert (Hk : (k < length pending)%nat); [|lia]. clear -E. revert k E. induction pending as [|a l IH]; intros k; cbn; [done|].
    destruct (f a); [intros [= <-]; lia|]. intros (j & Hj & ->)%fmap_Some. specialize (IH j Hj). lia. }
  unfold resolve. destruct (first_matching pending _) as [w|] eqn:E; [intros ->; by eapply Hf|].
  assert (Hd : forall f, default Abstain (first_matching pending f) = Upvote i -> 0 <= i <= u16_max /\ i < Z.of_nat (length pending)).
  { intros f. destruct (first_matching pending f) as [w|] eqn:E'; cbn; [|done]. intros ->. by eapply Hf. }
  destruct policy; try done; apply Hd.
Qed.

(** ** What the producer reads *)

(** The active sidechain of a slot carries the slot's number. *)
Definition slots_named (a : ActiveSidechainDbs) : Prop :=
  forall n sc, sidechain a !! n = Some sc -> sp_sidechain_number (sc_proposal sc) = n.

Definition slot_of (sc : Sidechain) : SidechainNumber := sp_sidechain_number (sc_proposal sc).

Lemma foldM_snoc_Forall2 {E A B} (f : list B -> A -> Res E (list B)) (R : A -> B -> Prop) l acc r :
  (forall acc a r, a ∈ l -> f acc a = Ok r -> exists b, r = acc ++ [b] /\ R a b) ->
  foldM f l acc = Ok r -> exists bs, r = acc ++ bs /\ Forall2 R l bs.
Proof.
  revert acc. induction l as [|a l IH]; intros acc Hf; cbn; [intros [= <-]; exists []; by rewrite app_nil_r|].
  intros (acc1 & Hf1 & Hf2)%bind_Ok. apply Hf in Hf1 as (b & -> & Hb); [|left].
  destruct (IH (acc ++ [b])) as (bs & -> & Hbs); [intros; eapply Hf; [by right|done]|done|].
  exists (b :: bs). rewrite <- app_assoc. split; [done|by constructor].
Qed.

Lemma active_sidechains_slots v active :
  slots_named (active_sidechains (v_dbs v)) -> get_active_sidechains v = Ok active -> slot_of <$> active = numbers (active_sidechains (v_dbs v)).
Proof.
  intros Hnamed Ha. unfold get_active_sidechains in Ha.
  apply (foldM_snoc_Forall2 _ (fun n sc => slot_of sc = n)) in Ha as (bs & -> & Hbs).
  - cbn. clear Hnamed. induction Hbs as [|n sc l bs <- _ IH]; [done|]. cbn. by rewrite IH.
  - intros acc n r Hn%elem_of_numbers Hr. destruct Hn as [sc Hsc]. rewrite Hsc in Hr. apply bind_Ok in Hr as (? & _ & [= <-]).
    exists sc. split; [done|]. by apply Hnamed.
Qed.

Lemma used_slots_active v active n :
  slots_named (active_sidechains (v_dbs v)) -> get_active_sidechains v = Ok active ->
  n ∈ used_slots active <-> is_Some (sidechain (active_sidechains (v_dbs v)) !! n).
Proof.
  intros Hnamed Ha. unfold used_slots. rewrite elem_of_list_to_set. fold slot_of.
  change ((fun sc => sp_sidechain_number (sc_proposal sc)) <$> active) with (slot_of <$> active).
  rewrite (active_sidechains_slots v active Hnamed Ha). apply elem_of_numbers.
Qed.

(** The policy rows as the Rust types hold them: ids are 32 bytes, and a
    description fits a push. *)
Definition rows_ok db : Prop :=
  Forall (fun r => Z.of_nat (length (pr_data r)) + 5 < 2 ^ 32) (proposal_rows db) /\
  Forall (fun r => length (bundle_hash r) = 32%nat) (bundle_rows db).

Lemma rows_ok_same db db' : same_rows db db' -> rows_ok db -> rows_ok db'.
Proof.
  intros (Ep & Eb & _) [Hp Hb]. split; apply Forall_lookup.
  - intros i r Hi. apply (f_equal (.!! i)) in Ep. rewrite !list_lookup_fmap, Hi in Ep. cbn in Ep.
    destruct (proposal_rows db !! i) as [r0|] eqn:E; [|done]. cbn in Ep. injection Ep as _ _ Ed _. rewrite <- Ed. eapply Forall_lookup in Hp; done.
  - intros i r Hi. apply (f_equal (.!! i)) in Eb. rewrite !list_lookup_fmap, Hi in Eb. cbn in Eb.
    destruct (bundle_rows db !! i) as [r0|] eqn:E; [|done]. cbn in Eb. injection Eb as _ Ed _ _. rewrite <- Ed. eapply Forall_lookup in Hb; done.
Qed.

Lemma reconciled_Ok {A} v db (f : PolicyDb -> option Z -> Res PolicyError (PolicyDb * A)) db' a :
  reconciled v db f = Some (Ok (db', a)) -> exists db1 k, same_rows db db1 /\ f db1 k = Ok (db', a).
Proof.
  unfold reconciled. destruct (reconcile v db) as [r|] eqn:Er; [|done]. cbn. intros [= Hr]. apply bind_Ok in Hr as ([db1 k] & -> & Hf).
  exists db1, k. split; [by eapply reconcile_same|done].
Qed.

Lemma our_proposals_fit v db db' ps :
  rows_ok db -> get_our_sidechain_proposals v db = Some (Ok (db', ps)) ->
  rows_ok db' /\ Forall (fun p => Z.of_nat (length (sp_description p)) + 5 < 2 ^ 32) ps.
Proof.
  intros Hok Hg. apply reconciled_Ok in Hg as (db1 & k & Hs & [= <- <-]). apply (rows_ok_same _ _ Hs) in Hok. split; [done|].
  apply Forall_fmap, Forall_forall. intros r [_ Hr]%list_elem_of_filter. destruct Hok as [Hp _]. rewrite Forall_forall in Hp. by apply Hp.
Qed.

(** Bundles joined with the validator's view of them. *)
Definition joined v (used : gset SidechainNumber) (m : gmap SidechainNumber BundleProposals) : Prop :=
  forall n l, m !! n = Some l -> n ∈ used /\ exists p, pending_m6ids (active_sidechains (v_dbs v)) !! n = Some p /\
    Forall (fun e => e.2 = om_get e.1.1 p /\ length e.1.1 = 32%nat) l.

Lemma stored_bundles_ok v db db' m :
  rows_ok db -> db_get_bundle_proposals v db = Some (Ok (db', m)) ->
  rows_ok db' /\ forall n l, m !! n = Some l -> Forall (fun e => length e.1 = 32%nat) l.
Proof.
  intros Hok Hg. apply reconciled_Ok in Hg as (db1 & k & Hs & Hf). apply (rows_ok_same _ _ Hs) in Hok.
  apply bind_Ok in Hf as (m' & Hf & [= <- <-]). split; [done|].
  eapply (foldM_invariant (fun m => forall n l, m !! n = Some l -> Forall (fun e => length e.1 = 32%nat) l)); [|by intros ?? ?%lookup_empty_Some|exact Hf].
  intros m1 m2 r Hr Hinv Hstep n l Hl. apply bind_Ok in Hstep as (b & _ & [= <-]).
  apply lookup_insert_Some in Hl as [[<- <-]|[_ Hl]]; [|by eapply Hinv]. apply Forall_app. split.
  - destruct (m1 !! br_sidechain_number r) eqn:E; cbn; [by eapply Hinv|constructor].
  - constructor; [|constructor]. cbn. apply list_elem_of_filter in Hr as [_ Hr]. destruct Hok as [_ Hb]. rewrite Forall_forall in Hb. by apply Hb.
Qed.

Lemma bundle_proposals_joined v used db db' m :
  rows_ok db -> get_bundle_proposals v used db = (db', Some (Ok m)) -> rows_ok db' /\ joined v used m.
Proof.
  intros Hok Hg. unfold get_bundle_proposals in Hg. prod_inv.
  match goal with E : db_get_bundle_proposals _ _ = _ |- _ => destruct (stored_bundles_ok _ _ _ _ Hok E) as [Hok' Hlen] end. split; [done|].
  eapply (foldM_invariant (joined v used)); [|by intros ?? ?%lookup_empty_Some|exact Hg].
  intros m1 m2 [n l] Hin Hinv Hstep. apply hash_iter_elem in Hin. unfold join_bundles in Hstep.
  case_bool_decide as Hu; cbn [negb] in Hstep; [|by injection Hstep as <-]. apply bind_Ok in Hstep as (p & Hp & Hstep).
  apply map_err_Ok in Hp. unfold get_pending_withdrawals, db_get in Hp. apply ok_or_Ok in Hp. injection Hstep as <-.
  case_decide; [done|]. intros n' l' [[<- <-]|[_ Hl]]%lookup_insert_Some; [|by apply Hinv]. split; [done|]. exists p. split; [done|].
  apply Forall_fmap. eapply Forall_impl; [by eapply Hlen|]. by intros [m6id b].
Qed.

(** ** The messages of the coinbase *)

Definition m2_messages (l : list (SidechainNumber * Hash * nat)) : list (CoinbaseMessage * nat) :=
  (fun e => (CM_M2 (mkM2 e.1.1 e.1.2), e.2)) <$> l.

Lemma add_acks_ext outs b ext acks b' :
  builder_wf outs b ext -> (forall a, a ∈ acks -> length a.2 = 32%nat) -> foldM add_ack acks b = Ok b' ->
  exists l, builder_wf outs b' (ext ++ m2_messages l).
Proof.
  revert b ext. induction acks as [|a acks IH]; intros b ext Hb Ha; cbn; [intros [= <-]; exists []; by rewrite app_nil_r|].
  intros (b1 & H1' & H2')%bind_Ok. unfold add_ack in H1'. case_bool_decide.
  - injection H1' as <-. eapply IH; [done| |done]. intros ??. apply Ha. by right.
  - apply (builder_push_wf outs b ext) in H1'; [|done|apply Ha; left|].
    + destruct (IH _ _ H1') as [l Hl]; [intros ??; apply Ha; by right|done|]. exists ((a.1, a.2, (length outs + length ext)%nat) :: l).
      by rewrite <- app_assoc in Hl.
    + unfold message_fits. cbn. rewrite (Ha a); [lia|left].
Qed.

Lemma m2_slots_messages l : (m2_slots (m2_messages l)).*1 = (fun e => e.1.1) <$> l.
Proof. induction l as [|e l IH]; [done|]. cbn. by rewrite <- IH. Qed.

(** An M1 for a queued proposal. *)
Definition is_m1 (ms : list (CoinbaseMessage * nat)) : Prop := ms = [] \/ exists n d k, ms = [(CM_M1 (mkM1 n d), k)].

(** An M3 for a bundle that is not pending in its active slot. *)
Definition is_m3 (a : ActiveSidechainDbs) (ms : list (CoinbaseMessage * nat)) : Prop :=
  ms = [] \/ exists n m6id k p, ms = [(CM_M3 (mkM3 n m6id), k)] /\ is_Some (sidechain a !! n) /\
    pending_m6ids a !! n = Some p /\ om_get m6id p = None.

(** None of the M2s can activate an unused slot at height [h]. *)
Definition no_activation (v : Validator) (h : Z) (l : list (SidechainNumber * Hash * nat)) : Prop :=
  forall n hash k sc, (n, hash, k) ∈ l -> sidechain (active_sidechains (v_dbs v)) !! n = None ->
    proposal_id_to_sidechain (v_dbs v) !! mkSidechainProposalId n hash = Some sc ->
    activates_unused_slot (np_thresholds (v_network_params v)) (vote_count (sc_status sc) + 1) (saturating_sub h (proposal_height (sc_status sc))) = false.

(** A vote for one of the slot's pending bundles, or for none. *)
Definition vote_for (a : ActiveSidechainDbs) (n : SidechainNumber) (vote : WithdrawalBundleVote) : Prop :=
  exists p, pending_m6ids a !! n = Some p /\ forall i, vote = Upvote i -> 0 <= i <= u16_max /\ i < Z.of_nat (length p).

(** An M4 with a vote per active slot, if the number of slots cannot change. *)
Definition is_m4 (v : Validator) (h : Z) (l : list (SidechainNumber * Hash * nat)) (ms : list (CoinbaseMessage * nat)) : Prop :=
  ms = [] \/ exists votes k, ms = [(CM_M4 (from_votes votes), k)] /\
    Forall2 (vote_for (active_sidechains (v_dbs v))) (numbers (active_sidechains (v_dbs v))) votes /\ no_activation v h l.

Lemma bundle_votes_for v acks bundles active policy votes :
  slots_named (active_sidechains (v_dbs v)) -> get_active_sidechains v = Ok active ->
  select_bundle_votes v acks bundles active policy = Ok votes ->
  Forall2 (vote_for (active_sidechains (v_dbs v))) (numbers (active_sidechains (v_dbs v))) votes.
Proof.
  intros Hnamed Ha Hv. apply (foldM_snoc_Forall2 _ (fun sc => vote_for (active_sidechains (v_dbs v)) (slot_of sc))) in Hv as (bs & -> & Hbs).
  - cbn. rewrite <- (active_sidechains_slots v active Hnamed Ha). by apply Forall2_fmap_l.
  - intros acc sc r _ Hr. unfold bundle_vote in Hr. apply bind_Ok in Hr as (p & Hp & [= <-]). eexists. split; [reflexivity|].
    unfold get_pending_withdrawals, db_get in Hp. apply ok_or_Ok in Hp. exists p. split; [done|]. intros i Hi. apply resolve_index in Hi.
    by rewrite length_fmap in Hi.
Qed.

Lemma may_activate_false v c l used ext1 ext2 next_height :
  map_Forall proposal_wf (proposal_id_to_sidechain (v_dbs v)) ->
  map_Forall (fun _ sc => vote_count (sc_status sc) < u16_max) (proposal_id_to_sidechain (v_dbs v)) ->
  (forall n, n ∈ used <-> is_Some (sidechain (active_sidechains (v_dbs v)) !! n)) ->
  cm_wf c -> messages c = ext1 ++ m2_messages l ++ ext2 ->
  m2s_may_activate_unused_slot v c used next_height = false -> no_activation v next_height l.
Proof.
  intros Hwf Hvotes Hused Hc Hm Hf n hash k sc Hin Hn Hsc.
  assert (Hmsg : (CM_M2 (mkM2 n hash), k) ∈ messages c).
  { rewrite Hm. apply elem_of_app. right. apply elem_of_app. left. apply list_elem_of_fmap. by exists (n, hash, k). }
  unfold m2s_may_activate_unused_slot in Hf. case_decide as He.
  - exfalso. assert (Hs : n ∈ m2_ack_slots c); [|set_solver]. unfold m2_ack_slots. rewrite (cm_m2 c Hc). apply elem_of_dom.
    destruct (list_to_map (M := gmap SidechainNumber nat) (m2_slots (messages c)) !! n) eqn:E; [by eexists|]. exfalso.
    apply slot_free in E. apply E, list_elem_of_fmap. exists (n, k). split; [done|]. unfold m2_slots. apply list_elem_of_omap. by eexists.
  - assert (Hid : mkSidechainProposalId n hash ∈ (list_to_set (omap (unused_slot_ack used) (messages c)) : gset SidechainProposalId)).
    { apply elem_of_list_to_set, list_elem_of_omap. eexists. split; [exact Hmsg|]. unfold unused_slot_ack. cbn. rewrite decide_False; [done|].
      rewrite Hused, Hn. by intros []. }
    case_decide as He'; [set_solver|]. apply not_true_iff_false in Hf. apply not_true_iff_false. intros Ht. apply Hf, existsb_exists.
    exists (mkSidechainProposalId n hash, sc). split.
    + apply list_elem_of_In. unfold get_sidechains. rewrite merge_sort_Permutation. by apply elem_of_map_to_list.
    + rewrite (bool_decide_eq_true_2 _ Hid). cbn -[activates_unused_slot]. unfold saturating_add_u16. rewrite Z.min_r; [done|]. specialize (Hvotes _ _ Hsc). cbn in Hvotes. lia.
Qed.

(** What the tables must satisfy: proposals have fewer votes than a [u16] can
    hold, and no slot more bundles than a vote can name. *)
Record tables_ok (s : Dbs) : Prop := {
  to_wf : wf s;
  to_named : slots_named (active_sidechains s);
  to_votes : map_Forall (fun _ sc => vote_count (sc_status sc) < u16_max) (proposal_id_to_sidechain s);
  to_bundles : map_Forall (fun _ p => Z.of_nat (length p) <= ALARM_TWO_BYTES) (pending_m6ids (active_sidechains s)) }.

Lemma select_bundle_m3 v used bundles n m6id :
  joined v used bundles -> select_bundle_proposal bundles = Some (n, m6id) ->
  n ∈ used /\ length m6id = 32%nat /\ exists p, pending_m6ids (active_sidechains (v_dbs v)) !! n = Some p /\ om_get m6id p = None.
Proof.
  intros Hj Hs. apply min_by_key_elem in Hs. apply elem_of_concat in Hs as (l & Hin & Hl).
  apply list_elem_of_fmap in Hl as ([k bs] & -> & Hk%hash_iter_elem). unfold unproposed in Hin. cbn in Hin.
  apply list_elem_of_fmap in Hin as ([[id b] o] & [= -> ->] & [Ho Hb]%list_elem_of_filter). cbn in *. subst o.
  destruct (Hj k bs Hk) as (Hu & p & Hp & Hall). rewrite Forall_forall in Hall. destruct (Hall _ Hb) as [E Hlen]. cbn in *. split_and!; [done..|]. by exists p.
Qed.

Lemma from_votes_wf votes : Forall (fun vote => forall i, vote = Upvote i -> 0 <= i <= u16_max) votes -> message_wf (CM_M4 (from_votes votes)).
Proof.
  intros Hv. unfold from_votes. destruct (existsb _ _); [|done]. cbn. apply Forall_fmap. eapply Forall_impl; [exact Hv|].
  intros [| |i] Hi; cbn; [by vm_compute..|by apply Hi].
Qed.

Lemma from_votes_fits votes : (length votes <= 256)%nat -> message_fits (CM_M4 (from_votes votes)).
Proof.
  intros Hl. unfold message_fits, from_votes. destruct (existsb _ _); cbn -[Z.pow].
  - assert (Hc : forall l : list Z, length (concat (le_bytes 2 <$> l)) = (2 * length l)%nat).
    { induction l as [|x l IH]; [done|]. cbn -[le_bytes]. rewrite length_app, IH, length_le_bytes. lia. }
    rewrite ?length_app, ?Hc, ?length_fmap. cbn. lia.
  - rewrite ?length_fmap. lia.
Qed.

(** *** The stages *)

Lemma m1_stage outs b ps proposed db db' b' :
  builder_wf outs b [] -> Forall (fun p => Z.of_nat (length (sp_description p)) + 5 < 2 ^ 32) ps ->
  match select_sidechain_proposal ps proposed with
  | Some p => plift PRE_CoinbaseMessages (propose_sidechain b p)
  | None => pret b
  end db = (db', Some (Ok b')) ->
  db' = db /\ exists m1, is_m1 m1 /\ builder_wf outs b' m1.
Proof.
  intros Hb Hps. destruct (select_sidechain_proposal _ _) as [p|] eqn:Ep.
  - intros [-> E]%plift_Ok. split; [done|]. apply min_by_key_elem, list_elem_of_filter in Ep as [_ Ep].
    rewrite Forall_forall in Hps. specialize (Hps _ Ep). apply (builder_push_wf outs b []) in E; [|done|done|unfold message_fits; cbn -[Z.pow]; lia].
    eexists. split; [|exact E]. right. by do 3 eexists.
  - intros [= <- <-]. split; [done|]. exists []. split; [by left|done].
Qed.

Lemma m3_stage v outs b ext used bundles db db' b' :
  builder_wf outs b ext -> joined v used bundles -> (forall n, n ∈ used <-> is_Some (sidechain (active_sidechains (v_dbs v)) !! n)) ->
  match (if m3_exists (cb_messages b) then None else select_bundle_proposal bundles) with
  | Some (n, m6id) => plift PRE_CoinbaseMessages (propose_bundle b n m6id)
  | None => pret b
  end db = (db', Some (Ok b')) ->
  db' = db /\ exists m3, is_m3 (active_sidechains (v_dbs v)) m3 /\ builder_wf outs b' (ext ++ m3).
Proof.
  intros Hb Hj Hused. destruct (if m3_exists _ then None else select_bundle_proposal bundles) as [[n m6id]|] eqn:Es.
  - intros [-> E]%plift_Ok. split; [done|]. destruct (m3_exists _); [done|]. apply (select_bundle_m3 v _ _ _ _ Hj) in Es as (Hu & Hlen & p & Hp & Hget).
    apply (builder_push_wf outs b ext) in E; [|done|exact Hlen|unfold message_fits; cbn; lia].
    eexists. split; [|exact E]. right. exists n, m6id. do 2 eexists. split_and!; [reflexivity|by apply Hused|exact Hp|exact Hget].
  - intros [= <- <-]. split; [done|]. exists []. rewrite app_nil_r. split; [by left|done].
Qed.

Lemma m4_stage v outs b ext1 l ext2 used votes (something : bool) h db db' b' :
  tables_ok (v_dbs v) -> parsed_messages (enumerate outs) = [] -> builder_wf outs b (ext1 ++ m2_messages l ++ ext2) ->
  (forall n, n ∈ used <-> is_Some (sidechain (active_sidechains (v_dbs v)) !! n)) ->
  Forall2 (vote_for (active_sidechains (v_dbs v))) (numbers (active_sidechains (v_dbs v))) votes ->
  (if something && negb (m2s_may_activate_unused_slot v (cb_messages b) used h)
   then plift PRE_CoinbaseMessages (ack_bundles b (from_votes votes)) else pret b) db = (db', Some (Ok b')) ->
  db' = db /\ exists m4, is_m4 v h l m4 /\ builder_wf outs b' ((ext1 ++ m2_messages l ++ ext2) ++ m4).
Proof.
  intros [[_ Hwp] _ Hvotes _] Hno Hb Hused Hv. destruct (_ && negb _) eqn:Ec.
  - intros [-> E]%plift_Ok. split; [done|]. apply andb_true_iff in Ec as [_ Ec%negb_true_iff].
    apply (builder_push_wf outs b (ext1 ++ m2_messages l ++ ext2)) in E; [|done|..].
    + eexists. split; [|exact E]. right. do 2 eexists. split_and!; [reflexivity|done|].
      eapply (may_activate_false v _ l _ ext1 ext2); [done|done|exact Hused|exact (bw_cm _ _ _ Hb)| |exact Ec].
      by rewrite (bw_messages _ _ _ Hb), Hno.
    + apply from_votes_wf, Forall_forall. intros vote [i Hi]%list_elem_of_lookup j Hj.
      destruct (Forall2_lookup_r _ _ _ _ _ Hv Hi) as (n & _ & p & _ & Hw). by apply Hw.
    + apply from_votes_fits. rewrite <- (Forall2_length _ _ _ Hv). unfold numbers. etrans; [apply length_filter|]. by vm_compute.
  - intros [= <- <-]. split; [done|]. exists []. rewrite app_nil_r. split; [by left|done].
Qed.

Lemma extend_above v ap bp tip outs db db' outs' hi :
  tables_ok (v_dbs v) -> rows_ok db -> parsed_messages (enumerate outs) = [] ->
  get_header_info (block_hashes (v_dbs v)) tip = Ok hi ->
  let h := saturating_add_u32 (hi_height hi) 1 in
  bip300_activation_height (v_network_params v) <= h ->
  extend_coinbase_txouts v ap bp tip outs db = (db', Some (Ok outs')) ->
  exists c m1 l m3 m4, coinbase_messages_new outs' = Ok c /\ messages c = m1 ++ m2_messages l ++ m3 ++ m4 /\
    is_m1 m1 /\ NoDup ((fun e => e.1.1) <$> l) /\ is_m3 (active_sidechains (v_dbs v)) m3 /\ is_m4 v h l m4.
Proof.
  intros Hok Hrows Hno Hhi h Hact Hext. pose proof (to_named _ Hok) as Hnamed. unfold extend_coinbase_txouts in Hext.
  apply pbind_Ok in Hext as (db0 & hi' & E & Hext). apply plift_Ok in E as [-> E]. rewrite Hhi in E. injection E as <-. cbn zeta in Hext. fold h in Hext.
  rewrite bool_decide_eq_false_2 in Hext by lia.
  apply pbind_Ok in Hext as (? & b0 & Hb0 & Hext). apply plift_Ok in Hb0 as [-> Hb0]. apply builder_new_wf in Hb0.
  apply pbind_Ok in Hext as (db1 & ps & Hps & Hext). apply transact_Ok, (our_proposals_fit _ _ _ _ Hrows) in Hps as [Hrows1 Hps].
  apply pbind_Ok in Hext as (db2 & b1 & Hb1 & Hext). apply (m1_stage outs b0 _ _ _ _ _ Hb0 Hps) in Hb1 as [-> (m1 & Hm1 & Hb1)].
  apply pbind_Ok in Hext as (? & ? & E & Hext). injection E as <- <-.
  apply pbind_Ok in Hext as (? & active & Hactive & Hext). apply plift_Ok in Hactive as [-> Hactive].
  apply pbind_Ok in Hext as (? & b2 & Hacks & Hext). apply plift_Ok in Hacks as [-> Hacks].
  apply (add_acks_ext outs b1 m1) in Hacks as [l Hb2]; [|done|].
  2:{ intros a Ha. apply select_acks_hash in Ha as (p & _ & ->). apply sha256d_length. }
  assert (Hused : forall n, n ∈ used_slots active <-> is_Some (sidechain (active_sidechains (v_dbs v)) !! n)) by (intros; by apply used_slots_active).
  apply pbind_Ok in Hext as (db3 & bundles & Hbs & Hext). apply (bundle_proposals_joined _ _ _ _ _ Hrows1) in Hbs as [_ Hjoined].
  apply pbind_Ok in Hext as (db4 & b3 & Hb3 & Hext). apply (m3_stage v outs _ _ _ _ _ _ _ Hb2 Hjoined Hused) in Hb3 as [-> (m3 & Hm3 & Hb3)].
  apply pbind_Ok in Hext as (? & ? & E & Hext). injection E as <- <-.
  apply pbind_Ok in Hext as (? & votes & Hv & Hext). apply plift_Ok in Hv as [-> Hv]. apply (bundle_votes_for v _ _ active) in Hv; [|done..].
  apply pbind_Ok in Hext as (db5 & b4 & Hb4 & Hext). rewrite <- app_assoc in Hb3.
  apply (m4_stage v outs _ _ _ _ _ _ _ _ _ _ _ Hok Hno Hb3 Hused Hv) in Hb4 as [-> (m4 & Hm4 & Hb4)].
  apply plift_Ok in Hext as [_ Hbuild]. destruct (builder_wf_build _ _ _ Hb4) as [Eb Hnew].
  rewrite Eb in Hbuild. injection Hbuild as <-. exists (cb_messages b4), m1, l, m3, m4. split_and!; try done.
  - rewrite (bw_messages _ _ _ Hb4), Hno. by rewrite <- !app_assoc.
  - pose proof (cm_m2_nodup _ (bw_cm _ _ _ Hb2)) as Hnd. rewrite (bw_messages _ _ _ Hb2), Hno in Hnd. cbn [app] in Hnd.
    unfold m2_slots in Hnd. rewrite omap_app, fmap_app in Hnd. apply NoDup_app in Hnd as (_ & _ & Hnd). by rewrite <- m2_slots_messages.
Qed.

(** ** The validator's side *)

Lemma numbers_ext a a' : (forall n, is_Some (sidechain a' !! n) <-> is_Some (sidechain a !! n)) -> numbers a' = numbers a.
Proof. intros E. unfold numbers. apply list_filter_iff. done. Qed.

(** Votes chosen before the block are valid when they are counted, if the
    slots are the same and no bundle has left. *)
Lemma votes_still_valid v s votes :
  tables_ok (v_dbs v) ->
  numbers (active_sidechains s) = numbers (active_sidechains (v_dbs v)) ->
  (forall n p p', pending_m6ids (active_sidechains (v_dbs v)) !! n = Some p -> pending_m6ids (active_sidechains s) !! n = Some p' ->
     (length p <= length p')%nat) ->
  Forall2 (vote_for (active_sidechains (v_dbs v))) (numbers (active_sidechains (v_dbs v))) votes ->
  Forall (fun w => match w with Upvote i => 0 <= i < ALARM_TWO_BYTES | _ => True end) votes /\
  forall n w p, vote_at s (vote_index <$> votes) n w p -> vote_valid p w.
Proof.
  intros Hok En Hlen Hv. split.
  - apply Forall_lookup. intros i w Hi. destruct (Forall2_lookup_r _ _ _ _ _ Hv Hi) as (n & _ & p & Hp & Hw). destruct w as [| |j]; [done..|].
    destruct (Hw j eq_refl). pose proof (to_bundles _ Hok n p Hp) as Hb. cbn in Hb. lia.
  - intros n w p (i & Hn & Hw & Hp). rewrite En in Hn. apply list_lookup_fmap_Some in Hw as (vote & -> & Hvote).
    destruct (Forall2_lookup_lr _ _ _ _ _ _ Hv Hn Hvote) as (p0 & Hp0 & Hi). specialize (Hlen n p0 p Hp0 Hp).
    destruct vote as [| |j]; cbn; [by left|right; by left|]. right; right. destruct (Hi j eq_refl). lia.
Qed.

Lemma m1_phase v h parent m1s c m1 rest :
  tables_ok (v_dbs v) -> is_m1 m1 -> messages c = m1 ++ rest -> m1s_complete c m1s ->
  exists b evs, foldM (connect_message (validator_handler v) h parent m1s) m1 (diff_builder_new (v_dbs v), [], []) = Ok (b, [], evs) /\
    active_sidechains (builder_dbs b) = active_sidechains (v_dbs v) /\
    forall id sc, proposal_id_to_sidechain (builder_dbs b) !! id = Some sc ->
      proposal_id_to_sidechain (v_dbs v) !! id = Some sc \/ proposal_height (sc_status sc) = h /\ vote_count (sc_status sc) = 0.
Proof.
  intros Hok [->|(n & d & k & ->)] Hm Hc; cbn [foldM]; [by eexists _, _; split_and!; [reflexivity|done|left]|].
  destruct (m1_step (validator_handler v) h parent m1s (diff_builder_new (v_dbs v)) [] [] n d k) as (b & evs & E & Ha & Hp).
  - apply (Hc n d k). rewrite Hm. left.
  - rewrite E. by exists b, evs.
Qed.

Lemma m3_phase v h parent m1s b evs m3 :
  active_wf (active_sidechains (v_dbs v)) ->
  (forall n, is_Some (sidechain (active_sidechains (v_dbs v)) !! n) -> is_Some (sidechain (active_sidechains (builder_dbs b)) !! n) /\
     pending_m6ids (active_sidechains (builder_dbs b)) !! n = pending_m6ids (active_sidechains (v_dbs v)) !! n) ->
  is_m3 (active_sidechains (v_dbs v)) m3 ->
  exists b' evs', foldM (connect_message (validator_handler v) h parent m1s) m3 (b, [], evs) = Ok (b', [], evs') /\
    sidechain (active_sidechains (builder_dbs b')) = sidechain (active_sidechains (builder_dbs b)) /\
    forall n p p', pending_m6ids (active_sidechains (v_dbs v)) !! n = Some p -> pending_m6ids (active_sidechains (builder_dbs b')) !! n = Some p' ->
      (length p <= length p')%nat.
Proof.
  intros Hwf Hu Hm3.
  assert (Hkeep : forall n p p', pending_m6ids (active_sidechains (v_dbs v)) !! n = Some p ->
    pending_m6ids (active_sidechains (builder_dbs b)) !! n = Some p' -> (length p <= length p')%nat).
  { intros n p p' Hp Hp'. destruct (Hu n) as [_ E]; [apply (aw_dom _ Hwf); by eexists|]. rewrite E, Hp in Hp'. by injection Hp' as ->. }
  destruct Hm3 as [->|(n & m6id & k & p & -> & Hn & Hp & Hg)]; cbn [foldM]; [by exists b, evs|].
  destruct (Hu n Hn) as [Hn2 Ep2]. rewrite Hp in Ep2.
  destruct (m3_step (validator_handler v) h parent m1s b [] evs n m6id k p Hn2 Ep2 Hg) as (b3 & evs3 & p3 & E3 & Es3 & Epd & Hlen3).
  rewrite E3. exists b3, evs3. split_and!; [done..|]. intros j q q' Hq. rewrite Epd. intros [[<- <-]|[_ Hq']]%lookup_insert_Some; [|by eapply Hkeep].
  rewrite Hp in Hq. by injection Hq as <-.
Qed.

Lemma producer_messages_accepted v h parent m1s c m1 l m3 m4 :
  tables_ok (v_dbs v) -> messages c = m1 ++ m2_messages l ++ m3 ++ m4 -> m1s_complete c m1s ->
  is_m1 m1 -> NoDup ((fun e => e.1.1) <$> l) -> is_m3 (active_sidechains (v_dbs v)) m3 -> is_m4 v h l m4 ->
  exists st, foldM (connect_message (validator_handler v) h parent m1s) (messages c) (diff_builder_new (v_dbs v), [], []) = Ok st.
Proof.
  intros Hok Hm Hc Hm1 Hnd Hm3 Hm4. pose proof (to_wf _ Hok) as Hwf.
  destruct (m1_phase v h parent m1s c m1 _ Hok Hm1 Hm Hc) as (b1 & evs1 & E1 & Ha1 & Hp1).
  pose proof (connect_messages_run _ _ _ _ _ (diff_builder_new (v_dbs v)) _ _ _ _ (run_nil h (v_dbs v)) E1) as Hr1. cbn in Hr1.
  destruct (m2s_step (validator_handler v) h parent m1s l b1 [] evs1 (v_dbs v) Hwf Hr1 Hnd) as (b2 & evs2 & E2 & Hr2 & Hu2 & Hf2).
  { intros id sc _ Hsc. destruct (Hp1 id sc Hsc) as [Hold|[_ ->]]; [by apply (to_votes _ Hok id)|done]. }
  rewrite Ha1 in Hu2, Hf2. fold (m2_messages l) in E2.
  destruct (m3_phase v h parent m1s b2 evs2 m3 (proj1 Hwf) Hu2 Hm3) as (b3 & evs3 & E3 & Es3 & Hlen3).
  assert (Hr3 : run h (builder_diffs b3) (v_dbs v) (builder_dbs b3)) by exact (connect_messages_run _ _ _ _ _ b2 _ _ _ _ Hr2 E3).
  rewrite Hm, foldM_app, E1. cbn [mbind Res_bind]. rewrite foldM_app, E2. cbn [mbind Res_bind]. rewrite foldM_app, E3. cbn [mbind Res_bind].
  destruct Hm4 as [->|(votes & k & -> & Hv & Hna)]; [by eexists|].
  assert (Hnum : numbers (active_sidechains (builder_dbs b3)) = numbers (active_sidechains (v_dbs v))).
  { apply numbers_ext. intros n. rewrite Es3. split; [|intros Hn; by apply Hu2]. intros [sc Hsc].
    destruct (sidechain (active_sidechains (v_dbs v)) !! n) eqn:En; [by eexists|]. rewrite Hf2 in Hsc; [done| |done].
    intros n' hash' k' sc' Hin Hn' Hsc' Hh. destruct (Hp1 _ _ Hsc') as [Hold|[E _]]; [by eapply Hna|by rewrite E in Hh]. }
  destruct (votes_still_valid v (builder_dbs b3) votes Hok Hnum Hlen3 Hv) as [Hidx Hvalid].
  destruct (m4_step (validator_handler v) h parent m1s b3 [] evs3 votes k) as (b4 & evs4 & E4);
    [by apply (run_wf _ _ _ _ Hwf Hr3)|done|by rewrite Hnum, (Forall2_length _ _ _ Hv)|done|].
  cbn [foldM]. rewrite E4. by eexists.
Qed.

(** ** The dry run of the template *)

Lemma get_header_info_height b tip hi :
  get_header_info b tip = Ok hi -> height b !! tip = Some (hi_height hi) /\ is_Some (headers b !! tip).
Proof.
  unfold get_header_info, try_get_header_info. destruct (headers b !! tip) as [hd|]; cbn; [|done]. intros E.
  apply bind_Ok in E as (o & Ho & E). apply ok_or_Ok in E as ->. apply map_err_Ok in Ho. apply bind_Ok in Ho as (? & _ & Ho).
  apply bind_Ok in Ho as (k & Hk & [= <-]). apply ok_or_Ok in Hk. by rewrite Hk.
Qed.

(** The header of a block on the tip can be stored, one height above it. *)
Lemma store_header_on_tip s block k :
  header_inv (block_hashes s) -> node_block s block -> height (block_hashes s) !! prev_blockhash (header block) = Some k ->
  is_Some (headers (block_hashes s) !! prev_blockhash (header block)) -> 0 <= k < u32_max ->
  exists t1, store_header s block = Ok (inl (set_block_hashes s t1)) /\ height t1 !! hash_of block = Some (k + 1).
Proof.
  intros Hinv Hnb Hk Hin Hr.
  assert (Hz : prev_blockhash (header block) <> all_zeros) by (intros E; rewrite E, (cw_zero _ (hi_wf _ Hinv)) in Hin; by destruct Hin).
  assert (Hst : exists s1, store_header s block = Ok (inl s1)).
  { unfold store_header. destruct (contains_header _ _); [by eexists|]. rewrite decide_False by done. rewrite Hk. cbn. unfold u32_incr.
    rewrite bool_decide_eq_true_2 by lia. cbn. rewrite decide_False by done. unfold checked_sub. rewrite bool_decide_eq_true_2 by lia. cbn. by eexists. }
  destruct Hst as [s1 Hst]. destruct (store_header_spec s block s1 Hinv Hnb Hst) as (t1 & -> & Hinv1 & Hhd & Hagree). exists t1. split; [done|].
  destruct (cw_height _ (hi_wf _ Hinv1) _ _ Hhd) as (j & Hj & _ & Hp). rewrite decide_False in Hp by done. destruct Hp as [_ Hp].
  destruct (Hagree _ Hin) as (_ & _ & Eh & _). rewrite Eh, Hk in Hp. injection Hp as ->. rewrite Hj. f_equal. lia.
Qed.

Context `{TemplateEnv}.

(** C13. The validator accepts the coinbase its producer builds. From outputs
    without drivechain messages, and tables in which proposals have fewer votes
    and slots fewer bundles than the message formats can hold, the messages
    that [extend_coinbase_txouts] adds are all valid in a block on the tip: the
    M1 and the M2s, an M3 for a bundle that is not yet pending, and an M4 with
    one vote per slot that is active when the votes are counted, each for a
    bundle pending then. So the dry run of the template never rejects it. *)
Theorem coinbase_accepted v db ap bp tip outs db' outs' hi :
  let s := v_dbs v in
  let block := dry_run_block tip (hi_height hi + 1) outs' [] in
  tables_ok s -> rows_ok db -> header_inv (block_hashes s) -> node_block s block ->
  current_chain_tip s = Some tip -> get_header_info (block_hashes s) tip = Ok hi -> 0 <= hi_height hi < u32_max ->
  parsed_messages (enumerate outs) = [] ->
  extend_coinbase_txouts v ap bp tip outs db = (db', Some (Ok outs')) ->
  exists state, get_withdrawal_state_after v block = Ok (inl state).
Proof.
  intros s block Hok Hrows Hinv Hnb Htip Hhi Hr Hno Hext. destruct (get_header_info_height _ _ _ Hhi) as [Hk Hin].
  destruct (store_header_on_tip s block (hi_height hi) Hinv Hnb Hk Hin Hr) as (t1 & Hst & Hh).
  unfold get_withdrawal_state_after, partial_connect_block_dry_run. fold s. rewrite Hst. cbn [mbind Res_bind].
  set (s1 := set_block_hashes s t1).
  assert (Hpc : exists r, partial_connect_block (validator_handler v) s1 block = Ok r); [|destruct Hpc as [[s2 p] ->]; by eexists].
  unfold partial_connect_block. replace (ensure_tip_is_parent s1 _) with (Ok tt : Res PartialConnectBlock unit).
  2:{ unfold ensure_tip_is_parent. cbn [current_chain_tip set_block_hashes s1]. rewrite Htip. by rewrite decide_True. }
  cbn [mbind Res_bind]. fold (hash_of block). unfold db_get. cbn [block_hashes set_block_hashes s1]. rewrite Hh. cbn [ok_or map_err mbind Res_bind].
  cbn [txdata block dry_run_block]. case_bool_decide as Hact; [by eexists|].
  assert (Hsat : saturating_add_u32 (hi_height hi) 1 = hi_height hi + 1) by (unfold saturating_add_u32; lia).
  destruct (extend_above v ap bp tip outs db db' outs' hi Hok Hrows Hno Hhi) as (c & m1 & l & m3 & m4 & Hnew & Hm & Hm1 & Hnd & Hm3 & Hm4);
    [rewrite Hsat; by apply Z.nlt_ge in Hact|done|]. rewrite Hsat in Hm4.
  assert (Hok1 : tables_ok (v_dbs (set_dbs v s1))) by (destruct Hok; by split).
  match goal with |- context [process_block ?bh ?s ?h ?hash ?parent ?cb []] =>
    destruct (coinbase_block_total bh s h hash parent cb c (to_wf _ Hok1) Hnew) as [[[[s3 bi] d] u] ->]; [|by eexists] end.
  intros m1s Hc. by apply (producer_messages_accepted (set_dbs v s1) _ _ m1s c m1 l m3 m4 Hok1).
Qed.

End ProducerProofs.

(** ** The auction *)

(** The bid that wins slot [n] among [bids]: higher than the bids before it, and
    not lower than the ones after it. *)
Definition wins (bids : list (SidechainNumber * BmmCommitment * Txid * Amount)) (n : SidechainNumber)
    (w : BmmCommitment * Txid * Amount) : Prop :=
  exists pre post, bids = pre ++ (n, w.1.1, w.1.2, w.2) :: post /\
    (forall c t f, (n, c, t, f) ∈ pre -> f < w.2) /\ (forall c t f, (n, c, t, f) ∈ post -> f <= w.2).

Lemma wins_snoc_other bids n w n' c t f : n' <> n -> wins (bids ++ [(n', c, t, f)]) n w <-> wins bids n w.
Proof.
  intros Hne. split.
  - intros (pre & post & E & Hpre & Hpost). destruct post as [|x post _] using rev_ind.
    + apply app_inj_tail in E as [_ E]. congruence.
    + rewrite app_comm_cons, app_assoc in E. apply app_inj_tail in E as [-> _]. exists pre, post. split_and!; [done|done|].
      intros c' t' f' ?. apply (Hpost c' t'). apply elem_of_app. by left.
  - intros (pre & post & -> & Hpre & Hpost). exists pre, (post ++ [(n', c, t, f)]). rewrite <- app_assoc. split_and!; [done|done|].
    intros c' t' f' [?|Hx]%elem_of_app; [by eapply Hpost|]. apply list_elem_of_singleton in Hx. congruence.
Qed.

Lemma wins_snoc bids n w c t f :
  wins (bids ++ [(n, c, t, f)]) n w <->
  (wins bids n w /\ f <= w.2) \/ (w = (c, t, f) /\ forall c' t' f', (n, c', t', f') ∈ bids -> f' < f).
Proof.
  split.
  - intros (pre & post & E & Hpre & Hpost). destruct post as [|x post _] using rev_ind.
    + right. apply app_inj_tail in E as [-> E]. destruct w as [[c' t'] f']. cbn in *. by simplify_eq.
    + left. rewrite app_comm_cons, app_assoc in E. apply app_inj_tail in E as [-> <-]. split; [exists pre, post; split_and!; [done|done|]|].
      * intros c' t' f' ?. apply (Hpost c' t'). apply elem_of_app. by left.
      * apply (Hpost c t). apply elem_of_app. right. by left.
  - intros [[(pre & post & -> & Hpre & Hpost) Hf]|[-> Hall]].
    + exists pre, (post ++ [(n, c, t, f)]). rewrite <- app_assoc. split_and!; [done|done|].
      intros c' t' f' [?|Hx]%elem_of_app; [by eapply Hpost|]. apply list_elem_of_singleton in Hx. by simplify_eq.
    + exists bids, []. split_and!; [done|done|]. by intros ??? ?%elem_of_nil.
Qed.

Lemma wins_bids bids n w c t f : wins bids n w -> (n, c, t, f) ∈ bids -> f <= w.2.
Proof.
  intros (pre & post & -> & Hpre & Hpost) [Hin|[[=]|Hin]%elem_of_cons]%elem_of_app; [|lia|by eapply Hpost].
  by apply Z.lt_le_incl, (Hpre c t).
Qed.

(** The BMM auction: a slot has a winner exactly if there is a bid for it,
    and the winner is the bid with the highest fee, the first one of equal
    bids. *)
Theorem bmm_auction_spec bids n :
  (forall w, bmm_auction_winners bids !! n = Some w <-> wins bids n w) /\
  (bmm_auction_winners bids !! n = None <-> forall c t f, (n, c, t, f) ∉ bids).
Proof.
  unfold bmm_auction_winners. induction bids as [|[[[n' c] t] f] bids [IHw IHn]] using rev_ind.
  - cbn. rewrite lookup_empty. split; [|split; [intros _ ??? ?%elem_of_nil; done|done]]. intros w. split; [done|].
    by intros ([] & ? & ? & _).
  - rewrite foldl_app. cbn. set (m := foldl auction_bid ∅ bids) in *.
    assert (Hin : forall c' t' f', (n, c', t', f') ∉ bids ++ [(n', c, t, f)] <-> (n, c', t', f') ∉ bids /\ (n, c', t', f') <> (n', c, t, f)).
    { intros. rewrite not_elem_of_app, list_elem_of_singleton. done. }
    destruct (decide (n' = n)) as [->|Hne].
    + destruct (m !! n) as [w0|] eqn:Em.
      * assert (Hw0 : wins bids n w0) by by apply IHw. split.
        -- intros w. rewrite wins_snoc. case_bool_decide as Hlt.
           ++ rewrite lookup_insert_eq. split; [intros [= <-]; right; split; [done|]|].
              { intros c' t' f' Hb. pose proof (wins_bids _ _ _ _ _ _ Hw0 Hb). lia. }
              intros [[Hw Hf]|[-> _]]; [|done]. apply IHw in Hw as [= ->]. lia.
           ++ rewrite Em. split; [intros [= <-]; left; split; [done|lia]|]. intros [[Hw _]|[-> Hall]]; [by apply IHw in Hw|].
              destruct Hw0 as (pre & post & E & _). exfalso. apply Hlt. apply (Hall w0.1.1 w0.1.2). rewrite E. apply elem_of_app. right. by left.
        -- split; [case_bool_decide; rewrite ?lookup_insert_eq, ?Em; done|]. intros Hall. destruct (proj1 (Hin c t f) (Hall c t f)). done.
      * assert (Hno : forall c' t' f', (n, c', t', f') ∉ bids) by by apply IHn. rewrite lookup_insert_eq. split.
        -- intros w. rewrite wins_snoc. split; [intros [= <-]; right; split; [done|by intros ??? ?%Hno]|].
           intros [[(pre & post & E & _) _]|[-> _]]; [|done]. destruct (Hno w.1.1 w.1.2 w.2). rewrite E. apply elem_of_app. right. by left.
        -- split; [done|]. intros Hall. destruct (proj1 (Hin c t f) (Hall c t f)). done.
    + assert (Hm : (match m !! n' with None => <[n' := (c, t, f)]> m | Some winner => if bool_decide (winner.2 < f) then <[n' := (c, t, f)]> m else m end) !! n = m !! n).
      { destruct (m !! n'); [case_bool_decide|]; by rewrite ?lookup_insert_ne. }
      rewrite Hm. split; [intros w; by rewrite wins_snoc_other|]. rewrite IHn.
      split; intros Hall c' t' f'; [apply Hin; split; [apply Hall|congruence]|by apply (Hin c' t' f'), Hall].
Qed.
