(* ===== verification/SuffixProofs.v ===== *)
(** * The end of a block

    The transactions the producer appends to a block (withdrawals, and one that
    consolidates the treasuries) are ones that the validator accepts, and they
    do what the producer assumes. *)

From Stdlib Require Import Strings.Byte.
From stdpp Require Import base numbers list gmap.
From S2P Require Import Prelude OrderMap Bitcoin Types Messages M6 Dbs BlockHashes Treasury Diff Reversible Handlers HandlerProofs ConnectBlock ConnectProofs TreasurySafety HashOrder Unconsolidated Enforcer Sync Facade Policy Producer ProducerProofs.
Open Scope Z_scope.

(** ** Sums that do not overflow *)

Lemma sum_nonneg_all (l : list Amount) : Forall (fun v => 0 <= v) l -> 0 <= sum l.
Proof. apply sum_nonneg. Qed.

Lemma checked_sum_from_total acc l :
  Forall (fun v => 0 <= v) l -> acc + sum l <= u64_max -> checked_sum_from acc l = Some (acc + sum l).
Proof.
  intros Hl. revert acc. induction Hl as [|v l Hv Hl IH]; intros acc Ha; cbn.
  - f_equal. change (sum []) with 0. lia.
  - rewrite sum_cons in *. pose proof (sum_nonneg_all l Hl).
    replace (checked_add_u64 acc v) with (Some (acc + v)) by (symmetry; apply checked_add_u64_Some; lia).
    cbn. rewrite IH by lia. f_equal. lia.
Qed.

Lemma amount_sum_total {E} l :
  Forall (fun v => 0 <= v) l -> sum l <= u64_max -> @amount_sum E l = Ok (sum l).
Proof. intros Hl Hs. unfold amount_sum, checked_sum. by rewrite checked_sum_from_total. Qed.

Lemma amount_add_total {E} a b : a + b <= u64_max -> @amount_add E a b = Ok (a + b).
Proof. intros Ha. unfold amount_add. by replace (checked_add_u64 a b) with (Some (a + b)) by (symmetry; by apply checked_add_u64_Some). Qed.

Lemma NoDup_enumerate {A} (l : list A) : NoDup (enumerate l).*1.
Proof.
  unfold enumerate. rewrite fst_zip by (by rewrite length_seq). apply NoDup_seq.
Qed.

(** ** What the validator finds *)

Section Fill.
Context `{Bitcoin, Nom}.
Variables (bh : BlockHandler) (s : Dbs) (u : UnconsolidatedCtips) (tx : Transaction).

(** At most one treasury output for each slot. *)
Definition one_output : Prop :=
  forall v1 v2 o1 o2 n, output tx !! v1 = Some o1 -> output tx !! v2 = Some o2 ->
    designates bh s o1 n -> designates bh s o2 n -> v1 = v2.

(** A treasury output for each slot whose treasury is spent. *)
Definition returned : Prop :=
  forall o n v, o ∈ previous_output <$> input tx -> treasury_utxo s u o = Some (n, v) ->
    exists vout out, output tx !! vout = Some out /\ designates bh s out n.

Lemma fill_outputs_total :
  one_output -> exists infos, foldM (fill_ctip_output bh s (compute_txid tx)) (enumerate (output tx)) ∅ = Ok infos.
Proof.
  intros Hone. edestruct (foldM_progress (outputs_inv bh s tx) (fill_ctip_output bh s (compute_txid tx)) (enumerate (output tx)) ∅)
    as (infos & Hf & _); [| |by exists infos].
  - split; [intros ? ?; by rewrite lookup_empty|]. by intros ??? ?%elem_of_nil.
  - intros pre [v out] m [rest Hpre] Hinv.
    enough (Hok : exists m', fill_ctip_output bh s (compute_txid tx) m (v, out) = Ok m').
    { destruct Hok as [m' Hm']. exists m'. split; [done|]. by eapply outputs_inv_step. }
    unfold fill_ctip_output. destruct (op_drivechain_parse _ _) as [[r n]|] eqn:Ep; [|by eexists].
    destruct (contains_key _ n) eqn:Ec; cbn [negb]; [|by eexists]. apply contains_key_true in Ec.
    destruct (m !! n) as [info|] eqn:Em; [|by eexists]. exfalso.
    destruct (proj1 Hinv n info Em) as (v' & out' & Hin & Hd & _).
    assert (Hd' : designates bh s out n) by (split; [by exists r|done]).
    assert (Hl : forall e, e ∈ pre ++ [(v, out)] -> output tx !! e.1 = Some e.2).
    { intros [i x] He. apply elem_of_enumerate. rewrite Hpre. apply elem_of_app. by left. }
    assert (v' = v) as ->.
    { eapply (Hone v' v out' out n); [..|done|done].
      - apply (Hl (v', out')). apply elem_of_app. by left.
      - apply (Hl (v, out)). apply elem_of_app. right. by left. }
    assert (Hnd : NoDup (enumerate (output tx)).*1) by apply NoDup_enumerate.
    rewrite Hpre, !fmap_app in Hnd. apply NoDup_app in Hnd as (Hnd & _ & _). apply NoDup_app in Hnd as (_ & Hd0 & _).
    apply (Hd0 v); [by apply (list_elem_of_fmap_2 fst _ (v, out'))|]. by left.
Qed.

Lemma fill_ctips_total :
  one_output -> returned -> NoDup (previous_output <$> input tx) ->
  unspent (active_sidechains s) (previous_output <$> input tx) ->
  exists infos, fill_ctips bh s u tx = Ok infos.
Proof.
  intros Hone Hret Hnd Hun. destruct (fill_outputs_total Hone) as [m Hm]. unfold fill_ctips. rewrite Hm. cbn [mbind Res_bind].
  apply (fill_outputs bh s u tx) in Hm.
  edestruct (foldM_progress (fun pre => fill_spec bh s u tx (fun o => o ∈ previous_output <$> pre)) (fill_ctip_input s u) (input tx) m)
    as (infos & Hf & _); [| |by exists infos].
  { eapply fill_spec_iff; [|exact Hm]. intros o. cbn. by rewrite elem_of_nil. }
  intros pre txin m1 [rest Hpre] Hs. enough (Hok : exists m', fill_ctip_input s u m1 txin = Ok m').
  { destruct Hok as [m' Hm']. exists m'. split; [done|]. eapply fill_spec_iff; [|by eapply fill_input_step].
    intros o. rewrite fmap_app, elem_of_app. cbn. by rewrite list_elem_of_singleton. }
  assert (Hin : previous_output txin ∈ previous_output <$> input tx).
  { apply list_elem_of_fmap_2. rewrite Hpre. apply elem_of_app. left. apply elem_of_app. right. by left. }
  assert (Hnew : previous_output txin ∉ previous_output <$> pre).
  { rewrite Hpre, !fmap_app in Hnd. apply NoDup_app in Hnd as (Hnd' & _ & _). apply NoDup_app in Hnd' as (_ & Hd & _).
    intros Ho. apply (Hd _ Ho). by left. }
  assert (Hinfo : forall n v, treasury_utxo s u (previous_output txin) = Some (n, v) -> exists info, m1 !! n = Some info).
  { intros n v Ht. destruct (Hret _ _ _ Hin Ht) as (vout & out & Ho & Hd).
    destruct (fs_output_all _ _ _ _ _ _ Hs _ _ _ Ho Hd) as (info & ? & _). by exists info. }
  unfold fill_ctip_input, treasury_utxo in *.
  destruct (ctip_outpoint_to_value_seq _ !! _) as [[[n v] q]|] eqn:Et.
  - destruct (Hinfo n v eq_refl) as [info Hi]. rewrite Hi. cbn [ok_or mbind Res_bind].
    destruct (consolidated_ctip_input info) as [c|] eqn:Ec; [|by eexists]. exfalso.
    destruct (fs_consolidated _ _ _ _ _ _ Hs _ _ _ Hi Ec) as (Hsp & q' & Ht').
    assert (Hsp' : ctip_outpoint c ∈ previous_output <$> input tx).
    { rewrite Hpre, !fmap_app. apply elem_of_app. left. apply elem_of_app. by left. }
    pose proof (Hun _ _ _ _ Hin Et) as E1. pose proof (Hun _ _ _ _ Hsp' Ht') as E2. rewrite E1 in E2.
    injection E2 as E2 _. apply Hnew. by rewrite E2.
  - destruct (by_outpoint u !! _) as [[n v]|] eqn:Eu; [|by eexists].
    destruct (Hinfo n v eq_refl) as [info Hi]. rewrite Hi. by eexists.
Qed.

End Fill.

(** ** The classification succeeds *)

Section Classified.
Context `{Bitcoin, Nom}.
Variables (bh : BlockHandler) (s : Dbs) (tx : Transaction) (k : nat).

(** The value a slot's inputs bring does not overflow. *)
Definition in_range (info : TxCtipsInfo) : Prop :=
  0 <= match consolidated_ctip_input info with Some c => ctip_value c | None => 0 end /\
  (forall c, c ∈ unconsolidated_ctip_inputs info -> 0 <= ctip_value c) /\ treasury_in info <= u64_max.

Lemma classify_in_range res n info :
  in_range info ->
  classify_slot bh s tx k res n info =
  match ctip_value (ctip_output info) ?= treasury_in info with
  | Eq => if decide (unconsolidated_ctip_inputs info = ∅) then Err ZeroDiff
          else handle_deposit s tx res n info (treasury_in info)
  | Lt => handle_withdrawal bh s tx k res n info (treasury_in info)
  | Gt => handle_deposit s tx res n info (treasury_in info)
  end.
Proof.
  intros (Hc & Hu & Hmax). unfold classify_slot. fold (sum (ctip_value <$> elements (unconsolidated_ctip_inputs info))) in *.
  unfold treasury_in in *. fold (sum (ctip_value <$> elements (unconsolidated_ctip_inputs info))) in *.
  rewrite amount_sum_total.
  - cbn [mbind Res_bind]. by rewrite amount_add_total.
  - apply Forall_fmap, Forall_forall. intros c Hin%elem_of_elements. by apply Hu.
  - lia.
Qed.

Lemma classify_withdrawal n info m idx i :
  in_range info -> withdrawal_ok bh s tx n info m idx i ->
  classify_slot bh s tx k None n info
  = Ok (M6Withdrawal n m (default 0 (treasury_utxo_count (active_sidechains s) !! n)) (mkM6Diff n (ctip_output info) m idx i)).
Proof.
  intros Hr (Hlt & (c & Hc & Hin) & Hv & Hm). rewrite classify_in_range by done.
  replace (_ ?= _) with Lt by (symmetry; by apply Z.compare_lt_iff). unfold handle_withdrawal. rewrite Hc. cbn [ok_or mbind Res_bind].
  match goal with |- context [foldM ?f (input tx) tt] => assert (E : foldM f (input tx) tt = Ok tt) end.
  { apply (inputs_check ({[ctip_outpoint c]} ∪ set_map ctip_outpoint (unconsolidated_ctip_inputs info))). intros txin Ht.
    apply elem_of_union. destruct (Hin txin Ht) as [->|(c' & ? & ->)]; [left; by apply elem_of_singleton|right].
    apply elem_of_map. by exists c'. }
  rewrite E. cbn [mbind Res_bind]. rewrite bool_decide_eq_true_2 by done. cbn [negb]. rewrite Hm. cbn [mbind Res_bind].
  by rewrite bool_decide_eq_true_2.
Qed.

(** A consolidation deposits nothing. *)
Lemma classify_consolidation res n info :
  in_range info -> treasury_in info = ctip_value (ctip_output info) -> unconsolidated_ctip_inputs info <> ∅ ->
  stays_unconsolidated s n info = false ->
  match res with Some (M6Withdrawal _ _ _ _) => False | _ => True end ->
  classify_slot bh s tx k res n info
  = Ok (match res with
        | Some (M5Deposits ds d) => M5Deposits ds (mkM5Diff (<[n := ctip_output info]> (new_ctips d)))
        | _ => M5Deposits ∅ (mkM5Diff {[n := ctip_output info]})
        end).
Proof.
  intros Hr He Hu Hst Hres. rewrite classify_in_range by done. rewrite He, Z.compare_refl, decide_False by done.
  unfold handle_deposit. rewrite (bool_decide_eq_false_2 (_ < _)) by lia. cbn [mbind Res_bind].
  unfold stays_unconsolidated in Hst. rewrite Hst. by destruct res as [[]|].
Qed.

End Classified.

(** ** Withdrawals *)

Section Withdrawals.
Context `{Bitcoin, !BitcoinLaws, Nom, !NomLaws, TxCodec, HashIter}.
Implicit Types (bh : BlockHandler) (s : Dbs) (u : UnconsolidatedCtips).

Lemma ctip_recorded h a n c :
  treasury_repr h a -> ctip a !! n = Some c -> exists q, ctip_outpoint_to_value_seq a !! ctip_outpoint c = Some (n, ctip_value c, q).
Proof.
  intros Hr Hc. rewrite (tr_ctip _ _ Hr), last_lookup in Hc. exists (Z.of_nat (pred (length (h n)))).
  apply (tr_outpoint _ _ Hr). rewrite Nat2Z.id. split; [lia|]. by destruct c.
Qed.

(** The UTXOs of a slot's treasury. *)
Definition slot_utxos (a : ActiveSidechainDbs) u n : list Ctip := option_list (ctip a !! n) ++ slot_ctips u n.

Lemma slot_utxos_treasury h s u n c :
  treasury_repr h (active_sidechains s) -> uc_ok (active_sidechains s) u -> c ∈ slot_utxos (active_sidechains s) u n ->
  treasury_utxo s u (ctip_outpoint c) = Some (n, ctip_value c).
Proof.
  intros Hr Hu Hc. unfold treasury_utxo. apply elem_of_app in Hc as [Hc|Hc].
  - destruct (ctip _ !! n) as [c'|] eqn:E; [|by apply elem_of_nil in Hc]. apply list_elem_of_singleton in Hc as ->.
    by destruct (ctip_recorded _ _ _ _ Hr E) as [q ->].
  - apply (ix_agree _ (uo_indexed _ _ Hu)) in Hc. by rewrite (uo_fresh _ _ Hu _ _ Hc).
Qed.

Lemma slot_utxos_nodup h s u n :
  treasury_repr h (active_sidechains s) -> uc_ok (active_sidechains s) u ->
  NoDup (ctip_outpoint <$> slot_utxos (active_sidechains s) u n).
Proof.
  intros Hr Hu. unfold slot_utxos. pose proof (slot_ctips_nodup u n (uo_indexed _ _ Hu)) as Hnd.
  destruct (ctip _ !! n) as [c|] eqn:E; [|done]. cbn. constructor; [|done]. intros (c' & Eo & Hc')%list_elem_of_fmap.
  apply (ix_agree _ (uo_indexed _ _ Hu)), (uo_fresh _ _ Hu) in Hc'. destruct (ctip_recorded _ _ _ _ Hr E) as [q Hq].
  rewrite Eo in Hq. congruence.
Qed.

(** A transaction whose inputs are the whole treasuries of the slots [ns]. *)
Definition spends_slots s u (ns : list SidechainNumber) (tx : Transaction) : Prop :=
  (previous_output <$> input tx) = concat ((fun n => ctip_outpoint <$> slot_utxos (active_sidechains s) u n) <$> ns).

Lemma spends_slots_elem s u ns tx o :
  spends_slots s u ns tx -> o ∈ previous_output <$> input tx <->
  exists n c, n ∈ ns /\ c ∈ slot_utxos (active_sidechains s) u n /\ o = ctip_outpoint c.
Proof.
  intros Hsp. rewrite Hsp, elem_of_concat. split.
  - intros (l & Ho & (n & -> & Hn)%list_elem_of_fmap). apply list_elem_of_fmap in Ho as (c & -> & Hc). by exists n, c.
  - intros (n & c & Hn & Hc & ->). exists (ctip_outpoint <$> slot_utxos (active_sidechains s) u n).
    split; [by apply list_elem_of_fmap_2|]. by apply (list_elem_of_fmap_2 (fun n => ctip_outpoint <$> slot_utxos (active_sidechains s) u n)).
Qed.

Lemma spends_slots_nodup h s u ns tx :
  treasury_repr h (active_sidechains s) -> uc_ok (active_sidechains s) u -> NoDup ns -> spends_slots s u ns tx ->
  NoDup (previous_output <$> input tx).
Proof.
  intros Hr Hu Hnd ->. induction Hnd as [|n ns Hn Hnd IH]; [constructor|]. cbn. apply NoDup_app.
  split_and!; [by eapply slot_utxos_nodup| |done]. intros o (c & -> & Hc)%list_elem_of_fmap (l & Ho & (n' & -> & Hn')%list_elem_of_fmap)%elem_of_concat.
  apply list_elem_of_fmap in Ho as (c' & Eo & Hc'). pose proof (slot_utxos_treasury _ _ _ _ _ Hr Hu Hc) as E1.
  pose proof (slot_utxos_treasury _ _ _ _ _ Hr Hu Hc') as E2. rewrite Eo in E1. congruence.
Qed.

Lemma spends_slots_unspent h s u ns tx :
  treasury_repr h (active_sidechains s) -> uc_ok (active_sidechains s) u -> spends_slots s u ns tx ->
  unspent (active_sidechains s) (previous_output <$> input tx).
Proof.
  intros Hr Hu Hsp o n v q (n' & c & Hn & Hc & ->)%(spends_slots_elem _ _ _ _ _ Hsp) Ht.
  pose proof (slot_utxos_treasury _ _ _ _ _ Hr Hu Hc) as E. unfold treasury_utxo in E. rewrite Ht in E. injection E as -> ->.
  apply elem_of_app in Hc as [Hc|Hc].
  - destruct (ctip _ !! n') as [c'|]; [|by apply elem_of_nil in Hc]. apply list_elem_of_singleton in Hc as ->. by destruct c'.
  - apply (ix_agree _ (uo_indexed _ _ Hu)), (uo_fresh _ _ Hu) in Hc. congruence.
Qed.

(** The outputs return the treasuries of the slots [ns], each in one output. *)
Record returns_slots bh s (ns : list SidechainNumber) (tx : Transaction) : Prop := {
  rs_one : one_output bh s tx;
  rs_only v out n : output tx !! v = Some out -> designates bh s out n -> n ∈ ns;
  rs_all n : n ∈ ns -> exists v out, output tx !! v = Some out /\ designates bh s out n }.

(** What the validator finds in such a transaction. *)
Lemma spends_slots_infos h bh s u ns tx :
  treasury_repr h (active_sidechains s) -> uc_ok (active_sidechains s) u -> NoDup ns ->
  spends_slots s u ns tx -> returns_slots bh s ns tx ->
  exists infos, fill_ctips bh s u tx = Ok infos /\ (forall n, is_Some (infos !! n) <-> n ∈ ns) /\
    forall n info, infos !! n = Some info ->
      consolidated_ctip_input info = ctip (active_sidechains s) !! n /\
      (forall c, c ∈ unconsolidated_ctip_inputs info <-> c ∈ slot_ctips u n) /\
      exists v out, output tx !! v = Some out /\ designates bh s out n /\ ctip_output info = output_ctip tx v out.
Proof.
  intros Hr Hu Hnd Hsp [Hone Honly Hall]. pose proof (spends_slots_unspent _ _ _ _ _ Hr Hu Hsp) as Hun.
  destruct (fill_ctips_total bh s u tx) as [infos Hf]; [done| |by eapply spends_slots_nodup|done|].
  { intros o n v (n' & c & Hn & Hc & ->)%(spends_slots_elem _ _ _ _ _ Hsp) Ht.
    rewrite (slot_utxos_treasury _ _ _ _ _ Hr Hu Hc) in Ht. injection Ht as <- _. by apply Hall. }
  pose proof (fill_ctips_spec _ _ _ _ _ Hf) as Hs. exists infos. split; [done|].
  assert (Hdom : forall n, is_Some (infos !! n) <-> n ∈ ns).
  { intros n. split.
    - intros [info Hi]. destruct (fs_output _ _ _ _ _ _ Hs _ _ Hi) as (v & out & Ho & Hd & _). by eapply Honly.
    - intros (v & out & Ho & Hd)%Hall. destruct (fs_output_all _ _ _ _ _ _ Hs _ _ _ Ho Hd) as (info & ? & _). by eexists. }
  split; [done|]. intros n info Hi. assert (Hn : n ∈ ns) by (apply Hdom; by eexists).
  assert (Hspent : forall c, c ∈ slot_utxos (active_sidechains s) u n -> spent tx (ctip_outpoint c)).
  { intros c Hc. unfold spent. apply (spends_slots_elem _ _ _ _ _ Hsp). by exists n, c. }
  split_and!; [| |exact (fs_output _ _ _ _ _ _ Hs _ _ Hi)].
  - destruct (consolidated_ctip_input info) as [c|] eqn:Ec.
    + destruct (fs_consolidated _ _ _ _ _ _ Hs _ _ _ Hi Ec) as (Hsp' & q & Hq).
      rewrite (Hun _ _ _ _ Hsp' Hq). by destruct c.
    + destruct (ctip _ !! n) as [c|] eqn:E; [|done]. destruct (ctip_recorded _ _ _ _ Hr E) as [q Hq].
      destruct (fs_consolidated_all _ _ _ _ _ _ Hs _ _ _ _ (Hspent c ltac:(unfold slot_utxos; rewrite E; by left)) Hq)
        as (info' & Hi' & ?). congruence.
  - intros c. split; intros Hc.
    + destruct (fs_unconsolidated _ _ _ _ _ _ Hs _ _ _ Hi Hc) as (_ & _ & ?). by apply (ix_agree _ (uo_indexed _ _ Hu)).
    + pose proof (proj1 (ix_agree _ (uo_indexed _ _ Hu) _ _) Hc) as Hb.
      assert (Hc' : c ∈ slot_utxos (active_sidechains s) u n) by (apply elem_of_app; by right).
      destruct (fs_unconsolidated_all _ _ _ _ _ _ Hs _ _ _ (Hspent c Hc') (uo_fresh _ _ Hu _ _ Hb) Hb) as (info' & Hi' & ?).
      assert (info' = info) as -> by congruence. by destruct c.
Qed.

Definition slot_total (a : ActiveSidechainDbs) u n : Amount := sum (ctip_value <$> slot_utxos a u n).

Lemma slot_treasury_in a u n info :
  indexed u -> consolidated_ctip_input info = ctip a !! n ->
  (forall c, c ∈ unconsolidated_ctip_inputs info <-> c ∈ slot_ctips u n) -> treasury_in info = slot_total a u n.
Proof.
  intros Hix Hc Hu. unfold treasury_in, slot_total, slot_utxos. rewrite Hc. fold (sum (ctip_value <$> elements (unconsolidated_ctip_inputs info))).
  assert (Hp : elements (unconsolidated_ctip_inputs info) ≡ₚ slot_ctips u n).
  { apply NoDup_Permutation; [apply NoDup_elements|by eapply NoDup_fmap_1, slot_ctips_nodup|]. intros c. by rewrite elem_of_elements. }
  rewrite Hp, fmap_app, sum_app. destruct (ctip a !! n); cbn; [|done]. rewrite sum_cons. change (sum []) with 0. lia.
Qed.

Lemma slot_in_range a u n info :
  uc_ok a u -> consolidated_ctip_input info = ctip a !! n ->
  (forall c, c ∈ unconsolidated_ctip_inputs info <-> c ∈ slot_ctips u n) ->
  (forall c, ctip a !! n = Some c -> 0 <= ctip_value c) -> slot_total a u n <= u64_max -> in_range info.
Proof.
  intros Hu Hc Hs Hv Hmax. split_and!.
  - rewrite Hc. destruct (ctip a !! n) eqn:E; [by apply Hv|done].
  - intros c Hin%Hs. apply (ix_agree _ (uo_indexed _ _ Hu)) in Hin. by eapply (uo_value _ _ Hu).
  - erewrite slot_treasury_in; [done|by destruct Hu|done|done].
Qed.

(** A completed bundle spends the treasury of its slot, and returns it when no
    payout is a treasury output. *)
Lemma m6_slots bh s u n c m6 tv payouts :
  ctip (active_sidechains s) !! n = Some c -> is_Some (sidechain (active_sidechains s) !! n) ->
  (forall out n', out ∈ payouts -> ~ designates bh s out n') ->
  input m6 = txin_of <$> (ctip_outpoint c :: (ctip_outpoint <$> slot_ctips u n)) ->
  output m6 = mkTxOut tv (op_drivechain_script (op_drivechain (bh_params bh)) n) :: payouts ->
  spends_slots s u [n] m6 /\ returns_slots bh s [n] m6 /\
  (forall v out n', output m6 !! v = Some out -> designates bh s out n' -> v = O).
Proof.
  intros Hc Hact Hpay Hin Hout.
  assert (Hd : designates bh s (mkTxOut tv (op_drivechain_script (op_drivechain (bh_params bh)) n)) n).
  { split; [|done]. exists []. apply op_drivechain_parse_script. }
  assert (Hvout : forall v out n', output m6 !! v = Some out -> designates bh s out n' -> v = O /\ n' = n).
  { intros [|v] out n'; rewrite Hout; cbn; [|intros Ho%list_elem_of_lookup_2 Hd'; by destruct (Hpay _ _ Ho Hd')].
    intros [= <-] Hd'. split; [done|]. by eapply designates_inj. }
  split_and!; [|split|intros v out n' E1 [-> _]%(Hvout _ _ _ E1); done].
  - unfold spends_slots. rewrite Hin, <- list_fmap_compose. cbn. unfold slot_utxos. rewrite Hc. cbn. rewrite app_nil_r.
    f_equal. apply list_fmap_id.
  - intros v1 v2 o1 o2 n' E1 E2 [-> _]%(Hvout _ _ _ E1) [-> _]%(Hvout _ _ _ E2). done.
  - intros v out n' E [_ ->]%(Hvout _ _ _ E). by left.
  - intros n' ->%list_elem_of_singleton. exists O. eexists. by rewrite Hout.
Qed.

Lemma finalize_m6_Ok op n c us b m6 successor :
  finalize_m6 op n c us b = Ok (m6, successor) ->
  into_m6 b op n c us = Ok m6 /\ ctip_value c + sum (ctip_value <$> us) <= u64_max /\
  successor = mkCtip (mkOutPoint (compute_txid m6) 0) (ctip_value c + sum (ctip_value <$> us) - payout b - fee b).
Proof.
  unfold finalize_m6, new_treasury_value, amount_sum, amount_add. intros Hf. res_inv.
  match goal with E : checked_sum _ = Some _ |- _ => apply checked_sum_from_Some in E; fold (sum (ctip_value <$> us)) in E; subst end.
  match goal with E : checked_add_u64 _ _ = Some _ |- _ => apply checked_add_u64_Some in E as [? ->] end.
  match goal with E : (_ ≫= _) = Some _ |- _ => apply bind_Some in E as (? & E1 & E2) end.
  apply checked_sub_Some in E1 as [? ->], E2 as [? ->]. rewrite Z.add_0_l in *.
  split_and!; [done|done|]. f_equal. lia.
Qed.

(** A transaction on the treasury of one slot. *)
Lemma one_slot_info h bh s u n tx :
  treasury_repr h (active_sidechains s) -> uc_ok (active_sidechains s) u -> spends_slots s u [n] tx -> returns_slots bh s [n] tx ->
  exists i, fill_ctips bh s u tx = Ok {[n := i]} /\ consolidated_ctip_input i = ctip (active_sidechains s) !! n /\
    (forall c, c ∈ unconsolidated_ctip_inputs i <-> c ∈ slot_ctips u n) /\
    exists v out, output tx !! v = Some out /\ designates bh s out n /\ ctip_output i = output_ctip tx v out.
Proof.
  intros Hr Hu Hsp Hret.
  destruct (spends_slots_infos _ _ _ _ _ _ Hr Hu ltac:(apply NoDup_singleton) Hsp Hret) as (infos & Hf & Hdom & Hinfos).
  destruct (proj2 (Hdom n)) as [i Hi]; [by left|]. exists i. split; [|by apply Hinfos]. rewrite Hf. f_equal.
  apply map_eq. intros n'. destruct (decide (n' = n)) as [->|Hne]; [by rewrite Hi, lookup_singleton_eq|].
  rewrite lookup_singleton_ne by done. destruct (infos !! n') eqn:E; [|done].
  destruct Hne. apply list_elem_of_singleton, Hdom. by eexists.
Qed.

(** One slot, and a withdrawal from it. *)
Lemma one_withdrawal bh s u tx n i m idx info :
  fill_ctips bh s u tx = Ok {[n := i]} -> in_range i -> withdrawal_ok bh s tx n i m idx info ->
  handle_m5_m6 bh s u tx
  = Ok (Some (M6Withdrawal n m (default 0 (treasury_utxo_count (active_sidechains s) !! n)) (mkM6Diff n (ctip_output i) m idx info)),
        foldl (fun u c => (uc_remove (ctip_outpoint c) u).1) u (elements (unconsolidated_ctip_inputs i))).
Proof.
  intros Hf Hr Hw. unfold handle_m5_m6. rewrite Hf. cbn [mbind Res_bind]. rewrite map_to_list_singleton. cbn [foldM].
  unfold handle_m5_m6_slot at 1. cbn [fst snd]. rewrite (classify_withdrawal _ _ _ _ _ _ _ _ _ Hr Hw). cbn [mbind Res_bind].
  unfold update_unconsolidated. destruct Hw as (_ & (c & -> & _) & _). by rewrite bool_decide_eq_false_2.
Qed.

Lemma removed_slot u n (X : gset Ctip) o n' v :
  indexed u -> (forall c, c ∈ X <-> c ∈ slot_ctips u n) ->
  by_outpoint (foldl (fun u c => (uc_remove (ctip_outpoint c) u).1) u (elements X)) !! o = Some (n', v)
  <-> by_outpoint u !! o = Some (n', v) /\ n' <> n.
Proof.
  intros Hix HX. rewrite uc_remove_list_lookup. split; intros [Hb Hn]; (split; [done|]).
  - intros ->. apply Hn. apply (list_elem_of_fmap_2 ctip_outpoint _ (mkCtip o v)). apply elem_of_elements, HX.
    by apply (ix_agree u Hix).
  - intros (c & -> & Hc%elem_of_elements%HX%(ix_agree u Hix))%list_elem_of_fmap. congruence.
Qed.

Lemma uc_remove_others l u n n' :
  n' <> n -> Forall (fun c => forall e, by_outpoint u !! ctip_outpoint c = Some e -> e.1 = n) l ->
  by_sidechain (foldl (fun u c => (uc_remove (ctip_outpoint c) u).1) u l) !! n' = by_sidechain u !! n'.
Proof.
  intros Hne. revert u. induction l as [|c l IH]; intros u Hl; [done|]. cbn. apply Forall_cons in Hl as [Hc Hl]. fold (uc_drop u (ctip_outpoint c)). rewrite IH.
  - destruct (by_outpoint u !! ctip_outpoint c) as [[k v]|] eqn:E; [|by rewrite uc_drop_None]. pose proof (Hc _ eq_refl) as Ek. cbn in Ek. subst k.
    rewrite (uc_drop_eq _ _ _ _ E). cbn. by rewrite lookup_partial_alter_ne.
  - eapply Forall_impl; [exact Hl|]. intros c' Hc' e. rewrite uc_drop_lookup. case_decide; [done|apply Hc'].
Qed.

Lemma uc_remove_sidechain_lookup u n o n' v :
  indexed u -> by_outpoint (uc_remove_sidechain n u).1 !! o = Some (n', v) <-> by_outpoint u !! o = Some (n', v) /\ n' <> n.
Proof.
  intros Hix. cbn. assert (Hd : forall (l : list Ctip) (m : gmap OutPoint (SidechainNumber * Amount)) e,
    foldl (fun m c => delete (ctip_outpoint c) m) m l !! o = Some e <-> m !! o = Some e /\ o ∉ ctip_outpoint <$> l).
  { induction l as [|c l IH]; intros m e; cbn; [rewrite elem_of_nil; naive_solver|]. rewrite IH, lookup_delete_Some, elem_of_cons. naive_solver. }
  rewrite Hd. split; intros [Hb Hn]; (split; [done|]).
  - intros ->. apply Hn. apply (list_elem_of_fmap_2 ctip_outpoint _ (mkCtip o v)). by apply (ix_agree u Hix).
  - intros (c & -> & Hc%(ix_agree u Hix))%list_elem_of_fmap. congruence.
Qed.

(** The validator's removal of a slot's outputs, one by one, is the producer's
    [remove_sidechain]. *)
Lemma removed_slot_eq u n (X : gset Ctip) :
  indexed u -> (forall c, c ∈ X <-> c ∈ slot_ctips u n) ->
  foldl (fun u c => (uc_remove (ctip_outpoint c) u).1) u (elements X) = (uc_remove_sidechain n u).1.
Proof.
  intros Hix HX. set (u' := foldl _ u _).
  assert (Hb : forall o n' v, by_outpoint u' !! o = Some (n', v) <-> by_outpoint u !! o = Some (n', v) /\ n' <> n) by (intros; by apply (removed_slot u n X)).
  assert (Hix' : indexed u') by by apply uc_remove_all_indexed.
  enough (E : by_outpoint u' = by_outpoint (uc_remove_sidechain n u).1 /\ by_sidechain u' = delete n (by_sidechain u)).
  { destruct E as [E1 E2]. destruct u' as [x y]. cbn in E1, E2. by rewrite E1, E2. }
  split; apply map_eq; intros k.
  - apply option_eq. intros [n' v]. by rewrite Hb, uc_remove_sidechain_lookup.
  - destruct (decide (k = n)) as [->|Hne].
    + rewrite lookup_delete_eq. destruct (by_sidechain u' !! n) as [l|] eqn:E; [exfalso|done]. destruct (ix_nodup u' Hix' _ _ E) as [_ Hl].
      destruct l as [|c l]; [done|]. assert (Hc : c ∈ slot_ctips u' n) by (rewrite E; by left). by apply (ix_agree u' Hix'), Hb in Hc as [_ ?].
    + rewrite lookup_delete_ne by done. apply (uc_remove_others _ u n); [done|]. apply Forall_forall. intros c Hc%elem_of_elements%HX%(ix_agree u Hix) e.
      rewrite Hc. by intros [= <-].
Qed.

(** The M6 that the producer completes, as the validator handles it *)
Lemma m6_withdrawn h bh s u n c tx b m6 successor p idx info :
  treasury_repr h (active_sidechains s) -> uc_ok (active_sidechains s) u ->
  is_Some (sidechain (active_sidechains s) !! n) -> ctip (active_sidechains s) !! n = Some c -> 0 <= ctip_value c ->
  blinded_m6_try_from tx = Ok b -> Forall (fun o => 0 <= value o) (output tx) ->
  head (output tx) = Some (mkTxOut 0 (new_op_return (be_bytes 8 (fee b)))) ->
  (forall out n', out ∈ tail (output tx) -> ~ designates bh s out n') ->
  pending_m6ids (active_sidechains s) !! n = Some p -> om_get_full (blinded_compute_m6id b) p = Some (idx, info) ->
  withdrawal_bundle_inclusion_threshold (bh_thresholds bh) < pm_vote_count info ->
  finalize_m6 (op_drivechain (bh_params bh)) n c (default [] (uc_get_by_sidechain u n)) b = Ok (m6, successor) ->
  handle_m5_m6 bh s u m6
      = Ok (Some (M6Withdrawal n (blinded_compute_m6id b) (default 0 (treasury_utxo_count (active_sidechains s) !! n))
                    (mkM6Diff n successor (blinded_compute_m6id b) idx info)), (uc_remove_sidechain n u).1).
Proof.
  intros Hr Hu Hact Hc Hcv Htry Hout Hhead Hpay Hp Hg Hvotes Hfin.
  apply finalize_m6_Ok in Hfin as (Hinto & Hmax & ->).
  assert (Hus : Forall (fun c => 0 <= ctip_value c) (slot_ctips u n)).
  { apply Forall_forall. intros c' Hc'%(ix_agree _ (uo_indexed _ _ Hu)). by eapply (uo_value _ _ Hu). }
  assert (0 <= sum (ctip_value <$> slot_ctips u n)) by by apply sum_nonneg_all, Forall_fmap.
  unfold uc_get_by_sidechain in *. assert (Hcb : 0 <= ctip_value c <= u64_max) by lia.
  destruct (into_m6_completes _ _ _ _ _ _ _ Hout Hcb Hus Htry Hhead Hinto) as (Hid & Hin & Ho & _ & Hpos & Hfee & _).
  fold (sum (ctip_value <$> slot_ctips u n)) in Hid, Ho.
  destruct (m6_slots bh s u n c m6 _ _ Hc Hact Hpay Hin Ho) as (Hsp & Hret & Hfirst).
  destruct (one_slot_info _ _ _ _ _ _ Hr Hu Hsp Hret) as (i & Hf & Hcons & Hunc & v & out & Hv & Hd & Hctip).
  assert (Htot : slot_total (active_sidechains s) u n = ctip_value c + sum (ctip_value <$> slot_ctips u n)).
  { unfold slot_total, slot_utxos. rewrite Hc. cbn. by rewrite sum_cons. }
  assert (Hti : treasury_in i = ctip_value c + sum (ctip_value <$> slot_ctips u n)).
  { rewrite <- Htot. apply slot_treasury_in; [by destruct Hu|done|done]. }
  assert (Hrange : in_range i).
  { eapply (slot_in_range _ u n); [done..| |lia]. intros c' E. congruence. }
  assert (Hsucc : ctip_output i = mkCtip (mkOutPoint (compute_txid m6) 0) (ctip_value c + sum (ctip_value <$> slot_ctips u n) - payout b - fee b)).
  { pose proof (Hfirst _ _ _ Hv Hd) as ->. rewrite Ho in Hv. injection Hv as <-. by rewrite Hctip. }
  assert (Hw : withdrawal_ok bh s m6 n i (blinded_compute_m6id b) idx info).
  { rewrite <- Hti in *. split_and!; [rewrite Hsucc; cbn; lia| |by rewrite Hsucc|].
    - exists c. split; [by rewrite Hcons|]. intros txin. rewrite Hin. intros (o & -> & Ho')%list_elem_of_fmap.
      apply elem_of_cons in Ho' as [->|(c' & -> & Hc')%list_elem_of_fmap]; [by left|right]. exists c'. by rewrite Hunc.
    - unfold handle_m6. rewrite Hid. cbn [map_err mbind Res_bind]. rewrite Hp. cbn [ok_or mbind Res_bind]. rewrite Hg.
      cbn [ok_or mbind Res_bind]. rewrite bool_decide_eq_true_2 by done. by rewrite orb_true_r. }
  rewrite (one_withdrawal _ _ _ _ _ _ _ _ _ Hf Hrange Hw), Hsucc. by rewrite (removed_slot_eq u n) by (by destruct Hu || done).
Qed.

(** C14. A withdrawal the producer builds is one the validator accepts. Let a
    bundle of an active slot with a treasury be pending with more votes than
    the threshold, and let none of its payouts be a treasury output of an
    active slot. Then the M6 that [finalize_m6] completes from it, against the
    CTIP and the unconsolidated outputs of the slot, is accepted as the
    withdrawal of exactly this bundle; the CTIP it leaves is the successor the
    producer goes on with, and the slot has no unconsolidated output left. *)
Theorem m6_accepted h bh s u n c tx b m6 successor p idx info :
  treasury_repr h (active_sidechains s) -> uc_ok (active_sidechains s) u ->
  is_Some (sidechain (active_sidechains s) !! n) -> ctip (active_sidechains s) !! n = Some c -> 0 <= ctip_value c ->
  blinded_m6_try_from tx = Ok b -> Forall (fun o => 0 <= value o) (output tx) ->
  head (output tx) = Some (mkTxOut 0 (new_op_return (be_bytes 8 (fee b)))) ->
  (forall out n', out ∈ tail (output tx) -> ~ designates bh s out n') ->
  pending_m6ids (active_sidechains s) !! n = Some p -> om_get_full (blinded_compute_m6id b) p = Some (idx, info) ->
  withdrawal_bundle_inclusion_threshold (bh_thresholds bh) < pm_vote_count info ->
  finalize_m6 (op_drivechain (bh_params bh)) n c (default [] (uc_get_by_sidechain u n)) b = Ok (m6, successor) ->
  exists u', handle_m5_m6 bh s u m6
      = Ok (Some (M6Withdrawal n (blinded_compute_m6id b) (default 0 (treasury_utxo_count (active_sidechains s) !! n))
                    (mkM6Diff n successor (blinded_compute_m6id b) idx info)), u') /\
    forall o n' v, by_outpoint u' !! o = Some (n', v) <-> by_outpoint u !! o = Some (n', v) /\ n' <> n.
Proof.
  intros Hr Hu **. eexists. split; [by eapply m6_withdrawn|]. intros. apply uc_remove_sidechain_lookup. by destruct Hu.
Qed.

(** *** A payout into a treasury *)

Lemma second_output_rejected bh s txid l m n v out :
  is_Some (m !! n) -> (v, out) ∈ l -> designates bh s out n ->
  exists n', foldM (fill_ctip_output bh s txid) l m = Err (MultipleOpDrivechainOutputs n').
Proof.
  intros Hm Hin Hd. revert m Hm. induction l as [|[v' out'] l IH]; intros m [i Hi]; [by apply elem_of_nil in Hin|].
  cbn [foldM]. unfold fill_ctip_output at 2. cbv beta iota. apply elem_of_cons in Hin as [[= <- <-]|Hin].
  - destruct Hd as [[r Hr] Hact]. rewrite Hr. apply contains_key_true in Hact. rewrite Hact. cbn [negb]. rewrite Hi. by exists n.
  - destruct (op_drivechain_parse _ _) as [[r k]|]; [|apply IH; [done|by eexists]].
    destruct (negb _); [apply IH; [done|by eexists]|]. destruct (m !! k) eqn:Ek; [by exists k|].
    apply IH; [done|]. rewrite lookup_insert_ne by congruence. by eexists.
Qed.

(** The suffix for one approved bundle of a slot with a treasury. *)
Lemma suffix_one_bundle params cs n c m6id b info m6 successor :
  cs !! n = Some c -> withdrawal_bundle_inclusion_threshold (np_thresholds params) < pm_vote_count info ->
  finalize_m6 (op_drivechain params) n c [] b = Ok (m6, successor) ->
  suffix_txs_for_proposals {[n := [(m6id, b, Some info)]]} (mkCtips cs unconsolidated_default) params = Ok [m6].
Proof.
  intros Hc Hv Hf. unfold suffix_txs_for_proposals.
  assert (hash_iter {[n := [(m6id, b, Some info)]]} = [(n, [(m6id, b, Some info)])]) as ->.
  { apply Permutation_singleton_r. rewrite hash_iter_perm. by rewrite map_to_list_singleton. }
  cbn [foldM fst snd slot_m6s]. rewrite bool_decide_eq_false_2 by lia. cbn [consolidated unconsolidated]. rewrite Hc.
  unfold uc_get_by_sidechain, unconsolidated_default. cbn [by_sidechain]. rewrite lookup_empty. cbn [default fmap list_fmap].
  pose proof Hf as Hb. apply finalize_m6_Ok in Hb as (_ & Hmax & _). cbn in Hmax. change (sum []) with 0 in Hmax.
  change (@amount_sum ?E []) with (@Ok E _ 0). cbn [mbind Res_bind]. rewrite amount_add_total by done. cbn [mbind Res_bind].
  by rewrite Hf.
Qed.

(** A bundle that pays into the treasury of its own slot stops the
    producer. Such a bundle passes every check of [BlindedM6::try_from], so it
    can be stored, proposed and voted for; once it is approved, the producer
    completes it and appends it to every block, and the validator rejects the
    transaction, whatever the state of the slot's treasury. (The comment on
    [suffix_txs_for_proposals] says that one unpayable bundle must not stop the
    node from producing blocks.) *)
Theorem treasury_payout_rejected tx b params cs n c info m6 successor out :
  blinded_m6_try_from tx = Ok b -> out ∈ tail (output tx) ->
  script_pubkey out = op_drivechain_script (op_drivechain params) n ->
  cs !! n = Some c -> withdrawal_bundle_inclusion_threshold (np_thresholds params) < pm_vote_count info ->
  finalize_m6 (op_drivechain params) n c [] b = Ok (m6, successor) ->
  suffix_txs_for_proposals {[n := [(blinded_compute_m6id b, b, Some info)]]} (mkCtips cs unconsolidated_default) params = Ok [m6] /\
  forall bh s u, bh_params bh = params -> is_Some (sidechain (active_sidechains s) !! n) ->
    exists n', handle_m5_m6 bh s u m6 = Err (MultipleOpDrivechainOutputs n').
Proof.
  intros Htry Hout Hspk Hc Hv Hf. split; [by eapply suffix_one_bundle|]. intros bh s u Hp Hact.
  assert (Hd : forall o, script_pubkey o = op_drivechain_script (op_drivechain params) n -> designates bh s o n).
  { intros o Hso. split; [|done]. exists []. rewrite Hso, Hp. apply op_drivechain_parse_script. }
  destruct (blinded_m6_try_from_Ok _ _ Htry) as (o & payouts & _ & Ho & _ & Htx & _). rewrite Ho in Hout. cbn in Hout.
  apply finalize_m6_Ok in Hf as (Hinto & _). unfold into_m6 in Hinto. rewrite Htx, Ho in Hinto. res_inv.
  match goal with |- context [handle_m5_m6 bh s u ?t] => set (m6 := t) end. unfold handle_m5_m6, fill_ctips.
  apply list_elem_of_lookup in Hout as [i Hi].
  enough (E : exists n', foldM (fill_ctip_output bh s (compute_txid m6)) (enumerate (output m6)) ∅ = Err (MultipleOpDrivechainOutputs n')).
  { destruct E as [n' ->]. by exists n'. }
  unfold enumerate at 1. unfold m6 at 2 3. cbn [output length seq zip zip_with foldM]. unfold fill_ctip_output at 2. cbn [script_pubkey].
  rewrite op_drivechain_parse_script. apply contains_key_true in Hact. rewrite Hact. cbn [negb]. rewrite lookup_empty. cbn [mbind Res_bind].
  eapply (second_output_rejected _ _ _ _ _ n (S i) out); [by rewrite lookup_insert_eq| |by apply Hd].
  apply list_elem_of_lookup. exists i. apply lookup_zip_with_Some. exists (S i), out. split_and!; [done| |done].
  rewrite lookup_seq_lt; [done|]. by eapply lookup_lt_Some.
Qed.

End Withdrawals.

(** ** The consolidation *)

Section Consolidation.
Context `{Bitcoin, !BitcoinLaws, Nom, !NomLaws, TxCodec, HashIter}.
Implicit Types (bh : BlockHandler) (s : Dbs) (u : UnconsolidatedCtips) (a : ActiveSidechainDbs).

Lemma add_all_total {E} (cs : list Ctip) (v : Amount) :
  Forall (fun c => 0 <= ctip_value c) cs -> v + sum (ctip_value <$> cs) <= u64_max ->
  foldM (fun v c => @amount_add E v (ctip_value c)) cs v = Ok (v + sum (ctip_value <$> cs)).
Proof.
  intros Hcs. revert v. induction Hcs as [|c cs Hc Hcs IH]; intros v Hv; cbn.
  - change (sum []) with 0. f_equal. lia.
  - cbn in Hv. rewrite sum_cons in *. assert (0 <= sum (ctip_value <$> cs)) by by apply sum_nonneg_all, Forall_fmap.
    rewrite amount_add_total by lia. cbn. rewrite IH by lia. f_equal. lia.
Qed.

(** The UTXOs of a slot that the loop spends. *)
Definition spent_ctips (ctips : gmap SidechainNumber Ctip) (e : SidechainNumber * list Ctip) : list Ctip :=
  match ctips !! e.1 with Some c => c :: e.2 | None => e.2 end.

Definition summable (cs : list Ctip) : Prop :=
  Forall (fun c => 0 <= ctip_value c) cs /\ sum (ctip_value <$> cs) <= u64_max.

Lemma consolidate_all params l ctips tx :
  NoDup l.*1 -> Forall (fun e => summable (spent_ctips ctips e)) l ->
  exists ctips', foldM (consolidate_slot params) l (ctips, tx) =
    Ok (ctips', mkTransaction (version tx) (lock_time tx)
                  (input tx ++ concat ((fun e => txin_of ∘ ctip_outpoint <$> spent_ctips ctips e) <$> l))
                  (output tx ++ ((fun e => create_m5_deposit_output (op_drivechain params) e.1
                                             (sum (ctip_value <$> spent_ctips ctips e))) <$> l))).
Proof.
  revert ctips tx. induction l as [|[n us] l IH]; intros ctips tx Hnd Hl; cbn [foldM].
  - exists ctips. cbn. rewrite !app_nil_r. by destruct tx.
  - apply NoDup_cons in Hnd as [Hn Hnd]. cbn in Hn. apply Forall_cons in Hl as [[Hv Hmax] Hl].
    assert (Hsame : forall e, e ∈ l -> spent_ctips (delete n ctips) e = spent_ctips ctips e).
    { intros e He. unfold spent_ctips. rewrite lookup_delete_ne; [done|]. intros ->. apply Hn. by apply (list_elem_of_fmap_2 fst). }
    unfold consolidate_slot at 2. change (match ctips !! n with Some c => c :: us | None => us end) with (spent_ctips ctips (n, us)).
    rewrite add_all_total by done. cbn [mbind Res_bind].
    edestruct (IH (delete n ctips)) as [ctips' ->]; [done| |].
    { apply Forall_forall. intros e He. rewrite Hsame by done. by eapply Forall_forall in Hl. }
    exists ctips'. cbn. rewrite Z.add_0_l, <- !app_assoc. do 4 f_equal.
    + do 2 f_equal. apply list_fmap_ext. intros i e He%list_elem_of_lookup_2. by rewrite Hsame.
    + cbn. f_equal. apply list_fmap_ext. intros i e He%list_elem_of_lookup_2. by rewrite Hsame.
Qed.

(** The transaction that consolidates the treasuries [l]. *)
Definition consolidation (params : NetworkParams) (ctips : gmap SidechainNumber Ctip) (l : list (SidechainNumber * list Ctip)) : Transaction :=
  mkTransaction 2 0 (concat ((fun e => txin_of ∘ ctip_outpoint <$> spent_ctips ctips e) <$> l))
    ((fun e => create_m5_deposit_output (op_drivechain params) e.1 (sum (ctip_value <$> spent_ctips ctips e))) <$> l).

Lemma spent_ctips_slot a u n us : by_sidechain u !! n = Some us -> spent_ctips (ctip a) (n, us) = slot_utxos a u n.
Proof. intros E. unfold spent_ctips, slot_utxos. rewrite E. cbn. by destruct (ctip a !! n). Qed.

Lemma consolidation_inputs a u l :
  (forall e, e ∈ l -> by_sidechain u !! e.1 = Some e.2) ->
  (previous_output <$> concat ((fun e => txin_of ∘ ctip_outpoint <$> spent_ctips (ctip a) e) <$> l))
  = concat ((fun n => ctip_outpoint <$> slot_utxos a u n) <$> l.*1).
Proof.
  induction l as [|[n us] l IH]; intros Hl; [done|]. rewrite !fmap_cons. cbn [concat fst]. rewrite fmap_app, IH.
  - f_equal. rewrite (spent_ctips_slot a u) by (apply (Hl (n, us)); by left). by rewrite <- list_fmap_compose.
  - intros e He. apply Hl. by right.
Qed.

Lemma consolidation_slots bh s u l :
  uc_ok (active_sidechains s) u -> l ≡ₚ map_to_list (by_sidechain u) ->
  let tx := consolidation (bh_params bh) (ctip (active_sidechains s)) l in
  spends_slots s u l.*1 tx /\ returns_slots bh s l.*1 tx /\
  (forall v out n, output tx !! v = Some out -> designates bh s out n -> value out = slot_total (active_sidechains s) u n).
Proof.
  intros Hu Hl tx. assert (Hby : forall e, e ∈ l -> by_sidechain u !! e.1 = Some e.2).
  { intros [n us] He. apply elem_of_map_to_list. by rewrite <- Hl. }
  assert (Hnd : NoDup l.*1) by (rewrite Hl; apply NoDup_fst_map_to_list).
  assert (Hact : forall e, e ∈ l -> is_Some (sidechain (active_sidechains s) !! e.1)).
  { intros [n us] He%Hby. cbn in *. destruct (ix_nodup _ (uo_indexed _ _ Hu) _ _ He) as [_ Hne]. destruct us as [|c us]; [done|].
    eapply (uo_active _ _ Hu (ctip_outpoint c)). apply (ix_agree _ (uo_indexed _ _ Hu)). rewrite He. by left. }
  assert (Hd : forall v out n, output tx !! v = Some out -> designates bh s out n ->
    exists e, l !! v = Some e /\ n = e.1 /\ value out = sum (ctip_value <$> spent_ctips (ctip (active_sidechains s)) e)).
  { intros v out n Ho Hdes. unfold tx, consolidation in Ho. cbn [output] in Ho. rewrite list_lookup_fmap in Ho.
    destruct (l !! v) as [e|]; [|done]. injection Ho as <-. exists e. split_and!; [done| |done]. eapply designates_inj; [exact Hdes|].
    destruct Hdes as [[r Hr] Hac]. cbn in Hr. rewrite op_drivechain_parse_script in Hr. injection Hr as <- <-.
    split; [|done]. exists []. apply op_drivechain_parse_script. }
  split_and!.
  - unfold spends_slots, tx, consolidation. cbn [input]. by apply consolidation_inputs.
  - split.
    + intros v1 v2 o1 o2 n E1 E2 D1 D2. destruct (Hd _ _ _ E1 D1) as (e1 & L1 & -> & _), (Hd _ _ _ E2 D2) as (e2 & L2 & E & _).
      apply (NoDup_lookup l.*1 v1 v2 e1.1); [done|by rewrite list_lookup_fmap, L1|by rewrite list_lookup_fmap, L2, E].
    + intros v out n Ho D. destruct (Hd _ _ _ Ho D) as (e & L & -> & _). apply list_elem_of_fmap_2. by eapply list_elem_of_lookup_2.
    + intros n (e & -> & He)%list_elem_of_fmap. pose proof He as [v Hv]%list_elem_of_lookup. exists v. eexists.
      unfold tx, consolidation. cbn [output]. rewrite list_lookup_fmap, Hv. split; [done|]. split; [|by apply Hact].
      exists []. apply op_drivechain_parse_script.
  - intros v out n Ho D. destruct (Hd _ _ _ Ho D) as ([k us] & L & -> & ->). unfold slot_total.
    apply list_elem_of_lookup_2 in L. by rewrite (spent_ctips_slot _ u) by exact (Hby _ L).
Qed.

(** A slot whose outputs a transaction consolidates. *)
Record consolidates s (e : SidechainNumber * TxCtipsInfo) : Prop := {
  co_range : in_range e.2;
  co_value : treasury_in e.2 = ctip_value (ctip_output e.2);
  co_some : unconsolidated_ctip_inputs e.2 <> ∅;
  co_becomes : stays_unconsolidated s e.1 e.2 = false }.

Lemma consolidated_lookup s l u o x :
  Forall (consolidates s) l ->
  by_outpoint (foldl (fun u e => update_unconsolidated s u e.1 e.2) u l) !! o = Some x <->
  by_outpoint u !! o = Some x /\ forall n info, (n, info) ∈ l -> o ∉ ctip_outpoint <$> elements (unconsolidated_ctip_inputs info).
Proof.
  intros Hl. revert u. induction Hl as [|[n info] l [_ _ _ Hst] Hl IH]; intros u; cbn [foldl].
  - split; [|naive_solver]. intros ?. split; [done|]. by intros ?? ?%elem_of_nil.
  - rewrite IH. unfold update_unconsolidated. cbn [fst snd] in *. unfold stays_unconsolidated in Hst. rewrite Hst, uc_remove_list_lookup.
    setoid_rewrite elem_of_cons. naive_solver.
Qed.

Lemma all_consolidations bh s tx k l u :
  l <> [] -> NoDup l.*1 -> Forall (consolidates s) l ->
  exists d, foldM (handle_m5_m6_slot bh s tx k) l (None, u)
      = Ok (Some (M5Deposits ∅ d), foldl (fun u e => update_unconsolidated s u e.1 e.2) u l) /\
    forall n c, new_ctips d !! n = Some c <-> exists info, (n, info) ∈ l /\ c = ctip_output info.
Proof.
  intros Hne Hnd Hl.
  destruct (foldM_progress (fun _ st => match st.1 with Some (M6Withdrawal _ _ _ _) => False | _ => True end)
    (handle_m5_m6_slot bh s tx k) l (None, u)) as ([r u'] & Hf & _); [done| |].
  { intros pre [n info] [r u1] [rest Hpre] Hr. assert (He : (n, info) ∈ l) by (rewrite Hpre; set_solver).
    apply (proj1 (Forall_forall _ _) Hl) in He as [Hr1 Hv1 Hs1 Hb1]. eexists. unfold handle_m5_m6_slot. cbn [fst snd] in *.
    rewrite classify_consolidation by done. cbn. split; [done|]. by destruct r as [[]|]. }
  rewrite Hf. apply handle_slots_outcome in Hf as [Ho ->]; [|done].
  assert (Hc : forall n info, (n, info) ∈ l -> treasury_in info = ctip_value (ctip_output info) /\ stays_unconsolidated s n info = false).
  { intros n info Hi. by destruct (proj1 (Forall_forall _ _) Hl _ Hi). }
  destruct r as [[ds d|n m q d]|]; [|exfalso|done].
  - destruct Ho as (_ & Hin & Hout). assert (ds = ∅) as ->.
    { apply map_eq. intros n. rewrite lookup_empty. destruct (decide (n ∈ l.*1)) as [([n' info] & -> & Hi)%list_elem_of_fmap|Hn].
      - destruct (Hin _ _ Hi) as [Hdep _]. destruct (ds !! n') as [x|] eqn:E; cbn in *; rewrite E in *; [|done]. destruct Hdep as [Hlt _].
        destruct (Hc _ _ Hi). lia.
      - by destruct (Hout n Hn). }
    exists d. split; [done|]. intros n c. split.
    + intros E. destruct (decide (n ∈ l.*1)) as [([n' info] & -> & Hi)%list_elem_of_fmap|Hn].
      * exists info. split; [done|]. destruct (Hin _ _ Hi) as [_ E']. rewrite (proj2 (Hc _ _ Hi)) in E'. cbn in E. congruence.
      * destruct (Hout n Hn) as [_ E']. congruence.
    + intros (info & Hi & ->). destruct (Hin _ _ Hi) as [_ ->]. by rewrite (proj2 (Hc _ _ Hi)).
  - destruct Ho as (info & -> & (Hlt & _) & _). destruct (Hc n info); [by left|]. lia.
Qed.

Lemma consolidation_infos h bh s u l :
  treasury_repr h (active_sidechains s) -> uc_ok (active_sidechains s) u -> l ≡ₚ map_to_list (by_sidechain u) ->
  (forall n c, ctip (active_sidechains s) !! n = Some c -> 0 <= ctip_value c) ->
  (forall n, slot_total (active_sidechains s) u n <= u64_max) ->
  let tx := consolidation (bh_params bh) (ctip (active_sidechains s)) l in
  exists infos, fill_ctips bh s u tx = Ok infos /\ (forall n, is_Some (infos !! n) <-> is_Some (by_sidechain u !! n)) /\
    forall n info, infos !! n = Some info -> consolidates s (n, info) /\
      (forall c, c ∈ unconsolidated_ctip_inputs info <-> c ∈ slot_ctips u n) /\
      op_txid (ctip_outpoint (ctip_output info)) = compute_txid tx /\
      ctip_value (ctip_output info) = slot_total (active_sidechains s) u n.
Proof.
  intros Hr Hu Hl Hcv Hmax tx. destruct (consolidation_slots bh s u l Hu Hl) as (Hsp & Hret & Hval). fold tx in Hsp, Hret, Hval.
  assert (Hnd : NoDup l.*1) by (rewrite Hl; apply NoDup_fst_map_to_list).
  destruct (spends_slots_infos _ _ _ _ _ _ Hr Hu Hnd Hsp Hret) as (infos & Hf & Hdom & Hinfos). exists infos.
  assert (Hdom' : forall n, is_Some (infos !! n) <-> is_Some (by_sidechain u !! n)).
  { intros n. rewrite Hdom, Hl. split.
    - intros ([n' us] & -> & He%elem_of_map_to_list)%list_elem_of_fmap. by eexists.
    - intros [us He%elem_of_map_to_list]. by apply (list_elem_of_fmap_2 fst _ (n, us)). }
  split_and!; [done|done|]. intros n info Hi. destruct (Hinfos n info Hi) as (Hcons & Hunc & v & out & Ho & Hd & Hctip).
  assert (Ev : ctip_value (ctip_output info) = slot_total (active_sidechains s) u n) by (rewrite Hctip; by eapply Hval).
  split_and!; [|done|by rewrite Hctip|done]. split; cbn [fst snd].
  - eapply (slot_in_range _ u n); [done..| |done]. intros c. apply Hcv.
  - rewrite Ev. apply slot_treasury_in; [by destruct Hu|done|done].
  - destruct (proj1 (Hdom' n)) as [us Hus]; [by eexists|]. destruct (ix_nodup _ (uo_indexed _ _ Hu) _ _ Hus) as [_ Hne].
    destruct us as [|c us]; [done|]. intros E. assert (Hc : c ∈ unconsolidated_ctip_inputs info) by (apply Hunc; rewrite Hus; by left).
    rewrite E in Hc. by apply not_elem_of_empty in Hc.
  - unfold stays_unconsolidated, contains_key. rewrite Hcons. destruct (ctip _ !! n) as [c|].
    + by rewrite bool_decide_eq_false_2.
    + rewrite (bool_decide_eq_false_2 (is_Some _)); [apply andb_false_r|]. by intros [].
Qed.

(** The consolidation, as the validator handles it: it deposits nothing, it makes
    for each slot with unconsolidated outputs a new CTIP that holds the slot's whole
    treasury and touches no other slot, and it leaves no unconsolidated output. *)
Lemma consolidation_handled h bh s u :
  treasury_repr h (active_sidechains s) -> uc_ok (active_sidechains s) u -> by_outpoint u <> ∅ ->
  (forall n c, ctip (active_sidechains s) !! n = Some c -> 0 <= ctip_value c) ->
  (forall n, slot_total (active_sidechains s) u n <= u64_max) ->
  let tx := consolidation (bh_params bh) (ctip (active_sidechains s)) (hash_iter (by_sidechain u)) in
  exists d u',
    handle_m5_m6 bh s u tx = Ok (Some (M5Deposits ∅ d), u') /\
    uc_is_empty u' = true /\
    (forall n, is_Some (new_ctips d !! n) <-> is_Some (by_sidechain u !! n)) /\
    (forall n c, new_ctips d !! n = Some c ->
       op_txid (ctip_outpoint c) = compute_txid tx /\ ctip_value c = slot_total (active_sidechains s) u n).
Proof.
  intros Hr Hu Hne Hcv Hmax tx0.
  destruct (consolidation_infos h bh s u (hash_iter (by_sidechain u)) Hr Hu (hash_iter_perm _) Hcv Hmax) as (infos & Hf & Hdom & Hinfos).
  fold tx0 in Hf, Hinfos. set (tx := tx0) in *. destruct (map_choose _ Hne) as (o & [n v] & Hv). apply (ix_agree _ (uo_indexed _ _ Hu) n (mkCtip o v)) in Hv.
  assert (Hall : Forall (consolidates s) (map_to_list infos)).
  { apply Forall_forall. intros [n' info] Hi%elem_of_map_to_list. by apply Hinfos. }
  destruct (all_consolidations bh s tx (size infos) (map_to_list infos) u) as (d & Hfold & Hnew).
  - intros E%map_to_list_empty_iff. destruct (by_sidechain u !! n) as [us|] eqn:Eus; [|by apply elem_of_nil in Hv].
    destruct (proj2 (Hdom n)) as [i Hi]; [by eexists|]. by rewrite E, lookup_empty in Hi.
  - apply NoDup_fst_map_to_list.
  - exact Hall.
  - setoid_rewrite elem_of_map_to_list in Hnew. eexists d, _. split_and!.
    + unfold handle_m5_m6. rewrite Hf. cbn [mbind Res_bind]. exact Hfold.
    + apply bool_decide_eq_true_2, map_empty. intros o'. destruct (_ !! o') as [[n' v']|] eqn:E; [exfalso|done].
      apply consolidated_lookup in E as [Hb Hno]; [|done].
      apply (ix_agree _ (uo_indexed _ _ Hu) n' (mkCtip o' v')) in Hb. destruct (by_sidechain u !! n') as [us|] eqn:Eus; [|by apply elem_of_nil in Hb].
      destruct (proj2 (Hdom n')) as [i Hi]; [by eexists|]. destruct (Hinfos n' i Hi) as (_ & Hunc & _).
      apply (Hno n' i); [by apply elem_of_map_to_list|]. apply (list_elem_of_fmap_2 ctip_outpoint _ (mkCtip o' v')), elem_of_elements, Hunc.
      by rewrite Eus.
    + intros n'. rewrite <- Hdom. split; [intros [c (i & -> & _)%Hnew]; by eexists|]. intros [i Hi]. eexists. apply Hnew. by exists i.
    + intros n' c (i & Hi & ->)%Hnew. by destruct (Hinfos n' i Hi) as (_ & _ & ? & ?).
Qed.

End Consolidation.

(** ** The whole suffix *)

Section Suffix.
Context `{Bitcoin, !BitcoinLaws, Nom, !NomLaws, TxCodec, HashIter}.
Implicit Types (bh : BlockHandler) (s : Dbs) (u : UnconsolidatedCtips) (a : ActiveSidechainDbs).

(** The validator handles the transactions one after the other and applies the
    diff of each, as in [connect_transaction]. *)
Inductive suffix_runs bh (height : Z) : Dbs -> UnconsolidatedCtips -> list Transaction -> list DepositsOrSuccessfulWithdrawal -> Dbs -> UnconsolidatedCtips -> Prop :=
| suffix_done s u : suffix_runs bh height s u [] [] s u
| suffix_step s u tx r u1 a1 txs rs s' u' :
    handle_m5_m6 bh s u tx = Ok (Some r, u1) -> apply (result_diff r) height (active_sidechains s) = Ok a1 ->
    suffix_runs bh height (set_active s a1) u1 txs rs s' u' -> suffix_runs bh height s u (tx :: txs) (r :: rs) s' u'.

Lemma suffix_runs_app bh height s u txs1 rs1 s1 u1 txs2 rs2 s2 u2 :
  suffix_runs bh height s u txs1 rs1 s1 u1 -> suffix_runs bh height s1 u1 txs2 rs2 s2 u2 ->
  suffix_runs bh height s u (txs1 ++ txs2) (rs1 ++ rs2) s2 u2.
Proof. induction 1; intros; [done|]. cbn. by eapply suffix_step; eauto. Qed.

(** Transactions with ids of their own *)
Definition new_txs a u (txs : list Transaction) : Prop :=
  NoDup (compute_txid <$> txs) /\ Forall (fun tx => txid_fresh tx a /\ uc_fresh tx u) txs.
(** Room for the sequence numbers of [k] more treasury UTXOs of each slot *)
Definition room a (k : nat) : Prop := forall n, default 0 (treasury_utxo_count a !! n) + Z.of_nat k < u64_max.

Lemma put_new_ctips_count l a a' n :
  NoDup l.*1 -> foldM put_new_ctip l a = Ok a' ->
  default 0 (treasury_utxo_count a' !! n) <= default 0 (treasury_utxo_count a !! n) + if decide (n ∈ l.*1) then 1 else 0.
Proof.
  revert a. induction l as [|[k c] l IH]; intros a Hnd Hf; cbn in Hf; res_inv; [case_decide; lia|].
  apply NoDup_cons in Hnd as [Hk Hnd]. cbn in Hk. etrans; [by eapply IH|]. unfold put_new_ctip, put_ctip in *. res_inv. cbn.
  match goal with E : checked_add_u64 _ _ = Some _ |- _ => apply checked_add_u64_Some in E as [_ ->] end.
  destruct (decide (n = k)) as [->|Hne].
  - rewrite lookup_insert_eq, (decide_False (P := k ∈ l.*1)), decide_True by (done || by left). cbn. lia.
  - rewrite lookup_insert_ne by done. destruct (decide (n ∈ l.*1)); [rewrite decide_True by by right|rewrite decide_False by (by intros [?|?]%elem_of_cons)]; lia.
Qed.

Lemma handled_grows bh s u tx r u1 height a1 :
  handle_m5_m6 bh s u tx = Ok (Some r, u1) -> apply (result_diff r) height (active_sidechains s) = Ok a1 ->
  (forall o, is_Some (ctip_outpoint_to_value_seq a1 !! o) -> is_Some (ctip_outpoint_to_value_seq (active_sidechains s) !! o) \/ op_txid o = compute_txid tx) /\
  (forall o, is_Some (by_outpoint u1 !! o) -> is_Some (by_outpoint u !! o) \/ op_txid o = compute_txid tx) /\
  (forall n, default 0 (treasury_utxo_count a1 !! n) <= default 0 (treasury_utxo_count (active_sidechains s) !! n) + 1).
Proof.
  intros Hm Ha. apply handle_m5_m6_outcome in Hm as (infos & Hs & Ho & ->).
  assert (Hnew : forall n info, infos !! n = Some info -> op_txid (ctip_outpoint (ctip_output info)) = compute_txid tx).
  { intros n info Hi. by destruct (fs_output _ _ _ _ _ _ Hs _ _ Hi) as (v & out & _ & _ & ->). }
  split_and!.
  - intros o [[[n v] q] Ht]. pose proof Ha as [_ Htab]%tx_apply_tables. destruct (Htab _ _ _ _ Ht) as [?|Hd]; [left; by eexists|right].
    rewrite (outcome_ctips _ _ _ _ _ _ Ho) in Hd. destruct (infos !! n) as [info|] eqn:Hi; [|done]. cbn in Hd. case_match; [done|].
    injection Hd as Hd. apply Hnew in Hi. by rewrite Hd in Hi.
  - intros o [e He]. apply update_all_keys in He as [?|Hl]; [by left|right].
    apply list_elem_of_fmap in Hl as ([n info] & -> & Hi%elem_of_map_to_list). by eapply Hnew.
  - intros n. destruct r as [ds d|k m q d]; cbn in Ha.
    + pose proof (put_new_ctips_count _ _ _ n (NoDup_fst_map_to_list _) Ha). case_decide; lia.
    + apply bind_Ok in Ha as (a2 & E & Ha). apply with_pending_Ok in Ha as (? & ? & _ & _ & ->).
      pose proof (put_new_ctips_count [(m6_sidechain_number d, m6_new_ctip d)] (active_sidechains s) a2 n ltac:(apply NoDup_singleton) ltac:(cbn; by rewrite E)).
      cbn in *. case_decide; lia.
Qed.

Lemma new_txs_step bh s u tx r u1 height a1 txs :
  handle_m5_m6 bh s u tx = Ok (Some r, u1) -> apply (result_diff r) height (active_sidechains s) = Ok a1 ->
  new_txs (active_sidechains s) u (tx :: txs) -> new_txs a1 u1 txs.
Proof.
  intros Hm Ha [Hnd Hf]. destruct (handled_grows _ _ _ _ _ _ _ _ Hm Ha) as (Ht & Hu & _). cbn in Hnd. apply NoDup_cons in Hnd as [Hn Hnd].
  apply Forall_cons in Hf as [_ Hf]. split; [done|]. apply Forall_forall. intros tx' Hin. rewrite Forall_forall in Hf. destruct (Hf tx' Hin) as [F1 F2].
  assert (Hne : compute_txid tx' <> compute_txid tx) by (intros E; apply Hn; rewrite <- E; by apply list_elem_of_fmap_2).
  split; intros o Ho.
  - apply eq_None_not_Some. intros [[e He]|E]%Ht; [|congruence]. pose proof (F1 o Ho) as E. unfold outpoint_fresh in E. congruence.
  - apply eq_None_not_Some. intros [[e He]|E]%Hu; [|congruence]. pose proof (F2 o Ho) as E. congruence.
Qed.

Lemma room_step bh s u tx r u1 height a1 k :
  handle_m5_m6 bh s u tx = Ok (Some r, u1) -> apply (result_diff r) height (active_sidechains s) = Ok a1 ->
  room (active_sidechains s) (S k) -> room a1 k.
Proof. intros Hm Ha Hr n. destruct (handled_grows _ _ _ _ _ _ _ _ Hm Ha) as (_ & _ & Hc). pose proof (Hc n). pose proof (Hr n). lia. Qed.

Lemma runs_new bh height s u txs rs s1 u1 rest k :
  suffix_runs bh height s u txs rs s1 u1 -> new_txs (active_sidechains s) u (txs ++ rest) -> room (active_sidechains s) (length txs + k) ->
  new_txs (active_sidechains s1) u1 rest /\ room (active_sidechains s1) k.
Proof.
  induction 1 as [|s u tx r u1 a1 txs rs s' u' Hm Ha Hrun IH]; [done|]. cbn. intros Hn Hr. apply IH; [by eapply new_txs_step|by eapply room_step].
Qed.

(** *** One bundle *)

(** A bundle that the validator can accept: its fee output is the minimal push, and no
    payout is a treasury output. *)
Definition sound_bundle bh s (b : BlindedM6) : Prop :=
  exists tx, blinded_m6_try_from tx = Ok b /\ Forall (fun o => 0 <= value o) (output tx) /\
    head (output tx) = Some (mkTxOut 0 (new_op_return (be_bytes 8 (fee b)))) /\
    forall out n', out ∈ tail (output tx) -> ~ designates bh s out n'.

Lemma into_m6_inputs_total us v ins :
  Forall (fun c => 0 <= ctip_value c) us -> v + sum (ctip_value <$> us) <= u64_max ->
  exists ins', foldM (fun '(v, ins) c => v ← unwrap (checked_add_u64 v (ctip_value c)); Ok (v, ins ++ [txin_of (ctip_outpoint c)])) us (v, ins)
    = (Ok (v + sum (ctip_value <$> us), ins') : Res AmountUnderflowError _).
Proof.
  intros Hus. revert v ins. induction Hus as [|c us Hc Hus IH]; intros v ins Hv; cbn.
  - exists ins. change (sum []) with 0. by rewrite Z.add_0_r.
  - cbn in Hv. rewrite sum_cons in *. assert (0 <= sum (ctip_value <$> us)) by by apply sum_nonneg_all, Forall_fmap.
    replace (checked_add_u64 v (ctip_value c)) with (Some (v + ctip_value c)) by (symmetry; apply checked_add_u64_Some; lia). cbn.
    destruct (IH (v + ctip_value c) (ins ++ [txin_of (ctip_outpoint c)])) as [ins' E]; [lia|]. exists ins'. rewrite E. do 2 f_equal. lia.
Qed.

(** A bundle is completed exactly if the treasury covers its payouts and its fee. *)
Lemma finalize_m6_decided bh s op n c us b :
  sound_bundle bh s b -> 0 <= ctip_value c -> Forall (fun c => 0 <= ctip_value c) us ->
  let t := ctip_value c + sum (ctip_value <$> us) in t <= u64_max ->
  0 < fee b + payout b /\
  if bool_decide (fee b + payout b <= t)
  then exists m6, finalize_m6 op n c us b = Ok (m6, mkCtip (mkOutPoint (compute_txid m6) 0) (t - (fee b + payout b)))
  else exists e, finalize_m6 op n c us b = Err e.
Proof.
  intros (tx & Htry & Hnn & _ & _) Hc Hus t Ht. subst t. destruct (blinded_m6_try_from_Ok _ _ Htry) as (o & payouts & Hin & Ho & Hv & Htx & Hsum & Hp & Hfee & _).
  rewrite Ho in Hnn. apply Forall_cons in Hnn as [_ Hnn].
  assert (Hpay : 0 <= payout b).
  { unfold checked_sum in Hsum. apply checked_sum_from_Some in Hsum. rewrite Hsum. pose proof (sum_nonneg_all (value <$> payouts)) as Hs. unfold sum in Hs. rewrite Forall_fmap in Hs. specialize (Hs Hnn). lia. }
  assert (Hs0 : 0 <= sum (ctip_value <$> us)) by by apply sum_nonneg_all, Forall_fmap. split; [lia|].
  unfold finalize_m6. rewrite amount_sum_total by (by apply Forall_fmap || lia). cbn [mbind Res_bind]. rewrite amount_add_total by lia. cbn [mbind Res_bind].
  unfold new_treasury_value. set (t := ctip_value c + _) in *. unfold checked_sub. case_bool_decide as Hle.
  - rewrite (bool_decide_eq_true_2 (fee b <= t)) by lia. cbn. rewrite bool_decide_eq_true_2 by lia. cbn.
    unfold into_m6. rewrite Htx, Ho, Hin. cbn [assert_or_panic bool_decide]. rewrite bool_decide_eq_true_2 by done. cbn.
    destruct (into_m6_inputs_total us (ctip_value c) [txin_of (ctip_outpoint c)] Hus Ht) as [ins' ->]. cbn. fold t. unfold checked_sub.
    rewrite (bool_decide_eq_true_2 (payout b <= t)) by lia. cbn. rewrite bool_decide_eq_true_2 by lia. cbn. eexists. do 3 f_equal. lia.
  - case_bool_decide; cbn; [|by eexists]. rewrite bool_decide_eq_false_2 by lia. cbn. by eexists.
Qed.

(** *** The state between the transactions *)

Record treasury_ok a u : Prop := {
  to_repr : exists h, treasury_repr h a;
  to_uc : uc_ok a u;
  to_ctips n c : ctip a !! n = Some c -> 0 <= ctip_value c;
  to_total n : slot_total a u n <= u64_max;
  to_pending n p : pending_m6ids a !! n = Some p -> om_wf p }.

Lemma slot_ctips_value a u n : uc_ok a u -> Forall (fun c => 0 <= ctip_value c) (slot_ctips u n).
Proof. intros Hu. apply Forall_forall. intros c Hc%(ix_agree _ (uo_indexed _ _ Hu)). by eapply (uo_value _ _ Hu). Qed.

Lemma slot_total_ctip a u n c : ctip a !! n = Some c -> slot_total a u n = ctip_value c + sum (ctip_value <$> slot_ctips u n).
Proof. intros Hc. unfold slot_total, slot_utxos. rewrite Hc. cbn. by rewrite sum_cons. Qed.

Lemma uc_remove_sidechain_indexed u n : indexed u -> indexed (uc_remove_sidechain n u).1.
Proof.
  intros Hix. rewrite <- (removed_slot_eq u n (list_to_set (slot_ctips u n))); [by apply uc_remove_all_indexed|done|].
  intros c. apply elem_of_list_to_set.
Qed.

Lemma room_put h a n c : treasury_repr h a -> room a 1 -> exists a' q, @put_ctip DbError a n c = Ok (a', q).
Proof.
  intros Hr Hroom. apply (put_ctip_total h); [done|]. specialize (Hroom n). rewrite (tr_count _ _ Hr) in Hroom. case_decide as E; cbn in Hroom; [rewrite E; cbn|]; lia.
Qed.

(** The state after a withdrawal *)
Record withdrawn_from a u n (m6id : M6id) (t : Amount) a1 u1 : Prop := {
  wf_ok : treasury_ok a1 u1;
  wf_ctip : is_Some (ctip a1 !! n);
  wf_total : slot_total a1 u1 n = t;
  wf_sidechain : sidechain a1 = sidechain a;
  wf_pending p : pending_m6ids a !! n = Some p -> pending_m6ids a1 !! n = Some (om_remove m6id p);
  wf_others n' : n' <> n -> ctip a1 !! n' = ctip a !! n' /\ by_sidechain u1 !! n' = by_sidechain u !! n' /\ pending_m6ids a1 !! n' = pending_m6ids a !! n' }.

Lemma m6_step bh height s u n c b m6 successor p info :
  treasury_ok (active_sidechains s) u -> is_Some (sidechain (active_sidechains s) !! n) -> ctip (active_sidechains s) !! n = Some c ->
  sound_bundle bh s b -> pending_m6ids (active_sidechains s) !! n = Some p -> om_get (blinded_compute_m6id b) p = Some info ->
  withdrawal_bundle_inclusion_threshold (bh_thresholds bh) < pm_vote_count info ->
  finalize_m6 (op_drivechain (bh_params bh)) n c (slot_ctips u n) b = Ok (m6, successor) ->
  txid_fresh m6 (active_sidechains s) -> uc_fresh m6 u -> room (active_sidechains s) 1 ->
  let u1 := (uc_remove_sidechain n u).1 in
  exists q d a1, handle_m5_m6 bh s u m6 = Ok (Some (M6Withdrawal n (blinded_compute_m6id b) q d), u1) /\
    apply (D_M6 d) height (active_sidechains s) = Ok a1 /\ ctip a1 = <[n := successor]> (ctip (active_sidechains s)) /\
    withdrawn_from (active_sidechains s) u n (blinded_compute_m6id b) (slot_total (active_sidechains s) u n - (fee b + payout b)) a1 u1.
Proof.
  intros [[h Hr] Hu Hcv Htot Hpw] Hact Hc Hb Hp Hg Hv Hfin Hfa Hfu Hroom u1.
  unfold om_get in Hg. destruct (om_get_full _ p) as [[idx i]|] eqn:Hgf; [|done]. injection Hg as ->.
  destruct (finalize_m6_decided bh s (op_drivechain (bh_params bh)) n c (slot_ctips u n) b Hb (Hcv n c Hc) (slot_ctips_value _ _ n Hu)) as [Hpos Hdec].
  { rewrite <- (slot_total_ctip _ _ _ _ Hc). apply Htot. }
  rewrite <- (slot_total_ctip _ _ _ _ Hc) in Hdec. case_bool_decide as Hle; destruct Hdec as [x Hdec]; rewrite Hfin in Hdec; [|done]. injection Hdec as <- Hsucc.
  pose proof Hb as (tx & Htry & Hnn & Hhead & Hpay).
  pose proof (m6_withdrawn h bh s u n c tx b m6 successor p idx info Hr Hu Hact Hc (Hcv n c Hc) Htry Hnn Hhead Hpay Hp Hgf Hv Hfin) as Hm.
  destruct (room_put h (active_sidechains s) n successor Hr Hroom) as (a2 & q2 & Hput).
  assert (Hof : outpoint_fresh (ctip_outpoint successor) (active_sidechains s)) by (apply Hfa; by rewrite Hsucc).
  destruct (put_ctip_repr h _ a2 n successor q2 Hr Hof Hput) as (Hr2 & [Ep Es] & _).
  set (d := mkM6Diff n successor (blinded_compute_m6id b) idx info) in *.
  set (a1 := set_pending a2 (<[n := om_remove (blinded_compute_m6id b) p]> (pending_m6ids a2))).
  assert (Ha : apply (D_M6 d) height (active_sidechains s) = Ok a1).
  { cbn. unfold put_new_ctip. cbn [fst snd]. rewrite Hput. cbn. unfold delete_pending_withdrawal, with_pending_withdrawals, db_get. rewrite <- Ep, Hp. cbn. unfold a1. by rewrite <- Ep. }
  pose proof Ha as [Ect Htab]%tx_apply_tables. change (diff_ctips (D_M6 d)) with ({[n := successor]} : gmap SidechainNumber Ctip) in Ect. rewrite <- insert_union_singleton_l in Ect.
  exists (default 0 (treasury_utxo_count (active_sidechains s) !! n)), d, a1. split_and!; [exact Hm|exact Ha|exact Ect|].
  assert (Hu1 : forall o n' v, by_outpoint u1 !! o = Some (n', v) <-> by_outpoint u !! o = Some (n', v) /\ n' <> n) by (intros; by apply uc_remove_sidechain_lookup, Hu).
  assert (Hbs : forall n', by_sidechain u1 !! n' = if decide (n' = n) then None else by_sidechain u !! n').
  { intros n'. unfold u1. cbn. case_decide; subst; [apply lookup_delete_eq|by apply lookup_delete_ne]. }
  assert (Ht1 : slot_total a1 u1 n = slot_total (active_sidechains s) u n - (fee b + payout b)).
  { rewrite (slot_total_ctip _ _ _ successor) by (rewrite Ect; apply lookup_insert_eq). rewrite Hbs, decide_True by done. cbn. rewrite Hsucc. cbn. change (sum []) with 0. lia. }
  assert (Hoth : forall n', n' <> n -> ctip a1 !! n' = ctip (active_sidechains s) !! n' /\ by_sidechain u1 !! n' = by_sidechain u !! n').
  { intros n' Hne. rewrite Ect, Hbs, decide_False, lookup_insert_ne by done. done. }
  split; [split|..].
  - eexists. by apply treasury_repr_set_pending.
  - split.
    + by apply uc_remove_sidechain_indexed, Hu.
    + intros o [n' v] [Ho _]%Hu1. apply eq_None_not_Some. intros [[[k w] q] [Ht|Hd]%Htab].
      * pose proof (uo_fresh _ _ Hu _ _ Ho). congruence.
      * cbn in Hd. apply lookup_singleton_Some in Hd as [_ Hd]. rewrite (Hfu o) in Ho; [done|]. rewrite Hsucc in Hd. injection Hd as <- _. done.
    + intros o n' v [Ho _]%Hu1. change (is_Some (sidechain a2 !! n')). rewrite <- Es. by eapply (uo_active _ _ Hu).
    + intros o n' v [Ho _]%Hu1. by eapply (uo_value _ _ Hu).
  - intros n' c'. rewrite Ect, lookup_insert_Some. intros [[<- <-]|[_ E]]; [rewrite Hsucc; cbn; lia|by eapply Hcv].
  - intros n'. destruct (decide (n' = n)) as [->|Hne]; [rewrite Ht1; specialize (Htot n); lia|]. destruct (Hoth n' Hne) as [E1 E2].
    unfold slot_total, slot_utxos. rewrite E1, E2. apply Htot.
  - intros n' p'. cbn. rewrite lookup_insert_Some, <- Ep. intros [[<- <-]|[_ E]]; [by eapply om_wf_remove, Hpw|by eapply Hpw].
  - rewrite Ect, lookup_insert_eq. by eexists.
  - exact Ht1.
  - by cbn.
  - intros p' E. cbn. rewrite lookup_insert_eq. congruence.
  - intros n' Hne. destruct (Hoth n' Hne) as [E1 E2]. split_and!; [done..|]. cbn. by rewrite lookup_insert_ne, Ep.
Qed.

(** *** The bundles of a slot *)

(** What is paid of a slot's bundles, in their order, from the treasury [t], and what is
    left of it: each bundle with more votes than the threshold that the rest of the
    treasury covers *)
Fixpoint paid_bundles (threshold : Z) (t : Amount) (l : BundleProposals) : list M6id * Amount :=
  match l with
  | [] => ([], t)
  | (_, _, None) :: l => paid_bundles threshold t l
  | (m6id, b, Some info) :: l =>
      if bool_decide (threshold < pm_vote_count info /\ fee b + payout b <= t)
      then let r := paid_bundles threshold (t - (fee b + payout b)) l in (m6id :: r.1, r.2)
      else paid_bundles threshold t l
  end.

(** A slot without a CTIP pays nothing. *)
Definition slot_bundles (threshold : Z) a u (n : SidechainNumber) (l : BundleProposals) : list M6id * Amount :=
  if decide (is_Some (ctip a !! n)) then paid_bundles threshold (slot_total a u n) l else ([], slot_total a u n).

(** The proposals of slot [n]: those with enough votes are sound and pending. *)
Definition bundles_ok bh s (n : SidechainNumber) (l : BundleProposals) : Prop :=
  NoDup ((fun e => e.1.1) <$> l) /\
  forall m6id b info, (m6id, b, Some info) ∈ l -> withdrawal_bundle_inclusion_threshold (bh_thresholds bh) < pm_vote_count info ->
    m6id = blinded_compute_m6id b /\ sound_bundle bh s b /\
    exists p, pending_m6ids (active_sidechains s) !! n = Some p /\ om_get m6id p = Some info.

Lemma om_get_remove_ne k k' (l : PendingM6ids) : k' <> k -> om_get k' (om_remove k l) = om_get k' l.
Proof.
  intros Hne. unfold om_get. induction l as [|[k0 v0] l IH]; [done|]. cbn. destruct (decide (k = k0)) as [->|]; cbn.
  - rewrite decide_False by done. destruct (om_get_full k' l) as [[i v]|]; done.
  - case_decide; [done|]. destruct (om_get_full k' (om_remove k l)) as [[i v]|], (om_get_full k' l) as [[j w]|]; cbn in *; congruence.
Qed.

Lemma sound_bundle_active bh s a b : sidechain a = sidechain (active_sidechains s) -> sound_bundle bh s b -> sound_bundle bh (set_active s a) b.
Proof.
  intros E (tx & Ht & Hn & Hh & Hp). exists tx. split_and!; [done..|]. intros out n' Ho [Hd Ha]. apply (Hp out n' Ho). split; [done|]. cbn in Ha. by rewrite E in Ha.
Qed.

Lemma bundles_ok_cons bh s n e l : bundles_ok bh s n (e :: l) -> bundles_ok bh s n l.
Proof. intros [Hnd Hb]. apply NoDup_cons in Hnd as [_ Hnd]. split; [done|]. intros. apply Hb; [by right|done]. Qed.

Lemma bundles_ok_paid bh s u n m6id b info l t a1 u1 :
  bundles_ok bh s n ((m6id, b, Some info) :: l) -> withdrawn_from (active_sidechains s) u n m6id t a1 u1 -> bundles_ok bh (set_active s a1) n l.
Proof.
  intros [Hnd Hb] Hw. apply NoDup_cons in Hnd as [Hn Hnd]. split; [done|]. intros m b' info' Hin Hv. destruct (Hb m b' info') as (-> & Hs & p & Hp & Hg); [by right|done|].
  split_and!; [done|by apply sound_bundle_active; [apply Hw|]|]. exists (om_remove m6id p). split; [by apply Hw|]. rewrite om_get_remove_ne; [done|].
  intros E. apply Hn. cbn. rewrite <- E. by apply (list_elem_of_fmap_2 (fun e : M6id * BlindedM6 * option PendingM6idInfo => e.1.1) _ (_, b', Some info')).
Qed.

Lemma bundles_ok_frame bh s a n l :
  sidechain a = sidechain (active_sidechains s) -> pending_m6ids a !! n = pending_m6ids (active_sidechains s) !! n ->
  bundles_ok bh s n l -> bundles_ok bh (set_active s a) n l.
Proof.
  intros Es Ep [Hnd Hb]. split; [done|]. intros m b info Hin Hv. destruct (Hb m b info Hin Hv) as (-> & Hs & p & Hp & Hg).
  split_and!; [done|by apply sound_bundle_active|]. exists p. cbn. by rewrite Ep.
Qed.

Definition withdrawal_of (r : DepositsOrSuccessfulWithdrawal) : option (SidechainNumber * M6id) :=
  match r with M6Withdrawal n m _ _ => Some (n, m) | M5Deposits _ _ => None end.

Lemma slot_m6s_appends params n l ctips res ctips' res' :
  slot_m6s params n l ctips res = Ok (ctips', res') -> exists txs, res' = res ++ txs.
Proof.
  revert ctips res. induction l as [|[[m b] [info|]] l IH]; intros ctips res Hf; cbn in Hf.
  - injection Hf as _ <-. exists []. by rewrite app_nil_r.
  - case_bool_decide; [by eapply IH|]. destruct (consolidated ctips !! n) as [c|]; [|injection Hf as _ <-; exists []; by rewrite app_nil_r].
    apply bind_Ok in Hf as (? & _ & Hf). apply bind_Ok in Hf as (? & _ & Hf). destruct (finalize_m6 _ _ _ _ _) as [[m6 c']| |]; [|by eapply IH|done].
    apply IH in Hf as [txs ->]. exists (m6 :: txs). by rewrite <- app_assoc.
  - by eapply IH.
Qed.

(** What the withdrawals of a slot lead to *)
Record slot_paid (threshold : Z) a u n (l : BundleProposals) (rs : list DepositsOrSuccessfulWithdrawal) a1 u1 : Prop := {
  sp_ok : treasury_ok a1 u1;
  sp_sidechain : sidechain a1 = sidechain a;
  sp_results : withdrawal_of <$> rs = (fun m => Some (n, m)) <$> (slot_bundles threshold a u n l).1;
  sp_total : slot_total a1 u1 n = (slot_bundles threshold a u n l).2;
  sp_others n' : n' <> n -> ctip a1 !! n' = ctip a !! n' /\ by_sidechain u1 !! n' = by_sidechain u !! n' /\ pending_m6ids a1 !! n' = pending_m6ids a !! n' }.

Lemma slot_m6s_runs bh height n l s u res ctips' txs :
  bh_thresholds bh = np_thresholds (bh_params bh) ->
  treasury_ok (active_sidechains s) u -> is_Some (sidechain (active_sidechains s) !! n) -> bundles_ok bh s n l ->
  slot_m6s (bh_params bh) n l (mkCtips (ctip (active_sidechains s)) u) res = Ok (ctips', res ++ txs) ->
  new_txs (active_sidechains s) u txs -> room (active_sidechains s) (length txs) ->
  exists rs a1 u1, suffix_runs bh height s u txs rs (set_active s a1) u1 /\ ctips' = mkCtips (ctip a1) u1 /\
    slot_paid (withdrawal_bundle_inclusion_threshold (bh_thresholds bh)) (active_sidechains s) u n l rs a1 u1.
Proof.
  intros Hthr. revert s u res txs. induction l as [|[[m b] o] l IH]; intros s u res txs Hok Hact Hb Hf Hnew Hroom.
  { cbn in Hf. injection Hf as <- E. rewrite <- (app_nil_r res) in E at 1. apply app_inv_head in E as <-. exists [], (active_sidechains s), u.
    split_and!; [destruct s; constructor|done|]. split; [done|done| | |done]; unfold slot_bundles; by case_decide. }
  (* nothing is paid of the first bundle *)
  assert (Hskip : slot_m6s (bh_params bh) n l (mkCtips (ctip (active_sidechains s)) u) res = Ok (ctips', res ++ txs) ->
    slot_bundles (withdrawal_bundle_inclusion_threshold (bh_thresholds bh)) (active_sidechains s) u n ((m, b, o) :: l)
    = slot_bundles (withdrawal_bundle_inclusion_threshold (bh_thresholds bh)) (active_sidechains s) u n l ->
    exists rs a1 u1, suffix_runs bh height s u txs rs (set_active s a1) u1 /\ ctips' = mkCtips (ctip a1) u1 /\
      slot_paid (withdrawal_bundle_inclusion_threshold (bh_thresholds bh)) (active_sidechains s) u n ((m, b, o) :: l) rs a1 u1).
  { intros Hf' E. destruct (IH s u res txs) as (rs & a1 & u1 & Hr & -> & [? ? Hres Htot ?]); [done|done|by eapply bundles_ok_cons|done..|].
    exists rs, a1, u1. split_and!; [done..|]. split; rewrite ?E; done. }
  cbn [slot_m6s] in Hf. destruct o as [info|]; [|apply Hskip; [done|]; unfold slot_bundles; by case_decide].
  case_bool_decide as Hv.
  { apply Hskip; [done|]. unfold slot_bundles. case_decide; [|done]. cbn. rewrite bool_decide_eq_false_2; [done|]. rewrite Hthr. lia. }
  cbn [consolidated unconsolidated] in Hf. destruct (ctip (active_sidechains s) !! n) as [c|] eqn:Hc.
  2:{ injection Hf as <- E. rewrite <- (app_nil_r res) in E at 1. apply app_inv_head in E as <-. exists [], (active_sidechains s), u.
      split_and!; [destruct s; constructor|done|]. split; [done|done| | |done]; unfold slot_bundles; rewrite Hc; rewrite decide_False by (by intros []); done. }
  apply bind_Ok in Hf as (? & _ & Hf). apply bind_Ok in Hf as (? & _ & Hf). unfold uc_get_by_sidechain in Hf. rewrite <- Hthr in Hv.
  destruct (proj2 Hb m b info) as (-> & Hs & p & Hp & Hg); [by left|lia|].
  destruct (finalize_m6_decided bh s (op_drivechain (bh_params bh)) n c (slot_ctips u n) b Hs (to_ctips _ _ Hok n c Hc) (slot_ctips_value _ _ n (to_uc _ _ Hok))) as [Hpos Hdec].
  { rewrite <- (slot_total_ctip _ _ _ _ Hc). apply Hok. }
  rewrite <- (slot_total_ctip _ _ _ _ Hc) in Hdec. case_bool_decide as Hle; destruct Hdec as [m6 Hfin]; rewrite Hfin in Hf.
  2:{ apply Hskip; [done|]. unfold slot_bundles. case_decide; [|done]. cbn. rewrite bool_decide_eq_false_2; [done|]. lia. }
  pose proof Hf as [txs' E]%slot_m6s_appends. rewrite <- app_assoc in E. apply app_inv_head in E as ->. cbn in Hroom.
  destruct (m6_step bh height s u n c b m6 _ p info Hok Hact Hc Hs Hp Hg ltac:(lia) Hfin) as (q & d & a1 & Hm & Ha & Ect & Hw).
  { destruct Hnew as [_ Hnew]. by apply Forall_cons in Hnew as [[? ?] _]. }
  { destruct Hnew as [_ Hnew]. by apply Forall_cons in Hnew as [[? ?] _]. }
  { intros k. specialize (Hroom k). lia. }
  set (u1 := (uc_remove_sidechain n u).1) in *.
  destruct (IH (set_active s a1) u1 (res ++ [m6]) txs') as (rs & a2 & u2 & Hr & -> & Hsp).
  - apply Hw.
  - cbn. by rewrite (wf_sidechain _ _ _ _ _ _ _ Hw).
  - by eapply bundles_ok_paid.
  - cbn [active_sidechains set_active]. rewrite Ect, <- app_assoc. exact Hf.
  - by eapply (new_txs_step bh s u m6 _ u1 height a1).
  - by eapply (room_step bh s u m6 _ u1 height a1).
  - exists (M6Withdrawal n (blinded_compute_m6id b) q d :: rs), a2, u2. split_and!; [|done|].
    + eapply suffix_step; [exact Hm|exact Ha|]. exact Hr.
    + destruct Hsp as [S1 S2 S3 S4 S5]. cbn [active_sidechains set_active] in *. unfold slot_bundles in *. rewrite decide_True in S3, S4 by apply Hw. rewrite Hc, (wf_total _ _ _ _ _ _ _ Hw) in *.
      split; [done|by rewrite S2; apply Hw| | |].
      * unfold slot_bundles. rewrite Hc, decide_True by by eexists. cbn. rewrite bool_decide_eq_true_2 by (split; [lia|done]). cbn. by rewrite S3.
      * unfold slot_bundles. rewrite Hc, decide_True by by eexists. cbn. rewrite bool_decide_eq_true_2 by (split; [lia|done]). cbn. by rewrite S4.
      * intros n' Hne. destruct (S5 n' Hne) as (-> & -> & ->). by apply Hw.
Qed.

(** *** All bundles *)

Lemma slot_total_frame a u a1 u1 n : ctip a1 !! n = ctip a !! n -> by_sidechain u1 !! n = by_sidechain u !! n -> slot_total a1 u1 n = slot_total a u n.
Proof. intros E1 E2. unfold slot_total, slot_utxos. by rewrite E1, E2. Qed.

Lemma slot_bundles_frame t a u a1 u1 n l :
  ctip a1 !! n = ctip a !! n -> by_sidechain u1 !! n = by_sidechain u !! n -> slot_bundles t a1 u1 n l = slot_bundles t a u n l.
Proof. intros E1 E2. unfold slot_bundles. by rewrite (slot_total_frame a u a1 u1 n E1 E2), E1. Qed.

Abbreviation m6_loop params := (foldM (fun st e => slot_m6s params e.1 e.2 st.1 st.2)).

Lemma slots_m6s_appends params l st ctips' res' :
  m6_loop params l st = Ok (ctips', res') -> exists txs, res' = st.2 ++ txs.
Proof.
  intros Hf. apply (foldM_invariant (fun st' : Ctips * list Transaction => exists txs, st'.2 = st.2 ++ txs)) in Hf; [done| |exists []; by rewrite app_nil_r].
  intros st1 [c2 r2] e _ [txs ->] [txs' ->]%slot_m6s_appends. exists (txs ++ txs'). by rewrite app_assoc.
Qed.

Lemma slots_m6s_runs bh height l s u res ctips' txs :
  let t := withdrawal_bundle_inclusion_threshold (bh_thresholds bh) in
  bh_thresholds bh = np_thresholds (bh_params bh) -> NoDup l.*1 -> treasury_ok (active_sidechains s) u ->
  Forall (fun e => is_Some (sidechain (active_sidechains s) !! e.1) /\ bundles_ok bh s e.1 e.2) l ->
  m6_loop (bh_params bh) l (mkCtips (ctip (active_sidechains s)) u, res) = Ok (ctips', res ++ txs) ->
  new_txs (active_sidechains s) u txs -> room (active_sidechains s) (length txs) ->
  exists rs a1 u1, suffix_runs bh height s u txs rs (set_active s a1) u1 /\ ctips' = mkCtips (ctip a1) u1 /\ treasury_ok a1 u1 /\
    withdrawal_of <$> rs = Some <$> concat ((fun e => pair e.1 <$> (slot_bundles t (active_sidechains s) u e.1 e.2).1) <$> l) /\
    (forall e, e ∈ l -> slot_total a1 u1 e.1 = (slot_bundles t (active_sidechains s) u e.1 e.2).2) /\
    (forall n, n ∉ l.*1 -> slot_total a1 u1 n = slot_total (active_sidechains s) u n).
Proof.
  intros t Hthr. revert s u res txs. induction l as [|[n bs] l IH]; intros s u res txs Hnd Hok Hl Hf Hnew Hroom; cbn [foldM] in Hf.
  - injection Hf as <- E. rewrite <- (app_nil_r res) in E at 1. apply app_inv_head in E as <-. exists [], (active_sidechains s), u.
    split_and!; [destruct s; constructor|done..|by intros ? ?%elem_of_nil|done].
  - apply NoDup_cons in Hnd as [Hn Hnd]. apply Forall_cons in Hl as [[Hact Hb] Hl]. apply bind_Ok in Hf as ([c1 r1] & Hf1 & Hf). cbn [fst snd] in Hf1, Hn.
    pose proof Hf1 as [t1 ->]%slot_m6s_appends. pose proof Hf as [t2 E]%slots_m6s_appends. cbn [snd] in E. rewrite <- app_assoc in E. apply app_inv_head in E as ->.
    rewrite length_app in Hroom.
    destruct (slot_m6s_runs bh height n bs s u res c1 t1 Hthr Hok Hact Hb Hf1) as (rs1 & a1 & u1 & Hr1 & -> & [S1 S2 S3 S4 S5]).
    { destruct Hnew as [N1 N2]. rewrite fmap_app in N1. apply NoDup_app in N1 as (N1 & _). apply Forall_app in N2 as [N2 _]. by split. }
    { intros k. specialize (Hroom k). lia. }
    destruct (runs_new _ _ _ _ _ _ _ _ _ _ Hr1 Hnew Hroom) as [Hnew2 Hroom2]. cbn [active_sidechains set_active] in Hnew2, Hroom2.
    assert (Hfr : forall e, e ∈ l -> slot_bundles t a1 u1 e.1 e.2 = slot_bundles t (active_sidechains s) u e.1 e.2).
    { intros e He. destruct (S5 e.1) as (E1 & E2 & _); [intros E; apply Hn; rewrite <- E; by apply list_elem_of_fmap_2|]. by apply slot_bundles_frame. }
    destruct (IH (set_active s a1) u1 (res ++ t1) t2) as (rs2 & a2 & u2 & Hr2 & -> & Hok2 & Hres & Htot & Hout).
    + done.
    + exact S1.
    + apply Forall_forall. intros e He. rewrite Forall_forall in Hl. destruct (Hl e He) as [Ha Hbe]. cbn. rewrite S2. split; [done|].
      apply bundles_ok_frame; [done| |done]. apply S5. intros E. apply Hn. rewrite <- E. by apply list_elem_of_fmap_2.
    + cbn [active_sidechains set_active]. rewrite <- app_assoc. exact Hf.
    + done.
    + done.
    + cbn [active_sidechains set_active] in *. exists (rs1 ++ rs2), a2, u2. split_and!; [by eapply suffix_runs_app|done|done|..].
      * rewrite !fmap_app, S3, Hres. cbn [fmap list_fmap concat]. rewrite fmap_app. f_equal.
        -- cbn [fst snd]. by rewrite <- list_fmap_compose.
        -- do 2 f_equal. apply list_fmap_ext. intros i e He%list_elem_of_lookup_2. by rewrite Hfr.
      * intros e [->|He]%elem_of_cons; cbn [fst snd]; [by rewrite Hout|]. rewrite Htot, Hfr by done. done.
      * intros k [Hk Hk']%not_elem_of_cons. cbn in Hk. rewrite Hout by done. apply slot_total_frame; by apply S5.
Qed.

(** *** The suffix is always built *)

(** The sums of the producer's CTIPs do not overflow. *)
Definition ctips_ok (c : Ctips) : Prop :=
  (forall n x, consolidated c !! n = Some x -> 0 <= ctip_value x) /\
  (forall n, Forall (fun x => 0 <= ctip_value x) (slot_ctips (unconsolidated c) n)) /\
  (forall n, from_option ctip_value 0 (consolidated c !! n) + sum (ctip_value <$> slot_ctips (unconsolidated c) n) <= u64_max).

Definition approved_sound bh s (l : BundleProposals) : Prop :=
  forall m6id b info, (m6id, b, Some info) ∈ l -> withdrawal_bundle_inclusion_threshold (np_thresholds (bh_params bh)) < pm_vote_count info -> sound_bundle bh s b.

Lemma slot_m6s_total bh s n l ctips res :
  ctips_ok ctips -> approved_sound bh s l -> exists ctips' res', slot_m6s (bh_params bh) n l ctips res = Ok (ctips', res') /\ ctips_ok ctips'.
Proof.
  revert ctips res. induction l as [|[[m b] [info|]] l IH]; intros ctips res Hc Hs; cbn [slot_m6s].
  - by eexists _, _.
  - assert (Hs' : approved_sound bh s l) by (intros ???? ?; eapply Hs; [by right|done]). case_bool_decide as Hv; [by apply IH|].
    destruct (consolidated ctips !! n) as [c|] eqn:Ec; [|by eexists _, _]. unfold uc_get_by_sidechain.
    pose proof Hc as (Hcv & Huv & Htot). pose proof (Htot n) as Ht. rewrite Ec in Ht. cbn in Ht. pose proof (Hcv n c Ec) as Hc0.
    assert (Hs0 : 0 <= sum (ctip_value <$> slot_ctips (unconsolidated ctips) n)) by by apply sum_nonneg_all, Forall_fmap.
    rewrite amount_sum_total by (by apply Forall_fmap || lia). cbn [mbind Res_bind]. rewrite amount_add_total by lia. cbn [mbind Res_bind].
    destruct (finalize_m6_decided bh s (op_drivechain (bh_params bh)) n c (slot_ctips (unconsolidated ctips) n) b) as [Hpos Hdec]; [by eapply Hs; [left|lia]|done|done|done|].
    case_bool_decide; destruct Hdec as [x ->]; [|by apply IH]. apply IH; [|done]. split_and!; cbn.
    + intros n' x'. rewrite lookup_insert_Some. intros [[<- <-]|[_ E]]; [cbn; lia|by eapply Hcv].
    + intros n'. destruct (decide (n' = n)) as [->|Hne]; [rewrite lookup_delete_eq; constructor|rewrite lookup_delete_ne by done; apply Huv].
    + intros n'. destruct (decide (n' = n)) as [->|Hne]; [rewrite lookup_delete_eq, lookup_insert_eq; cbn; change (sum []) with 0; lia|].
      rewrite lookup_delete_ne, lookup_insert_ne by done. apply Htot.
  - apply IH; [done|]. intros ???? ?. eapply Hs; [by right|done].
Qed.

Lemma slots_m6s_total bh s l ctips res :
  ctips_ok ctips -> Forall (fun e => approved_sound bh s e.2) l ->
  exists ctips' res', m6_loop (bh_params bh) l (ctips, res) = Ok (ctips', res') /\ ctips_ok ctips'.
Proof.
  intros Hc Hl. destruct (foldM_progress (fun _ (st : Ctips * list Transaction) => ctips_ok st.1) (fun st e => slot_m6s (bh_params bh) e.1 e.2 st.1 st.2) l (ctips, res)) as ([c' r'] & Hf & Hc').
  - done.
  - intros pre e st [rest ->] Hst. rewrite Forall_forall in Hl. destruct (slot_m6s_total bh s e.1 e.2 st.1 st.2) as (c' & r' & E & ?); [done|apply Hl; set_solver|]. by exists (c', r').
  - by exists c', r'.
Qed.

Lemma treasury_ctips_ok a u : treasury_ok a u -> ctips_ok (mkCtips (ctip a) u).
Proof.
  intros [_ Hu Hc Ht _]. split_and!; [done|intros n; by eapply slot_ctips_value|]. intros n. cbn. specialize (Ht n). unfold slot_total, slot_utxos in Ht.
  rewrite fmap_app, sum_app in Ht. destruct (ctip a !! n); cbn in *; [rewrite sum_cons in Ht|]; change (sum []) with 0 in Ht; lia.
Qed.

Lemma consolidation_total params ctips :
  ctips_ok ctips ->
  exists ctips', foldM (consolidate_slot params) (hash_iter (by_sidechain (unconsolidated ctips))) (consolidated ctips, mkTransaction 2 0 [] [])
    = Ok (ctips', consolidation params (consolidated ctips) (hash_iter (by_sidechain (unconsolidated ctips)))).
Proof.
  intros (Hc & Hu & Ht). destruct (consolidate_all params (hash_iter (by_sidechain (unconsolidated ctips))) (consolidated ctips) (mkTransaction 2 0 [] [])) as [ctips' ->]; [| |by exists ctips'].
  - rewrite hash_iter_perm. apply NoDup_fst_map_to_list.
  - apply Forall_forall. intros [n us] He%hash_iter_elem. specialize (Hu n). specialize (Ht n). rewrite He in Hu, Ht. cbn in Hu, Ht.
    unfold spent_ctips. cbn [fst snd]. destruct (consolidated ctips !! n) as [c|] eqn:E; cbn in Ht; split; cbn; rewrite ?sum_cons; [by constructor; [by eapply Hc|]|lia|done|lia].
Qed.

Lemma put_new_ctips_total l a :
  NoDup l.*1 -> (forall n, n ∈ l.*1 -> 1 + default 0 (treasury_utxo_count a !! n) <= u64_max) -> exists a', foldM put_new_ctip l a = Ok a'.
Proof.
  revert a. induction l as [|[n c] l IH]; intros a Hnd Hl; [by eexists|]. cbn. apply NoDup_cons in Hnd as [Hn Hnd]. cbn in Hn.
  unfold put_new_ctip at 2, put_ctip. cbn [fst snd]. replace (checked_add_u64 _ _) with (Some (1 + default 0 (treasury_utxo_count a !! n))); [|symmetry; apply checked_add_u64_Some; split; [apply Hl; by left|done]].
  cbn. apply IH; [done|]. intros k Hk. cbn. rewrite lookup_insert_ne by (intros ->; done). apply Hl. by right.
Qed.

(** What is left of the treasury of slot [n] when the bundles [bps] are paid *)
Definition left_over (threshold : Z) a u (bps : gmap SidechainNumber BundleProposals) (n : SidechainNumber) : Amount :=
  from_option (fun l => (slot_bundles threshold a u n l).2) (slot_total a u n) (bps !! n).

Lemma no_unconsolidated a u n : treasury_ok a u -> by_sidechain u !! n = None -> ctip_amount a n = slot_total a u n.
Proof.
  intros _ E. unfold ctip_amount, slot_total, slot_utxos. rewrite E. destruct (ctip a !! n); cbn; rewrite ?sum_cons; change (sum []) with 0; lia.
Qed.

(** The last transaction, if there is any *)
Lemma consolidation_step bh height s u :
  let a := active_sidechains s in let tx := consolidation (bh_params bh) (ctip a) (hash_iter (by_sidechain u)) in
  treasury_ok a u -> by_outpoint u <> ∅ -> room a 1 ->
  exists d s' u', suffix_runs bh height s u [tx] [M5Deposits ∅ d] s' u' /\ uc_is_empty u' = true /\
    forall n, ctip_amount (active_sidechains s') n = slot_total a u n.
Proof.
  intros a tx Hok Hne Hroom. pose proof Hok as [[h Hr] Hu Hc Ht _].
  destruct (consolidation_handled h bh s u Hr Hu Hne Hc Ht) as (d & u' & Hm & He & Hn & Hv). fold a tx in Hm, Hv.
  destruct (put_new_ctips_total (map_to_list (new_ctips d)) a) as [a' Ha]; [apply NoDup_fst_map_to_list|intros n _; specialize (Hroom n); lia|].
  exists d, (set_active s a'), u'. split_and!; [|done|].
  - eapply suffix_step; [exact Hm|exact Ha|constructor].
  - intros n. assert (Ect : ctip a' = new_ctips d ∪ ctip a) by by apply (tx_apply_tables (D_M5 d) height a a'). cbn. unfold ctip_amount. rewrite Ect, lookup_union.
    destruct (new_ctips d !! n) as [c|] eqn:E.
    + destruct (Hv n c E) as [_ Ev]. fold a in Ev. rewrite <- Ev. by destruct (ctip a !! n).
    + rewrite (left_id_L None (∪)). apply (no_unconsolidated a u n Hok). apply eq_None_not_Some. intros Hs%Hn. rewrite E in Hs. by destruct Hs.
Qed.

(** C15. The transactions that the producer appends to a block are accepted, whatever bundles
    there are. Let the proposals of each slot with more votes than the threshold be sound and
    pending. Then the suffix is built, and the validator accepts its transactions one after the
    other on top of the block so far: first the withdrawals of exactly those bundles that have
    enough votes and that the treasury of their slot, less what the bundles before took, covers,
    then, if there are unconsolidated treasury outputs left, one transaction that deposits
    nothing. No unconsolidated output remains, so the block satisfies the rule that there be none
    at its end, and the CTIP of every slot holds what its treasury held before, consolidated or
    not, less the payouts and fees of its withdrawals. The transactions' ids are new, and there
    is room for their sequence numbers. *)
Theorem suffix_accepted bh s u bps :
  let a := active_sidechains s in let t := withdrawal_bundle_inclusion_threshold (bh_thresholds bh) in
  treasury_ok a u -> bh_thresholds bh = np_thresholds (bh_params bh) ->
  (forall n l, bps !! n = Some l -> is_Some (sidechain a !! n) /\ bundles_ok bh s n l) ->
  exists txs, suffix_txs_for_proposals bps (mkCtips (ctip a) u) (bh_params bh) = Ok txs /\
    forall height, new_txs a u txs -> room a (length txs) ->
    exists rs s' u', suffix_runs bh height s u txs rs s' u' /\ uc_is_empty u' = true /\
      (exists ws ds, rs = ws ++ ds /\
         withdrawal_of <$> ws = Some <$> concat ((fun e => pair e.1 <$> (slot_bundles t a u e.1 e.2).1) <$> hash_iter bps) /\
         (ds = [] \/ exists d, ds = [M5Deposits ∅ d])) /\
      forall n, ctip_amount (active_sidechains s') n = left_over t a u bps n.
Proof.
  intros a t Hok Hthr Hb. assert (Hl : Forall (fun e => is_Some (sidechain a !! e.1) /\ bundles_ok bh s e.1 e.2) (hash_iter bps)).
  { apply Forall_forall. intros [n l] He%hash_iter_elem. by apply Hb. }
  assert (Hnd : NoDup (hash_iter bps).*1) by (rewrite hash_iter_perm; apply NoDup_fst_map_to_list).
  destruct (slots_m6s_total bh s (hash_iter bps) (mkCtips (ctip a) u) []) as (ctips' & m6s & Hf & Hc').
  { by apply treasury_ctips_ok. }
  { eapply Forall_impl; [exact Hl|]. intros e [_ [_ Hs]] m b info Hin Hv. rewrite <- Hthr in Hv. by destruct (Hs m b info Hin Hv) as (_ & ? & _). }
  assert (Hsim : forall height txs, txs = m6s -> new_txs a u txs -> room a (length txs) ->
    exists rs a1 u1, suffix_runs bh height s u txs rs (set_active s a1) u1 /\ ctips' = mkCtips (ctip a1) u1 /\ treasury_ok a1 u1 /\
      withdrawal_of <$> rs = Some <$> concat ((fun e => pair e.1 <$> (slot_bundles t a u e.1 e.2).1) <$> hash_iter bps) /\
      forall n, slot_total a1 u1 n = left_over t a u bps n).
  { intros height txs -> Hnew Hroom. destruct (slots_m6s_runs bh height (hash_iter bps) s u [] ctips' m6s Hthr Hnd Hok Hl Hf Hnew Hroom) as (rs & a1 & u1 & ? & ? & ? & ? & Htot & Hout).
    exists rs, a1, u1. split_and!; [done..|]. intros n. unfold left_over. destruct (bps !! n) as [l|] eqn:E; cbn.
    - apply (Htot (n, l)). by apply hash_iter_elem.
    - apply Hout. intros ([n' l] & -> & He%hash_iter_elem)%list_elem_of_fmap. cbn in E. congruence. }
  unfold suffix_txs_for_proposals. rewrite Hf. cbn [mbind Res_bind]. destruct (uc_is_empty (unconsolidated ctips')) eqn:Hemp.
  - exists m6s. split; [done|]. intros height Hnew Hroom. destruct (Hsim height m6s eq_refl Hnew Hroom) as (rs & a1 & u1 & Hr & -> & Hok1 & Hres & Htot).
    exists rs, (set_active s a1), u1. split_and!; [done|done|exists rs, []; rewrite app_nil_r; by auto|].
    intros n. rewrite <- Htot. apply no_unconsolidated; [done|]. cbn in Hemp. apply bool_decide_eq_true_1 in Hemp.
    destruct (by_sidechain u1 !! n) as [us|] eqn:E; [exfalso|done]. destruct (ix_nodup _ (uo_indexed _ _ (to_uc _ _ Hok1)) _ _ E) as [_ Hus]. destruct us as [|c us]; [done|].
    assert (Hc : c ∈ slot_ctips u1 n) by (rewrite E; by left). apply (ix_agree _ (uo_indexed _ _ (to_uc _ _ Hok1))) in Hc. by rewrite Hemp, lookup_empty in Hc.
  - destruct (consolidation_total (bh_params bh) ctips' Hc') as [c2 ->]. cbn [mbind Res_bind]. eexists. split; [done|]. intros height Hnew Hroom. rewrite length_app in Hroom.
    destruct (Hsim height m6s eq_refl) as (rs & a1 & u1 & Hr & -> & Hok1 & Hres & Htot).
    { destruct Hnew as [N1 N2]. rewrite fmap_app in N1. apply NoDup_app in N1 as (N1 & _). apply Forall_app in N2 as [N2 _]. by split. }
    { intros k. specialize (Hroom k). lia. }
    destruct (runs_new _ _ _ _ _ _ _ _ _ _ Hr Hnew Hroom) as [_ Hroom1]. cbn in Hroom1, Hemp |- *. apply bool_decide_eq_false_1 in Hemp.
    destruct (consolidation_step bh height (set_active s a1) u1 Hok1 Hemp Hroom1) as (d & s' & u' & Hr' & He & Hamt).
    exists (rs ++ [M5Deposits ∅ d]), s', u'. split_and!; [by eapply suffix_runs_app|done| |].
    + exists rs, [M5Deposits ∅ d]. split_and!; [done|done|right; by exists d].
    + intros n. rewrite Hamt. apply Htot.
Qed.

End Suffix.
