(* ===== verification/Mining.v ===== *)
(** * Finishing a block

    [lib/mining.rs]: the witness commitment, the BIP325 solution of a signet
    block, and the proof of work. The proof of work is ground by several threads
    that share two atomics; they are a step relation in which every thread may
    run at any time. *)

From Stdlib Require Import Strings.Byte.
From stdpp Require Import base numbers list gmap relations.
From S2P Require Import Prelude OrderMap Bitcoin.
Open Scope Z_scope.

(** What this part takes from rust-bitcoin. *)
Class MiningLib := {
  (** [merkle_tree::calculate_root], also of [Block::compute_merkle_root]; [None]
      without leaves *)
  calculate_root : list Hash -> option Hash;
  (** [Block::witness_root] *)
  witness_root : list Transaction -> option Hash;
  (** [serialize] of a script, a witness and a header *)
  script_serialize : bytes -> bytes;
  witness_serialize : list bytes -> bytes;
  header_serialize : Header -> bytes;
  (** [sha256::Hash::hash]; an engine hashes the concatenation of its inputs *)
  sha256 : bytes -> Hash;
  (** [Header::target], a 256 bit number *)
  header_target : Header -> Z }.

Definition WITNESS_COMMITMENT_HEADER : bytes := [xaa; x21; xa9; xed].
Definition WITNESS_RESERVED_VALUE : bytes := replicate 32 x00.
Definition SIGNET_HEADER : bytes := [xec; xc7; xda; xa2].
Definition OP_0 : byte := x00.

Inductive NoWitnessCommitment := mkNoWitnessCommitment.

Definition set_merkle_root (r : bytes) (h : Header) : Header := mkHeader (h_version h) (prev_blockhash h) r (time h) (bits h) (nonce h).
Definition set_nonce (n : Z) (h : Header) : Header := mkHeader (h_version h) (prev_blockhash h) (merkle_root h) (time h) (bits h) n.
Definition set_outputs (outs : list TxOut) (tx : Transaction) : Transaction := mkTransaction (version tx) (lock_time tx) (input tx) outs.

(** [output[index].script_pubkey.push_slice(data)] *)
Definition push_to_output `{Bitcoin} (index : nat) (data : bytes) (tx : Transaction) : Transaction :=
  set_outputs (alter (fun o => mkTxOut (value o) (push_slice (script_pubkey o) data)) index (output tx)) tx.

Section Commitment.
Context `{Bitcoin, MiningLib}.

Definition with_merkle_root {E} (header : Header) (txdata : list Transaction) : Res E Block :=
  r ← unwrap (calculate_root (compute_txid <$> txdata));
  Ok (mkBlock (set_merkle_root r header) txdata).

Definition set_reserved_value (i : TxIn) : TxIn := mkTxIn (previous_output i) (script_sig i) (sequence i) [WITNESS_RESERVED_VALUE].

Definition commitment_script (witness_root : Hash) : bytes :=
  new_op_return (WITNESS_COMMITMENT_HEADER ++ sha256d (witness_root ++ WITNESS_RESERVED_VALUE)).

Definition add_witness_commitment {E} (block : Block) : Res E Block :=
  coinbase ← unwrap (head (txdata block));
  i ← unwrap (head (input coinbase));
  let coinbase := mkTransaction (version coinbase) (lock_time coinbase) (set_reserved_value i :: tail (input coinbase)) (output coinbase) in
  root ← unwrap (witness_root (coinbase :: tail (txdata block)));
  let coinbase := set_outputs (output coinbase ++ [mkTxOut 0 (commitment_script root)]) coinbase in
  with_merkle_root (header block) (coinbase :: tail (txdata block)).

(** [Iterator::rposition] *)
Fixpoint rposition {A} (f : A -> bool) (l : list A) : option nat :=
  match l with
  | [] => None
  | x :: l => match rposition f l with
              | Some i => Some (S i)
              | None => if f x then Some 0%nat else None
              end
  end.

Definition is_commitment (output : TxOut) : bool :=
  let prefix := [OP_RETURN; x24] ++ WITNESS_COMMITMENT_HEADER in
  bool_decide (38 <= length (script_pubkey output))%nat && bool_decide (take (length prefix) (script_pubkey output) = prefix).

Definition witness_commitment_index (coinbase : Transaction) : Res NoWitnessCommitment nat :=
  ok_or mkNoWitnessCommitment (rposition is_commitment (output coinbase)).

(** ** The signet solution *)

Record SignetTxs := mkSignetTxs { to_spend : Transaction; to_sign : Transaction }.

Definition null_outpoint : OutPoint := mkOutPoint all_zeros u32_max.

(** The transactions for the block with this header, where the Merkle root is
    that of the block with its solution cut to the header of the push. *)
Definition signet_txs {E} (header : Header) (merkle_root : Hash) (challenge : bytes) : Res E SignetTxs :=
  let block_data := le_bytes 4 (h_version header mod 2 ^ 32) ++ prev_blockhash header ++ merkle_root ++ le_bytes 4 (time header) in
  block_data ← unwrap (push_bytes_try_from block_data);
  let to_spend := mkTransaction 0 0 [mkTxIn null_outpoint (push_slice (push_opcode [] OP_0) block_data) 0 []] [mkTxOut 0 challenge] in
  let to_sign := mkTransaction 0 0 [mkTxIn (mkOutPoint (compute_txid to_spend) 0) [] 0 []] [mkTxOut 0 (push_opcode [] OP_RETURN)] in
  Ok (mkSignetTxs to_spend to_sign).

Definition signet_txs_new (block : Block) (challenge : bytes) : Res NoWitnessCommitment SignetTxs :=
  coinbase ← unwrap (head (txdata block));
  index ← witness_commitment_index coinbase;
  let coinbase := push_to_output index SIGNET_HEADER coinbase in
  merkle_root ← unwrap (calculate_root (compute_txid <$> coinbase :: tail (txdata block)));
  signet_txs (header block) merkle_root challenge.

Definition add_signet_solution (block : Block) (script_sig : bytes) (witness : list bytes) : Res NoWitnessCommitment Block :=
  coinbase ← unwrap (head (txdata block));
  index ← witness_commitment_index coinbase;
  push ← unwrap (push_bytes_try_from (SIGNET_HEADER ++ script_serialize script_sig ++ witness_serialize witness));
  with_merkle_root (header block) (push_to_output index push coinbase :: tail (txdata block)).

End Commitment.

(** ** Proof of work *)

(** Where a thread of [grind] is: before the test of [found], in the loop of
    4096 candidates with the number of rounds that are left, between its swap of
    [found] and its store of the nonce, or at its end. *)
Inductive Thread :=
| Testing (candidate : Z)
| Hashing (candidate : Z) (rounds : nat)
| Storing (candidate : Z)
| Done.

Record GrindState := mkGrindState { found : bool; found_nonce : Z; grind_threads : list Thread }.

Section Grind.
Context `{MiningLib}.
Context (header : Header) (threads : Z).

(** [Target::is_met_by] *)
Definition is_met_by (target : Z) (hash : Hash) : bool := bool_decide (le_val hash <= target).

Definition candidate_hash (candidate : Z) : Hash :=
  let serialized := header_serialize header in
  let tail := take 12 (drop 64 serialized) ++ le_bytes 4 candidate in
  sha256 (sha256 (take 64 serialized ++ tail)).

Definition most_significant_target_byte : byte := nth 31 (le_bytes 32 (header_target header)) x00.

Definition is_hit (candidate : Z) : bool :=
  let hash := candidate_hash candidate in
  bool_decide (u8_val (nth 31 hash x00) <= u8_val most_significant_target_byte) && is_met_by (header_target header) hash.

(** One step of a thread. The load of [found] is relaxed, so it may still read
    [false] ([stale]); the swap reads the latest value. *)
Definition thread_step (stale : bool) (found : bool) (nonce : Z) (t : Thread) : option (bool * Z * Thread) :=
  match t with
  | Testing candidate => Some (found, nonce, if found && negb stale then Done else Hashing candidate 4096)
  | Hashing candidate O => Some (found, nonce, Testing candidate)
  | Hashing candidate (S rounds) =>
      if is_hit candidate then Some (true, nonce, if found then Done else Storing candidate)
      else Some (found, nonce, if bool_decide (candidate + threads <= u32_max) then Hashing (candidate + threads) rounds else Done)
  | Storing candidate => Some (found, candidate, Done)
  | Done => None
  end.

Definition grind_init : GrindState := mkGrindState false u64_max ((fun first => Testing (Z.of_nat first)) <$> seq 0 (Z.to_nat threads)).

(** Any thread runs. *)
Inductive grind_step : GrindState -> GrindState -> Prop :=
| thread_runs st i t stale found' nonce' t' :
    grind_threads st !! i = Some t -> thread_step stale (found st) (found_nonce st) t = Some (found', nonce', t') ->
    grind_step st (mkGrindState found' nonce' (<[i := t']> (grind_threads st))).

Definition all_done (st : GrindState) : Prop := Forall (eq Done) (grind_threads st).

Definition grind_result (st : GrindState) : option Header :=
  if decide (found_nonce st = u64_max) then None else Some (set_nonce (found_nonce st mod 2 ^ 32) header).

(** [r] is an answer of [grind]: of one of its runs until the threads are joined. *)
Definition grind (r : option Header) : Prop :=
  exists st, rtc grind_step grind_init st /\ all_done st /\ r = grind_result st.

End Grind.
