(* ===== verification/Mine.v ===== *)
(** * Mining a block

    [lib/block_producer/mine.rs]: a block is built from the template that the
    enforcer serves, finished and submitted. The template server, the node and
    its wallet, the clock and the grinding threads are a world that also moves
    the validator's tables between any two steps. *)

From Stdlib Require Import Strings.Byte Strings.String.
From stdpp Require Import base numbers list gmap.
From S2P Require Import Prelude OrderMap Bitcoin Types Messages M6 Dbs BlockHashes Treasury Diff Reversible Handlers ConnectBlock Enforcer Facade Policy Producer Mining.
Open Scope Z_scope.

(** ** Times and values *)

(** The bytes of a byte string literal. *)
Definition L2L_SIGNET_CHALLENGE : bytes := list_byte_of_string "00141551188e5153533b4fdd555449e640d9cc129456".
Definition L2L_SIGNET_TARGET_INTERVAL : Z := 60.
Definition DEFAULT_TARGET_INTERVAL : Z := 600.

(** In seconds. *)
Definition target_block_interval (signet_challenge : bytes) : Z :=
  if decide (signet_challenge = L2L_SIGNET_CHALLENGE) then L2L_SIGNET_TARGET_INTERVAL else DEFAULT_TARGET_INTERVAL.

(** [u64::midpoint] rounds down. *)
Definition midpoint (a b : Z) : Z := (a + b) / 2.

Definition signet_block_time (tip_time now interval : Z) : Z :=
  let tip_age := saturating_sub now tip_time in
  if bool_decide (interval < tip_age) then tip_time + midpoint tip_age interval
  else Z.max now (tip_time + 1).

Definition ONE_BTC : Amount := 100000000.
Definition SUBSIDY_HALVING_INTERVAL : Z := 210000.

Definition subsidy_halving_interval (network : Network) : Z :=
  match network with Regtest => 150 | _ => SUBSIDY_HALVING_INTERVAL end.

(** An overflow of an [Amount] panics. *)
Definition get_block_value {E} (height : Z) (fees : Amount) (network : Network) : Res E Amount :=
  let subsidy_sats := 50 * ONE_BTC in
  let halvings := height / subsidy_halving_interval network in
  if bool_decide (64 <= halvings) then Ok fees else amount_add fees (Z.shiftr subsidy_sats halvings).

(** ** The world *)

Inductive CoinbaseTxnOrValue := Txn (data : bytes) | Value (value : Amount).

Record TemplateTx := mkTemplateTx { tt_txid : Txid; tt_data : bytes; tt_fee : Z }.

(** The fields of [BlockTemplate] that are used. *)
Record BlockTemplate := mkBlockTemplate {
  bt_prev_blockhash : BlockHash;
  compact_target : Z;
  bt_mintime : Z;
  coinbase_txn_or_value : CoinbaseTxnOrValue;
  bt_transactions : list TemplateTx }.

Record TemplateHeader := mkTemplateHeader { th_bits : Z; mintime : Z }.

Inductive Rule := Segwit | Bip300301 | SignetRule.

(** What is outside the producer. [None] is an error of the call. *)
Class MiningWorld (W : Type) := {
  (** the producer's state; it is shared with the other tasks, which run between
      any two steps *)
  producer_of : W -> BlockProducer;
  other_tasks : W -> W;
  (** [getblocktemplate] of the template server *)
  get_block_template : W -> list Rule -> W * option BlockTemplate;
  (** the time since the epoch, in seconds *)
  system_time : W -> option Z;
  (** [signrawtransactionwithwallet] for an input that spends output 0 of the
      first transaction: [hex], decoded if it can be, and [complete] *)
  sign_raw_transaction : W -> Transaction -> Transaction -> W * option (option Transaction * bool);
  (** the threads of [grind] *)
  run_grind : W -> Header -> W * option Header;
  (** [submitblock]: [Some reason] if the node rejects the block *)
  submit_block : W -> Block -> W * option (option string);
  (** sleeps; whether the time is over *)
  sleep_poll : W -> W * bool;
  (** [getaddressinfo]: [is_mine] *)
  get_address_info : W -> bytes -> W * option bool }.

Inductive MineError :=
| NoBlockTemplateServer
| ME_GetBlockTemplate (template_error : option ProducerError)
| TemplateTipMismatch (template_tip validator_tip : BlockHash)
| SBT_NoCoinbaseTxn
| DecodeTemplateCoinbase
| DecodeTemplateTransaction (txid : Txid)
| NegativeTemplateTransactionFee (txid : Txid) (fee : Z)
| FB_GetHeaderInfo (e : GetHeaderInfoError)
| FB_GetMainchainTip (e : DbError)
| SystemTime
| BitcoinCoreRPC
| DecodeSigned
| ME_NoWitnessCommitment
| Unsolved
| NonceSpaceExhausted
| BlockRejected (reason : string)
| AwaitTimeout (block_hash : BlockHash)
| TryGetBlockInfos (e : DbError)
| ValidatorNotSynced.

(** The producer's configuration: the client of a template server, and the
    challenge on signets. *)
Record MinerConfig := mkMinerConfig { has_gbt_client : bool; signet_challenge : option bytes }.

Section World.
Context {W : Type} `{MiningWorld W}.

Definition MineM (A : Type) : Type := W -> W * Res MineError A.
Definition mret_ {A} (a : A) : MineM A := fun w => (w, Ok a).
Definition mbind_ {A B} (m : MineM A) (f : A -> MineM B) : MineM B := fun w =>
  match m w with
  | (w, Ok a) => f a w
  | (w, Err e) => (w, Err e)
  | (w, Panic) => (w, Panic)
  end.
#[global] Instance MineM_ret : MRet MineM := @mret_.
#[global] Instance MineM_bind : MBind MineM := fun A B f m => mbind_ m f.

Definition mlift {E A} (conv : E -> MineError) (r : Res E A) : MineM A := fun w => (w, map_err conv r).
(** A call out of the program. *)
Definition call {A} (e : MineError) (f : W -> W * option A) : MineM A := fun w => let '(w, r) := f w in (w, ok_or e r).

(** The producer as it is now, after whatever the other tasks did. *)
Definition producer_now : MineM BlockProducer := fun w => let w := other_tasks w in (w, Ok (producer_of w)).
Definition validator_now : MineM Validator := p ← producer_now; mret (bp_validator p).

End World.

Section Mine.
Context {W : Type} `{MiningWorld W, Bitcoin, Nom, TxCodec, MiningLib}.
(** [Builder::push_int] *)
Context (push_int : Z -> bytes).

Definition fetch_block_template (rules : list Rule) : MineM BlockTemplate := fun w =>
  match get_block_template w rules with
  | (w, Some t) => (w, Ok t)
  | (w, None) => (p ← producer_now; mlift id (Err (ME_GetBlockTemplate (last_gbt_error p)))) w
  end.

(** An entry of the template's transactions. *)
Definition template_transaction (t : TemplateTx) : Res MineError (Transaction * Amount) :=
  tx ← ok_or (DecodeTemplateTransaction (tt_txid t)) (tx_deserialize (tt_data t));
  if bool_decide (tt_fee t < 0) then Err (NegativeTemplateTransactionFee (tt_txid t) (tt_fee t)) else Ok (tx, tt_fee t).

Definition is_message (out : TxOut) : bool := bool_decide (is_Some (coinbase_message_parse (script_pubkey out))).

Definition select_block_txs (cfg : MinerConfig) (mainchain_tip : BlockHash)
    : MineM (list TxOut * list (Transaction * Amount) * TemplateHeader) :=
  v ← validator_now;
  let rules := [Segwit; Bip300301] ++ (if decide (v_network v = Signet) then [SignetRule] else []) in
  if negb (has_gbt_client cfg) then mlift id (Err NoBlockTemplateServer) else
  template ← fetch_block_template rules;
  let template_header := mkTemplateHeader (compact_target template) (bt_mintime template) in
  if bool_decide (bt_prev_blockhash template <> mainchain_tip)
  then mlift id (Err (TemplateTipMismatch (bt_prev_blockhash template) mainchain_tip)) else
  match coinbase_txn_or_value template with
  | Value _ => mlift id (Err SBT_NoCoinbaseTxn)
  | Txn data =>
      coinbase ← mlift id (ok_or DecodeTemplateCoinbase (tx_deserialize data));
      let coinbase_messages := List.filter is_message (output coinbase) in
      res ← mlift id (foldM (fun res t => r ← template_transaction t; Ok (res ++ [r])) (bt_transactions template) []);
      mret (coinbase_messages, res, template_header)
  end.

Definition finalize_coinbase {E} (network : Network) (best_block_height : Z) (coinbase_spk : bytes) (coinbase_outputs : list TxOut) (fees : Amount)
    : Res E Transaction :=
  next_height ← unwrap (if bool_decide (best_block_height < u32_max) then Some (best_block_height + 1) else None);
  let script_sig := push_opcode (push_int next_height) OP_0 in
  value ← get_block_value next_height fees network;
  let out := if bool_decide (0 < value) then mkTxOut value coinbase_spk else mkTxOut 0 (push_opcode [] OP_RETURN) in
  Ok (mkTransaction 2 0 [mkTxIn null_outpoint script_sig u32_max []] (out :: coinbase_outputs)).

(** The time is cut to 32 bits. *)
Definition block_time (cfg : MinerConfig) (now tip_time : Z) (template : TemplateHeader) : Z :=
  let time := match signet_challenge cfg with
              | Some challenge => signet_block_time tip_time now (target_block_interval challenge)
              | None => Z.max now (tip_time + 1)
              end in
  Z.max time (mintime template) mod 2 ^ 32.

(** [BlockVersion::NO_SOFT_FORK_SIGNALLING] *)
Definition NO_SOFT_FORK_SIGNALLING : Z := 536870912.

Definition finalize_block (cfg : MinerConfig) (coinbase_spk : bytes) (coinbase_outputs : list TxOut) (transactions : list Transaction)
    (fees : Amount) (template : TemplateHeader) : MineM Block :=
  v ← validator_now;
  best_block_hash ← mlift FB_GetMainchainTip (get_mainchain_tip v);
  v ← validator_now;
  tip_header ← mlift FB_GetHeaderInfo (get_header_info (block_hashes (v_dbs v)) best_block_hash);
  coinbase_tx ← mlift id (finalize_coinbase (v_network v) (hi_height tip_header) coinbase_spk coinbase_outputs fees);
  now ← call SystemTime (fun w => (w, system_time w));
  let header := mkHeader NO_SOFT_FORK_SIGNALLING best_block_hash all_zeros (block_time cfg now (hi_timestamp tip_header) template) (th_bits template) 0 in
  mlift id (add_witness_commitment (mkBlock header (coinbase_tx :: transactions))).

Definition sign_signet_block (block : Block) (challenge : bytes) : MineM Block :=
  txs ← mlift (fun _ => ME_NoWitnessCommitment) (signet_txs_new block challenge);
  '(hex, complete) ← call BitcoinCoreRPC (fun w => sign_raw_transaction w (to_spend txs) (to_sign txs));
  if negb complete then mlift id (Err Unsolved) else
  signed ← mlift id (ok_or DecodeSigned hex);
  i ← mlift id (unwrap (head (input signed)));
  mlift (fun _ => ME_NoWitnessCommitment) (add_signet_solution block (script_sig i) (witness i)).

(** A poll is 25 ms apart from the last one, and the time is 10 s. *)
Definition MAX_POLLS : nat := 400.

Fixpoint await_loop (polls : nat) (hash : BlockHash) : MineM unit :=
  v ← validator_now;
  o ← mlift TryGetBlockInfos (try_get_block_infos v hash 0);
  match o, polls with
  | Some _, _ => mret tt
  | None, O => mlift id (Err (AwaitTimeout hash))
  | None, S polls =>
      elapsed ← (fun w => let '(w, b) := sleep_poll w in (w, Ok b));
      if elapsed : bool then mlift id (Err (AwaitTimeout hash)) else await_loop polls hash
  end.
Definition await_block_connection : BlockHash -> MineM unit := await_loop MAX_POLLS.

Definition mine (cfg : MinerConfig) (coinbase_spk : bytes) (coinbase_outputs : list TxOut) (transactions : list Transaction)
    (fees : Amount) (template : TemplateHeader) : MineM BlockHash :=
  block ← finalize_block cfg coinbase_spk coinbase_outputs transactions fees template;
  block ← match signet_challenge cfg with
          | Some challenge => sign_signet_block block challenge
          | None => mret block
          end;
  header ← call NonceSpaceExhausted (fun w => run_grind w (header block));
  let block := mkBlock header (txdata block) in
  answer ← call BitcoinCoreRPC (fun w => submit_block w block);
  match answer with
  | Some reason => mlift id (Err (BlockRejected reason))
  | None =>
      let hash := block_hash header in
      _ ← await_block_connection hash;
      mret hash
  end.

Definition generate_block (cfg : MinerConfig) (coinbase_spk : bytes) : MineM BlockHash :=
  v ← validator_now;
  match try_get_mainchain_tip v with
  | None => mlift id (Err ValidatorNotSynced)
  | Some mainchain_tip =>
      '(coinbase_outputs, selected, template) ← select_block_txs cfg mainchain_tip;
      fees ← mlift id (foldM (fun a e => amount_add a e.2) selected 0);
      mine cfg coinbase_spk coinbase_outputs (fst <$> selected) fees template
  end.

(** *** [verify_can_mine] *)

Inductive VerifyCanMine :=
| VCM_BitcoinCoreRPC
| VCM_Network (network : Network)
| NoSignetChallengeFound
| ParseSignetChallenge
| SignetChallengeAddressMissing (address : bytes).

(** [Address::from_script]; an address is its script. *)
Context (address_from_script : bytes -> option bytes).

Definition verify_can_mine (cfg : MinerConfig) (w : W) : W * Res VerifyCanMine unit :=
  let network := v_network (bp_validator (producer_of w)) in
  match network with
  | Regtest => (w, Ok tt)
  | Signet =>
      match signet_challenge cfg with
      | None => (w, Err NoSignetChallengeFound)
      | Some challenge =>
          match address_from_script challenge with
          | None => (w, Err ParseSignetChallenge)
          | Some address =>
              match get_address_info w address with
              | (w, None) => (w, Err VCM_BitcoinCoreRPC)
              | (w, Some false) => (w, Err (SignetChallengeAddressMissing address))
              | (w, Some true) => (w, Ok tt)
              end
          end
      end
  | _ => (w, Err (VCM_Network network))
  end.

End Mine.
