(* ===== verification/MiningProofs.v ===== *)
(** * Finishing a block: proofs

    Grinding ends under every scheduling of its threads, and finds a nonce
    exactly if there is one; a signet solution is the one that the BIP325
    validation checks. *)

From Stdlib Require Import Strings.Byte.
From stdpp Require Import base numbers list gmap relations.
From S2P Require Import Prelude OrderMap Bitcoin Types Messages M6 Dbs BlockHashes Treasury Diff Reversible Handlers ConnectBlock Sync BlockFiles BlockFileProofs Mining.
Open Scope Z_scope.

(** What is documented of the functions of rust-bitcoin. *)
Class MiningLaws `{Bitcoin, MiningLib} := {
  calculate_root_some l : l <> [] -> is_Some (calculate_root l);
  calculate_root_length l r : calculate_root l = Some r -> length r = 32%nat;
  witness_root_some txs : txs <> [] -> is_Some (witness_root txs);
  script_serialize_nonempty s : script_serialize s <> [];
  (** a header is 80 bytes, and its last field is the nonce *)
  header_serialize_length h : header_fields_ok h -> length (header_serialize h) = 80%nat;
  header_serialize_nonce h n : header_fields_ok h -> 0 <= n < 2 ^ 32 ->
    header_serialize (set_nonce n h) = take 76 (header_serialize h) ++ le_bytes 4 n;
  (** [BlockHash] is the double SHA256 of the header *)
  block_hash_header h : block_hash h = sha256 (sha256 (header_serialize h));
  sha256_length b : length (sha256 b) = 32%nat;
  (** the target is given by [bits] *)
  header_target_range h : 0 <= header_target h < 2 ^ 256;
  header_target_nonce n h : header_target (set_nonce n h) = header_target h;
  (** a push is appended to the script *)
  push_slice_app s d : exists p, push_slice s d = s ++ p;
  (** the instruction of an opcode, and those of two pushes after [OP_RETURN] *)
  instructions_op_return : instructions (push_opcode [] OP_RETURN) = [Some (Op OP_RETURN)];
  instructions_two_pushes a d : push_bytes_try_from a = Some a -> push_bytes_try_from d = Some d ->
    instructions (push_slice (new_op_return a) d) = [Some (Op OP_RETURN); Some (PushBytes a); Some (PushBytes d)] }.

(** ** The test of a candidate *)

Lemma le_val_last b : length b = 32%nat -> u8_val (nth 31 b x00) = le_val b / 2 ^ 248.
Proof.
  intros Hb. assert (exists a x, b = a ++ [x] /\ length a = 31%nat) as (a & x & -> & Ha).
  { exists (take 31 b), (nth 31 b x00). split; [|rewrite length_take; lia].
    rewrite <- (take_drop 31 b) at 1. f_equal. do 32 (destruct b as [|? b]; [done|]). by destruct b. }
  rewrite app_nth2 by lia. rewrite Ha. cbn [nth Nat.sub].
  assert (E : forall l, le_val (l ++ [x]) = le_val l + 256 ^ Z.of_nat (length l) * u8_val x).
  { induction l as [|y l IH]; [cbn; lia|]. cbn [app le_val foldr length]. fold (le_val (l ++ [x])) (le_val l).
    rewrite IH, Nat2Z.inj_succ, Z.pow_succ_r by lia. lia. }
  rewrite E, Ha. change (256 ^ Z.of_nat 31) with (2 ^ 248). pose proof (le_val_range a) as Hr. rewrite Ha in Hr. change (256 ^ Z.of_nat 31) with (2 ^ 248) in Hr.
  rewrite (Z.mul_comm (2 ^ 248)), Z.div_add, Z.div_small by lia. lia.
Qed.

Section Grind.
Context `{MiningLaws}.
Context (header : Header) (threads : Z) (Hheader : header_fields_ok header) (Hthreads : 1 <= threads <= u32_max).

Lemma candidate_hash_block_hash n : 0 <= n < 2 ^ 32 -> candidate_hash header n = block_hash (set_nonce n header).
Proof.
  intros Hn. unfold candidate_hash. rewrite block_hash_header, header_serialize_nonce by done.
  by rewrite app_assoc, take_take_drop.
Qed.

(** The comparison of the last byte does not reject any solution. *)
Lemma is_hit_met n : 0 <= n < 2 ^ 32 -> is_hit header n = is_met_by (header_target header) (block_hash (set_nonce n header)).
Proof.
  intros Hn. unfold is_hit. rewrite candidate_hash_block_hash by done. set (h := block_hash _).
  assert (Hl : length h = 32%nat) by (unfold h; rewrite block_hash_header; apply sha256_length).
  unfold is_met_by. rewrite andb_comm. case_bool_decide as Hle; [|done]. rewrite andb_true_l. apply bool_decide_eq_true.
  unfold most_significant_target_byte. rewrite !le_val_last by (done || apply length_le_bytes).
  rewrite (le_val_bytes 32) by apply header_target_range. apply Z.div_le_mono; lia.
Qed.

(** ** Invariant of the threads *)

(** No candidate below [c] of thread [i] is a solution. *)
Definition clear (i : nat) (c : Z) : Prop := forall n, 0 <= n < c -> n mod threads = Z.of_nat i -> is_hit header n = false.
Definition solution (n : Z) : Prop := 0 <= n <= u32_max /\ is_hit header n = true.

Definition thread_ok (found : bool) (i : nat) (t : Thread) : Prop :=
  match t with
  | Testing c | Hashing c _ => 0 <= c <= u32_max /\ c mod threads = Z.of_nat i /\ clear i c
  | Storing c => found = true /\ solution c
  | Done => found = true \/ clear i (2 ^ 32)
  end.

Record grind_inv (st : GrindState) : Prop := {
  gi_length : length (grind_threads st) = Z.to_nat threads;
  gi_threads i t : grind_threads st !! i = Some t -> thread_ok (found st) i t;
  gi_nonce : found_nonce st = u64_max \/ solution (found_nonce st);
  gi_found : found st = true -> solution (found_nonce st) \/ exists i c, grind_threads st !! i = Some (Storing c) }.

Lemma grind_init_inv : grind_inv (grind_init threads).
Proof.
  split; cbn; [by rewrite length_fmap, length_seq| |by left|done].
  intros i t. rewrite list_lookup_fmap_Some. intros (k & -> & [-> Hk]%lookup_seq). cbn in *. unfold u32_max in *.
  split_and!; [lia|lia|apply Z.mod_small; lia|]. intros n Hn Hm. exfalso. rewrite Z.mod_small in Hm by lia. lia.
Qed.

(** The candidates between one and the next of a thread belong to other threads. *)
Lemma clear_next i c b : 0 <= c -> c mod threads = Z.of_nat i -> clear i c -> is_hit header c = false -> b <= c + threads -> clear i b.
Proof.
  intros H0c Hc Hcl Hh Hb n Hn Hm. destruct (decide (n < c)) as [|Hge]; [apply Hcl; [lia|done]|].
  replace n with c; [done|]. assert (Hd : (n - c) mod threads = 0) by (rewrite Zminus_mod, Hm, Hc, Z.sub_diag; apply Z.mod_0_l; lia).
  rewrite Z.mod_small in Hd by lia. lia.
Qed.

Lemma thread_step_ok stale f nonce i t f' nonce' t' :
  thread_step header threads stale f nonce t = Some (f', nonce', t') -> thread_ok f i t ->
  thread_ok f' i t' /\ (f = true -> f' = true) /\
  (nonce' = nonce \/ (exists c, t = Storing c /\ nonce' = c)) /\ (f' = true -> f = true \/ exists c, t' = Storing c).
Proof.
  destruct t as [c|c [|k]|c|]; cbn; [| | | |done].
  - intros [= <- <- <-] Hok. split_and!; [|done|by left|by left]. destruct f, stale; cbn; first [done|by left].
  - intros [= <- <- <-] Hok. split_and!; [done|done|by left|by left].
  - intros E (Hc & Hm & Hcl). destruct (is_hit header c) eqn:Hh.
    + injection E as <- <- <-. split_and!; [|done|by left|]; destruct f; cbn; [by left|by split|by left|intros _; right; by eexists].
    + injection E as <- <- <-. split_and!; [|done|by left|by left]. case_bool_decide as Hb; cbn.
      * split_and!; [lia|lia| |apply (clear_next i c); (done || lia)]. rewrite <- Hm. rewrite <- (Z.mul_1_l threads) at 1. apply Z_mod_plus_full.
      * right. unfold u32_max in *. apply (clear_next i c); (done || lia).
  - intros [= <- <- <-] [Hf Hs]. split_and!; [by left|done|right; by eexists|by left].
Qed.

Lemma thread_ok_mono (f f' : bool) i t : (f = true -> f' = true) -> thread_ok f i t -> thread_ok f' i t.
Proof. intros Hff. destruct t; cbn; [done|done|naive_solver|naive_solver]. Qed.

Lemma grind_step_inv st st' : grind_step header threads st st' -> grind_inv st -> grind_inv st'.
Proof.
  intros [st0 i t stale f' nonce' t' Hi Hs] [Hlen Hth Hn Hf]. destruct (thread_step_ok _ _ _ i _ _ _ _ Hs (Hth _ _ Hi)) as (Hok & Hmono & Hnonce & Hfound).
  assert (Hnew : grind_threads st0 !! i = Some t -> <[i := t']> (grind_threads st0) !! i = Some t')
    by (intros ?; apply list_lookup_insert_eq; by eapply lookup_lt_Some).
  assert (Hsol : (nonce' = found_nonce st0 /\ forall c, t <> Storing c) \/ solution nonce').
  { destruct t as [c|c k|c|]; [left|left| |left]; [split; [|done]; destruct Hnonce as [|(? & [=] & _)]; done..| |].
    - right. cbn in Hs. injection Hs as <- <- <-. by destruct (Hth _ _ Hi).
    - split; [|done]. destruct Hnonce as [|(? & [=] & _)]; done. }
  split; cbn.
  - by rewrite length_insert.
  - intros j u. destruct (decide (i = j)) as [<-|Hne]; [rewrite Hnew by done; by intros [= <-]|].
    rewrite list_lookup_insert_ne by done. intros Hj. by apply (thread_ok_mono (found st0)), Hth.
  - destruct Hsol as [[-> _]|]; auto.
  - intros Hf'. destruct Hsol as [[-> Hns]|]; [|by left]. destruct (Hfound Hf') as [Hf0|[c ->]]; [|right; by eexists _, _; apply Hnew].
    destruct (Hf Hf0) as [|(j & c & Hj)]; [by left|right]. exists j, c. rewrite list_lookup_insert_ne; [done|].
    intros <-. rewrite Hi in Hj. injection Hj as ->. by destruct (Hns c).
Qed.

Lemma reachable_inv st : rtc (grind_step header threads) (grind_init threads) st -> grind_inv st.
Proof.
  intros Hr. revert Hr. apply rtc_ind_r; [apply grind_init_inv|]. intros y z _ Hs Hy. by apply (grind_step_inv y).
Qed.

(** ** The answer *)

Lemma grind_answer r :
  grind header threads r ->
  match r with
  | Some h => exists n, 0 <= n < 2 ^ 32 /\ h = set_nonce n header /\ is_met_by (header_target h) (block_hash h) = true
  | None => forall n, 0 <= n < 2 ^ 32 -> is_met_by (header_target header) (block_hash (set_nonce n header)) = false
  end.
Proof.
  intros (st & Hr & Hdone & ->). apply reachable_inv in Hr as [Hlen Hth Hn Hf]. unfold grind_result. case_decide as Hmax.
  - intros n Hrange. rewrite <- is_hit_met by done. assert (Hff : found st = false).
    { apply not_true_iff_false. intros Hft. destruct (Hf Hft) as [[Hs _]|(i & c & Hi)].
      - rewrite Hmax in Hs. unfold u64_max, u32_max in Hs. lia.
      - eapply Forall_lookup_1 in Hdone; [|done]. done. }
    assert (Hm : 0 <= n mod threads < threads) by (apply Z.mod_pos_bound; lia).
    destruct (lookup_lt_is_Some_2 (grind_threads st) (Z.to_nat (n mod threads))) as [t Ht]; [lia|].
    pose proof (Hth _ _ Ht) as Hok. eapply Forall_lookup_1 in Hdone; [|exact Ht]. subst t. destruct Hok as [Hft|Hcl]; [congruence|].
    apply Hcl; lia.
  - destruct Hn as [|[Hs Hh]]; [done|]. unfold u32_max in Hs. exists (found_nonce st). rewrite Z.mod_small by lia. split_and!; [lia|lia|done|].
    rewrite header_target_nonce, <- is_hit_met by lia. done.
Qed.

(** ** Termination *)

Definition weight (t : Thread) : Z :=
  match t with
  | Testing c => 3 * (2 ^ 32 - c) + 1
  | Hashing c O => 3 * (2 ^ 32 - c) + 2
  | Hashing c (S _) => 3 * (2 ^ 32 - c)
  | Storing _ => 1
  | Done => 0
  end.
Definition total_weight (l : list Thread) : Z := foldr (fun t a => weight t + a) 0 l.

Lemma total_weight_insert l i t t' : l !! i = Some t -> total_weight (<[i := t']> l) = total_weight l - weight t + weight t'.
Proof.
  revert i. induction l as [|u l IH]; intros [|i] Hi; [done|done| |].
  - injection Hi as ->. cbn. lia.
  - change (weight u + total_weight (<[i := t']> l) = weight u + total_weight l - weight t + weight t'). rewrite (IH i Hi). lia.
Qed.

Lemma thread_step_weight stale f nonce i t f' nonce' t' :
  thread_step header threads stale f nonce t = Some (f', nonce', t') -> thread_ok f i t -> weight t' < weight t.
Proof.
  destruct t as [c|c [|k]|c|]; cbn [thread_step]; [| | | |done].
  - intros [= <- <- <-] (Hc & _). unfold u32_max in Hc. destruct (f && negb stale); cbn [weight]; lia.
  - intros [= <- <- <-] (Hc & _). unfold u32_max in Hc. cbn [weight]. lia.
  - intros E (Hc & _). unfold u32_max in Hc. destruct (is_hit header c); [|case_bool_decide]; injection E as <- <- <-.
    + destruct f; cbn [weight]; lia.
    + destruct k; cbn [weight]; lia.
    + cbn [weight]. lia.
  - intros [= <- <- <-] _. cbn [weight]. lia.
Qed.

Lemma total_weight_nonneg f l : (forall i t, l !! i = Some t -> exists k, thread_ok f k t) -> 0 <= total_weight l.
Proof.
  induction l as [|t l IH]; intros Hl; [done|]. cbn [total_weight foldr]. fold (total_weight l).
  assert (0 <= total_weight l) by (apply IH; intros i; apply (Hl (S i))).
  destruct (Hl 0%nat t eq_refl) as [k Hk]. destruct t as [c|c [|j]|c|]; cbn in Hk |- *; unfold u32_max in *; lia.
Qed.

Lemma grind_terminates st : grind_inv st -> sn (grind_step header threads) st.
Proof.
  intros Hinv. remember (total_weight (grind_threads st)) as w eqn:Hw. revert st Hinv Hw.
  induction w as [w IH] using (well_founded_induction (Z.lt_wf 0)). intros st Hinv ->. constructor. intros st' Hs.
  apply (IH (total_weight (grind_threads st'))); [|by eapply grind_step_inv|done]. split.
  - destruct (grind_step_inv _ _ Hs Hinv) as [_ Hth _ _]. eapply total_weight_nonneg. intros i t Hi. exists i. by apply Hth.
  - destruct Hs as [st i t stale f' nonce' t' Hi Hs]. cbn [grind_threads]. rewrite (total_weight_insert _ _ t) by done.
    pose proof (thread_step_weight _ _ _ i _ _ _ _ Hs (gi_threads _ Hinv _ _ Hi)). lia.
Qed.

(** A state without a next step is one in which every thread has ended. *)
Lemma grind_progress st : all_done st <-> nf (grind_step header threads) st.
Proof.
  split.
  - intros Hd [st' Hs]. destruct Hs as [st i t stale f' nonce' t' Hi Hs]. eapply Forall_lookup_1 in Hd; [|done]. by subst t.
  - intros Hnf. apply Forall_forall. intros t Ht. apply list_elem_of_lookup in Ht as [i Hi].
    destruct (thread_step header threads false (found st) (found_nonce st) t) as [[[f' n'] t']|] eqn:Es.
    + destruct Hnf. eexists. by eapply thread_runs.
    + destruct t as [c|c [|k]|c|]; cbn in Es; [done|done|by destruct (is_hit header c)|done|done].
Qed.

End Grind.

(** C38. [grind] is correct under every scheduling of its threads, however late
    they see that a solution was found: every run ends, and ends only when all
    threads have; the answer is then a header that meets its target and differs
    from the given one in the nonce only, or there is none because none of the
    2^32 nonces meets it. *)
Theorem grind_correct `{MiningLaws} header threads :
  header_fields_ok header -> 1 <= threads <= u32_max ->
  sn (grind_step header threads) (grind_init threads) /\
  (forall st, all_done st <-> nf (grind_step header threads) st) /\
  forall r, grind header threads r ->
    match r with
    | Some h => exists n, 0 <= n < 2 ^ 32 /\ h = set_nonce n header /\ is_met_by (header_target h) (block_hash h) = true
    | None => forall n, 0 <= n < 2 ^ 32 -> is_met_by (header_target header) (block_hash (set_nonce n header)) = false
    end.
Proof.
  intros Hh Ht. split_and!; [by apply grind_terminates, grind_init_inv|apply grind_progress|by apply grind_answer].
Qed.

(** ** BIP325

    What the node's validation does with a signet block: it takes the solution
    out of the witness commitment, where it leaves the header of the push, and
    builds the two transactions for what remains. *)

Section Signet.
Context `{BitcoinLaws, !MiningLib, !MiningLaws}.

(** The bytes of the solution in a push. *)
Definition solution_of (d : bytes) : option bytes :=
  if decide ((4 < length d)%nat /\ take 4 d = SIGNET_HEADER) then Some (drop 4 d) else None.

(** The first push with a solution is cut, every other instruction is copied. *)
Fixpoint clear_section (l : list (option Instruction)) (fnd : option bytes) (s : bytes) : option bytes * bytes :=
  match l with
  | Some (PushBytes []) :: l => clear_section l fnd (push_opcode s OP_0)
  | Some (PushBytes d) :: l =>
      match fnd, solution_of d with
      | None, Some solution => clear_section l (Some solution) (push_slice s SIGNET_HEADER)
      | _, _ => clear_section l fnd (push_slice s d)
      end
  | Some (Op op) :: l => clear_section l fnd (push_opcode s op)
  | _ => (fnd, s)
  end.

Definition bip325_txs (block : Block) (challenge : bytes) : option (SignetTxs * bytes) :=
  coinbase ← head (txdata block);
  index ← rposition is_commitment (output coinbase);
  o ← output coinbase !! index;
  match clear_section (instructions (script_pubkey o)) None [] with
  | (Some solution, s) =>
      let coinbase := set_outputs (<[index := mkTxOut (value o) s]> (output coinbase)) coinbase in
      root ← calculate_root (compute_txid <$> coinbase :: tail (txdata block));
      match signet_txs (E := NoWitnessCommitment) (header block) root challenge with
      | Ok t => Some (t, solution)
      | _ => None
      end
  | (None, _) => None
  end.

Lemma push_bytes_Some d d' : push_bytes_try_from d = Some d' -> d' = d.
Proof.
  destruct (decide (Z.of_nat (length d) < 2 ^ 32)).
  - rewrite push_bytes_small by done. by intros [= ->].
  - by rewrite push_bytes_large by lia.
Qed.

Definition commitment_data (root : Hash) : bytes := WITNESS_COMMITMENT_HEADER ++ sha256d (root ++ WITNESS_RESERVED_VALUE).

Lemma length_commitment_data root : length (commitment_data root) = 36%nat.
Proof. unfold commitment_data. rewrite length_app, sha256d_length. done. Qed.

Lemma commitment_script_eq root : commitment_script root = OP_RETURN :: x24 :: commitment_data root.
Proof.
  unfold commitment_script. fold (commitment_data root). rewrite new_op_return_short by (rewrite length_commitment_data; lia).
  by rewrite length_commitment_data.
Qed.

(** The commitment is recognised, also with what was pushed after it. *)
Lemma is_commitment_script root v p : is_commitment (mkTxOut v (commitment_script root ++ p)) = true.
Proof.
  unfold is_commitment. cbn [script_pubkey]. apply andb_true_intro. rewrite !bool_decide_eq_true, commitment_script_eq. split.
  - rewrite length_app. cbn [length]. rewrite length_commitment_data. lia.
  - unfold commitment_data. done.
Qed.

Lemma rposition_last {A} (f : A -> bool) l x : f x = true -> rposition f (l ++ [x]) = Some (length l).
Proof. intros Hx. induction l as [|y l IH]; cbn; [by rewrite Hx|by rewrite IH]. Qed.

Lemma commitment_index cb outs root p :
  output cb = outs ++ [mkTxOut 0 (commitment_script root ++ p)] -> rposition is_commitment (output cb) = Some (length outs).
Proof. intros ->. apply rposition_last, is_commitment_script. Qed.

Lemma push_to_last cb outs v s d :
  output cb = outs ++ [mkTxOut v s] -> output (push_to_output (length outs) d cb) = outs ++ [mkTxOut v (push_slice s d)].
Proof.
  intros E. unfold push_to_output. cbn [output set_outputs]. rewrite E. rewrite <- (Nat.add_0_r (length outs)) at 1. by rewrite alter_app_r.
Qed.

(** What the validation finds in the commitment of a solved block. *)
Lemma clear_commitment root solution :
  let d := SIGNET_HEADER ++ solution in
  solution <> [] -> push_bytes_try_from d = Some d ->
  clear_section (instructions (push_slice (commitment_script root) d)) None [] = (Some solution, push_slice (commitment_script root) SIGNET_HEADER).
Proof.
  intros d Hne Hd. unfold commitment_script at 1. fold (commitment_data root). rewrite instructions_two_pushes; [|apply push_bytes_small; rewrite length_commitment_data; lia|done].
  cbn [clear_section]. unfold commitment_data at 1. cbn [app WITNESS_COMMITMENT_HEADER].
  change (xaa :: x21 :: xa9 :: xed :: sha256d (root ++ WITNESS_RESERVED_VALUE)) with (commitment_data root).
  assert (E1 : solution_of (commitment_data root) = None) by (unfold solution_of; apply decide_False; by intros [_ E]).
  rewrite E1. unfold d. cbn [app SIGNET_HEADER]. change (xec :: xc7 :: xda :: xa2 :: solution) with (SIGNET_HEADER ++ solution).
  assert (E2 : solution_of (SIGNET_HEADER ++ solution) = Some solution).
  { unfold solution_of. apply decide_True. split; [|done]. destruct solution; [done|]. cbn. lia. }
  rewrite E2, commitment_script_eq, push_opcode_app. cbn [app]. rewrite (push_slice_short [OP_RETURN]) by (rewrite length_commitment_data; lia). by rewrite length_commitment_data.
Qed.

(** The signet solution that the miner adds is the one that the validation
    checks: for a block with a witness commitment, the node's validation takes
    out of the solved block exactly the signature that was added, and checks it
    against exactly the transactions that were signed; the block's Merkle root
    is that of its transactions. *)
Theorem signet_solution_verifies b0 b txs challenge script_sig witness b' :
  add_witness_commitment b0 = Ok (E := NoWitnessCommitment) b -> signet_txs_new b challenge = Ok txs -> add_signet_solution b script_sig witness = Ok b' ->
  bip325_txs b' challenge = Some (txs, script_serialize script_sig ++ witness_serialize witness) /\
  calculate_root (compute_txid <$> txdata b') = Some (merkle_root (header b')).
Proof.
  unfold add_witness_commitment, with_merkle_root.
  destruct (head (txdata b0)) as [cb0|]; [|done]. cbn [unwrap mbind Res_bind]. destruct (head (input cb0)) as [i|]; [|done]. cbn [unwrap mbind Res_bind].
  destruct (witness_root _) as [root|]; [|done]. cbn [unwrap mbind Res_bind]. set (cb := set_outputs _ _). set (ts := tail (txdata b0)).
  destruct (calculate_root _) as [r|]; [|done]. cbn [unwrap mbind Res_bind]. intros [= <-].
  assert (Ho : output cb = output cb0 ++ [mkTxOut 0 (commitment_script root ++ [])]) by by rewrite app_nil_r.
  unfold signet_txs_new, add_signet_solution, witness_commitment_index, with_merkle_root. cbn [txdata head unwrap mbind Res_bind tail header].
  rewrite (commitment_index _ _ _ _ Ho). cbn [ok_or mbind Res_bind]. rewrite app_nil_r in Ho.
  destruct (calculate_root (compute_txid <$> push_to_output (length (output cb0)) SIGNET_HEADER cb :: ts)) as [r1|] eqn:Er1; [|done]. cbn [unwrap mbind Res_bind]. intros Ht.
  destruct (push_bytes_try_from _) as [d|] eqn:Ed; [|done]. cbn [unwrap mbind Res_bind]. pose proof (push_bytes_Some _ _ Ed) as ->.
  set (sol := script_serialize script_sig ++ _) in *. set (cb' := push_to_output _ (SIGNET_HEADER ++ sol) cb).
  destruct (calculate_root (compute_txid <$> cb' :: ts)) as [r2|] eqn:Er2; [|done]. cbn [unwrap mbind Res_bind]. intros [= <-]. split; [|exact Er2].
  pose proof (push_to_last cb _ _ _ (SIGNET_HEADER ++ sol) Ho) as Ho'. fold cb' in Ho'.
  unfold bip325_txs. cbn [txdata head mbind option_bind tail header].
  destruct (push_slice_app (commitment_script root) (SIGNET_HEADER ++ sol)) as [q Hq].
  assert (Hidx : rposition is_commitment (output cb') = Some (length (output cb0))) by (eapply commitment_index; rewrite Ho', Hq; done).
  rewrite Hidx. cbn [mbind option_bind]. rewrite Ho', lookup_app_r, Nat.sub_diag by lia. cbn [lookup list_lookup mbind option_bind script_pubkey value].
  assert (Hsol : sol <> []) by (unfold sol; intros [E _]%app_nil; by apply script_serialize_nonempty in E).
  rewrite clear_commitment by done.
  replace (set_outputs _ cb') with (push_to_output (length (output cb0)) SIGNET_HEADER cb).
  2:{ unfold push_to_output at 1. unfold cb', push_to_output, set_outputs. cbn [version lock_time input]. f_equal.
      rewrite Ho. rewrite <- (Nat.add_0_r (length (output cb0))), alter_app_r, insert_app_r. done. }
  rewrite Er1. cbn [mbind option_bind]. change (signet_txs (set_merkle_root r2 (set_merkle_root r (header b0))) r1 challenge) with (signet_txs (E := NoWitnessCommitment) (set_merkle_root r (header b0)) r1 challenge).
  by rewrite Ht.
Qed.

End Signet.
