(* ===== verification/MineProofs.v ===== *)
(** * Mining a block: proofs

    The mined block has the drivechain messages of the template, so that the
    validator does with it what the template was built for; its value and its
    time are within their bounds. *)

From Stdlib Require Import Strings.Byte Strings.String.
From stdpp Require Import base numbers list gmap relations.
From S2P Require Import Prelude OrderMap Bitcoin Types Messages M6 Dbs BlockHashes Treasury Diff Reversible Handlers HandlerProofs HandlerSpecs ConnectBlock ConnectProofs BlockRules Accept Enforcer Sync BlockFiles BlockFileProofs Facade Policy Producer Mining Mine MiningProofs.
Open Scope Z_scope.

(** ** Blocks with the same messages *)

Section SameMessages.
Context `{BitcoinLaws, !Nom, !NomLaws}.

(** The validator reads the same messages, possibly from other outputs. *)
Definition same_messages (outs1 outs2 : list TxOut) : Prop :=
  (parsed_messages (enumerate outs1)).*1 = (parsed_messages (enumerate outs2)).*1.

Lemma indices_by_message ms1 ms2 :
  ms1.*1 = ms2.*1 ->
  length (m1_vouts ms1) = length (m1_vouts ms2) /\ (m2_slots ms1).*1 = (m2_slots ms2).*1 /\
  length (m3_vouts ms1) = length (m3_vouts ms2) /\ length (m4_vouts ms1) = length (m4_vouts ms2) /\
  (m7_slots ms1).*1 = (m7_slots ms2).*1.
Proof.
  revert ms2. induction ms1 as [|[m v] ms1 IH]; intros [|[m' v'] ms2] E; [done..|]. injection E as <- E.
  destruct (IH ms2 E) as (E1 & E2 & E3 & E4 & E7). destruct m; cbn; split_and!; first [assumption | f_equal; assumption].
Qed.

Lemma new_same_messages outs1 outs2 c1 :
  same_messages outs1 outs2 -> coinbase_messages_new outs1 = Ok c1 ->
  exists c2, coinbase_messages_new outs2 = Ok c2 /\ (messages c1).*1 = (messages c2).*1 /\ m4_exists c1 = m4_exists c2.
Proof.
  intros E [Hwf Hm]%coinbase_messages_new_Ok. pose proof (cm_wf_no_duplicates _ Hwf) as Hnd. unfold same_messages in E. rewrite <- Hm in E.
  destruct (push_all_spec (parsed_messages (enumerate outs2)) _ cm_wf_default) as [Hok _].
  destruct (indices_by_message _ _ E) as (E1 & E2 & E3 & E4 & E7). cbn in Hok. destruct Hok as (c2 & Hc2 & Hm2 & Hwf2).
  { unfold no_duplicates in *. by rewrite <- E1, <- E2, <- E3, <- E4, <- E7. }
  exists c2. split_and!; [unfold coinbase_messages_new; by rewrite foldM_push_output|by rewrite Hm2|].
  unfold m4_exists. apply bool_decide_ext. rewrite <- Hm2, (cm_m4 _ Hwf), (cm_m4 _ Hwf2) in E4.
  destruct (m4_index c1), (m4_index c2); cbn in E4; (done || by rewrite !is_Some_alt).
Qed.

Section Loop.
Context (bh : BlockHandler) (h : Z) (parent : BlockHash) (m1s1 m1s2 : gmap (SidechainNumber * Hash) Z).

Lemma connect_message_same b acc evs1 evs2 m v1 v2 b' acc' evs1' :
  (forall n d, m = CM_M1 (mkM1 n d) -> is_Some (m1s2 !! (n, sha256d d))) ->
  connect_message bh h parent m1s1 (b, acc, evs1) (m, v1) = Ok (b', acc', evs1') ->
  exists evs2', connect_message bh h parent m1s2 (b, acc, evs2) (m, v2) = Ok (b', acc', evs2').
Proof.
  intros Hm. unfold connect_message. cbn [fst]. intros Hc. apply bind_Ok in Hc as ([[ev d] acc1] & Hh & Hc). rewrite Hh. cbn [mbind Res_bind].
  apply bind_Ok in Hc as (new & Hn & Hc). apply bind_Ok in Hc as (b1 & Hb & [= <- <- <-]).
  assert (Hev : exists new2, message_event m1s2 ev = Ok new2).
  { destruct ev as [[sc|e]|]; cbn; [|by eexists..]. destruct m as [[n desc]|[? ?]|[? ?]|m4|[? ?]]; cbn in Hh.
    - unfold handle_m1_propose_sidechain in Hh. destruct (contains_key _ _); [done|]. injection Hh as <- <- <-. cbn.
      destruct (Hm n desc eq_refl) as [k ->]. by eexists.
    - by apply bind_Ok in Hh as (? & _ & [=]).
    - by apply bind_Ok in Hh as (? & _ & [=]).
    - by apply bind_Ok in Hh as (? & _ & [=]).
    - by destruct (om_contains _ _). }
  destruct Hev as [new2 ->]. cbn [mbind Res_bind]. rewrite Hb. by eexists.
Qed.

Lemma message_loop_same ms1 ms2 b acc evs1 evs2 b' acc' evs1' :
  ms1.*1 = ms2.*1 -> (forall n d v, (CM_M1 (mkM1 n d), v) ∈ ms2 -> is_Some (m1s2 !! (n, sha256d d))) ->
  foldM (connect_message bh h parent m1s1) ms1 (b, acc, evs1) = Ok (b', acc', evs1') ->
  exists evs2', foldM (connect_message bh h parent m1s2) ms2 (b, acc, evs2) = Ok (b', acc', evs2').
Proof.
  revert ms2 b acc evs1 evs2. induction ms1 as [|[m v1] ms1 IH]; intros [|[m' v2] ms2] b acc evs1 evs2 E Hm Hf; [|done..|].
  - cbn in *. injection Hf as <- <- <-. by eexists.
  - injection E as <- E. cbn [foldM] in *. apply bind_Ok in Hf as ([[b1 acc1] e1] & Hc & Hf).
    eapply connect_message_same in Hc as [e2 Hc2]; [|intros n d ->; by eapply Hm; left]. rewrite Hc2. cbn [mbind Res_bind].
    eapply IH; [done| |done]. intros n d v Hin. eapply Hm. by right.
Qed.

End Loop.

(** The transactions are handled independently of the events before them. *)
Definition prepend_events (pre : list BlockEvent) (t : TxState) : TxState :=
  mkTxState (ts_builder t) (ts_unconsolidated t) (ts_bmm_request_slots t) (pre ++ ts_events t).

Lemma transactions_frame bh h parent hash accepted s txs pre t :
  foldM (connect_transaction bh h parent hash accepted s) txs (prepend_events pre t)
  = prepend_events pre <$> foldM (connect_transaction bh h parent hash accepted s) txs t.
Proof.
  apply foldM_frame. intros [b u slots evs] tx _. unfold connect_transaction, prepend_events. cbn [ts_builder ts_unconsolidated ts_bmm_request_slots ts_events].
  destruct (map_err _ _) as [[handled u']| |]; [|done..]. cbn [mbind Res_bind].
  destruct (match parse_m8_tx tx with Some _ => _ | None => _ end) as [slots'| |]; [|done..]. cbn [mbind Res_bind].
  destruct handled as [[ev d]|]; [|done]. destruct (map_err PCB_Db _) as [b'| |]; [|done..]. cbn. by rewrite app_assoc.
Qed.

Lemma process_block_same bh s h hash parent cb1 cb2 txs s' bi d u :
  same_messages (output cb1) (output cb2) ->
  process_block bh s h hash parent cb1 txs = Ok (s', bi, d, u) ->
  exists bi', process_block bh s h hash parent cb2 txs = Ok (s', bi', d, u) /\ bi_bmm_commitments bi' = bi_bmm_commitments bi.
Proof.
  intros Hsame. unfold process_block. intros Hp. apply bind_Ok in Hp as ([ms1 m1s1] & Hc & Hp).
  destruct (foldM collect_message (enumerate (output cb1)) _) as [[ms1' m1s1']| |] eqn:Hc1; [|done..]. cbn in Hc. injection Hc as -> ->.
  apply collect_messages in Hc1 as [Hnew1 _]. destruct (new_same_messages _ _ _ Hsame Hnew1) as (ms2 & Hnew2 & Hms & Hm4).
  destruct (collect_total _ _ Hnew2) as (m1s2 & -> & Hcomplete). cbn [map_err mbind Res_bind].
  apply bind_Ok in Hp as ([[b acc] evs1] & Hl & Hp).
  destruct (message_loop_same bh h parent m1s1 m1s2 _ _ _ _ _ [] _ _ _ Hms Hcomplete Hl) as [evs2 ->]. cbn [mbind Res_bind]. rewrite <- Hm4.
  apply bind_Ok in Hp as (b1 & -> & Hp). cbn [mbind Res_bind]. apply bind_Ok in Hp as (s1 & -> & Hp). cbn [mbind Res_bind].
  apply bind_Ok in Hp as (f & -> & Hp). cbn [mbind Res_bind]. apply bind_Ok in Hp as (s2 & -> & Hp). cbn [mbind Res_bind].
  apply bind_Ok in Hp as (ts & Ht & [= <- <- <- <-]).
  set (t0 := mkTxState (diff_builder_new (active_sidechains s2)) unconsolidated_default ∅ []).
  assert (Hs : forall evs, mkTxState (diff_builder_new (active_sidechains s2)) unconsolidated_default ∅ evs = prepend_events evs t0)
    by (intros; unfold prepend_events, t0; cbn; by rewrite app_nil_r).
  rewrite Hs, transactions_frame in Ht |- *. destruct (foldM _ txs t0) as [t| |]; [|done..]. injection Ht as <-. cbn. by eexists.
Qed.

End SameMessages.

(** ** The coinbase *)

Section Coinbase.
Context `{BitcoinLaws, !Nom, !NomLaws, !MiningLib, !MiningLaws}.

Definition message_of (o : TxOut) : option CoinbaseMessage := snd <$> coinbase_message_parse (script_pubkey o).

Lemma parsed_messages_of outs : (parsed_messages (enumerate outs)).*1 = omap message_of outs.
Proof.
  unfold enumerate. generalize 0%nat as k. induction outs as [|o outs IH]; intros k; [done|].
  cbn [length seq zip zip_with]. unfold parsed_messages. cbn [omap list_omap snd fst]. unfold message_of at 1. specialize (IH (S k)). unfold parsed_messages in IH.
  destruct (coinbase_message_parse (script_pubkey o)) as [[r m]|]; cbn; [f_equal|]; exact IH.
Qed.

Lemma messages_filter outs : omap message_of (List.filter is_message outs) = omap message_of outs.
Proof.
  induction outs as [|o outs IH]; [done|]. cbn [List.filter omap list_omap]. unfold is_message at 1, message_of at 2.
  destruct (coinbase_message_parse (script_pubkey o)) as [[r m]|] eqn:E.
  - rewrite bool_decide_eq_true_2 by by eexists. cbn [omap list_omap]. unfold message_of at 1. rewrite E. cbn. by f_equal.
  - rewrite bool_decide_eq_false_2 by (by intros []). done.
Qed.

(** The commitment is no message, with or without a solution. *)
Lemma commitment_no_message root : coinbase_message_parse (commitment_script root) = None.
Proof.
  unfold coinbase_message_parse, commitment_script. fold (commitment_data root).
  rewrite instructions_new_op_return by (apply push_bytes_small; rewrite length_commitment_data; lia). rewrite decide_True by done.
  unfold coinbase_data_parse. rewrite !nom_alt_cons, nom_alt_nil, !nom_tag_eq. unfold commitment_data.
  repeat (rewrite decide_False by (cbn; discriminate)). done.
Qed.

Lemma solved_no_message root d : push_bytes_try_from d = Some d -> coinbase_message_parse (push_slice (commitment_script root) d) = None.
Proof.
  intros Hd. unfold coinbase_message_parse, commitment_script. fold (commitment_data root).
  rewrite instructions_two_pushes; [|apply push_bytes_small; rewrite length_commitment_data; lia|done]. by rewrite decide_True.
Qed.

(** A coinbase with the outputs [outs], a payment before and a commitment after
    them. *)
Definition wraps (outs : list TxOut) (cb : Transaction) : Prop :=
  exists (pay : TxOut) (root : Hash) (s : bytes), output cb = pay :: outs ++ [mkTxOut 0 s] /\ message_of pay = None /\
    (s = commitment_script root \/ exists d, push_bytes_try_from d = Some d /\ s = push_slice (commitment_script root) d).

Lemma wraps_same_messages served cb : wraps (List.filter is_message (output served)) cb -> same_messages (output served) (output cb).
Proof.
  intros (pay & root & s & Ho & Hpay & Hs). unfold same_messages. rewrite !parsed_messages_of, Ho.
  assert (Hc : message_of (mkTxOut 0 s) = None).
  { unfold message_of. cbn [script_pubkey]. destruct Hs as [->|(d & Hd & ->)]; [by rewrite commitment_no_message|by rewrite solved_no_message]. }
  set (outs := List.filter _ _). change (pay :: outs ++ [mkTxOut 0 s]) with ([pay] ++ outs ++ [mkTxOut 0 s]). unfold outs. rewrite !omap_app, messages_filter. cbn [omap list_omap]. rewrite Hpay, Hc. by rewrite app_nil_r.
Qed.

Lemma add_witness_commitment_wraps {E} outs h cb txs pay b :
  output cb = pay :: outs -> message_of pay = None -> add_witness_commitment (mkBlock h (cb :: txs)) = Ok (E := E) b ->
  exists cb' r, b = mkBlock (set_merkle_root r h) (cb' :: txs) /\ wraps outs cb' /\ (exists rest, output cb' = pay :: rest) /\
    calculate_root (compute_txid <$> cb' :: txs) = Some r /\
    exists root, output cb' = output cb ++ [mkTxOut 0 (commitment_script root)].
Proof.
  intros Ho Hpay. unfold add_witness_commitment, with_merkle_root. cbn [txdata head unwrap mbind Res_bind tail header].
  destruct (head (input cb)) as [i|]; [|done]. cbn [unwrap mbind Res_bind]. destruct (witness_root _) as [root|]; [|done]. cbn [unwrap mbind Res_bind].
  set (cb' := set_outputs _ _). destruct (calculate_root _) as [r|] eqn:Er; [|done]. cbn [unwrap mbind Res_bind]. intros [= <-]. exists cb', r.
  assert (Ho' : output cb' = pay :: outs ++ [mkTxOut 0 (commitment_script root)]) by (unfold cb'; cbn [output set_outputs]; by rewrite Ho).
  split_and!; [done| |by eexists|done|by exists root]. exists pay, root, (commitment_script root). split_and!; [done|done|by left].
Qed.

Lemma add_signet_solution_wraps outs h cb txs pay root ss wit b :
  output cb = pay :: outs ++ [mkTxOut 0 (commitment_script root)] -> message_of pay = None ->
  add_signet_solution (mkBlock h (cb :: txs)) ss wit = Ok b ->
  exists cb' r, b = mkBlock (set_merkle_root r h) (cb' :: txs) /\ wraps outs cb' /\ (exists rest, output cb' = pay :: rest) /\
    calculate_root (compute_txid <$> cb' :: txs) = Some r.
Proof.
  intros Ho Hpay. unfold add_signet_solution, witness_commitment_index, with_merkle_root. cbn [txdata head unwrap mbind Res_bind tail header].
  assert (Ho2 : output cb = (pay :: outs) ++ [mkTxOut 0 (commitment_script root)]) by by rewrite Ho.
  rewrite (commitment_index cb (pay :: outs) root []) by (by rewrite app_nil_r). cbn [ok_or mbind Res_bind].
  destruct (push_bytes_try_from _) as [d|] eqn:Ed; [|done]. cbn [unwrap mbind Res_bind]. pose proof (push_bytes_Some _ _ Ed) as ->.
  set (d := SIGNET_HEADER ++ _) in *. set (cb' := push_to_output _ _ _). destruct (calculate_root _) as [r|] eqn:Er; [|done]. cbn [unwrap mbind Res_bind]. intros [= <-].
  exists cb', r. pose proof (push_to_last cb (pay :: outs) 0 (commitment_script root) d Ho2) as Ho'. fold cb' in Ho'.
  split_and!; [done| |by eexists|done]. exists pay, root, (push_slice (commitment_script root) d). split_and!; [done|done|right; by eexists].
Qed.

End Coinbase.

(** ** Runs *)

Section Runs.
Context {W : Type} `{MiningWorld W}.
Implicit Types w : W.

Definition validator_at (w : W) : Validator := bp_validator (producer_of w).

Lemma mine_bind_Ok {A B} (m : MineM A) (f : A -> MineM B) w w' b :
  (m ≫= f) w = (w', Ok b) -> exists w1 a, m w = (w1, Ok a) /\ f a w1 = (w', Ok b).
Proof. unfold mbind, MineM_bind, mbind_. destruct (m w) as [w1 [a| |]]; [|done..]. intros Hf. by exists w1, a. Qed.

Lemma validator_now_Ok w w' v : validator_now w = (w', Ok v) -> w' = other_tasks w /\ v = validator_at (other_tasks w).
Proof. by intros [= <- <-]. Qed.

Lemma mlift_Ok {E A} (conv : E -> MineError) (r : Res E A) w w' a : mlift conv r w = (w', Ok a) -> w' = w /\ r = Ok a.
Proof. unfold mlift. destruct r; cbn; intros [=]; by subst. Qed.

Lemma call_Ok {A} e (f : W -> W * option A) w w' a : call e f w = (w', Ok a) -> f w = (w', Some a).
Proof. unfold call. destruct (f w) as [w1 [x|]]; cbn; intros [=]; by subst. Qed.

End Runs.

(** Takes a successful run apart into the runs of its steps. *)
Ltac run_step :=
  match goal with
  | E : (_ ≫= _) _ = (_, Ok _) |- _ => apply mine_bind_Ok in E as (? & ? & ? & E)
  | E : validator_now _ = (_, Ok _) |- _ => apply validator_now_Ok in E as [-> ->]
  | E : mlift _ _ _ = (_, Ok _) |- _ => apply mlift_Ok in E as [-> E]
  | E : call _ _ _ = (_, Ok _) |- _ => apply call_Ok in E
  | E : mret _ _ = (_, Ok _) |- _ => injection E as <- <-
  end.

Section Generate.
Context {W : Type} `{MiningWorld W, BitcoinLaws, !Nom, !NomLaws, TxCodec, !MiningLib, !MiningLaws}.
Context (push_int : Z -> bytes).
Implicit Types (w : W) (cfg : MinerConfig).

(** The transactions of the template, decoded. *)
Definition decoded (t : BlockTemplate) (l : list (Transaction * Amount)) : Prop :=
  Forall2 (fun tt e => tx_deserialize (tt_data tt) = Some e.1 /\ tt_fee tt = e.2 /\ 0 <= e.2) (bt_transactions t) l.

Lemma template_transactions_Ok ts acc l :
  foldM (fun res t => r ← template_transaction t; Ok (res ++ [r])) ts acc = Ok l ->
  exists l', l = acc ++ l' /\ Forall2 (fun tt e => tx_deserialize (tt_data tt) = Some e.1 /\ tt_fee tt = e.2 /\ 0 <= e.2) ts l'.
Proof.
  revert acc. induction ts as [|t ts IH]; intros acc; cbn [foldM].
  - intros [= <-]. exists []. split; [by rewrite app_nil_r|constructor].
  - intros Hf. apply bind_Ok in Hf as (acc1 & Ht & Hf). apply bind_Ok in Ht as (r & Hr & [= <-]).
    apply IH in Hf as (l' & -> & Hl'). exists (r :: l'). split; [by rewrite <- app_assoc|]. constructor; [|done].
    unfold template_transaction in Hr. destruct (tx_deserialize (tt_data t)) as [tx|]; [|done]. cbn [ok_or mbind Res_bind] in Hr.
    case_bool_decide; [done|]. injection Hr as <-. cbn. split_and!; [done|done|lia].
Qed.

(** What [select_block_txs] returns comes from one template, for the given tip. *)
Lemma select_block_txs_Ok cfg tip w w' outs l th :
  select_block_txs cfg tip w = (w', Ok (outs, l, th)) ->
  exists rules t data served, get_block_template (other_tasks w) rules = (w', Some t) /\ bt_prev_blockhash t = tip /\
    th = mkTemplateHeader (compact_target t) (bt_mintime t) /\ coinbase_txn_or_value t = Txn data /\
    tx_deserialize data = Some served /\ outs = List.filter is_message (output served) /\ decoded t l.
Proof.
  intros Hs. unfold select_block_txs in Hs. do 2 run_step. set (rules := _ ++ _) in Hs. destruct (negb (has_gbt_client cfg)); [done|].
  apply mine_bind_Ok in Hs as (w1 & t & Ht & Hs). exists rules, t.
  assert (Ht' : get_block_template (other_tasks w) rules = (w1, Some t)).
  { unfold fetch_block_template in Ht. destruct (get_block_template _ _) as [w2 [t2|]]; [by injection Ht as <- <-|done]. }
  case_bool_decide as Hp; [done|]. destruct (coinbase_txn_or_value t) as [data|]; [|done]. do 4 run_step.
  destruct (tx_deserialize data) as [served|] eqn:Ed; [|done]. match goal with E : ok_or _ _ = Ok _ |- _ => injection E as -> end.
  match goal with E : foldM _ _ _ = Ok _ |- _ => apply template_transactions_Ok in E as (l' & -> & Hl) end.
  unfold mret, MineM_ret, mret_ in Hs. injection Hs as <- <- <- <-. exists data, x0.
  split_and!; [done|destruct (decide (bt_prev_blockhash t = tip)); [done|by destruct Hp]|done|done|done|done|done].
Qed.

(** A coinbase that pays [amount] and carries the messages [outs]. *)
Definition carries (outs : list TxOut) (amount : Amount) (cb : Transaction) : Prop :=
  wraps outs cb /\ exists pay rest, output cb = pay :: rest /\ value pay = Z.max 0 amount.

Lemma finalize_coinbase_Ok {E} network h spk outs fees cb :
  coinbase_message_parse spk = None -> finalize_coinbase (E := E) push_int network h spk outs fees = Ok cb ->
  exists amount pay, get_block_value (h + 1) fees network = Ok (E := E) amount /\
    output cb = pay :: outs /\ message_of pay = None /\ value pay = Z.max 0 amount.
Proof.
  intros Hspk. unfold finalize_coinbase. case_bool_decide; [|done]. cbn [unwrap mbind Res_bind].
  destruct (get_block_value _ _ _) as [amount| |]; [|done..]. cbn [mbind Res_bind]. intros [= <-]. eexists amount, _. split_and!; [done|reflexivity| |].
  - case_bool_decide; unfold message_of; cbn [script_pubkey]; [by rewrite Hspk|]. unfold coinbase_message_parse. by rewrite instructions_op_return.
  - case_bool_decide; cbn [value]; lia.
Qed.

(** The parent is the tip of the validator at this time, not that of the template. *)
Lemma finalize_block_Ok cfg spk outs txs fees th w w' b :
  coinbase_message_parse spk = None -> finalize_block push_int cfg spk outs txs fees th w = (w', Ok b) ->
  exists tip hi amount r time cb root pay, get_mainchain_tip (validator_at (other_tasks w)) = Ok tip /\
    get_header_info (block_hashes (v_dbs (validator_at (other_tasks (other_tasks w))))) tip = Ok hi /\
    get_block_value (hi_height hi + 1) fees (v_network (validator_at (other_tasks (other_tasks w)))) = Ok (E := MineError) amount /\
    b = mkBlock (mkHeader NO_SOFT_FORK_SIGNALLING tip r time (th_bits th) 0) (cb :: txs) /\ 0 <= time < 2 ^ 32 /\
    calculate_root (compute_txid <$> cb :: txs) = Some r /\ carries outs amount cb /\
    output cb = pay :: outs ++ [mkTxOut 0 (commitment_script root)] /\ message_of pay = None.
Proof.
  intros Hspk Hf. unfold finalize_block in Hf. repeat run_step.
  match goal with E : finalize_coinbase _ _ _ _ _ _ = Ok _ |- _ => apply finalize_coinbase_Ok in E as (amount & pay & Hv & Ho & Hpay & Hval); [|done] end.
  match goal with E : add_witness_commitment _ = Ok _ |- _ =>
    apply (add_witness_commitment_wraps outs _ _ _ pay) in E as (cb' & r & -> & Hw & (rest & Hrest) & Hr & root & Hroot); [|done|done] end.
  rewrite Ho in Hroot. eexists _, _, amount, r, _, cb', root, pay.
  split_and!; [done|done|done|reflexivity|apply Z.mod_pos_bound; lia|apply Z.mod_pos_bound; lia|done|split; [done|by eexists _, _]|done|done].
Qed.

Lemma await_Ok polls hash w w' : await_loop polls hash w = (w', Ok tt) -> exists l, try_get_block_infos (validator_at w') hash 0 = Ok (Some l).
Proof.
  revert w. induction polls as [|polls IH]; intros w Ha; cbn [await_loop] in Ha; apply mine_bind_Ok in Ha as (w1 & v & Hv & Ha);
    apply validator_now_Ok in Hv as [-> ->]; apply mine_bind_Ok in Ha as (w2 & o & Ho & Ha); apply mlift_Ok in Ho as [-> Ho];
    (destruct o as [l|]; [injection Ha as <-; by exists l|]).
  - done.
  - apply mine_bind_Ok in Ha as (w1 & elapsed & _ & Ha). destruct elapsed; [done|]. by apply IH in Ha.
Qed.

(** What is assumed of the world: block hashes have 32 bytes and targets are
    numbers of 32 bits, and the threads are those of [grind]. *)
Record world_ok : Prop := {
  wo_tips w tip : get_mainchain_tip (validator_at w) = Ok tip -> length tip = 32%nat;
  wo_bits w rules w' t : get_block_template w rules = (w', Some t) -> 0 <= compact_target t < 2 ^ 32;
  wo_grind w h w' h' : run_grind w h = (w', Some h') -> exists threads, 1 <= threads <= u32_max /\ grind h threads (Some h') }.

(** A block as it is ground: for the parent [tip], with the coinbase [cb]. *)
Record prepared (tip : BlockHash) (th : TemplateHeader) (outs : list TxOut) (amount : Amount) (txs : list Transaction) (b : Block) : Prop := {
  pr_version : h_version (header b) = NO_SOFT_FORK_SIGNALLING;
  pr_parent : prev_blockhash (header b) = tip;
  pr_bits : bits (header b) = th_bits th;
  pr_nonce : nonce (header b) = 0;
  pr_time : 0 <= time (header b) < 2 ^ 32;
  pr_root : calculate_root (compute_txid <$> txdata b) = Some (merkle_root (header b));
  pr_txs : exists cb, txdata b = cb :: txs /\ carries outs amount cb }.

Lemma prepared_fields tip th outs amount txs b :
  prepared tip th outs amount txs b -> length tip = 32%nat -> 0 <= th_bits th < 2 ^ 32 -> header_fields_ok (header b).
Proof.
  intros [Hv Hp Hb Hn Ht Hr _] Hl Hbits. unfold header_fields_ok. rewrite Hv, Hp, Hb, Hn, Hl, (calculate_root_length _ _ Hr). unfold NO_SOFT_FORK_SIGNALLING. lia.
Qed.

(** Built, and signed on a signet. *)
Lemma prepare_Ok cfg spk outs txs fees th w w1 w' b1 b :
  coinbase_message_parse spk = None -> finalize_block push_int cfg spk outs txs fees th w = (w1, Ok b1) ->
  match signet_challenge cfg with Some challenge => sign_signet_block b1 challenge | None => mret b1 end w1 = (w', Ok b) ->
  exists tip hi amount, get_mainchain_tip (validator_at (other_tasks w)) = Ok tip /\
    get_header_info (block_hashes (v_dbs (validator_at (other_tasks (other_tasks w))))) tip = Ok hi /\
    get_block_value (hi_height hi + 1) fees (v_network (validator_at (other_tasks (other_tasks w)))) = Ok (E := MineError) amount /\
    prepared tip th outs amount txs b.
Proof.
  intros Hspk Hf Hs. apply finalize_block_Ok in Hf as (tip & hi & amount & r & time & cb & root & pay & Htip & Hhi & Hv & -> & Ht & Hr & Hc & Ho & Hpay); [|done].
  exists tip, hi, amount. split_and!; [done|done|done|]. destruct (signet_challenge cfg) as [challenge|].
  - unfold sign_signet_block in Hs. apply mine_bind_Ok in Hs as (w2 & txs' & _ & Hs). apply mine_bind_Ok in Hs as (w3 & [hex complete] & _ & Hs).
    destruct (negb complete); [done|]. repeat run_step.
    apply (add_signet_solution_wraps outs _ _ _ pay root) in Hs as (cb' & r' & -> & Hw & (rest & Hrest) & Hr'); [|done|done].
    split; cbn; [done..|]. exists cb'. split; [done|]. split; [done|]. destruct Hc as (_ & pay' & rest' & E' & Hval). rewrite Ho in E'. injection E' as <- _. by eexists _, _.
  - injection Hs as <- <-. split; cbn; [done..|]. by exists cb.
Qed.

(** The block [b] was mined from the template [t], which arrived in the world [w]. *)
Record mined_from (t : BlockTemplate) (w : W) (b : Block) : Prop := {
  (** proof of work for the template's target *)
  mf_bits : bits (header b) = compact_target t;
  mf_target : is_met_by (header_target (header b)) (block_hash (header b)) = true;
  mf_root : calculate_root (compute_txid <$> txdata b) = Some (merkle_root (header b));
  mf_body : exists data served selected cb pay rest fees amount hi,
    coinbase_txn_or_value t = Txn data /\ tx_deserialize data = Some served /\ decoded t selected /\ txdata b = cb :: selected.*1 /\
    (** the validator's tip, and the value of its next block *)
    get_mainchain_tip (validator_at (other_tasks w)) = Ok (prev_blockhash (header b)) /\
    get_header_info (block_hashes (v_dbs (validator_at (other_tasks (other_tasks w))))) (prev_blockhash (header b)) = Ok hi /\
    foldM (fun a e => amount_add a e.2) selected 0 = Ok (E := MineError) fees /\
    get_block_value (hi_height hi + 1) fees (v_network (validator_at (other_tasks (other_tasks w)))) = Ok (E := MineError) amount /\
    output cb = pay :: rest /\ value pay = Z.max 0 amount /\
    (** the validator handles the block as it does with the served coinbase *)
    forall bh s h hash parent s' d u, (exists bi, process_block bh s h hash parent cb selected.*1 = Ok (s', bi, d, u)) <->
                                      (exists bi, process_block bh s h hash parent served selected.*1 = Ok (s', bi, d, u)) }.

Lemma same_messages_process served cb txs :
  same_messages (output served) (output cb) ->
  forall bh s h hash parent s' d u, (exists bi, process_block bh s h hash parent cb txs = Ok (s', bi, d, u)) <->
                                    (exists bi, process_block bh s h hash parent served txs = Ok (s', bi, d, u)).
Proof.
  intros Hs bh s h hash parent s' d u. split; intros [bi Hp].
  - destruct (process_block_same bh s h hash parent cb served txs s' bi d u) as (bi' & Hp' & _); [by symmetry|done|by exists bi'].
  - destruct (process_block_same bh s h hash parent served cb txs s' bi d u) as (bi' & Hp' & _); [done|done|by exists bi'].
Qed.

(** C37. A block that [generate_block] returns was accepted by the node and
    connected by the validator. It was mined from one template for the tip that
    was read first: it has the template's transactions and target, the proof of
    work, and a coinbase that pays the subsidy and the fees and that the
    validator handles as the one of the template. Its parent is the tip that the
    validator has after the template arrived. *)
Theorem generate_block_spec cfg spk w w' hash :
  world_ok -> coinbase_message_parse spk = None -> generate_block push_int cfg spk w = (w', Ok hash) ->
  exists t w2 w3 w4 b rules, get_block_template (other_tasks (other_tasks w)) rules = (w2, Some t) /\
    current_chain_tip (v_dbs (validator_at (other_tasks w))) = Some (bt_prev_blockhash t) /\
    mined_from t w2 b /\ submit_block w3 b = (w4, Some None) /\ hash = block_hash (header b) /\
    exists l, try_get_block_infos (validator_at w') hash 0 = Ok (Some l).
Proof.
  intros Hw Hspk Hg. unfold generate_block in Hg. apply mine_bind_Ok in Hg as (w0 & v & Hv & Hg). apply validator_now_Ok in Hv as [-> ->].
  unfold try_get_mainchain_tip in Hg. destruct (current_chain_tip _) as [tip0|] eqn:Htip0; [|done].
  apply mine_bind_Ok in Hg as (w2 & [[outs selected] th] & Hs & Hg). apply select_block_txs_Ok in Hs as (rules & t & data & served & Ht & Hprev & -> & Hd & Hser & -> & Hdec).
  apply mine_bind_Ok in Hg as (w2' & fees & Hfees & Hg). apply mlift_Ok in Hfees as [-> Hfees].
  unfold mine in Hg. apply mine_bind_Ok in Hg as (w3 & b1 & Hf & Hg). apply mine_bind_Ok in Hg as (w4 & b & Hsign & Hg).
  destruct (prepare_Ok _ _ _ _ _ _ _ _ _ _ _ Hspk Hf Hsign) as (tip & hi & amount & Htip & Hhi & Hval & Hprep).
  apply mine_bind_Ok in Hg as (w5 & hd & Hgrind & Hg). apply call_Ok in Hgrind. apply mine_bind_Ok in Hg as (w6 & answer & Hsub & Hg). apply call_Ok in Hsub.
  destruct answer as [|]; [done|]. apply mine_bind_Ok in Hg as (w7 & [] & Hawait & Hg). injection Hg as <- <-.
  destruct (wo_grind Hw _ _ _ _ Hgrind) as (threads & Hth & Hgr).
  assert (Hok : header_fields_ok (header b)) by (eapply prepared_fields; [done|by eapply (wo_tips Hw)|cbn; by eapply (wo_bits Hw)]).
  apply (grind_answer _ _ Hok Hth) in Hgr as (n & Hn & -> & Hmet). destruct Hprep as [_ Hpar Hbits _ _ Hroot (cb & Htx & Hwr & pay & rest & Ho & Hpay)].
  exists t, w2, w5, w6, (mkBlock (set_nonce n (header b)) (txdata b)), rules.
  split_and!; [done|by rewrite Hprev| |done|done|by eapply await_Ok].
  split; cbn; [done|done|done|]. exists data, served, selected, cb, pay, rest, fees, amount, hi. rewrite Hpar.
  split_and!; [done..|]. by apply same_messages_process, wraps_same_messages.
Qed.

End Generate.

(** ** Value and time *)

Section Value.
Context (network : Network).

(** The subsidy of the era [q]. *)
Definition subsidy (q : Z) : Z := 50 * ONE_BTC / 2 ^ q.

Lemma interval_pos : 0 < subsidy_halving_interval network.
Proof. by destruct network. Qed.

Lemma get_block_value_subsidy {E} h : 0 <= h -> get_block_value (E := E) h 0 network = Ok (subsidy (h / subsidy_halving_interval network)).
Proof.
  intros Hh. unfold get_block_value, subsidy. pose proof interval_pos. set (q := h / _). assert (Hq : 0 <= q) by (apply Z.div_pos; lia).
  rewrite Z.shiftr_div_pow2 by done. case_bool_decide as H64.
  - rewrite Z.div_small; [done|]. split; [done|]. apply Z.lt_le_trans with (2 ^ 64); [done|]. apply Z.pow_le_mono_r; lia.
  - unfold amount_add. destruct (checked_add_u64 0 _) eqn:Ec; [by apply checked_add_u64_Some in Ec as [_ ->]|].
    exfalso. unfold checked_add_u64 in Ec. case_bool_decide as Hc; [done|]. apply Hc. rewrite Z.add_0_l.
    apply Z.le_trans with (50 * ONE_BTC); [|done]. apply Z.div_le_upper_bound; [apply Z.pow_pos_nonneg; lia|].
    assert (0 < 2 ^ q) by (apply Z.pow_pos_nonneg; lia). rewrite <- (Z.mul_1_l (50 * ONE_BTC)) at 1. apply Z.mul_le_mono_nonneg_r; [done|lia].
Qed.

Lemma subsidy_halves q : 0 <= q -> 2 * subsidy (q + 1) <= subsidy q.
Proof.
  intros Hq. unfold subsidy. rewrite Z.pow_add_r, <- Z.div_div by (try apply Z.pow_nonzero; lia). change (2 ^ 1) with 2. apply Z.mul_div_le. lia.
Qed.

Lemma subsidy_nonneg q : 0 <= q -> 0 <= subsidy q.
Proof. intros Hq. apply Z.div_pos; [done|]. apply Z.pow_pos_nonneg; lia. Qed.

(** The coins of the first [n] blocks, and what the later ones can add: the rest
    of the era and, by halving, at most once more the coins of a whole era. *)
Definition supply_inv (n total : Z) : Prop :=
  let i := subsidy_halving_interval network in
  0 <= total /\ total + (2 * i - n mod i) * subsidy (n / i) <= MAX_MONEY.

Lemma supply_step n total : 0 <= n -> supply_inv n total -> supply_inv (n + 1) (total + subsidy (n / subsidy_halving_interval network)).
Proof.
  intros Hn [Ht Hs]. pose proof interval_pos as Hi. unfold supply_inv. set (i := subsidy_halving_interval network) in *.
  assert (Hq : 0 <= n / i) by (apply Z.div_pos; lia). pose proof (subsidy_nonneg _ Hq). pose proof (Z.mod_pos_bound n i Hi). pose proof (Z.div_mod n i ltac:(lia)) as Hd.
  split; [lia|]. destruct (decide (n mod i + 1 < i)) as [Hlt|Hge].
  - assert (E1 : (n + 1) / i = n / i) by (symmetry; apply Z.div_unique with (r := n mod i + 1); lia).
    assert (E2 : (n + 1) mod i = n mod i + 1) by (symmetry; apply Z.mod_unique with (q := n / i); lia). rewrite E1, E2. lia.
  - assert (E1 : (n + 1) / i = n / i + 1) by (symmetry; apply Z.div_unique with (r := 0); lia).
    assert (E2 : (n + 1) mod i = 0) by (symmetry; apply Z.mod_unique with (q := n / i + 1); lia). rewrite E1, E2.
    pose proof (subsidy_halves _ Hq). replace (n mod i) with (i - 1) in Hs by lia. nia.
Qed.

Lemma supply_total n total : 0 <= n -> supply_inv n total -> total <= MAX_MONEY.
Proof.
  intros Hn [_ Hs]. pose proof interval_pos as Hi. pose proof (Z.mod_pos_bound n _ Hi). pose proof (subsidy_nonneg (n / subsidy_halving_interval network)).
  assert (0 <= n / subsidy_halving_interval network) by (apply Z.div_pos; lia). nia.
Qed.

(** Never more than 21 million coins are mined: over any number of blocks
    without fees, the values of the blocks are computed without an overflow and
    their sum is at most the maximal amount of money. *)
Theorem supply_bounded (n : nat) :
  exists total, foldM (fun a h => v ← get_block_value h 0 network; amount_add a v) (seqZ 0 (Z.of_nat n)) 0 = Ok (E := MineError) total /\
    0 <= total <= MAX_MONEY.
Proof.
  assert (Hgen : exists total, foldM (fun a h => v ← get_block_value h 0 network; amount_add a v) (seqZ 0 (Z.of_nat n)) 0 = Ok (E := MineError) total /\
    supply_inv (Z.of_nat n) total).
  { induction n as [|n (total & Hf & Hinv)].
    - exists 0. split; [done|]. unfold supply_inv. destruct network; vm_compute; split; congruence.
    - rewrite Nat2Z.inj_succ, <- Z.add_1_r, seqZ_app, foldM_app, Hf by lia. cbn [mbind Res_bind]. rewrite Z.add_0_l.
      replace (seqZ (Z.of_nat n) 1) with [Z.of_nat n] by (unfold seqZ; cbn; f_equal; lia).
      cbn [foldM]. rewrite get_block_value_subsidy by lia. cbn [mbind Res_bind].
      pose proof (supply_step (Z.of_nat n) total ltac:(lia) Hinv) as Hinv'. eexists. split; [|exact Hinv'].
      unfold amount_add. destruct (checked_add_u64 _ _) eqn:Ec; [by apply checked_add_u64_Some in Ec as [_ ->]|]. exfalso.
      unfold checked_add_u64 in Ec. case_bool_decide as Hc; [done|]. apply Hc, Z.le_trans with MAX_MONEY; [apply (supply_total (Z.of_nat n + 1)); [lia|exact Hinv']|done]. }
  destruct Hgen as (total & Hf & Hinv). exists total. split; [done|]. split; [apply Hinv|apply (supply_total (Z.of_nat n)); [lia|done]].
Qed.

End Value.

(** The time of a mined block is after its parent's and not before the
    template's minimum, and not after the clock unless one of these demands it;
    on a signet that is behind its schedule it is the middle between the time
    that is due and now. *)
Theorem block_time_bounds cfg now tip_time template :
  0 <= tip_time -> 0 <= now -> 0 <= mintime template -> Z.max (Z.max now (tip_time + 1)) (mintime template) < 2 ^ 32 ->
  let t := block_time cfg now tip_time template in
  tip_time < t /\ mintime template <= t <= Z.max (Z.max now (tip_time + 1)) (mintime template) /\
  forall challenge, signet_challenge cfg = Some challenge -> tip_time + target_block_interval challenge < now ->
    t = Z.max (tip_time + (now - tip_time + target_block_interval challenge) / 2) (mintime template).
Proof.
  intros Htip Hnow Hmin Hmax t. unfold t, block_time.
  assert (Hi : forall c, 0 < target_block_interval c) by (intros c; unfold target_block_interval; by case_decide).
  destruct (signet_challenge cfg) as [challenge|].
  - specialize (Hi challenge). unfold signet_block_time, saturating_sub, midpoint. set (i := target_block_interval challenge) in *.
    case_bool_decide as Hb.
    + rewrite Z.max_r in Hb by lia. rewrite (Z.max_r 0 (now - tip_time)) by lia.
      pose proof (Z.div_mod (now - tip_time + i) 2 ltac:(lia)). pose proof (Z.mod_pos_bound (now - tip_time + i) 2 ltac:(lia)).
      rewrite Z.mod_small by lia. split_and!; [lia|lia|lia|]. intros c [= <-] _. done.
    + rewrite Z.mod_small by lia. split_and!; [lia|lia|lia|]. intros c [= <-] Hc. fold i in Hc. lia.
  - rewrite Z.mod_small by lia. split_and!; [lia|lia|lia|done].
Qed.

(** *** The signet of LayerTwo Labs *)

Definition hex_digit (b : byte) : option Z :=
  let z := u8_val b in
  if decide (48 <= z <= 57) then Some (z - 48) else if decide (97 <= z <= 102) then Some (z - 87) else None.

Fixpoint unhex (s : bytes) : option bytes :=
  match s with
  | [] => Some []
  | a :: b :: s => x ← hex_digit a; y ← hex_digit b; r ← unhex s; Some (to_u8 (16 * x + y) :: r)
  | _ => None
  end.

(** The short block interval of the LayerTwo Labs signet is never used: the
    challenge's script, of which the constant is the hexadecimal form, is
    compared with the characters of this form, so its interval is the default. *)
Theorem l2l_interval_unused :
  exists script, unhex L2L_SIGNET_CHALLENGE = Some script /\ take 2 script = [x00; x14] /\ length script = 22%nat /\
    target_block_interval script = DEFAULT_TARGET_INTERVAL.
Proof. eexists. split; [vm_compute; reflexivity|]. by vm_compute. Qed.
