(* ===== verification/SeedStore.v ===== *)
(** * The wallet's seed

    [lib/wallet/seed_store.rs], [lib/wallet/mnemonic.rs] and the operations of
    [lib/wallet/mod.rs] that create and unlock a wallet. The code is a program
    over system calls ([Prog]); [exec] runs a call on a model of the data
    directory that tells what is visible from what a power loss may leave, and of
    the legacy table in [db.sqlite]. Every call may fail. Several processes run
    interleaved, may be killed at any call, and the machine may lose power. *)

From Stdlib Require Import Strings.Byte Strings.String.
From stdpp Require Import base numbers list gmap strings pretty relations.
From S2P Require Import Prelude OrderMap Bitcoin.
Open Scope Z_scope.

(** ** The data *)

Record KdfParams := mkKdfParams { memory_kib : Z; iterations : Z; parallelism : Z }.
Definition LEGACY : KdfParams := mkKdfParams (19 * 1024) 2 1.
Definition CURRENT : KdfParams := mkKdfParams (64 * 1024) 3 1.

Record EncryptedMnemonic := mkEncryptedMnemonic {
  initialization_vector : bytes; ciphertext_mnemonic : bytes; key_salt : bytes; kdf : KdfParams }.

(** The parameters as stored have the same fields. *)
Definition StoredKdfParams : Type := KdfParams.

Inductive StoredSeed :=
| Plaintext (mnemonic : bytes)
| Encrypted (initialization_vector ciphertext_mnemonic key_salt : bytes) (kdf : option StoredKdfParams).

#[global] Instance KdfParams_eq_dec : EqDecision KdfParams.
Proof. solve_decision. Defined.
#[global] Instance StoredSeed_eq_dec : EqDecision StoredSeed.
Proof. solve_decision. Defined.

Record SeedFile := mkSeedFile { sf_version : Z; created_at : Z; birthday_height : option Z; seed : StoredSeed }.

#[global] Instance SeedFile_eq_dec : EqDecision SeedFile.
Proof. solve_decision. Defined.

Definition SEED_FILE_NAME : string := "seed.json".
Definition CURRENT_VERSION : Z := 1.

(** A row of the legacy table. *)
Record LegacyRow := mkLegacyRow {
  row_id : Z; row_plaintext : option bytes; row_iv : option bytes; row_ciphertext : option bytes; row_salt : option bytes;
  creation_time : option Z }.

(** What this part takes from bip39, argon2, aes-gcm and serde_json. *)
Class SeedLib := {
  Mnemonic : Type;
  (** [Display], [Mnemonic::parse] (also [from_str]) and [parse_in_normalized] in English *)
  mnemonic_to_string : Mnemonic -> bytes;
  mnemonic_parse : bytes -> option Mnemonic;
  parse_in_normalized : bytes -> option Mnemonic;
  (** [Params::new] and [hash_password_into]; [None] if one of them fails *)
  argon2id : KdfParams -> bytes -> bytes -> option bytes;
  (** AES-256-GCM with a key and a nonce *)
  aes_encrypt : bytes -> bytes -> bytes -> option bytes;
  aes_decrypt : bytes -> bytes -> bytes -> option bytes;
  (** [String::from_utf8] *)
  from_utf8 : bytes -> option bytes;
  (** [serde_json::to_vec_pretty] and [from_slice] *)
  to_vec_pretty : SeedFile -> bytes;
  from_slice : bytes -> option SeedFile }.

(** ** The file system *)

Definition Inode : Type := N.

(** A file. [synced]: its contents are on disk. [creator]: the process that
    created it. *)
Record FileData := mkFileData { data : bytes; synced : bool; creator : nat }.

(** The data directory: [dir] is what processes see; [dir_durable] is on disk, and
    of the changes in [dir_pending] any may be. [drawn] has the temporary names
    and who drew them. [table] is the legacy table if there is one; [table_past]
    has the states that a power loss may bring back. *)
Record World := mkWorld {
  dir : gmap string Inode; dir_durable : gmap string Inode; dir_pending : list (string * option Inode);
  inodes : gmap Inode FileData; next_inode : Inode; drawn : gmap string nat;
  db_file : bool; table : option (list LegacyRow); table_past : list (option (list LegacyRow)) }.

Definition set_dir (p : string) (v : option Inode) (w : World) : World :=
  mkWorld (partial_alter (fun _ => v) p (dir w)) (dir_durable w) ((p, v) :: dir_pending w) (inodes w) (next_inode w) (drawn w)
          (db_file w) (table w) (table_past w).
Definition set_inode (n : Inode) (f : FileData) (w : World) : World :=
  mkWorld (dir w) (dir_durable w) (dir_pending w) (<[n := f]> (inodes w)) (N.max (next_inode w) (n + 1)) (drawn w)
          (db_file w) (table w) (table_past w).
Definition set_drawn (p : string) (i : nat) (w : World) : World :=
  mkWorld (dir w) (dir_durable w) (dir_pending w) (inodes w) (next_inode w) (<[p := i]> (drawn w)) (db_file w) (table w) (table_past w).
Definition sync_dir (w : World) : World :=
  mkWorld (dir w) (dir w) [] (inodes w) (next_inode w) (drawn w) (db_file w) (table w) (table_past w).
Definition set_db (b : bool) (t : option (list LegacyRow)) (w : World) : World :=
  mkWorld (dir w) (dir_durable w) (dir_pending w) (inodes w) (next_inode w) (drawn w) b t (table w :: table_past w).

(** What a name may stand for after a power loss. *)
Definition possible (w : World) (p : string) (v : option Inode) : Prop :=
  v = dir w !! p \/ v = dir_durable w !! p \/ (p, v) ∈ dir_pending w.

Inductive IoError := NotFound | AlreadyExists | OtherIo.
Inductive SqlError := mkSqlError.

(** ** System calls *)

Section SeedStore.
Context `{SeedLib}.

Inductive Sys : Type -> Type :=
| Read (p : string) : Sys (Res IoError bytes)
| Exists (p : string) : Sys bool
| RemoveFile (p : string) : Sys (Res IoError unit)
| CreateNew (p : string) : Sys (Res IoError Inode)
| WriteAll (file : Inode) (contents : bytes) : Sys (Res IoError unit)
| SyncAll (file : Inode) : Sys (Res IoError unit)
| HardLink (original link : string) : Sys (Res IoError unit)
| OpenDir : Sys (Res IoError unit)
| SyncDir : Sys (Res IoError unit)
| PidNonce : Sys (Z * bytes)
| Now : Sys Z
| DbExists : Sys bool
| DbOpen : Sys (Res SqlError unit)
| DbHasTable : Sys (Res SqlError bool)
| DbCount : Sys (Res SqlError Z)
| DbFirst : Sys (Res SqlError (option LegacyRow))
| DbCreationTime (id : Z) : Sys (option Z)
| DbDelete (id : Z) : Sys (Res SqlError Z)
| DbCreate : Sys (Res SqlError unit)
| DbDropIfEmpty : Sys (Res SqlError unit)
| Rng (len : nat) : Sys (option bytes)
| Generate : Sys (option Mnemonic)
| ChainHeight : Sys (option Z)
| InitWallet (m : Mnemonic) : Sys bool.

(** What the environment decides about a call. *)
Record Choice := mkChoice {
  fault : bool; late : bool; junk : bytes; os_pid : Z; random : bytes; clock : Z; generated : Mnemonic; height : Z }.

(** [hex::encode] *)
Definition hex_char (n : Z) : string := substring (Z.to_nat n) 1 "0123456789abcdef".
Definition hex_encode (b : bytes) : string :=
  String.concat "" ((fun x => hex_char (u8_val x / 16) +:+ hex_char (u8_val x mod 16)) <$> b).

(** [path.with_extension(format!("json.{pid}.{nonce}.tmp"))] *)
Definition tmp_path (pid : Z) (nonce : bytes) : string :=
  SEED_FILE_NAME +:+ "." +:+ pretty pid +:+ "." +:+ hex_encode nonce +:+ ".tmp".

(** Nonces do not collide, and random bytes are as many as asked for. *)
Definition choice_ok {X} (o : Choice) (c : Sys X) (w : World) : Prop :=
  match c with
  | PidNonce => drawn w !! tmp_path (os_pid o) (random o) = None
  | Rng len => List.length (random o) = len
  | _ => True
  end.

Definition row_at (w : World) (id : Z) : option LegacyRow :=
  match table w with Some rows => find (fun r => bool_decide (row_id r = id)) rows | None => None end.

(** The row with the least id. *)
Definition first_row (rows : list LegacyRow) : option LegacyRow :=
  foldr (fun r m => match m with Some m => Some (if bool_decide (row_id r <= row_id m) then r else m) | None => Some r end) None rows.

(** [db_syncs_dir]: the commit of a change to [db.sqlite] syncs its directory,
    as that of SQLite with a rollback journal does. *)
Context (db_syncs_dir : bool).

Definition db_commit (t : option (list LegacyRow)) (w : World) : World :=
  set_db true t (if db_syncs_dir then sync_dir w else w).

(** A commit that fails may have taken effect ([late]). *)
Definition db_write {A} (o : Choice) (t : option (list LegacyRow)) (a : A) (w : World) : Res SqlError A * World :=
  if fault o then (Err mkSqlError, if late o then db_commit t w else w) else (Ok a, db_commit t w).

Definition exec {X} (i : nat) (o : Choice) (c : Sys X) (w : World) : X * World :=
  match c in Sys X return X * World with
  | Read p =>
      (if fault o then Err OtherIo else
       match dir w !! p with
       | Some n => match inodes w !! n with Some f => Ok (data f) | None => Err OtherIo end
       | None => Err NotFound
       end, w)
  | Exists p => (negb (fault o) && bool_decide (is_Some (dir w !! p)), w)
  | RemoveFile p =>
      if fault o then (Err OtherIo, w) else
      match dir w !! p with Some _ => (Ok tt, set_dir p None w) | None => (Err NotFound, w) end
  | CreateNew p =>
      if fault o then (Err OtherIo, w) else
      match dir w !! p with
      | Some _ => (Err AlreadyExists, w)
      | None => (Ok (next_inode w), set_dir p (Some (next_inode w)) (set_inode (next_inode w) (mkFileData [] false i) w))
      end
  | WriteAll n contents =>
      match inodes w !! n with
      | Some f => if fault o then (Err OtherIo, set_inode n (mkFileData (junk o) false (creator f)) w)
                  else (Ok tt, set_inode n (mkFileData (data f ++ contents) false (creator f)) w)
      | None => (Err OtherIo, w)
      end
  | SyncAll n =>
      if fault o then (Err OtherIo, w) else
      match inodes w !! n with
      | Some f => (Ok tt, set_inode n (mkFileData (data f) true (creator f)) w)
      | None => (Err OtherIo, w)
      end
  | HardLink p q =>
      if fault o then (Err OtherIo, w) else
      match dir w !! p, dir w !! q with
      | None, _ => (Err NotFound, w)
      | Some _, Some _ => (Err AlreadyExists, w)
      | Some n, None => (Ok tt, set_dir q (Some n) w)
      end
  | OpenDir => (if fault o then Err OtherIo else Ok tt, w)
  | SyncDir => if fault o then (Err OtherIo, w) else (Ok tt, sync_dir w)
  | PidNonce => ((os_pid o, random o), set_drawn (tmp_path (os_pid o) (random o)) i w)
  | Now => (clock o, w)
  | DbExists => (negb (fault o) && db_file w, w)
  | DbOpen => (if fault o || negb (db_file w) then Err mkSqlError else Ok tt, w)
  | DbHasTable => (if fault o then Err mkSqlError else Ok (bool_decide (is_Some (table w))), w)
  | DbCount =>
      (match table w with Some rows => if fault o then Err mkSqlError else Ok (Z.of_nat (List.length rows)) | None => Err mkSqlError end, w)
  | DbFirst =>
      (match table w with Some rows => if fault o then Err mkSqlError else Ok (first_row rows) | None => Err mkSqlError end, w)
  | DbCreationTime id => (if fault o then None else r ← row_at w id; creation_time r, w)
  | DbDelete id =>
      match table w with
      | Some rows => let kept := filter (fun r => row_id r <> id) rows in
                     db_write o (Some kept) (Z.of_nat (List.length rows - List.length kept)) w
      | None => (Err mkSqlError, w)
      end
  | DbCreate => if db_file w then (if fault o then Err mkSqlError else Ok tt, w) else db_write o (Some []) tt w
  | DbDropIfEmpty => match table w with Some [] => db_write o None tt w | _ => (if fault o then Err mkSqlError else Ok tt, w) end
  | Rng _ => (if fault o then None else Some (random o), w)
  | Generate => (if fault o then None else Some (generated o), w)
  | ChainHeight => (if fault o then None else Some (height o), w)
  | InitWallet _ => (negb (fault o), w)
  end.

(** ** Programs *)

Inductive Prog (A : Type) : Type :=
| Ret (a : A)
| Call (X : Type) (c : Sys X) (k : X -> Prog A).
Arguments Ret {_} _.
Arguments Call {_ _} _ _.

Fixpoint pbind {A B} (p : Prog A) (f : A -> Prog B) : Prog B :=
  match p with Ret a => f a | Call c k => Call c (fun x => pbind (k x) f) end.

Definition call {X} (c : Sys X) : Prog X := Call c Ret.

(** [?] *)
Definition try_ {E F A B} (conv : E -> F) (p : Prog (Res E A)) (f : A -> Prog (Res F B)) : Prog (Res F B) :=
  pbind p (fun r => match r with Ok a => f a | Err e => Ret (Err (conv e)) | Panic => Ret Panic end).

(** Runs a program alone, with the environment's choices; [None] if they run out. *)
Fixpoint run {A} (i : nat) (os : list Choice) (p : Prog A) (w : World) : option (A * World) :=
  match p with
  | Ret a => Some (a, w)
  | Call c k => match os with o :: os => let r := exec i o c w in run i os (k r.1) r.2 | [] => None end
  end.

(** The same with one choice for all calls. *)
Fixpoint run_with {A} (i : nat) (o : Choice) (p : Prog A) (w : World) : A * World :=
  match p with Ret a => (a, w) | Call c k => let r := exec i o c w in run_with i o (k r.1) r.2 end.

End SeedStore.

Arguments Ret {_ _} _.
Arguments Call {_ _ _} _ _.

Declare Scope prog_scope.
Delimit Scope prog_scope with prog.
Notation "x <- p ;; q" := (pbind p (fun x => q)) (at level 100, p at next level, right associativity) : prog_scope.
Notation "x <-? p 'as' e ;; q" := (try_ e p (fun x => q)) (at level 100, p at next level, e at level 9, right associativity) : prog_scope.

(** ** Reading and writing the seed file *)

Inductive ReadSeed := RS_Io (e : IoError) | RS_Json | RS_ParseMnemonic.
Inductive InsertSeed := IS_AlreadyExists | IS_Io (e : IoError).
Inductive InitSeedStore :=
| AmbiguousLegacySeed (rows : Z)
| InvalidLegacySeed (plaintext_is_some iv_is_some ciphertext_is_some key_salt_is_some : bool)
| LegacySeedMismatch
| ISS_Io (e : IoError)
| ISS_ParseMnemonic
| ReadSeedFile (e : ReadSeed)
| Rusqlite
| VerifySeedFile.

Section Operations.
Context `{SeedLib}.
Open Scope prog_scope.

Definition read_seed_file : Prog (Res ReadSeed (option SeedFile)) :=
  r <- call (Read SEED_FILE_NAME);;
  match r with
  | Ok contents => Ret (ok_or RS_Json (Some <$> from_slice contents))
  | Err NotFound => Ret (Ok None)
  | Err e => Ret (Err (RS_Io e))
  | Panic => Ret Panic
  end.

(** Unlinks a leftover, then creates, writes and syncs the temporary file. *)
Definition write_tmp_file (tmp_path : string) (contents : bytes) : Prog (Res IoError unit) :=
  removed <- call (RemoveFile tmp_path);;
  _ <-? Ret (match removed with Err NotFound => Ok tt | r => r end) as id;;
  opened <- call (CreateNew tmp_path);;
  file <-? Ret (match opened with Err AlreadyExists => Err OtherIo | r => r end) as id;;
  _ <-? call (WriteAll file contents) as id;;
  call (SyncAll file).

(** Links the temporary file as the seed file, unlinks it and syncs the directory. *)
Definition publish_seed_file (tmp_path : string) : Prog (Res IoError unit) :=
  published <- call (HardLink tmp_path SEED_FILE_NAME);;
  _ <- call (RemoveFile tmp_path);;
  _ <-? Ret published as id;;
  _ <-? call OpenDir as id;;
  call SyncDir.

Definition write_seed_file (seed_file : SeedFile) : Prog (Res IoError unit) :=
  let contents := to_vec_pretty seed_file in
  pid_nonce <- call PidNonce;;
  let tmp_path := tmp_path pid_nonce.1 pid_nonce.2 in
  _ <-? write_tmp_file tmp_path contents as id;;
  publish_seed_file tmp_path.

(** [SeedStore::read_mnemonic] *)
Definition read_mnemonic : Prog (Res ReadSeed (option (Mnemonic + EncryptedMnemonic))) :=
  f <-? read_seed_file as id;;
  match f with
  | None => Ret (Ok None)
  | Some f =>
      match seed f with
      | Plaintext mnemonic => Ret (ok_or RS_ParseMnemonic (Some ∘ inl <$> parse_in_normalized mnemonic))
      | Encrypted iv ciphertext salt kdf =>
          Ret (Ok (Some (inr (mkEncryptedMnemonic iv ciphertext salt (default LEGACY kdf)))))
      end
  end.

(** [SeedStore::read_birthday_height] *)
Definition read_birthday_height : Prog (Res ReadSeed (option Z)) :=
  f <-? read_seed_file as id;;
  Ret (Ok (f ≫= birthday_height)).

(** The seed of an insertion as it is stored. *)
Definition Seed : Type := Mnemonic + EncryptedMnemonic.
Definition stored_seed (s : Seed) : StoredSeed :=
  match s with
  | inl mnemonic => Plaintext (mnemonic_to_string mnemonic)
  | inr e => Encrypted (initialization_vector e) (ciphertext_mnemonic e) (key_salt e) (Some (kdf e))
  end.

Definition insert_error (e : IoError) : InsertSeed := match e with AlreadyExists => IS_AlreadyExists | e => IS_Io e end.

(** [SeedStore::insert_seed]. The lock that serialises the calls of one process
    is left out: they may interleave as those of different processes. *)
Definition insert_seed (s : Seed) (birthday_height : option Z) : Prog (Res InsertSeed unit) :=
  there <- call (Exists SEED_FILE_NAME);;
  if (there : bool) then Ret (Err IS_AlreadyExists) else
  now <- call Now;;
  _ <-? write_seed_file (mkSeedFile CURRENT_VERSION now birthday_height (stored_seed s)) as insert_error;;
  Ret (Ok tt).

(** ** The migration of a legacy seed *)

(** The seed of a row; [None] unless it has a mnemonic or the three parts of an
    encrypted one. *)
Definition row_seed (r : LegacyRow) : option StoredSeed :=
  match row_plaintext r, row_iv r, row_ciphertext r, row_salt r with
  | Some mnemonic, None, None, None => Some (Plaintext mnemonic)
  | None, Some iv, Some ciphertext, Some salt => Some (Encrypted iv ciphertext salt None)
  | _, _, _, _ => None
  end.

Definition invalid_legacy_seed (r : LegacyRow) : InitSeedStore :=
  InvalidLegacySeed (bool_decide (is_Some (row_plaintext r))) (bool_decide (is_Some (row_iv r)))
    (bool_decide (is_Some (row_ciphertext r))) (bool_decide (is_Some (row_salt r))).

Definition sqlite (e : SqlError) : InitSeedStore := Rusqlite.

Definition read_legacy_seed : Prog (Res InitSeedStore (option (Z * StoredSeed))) :=
  has_table <-? call DbHasTable as sqlite;;
  if negb has_table then Ret (Ok None) else
  rows <-? call DbCount as sqlite;;
  if bool_decide (1 < rows) then Ret (Err (AmbiguousLegacySeed rows)) else
  row <-? call DbFirst as sqlite;;
  match row with
  | None => Ret (Ok None)
  | Some r => match row_seed r with
              | Some s => Ret (Ok (Some (row_id r, s)))
              | None => Ret (Err (invalid_legacy_seed r))
              end
  end.

(** A plaintext seed has to parse. *)
Definition check_parses (s : StoredSeed) : bool :=
  match s with Plaintext mnemonic => bool_decide (is_Some (parse_in_normalized mnemonic)) | Encrypted _ _ _ _ => true end.

(** The seed file for a legacy seed, from the row's time if it has one. *)
Definition migrated_file (secs : option Z) (now : Z) (s : StoredSeed) : SeedFile :=
  mkSeedFile CURRENT_VERSION (match secs with Some z => if bool_decide (0 <= z) then z else now | None => now end) None s.

Definition copy_legacy_seed (id : Z) (s : StoredSeed) : Prog (Res InitSeedStore unit) :=
  if negb (check_parses s) then Ret (Err ISS_ParseMnemonic) else
  secs <- call (DbCreationTime id);;
  now <- call Now;;
  let seed_file := migrated_file secs now s in
  _ <-? write_seed_file seed_file as ISS_Io;;
  written <-? read_seed_file as ReadSeedFile;;
  if decide (written = Some seed_file) then Ret (Ok tt) else Ret (Err VerifySeedFile).

Definition migrate_legacy_seed : Prog (Res InitSeedStore unit) :=
  there <- call DbExists;;
  if negb (there : bool) then Ret (Ok tt) else
  _ <-? call DbOpen as sqlite;;
  legacy <-? read_legacy_seed as Datatypes.id;;
  match legacy with
  | None => Ret (Ok tt)
  | Some (legacy_id, legacy_seed) =>
      existing <-? read_seed_file as ReadSeedFile;;
      _ <-? (match existing with
             | Some existing => Ret (if decide (seed existing = legacy_seed) then Ok tt else Err LegacySeedMismatch)
             | None => copy_legacy_seed legacy_id legacy_seed
             end) as Datatypes.id;;
      _ <-? call (DbDelete legacy_id) as sqlite;;
      Ret (Ok tt)
  end.

(** [SeedStore::new] *)
Definition seed_store_new : Prog (Res InitSeedStore unit) := migrate_legacy_seed.

(** The block producer's use of the legacy table when it opens [db.sqlite]: a new
    file gets an empty one, and an empty one is dropped. *)
Definition open_producer_db : Prog (Res SqlError unit) :=
  _ <-? call DbCreate as Datatypes.id;;
  call DbDropIfEmpty.

(** ** Encryption *)

Inductive EncryptError := EE_Encrypt | EE_SysRng | EE_StretchPassword.
Inductive DecryptError := DE_Decrypt | DE_ParseMnemonic | DE_StretchPassword | DE_Utf8.

Definition stretch_password {E} (e : E) (password key_salt : bytes) (k : KdfParams) : Res E bytes := ok_or e (argon2id k password key_salt).

Definition encrypt (mnemonic : Mnemonic) (password : bytes) (k : KdfParams) : Prog (Res EncryptError EncryptedMnemonic) :=
  salt <- call (Rng 16);;
  key_salt <-? Ret (ok_or EE_SysRng salt) as id;;
  key <-? Ret (stretch_password EE_StretchPassword password key_salt k) as id;;
  nonce <- call (Rng 12);;
  nonce <-? Ret (unwrap nonce) as id;;
  ciphered <-? Ret (ok_or EE_Encrypt (aes_encrypt key nonce (mnemonic_to_string mnemonic))) as id;;
  Ret (Ok (mkEncryptedMnemonic nonce ciphered key_salt k)).

Definition decrypt (e : EncryptedMnemonic) (password : bytes) : Res DecryptError Mnemonic :=
  _ ← assert_or_panic (bool_decide (List.length (initialization_vector e) = 12%nat));
  key ← stretch_password DE_StretchPassword password (key_salt e) (kdf e);
  plaintext ← ok_or DE_Decrypt (aes_decrypt key (initialization_vector e) (ciphertext_mnemonic e));
  raw ← ok_or DE_Utf8 (from_utf8 plaintext);
  ok_or DE_ParseMnemonic (mnemonic_parse raw).

(** ** Creating and unlocking a wallet *)

Inductive WalletInitialization := WI_AlreadyExists | AlreadyUnlocked | WI_NotFound | InvalidPassword.
Inductive CreateNewWallet :=
| CNW_EncryptMnemonic (e : EncryptError)
| FetchBirthdayHeight
| GenerateMnemonic
| InitFromMnemonic
| CNW_InsertSeed (e : InsertSeed)
| CNW_WalletInitialization (e : WalletInitialization).
Inductive UnlockExistingWallet :=
| UEW_InitFromMnemonic
| NotEncrypted
| UEW_ReadSeed (e : ReadSeed)
| UEW_WalletInitialization (e : WalletInitialization).

Definition new_mnemonic : Prog (Res CreateNewWallet Mnemonic) :=
  m <- call Generate;;
  Ret (ok_or GenerateMnemonic (m ≫= mnemonic_parse ∘ mnemonic_to_string)).

(** [From<InsertSeed> for CreateNewWallet] *)
Definition from_insert_seed (e : InsertSeed) : CreateNewWallet :=
  match e with IS_AlreadyExists => CNW_WalletInitialization WI_AlreadyExists | e => CNW_InsertSeed e end.

(** The mnemonic, and whether it was generated. *)
Definition choose_mnemonic (mnemonic : option Mnemonic) : Prog (Res CreateNewWallet (Mnemonic * bool)) :=
  match mnemonic with
  | Some m => Ret (Ok (m, false))
  | None => m <-? new_mnemonic as id;; Ret (Ok (m, true))
  end.

Definition fetch_birthday_height (generated : bool) : Prog (Res CreateNewWallet (option Z)) :=
  if generated then h <- call ChainHeight;; Ret (ok_or FetchBirthdayHeight (Some <$> h)) else Ret (Ok None).

Definition persist_mnemonic (mnemonic : Mnemonic) (password : option bytes) (birthday_height : option Z) : Prog (Res CreateNewWallet unit) :=
  match password with
  | Some password =>
      encrypted <-? encrypt mnemonic password CURRENT as CNW_EncryptMnemonic;;
      _ <-? insert_seed (inr encrypted) birthday_height as from_insert_seed;;
      Ret (Ok tt)
  | None =>
      _ <-? insert_seed (inl mnemonic) birthday_height as from_insert_seed;;
      Ret (Ok tt)
  end.

Definition create_new_wallet (mnemonic : option Mnemonic) (password : option bytes) : Prog (Res CreateNewWallet unit) :=
  chosen <-? choose_mnemonic mnemonic as id;;
  birthday_height <-? fetch_birthday_height chosen.2 as id;;
  _ <-? persist_mnemonic chosen.1 password birthday_height as id;;
  initialised <- call (InitWallet chosen.1);;
  Ret (if initialised : bool then Ok tt else Err InitFromMnemonic).

(** [unlocked]: the wallet is open already. The mnemonic is that of the wallet
    that is now open. *)
Definition unlock_existing_wallet (unlocked : bool) (password : bytes) : Prog (Res UnlockExistingWallet Mnemonic) :=
  if unlocked then Ret (Err (UEW_WalletInitialization AlreadyUnlocked)) else
  read <-? read_mnemonic as UEW_ReadSeed;;
  match read with
  | None => Ret (Err (UEW_WalletInitialization WI_NotFound))
  | Some (inl _) => Ret (Err NotEncrypted)
  | Some (inr encrypted) =>
      match decrypt encrypted password with
      | Ok mnemonic =>
          initialised <- call (InitWallet mnemonic);;
          Ret (if initialised : bool then Ok mnemonic else Err UEW_InitFromMnemonic)
      | Err _ => Ret (Err (UEW_WalletInitialization InvalidPassword))
      | Panic => Ret Panic
      end
  end.

End Operations.

(** ** Processes, kills and power losses *)

Section System.
Context `{SeedLib}.
Context (db_syncs_dir : bool).

Inductive Task := Startup | CreateWallet (mnemonic : option Mnemonic) (password : option bytes) | OpenProducer.
Inductive Outcome :=
| Started (r : Res InitSeedStore unit)
| Created (r : Res CreateNewWallet unit)
| Opened (r : Res SqlError unit).

Definition program (t : Task) : Prog Outcome :=
  match t with
  | Startup => pbind seed_store_new (fun r => Ret (Started r))
  | CreateWallet m p => pbind (create_new_wallet m p) (fun r => Ret (Created r))
  | OpenProducer => pbind open_producer_db (fun r => Ret (Opened r))
  end.

(** The running processes by number, and what those that ended have answered. *)
Record System := mkSystem { world : World; procs : gmap nat (Task * Prog Outcome); next_pid : nat; log : list (nat * Task * Outcome) }.

(** What a power loss leaves: of a file that was not synced anything, a name as
    one of its possible meanings, a table of [db.sqlite] that was committed. *)
Record power_loss (w w' : World) : Prop := {
  pl_dir p : possible w p (dir w' !! p);
  pl_durable : dir_durable w' = dir w';
  pl_pending : dir_pending w' = [];
  pl_inodes n : match inodes w !! n, inodes w' !! n with
                | Some f, Some f' => creator f' = creator f /\ (synced f = true -> f' = f)
                | None, None => True
                | _, _ => False
                end;
  pl_next : next_inode w' = next_inode w;
  pl_drawn : drawn w' = drawn w;
  pl_db_file : db_file w' = db_file w;
  pl_table : table w' ∈ table w :: table_past w;
  pl_table_past : table_past w' = [] }.

(** [power]: power losses happen. *)
Inductive step (power : bool) : System -> System -> Prop :=
| step_start σ t :
    step power σ (mkSystem (world σ) (<[next_pid σ := (t, program t)]> (procs σ)) (S (next_pid σ)) (log σ))
| step_call σ i t X (c : Sys X) k o :
    procs σ !! i = Some (t, Call c k) -> choice_ok o c (world σ) ->
    let r := exec db_syncs_dir i o c (world σ) in
    step power σ (mkSystem r.2 (<[i := (t, k r.1)]> (procs σ)) (next_pid σ) (log σ))
| step_end σ i t r :
    procs σ !! i = Some (t, Ret r) ->
    step power σ (mkSystem (world σ) (delete i (procs σ)) (next_pid σ) ((i, t, r) :: log σ))
| step_kill σ i :
    step power σ (mkSystem (world σ) (delete i (procs σ)) (next_pid σ) (log σ))
| step_power σ w' :
    power = true -> power_loss (world σ) w' -> step power σ (mkSystem w' ∅ (next_pid σ) (log σ)).

(** A data directory at rest: there is no seed file or a complete one, and the
    ids of the legacy rows are unique. *)
Record at_rest (w : World) : Prop := {
  ar_durable : dir_durable w = dir w;
  ar_pending : dir_pending w = [];
  ar_seed n : dir w !! SEED_FILE_NAME = Some n -> exists fd, inodes w !! n = Some fd /\ synced fd = true /\ is_Some (from_slice (data fd));
  ar_inodes (n : Inode) fd : inodes w !! n = Some fd -> (n < next_inode w)%N;
  ar_drawn : drawn w = ∅;
  ar_db : db_file w = false -> table w = None;
  ar_rows rows : table w = Some rows -> NoDup (row_id <$> rows);
  ar_past : table_past w = [] }.

Definition boot (w : World) : System := mkSystem w ∅ 0 [].

(** What a process that reads [seed.json] finds. *)
Definition visible_seed_file (w : World) : option SeedFile :=
  n ← dir w !! SEED_FILE_NAME; fd ← inodes w !! n; from_slice (data fd).

End System.
