(* ===== verification/SeedProofs.v ===== *)
(** * The seed survives

    Rely and guarantee: [rely i] is what the other processes leave alone while
    process [i] runs, and [wp i] demands of a program that each of its calls does
    the same for the others and keeps the invariant of the data directory. *)

From Stdlib Require Import Strings.Byte Strings.String.
From stdpp Require Import base numbers list gmap strings pretty relations.
From S2P Require Import Prelude OrderMap Bitcoin SeedStore.
Open Scope Z_scope.

(** What [bip39], [aes-gcm] and [serde_json] document. *)
Class SeedLaws `{SeedLib} : Prop := {
  json_roundtrip f : from_slice (to_vec_pretty f) = Some f;
  parse_display m : mnemonic_parse (mnemonic_to_string m) = Some m;
  parse_in_display m : parse_in_normalized (mnemonic_to_string m) = Some m;
  display_utf8 m : from_utf8 (mnemonic_to_string m) = Some (mnemonic_to_string m);
  aes_roundtrip k n p c : aes_encrypt k n p = Some c -> aes_decrypt k n c = Some p }.

Abbreviation seed_path := SEED_FILE_NAME.

Lemma string_length_app s s' : String.length (s +:+ s') = (String.length s + String.length s')%nat.
Proof. induction s as [|c s IH]; simpl; [done|]. f_equal. exact IH. Qed.

Lemma tmp_path_ne pid nonce : tmp_path pid nonce <> seed_path.
Proof. intros E. apply (f_equal String.length) in E. unfold tmp_path in E. rewrite !string_length_app in E. cbn in E. lia. Qed.

(** The seed file is visible, and a power loss does not take it away. *)
Definition settled (w : World) (n : Inode) : Prop := dir w !! seed_path = Some n /\ forall v, possible w seed_path v -> v = Some n.

Record rely (i : nat) (w w' : World) : Prop := {
  rely_inodes n f : inodes w !! n = Some f -> creator f = i \/ dir w !! seed_path = Some n -> inodes w' !! n = Some f;
  rely_tmp p : drawn w !! p = Some i -> drawn w' !! p = Some i /\ dir w' !! p = dir w !! p;
  rely_seed n : dir w !! seed_path = Some n -> dir w' !! seed_path = Some n;
  rely_settled n : settled w n -> settled w' n;
  rely_mine n f : inodes w !! n = Some f -> creator f = i -> ~ possible w seed_path (Some n) -> ~ possible w' seed_path (Some n) }.

#[global] Instance rely_preorder i : PreOrder (rely i).
Proof.
  split.
  - intros w. by split.
  - intros w1 w2 w3 [A1 A2 A3 A4 A5] [B1 B2 B3 B4 B5]. split.
    + intros n f Hn [Hc|Hc]; apply B1; auto.
    + intros p Hp. destruct (A2 p Hp) as [Hd E]. destruct (B2 p Hd) as [Hd' E']. split; [done|congruence].
    + auto.
    + auto.
    + intros n f Hn Hc Hp. eapply B5; eauto.
Qed.

(** ** The invariant of the data directory *)

Section Invariant.
Context `{SeedLaws}.
(** [rows0] are the rows of the legacy table at the start, [tracked] those whose
    seed is to be kept. *)
Context (power db_syncs_dir : bool) (rows0 tracked : list LegacyRow).

(** A seed file with this seed is there for good. *)
Definition kept (w : World) (s : StoredSeed) : Prop :=
  exists n fd f, dir w !! seed_path = Some n /\ (power = true -> settled w n) /\
    inodes w !! n = Some fd /\ from_slice (data fd) = Some f /\ seed f = s.

Definition in_table (r : LegacyRow) (t : option (list LegacyRow)) : Prop := exists rows, t = Some rows /\ r ∈ rows.

Record inv (w : World) : Prop := {
  inv_seed n : possible w seed_path (Some n) ->
    dir w !! seed_path = Some n /\ exists fd, inodes w !! n = Some fd /\ synced fd = true /\ is_Some (from_slice (data fd));
  inv_inodes (n : Inode) fd : inodes w !! n = Some fd -> (n < next_inode w)%N;
  inv_drawn : drawn w !! seed_path = None;
  inv_db t : db_file w = false -> t ∈ table w :: table_past w -> t = None;
  inv_rows t r : t ∈ table w :: table_past w -> in_table r t -> r ∈ rows0;
  inv_kept t r : t ∈ table w :: table_past w -> r ∈ tracked -> in_table r t \/ exists s, row_seed r = Some s /\ kept w s }.

Lemma possible_dir w p : possible w p (dir w !! p).
Proof. by left. Qed.

Lemma inv_dir w n : inv w -> dir w !! seed_path = Some n -> exists fd, inodes w !! n = Some fd /\ synced fd = true /\ is_Some (from_slice (data fd)).
Proof. intros Hi Hd. apply Hi. by left. Qed.

(** ** Weakest preconditions *)

Fixpoint wp {A} (i : nat) (p : Prog A) (Q : A -> World -> Prop) (w : World) : Prop :=
  match p with
  | Ret a => Q a w
  | Call c k => forall o, choice_ok o c w ->
      let r := exec db_syncs_dir i o c w in
      (forall j, j <> i -> rely j w r.2) /\ inv r.2 /\ forall w', rely i r.2 w' -> inv w' -> wp i (k r.1) Q w'
  end.

(** Of a program that other processes run beside. *)
Definition swp {A} (i : nat) (p : Prog A) (Q : A -> World -> Prop) (w : World) : Prop :=
  forall w', rely i w w' -> inv w' -> wp i p Q w'.

Lemma wp_mono {A} i (p : Prog A) (Q R : A -> World -> Prop) w : (forall a w, Q a w -> R a w) -> wp i p Q w -> wp i p R w.
Proof.
  intros HQ. revert w. induction p as [a|X c k IH]; cbn; intros w Hp; [auto|].
  intros o Ho. destruct (Hp o Ho) as (Hr & Hi & Hk). split_and!; [done..|]. intros w' Hw Hinv. by apply IH, Hk.
Qed.

Lemma wp_conseq {A} i (p : Prog A) (Q R : A -> World -> Prop) w : inv w -> wp i p Q w -> (forall a w', inv w' -> Q a w' -> R a w') -> wp i p R w.
Proof.
  intros Hi Hp HQ. revert w Hi Hp. induction p as [a|X c k IH]; cbn; intros w Hi Hp; [auto|].
  intros o Ho. destruct (Hp o Ho) as (Hr & Hi1 & Hk). split_and!; [done..|]. intros w' Hw Hinv. by apply IH, Hk.
Qed.

Lemma wp_pbind {A B} i (p : Prog A) (f : A -> Prog B) Q w : wp i p (fun a => wp i (f a) Q) w -> wp i (pbind p f) Q w.
Proof.
  revert w. induction p as [a|X c k IH]; cbn; intros w Hp; [done|].
  intros o Ho. destruct (Hp o Ho) as (Hr & Hi & Hk). split_and!; [done..|]. intros w' Hw Hinv. by apply IH, Hk.
Qed.

Lemma wp_try {E F A B} i (conv : E -> F) (p : Prog (Res E A)) (f : A -> Prog (Res F B)) Q w :
  wp i p (fun r w => match r with Ok a => wp i (f a) Q w | Err e => Q (Err (conv e)) w | Panic => Q Panic w end) w -> wp i (try_ conv p f) Q w.
Proof. intros Hp. apply wp_pbind. eapply wp_mono; [|exact Hp]. intros [a|e|] w'; done. Qed.

Lemma wp_try_ok {E F A B} i (conv : E -> F) a (f : A -> Prog (Res F B)) Q w : wp i (f a) Q w -> wp i (try_ conv (Ret (Ok a)) f) Q w.
Proof. done. Qed.

(** ** What a call leaves alone *)

Lemma possible_set_dir_ne w p v q u : q <> p -> possible (set_dir p v w) q u <-> possible w q u.
Proof. intros Hne. unfold possible, set_dir. cbn. rewrite lookup_partial_alter_ne by done. set_solver. Qed.

Lemma possible_set_dir_eq w p v u : possible (set_dir p v w) p u -> u = v \/ possible w p u.
Proof. unfold possible, set_dir. cbn. rewrite lookup_partial_alter_eq. set_solver. Qed.

Lemma possible_sync_dir w p u : possible (sync_dir w) p u <-> u = dir w !! p.
Proof. unfold possible, sync_dir. cbn. set_solver. Qed.

Lemma settled_possible w w' n : dir w' !! seed_path = dir w !! seed_path -> (forall v, possible w' seed_path v -> possible w seed_path v) ->
  settled w n -> settled w' n.
Proof. intros Hd Hp [Hs Hv]. split; [congruence|auto]. Qed.

(** A step that leaves the name [seed.json] alone, or makes it more durable. *)
Lemma rely_intro j w w' :
  dir w' !! seed_path = dir w !! seed_path -> (forall v, possible w' seed_path v -> possible w seed_path v) ->
  (forall n f, inodes w !! n = Some f -> creator f = j \/ dir w !! seed_path = Some n -> inodes w' !! n = Some f) ->
  (forall p, drawn w !! p = Some j -> drawn w' !! p = Some j /\ dir w' !! p = dir w !! p) -> rely j w w'.
Proof.
  intros Hd Hp Hn Ht. split; [done|done|congruence| |].
  - intros n. by apply settled_possible.
  - intros n f _ _ Hnp Hpos. by apply Hnp, Hp.
Qed.

Lemma kept_rely j w w' s : rely j w w' -> kept w s -> kept w' s.
Proof.
  intros Hr (n & fd & f & Hd & Hs & Hn & Hf & Hseed). exists n, fd, f. split_and!; [by apply Hr| |by apply Hr; [|right]|done|done].
  intros Hp. by apply Hr, Hs.
Qed.

Lemma inv_intro j w w' :
  inv w -> rely j w w' -> db_file w' = db_file w -> table w' = table w -> table_past w' = table_past w -> drawn w' !! seed_path = None ->
  (forall (n : Inode) fd, inodes w' !! n = Some fd -> (n < next_inode w')%N) ->
  (forall n, possible w' seed_path (Some n) ->
    dir w' !! seed_path = Some n /\ exists fd, inodes w' !! n = Some fd /\ synced fd = true /\ is_Some (from_slice (data fd))) -> inv w'.
Proof.
  intros Hi Hr Hdb Ht Hp Hd Hb Hs. split; [done|done|done|rewrite Hdb, Ht, Hp; apply Hi|rewrite Ht, Hp; apply Hi|].
  intros t r. rewrite Ht, Hp. intros Hin Hr0. destruct (inv_kept w Hi t r Hin Hr0) as [|(s & Hrs & Hk)]; [by left|right; eauto using kept_rely].
Qed.

(** The name stays, and so does the file. *)
Lemma inv_seed_same w w' :
  inv w -> dir w' !! seed_path = dir w !! seed_path -> (forall v, possible w' seed_path v -> possible w seed_path v) ->
  (forall n f, inodes w !! n = Some f -> dir w !! seed_path = Some n -> inodes w' !! n = Some f) ->
  forall n, possible w' seed_path (Some n) ->
    dir w' !! seed_path = Some n /\ exists fd, inodes w' !! n = Some fd /\ synced fd = true /\ is_Some (from_slice (data fd)).
Proof.
  intros Hi Hd Hp Hn n Hpos. destruct (inv_seed w Hi n (Hp _ Hpos)) as (Hdir & fd & Hf & Hrest). rewrite Hd. split; [done|]. exists fd. split; [by apply Hn|done].
Qed.

(** Others and the invariant do not notice a step. *)
Definition unnoticed (i : nat) (w w' : World) : Prop := (forall j, j <> i -> rely j w w') /\ inv w'.

Lemma unnoticed_refl i w : inv w -> unnoticed i w w.
Proof. intros Hi. split; [done|done]. Qed.

Lemma unnoticed_drawn i p w : inv w -> drawn w !! p = None -> p <> seed_path -> unnoticed i w (set_drawn p i w).
Proof.
  intros Hi Hp Hne.
  assert (Hr : forall j, rely j w (set_drawn p i w)).
  { intros j. apply rely_intro; [done|done|auto|]. intros q Hq. cbn. rewrite lookup_insert_ne by congruence. done. }
  split; [auto|]. apply (inv_intro i w); [done..| | |].
  - cbn. rewrite lookup_insert_ne by done. apply Hi.
  - intros n fd. apply Hi.
  - apply (inv_seed_same w); auto.
Qed.

Lemma unnoticed_set_dir i p v w : inv w -> drawn w !! p = Some i -> unnoticed i w (set_dir p v w).
Proof.
  intros Hi Hp. assert (Hne : p <> seed_path) by (intros ->; by rewrite (inv_drawn w Hi) in Hp).
  assert (Hd : dir (set_dir p v w) !! seed_path = dir w !! seed_path) by (cbn; by rewrite lookup_partial_alter_ne).
  assert (Hpos : forall u, possible (set_dir p v w) seed_path u -> possible w seed_path u) by (intros u; by apply possible_set_dir_ne).
  assert (Hr : forall j, j <> i -> rely j w (set_dir p v w)).
  { intros j Hj. apply rely_intro; [done|done|auto|]. intros q Hq. split; [done|]. cbn. rewrite lookup_partial_alter_ne; [done|congruence]. }
  split; [done|]. apply (inv_intro (S i) w); [done|apply Hr; lia|done|done|done|apply Hi|apply Hi|by apply (inv_seed_same w)].
Qed.

Lemma unnoticed_set_inode i n f w :
  inv w -> (forall f0, inodes w !! n = Some f0 -> creator f0 = i) -> dir w !! seed_path <> Some n -> creator f = i -> unnoticed i w (set_inode n f w).
Proof.
  intros Hi Hold Hnp Hc.
  assert (Hn : forall m g, inodes w !! m = Some g -> creator g <> i \/ dir w !! seed_path = Some m -> inodes (set_inode n f w) !! m = Some g).
  { intros m g Hg Hm. cbn. rewrite lookup_insert_ne; [done|]. intros ->. destruct Hm as [Hm|Hm]; [|done]. by apply Hold in Hg. }
  assert (Hr : forall j, j <> i -> rely j w (set_inode n f w)).
  { intros j Hj. apply rely_intro; [done|done| |done]. intros m g Hg [Hm|Hm]; apply Hn; auto. left. congruence. }
  split; [done|]. apply (inv_intro (S i) w); [done|apply Hr; lia|done|done|done|apply Hi| |].
  - intros m g. cbn. rewrite lookup_insert_Some. intros [[<- _]|[_ Hg]]; [lia|]. apply (inv_inodes w Hi) in Hg. lia.
  - apply (inv_seed_same w); auto.
Qed.

(** Publishing a complete file under a name that was free. *)
Lemma unnoticed_publish i n fd w :
  inv w -> dir w !! seed_path = None -> inodes w !! n = Some fd -> creator fd = i -> synced fd = true -> is_Some (from_slice (data fd)) ->
  unnoticed i w (set_dir seed_path (Some n) w).
Proof.
  intros Hi Hnone Hn Hc Hs Hf. pose proof (fun m Hm => proj1 (inv_seed w Hi m Hm)) as Hp. rewrite Hnone in Hp.
  assert (Hr : forall j, j <> i -> rely j w (set_dir seed_path (Some n) w)).
  { intros j Hj. split.
    - auto.
    - intros p Hpj. split; [done|]. cbn. rewrite lookup_partial_alter_ne; [done|]. intros <-. by rewrite (inv_drawn w Hi) in Hpj.
    - congruence.
    - intros m [Hm _]. congruence.
    - intros m g Hg Hgj Hm Hm'. apply possible_set_dir_eq in Hm' as [[= ->]|Hm']; [|done]. congruence. }
  split; [done|]. apply (inv_intro (S i) w); [done|apply Hr; lia|done|done|done|apply Hi|apply Hi|].
  intros m Hm. apply possible_set_dir_eq in Hm as [[= ->]|Hm]; [|by apply Hp in Hm].
  cbn. rewrite lookup_partial_alter_eq. split; [done|]. by exists fd.
Qed.

Lemma unnoticed_sync i w : inv w -> unnoticed i w (sync_dir w).
Proof.
  intros Hi. assert (Hp : forall v, possible (sync_dir w) seed_path v -> possible w seed_path v).
  { intros v ->%possible_sync_dir. apply possible_dir. }
  assert (Hr : forall j, rely j w (sync_dir w)) by (intros j; apply rely_intro; auto).
  split; [auto|]. apply (inv_intro i w); [done..|apply Hi|apply Hi|apply (inv_seed_same w); auto].
Qed.

(** A commit may drop the rows whose seed is kept. *)
Lemma unnoticed_commit i t w :
  inv w -> (forall r, in_table r t -> in_table r (table w)) ->
  (forall r, r ∈ tracked -> in_table r (table w) -> in_table r t \/ exists s, row_seed r = Some s /\ kept (db_commit db_syncs_dir t w) s) ->
  unnoticed i w (db_commit db_syncs_dir t w).
Proof.
  intros Hi Hsub Hdrop. set (w1 := if db_syncs_dir then sync_dir w else w).
  assert (Hu : unnoticed i w w1) by (unfold w1; destruct db_syncs_dir; [by apply unnoticed_sync|by apply unnoticed_refl]). destruct Hu as [Hr1 Hi1].
  assert (Hrel : forall j, rely j w1 (db_commit db_syncs_dir t w)) by (intros j; apply rely_intro; auto).
  assert (Ht1 : table w1 = table w /\ table_past w1 = table_past w) by (unfold w1; by destruct db_syncs_dir). destruct Ht1 as [Ht1 Hp1].
  split; [intros j Hj; etransitivity; [by apply Hr1|apply Hrel]|].
  assert (Hold : forall r t', t' ∈ table w :: table_past w -> r ∈ tracked -> in_table r t' \/ exists s, row_seed r = Some s /\ kept (db_commit db_syncs_dir t w) s).
  { intros r t' Hin Hr0. destruct (inv_kept w Hi t' r Hin Hr0) as [|(s & Hs & Hk)]; [by left|right]. exists s. split; [done|].
    apply (kept_rely (S i) w); [|done]. etransitivity; [apply Hr1; lia|apply Hrel]. }
  split; [apply Hi1|apply Hi1|apply Hi1|done| |].
  - intros t' r. cbn. fold w1. rewrite Ht1, Hp1. intros [->|Hin]%elem_of_cons Hr; [|by apply (inv_rows w Hi t')].
    apply (inv_rows w Hi (table w)); [set_solver|auto].
  - intros t' r. cbn. fold w1. rewrite Ht1, Hp1. intros [->|Hin]%elem_of_cons Hr0; [|by apply Hold].
    destruct (Hold r (table w)) as [Hin|]; [set_solver|done| |by right]. by apply Hdrop.
Qed.

(** ** Programs *)

Lemma wp_call {X} i (c : Sys X) (Q : X -> World -> Prop) w :
  (forall o, choice_ok o c w -> unnoticed i w (exec db_syncs_dir i o c w).2 /\
    forall w', rely i (exec db_syncs_dir i o c w).2 w' -> inv w' -> Q (exec db_syncs_dir i o c w).1 w') -> wp i (call c) Q w.
Proof. intros Hc o Ho. destruct (Hc o Ho) as [[Hr Hi] Hq]. done. Qed.

Definition reads {X} (c : Sys X) : Prop := forall i o w, (exec db_syncs_dir i o c w).2 = w.

Lemma wp_reads {X} i (c : Sys X) (Q : X -> World -> Prop) w :
  reads c -> inv w -> (forall o w', rely i w w' -> inv w' -> Q (exec db_syncs_dir i o c w).1 w') -> wp i (call c) Q w.
Proof. intros Hc Hi Hq. apply wp_call. intros o _. rewrite !Hc. split; [by apply unnoticed_refl|]. intros w' Hr Hi'. by apply Hq. Qed.

(** A file under a name of its own. *)
Definition has_tmp (i : nat) (tmp : string) (n : Inode) (fd : FileData) (w : World) : Prop :=
  drawn w !! tmp = Some i /\ dir w !! tmp = Some n /\ inodes w !! n = Some fd /\ creator fd = i /\ ~ possible w seed_path (Some n).

Lemma has_tmp_rely i tmp n fd w w' : rely i w w' -> has_tmp i tmp n fd w -> has_tmp i tmp n fd w'.
Proof.
  intros Hr (Hd & Hdir & Hn & Hc & Hp). destruct (rely_tmp i w w' Hr tmp Hd) as [Hd' Hdir'].
  split_and!; [done|congruence|apply Hr; auto|done|]. by eapply Hr.
Qed.

Lemma has_tmp_not_seed i tmp n fd w : has_tmp i tmp n fd w -> dir w !! seed_path <> Some n.
Proof. intros (_ & _ & _ & _ & Hp) E. apply Hp. by left. Qed.

Lemma has_tmp_set_inode i tmp n fd fd' w : has_tmp i tmp n fd w -> creator fd' = i -> has_tmp i tmp n fd' (set_inode n fd' w).
Proof. intros (Hd & Hdir & Hn & Hc & Hp) Hc'. split_and!; [done|done|by apply lookup_insert_eq|done|done]. Qed.

Lemma has_tmp_create i tmp w :
  inv w -> drawn w !! tmp = Some i ->
  let w1 := set_inode (next_inode w) (mkFileData [] false i) w in
  unnoticed i w (set_dir tmp (Some (next_inode w)) w1) /\ has_tmp i tmp (next_inode w) (mkFileData [] false i) (set_dir tmp (Some (next_inode w)) w1).
Proof.
  intros Hi Hd w1. assert (Hfresh : inodes w !! next_inode w = None).
  { destruct (inodes w !! next_inode w) as [fd|] eqn:E; [|done]. apply (inv_inodes w Hi) in E. lia. }
  assert (Hnp : ~ possible w seed_path (Some (next_inode w))).
  { intros Hp. destruct (inv_seed w Hi _ Hp) as (_ & fd & E & _). congruence. }
  assert (Hne : tmp <> seed_path) by (intros ->; by rewrite (inv_drawn w Hi) in Hd).
  destruct (unnoticed_set_inode i (next_inode w) (mkFileData [] false i) w) as [Hr1 Hi1]; [done|by rewrite Hfresh| |done|].
  { intros E. apply Hnp. by left. }
  destruct (unnoticed_set_dir i tmp (Some (next_inode w)) w1 Hi1 Hd) as [Hr2 Hi2].
  split; [split; [|done]; intros j Hj; etransitivity; [by apply Hr1|by apply Hr2]|].
  split_and!; [done|by apply lookup_partial_alter_eq|by apply lookup_insert_eq|done|].
  rewrite possible_set_dir_ne by done. done.
Qed.

Definition write_post (i : nat) (f : SeedFile) (r : Res IoError unit) (w : World) : Prop :=
  match r with
  | Ok _ => exists n fd, settled w n /\ inodes w !! n = Some fd /\ creator fd = i /\ data fd = to_vec_pretty f
  | Err AlreadyExists => is_Some (dir w !! seed_path)
  | Err _ => True
  | Panic => False
  end.

(** The file [n] of [i] has been published. *)
Definition published (i : nat) (f : SeedFile) (tmp : string) (n : Inode) (w : World) : Prop :=
  drawn w !! tmp = Some i /\ dir w !! seed_path = Some n /\ exists fd, inodes w !! n = Some fd /\ creator fd = i /\ data fd = to_vec_pretty f.

Lemma published_rely i f tmp n w w' : rely i w w' -> published i f tmp n w -> published i f tmp n w'.
Proof.
  intros Hr (Hd & Hs & fd & Hn & Hc & Hf). split_and!; [by apply Hr|by apply Hr|]. exists fd. split_and!; [|done..]. apply Hr; auto.
Qed.

Lemma wp_remove_tmp i tmp (P : World -> Prop) Q w :
  inv w -> drawn w !! tmp = Some i -> P w -> (forall w v, P w -> P (set_dir tmp v w)) -> (forall w w', rely i w w' -> P w -> P w') ->
  (forall r w', inv w' -> P w' -> drawn w' !! tmp = Some i -> r = Ok tt \/ r = Err NotFound \/ r = Err OtherIo -> Q r w') ->
  wp i (call (RemoveFile tmp)) Q w.
Proof.
  intros Hi Hd HP Hdir Hrel HQ. apply wp_call. intros o _. cbn [exec].
  assert (Hd' : forall w0 w', rely i w0 w' -> drawn w0 !! tmp = Some i -> drawn w' !! tmp = Some i) by (intros w0 w' Hr Hw; by apply Hr).
  destruct (fault o); [|destruct (dir w !! tmp)]; cbn [fst snd];
    (split; [first [by apply unnoticed_refl|by apply unnoticed_set_dir]|]); intros w' Hr Hi'; apply HQ; eauto.
Qed.

Lemma published_set_dir i f tmp n w v : tmp <> seed_path -> published i f tmp n w -> published i f tmp n (set_dir tmp v w).
Proof. intros Hne (Hd & Hs & Hn). split_and!; [done| |done]. cbn. by rewrite lookup_partial_alter_ne. Qed.

Lemma publish_wp i f tmp n fd w :
  inv w -> has_tmp i tmp n fd w -> synced fd = true -> data fd = to_vec_pretty f -> wp i (publish_seed_file tmp) (write_post i f) w.
Proof.
  intros Hi Ht Hs Hf. assert (Hne : tmp <> seed_path) by (intros ->; destruct Ht as [Hd _]; by rewrite (inv_drawn w Hi) in Hd).
  apply wp_pbind, wp_call. intros o _. cbn [exec]. assert (Hd : drawn w !! tmp = Some i) by apply Ht.
  assert (Hfail : forall e w1, rely i w w1 -> inv w1 -> (e = AlreadyExists -> is_Some (dir w1 !! seed_path)) ->
    wp i (pbind (call (RemoveFile tmp)) (fun _ => try_ id (Ret (Err e)) (fun _ : unit => try_ id (call OpenDir) (fun _ => call SyncDir)))) (write_post i f) w1).
  { intros e w1 Hr Hi1 He. apply wp_pbind, (wp_remove_tmp _ _ (fun w => e = AlreadyExists -> is_Some (dir w !! seed_path))); [done|by apply Hr|done| | |].
    - intros w2 v. cbn. by rewrite lookup_partial_alter_ne.
    - intros w2 w2' Hr2 Hw He2. destruct (Hw He2) as [m Hm]. exists m. by apply Hr2.
    - intros r w2 Hi2 He2 _ _. cbn. destruct e; auto. }
  destruct (fault o); [split; [by apply unnoticed_refl|]; intros w1 Hr Hi1; by apply Hfail|].
  destruct Ht as (_ & Hdir & Hn & Hc & Hp). rewrite Hdir.
  destruct (dir w !! seed_path) as [m|] eqn:Em; (split; [first [by apply unnoticed_refl|eapply unnoticed_publish; eauto; by rewrite Hf, json_roundtrip]|]);
    cbn [fst snd]; intros w1 Hr Hi1.
  { apply Hfail; [done..|]. intros _. exists m. by apply Hr. }
  assert (Hpub : published i f tmp n w1).
  { apply (published_rely _ _ _ _ _ _ Hr). split_and!; [done|cbn; by rewrite lookup_partial_alter_eq|]. by exists fd. }
  apply wp_pbind, (wp_remove_tmp _ _ (published i f tmp n)); [done|apply Hpub|done| | |].
  - intros w2 v. by apply published_set_dir.
  - intros w2 w2'. apply published_rely.
  - intros r w2 Hi2 Hp2 _ _. apply wp_try_ok, wp_try, wp_reads; [by intros ? ? ?|done|]. intros o2 w3 Hr3 Hi3. cbn [exec fst]. destruct (fault o2); [done|].
    apply (published_rely _ _ _ _ _ _ Hr3) in Hp2. apply wp_call. intros o3 _. cbn. destruct (fault o3); [by split; [apply unnoticed_refl|]|].
    split; [by apply unnoticed_sync|]. intros w4 Hr4 Hi4. cbn in *. destruct Hp2 as (_ & Hsd & fd' & Hn' & Hc' & Hf'). exists n, fd'.
    split_and!; [|by apply Hr4; [|right]|done|done]. apply Hr4. split; [done|]. intros v ->%possible_sync_dir. done.
Qed.

Definition tmp_post (i : nat) (tmp : string) (contents : bytes) (r : Res IoError unit) (w : World) : Prop :=
  match r with Ok _ => exists n, has_tmp i tmp n (mkFileData contents true i) w | Err e => e <> AlreadyExists | Panic => False end.

Lemma has_tmp_change i tmp n fd fd' w :
  inv w -> has_tmp i tmp n fd w -> creator fd' = i -> unnoticed i w (set_inode n fd' w) /\ has_tmp i tmp n fd' (set_inode n fd' w).
Proof.
  intros Hi Ht Hc. split; [|by eapply has_tmp_set_inode]. apply unnoticed_set_inode; [done| |by eapply has_tmp_not_seed|done].
  destruct Ht as (_ & _ & Hn & Hcr & _). congruence.
Qed.

Lemma fill_tmp_wp i tmp contents n w :
  inv w -> has_tmp i tmp n (mkFileData [] false i) w ->
  wp i (try_ id (call (WriteAll n contents)) (fun _ : unit => call (SyncAll n))) (tmp_post i tmp contents) w.
Proof.
  intros Hi Ht. apply wp_try, wp_call. intros o _. cbn [exec]. assert (Hn := Ht). destruct Hn as (_ & _ & Hn & _). rewrite Hn. cbn [data creator].
  destruct (fault o); cbn [fst snd].
  { destruct (has_tmp_change i tmp n _ (mkFileData (junk o) false i) w Hi Ht) as [Hu _]; done. }
  destruct (has_tmp_change i tmp n _ (mkFileData ([] ++ contents) false i) w Hi Ht) as [Hu Ht1]; [done|].
  split; [done|]. intros w1 Hr1 Hi1. apply (has_tmp_rely _ _ _ _ _ _ Hr1) in Ht1. apply wp_call. intros o2 _. cbn [exec].
  destruct (fault o2); [by split; [apply unnoticed_refl|]|]. assert (Hn1 := Ht1). destruct Hn1 as (_ & _ & Hn1 & _). rewrite Hn1. cbn [data creator fst snd].
  destruct (has_tmp_change i tmp n _ (mkFileData ([] ++ contents) true i) w1 Hi1 Ht1) as [Hu2 Ht2]; [done|].
  split; [done|]. intros w2 Hr2 Hi2. exists n. by apply (has_tmp_rely _ _ _ _ _ _ Hr2).
Qed.

Lemma write_tmp_wp i tmp contents w : inv w -> drawn w !! tmp = Some i -> wp i (write_tmp_file tmp contents) (tmp_post i tmp contents) w.
Proof.
  intros Hi Hd. apply wp_pbind, (wp_remove_tmp _ _ (fun _ => True)); [done..|]. intros r w1 Hi1 _ Hd1 Hr. clear Hi Hd w.
  assert (Hopen : wp i (pbind (call (CreateNew tmp)) (fun opened => try_ id (Ret (match opened with Err AlreadyExists => Err OtherIo | r => r end))
    (fun file => try_ id (call (WriteAll file contents)) (fun _ : unit => call (SyncAll file))))) (tmp_post i tmp contents) w1).
  { apply wp_pbind, wp_call. intros o _. cbn [exec]. destruct (fault o); [by split; [apply unnoticed_refl|]|].
    destruct (dir w1 !! tmp) eqn:Et; [by split; [apply unnoticed_refl|]|]. cbn [fst snd].
    destruct (has_tmp_create i tmp w1 Hi1 Hd1) as [Hu Ht]. split; [done|]. intros w2 Hr2 Hi2.
    apply wp_try_ok, fill_tmp_wp; [done|]. by apply (has_tmp_rely _ _ _ _ _ _ Hr2). }
  destruct Hr as [->|[->| ->]]; [exact Hopen|exact Hopen|done].
Qed.

Lemma write_seed_file_wp i f w : inv w -> wp i (write_seed_file f) (write_post i f) w.
Proof.
  intros Hi. apply wp_pbind, wp_call. intros o Ho. cbn [exec fst snd]. cbn in Ho.
  split; [by apply unnoticed_drawn, tmp_path_ne|]. intros w1 Hr1 Hi1.
  assert (Hd1 : drawn w1 !! tmp_path (os_pid o) (random o) = Some i) by (apply Hr1, lookup_insert_eq).
  apply wp_try. eapply wp_conseq; [done|by apply write_tmp_wp|]. intros [u|e|] w2 Hi2; [|by destruct e|done].
  intros [n Ht]. by eapply publish_wp.
Qed.

(** ** Reading, and the migration *)

Lemma read_seed_file_wp i w (Q : Res ReadSeed (option SeedFile) -> World -> Prop) :
  inv w ->
  (forall w', rely i w w' -> inv w' -> (forall e, Q (Err e) w') /\ Q (Ok None) w' /\
    forall f n fd, dir w' !! seed_path = Some n -> inodes w' !! n = Some fd -> from_slice (data fd) = Some f -> Q (Ok (Some f)) w') ->
  wp i read_seed_file Q w.
Proof.
  intros Hi HQ. apply wp_pbind, wp_reads; [by intros ? ? ?|done|]. intros o w' Hr Hi'. destruct (HQ w' Hr Hi') as (HE & HN & HS). cbn [exec fst].
  destruct (fault o); [apply HE|]. destruct (dir w !! seed_path) as [n|] eqn:Ed; [|apply HN].
  destruct (inodes w !! n) as [fd|] eqn:En; [|apply HE]. cbn. destruct (from_slice (data fd)) as [f|] eqn:Ef; [|apply HE].
  apply (HS f n fd); [by apply Hr|by apply Hr; [|right]|done].
Qed.

(** The seed is visible. *)
Definition shown (s : StoredSeed) (w : World) : Prop :=
  exists n fd f, dir w !! seed_path = Some n /\ inodes w !! n = Some fd /\ from_slice (data fd) = Some f /\ seed f = s.

Hypothesis safe_commit : power = false \/ db_syncs_dir = true \/ tracked = [].
Hypothesis rows0_ids : NoDup (row_id <$> rows0).

Lemma rows0_inj r r' : r ∈ rows0 -> r' ∈ rows0 -> row_id r = row_id r' -> r = r'.
Proof.
  intros [a Ha]%list_elem_of_lookup [b Hb]%list_elem_of_lookup E. assert (Hab : a = b); [|congruence].
  eapply NoDup_lookup; [exact rows0_ids| |]; rewrite list_lookup_fmap; [by rewrite Ha|rewrite Hb; cbn; by rewrite E].
Qed.

Lemma shown_kept s t w r : r ∈ tracked -> shown s w -> kept (db_commit db_syncs_dir t w) s.
Proof.
  intros Hr (n & fd & f & Hd & Hn & Hf & Hs). exists n, fd, f. unfold db_commit.
  assert (Hd' : dir (set_db true t (if db_syncs_dir then sync_dir w else w)) !! seed_path = Some n) by (by destruct db_syncs_dir).
  split_and!; [done| |by destruct db_syncs_dir|done|done]. intros Hp. split; [done|]. intros v Hv.
  destruct safe_commit as [|[E|E]]; [congruence| |by rewrite E in Hr; apply not_elem_of_nil in Hr]. rewrite E in Hv. apply (possible_sync_dir w) in Hv. congruence.
Qed.

Lemma delete_wp i id s w (Q : Res SqlError Z -> World -> Prop) :
  inv w -> (exists r, r ∈ rows0 /\ row_id r = id /\ row_seed r = Some s) -> shown s w -> (forall r w', Q r w') -> wp i (call (DbDelete id)) Q w.
Proof.
  intros Hi (r & Hr & Hid & Hs) Hsh HQ. apply wp_call. intros o _. split; [|auto]. cbn [exec].
  destruct (table w) as [rows|] eqn:Et; [|by apply unnoticed_refl].
  assert (Hu : unnoticed i w (db_commit db_syncs_dir (Some (filter (fun r => row_id r <> id) rows)) w)).
  { apply unnoticed_commit; [done| |].
    - intros r' (l & [= <-] & Hin%list_elem_of_filter). rewrite Et. exists rows. by destruct Hin.
    - intros r' Htr (l & El & Hin). rewrite Et in El. injection El as <-. destruct (decide (row_id r' = id)) as [E|E].
      + right. exists s. split; [|by eapply shown_kept]. assert (Hr' : r' ∈ rows0). { apply (inv_rows w Hi (table w)); [set_solver|]. rewrite Et. by exists rows. }
        by rewrite (rows0_inj r' r) by congruence.
      + left. eexists. split; [done|]. by apply list_elem_of_filter. }
  unfold db_write. destruct (fault o); [destruct (late o)|]; [done|by apply unnoticed_refl|done].
Qed.

Lemma shown_rely i s w w' : rely i w w' -> shown s w -> shown s w'.
Proof. intros Hr (n & fd & f & Hd & Hn & Hf & Hs). exists n, fd, f. split_and!; [by apply Hr|by apply Hr; [|right]|done|done]. Qed.

Lemma copy_legacy_seed_wp i id s w :
  inv w -> wp i (copy_legacy_seed id s) (fun r w => match r with Ok _ => shown s w | _ => True end) w.
Proof.
  intros Hi. unfold copy_legacy_seed. destruct (check_parses s); [|done]. cbn [negb].
  apply wp_pbind, wp_reads; [by intros ? ? ?|done|]. intros o w1 _ Hi1. apply wp_pbind, wp_reads; [by intros ? ? ?|done|]. intros o2 w2 _ Hi2.
  set (f := migrated_file _ _ _). apply wp_try. eapply wp_conseq; [done|by apply write_seed_file_wp|]. intros [u|e|] w3 Hi3 _; [|done..].
  apply wp_try, read_seed_file_wp; [done|]. intros w4 _ Hi4. split_and!; [done|by cbn; case_decide|].
  intros g n fd Hd Hn Hg. case_decide as E; [|done]. injection E as ->. exists n, fd, f. by split_and!.
Qed.

Lemma first_row_elem rows r : first_row rows = Some r -> r ∈ rows.
Proof.
  revert r. unfold first_row. induction rows as [|x rows IH]; [done|]. cbn. intros r. destruct (foldr _ _ rows) as [m|].
  - case_bool_decide; intros [= <-]; set_solver.
  - intros [= <-]. set_solver.
Qed.

Lemma read_legacy_seed_wp i w :
  inv w -> wp i read_legacy_seed (fun r _ => match r with Ok (Some (id, s)) => exists r, r ∈ rows0 /\ row_id r = id /\ row_seed r = Some s | _ => True end) w.
Proof.
  intros Hi. apply wp_try, wp_reads; [by intros ? ? ?|done|]. intros o w1 _ Hi1. cbn [exec fst]. destruct (fault o); [done|].
  case_bool_decide; [|done]. cbn [negb]. apply wp_try, wp_reads; [by intros ? ? ?|done|]. intros o2 w2 _ Hi2. cbn [exec fst].
  destruct (table w1); [|done]. destruct (fault o2); [done|]. case_bool_decide; [done|].
  apply wp_try, wp_reads; [by intros ? ? ?|done|]. intros o3 w3 _ Hi3. cbn [exec fst]. destruct (table w2) as [rows|] eqn:Et; [|done].
  destruct (fault o3); [done|]. destruct (first_row rows) as [r|] eqn:Er; [|done]. destruct (row_seed r) as [s|] eqn:Es; [|done].
  exists r. split_and!; [|done|done]. apply (inv_rows w2 Hi2 (table w2)); [set_solver|]. rewrite Et. exists rows. split; [done|].
  by apply first_row_elem.
Qed.

Lemma migrate_wp i w : inv w -> wp i migrate_legacy_seed (fun _ _ => True) w.
Proof.
  intros Hi. apply wp_pbind, wp_reads; [by intros ? ? ?|done|]. intros o w1 _ Hi1. destruct (negb _); [done|].
  apply wp_try, wp_reads; [by intros ? ? ?|done|]. intros o2 w2 _ Hi2. cbn [exec fst]. destruct (_ || _); [done|].
  apply wp_try. eapply wp_conseq; [done|by apply read_legacy_seed_wp|]. intros [[[id s]|]|e|] w3 Hi3; [|done..]. intros Hrow.
  assert (Hdel : forall w4, inv w4 -> shown s w4 -> wp i (try_ sqlite (call (DbDelete id)) (fun _ => Ret (Ok tt))) (fun _ _ => True) w4).
  { intros w4 Hi4 Hs4. apply wp_try. eapply delete_wp; [done|done|done|]. by intros [] ?. }
  apply wp_try, read_seed_file_wp; [done|]. intros w4 _ Hi4. split_and!; [done| |].
  - apply wp_try. eapply wp_conseq; [done|by apply copy_legacy_seed_wp|]. intros [u|e|] w5 Hi5 Hs; [|done..]. by apply Hdel.
  - intros f n fd Hd Hn Hf. case_decide as E; [|done]. apply wp_try_ok, Hdel; [done|]. by exists n, fd, f.
Qed.

Lemma open_producer_wp i w : inv w -> wp i open_producer_db (fun _ _ => True) w.
Proof.
  assert (Hw : forall t w o, inv w -> (forall r, ~ in_table r t) -> (forall r, ~ in_table r (table w)) -> unnoticed i w (db_write db_syncs_dir o t tt w).2).
  { intros t w0 o Hi0 Ht Hn. assert (unnoticed i w0 (db_commit db_syncs_dir t w0)).
    { apply unnoticed_commit; [done|intros r Hr; by destruct (Ht r)|intros r _ Hr; by destruct (Hn r)]. }
    unfold db_write. destruct (fault o); [destruct (late o)|]; [done|by apply unnoticed_refl|done]. }
  assert (Hempty : forall r, ~ in_table r (Some [])) by (intros r (l & [= <-] & Hr); set_solver).
  assert (Hnone : forall r, ~ in_table r None) by (by intros r (l & ? & _)).
  intros Hi. apply wp_try, wp_call. intros o _. split.
  { cbn. destruct (db_file w) eqn:Ef; [by apply unnoticed_refl|]. apply Hw; [done..|].
    rewrite (inv_db w Hi (table w)); [done|done|set_solver]. }
  intros w1 _ Hi1. destruct (exec _ _ _ _ _).1; [|done..]. apply wp_call. intros o2 _. split; [|done]. cbn.
  destruct (table w1) as [[|r rows]|] eqn:Et; [|by apply unnoticed_refl..]. apply Hw; [done..|]. by rewrite Et.
Qed.

(** ** Creating a wallet *)

(** [f] is the seed file of process [i], for good. *)
Definition stored (i : nat) (f : SeedFile) (w : World) : Prop :=
  exists n fd, settled w n /\ inodes w !! n = Some fd /\ creator fd = i /\ from_slice (data fd) = Some f.

Lemma stored_rely i j f w w' : rely j w w' -> stored i f w -> stored i f w'.
Proof. intros Hr (n & fd & Hs & Hn & Hc & Hf). exists n, fd. split; [by apply (rely_settled j w)|]. split; [apply (rely_inodes j w); [done|done|right; exact (proj1 Hs)]|done]. Qed.

Lemma insert_seed_wp i s b w :
  inv w -> wp i (insert_seed s b) (fun r w => match r with
    | Ok _ => exists t, stored i (mkSeedFile CURRENT_VERSION t b (stored_seed s)) w
    | Err IS_AlreadyExists => is_Some (dir w !! seed_path)
    | Err (IS_Io _) => True
    | Panic => False end) w.
Proof.
  intros Hi. apply wp_pbind, wp_reads; [by intros ? ? ?|done|]. intros o w1 Hr1 Hi1. cbn [exec fst].
  destruct (negb (fault o) && _) eqn:Ee.
  { apply andb_true_iff in Ee as [_ [n Hn]%bool_decide_eq_true]. exists n. by apply Hr1. }
  apply wp_pbind, wp_reads; [by intros ? ? ?|done|]. intros o2 w2 _ Hi2. cbn [exec fst].
  apply wp_try. eapply wp_conseq; [done|by apply write_seed_file_wp|]. intros [u|e|] w3 Hi3; [|by destruct e|done].
  intros (n & fd & Hs & Hn & Hc & Hf). exists (clock o2), n, fd. split_and!; [done..|]. by rewrite Hf, json_roundtrip.
Qed.

(** [f] holds the wallet with this mnemonic under this password. *)
Definition holds (mnemonic : Mnemonic) (password : option bytes) (f : SeedFile) : Prop :=
  match password with
  | None => seed f = Plaintext (mnemonic_to_string mnemonic)
  | Some password => exists e, seed f = stored_seed (inr e) /\ kdf e = CURRENT /\ decrypt e password = Ok mnemonic
  end.

Lemma encrypt_wp i m password k w :
  inv w -> wp i (encrypt m password k) (fun r _ => match r with Ok e => kdf e = k /\ decrypt e password = Ok m | _ => True end) w.
Proof.
  intros Hi. apply wp_pbind, wp_call. intros o Ho. split; [by apply unnoticed_refl|]. intros w1 _ Hi1. cbn [exec fst] in *. cbn in Ho.
  destruct (fault o); [done|]. cbn. unfold stretch_password at 1. destruct (argon2id k password (random o)) as [key|] eqn:Ek; [|done]. cbn.
  intros o2 Ho2. destruct (unnoticed_refl i w1 Hi1) as [Hr Hi1']. split_and!; [done..|]. intros w2 _ Hi2. destruct (fault o2); [done|]. cbn.
  destruct (aes_encrypt key (random o2) (mnemonic_to_string m)) as [c|] eqn:Ec; [|done]. cbn. split; [done|].
  unfold decrypt, stretch_password. cbn. rewrite bool_decide_eq_true_2 by done. cbn. rewrite Ek. cbn. rewrite (aes_roundtrip _ _ _ _ Ec). cbn.
  rewrite display_utf8. cbn. by rewrite parse_display.
Qed.

(** The wallet was not created because there is a seed file. *)
Definition refusal (r : Res CreateNewWallet unit) (w : World) : Prop :=
  match r with Err (CNW_WalletInitialization WI_AlreadyExists) => is_Some (dir w !! seed_path) | _ => True end.

Lemma insert_refusal e w : match e with IS_AlreadyExists => is_Some (dir w !! seed_path) | IS_Io _ => True end -> refusal (Err (from_insert_seed e)) w.
Proof. by destruct e. Qed.

Lemma persist_mnemonic_wp i m p b w :
  inv w -> wp i (persist_mnemonic m p b) (fun r w => refusal r w /\ match r with Ok _ => exists f, stored i f w /\ holds m p f /\ birthday_height f = b | _ => True end) w.
Proof.
  assert (Hins : forall s w, inv w -> (forall t, holds m p (mkSeedFile CURRENT_VERSION t b (stored_seed s))) ->
    wp i (try_ from_insert_seed (insert_seed s b) (fun _ => Ret (Ok tt)))
      (fun r w => refusal r w /\ match r with Ok _ => exists f, stored i f w /\ holds m p f /\ birthday_height f = b | _ => True end) w).
  { intros s w1 Hi1 Hh. apply wp_try. eapply wp_conseq; [done|by apply insert_seed_wp|]. intros [u|e|] w2 Hi2 Hr; [|by split; [apply insert_refusal|]|done].
    split; [done|]. destruct Hr as [t Ht]. eexists. split; [exact Ht|]. done. }
  intros Hi. destruct p as [password|]; [|by apply Hins].
  apply wp_try. eapply wp_conseq; [done|by apply encrypt_wp|]. intros [e|e|] w2 Hi2 He; [|done..]. apply Hins; [done|]. intros t. exists e. by destruct He.
Qed.

(** A process has stored a wallet with this mnemonic, if one was given, and this
    password; a generated one with its birthday. *)
Definition created (i : nat) (mnemonic : option Mnemonic) (password : option bytes) (w : World) : Prop :=
  exists f m, stored i f w /\ holds m password f /\
    match mnemonic with Some m' => m = m' /\ birthday_height f = None | None => is_Some (birthday_height f) end.

Lemma created_rely i j m p w w' : rely j w w' -> created i m p w -> created i m p w'.
Proof. intros Hr (f & m' & Hs & Hh). exists f, m'. split; [by eapply stored_rely|done]. Qed.

Definition created_post (i : nat) (m : option Mnemonic) (p : option bytes) (r : Res CreateNewWallet unit) (w : World) : Prop :=
  refusal r w /\ match r with Ok _ => created i m p w | _ => True end.

Lemma create_new_wallet_wp i m p w : inv w -> wp i (create_new_wallet m p) (created_post i m p) w.
Proof.
  intros Hi. unfold create_new_wallet.
  assert (Hrest : forall m' b w, inv w -> match m with Some m0 => m' = m0 /\ b = None | None => is_Some b end ->
    wp i (try_ id (persist_mnemonic m' p b) (fun _ => pbind (call (InitWallet m')) (fun d : bool => Ret (if d then Ok tt else Err InitFromMnemonic))))
      (created_post i m p) w).
  { intros m' b w1 Hi1 Hm. apply wp_try. eapply wp_conseq; [done|by apply persist_mnemonic_wp|]. intros [u|e|] w2 Hi2 [Hr Hf]; [|done..].
    apply wp_pbind, wp_reads; [by intros ? ? ?|done|]. intros o w3 Hr3 Hi3. cbn [exec fst]. destruct (fault o); [done|]. split; [done|].
    apply (created_rely _ _ _ _ _ _ Hr3). destruct Hf as (f & Hs & Hh & <-). exists f, m'. split_and!; [done|done|]. by destruct m. }
  destruct m as [m0|].
  - apply wp_try_ok, wp_try_ok. by apply Hrest.
  - apply wp_try, wp_try, wp_pbind, wp_reads; [by intros ? ? ?|done|]. intros o w1 _ Hi1. cbn [exec fst]. destruct (fault o); [done|].
    assert (Em : ok_or GenerateMnemonic (Some (generated o) ≫= mnemonic_parse ∘ mnemonic_to_string) = Ok (generated o)) by (cbn; by rewrite parse_display).
    rewrite Em. clear Em.
    change (wp i (try_ id (fetch_birthday_height true) (fun b => try_ id (persist_mnemonic (generated o) p b)
      (fun _ => pbind (call (InitWallet (generated o))) (fun d : bool => Ret (if d then Ok tt else Err InitFromMnemonic))))) (created_post i None p) w1).
    apply wp_try, wp_pbind, wp_reads; [by intros ? ? ?|done|]. intros o2 w2 _ Hi2. cbn [exec fst].
    destruct (fault o2); [done|]. by apply Hrest; [|eexists].
Qed.

(** ** The system *)

Definition task_post (i : nat) (t : Task) (r : Outcome) (w : World) : Prop :=
  match t, r with CreateWallet m p, Created r => created_post i m p r w | _, _ => True end.

Lemma program_wp i t w : inv w -> wp i (program t) (task_post i t) w.
Proof.
  intros Hi. destruct t as [|m p|]; apply wp_pbind.
  - eapply wp_mono; [|by apply migrate_wp]. done.
  - eapply wp_mono; [|by apply create_new_wallet_wp]. done.
  - eapply wp_mono; [|by apply open_producer_wp]. done.
Qed.

Lemma settled_power_loss w w' n : power_loss w w' -> settled w n -> settled w' n.
Proof.
  intros Hl [_ Hv]. assert (E : dir w' !! seed_path = Some n) by (apply Hv, Hl). split; [done|].
  intros v [->|[->|Hin]]; [done|by rewrite (pl_durable _ _ Hl)|]. rewrite (pl_pending _ _ Hl) in Hin. by apply not_elem_of_nil in Hin.
Qed.

Lemma synced_power_loss w w' n fd : power_loss w w' -> inodes w !! n = Some fd -> synced fd = true -> inodes w' !! n = Some fd.
Proof. intros Hl Hn Hs. pose proof (pl_inodes _ _ Hl n) as Hp. rewrite Hn in Hp. destruct (inodes w' !! n); [|done]. destruct Hp as [_ Hp]. by rewrite Hp. Qed.

Lemma settled_synced w n : inv w -> settled w n -> exists fd, inodes w !! n = Some fd /\ synced fd = true.
Proof. intros Hi [Hd _]. destruct (inv_dir w n Hi Hd) as (fd & Hn & Hs & _). eauto. Qed.

Lemma stored_power_loss i f w w' : inv w -> power_loss w w' -> stored i f w -> stored i f w'.
Proof.
  intros Hi Hl (n & fd & Hs & Hn & Hc & Hf). destruct (settled_synced w n Hi Hs) as (fd' & Hn' & Hy). assert (fd' = fd) as -> by congruence.
  exists n, fd. split_and!; [|by eapply synced_power_loss|done|done]. by eapply settled_power_loss.
Qed.

Lemma inv_power_loss w w' : power = true -> inv w -> power_loss w w' -> inv w'.
Proof.
  intros Hpow Hi Hl. assert (Htab : forall t, t ∈ table w' :: table_past w' -> t ∈ table w :: table_past w).
  { intros t. rewrite (pl_table_past _ _ Hl). intros ->%list_elem_of_singleton. apply Hl. }
  split.
  - intros n Hp. assert (Hd : dir w' !! seed_path = Some n).
    { destruct Hp as [E|[E|Hin]]; [done|by rewrite <- (pl_durable _ _ Hl)|]. rewrite (pl_pending _ _ Hl) in Hin. by apply not_elem_of_nil in Hin. }
    split; [done|]. pose proof (pl_dir _ _ Hl seed_path) as Hold. rewrite Hd in Hold. destruct (inv_seed w Hi n Hold) as (_ & fd & Hn & Hs & Hf).
    exists fd. split; [by eapply synced_power_loss|done].
  - intros n fd Hn. rewrite (pl_next _ _ Hl). pose proof (pl_inodes _ _ Hl n) as Hp.
    destruct (inodes w !! n) as [fd0|] eqn:E; rewrite Hn in Hp; [|done]. by apply (inv_inodes w Hi) in E.
  - rewrite (pl_drawn _ _ Hl). apply Hi.
  - intros t Hf Ht. rewrite (pl_db_file _ _ Hl) in Hf. by apply (inv_db w Hi t Hf), Htab.
  - intros t r Ht. by apply (inv_rows w Hi), Htab.
  - intros t r Ht Hr. destruct (inv_kept w Hi t r (Htab t Ht) Hr) as [|(s & Hs & n & fd & f & Hd & Hset & Hn & Hf & Hsf)]; [by left|right].
    specialize (Hset Hpow). destruct (settled_synced w n Hi Hset) as (fd' & Hn' & Hy). assert (fd' = fd) as -> by congruence. pose proof (settled_power_loss _ _ _ Hl Hset) as Hset'.
    exists s. split; [done|]. exists n, fd, f. split_and!; [exact (proj1 Hset')|done|by eapply synced_power_loss|done|done].
Qed.

Record sys_inv (σ : System) : Prop := {
  si_inv : inv (world σ);
  si_procs i t p : procs σ !! i = Some (t, p) -> (i < next_pid σ)%nat /\ swp i p (task_post i t) (world σ);
  si_log_pid e : e ∈ log σ -> (e.1.1 < next_pid σ)%nat /\ procs σ !! e.1.1 = None;
  si_log_nodup : NoDup ((fun e => e.1.1) <$> log σ);
  si_log i m p : (i, CreateWallet m p, Created (Ok tt)) ∈ log σ -> created i m p (world σ) }.

Lemma swp_rely {A} i (p : Prog A) Q w w' : rely i w w' -> swp i p Q w -> swp i p Q w'.
Proof. intros Hr Hp w2 Hr2. apply Hp. by etransitivity. Qed.

Lemma sys_inv_step σ σ' : sys_inv σ -> step db_syncs_dir power σ σ' -> sys_inv σ'.
Proof.
  intros [Hi Hp Hl Hnd Hlog]. inversion 1 as [? t|? i t X c k o Hpi Ho|? i t r Hpi|? i|? w' Hpow Hloss]; subst; clear H1.
  - split; cbn; [done| | |done|done].
    + intros j t' p'. rewrite lookup_insert_Some. intros [[<- [= <- <-]]|[_ Hj]]; [split; [lia|]; intros w' _ Hi'; by apply program_wp|].
      destruct (Hp j t' p' Hj). split; [lia|done].
    + intros e He. destruct (Hl e He). split; [lia|]. rewrite lookup_insert_ne by lia. done.
  - destruct (Hp i t _ Hpi) as [Hlt Hwp]. destruct (Hwp (world σ) ltac:(done) Hi o Ho) as (Hr & Hi' & Hk).
    split; cbn; [done| | |done|].
    + intros j t' p'. rewrite lookup_insert_Some. intros [[<- [= <- <-]]|[Hne Hj]]; [by split|]. destruct (Hp j t' p' Hj). split; [done|].
      eapply swp_rely; [apply Hr|]; done.
    + intros e He. destruct (Hl e He) as [? Hnone]. split; [done|]. rewrite lookup_insert_ne; [done|]. congruence.
    + intros j m p Hj. eapply (created_rely _ (S i)); [apply Hr; lia|by apply Hlog].
  - destruct (Hp i t _ Hpi) as [Hlt Hwp]. pose proof (Hwp (world σ) ltac:(done) Hi) as Hpost. cbn in Hpost.
    split; cbn; [done| | | |].
    + intros j t' p'. rewrite lookup_delete_Some. intros [_ Hj]. by apply Hp.
    + intros e [->|He]%elem_of_cons; [cbn; split; [done|apply lookup_delete_eq]|]. destruct (Hl e He) as [? Hnone]. split; [done|].
      rewrite lookup_delete_None. auto.
    + constructor; [|done]. intros (e & E & He)%list_elem_of_fmap. destruct (Hl e He) as [_ Hnone]. cbn in E. congruence.
    + intros j m p [[= -> <- <-]|Hj]%elem_of_cons; [|by apply Hlog]. apply Hpost.
  - split; cbn; [done| | |done|done].
    + intros j t' p'. rewrite lookup_delete_Some. intros [_ Hj]. by apply Hp.
    + intros e He. destruct (Hl e He) as [? Hnone]. split; [done|]. rewrite lookup_delete_None. auto.
  - split; cbn; [by eapply inv_power_loss|done| |done|].
    + intros e He. destruct (Hl e He) as [? Hnone]. done.
    + intros j m p Hj. destruct (Hlog j m p Hj) as (f & m' & Hs & Hh). exists f, m'. split; [by eapply stored_power_loss|done].
Qed.

Lemma sys_inv_reachable σ σ' : sys_inv σ -> rtc (step db_syncs_dir power) σ σ' -> sys_inv σ'.
Proof. intros Hi Hs. induction Hs; eauto using sys_inv_step. Qed.

End Invariant.

Section Theorems.
Context `{SeedLaws}.
Context (power db_syncs_dir : bool).

Definition legacy_rows (w : World) : list LegacyRow := default [] (table w).

Lemma boot_inv w0 tracked : at_rest w0 -> tracked ⊆ legacy_rows w0 -> sys_inv power db_syncs_dir (legacy_rows w0) tracked (boot w0).
Proof.
  intros Hr Ht. assert (Hpos : forall v, possible w0 seed_path v -> v = dir w0 !! seed_path).
  { intros v [->|[->|Hin]]; [done|by rewrite (ar_durable _ Hr)|]. rewrite (ar_pending _ Hr) in Hin. by apply not_elem_of_nil in Hin. }
  split; cbn; [|done|intros e []%not_elem_of_nil|constructor|intros i m p []%not_elem_of_nil]. split.
  - intros n E%Hpos. split; [done|]. by apply Hr.
  - apply Hr.
  - by rewrite (ar_drawn _ Hr).
  - rewrite (ar_past _ Hr). intros t Hf ->%list_elem_of_singleton. by apply Hr.
  - rewrite (ar_past _ Hr). intros t r ->%list_elem_of_singleton (rows & E & Hin). unfold legacy_rows. by rewrite E.
  - rewrite (ar_past _ Hr). intros t r ->%list_elem_of_singleton Hin%Ht. left. unfold legacy_rows in Hin.
    destruct (table w0) as [rows|]; [by exists rows|by apply not_elem_of_nil in Hin].
Qed.

Lemma legacy_rows_ids w0 : at_rest w0 -> NoDup (row_id <$> legacy_rows w0).
Proof. intros Hr. unfold legacy_rows. destruct (table w0) eqn:E; [by apply (ar_rows _ Hr)|constructor]. Qed.

Lemma run_read_seed_file i o os w f : fault o = false -> visible_seed_file w = Some f ->
  forall A (k : _ -> Prog A), run db_syncs_dir i (o :: os) (pbind read_seed_file k) w = run db_syncs_dir i os (k (Ok (Some f))) w.
Proof.
  intros Ho Hf A k. unfold visible_seed_file in Hf. cbn. rewrite Ho. destruct (dir w !! seed_path) as [n|]; [|done]. cbn in Hf.
  destruct (inodes w !! n) as [fd|]; [|done]. cbn in *. by rewrite Hf.
Qed.

Lemma pbind_read {A B} (k : _ -> Prog A) (k' : A -> Prog B) i os w :
  run db_syncs_dir i os (pbind (pbind read_seed_file k) k') w = run db_syncs_dir i os (pbind read_seed_file (fun r => pbind (k r) k')) w.
Proof. destruct os as [|o os]; [done|]. cbn. destruct (fault o); [done|]. destruct (dir w !! seed_path) as [n|]; [|done]. by destruct (inodes w !! n). Qed.

Lemma stored_visible i f w : stored i f w -> visible_seed_file w = Some f.
Proof. intros (n & fd & [Hd _] & Hn & _ & Hf). unfold visible_seed_file. rewrite Hd. cbn. by rewrite Hn. Qed.

Lemma stored_creator i j f g w : stored i f w -> stored j g w -> i = j.
Proof. intros (n & fd & [Hd _] & Hn & Hc & _) (n' & fd' & [Hd' _] & Hn' & Hc' & _). congruence. Qed.

Lemma step_mono σ σ' : step db_syncs_dir false σ σ' -> step db_syncs_dir power σ σ'.
Proof. inversion 1; subst; [constructor|by eapply step_call|by apply step_end|apply step_kill|done]. Qed.

Lemma visible_rely j w w' f : rely j w w' -> visible_seed_file w = Some f -> visible_seed_file w' = Some f.
Proof.
  intros Hr. unfold visible_seed_file. destruct (dir w !! seed_path) as [n|] eqn:Hd; [|done]. cbn. destruct (inodes w !! n) as [fd|] eqn:Hn; [|done].
  rewrite (rely_seed j w w' Hr n Hd). cbn. by rewrite (rely_inodes j w w' Hr n fd Hn (or_intror Hd)).
Qed.

Lemma step_visible rows0 tracked σ σ' f :
  sys_inv power db_syncs_dir rows0 tracked σ -> step db_syncs_dir false σ σ' -> visible_seed_file (world σ) = Some f -> visible_seed_file (world σ') = Some f.
Proof.
  intros [Hi Hp _ _ _]. inversion 1 as [? t|? i t X c k o Hpi Ho|? i t r Hpi|? i|? w' Hpow Hloss]; subst; try done.
  destruct (Hp i t _ Hpi) as [_ Hwp]. destruct (Hwp (world σ) ltac:(done) Hi o Ho) as (Hr & _). apply (visible_rely (S i)). apply Hr. lia.
Qed.

End Theorems.

(** C29. The seed of a wallet from before the split is not lost: whatever
    processes start, create wallets or open the producer's database side by side,
    whichever of their system calls fail and wherever they are killed, each row of
    the legacy table is either still there or its seed is in a complete
    [seed.json]. If moreover the commit of the deletion syncs the directory, this
    holds also when the power fails at any time; without that sync a power loss
    can take the seed, see [SeedScenario]. *)
Theorem seed_never_lost `{SeedLaws} power db_syncs_dir w0 σ rows r :
  at_rest w0 -> power = false \/ db_syncs_dir = true -> rtc (step db_syncs_dir power) (boot w0) σ ->
  table w0 = Some rows -> r ∈ rows ->
  (exists rows', table (world σ) = Some rows' /\ r ∈ rows') \/
  exists f, visible_seed_file (world σ) = Some f /\ row_seed r = Some (seed f).
Proof.
  intros Hr Hsafe Hsteps Ht Hin. assert (Hin0 : r ∈ legacy_rows w0) by (unfold legacy_rows; by rewrite Ht).
  destruct (sys_inv_reachable power db_syncs_dir (legacy_rows w0) (legacy_rows w0) ltac:(tauto) (legacy_rows_ids w0 Hr) _ _ (boot_inv power db_syncs_dir w0 _ Hr ltac:(done)) Hsteps) as [Hi _ _ _ _].
  destruct (inv_kept _ _ _ _ Hi (table (world σ)) r) as [|(s & Hs & n & fd & f & Hd & _ & Hn & Hf & <-)]; [by left|done|by left|right].
  exists f. split; [|done]. unfold visible_seed_file. rewrite Hd. cbn. by rewrite Hn.
Qed.

(** C30. A wallet that was reported as created is there for good: in every later
    state, after any kills, failing calls and power losses, [seed.json] holds it,
    unlocking with its password (or reading it, if there is none) gives the
    mnemonic it was created with, and no other creation was reported. *)
Theorem created_wallet_survives `{SeedLaws} power db_syncs_dir w0 σ i m p :
  at_rest w0 -> rtc (step db_syncs_dir power) (boot w0) σ -> (i, CreateWallet m p, Created (Ok tt)) ∈ log σ ->
  (exists f m', visible_seed_file (world σ) = Some f /\ match m with Some m0 => m' = m0 /\ birthday_height f = None | None => is_Some (birthday_height f) end /\
    forall j o o', fault o = false -> fault o' = false ->
      match p with
      | Some password => run db_syncs_dir j [o; o'] (unlock_existing_wallet false password) (world σ) = Some (Ok m', world σ)
      | None => run db_syncs_dir j [o] read_mnemonic (world σ) = Some (Ok (Some (inl m')), world σ)
      end) /\
  forall j m2 p2, (j, CreateWallet m2 p2, Created (Ok tt)) ∈ log σ -> j = i /\ m2 = m /\ p2 = p.
Proof.
  intros Hr Hsteps Hlog.
  destruct (sys_inv_reachable power db_syncs_dir (legacy_rows w0) [] ltac:(tauto) (legacy_rows_ids w0 Hr) _ _ (boot_inv power db_syncs_dir w0 [] Hr ltac:(set_solver)) Hsteps) as [Hi _ _ Hnd Hl].
  destruct (Hl _ _ _ Hlog) as (f & m' & Hs & Hh & Hm). split.
  - exists f, m'. pose proof (stored_visible _ _ _ Hs) as Hv. split_and!; [done|done|]. intros j o o' Ho Ho'. destruct p as [password|].
    + destruct Hh as (e & He & Hk & Hdec). unfold unlock_existing_wallet, read_mnemonic, try_.
      rewrite pbind_read, (run_read_seed_file db_syncs_dir j o [o'] _ f) by done. rewrite He. destruct e as [iv ct salt k]. cbn in *. rewrite Hdec. cbn. by rewrite Ho'.
    + cbn in Hh. unfold read_mnemonic, try_. rewrite (run_read_seed_file db_syncs_dir j o [] _ f) by done. rewrite Hh. cbn. by rewrite parse_in_display.
  - intros j m2 p2 Hj. destruct (Hl _ _ _ Hj) as (g & m2' & Hs2 & _). assert (j = i) as -> by (by eapply stored_creator). split; [done|].
    apply list_elem_of_lookup in Hlog as [a Ha]. apply list_elem_of_lookup in Hj as [b Hb].
    assert (a = b) as -> by (eapply NoDup_lookup; [exact Hnd| |]; rewrite list_lookup_fmap; [by rewrite Ha|by rewrite Hb]). by simplify_eq.
Qed.

(** [seed.json] is never half-written and never replaced: in every reachable
    state it is absent or reads as a whole, and whatever the processes do next,
    short of a power loss, it stays as it is once it is there. *)
Theorem seed_file_immutable `{SeedLaws} power db_syncs_dir w0 σ σ' :
  at_rest w0 -> rtc (step db_syncs_dir power) (boot w0) σ -> rtc (step db_syncs_dir false) σ σ' ->
  (is_Some (dir (world σ) !! SEED_FILE_NAME) -> is_Some (visible_seed_file (world σ))) /\
  forall f, visible_seed_file (world σ) = Some f -> visible_seed_file (world σ') = Some f.
Proof.
  intros Hr Hsteps Hlater.
  pose proof (sys_inv_reachable power db_syncs_dir (legacy_rows w0) [] ltac:(tauto) (legacy_rows_ids w0 Hr) _ _ (boot_inv power db_syncs_dir w0 [] Hr ltac:(set_solver)) Hsteps) as Hi.
  split.
  - intros [n Hn]. unfold visible_seed_file. rewrite Hn. cbn. destruct (inv_dir _ _ _ _ n (si_inv _ _ _ _ _ Hi) Hn) as (fd & -> & _ & Hf). done.
  - intros f. clear Hsteps. induction Hlater as [|σ1 σ2 σ3 Hstep _ IH]; [done|]. intros Hf.
    assert (Hi2 : sys_inv power db_syncs_dir (legacy_rows w0) [] σ2).
    { eapply sys_inv_step; [tauto|by apply legacy_rows_ids|done|]. by apply step_mono. }
    apply IH; [done|]. exact (step_visible power db_syncs_dir _ _ _ _ f Hi Hstep Hf).
Qed.

(** ** When no call fails *)

Section Succeeds.
Context `{SeedLaws}.
Context (db_syncs_dir : bool) (i : nat) (o : Choice).
Hypothesis no_fault : fault o = false.
Abbreviation runs := (run_with db_syncs_dir i o).

Lemma runs_pbind {A B} (p : Prog A) (f : A -> Prog B) w : runs (pbind p f) w = runs (f (runs p w).1) (runs p w).2.
Proof. revert w. induction p as [a|X c k IH]; cbn; intros w; [done|]. apply IH. Qed.

Lemma runs_try {E F A B} (conv : E -> F) (p : Prog (Res E A)) (f : A -> Prog (Res F B)) w a w' :
  runs p w = (Ok a, w') -> runs (try_ conv p f) w = runs (f a) w'.
Proof. intros E1. unfold try_. by rewrite runs_pbind, E1. Qed.

Lemma runs_call {X} (c : Sys X) w : runs (call c) w = exec db_syncs_dir i o c w.
Proof. cbn. by destruct (exec _ _ _ _ _). Qed.

Abbreviation tmp := (tmp_path (os_pid o) (random o)).

(** The world after [write_seed_file]. *)
Lemma write_runs f w :
  (forall (n : Inode) fd, inodes w !! n = Some fd -> (n < next_inode w)%N) -> dir w !! seed_path = None ->
  exists w', runs (write_seed_file f) w = (Ok tt, w') /\ visible_seed_file w' = Some f /\ dir w' !! tmp = None /\
    table w' = table w /\ db_file w' = db_file w.
Proof.
  intros Hb Hs. pose proof (tmp_path_ne (os_pid o) (random o)) as Hne. unfold write_seed_file. rewrite runs_pbind, runs_call. cbn [exec fst snd].
  set (w1 := set_drawn _ _ w). set (w2 := if decide (is_Some (dir w !! tmp)) then set_dir tmp None w1 else w1).
  assert (Hw2 : dir w2 !! tmp = None /\ dir w2 !! seed_path = None /\ inodes w2 = inodes w /\ next_inode w2 = next_inode w /\ table w2 = table w /\ db_file w2 = db_file w).
  { unfold w2. case_decide as E; cbn; [rewrite lookup_partial_alter_eq, lookup_partial_alter_ne by done|apply eq_None_not_Some in E]; by split_and!. }
  destruct Hw2 as (Hd2 & Hs2 & Hi2 & Hn2 & Ht2 & Hf2).
  set (n := next_inode w). set (fd := mkFileData (to_vec_pretty f) true i).
  set (w3 := set_inode n fd (set_inode n (mkFileData (to_vec_pretty f) false i) (set_dir tmp (Some n) (set_inode n (mkFileData [] false i) w2)))).
  rewrite (runs_try _ _ _ _ tt w3).
  2:{ unfold write_tmp_file. rewrite runs_pbind, runs_call. cbn [exec]. rewrite no_fault.
      assert (E : runs (pbind (call (CreateNew tmp)) (fun opened => try_ id (Ret (match opened with Err AlreadyExists => Err OtherIo | r => r end))
        (fun file => try_ id (call (WriteAll file (to_vec_pretty f))) (fun _ : unit => call (SyncAll file))))) w2 = (Ok tt, w3)).
      { rewrite runs_pbind, runs_call. cbn [exec]. rewrite no_fault, Hd2. cbn [fst snd]. rewrite Hn2. fold n. rewrite (runs_try _ _ _ _ n _) by done.
        erewrite runs_try; [|rewrite runs_call; cbn [exec set_dir set_inode inodes]; rewrite lookup_insert_eq, no_fault; reflexivity].
        rewrite runs_call. cbn [exec set_dir set_inode inodes]. rewrite no_fault, lookup_insert_eq. reflexivity. }
      revert E. unfold w2. cbn. destruct (dir w !! tmp); (rewrite decide_True by (by eexists)) || (rewrite decide_False by (by intros [])); cbn; done. }
  unfold publish_seed_file. rewrite runs_pbind, runs_call. cbn [exec]. rewrite no_fault.
  assert (Hdir3 : dir w3 !! tmp = Some n /\ dir w3 !! seed_path = None /\ inodes w3 !! n = Some fd).
  { unfold w3. cbn. rewrite lookup_partial_alter_eq, lookup_partial_alter_ne, lookup_insert_eq by done. done. }
  destruct Hdir3 as (Hd3 & Hs3 & Hn3). rewrite Hd3, Hs3. cbn [fst snd]. rewrite runs_pbind, runs_call. cbn [exec]. rewrite no_fault.
  assert (E4 : dir (set_dir seed_path (Some n) w3) !! tmp = Some n) by (cbn; by rewrite lookup_partial_alter_ne). rewrite E4. cbn [fst snd].
  rewrite (runs_try _ _ _ _ tt _) by done. erewrite runs_try; [|rewrite runs_call; cbn [exec]; rewrite no_fault; reflexivity].
  rewrite runs_call. cbn [exec]. rewrite no_fault. eexists. split; [reflexivity|].
  split_and!; [|cbn; by rewrite lookup_partial_alter_eq|done|done].
  unfold visible_seed_file. cbn. rewrite lookup_partial_alter_ne, lookup_partial_alter_eq by done. cbn. rewrite lookup_insert_eq. cbn. apply json_roundtrip.
Qed.

Lemma read_runs w : runs read_seed_file w = (match dir w !! seed_path with
    | Some n => match inodes w !! n with Some fd => ok_or RS_Json (Some <$> from_slice (data fd)) | None => Err (RS_Io OtherIo) end
    | None => Ok None end, w).
Proof.
  unfold read_seed_file. rewrite runs_pbind, runs_call. cbn [exec fst snd]. rewrite no_fault.
  destruct (dir w !! seed_path) as [n|]; [|done]. by destruct (inodes w !! n).
Qed.

Lemma read_runs_visible w f : visible_seed_file w = Some f -> runs read_seed_file w = (Ok (Some f), w).
Proof.
  intros Hv. unfold visible_seed_file in Hv. rewrite read_runs. destruct (dir w !! seed_path) as [n|]; [|done]. cbn in Hv.
  destruct (inodes w !! n) as [fd|]; [|done]. cbn in Hv. by rewrite Hv.
Qed.

Lemma migrate_prefix w rows :
  db_file w = true -> table w = Some rows -> (length rows <= 1)%nat ->
  runs read_legacy_seed w = (match rows with r :: _ => match row_seed r with Some s => Ok (Some (row_id r, s)) | None => Err (invalid_legacy_seed r) end | [] => Ok None end, w).
Proof.
  intros Hdb Ht Hl. unfold read_legacy_seed.
  rewrite (runs_try _ _ _ _ true w) by (rewrite runs_call; cbn [exec]; by rewrite no_fault, Ht).
  cbn [negb]. rewrite (runs_try _ _ _ _ (Z.of_nat (length rows)) w) by (rewrite runs_call; cbn [exec]; by rewrite no_fault, Ht).
  rewrite bool_decide_eq_false_2 by lia. rewrite (runs_try _ _ _ _ (first_row rows) w) by (rewrite runs_call; cbn [exec]; by rewrite no_fault, Ht).
  destruct rows as [|r [|r' rows]]; [done| |cbn in Hl; lia]. cbn. by destruct (row_seed r).
Qed.

Lemma migrate_runs w rows :
  db_file w = true -> table w = Some rows -> (length rows <= 1)%nat ->
  runs migrate_legacy_seed w = runs (try_ id (Ret (runs read_legacy_seed w).1) (fun legacy => match legacy with
    | None => Ret (Ok tt)
    | Some (legacy_id, legacy_seed) =>
      try_ ReadSeedFile read_seed_file (fun existing => try_ id (match existing with
             | Some existing => Ret (if decide (seed existing = legacy_seed) then Ok tt else Err LegacySeedMismatch)
             | None => copy_legacy_seed legacy_id legacy_seed
             end) (fun _ : unit => try_ sqlite (call (DbDelete legacy_id)) (fun _ => Ret (Ok tt))))
    end)) w.
Proof.
  intros Hdb Ht Hl. unfold migrate_legacy_seed. rewrite runs_pbind, runs_call. cbn [exec fst snd]. rewrite no_fault, Hdb. cbn [negb andb].
  rewrite (runs_try _ _ _ _ tt w) by (rewrite runs_call; cbn [exec]; by rewrite no_fault, Hdb).
  unfold try_ at 1. rewrite runs_pbind, (migrate_prefix w rows) by done. done.
Qed.

End Succeeds.

(** A start with a legacy seed that can be used, when no call fails, moves it:
    [seed.json] holds the seed with the time of its row and no birthday, the row
    and the temporary file are gone, and a further start changes nothing. *)
Theorem migration_completes `{SeedLaws} db_syncs_dir i o w r s :
  at_rest w -> db_file w = true -> table w = Some [r] -> dir w !! SEED_FILE_NAME = None -> row_seed r = Some s -> check_parses s = true -> fault o = false ->
  exists w', run_with db_syncs_dir i o seed_store_new w = (Ok tt, w') /\
    visible_seed_file w' = Some (migrated_file (creation_time r) (clock o) s) /\ table w' = Some [] /\
    dir w' !! tmp_path (os_pid o) (random o) = None /\ run_with db_syncs_dir i o seed_store_new w' = (Ok tt, w').
Proof.
  intros Hr Hdb Ht Hd Hs Hp Ho. unfold seed_store_new. rewrite (migrate_runs _ _ _ Ho w [r]), (migrate_prefix _ _ _ Ho w [r]) by (done || (cbn; lia)).
  cbn [fst]. rewrite Hs. rewrite (runs_try _ _ _ _ _ _ _ (Some (row_id r, s)) w) by done.
  rewrite (runs_try _ _ _ _ _ _ _ None w) by (rewrite read_runs by done; by rewrite Hd).
  destruct (write_runs db_syncs_dir i o Ho (migrated_file (creation_time r) (clock o) s) w) as (w1 & Hw & Hv & Htmp & Ht1 & Hf1); [apply Hr|done|].
  rewrite (runs_try _ _ _ _ _ _ _ tt w1).
  2:{ unfold copy_legacy_seed. rewrite Hp. cbn [negb]. rewrite runs_pbind, runs_call. cbn [exec fst snd]. rewrite Ho.
      rewrite runs_pbind, runs_call. cbn [exec fst snd].
      assert (E : (r0 ← row_at w (row_id r); creation_time r0) = creation_time r). { unfold row_at. rewrite Ht. cbn. by rewrite bool_decide_eq_true_2. }
      rewrite E. rewrite (runs_try _ _ _ _ _ _ _ tt w1) by done. rewrite (runs_try _ _ _ _ _ _ _ (Some (migrated_file (creation_time r) (clock o) s)) w1) by (by apply read_runs_visible).
      by rewrite decide_True. }
  set (w2 := db_commit db_syncs_dir (Some []) w1).
  rewrite (runs_try _ _ _ _ _ _ _ 1 w2).
  2:{ rewrite runs_call. cbn [exec]. rewrite Ht1, Ht. unfold db_write. rewrite Ho, filter_cons_False by (intros E; by apply E). done. }
  assert (Hd2 : dir w2 = dir w1 /\ inodes w2 = inodes w1) by (unfold w2, db_commit; by destruct db_syncs_dir). destruct Hd2 as [Hd2 Hi2].
  exists w2. split_and!; [done|unfold visible_seed_file; by rewrite Hd2, Hi2|done|by rewrite Hd2|].
  rewrite (migrate_runs _ _ _ Ho w2 []), (migrate_prefix _ _ _ Ho w2 []) by (done || (cbn; lia)). done.
Qed.
