(* ===== verification/P2p.v ===== *)
(** * Sending a transaction over the P2P network

    [lib/p2p.rs] and [lib/p2p/send_tx.rs]: broadcast addresses, and the exchange
    with a node: handshake, announcement, the transaction once the node asks for
    it, and a ping to learn that it was processed. The peer is the bytes that it
    sends in time and what comes after them. *)

From Stdlib Require Import Strings.Byte.
From stdpp Require Import base numbers list gmap.
From S2P Require Import Prelude OrderMap Bitcoin Types.
Open Scope Z_scope.

(** ** Broadcast addresses *)

Definition SIGNET_MAGIC_BYTES : bytes := [xe4; x09; xe9; x68].

Section Addr.
(** [SocketAddr], its parser and [lookup_host]. *)
Context {SocketAddr : Type} (parse_socket_addr : bytes -> option SocketAddr).

Inductive BroadcastAddr := Sock (sock : SocketAddr) | Host (host : bytes) (port : Z).
Inductive ParseBroadcastAddrError := MissingPort (s : bytes) | InvalidHost (s : bytes) | InvalidPort (s : bytes).

Definition COLON : byte := x3a.
Definition is_bracket_or_colon (b : byte) : bool := bool_decide (b ∈ [COLON; x5b; x5d]).

(** [str::rsplit_once] *)
Fixpoint rsplit_once (c : byte) (s : bytes) : option (bytes * bytes) :=
  match s with
  | [] => None
  | b :: s => match rsplit_once c s with
              | Some (l, r) => Some (b :: l, r)
              | None => if bool_decide (b = c) then Some ([], s) else None
              end
  end.

(** [u16::from_str]: digits, after a [+] that may be there *)
Definition digit (b : byte) : option Z := if decide (48 <= u8_val b <= 57) then Some (u8_val b - 48) else None.
Fixpoint parse_digits (s : bytes) (acc : Z) : option Z :=
  match s with
  | [] => Some acc
  | b :: s => d ← digit b; if bool_decide (10 * acc + d <= u16_max) then parse_digits s (10 * acc + d) else None
  end.
Definition parse_u16 (s : bytes) : option Z :=
  let s := match s with x2b :: s => s | s => s end in
  match s with [] => None | s => parse_digits s 0 end.

Definition broadcast_addr_from_str (s : bytes) : Res ParseBroadcastAddrError BroadcastAddr :=
  match parse_socket_addr s with
  | Some sock => Ok (Sock sock)
  | None =>
      '(host, port) ← ok_or (MissingPort s) (rsplit_once COLON s);
      if bool_decide (host = []) || existsb is_bracket_or_colon host then Err (InvalidHost s) else
      port ← ok_or (InvalidPort s) (parse_u16 port);
      Ok (Host host port)
  end.

Definition default_p2p_broadcast_addr (signet_miner : SocketAddr) (network : Network) (magic_bytes : bytes) : option SocketAddr :=
  if decide (network = Signet /\ magic_bytes = SIGNET_MAGIC_BYTES) then Some signet_miner else None.

End Addr.
Arguments BroadcastAddr : clear implicits.

(** ** Messages *)

Definition HEADER_LEN : nat := 24.
Definition MAX_PAYLOAD_LEN : Z := 4000000.
Definition WITNESS : Z := 8.

Record VersionMessage := mkVersionMessage { services : Z; relay : bool }.
Inductive Inventory := InvTransaction (txid : Txid) | InvWitnessTransaction (txid : Txid) | InvOther.
#[global] Instance Inventory_eq_dec : EqDecision Inventory.
Proof. solve_decision. Defined.

Inductive Message :=
| Version (v : VersionMessage)
| Verack
| GetData (inv : list Inventory)
| Ping (nonce : Z)
| Pong (nonce : Z)
| Other (command : bytes).

(** The messages that are sent. *)
Inductive NetworkMessage :=
| SVersion (block_height : Z)
| SVerack
| SInv (inv : list Inventory)
| STx (tx : Transaction)
| SPing (nonce : Z)
| SPong (nonce : Z).

Inductive ProtocolError := WrongMagic | InvalidCommand | PayloadTooLong | BadChecksum | DecodeFailed | OutOfOrder | NoRelay | NoSegwit | NotRequested.
Inductive P2pError := Io | Protocol (e : ProtocolError) | Timeout.

(** What this part takes from rust-bitcoin: the decoders of the command and of
    the payloads. *)
Class P2pLib := {
  decode_command : bytes -> option bytes;
  decode_version : bytes -> option VersionMessage;
  decode_inventory : bytes -> option (list Inventory) }.

(** ** The connection

    [rx]: what the peer sends in time for the read that waits for it, and then
    [rx_end]: the connection fails or nothing comes any more. [tx_left]: how many
    messages can be written before writing ends as [tx_end] says. [sent]: what was
    written. *)

Inductive Fate := Fails | Stalls.
Record Conn := mkConn { rx : bytes; rx_end : Fate; tx_left : nat; tx_end : Fate; sent : list NetworkMessage }.

(** A computation ends with a value, with an error, or is waiting when its time
    is over. *)
Inductive Out (A : Type) := Val (a : A) | Fail (e : P2pError) | Waits.
Arguments Val {_} _.
Arguments Fail {_} _.
Arguments Waits {_}.

Definition P2pM (A : Type) : Type := Conn -> Conn * Out A.
Definition pret {A} (a : A) : P2pM A := fun c => (c, Val a).
Definition perr {A} (e : P2pError) : P2pM A := fun c => (c, Fail e).
Definition pbind {A B} (m : P2pM A) (f : A -> P2pM B) : P2pM B := fun c =>
  match m c with (c, Val a) => f a c | (c, Fail e) => (c, Fail e) | (c, Waits) => (c, Waits) end.
Definition pof {A} (e : ProtocolError) (o : option A) : P2pM A := match o with Some a => pret a | None => perr (Protocol e) end.

Definition ended {A} (f : Fate) : Out A := match f with Fails => Fail Io | Stalls => Waits end.

Declare Scope p2p_scope.
Delimit Scope p2p_scope with p2p.
Notation "x <- m ;; q" := (pbind m (fun x => q)) (at level 100, m at next level, right associativity) : p2p_scope.
Notation "m ;; q" := (pbind m (fun _ : unit => q)) (at level 100, right associativity) : p2p_scope.
Open Scope p2p_scope.

Definition read_exact (n : nat) : P2pM bytes := fun c =>
  if bool_decide (n <= length (rx c))%nat
  then (mkConn (drop n (rx c)) (rx_end c) (tx_left c) (tx_end c) (sent c), Val (take n (rx c)))
  else (mkConn [] (rx_end c) (tx_left c) (tx_end c) (sent c), ended (rx_end c)).

Definition write_message (message : NetworkMessage) : P2pM unit := fun c =>
  match tx_left c with
  | O => (c, ended (tx_end c))
  | S n => (mkConn (rx c) (rx_end c) n (tx_end c) (sent c ++ [message]), Val tt)
  end.

Section Exchange.
Context `{Bitcoin, P2pLib}.

(** [deserialize_partial] of a [u64] *)
Definition decode_u64 (payload : bytes) : option Z := if bool_decide (8 <= length payload)%nat then Some (le_val (take 8 payload)) else None.

Definition VERSION : bytes := [x76; x65; x72; x73; x69; x6f; x6e].
Definition VERACK : bytes := [x76; x65; x72; x61; x63; x6b].
Definition GETDATA : bytes := [x67; x65; x74; x64; x61; x74; x61].
Definition PING : bytes := [x70; x69; x6e; x67].
Definition PONG : bytes := [x70; x6f; x6e; x67].

Definition message_of (command payload : bytes) : option Message :=
  if decide (command = VERSION) then Version <$> decode_version payload else
  if decide (command = VERACK) then Some Verack else
  if decide (command = GETDATA) then GetData <$> decode_inventory payload else
  if decide (command = PING) then Ping <$> decode_u64 payload else
  if decide (command = PONG) then Pong <$> decode_u64 payload else
  Some (Other command).

Definition slice (a b : nat) (l : bytes) : bytes := take (b - a) (drop a l).

Definition read_message (magic : bytes) : P2pM Message :=
  header <- read_exact HEADER_LEN;;
  if bool_decide (slice 0 4 header <> magic) then perr (Protocol WrongMagic) else
  command <- pof InvalidCommand (decode_command (slice 4 16 header));;
  let payload_len := le_val (slice 16 20 header) in
  if bool_decide (MAX_PAYLOAD_LEN < payload_len) then perr (Protocol PayloadTooLong) else
  payload <- read_exact (Z.to_nat payload_len);;
  if bool_decide (take 4 (sha256d payload) <> slice 20 24 header) then perr (Protocol BadChecksum) else
  pof DecodeFailed (message_of command payload).

(** ** The exchange *)

Inductive State := AwaitingVersion | AwaitingVerack | AwaitingGetData | Done.
#[global] Instance State_eq_dec : EqDecision State.
Proof. solve_decision. Defined.

Context (magic : bytes) (tx : Transaction).

Definition handle (state : State) (message : Message) : P2pM State :=
  match message with
  | Version version =>
      if decide (state <> AwaitingVersion) then perr (Protocol OutOfOrder) else
      if negb (relay version) then perr (Protocol NoRelay) else
      if bool_decide (Z.land (services version) WITNESS <> WITNESS) then perr (Protocol NoSegwit) else
      write_message SVerack;; pret AwaitingVerack
  | Verack =>
      if decide (state <> AwaitingVerack) then perr (Protocol OutOfOrder) else
      write_message (SInv [InvTransaction (compute_txid tx)]);; pret AwaitingGetData
  | GetData inv =>
      if decide (state <> AwaitingGetData) then perr (Protocol OutOfOrder) else
      let txid := compute_txid tx in
      let requested := bool_decide (InvTransaction txid ∈ inv) || bool_decide (InvWitnessTransaction txid ∈ inv) in
      if negb requested then perr (Protocol NotRequested) else
      write_message (STx tx);; pret Done
  | Ping nonce => write_message (SPong nonce);; pret state
  | Pong _ => pret state
  | Other _ => pret state
  end.

(** The loop reads a message of at least 24 bytes each time: as many rounds as
    there are bytes are enough. *)
Fixpoint exchange_loop (fuel : nat) (state : State) : P2pM State :=
  if decide (state = Done) then pret state else
  match fuel with
  | O => fun c => (c, Waits)
  | S fuel => message <- read_message magic;; state <- handle state message;; exchange_loop fuel state
  end.

Definition exchange (block_height : Z) : P2pM State := fun c =>
  (write_message (SVersion block_height);; exchange_loop (S (length (rx c))) AwaitingVersion) c.

Fixpoint await_loop (fuel : nat) (nonce : Z) (state : State) : P2pM unit :=
  match fuel with
  | O => fun c => (c, Waits)
  | S fuel =>
      message <- read_message magic;;
      match message with
      | Pong pong => if bool_decide (pong = nonce) then pret tt else state <- handle state (Pong pong);; await_loop fuel nonce state
      | message => state <- handle state message;; await_loop fuel nonce state
      end
  end.

Definition await_processed (nonce : Z) (state : State) : P2pM unit := fun c =>
  (write_message (SPing nonce);; await_loop (S (length (rx c))) nonce state) c.

(** A connection attempt: it times out, fails, or gives a connection. *)
Inductive Connect := ConnectTimeout | ConnectFails | Connected (c : Conn).

(** [send_tx], with what was sent. *)
Definition send_tx (connect : Connect) (block_height nonce : Z) : list NetworkMessage * (unit + P2pError) :=
  match connect with
  | ConnectTimeout => ([], inr Timeout)
  | ConnectFails => ([], inr Io)
  | Connected c =>
      match exchange block_height c with
      | (c, Val state) => (sent (await_processed nonce state c).1, inl tt)
      | (c, Fail e) => (sent c, inr e)
      | (c, Waits) => (sent c, inr Timeout)
      end
  end.

(** ** Several addresses *)

(** [send_to_first_reachable], of the outcome of each address. *)
Fixpoint first_reachable (last_err : option P2pError) (outcomes : list (unit + P2pError)) : Res P2pError bool :=
  match outcomes with
  | [] => match last_err with Some e => Err e | None => Panic end
  | inl _ :: _ => Ok true
  | inr Timeout :: _ => Ok false
  | inr e :: outcomes => first_reachable (Some e) outcomes
  end.

Definition send_to_first_reachable (connects : list Connect) (block_height nonce : Z) : Res P2pError bool :=
  first_reachable None ((fun c => (send_tx c block_height nonce).2) <$> connects).

Inductive BroadcastNonstandardTxError := Resolve | ResolvedEmpty | Send (e : P2pError).

(** [resolved]: what the address resolves to, with the connections to it. *)
Definition broadcast_nonstandard_tx (resolved : option (list Connect)) (block_height nonce : Z) : Res BroadcastNonstandardTxError bool :=
  connects ← ok_or Resolve resolved;
  match connects with
  | [] => Err ResolvedEmpty
  | connects => map_err Send (send_to_first_reachable connects block_height nonce)
  end.

End Exchange.
