(* ===== verification/P2pProofs.v ===== *)
(** * The exchange with a node

    The messages that [read_message] accepts are exactly the frames of the
    protocol, and a transaction is sent exactly in a conversation that asks for
    it, once. *)

From Stdlib Require Import Strings.Byte.
From stdpp Require Import base numbers list gmap.
From S2P Require Import Prelude OrderMap Bitcoin Types P2p.
Open Scope Z_scope.

Section Proofs.
Context `{BitcoinLaws, P2pLib}.
Context (magic : bytes) (tx : Transaction).

(** ** Frames *)

(** A message on the wire. *)
Definition frame (command payload : bytes) : bytes :=
  magic ++ command ++ le_bytes 4 (Z.of_nat (length payload)) ++ take 4 (sha256d payload) ++ payload.

Inductive framed : bytes -> Message -> Prop :=
| framed_intro raw command payload m :
    length raw = 12%nat -> decode_command raw = Some command -> Z.of_nat (length payload) <= MAX_PAYLOAD_LEN ->
    message_of command payload = Some m -> framed (frame raw payload) m.

Definition set_rx (b : bytes) (c : Conn) : Conn := mkConn b (rx_end c) (tx_left c) (tx_end c) (sent c).

Lemma pbind_Val {A B} (m : P2pM A) (f : A -> P2pM B) c c' b : pbind m f c = (c', Val b) <-> exists c1 a, m c = (c1, Val a) /\ f a c1 = (c', Val b).
Proof.
  unfold pbind. split.
  - destruct (m c) as [c1 [a|e|]]; [|done..]. eauto.
  - intros (c1 & a & -> & ?). done.
Qed.

Lemma pbind_eq {A B} (m : P2pM A) (f : A -> P2pM B) c c1 o :
  m c = (c1, o) -> pbind m f c = match o with Val a => f a c1 | Fail e => (c1, Fail e) | Waits => (c1, Waits) end.
Proof. intros E. unfold pbind. rewrite E. by destruct o. Qed.

Lemma read_exact_Val n c c' b : read_exact n c = (c', Val b) <-> length b = n /\ rx c = b ++ rx c' /\ c' = set_rx (rx c') c.
Proof.
  unfold read_exact. case_bool_decide as Hn; split.
  - intros [= <- <-]. cbn. rewrite length_take, take_drop. split_and!; [lia|done|done].
  - intros (Hl & Hr & ->). cbn. rewrite Hr, take_app_length', drop_app_length' by done. done.
  - destruct (rx_end c); done.
  - intros (Hl & Hr & _). rewrite Hr, length_app in Hn. lia.
Qed.

Lemma pof_Val {A} e (o : option A) c c' a : pof e o c = (c', Val a) <-> o = Some a /\ c' = c.
Proof. destruct o; cbn; split; intros Hx; [by injection Hx as <- <-|by destruct Hx as [[= ->] ->]|done|by destruct Hx]. Qed.

Lemma le_val_len4 b : length b = 4%nat -> 0 <= le_val b.
Proof. intros _. apply le_val_range. Qed.

Lemma slice_eqs (l : bytes) : length l = 24%nat -> l = slice 0 4 l ++ slice 4 16 l ++ slice 16 20 l ++ slice 20 24 l.
Proof.
  intros Hl. do 24 (destruct l as [|? l]; [discriminate Hl|]). destruct l; [reflexivity|discriminate Hl].
Qed.

Lemma slices (a b d e : bytes) : length a = 4%nat -> length b = 12%nat -> length d = 4%nat -> length e = 4%nat ->
  let h := a ++ b ++ d ++ e in slice 0 4 h = a /\ slice 4 16 h = b /\ slice 16 20 h = d /\ slice 20 24 h = e /\ length h = 24%nat.
Proof.
  intros Ha Hb Hd He h. unfold slice, h. cbn. rewrite drop_0. split_and!.
  - by rewrite take_app_length'.
  - rewrite drop_app_length' by done. by rewrite take_app_length'.
  - rewrite app_assoc, drop_app_length' by (rewrite length_app; lia). by rewrite take_app_length'.
  - rewrite !app_assoc, drop_app_length' by (rewrite !length_app; lia). by rewrite take_ge by lia.
  - rewrite !length_app. lia.
Qed.

Lemma read_message_Val c c' m :
  length magic = 4%nat -> read_message magic c = (c', Val m) <-> exists f, framed f m /\ rx c = f ++ rx c' /\ c' = set_rx (rx c') c.
Proof.
  intros Hmagic. unfold read_message. rewrite pbind_Val. setoid_rewrite read_exact_Val. split.
  - intros (c1 & h & (Hh & Hr1 & E1) & Hm). case_bool_decide as Emagic; [done|].
    apply pbind_Val in Hm as (c2 & command & [Hc ->]%pof_Val & Hm). case_bool_decide as Elen; [done|].
    apply pbind_Val in Hm as (c3 & payload & (Hp & Hr3 & E3)%read_exact_Val & Hm). case_bool_decide as Esum; [done|].
    apply pof_Val in Hm as [Hm ->]. set (raw := slice 4 16 h) in *.
    assert (Hl : length (slice 16 20 h) = 4%nat) by (unfold slice; rewrite length_take, length_drop, Hh; cbn; lia).
    assert (Hz : Z.of_nat (length payload) = le_val (slice 16 20 h)) by (pose proof (le_val_range (slice 16 20 h)); lia).
    exists (frame raw payload). split_and!.
    + econstructor; [unfold raw, slice; rewrite length_take, length_drop, Hh; cbn; lia|done|lia|done].
    + rewrite Hr1, Hr3. unfold frame. rewrite Hz. replace 4%nat with (length (slice 16 20 h)) at 1 by done. rewrite le_bytes_val, Esum, <- Emagic.
      rewrite (slice_eqs h Hh) at 1. fold raw. by rewrite <- !app_assoc.
    + rewrite E3, E1. done.
  - intros (f & Hf & Hr & E). destruct Hf as [raw command payload m Hraw Hc Hlen Hm].
    assert (Hs4 : length (take 4 (sha256d payload)) = 4%nat) by (rewrite length_take, sha256d_length; done).
    destruct (slices magic raw (le_bytes 4 (Z.of_nat (length payload))) (take 4 (sha256d payload))) as (S1 & S2 & S3 & S4 & Sl); [done|done|apply length_le_bytes|done|].
    set (h := magic ++ raw ++ le_bytes 4 (Z.of_nat (length payload)) ++ take 4 (sha256d payload)) in *.
    assert (Hv : le_val (le_bytes 4 (Z.of_nat (length payload))) = Z.of_nat (length payload)).
    { apply le_val_bytes. unfold MAX_PAYLOAD_LEN in Hlen. cbn. lia. }
    assert (Hrx : rx c = h ++ payload ++ rx c') by (rewrite Hr; unfold frame, h; by rewrite <- !app_assoc).
    exists (set_rx (payload ++ rx c') c), h. split; [done|].
    rewrite S1, bool_decide_eq_false_2 by (intros Hx; by apply Hx). apply pbind_Val. exists (set_rx (payload ++ rx c') c), command.
    rewrite pof_Val, S2. split; [done|]. rewrite S3, Hv, bool_decide_eq_false_2 by lia. apply pbind_Val. exists c', payload.
    rewrite read_exact_Val, Nat2Z.id. split; [split_and!; [done|done|by rewrite E]|]. rewrite S4, bool_decide_eq_false_2 by (intros Hx; by apply Hx). by apply pof_Val.
Qed.

(** ** The automaton *)

(** What a message is answered with, and the state after it. *)
Definition reply (s : State) (m : Message) : option (list NetworkMessage * State) :=
  match m, s with
  | Version v, AwaitingVersion => if relay v && bool_decide (Z.land (services v) WITNESS = WITNESS) then Some ([SVerack], AwaitingVerack) else None
  | Verack, AwaitingVerack => Some ([SInv [InvTransaction (compute_txid tx)]], AwaitingGetData)
  | GetData inv, AwaitingGetData =>
      if bool_decide (InvTransaction (compute_txid tx) ∈ inv) || bool_decide (InvWitnessTransaction (compute_txid tx) ∈ inv) then Some ([STx tx], Done) else None
  | Ping n, s => Some ([SPong n], s)
  | Pong _, s | Other _, s => Some ([], s)
  | _, _ => None
  end.

Definition send_all (out : list NetworkMessage) (c : Conn) : Conn := mkConn (rx c) (rx_end c) (tx_left c - length out) (tx_end c) (sent c ++ out).

(** A message is refused without a word, or answered as [reply] says. *)
Lemma handle_reply s m c :
  match reply s m with
  | None => exists e, handle tx s m c = (c, Fail (Protocol e))
  | Some (out, s') => (length out <= 1)%nat /\
      handle tx s m c = if bool_decide (length out <= tx_left c)%nat then (send_all out c, Val s') else (c, ended (tx_end c))
  end.
Proof.
  assert (Hw : forall msg (s0 : State), (write_message msg;; pret s0)%p2p c =
    if bool_decide (length [msg] <= tx_left c)%nat then (send_all [msg] c, Val s0) else (c, ended (tx_end c))).
  { intros msg s0. unfold pbind, write_message, pret, send_all. cbn. destruct (tx_left c) as [|n] eqn:En.
    - rewrite bool_decide_eq_false_2 by lia. by destruct (tx_end c).
    - rewrite bool_decide_eq_true_2 by lia. cbn. by rewrite Nat.sub_0_r. }
  assert (Hn : forall s0 : State, pret s0 c = if bool_decide (length (@nil NetworkMessage) <= tx_left c)%nat then (send_all [] c, Val s0) else (c, ended (tx_end c))).
  { intros s0. rewrite bool_decide_eq_true_2 by (cbn; lia). unfold pret, send_all. cbn. rewrite Nat.sub_0_r, app_nil_r. by destruct c. }
  destruct m as [v| |inv|n|n|cmd]; cbn [handle reply]; [| | |split; [cbn; lia|apply Hw]|split; [cbn; lia|apply Hn]..].
  - destruct s; [|by exists OutOfOrder..]. rewrite decide_False by (intros Hx; by apply Hx). destruct (relay v); cbn; [|by exists NoRelay]. destruct (decide (Z.land (services v) WITNESS = WITNESS)) as [E|E].
    + rewrite (bool_decide_eq_true_2 (_ = _)), (bool_decide_eq_false_2 (_ <> _)) by (done || (intros Hx; by apply Hx)). split; [cbn; lia|]. apply Hw.
    + rewrite (bool_decide_eq_false_2 (_ = _)), (bool_decide_eq_true_2 (_ <> _)) by done. by exists NoSegwit.
  - destruct s; [by exists OutOfOrder| |by exists OutOfOrder..]. rewrite decide_False by (intros Hx; by apply Hx). split; [cbn; lia|]. apply Hw.
  - destruct s; [by exists OutOfOrder..| |by exists OutOfOrder]. rewrite decide_False by (intros Hx; by apply Hx).
    destruct (bool_decide _ || bool_decide _); cbn; [|by exists NotRequested]. split; [cbn; lia|]. apply Hw.
Qed.

Lemma handle_Val s m c c' s' :
  handle tx s m c = (c', Val s') <-> exists out, reply s m = Some (out, s') /\ (length out <= tx_left c)%nat /\ c' = send_all out c.
Proof.
  pose proof (handle_reply s m c) as Hr. destruct (reply s m) as [[out s1]|]; [|destruct Hr as [e ->]; naive_solver].
  destruct Hr as [_ ->]. case_bool_decide; [|destruct (tx_end c); naive_solver]. split; [intros [= <- <-]; eauto|naive_solver].
Qed.

(** ** Conversations *)

(** The messages [ms], answered with [out], lead from [s] to the first time the
    exchange is done. *)
Inductive converses : State -> list Message -> list NetworkMessage -> Prop :=
| converses_done : converses Done [] []
| converses_step s m out s' ms out' : s <> Done -> reply s m = Some (out, s') -> converses s' ms out' -> converses s (m :: ms) (out ++ out').

Inductive frames : bytes -> list Message -> Prop :=
| frames_nil : frames [] []
| frames_cons f m b ms : framed f m -> frames b ms -> frames (f ++ b) (m :: ms).

Lemma framed_length f m : framed f m -> (length magic = 4)%nat -> (24 <= length f)%nat.
Proof.
  intros [raw command payload m' Hraw _ _ _] Hm. unfold frame. rewrite !length_app, Hraw, Hm, length_le_bytes, length_take, sha256d_length. lia.
Qed.

Hypothesis magic_length : length magic = 4%nat.

Lemma frames_length b ms : frames b ms -> (length ms <= length b)%nat.
Proof. induction 1 as [|f m b ms Hf _ IH]; [done|]. apply framed_length in Hf; [|done]. cbn. rewrite length_app. lia. Qed.

Lemma send_all_app out out' c : send_all out' (send_all out c) = send_all (out ++ out') c.
Proof. unfold send_all. cbn. f_equal; [rewrite length_app; lia|by rewrite app_assoc]. Qed.

Lemma send_all_nil c : send_all [] c = c.
Proof. unfold send_all. destruct c. cbn. by rewrite Nat.sub_0_r, app_nil_r. Qed.

Lemma loop_sound fuel s c c' s' :
  exchange_loop magic tx fuel s c = (c', Val s') ->
  exists b ms out, s' = Done /\ rx c = b ++ rx c' /\ frames b ms /\ converses s ms out /\ (length out <= tx_left c)%nat /\ c' = set_rx (rx c') (send_all out c).
Proof.
  revert s c. induction fuel as [|fuel IH]; intros s c; cbn [exchange_loop]; case_decide as Hd.
  1,3: intros [= <- <-]; subst; exists [], [], []; split_and!; [done|done|constructor|constructor|cbn; lia|rewrite send_all_nil; by destruct c].
  - done.
  - intros (c1 & m & (f & Hf & Hr1 & E1)%read_message_Val & Hh)%pbind_Val; [|done]. apply pbind_Val in Hh as (c2 & s2 & (out & Hrep & Hout & E2)%handle_Val & Hl).
    destruct (IH _ _ Hl) as (b & ms & out' & -> & Hr & Hfs & Hc & Hlen & E). exists (f ++ b), (m :: ms), (out ++ out').
    rewrite E2, E1 in Hr, Hlen, E. cbn in Hr, Hlen, E. rewrite E1 in Hout. cbn in Hout. split_and!; [done| |by constructor|by econstructor|rewrite length_app; lia|].
    + by rewrite Hr1, Hr, app_assoc.
    + rewrite E. rewrite <- send_all_app. unfold set_rx, send_all. done.
Qed.

Lemma loop_complete ms out s b rest c fuel :
  converses s ms out -> frames b ms -> rx c = b ++ rest -> (length out <= tx_left c)%nat -> (length ms <= fuel)%nat ->
  exchange_loop magic tx fuel s c = (set_rx rest (send_all out c), Val Done).
Proof.
  intros Hc. revert b c fuel. induction Hc as [|s m out s' ms out' Hs Hrep _ IH]; intros b c fuel Hf Hr Ho Hfuel.
  - inversion Hf; subst. rewrite send_all_nil. assert (Ec : set_rx rest c = c) by (destruct c; cbn in *; by subst). rewrite Ec. by destruct fuel.
  - inversion Hf as [|f m' b' ms' Hfr Hfs]; subst. destruct fuel as [|fuel]; [cbn in Hfuel; lia|]. cbn [exchange_loop]. rewrite decide_False by done.
    rewrite length_app in Ho. apply pbind_Val. exists (set_rx (b' ++ rest) c), m. split.
    { apply read_message_Val; [done|]. exists f. split_and!; [done|by rewrite Hr, <- app_assoc|done]. }
    apply pbind_Val. exists (send_all out (set_rx (b' ++ rest) c)), s'. split; [apply handle_Val; exists out; split_and!; [done|cbn; lia|done]|].
    rewrite (IH b'); [|done|done|cbn; lia|cbn in Hfuel; lia]. f_equal. by rewrite <- send_all_app.
Qed.

(** ** The transaction is sent once, and only if asked for *)

Definition is_tx (m : NetworkMessage) : Prop := match m with STx _ => True | _ => False end.
#[global] Instance is_tx_dec m : Decision (is_tx m).
Proof. destruct m; apply _. Defined.
Definition txs (ms : list NetworkMessage) : list NetworkMessage := filter is_tx ms.

Lemma txs_app l l' : txs (l ++ l') = txs l ++ txs l'.
Proof. apply filter_app. Qed.

Lemma reply_txs s m out s' : reply s m = Some (out, s') -> txs out = if decide (s <> Done /\ s' = Done) then [STx tx] else [].
Proof.
  intros Hr. destruct m, s; cbn in Hr; try done; repeat case_match; simplify_eq; try done.
Qed.

Lemma converses_txs s ms out : converses s ms out -> txs out = if decide (s = Done) then [] else [STx tx].
Proof.
  induction 1 as [|s m out s' ms out' Hs Hr Hc IH]; [done|]. rewrite txs_app, IH, (reply_txs _ _ _ _ Hr). rewrite (decide_False (P := s = Done)) by done.
  repeat case_decide; naive_solver.
Qed.

(** A computation that writes no transaction. *)
Definition quietly (c c' : Conn) : Prop :=
  exists out, sent c' = sent c ++ out /\ txs out = [] /\ rx_end c' = rx_end c /\ tx_end c' = tx_end c.

Lemma quietly_refl c : quietly c c.
Proof. exists []. by rewrite app_nil_r. Qed.

Lemma quietly_trans c1 c2 c3 : quietly c1 c2 -> quietly c2 c3 -> quietly c1 c3.
Proof.
  intros (o1 & E1 & T1 & R1 & X1) (o2 & E2 & T2 & R2 & X2). exists (o1 ++ o2). rewrite E2, E1, app_assoc, txs_app, T1, T2. split_and!; congruence || done.
Qed.

(** Reading sends nothing, does not time out by itself and waits only for a peer
    that stalls. *)
Definition reads {A} (m : P2pM A) : Prop := forall c,
  quietly c (m c).1 /\ ((m c).2 = Waits -> rx_end c = Stalls) /\ (m c).2 <> Fail Timeout /\ (length (rx (m c).1) <= length (rx c))%nat.

Lemma reads_pure {A} (a : A) : reads (pret a).
Proof. intros c. cbn. split_and!; [apply quietly_refl|done..]. Qed.

Lemma reads_err {A} e : e <> Timeout -> reads (A := A) (perr e).
Proof. intros He c. cbn. split_and!; [apply quietly_refl|done|congruence|done]. Qed.

Lemma reads_of {A} e (o : option A) : reads (pof e o).
Proof. destruct o; [apply reads_pure|by apply reads_err]. Qed.

Lemma reads_bind {A B} (m : P2pM A) (f : A -> P2pM B) : reads m -> (forall a, reads (f a)) -> reads (pbind m f).
Proof.
  intros Hm Hf c. unfold pbind. destruct (Hm c) as (Hq & Hw & Ht & Hl). destruct (m c) as [c1 [a|e|]]; cbn in *; [|split_and!; [done|done|congruence|done]|split_and!; [done|auto|done|done]].
  destruct (Hf a c1) as (Hq1 & Hw1 & Ht1 & Hl1). split_and!; [by eapply quietly_trans| |done|lia].
  intros Hx. destruct Hq as (? & _ & _ & <- & _). auto.
Qed.

Lemma reads_exact n : reads (read_exact n).
Proof.
  intros c. unfold read_exact. case_bool_decide; cbn; (split_and!; [exists []; by rewrite app_nil_r|..]); [done|done|rewrite length_drop; lia|..|lia];
    by destruct (rx_end c).
Qed.

Lemma reads_message : reads (read_message magic).
Proof.
  apply reads_bind; [apply reads_exact|]. intros h. case_bool_decide; [by apply reads_err|]. apply reads_bind; [apply reads_of|]. intros cmd.
  cbv zeta. case_bool_decide; [by apply reads_err|]. apply reads_bind; [apply reads_exact|]. intros pl. case_bool_decide; [by apply reads_err|apply reads_of].
Qed.

Lemma send_all_quietly out c : txs out = [] -> quietly c (send_all out c).
Proof. intros Ho. by exists out. Qed.

(** Unless it ends well the loop sends no transaction, and it waits only for a
    peer that stalls. *)
Lemma loop_frame fuel s c : (length (rx c) < fuel)%nat -> let r := exchange_loop magic tx fuel s c in
  match r.2 with Val _ => True | Fail e => quietly c r.1 | Waits => quietly c r.1 /\ (rx_end c = Stalls \/ tx_end c = Stalls) end /\ r.2 <> Fail Timeout.
Proof.
  revert s c. induction fuel as [|fuel IH]; intros s c Hfuel; [lia|]. cbn [exchange_loop]. case_decide as Hs; [done|].
  destruct (reads_message c) as (Hq & Hw & Ht & _). destruct (read_message magic c) as [c1 o] eqn:Er. rewrite (pbind_eq _ _ _ _ _ Er).
  destruct o as [m|e|]; cbn [fst snd] in *; [|split; [done|congruence]|by auto].
  apply read_message_Val in Er as (f & Hf & Hrx & _); [|done]. apply framed_length in Hf; [|done]. apply (f_equal length) in Hrx. rewrite length_app in Hrx.
  pose proof (handle_reply s m c1) as Hr. destruct (reply s m) as [[out s']|] eqn:Erep; [|by destruct Hr as [e Hr]; rewrite (pbind_eq _ _ _ _ _ Hr)].
  destruct Hr as [_ Hr]. rewrite (surjective_pairing (if bool_decide _ then _ else _)) in Hr. rewrite (pbind_eq _ _ _ _ _ Hr). clear Hr.
  assert (Hend : rx_end c1 = rx_end c /\ tx_end c1 = tx_end c) by (destruct Hq as (? & _ & _ & ? & ?); done). destruct Hend as [Hre Hte].
  case_bool_decide as Ho; cbn [fst snd]; [|rewrite Hte; by destruct (tx_end c); cbn; auto]. specialize (IH s' (send_all out c1)). cbn [rx send_all] in IH.
  destruct IH as [IH Ht2]; [lia|]. split; [|done]. apply reply_txs in Erep. destruct (decide (s' = Done)) as [->|Hs'].
  { destruct fuel; cbn in *; done. }
  rewrite decide_False in Erep by naive_solver. assert (Hq2 : quietly c (send_all out c1)) by (eapply quietly_trans; [done|by apply send_all_quietly]).
  destruct (exchange_loop _ _ _ _ _) as [c3 [a|e|]]; cbn in *; [done|by eapply quietly_trans|]. destruct IH as [Hq3 Hst]. split; [by eapply quietly_trans|].
  by rewrite <- Hre, <- Hte.
Qed.

Lemma await_frame fuel nonce c : quietly c (await_loop magic tx fuel nonce Done c).1.
Proof.
  revert c. induction fuel as [|fuel IH]; intros c; [apply quietly_refl|]. cbn [await_loop].
  assert (Hgo : forall m c1, quietly c c1 -> quietly c ((state <- handle tx Done m;; await_loop magic tx fuel nonce state)%p2p c1).1).
  { intros m c1 Hq. pose proof (handle_reply Done m c1) as Hr. unfold pbind. destruct (reply Done m) as [[out s']|] eqn:Erep; [|by destruct Hr as [e ->]].
    assert (s' = Done) as -> by (destruct m; cbn in Erep; congruence). destruct Hr as [_ ->]. apply reply_txs in Erep. rewrite decide_False in Erep by naive_solver.
    case_bool_decide; [|by destruct (tx_end c1)]. eapply quietly_trans; [exact Hq|]. eapply quietly_trans; [by apply send_all_quietly|apply IH]. }
  destruct (reads_message c) as (Hq & _). destruct (read_message magic c) as [c1 o] eqn:Er. rewrite (pbind_eq _ _ _ _ _ Er).
  destruct o as [m|e|]; cbn in Hq; [|done..].
  destruct m as [| | | |n|]; try by apply Hgo. case_bool_decide; [done|by apply (Hgo (Pong n))].
Qed.

(** ** The shape of a conversation *)

Definition small_talk (m : Message) : Prop := match m with Ping _ | Pong _ | Other _ => True | _ => False end.
Definition pongs (ms : list Message) : list NetworkMessage := ms ≫= fun m => match m with Ping n => [SPong n] | _ => [] end.

Definition asks_for (inv : list Inventory) : Prop := InvTransaction (compute_txid tx) ∈ inv \/ InvWitnessTransaction (compute_txid tx) ∈ inv.
Definition accepts_txs (v : VersionMessage) : Prop := relay v = true /\ Z.land (services v) WITNESS = WITNESS.

#[global] Instance small_talk_dec m : Decision (small_talk m).
Proof. destruct m; apply _. Defined.

Lemma reply_small_talk s m : small_talk m -> reply s m = Some (pongs [m], s).
Proof. by destruct m. Qed.

Lemma pongs_app l l' : pongs (l ++ l') = pongs l ++ pongs l'.
Proof. apply bind_app. Qed.

Lemma converses_small_talk s q ms out : s <> Done -> Forall small_talk q -> converses s ms out -> converses s (q ++ ms) (pongs q ++ out).
Proof.
  intros Hs Hq Hc. induction Hq as [|m q Hm _ IH]; [done|]. change (pongs (m :: q)) with (pongs ([m] ++ q)). rewrite pongs_app, <- app_assoc.
  econstructor; [done|by apply reply_small_talk|exact IH].
Qed.

Lemma converses_split s ms out :
  converses s ms out -> s <> Done ->
  exists q m rest o s' out', ms = q ++ m :: rest /\ Forall small_talk q /\ ~ small_talk m /\ reply s m = Some (o, s') /\ converses s' rest out' /\ out = pongs q ++ o ++ out'.
Proof.
  induction 1 as [|s m out s' ms out' Hs Hr Hc IH]; [done|]. intros _.
  destruct (decide (small_talk m)) as [Hm|Hm].
  - rewrite (reply_small_talk s m Hm) in Hr. injection Hr as <- <-. destruct (IH Hs) as (q & m' & rest & o & s' & out'' & -> & Hq & Hm' & Hr & Hc' & ->).
    exists (m :: q), m', rest, o, s', out''. split_and!; [done|by constructor|done|done|done|]. unfold pongs at 2. cbn. by rewrite app_nil_r, <- app_assoc.
  - exists [], m, ms, out, s', out'. by split_and!.
Qed.

Lemma converses_iff ms out : converses AwaitingVersion ms out <-> exists q1 v q2 q3 inv,
  ms = q1 ++ Version v :: q2 ++ Verack :: q3 ++ [GetData inv] /\ Forall small_talk q1 /\ Forall small_talk q2 /\ Forall small_talk q3 /\ accepts_txs v /\ asks_for inv /\
  out = pongs q1 ++ [SVerack] ++ pongs q2 ++ [SInv [InvTransaction (compute_txid tx)]] ++ pongs q3 ++ [STx tx].
Proof.
  split.
  - intros Hc. apply converses_split in Hc as (q1 & m1 & r1 & o1 & s1 & out1 & -> & Hq1 & Hm1 & Hr1 & Hc & ->); [|done].
    destruct m1 as [v| | | | |]; cbn in Hr1; try done. destruct (relay v && _) eqn:Ev; [|done]. injection Hr1 as <- <-.
    apply andb_true_iff in Ev as [Erelay Eserv%bool_decide_eq_true].
    apply converses_split in Hc as (q2 & m2 & r2 & o2 & s2 & out2 & -> & Hq2 & Hm2 & Hr2 & Hc & ->); [|done].
    destruct m2; cbn in Hr2; try done. injection Hr2 as <- <-.
    apply converses_split in Hc as (q3 & m3 & r3 & o3 & s3 & out3 & -> & Hq3 & Hm3 & Hr3 & Hc & ->); [|done].
    destruct m3 as [| |inv| | |]; cbn in Hr3; try done. destruct (bool_decide _ || _) eqn:Ei; [|done]. injection Hr3 as <- <-.
    inversion Hc; subst; [|done]. exists q1, v, q2, q3, inv. split_and!; try done.
    apply orb_true_iff in Ei as [?%bool_decide_eq_true|?%bool_decide_eq_true]; [by left|by right].
  - intros (q1 & v & q2 & q3 & inv & -> & Hq1 & Hq2 & Hq3 & [Hv1 Hv2] & Hi & ->).
    apply converses_small_talk; [done|done|]. eapply (converses_step _ _ [SVerack]); [done|cbn; by rewrite Hv1, bool_decide_eq_true_2|].
    apply converses_small_talk; [done|done|]. eapply (converses_step _ _ [SInv _]); [done|done|].
    apply converses_small_talk; [done|done|]. eapply (converses_step _ _ [STx tx] Done [] []); [done| |constructor]. cbn.
    destruct Hi as [Hi|Hi]; [by rewrite (bool_decide_eq_true_2 (InvTransaction _ ∈ _))|]. rewrite (bool_decide_eq_true_2 (InvWitnessTransaction _ ∈ _)) by done. by rewrite orb_true_r.
Qed.

End Proofs.

(** C31. A transaction is sent exactly when the node asks for it: [send_tx] succeeds
    if and only if the node's messages are, among pings, pongs and others that are
    ignored, a version that relays transactions and knows segwit, a verack and a
    getdata with the transaction (and the answers can be written). If it succeeds
    the transaction was sent once, otherwise not at all, and it times out only
    when the peer stalls. *)
Theorem send_tx_iff `{BitcoinLaws, P2pLib} magic tx c block_height nonce :
  length magic = 4%nat -> sent c = [] ->
  let r := send_tx magic tx (Connected c) block_height nonce in
  (r.2 = inl tt <-> exists b rest q1 v q2 q3 inv,
    rx c = b ++ rest /\ frames magic b (q1 ++ Version v :: q2 ++ Verack :: q3 ++ [GetData inv]) /\
    Forall small_talk (q1 ++ q2 ++ q3) /\ accepts_txs v /\ asks_for tx inv /\ (4 + length (pongs (q1 ++ q2 ++ q3)) <= tx_left c)%nat) /\
  txs r.1 = match r.2 with inl _ => [STx tx] | inr _ => [] end /\
  (r.2 = inr Timeout -> rx_end c = Stalls \/ tx_end c = Stalls).
Proof.
  intros Hm Hsent. cbn [send_tx]. unfold exchange. destruct (tx_left c) as [|left] eqn:Eleft.
  { unfold pbind, write_message. rewrite Eleft. destruct (tx_end c) eqn:Ee; cbn; rewrite Hsent; (split_and!; [split; [done|intros (?&?&?&?&?&?&?&?&?&?&?&?&?); lia]|done|auto]). done. }
  set (c1 := mkConn (rx c) (rx_end c) left (tx_end c) [SVersion block_height]).
  assert (E : write_message (SVersion block_height) c = (c1, Val tt)) by (unfold write_message; by rewrite Eleft, Hsent).
  rewrite (pbind_eq _ _ _ _ _ E). change (rx c) with (rx c1). set (fuel := S (length (rx c1))).
  pose proof (loop_frame magic tx Hm fuel AwaitingVersion c1 ltac:(unfold fuel; lia)) as [Hframe Htime].
  assert (Hiff : (exists c2 s, exchange_loop magic tx fuel AwaitingVersion c1 = (c2, Val s)) <-> exists b rest q1 v q2 q3 inv,
    rx c = b ++ rest /\ frames magic b (q1 ++ Version v :: q2 ++ Verack :: q3 ++ [GetData inv]) /\
    Forall small_talk (q1 ++ q2 ++ q3) /\ accepts_txs v /\ asks_for tx inv /\ (4 + length (pongs (q1 ++ q2 ++ q3)) <= S left)%nat).
  { split.
    - intros (c2 & s & Hl). apply loop_sound in Hl as (b & ms & out & -> & Hr & Hf & Hc & Ho & _); [|done].
      apply converses_iff in Hc as (q1 & v & q2 & q3 & inv & -> & Hq1 & Hq2 & Hq3 & Hv & Hi & ->). exists b, (rx c2), q1, v, q2, q3, inv.
      split_and!; [done|done|by rewrite !Forall_app|done|done|]. rewrite !pongs_app, !length_app in *. cbn in Ho |- *. lia.
    - intros (b & rest & q1 & v & q2 & q3 & inv & Hr & Hf & Hq & Hv & Hi & Ho). rewrite !Forall_app in Hq. destruct Hq as (Hq1 & Hq2 & Hq3).
      rewrite !pongs_app, !length_app in Ho. eexists _, _. eapply (loop_complete magic tx Hm _ _ _ b rest); [apply converses_iff; by exists q1, v, q2, q3, inv|done|done| |].
      + rewrite !length_app. cbn. lia.
      + apply (frames_length magic) in Hf; [|done]. apply (f_equal length) in Hr. rewrite length_app in Hr. unfold fuel. cbn. lia. }
  destruct (exchange_loop magic tx fuel AwaitingVersion c1) as [c2 [s|e|]] eqn:El; cbn [fst snd] in *.
  - split_and!; [split; [intros _; apply Hiff; eauto|done]| |done].
    apply loop_sound in El as (b & ms & out & -> & _ & _ & Hc & _ & E2); [|done]. apply converses_txs in Hc. rewrite decide_False in Hc by done.
    assert (Hq : quietly c2 (await_processed magic tx nonce Done c2).1).
    { unfold await_processed, pbind, write_message. destruct (tx_left c2) as [|n]; [destruct (tx_end c2); apply quietly_refl|].
      eapply quietly_trans; [|by apply await_frame]. by exists [SPing nonce]. }
    destruct Hq as (o & -> & Ho & _). rewrite E2. cbn [set_rx send_all sent c1]. rewrite !txs_app, Hc, Ho. done.
  - split_and!; [split; [done|]|..].
    + intros Hx. apply Hiff in Hx as (? & ? & ?). done.
    + destruct Hframe as (o & -> & Ho & _). change (txs ([SVersion block_height] ++ o) = []). by rewrite txs_app, Ho.
    + intros [= ->]. done.
  - destruct Hframe as [Hq Hst]. split_and!; [split; [done|]|..|done].
    + intros Hx. apply Hiff in Hx as (? & ? & ?). done.
    + destruct Hq as (o & -> & Ho & _). change (txs ([SVersion block_height] ++ o) = []). by rewrite txs_app, Ho.
Qed.

(** A broadcast address that does not answer hides the ones after it: when the
    first address that a host resolves to swallows the connection attempt, the
    broadcast ends as if a node already had the transaction, and no other address
    is tried, not even one that takes the transaction at once. *)
Theorem connect_timeout_hides_reachable `{Bitcoin, P2pLib} magic tx connects block_height nonce :
  broadcast_nonstandard_tx magic tx (Some (ConnectTimeout :: connects)) block_height nonce = Ok false /\
  forall c, (send_tx magic tx c block_height nonce).2 = inl tt ->
    broadcast_nonstandard_tx magic tx (Some [ConnectFails; c]) block_height nonce = Ok true /\
    broadcast_nonstandard_tx magic tx (Some [ConnectTimeout; c]) block_height nonce = Ok false.
Proof.
  split; [done|]. intros c Hc. split; [|done]. unfold broadcast_nonstandard_tx, send_to_first_reachable. cbn. by rewrite Hc.
Qed.

(** ** Example: a node that asks for the transaction

    A node sends its version, a message that is ignored, a verack, a ping and a
    getdata, and then nothing more. *)

Module P2pScenario.
Import Runnable.

(** Commands without their padding, a version of two bytes, and an inventory that
    is one transaction id. *)
#[local] Instance p2p_lib : P2pLib := {
  decode_command raw := Some (filter (fun b => b <> x00) raw);
  decode_version p := match p with s :: r :: _ => Some (mkVersionMessage (u8_val s) (bool_decide (r = x01))) | _ => None end;
  decode_inventory p := Some [InvWitnessTransaction p] }.

Definition node_magic : bytes := SIGNET_MAGIC_BYTES.
Definition node_tx : Transaction := mkTransaction 2 0 [] [mkTxOut 1000 [x51]].
Definition padded (command : bytes) : bytes := command ++ replicate (12 - length command) x00.

Definition node_bytes : bytes :=
  frame node_magic (padded VERSION) [x09; x01] ++ frame node_magic (padded [x73; x65; x6e; x64]) [] ++ frame node_magic (padded VERACK) [] ++
  frame node_magic (padded PING) (le_bytes 8 77) ++ frame node_magic (padded GETDATA) (compute_txid node_tx).

Definition node : Conn := mkConn node_bytes Stalls 10 Fails [].

Lemma send_tx_iff_witness :
  (send_tx node_magic node_tx (Connected node) 100 5).2 = inl tt /\
  (exists b rest q1 v q2 q3 inv,
    rx node = b ++ rest /\ frames node_magic b (q1 ++ Version v :: q2 ++ Verack :: q3 ++ [GetData inv]) /\
    Forall small_talk (q1 ++ q2 ++ q3) /\ accepts_txs v /\ asks_for node_tx inv /\ (4 + length (pongs (q1 ++ q2 ++ q3)) <= tx_left node)%nat) /\
  txs (send_tx node_magic node_tx (Connected node) 100 5).1 = [STx node_tx].
Proof.
  assert (E : (send_tx node_magic node_tx (Connected node) 100 5).2 = inl tt) by (vm_compute; reflexivity).
  destruct (send_tx_iff node_magic node_tx node 100 5 eq_refl eq_refl) as (Hiff & Htx & _).
  split; [exact E|]. split; [apply Hiff, E|]. rewrite E in Htx. exact Htx.
Defined.

Lemma connect_timeout_hides_reachable_witness :
  broadcast_nonstandard_tx node_magic node_tx (Some [ConnectFails; Connected node]) 100 5 = Ok true /\
  broadcast_nonstandard_tx node_magic node_tx (Some [ConnectTimeout; Connected node]) 100 5 = Ok false.
Proof. apply (connect_timeout_hides_reachable node_magic node_tx [] 100 5). vm_compute. reflexivity. Defined.

End P2pScenario.
