(* ===== verification/Wallet.v ===== *)
(** * The wallet's transactions

    [lib/wallet/mod.rs] and [lib/rpc_client.rs]: deposits and the order of their
    outputs, BMM requests, broadcasting over RPC and P2P, and what the wallet lists
    of its history. BDK and the node are the arguments: the transaction a builder
    finishes, the answers to a broadcast, which outputs are the wallet's. *)

From Stdlib Require Import Strings.Byte Strings.String.
From stdpp Require Import base numbers list gmap sorting.
From S2P Require Import Prelude OrderMap Bitcoin Types Messages Dbs BlockHashes Treasury Diff Handlers ConnectBlock Enforcer Facade P2p.
Open Scope Z_scope.

(** ** Loading the wallet *)

Definition slip44_coin_type (network : Network) : Z := match network with Mainnet => 0 | _ => 1 end.
Definition LEGACY_COIN_TYPE : Z := 1.
Definition descriptor_coin_type (derivation_coin_type : option Z) (network : Network) : Z :=
  default (slip44_coin_type network) derivation_coin_type.

Section Load.
(** A pair of descriptors, the one of a coin type ([None] if it cannot be derived),
    and what loading a wallet with one gives. *)
Context {Descriptors : Type} (bip84_descriptors : Z -> option Descriptors).

Inductive LoadError := DescriptorMismatch | OtherLoadError.
Context (load_bdk_wallet : Descriptors -> Res LoadError bool) (create_wallet : Descriptors -> bool).

Inductive InitWalletFromMnemonic := DeriveXpriv | CreateWallet | LoadWallet (e : LoadError).

(** [initialize_wallet_from_mnemonic]: the descriptors of the wallet, and whether
    it was created. *)
Definition initialize_wallet_from_mnemonic (coin_type : Z) : Res InitWalletFromMnemonic (Descriptors * bool) :=
  descs ← ok_or DeriveXpriv (bip84_descriptors coin_type);
  match load_bdk_wallet descs with
  | Ok true => Ok (descs, false)
  | Ok false => if create_wallet descs then Ok (descs, true) else Err CreateWallet
  | Err DescriptorMismatch =>
      if bool_decide (coin_type <> LEGACY_COIN_TYPE) then
        legacy ← ok_or DeriveXpriv (bip84_descriptors LEGACY_COIN_TYPE);
        match load_bdk_wallet legacy with
        | Ok true => Ok (legacy, false)
        | _ => Err (LoadWallet DescriptorMismatch)
        end
      else Err (LoadWallet DescriptorMismatch)
  | Err e => Err (LoadWallet e)
  | Panic => Panic
  end.
End Load.

Inductive WalletStatus := Uninitialized | Locked | Unlocked.
Definition status (loaded seed_is_encrypted : bool) : WalletStatus :=
  if loaded then Unlocked else if seed_is_encrypted then Locked else Uninitialized.

(** ** The order of a deposit's outputs *)

Inductive TxOutKind := KOpDrivechain (n : SidechainNumber) | KOpReturnAddress (n : SidechainNumber) | KOther.

(** [Ord] of byte strings *)
Fixpoint bytes_cmp (a b : bytes) : comparison :=
  match a, b with
  | [], [] => Eq
  | [], _ => Lt
  | _, [] => Gt
  | x :: a, y :: b => match u8_val x ?= u8_val y with Eq => bytes_cmp a b | c => c end
  end.

Section Deposit.
Context `{Bitcoin, Nom}.

Definition classify_txout (op_drivechain : byte) (sidechain_addrs : gmap bytes SidechainNumber) (txout : TxOut) : TxOutKind :=
  match op_drivechain_parse op_drivechain (script_pubkey txout) with
  | Some (_, n) => KOpDrivechain n
  | None => match try_parse_op_return_address (script_pubkey txout) ≫= fun a => sidechain_addrs !! a with
            | Some n => KOpReturnAddress n
            | None => KOther
            end
  end.

(** [hmac]: the keyed hash of an output. *)
Definition output_sort (hmac : TxOut -> bytes) (op_drivechain : byte) (sidechain_addrs : gmap bytes SidechainNumber) (l r : TxOut) : comparison :=
  match classify_txout op_drivechain sidechain_addrs l, classify_txout op_drivechain sidechain_addrs r with
  | KOpDrivechain _, KOther | KOpReturnAddress _, KOther => Lt
  | KOther, KOpDrivechain _ | KOther, KOpReturnAddress _ => Gt
  | KOpDrivechain a, KOpDrivechain b | KOpReturnAddress a, KOpReturnAddress b => u8_val a ?= u8_val b
  | KOpDrivechain a, KOpReturnAddress b => match u8_val a ?= u8_val b with Eq => Lt | c => c end
  | KOpReturnAddress a, KOpDrivechain b => match u8_val a ?= u8_val b with Eq => Gt | c => c end
  | KOther, KOther => bytes_cmp (hmac l) (hmac r)
  end.

(** ** Building transactions *)

(** What a [bdk_wallet::TxBuilder] is told. *)
Inductive TxOrdering := Shuffle | Untouched | Custom (input_sort : TxIn -> TxIn -> comparison) (output_sort : TxOut -> TxOut -> comparison).
Inductive FeePolicy := Absolute (fee : Amount) | Rate (rate : Z).
Record TxBuilder := mkTxBuilder {
  tb_recipients : list TxOut; tb_ordering : TxOrdering; tb_nlocktime : option Z; tb_exact_sequence : option Z; tb_fee : option FeePolicy;
  tb_utxos : list OutPoint; tb_manually_selected_only : bool; tb_foreign_utxos : list OutPoint; tb_drain_to : option bytes; tb_drain_wallet : bool }.

Definition build_tx : TxBuilder := mkTxBuilder [] Shuffle None None None [] false [] None false.
Definition add_recipient (o : TxOut) (b : TxBuilder) : TxBuilder :=
  mkTxBuilder (tb_recipients b ++ [o]) (tb_ordering b) (tb_nlocktime b) (tb_exact_sequence b) (tb_fee b) (tb_utxos b) (tb_manually_selected_only b)
    (tb_foreign_utxos b) (tb_drain_to b) (tb_drain_wallet b).
Definition add_data (data : bytes) : TxBuilder -> TxBuilder := add_recipient (mkTxOut 0 (new_op_return data)).
Definition ordering (o : TxOrdering) (b : TxBuilder) : TxBuilder :=
  mkTxBuilder (tb_recipients b) o (tb_nlocktime b) (tb_exact_sequence b) (tb_fee b) (tb_utxos b) (tb_manually_selected_only b)
    (tb_foreign_utxos b) (tb_drain_to b) (tb_drain_wallet b).
Definition nlocktime (t : Z) (b : TxBuilder) : TxBuilder :=
  mkTxBuilder (tb_recipients b) (tb_ordering b) (Some t) (tb_exact_sequence b) (tb_fee b) (tb_utxos b) (tb_manually_selected_only b)
    (tb_foreign_utxos b) (tb_drain_to b) (tb_drain_wallet b).
Definition set_exact_sequence (q : Z) (b : TxBuilder) : TxBuilder :=
  mkTxBuilder (tb_recipients b) (tb_ordering b) (tb_nlocktime b) (Some q) (tb_fee b) (tb_utxos b) (tb_manually_selected_only b)
    (tb_foreign_utxos b) (tb_drain_to b) (tb_drain_wallet b).
Definition fee_policy (f : FeePolicy) (b : TxBuilder) : TxBuilder :=
  mkTxBuilder (tb_recipients b) (tb_ordering b) (tb_nlocktime b) (tb_exact_sequence b) (Some f) (tb_utxos b) (tb_manually_selected_only b)
    (tb_foreign_utxos b) (tb_drain_to b) (tb_drain_wallet b).
Definition add_utxos_only (l : list OutPoint) (b : TxBuilder) : TxBuilder :=
  mkTxBuilder (tb_recipients b) (tb_ordering b) (tb_nlocktime b) (tb_exact_sequence b) (tb_fee b) (tb_utxos b ++ l) true
    (tb_foreign_utxos b) (tb_drain_to b) (tb_drain_wallet b).
Definition add_foreign_utxo (o : OutPoint) (b : TxBuilder) : TxBuilder :=
  mkTxBuilder (tb_recipients b) (tb_ordering b) (tb_nlocktime b) (tb_exact_sequence b) (tb_fee b) (tb_utxos b) (tb_manually_selected_only b)
    (tb_foreign_utxos b ++ [o]) (tb_drain_to b) (tb_drain_wallet b).
Definition drain_wallet_to (script : bytes) (b : TxBuilder) : TxBuilder :=
  mkTxBuilder (tb_recipients b) (tb_ordering b) (tb_nlocktime b) (tb_exact_sequence b) (tb_fee b) (tb_utxos b) (tb_manually_selected_only b)
    (tb_foreign_utxos b) (Some script) true.

(** The unlocked wallet, as far as BDK answers: a builder's transaction, signing
    (with whether the transaction is complete), extracting under the limit on the
    fee rate, and applying a transaction (with whether it changed anything). *)
Record BdkWallet := mkBdkWallet {
  knows_utxo : OutPoint -> bool;
  foreign_utxo_ok : OutPoint -> Transaction -> bool;
  finish : TxBuilder -> option Transaction;
  sign_with_signers : Transaction -> option (bool * Transaction);
  fee_rate_ok : Transaction -> bool;
  extract_tx_unchecked_fee_rate : Transaction -> Transaction;
  is_mine : bytes -> bool;
  apply_unconfirmed_tx : Transaction -> option bool }.

Definition ENABLE_RBF_NO_LOCKTIME : Z := 4294967293.
Definition LOCK_TIME_THRESHOLD : Z := 500000000.
Definition apply_replay_protection {E} (replay_protection_lock_time : option Z) (b : TxBuilder) : Res E TxBuilder :=
  match replay_protection_lock_time with
  | Some t => if bool_decide (t < LOCK_TIME_THRESHOLD) then Ok (set_exact_sequence ENABLE_RBF_NO_LOCKTIME (nlocktime t b)) else Panic
  | None => Ok b
  end.

Inductive WalletSignTransaction := WST_NotUnlocked | SignerError | UnableToSign | ExtractTx.
Definition sign_transaction_inner (wallet : option BdkWallet) (psbt : Transaction) (skip_fee_rate_check : bool) : Res WalletSignTransaction Transaction :=
  w ← ok_or WST_NotUnlocked wallet;
  '(signed, psbt) ← ok_or SignerError (sign_with_signers w psbt);
  if negb signed then Err UnableToSign else
  if skip_fee_rate_check || fee_rate_ok w psbt then Ok (extract_tx_unchecked_fee_rate w psbt) else Err ExtractTx.
Definition sign_transaction (wallet : option BdkWallet) (psbt : Transaction) := sign_transaction_inner wallet psbt false.
Definition sign_bmm_request_transaction (wallet : option BdkWallet) (psbt : Transaction) := sign_transaction_inner wallet psbt true.

Inductive CreateDepositPsbt := ParseSidechainNumber | CDP_FetchTransaction | CDP_NotUnlocked | AddForeignUtxo | CDP_CreateTx.

(** [hmac_in], [hmac_out]: the keyed hashes of an input and of an output. *)
Definition deposit_txordering (hmac_in : TxIn -> bytes) (hmac_out : TxOut -> bytes) (op_drivechain : byte) (sidechain_addrs : gmap bytes SidechainNumber) : TxOrdering :=
  Custom (fun l r => bytes_cmp (hmac_in l) (hmac_in r)) (output_sort hmac_out op_drivechain sidechain_addrs).

Context (hmac_in : TxIn -> bytes) (hmac_out : TxOut -> bytes) (fetch_transaction : Txid -> option Transaction).

Definition create_deposit_psbt (wallet : option BdkWallet) (params : NetworkParams) (op_drivechain_output : TxOut) (sidechain_address_data : bytes)
    (sidechain_ctip : option Ctip) (fee : option Amount) : Res CreateDepositPsbt Transaction :=
  '(_, n) ← ok_or ParseSidechainNumber (op_drivechain_parse (op_drivechain params) (script_pubkey op_drivechain_output));
  ctip_foreign_utxo ← match sidechain_ctip with
                      | Some c => t ← ok_or CDP_FetchTransaction (fetch_transaction (op_txid (ctip_outpoint c))); Ok (Some (t, ctip_outpoint c))
                      | None => Ok None
                      end;
  w ← ok_or CDP_NotUnlocked wallet;
  builder ← apply_replay_protection (replay_protection_lock_time params) build_tx;
  let builder := add_data sidechain_address_data (add_recipient op_drivechain_output builder) in
  let builder := match fee with Some fee => fee_policy (Absolute fee) builder | None => builder end in
  builder ← match ctip_foreign_utxo with
            | Some (t, o) => if foreign_utxo_ok w o t then Ok (add_foreign_utxo o builder) else Err AddForeignUtxo
            | None => Ok builder
            end;
  ok_or CDP_CreateTx (finish w (ordering (deposit_txordering hmac_in hmac_out (op_drivechain params) {[sidechain_address_data := n]}) builder)).

(** [CreateTransactionParams] *)
Record CreateTransactionParams := mkCreateTransactionParams {
  fee_policy_ : option FeePolicy; op_return_message : option bytes; required_utxos : list OutPoint; drain_wallet_to_ : option bytes }.
Inductive CreateSendPsbt := ConvertOpReturn | UnknownUTXO (o : OutPoint) | CSP_CreateTx | CSP_NotUnlocked.

(** [destinations]: the scripts of the addresses, in the order in which the hash
    map is iterated. *)
Definition build_send_psbt (w : BdkWallet) (destinations : list (bytes * Amount)) (params : CreateTransactionParams) (replay_protection_lock_time : option Z)
    : Res CreateSendPsbt Transaction :=
  builder ← apply_replay_protection replay_protection_lock_time build_tx;
  builder ← match op_return_message params with
            | Some m => m ← ok_or ConvertOpReturn (push_bytes_try_from m);
                        Ok (add_recipient (mkTxOut 0 (new_op_return m)) (ordering Untouched builder))
            | None => Ok builder
            end;
  let builder := foldl (fun b d => add_recipient (mkTxOut d.2 d.1) b) builder destinations in
  let builder := match drain_wallet_to_ params with Some script => drain_wallet_to script builder | None => builder end in
  builder ← match required_utxos params with
            | [] => Ok builder
            | l => match List.find (fun o => negb (knows_utxo w o)) l with
                   | Some o => Err (UnknownUTXO o)
                   | None => Ok (add_utxos_only l builder)
                   end
            end;
  let builder := match fee_policy_ params with Some f => fee_policy f builder | None => builder end in
  ok_or CSP_CreateTx (finish w builder).

Definition create_send_psbt (wallet : option BdkWallet) (params : NetworkParams) (destinations : list (bytes * Amount)) (ctp : CreateTransactionParams)
    : Res CreateSendPsbt Transaction :=
  w ← ok_or CSP_NotUnlocked wallet; build_send_psbt w destinations ctp (replay_protection_lock_time params).

(** ** Broadcasting *)

(** The answer of [sendrawtransaction]: the id, an error of the call with its code
    and message, or another failure. *)
Inductive SendRawTransaction := Sent (txid : Txid) | CallError (code : Z) (message : bytes) | ClientError.

(** [str::contains] *)
Fixpoint contains (needle s : bytes) : bool :=
  bool_decide (take (length needle) s = needle) || match s with [] => false | _ :: s => contains needle s end.

(** The node: a transaction and the [maxfeerate] are answered. *)
Context (send_raw_transaction : Transaction -> option Z -> SendRawTransaction).

Definition broadcast_transaction_with_tolerance (tx : Transaction) (max_fee_rate : option Z) (tolerate_rejection : Z -> bytes -> bool)
    : Res SendRawTransaction (option Txid) :=
  match send_raw_transaction tx max_fee_rate with
  | Sent txid => Ok (Some txid)
  | CallError code message => if tolerate_rejection code message then Ok None else Err (CallError code message)
  | ClientError => Err ClientError
  end.

Definition OP_DRIVECHAIN_NOT_SUPPORTED_ERR_MSG : bytes :=
  list_byte_of_string "non-mandatory-script-verify-flag (NOPx reserved for soft-fork upgrades)".
Definition OP_DRIVECHAIN_NOT_SUPPORTED_ERR_MSG_V30_0 : bytes :=
  list_byte_of_string "mempool-script-verify-flag-failed (NOPx reserved for soft-fork upgrades)".

Definition broadcast_transaction_with_max_fee_rate (tx : Transaction) (max_fee_rate : option Z) : Res SendRawTransaction (option Txid) :=
  broadcast_transaction_with_tolerance tx max_fee_rate
    (fun _ msg => contains OP_DRIVECHAIN_NOT_SUPPORTED_ERR_MSG msg || contains OP_DRIVECHAIN_NOT_SUPPORTED_ERR_MSG_V30_0 msg).
Definition broadcast_transaction (tx : Transaction) := broadcast_transaction_with_max_fee_rate tx None.
Definition broadcast_transaction_no_fee_limit (tx : Transaction) := broadcast_transaction_with_max_fee_rate tx (Some 0).

Definition BITCOIN_CORE_RPC_TRANSACTION_REJECTED : Z := -26.
Definition broadcast_transaction_tolerate_mempool_rejection (tx : Transaction) : Res SendRawTransaction (option Txid) :=
  broadcast_transaction_with_tolerance tx None (fun code _ => bool_decide (code = BITCOIN_CORE_RPC_TRANSACTION_REJECTED)).

(** [p2p_broadcast_addrs] *)
Definition p2p_broadcast_addrs {A} (signet_miner : A) (network : Network) (magic : bytes) (configured : list A) : list A :=
  match default_p2p_broadcast_addr signet_miner network magic with
  | Some default_addr => if bool_decide (magic = SIGNET_MAGIC_BYTES) then default_addr :: configured else configured
  | None => configured
  end.

(** The results of broadcasting to the peers, in the order in which they come in,
    given the height and the transaction. *)
Context (broadcast_results_stream : Z -> Transaction -> list (Res BroadcastNonstandardTxError bool)).

Inductive CreateDeposit :=
| CD_Db (e : DbError) | ConvertSidechainAddress | CD_Psbt (e : CreateDepositPsbt) | CD_Sign (e : WalletSignTransaction)
| CD_BroadcastTx (e : SendRawTransaction) | CD_BroadcastNonstandardTx (e : BroadcastNonstandardTxError)
| CD_NotUnlocked | CD_ApplyUnconfirmedTx | CD_BroadcastUnsuccessful (txid : Txid).

(** A transaction is applied to the wallet: the operations below return the
    transactions they applied. *)
Definition apply_to_wallet {E} (not_unlocked failed : E) (wallet : option BdkWallet) (tx : Transaction) : Res E (list Transaction) :=
  w ← ok_or not_unlocked wallet; _ ← ok_or failed (apply_unconfirmed_tx w tx); Ok [tx].

(** The transaction of [create_deposit], signed *)
Definition deposit_transaction (wallet : option BdkWallet) (v : Validator) (n : SidechainNumber) (sidechain_address : bytes) (value : Amount) (fee : option Amount)
    : Res CreateDeposit Transaction :=
  let op_drivechain_output := create_m5_deposit_output (op_drivechain (v_network_params v)) n value in
  sidechain_address_data ← ok_or ConvertSidechainAddress (push_bytes_try_from sidechain_address);
  psbt ← map_err CD_Psbt (create_deposit_psbt wallet (v_network_params v) op_drivechain_output sidechain_address_data None fee);
  map_err CD_Sign (sign_transaction wallet psbt).

Definition broadcast_deposit (wallet : option BdkWallet) (block_height : Z) (tx : Transaction) : Res CreateDeposit (Txid * list Transaction) :=
  rpc ← map_err CD_BroadcastTx (broadcast_transaction tx);
  broadcast_successfully ← foldM (fun acc r => b ← map_err CD_BroadcastNonstandardTx r; Ok (acc || b))
                             (broadcast_results_stream block_height tx) (bool_decide (is_Some rpc));
  if broadcast_successfully : bool then applied ← apply_to_wallet CD_NotUnlocked CD_ApplyUnconfirmedTx wallet tx; Ok (compute_txid tx, applied)
  else Err (CD_BroadcastUnsuccessful (compute_txid tx)).

Definition create_deposit (wallet : option BdkWallet) (v : Validator) (n : SidechainNumber) (sidechain_address : bytes) (value : Amount) (fee : option Amount)
    : Res CreateDeposit (Txid * list Transaction) :=
  height ← map_err CD_Db (try_get_block_height v);
  tx ← deposit_transaction wallet v n sidechain_address value fee;
  broadcast_deposit wallet (default 0 height) tx.

Inductive SendWalletTransaction :=
| SWT_Psbt (e : CreateSendPsbt) | SWT_Sign (e : WalletSignTransaction) | SWT_BroadcastTx (e : SendRawTransaction) | OpDrivechainNotSupported
| SWT_NotUnlocked | SWT_ApplyUnconfirmedTx.
Definition send_wallet_transaction (wallet : option BdkWallet) (v : Validator) (destinations : list (bytes * Amount)) (params : CreateTransactionParams)
    : Res SendWalletTransaction (Txid * list Transaction) :=
  psbt ← map_err SWT_Psbt (create_send_psbt wallet (v_network_params v) destinations params);
  tx ← map_err SWT_Sign (sign_transaction wallet psbt);
  rpc ← map_err SWT_BroadcastTx (broadcast_transaction tx);
  _ ← ok_or OpDrivechainNotSupported rpc;
  applied ← apply_to_wallet SWT_NotUnlocked SWT_ApplyUnconfirmedTx wallet tx;
  Ok (compute_txid tx, applied).

(** ** BMM requests *)

Definition build_bmm_psbt (w : BdkWallet) (message : bytes) (bid_amount : Amount) (locktime : Z) : option Transaction :=
  finish w (fee_policy (Absolute bid_amount) (add_data message (nlocktime locktime (ordering Untouched build_tx)))).

Inductive BuildBmmTx := BBT_PushBytes | BBT_NotUnlocked | BBT_CreateTx.
Definition build_bmm_tx (wallet : option BdkWallet) (n : SidechainNumber) (prev_mainchain_block_hash : BlockHash) (sidechain_block_hash : BmmCommitment)
    (bid_amount : Amount) (locktime : Z) : Res BuildBmmTx Transaction :=
  message ← map_err (fun _ => BBT_PushBytes) (m8_data n sidechain_block_hash prev_mainchain_block_hash);
  w ← ok_or BBT_NotUnlocked wallet; ok_or BBT_CreateTx (build_bmm_psbt w message bid_amount locktime).

Inductive CreateBmmRequest :=
| CBR_Build (e : BuildBmmTx) | CBR_Sign (e : WalletSignTransaction) | GetHeaderInfo (e : GetHeaderInfoError)
| CBR_BroadcastNonstandardTx (e : BroadcastNonstandardTxError) | CBR_BroadcastUnsuccessful (txid : Txid) | BroadcastTxRpc (e : SendRawTransaction).

Definition create_bmm_request (wallet : option BdkWallet) (v : Validator) (n : SidechainNumber) (prev_mainchain_block_hash : BlockHash)
    (sidechain_block_hash : BmmCommitment) (bid_amount : Amount) (locktime : Z) : Res CreateBmmRequest Transaction :=
  psbt ← map_err CBR_Build (build_bmm_tx wallet n prev_mainchain_block_hash sidechain_block_hash bid_amount locktime);
  tx ← map_err CBR_Sign (sign_bmm_request_transaction wallet psbt);
  info ← map_err GetHeaderInfo (get_header_info (block_hashes (v_dbs v)) prev_mainchain_block_hash);
  broadcast_successfully ← foldM (fun acc r => b ← map_err CBR_BroadcastNonstandardTx r; Ok (Some (match acc with Some a => a || b | None => b end)))
                             (broadcast_results_stream (hi_height info) tx) None;
  match broadcast_successfully with
  | Some false => Err (CBR_BroadcastUnsuccessful (compute_txid tx))
  | Some true | None => _ ← map_err BroadcastTxRpc (broadcast_transaction_no_fee_limit tx); Ok tx
  end.

(** A transaction of the wallet, with its position in the chain: the block and the
    time of its confirmation and the transaction that confirms it transitively, or
    when it was last seen. *)
Record ConfirmationBlockTime := mkConfirmationBlockTime { anchor_height : Z; anchor_hash : BlockHash; confirmation_time : Z }.
Inductive ChainPosition := Confirmed (anchor : ConfirmationBlockTime) (transitively : option Txid) | Unconfirmed (last_seen : option Z).
Record WalletTx := mkWalletTx { wt_txid : Txid; wt_tx : Transaction; chain_position : ChainPosition }.

Definition is_confirmed (p : ChainPosition) : bool := match p with Confirmed _ _ => true | Unconfirmed _ => false end.

Definition is_stale_bmm_request (mainchain_tip : BlockHash) (t : WalletTx) : bool :=
  negb (is_confirmed (chain_position t)) &&
  match parse_m8_tx (wt_tx t) with
  | Some m8 => bool_decide (m8_prev_mainchain_block_hash m8 <> mainchain_tip)
  | None => false
  end.

Definition evict_stale_bmm_requests (txs : list WalletTx) (mainchain_tip : BlockHash) : list Txid :=
  wt_txid <$> List.filter (is_stale_bmm_request mainchain_tip) txs.

(** ** The history *)

(** A transaction as it is listed. *)
Record BDKWalletTransaction := mkBDKWalletTransaction {
  bt_txid : Txid; bt_tx : Transaction; bt_chain_position : ChainPosition; bt_fee : Amount; bt_received : Amount; bt_sent : Amount }.

Inductive ListWalletTransactions := LWT_FetchTransaction (txid : Txid) | LWT_NotUnlocked.

(** The value of the outputs and what of it is the wallet's *)
Definition output_values {E} (mine : bytes -> bool) (outs : list TxOut) : Res E (Amount * Amount) :=
  foldM (fun acc o => output_value ← amount_add acc.1 (value o);
                      received ← (if mine (script_pubkey o) then amount_add acc.2 (value o) else Ok acc.2);
                      Ok (output_value, received)) outs (0, 0).

(** The outputs that the inputs spend and their value, from the node's
    [getrawtransaction], which is fetched and decoded: a transaction that cannot be
    decoded counts as one that cannot be fetched. *)
Definition spent_outputs (get_raw_transaction : Txid -> option Transaction) (ins : list TxIn) : Res ListWalletTransactions (Amount * list TxOut) :=
  foldM (fun acc i =>
    let o := previous_output i in
    if decide (op_txid o = all_zeros) then Ok acc else
    prev ← ok_or (LWT_FetchTransaction (op_txid o)) (get_raw_transaction (op_txid o));
    prev_txout ← unwrap (output prev !! Z.to_nat (op_vout o));
    input_value ← amount_add acc.1 (value prev_txout);
    Ok (input_value, acc.2 ++ [prev_txout])) ins (0, []).

Definition wallet_transaction (mine : bytes -> bool) (get_raw_transaction : Txid -> option Transaction) (t : WalletTx)
    : Res ListWalletTransactions BDKWalletTransaction :=
  '(output_value, received) ← output_values mine (output (wt_tx t));
  '(input_value, prev_txouts) ← spent_outputs get_raw_transaction (input (wt_tx t));
  sent ← amount_sum (value <$> List.filter (fun o => mine (script_pubkey o)) prev_txouts);
  let fee := default 0 (checked_sub input_value output_value) in
  '(final_received, final_sent) ← (if bool_decide (sent <= received) then Ok (received - sent, 0)
                                   else s ← unwrap (checked_sub (sent - received) fee); Ok (0, s));
  Ok (mkBDKWalletTransaction (wt_txid t) (wt_tx t) (chain_position t) fee final_received final_sent).

(** [wallet_transaction_sort_key] *)
Definition wallet_transaction_sort_key (tx : BDKWalletTransaction) : option Z * Txid :=
  (match bt_chain_position tx with Confirmed anchor _ => Some (confirmation_time anchor) | Unconfirmed last_seen => last_seen end, bt_txid tx).

(** [Ord] of the keys, [None] first *)
Definition key_le (a b : option Z * Txid) : Prop :=
  match a.1, b.1 with
  | None, Some _ => True
  | Some _, None => False
  | Some x, Some y => x < y \/ x = y /\ bytes_cmp a.2 b.2 <> Gt
  | None, None => bytes_cmp a.2 b.2 <> Gt
  end.
#[global] Instance key_le_dec a b : Decision (key_le a b).
Proof. destruct a as [[x|] t], b as [[y|] u]; cbn; apply _. Defined.

(** [txs.sort_by_key(wallet_transaction_sort_key)] *)
Definition sort_transactions (txs : list BDKWalletTransaction) : list BDKWalletTransaction :=
  merge_sort (fun a b => key_le (wallet_transaction_sort_key a) (wallet_transaction_sort_key b)) txs.

(** [transactions]: those of the unlocked wallet *)
Definition list_wallet_transactions (wallet : option BdkWallet) (transactions : list WalletTx) (get_raw_transaction : Txid -> option Transaction)
    : Res ListWalletTransactions (list BDKWalletTransaction) :=
  w ← ok_or LWT_NotUnlocked wallet;
  txs ← foldM (fun acc t => b ← wallet_transaction (is_mine w) get_raw_transaction t; Ok (acc ++ [b])) transactions [];
  Ok (sort_transactions txs).

Record SidechainDepositTransaction := mkSidechainDepositTransaction { sd_sidechain_number : SidechainNumber; sd_deposit_amount : Amount; sd_destination_address : bytes; sd_wallet_tx : BDKWalletTransaction }.

(** The CTIP that a transaction with this treasury output spent; [Err None] if the
    transaction is not listed. *)
Definition spent_ctip (v : Validator) (tx : Transaction) (n : SidechainNumber) (treasury_outpoint : OutPoint) : Res (option DbError) (option Ctip) :=
  match try_get_ctip_value_seq v treasury_outpoint with
  | Some (_, _, seq) =>
      match checked_sub seq 1 with
      | Some prev_seq => u ← map_err Some (get_treasury_utxo v n prev_seq); Ok (Some (mkCtip (tu_outpoint u) (tu_total_value u)))
      | None => Ok None
      end
  | None =>
      match try_get_ctip v n with
      | Some c => if existsb (fun i => bool_decide (previous_output i = ctip_outpoint c)) (input tx) then Ok (Some c) else Err None
      | None => Ok None
      end
  end.

(** The closure of [list_sidechain_deposit_transactions] *)
Definition sidechain_deposit (v : Validator) (t : BDKWalletTransaction) : Res DbError (option SidechainDepositTransaction) :=
  match output (bt_tx t) with
  | [] => Ok None
  | treasury_output :: rest =>
      match op_drivechain_parse (op_drivechain (v_network_params v)) (script_pubkey treasury_output) with
      | None => Ok None
      | Some (_, n) =>
          match spent_ctip v (bt_tx t) n (mkOutPoint (bt_txid t) 0) with
          | Err None => Ok None
          | Err (Some e) => Err e
          | Panic => Panic
          | Ok spent =>
              match checked_sub (value treasury_output) (match spent with Some c => ctip_value c | None => 0 end), head rest with
              | Some deposit_amount, Some address_output =>
                  Ok ((fun a => mkSidechainDepositTransaction n deposit_amount a t) <$> try_parse_op_return_address (script_pubkey address_output))
              | _, _ => Ok None
              end
          end
      end
  end.

Definition list_sidechain_deposit_transactions (v : Validator) (txs : list BDKWalletTransaction) : Res DbError (list SidechainDepositTransaction) :=
  foldM (fun acc t => d ← sidechain_deposit v t; Ok (acc ++ match d with Some d => [d] | None => [] end)) txs [].

(** [is_sidechain_active] *)
Definition is_sidechain_active (v : Validator) (n : SidechainNumber) : Res DbError bool :=
  sidechains ← get_active_sidechains v; Ok (existsb (fun sc => bool_decide (sp_sidechain_number (sc_proposal sc) = n)) sidechains).

End Deposit.
