(* ===== verification/WalletProofs.v ===== *)
(** * The wallet's transactions: theorems *)

From Stdlib Require Import Strings.Byte Strings.String.
From stdpp Require Import base numbers list gmap sorting.
From S2P Require Import Prelude OrderMap Bitcoin Types Messages M6 Dbs BlockHashes Treasury Diff Handlers HandlerProofs ConnectBlock BlockRules TreasurySafety Enforcer Facade SuffixProofs P2p Wallet.
Open Scope Z_scope.

(** ** The comparison of outputs *)

Lemma bytes_cmp_refl a : bytes_cmp a a = Eq.
Proof. induction a as [|x a IH]; cbn; [done|]. by rewrite Z.compare_refl. Qed.

Lemma bytes_cmp_antisym a b : bytes_cmp b a = CompOpp (bytes_cmp a b).
Proof.
  revert b. induction a as [|x a IH]; intros [|y b]; cbn; try done. rewrite (Z.compare_antisym (u8_val x)). destruct (u8_val x ?= u8_val y); cbn; auto.
Qed.

Lemma bytes_cmp_Eq a b : bytes_cmp a b = Eq -> a = b.
Proof.
  revert b. induction a as [|x a IH]; intros [|y b]; cbn; try done. destruct (u8_val x ?= u8_val y) eqn:E; try done.
  apply Z.compare_eq in E. intros Hb%IH. f_equal; [|done]. by apply u8_val_inj.
Qed.

Lemma bytes_cmp_Lt_trans a b c : bytes_cmp a b = Lt -> bytes_cmp b c = Lt -> bytes_cmp a c = Lt.
Proof.
  revert b c. induction a as [|x a IH]; intros [|y b] [|z c]; cbn; try done.
  destruct (Z.compare_spec (u8_val x) (u8_val y)) as [E1|E1|E1]; try done; destruct (Z.compare_spec (u8_val y) (u8_val z)) as [E2|E2|E2]; try done; intros Hab Hbc.
  - rewrite (proj2 (Z.compare_eq_iff _ _)) by lia. by eapply IH.
  - rewrite (proj2 (Z.compare_lt_iff _ _)) by lia. done.
  - rewrite (proj2 (Z.compare_lt_iff _ _)) by lia. done.
  - rewrite (proj2 (Z.compare_lt_iff _ _)) by lia. done.
Qed.

Lemma bytes_cmp_le_trans a b c : bytes_cmp a b <> Gt -> bytes_cmp b c <> Gt -> bytes_cmp a c <> Gt.
Proof.
  intros Hab Hbc. destruct (bytes_cmp a b) eqn:E1; [apply bytes_cmp_Eq in E1 as ->; done| |done].
  destruct (bytes_cmp b c) eqn:E2; [apply bytes_cmp_Eq in E2 as <-; congruence| |done]. by rewrite (bytes_cmp_Lt_trans a b c).
Qed.

(** The key of an output: the treasury outputs and addresses by their slot, a
    treasury output before its address, and the rest by their hash. *)
Definition kind_key (hmac : bytes) (k : TxOutKind) : bytes :=
  match k with KOpDrivechain n => [x00; n; x00] | KOpReturnAddress n => [x00; n; x01] | KOther => x01 :: hmac end.

(** ** What BDK and the script reader promise *)

(** The outputs of a finished transaction, from what the builder was given. *)
Definition arranged (o : TxOrdering) (given outs : list TxOut) : Prop :=
  match o with
  | Shuffle => outs ≡ₚ given
  | Untouched => outs = given
  | Custom _ output_sort => outs ≡ₚ given /\ StronglySorted (fun l r => output_sort l r <> Gt) outs
  end.

(** BIP84 change: [OP_0 OP_PUSHBYTES_20 <hash>] *)
Definition p2wpkh (script : bytes) : Prop := exists h, length h = 20%nat /\ script = x00 :: x14 :: h.

(** Signing and extracting keep what a transaction spends, pays and locks. *)
Definition same_body (tx tx' : Transaction) : Prop :=
  output tx' = output tx /\ previous_output <$> input tx' = previous_output <$> input tx /\
  lock_time tx' = lock_time tx /\ sequence <$> input tx' = sequence <$> input tx.

Class BdkLaws (w : BdkWallet) := {
  finish_outputs b tx : finish w b = Some tx ->
    exists change, arranged (tb_ordering b) (tb_recipients b ++ change) (output tx) /\
      Forall (fun o => p2wpkh (script_pubkey o) \/ tb_drain_to b = Some (script_pubkey o)) change;
  finish_inputs b tx : finish w b = Some tx ->
    Forall (fun i => knows_utxo w (previous_output i) = true \/ previous_output i ∈ tb_foreign_utxos b) (input tx);
  finish_locktime b tx t : finish w b = Some tx -> tb_nlocktime b = Some t -> lock_time tx = t;
  finish_sequence b tx q : finish w b = Some tx -> tb_exact_sequence b = Some q -> Forall (fun i => sequence i = q) (input tx);
  sign_same psbt signed tx : sign_with_signers w psbt = Some (signed, tx) -> same_body psbt tx;
  extract_same tx : same_body tx (extract_tx_unchecked_fee_rate w tx) }.

(** A script that reads as [OP_RETURN ...] starts with that byte, as the scripts
    that [new_op_return] makes do. *)
Class ReturnLaws `{Bitcoin} := {
  instructions_return s : head (instructions s) = Some (Some (Op OP_RETURN)) -> head s = Some OP_RETURN;
  new_op_return_head d : head (new_op_return d) = Some OP_RETURN }.

Section Wallet.
Context `{Bitcoin, !BitcoinLaws, !ReturnLaws, Nom, !NomLaws}.

Lemma output_sort_key hmac op addrs l r :
  output_sort hmac op addrs l r = bytes_cmp (kind_key (hmac l) (classify_txout op addrs l)) (kind_key (hmac r) (classify_txout op addrs r)).
Proof.
  clear. unfold output_sort. destruct (classify_txout op addrs l) as [a|a|], (classify_txout op addrs r) as [b|b|]; cbn; try done; by destruct (u8_val a ?= u8_val b).
Qed.

(** ** The outputs of a deposit *)

Lemma drivechain_script_bytes op n : op_drivechain_script op n = [op; x01; n; OP_TRUE].
Proof. unfold op_drivechain_script. by rewrite !push_opcode_app, push_slice_short by (cbn; lia). Qed.

Lemma parse_head op s x : op_drivechain_parse op s = Some x -> head s = Some op.
Proof. destruct x as [r m]. intros [_ ->]%op_drivechain_parse_Some. by rewrite drivechain_script_bytes. Qed.

Lemma address_head s a : try_parse_op_return_address s = Some a -> head s = Some OP_RETURN.
Proof.
  unfold try_parse_op_return_address. intros Ha. apply instructions_return. repeat case_match; simplify_eq. done.
Qed.

(** A script with neither first byte is an ordinary output. *)
Lemma kind_other op addrs o : head (script_pubkey o) <> Some op -> head (script_pubkey o) <> Some OP_RETURN -> classify_txout op addrs o = KOther.
Proof.
  intros Hop Hret. unfold classify_txout. destruct (op_drivechain_parse _ _) as [[]|] eqn:E; [by apply parse_head in E|].
  destruct (try_parse_op_return_address _) eqn:E2; [by apply address_head in E2|done].
Qed.

Section Built.
Context (hmac : TxOut -> bytes) (op : byte) (n : SidechainNumber) (v : Amount) (address : bytes) (change : list TxOut) (outs : list TxOut).
Hypothesis op_not_return : op <> OP_RETURN.
Hypothesis address_ok : push_bytes_try_from address = Some address.

Abbreviation kind := (classify_txout op {[address := n]}).
Abbreviation treasury := (create_m5_deposit_output op n v).
Abbreviation address_output := (mkTxOut 0 (new_op_return address)).

Lemma address_parses : try_parse_op_return_address (new_op_return address) = Some address.
Proof. unfold try_parse_op_return_address. by rewrite instructions_new_op_return, decide_True by done. Qed.

Lemma address_no_treasury : op_drivechain_parse op (new_op_return address) = None.
Proof.
  destruct (op_drivechain_parse op (new_op_return address)) eqn:E; [|done]. apply parse_head in E. rewrite new_op_return_head in E. congruence.
Qed.

Lemma kind_treasury : kind treasury = KOpDrivechain n.
Proof. unfold classify_txout. cbn. by rewrite op_drivechain_parse_script. Qed.

Lemma kind_address : kind address_output = KOpReturnAddress n.
Proof. unfold classify_txout. cbn. rewrite address_no_treasury, address_parses. cbn. by rewrite lookup_singleton_eq. Qed.

Hypothesis change_other : Forall (fun o => kind o = KOther) change.

(** The head of a sorted list is not above any element. *)
Lemma sorted_head cmp (x y : TxOut) l : StronglySorted (fun l r => cmp l r <> Gt) (x :: l) -> y ∈ x :: l -> y <> x -> cmp x y <> Gt.
Proof. intros Hs [->|Hy]%elem_of_cons Hne; [done|]. apply StronglySorted_inv in Hs as [_ Hs]. rewrite Forall_forall in Hs. by apply Hs. Qed.

(** The treasury output comes first and its address second. *)
Lemma deposit_outputs :
  outs ≡ₚ treasury :: address_output :: change -> StronglySorted (fun l r => output_sort hmac op {[address := n]} l r <> Gt) outs ->
  exists rest, outs = treasury :: address_output :: rest /\ rest ≡ₚ change.
Proof.
  intros Hp Hs. set (cmp := output_sort _ _ _) in Hs.
  assert (Hcmp : forall a b, cmp a b = bytes_cmp (kind_key (hmac a) (kind a)) (kind_key (hmac b) (kind b))) by (intros; apply output_sort_key).
  rewrite Forall_forall in change_other.
  destruct outs as [|x l]; [by apply Permutation_nil_cons in Hp|].
  assert (x = treasury) as ->.
  { assert (Hx : x ∈ treasury :: address_output :: change) by (rewrite <- Hp; by left).
    assert (Ht : treasury ∈ x :: l) by (rewrite Hp; by left). destruct (decide (treasury = x)) as [|Hne]; [done|].
    pose proof (sorted_head cmp _ _ _ Hs Ht Hne) as Hle. rewrite Hcmp, kind_treasury in Hle.
    apply elem_of_cons in Hx as [->|[->|Hx]%elem_of_cons]; [done| |].
    - rewrite kind_address in Hle. cbn in Hle. by rewrite Z.compare_refl in Hle.
    - by rewrite (change_other x Hx) in Hle. }
  apply Permutation_cons_inv in Hp. apply StronglySorted_inv in Hs as [Hs _].
  destruct l as [|y l]; [by apply Permutation_nil_cons in Hp|].
  assert (y = address_output) as ->.
  { assert (Hy : y ∈ address_output :: change) by (rewrite <- Hp; by left).
    assert (Ht : address_output ∈ y :: l) by (rewrite Hp; by left). destruct (decide (address_output = y)) as [|Hne]; [done|].
    pose proof (sorted_head cmp _ _ _ Hs Ht Hne) as Hle. rewrite Hcmp, kind_address in Hle.
    apply elem_of_cons in Hy as [->|Hy]; [done|]. by rewrite (change_other y Hy) in Hle. }
  apply Permutation_cons_inv in Hp. by exists l.
Qed.

End Built.

(** ** Deposits *)

Lemma same_body_trans a b c : same_body a b -> same_body b c -> same_body a c.
Proof. intros (?&?&?&?) (?&?&?&?). split_and!; congruence. Qed.

Lemma signed_same w `{!BdkLaws w} psbt skip tx : sign_transaction_inner (Some w) psbt skip = Ok tx -> same_body psbt tx.
Proof.
  unfold sign_transaction_inner. intros Hs. cbn in Hs. destruct (sign_with_signers w psbt) as [[signed psbt']|] eqn:E; [|done]. cbn in Hs.
  repeat case_match; simplify_eq. eapply same_body_trans; [by eapply sign_same|apply extract_same].
Qed.

Lemma fmap_Forall {A B} (P : B -> Prop) (f : A -> B) l l' : f <$> l' = f <$> l -> Forall (fun x => P (f x)) l -> Forall (fun x => P (f x)) l'.
Proof. intros E Hl. change (Forall (P ∘ f) l'). rewrite <- Forall_fmap, E. by apply Forall_fmap. Qed.

(** The opcodes of the networks: neither [OP_RETURN] nor a data push. *)
Definition op_ok (op : byte) : Prop := op <> OP_RETURN /\ op <> x00.

Lemma p2wpkh_other op addrs o : op_ok op -> p2wpkh (script_pubkey o) -> classify_txout op addrs o = KOther.
Proof. intros [Hr Hz] (h & _ & E). apply kind_other; rewrite E; cbn; [congruence|done]. Qed.

(** What the wallet makes for a deposit: the treasury output, its address and
    ordinary change, from coins of the wallet. *)
Record deposit_shape (w : BdkWallet) (op : byte) (n : SidechainNumber) (v : Amount) (address : bytes) (tx : Transaction) : Prop := {
  ds_outputs : exists change, output tx = create_m5_deposit_output op n v :: mkTxOut 0 (new_op_return address) :: change /\
                 Forall (fun o => p2wpkh (script_pubkey o)) change;
  ds_inputs : Forall (fun i => knows_utxo w (previous_output i) = true) (input tx) }.

Context (hmac_in : TxIn -> bytes) (hmac_out : TxOut -> bytes) (fetch : Txid -> option Transaction).

Lemma psbt_shape w `{!BdkLaws w} params n v address fee psbt :
  op_ok (op_drivechain params) -> push_bytes_try_from address = Some address ->
  create_deposit_psbt hmac_in hmac_out fetch (Some w) params (create_m5_deposit_output (op_drivechain params) n v) address None fee = Ok psbt ->
  deposit_shape w (op_drivechain params) n v address psbt.
Proof.
  intros Hop Ha. unfold create_deposit_psbt. cbn [script_pubkey create_m5_deposit_output]. rewrite op_drivechain_parse_script. cbn.
  intros Hp. apply bind_Ok in Hp as (b & Hb & Hp). apply ok_or_Ok in Hp.
  assert (Hb' : tb_recipients b = [] /\ tb_foreign_utxos b = [] /\ tb_drain_to b = None).
  { unfold apply_replay_protection in Hb. repeat case_match; simplify_eq; done. }
  destruct Hb' as (Hr & Hf & Hd). pose proof (finish_inputs _ _ Hp) as Hi. apply finish_outputs in Hp as (change & Ho & Hc).
  assert (Hrec : tb_recipients (match fee with Some fee => fee_policy (Absolute fee) (add_data address (add_recipient (create_m5_deposit_output (op_drivechain params) n v) b))
      | None => add_data address (add_recipient (create_m5_deposit_output (op_drivechain params) n v) b) end)
      = [create_m5_deposit_output (op_drivechain params) n v; mkTxOut 0 (new_op_return address)]) by (destruct fee; cbn; by rewrite Hr).
  cbn [tb_ordering ordering tb_recipients tb_drain_to arranged deposit_txordering] in *. rewrite Hrec in Ho. destruct Ho as [Hp Hs].
  assert (Hcw : Forall (fun o => p2wpkh (script_pubkey o)) change).
  { eapply Forall_impl; [exact Hc|]. cbn. intros o [|E]; [done|]. destruct fee; cbn in E; congruence. }
  destruct (deposit_outputs hmac_out (op_drivechain params) n v address change (output psbt)) as (rest & E & Hrest); [apply Hop|done| |done|done|].
  - eapply Forall_impl; [exact Hcw|]. intros o. by apply p2wpkh_other.
  - split; [exists rest; split; [done|by rewrite Hrest]|]. eapply Forall_impl; [exact Hi|]. cbn. intros i [|Hin]; [done|].
    destruct fee; cbn in Hin; rewrite Hf in Hin; by apply elem_of_nil in Hin.
Qed.

Lemma deposit_transaction_shape w `{!BdkLaws w} v n address val fee tx :
  op_ok (op_drivechain (v_network_params v)) ->
  deposit_transaction hmac_in hmac_out fetch (Some w) v n address val fee = Ok tx ->
  push_bytes_try_from address = Some address /\ deposit_shape w (op_drivechain (v_network_params v)) n val address tx.
Proof.
  intros Hop Hd. unfold deposit_transaction in Hd. apply bind_Ok in Hd as (a & Ha%ok_or_Ok & Hd).
  assert (a = address /\ push_bytes_try_from address = Some address) as [-> Ha'].
  { destruct (decide (Z.of_nat (length address) < 2 ^ 32)) as [Hl|Hl].
    - rewrite push_bytes_small in * by done. split; congruence.
    - rewrite push_bytes_large in Ha by lia. done. }
  apply bind_Ok in Hd as (psbt & Hp%map_err_Ok & Hs%map_err_Ok). apply psbt_shape in Hp as [(change & Ho & Hc) Hi]; [|done|done|done].
  apply signed_same in Hs as (Eo & Ei & _ & _); [|done]. split; [done|]. split; [by exists change; rewrite Eo|].
  by eapply (fmap_Forall (fun o => knows_utxo w o = true) previous_output).
Qed.

Lemma foldM_skip {E A S} (f : S -> A -> Res E S) l s : (forall a, a ∈ l -> f s a = Ok s) -> foldM f l s = Ok s.
Proof.
  induction l as [|a l IH]; intros Hf; cbn; [done|]. rewrite Hf by (by left). cbn. apply IH. intros b Hb. apply Hf. by right.
Qed.

Section Accepted.
Context (w : BdkWallet) (bh : BlockHandler) (s : Dbs) (u : UnconsolidatedCtips) (n : SidechainNumber) (v : Amount) (address : bytes) (tx : Transaction).
Hypothesis opcode : op_ok (op_drivechain (bh_params bh)).
Hypothesis address_ok : push_bytes_try_from address = Some address.
Hypothesis shape : deposit_shape w (op_drivechain (bh_params bh)) n v address tx.
Hypothesis active : is_Some (sidechain (active_sidechains s) !! n).
Hypothesis no_treasury_coins : forall o, knows_utxo w o = true -> ctip_outpoint_to_value_seq (active_sidechains s) !! o = None /\ by_outpoint u !! o = None.

Definition deposit_ctip : Ctip := mkCtip (mkOutPoint (compute_txid tx) 0) v.

Lemma fill_treasury txid res k o r : op_drivechain_parse (op_drivechain (bh_params bh)) (script_pubkey o) = Some (r, n) ->
  fill_ctip_output bh s txid res (k, o) =
  match res !! n with
  | Some _ => Err (MultipleOpDrivechainOutputs n)
  | None => Ok (<[n := mkTxCtipsInfo None ∅ (mkCtip (mkOutPoint txid (as_u32 k)) (value o))]> res)
  end.
Proof. intros E. unfold fill_ctip_output. rewrite E. by rewrite (proj2 (contains_key_true _ _)) by done. Qed.

Lemma fill_skip txid res k o : op_drivechain_parse (op_drivechain (bh_params bh)) (script_pubkey o) = None -> fill_ctip_output bh s txid res (k, o) = Ok res.
Proof. intros E. unfold fill_ctip_output. by rewrite E. Qed.

Lemma deposit_fill : fill_ctips bh s u tx = Ok {[n := mkTxCtipsInfo None ∅ deposit_ctip]}.
Proof.
  destruct shape as [(change & Ho & Hc) Hi]. unfold fill_ctips. rewrite Ho. unfold enumerate. cbn [length seq zip zip_with foldM].
  rewrite (fill_treasury _ _ _ _ []), lookup_empty by (cbn; apply op_drivechain_parse_script). cbn [mbind Res_bind value create_m5_deposit_output].
  rewrite fill_skip by (cbn; apply address_no_treasury, opcode). cbn [mbind Res_bind]. rewrite foldM_skip.
  - cbn [mbind Res_bind]. apply foldM_skip. intros i Hin. rewrite Forall_forall in Hi. apply Hi, no_treasury_coins in Hin as [E1 E2].
    unfold fill_ctip_input. by rewrite E1, E2.
  - intros [k o] Hin. apply elem_of_zip_r in Hin. rewrite Forall_forall in Hc. apply Hc in Hin as (h & _ & E). apply fill_skip.
    destruct (op_drivechain_parse _ _) as [x|] eqn:Ep; [|done]. apply parse_head in Ep. rewrite E in Ep. cbn in Ep. destruct opcode. congruence.
Qed.

Lemma deposit_not_m8 : parse_m8_tx tx = None.
Proof.
  destruct shape as [(change & Ho & _) _]. unfold parse_m8_tx. rewrite Ho. cbn. rewrite drivechain_script_bytes. unfold m8_parse.
  rewrite nom_tag_eq, decide_False; [done|]. cbn. intros [= E].
Qed.

Definition deposit_event : Deposit := mkDeposit (default 0 (treasury_utxo_count (active_sidechains s) !! n)) (mkOutPoint (compute_txid tx) 0) address v.

Lemma deposit_handled parent acc : 0 < v ->
  handle_transaction bh s acc u parent tx =
  Ok (Some (Deposits {[n := deposit_event]}, D_M5 (mkM5Diff (if contains_key (ctip (active_sidechains s)) n then ∅ else {[n := deposit_ctip]}))),
      if contains_key (ctip (active_sidechains s)) n then uc_insert n deposit_ctip u else u).
Proof.
  intros Hv. unfold handle_transaction, handle_m5_m6. rewrite deposit_fill. cbn [mbind Res_bind]. rewrite map_to_list_singleton. cbn [foldM].
  unfold handle_m5_m6_slot, classify_slot. cbn [fst snd consolidated_ctip_input unconsolidated_ctip_inputs ctip_output]. rewrite elements_empty.
  cbn [fmap list_fmap]. change (amount_sum []) with (Ok 0 : Res HandleM5M6 Amount). cbn [mbind Res_bind]. change (amount_add 0 0) with (Ok 0 : Res HandleM5M6 Amount).
  cbn [mbind Res_bind ctip_value deposit_ctip]. rewrite (proj2 (Z.compare_gt_iff _ _)) by lia.
  unfold handle_deposit. cbn [ctip_output deposit_ctip ctip_value ctip_outpoint op_vout]. rewrite (bool_decide_eq_true_2 (0 < v)) by lia.
  destruct shape as [(change & Ho & _) _]. rewrite Ho. change (S (Z.to_nat 0)) with 1%nat. cbn [lookup list_lookup ok_or mbind Res_bind script_pubkey]. rewrite address_parses by done.
  cbn [ok_or mbind Res_bind consolidated_ctip_input]. rewrite Z.sub_0_r. unfold update_unconsolidated. cbn [consolidated_ctip_input unconsolidated_ctip_inputs].
  rewrite elements_empty. unfold handle_m8. rewrite deposit_not_m8. cbn. by destruct (contains_key _ _).
Qed.

End Accepted.

(** ** Broadcasting *)

Context (send_raw_transaction : Transaction -> option Z -> SendRawTransaction)
        (broadcast_results_stream : Z -> Transaction -> list (Res BroadcastNonstandardTxError bool)).

Lemma broadcast_deposit_Ok w height tx txid applied :
  broadcast_deposit send_raw_transaction broadcast_results_stream (Some w) height tx = Ok (txid, applied) -> txid = compute_txid tx /\ applied = [tx].
Proof. unfold broadcast_deposit, apply_to_wallet. intros Hb. res_inv. repeat case_match; simplify_eq. by res_inv. Qed.

Lemma created_deposit w `{!BdkLaws w} v n address val fee txid applied :
  op_ok (op_drivechain (v_network_params v)) ->
  create_deposit hmac_in hmac_out fetch send_raw_transaction broadcast_results_stream (Some w) v n address val fee = Ok (txid, applied) ->
  exists tx, applied = [tx] /\ txid = compute_txid tx /\ push_bytes_try_from address = Some address /\
    deposit_shape w (op_drivechain (v_network_params v)) n val address tx.
Proof.
  intros Hop Hc. unfold create_deposit in Hc. apply bind_Ok in Hc as (h & _ & Hc). apply bind_Ok in Hc as (tx & Ht & Hb).
  apply broadcast_deposit_Ok in Hb as [-> ->]. apply deposit_transaction_shape in Ht as [Ha Hs]; [|done|done]. by exists tx.
Qed.

Lemma peers_fail {E} (f : BroadcastNonstandardTxError -> E) (l : list (Res BroadcastNonstandardTxError bool)) e acc :
  Err e ∈ l -> Panic ∉ l -> exists e', Err e' ∈ l /\ foldM (fun acc r => b ← map_err f r; Ok (acc || b)) l acc = Err (f e').
Proof.
  revert acc. induction l as [|r l IH]; intros acc Hin Hnp; [by apply elem_of_nil in Hin|]. cbn. apply not_elem_of_cons in Hnp as [Hp Hnp].
  destruct r as [b|e'|]; cbn; [|exists e'; split; [by left|done]|done]. apply elem_of_cons in Hin as [?|Hin]; [done|].
  destruct (IH (acc || b) Hin Hnp) as (e' & ? & ?). exists e'. split; [by right|done].
Qed.

(** ** Replay protection *)

(** A transaction with this lock time, enforced: no input is final. *)
Definition locked (t : Z) (tx : Transaction) : Prop := lock_time tx = t /\ Forall (fun i => sequence i = ENABLE_RBF_NO_LOCKTIME) (input tx).

Lemma locked_same a b t : same_body a b -> locked t a -> locked t b.
Proof. intros (_ & _ & Hl & Hs) [? ?]. split; [congruence|]. by eapply (fmap_Forall (fun q => q = ENABLE_RBF_NO_LOCKTIME) sequence). Qed.

Lemma finish_locked w `{!BdkLaws w} b tx t : finish w b = Some tx -> tb_nlocktime b = Some t -> tb_exact_sequence b = Some ENABLE_RBF_NO_LOCKTIME -> locked t tx.
Proof. intros Hf Hl Hs. split; [by eapply finish_locktime|by eapply finish_sequence]. Qed.

Definition lock_fields (b : TxBuilder) : option Z * option Z := (tb_nlocktime b, tb_exact_sequence b).

Lemma replay_fields {E} t b b' : apply_replay_protection (Some t) b = (Ok b' : Res E TxBuilder) -> lock_fields b' = (Some t, Some ENABLE_RBF_NO_LOCKTIME).
Proof. unfold apply_replay_protection. intros. repeat case_match; simplify_eq. done. Qed.

Lemma add_recipients_fields {A} (f : A -> TxOut) l b : lock_fields (foldl (fun b d => add_recipient (f d) b) b l) = lock_fields b.
Proof. revert b. induction l as [|d l IH]; intros b; cbn; [done|]. by rewrite IH. Qed.

Lemma deposit_locked w `{!BdkLaws w} params t out address fee psbt :
  replay_protection_lock_time params = Some t ->
  create_deposit_psbt hmac_in hmac_out fetch (Some w) params out address None fee = Ok psbt -> locked t psbt.
Proof.
  intros Ht Hp. unfold create_deposit_psbt in Hp. rewrite Ht in Hp. apply bind_Ok in Hp as ([r n] & _ & Hp). cbn in Hp.
  apply bind_Ok in Hp as (b & Hb%replay_fields & Hp%ok_or_Ok). injection Hb as Hl Hs. eapply finish_locked; [done|done| |]; destruct fee; cbn; done.
Qed.

Lemma send_locked w `{!BdkLaws w} t dests ctp psbt : build_send_psbt w dests ctp (Some t) = Ok psbt -> locked t psbt.
Proof.
  unfold build_send_psbt. intros Hp. apply bind_Ok in Hp as (b & Hb%replay_fields & Hp). apply bind_Ok in Hp as (b1 & Hb1 & Hp).
  assert (E1 : lock_fields b1 = lock_fields b) by (repeat case_match; res_inv; done). cbn zeta in Hp.
  apply bind_Ok in Hp as (b2 & Hb2 & Hp%ok_or_Ok).
  assert (E2 : lock_fields b2 = lock_fields b1).
  { pose proof (add_recipients_fields (fun d : bytes * Amount => mkTxOut d.2 d.1) dests b1) as Ef.
    unfold lock_fields in *; repeat case_match; simplify_eq; cbn in *; congruence. }
  rewrite <- E1, <- E2 in Hb. injection Hb as Hl Hs. eapply finish_locked; [done|done| |]; destruct (fee_policy_ ctp); cbn; done.
Qed.

(** ** BMM requests *)

Lemma bmm_request_outputs w `{!BdkLaws w} v n p h bid locktime tx :
  length h = 32%nat -> length p = 32%nat ->
  create_bmm_request send_raw_transaction broadcast_results_stream (Some w) v n p h bid locktime = Ok tx ->
  parse_m8_tx tx = Some (mkM8 n h p) /\ lock_time tx = locktime.
Proof.
  intros Hh Hp Hc. unfold create_bmm_request in Hc. apply bind_Ok in Hc as (psbt & Hb%map_err_Ok & Hc).
  apply bind_Ok in Hc as (tx' & Hs%map_err_Ok & Hc). assert (tx' = tx) as -> by (res_inv; repeat case_match; res_inv; done). clear Hc.
  apply signed_same in Hs as (Ho & _ & Hl & _); [|done]. unfold build_bmm_tx in Hb. apply bind_Ok in Hb as (m & Hm%map_err_Ok & Hb). cbn in Hb.
  apply ok_or_Ok in Hb. unfold build_bmm_psbt in Hb. rewrite Hl. rewrite (finish_locktime _ _ locktime Hb) by done. split; [|done].
  apply finish_outputs in Hb as (change & Ha & _). cbn in Ha. destruct (m8_roundtrip n h p Hh Hp) as (script & Hs & Hparse).
  unfold m8_script_pubkey in Hs. rewrite Hm in Hs. cbn in Hs. injection Hs as <-. unfold parse_m8_tx. rewrite Ho, Ha. cbn. by rewrite Hparse.
Qed.

(** ** The history *)

Definition total (outs : list TxOut) : Amount := sum (value <$> outs).
Definition mine_of (mine : bytes -> bool) : list TxOut -> list TxOut := List.filter (fun o => mine (script_pubkey o)).

Lemma total_nonneg outs : Forall (fun o => 0 <= value o) outs -> 0 <= total outs.
Proof. induction 1 as [|o outs Ho _ IH]; [done|]. unfold total in *. cbn. rewrite sum_cons. lia. Qed.

Lemma mine_of_nonneg mine outs : Forall (fun o => 0 <= value o) outs -> Forall (fun o => 0 <= value o) (mine_of mine outs).
Proof. induction 1; cbn; [done|]. case_match; [by constructor|done]. Qed.

Lemma mine_of_le mine outs : Forall (fun o => 0 <= value o) outs -> total (mine_of mine outs) <= total outs.
Proof.
  induction 1 as [|o outs Ho Hf IH]; [done|]. unfold total in *. cbn. case_match; cbn; rewrite !sum_cons; lia.
Qed.

Lemma mine_of_all mine outs : Forall (fun o => mine (script_pubkey o) = true) outs -> mine_of mine outs = outs.
Proof. induction 1 as [|o outs Ho _ IH]; cbn; [done|]. by rewrite Ho, IH. Qed.

Lemma output_values_eq {E} mine outs :
  Forall (fun o => 0 <= value o) outs -> total outs <= u64_max -> (output_values mine outs : Res E _) = Ok (total outs, total (mine_of mine outs)).
Proof.
  intros Hv Hm. unfold output_values. match goal with |- foldM ?f _ _ = _ => set (step := f) end.
  assert (Hstep : forall a b o, a + value o <= u64_max -> b + value o <= u64_max ->
    step (a, b) o = Ok (a + value o, if mine (script_pubkey o) then b + value o else b)).
  { intros a b o Ha Hb. unfold step. cbn [fst snd]. rewrite (amount_add_total a) by done. cbn [mbind Res_bind].
    destruct (mine _); [rewrite (amount_add_total b) by done|]; reflexivity. }
  clearbody step.
  assert (Hgen : forall l a b, Forall (fun o => 0 <= value o) l -> b <= a -> a + total l <= u64_max ->
    foldM step l (a, b) = Ok (a + total l, b + total (mine_of mine l))).
  { induction l as [|o l IH]; intros a b Hf Hle Hmax; [cbn; by rewrite !Z.add_0_r|]. apply Forall_cons in Hf as [Ho Hf].
    pose proof (total_nonneg l Hf). unfold total in *. cbn [foldM fmap list_fmap mine_of List.filter] in *. rewrite sum_cons in *.
    rewrite Hstep by lia. cbn [mbind Res_bind]. destruct (mine (script_pubkey o)); rewrite IH by (done || lia); cbn [fmap list_fmap]; rewrite ?sum_cons;
      f_equal; f_equal; unfold mine_of; lia. }
  by rewrite Hgen by (done || lia).
Qed.

Lemma spent_outputs_total get ins iv prev : spent_outputs get ins = Ok (iv, prev) -> iv = total prev /\ total prev <= u64_max.
Proof.
  intros Hs. unfold spent_outputs in Hs. revert Hs. apply (foldM_invariant (fun acc : Amount * list TxOut => acc.1 = total acc.2 /\ total acc.2 <= u64_max)); [|done].
  intros [a l] [a' l'] i _ [Hi Hm] Hstep. cbn in *. case_decide; [by simplify_eq|]. res_inv. unfold amount_add in *. res_inv.
  match goal with E : checked_add_u64 _ _ = Some _ |- _ => apply checked_add_u64_Some in E as [? ->] end.
  unfold total in *. rewrite fmap_app, sum_app. cbn. rewrite sum_cons. change (sum []) with 0. lia.
Qed.

Lemma wallet_transaction_eq mine get t iv prev :
  spent_outputs get (input (wt_tx t)) = Ok (iv, prev) -> Forall (fun o => 0 <= value o) prev ->
  Forall (fun o => 0 <= value o) (output (wt_tx t)) -> total (output (wt_tx t)) <= u64_max ->
  let received := total (mine_of mine (output (wt_tx t))) in
  let sent := total (mine_of mine prev) in
  let fee := Z.max 0 (iv - total (output (wt_tx t))) in
  wallet_transaction mine get t =
  if decide (sent <= received) then Ok (mkBDKWalletTransaction (wt_txid t) (wt_tx t) (chain_position t) fee (received - sent) 0)
  else if decide (fee <= sent - received) then Ok (mkBDKWalletTransaction (wt_txid t) (wt_tx t) (chain_position t) fee 0 (sent - received - fee))
  else Panic.
Proof.
  intros Hs Hp Ho Hm received sent fee. unfold wallet_transaction. rewrite output_values_eq by done. cbn [mbind Res_bind]. rewrite Hs. cbn [mbind Res_bind].
  apply spent_outputs_total in Hs as [-> Hmax]. pose proof (mine_of_le mine prev Hp). pose proof (mine_of_nonneg mine prev Hp) as Hmp.
  fold (mine_of mine prev). fold (total (mine_of mine prev)) in *. rewrite amount_sum_total; [|by apply Forall_fmap|unfold total in *; lia].
  cbn [mbind Res_bind]. fold (total (mine_of mine prev)). fold sent received.
  assert (Hfee : default 0 (checked_sub (total prev) (total (output (wt_tx t)))) = fee).
  { unfold checked_sub. case_bool_decide; cbn; lia. }
  rewrite Hfee. destruct (decide (sent <= received)); [by rewrite bool_decide_eq_true_2|]. rewrite bool_decide_eq_false_2 by done.
  unfold checked_sub. destruct (decide (fee <= sent - received)); [by rewrite bool_decide_eq_true_2|by rewrite bool_decide_eq_false_2].
Qed.

End Wallet.

(** C25. A deposit that the wallet makes is one the validator records: if
    [create_deposit] succeeds for an active sidechain and a positive amount, then
    the transaction it broadcast, and applied to the wallet, is accepted as a deposit
    of exactly that amount to exactly that address; whatever the change and the keys
    of the hashes, the order of the outputs keeps the address behind the treasury
    output. Where the sidechain has a treasury the output stays unconsolidated,
    otherwise it is the treasury. *)
Theorem deposit_accepted `{Bitcoin, !BitcoinLaws, !ReturnLaws, Nom, !NomLaws} hmac_in hmac_out fetch send peers w `{!BdkLaws w}
    v bh u n address val fee txid applied parent acc :
  bh_params bh = v_network_params v -> op_ok (op_drivechain (v_network_params v)) ->
  is_Some (sidechain (active_sidechains (v_dbs v)) !! n) -> 0 < val ->
  (forall o, knows_utxo w o = true -> ctip_outpoint_to_value_seq (active_sidechains (v_dbs v)) !! o = None /\ by_outpoint u !! o = None) ->
  create_deposit hmac_in hmac_out fetch send peers (Some w) v n address val fee = Ok (txid, applied) ->
  let c := mkCtip (mkOutPoint txid 0) val in
  let treasury_exists := contains_key (ctip (active_sidechains (v_dbs v))) n in
  exists tx, applied = [tx] /\ txid = compute_txid tx /\
    handle_transaction bh (v_dbs v) acc u parent tx =
    Ok (Some (Deposits {[n := mkDeposit (default 0 (treasury_utxo_count (active_sidechains (v_dbs v)) !! n)) (mkOutPoint txid 0) address val]},
              D_M5 (mkM5Diff (if treasury_exists then ∅ else {[n := c]}))),
        if treasury_exists then uc_insert n c u else u).
Proof.
  intros Hb Hop Hact Hv Hcoins Hc. apply created_deposit in Hc as (tx & -> & -> & Ha & Hs); [|done|done]. exists tx. split_and!; [done|done|].
  rewrite <- Hb in Hop, Hs. by apply (deposit_handled w bh (v_dbs v) u n val address tx).
Qed.

(** Deposits to a sidechain that already has a treasury are missing from the
    wallet's list. The wallet never spends the treasury, so such a deposit leaves the
    treasury to be consolidated by another transaction: the validator records no
    treasury for it, and as long as its output is no CTIP,
    [list_sidechain_deposit_transactions] passes over it, though the validator
    accepted it as a deposit. *)
Theorem later_deposits_unlisted `{Bitcoin, !BitcoinLaws, !ReturnLaws, Nom, !NomLaws} hmac_in hmac_out fetch send peers w `{!BdkLaws w}
    v v' n address val fee txid applied c :
  op_ok (op_drivechain (v_network_params v)) -> v_network_params v' = v_network_params v ->
  create_deposit hmac_in hmac_out fetch send peers (Some w) v n address val fee = Ok (txid, applied) ->
  try_get_ctip v' n = Some c -> knows_utxo w (ctip_outpoint c) = false -> try_get_ctip_value_seq v' (mkOutPoint txid 0) = None ->
  exists tx, applied = [tx] /\ forall t, bt_txid t = txid -> bt_tx t = tx -> sidechain_deposit v' t = Ok None.
Proof.
  intros Hop Hn Hc Hctip Hw Hseq. apply created_deposit in Hc as (tx & -> & -> & Ha & [(change & Ho & _) Hi]); [|done|done]. exists tx. split; [done|]. intros t Et Etx.
  unfold sidechain_deposit. rewrite Et, Etx, Ho, Hn. cbn [script_pubkey create_m5_deposit_output]. rewrite op_drivechain_parse_script.
  unfold spent_ctip. rewrite Hseq, Hctip. destruct (existsb _ _) eqn:E; [|done]. apply existsb_exists in E as (i & Hin & E%bool_decide_eq_true_1).
  rewrite Forall_forall in Hi. apply list_elem_of_In, Hi in Hin. congruence.
Qed.

(** A deposit that the node took is lost to the wallet when a peer fails: with
    [sendrawtransaction] answered by an id, one failing peer makes [create_deposit]
    return an error and the transaction is not applied, so the coins it spends still
    count as the wallet's and the next transaction may spend them again. *)
Theorem broadcast_deposit_reported_failed `{Bitcoin} send peers w height tx txid e :
  send tx None = Sent txid -> Err e ∈ peers height tx -> Panic ∉ peers height tx ->
  exists e', Err e' ∈ peers height tx /\ broadcast_deposit send peers w height tx = Err (CD_BroadcastNonstandardTx e').
Proof.
  intros Hs He Hp. destruct (peers_fail CD_BroadcastNonstandardTx _ e true He Hp) as (e' & Hin & Hf). exists e'. split; [done|].
  unfold broadcast_deposit, broadcast_transaction, broadcast_transaction_with_max_fee_rate, broadcast_transaction_with_tolerance. rewrite Hs. cbn.
  rewrite Hf. done.
Qed.

(** Replay protection: on a network with a replay-protection lock time, the
    deposits and the payments of the wallet carry exactly that lock time and have no
    final input, so it is enforced; a BMM request carries the lock time it was asked
    for instead. *)
Theorem replay_protected `{Bitcoin, !BitcoinLaws, !ReturnLaws, Nom, !NomLaws} hmac_in hmac_out fetch send peers w `{!BdkLaws w} v t :
  replay_protection_lock_time (v_network_params v) = Some t ->
  (forall n address val fee txid applied,
     create_deposit hmac_in hmac_out fetch send peers (Some w) v n address val fee = Ok (txid, applied) -> exists tx, applied = [tx] /\ locked t tx) /\
  (forall dests ctp txid applied,
     send_wallet_transaction send (Some w) v dests ctp = Ok (txid, applied) -> exists tx, applied = [tx] /\ locked t tx) /\
  (forall n p h bid locktime tx, length h = 32%nat -> length p = 32%nat ->
     create_bmm_request send peers (Some w) v n p h bid locktime = Ok tx -> lock_time tx = locktime).
Proof.
  intros Ht. split_and!.
  - intros n address val fee txid applied Hc. unfold create_deposit, deposit_transaction in Hc. apply bind_Ok in Hc as (height & _ & Hc).
    apply bind_Ok in Hc as (tx & Hd & [_ ->]%broadcast_deposit_Ok). apply bind_Ok in Hd as (a & _ & Hd). apply bind_Ok in Hd as (psbt & Hp%map_err_Ok & Hs%map_err_Ok).
    exists tx. split; [done|]. eapply locked_same; [by eapply signed_same|by eapply deposit_locked].
  - intros dests ctp txid applied Hc. unfold send_wallet_transaction, create_send_psbt in Hc. cbn [ok_or mbind Res_bind] in Hc. rewrite Ht in Hc.
    apply bind_Ok in Hc as (psbt & Hp%map_err_Ok & Hc). apply bind_Ok in Hc as (tx & Hs%map_err_Ok & Hc). exists tx. split.
    + unfold apply_to_wallet in Hc. by res_inv.
    + eapply locked_same; [by eapply signed_same|by eapply send_locked].
  - intros n p h bid locktime tx Hh Hp Hc. by apply bmm_request_outputs in Hc as [_ ?].
Qed.

(** What [handle_m8] answers for a request, with the commitments of a block or
    without, as in the mempool. *)
Lemma handle_m8_request `{Nom} tx q acc tip :
  parse_m8_tx tx = Some q ->
  handle_m8 tx acc tip = Ok true <->
  (forall c, acc = Some c -> om_get (m8_sidechain_number q) c = Some (m8_sidechain_block_hash q)) /\ tip = m8_prev_mainchain_block_hash q.
Proof.
  intros Hq. unfold handle_m8. rewrite Hq. destruct acc as [c|].
  - case_bool_decide as E; cbn; [case_decide|]; naive_solver.
  - case_decide; naive_solver.
Qed.

(** The requests that are evicted *)
Lemma evicted_iff `{Nom} txs tip txid :
  txid ∈ evict_stale_bmm_requests txs tip <->
  exists t, t ∈ txs /\ wt_txid t = txid /\ is_confirmed (chain_position t) = false /\ (forall acc, exists e, handle_m8 (wt_tx t) acc tip = Err e).
Proof.
  unfold evict_stale_bmm_requests. rewrite list_elem_of_fmap. setoid_rewrite list_elem_of_In. setoid_rewrite filter_In.
  unfold is_stale_bmm_request, handle_m8. split.
  - intros (t & -> & Ht & E%andb_true_iff). exists t. destruct E as [E1%negb_true_iff E2]. split_and!; [done..|]. intros acc.
    destruct (parse_m8_tx (wt_tx t)) as [q|]; [|done]. apply bool_decide_eq_true_1 in E2. case_match; [by eexists|]. rewrite decide_False by done. by eexists.
  - intros (t & Ht & <- & E1 & E2). exists t. split_and!; [done|done|]. rewrite E1. cbn. destruct (E2 None) as [e E]. destruct (parse_m8_tx (wt_tx t)); [|done].
    cbn in E. apply bool_decide_eq_true_2. by case_decide.
Qed.

(** C32. A BMM request that the wallet makes is one the validator reads. (1) The
    rule for a block with the commitments [c] of its coinbase passes it exactly
    when the block is on the parent that was asked for and [c] has the sidechain
    block that was asked for, for the slot that was asked for. (2) The rule for
    the mempool passes it exactly when the tip is that parent. (3) Every block
    that was connected with it, at or above the activation height, is on that
    parent and has recorded that commitment for that slot. (4) The wallet evicts
    an unconfirmed transaction at a tip exactly when it is a BMM request that no
    block on the tip may include, whatever its commitments. *)
Theorem bmm_request_lifecycle `{Bitcoin, !BitcoinLaws, !ReturnLaws, Nom, !NomLaws} send peers w `{!BdkLaws w} v n p h bid locktime tx :
  length h = 32%nat -> length p = 32%nat ->
  create_bmm_request send peers (Some w) v n p h bid locktime = Ok tx ->
  (forall c tip, handle_m8 tx (Some c) tip = Ok true <-> om_get n c = Some h /\ tip = p) /\
  (forall tip, handle_m8 tx None tip = Ok true <-> tip = p) /\
  (forall bh s block s' hi bi, connect_block bh s block = Ok (s', ConnectBlock hi bi) ->
     bip300_activation_height (bh_params bh) <= hi_height hi -> tx ∈ tail (txdata block) ->
     om_get n (bi_bmm_commitments bi) = Some h /\ prev_blockhash (header block) = p) /\
  forall txs tip txid, txid ∈ evict_stale_bmm_requests txs tip <->
    exists t, t ∈ txs /\ wt_txid t = txid /\ is_confirmed (chain_position t) = false /\ (forall acc, exists e, handle_m8 (wt_tx t) acc tip = Err e).
Proof.
  intros Hh Hp Hc. apply bmm_request_outputs in Hc as [Hm _]; [|done..]. split_and!.
  - intros c tip. rewrite (handle_m8_request _ _ _ _ Hm). cbn. naive_solver.
  - intros tip. rewrite (handle_m8_request _ _ _ _ Hm). cbn. naive_solver.
  - intros bh s block s' hi bi Hcb Ha Ht. destruct (connected_bmm _ _ _ _ _ _ Hcb Ha) as (cb & txs & ms & E & _ & _ & _ & _ & Hq).
    rewrite E in Ht. destruct (Hq (mkM8 n h p)) as [E1 E2]; [by apply list_elem_of_omap; exists tx|]. by cbn in E1, E2.
  - apply evicted_iff.
Qed.

(** What the wallet lists of a transaction that it funded alone: the fee is what
    the inputs exceed the outputs by, nothing is received, and what is sent is exactly
    what the outputs of others hold. A transaction that others funded too is listed
    without a panic exactly when the fee is not above what the wallet put in on
    balance: [sent - received - fee] underflows otherwise, and the whole listing
    panics on it. *)
Theorem wallet_transaction_amounts mine get t iv prev :
  spent_outputs get (input (wt_tx t)) = Ok (iv, prev) -> Forall (fun o => 0 <= value o) prev ->
  Forall (fun o => 0 <= value o) (output (wt_tx t)) -> total (output (wt_tx t)) <= iv ->
  let received := total (mine_of mine (output (wt_tx t))) in
  let sent := total (mine_of mine prev) in
  let fee := iv - total (output (wt_tx t)) in
  (Forall (fun o => mine (script_pubkey o) = true) prev ->
     wallet_transaction mine get t
     = Ok (mkBDKWalletTransaction (wt_txid t) (wt_tx t) (chain_position t) fee 0 (total (output (wt_tx t)) - received))) /\
  (wallet_transaction mine get t = Panic <-> received < sent < received + fee).
Proof.
  intros Hs Hp Ho Hle received sent fee. pose proof (spent_outputs_total _ _ _ _ Hs) as [Hiv Hmax].
  rewrite (wallet_transaction_eq mine get t iv prev) by (done || lia). fold received sent. rewrite Z.max_r by lia. fold fee. split.
  - intros Hall. assert (Hsent : sent = iv) by (unfold sent; by rewrite mine_of_all, Hiv). pose proof (mine_of_le mine _ Ho) as Hmle. fold received in Hmle.
    subst fee. repeat case_decide; try lia; f_equal; f_equal; lia.
  - repeat case_decide; split; intros; (done || lia).
Qed.

(** The order of a deposit's outputs is a total order, as the sort demands:
    it compares one key per output, so comparing the other way round gives the
    opposite, and it is transitive. *)
Theorem deposit_order_total `{Bitcoin, Nom} hmac op addrs :
  (forall l r, output_sort hmac op addrs r l = CompOpp (output_sort hmac op addrs l r)) /\
  Transitive (fun l r => output_sort hmac op addrs l r <> Gt) /\ Reflexive (fun l r => output_sort hmac op addrs l r = Eq).
Proof.
  split_and!.
  - intros l r. rewrite !output_sort_key. apply bytes_cmp_antisym.
  - intros a b c. rewrite !output_sort_key. apply bytes_cmp_le_trans.
  - intros a. rewrite output_sort_key. apply bytes_cmp_refl.
Qed.
