(* ===== verification/WalletSync.v ===== *)
(** * Following the chain with the wallet

    [lib/wallet/sync.rs] and [lib/wallet/cusf_block_producer.rs]: BDK's wallet keeps
    a chain of its own, which is advanced block by block, by a checkpoint made from
    the validator's headers or by a full scan, and BMM requests that can no longer be
    included are evicted from it. BDK, the node and the chain source are parameters;
    the node's answers do not change during a sync. *)

From Stdlib Require Import Strings.Byte.
From stdpp Require Import base numbers list gmap.
From S2P Require Import Prelude OrderMap Bitcoin Types Messages Dbs BlockHashes Treasury Diff Handlers ConnectBlock Enforcer Sync Facade Policy Producer Wallet.
Open Scope Z_scope.

(** ** BDK *)

(** [LocalChain] and [CheckPoint]: the hashes of the checkpoints by height *)
Abbreviation LocalChain := (gmap Z BlockHash).

(** [try_include_height] of a [CannotConnectError] *)
Inductive CannotConnectError := CannotConnect (try_include_height : Z).

(** The chain and the transactions under the wallet's operations *)
Record Bdk := mkBdk {
  lc_apply_block : LocalChain -> Block -> Z -> Res CannotConnectError LocalChain;
  lc_extend : LocalChain -> list (Z * BlockHash) -> option LocalChain;
  lc_apply_update : LocalChain -> LocalChain -> option LocalChain;
  tx_apply_block : list WalletTx -> Block -> Z -> list WalletTx;
  tx_apply_update : list WalletTx -> list WalletTx -> list WalletTx }.

(** [local_chain().tip().block_id()]: the highest checkpoint *)
Definition tip_id (c : LocalChain) : Z * BlockHash := map_fold (fun k h acc => if bool_decide (acc.1 <= k) then (k, h) else acc) (-1, all_zeros) c.

(** The wallet in memory and what is persisted of it. *)
Record WalletInner := mkWalletInner {
  local_chain : LocalChain; canonical_txs : list WalletTx; bdk_db : LocalChain * list WalletTx; has_synced : bool }.
Definition set_wallet (w : WalletInner) (c : LocalChain) (txs : list WalletTx) : WalletInner := mkWalletInner c txs (bdk_db w) (has_synced w).
Definition set_last_synced_now (w : WalletInner) : WalletInner := mkWalletInner (local_chain w) (canonical_txs w) (bdk_db w) true.

(** [apply_evicted_txs]: unconfirmed transactions leave the canonical set *)
Definition apply_evicted_txs (txids : list Txid) (txs : list WalletTx) : list WalletTx :=
  List.filter (fun t => is_confirmed (chain_position t) || negb (bool_decide (wt_txid t ∈ txids))) txs.

(** ** Errors *)

Inductive FullScan :=
| FS_ListHeaders (e : DbError) | CreateCheckPointFromHeaders | CannotConnectUpdate | PersistWallet | InvalidSyncSource | NoMainchainTip | ChainSourceFailed
| ScanInProgress | FS_NotUnlocked.
Inductive HandleConnectBlock := HCB_Persist.
Inductive ConnectMissingBlock := CMB_GetBlockHash | CMB_GetBlock | CMB_Handle (e : HandleConnectBlock) | BdkConnect (block_height : Z) (e : CannotConnectError).
Inductive SyncWalletToTip :=
| SW_GetHeaderInfo (e : GetHeaderInfoError) | SW_FullScan (e : FullScan) | SW_GetBlockInfos (e : GetBlockInfosError) | SW_GetBlock
| SW_Handle (e : HandleConnectBlock) | SW_ConnectMissingBlock (e : ConnectMissingBlock).

Section WalletSync.
Context `{Bitcoin, Nom}.
Context (bdk : Bdk) (v : Validator).
(** The node *)
Context (getblockhash : Z -> option BlockHash) (get_block : BlockHash -> option Block).
(** The chain source's answer to a full scan from a checkpoint, if there is a client *)
Context (chain_source_client : option (LocalChain -> option (LocalChain * list WalletTx))).
(** Whether persisting succeeds *)
Context (persist_ok : LocalChain * list WalletTx -> bool).
(** The birthday in the seed store, and [--wallet-max-block-by-block-replay] *)
Context (birthday_height : option Z) (max_block_by_block_replay : Z).

Definition persist_async {E} (failed : E) (w : WalletInner) : Res E WalletInner :=
  let d := (local_chain w, canonical_txs w) in
  if persist_ok d then Ok (mkWalletInner (local_chain w) (canonical_txs w) d (has_synced w)) else Err failed.

(** The inner result is BDK's. *)
Definition handle_connect_block (w : WalletInner) (block : Block) (block_height : Z) : Res HandleConnectBlock (Res CannotConnectError WalletInner) :=
  match lc_apply_block bdk (local_chain w) block block_height with
  | Ok c => w ← persist_async HCB_Persist (set_wallet w c (tx_apply_block bdk (canonical_txs w) block block_height)); Ok (Ok w)
  | Err e => Ok (Err e)
  | Panic => Panic
  end.

Definition get_chain_checkpoint (c : LocalChain) (up_to_height : option Z) : option (Res FullScan LocalChain) :=
  headers ⇐ omap_err FS_ListHeaders (list_headers v (tip_id c).1);
  let headers := match up_to_height with Some u => List.filter (fun e => bool_decide (e.1 <= u)) headers | None => headers end in
  let block_ids := List.filter (fun e => bool_decide ((tip_id c).1 < e.1)) headers in
  Some (ok_or CreateCheckPointFromHeaders (lc_extend bdk c block_ids)).

Definition fast_forward_chain (w : WalletInner) (up_to_height : option Z) : option (Res FullScan WalletInner) :=
  checkpoint ⇐ get_chain_checkpoint (local_chain w) up_to_height;
  Some (c ← ok_or CannotConnectUpdate (lc_apply_update bdk (local_chain w) checkpoint); persist_async PersistWallet (set_wallet w c (canonical_txs w))).

(** [full_scan_guarded], with the tip at its end *)
Definition full_scan (w : WalletInner) : option (Res FullScan (WalletInner * BlockHash)) :=
  client ⇐ Some (ok_or InvalidSyncSource chain_source_client);
  _ ⇐ Some (ok_or NoMainchainTip (try_get_mainchain_tip v));
  checkpoint ⇐ get_chain_checkpoint (local_chain w) None;
  Some ('(c, txs) ← ok_or ChainSourceFailed (client checkpoint);
        mainchain_tip ← ok_or NoMainchainTip (try_get_mainchain_tip v);
        c ← ok_or CannotConnectUpdate (lc_apply_update bdk (local_chain w) c);
        let txs := tx_apply_update bdk (canonical_txs w) txs in
        w ← persist_async PersistWallet (set_wallet w c (apply_evicted_txs (evict_stale_bmm_requests txs mainchain_tip) txs));
        Ok (w, (tip_id (local_chain w)).2)).

(** [try_full_scan]: [scanning] is whether the slot is taken *)
Definition try_full_scan (scanning : bool) (w : option WalletInner) : option (Res FullScan (WalletInner * BlockHash)) :=
  if scanning then Some (Err ScanInProgress) else
  _ ⇐ Some (ok_or InvalidSyncSource chain_source_client);
  _ ⇐ Some (ok_or NoMainchainTip (try_get_mainchain_tip v));
  w ⇐ Some (ok_or FS_NotUnlocked w); full_scan w.

(** The [while] loop of [connect_missing_block] over its stack, top first *)
Fixpoint connect_missing_loop (fuel : nat) (w : WalletInner) (try_includes : list (Z * option Block)) : option (Res ConnectMissingBlock WalletInner) :=
  match fuel with
  | O => None
  | S fuel =>
      match try_includes with
      | [] => Some (Ok w)
      | (block_height, block) :: rest =>
          block ⇐ Some match block with
                       | Some block => Ok block
                       | None => h ← ok_or CMB_GetBlockHash (getblockhash block_height); ok_or CMB_GetBlock (get_block h)
                       end;
          res ⇐ Some (map_err CMB_Handle (handle_connect_block w block block_height));
          match res with
          | Ok w => connect_missing_loop fuel w rest
          | Err (CannotConnect try_include_height) =>
              if bool_decide (try_include_height < block_height)
              then connect_missing_loop fuel w ((block_height - 1, None) :: (block_height, Some block) :: rest)
              else Some (Err (BdkConnect block_height (CannotConnect try_include_height)))
          | Panic => Some Panic
          end
      end
  end.

(** Each height is tried at most twice. *)
Definition connect_missing_block (w : WalletInner) (try_include_height : Z) : option (Res ConnectMissingBlock WalletInner) :=
  connect_missing_loop (S (2 * Z.to_nat try_include_height)) w [(try_include_height, None)].

(** The loop ['connect_block] *)
Fixpoint connect_loop (fuel : nat) (w : WalletInner) (block : Block) (block_height : Z) : option (Res SyncWalletToTip WalletInner) :=
  match fuel with
  | O => None
  | S fuel =>
      res ⇐ Some (map_err SW_Handle (handle_connect_block w block block_height));
      match res with
      | Ok w => Some (Ok w)
      | Err (CannotConnect try_include_height) =>
          w ⇐ omap_err SW_ConnectMissingBlock (connect_missing_block w (try_include_height + 1));
          connect_loop fuel w block block_height
      | Panic => Some Panic
      end
  end.

Definition replay_block (new_tip_hash : BlockHash) (block : option Block) (w : WalletInner) (hi : HeaderInfo) : option (Res SyncWalletToTip WalletInner) :=
  block ⇐ Some (match block with
                | Some b => if decide (hi_block_hash hi = new_tip_hash) then Ok b else ok_or SW_GetBlock (get_block (hi_block_hash hi))
                | None => ok_or SW_GetBlock (get_block (hi_block_hash hi))
                end);
  connect_loop (S (Z.to_nat (hi_height hi))) w block (hi_height hi).

Fixpoint replay_blocks (new_tip_hash : BlockHash) (block : option Block) (w : WalletInner) (infos : list HeaderInfo) : option (Res SyncWalletToTip WalletInner) :=
  match infos with
  | [] => Some (Ok w)
  | hi :: infos => w ⇐ replay_block new_tip_hash block w hi; replay_blocks new_tip_hash block w infos
  end.

Definition BIRTHDAY_REORG_MARGIN : Z := 100.

Definition skip_to_birthday (new_tip_height : Z) (w : WalletInner) : option (Res SyncWalletToTip WalletInner) :=
  match birthday_height with
  | Some birthday =>
      let skip_below := Z.min (saturating_sub birthday BIRTHDAY_REORG_MARGIN) new_tip_height in
      if bool_decide ((tip_id (local_chain w)).1 < skip_below) then omap_err SW_FullScan (fast_forward_chain w (Some skip_below)) else Some (Ok w)
  | None => Some (Ok w)
  end.

Definition close_gap (new_tip_height : Z) (w : WalletInner) : option (Res SyncWalletToTip WalletInner) :=
  let blocks_behind := saturating_sub new_tip_height (tip_id (local_chain w)).1 in
  if bool_decide (blocks_behind <= max_block_by_block_replay) then Some (Ok w) else
  match chain_source_client with
  | Some _ => r ⇐ omap_err SW_FullScan (full_scan w); Some (Ok r.1)
  | None => Some (Ok w)
  end.

(** [sync_wallet_to_tip]; a locked wallet is [None]. *)
Definition sync_wallet_to_tip (wallet : option WalletInner) (new_tip_hash : BlockHash) (block : option Block) : option (Res SyncWalletToTip (option WalletInner)) :=
  info ⇐ Some (map_err SW_GetHeaderInfo (get_header_info (block_hashes (v_dbs v)) new_tip_hash));
  match wallet with
  | None => Some (Ok None)
  | Some w =>
      if decide ((tip_id (local_chain w)).2 = new_tip_hash) then Some (Ok (Some (set_last_synced_now w))) else
      w ⇐ skip_to_birthday (hi_height info) w;
      w ⇐ close_gap (hi_height info) w;
      let expected_blocks := Z.to_nat (Z.max 1 (saturating_sub (hi_height info) (tip_id (local_chain w)).1)) in
      block_infos ⇐ Some (map_err SW_GetBlockInfos (get_block_infos v new_tip_hash (expected_blocks - 1)));
      w ⇐ replay_blocks new_tip_hash block w (take expected_blocks block_infos.*1);
      Some (Ok (Some (set_last_synced_now w)))
  end.

(** ** The periodic sync *)

Inductive WalletSyncError := WS_ChainSource | WS_Persist.

(** [sync]: the chain source's answer is an update of the chain, if any, and of the
    transactions. *)
Definition sync (wallet : option WalletInner) (client : option (option (option LocalChain * list WalletTx))) : Res WalletSyncError (option WalletInner) :=
  match wallet, client with
  | None, _ | _, None => Ok wallet
  | Some w, Some answer =>
      '(chain_update, txs) ← ok_or WS_ChainSource answer;
      match chain_update with
      | Some _ => Ok wallet
      | None =>
          let txs := tx_apply_update bdk (canonical_txs w) txs in
          let txs := match get_mainchain_tip v with Ok tip => apply_evicted_txs (evict_stale_bmm_requests txs tip) txs | _ => txs end in
          w ← persist_async WS_Persist (set_wallet w (local_chain w) txs);
          Ok (Some (set_last_synced_now w))
      end
  end.

End WalletSync.

(** ** The wallet as enforcer *)

Section Enforcer.
Context `{Bitcoin, Nom}.
Context (bdk : Bdk) (getblockhash : Z -> option BlockHash) (get_block : BlockHash -> option Block)
        (chain_source_client : option (LocalChain -> option (LocalChain * list WalletTx))) (persist_ok : LocalChain * list WalletTx -> bool)
        (birthday_height : option Z) (max_block_by_block_replay : Z).

Inductive WalletConnectBlock := WCB_Producer (e : EnforcerConnectBlockError) | WCB_Sync (e : SyncWalletToTip) | WCB_NotUnlocked | PersistBmmEviction.

Definition wallet_connect_block (p : BlockProducer) (wallet : option WalletInner) (block : Block)
    : option (Res WalletConnectBlock (BlockProducer * option WalletInner * ConnectBlockAction)) :=
  r ⇐ Some (map_err WCB_Producer (producer_connect_block p block));
  let '(p, res) := r in
  match res, wallet with
  | AcceptBlock remove_mempool_txs, Some _ =>
      wallet ⇐ omap_err WCB_Sync (sync_wallet_to_tip bdk (bp_validator p) getblockhash get_block chain_source_client persist_ok birthday_height max_block_by_block_replay
                                    wallet (block_hash (header block)) (Some block));
      w ⇐ Some (ok_or WCB_NotUnlocked wallet);
      let txs := apply_evicted_txs (elements remove_mempool_txs) (canonical_txs w) in
      let txs := apply_evicted_txs (evict_stale_bmm_requests txs (block_hash (header block))) txs in
      w ⇐ Some (persist_async persist_ok PersistBmmEviction (set_wallet w (local_chain w) txs));
      Some (Ok (p, Some w, res))
  | _, _ => Some (Ok (p, wallet, res))
  end.

(** An accepted transaction is applied by a task of its own; [apply_unconfirmed] is
    its effect on the transactions. *)
Definition wallet_accept_tx (apply_unconfirmed : Transaction -> list WalletTx -> list WalletTx) (p : BlockProducer) (wallet : option WalletInner) (tx : Transaction)
    : Res ValidateTransaction (BlockProducer * option WalletInner * TxAcceptAction) :=
  '(p, res) ← producer_accept_tx p tx;
  Ok (p, match res, wallet with
         | AcceptTx _ _, Some w =>
             let w := set_wallet w (local_chain w) (apply_unconfirmed tx (canonical_txs w)) in
             Some match persist_async persist_ok tt w with Ok w => w | _ => w end
         | _, _ => wallet
         end, res).

End Enforcer.
