(* ===== verification/WalletSyncProofs.v ===== *)
(** * Following the chain with the wallet: theorems *)

From Stdlib Require Import Strings.Byte.
From stdpp Require Import base numbers list gmap.
From S2P Require Import Prelude OrderMap Bitcoin Types Messages Dbs BlockHashes Treasury Diff Handlers ConnectBlock Enforcer Sync Facade FacadeProofs Policy Producer Wallet WalletSync.
Open Scope Z_scope.

(** ** What BDK promises *)

(** A chain with a checkpoint at every height up to [n] *)
Definition dense (c : LocalChain) (n : Z) : Prop := 0 <= n /\ forall k, is_Some (c !! k) <-> 0 <= k <= n.

(** A block is put on its parent: later checkpoints go unless the block was there. *)
Definition put_block `{Bitcoin} (c : LocalChain) (block : Block) (h : Z) : LocalChain :=
  if decide (c !! h = Some (block_hash (header block))) then c
  else <[h := block_hash (header block)]> (filter (fun e => e.1 < h) c).

Class BdkChainLaws `{Bitcoin} (bdk : Bdk) := {
  (** a block connects to its parent *)
  apply_block_connects c n block h : dense c n -> 0 < h -> c !! (h - 1) = Some (prev_blockhash (header block)) ->
    lc_apply_block bdk c block h = Ok (put_block c block h);
  (** otherwise the height of the last checkpoint below the blocks that do not
      connect is suggested *)
  apply_block_cannot_connect c n block h : dense c n -> 1 < h -> c !! (h - 1) <> Some (prev_blockhash (header block)) ->
    lc_apply_block bdk c block h = Err (CannotConnect (Z.min (h - 2) n));
  (** blocks are appended in ascending order *)
  extend_appends c n ids : dense c n -> ids.*1 = seqZ (n + 1) (Z.of_nat (length ids)) ->
    lc_extend bdk c ids = Some (list_to_map ids ∪ c);
  (** an update that extends the chain is taken over *)
  apply_update_extension c n c' : dense c n -> c ⊆ c' -> lc_apply_update bdk c c' = Some c' }.

(** ** Dense chains *)

Lemma dense_lookup c n k : dense c n -> 0 <= k <= n -> exists x, c !! k = Some x.
Proof. intros [_ Hd] Hk. by apply Hd in Hk as [x ?]; exists x. Qed.

Lemma dense_range c n k x : dense c n -> c !! k = Some x -> 0 <= k <= n.
Proof. intros [_ Hd] Hk. apply Hd. by eexists. Qed.

Lemma tip_id_highest c : (forall j, is_Some (c !! j) -> j <= (tip_id c).1) /\ (tip_id c = (-1, all_zeros) \/ c !! (tip_id c).1 = Some (tip_id c).2).
Proof.
  unfold tip_id. apply (map_fold_weak_ind (fun r m => (forall j, is_Some (m !! j) -> j <= r.1) /\ (r = (-1, all_zeros) \/ m !! r.1 = Some r.2))).
  - split; [|by left]. intros j Hj. rewrite lookup_empty in Hj. by destruct Hj.
  - intros i y m r Hi [Hle Hr]. case_bool_decide as Hc; cbn.
    + split; [|right; by rewrite lookup_insert_eq]. intros j. rewrite lookup_insert_is_Some'. intros [->|Hj]; [done|]. apply Hle in Hj. lia.
    + split; [intros j; rewrite lookup_insert_is_Some'; intros [->|Hj]; [lia|by apply Hle]|]. destruct Hr as [?|Hr]; [by left|right].
      rewrite lookup_insert_ne by lia. done.
Qed.

Lemma tip_id_dense c n : dense c n -> exists x, tip_id c = (n, x) /\ c !! n = Some x.
Proof.
  intros [H0 Hd]. destruct (tip_id_highest c) as [Hle Hr]. destruct (tip_id c) as [t x]. cbn in *.
  assert (Ht : n <= t) by (apply Hle, Hd; lia). destruct Hr as [[= -> _]|Hr]; [lia|].
  assert (t <= n) by (apply (Hd t); by eexists). assert (t = n) as -> by lia. by exists x.
Qed.

Lemma put_block_lookup `{Bitcoin} c block h k :
  put_block c block h !! k = if decide (k = h) then Some (block_hash (header block))
                             else if decide (k < h \/ c !! h = Some (block_hash (header block))) then c !! k else None.
Proof.
  unfold put_block. destruct (decide (c !! h = _)) as [E|E]; [repeat case_decide; subst; (done || tauto)|].
  destruct (decide (k = h)) as [->|Hne]; [by rewrite lookup_insert_eq|]. rewrite lookup_insert_ne by done. case_decide as Hk.
  - destruct Hk as [Hk|]; [|done]. destruct (c !! k) as [x|] eqn:Ex; [by apply map_lookup_filter_Some|]. apply map_lookup_filter_None. by left.
  - apply map_lookup_filter_None. right. intros x _ Hlt. cbn in Hlt. tauto.
Qed.

Lemma put_block_dense `{Bitcoin} c n block h : dense c n -> 0 <= h <= n + 1 ->
  exists m, dense (put_block c block h) m /\ h <= m.
Proof.
  intros Hd Hh. destruct (decide (c !! h = Some (block_hash (header block)))) as [E|E].
  - exists n. unfold put_block. rewrite decide_True by done. split; [done|]. by apply (dense_range c n) in E as [_ ?].
  - exists h. destruct Hd as [H0 Hd]. split; [split; [lia|]|lia]. intros k. rewrite put_block_lookup. repeat case_decide.
    + split; [lia|by eexists].
    + rewrite Hd. destruct H2 as [|]; [lia|done].
    + split; [intros []; done|]. lia.
Qed.

(** ** The active chain *)

Lemma chain_to_prev `{Bitcoin} b t l i x y info info' hd : chain_wf b -> chain_to b t l ->
  l !! S i = Some (x, info) -> headers b !! x = Some hd -> l !! i = Some (y, info') -> prev_blockhash hd = y.
Proof.
  intros Hwf Hc. induction Hc as [|t hd' info0 l Hhd Hi Hc IH]; [done|]. intros Hx Hhx Hy.
  apply lookup_app_Some in Hx as [Hx|[Hge Hx]].
  - apply IH; [done|done|]. apply lookup_lt_Some in Hx. rewrite lookup_app_l in Hy by lia. done.
  - destruct (S i - length l)%nat eqn:E; [|done]. injection Hx as <- <-. assert (Hlen : length l = S i) by lia.
    rewrite lookup_app_l in Hy by lia. rewrite Hhd in Hhx. injection Hhx as ->.
    destruct (chain_to_height b Hwf _ _ Hc) as [[_ ->]|[_ Hlast]]; [done|].
    rewrite last_lookup, length_fmap, Hlen, list_lookup_fmap in Hlast. cbn in Hlast. rewrite Hy in Hlast. by injection Hlast.
Qed.

(** Its infos, newest first, with hashes and heights *)
Definition id_of (hi : HeaderInfo) : Z * BlockHash := (hi_height hi, hi_block_hash hi).
Definition chain_ids (l : list (BlockHash * BlockInfo)) : list (Z * BlockHash) := imap (fun i e => (Z.of_nat i, e.1)) l.

Lemma chain_ids_snoc l e : chain_ids (l ++ [e]) = chain_ids l ++ [(Z.of_nat (length l), e.1)].
Proof. unfold chain_ids. rewrite imap_app. cbn. by rewrite Nat.add_0_r. Qed.

Lemma header_info_chain `{Bitcoin} b t l e : chain_wf b -> chain_to b t (l ++ [e]) ->
  exists hi, try_get_header_info b t = Ok (Some hi) /\ id_of hi = (Z.of_nat (length l), t) /\ chain_to b (hi_prev_block_hash hi) l /\ e.1 = t /\
    try_get_block_info b t = Ok (Some e.2).
Proof.
  intros Hwf Hc. pose proof (chain_to_height b Hwf _ _ Hc) as Hk. inversion Hc as [Hz|t' hd info l' Hhd Hi Hc' Et El]; [by destruct l|].
  apply app_inj_tail in El as [-> <-]. destruct Hk as [[_ E]|[Hk _]]; [by destruct l|]. rewrite length_app in Hk.
  eexists. unfold try_get_header_info. rewrite Hhd, (cw_hash b Hwf t hd Hhd), bool_decide_eq_true_2 by done. cbn. rewrite Hk. cbn.
  split; [done|]. split; [unfold id_of; cbn; f_equal; lia|]. done.
Qed.

Lemma header_infos_loop_chain `{Bitcoin} b m t l res : chain_wf b -> chain_to b t l ->
  exists hs, header_infos_loop b m t res = Ok (res ++ hs) /\ id_of <$> hs = take m (rev (chain_ids l)).
Proof.
  intros Hwf. revert t l res. induction m as [|m IH]; intros t l res Hc; cbn; [exists []; by rewrite app_nil_r|].
  destruct l as [|e l _] using rev_ind.
  - inversion Hc as [E|t0 hd0 info0 l0 Hhd0 Hi0 Hc0 Et El]; [|by destruct l0]. rewrite decide_True by done. exists []. by rewrite app_nil_r.
  - destruct (header_info_chain b t l e Hwf Hc) as (hi & Hi & Hid & Hc' & He & _). rewrite decide_False.
    2:{ intros ->. unfold try_get_header_info in Hi. by rewrite (cw_zero b Hwf) in Hi. }
    rewrite Hi. cbn. destruct (IH _ _ (res ++ [hi]) Hc') as (hs & -> & Hhs). exists (hi :: hs). rewrite <- app_assoc. split; [done|].
    rewrite fmap_cons, Hhs, chain_ids_snoc, rev_app_distr, Hid. cbn. do 2 f_equal.
    by rewrite He.
Qed.

Lemma block_infos_loop_all `{Bitcoin} v tail res :
  Forall (fun hi => exists info, try_get_block_info (block_hashes (v_dbs v)) (hi_block_hash hi) = Ok (Some info)) tail ->
  exists r, block_infos_loop v tail res = Ok (res ++ r) /\ r.*1 = tail.
Proof.
  intros Ht. revert res. induction Ht as [|hi tail [info Hi] _ IH]; intros res; cbn; [exists []; by rewrite app_nil_r|].
  rewrite Hi. cbn. destruct (IH (res ++ [(hi, info)])) as (r & -> & <-). exists ((hi, info) :: r). by rewrite <- app_assoc.
Qed.

(** [get_block_infos] on the active chain: newest first *)
Lemma get_block_infos_chain `{Bitcoin} v t l m :
  let b := block_hashes (v_dbs v) in
  chain_wf b -> chain_to b t l -> l <> [] ->
  exists r, get_block_infos v t m = Ok r /\ id_of <$> r.*1 = take (S m) (rev (chain_ids l)).
Proof.
  intros b Hwf Hc Hne. destruct l as [|e l _] using rev_ind; [done|]. destruct (header_info_chain b t l e Hwf Hc) as (hi & Hi & Hid & Hc' & He & Hinfo).
  unfold get_block_infos, try_get_block_infos, try_get_header_infos. fold b. rewrite Hi. cbn [mbind Res_bind].
  destruct (header_infos_loop_chain b m _ l [hi] Hwf Hc') as (hs & -> & Hhs). cbn [mbind Res_bind app]. rewrite Hinfo. cbn [mbind Res_bind].
  destruct (block_infos_loop_all v hs [(hi, e.2)]) as (r & -> & Hr).
  - apply Forall_forall. intros h Hin. fold b. pose proof (chain_to_infos b _ _ Hc') as Hall. rewrite Forall_forall in Hall.
    assert (Hm : id_of h ∈ take m (rev (chain_ids l))) by (rewrite <- Hhs; by apply list_elem_of_fmap_2).
    apply elem_of_take in Hm as (i & Hm & _). apply list_elem_of_lookup_2 in Hm. apply list_elem_of_In, in_rev, list_elem_of_In in Hm.
    unfold chain_ids in Hm. apply elem_of_lookup_imap in Hm as (j & e' & E & Hj). apply list_elem_of_lookup_2, Hall in Hj. injection E as _ ->. by eexists.
  - cbn. eexists. split; [done|]. cbn. rewrite Hr, Hhs, chain_ids_snoc, rev_app_distr. cbn. by rewrite Hid, He.
Qed.

Section Follow.
Context `{Bitcoin, Nom} (bdk : Bdk) `{!BdkChainLaws bdk} (v : Validator).
Context (getblockhash : Z -> option BlockHash) (get_block : BlockHash -> option Block).
Context (persist_ok : LocalChain * list WalletTx -> bool).
Context (t : BlockHash) (l : list (BlockHash * BlockInfo)).

Abbreviation b := (block_hashes (v_dbs v)).
Hypothesis tables : chain_wf b.
Hypothesis active : chain_to b t l.
Hypothesis persists : forall d, persist_ok d = true.

(** The block of the active chain at a height *)
Definition canon (k : Z) : option BlockHash := if decide (0 <= k) then fst <$> l !! Z.to_nat k else None.
Abbreviation last_height := (Z.of_nat (length l) - 1).

(** The node serves the active chain. *)
Definition served (block : Block) (k : Z) : Prop :=
  canon k = Some (block_hash (header block)) /\ (0 < k -> canon (k - 1) = Some (prev_blockhash (header block))).

Hypothesis node_serves : forall k x, canon k = Some x ->
  getblockhash k = Some x /\ exists block, get_block x = Some block /\ headers b !! x = Some (header block).

Lemma canon_Some k : 0 <= k <= last_height -> exists x, canon k = Some x.
Proof.
  intros Hk. unfold canon. rewrite decide_True by lia. destruct (lookup_lt_is_Some_2 l (Z.to_nat k)) as [e ->]; [lia|]. by exists e.1.
Qed.

Lemma canon_range k x : canon k = Some x -> 0 <= k <= last_height.
Proof. unfold canon. case_decide; [|done]. intros (e & He & _)%fmap_Some. apply lookup_lt_Some in He. lia. Qed.

Lemma canon_header k x : canon k = Some x -> exists hd, headers b !! x = Some hd.
Proof.
  unfold canon. case_decide; [|done]. intros ([x' i] & He & ->)%fmap_Some. by apply (chain_to_lookup b tables _ _ _ _ _ active) in He as [_ ?].
Qed.

Lemma canon_prev k x hd : canon k = Some x -> headers b !! x = Some hd -> 0 < k -> canon (k - 1) = Some (prev_blockhash hd).
Proof.
  intros Hk Hhd Hpos. destruct (canon_Some (k - 1)) as [y Hy]; [apply canon_range in Hk; lia|]. rewrite Hy. f_equal.
  unfold canon in Hk, Hy. rewrite decide_True in Hk by lia. rewrite decide_True in Hy by lia. apply fmap_Some in Hk as ([x' i] & Hx & ->). apply fmap_Some in Hy as ([y' i'] & Hy & ->).
  replace (Z.to_nat k) with (S (Z.to_nat (k - 1))) in Hx by lia. symmetry. by eapply chain_to_prev.
Qed.

Lemma served_block k x block : canon k = Some x -> headers b !! x = Some (header block) -> served block k.
Proof. intros Hk Hb. split; [by rewrite (cw_hash b tables _ _ Hb)|]. intros Hpos. by eapply canon_prev. Qed.

Lemma fetch_served k x : canon k = Some x -> exists block, get_block x = Some block /\ served block k.
Proof. intros Hk. destruct (node_serves k x Hk) as (_ & block & Hg & Hb). exists block. split; [done|]. by eapply served_block. Qed.

(** A chain that meets the active chain at [a], and above [a] only as a chain *)
Record meets (a : Z) (c : LocalChain) : Prop := {
  me_dense : exists n, dense c n /\ 0 <= a <= n;
  me_at : c !! a = canon a;
  me_down k : a < k -> canon k <> None -> c !! k = canon k -> c !! (k - 1) = canon (k - 1) }.

Definition agrees (a k : Z) (c : LocalChain) : Prop := forall j, a <= j <= k -> c !! j = canon j.

(** From one wallet to the next: the active chain from [a] to [k], nothing changed
    below [a], and everything persisted *)
Record advanced (a k : Z) (w w' : WalletInner) : Prop := {
  ad_meets : meets a (local_chain w');
  ad_agrees : agrees a k (local_chain w');
  ad_below j : j < a -> local_chain w' !! j = local_chain w !! j;
  ad_persisted : bdk_db w' = (local_chain w', canonical_txs w') }.

Lemma advanced_trans a k k' w1 w2 w3 : advanced a k w1 w2 -> advanced a k' w2 w3 -> advanced a k' w1 w3.
Proof. intros H12 H23. split; [apply H23..| |apply H23]. intros j Hj. rewrite (ad_below _ _ _ _ H23) by done. by apply (ad_below _ _ _ _ H12). Qed.

Lemma meets_agrees a k c : meets a c -> k <= last_height -> c !! k = canon k -> agrees a k c.
Proof.
  intros Hm Hk Hc j Hj. remember (Z.to_nat (k - j)) as d eqn:Ed. revert j Hj Ed. induction d as [|d IH]; intros j Hj Ed; [assert (j = k) as -> by lia; done|].
  replace j with (j + 1 - 1) by lia. destruct (me_dense _ _ Hm) as (n & _ & ?). apply (me_down _ _ Hm); [lia| |apply IH; lia].
  destruct (canon_Some (j + 1)) as [x ->]; [lia|done].
Qed.

Lemma put_block_meets a k c block : meets a c -> a < k <= last_height -> served block k -> c !! (k - 1) = canon (k - 1) ->
  meets a (put_block c block k) /\ agrees a k (put_block c block k) /\ forall j, j < a -> put_block c block k !! j = c !! j.
Proof.
  intros Hm Hk [Hh Hp] Hc. assert (Hag : agrees a (k - 1) c) by (apply meets_agrees; [done|lia|done]).
  destruct (me_dense _ _ Hm) as (n & Hd & Ha).
  assert (Hn : k - 1 <= n). { destruct (canon_Some (k - 1)) as [x Hx]; [lia|]. rewrite Hx in Hc. apply (dense_range c n) in Hc; [lia|done]. }
  assert (Hlow : forall j, j < k -> put_block c block k !! j = c !! j).
  { intros j Hj. rewrite put_block_lookup, decide_False by lia. rewrite decide_True by (left; lia). done. }
  assert (Hkk : put_block c block k !! k = canon k) by (by rewrite put_block_lookup, decide_True).
  split_and!; [split| |].
  - destruct (put_block_dense c n block k Hd) as (m & Hm' & Hkm); [lia|]. exists m. split; [done|lia].
  - rewrite Hlow by lia. apply (me_at _ _ Hm).
  - intros j Hj Hcj Hput. destruct (decide (j <= k)) as [Hle|Hgt]; [rewrite Hlow by lia; apply Hag; lia|].
    rewrite put_block_lookup, decide_False in Hput by lia. case_decide as Hin; [|by rewrite <- Hput in Hcj].
    destruct Hin as [?|Hin]; [lia|]. unfold put_block. rewrite decide_True by done. by apply (me_down _ _ Hm).
  - intros j Hj. destruct (decide (j = k)) as [->|]; [done|]. rewrite Hlow by lia. apply Hag. lia.
  - intros j Hj. apply Hlow. lia.
Qed.

(** *** Connecting one block *)

Abbreviation handle w block k := (handle_connect_block bdk persist_ok w block k).

Lemma handle_served a k w block : meets a (local_chain w) -> a < k <= last_height -> served block k ->
  (local_chain w !! (k - 1) = canon (k - 1) /\ exists w', handle w block k = Ok (Ok w') /\ advanced a k w w') \/
  (local_chain w !! (k - 1) <> canon (k - 1) /\ exists m, dense (local_chain w) m /\ a <= m /\ a < k - 1 /\
     handle w block k = Ok (Err (CannotConnect (Z.min (k - 2) m)))).
Proof.
  intros Hm Hk Hs. destruct (me_dense _ _ Hm) as (n & Hd & Ha). unfold handle_connect_block, persist_async. destruct Hs as [Hh Hp].
  destruct (decide (local_chain w !! (k - 1) = canon (k - 1))) as [E|E]; [left|right]; (split; [done|]).
  - rewrite (apply_block_connects _ n) by (done || lia || by rewrite <- Hp by lia). rewrite persists. cbn.
    eexists. split; [done|]. destruct (put_block_meets a k (local_chain w) block) as (H1 & H2 & H3); [done..|]. by split.
  - exists n. assert (a <> k - 1). { intros ->. by apply E, (me_at _ _ Hm). }
    rewrite (apply_block_cannot_connect _ n) by (done || lia || by rewrite <- Hp by lia). split_and!; (done || lia).
Qed.

(** *** The missing blocks *)

Abbreviation missing := (connect_missing_loop bdk getblockhash get_block persist_ok).

Lemma missing_step fuel w k ob block rest :
  match ob with Some bl => bl = block | None => exists x, canon k = Some x /\ get_block x = Some block end ->
  missing (S fuel) w ((k, ob) :: rest) =
  match handle w block k with
  | Ok (Ok w) => missing fuel w rest
  | Ok (Err (CannotConnect i)) =>
      if bool_decide (i < k) then missing fuel w ((k - 1, None) :: (k, Some block) :: rest) else Some (Err (BdkConnect k (CannotConnect i)))
  | Ok Panic | Panic => Some Panic
  | Err e => Some (Err (CMB_Handle e))
  end.
Proof.
  intros Hob. cbn [connect_missing_loop]. assert (match ob with Some bl => Ok bl | None => h ← ok_or CMB_GetBlockHash (getblockhash k); ok_or CMB_GetBlock (get_block h) end
    = Ok block) as ->.
  { destruct ob; [by subst|]. destruct Hob as (x & Hx & Hg). destruct (node_serves k x Hx) as [-> _]. cbn. by rewrite Hg. }
  cbn [obind]. by destruct (handle w block k) as [[?|[?]|]|?|].
Qed.

(** The block at [k] is connected, after at most two tries of each height above [a]. *)
Lemma missing_connects a d : forall k w ob block rest,
  Z.of_nat d = k - a - 1 -> meets a (local_chain w) -> a < k <= last_height -> served block k ->
  match ob with Some bl => bl = block | None => exists x, canon k = Some x /\ get_block x = Some block end ->
  exists c w', (c <= 2 * d + 1)%nat /\ advanced a k w w' /\ forall fuel, missing (c + fuel) w ((k, ob) :: rest) = missing fuel w' rest.
Proof.
  induction d as [|d IH]; intros k w ob block rest Hd Hm Hk Hs Hob; (destruct (handle_served a k w block Hm Hk Hs) as [(_ & w' & Hh & Had)|(_ & m & Hdm & Ham & Hak & Hh)]).
  - exists 1%nat, w'. split_and!; [lia|done|]. intros fuel. cbn [Nat.add]. rewrite (missing_step _ _ _ _ block) by done. by rewrite Hh.
  - lia.
  - exists 1%nat, w'. split_and!; [lia|done|]. intros fuel. cbn [Nat.add]. rewrite (missing_step _ _ _ _ block) by done. by rewrite Hh.
  - destruct (canon_Some (k - 1)) as [x Hx]; [destruct (me_dense _ _ Hm) as (? & _ & ?); lia|]. destruct (fetch_served _ _ Hx) as (pb & Hg & Hps).
    destruct (IH (k - 1) w None pb ((k, Some block) :: rest)) as (c & w1 & Hc & Had & Hrun); [lia|done|lia|done|by exists x|].
    destruct (handle_served a k w1 block (ad_meets _ _ _ _ Had) Hk Hs) as [(_ & w' & Hh' & Had')|(Hno & _)].
    2:{ destruct Hno. apply (ad_agrees _ _ _ _ Had). lia. }
    exists (S (c + 1)), w'. split_and!; [lia|by eapply advanced_trans|]. intros fuel. replace (S (c + 1) + fuel)%nat with (S (c + S fuel)) by lia.
    rewrite (missing_step _ _ _ _ block), Hh by done. rewrite bool_decide_eq_true_2 by lia. rewrite Hrun, (missing_step _ _ _ _ block) by done. by rewrite Hh'.
Qed.

Lemma connect_missing_block_connects a k w : meets a (local_chain w) -> a < k <= last_height ->
  exists w', connect_missing_block bdk getblockhash get_block persist_ok w k = Some (Ok w') /\ advanced a k w w'.
Proof.
  intros Hm Hk. destruct (me_dense _ _ Hm) as (n & _ & Ha). destruct (canon_Some k) as [x Hx]; [lia|]. destruct (fetch_served _ _ Hx) as (block & Hg & Hs).
  destruct (missing_connects a (Z.to_nat (k - a - 1)) k w None block []) as (c & w' & Hc & Had & Hrun); [lia|done|done|done|by exists x|].
  exists w'. split; [|done]. unfold connect_missing_block. replace (S (2 * Z.to_nat k)) with (c + S (2 * Z.to_nat k - c))%nat by lia. by rewrite Hrun.
Qed.

(** *** A block of the sync *)

Abbreviation connect := (connect_loop bdk getblockhash get_block persist_ok).

Lemma connect_loop_connects a k block fuel : forall m w,
  meets a (local_chain w) -> a <= m < k -> k <= last_height -> agrees a m (local_chain w) -> served block k -> (Z.to_nat (k - m) <= fuel)%nat ->
  exists w', connect fuel w block k = Some (Ok w') /\ advanced a k w w'.
Proof.
  induction fuel as [|fuel IH]; intros m w Hm Hmk Hk Hag Hs Hf; [lia|]. cbn [connect_loop].
  destruct (handle_served a k w block Hm ltac:(lia) Hs) as [(_ & w' & -> & Had)|(Hno & n & Hd & Ha & Hak & ->)]; [by exists w'|]. cbn [obind map_err].
  assert (Hmn : m <= n). { destruct (me_dense _ _ Hm) as (n0 & _ & Hn0). destruct (canon_Some m) as [x Hx]; [lia|]. rewrite <- (Hag m) in Hx by lia. by apply (dense_range _ n) in Hx as [_ ?]. }
  assert (Hm1 : m <> k - 1). { intros ->. apply Hno, Hag. lia. }
  destruct (connect_missing_block_connects a (Z.min (k - 2) n + 1) w Hm) as (w1 & -> & Had1); [lia|]. cbn [obind omap_err fmap option_fmap option_map map_err].
  destruct (IH (Z.min (k - 2) n + 1) w1) as (w' & -> & Had); [apply Had1|lia|done|apply Had1|done|lia|].
  exists w'. split; [done|]. by eapply advanced_trans.
Qed.

(** *** The blocks of the sync *)

Abbreviation process ob := (replay_block bdk getblockhash get_block persist_ok t ob).

(** The block that came with the tip, if any *)
Definition tip_block (ob : option Block) : Prop := match ob with Some block => headers b !! t = Some (header block) | None => True end.

Definition names (k : Z) (hi : HeaderInfo) : Prop := hi_height hi = k /\ canon k = Some (hi_block_hash hi).

Lemma process_fetches ob w hi k : tip_block ob -> names k hi ->
  exists block, served block k /\ process ob w hi = connect (S (Z.to_nat k)) w block k.
Proof.
  intros Hob [Hh Hx]. destruct (fetch_served _ _ Hx) as (block & Hg & Hs). unfold replay_block. rewrite Hh, Hg.
  destruct ob as [tb|]; [|by exists block]. case_decide as E; [|by exists block].
  exists tb. split; [|done]. eapply served_block; [exact Hx|]. by rewrite E.
Qed.

Lemma process_connects a k ob w hi : tip_block ob -> names k hi -> meets a (local_chain w) -> a < k <= last_height ->
  exists w', process ob w hi = Some (Ok w') /\ advanced a k w w'.
Proof.
  intros Hob Hn Hm Hk. destruct (process_fetches ob w hi k Hob Hn) as (block & Hs & ->). destruct (me_dense _ _ Hm) as (n & _ & Ha).
  apply (connect_loop_connects a k block _ a); [done|lia|lia| |done|lia]. intros j Hj. assert (j = a) as -> by lia. apply (me_at _ _ Hm).
Qed.

(** Connecting a block again changes nothing. *)
Lemma process_again a k K ob w hi : tip_block ob -> names k hi -> meets a (local_chain w) -> agrees a K (local_chain w) -> a < k <= K -> K <= last_height ->
  exists w', process ob w hi = Some (Ok w') /\ advanced a K w w'.
Proof.
  intros Hob Hn Hm Hag Hk HK. destruct (process_fetches ob w hi k Hob Hn) as (block & Hs & ->). destruct (me_dense _ _ Hm) as (n & Hd & Ha).
  cbn [connect_loop]. unfold handle_connect_block, persist_async. destruct Hs as [Hh Hp].
  rewrite (apply_block_connects _ n); [|done|lia|rewrite Hag by lia; by rewrite Hp by lia]. rewrite persists. cbn. eexists. split; [done|].
  assert (Ec : put_block (local_chain w) block k = local_chain w) by (unfold put_block; rewrite decide_True; [done|rewrite Hag by lia; done]).
  split; cbn; rewrite ?Ec; done.
Qed.

Lemma process_blocks_connect a ob w infos : tip_block ob -> meets a (local_chain w) -> a < last_height ->
  (exists hi rest, infos = hi :: rest /\ names last_height hi /\ Forall (fun hi => exists k, a < k <= last_height /\ names k hi) rest) ->
  exists w', replay_blocks bdk getblockhash get_block persist_ok t ob w infos = Some (Ok w') /\ advanced a last_height w w'.
Proof.
  intros Hob Hm HT (hi & rest & -> & Hhi & Hrest). cbn [replay_blocks]. destruct (process_connects a last_height ob w hi Hob Hhi Hm) as (w1 & -> & Had); [lia|].
  cbn [obind]. clear Hhi hi. revert w w1 Hm Had. induction Hrest as [|hi rest (k & Hk & Hn) _ IH]; intros w w1 Hm Had; cbn [replay_blocks]; [by exists w1|].
  destruct (process_again a k last_height ob w1 hi Hob Hn) as (w2 & -> & Had2); [apply Had|apply Had|done|lia|]. cbn [obind].
  destruct (IH w w2 Hm) as (w' & -> & Had'); [by eapply advanced_trans|]. by exists w'.
Qed.

(** *** Checkpoints from headers *)

Lemma filter_seqZ_le lo m hi : List.filter (fun k => bool_decide (k <= hi)) (seqZ lo m) = seqZ lo (Z.min m (hi + 1 - lo)).
Proof.
  destruct (decide (m <= 0)) as [Hm|Hm]; [rewrite !seqZ_nil by lia; done|]. remember (Z.to_nat m) as d eqn:Ed. revert lo m Hm Ed.
  induction d as [|d IH]; intros lo m Hm Ed; [lia|]. rewrite seqZ_cons by lia. cbn. case_bool_decide.
  - rewrite (seqZ_cons lo (Z.min _ _)) by lia. f_equal. destruct (decide (Z.pred m <= 0)); [rewrite !seqZ_nil by lia; done|].
    rewrite IH by lia. f_equal; lia.
  - rewrite (seqZ_nil lo (Z.min _ _)) by lia. destruct (decide (Z.pred m <= 0)); [rewrite !seqZ_nil by lia; done|]. rewrite IH by lia. apply seqZ_nil. lia.
Qed.

Lemma filter_seqZ_gt lo m : List.filter (fun k => bool_decide (lo < k)) (seqZ lo m) = seqZ (lo + 1) (m - 1).
Proof.
  destruct (decide (m <= 0)) as [Hm|Hm]; [rewrite !seqZ_nil by lia; done|]. rewrite seqZ_cons by lia. cbn. rewrite bool_decide_eq_false_2 by lia.
  replace (Z.succ lo) with (lo + 1) by lia. replace (Z.pred m) with (m - 1) by lia.
  assert (Hall : Forall (fun k => lo < k) (seqZ (lo + 1) (m - 1))) by (apply Forall_forall; intros k Hk%elem_of_seqZ; lia).
  induction Hall as [|k ks Hk _ IH]; cbn; [done|]. by rewrite bool_decide_eq_true_2, IH.
Qed.

Lemma filter_fst {A} (f : Z -> bool) (ids : list (Z * A)) : (List.filter (fun e => f e.1) ids).*1 = List.filter f ids.*1.
Proof. induction ids as [|e ids IH]; cbn; [done|]. destruct (f e.1); cbn; by rewrite IH. Qed.

Lemma chain_ids_heights : (chain_ids l).*1 = seqZ 0 (Z.of_nat (length l)).
Proof.
  unfold chain_ids. rewrite fmap_imap. apply list_eq. intros i. rewrite list_lookup_imap. destruct (l !! i) eqn:E; cbn.
  - apply lookup_lt_Some in E. rewrite lookup_seqZ_lt by lia. f_equal; lia.
  - apply lookup_ge_None in E. rewrite lookup_seqZ_ge by lia. done.
Qed.

Lemma chain_ids_canon k x : (k, x) ∈ chain_ids l <-> canon k = Some x.
Proof.
  unfold chain_ids, canon. rewrite elem_of_lookup_imap. split.
  - intros (i & e & [= -> ->] & Hi). rewrite decide_True by lia. by rewrite Nat2Z.id, Hi.
  - case_decide; [|done]. intros (e & He & ->)%fmap_Some. exists (Z.to_nat k), e. split; [f_equal; lia|done].
Qed.

(** A chain extended by the active chain from its tip to [s] *)
Definition extended (c c' : LocalChain) (n s : Z) : Prop := forall k, c' !! k = if decide (n < k <= s) then canon k else c !! k.

Hypothesis known_tip : current_chain_tip (v_dbs v) = Some t.
Hypothesis tip_not_zero : t <> all_zeros.

Lemma checkpoint_extends c n up_to : dense c n -> n <= last_height ->
  let s := match up_to with Some u => Z.min u last_height | None => last_height end in
  exists c', get_chain_checkpoint bdk v c up_to = Some (Ok c') /\ extended c c' n s.
Proof.
  intros Hd Hn s. destruct (tip_id_dense c n Hd) as (x & Htip & _). unfold get_chain_checkpoint. rewrite Htip. cbn [fst].
  rewrite (list_headers_chain v t l) by done. cbn [omap_err fmap option_fmap option_map map_err obind]. fold (chain_ids l).
  set (ids0 := match up_to with Some u => _ | None => _ end). set (ids := List.filter _ ids0).
  assert (Hd0 := proj1 Hd). assert (Hdrop : (drop (Z.to_nat n) (chain_ids l)).*1 = seqZ n (Z.of_nat (length l) - n)).
  { rewrite fmap_drop, chain_ids_heights. replace (Z.of_nat (length l)) with (n + (Z.of_nat (length l) - n)) at 1 by lia.
    rewrite seqZ_app by lia. rewrite drop_app_length' by (rewrite length_seqZ; done). f_equal. }
  assert (Hids : ids.*1 = seqZ (n + 1) (s - n)).
  { unfold ids. pose proof (filter_fst (fun k => bool_decide (n < k)) ids0) as Ef. cbn beta in Ef. rewrite Ef. assert (ids0.*1 = seqZ n (s + 1 - n)) as ->.
    - unfold ids0, s. destruct up_to as [u|]; [|rewrite Hdrop; f_equal; lia].
      pose proof (filter_fst (fun k => bool_decide (k <= u)) (drop (Z.to_nat n) (chain_ids l))) as Eu. cbn beta in Eu. rewrite Eu, Hdrop, filter_seqZ_le. f_equal. lia.
    - rewrite filter_seqZ_gt. f_equal. lia. }
  assert (Hlen : ids.*1 = seqZ (n + 1) (Z.of_nat (length ids))).
  { rewrite Hids. assert (El : length ids = Z.to_nat (s - n)) by (rewrite <- (length_fmap fst), Hids; apply length_seqZ).
    destruct (decide (s - n <= 0)); [rewrite !seqZ_nil by lia; done|]. f_equal. lia. }
  rewrite (extend_appends c n ids Hd Hlen). cbn. eexists. split; [done|].
  assert (Hin : forall k y, (k, y) ∈ ids -> canon k = Some y).
  { intros k y Hky. apply chain_ids_canon. assert (Hsub : forall (f : Z * BlockHash -> bool) ks e, e ∈ List.filter f ks -> e ∈ ks).
    { intros f ks e [He _]%list_elem_of_In%filter_In. by apply list_elem_of_In. }
    apply Hsub in Hky. unfold ids0 in Hky. destruct up_to; [apply Hsub in Hky|]; by eapply (subseteq_drop (Z.to_nat n)). }
  assert (Hnd : NoDup ids.*1) by (rewrite Hids; apply NoDup_seqZ).
  intros k. rewrite lookup_union. case_decide as Hk.
  - assert (Hmem : k ∈ ids.*1) by (rewrite Hids; apply elem_of_seqZ; lia). apply list_elem_of_fmap in Hmem as ([k' y] & -> & Hky). cbn in *.
    rewrite (Hin _ _ Hky), (elem_of_list_to_map_1 ids k' y) by done. by destruct (c !! k').
  - rewrite (not_elem_of_list_to_map_1 ids k); [by destruct (c !! k)|]. rewrite Hids, elem_of_seqZ. lia.
Qed.

Lemma extended_dense c c' n s : dense c n -> n <= s <= last_height -> extended c c' n s -> dense c' s.
Proof.
  intros [Hpos Hd] Hs He. split; [lia|]. intros k. rewrite He. case_decide as Hk; [|rewrite Hd; lia].
  split; [lia|]. intros _. destruct (canon_Some k) as [x ->]; [lia|]. by eexists.
Qed.

Lemma extended_subset c c' n s : dense c n -> extended c c' n s -> c ⊆ c'.
Proof. intros Hd He. apply map_subseteq_spec. intros k x Hk. rewrite He, decide_False; [done|]. apply (dense_range c n) in Hk; [lia|done]. Qed.

(** Extending a tip on the active chain keeps the chain a chain; extending another
    tip still gives the active chain above it. *)
Lemma extended_meets a c c' n s : dense c n -> n <= s <= last_height -> extended c c' n s -> meets a c -> a <= n -> c !! n = canon n -> meets a c'.
Proof.
  intros Hd Hs He Hm Ha Hn. split.
  - exists s. split; [by eapply extended_dense|]. destruct (me_dense _ _ Hm) as (? & _ & ?). lia.
  - rewrite He, decide_False by lia. apply (me_at _ _ Hm).
  - intros k Hk Hck Hc. rewrite He in Hc |- *. destruct (decide (n < k <= s)) as [Hks|Hks].
    + case_decide as Hk1; [done|]. by replace (k - 1) with n by lia.
    + rewrite decide_False; [by apply (me_down _ _ Hm)|]. intros Hk1. rewrite <- Hc in Hck. destruct (c !! k) eqn:E; [|done].
      apply (dense_range c n) in E; [lia|done].
Qed.

Lemma extended_meets_above c c' n s : dense c n -> n < s <= last_height -> extended c c' n s -> meets (n + 1) c'.
Proof.
  intros Hd Hs He. pose proof (proj1 Hd). split.
  - exists s. split; [apply (extended_dense c c' n s); [done|lia|done]|]. lia.
  - rewrite He, decide_True by lia. done.
  - intros k Hk Hck Hc. rewrite He in Hc |- *. rewrite (decide_True (P := n < k - 1 <= s)) by (destruct (decide (n < k <= s)); [lia|]; exfalso; rewrite <- Hc in Hck;
      destruct (c !! k) eqn:E; [apply (dense_range c n) in E; [lia|done]|done]). done.
Qed.

Lemma persist_Ok {E} (e : E) w : exists w', persist_async persist_ok e w = Ok w' /\ local_chain w' = local_chain w /\ bdk_db w' = (local_chain w', canonical_txs w').
Proof. unfold persist_async. rewrite persists. eexists. split; [done|]. done. Qed.

(** A wallet whose chain was extended, and persisted *)
Definition moved (w w' : WalletInner) (n s : Z) : Prop :=
  extended (local_chain w) (local_chain w') n s /\ bdk_db w' = (local_chain w', canonical_txs w').

Lemma fast_forward_extends w n u : dense (local_chain w) n -> n <= last_height ->
  exists w', fast_forward_chain bdk v persist_ok w (Some u) = Some (Ok w') /\ moved w w' n (Z.min u last_height).
Proof.
  intros Hd Hn. unfold fast_forward_chain. destruct (checkpoint_extends _ n (Some u) Hd Hn) as (c' & -> & He). cbn [obind].
  rewrite (apply_update_extension _ n) by (done || by eapply extended_subset). cbn [ok_or mbind Res_bind].
  destruct (persist_Ok PersistWallet (set_wallet w c' (canonical_txs w))) as (w' & -> & Hc & Hp). exists w'. split; [done|]. split; [by rewrite Hc|done].
Qed.

(** The chain source follows the active chain: it has nothing to add to the checkpoint. *)
Definition source_agrees (source : LocalChain -> option (LocalChain * list WalletTx)) : Prop := forall c, exists txs, source c = Some (c, txs).

Lemma full_scan_extends source w n : source_agrees source -> dense (local_chain w) n -> n <= last_height ->
  exists w' h, full_scan bdk v (Some source) persist_ok w = Some (Ok (w', h)) /\ moved w w' n last_height.
Proof.
  intros Hsrc Hd Hn. unfold full_scan. cbn [ok_or obind]. unfold try_get_mainchain_tip. rewrite known_tip. cbn [ok_or obind].
  destruct (checkpoint_extends _ n None Hd Hn) as (c' & -> & He). cbn [obind]. destruct (Hsrc c') as [txs ->]. cbn [ok_or mbind Res_bind].
  rewrite (apply_update_extension _ n) by (done || by eapply extended_subset). cbn [ok_or mbind Res_bind].
  match goal with |- context [persist_async persist_ok PersistWallet ?x] => destruct (persist_Ok PersistWallet x) as (w' & -> & Hc & Hp) end.
  cbn. eexists _, _. split; [done|]. split; [by rewrite Hc|done].
Qed.

(** *** The whole sync *)

Lemma tip_info : 0 < last_height -> exists hi, get_header_info b t = Ok hi /\ hi_height hi = last_height /\ canon last_height = Some t.
Proof.
  intros HT. assert (Hl : exists l' e, l = l' ++ [e]).
  { destruct l as [|e l' _] using rev_ind; [cbn in HT; lia|by eexists _, _]. }
  destruct Hl as (l' & e & El). pose proof active as Hact. rewrite El in Hact.
  destruct (header_info_chain b t l' e tables Hact) as (hi & Hi & Hid & _ & He & _).
  exists hi. unfold get_header_info. rewrite Hi. injection Hid as Hh _. unfold canon. rewrite El, length_app in *. cbn [length] in *.
  split_and!; [done|lia|]. rewrite decide_True by lia. rewrite lookup_app_r by lia. replace (Z.to_nat _ - length l')%nat with 0%nat by lia. cbn. by rewrite He.
Qed.

(** The last part: from a wallet that meets the active chain to its tip *)
Lemma replay a w n ob max_ancestors : tip_block ob -> meets a (local_chain w) -> dense (local_chain w) n -> a < last_height -> a <= n ->
  max_ancestors = Z.to_nat (Z.max 1 (saturating_sub last_height n)) ->
  exists infos w', get_block_infos v t (max_ancestors - 1) = Ok infos /\
    replay_blocks bdk getblockhash get_block persist_ok t ob w (take max_ancestors infos.*1) = Some (Ok w') /\ advanced a last_height w w'.
Proof.
  intros Hob Hm Hd HT Ha ->. set (e := Z.to_nat _). assert (He : (1 <= e)%nat /\ Z.of_nat e <= Z.max 1 (last_height - n)) by (unfold e, saturating_sub; lia).
  destruct (get_block_infos_chain v t l (e - 1) tables active) as (infos & Hg & Hids); [intros ->; cbn in HT; destruct (me_dense _ _ Hm) as (? & _ & ?); lia|].
  exists infos. replace (S (e - 1)) with e in Hids by lia. rewrite take_ge.
  2:{ rewrite <- (length_fmap id_of), Hids, length_take. lia. }
  assert (Hnames : forall i hi, infos.*1 !! i = Some hi -> (i < e)%nat /\ names (last_height - Z.of_nat i) hi).
  { intros i hi Hi. assert (Hr : (id_of <$> infos.*1) !! i = Some (id_of hi)) by (by rewrite list_lookup_fmap, Hi). rewrite Hids in Hr.
    apply lookup_take_Some in Hr as [Hr Hlt]. split; [done|]. rewrite rev_alt in Hr. apply reverse_lookup_Some in Hr as [Hr Hlt'].
    pose proof (list_elem_of_lookup_2 _ _ _ Hr) as Hc%chain_ids_canon. unfold chain_ids in Hr, Hlt'. rewrite length_imap in *.
    rewrite list_lookup_imap in Hr. apply fmap_Some in Hr as (e0 & _ & [= Hh Hx]). rewrite Hh in Hc. split; [lia|].
    rewrite <- Hc. f_equal. lia. }
  destruct (infos.*1) as [|hi rest] eqn:Ei.
  { apply (f_equal length) in Hids. rewrite length_take, length_rev in Hids. unfold chain_ids in Hids. rewrite length_imap in Hids. cbn in Hids.
    destruct (me_dense _ _ Hm) as (? & _ & ?). lia. }
  destruct (process_blocks_connect a ob w (hi :: rest) Hob Hm HT) as (w' & Hp & Had); [|by exists w'].
  exists hi, rest. split_and!; [done|destruct (Hnames 0%nat hi eq_refl) as [_ Hn]; by replace (last_height - Z.of_nat 0) with last_height in Hn by lia|].
  apply Forall_forall. intros h (i & Hi)%list_elem_of_lookup. destruct (Hnames (S i) h Hi) as [Hlt Hn]. eexists. split; [|exact Hn].
  destruct (me_dense _ _ Hm) as (? & _ & ?). lia.
Qed.

(** The wallet's chain starts at the first block, and the blocks of it that the validator
    knows are at their heights, each on its parent. *)
Record branch_of_headers (c : LocalChain) : Prop := {
  bh_first : c !! 0 = canon 0;
  bh_linked k x hd : c !! k = Some x -> headers b !! x = Some hd -> height b !! x = Some k /\ (0 < k -> c !! (k - 1) = Some (prev_blockhash hd)) }.

Lemma branch_meets c n : dense c n -> branch_of_headers c -> meets 0 c.
Proof.
  intros Hd Hb. split; [exists n; split; [done|]; destruct Hd; lia|apply Hb|]. intros k Hk Hck Hc. destruct (canon k) as [x|] eqn:Ex; [|done].
  destruct (canon_header k x Ex) as [hd Hhd]. destruct (bh_linked _ Hb k x hd Hc Hhd) as [_ Hp]. rewrite Hp by done. symmetry. by eapply canon_prev.
Qed.

(** A persisted wallet up to height [n] whose chain meets the active chain from the
    first block on, and whether its tip is on the active chain *)
Definition ready (w : WalletInner) (n : Z) : Prop :=
  dense (local_chain w) n /\ meets 0 (local_chain w) /\ bdk_db w = (local_chain w, canonical_txs w).
Definition on_chain (w : WalletInner) (n : Z) : Prop := local_chain w !! n = canon n.

Lemma moved_ready w w' n s : ready w n -> on_chain w n -> n <= s <= last_height -> moved w w' n s -> ready w' s /\ on_chain w' s.
Proof.
  intros (Hd & Hm & _) Hon Hs [He Hp]. pose proof (proj1 Hd).
  split; [split_and!; [by apply (extended_dense (local_chain w) _ n s)|by apply (extended_meets 0 (local_chain w) _ n s)|done]|].
  unfold on_chain in *. rewrite He. destruct (decide _) as [|Hn]; [done|]. by replace s with n by lia.
Qed.

Lemma on_chain_height w n : ready w n -> on_chain w n -> n <= last_height.
Proof. intros (Hd & _) Hon. destruct (dense_lookup _ n n Hd) as [x Hx]; [destruct Hd; lia|]. unfold on_chain in Hon. rewrite Hx in Hon. symmetry in Hon. apply canon_range in Hon. lia. Qed.

Lemma skip_ready birthday w n : ready w n -> on_chain w n \/ birthday = None ->
  exists w' n', skip_to_birthday bdk v persist_ok birthday last_height w = Some (Ok w') /\ ready w' n' /\ (on_chain w n -> on_chain w' n') /\ (birthday = None -> w' = w /\ n' = n).
Proof.
  intros Hr Hon. unfold skip_to_birthday. destruct birthday as [bd|]; [|by exists w, n]. destruct Hon as [Hon|]; [|done].
  destruct (tip_id_dense _ _ (proj1 Hr)) as (x & -> & _). cbn [fst]. case_bool_decide as Hlt; [|by exists w, n].
  pose proof (on_chain_height w n Hr Hon) as Hn. destruct (fast_forward_extends w n (Z.min (saturating_sub bd BIRTHDAY_REORG_MARGIN) last_height) (proj1 Hr) Hn) as (w' & -> & Hm).
  destruct (moved_ready w w' n (Z.min (Z.min (saturating_sub bd BIRTHDAY_REORG_MARGIN) last_height) last_height) Hr Hon) as [Hr' Hon']; [lia|done|].
  exists w'. eexists. by split_and!.
Qed.

Lemma gap_ready source max w n : ready w n -> (forall sc, source = Some sc -> source_agrees sc) ->
  on_chain w n \/ source = None \/ last_height - n <= max -> 0 <= max ->
  exists w' n', close_gap bdk v source persist_ok max last_height w = Some (Ok w') /\ ready w' n'.
Proof.
  intros Hr Hsrc Hon Hmax. unfold close_gap. destruct (tip_id_dense _ _ (proj1 Hr)) as (x & -> & _). cbn [fst]. case_bool_decide as Hb; [by exists w, n|].
  destruct source as [sc|]; [|by exists w, n]. destruct Hon as [Hon|[?|Hle]]; [|done|unfold saturating_sub in Hb; lia].
  pose proof (on_chain_height w n Hr Hon) as Hn. destruct (full_scan_extends sc w n (Hsrc sc eq_refl) (proj1 Hr) Hn) as (w' & h & -> & Hm).
  destruct (moved_ready w w' n last_height Hr Hon ltac:(lia) Hm). cbn. by exists w', last_height.
Qed.

(** The wallet follows the chain: its chain is a branch of the headers the validator
    knows, and its tip is on the active chain, or it takes none of the shortcuts (the
    birthday, the full scan). Then [sync_wallet_to_tip] terminates without an error
    and the wallet's chain, in memory and in its database, is the active chain up to
    its tip, also when the wallet was on a branch that the node has left. *)
Theorem wallet_follows_chain source birthday max w n ob :
  0 < last_height -> 0 <= max -> tip_block ob -> dense (local_chain w) n -> branch_of_headers (local_chain w) ->
  bdk_db w = (local_chain w, canonical_txs w) -> (forall sc, source = Some sc -> source_agrees sc) ->
  local_chain w !! n = canon n \/ (birthday = None /\ (source = None \/ last_height - n <= max)) ->
  exists w', sync_wallet_to_tip bdk v getblockhash get_block source persist_ok birthday max (Some w) t ob = Some (Ok (Some w')) /\
    agrees 0 last_height (local_chain w') /\ bdk_db w' = (local_chain w', canonical_txs w') /\ has_synced w' = true.
Proof.
  intros HT Hmax Hob Hd Hb Hp Hsrc Hon. assert (Hr : ready w n) by (split_and!; [done|by eapply branch_meets|done]).
  destruct (tip_info HT) as (hi & Hi & Hh & Htip). unfold sync_wallet_to_tip. rewrite Hi. cbn [map_err obind]. rewrite Hh.
  destruct (tip_id_dense _ _ Hd) as (x & Hx & Hnx). rewrite Hx. cbn [snd]. case_decide as Ex.
  { subst x. exists (set_last_synced_now w). split_and!; [done| |done|done]. cbn. destruct (canon_header _ _ Htip) as [hd Hhd]. destruct (bh_linked _ Hb n t hd Hnx Hhd) as (Hk & _).
    destruct (chain_to_height b tables _ _ active) as [[? _]|[Hk' _]]; [done|]. assert (n = last_height) as -> by congruence.
    apply meets_agrees; [by apply Hr|lia|by rewrite Htip]. }
  destruct (skip_ready birthday w n Hr) as (w1 & n1 & -> & Hr1 & Hon1 & Hsame); [destruct Hon as [?|[? _]]; [by left|by right]|]. cbn [obind].
  destruct (gap_ready source max w1 n1 Hr1 Hsrc) as (w2 & n2 & -> & Hd2 & Hm2 & Hp2); [|done|].
  { destruct Hon as [?|[Hbd Hs]]; [left; by apply Hon1|right]. destruct (Hsame Hbd) as [_ ->]. done. }
  cbn [obind]. destruct (tip_id_dense _ _ Hd2) as (x2 & -> & _). cbn [fst].
  destruct (replay 0 w2 n2 ob _ Hob Hm2 Hd2 HT ltac:(destruct Hd2; lia) eq_refl) as (infos & w' & -> & Hrun & Had). cbn [map_err obind]. rewrite Hrun. cbn [obind].
  exists (set_last_synced_now w'). split_and!; [done|apply Had|apply Had|done].
Qed.

(** A wallet that was left on a stale block keeps it: if it is further behind than
    the limit of the replay and takes the full scan, the checkpoint is the wallet's tip
    extended by the active headers above it, without a look at the tip. The sync
    succeeds, the wallet has the active chain above the stale block, and still has the
    stale block. *)
Theorem stale_tip_kept source max w n stale ob :
  0 <= n -> n + 1 < last_height -> 0 <= max < last_height - n -> tip_block ob -> dense (local_chain w) n -> local_chain w !! n = Some stale ->
  (forall k, canon k <> Some stale) -> source_agrees source ->
  exists w', sync_wallet_to_tip bdk v getblockhash get_block (Some source) persist_ok None max (Some w) t ob = Some (Ok (Some w')) /\
    agrees (n + 1) last_height (local_chain w') /\ local_chain w' !! n = Some stale /\ has_synced w' = true.
Proof.
  intros Hn HT Hmax Hob Hd Hst Hno Hsrc. destruct (tip_info ltac:(lia)) as (hi & Hi & Hh & Htip). unfold sync_wallet_to_tip. rewrite Hi. cbn [map_err obind]. rewrite Hh.
  destruct (tip_id_dense _ _ Hd) as (x & Hx & Hnx). rewrite Hx. cbn [snd]. rewrite decide_False by (intros ->; rewrite Hst in Hnx; injection Hnx as ->; by apply (Hno last_height)).
  cbn [skip_to_birthday obind]. unfold close_gap. rewrite Hx. cbn [fst]. rewrite bool_decide_eq_false_2 by (unfold saturating_sub; lia).
  destruct (full_scan_extends source w n Hsrc Hd ltac:(lia)) as (w1 & h & -> & He & _). cbn [omap_err fmap option_fmap option_map map_err obind fst].
  assert (Hd1 : dense (local_chain w1) last_height) by (eapply extended_dense; [exact Hd| |exact He]; lia).
  destruct (tip_id_dense _ _ Hd1) as (x1 & -> & _). cbn [fst].
  assert (Hm1 : meets (n + 1) (local_chain w1)) by (eapply extended_meets_above; [exact Hd| |exact He]; lia).
  destruct (replay (n + 1) w1 last_height ob _ Hob Hm1 Hd1 HT ltac:(lia) eq_refl) as (infos & w' & -> & Hrun & Had). cbn [map_err obind]. rewrite Hrun. cbn [obind].
  exists (set_last_synced_now w'). split_and!; [done|apply Had| |done]. cbn. rewrite (ad_below _ _ _ _ Had) by lia. by rewrite He, decide_False by lia.
Qed.

End Follow.

(** ** Connecting a block *)

Lemma evicted_stale `{Bitcoin, Nom} txs tip t m8 :
  t ∈ apply_evicted_txs (evict_stale_bmm_requests txs tip) txs -> is_confirmed (chain_position t) = false -> parse_m8_tx (wt_tx t) = Some m8 ->
  m8_prev_mainchain_block_hash m8 = tip.
Proof.
  intros Ht Hu Hm. apply list_elem_of_In, filter_In in Ht as [Hin Ht]. rewrite Hu in Ht. cbn in Ht. apply negb_true_iff, bool_decide_eq_false_1 in Ht.
  destruct (decide (m8_prev_mainchain_block_hash m8 = tip)) as [|Hne]; [done|]. destruct Ht. unfold evict_stale_bmm_requests.
  apply list_elem_of_fmap. exists t. split; [done|]. apply list_elem_of_In, filter_In. split; [done|]. unfold is_stale_bmm_request. rewrite Hu, Hm. cbn.
  by apply bool_decide_eq_true_2.
Qed.

Lemma evicted_subset ids txs t : t ∈ apply_evicted_txs ids txs -> t ∈ txs /\ (is_confirmed (chain_position t) = false -> wt_txid t ∉ ids).
Proof.
  intros [Hin Ht]%list_elem_of_In%filter_In. split; [by apply list_elem_of_In|]. intros Hu. rewrite Hu in Ht. cbn in Ht. by apply negb_true_iff, bool_decide_eq_false_1 in Ht.
Qed.

(** C26. After a block: the wallet's node answers as the block producer does, and for an
    accepted block an unlocked wallet has, in memory and in its database, no unconfirmed
    transaction that the block removes from the mempool and no BMM request for another
    parent than the block; a rejected block, and a locked wallet, leave the wallet as it
    was. *)
Theorem connected_wallet_clean `{Bitcoin, Nom} bdk getblockhash get_block source persist_ok birthday max p wallet block p' wallet' res :
  wallet_connect_block bdk getblockhash get_block source persist_ok birthday max p wallet block = Some (Ok (p', wallet', res)) ->
  producer_connect_block p block = Ok (p', res) /\
  match res, wallet with
  | AcceptBlock removed, Some _ =>
      exists w, wallet' = Some w /\ bdk_db w = (local_chain w, canonical_txs w) /\
        forall t, t ∈ canonical_txs w -> is_confirmed (chain_position t) = false ->
          wt_txid t ∉ removed /\ forall m8, parse_m8_tx (wt_tx t) = Some m8 -> m8_prev_mainchain_block_hash m8 = block_hash (header block)
  | _, _ => wallet' = wallet
  end.
Proof.
  unfold wallet_connect_block. destruct (producer_connect_block p block) as [[p1 r]|e|]; [|done..]. cbn [map_err obind].
  destruct r as [removed|]; [|intros [= <- <- <-]; done]. destruct wallet as [w0|]; [|intros [= <- <- <-]; done].
  destruct (sync_wallet_to_tip _ _ _ _ _ _ _ _ _ _ _) as [[[w1|]| |]|]; cbn [omap_err fmap option_fmap option_map map_err obind ok_or]; [|done..].
  unfold persist_async. destruct (persist_ok _); cbn [obind]; [|done]. intros [= <- <- <-]. split; [done|]. eexists. split; [done|]. split; [done|].
  intros t Ht Hu. cbn in Ht. split; [|intros m8 Hm; by eapply evicted_stale].
  apply evicted_subset in Ht as [Ht _]. apply evicted_subset in Ht as [_ Ht]. intros Hin. by apply Ht, elem_of_elements.
Qed.
