(* ===== verification/WalletEnforcer.v ===== *)
(** * The wallet and the validator together

    The synchronisation that the node's mempool library drives, as each enforcer implements it:
    [lib/validator/cusf_enforcer.rs], [lib/block_producer/mod.rs] and
    [lib/wallet/cusf_block_producer.rs]. The validator follows the node, and then the wallet
    follows the validator. *)

From Stdlib Require Import Strings.Byte.
From stdpp Require Import base numbers list gmap.
From S2P Require Import Prelude OrderMap Bitcoin Types Messages M6 Dbs BlockHashes Treasury Diff Reversible Handlers HandlerProofs ConnectBlock ConnectProofs Reorg Enforcer EnforcerProofs Sync SyncProofs SyncTermination Headers HeaderProofs Facade FacadeProofs Policy Producer Wallet WalletSync WalletSyncProofs.
Open Scope Z_scope.

(** ** Errors *)

Inductive ValidatorSyncError := HeaderSyncInProgress | VS_Sync (e : SyncError).
(** [InitialSync] *)
Inductive InitialSync := IS_GetMainchainTip | IS_Shutdown | IS_Validator (e : ValidatorSyncError) | IS_Wallet (e : SyncWalletToTip).
(** [SyncToTipError] of the mempool library *)
Inductive SyncToTipError (E : Type) := STT_InvalidBlock (b : InvalidBlock) | STT_Other (e : E).
Arguments STT_InvalidBlock {_} _.
Arguments STT_Other {_} _.
Definition map_other {E F} (f : E -> F) (e : SyncToTipError E) : SyncToTipError F :=
  match e with STT_InvalidBlock b => STT_InvalidBlock b | STT_Other e => STT_Other (f e) end.

(** ** The validator *)

Section Enforcers.
Context `{Bitcoin, Nom} {W : Type} `{!Node W, !HeaderNode W}.

(** The validator, whether a header sync is in progress, and the node *)
Record Synced := mkSynced { sn_validator : Validator; sn_in_progress : bool; sn_world : W }.

Abbreviation Dir := (option (BlockHash -> Res SyncError (list (Res SyncError ParsedBlock)))).

(** [shutdown]: the signal comes before the result, and the sync is dropped where its
    fuel is out. Without the signal and out of fuel it is still running. *)
Definition validator_sync_to_tip (shutdown : bool) (fuel : nat) (dir : Dir) (tip : BlockHash) (s : Synced)
    : Synced * option (Res (SyncToTipError ValidatorSyncError) unit) :=
  let v := sn_validator s in
  if sn_in_progress s then (s, Some (Err (STT_Other HeaderSyncInProgress))) else
  let '(st, r) := sync_to_tip (validator_handler v) fuel dir tip (mkSync (v_dbs v) (events_tx v) (sn_world s)) in
  let synced in_progress := mkSynced (mkValidator (sy_dbs st) (v_network v) (v_network_params v) (sy_events st)) in_progress (sy_world st) in
  if shutdown then (synced false, Some (Err (STT_Other (VS_Sync Shutdown)))) else
  match r with
  | None => (synced true, None)
  | Some (Ok None) => (synced false, Some (Ok tt))
  | Some (Ok (Some invalid_block)) => (synced false, Some (Err (STT_InvalidBlock invalid_block)))
  | Some (Err e) => (synced false, Some (Err (STT_Other (VS_Sync e))))
  | Some Panic => (synced true, Some Panic)
  end.

(** ** The block producer *)

(** [BlockProducer::new] on an opened policy store *)
Definition block_producer_new (db : PolicyDb) (v : Validator) : Res PolicyError BlockProducer :=
  db ← start_cursor v db; Ok (mkBlockProducer v db ∅ None).
Definition producer_disconnect_block (p : BlockProducer) (hash : BlockHash) : Res DisconnectBlockError (BlockProducer * gset Txid) :=
  '(v, txids) ← enforcer_disconnect_block (bp_validator p) hash; Ok (set_validator p v, txids).
Definition producer_validate_block (p : BlockProducer) (block : Block) : Res EnforcerConnectBlockError (BlockProducer * option RejectReason) :=
  '(v, r) ← validate_block (bp_validator p) block; Ok (set_validator p v, r).

(** ** The wallet *)

Context (bdk : Bdk) (rpc_getblockhash : Z -> option BlockHash) (rpc_get_block : BlockHash -> option Block)
        (persist_ok : LocalChain * list WalletTx -> bool) (source : option (LocalChain -> option (LocalChain * list WalletTx)))
        (birthday : option Z) (max_block_by_block_replay : Z).

(** When the shutdown signal comes: while the validator syncs, which may still come to its own
    result before it sees the signal, or while the wallet syncs *)
Inductive ShutdownAt := NoShutdown | DuringValidator (seen : bool) | DuringWallet.

(** With the wallet on success; an error can come after some blocks were connected to it. *)
Definition wallet_sync_to_tip (shutdown : ShutdownAt) (fuel : nat) (dir : Dir) (tip_hash : BlockHash) (s : Synced) (wallet : option WalletInner)
    : Synced * option (Res (SyncToTipError InitialSync) (option WalletInner)) :=
  let seen := match shutdown with DuringValidator seen => seen | _ => false end in
  let '(s, r) := validator_sync_to_tip seen fuel dir tip_hash s in
  (s,
   _ ⇐ omap_err (map_other IS_Validator) r;
   match shutdown with
   | DuringValidator _ => Some (Err (STT_Other IS_Shutdown))
   | _ =>
       synced_tip_hash ⇐ Some (map_err (fun _ => STT_Other IS_GetMainchainTip) (get_mainchain_tip (sn_validator s)));
       match shutdown with
       | NoShutdown =>
           omap_err (fun e => STT_Other (IS_Wallet e))
             (sync_wallet_to_tip bdk (sn_validator s) rpc_getblockhash rpc_get_block source persist_ok birthday max_block_by_block_replay wallet synced_tip_hash None)
       | _ => Some (Err (STT_Other IS_Shutdown))
       end
   end).
End Enforcers.

(** ** Theorems *)

Section Follow.
Context `{Bitcoin, !BitcoinLaws, Nom, !NomLaws} {W : Type} `{!Node W, !HeaderNode W}.
Context (bdk : Bdk) `{!BdkChainLaws bdk} (rpc_getblockhash : Z -> option BlockHash) (rpc_get_block : BlockHash -> option Block)
        (persist_ok : LocalChain * list WalletTx -> bool).
Context (tree : gmap BlockHash (Header * Z)) (main_tip : BlockHash).

(** The blocks from the tip down in the node's tree *)
Inductive on_branch : BlockHash -> Prop :=
| on_branch_tip : on_branch main_tip
| on_branch_parent x hd k : on_branch x -> tree !! x = Some (hd, k) -> on_branch (prev_blockhash hd).

(** The node serves the blocks of the tip's branch to the wallet. *)
Definition serves_branch : Prop := forall x hd k, on_branch x -> tree !! x = Some (hd, k) ->
  rpc_getblockhash k = Some x /\ exists block, rpc_get_block x = Some block /\ header block = hd.

(** The wallet's chain starts at the first block, and its blocks that are in the tree are at
    their heights, each on its parent. *)
Record branch_of_tree (c : LocalChain) : Prop := {
  bot_first x hd : tree !! x = Some (hd, 0) -> c !! 0 = Some x;
  bot_linked k x hd j : c !! k = Some x -> tree !! x = Some (hd, j) -> j = k /\ (0 < k -> c !! (k - 1) = Some (prev_blockhash hd)) }.

Section Chain.
Variables (v : Validator) (l : list (BlockHash * BlockInfo)).
Hypothesis serves : serves_chain v main_tip l.
Hypothesis known : in_tree tree (block_hashes (v_dbs v)).

Lemma chain_on_branch t l' : chain_to (block_hashes (v_dbs v)) t l' -> on_branch t -> Forall (fun e => on_branch e.1) l'.
Proof.
  induction 1 as [|t hd info l' Hhd _ _ IH]; intros Ht; [done|]. apply Forall_app. split; [|by constructor].
  apply IH. destruct (it_sub _ _ known _ _ Hhd) as (k & Hk & _). by eapply on_branch_parent.
Qed.

(** A block of the active chain in the tree *)
Lemma canon_tree k x : canon l k = Some x -> on_branch x /\ exists hd, tree !! x = Some (hd, k) /\ headers (block_hashes (v_dbs v)) !! x = Some hd.
Proof.
  intros Hk. destruct serves as [Hwf _ _ Hc]. destruct (canon_header v main_tip l Hwf Hc k x Hk) as [hd Hhd].
  unfold canon in Hk. case_decide; [|done]. apply fmap_Some in Hk as ([x' info] & He & ->). cbn [fst] in *. split.
  - pose proof (chain_on_branch _ _ Hc on_branch_tip) as Hall. rewrite Forall_forall in Hall. by apply list_elem_of_lookup_2, Hall in He.
  - exists hd. destruct (chain_to_lookup _ Hwf _ _ _ _ _ Hc He) as [Hh _]. destruct (it_sub _ _ known _ _ Hhd) as (j & Hj & Hj'). rewrite Hh in Hj'.
    injection Hj' as <-. by replace (Z.of_nat (Z.to_nat k)) with k in Hj by lia.
Qed.

Lemma branch_canon x : block_tree tree -> 0 < Z.of_nat (length l) - 1 -> on_branch x -> x = all_zeros \/ exists k, canon l k = Some x.
Proof.
  intros Ht HT. destruct serves as [Hwf Htip _ Hc]. induction 1 as [|x hd k Hx IH Hk].
  - right. destruct (tip_info v main_tip l Hwf Hc HT) as (hi & _ & _ & E). by eexists.
  - destruct IH as [->|(j & Hj)]; [by destruct (bt_hash _ Ht _ _ _ Hk) as (_ & ? & _)|]. destruct (canon_tree _ _ Hj) as (_ & hd' & Hj' & Hhd).
    rewrite Hk in Hj'. injection Hj' as <- <-. pose proof (bt_parent _ Ht _ _ _ Hk) as Hp. case_decide; [by left|right].
    destruct Hp as [hp Hp]. apply (bt_hash _ Ht) in Hp as (_ & _ & ?). exists (k - 1). eapply canon_prev; [done..|lia].
Qed.

Lemma branch_known c : branch_of_tree c -> 0 < Z.of_nat (length l) - 1 -> branch_of_headers v l c.
Proof.
  intros Hb HT. destruct serves as [Hwf _ _ Hc]. split.
  - destruct (canon_Some l 0) as [x Hx]; [lia|]. destruct (canon_tree _ _ Hx) as (_ & hd & Hhd & _). rewrite Hx. by eapply bot_first.
  - intros k x hd Hk Hhd. destruct (it_sub _ _ known _ _ Hhd) as (j & Hj & Hh). destruct (bot_linked _ Hb k x hd j Hk Hj) as [-> ?]. done.
Qed.

Lemma chain_length hd h : tree !! main_tip = Some (hd, h) -> Z.of_nat (length l) - 1 = h.
Proof.
  intros Ht. destruct serves as [Hwf _ Hz Hc]. destruct (chain_to_height _ Hwf _ _ Hc) as [[? _]|[Hk Hl]]; [done|].
  inversion Hc as [|t hd' info l' Hhd _ _]; subst; [done|]. destruct (it_sub _ _ known _ _ Hhd) as (j & Hj & Hj'). rewrite Hk in Hj'. rewrite Ht in Hj. congruence.
Qed.

Lemma mainchain_tip_known : get_mainchain_tip v = Ok main_tip.
Proof. unfold get_mainchain_tip. by rewrite (sc_tip _ _ _ serves). Qed.

(** The wallet follows a validator that is synced. *)
Lemma wallet_follows_validator source birthday max w n hd h :
  block_tree tree -> serves_branch -> (forall d, persist_ok d = true) -> tree !! main_tip = Some (hd, h) -> 0 < h -> 0 <= max ->
  dense (local_chain w) n -> branch_of_tree (local_chain w) -> bdk_db w = (local_chain w, canonical_txs w) -> (forall sc, source = Some sc -> source_agrees sc) ->
  (exists x, local_chain w !! n = Some x /\ is_Some (tree !! x) /\ on_branch x) \/ (birthday = None /\ (source = None \/ h - n <= max)) ->
  exists w', sync_wallet_to_tip bdk v rpc_getblockhash rpc_get_block source persist_ok birthday max (Some w) main_tip None = Some (Ok (Some w')) /\
    (forall i x, l.*1 !! i = Some x -> local_chain w' !! Z.of_nat i = Some x) /\ bdk_db w' = (local_chain w', canonical_txs w') /\ has_synced w' = true.
Proof.
  intros Ht Hsb Hp Htip Hh Hmax Hd Hb Hdb Hsrc Hon. pose proof (chain_length _ _ Htip) as Hlen. destruct serves as [Hwf Hcur Hz Hc].
  destruct (wallet_follows_chain bdk v rpc_getblockhash rpc_get_block persist_ok main_tip l Hwf Hc Hp) with (source := source) (birthday := birthday) (max := max) (w := w) (n := n) (ob := @None Block)
    as (w' & Hs & Ha & Hdb' & Hsy); [|done|done|lia|done|exact I|done|by apply branch_known; [done|lia]|done|done| |].
  - intros k x Hk. destruct (canon_tree k x Hk) as (Hbr & hdx & Hx & Hhd). destruct (Hsb _ _ _ Hbr Hx) as (? & block & ? & <-). split; [done|by exists block].
  - destruct Hon as [(x & Hx & [[hx j] Hj] & Hbr)|[? Hg]]; [left|right; split; [done|by rewrite Hlen]].
    destruct (branch_canon x Ht ltac:(lia) Hbr) as [->|(k & Hk)]; [by apply (bt_hash _ Ht) in Hj as (_ & ? & _)|].
    destruct (canon_tree _ _ Hk) as (_ & hk & Hk' & _). destruct (bot_linked _ Hb n x hk k Hx Hk') as [-> _]. by rewrite Hx, Hk.
  - exists w'. split_and!; [done| |done|done]. intros i x Hi. apply list_lookup_fmap_Some in Hi as ([y info] & -> & Hi). pose proof (lookup_lt_Some _ _ _ Hi).
    rewrite Ha by lia. unfold canon. rewrite decide_True by lia. rewrite Nat2Z.id, Hi. done.
Qed.
End Chain.

End Follow.
