(* ===== verification/Proto.v ===== *)
(** * Protobuf messages

    [lib/proto.rs]: how the enforcer's data goes into and comes out of the messages
    of its RPC interface. The messages ([Pb]) are those of the generated code, where
    a message field is an [option] and a wrapper such as [UInt32Value] is its value.
    The consensus encodings and hex are the class [ProtoLib]. *)

From Stdlib Require Import Strings.Byte Strings.String.
From stdpp Require Import base numbers list gmap strings pretty.
From S2P Require Import Prelude OrderMap Bitcoin Types Messages M6 Dbs.
Open Scope Z_scope.

(** ** Messages *)

Module Pb.

Record ConsensusHex := mkConsensusHex { consensus_hex : option bytes }.
Record Hex := mkHex { hex : option bytes }.
Record ReverseHex := mkReverseHex { reverse_hex : option bytes }.

(** [buffa::EnumValue]: a number of the enum, or one that it does not know *)
Inductive EnumValue (A : Type) := Known (a : A) | Unknown_ (n : Z).
Arguments Known {_} _.
Arguments Unknown_ {_} _.
Definition as_known {A} (e : EnumValue A) : option A := match e with Known a => Some a | Unknown_ _ => None end.

Record OutPoint := mkOutPoint { txid : option ReverseHex; vout : option Z }.

Record V0 := mkV0 { title : option bytes; description : option bytes; hash_id_1 : option ConsensusHex; hash_id_2 : option Hex }.
(** The [oneof] of the declaration has one case. *)
Record SidechainDeclaration := mkSidechainDeclaration { sidechain_declaration : option V0 }.

Inductive AckAllProposalsPolicy :=
| ACK_ALL_PROPOSALS_POLICY_UNSPECIFIED | ACK_ALL_PROPOSALS_POLICY_NONE | ACK_ALL_PROPOSALS_POLICY_NEW_SLOTS | ACK_ALL_PROPOSALS_POLICY_ALL.
Inductive WithdrawalBundlePolicy :=
| WITHDRAWAL_BUNDLE_POLICY_UNSPECIFIED | WITHDRAWAL_BUNDLE_POLICY_NONE | WITHDRAWAL_BUNDLE_POLICY_KNOWN | WITHDRAWAL_BUNDLE_POLICY_ALL
| WITHDRAWAL_BUNDLE_POLICY_ALARM.
Inductive Network := NETWORK_UNSPECIFIED | NETWORK_UNKNOWN | NETWORK_MAINNET | NETWORK_REGTEST | NETWORK_SIGNET | NETWORK_TESTNET.

(** *** [GetCoinbasePSBTRequest] *)

Record ProposeSidechain := mkProposeSidechain { ps_sidechain_number : option Z; ps_data : option ConsensusHex }.
Record AckSidechain := mkAckSidechain { as_sidechain_number : option Z; as_data_hash : option ConsensusHex }.
Record ProposeBundle := mkProposeBundle { pb_sidechain_number : option Z; pb_bundle_txid : option ReverseHex }.
Inductive AckBundles_ := AB_RepeatPrevious | AB_LeadingBy50 | AB_Upvotes (upvotes : list Z).
Record AckBundles := mkAckBundles { ack_bundles : option AckBundles_ }.

(** *** Blocks and events *)

Record BlockHeaderInfo := mkBlockHeaderInfo {
  block_hash : option ReverseHex; prev_block_hash : option ReverseHex; height : Z; work : option ConsensusHex; timestamp : Z }.
Record Output := mkOutput { address : option Hex; value_sats : option Z }.
Record Deposit := mkDeposit { dep_sequence_number : option Z; outpoint : option OutPoint; output : option Output }.
Inductive WBEvent := Failed | Succeeded (sequence_number : option Z) (transaction : option ConsensusHex) | Submitted.
Record WithdrawalBundleEvent := mkWithdrawalBundleEvent { m6id : option ConsensusHex; event : option (option WBEvent) }.
Inductive BlockInfoEvent := BIE_Deposit (d : Deposit) | BIE_WithdrawalBundle (e : WithdrawalBundleEvent).
Record BlockInfo := mkBlockInfo { bmm_commitment : option ConsensusHex; events : list (option BlockInfoEvent) }.
Record ResponseItem := mkResponseItem { block_header_info : option BlockHeaderInfo; block_info : option BlockInfo }.
Inductive Event :=
| ConnectBlock (header_info : option BlockHeaderInfo) (block_info : option BlockInfo)
| DisconnectBlock (block_hash : option ReverseHex).

Record SidechainInfo := mkSidechainInfo {
  si_sidechain_number : option Z; si_description : option ConsensusHex; si_vote_count : option Z; si_proposal_height : option Z;
  si_activation_height : option Z; si_declaration : option SidechainDeclaration }.

End Pb.

(** ** Errors *)

(** [connectrpc::ErrorCode] *)
Inductive ErrorCode :=
| Unknown | InvalidArgument | DeadlineExceeded | NotFound | AlreadyExists | ResourceExhausted | FailedPrecondition | Aborted | Internal | Unavailable.
#[global] Instance ErrorCode_eq_dec : EqDecision ErrorCode.
Proof. solve_decision. Defined.

(** [proto::Error]; the source of an invalid value is left out. *)
Inductive ProtoError :=
| InvalidFieldValue (field_name message_name : string) (value : bytes)
| InvalidRepeatedValue (field_name message_name : string) (value : bytes)
| MissingField (field_name message_name : string).
#[global] Instance ProtoError_eq_dec : EqDecision ProtoError.
Proof. solve_decision. Defined.

Definition invalid_field_value (message field_name : string) (value : bytes) : ProtoError := InvalidFieldValue field_name message value.
Definition invalid_repeated_value (message field_name : string) (value : bytes) : ProtoError := InvalidRepeatedValue field_name message value.
Definition missing_field (message field_name : string) : ProtoError := MissingField field_name message.

(** [u32::to_string] *)
Definition decimal (n : Z) : bytes := list_byte_of_string (pretty (Z.to_N n)).

(** [TryFrom<u32> for SidechainNumber] *)
Definition sidechain_number_try_from (n : Z) : option SidechainNumber := if bool_decide (n <= 255) then Some (to_u8 n) else None.

(** ** Encodings *)

(** rust-bitcoin's consensus encoding of a type, in bytes and in hex. *)
Record Consensus (T : Type) := mkConsensus {
  serialize : T -> bytes; deserialize : bytes -> option T;
  serialize_hex : T -> bytes; deserialize_hex : bytes -> option T }.
Arguments serialize {_} _ _.
Arguments deserialize {_} _ _.
Arguments serialize_hex {_} _ _.
Arguments deserialize_hex {_} _ _.

Class ProtoLib := {
  (** [[u8; N]], as which hashes of that size are encoded too *)
  array_codec : nat -> Consensus bytes;
  (** [Vec<u8>] *)
  vec_codec : Consensus bytes;
  tx_codec : Consensus Transaction;
  (** [hex::encode], [hex::decode] *)
  to_hex : bytes -> bytes;
  of_hex : bytes -> option bytes;
  (** [Display] of an enum's value *)
  enum_to_string {A} : Pb.EnumValue A -> bytes }.

(** What is encoded is read back, for values that the type has. *)
Class CodecLaws {T} (c : Consensus T) (ok : T -> Prop) := {
  deserialize_serialize t : ok t -> deserialize c (serialize c t) = Some t;
  deserialize_serialize_hex t : ok t -> deserialize_hex c (serialize_hex c t) = Some t }.

(** Vectors of bytes are read back up to a megabyte, which is below the decoder's limit. *)
Definition MAX_VEC : Z := 1000000.

(** The fields of a transaction fit their widths. *)
Definition input_fits (i : TxIn) : Prop :=
  length (op_txid (previous_output i)) = 32%nat /\ 0 <= op_vout (previous_output i) < 2 ^ 32 /\ 0 <= sequence i < 2 ^ 32.
Definition output_fits (o : TxOut) : Prop := 0 <= value o < 2 ^ 64.
Definition tx_fits (tx : Transaction) : Prop :=
  - 2 ^ 31 <= version tx < 2 ^ 31 /\ 0 <= lock_time tx < 2 ^ 32 /\ Forall input_fits (input tx) /\ Forall output_fits (output tx).

Class ProtoLaws `{ProtoLib} := {
  array_laws n :: CodecLaws (array_codec n) (fun b => length b = n);
  array_length n b t : deserialize (array_codec n) b = Some t -> length t = n;
  array_hex_length n b t : deserialize_hex (array_codec n) b = Some t -> length t = n;
  vec_laws :: CodecLaws vec_codec (fun b => Z.of_nat (length b) <= MAX_VEC);
  tx_laws :: CodecLaws tx_codec tx_fits;
  of_to_hex b : of_hex (to_hex b) = Some b }.

Section Hex.
Context `{ProtoLib}.

(** [message] is the message that has the field. *)
Definition consensus_hex_decode {T} (c : Consensus T) (message field_name : string) (h : Pb.ConsensusHex) : Res ProtoError T :=
  hex ← ok_or (missing_field "cusf.common.v1.ConsensusHex" "hex") (Pb.consensus_hex h);
  ok_or (invalid_field_value message field_name hex) (deserialize_hex c hex).
Definition consensus_hex_encode {T} (c : Consensus T) (value : T) : Pb.ConsensusHex := Pb.mkConsensusHex (Some (serialize_hex c value)).

(** [FromHex] of a [Vec<u8>] is [of_hex]; an array needs its length too. *)
Definition from_hex_array (n : nat) (hex : bytes) : option bytes := b ← of_hex hex; if decide (length b = n) then Some b else None.
Definition hex_decode_ (from_hex : bytes -> option bytes) (message field_name : string) (h : Pb.Hex) : Res ProtoError bytes :=
  hex ← ok_or (missing_field "cusf.common.v1.Hex" "hex") (Pb.hex h);
  ok_or (invalid_field_value message field_name hex) (from_hex hex).
Definition hex_encode_ (value : bytes) : Pb.Hex := Pb.mkHex (Some (to_hex value)).

Definition reverse_hex_decode {T} (c : Consensus T) (message field_name : string) (h : Pb.ReverseHex) : Res ProtoError T :=
  hex ← ok_or (missing_field "cusf.common.v1.ReverseHex" "hex") (Pb.reverse_hex h);
  b ← ok_or (invalid_field_value message field_name hex) (of_hex hex);
  ok_or (invalid_field_value message field_name hex) (deserialize c (rev b)).
Definition reverse_hex_encode {T} (c : Consensus T) (value : T) : Pb.ReverseHex := Pb.mkReverseHex (Some (to_hex (rev (serialize c value)))).

(** Block hashes, transaction ids and 32-byte hashes. *)
Definition hash_codec : Consensus bytes := array_codec 32.

(** ** Declarations and policies *)

Definition out_point_to_proto (o : OutPoint) : Pb.OutPoint :=
  Pb.mkOutPoint (Some (reverse_hex_encode hash_codec (op_txid o))) (Some (op_vout o)).

Definition declaration_to_v0 (d : SidechainDeclaration) : Pb.V0 :=
  Pb.mkV0 (Some (sd_title d)) (Some (sd_description d)) (Some (consensus_hex_encode hash_codec (sd_hash_id_1 d))) (Some (hex_encode_ (sd_hash_id_2 d))).

Definition V0_ : string := "cusf.mainchain.v1.SidechainDeclaration.V0".
Definition declaration_from_v0 (d : Pb.V0) : Res ProtoError SidechainDeclaration :=
  title ← ok_or (missing_field V0_ "title") (Pb.title d);
  description ← ok_or (missing_field V0_ "description") (Pb.description d);
  h1 ← ok_or (missing_field V0_ "hash_id_1") (Pb.hash_id_1 d);
  hash_id_1 ← consensus_hex_decode hash_codec V0_ "hash_id_1" h1;
  h2 ← ok_or (missing_field V0_ "hash_id_2") (Pb.hash_id_2 d);
  hash_id_2 ← hex_decode_ (from_hex_array 20) V0_ "hash_id_2" h2;
  Ok (mkSidechainDeclaration title description hash_id_1 hash_id_2).

Definition declaration_to_proto (d : SidechainDeclaration) : Pb.SidechainDeclaration := Pb.mkSidechainDeclaration (Some (declaration_to_v0 d)).
Definition declaration_from_proto (d : Pb.SidechainDeclaration) : Res ProtoError SidechainDeclaration :=
  v0 ← ok_or (missing_field "cusf.mainchain.v1.SidechainDeclaration" "sidechain_declaration") (Pb.sidechain_declaration d);
  declaration_from_v0 v0.

Definition ack_policy_to_proto (p : AckAllProposalsPolicy) : Pb.AckAllProposalsPolicy :=
  match p with
  | AAP_None => Pb.ACK_ALL_PROPOSALS_POLICY_NONE
  | AAP_NewSlots => Pb.ACK_ALL_PROPOSALS_POLICY_NEW_SLOTS
  | AAP_All => Pb.ACK_ALL_PROPOSALS_POLICY_ALL
  end.
(** [None] is [UnknownPolicy]. *)
Definition ack_policy_from_proto (p : Pb.EnumValue Pb.AckAllProposalsPolicy) : option AckAllProposalsPolicy :=
  match Pb.as_known p with
  | Some Pb.ACK_ALL_PROPOSALS_POLICY_NONE => Some AAP_None
  | Some Pb.ACK_ALL_PROPOSALS_POLICY_NEW_SLOTS => Some AAP_NewSlots
  | Some Pb.ACK_ALL_PROPOSALS_POLICY_ALL => Some AAP_All
  | Some Pb.ACK_ALL_PROPOSALS_POLICY_UNSPECIFIED | None => None
  end.

Definition bundle_policy_to_proto (p : WithdrawalBundlePolicy) : Pb.WithdrawalBundlePolicy :=
  match p with
  | WBP_None => Pb.WITHDRAWAL_BUNDLE_POLICY_NONE
  | WBP_Known => Pb.WITHDRAWAL_BUNDLE_POLICY_KNOWN
  | WBP_All => Pb.WITHDRAWAL_BUNDLE_POLICY_ALL
  | WBP_Alarm => Pb.WITHDRAWAL_BUNDLE_POLICY_ALARM
  end.
Definition bundle_policy_from_proto (p : Pb.EnumValue Pb.WithdrawalBundlePolicy) : option WithdrawalBundlePolicy :=
  match Pb.as_known p with
  | Some Pb.WITHDRAWAL_BUNDLE_POLICY_NONE => Some WBP_None
  | Some Pb.WITHDRAWAL_BUNDLE_POLICY_KNOWN => Some WBP_Known
  | Some Pb.WITHDRAWAL_BUNDLE_POLICY_ALL => Some WBP_All
  | Some Pb.WITHDRAWAL_BUNDLE_POLICY_ALARM => Some WBP_Alarm
  | Some Pb.WITHDRAWAL_BUNDLE_POLICY_UNSPECIFIED | None => None
  end.

Definition network_to_proto (n : Network) : Pb.Network :=
  match n with
  | Mainnet => Pb.NETWORK_MAINNET
  | Regtest => Pb.NETWORK_REGTEST
  | Signet => Pb.NETWORK_SIGNET
  | Testnet | Testnet4 => Pb.NETWORK_TESTNET
  end.

(** ** Coinbase messages *)

(** [unwrap_u32(..)?.try_into()?] of a slot's number. *)
Definition sidechain_number_field (message field_name : string) (field : option Z) : Res ProtoError SidechainNumber :=
  n ← ok_or (missing_field message field_name) field;
  ok_or (invalid_field_value message field_name (decimal n)) (sidechain_number_try_from n).

Definition ProposeSidechain_ : string := "cusf.mainchain.v1.GetCoinbasePSBTRequest.ProposeSidechain".
Definition m1_try_from (p : Pb.ProposeSidechain) : Res ProtoError M1ProposeSidechain :=
  n ← sidechain_number_field ProposeSidechain_ "sidechain_number" (Pb.ps_sidechain_number p);
  data ← ok_or (missing_field ProposeSidechain_ "data") (Pb.ps_data p);
  description ← consensus_hex_decode vec_codec ProposeSidechain_ "data" data;
  Ok (mkM1 n description).

Definition AckSidechain_ : string := "cusf.mainchain.v1.GetCoinbasePSBTRequest.AckSidechain".
Definition m2_try_from (a : Pb.AckSidechain) : Res ProtoError M2AckSidechain :=
  n ← sidechain_number_field AckSidechain_ "sidechain_number" (Pb.as_sidechain_number a);
  data_hash ← ok_or (missing_field AckSidechain_ "data_hash") (Pb.as_data_hash a);
  description_hash ← consensus_hex_decode hash_codec AckSidechain_ "data_hash" data_hash;
  Ok (mkM2 n description_hash).

Definition ProposeBundle_ : string := "cusf.mainchain.v1.GetCoinbasePSBTRequest.ProposeBundle".
Definition m3_try_from (p : Pb.ProposeBundle) : Res ProtoError M3ProposeBundle :=
  n ← sidechain_number_field ProposeBundle_ "sidechain_number" (Pb.pb_sidechain_number p);
  txid ← ok_or (missing_field ProposeBundle_ "bundle_txid") (Pb.pb_bundle_txid p);
  bundle_txid ← reverse_hex_decode hash_codec ProposeBundle_ "bundle_txid" txid;
  Ok (mkM3 n bundle_txid).

Definition Upvotes_ : string := "cusf.mainchain.v1.GetCoinbasePSBTRequest.AckBundles.Upvotes".
(** The loop over the votes: whether they need two bytes. *)
Fixpoint upvotes_two_bytes (vals : list Z) (two_bytes : bool) : Res ProtoError bool :=
  match vals with
  | [] => Ok two_bytes
  | upvote :: vals =>
      if bool_decide (u16_max < upvote) then Err (invalid_repeated_value Upvotes_ "upvotes" (decimal upvote))
      else upvotes_two_bytes vals (two_bytes || bool_decide (255 < upvote))
  end.
Definition upvotes_try_from (vals : list Z) : Res ProtoError M4AckBundles :=
  two_bytes ← upvotes_two_bytes vals false;
  Ok (if two_bytes : bool then TwoBytes vals else OneByte (to_u8 <$> vals)).

Definition ack_bundles_try_from_ (a : Pb.AckBundles_) : Res ProtoError M4AckBundles :=
  match a with
  | Pb.AB_LeadingBy50 => Ok LeadingBy50
  | Pb.AB_RepeatPrevious => Ok RepeatPrevious
  | Pb.AB_Upvotes v => upvotes_try_from v
  end.
Definition ack_bundles_try_from (a : Pb.AckBundles) : Res ProtoError M4AckBundles :=
  a ← ok_or (missing_field "cusf.mainchain.v1.GetCoinbasePSBTRequest.AckBundles" "ack_bundles") (Pb.ack_bundles a);
  ack_bundles_try_from_ a.

(** ** Blocks and events *)

(** [work]: 32 bytes, little endian *)
Definition header_info_to_proto (i : HeaderInfo) : Pb.BlockHeaderInfo :=
  Pb.mkBlockHeaderInfo (Some (reverse_hex_encode hash_codec (hi_block_hash i))) (Some (reverse_hex_encode hash_codec (hi_prev_block_hash i)))
    (hi_height i) (Some (consensus_hex_encode (array_codec 32) (le_bytes 32 (hi_work i)))) (hi_timestamp i).

Definition deposit_to_proto (d : Deposit) : Pb.Deposit :=
  let output := Pb.mkOutput (Some (hex_encode_ (dep_address d))) (Some (dep_value d)) in
  Pb.mkDeposit (Some (dep_sequence_number d)) (Some (out_point_to_proto (dep_outpoint d))) (Some output).

Definition bundle_event_kind_to_proto (k : WithdrawalBundleEventKind) : Pb.WBEvent :=
  match k with
  | Failed => Pb.Failed
  | Submitted => Pb.Submitted
  | Succeeded sequence_number transaction => Pb.Succeeded (Some sequence_number) (Some (consensus_hex_encode tx_codec transaction))
  end.
Definition bundle_event_to_proto (e : SidechainWithdrawalBundleEvent) : Pb.WithdrawalBundleEvent :=
  Pb.mkWithdrawalBundleEvent (Some (consensus_hex_encode hash_codec (swb_m6id e))) (Some (Some (bundle_event_kind_to_proto (swb_kind e)))).

Definition block_event_to_proto (e : SidechainBlockEvent) : option Pb.BlockInfoEvent :=
  match e with
  | SBE_Deposit d => Some (Pb.BIE_Deposit (deposit_to_proto d))
  | SBE_SidechainProposal _ _ => None
  | SBE_WithdrawalBundle b => Some (Pb.BIE_WithdrawalBundle (bundle_event_to_proto b))
  end.

Definition sidechain_block_info_to_proto (i : SidechainBlockInfo) : Pb.BlockInfo :=
  Pb.mkBlockInfo (consensus_hex_encode hash_codec <$> sbi_bmm_commitment i) (Some <$> omap block_event_to_proto (sbi_events i)).

Definition as_proto (i : BlockInfo) (n : SidechainNumber) : Pb.BlockInfo := sidechain_block_info_to_proto (only_sidechain i n).

(** [== BlockInfo::default()] *)
Definition block_info_is_default (i : Pb.BlockInfo) : bool :=
  match Pb.bmm_commitment i, Pb.events i with None, [] => true | _, _ => false end.

Definition peg_data_into_proto (d : TwoWayPegData) (n : SidechainNumber) : option Pb.ResponseItem :=
  let block_info := as_proto (twp_block_info d) n in
  if block_info_is_default block_info then None
  else Some (Pb.mkResponseItem (Some (header_info_to_proto (twp_header_info d))) (Some block_info)).

Definition event_into_proto (e : Event) (n : SidechainNumber) : Pb.Event :=
  match e with
  | ConnectBlock header_info block_info => Pb.ConnectBlock (Some (header_info_to_proto header_info)) (Some (as_proto block_info n))
  | DisconnectBlock block_hash => Pb.DisconnectBlock (Some (reverse_hex_encode hash_codec block_hash))
  end.

(** [.ok()]; the parser does not panic *)
Definition declared `{Nom} (description : SidechainDescription) : Res ProtoError (option Pb.SidechainDeclaration) :=
  match sidechain_declaration_try_from description with
  | Ok d => Ok (Some (declaration_to_proto d))
  | Err _ => Ok None
  | Panic => Panic
  end.

Definition sidechain_to_proto `{Nom} (sc : Sidechain) : Res ProtoError Pb.SidechainInfo :=
  decl ← declared (sp_description (sc_proposal sc));
  Ok (Pb.mkSidechainInfo (Some (u8_val (sp_sidechain_number (sc_proposal sc)))) (Some (consensus_hex_encode vec_codec (sp_description (sc_proposal sc))))
        (Some (vote_count (sc_status sc))) (Some (proposal_height (sc_status sc))) (activation_height (sc_status sc)) decl).

End Hex.
