(* ===== verification/Server.v ===== *)
(** * The RPC servers

    [lib/server/mod.rs], [lib/server/validator/grpc.rs] and
    [lib/server/block_producer.rs]: a handler takes the fields of its request, and
    gives its response or a [ConnectError]. The text of an error of another
    component is left out of the [ConnectError]; its code and the data of the
    server's own messages are there. *)

From Stdlib Require Import Strings.Byte Strings.String.
From stdpp Require Import base numbers list gmap strings sorting.
From S2P Require Import Prelude OrderMap Bitcoin Types Messages M6 Dbs BlockHashes Treasury Diff Reversible Handlers ConnectBlock Enforcer Sync Facade Policy Producer Proto.
Open Scope Z_scope.

(** ** Errors *)

Inductive Detail :=
| D_Proto (e : ProtoError)
| D_Text (s : string)
(** the text of another error *)
| D_Display
| D_BundleNotActive (n : SidechainNumber)
| D_NoTreasuryUtxo (n : SidechainNumber)
| D_BeforeActivation (activation_height : Z) (impossible : string)
| D_InvalidPrevBytes (prev_bytes mainchain_tip : BlockHash)
| D_SidechainNotActive (n : SidechainNumber)
| D_Dust (amount : Amount) (address : bytes).
Record ConnectError := mkConnectError { ce_code : ErrorCode; ce_detail : Detail }.

(** [From<proto::Error> for ConnectError] *)
Definition proto_status (e : ProtoError) : ConnectError := mkConnectError InvalidArgument (D_Proto e).
Definition internal_err {E} (e : E) : ConnectError := mkConnectError Internal D_Display.
(** [StatusBuilder::new(err).to_connect_error()] *)
Definition unknown_err {E} (e : E) : ConnectError := mkConnectError Unknown D_Display.

(** [PutWithdrawalBundle::builder] *)
Definition put_withdrawal_bundle_status (e : PolicyError) : ConnectError :=
  match e with AlreadyPaidOut _ => mkConnectError AlreadyExists D_Display | _ => unknown_err e end.

Section Server.
Context `{Bitcoin, Nom, TxCodec, ProtoLib, HashIter}.
Implicit Types (v : Validator) (db : PolicyDb).

(** ** [server/mod.rs] *)

Definition parse_sidechain_id (message : string) (field : option Z) (field_name : string) : Res ConnectError SidechainNumber :=
  raw ← ok_or (proto_status (missing_field message field_name)) field;
  ok_or (proto_status (invalid_field_value message field_name (decimal raw))) (sidechain_number_try_from raw).

Definition store_withdrawal_bundle (message : string) v db (n : SidechainNumber) (transaction_bytes : bytes) : option (Res ConnectError (PolicyDb * M6id)) :=
  sidechains ⇐ Some (map_err internal_err (get_active_sidechains v));
  if negb (existsb (fun sc => bool_decide (sp_sidechain_number (sc_proposal sc) = n)) sidechains)
  then Some (Err (mkConnectError FailedPrecondition (D_BundleNotActive n))) else
  match try_get_ctip v n with
  | None => Some (Err (mkConnectError FailedPrecondition (D_NoTreasuryUtxo n)))
  | Some _ =>
      transaction ⇐ Some (map_err (fun _ => proto_status (invalid_field_value message "transaction" (to_hex transaction_bytes))) (decode_bundle transaction_bytes));
      omap_err put_withdrawal_bundle_status (put_withdrawal_bundle v db n transaction)
  end.

(** A field with a hash: [ok_or_else(missing_field)], [decode_status]. *)
Definition required_reverse_hex {T} (c : Consensus T) (message field_name : string) (field : option Pb.ReverseHex) : Res ConnectError T :=
  h ← ok_or (proto_status (missing_field message field_name)) field;
  map_err proto_status (reverse_hex_decode c message field_name h).
Definition required_consensus_hex {T} (c : Consensus T) (message field_name : string) (field : option Pb.ConsensusHex) : Res ConnectError T :=
  h ← ok_or (proto_status (missing_field message field_name)) field;
  map_err proto_status (consensus_hex_decode c message field_name h).
Definition required_hex (from_hex : bytes -> option bytes) (message field_name : string) (field : option Pb.Hex) : Res ConnectError bytes :=
  h ← ok_or (proto_status (missing_field message field_name)) field;
  map_err proto_status (hex_decode_ from_hex message field_name h).

(** ** [ValidatorService] *)

Definition proposal_age (mainchain_tip_height proposal_height : Z) : Z := saturating_sub mainchain_tip_height proposal_height.

Definition GetBlockHeaderInfoRequest : string := "cusf.mainchain.v1.GetBlockHeaderInfoRequest".
Definition get_block_header_info v (block_hash : option Pb.ReverseHex) (max_ancestors : option Z) : Res ConnectError (list Pb.BlockHeaderInfo) :=
  block_hash ← required_reverse_hex hash_codec GetBlockHeaderInfoRequest "block_hash" block_hash;
  o ← map_err internal_err (try_get_header_infos (block_hashes (v_dbs v)) block_hash (Z.to_nat (default 0 max_ancestors)));
  Ok (header_info_to_proto <$> default [] o).

Definition GetBlockInfoRequest : string := "cusf.mainchain.v1.GetBlockInfoRequest".
Definition server_get_block_info v (block_hash : option Pb.ReverseHex) (sidechain_id max_ancestors : option Z)
    : Res ConnectError (list (Pb.BlockHeaderInfo * Pb.BlockInfo)) :=
  block_hash ← required_reverse_hex hash_codec GetBlockInfoRequest "block_hash" block_hash;
  n ← parse_sidechain_id GetBlockInfoRequest sidechain_id "sidechain_id";
  o ← map_err internal_err (try_get_block_infos v block_hash (Z.to_nat (default 0 max_ancestors)));
  Ok ((fun e => (header_info_to_proto e.1, as_proto e.2 n)) <$> default [] o).

Inductive BmmHStar :=
| BlockNotFound (block_hash : Pb.ReverseHex)
| Commitment (commitment : option Pb.ConsensusHex) (ancestor_commitments : list (option Pb.ConsensusHex)).
Definition GetBmmHStarCommitmentRequest : string := "cusf.mainchain.v1.GetBmmHStarCommitmentRequest".
Definition get_bmm_h_star_commitment v (block_hash : option Pb.ReverseHex) (sidechain_id max_ancestors : option Z) : Res ConnectError BmmHStar :=
  block_hash ← required_reverse_hex hash_codec GetBmmHStarCommitmentRequest "block_hash" block_hash;
  n ← parse_sidechain_id GetBmmHStarCommitmentRequest sidechain_id "sidechain_id";
  let encode (c : BmmCommitments) := consensus_hex_encode hash_codec <$> om_get n c in
  Ok (match try_get_bmm_commitments v block_hash (Z.to_nat (default 0 max_ancestors)) with
      | [] => BlockNotFound (reverse_hex_encode hash_codec block_hash)
      | head :: tail => Commitment (encode head) (encode <$> tail)
      end).

Record Bip300Constants := mkBip300Constants {
  bc_withdrawal_bundle_max_age : Z; bc_withdrawal_bundle_inclusion_threshold : Z;
  bc_used_sidechain_slot_proposal_max_age : Z; bc_used_sidechain_slot_activation_threshold : Z;
  bc_unused_sidechain_slot_proposal_max_age : Z; bc_unused_sidechain_slot_activation_threshold : Z;
  bc_activation_height : Z }.
Definition get_chain_info v : Pb.Network * Bip300Constants :=
  let t := np_thresholds (v_network_params v) in
  (network_to_proto (v_network v),
   mkBip300Constants (withdrawal_bundle_max_age t) (withdrawal_bundle_inclusion_threshold t)
     (withdrawal_bundle_max_age t) (withdrawal_bundle_inclusion_threshold t)
     (unused_sidechain_slot_proposal_max_age t) (unused_sidechain_slot_activation_threshold t)
     (bip300_activation_height (v_network_params v))).

Definition get_chain_tip v : Res ConnectError Pb.BlockHeaderInfo :=
  match try_get_mainchain_tip v with
  | None => Err (mkConnectError Unavailable (D_Text "Validator is not synced"))
  | Some tip => hi ← map_err internal_err (get_header_info (block_hashes (v_dbs v)) tip); Ok (header_info_to_proto hi)
  end.

Record GetCoinbasePSBTRequest := mkGetCoinbasePSBTRequest {
  propose_sidechains : list Pb.ProposeSidechain; ack_sidechains : list Pb.AckSidechain; propose_bundles : list Pb.ProposeBundle;
  req_ack_bundles : option Pb.AckBundles }.
(** [messages.push] of every converted element *)
Definition push_messages {A M} (convert : A -> Res ProtoError M) (wrap : M -> CoinbaseMessage) (l : list A) (messages : list CoinbaseMessage)
    : Res ConnectError (list CoinbaseMessage) :=
  foldM (fun ms a => m ← map_err proto_status (convert a); Ok (ms ++ [wrap m])) l messages.
Definition requested_messages (r : GetCoinbasePSBTRequest) : Res ConnectError (list CoinbaseMessage) :=
  ms ← push_messages m1_try_from CM_M1 (propose_sidechains r) [];
  ms ← push_messages m2_try_from CM_M2 (ack_sidechains r) ms;
  ms ← push_messages m3_try_from CM_M3 (propose_bundles r) ms;
  a ← ok_or (proto_status (missing_field "cusf.mainchain.v1.GetCoinbasePSBTRequest" "ack_bundles")) (req_ack_bundles r);
  m4 ← map_err proto_status (ack_bundles_try_from a);
  Ok (ms ++ [CM_M4 m4]).
(** The transaction of the response, before it is encoded *)
Definition coinbase_psbt (r : GetCoinbasePSBTRequest) : Res ConnectError Transaction :=
  messages ← requested_messages r;
  outs ← foldM (fun outs m => script ← map_err internal_err (coinbase_message_script m); Ok (outs ++ [mkTxOut 0 script])) messages [];
  Ok (mkTransaction 2 0 [] outs).
Definition get_coinbase_psbt (r : GetCoinbasePSBTRequest) : Res ConnectError Pb.ConsensusHex :=
  tx ← coinbase_psbt r; Ok (consensus_hex_encode tx_codec tx).

Record PbCtip := mkPbCtip { pc_txid : Pb.ReverseHex; pc_vout : Z; pc_value : Amount; pc_sequence_number : Z }.
Definition server_get_ctip v (sidechain_number : option Z) : Res ConnectError (option PbCtip) :=
  n ← parse_sidechain_id "cusf.mainchain.v1.GetCtipRequest" sidechain_number "sidechain_number";
  match try_get_ctip v n with
  | None => Ok None
  | Some c =>
      q ← map_err unknown_err (get_ctip_sequence_number v n);
      q ← unwrap q;
      Ok (Some (mkPbCtip (reverse_hex_encode hash_codec (op_txid (ctip_outpoint c))) (op_vout (ctip_outpoint c)) (ctip_value c) q))
  end.

Record PbBmmRequest := mkPbBmmRequest { br_slot : Z; br_txid : Pb.ReverseHex; critical_hash : Pb.ConsensusHex; bid_sats : Amount }.
(** The requests of a slot of the map, unless another slot is wanted *)
Definition wanted_requests (wanted : option SidechainNumber) (seen : gmap SidechainNumber (gmap BmmCommitment (gset Txid)))
    : list (SidechainNumber * (BmmCommitment * Txid)) :=
  concat ((fun e : SidechainNumber * gmap BmmCommitment (gset Txid) =>
             if bool_decide (is_Some wanted /\ wanted <> Some e.1) then [] else pair e.1 <$> slot_requests e.2) <$> hash_iter seen).
Definition bid_ge (a b : PbBmmRequest) : Prop := bid_sats b <= bid_sats a.
#[global] Instance bid_ge_dec a b : Decision (bid_ge a b).
Proof. unfold bid_ge. apply _. Defined.
Definition GetSeenBmmRequestsRequest : string := "cusf.mainchain.v1.GetSeenBmmRequestsRequest".
(** [bmm_bid_fee]: as the producer asks the node *)
Definition server_get_seen_bmm_requests (bmm_bid_fee : Txid -> Res ProducerError (option Amount)) v (prev_block_hash : option Pb.ReverseHex) (sidechain_number : option Z)
    : Res ConnectError (list PbBmmRequest) :=
  prev_block_hash ← required_reverse_hex hash_codec GetSeenBmmRequestsRequest "prev_block_hash" prev_block_hash;
  wanted ← match sidechain_number with
           | None => Ok None
           | Some raw => n ← ok_or (proto_status (invalid_field_value GetSeenBmmRequestsRequest "sidechain_number" (decimal raw))) (sidechain_number_try_from raw); Ok (Some n)
           end;
  let seen := get_seen_bmm_requests_for_parent_block (block_hashes (v_dbs v)) prev_block_hash in
  requests ← foldM (fun acc e =>
      fee ← map_err internal_err (bmm_bid_fee e.2.2);
      Ok (match fee with
          | None => acc
          | Some fee => acc ++ [mkPbBmmRequest (u8_val e.1) (reverse_hex_encode hash_codec e.2.2) (consensus_hex_encode hash_codec e.2.1) fee]
          end)) (wanted_requests wanted seen) [];
  Ok (merge_sort bid_ge requests).

Record PbSidechainProposal := mkPbSidechainProposal {
  psp_sidechain_number : Z; psp_description : Pb.ConsensusHex; psp_declaration : option Pb.SidechainDeclaration;
  description_sha256d_hash : Pb.ReverseHex; psp_vote_count : Z; psp_proposal_height : Z; psp_proposal_age : Z }.
Definition sidechain_proposal_to_proto (mainchain_tip_height : Z) (e : SidechainProposalId * Sidechain) : Res ConnectError PbSidechainProposal :=
  let sc := e.2 in
  declaration ← map_err proto_status (declared (sp_description (sc_proposal sc)));
  Ok (mkPbSidechainProposal (u8_val (sp_sidechain_number (sc_proposal sc))) (consensus_hex_encode vec_codec (sp_description (sc_proposal sc))) declaration
        (reverse_hex_encode hash_codec (spi_description_hash e.1)) (vote_count (sc_status sc)) (proposal_height (sc_status sc))
        (proposal_age mainchain_tip_height (proposal_height (sc_status sc)))).
(** [into_iter().map(..).collect()] with a closure that may panic *)
Definition map_collect {E A B} (f : A -> Res E B) (l : list A) : Res E (list B) := foldM (fun acc a => b ← f a; Ok (acc ++ [b])) l [].
Definition get_sidechain_proposals v : Res ConnectError (list PbSidechainProposal) :=
  match try_get_mainchain_tip v with
  | None => Ok []
  | Some tip =>
      hi ← map_err unknown_err (get_header_info (block_hashes (v_dbs v)) tip);
      map_collect (sidechain_proposal_to_proto (hi_height hi)) (get_sidechains v)
  end.
Definition server_get_sidechains v : Res ConnectError (list Pb.SidechainInfo) :=
  sidechains ← map_err unknown_err (get_active_sidechains v);
  map_err proto_status (map_collect sidechain_to_proto sidechains).

Definition GetTwoWayPegDataRequest : string := "cusf.mainchain.v1.GetTwoWayPegDataRequest".
(** The range query's fuel is that of the end block's height. *)
Definition server_get_two_way_peg_data v (sidechain_id : option Z) (start_block_hash end_block_hash : option Pb.ReverseHex)
    : option (Res ConnectError (list Pb.ResponseItem)) :=
  n ⇐ Some (parse_sidechain_id GetTwoWayPegDataRequest sidechain_id "sidechain_id");
  start ⇐ Some (match start_block_hash with
                 | None => Ok None
                 | Some h => h ← map_err proto_status (reverse_hex_decode hash_codec GetTwoWayPegDataRequest "start_block_hash" h); Ok (Some h)
                 end);
  end_block ⇐ Some (required_reverse_hex hash_codec GetTwoWayPegDataRequest "end_block_hash" end_block_hash);
  data ⇐ omap_err internal_err (get_two_way_peg_data_range (block_hashes (v_dbs v)) (header_fuel (v_dbs v) end_block) start end_block);
  Some (Ok (omap (fun d => peg_data_into_proto d n) data)).

Definition get_withdrawal_bundle_proposals v (sidechain_id : option Z) : Res ConnectError (list (Pb.ConsensusHex * Z * Z)) :=
  n ← parse_sidechain_id GetTwoWayPegDataRequest sidechain_id "sidechain_id";
  pending ← map_err internal_err (get_pending_withdrawals v n);
  Ok (map (fun e => (consensus_hex_encode hash_codec e.1, pm_vote_count e.2, pm_proposal_height e.2)) pending).

(** The items of a stream of events; [None] is the stream's overflow. *)
Definition subscribe_events (sidechain_id : option Z) (events : list (option Event)) : Res ConnectError (list (Res ConnectError Pb.Event)) :=
  n ← parse_sidechain_id "cusf.mainchain.v1.SubscribeEventsRequest" sidechain_id "sidechain_id";
  Ok ((fun e => match e with Some e => Ok (event_into_proto e n) | None => Err (unknown_err tt) end) <$> events).

(** [header_sync_progress_rx], the values of the watched height *)
Definition subscribe_header_sync_progress (progress : option (list (option Z))) : Res ConnectError (list (option Z)) :=
  ok_or (mkConnectError Unavailable (D_Text "No header sync in progress")) progress.

Definition stop (cancelled : bool) : Res ConnectError bool :=
  if cancelled then Err (mkConnectError Unavailable (D_Text "Validator is already shutting down")) else Ok true.

End Server.
