(* ===== verification/ProducerServer.v ===== *)
(** * The block producer's, the mining and the crypto services

    [lib/server/block_producer.rs], [lib/server/mining.rs] and
    [lib/server/crypto.rs]. The block producer's handlers change the policy store;
    the state of a stream of confirmations is explicit. *)

From Stdlib Require Import Strings.Byte Strings.String.
From stdpp Require Import base numbers list gmap strings.
From S2P Require Import Prelude OrderMap Bitcoin Types Messages M6 Dbs BlockHashes Treasury Diff Reversible Handlers ConnectBlock Enforcer Sync Facade Policy Producer Mining Mine Proto Server.
Open Scope Z_scope.

(** ** Confirmations of a proposal *)

Inductive ProposalResponse :=
| PR_Confirmed (block_hash : Pb.ReverseHex) (confirmations : Z) (height : Z) (outpoint : Pb.OutPoint) (prev_block_hash : Pb.ReverseHex)
| PR_NotConfirmed (block_hash : Pb.ReverseHex) (height : Z) (prev_block_hash : Pb.ReverseHex).

(** The confirmations and the outpoint of the proposal by block *)
Abbreviation Confirmations := (gmap BlockHash (Z * OutPoint)).

Section ProducerServer.
Context `{Bitcoin, Nom, TxCodec, ProtoLib}.
Implicit Types (v : Validator) (db : PolicyDb).

Definition proposal_vout (p : SidechainProposal) (i : BlockInfo) : option Z :=
  fst <$> List.find (fun e => bool_decide (e.2 = p)) (sidechain_proposals i).

Definition connect_block_event (p : SidechainProposal) (confirmations : Confirmations) (hi : HeaderInfo) (bi : BlockInfo) : Confirmations * ProposalResponse :=
  let found := match proposal_vout p bi with
               | Some vout => Some (1, mkOutPoint (bi_coinbase_txid bi) vout)
               | None => confirmations !! hi_prev_block_hash hi
               end in
  match found with
  | None => (confirmations, PR_NotConfirmed (reverse_hex_encode hash_codec (hi_block_hash hi)) (hi_height hi) (reverse_hex_encode hash_codec (hi_prev_block_hash hi)))
  | Some (confirms, outpoint) =>
      (<[hi_block_hash hi := (confirms, outpoint)]> confirmations,
       PR_Confirmed (reverse_hex_encode hash_codec (hi_block_hash hi)) confirms (hi_height hi) (out_point_to_proto outpoint) (reverse_hex_encode hash_codec (hi_prev_block_hash hi)))
  end.

(** The closure of [filter_map]; [None] is the overflow of the stream of events. *)
Definition proposal_event (p : SidechainProposal) (confirmations : Confirmations) (e : option Event) : Confirmations * option (Res ConnectError ProposalResponse) :=
  match e with
  | Some (ConnectBlock hi bi) => let '(c, r) := connect_block_event p confirmations hi bi in (c, Some (Ok r))
  | Some (DisconnectBlock _) => (confirmations, None)
  | None => (confirmations, Some (Err (unknown_err tt)))
  end.

Fixpoint proposal_events (p : SidechainProposal) (confirmations : Confirmations) (events : list (option Event)) : list (Res ConnectError ProposalResponse) :=
  match events with
  | [] => []
  | e :: events => let '(c, r) := proposal_event p confirmations e in option_list r ++ proposal_events p c events
  end.
Definition stream_proposal_confirmations (p : SidechainProposal) (events : list (option Event)) := proposal_events p ∅ events.

(** ** [BlockProducerService] *)

Definition saturating_incr_u32 (n : Z) : Z := Z.min u32_max (n + 1).
Definition ensure_bip300_activation_height_reached v (impossible : string) : Res ConnectError unit :=
  let activation_height := bip300_activation_height (v_network_params v) in
  o ← map_err internal_err (try_get_block_height v);
  let next_block_height := match o with Some tip_height => saturating_incr_u32 tip_height | None => 0 end in
  if bool_decide (next_block_height < activation_height) then Err (mkConnectError FailedPrecondition (D_BeforeActivation activation_height impossible))
  else Ok tt.

Definition propose_sidechain_status (e : PolicyError) : ConnectError :=
  match e with
  | PE_Unique => mkConnectError AlreadyExists (D_Text "Sidechain proposal already exists")
  | _ => mkConnectError Internal D_Display
  end.

Definition create_and_persist_sidechain_proposal (request : string) v db (sidechain_id : option Z) (declaration : option Pb.SidechainDeclaration)
    : option (Res ConnectError (PolicyDb * SidechainProposal)) :=
  _ ⇐ Some (ensure_bip300_activation_height_reached v "a sidechain proposal cannot confirm");
  n ⇐ Some (parse_sidechain_id request sidechain_id "sidechain_id");
  d ⇐ Some (ok_or (proto_status (missing_field request "declaration")) declaration);
  d ⇐ Some (map_err proto_status (declaration_from_proto d));
  created ⇐ Some (map_err unknown_err (create_sidechain_proposal n d));
  let p := mkSidechainProposal n created.2 in
  r ⇐ omap_err propose_sidechain_status (policy_propose_sidechain v db p);
  Some (Ok (r.1, p)).

(** [events]: what the validator sends from then on *)
Definition server_create_sidechain_proposal v db (sidechain_id : option Z) (declaration : option Pb.SidechainDeclaration) (events : list (option Event))
    : option (Res ConnectError (PolicyDb * list (Res ConnectError ProposalResponse))) :=
  r ⇐ create_and_persist_sidechain_proposal "cusf.mainchain.v1.CreateSidechainProposalRequest" v db sidechain_id declaration;
  Some (Ok (r.1, stream_proposal_confirmations r.2 events)).
Definition submit_sidechain_proposal v db (sidechain_id : option Z) (declaration : option Pb.SidechainDeclaration) : option (Res ConnectError (PolicyDb * unit)) :=
  r ⇐ create_and_persist_sidechain_proposal "cusf.mainchain.v1.SubmitSidechainProposalRequest" v db sidechain_id declaration;
  Some (Ok (r.1, tt)).

Definition SetSidechainAckRequest : string := "cusf.mainchain.v1.SetSidechainAckRequest".
Definition set_sidechain_ack v db (sidechain_number : option Z) (description_sha256d_hash : option Pb.ReverseHex) (ack : bool) : Res ConnectError PolicyDb :=
  _ ← ensure_bip300_activation_height_reached v "a sidechain ACK cannot take effect";
  n ← parse_sidechain_id SetSidechainAckRequest sidechain_number "sidechain_number";
  description_hash ← required_reverse_hex hash_codec SetSidechainAckRequest "description_sha256d_hash" description_sha256d_hash;
  if ack then map_err internal_err (policy_ack_sidechain db n description_hash) else Ok (nack_sidechain db n description_hash).

Definition set_ack_all_proposals db (policy : Pb.EnumValue Pb.AckAllProposalsPolicy) : Res ConnectError PolicyDb :=
  p ← ok_or (proto_status (invalid_field_value "cusf.mainchain.v1.SetAckAllProposalsRequest" "policy" (enum_to_string policy))) (ack_policy_from_proto policy);
  Ok (set_ack_policy db p).
Definition set_withdrawal_bundle_policy db (policy : Pb.EnumValue Pb.WithdrawalBundlePolicy) : Res ConnectError PolicyDb :=
  p ← ok_or (proto_status (invalid_field_value "cusf.mainchain.v1.SetWithdrawalBundlePolicyRequest" "policy" (enum_to_string policy))) (bundle_policy_from_proto policy);
  Ok (set_bundle_policy db p).

(** A request with a slot and a transaction; [ProposeWithdrawalBundle] and its
    alias [BroadcastWithdrawalBundle] differ in the name only. *)
Definition propose_bundle_request (message : string) v db (sidechain_id : option Z) (transaction : option bytes) : option (Res ConnectError (PolicyDb * M6id)) :=
  n ⇐ Some (parse_sidechain_id message sidechain_id "sidechain_id");
  transaction_bytes ⇐ Some (ok_or (proto_status (missing_field message "transaction")) transaction);
  store_withdrawal_bundle message v db n transaction_bytes.
Definition propose_withdrawal_bundle := propose_bundle_request "cusf.mainchain.v1.ProposeWithdrawalBundleRequest".
Definition broadcast_withdrawal_bundle := propose_bundle_request "cusf.mainchain.v1.BroadcastWithdrawalBundleRequest".

Definition SetWithdrawalBundleAckRequest : string := "cusf.mainchain.v1.SetWithdrawalBundleAckRequest".
Definition set_withdrawal_bundle_ack v db (sidechain_number : option Z) (m6id : option Pb.ConsensusHex) (ack : bool) : Res ConnectError PolicyDb :=
  _ ← ensure_bip300_activation_height_reached v "a withdrawal bundle ACK cannot take effect";
  n ← parse_sidechain_id SetWithdrawalBundleAckRequest sidechain_number "sidechain_number";
  m6id ← required_consensus_hex hash_codec SetWithdrawalBundleAckRequest "m6id" m6id;
  Ok (if ack then ack_bundle db n m6id else delete_bundle_ack db n m6id).

Record PendingProposal := mkPendingProposal {
  pp_sidechain_number : Z; pp_description_sha256d_hash : Pb.ReverseHex; pp_declaration : option Pb.SidechainDeclaration; pp_description : Pb.Hex }.
Record ProducerState := mkProducerState {
  pending_proposals : list PendingProposal;
  state_ack_policy : Pb.AckAllProposalsPolicy;
  explicit_acks : list (Z * Pb.ReverseHex);
  state_withdrawal_bundle_policy : Pb.WithdrawalBundlePolicy;
  explicit_bundle_acks : list (Z * Pb.ConsensusHex) }.
Definition pending_proposal (p : SidechainProposal) : Res ConnectError PendingProposal :=
  declaration ← map_err proto_status (declared (sp_description p));
  Ok (mkPendingProposal (u8_val (sp_sidechain_number p)) (reverse_hex_encode hash_codec (sha256d (sp_description p))) declaration (hex_encode_ (sp_description p))).
(** Listing the proposals reconciles the policy store. *)
Definition get_block_producer_state v db : option (Res ConnectError (PolicyDb * ProducerState)) :=
  r ⇐ omap_err internal_err (get_our_sidechain_proposals v db);
  pending ⇐ Some (map_collect pending_proposal r.2);
  Some (Ok (r.1, mkProducerState pending (ack_policy_to_proto (ack_policy db))
    ((fun a => (u8_val a.1, reverse_hex_encode hash_codec a.2)) <$> sidechain_acks db)
    (bundle_policy_to_proto (bundle_policy db))
    ((fun a => (u8_val a.1, consensus_hex_encode hash_codec a.2)) <$> bundle_acks db))).

End ProducerServer.

(** ** [MiningService] *)

Section MiningServer.
Context {W : Type} `{MiningWorld W, Bitcoin, Nom, TxCodec, MiningLib, ProtoLib}.
Context (push_int : Z -> bytes) (address_from_script : bytes -> option bytes).
(** [str::parse] of an address without its network, [require_network], and the script *)
Context {Address : Type} (parse_address : bytes -> option Address) (require_network : Network -> Address -> bool) (script_of : Address -> bytes).
(** The codes of an error of the node's RPC and of a template that cannot be fetched, which
    depend on the text and the kind of the RPC error. *)
Context (rpc_code gbt_code : ErrorCode).

Definition generate_block_code (e : MineError) : ErrorCode :=
  match e with
  | ME_GetBlockTemplate _ => gbt_code
  | BitcoinCoreRPC => rpc_code
  | NoBlockTemplateServer | TemplateTipMismatch _ _ | Unsolved => FailedPrecondition
  | SBT_NoCoinbaseTxn | DecodeTemplateCoinbase | DecodeTemplateTransaction _ | NegativeTemplateTransactionFee _ _ => Internal
  | AwaitTimeout _ => DeadlineExceeded
  | _ => Unknown
  end.
Definition verify_can_mine_code (e : VerifyCanMine) : ErrorCode :=
  match e with
  | VCM_BitcoinCoreRPC => rpc_code
  | VCM_Network _ | SignetChallengeAddressMissing _ => FailedPrecondition
  | NoSignetChallengeFound | ParseSignetChallenge => Unknown
  end.

Fixpoint generate_blocks (cfg : MinerConfig) (coinbase_spk : bytes) (count : nat) (block_hashes : list Pb.ReverseHex) (w : W) : W * Res ConnectError (list Pb.ReverseHex) :=
  match count with
  | O => (w, Ok block_hashes)
  | S count =>
      match generate_block push_int cfg coinbase_spk w with
      | (w, Ok hash) => generate_blocks cfg coinbase_spk count (block_hashes ++ [reverse_hex_encode hash_codec hash]) w
      | (w, Err e) => (w, Err (mkConnectError (generate_block_code e) D_Display))
      | (w, Panic) => (w, Panic)
      end
  end.

Definition GenerateToAddressRequest : string := "cusf.mainchain.v1.GenerateToAddressRequest".
(** The number of blocks and the script of the request *)
Definition generate_request (network : Network) (blocks : option Z) (address : bytes) : Res ConnectError (Z * bytes) :=
  let count := default 1 blocks in
  if bool_decide (count = 0) then Err (mkConnectError InvalidArgument (D_Text "must provide a positive number of blocks")) else
  if bool_decide (address = []) then Err (proto_status (missing_field GenerateToAddressRequest "address")) else
  a ← ok_or (proto_status (invalid_field_value GenerateToAddressRequest "address" address)) (parse_address address);
  if require_network network a then Ok (count, script_of a) else Err (proto_status (invalid_field_value GenerateToAddressRequest "address" address)).

(** [available]: no other call is generating blocks *)
Definition generate_to_address (cfg : MinerConfig) (available : bool) (blocks : option Z) (address : bytes) (w : W) : W * Res ConnectError (list Pb.ReverseHex) :=
  match generate_request (v_network (bp_validator (producer_of w))) blocks address with
  | Err e => (w, Err e)
  | Panic => (w, Panic)
  | Ok (count, spk) =>
      if negb available then (w, Err (mkConnectError ResourceExhausted (D_Text "block generation is already in progress"))) else
      match verify_can_mine address_from_script cfg w with
      | (w, Err e) => (w, Err (mkConnectError (verify_can_mine_code e) D_Display))
      | (w, Panic) => (w, Panic)
      | (w, Ok _) => generate_blocks cfg spk (Z.to_nat count) [] w
      end
  end.

End MiningServer.

(** ** [CryptoService] *)

Definition SECP256K1_SECRET_KEY_LENGTH : nat := 32.
Definition SECP256K1_PUBLIC_KEY_LENGTH : nat := 33.
Definition SECP256K1_SIGNATURE_COMPACT_SERIALIZATION_LENGTH : nat := 64.

(** Hashes and secp256k1: keys and signatures from and to bytes *)
Class CryptoLib := {
  ripemd160_hash : bytes -> bytes;
  hmac_sha512_hash : bytes -> bytes -> bytes;
  sha256_hash : bytes -> bytes;
  SecretKey : Type; PublicKey : Type; Signature : Type;
  secret_key_from_slice : bytes -> option SecretKey;
  from_secret_key : SecretKey -> PublicKey;
  pk_serialize : PublicKey -> bytes;
  public_key_from_slice : bytes -> option PublicKey;
  sign_ecdsa : bytes -> SecretKey -> Signature;
  serialize_compact : Signature -> bytes;
  from_compact : bytes -> option Signature;
  verify_ecdsa : bytes -> Signature -> PublicKey -> bool }.

(** Keys and signatures have fixed sizes and are read back; a signature verifies. *)
Class CryptoLaws `{CryptoLib} := {
  pk_length pk : length (pk_serialize pk) = SECP256K1_PUBLIC_KEY_LENGTH;
  pk_roundtrip pk : public_key_from_slice (pk_serialize pk) = Some pk;
  compact_length s : length (serialize_compact s) = SECP256K1_SIGNATURE_COMPACT_SERIALIZATION_LENGTH;
  compact_roundtrip s : from_compact (serialize_compact s) = Some s;
  sign_verify d sk : verify_ecdsa d (sign_ecdsa d sk) (from_secret_key sk) = true }.

Section Crypto.
Context `{ProtoLib, CryptoLib}.

Definition ripemd160 (msg : option Pb.Hex) : Res ConnectError Pb.Hex :=
  msg ← required_hex of_hex "cusf.crypto.v1.Ripemd160Request" "msg" msg;
  Ok (hex_encode_ (ripemd160_hash msg)).

Definition HmacSha512Request : string := "cusf.crypto.v1.HmacSha512Request".
Definition hmac_sha512 (key msg : option Pb.Hex) : Res ConnectError Pb.Hex :=
  key ← required_hex of_hex HmacSha512Request "key" key;
  msg ← required_hex of_hex HmacSha512Request "msg" msg;
  Ok (hex_encode_ (hmac_sha512_hash key msg)).

(** The value of an invalid key is not put into the error. *)
Definition parse_key {K} (from_slice : bytes -> option K) (length_ : nat) (message field_name : string) (field : option Pb.ConsensusHex) : Res ConnectError K :=
  b ← required_consensus_hex (array_codec length_) message field_name field;
  ok_or (proto_status (invalid_field_value message field_name [])) (from_slice b).

Definition secp256k1_secret_key_to_public_key (secret_key : option Pb.ConsensusHex) : Res ConnectError Pb.ConsensusHex :=
  sk ← parse_key secret_key_from_slice SECP256K1_SECRET_KEY_LENGTH "cusf.crypto.v1.Secp256k1SecretKeyToPublicKeyRequest" "secret_key" secret_key;
  Ok (consensus_hex_encode (array_codec SECP256K1_PUBLIC_KEY_LENGTH) (pk_serialize (from_secret_key sk))).

Definition Secp256k1SignRequest : string := "cusf.crypto.v1.Secp256k1SignRequest".
Definition secp256k1_sign (message : option Pb.Hex) (secret_key : option Pb.ConsensusHex) : Res ConnectError Pb.Hex :=
  message ← required_hex of_hex Secp256k1SignRequest "message" message;
  sk ← parse_key secret_key_from_slice SECP256K1_SECRET_KEY_LENGTH Secp256k1SignRequest "secret_key" secret_key;
  Ok (hex_encode_ (serialize_compact (sign_ecdsa (sha256_hash message) sk))).

Definition Secp256k1VerifyRequest : string := "cusf.crypto.v1.Secp256k1VerifyRequest".
Definition secp256k1_verify (message signature : option Pb.Hex) (public_key : option Pb.ConsensusHex) : Res ConnectError bool :=
  message ← required_hex of_hex Secp256k1VerifyRequest "message" message;
  signature ← required_hex of_hex Secp256k1VerifyRequest "signature" signature;
  if negb (bool_decide (length signature = SECP256K1_SIGNATURE_COMPACT_SERIALIZATION_LENGTH))
  then Err (proto_status (invalid_field_value Secp256k1VerifyRequest "signature" (decimal (Z.of_nat (length signature))))) else
  signature ← ok_or (proto_status (invalid_field_value Secp256k1VerifyRequest "signature" [])) (from_compact signature);
  pk ← parse_key public_key_from_slice SECP256K1_PUBLIC_KEY_LENGTH Secp256k1VerifyRequest "public_key" public_key;
  Ok (verify_ecdsa (sha256_hash message) signature pk).

End Crypto.
