(* ===== verification/Cli.v ===== *)
(** * The command line

    [lib/cli.rs]: the options that decide how the enforcer runs, what clap accepts, and the
    dump of the effective configuration at start-up. Options that only reach external code
    are left out. *)

From Stdlib Require Import Strings.String Strings.Byte.
From stdpp Require Import base numbers list gmap strings sorting.
From S2P Require Import Prelude Bitcoin Types.
Open Scope Z_scope.

(** ** Options *)

Inductive LogFormat := Compact | Full | Json | Pretty.
Definition default_log_suffix (f : LogFormat) : string := match f with Json => "json" | _ => "log" end.
Inductive LogRotation := Daily | Hourly | Minutely | Never.
Inductive WalletSyncSource := Electrum | Esplora | SyncDisabled.
#[global] Instance WalletSyncSource_eq_dec : EqDecision WalletSyncSource.
Proof. solve_decision. Defined.

(** A path is its components. *)
Abbreviation Path := (list string).

Record LoggerConfig := mkLoggerConfig {
  log_format : LogFormat; log_directory : option Path; log_rotation : LogRotation; max_log_file_size_mb : Z }.
Record WalletConfig := mkWalletConfig {
  auto_create : bool; skip_periodic_sync : bool; sync_source : WalletSyncSource; mnemonic_path : option Path }.
Record Config := mkConfig {
  data_dir : Path;
  enable_wallet : bool;
  enable_mempool : bool;
  enable_block_template_server : bool;
  coinbase_recipient : option bytes;
  logger_opts : LoggerConfig;
  gbt_cache_lifetime_s : option Z;
  node_mempool_dat : option Path;
  cli_fork : option Fork;
  cli_network_magic : option bytes;
  cli_bip300_activation_height : option Z;
  node_zmq_addr_sequence : option string;
  wallet_opts : WalletConfig;
  exit_after_sync : option Z;
  verify_consensus_state : option Path;
  freeze_at_height : option Z;
  bitcoin_core_expected_version : option Z;
  bitcoin_core_skip_version_check : bool }.

Definition given {A} (o : option A) : bool := bool_decide (is_Some o).

(** [requires] and [conflicts_with] of the options *)
Definition clap_accepts (c : Config) : bool :=
  implb (enable_block_template_server c) (enable_mempool c) &&
  negb (auto_create (wallet_opts c) && given (mnemonic_path (wallet_opts c))) &&
  negb (given (verify_consensus_state c) && given (exit_after_sync c)) &&
  negb (given (freeze_at_height c) && (given (exit_after_sync c) || given (verify_consensus_state c))) &&
  negb (bitcoin_core_skip_version_check c && given (bitcoin_core_expected_version c)).

(** In seconds *)
Definition gbt_cache_lifetime (c : Config) : option Z := gbt_cache_lifetime_s c.

Definition log_filename_suffix (c : Config) : option string :=
  match log_rotation (logger_opts c) with Never => None | _ => Some (default_log_suffix (log_format (logger_opts c))) end.
Definition DEFAULT_LOG_DIRNAME : string := "logs".
Definition log_dir (c : Config) (chain_data_dir : option Path) : Path :=
  match log_directory (logger_opts c) with
  | Some d => d
  | None => default (data_dir c) chain_data_dir ++ [DEFAULT_LOG_DIRNAME]
  end.
(** The size limit of [rolling_log_appender], in bytes *)
Definition max_log_bytes (c : Config) : Res unit Z :=
  let n := max_log_file_size_mb (logger_opts c) * 1024 * 1024 in if bool_decide (n <= u64_max) then Ok n else Panic.

Definition APP_NAME : string := "bip300301_enforcer".
Inductive DataDirError := VarNotSet (name : string) | UnsupportedOs (os : string).
Definition get_data_dir (os : string) (env : gmap string string) : Res DataDirError Path :=
  let var name := ok_or (VarNotSet name) (env !! name) in
  if decide (os = "linux"%string) then
    match env !! "XDG_DATA_HOME"%string with
    | Some xdg_data_home => Ok [xdg_data_home; APP_NAME]
    | None => home ← var "HOME"%string; Ok [home; ".local"; "share"; APP_NAME]
    end
  else if decide (os = "macos"%string) then home ← var "HOME"%string; Ok [home; "Library"; "Application Support"; APP_NAME]
  else if decide (os = "windows"%string) then app_data ← var "APPDATA"%string; Ok [app_data; APP_NAME]
  else Err (UnsupportedOs os).
(** The default of [--data-dir] *)
Definition default_data_dir (os : string) (env : gmap string string) : Path :=
  match get_data_dir os env with Ok d => d | _ => ["."; "datadir"] end.

(** [hex] *)
Class HexLib := { hex_decode : string -> option bytes; hex_encode : bytes -> string }.
Class HexLaws `{HexLib} := hex_decode_encode b : hex_decode (hex_encode b) = Some b.

Inductive MagicError := InvalidHex | WrongLength (got : nat).
Definition parse_network_magic `{HexLib} (s : string) : Res MagicError bytes :=
  b ← ok_or InvalidHex (hex_decode s);
  if decide (length b = 4%nat) then Ok b else Err (WrongLength (String.length s / 2)).

(** [NetworkParams::data_dir] of [lib/types.rs]; [default_signet]: the challenge is the one of
    the public signet *)
Definition chain_data_dir `{HexLib} (default_signet : bytes -> bool) (p : NetworkParams) (network : Network) (signet_challenge : option bytes) : Path :=
  let chain :=
    match network with
    | Mainnet => "mainnet" | Testnet => "testnet3" | Testnet4 => "testnet4" | Regtest => "regtest"
    | Signet =>
        match signet_challenge, network_magic p with
        | Some challenge, Some magic => if default_signet challenge then "signet" else ("signet_" +:+ hex_encode magic)
        | _, _ => "signet"
        end
    end%string in
  [fork_name (np_fork p); chain].

(** ** The configuration dump *)

(** [url]: an address with its credentials, and the rest *)
Class UrlLib := {
  UrlRest : Type;
  url_parse : string -> option (string * option string * UrlRest);
  url_to_string : string * option string * UrlRest -> string;
  (** credentials can be set *)
  has_host : UrlRest -> bool }.
(** [{:?}] of a string *)
Class DebugStr := debug_str : string -> string.

Inductive ValueSource := CommandLine | EnvVariable | DefaultValue.
Record Arg := mkArg { arg_id : string; arg_long : option string; is_secret_arg : bool }.
Record ArgMatches := mkMatches { value_source : string -> option ValueSource; try_get_raw : string -> option (list string) }.

Definition REDACTED : string := "[redacted]".
Definition UNSET : string := "<unset>".
Definition REDACTED_URL_COMPONENT : string := "redacted".

Section Dump.
Context `{UrlLib, DebugStr}.

Definition redact_embedded_credentials (value : string) : option string :=
  '(user, pass, rest) ← url_parse value;
  if given pass then (if has_host rest then Some (url_to_string (user, Some REDACTED_URL_COMPONENT, rest)) else None)
  else if decide (user <> ""%string) then (if has_host rest then Some (url_to_string (REDACTED_URL_COMPONENT, pass, rest)) else None)
  else None.

Definition source_name (s : option ValueSource) : string :=
  match s with Some CommandLine => "command line" | Some EnvVariable => "env" | Some DefaultValue => "default" | None => "unset" end.

Fixpoint join (sep : string) (l : list string) : string :=
  match l with [] => "" | [x] => x | x :: l => x +:+ sep +:+ join sep l end%string.

Definition rendered (values : list string) (secret : bool) : string :=
  match values with
  | [] => UNSET
  | _ =>
      if secret then REDACTED else
      match (fun v => debug_str (default v (redact_embedded_credentials v))) <$> values with
      | [single] => single
      | many => ("[" +:+ join ", " many +:+ "]")%string
      end
  end.

Definition arg_name (a : Arg) : string := match arg_long a with Some long => "--" +:+ long | None => arg_id a end%string.
Definition name_le (a b : Arg) : Prop := Is_true (String.leb (arg_name a) (arg_name b)).
#[global] Instance name_le_dec a b : Decision (name_le a b).
Proof. unfold name_le. apply _. Defined.

Definition config_line (m : ArgMatches) (a : Arg) : string :=
  (arg_name a +:+ "=" +:+ rendered (default [] (try_get_raw m (arg_id a))) (is_secret_arg a) +:+ " (" +:+ source_name (value_source m (arg_id a)) +:+ ")")%string.

(** The flags are distinct, so sorting by flag fixes the order. *)
Definition effective_config_lines (command : list Arg) (m : ArgMatches) : list string :=
  config_line m <$> merge_sort name_le (filter (fun a => arg_id a ∉ ["help"; "version"]%string) command).
End Dump.
