(* ===== verification/WalletServer.v ===== *)
(** * The wallet's service

    [lib/server/wallet/grpc.rs] with the codes of [lib/wallet/error.rs] and the
    conversions of wallet data in [lib/proto.rs]. The requests are checked here and
    handed to the operations of [Wallet] and [SeedStore]. What BDK answers (balances,
    unspent outputs, addresses) is an argument. *)

From Stdlib Require Import Strings.Byte Strings.String.
From stdpp Require Import base numbers list gmap strings.
From S2P Require Import Prelude OrderMap Bitcoin Types Messages M6 Dbs BlockHashes Treasury Diff Reversible Handlers ConnectBlock Enforcer Sync Facade SeedStore P2p Wallet Policy Producer Proto Server Cli.
Open Scope Z_scope.

(** ** Codes *)

Section Codes.
(** The code of an error of the node's RPC, which depends on its text *)
Context (rpc_code : ErrorCode).

Definition broadcast_error_code (e : SendRawTransaction) : ErrorCode := match e with CallError _ _ => FailedPrecondition | _ => Unavailable end.
Definition create_deposit_code (e : CreateDeposit) : ErrorCode :=
  match e with
  | CD_BroadcastTx e => broadcast_error_code e
  | CD_BroadcastNonstandardTx _ => Unavailable
  | CD_BroadcastUnsuccessful _ => FailedPrecondition
  | CD_Psbt CDP_FetchTransaction => rpc_code
  | _ => Unknown
  end.
Definition send_wallet_transaction_code (e : SendWalletTransaction) : ErrorCode :=
  match e with
  | SWT_Psbt (UnknownUTXO _) => InvalidArgument
  | SWT_BroadcastTx e => broadcast_error_code e
  | OpDrivechainNotSupported => FailedPrecondition
  | _ => Unknown
  end.
(** Every case of [CreateBmmRequest] is [Unknown]: its own, and those it inherits. *)
Definition create_bmm_request_code (e : CreateBmmRequest) : ErrorCode := Unknown.

Definition wallet_initialization_code (e : WalletInitialization) : ErrorCode :=
  match e with
  | InvalidPassword => InvalidArgument
  | WI_NotFound => NotFound
  | WI_AlreadyExists | AlreadyUnlocked => AlreadyExists
  end.
Definition create_new_wallet_code (e : CreateNewWallet) : ErrorCode :=
  match e with
  | CNW_WalletInitialization e => wallet_initialization_code e
  | FetchBirthdayHeight => rpc_code
  | _ => Unknown
  end.
Definition unlock_existing_wallet_code (e : UnlockExistingWallet) : ErrorCode :=
  match e with UEW_WalletInitialization e => wallet_initialization_code e | _ => Unknown end.
End Codes.

(** ** The sync source *)

Record SyncSourceInfo := mkSyncSourceInfo {
  ss_kind : WalletSyncSource; ss_endpoint : option string; ss_connected : bool; ss_last_error : option string;
  (** seconds since the epoch, negative before it *)
  ss_last_synced_at : option Z }.
Inductive SyncKind := KIND_ELECTRUM | KIND_ESPLORA | KIND_DISABLED.
Inductive SyncSourceState := STATE_DISABLED | STATE_UNAVAILABLE | STATE_AVAILABLE | STATE_FAILING.
Record SyncSourceMessage := mkSyncSourceMessage {
  sm_kind : SyncKind; sm_endpoint : option string; sm_state : SyncSourceState; sm_last_error : option string; sm_last_synced_at : option Z }.

Definition sync_source_kind (k : WalletSyncSource) : SyncKind :=
  match k with Electrum => KIND_ELECTRUM | Esplora => KIND_ESPLORA | SyncDisabled => KIND_DISABLED end.
Definition sync_source_state (i : SyncSourceInfo) : SyncSourceState :=
  if decide (ss_kind i = SyncDisabled) then STATE_DISABLED else
  match ss_connected i, bool_decide (is_Some (ss_last_error i)) with
  | false, _ => STATE_UNAVAILABLE
  | true, true => STATE_FAILING
  | true, false => STATE_AVAILABLE
  end.
Definition sync_source_message (i : SyncSourceInfo) : SyncSourceMessage :=
  mkSyncSourceMessage (sync_source_kind (ss_kind i)) (ss_endpoint i) (sync_source_state i) (ss_last_error i)
    (t ← ss_last_synced_at i; if bool_decide (0 <= t) then Some t else None).

(** ** Wallet data as messages *)

Record PbConfirmation := mkPbConfirmation { pf_height : Z; pf_block_hash : option Pb.ReverseHex; pf_timestamp : option Z }.
Record PbWalletTransaction := mkPbWalletTransaction {
  pw_txid : Pb.ReverseHex; pw_raw_transaction : Pb.ConsensusHex; fee_sats : Z; received_sats : Z; sent_sats : Z; confirmation_info : PbConfirmation }.
Record LocalOutput := mkLocalOutput { lo_outpoint : OutPoint; lo_txout : TxOut; lo_internal : bool; lo_chain_position : ChainPosition }.
Record PbOutput := mkPbOutput {
  po_txid : Pb.ReverseHex; po_vout : Z; po_value_sats : Z; is_internal : bool; po_is_confirmed : bool; confirmed_at_block : Z;
  confirmed_at_time : option Z; confirmed_transitively : option Pb.ReverseHex; unconfirmed_last_seen : option Z; po_address : option bytes }.
(** [bdk_wallet::Balance] *)
Record Balance := mkBalance { immature : Amount; trusted_pending : Amount; untrusted_pending : Amount; confirmed : Amount }.

Section Messages.
Context `{ProtoLib}.

Definition confirmation_to_proto (p : ChainPosition) : PbConfirmation :=
  match p with
  | Confirmed a _ => mkPbConfirmation (anchor_height a) (Some (reverse_hex_encode hash_codec (anchor_hash a))) (Some (confirmation_time a))
  | Unconfirmed last_seen => mkPbConfirmation 0 None last_seen
  end.
Definition wallet_transaction_to_proto (t : BDKWalletTransaction) : PbWalletTransaction :=
  mkPbWalletTransaction (reverse_hex_encode hash_codec (bt_txid t)) (consensus_hex_encode tx_codec (bt_tx t)) (bt_fee t) (bt_received t) (bt_sent t)
    (confirmation_to_proto (bt_chain_position t)).

(** [Address::from_script], printed *)
Context (script_address : Network -> bytes -> option bytes).
Definition output_to_proto (network : Network) (u : LocalOutput) : PbOutput :=
  let chain_position := match lo_chain_position u with Unconfirmed _ => None | Confirmed a t => Some (a, t) end in
  let last_seen := match lo_chain_position u with Unconfirmed last_seen => last_seen | Confirmed _ _ => None end in
  mkPbOutput (reverse_hex_encode hash_codec (op_txid (lo_outpoint u))) (op_vout (lo_outpoint u)) (value (lo_txout u)) (lo_internal u)
    (bool_decide (is_Some chain_position)) (default 0 (anchor_height ∘ fst <$> chain_position)) (confirmation_time ∘ fst <$> chain_position)
    (reverse_hex_encode hash_codec <$> (chain_position ≫= snd)) last_seen (script_address network (script_pubkey (lo_txout u))).
Definition list_unspent_outputs (v : Validator) (get_utxos : option (list LocalOutput)) : Res ConnectError (list PbOutput) :=
  utxos ← ok_or (unknown_err tt) get_utxos;
  Ok (map (output_to_proto (v_network v)) utxos).

(** [Balance::total] *)
Definition balance_total {E} (b : Balance) : Res E Amount := amount_sum [confirmed b; trusted_pending b; untrusted_pending b; immature b].
(** Confirmed and pending coins, and whether the wallet has synced *)
Definition get_balance (balance : option (Balance * bool)) : Res ConnectError (Amount * Amount * bool) :=
  '(b, has_synced) ← ok_or (unknown_err tt) balance;
  total ← balance_total b;
  pending ← unwrap (checked_sub total (confirmed b));
  Ok (confirmed b, pending, has_synced).

(** [TryFrom<FeeRate> for FeePolicy]; [from_sat_per_vb] is rust-bitcoin's *)
Inductive PbFee := SatPerVbyte (n : Z) | Sats (n : Z).
Context (from_sat_per_vb : Z -> option Z).
Definition fee_policy_try_from (fee : option PbFee) : Res ProtoError FeePolicy :=
  let FeeRate := "cusf.mainchain.v1.SendTransactionRequest.FeeRate"%string in
  fee ← ok_or (missing_field FeeRate "fee") fee;
  match fee with
  | SatPerVbyte n => rate ← ok_or (invalid_field_value FeeRate "fee" (decimal n)) (from_sat_per_vb n); Ok (Rate rate)
  | Sats n => Ok (Absolute n)
  end.

End Messages.

(** ** The operations *)

Section WalletServer.
Context `{Bitcoin, Nom, ProtoLib}.
(** As in [Wallet] *)
Context (hmac_in : TxIn -> bytes) (hmac_out : TxOut -> bytes) (fetch_transaction : Txid -> option Transaction)
  (send_raw_transaction : Transaction -> option Z -> SendRawTransaction)
  (broadcast_results_stream : Z -> Transaction -> list (Res BroadcastNonstandardTxError bool)) (rpc_code : ErrorCode).
Implicit Types (v : Validator) (wallet : option BdkWallet).

(** *** BMM requests *)

Record BmmDataRequest := mkBmmDataRequest {
  bd_sidechain_id : option Z; bd_value_sats : option Z; bd_height : option Z; bd_critical_hash : option Pb.ConsensusHex; bd_prev_bytes : option Pb.ReverseHex }.
Definition CreateBmmCriticalDataTransactionRequest : string := "cusf.mainchain.v1.CreateBmmCriticalDataTransactionRequest".

(** The slot, the block it builds on, the commitment, the bid and the lock time *)
Definition bmm_data_request v (r : BmmDataRequest) : Res ConnectError (SidechainNumber * BlockHash * BmmCommitment * Amount * Z) :=
  let missing field_name := proto_status (missing_field CreateBmmCriticalDataTransactionRequest field_name) in
  amount ← ok_or (missing "value_sats"%string) (bd_value_sats r);
  height_raw ← ok_or (missing "height"%string) (bd_height r);
  locktime ← (if bool_decide (height_raw < LOCK_TIME_THRESHOLD) then Ok height_raw
              else Err (proto_status (invalid_field_value CreateBmmCriticalDataTransactionRequest "height" (decimal height_raw))));
  n ← parse_sidechain_id CreateBmmCriticalDataTransactionRequest (bd_sidechain_id r) "sidechain_id";
  active ← map_err internal_err (is_sidechain_active v n);
  if negb active then Err (mkConnectError FailedPrecondition (D_Text "sidechain is not active")) else
  critical_hash ← required_consensus_hex hash_codec CreateBmmCriticalDataTransactionRequest "critical_hash" (bd_critical_hash r);
  prev_bytes ← required_reverse_hex hash_codec CreateBmmCriticalDataTransactionRequest "prev_bytes" (bd_prev_bytes r);
  mainchain_tip ← map_err internal_err (get_mainchain_tip v);
  if negb (bool_decide (mainchain_tip = prev_bytes)) then Err (mkConnectError InvalidArgument (D_InvalidPrevBytes prev_bytes mainchain_tip)) else
  Ok (n, prev_bytes, critical_hash, amount, locktime).

Definition create_bmm_critical_data_transaction v wallet (r : BmmDataRequest) : Res ConnectError (Transaction * Pb.ReverseHex) :=
  '(n, prev_bytes, critical_hash, amount, locktime) ← bmm_data_request v r;
  tx ← map_err (fun e => mkConnectError (create_bmm_request_code e) D_Display)
         (create_bmm_request send_raw_transaction broadcast_results_stream wallet v n prev_bytes critical_hash amount locktime);
  Ok (tx, reverse_hex_encode hash_codec (compute_txid tx)).

(** *** Deposits *)

Definition CreateDepositTransactionRequest : string := "cusf.mainchain.v1.CreateDepositTransactionRequest".
Definition deposit_request v (sidechain_id : option Z) (address : option bytes) (value_sats fee_sats : option Z)
    : Res ConnectError (SidechainNumber * bytes * Amount * Amount) :=
  let missing field_name := proto_status (missing_field CreateDepositTransactionRequest field_name) in
  n ← parse_sidechain_id CreateDepositTransactionRequest sidechain_id "sidechain_id";
  address ← ok_or (missing "address"%string) address;
  if bool_decide (address = []) then Err (mkConnectError InvalidArgument (D_Text "address must be non-empty")) else
  value ← ok_or (missing "value_sats"%string) value_sats;
  if bool_decide (value = 0) then Err (mkConnectError InvalidArgument (D_Text "value_sats must be greater than zero")) else
  fee ← ok_or (missing "fee_sats"%string) fee_sats;
  active ← map_err unknown_err (is_sidechain_active v n);
  if negb active then Err (mkConnectError FailedPrecondition (D_SidechainNotActive n)) else
  Ok (n, address, value, fee).

(** With the transactions that are applied to the wallet *)
Definition create_deposit_transaction v wallet (sidechain_id : option Z) (address : option bytes) (value_sats fee_sats : option Z)
    : Res ConnectError (Pb.ReverseHex * list Transaction) :=
  '(n, address, value, fee) ← deposit_request v sidechain_id address value_sats fee_sats;
  '(txid, applied) ← map_err (fun e => mkConnectError (create_deposit_code rpc_code e) D_Display)
    (create_deposit hmac_in hmac_out fetch_transaction send_raw_transaction broadcast_results_stream wallet v n address value (Some fee));
  Ok (reverse_hex_encode hash_codec txid, applied).

(** *** Listing *)

Definition list_transactions wallet (transactions : list WalletTx) (get_raw_transaction : Txid -> option Transaction) : Res ConnectError (list PbWalletTransaction) :=
  txs ← map_err (fun e => mkConnectError (match e with LWT_FetchTransaction _ => Unknown | LWT_NotUnlocked => Unknown end) D_Display)
          (list_wallet_transactions wallet transactions get_raw_transaction);
  Ok (map wallet_transaction_to_proto txs).

(** *** Payments *)

(** [Address::from_str], [require_network], [script_pubkey] and BDK's [is_dust] *)
Context {Address : Type} `{Countable Address} (address_from_str : bytes -> option Address) (require_network : Network -> Address -> bool)
  (script_of : Address -> bytes) (is_dust : Amount -> bytes -> bool) (address_to_string : Address -> bytes).
(** The order in which a [HashMap] of addresses is iterated *)
Context (address_iter : gmap Address Amount -> list (Address * Amount)).
Context (from_sat_per_vb : Z -> option Z).

Definition parse_checked_address v (address : bytes) : Res ConnectError Address :=
  a ← ok_or (mkConnectError InvalidArgument D_Display) (address_from_str address);
  if require_network (v_network v) a then Ok a else Err (mkConnectError InvalidArgument (D_Text "bitcoin address is not valid for network")).

Record RequiredUtxo := mkRequiredUtxo { ru_txid : option Pb.ReverseHex; ru_vout : Z }.
Record SendTransactionRequest := mkSendTransactionRequest {
  (** a map, in the order in which it is iterated *)
  st_destinations : list (bytes * Amount);
  st_fee_rate : option (option PbFee);
  st_op_return_message : option Pb.Hex;
  st_required_utxos : list RequiredUtxo;
  st_drain_wallet_to : option bytes }.

Definition required_utxo (u : RequiredUtxo) : Res ConnectError OutPoint :=
  txid ← required_reverse_hex hash_codec "cusf.mainchain.v1.SendTransactionRequest.RequiredUtxo" "txid" (ru_txid u);
  Ok (mkOutPoint txid (ru_vout u)).
Definition destination v (d : bytes * Amount) : Res ConnectError (Address * Amount) :=
  a ← parse_checked_address v d.1;
  if is_dust d.2 (script_of a) then Err (mkConnectError InvalidArgument (D_Dust d.2 (address_to_string a))) else Ok (a, d.2).
(** [collect::<Result<HashMap<..>, _>>] *)
Definition validate_destinations v (ds : list (bytes * Amount)) : Res ConnectError (gmap Address Amount) :=
  foldM (fun m d => e ← destination v d; Ok (<[e.1 := e.2]> m)) ds ∅.

Definition send_request v (r : SendTransactionRequest) : Res ConnectError (gmap Address Amount * CreateTransactionParams) :=
  required ← map_collect required_utxo (st_required_utxos r);
  destinations ← validate_destinations v (st_destinations r);
  if bool_decide (destinations = ∅) && bool_decide (st_op_return_message r = None) && bool_decide (st_drain_wallet_to r = None)
  then Err (mkConnectError InvalidArgument (D_Text "no destinations or op_return_message provided")) else
  drain ← match st_drain_wallet_to r with None => Ok None | Some s => a ← parse_checked_address v s; Ok (Some a) end;
  if bool_decide (is_Some drain) && negb (bool_decide (required = []))
  then Err (mkConnectError InvalidArgument (D_Text "cannot provide both drain_wallet_to and required_utxos")) else
  fee ← match st_fee_rate r with None => Ok None | Some f => p ← map_err proto_status (fee_policy_try_from from_sat_per_vb f); Ok (Some p) end;
  message ← match st_op_return_message r with
            | None => Ok None
            | Some h => m ← map_err proto_status (hex_decode_ of_hex "cusf.mainchain.v1.SendTransactionRequest" "op_return_message" h); Ok (Some m)
            end;
  Ok (destinations, mkCreateTransactionParams fee message required (script_of <$> drain)).

Definition send_transaction v wallet (r : SendTransactionRequest) : Res ConnectError (Pb.ReverseHex * list Transaction) :=
  '(destinations, params) ← send_request v r;
  '(txid, applied) ← map_err (fun e => mkConnectError (send_wallet_transaction_code e) D_Display)
    (send_wallet_transaction send_raw_transaction wallet v ((fun d => (script_of d.1, d.2)) <$> address_iter destinations) params);
  Ok (reverse_hex_encode hash_codec txid, applied).

End WalletServer.

(** *** Creating and unlocking *)

Section Create.
Context `{SeedLib}.
(** [std::fs::read_to_string] of a path, and [str::split_whitespace] *)
Context (read_to_string : bytes -> option bytes) (split_whitespace : bytes -> list bytes) (rpc_code : ErrorCode).

(** [join(" ")] *)
Fixpoint join_words (words : list bytes) : bytes :=
  match words with [] => [] | [w] => w | w :: words => w ++ x20 :: join_words words end.

Definition create_wallet_request (initialized : bool) (mnemonic_words : list bytes) (mnemonic_path password : bytes)
    : Res ConnectError (option Mnemonic * option bytes) :=
  if initialized then Err (mkConnectError AlreadyExists D_Display) else
  if negb (bool_decide (mnemonic_words = [])) && negb (bool_decide (mnemonic_path = []))
  then Err (mkConnectError InvalidArgument (D_Text "cannot provide both mnemonic and mnemonic path")) else
  words ← (if bool_decide (mnemonic_path = []) then Ok mnemonic_words
           else read ← ok_or (mkConnectError InvalidArgument D_Display) (read_to_string mnemonic_path); Ok (split_whitespace read));
  if negb (bool_decide (words = [])) && negb (bool_decide (length words = 12%nat))
  then Err (mkConnectError InvalidArgument (D_Text "mnemonic must be 12 words")) else
  parsed ← (if bool_decide (words = []) then Ok None
            else m ← ok_or (mkConnectError InvalidArgument D_Display) (mnemonic_parse (join_words words)); Ok (Some m));
  Ok (parsed, if bool_decide (password = []) then None else Some password).

Definition server_create_wallet (initialized : bool) (mnemonic_words : list bytes) (mnemonic_path password : bytes) : Prog (Res ConnectError unit) :=
  match create_wallet_request initialized mnemonic_words mnemonic_path password with
  | Err e => Ret (Err e)
  | Panic => Ret Panic
  | Ok (m, p) => SeedStore.pbind (create_new_wallet m p) (fun r => Ret (map_err (fun e => mkConnectError (create_new_wallet_code rpc_code e) D_Display) r))
  end.

Definition unlock_wallet (unlocked : bool) (password : bytes) : Prog (Res ConnectError unit) :=
  SeedStore.pbind (unlock_existing_wallet unlocked password) (fun r => Ret (map_err (fun e => mkConnectError (unlock_existing_wallet_code e) D_Display) (_ ← r; Ok tt))).

End Create.
