(* ===== verification/ServerProofs.v ===== *)
(** * Theorems on the RPC servers

    Encodings are read back, a client sees exactly its sidechain's part of an event,
    the answers of the queries, what the block producer's service stores, and the
    confirmations of a proposal. *)

From Stdlib Require Import Strings.Byte Strings.String.
From stdpp Require Import base numbers list gmap strings sorting.
From S2P Require Import Prelude OrderMap Bitcoin Types Messages M6 Dbs BlockHashes Treasury Diff Reversible Handlers ConnectBlock Enforcer Sync Facade FacadeProofs Policy PolicyProofs Producer ProducerProofs Mining Mine Proto Server ProducerServer.
Open Scope Z_scope.
Import TreasurySpec.

(** ** Encodings *)

Section Encodings.
Context `{ProtoLib, !ProtoLaws}.

Lemma reverse_hex_roundtrip {T} (c : Consensus T) ok `{!CodecLaws c ok} message field t :
  ok t -> reverse_hex_decode c message field (reverse_hex_encode c t) = Ok t.
Proof. intros Ht. unfold reverse_hex_decode, reverse_hex_encode. cbn. rewrite of_to_hex. cbn. by rewrite rev_involutive, deserialize_serialize. Qed.

Lemma consensus_hex_roundtrip {T} (c : Consensus T) ok `{!CodecLaws c ok} message field t :
  ok t -> consensus_hex_decode c message field (consensus_hex_encode c t) = Ok t.
Proof. intros Ht. unfold consensus_hex_decode, consensus_hex_encode. cbn. by rewrite deserialize_serialize_hex. Qed.

Lemma hex_roundtrip message field b : hex_decode_ of_hex message field (hex_encode_ b) = Ok b.
Proof. unfold hex_decode_, hex_encode_. cbn. by rewrite of_to_hex. Qed.

Lemma hex_array_roundtrip n message field b : length b = n -> hex_decode_ (from_hex_array n) message field (hex_encode_ b) = Ok b.
Proof. intros Hb. unfold hex_decode_, hex_encode_, from_hex_array. cbn. rewrite of_to_hex. cbn. by rewrite decide_True. Qed.

Lemma decoded_inj {T M} (dec : M -> Res ProtoError T) (enc : T -> M) t u :
  dec (enc t) = Ok t -> dec (enc u) = Ok u -> enc t = enc u -> t = u.
Proof. intros Ht Hu E. rewrite E, Hu in Ht. congruence. Qed.

Lemma reverse_hex_inj {T} (c : Consensus T) ok `{!CodecLaws c ok} t u : ok t -> ok u -> reverse_hex_encode c t = reverse_hex_encode c u -> t = u.
Proof. intros Ht Hu. by apply (decoded_inj (reverse_hex_decode c "" "")); eapply reverse_hex_roundtrip. Qed.
Lemma consensus_hex_inj {T} (c : Consensus T) ok `{!CodecLaws c ok} t u : ok t -> ok u -> consensus_hex_encode c t = consensus_hex_encode c u -> t = u.
Proof. intros Ht Hu. by apply (decoded_inj (consensus_hex_decode c "" "")); eapply consensus_hex_roundtrip. Qed.
Lemma hex_inj t u : hex_encode_ t = hex_encode_ u -> t = u.
Proof. by apply (decoded_inj (hex_decode_ of_hex "" "")); apply hex_roundtrip. Qed.

#[local] Instance hash_laws : CodecLaws hash_codec (fun b => length b = 32%nat) := array_laws 32.

Lemma hash_reverse_roundtrip message field h : length h = 32%nat -> reverse_hex_decode hash_codec message field (reverse_hex_encode hash_codec h) = Ok h.
Proof. by apply (reverse_hex_roundtrip hash_codec (fun b => length b = 32%nat)). Qed.
Lemma hash_consensus_roundtrip message field h : length h = 32%nat -> consensus_hex_decode hash_codec message field (consensus_hex_encode hash_codec h) = Ok h.
Proof. by apply (consensus_hex_roundtrip hash_codec (fun b => length b = 32%nat)). Qed.

Lemma hash_rev_inj t u : length t = 32%nat -> length u = 32%nat -> reverse_hex_encode hash_codec t = reverse_hex_encode hash_codec u -> t = u.
Proof. intros. by eapply (reverse_hex_inj hash_codec (fun b => length b = 32%nat)). Qed.
Lemma hash_hex_inj t u : length t = 32%nat -> length u = 32%nat -> consensus_hex_encode hash_codec t = consensus_hex_encode hash_codec u -> t = u.
Proof. intros. by eapply (consensus_hex_inj hash_codec (fun b => length b = 32%nat)). Qed.
Lemma tx_hex_inj t u : tx_fits t -> tx_fits u -> consensus_hex_encode tx_codec t = consensus_hex_encode tx_codec u -> t = u.
Proof. by eapply (consensus_hex_inj tx_codec tx_fits). Qed.

Lemma required_reverse_hash message field h : length h = 32%nat ->
  required_reverse_hex hash_codec message field (Some (reverse_hex_encode hash_codec h)) = Ok h.
Proof. intros Hh. change (map_err proto_status (reverse_hex_decode hash_codec message field (reverse_hex_encode hash_codec h)) = Ok h). by rewrite hash_reverse_roundtrip. Qed.
Lemma required_consensus_hash message field h : length h = 32%nat ->
  required_consensus_hex hash_codec message field (Some (consensus_hex_encode hash_codec h)) = Ok h.
Proof. intros Hh. change (map_err proto_status (consensus_hex_decode hash_codec message field (consensus_hex_encode hash_codec h)) = Ok h). by rewrite hash_consensus_roundtrip. Qed.

Lemma slot_read n : sidechain_number_try_from (u8_val n) = Some n.
Proof. unfold sidechain_number_try_from. pose proof (u8_val_range n). rewrite bool_decide_eq_true_2 by lia. by rewrite to_u8_val. Qed.
Lemma parse_sidechain_id_slot message field n : parse_sidechain_id message (Some (u8_val n)) field = Ok n.
Proof. unfold parse_sidechain_id. cbn. by rewrite slot_read. Qed.

(** ** Declarations *)

Definition declaration_ok (d : SidechainDeclaration) : Prop := length (sd_hash_id_1 d) = 32%nat /\ length (sd_hash_id_2 d) = 20%nat.

Lemma declaration_roundtrip d : declaration_ok d -> declaration_from_proto (declaration_to_proto d) = Ok d.
Proof.
  intros [H1' H2']. unfold declaration_from_proto, declaration_to_proto, declaration_from_v0. cbn -[consensus_hex_encode hex_encode_ consensus_hex_decode hex_decode_].
  rewrite hash_consensus_roundtrip by done. cbn -[hex_encode_ hex_decode_]. rewrite hex_array_roundtrip by done. by destruct d.
Qed.

(** ** What a client sees of an event *)

(** The sizes of hashes and of numbers, a work of 256 bits; a sidechain's part of a block has
    no proposals *)
Definition header_info_ok (i : HeaderInfo) : Prop :=
  length (hi_block_hash i) = 32%nat /\ length (hi_prev_block_hash i) = 32%nat /\ 0 <= hi_work i < 2 ^ 256.
Definition sidechain_event_ok (e : SidechainBlockEvent) : Prop :=
  match e with
  | SBE_Deposit d => length (op_txid (dep_outpoint d)) = 32%nat
  | SBE_SidechainProposal _ _ => False
  | SBE_WithdrawalBundle b => length (swb_m6id b) = 32%nat /\ match swb_kind b with Succeeded _ tx => tx_fits tx | _ => True end
  end.
Definition view_ok (i : SidechainBlockInfo) : Prop :=
  (forall c, sbi_bmm_commitment i = Some c -> length c = 32%nat) /\ Forall sidechain_event_ok (sbi_events i).
(** *** The part of a block that is a sidechain's

    Stated without [only_sidechain]: everything that a block records of any
    sidechain, each with the sidechain it is about, and of this list the entries
    about one sidechain. *)

(** A deposit, or a bundle and what became of it *)
Abbreviation Happening := (Deposit + M6id * WithdrawalBundleEventKind)%type.
Definition recorded (e : BlockEvent) : list (SidechainNumber * Happening) :=
  match e with
  | BE_Deposits ds => prod_map id inl <$> map_to_list ds
  | BE_SidechainProposal _ _ => []
  | BE_WithdrawalBundle w => [(wb_sidechain_id w, inr (wb_m6id w, wb_kind w))]
  end.
Definition happened (n : SidechainNumber) (bi : BlockInfo) : list Happening :=
  snd <$> filter (fun x => x.1 = n) (concat (recorded <$> bi_events bi)).

Definition happening_event (x : Happening) : SidechainBlockEvent :=
  match x with inl d => SBE_Deposit d | inr (m, k) => SBE_WithdrawalBundle (mkSidechainWithdrawalBundleEvent m k) end.

#[global] Instance happening_event_inj : Inj (=) (=) happening_event.
Proof. intros [d|[m k]] [d'|[m' k']] E; by simplify_eq/=. Qed.

Lemma filter_key {A} (m : gmap SidechainNumber A) n :
  filter (fun x => x.1 = n) (map_to_list m) = match m !! n with Some a => [(n, a)] | None => [] end.
Proof.
  assert (Hp : filter (fun x => x.1 = n) (map_to_list m) ≡ₚ match m !! n with Some a => [(n, a)] | None => [] end).
  { apply NoDup_Permutation; [apply NoDup_filter, NoDup_map_to_list|destruct (m !! n); [apply NoDup_singleton|constructor]|].
    intros [k a]. rewrite list_elem_of_filter, elem_of_map_to_list. cbn. split.
    - intros [-> ->]. by left.
    - destruct (m !! n) eqn:E; [intros [= -> ->]%list_elem_of_singleton|intros []%elem_of_nil]. done. }
  destruct (m !! n); [by apply Permutation_singleton_r|by apply Permutation_nil_r].
Qed.

Lemma only_sidechain_recorded n e :
  option_list (only_sidechain_event n e) = happening_event <$> (snd <$> filter (fun x => x.1 = n) (recorded e)).
Proof.
  destruct e as [ds|v p|[k m w]]; cbn [only_sidechain_event recorded wb_sidechain_id wb_m6id wb_kind]; [|done|].
  - assert (E : filter (fun x => x.1 = n) (prod_map id (inl : Deposit -> Happening) <$> map_to_list ds)
      = prod_map id inl <$> filter (fun x => x.1 = n) (map_to_list ds)).
    { induction (map_to_list ds) as [|[k d] l IH]; [done|]. rewrite fmap_cons, !filter_cons. cbn [prod_map fst snd id]. by case_decide; cbn; rewrite IH. }
    rewrite E, filter_key. by destruct (ds !! n).
  - rewrite filter_cons. cbn. by case_decide.
Qed.

(** [only_sidechain] gives that part, and nothing else. *)
Lemma only_sidechain_spec bi n :
  only_sidechain bi n = mkSidechainBlockInfo (om_get n (bi_bmm_commitments bi)) (happening_event <$> happened n bi).
Proof.
  unfold only_sidechain, happened. f_equal. induction (bi_events bi) as [|e es IH]; [done|]. cbn [concat fmap list_fmap].
  rewrite filter_app, !fmap_app, <- only_sidechain_recorded, <- IH. cbn. by destruct (only_sidechain_event n e).
Qed.

Definition happening_ok (x : Happening) : Prop :=
  match x with
  | inl d => length (op_txid (dep_outpoint d)) = 32%nat
  | inr (m, k) => length m = 32%nat /\ match k with Succeeded _ tx => tx_fits tx | _ => True end
  end.
Definition event_ok (n : SidechainNumber) (e : Event) : Prop :=
  match e with
  | ConnectBlock hi bi => header_info_ok hi /\ (forall c, om_get n (bi_bmm_commitments bi) = Some c -> length c = 32%nat) /\ Forall happening_ok (happened n bi)
  | DisconnectBlock h => length h = 32%nat
  end.

Lemma event_view_ok n bi :
  (forall c, om_get n (bi_bmm_commitments bi) = Some c -> length c = 32%nat) -> Forall happening_ok (happened n bi) -> view_ok (only_sidechain bi n).
Proof.
  intros Hc Hh. rewrite only_sidechain_spec. split; [done|]. cbn. apply Forall_fmap. eapply Forall_impl; [exact Hh|].
  by intros [d|[m k]].
Qed.

(** What an event has for a sidechain: the header, the sidechain's commitment and what
    happened to the sidechain, or the block that is disconnected *)
Definition sidechain_view (n : SidechainNumber) (e : Event) : (HeaderInfo * option BmmCommitment * list Happening) + BlockHash :=
  match e with
  | ConnectBlock hi bi => inl (hi, om_get n (bi_bmm_commitments bi), happened n bi)
  | DisconnectBlock h => inr h
  end.

(** Names the encodings, so that an equation of messages is one of their fields. *)
Ltac name_encodings :=
  repeat match goal with
  | |- context [hex_encode_ ?a] => let E := fresh "Henc" in remember (hex_encode_ a) eqn:E in |- *
  | |- context [reverse_hex_encode ?c ?a] => let E := fresh "Henc" in remember (reverse_hex_encode c a) eqn:E in |- *
  | |- context [consensus_hex_encode ?c ?a] => let E := fresh "Henc" in remember (consensus_hex_encode c a) eqn:E in |- *
  end.
Ltac same_encodings :=
  repeat match goal with
  | E : hex_encode_ _ = hex_encode_ _ |- _ => apply hex_inj in E
  | E : reverse_hex_encode hash_codec _ = reverse_hex_encode hash_codec _ |- _ => apply hash_rev_inj in E; [|done..]
  | E : consensus_hex_encode hash_codec _ = consensus_hex_encode hash_codec _ |- _ => apply hash_hex_inj in E; [|done..]
  | E : consensus_hex_encode tx_codec _ = consensus_hex_encode tx_codec _ |- _ => apply tx_hex_inj in E; [|done..]
  end; subst.
#[local] Arguments reverse_hex_encode : simpl never.
#[local] Arguments consensus_hex_encode : simpl never.
#[local] Arguments hex_encode_ : simpl never.
#[local] Arguments deposit_to_proto : simpl never.

Lemma le_bytes_inj n x y : 0 <= x < 256 ^ Z.of_nat n -> 0 <= y < 256 ^ Z.of_nat n -> le_bytes n x = le_bytes n y -> x = y.
Proof. intros Hx Hy E. rewrite <- (le_val_bytes n x), <- (le_val_bytes n y) by done. by rewrite E. Qed.

Lemma header_info_inj i j : header_info_ok i -> header_info_ok j -> header_info_to_proto i = header_info_to_proto j -> i = j.
Proof.
  intros (Hh & Hp & Hw) (Hh' & Hp' & Hw') E.
  pose proof (hash_rev_inj _ _ Hh Hh' (Some_inj _ _ (f_equal Pb.block_hash E))) as Eh.
  pose proof (hash_rev_inj _ _ Hp Hp' (Some_inj _ _ (f_equal Pb.prev_block_hash E))) as Ep.
  pose proof (f_equal Pb.height E) as Ek. pose proof (f_equal Pb.timestamp E) as Et.
  apply (f_equal Pb.work), (Some_inj _ _), (hash_hex_inj _ _ (length_le_bytes _ _) (length_le_bytes _ _)), (le_bytes_inj 32) in E; [|done..].
  destruct i, j; cbn in *. by subst.
Qed.

Lemma deposit_inj d e : length (op_txid (dep_outpoint d)) = 32%nat -> length (op_txid (dep_outpoint e)) = 32%nat ->
  deposit_to_proto d = deposit_to_proto e -> d = e.
Proof.
  destruct d as [q [t o] a v], e as [q' [t' o'] a' v']. cbn. intros Ht Ht'. unfold deposit_to_proto, out_point_to_proto. cbn. name_encodings.
  intros [=]. subst. by same_encodings.
Qed.

Lemma sidechain_event_inj e f : sidechain_event_ok e -> sidechain_event_ok f -> block_event_to_proto e = block_event_to_proto f -> e = f.
Proof.
  destruct e as [d| |[m k]], f as [d'| |[m' k']]; cbn; try done.
  - intros Hd Hd'. pose proof (deposit_inj d d' Hd Hd') as Hinj. revert Hinj. generalize (deposit_to_proto d) (deposit_to_proto d').
    intros x y Hinj [= ->]. by rewrite Hinj.
  - intros [Hm Hk] [Hm' Hk']. unfold bundle_event_to_proto. cbn. destruct k, k'; cbn; name_encodings; intros [=]; subst; by same_encodings.
Qed.

Lemma sidechain_event_Some e : sidechain_event_ok e -> is_Some (block_event_to_proto e).
Proof. destruct e; cbn; [by eexists|done|by eexists]. Qed.

Lemma events_inj l l' : Forall sidechain_event_ok l -> Forall sidechain_event_ok l' ->
  omap block_event_to_proto l = omap block_event_to_proto l' -> l = l'.
Proof.
  intros Hl. revert l'. induction Hl as [|e l He Hl IH]; intros l' Hl' E; destruct Hl' as [|e' l' He' Hl']; try done; cbn in E.
  - by destruct (sidechain_event_Some e' He') as [x Hx]; rewrite Hx in E.
  - by destruct (sidechain_event_Some e He) as [x Hx]; rewrite Hx in E.
  - destruct (sidechain_event_Some e He) as [x Hx], (sidechain_event_Some e' He') as [x' Hx']. rewrite Hx, Hx' in E. injection E as -> E.
    f_equal; [|by apply IH]. apply sidechain_event_inj; [done..|congruence].
Qed.

Lemma view_inj i j : view_ok i -> view_ok j -> sidechain_block_info_to_proto i = sidechain_block_info_to_proto j -> i = j.
Proof.
  destruct i as [c es], j as [c' es']. intros [Hc He] [Hc' He'] E. cbn in *.
  pose proof (f_equal Pb.bmm_commitment E) as Ec. apply (f_equal Pb.events) in E. cbn in Ec, E. apply (inj (fmap Some)) in E.
  f_equal; [|by apply events_inj]. destruct c, c'; cbn in *; try done. apply Some_inj, hash_hex_inj in Ec; [by subst|auto..].
Qed.
End Encodings.

(** C23. A client that subscribes for a sidechain gets from two events the same message
    exactly when they have the same header, the same commitment for its sidechain and the
    same deposits and bundles of its sidechain in the same order (or disconnect the same
    block): the message loses nothing of these, and deposits, bundles and commitments of
    other sidechains do not change it. *)
Theorem client_sees_its_sidechain `{ProtoLib, !ProtoLaws} n e f :
  event_ok n e -> event_ok n f -> event_into_proto e n = event_into_proto f n <-> sidechain_view n e = sidechain_view n f.
Proof.
  intros He Hf. split.
  - destruct e as [hi bi|h], f as [hi' bi'|h']; cbn -[header_info_to_proto as_proto reverse_hex_encode]; try done.
    + destruct He as (Hh & Hc & Hv), Hf as (Hh' & Hc' & Hv').
      pose proof (header_info_inj hi hi' Hh Hh') as Ih. pose proof (view_inj _ _ (event_view_ok _ _ Hc Hv) (event_view_ok _ _ Hc' Hv')) as Iv. revert Ih Iv. unfold as_proto.
      generalize (header_info_to_proto hi) (header_info_to_proto hi') (sidechain_block_info_to_proto (only_sidechain bi n)) (sidechain_block_info_to_proto (only_sidechain bi' n)).
      intros a b c d Ih Iv [= -> ->]. rewrite Ih by done. specialize (Iv eq_refl). rewrite !only_sidechain_spec in Iv. injection Iv as -> Eh.
      by apply (inj (fmap happening_event)) in Eh as ->.
    + pose proof (hash_rev_inj h h' He Hf) as I. revert I. generalize (reverse_hex_encode hash_codec h) (reverse_hex_encode hash_codec h').
      intros a b I [= ->]. by rewrite I.
  - destruct e as [hi bi|h], f as [hi' bi'|h']; unfold sidechain_view; try done; [|by intros [= ->]].
    intros [= -> Ec Eh]. cbn -[only_sidechain as_proto header_info_to_proto]. unfold as_proto. by rewrite !only_sidechain_spec, Ec, Eh.
Qed.

(** ** Queries *)

Section Queries.
Context `{Bitcoin, Nom, TxCodec, ProtoLib, HashIter}.
Implicit Types (v : Validator).

Lemma peg_data_dropped d n :
  peg_data_into_proto d n = None <-> only_sidechain (twp_block_info d) n = mkSidechainBlockInfo None [].
Proof.
  unfold peg_data_into_proto, as_proto. unfold only_sidechain. set (es := omap _ _). set (c := om_get _ _).
  assert (Hes : es = [] <-> omap block_event_to_proto es = []).
  { split; [by intros ->|]. destruct es as [|e es'] eqn:E; [done|]. intros Hn. exfalso.
    assert (He : e ∈ es) by (rewrite E; left). subst es. apply list_elem_of_omap in He as (x & _ & Hx). cbn in Hn.
    destruct x as [ds|?|[]]; cbn in Hx; [|done|case_decide; [|done]].
    - destruct (ds !! n); [|done]. by injection Hx as <-.
    - by injection Hx as <-. }
  cbn. unfold block_info_is_default. cbn. destruct c; cbn; [by split|]. destruct (omap block_event_to_proto es) eqn:E; cbn.
  - destruct Hes as [_ ->]; done.
  - split; [done|]. intros [= ->]. done.
Qed.

(** [GetCtip] of a slot is the last UTXO of its treasury, with its position in the
    history, and never panics on well-formed tables. *)
Lemma get_ctip_answer v n :
  wf (v_dbs v) -> exists h, treasury_repr h (active_sidechains (v_dbs v)) /\
    server_get_ctip v (Some (u8_val n)) =
    Ok ((fun c => mkPbCtip (reverse_hex_encode hash_codec (op_txid (ctip_outpoint c))) (op_vout (ctip_outpoint c)) (ctip_value c)
                    (Z.of_nat (length (h n)) - 1)) <$> last (h n)).
Proof.
  intros [[_ _ [h Ht]] _]. exists h. split; [done|]. unfold server_get_ctip. rewrite parse_sidechain_id_slot. cbn -[reverse_hex_encode].
  unfold try_get_ctip, get_ctip_sequence_number. rewrite (tr_ctip _ _ Ht), (tr_count _ _ Ht). destruct (last (h n)) as [c|] eqn:E; [|done].
  assert (h n <> []) as Hn by (by intros E'; rewrite E' in E). rewrite decide_False by done.
  assert (checked_sub (Z.of_nat (length (h n))) 1 = Some (Z.of_nat (length (h n)) - 1)) as -> by (apply checked_sub_Some; destruct (h n); [done|]; cbn; lia).
  done.
Qed.

(** *** BMM requests *)

Lemma elem_of_slot_requests (m : gmap BmmCommitment (gset Txid)) c t : (c, t) ∈ slot_requests m <-> exists ts, m !! c = Some ts /\ t ∈ ts.
Proof.
  unfold slot_requests. rewrite elem_of_concat. split.
  - intros (l & Hl & ([c' ts] & -> & Hin)%list_elem_of_fmap). apply list_elem_of_fmap in Hl as (t' & [= -> ->] & Ht).
    exists ts. by rewrite elem_of_elements in Ht; apply elem_of_map_to_list in Hin.
  - intros (ts & Hc & Ht). eexists. split; [|apply list_elem_of_fmap; exists (c, ts); split; [done|by apply elem_of_map_to_list]].
    cbn. apply list_elem_of_fmap. exists t. by rewrite elem_of_elements.
Qed.

Lemma elem_of_wanted wanted seen n c t :
  (n, (c, t)) ∈ wanted_requests wanted seen <-> (forall w, wanted = Some w -> w = n) /\ exists m ts, seen !! n = Some m /\ m !! c = Some ts /\ t ∈ ts.
Proof.
  unfold wanted_requests. rewrite elem_of_concat. split.
  - intros (l & Hl & ([n' m] & -> & Hin)%list_elem_of_fmap). rewrite hash_iter_perm in Hin. apply elem_of_map_to_list in Hin. cbn in Hl.
    case_bool_decide as Hw; [by apply elem_of_nil in Hl|]. apply list_elem_of_fmap in Hl as ([c' t'] & [= -> -> ->] & (ts & ? & ?)%elem_of_slot_requests).
    split; [|by exists m, ts]. intros w ->. destruct (decide (w = n')) as [|Hne]; [done|]. exfalso. apply Hw. split; [done|]. by intros [= ->].
  - intros (Hw & m & ts & Hm & Hc & Ht). eexists. split; [|apply list_elem_of_fmap; exists (n, m); split; [reflexivity|rewrite hash_iter_perm; by apply elem_of_map_to_list]].
    cbn. rewrite bool_decide_eq_false_2; [|intros [[w ->] Hne]; apply Hne; by rewrite (Hw w)].
    apply list_elem_of_fmap. exists (c, t). split; [done|]. apply elem_of_slot_requests. by exists ts.
Qed.

Lemma foldM_ext {E A S} (f g : S -> A -> Res E S) l s : (forall s a, f s a = g s a) -> foldM f l s = foldM g l s.
Proof. intros Hfg. revert s. induction l as [|a l IH]; intros s; cbn; [done|]. rewrite Hfg. destruct (g s a); cbn; [apply IH|done..]. Qed.

Lemma fetched_requests {A} (f : A -> Res ConnectError (option PbBmmRequest)) l acc r :
  foldM (fun acc a => o ← f a; Ok (match o with None => acc | Some q => acc ++ [q] end)) l acc = Ok r ->
  forall q, q ∈ r <-> q ∈ acc \/ exists a, a ∈ l /\ f a = Ok (Some q).
Proof.
  revert acc. induction l as [|a l IH]; intros acc; cbn; [intros [= <-] q; naive_solver set_solver|].
  intros (acc1 & Ha & Hl)%bind_Ok q. apply bind_Ok in Ha as (o & Ha & [= <-]). rewrite (IH _ Hl). destruct o as [q'|]; cbn.
  - rewrite elem_of_app, list_elem_of_singleton. setoid_rewrite elem_of_cons. split; [naive_solver|].
    intros [?|(a' & [->|?] & Ha')]; [by left; left|left; right; congruence|right; by exists a'].
  - setoid_rewrite elem_of_cons. split; [naive_solver|]. intros [?|(a' & [->|?] & Ha')]; [by left|congruence|right; by exists a'].
Qed.
End Queries.

(** [GetSeenBmmRequests] answers with exactly the requests that were seen on the block,
    for the wanted slot or for all, whose transaction the node still has, each with
    its fee, the highest bid first. *)
Theorem seen_bmm_requests_answer `{Bitcoin, Nom, ProtoLib, !ProtoLaws, HashIter} bid_fee v parent wanted rs :
  length parent = 32%nat ->
  server_get_seen_bmm_requests bid_fee v (Some (reverse_hex_encode hash_codec parent)) (u8_val <$> wanted) = Ok rs ->
  StronglySorted bid_ge rs /\
  forall q, q ∈ rs <-> exists n m c ts txid fee,
    (forall w, wanted = Some w -> w = n) /\
    get_seen_bmm_requests_for_parent_block (block_hashes (v_dbs v)) parent !! n = Some m /\ m !! c = Some ts /\ txid ∈ ts /\
    bid_fee txid = Ok (Some fee) /\
    q = mkPbBmmRequest (u8_val n) (reverse_hex_encode hash_codec txid) (consensus_hex_encode hash_codec c) fee.
Proof.
  intros Hp. unfold server_get_seen_bmm_requests. rewrite required_reverse_hash by done. cbn [mbind Res_bind].
  assert (Hw : forall f : option SidechainNumber -> Res ConnectError (list PbBmmRequest),
    (x ← match u8_val <$> wanted with None => Ok None | Some raw => n ← ok_or (proto_status (invalid_field_value GetSeenBmmRequestsRequest "sidechain_number" (decimal raw))) (sidechain_number_try_from raw); Ok (Some n) end; f x) = f wanted).
  { intros f. destruct wanted as [n|]; [|done]. cbn -[sidechain_number_try_from]. by rewrite slot_read. }
  rewrite Hw. clear Hw. set (seen := get_seen_bmm_requests_for_parent_block _ _).
  intros (reqs & Hf & [= <-])%bind_Ok. split.
  - apply StronglySorted_merge_sort; [intros a b c|intros a b]; unfold bid_ge; lia.
  - intros q. rewrite merge_sort_Permutation.
    set (answer := fun e : SidechainNumber * (BmmCommitment * Txid) => fee ← map_err (@internal_err ProducerError) (bid_fee e.2.2);
      Ok ((fun fee => mkPbBmmRequest (u8_val e.1) (reverse_hex_encode hash_codec e.2.2) (consensus_hex_encode hash_codec e.2.1) fee) <$> fee) : Res ConnectError (option PbBmmRequest)).
    rewrite (fetched_requests answer (wanted_requests wanted seen) [] reqs).
    + split.
      * intros [Hn|([n [c t]] & (Hw & m & ts & Hm & Hc & Ht)%elem_of_wanted & Ha)]; [by apply elem_of_nil in Hn|]. subst answer. cbn in Ha.
        apply bind_Ok in Ha as (fee & Hfee%map_err_Ok & Ha). destruct fee as [fee|]; [|done]. cbn in Ha. injection Ha as <-. by exists n, m, c, ts, t, fee.
      * intros (n & m & c & ts & t & fee & Hw & Hm & Hc & Ht & Hfee & ->). right. exists (n, (c, t)). split; [apply elem_of_wanted; split; [done|by exists m, ts]|].
        subst answer. cbn. by rewrite Hfee.
    + rewrite <- Hf. apply foldM_ext. intros acc e. unfold answer. by destruct (bid_fee e.2.2) as [[fee|]| |].
Qed.

(** ** [GetCoinbasePSBT] *)

Section Psbt.
Context `{Bitcoin, !BitcoinLaws, Nom, !NomLaws, ProtoLib, !ProtoLaws}.

Lemma pushed_messages {A M} (convert : A -> Res ProtoError M) (wrap : M -> CoinbaseMessage) l ms ms' :
  push_messages convert wrap l ms = Ok ms' -> exists xs, ms' = ms ++ (wrap <$> xs) /\ Forall2 (fun a x => convert a = Ok x) l xs.
Proof.
  unfold push_messages. revert ms. induction l as [|a l IH]; intros ms; cbn; [intros [= <-]; exists []; by rewrite app_nil_r|].
  intros (ms1 & Ha & Hl)%bind_Ok. apply bind_Ok in Ha as (x & Hx%map_err_Ok & [= <-]). apply IH in Hl as (xs & -> & Hxs).
  exists (x :: xs). split; [by rewrite <- app_assoc|by constructor].
Qed.

Lemma m2_hash_length a m : m2_try_from a = Ok m -> length (m2_description_hash m) = 32%nat.
Proof. unfold m2_try_from, consensus_hex_decode. intros ?. res_inv. cbn. by eapply array_hex_length. Qed.
Lemma m3_txid_length p m : m3_try_from p = Ok m -> length (m3_bundle_txid m) = 32%nat.
Proof. unfold m3_try_from, reverse_hex_decode. intros ?. res_inv. cbn. by eapply array_length. Qed.

Lemma upvotes_ok vals acc two : Forall (fun x => 0 <= x) vals -> upvotes_two_bytes vals acc = Ok two ->
  Forall (fun x => 0 <= x <= u16_max) vals /\ two = acc || existsb (fun x => bool_decide (255 < x)) vals.
Proof.
  intros Hv. revert acc. induction Hv as [|x vals Hx Hv IH]; intros acc; cbn; [intros [= <-]; by rewrite orb_false_r|].
  case_bool_decide; [done|]. intros (? & ->)%IH. split; [by constructor; [lia|]|]. by rewrite orb_assoc.
Qed.

(** The votes of a request are not negative, as the type of its field says. *)
Definition votes_ok (r : GetCoinbasePSBTRequest) : Prop :=
  forall votes, req_ack_bundles r = Some (Pb.mkAckBundles (Some (Pb.AB_Upvotes votes))) -> Forall (fun x => 0 <= x) votes.

Lemma requested_m4_wf a m : (forall votes, a = Pb.mkAckBundles (Some (Pb.AB_Upvotes votes)) -> Forall (fun x => 0 <= x) votes) ->
  ack_bundles_try_from a = Ok m -> message_wf (CM_M4 m).
Proof.
  destruct a as [[[| |votes]|]]; cbn; intros Hv Ha; try done; try (by injection Ha as <-).
  apply bind_Ok in Ha as (two & (Hok & _)%upvotes_ok & [= <-]); [|by apply Hv]. by destruct two.
Qed.

Lemma message_script_fits m script : coinbase_message_script m = Ok script -> message_fits m.
Proof.
  unfold coinbase_message_script, op_return_script, message_fits. intros Hs. destruct (Z_lt_le_dec (Z.of_nat (length (coinbase_message_data m))) (2 ^ 32)); [done|].
  by rewrite push_bytes_large in Hs.
Qed.

Lemma requested_wf r ms : votes_ok r -> requested_messages r = Ok ms ->
  exists m1s m2s m3s m4, ms = (CM_M1 <$> m1s) ++ (CM_M2 <$> m2s) ++ (CM_M3 <$> m3s) ++ [CM_M4 m4] /\
    Forall2 (fun p m => m1_try_from p = Ok m) (propose_sidechains r) m1s /\ Forall2 (fun a m => m2_try_from a = Ok m) (ack_sidechains r) m2s /\
    Forall2 (fun p m => m3_try_from p = Ok m) (propose_bundles r) m3s /\ (a ← req_ack_bundles r; Some (ack_bundles_try_from a)) = Some (Ok m4) /\
    Forall message_wf ms.
Proof.
  intros Hv. unfold requested_messages. intros (ms1 & (m1s & -> & H1')%pushed_messages & Hr)%bind_Ok.
  apply bind_Ok in Hr as (ms2 & (m2s & -> & H2')%pushed_messages & Hr). apply bind_Ok in Hr as (ms3 & (m3s & -> & H3')%pushed_messages & Hr).
  apply bind_Ok in Hr as (a & Ha%ok_or_Ok & Hr). apply bind_Ok in Hr as (m4 & Hm%map_err_Ok & [= <-]).
  exists m1s, m2s, m3s, m4. rewrite Ha. cbn. rewrite Hm. split_and!; [by rewrite <- !app_assoc|done..|].
  rewrite !Forall_app, !Forall_fmap, Forall_singleton. split_and!.
  - by apply Forall_true.
  - apply Forall_forall. intros m Hin. apply list_elem_of_lookup in Hin as [i Hi]. eapply Forall2_lookup_r in H2' as (x & _ & Hx); [|done]. by eapply m2_hash_length.
  - apply Forall_forall. intros m Hin. apply list_elem_of_lookup in Hin as [i Hi]. eapply Forall2_lookup_r in H3' as (x & _ & Hx); [|done]. by eapply m3_txid_length.
  - eapply requested_m4_wf; [|done]. intros votes ->. by apply Hv.
Qed.
End Psbt.

(** The transaction that [GetCoinbasePSBT] answers with has one output for every
    message of the request, in the order M1, M2, M3, M4, which the validator reads back
    as exactly that message. *)
Theorem coinbase_psbt_read_back `{Bitcoin, !BitcoinLaws, Nom, !NomLaws, ProtoLib, !ProtoLaws} r tx :
  votes_ok r -> coinbase_psbt r = Ok tx ->
  exists m1s m2s m3s m4,
    Forall2 (fun p m => m1_try_from p = Ok m) (propose_sidechains r) m1s /\ Forall2 (fun a m => m2_try_from a = Ok m) (ack_sidechains r) m2s /\
    Forall2 (fun p m => m3_try_from p = Ok m) (propose_bundles r) m3s /\ (a ← req_ack_bundles r; Some (ack_bundles_try_from a)) = Some (Ok m4) /\
    Forall2 (fun o m => value o = 0 /\ coinbase_message_parse (script_pubkey o) = Some ([], m)) (output tx)
      ((CM_M1 <$> m1s) ++ (CM_M2 <$> m2s) ++ (CM_M3 <$> m3s) ++ [CM_M4 m4]).
Proof.
  intros Hv. unfold coinbase_psbt. intros (ms & (m1s & m2s & m3s & m4 & -> & ? & ? & ? & ? & Hwf)%requested_wf & Hr)%bind_Ok; [|done].
  exists m1s, m2s, m3s, m4. split_and!; [done..|]. apply bind_Ok in Hr as (outs & Ho & [= <-]). cbn [output].
  apply (foldM_snoc_Forall2 _ (fun m o => value o = 0 /\ coinbase_message_parse (script_pubkey o) = Some ([], m))) in Ho as (os & -> & Hos).
  - cbn. by apply Forall2_flip in Hos.
  - intros acc m outs' Hm Hs. apply bind_Ok in Hs as (script & Hs%map_err_Ok & [= <-]). eexists. split; [reflexivity|]. split; [done|]. cbn.
    eapply Forall_forall in Hwf; [|done]. destruct (coinbase_message_parse_script m Hwf (message_script_fits _ _ Hs)) as [Hs' Hp]. congruence.
Qed.

(** What a vote of [GetCoinbasePSBT] means depends on the other votes: the index 254 is
    the one-byte alarm, unless some other vote does not fit a byte. The builder of the
    block producer's own votes keeps an index of 254 in two bytes. *)
Theorem upvote_read_as_alarm :
  ack_bundles_try_from (Pb.mkAckBundles (Some (Pb.AB_Upvotes [254]))) = Ok (OneByte [ALARM_ONE_BYTE]) /\
  ack_bundles_try_from (Pb.mkAckBundles (Some (Pb.AB_Upvotes [254; 256]))) = Ok (TwoBytes [254; 256]).
Proof. by split; vm_compute. Qed.

(** ** What the block producer's service stores *)

Section Bundles.
Context `{Bitcoin, Nom, TxCodec, ProtoLib}.
Implicit Types (v : Validator) (db : PolicyDb).

Lemma slot_active v active n :
  slots_named (active_sidechains (v_dbs v)) -> get_active_sidechains v = Ok active ->
  existsb (fun sc => bool_decide (sp_sidechain_number (sc_proposal sc) = n)) active = bool_decide (is_Some (sidechain (active_sidechains (v_dbs v)) !! n)).
Proof.
  intros Hn Ha. apply eq_iff_eq_true. rewrite bool_decide_eq_true, <- (used_slots_active v active n Hn Ha), existsb_exists.
  unfold used_slots. rewrite elem_of_list_to_set, list_elem_of_fmap. setoid_rewrite list_elem_of_In. setoid_rewrite bool_decide_eq_true. naive_solver.
Qed.

(** Where the bundle goes: the store keeps it as pending, unless the chain has paid
    it out. *)
Definition bundle_stored v db (n : SidechainNumber) (m : BlindedM6) (r : option (Res ConnectError (PolicyDb * M6id))) (new : list (BlockHash * BlockInfo)) : Prop :=
  let m6id := blinded_compute_m6id m in
  exists db1, Policy.reconcile v db = Some (Ok (db1, Some (Z.of_nat (length new) - 1))) /\
    if paid_in new db1 n m6id then r = Some (Err (mkConnectError AlreadyExists D_Display))
    else exists db', r = Some (Ok (db', m6id)) /\ marks_match new db' /\
           (exists r, r ∈ bundle_rows db' /\ bundle_is n m6id r) /\ forall r, r ∈ bundle_rows db' -> bundle_is n m6id r -> settled_in r = None.

Lemma put_bundle_stored v db tip new n m :
  let b := block_hashes (v_dbs v) in let act := bip300_activation_height (v_network_params v) in
  chain_wf b -> current_chain_tip (v_dbs v) = Some tip -> tip <> all_zeros -> chain_to b tip new -> 0 <= act ->
  Forall quiet (take (Z.to_nat act) new) -> cursor_ok v db ->
  bundle_stored v db n m (omap_err put_withdrawal_bundle_status (put_withdrawal_bundle v db n m)) new.
Proof.
  intros b act Hwf Ht Hz Hc Hact Hq Hcur. destruct (put_withdrawal_bundle_spec v db tip new n m Hwf Ht Hz Hc Hact Hq Hcur) as (db1 & Hr & _ & Hp).
  exists db1. split; [done|]. destruct (paid_in _ _ _ _); [by rewrite Hp|]. destruct Hp as (db' & -> & _ & Hm & _ & Hin & Hs). by exists db'.
Qed.
End Bundles.

