(* ===== verification/ServiceProofs.v ===== *)
(** * Theorems on the producer's, the crypto and the wallet's services

    Submitted proposals, the stream of their confirmations, policies, signatures, and
    what the wallet's service makes of a request. *)

From Stdlib Require Import Strings.Byte Strings.String.
From stdpp Require Import base numbers list gmap strings.
From S2P Require Import Prelude OrderMap Bitcoin Types Messages M6 Dbs BlockHashes Treasury Diff Reversible Handlers ConnectBlock Enforcer Sync Facade FacadeProofs SeedStore P2p Wallet WalletProofs Policy PolicyProofs Producer ProducerProofs Mining Mine Proto Server ProducerServer WalletServer ServerProofs.
Open Scope Z_scope.

(** ** Proposals *)

Section Proposals.
Context `{Bitcoin, Nom, TxCodec, ProtoLib}.
Implicit Types (v : Validator) (db : PolicyDb).

(** The store holds the proposal, and no block has mined it. *)
Definition already_queued db (n : SidechainNumber) (hash : Hash) : Prop :=
  List.Exists (row_is n hash) (proposal_rows db) /\ Forall (fun r => row_is n hash r -> mined_in r = None) (proposal_rows db).
#[global] Instance already_queued_dec db n hash : Decision (already_queued db n hash).
Proof. unfold already_queued. apply _. Defined.

Lemma requeued_nil db n hash :
  filter (fun r => row_is n hash r /\ mined_in r <> None) (proposal_rows db) = [] <-> Forall (fun r => row_is n hash r -> mined_in r = None) (proposal_rows db).
Proof.
  rewrite Forall_forall. split.
  - intros E r Hr Hi. destruct (decide (mined_in r = None)) as [|Hm]; [done|]. exfalso. apply (not_elem_of_nil r). rewrite <- E. by apply list_elem_of_filter.
  - intros Hall. destruct (filter _ _) as [|r l] eqn:E; [done|]. exfalso. assert (Hr : r ∈ r :: l) by left. rewrite <- E in Hr.
    apply list_elem_of_filter in Hr as [[Hi Hm] Hr]. by apply Hm, Hall.
Qed.

(** Queueing a proposal in the store [db1] that the reconciliation leaves *)
Definition queued_in (new : list (BlockHash * BlockInfo)) (tip : BlockHash) (p : SidechainProposal) db1 db' : Prop :=
  let hash := sha256d (sp_description p) in let n := sp_sidechain_number p in
  policy_tip db' = Some tip /\ marks_match new db' /\
  filter (fun r => ~ row_is n hash r) (proposal_rows db') = filter (fun r => ~ row_is n hash r) (proposal_rows db1) /\
  bundle_rows db' = bundle_rows db1 /\
  exists r, r ∈ proposal_rows db' /\ row_is n hash r /\ mined_in r = None /\
    (Forall (fun r => ~ row_is n hash r) (proposal_rows db1) -> pr_data r = sp_description p).

Lemma filter_requeued n hash h (rows : list ProposalRow) :
  filter (fun r => ~ row_is n hash r) ((fun r => if decide (row_is n hash r /\ mined_in r <> None) then mkProposalRow n hash (pr_data r) None h else r) <$> rows)
  = filter (fun r => ~ row_is n hash r) rows.
Proof.
  induction rows as [|r rows IH]; [done|]. rewrite fmap_cons, !filter_cons, IH. destruct (decide (row_is n hash r /\ _)) as [[Hr _]|Hn]; [|done].
  rewrite (decide_False (P := ~ row_is n hash r)) by tauto. rewrite decide_False; [done|]. intros Hx. by apply Hx.
Qed.

Lemma propose_queued v db db1 tip new p : let hash := sha256d (sp_description p) in
  reconcile v db = Some (Ok (db1, Some (Z.of_nat (length new) - 1))) -> policy_tip db1 = Some tip -> marks_match new db1 ->
  if decide (already_queued db1 (sp_sidechain_number p) hash) then policy_propose_sidechain v db p = Some (Err PE_Unique)
  else exists db', policy_propose_sidechain v db p = Some (Ok (db', tt)) /\ queued_in new tip p db1 db'.
Proof.
  intros hash Hr Ht [Hp Hb]. unfold policy_propose_sidechain, reconciled. rewrite Hr. cbn. fold hash. set (n := sp_sidechain_number p).
  destruct (decide (filter _ _ = [])) as [Hn|Hn].
  - apply requeued_nil in Hn. case_decide as Hq; [by rewrite decide_True by apply Hq|].
    rewrite decide_False by (intros ?; by apply Hq). eexists. split; [done|]. split_and!; [done|split| |done|].
    + apply Forall_app. split; [exact Hp|]. constructor; [apply queued_proposal|constructor].
    + exact Hb.
    + cbn -[filter]. rewrite filter_app, filter_cons_False, filter_nil, app_nil_r; [done|]. intros Hx. by apply Hx.
    + eexists. split; [apply elem_of_app; right; by apply list_elem_of_singleton|done].
  - case_decide as Hq; [by destruct Hq as [_ Hq%requeued_nil]|]. eexists. split; [done|].
    destruct (filter (fun r => row_is n hash r /\ mined_in r <> None) (proposal_rows db1)) as [|r l] eqn:E; [done|].
    assert (Hin : r ∈ r :: l) by left. rewrite <- E in Hin. apply list_elem_of_filter in Hin as [Hrow Hin]. split_and!; [done|split| |done|].
    + cbn. apply Forall_fmap. eapply Forall_impl; [exact Hp|]. intros r' Hr'. cbn. case_decide; [apply queued_proposal|done].
    + exact Hb.
    + apply filter_requeued.
    + exists (mkProposalRow n hash (pr_data r) None (Some (Z.of_nat (length new) - 1))). split_and!; [|done..|].
      * cbn. apply list_elem_of_fmap. exists r. split; [|done]. by rewrite decide_True.
      * intros Hall. eapply Forall_forall in Hall; [|done]. by destruct Hrow.
Qed.

Lemma tip_height v tip new : chain_wf (block_hashes (v_dbs v)) -> current_chain_tip (v_dbs v) = Some tip -> tip <> all_zeros ->
  chain_to (block_hashes (v_dbs v)) tip new -> try_get_block_height v = Ok (Some (Z.of_nat (length new) - 1)).
Proof.
  intros Hwf Ht Hz Hc. unfold try_get_block_height. rewrite Ht. destruct (chain_to_height _ Hwf _ _ Hc) as [[? _]|[Hh _]]; [done|].
  unfold db_get. by rewrite Hh.
Qed.

Lemma activation_gate v impossible tip new : let act := bip300_activation_height (v_network_params v) in
  chain_wf (block_hashes (v_dbs v)) -> current_chain_tip (v_dbs v) = Some tip -> tip <> all_zeros -> chain_to (block_hashes (v_dbs v)) tip new ->
  Z.of_nat (length new) <= u32_max ->
  ensure_bip300_activation_height_reached v impossible =
  if bool_decide (act <= Z.of_nat (length new)) then Ok tt else Err (mkConnectError FailedPrecondition (D_BeforeActivation act impossible)).
Proof.
  intros act Hwf Ht Hz Hc Hl. unfold ensure_bip300_activation_height_reached. rewrite (tip_height v tip new) by done. cbn. fold act.
  unfold saturating_incr_u32. rewrite Z.sub_add, Z.min_r by done. repeat case_bool_decide; by try lia.
Qed.
End Proposals.

(** What the types of a declaration say: the strings are UTF-8, the hashes have their sizes;
    and it is small enough for a push of a script. *)
Definition declaration_fits (d : SidechainDeclaration) : Prop :=
  utf8_valid (sd_title d) = true /\ utf8_valid (sd_description d) = true /\
  length (sd_hash_id_1 d) = 32%nat /\ length (sd_hash_id_2 d) = 20%nat /\ Z.of_nat (length (sd_title d) + length (sd_description d)) < 2 ^ 31.

(** The M1 message of a declaration; it reads back exactly if its title has at most 255 bytes. *)
Lemma declaration_written `{Bitcoin, !BitcoinLaws, Nom, !NomLaws} n d :
  declaration_fits d ->
  exists out description, create_sidechain_proposal n d = Ok (out, description) /\
    coinbase_message_parse (script_pubkey out) = Some ([], CM_M1 (mkM1 n description)) /\
    (sidechain_declaration_try_from description = Ok d <-> (length (sd_title d) < 256)%nat).
Proof.
  intros (Ht & Hd & Hh1 & Hh2 & Hl).
  assert (Hc : exists out description, create_sidechain_proposal n d = Ok (out, description) /\
    coinbase_message_parse (script_pubkey out) = Some ([], CM_M1 (mkM1 n description))).
  { unfold create_sidechain_proposal. set (description := [x00] ++ _).
    destruct (coinbase_message_parse_script (CM_M1 (mkM1 n description))) as [Hs Hp]; [done| |].
    { unfold message_fits. cbn [coinbase_message_data]. subst description. rewrite !length_app, Hh1, Hh2. cbn [length M1_TAG]. lia. }
    rewrite Hs. by eexists _, _. }
  destruct Hc as (out & description & Hc & Hp). exists out, description. split_and!; [done..|]. split.
  - intros E. destruct (decide (256 <= length (sd_title d))%nat) as [Hge|]; [|lia]. by destruct (long_title_does_not_roundtrip n d out description Hge Hc).
  - intros Hlt. destruct (sidechain_proposal_roundtrip n d) as (out' & description' & Hc' & _ & Hr); [done..|lia|].
    rewrite Hc in Hc'. by injection Hc' as <- <-.
Qed.

(** C24. [SubmitSidechainProposal] of a declaration, from its message to the M1 message of
    a coinbase. Below the activation height it is refused. Afterwards the store is
    reconciled, so that its marks are those of the chain. If the proposal is pending in it
    already, that is the answer; otherwise it is pending in the store that results, which is
    still in line with the chain and has the other rows unchanged. The description that is
    stored for a new proposal is that of an M1 message for the slot, and it reads back as the
    declaration exactly if the title has at most 255 bytes; a longer one is accepted
    nevertheless. The cursor of the store is at a block whose chain the marks match, with at
    most one block per row that hits it, or at one that the validator does not know. *)
Theorem submit_sidechain_proposal_spec `{Bitcoin, !BitcoinLaws, Nom, !NomLaws, TxCodec, ProtoLib, !ProtoLaws} v db tip new n d :
  let b := block_hashes (v_dbs v) in let act := bip300_activation_height (v_network_params v) in
  let r := submit_sidechain_proposal v db (Some (u8_val n)) (Some (declaration_to_proto d)) in
  chain_wf b -> current_chain_tip (v_dbs v) = Some tip -> tip <> all_zeros -> chain_to b tip new -> 0 <= act ->
  Forall quiet (take (Z.to_nat act) new) -> cursor_ok v db -> Z.of_nat (length new) <= u32_max -> declaration_fits d ->
  if bool_decide (act <= Z.of_nat (length new)) then
    exists out description db1, create_sidechain_proposal n d = Ok (out, description) /\
      coinbase_message_parse (script_pubkey out) = Some ([], CM_M1 (mkM1 n description)) /\
      (sidechain_declaration_try_from description = Ok d <-> (length (sd_title d) < 256)%nat) /\
      reconcile v db = Some (Ok (db1, Some (Z.of_nat (length new) - 1))) /\ marks_match new db1 /\ same_rows db db1 /\
      if decide (already_queued db1 n (sha256d description)) then r = Some (Err (mkConnectError AlreadyExists (D_Text "Sidechain proposal already exists")))
      else exists db', r = Some (Ok (db', tt)) /\ queued_in new tip (mkSidechainProposal n description) db1 db'
  else r = Some (Err (mkConnectError FailedPrecondition (D_BeforeActivation act "a sidechain proposal cannot confirm"))).
Proof.
  intros b act r Hwf Ht Hz Hc Hact Hq Hcur Hl Hd.
  subst r. unfold submit_sidechain_proposal, create_and_persist_sidechain_proposal. rewrite (activation_gate v _ tip new) by done. fold act.
  case_bool_decide; [|done]. destruct (declaration_written n d Hd) as (out & description & Hcr & Hp & Hpd). destruct Hd as (_ & _ & Hh1 & Hh2 & _).
  destruct (reconciled_in_line v db tip new Hwf Ht Hz Hc Hact Hq Hcur) as (db1 & Hr & Ht1 & Hm & Hs).
  exists out, description, db1. split_and!; [done..|]. rewrite parse_sidechain_id_slot. cbn -[declaration_from_proto declaration_to_proto create_sidechain_proposal policy_propose_sidechain].
  rewrite declaration_roundtrip by done. cbn -[create_sidechain_proposal policy_propose_sidechain]. rewrite Hcr. cbn -[policy_propose_sidechain].
  pose proof (propose_queued v db db1 tip new (mkSidechainProposal n description) Hr Ht1 Hm) as Hprop. cbn [sp_sidechain_number sp_description] in Hprop.
  destruct (decide (already_queued _ _ _)); [by rewrite Hprop|]. destruct Hprop as (db' & -> & Hrow). by exists db'.
Qed.

(** ** Confirmations *)

Section Confirmations.
Context `{ProtoLib}.
Implicit Types (blocks : list (HeaderInfo * BlockInfo)).

(** Where a block has the proposal *)
Definition proposal_outpoint (p : SidechainProposal) (b : HeaderInfo * BlockInfo) : option OutPoint :=
  mkOutPoint (bi_coinbase_txid b.2) <$> proposal_vout p b.2.

(** Blocks that follow each other *)
Fixpoint consecutive blocks : Prop :=
  match blocks with
  | a :: (b :: _) as rest => hi_prev_block_hash b.1 = hi_block_hash a.1 /\ consecutive rest
  | _ => True
  end.

(** The response to a block, given the outpoint of the last block with the proposal *)
Definition proposal_response (last_seen : option OutPoint) (hi : HeaderInfo) : ProposalResponse :=
  let enc := reverse_hex_encode hash_codec in
  match last_seen with
  | Some o => PR_Confirmed (enc (hi_block_hash hi)) 1 (hi_height hi) (out_point_to_proto o) (enc (hi_prev_block_hash hi))
  | None => PR_NotConfirmed (enc (hi_block_hash hi)) (hi_height hi) (enc (hi_prev_block_hash hi))
  end.

Fixpoint responses (p : SidechainProposal) (seen : option OutPoint) blocks : list ProposalResponse :=
  match blocks with
  | [] => []
  | b :: blocks => let seen := match proposal_outpoint p b with Some o => Some o | None => seen end in proposal_response seen b.1 :: responses p seen blocks
  end.

Lemma responses_last p seen blocks :
  responses p seen blocks = imap (fun i b => proposal_response (match last (omap (proposal_outpoint p) (take (S i) blocks)) with Some o => Some o | None => seen end) b.1) blocks.
Proof.
  revert seen. induction blocks as [|b blocks IH]; intros seen; [done|]. cbn [responses imap]. rewrite IH. f_equal.
  - cbn. by destruct (proposal_outpoint p b).
  - apply imap_ext. intros i b' _. cbn [compose]. f_equal. cbn. destruct (proposal_outpoint p b) as [o|]; [|done].
    rewrite last_cons. by destruct (last _).
Qed.

(** With the state of the stream before the first block, which does not know the hashes to come *)
Lemma proposal_events_responses (p : SidechainProposal) (c : Confirmations) (seen : option OutPoint) blocks :
  consecutive blocks -> NoDup (hi_block_hash ∘ fst <$> blocks) -> Forall (fun b => c !! hi_block_hash b.1 = None) blocks ->
  (forall b, head blocks = Some b -> c !! hi_prev_block_hash b.1 = pair 1 <$> seen) ->
  proposal_events p c ((fun b => Some (ConnectBlock b.1 b.2)) <$> blocks) = Ok <$> responses p seen blocks.
Proof.
  revert c seen. induction blocks as [|[hi bi] blocks IH]; intros c seen Hc Hnd Hfresh Hhead; [done|].
  cbn [fmap list_fmap proposal_events responses]. unfold proposal_event, connect_block_event, proposal_outpoint. cbn [fst snd].
  pose proof (Hhead _ eq_refl) as Hp. cbn [fst] in Hp. rewrite Hp. apply Forall_cons in Hfresh as [Hf Hfresh]. apply NoDup_cons in Hnd as [Hnin Hnd].
  assert (Hfresh' : forall x, Forall (fun b => (<[hi_block_hash hi := x]> c : Confirmations) !! hi_block_hash b.1 = None) blocks).
  { intros x. apply Forall_forall. intros b Hb. rewrite lookup_insert_ne; [by eapply Forall_forall in Hfresh|]. intros E. apply Hnin, list_elem_of_fmap. exists b. by split. }
  assert (Hc' : consecutive blocks) by (destruct blocks; [done|apply Hc]).
  assert (Hprev : forall b, head blocks = Some b -> hi_prev_block_hash b.1 = hi_block_hash hi) by (intros b; destruct blocks; [done|]; intros [= <-]; apply Hc).
  destruct (proposal_vout p bi) as [vout|]; [|destruct seen as [o|]]; cbn; f_equal; apply IH; try done.
  - intros b Hb. by rewrite (Hprev b Hb), lookup_insert_eq.
  - intros b Hb. by rewrite (Hprev b Hb), lookup_insert_eq.
  - intros b Hb. by rewrite (Hprev b Hb).
Qed.
End Confirmations.

(** C34. What [CreateSidechainProposal] streams while blocks follow each other: a block is
    answered as confirmed exactly when it or one of the blocks before it since the call
    has the proposal, with the place of the last one that has it. The number of
    confirmations is one in every answer, however many blocks are on top. *)
Theorem proposal_confirmations `{ProtoLib} p (blocks : list (HeaderInfo * BlockInfo)) :
  consecutive blocks -> NoDup (hi_block_hash ∘ fst <$> blocks) ->
  stream_proposal_confirmations p ((fun b => Some (ConnectBlock b.1 b.2)) <$> blocks) =
  imap (fun i b => Ok (proposal_response (last (omap (proposal_outpoint p) (take (S i) blocks))) b.1)) blocks.
Proof.
  intros Hc Hnd. unfold stream_proposal_confirmations. rewrite (proposal_events_responses p ∅ None); [|done|done| |].
  - rewrite responses_last, fmap_imap. apply imap_ext. intros i b _. cbn [compose]. by destruct (last _).
  - apply Forall_forall. intros b _. apply lookup_empty.
  - intros b _. by rewrite lookup_empty.
Qed.

(** ** Policies *)

Lemma ack_policy_roundtrip p : ack_policy_from_proto (Pb.Known (ack_policy_to_proto p)) = Some p.
Proof. by destruct p. Qed.
Lemma bundle_policy_roundtrip p : bundle_policy_from_proto (Pb.Known (bundle_policy_to_proto p)) = Some p.
Proof. by destruct p. Qed.

(** ** Signatures *)

Section Signatures.
Context `{ProtoLib, !ProtoLaws, CryptoLib, !CryptoLaws}.

Lemma required_hex_roundtrip message field b : required_hex of_hex message field (Some (hex_encode_ b)) = Ok b.
Proof. change (map_err proto_status (hex_decode_ of_hex message field (hex_encode_ b)) = Ok b). by rewrite hex_roundtrip. Qed.
Lemma required_array_roundtrip n message field b : length b = n ->
  required_consensus_hex (array_codec n) message field (Some (consensus_hex_encode (array_codec n) b)) = Ok b.
Proof.
  intros Hb. change (map_err proto_status (consensus_hex_decode (array_codec n) message field (consensus_hex_encode (array_codec n) b)) = Ok b).
  by rewrite (consensus_hex_roundtrip (array_codec n) (fun b => length b = n)).
Qed.
End Signatures.

(** A client that signs a message with a key and verifies the signature with the public
    key of the service, all over RPC, is told that it is valid. *)
Theorem signed_message_verifies `{ProtoLib, !ProtoLaws, CryptoLib, !CryptoLaws} message key signature public_key :
  secp256k1_sign (Some (hex_encode_ message)) (Some key) = Ok signature ->
  secp256k1_secret_key_to_public_key (Some key) = Ok public_key ->
  secp256k1_verify (Some (hex_encode_ message)) (Some signature) (Some public_key) = Ok true.
Proof.
  unfold secp256k1_sign, secp256k1_secret_key_to_public_key, secp256k1_verify. rewrite !required_hex_roundtrip. cbn [mbind Res_bind].
  intros (sk & Hsk & [= <-])%bind_Ok (sk' & Hsk' & [= <-])%bind_Ok.
  rewrite required_hex_roundtrip. cbn [mbind Res_bind]. rewrite compact_length, bool_decide_eq_true_2 by done. cbn [negb]. rewrite compact_roundtrip. cbn [ok_or mbind Res_bind].
  unfold parse_key. rewrite required_array_roundtrip by apply pk_length. cbn [mbind Res_bind]. rewrite pk_roundtrip. cbn [ok_or mbind Res_bind].
  unfold parse_key in Hsk, Hsk'. apply bind_Ok in Hsk as (b & Hb & Hsk%ok_or_Ok). apply bind_Ok in Hsk' as (b' & Hb' & Hsk'%ok_or_Ok).
  unfold required_consensus_hex, consensus_hex_decode in Hb, Hb'. res_inv. simplify_eq. by rewrite sign_verify.
Qed.

(** ** The wallet's service *)

Lemma request_active v n active : slots_named (active_sidechains (v_dbs v)) -> is_sidechain_active v n = Ok active ->
  active = bool_decide (is_Some (sidechain (active_sidechains (v_dbs v)) !! n)).
Proof. intros Hn. unfold is_sidechain_active. intros (l & Hl & [= <-])%bind_Ok. by apply slot_active. Qed.

(** A BMM request over RPC that succeeds is for an active sidechain and on the current
    tip; the transaction is one that the validator reads as the request of that slot for
    the tip, so that a block on the tip may include it, and is locked to the height of
    the request. *)
Theorem bmm_rpc_request `{Bitcoin, !BitcoinLaws, !ReturnLaws, Nom, !NomLaws, ProtoLib, !ProtoLaws} send peers w `{!BdkLaws w} v r tx id :
  slots_named (active_sidechains (v_dbs v)) ->
  create_bmm_critical_data_transaction send peers v (Some w) r = Ok (tx, id) ->
  exists n h p, bd_sidechain_id r ≫= sidechain_number_try_from = Some n /\ is_Some (sidechain (active_sidechains (v_dbs v)) !! n) /\
    current_chain_tip (v_dbs v) = Some p /\ parse_m8_tx tx = Some (mkM8 n h p) /\ handle_m8 tx None p = Ok true /\
    bd_height r = Some (lock_time tx) /\ lock_time tx < LOCK_TIME_THRESHOLD /\ id = reverse_hex_encode hash_codec (compute_txid tx).
Proof.
  intros Hn. unfold create_bmm_critical_data_transaction. intros ([[[[n p] h] amount] locktime] & Hreq & Hc)%bind_Ok.
  apply bind_Ok in Hc as (tx' & Hc%map_err_Ok & [= -> <-]). unfold bmm_data_request in Hreq.
  apply bind_Ok in Hreq as (a' & _ & Hreq). apply bind_Ok in Hreq as (k & Hk%ok_or_Ok & Hreq). apply bind_Ok in Hreq as (l & Hl & Hreq).
  apply bind_Ok in Hreq as (n' & Hslot & Hreq). apply bind_Ok in Hreq as (active & Hact%map_err_Ok & Hreq).
  apply (request_active v n' active Hn) in Hact. destruct active; [|done]. symmetry in Hact. apply bool_decide_eq_true_1 in Hact. cbn [negb] in Hreq.
  apply bind_Ok in Hreq as (h' & Hh & Hreq). apply bind_Ok in Hreq as (p' & Hp & Hreq). apply bind_Ok in Hreq as (tip & Htip%map_err_Ok & Hreq).
  case_bool_decide as Heq; [|done]. injection Hreq as -> -> -> -> ->. case_bool_decide as Hlock; [|done]. injection Hl as ->.
  assert (Hlh : length h = 32%nat) by (unfold required_consensus_hex, consensus_hex_decode in Hh; res_inv; by eapply array_hex_length).
  assert (Hlp : length p = 32%nat) by (unfold required_reverse_hex, reverse_hex_decode in Hp; res_inv; by eapply array_length).
  destruct (bmm_request_outputs send peers w v n p h amount locktime tx Hlh Hlp Hc) as [Hm Ht].
  unfold get_mainchain_tip in Htip. apply ok_or_Ok in Htip. subst tip. exists n, h, p. split_and!; [|done|done|done| |by rewrite Hk, Ht|by rewrite Ht|done].
  - unfold parse_sidechain_id in Hslot. apply bind_Ok in Hslot as (raw & Hraw%ok_or_Ok & Hs%ok_or_Ok). by rewrite Hraw.
  - unfold handle_m8. rewrite Hm. cbn. by rewrite decide_True.
Qed.

(** A deposit over RPC that succeeds is a deposit that the validator counts: to the
    sidechain, the address and of the amount of the request, which are checked to be an
    active sidechain, not empty and not zero. *)
Theorem deposit_rpc_accepted `{Bitcoin, !BitcoinLaws, !ReturnLaws, Nom, !NomLaws, ProtoLib} hmac_in hmac_out fetch send peers rpc_code w `{!BdkLaws w}
    v bh u slot address val fee id applied parent acc :
  bh_params bh = v_network_params v -> op_ok (op_drivechain (v_network_params v)) -> slots_named (active_sidechains (v_dbs v)) -> 0 <= val ->
  (forall o, knows_utxo w o = true -> ctip_outpoint_to_value_seq (active_sidechains (v_dbs v)) !! o = None /\ by_outpoint u !! o = None) ->
  create_deposit_transaction hmac_in hmac_out fetch send peers rpc_code v (Some w) (Some slot) (Some address) (Some val) (Some fee) = Ok (id, applied) ->
  exists n tx, sidechain_number_try_from slot = Some n /\ applied = [tx] /\ id = reverse_hex_encode hash_codec (compute_txid tx) /\
    address <> [] /\ val <> 0 /\ is_Some (sidechain (active_sidechains (v_dbs v)) !! n) /\
    exists diff u', handle_transaction bh (v_dbs v) acc u parent tx =
      Ok (Some (Deposits {[n := mkDeposit (default 0 (treasury_utxo_count (active_sidechains (v_dbs v)) !! n)) (mkOutPoint (compute_txid tx) 0) address val]}, diff), u').
Proof.
  intros Hbh Hop Hn Hval Hcoins. unfold create_deposit_transaction. intros ([[[n a] x] f] & Hreq & Hc)%bind_Ok.
  apply bind_Ok in Hc as ([txid ap] & Hc%map_err_Ok & [= <- <-]). unfold deposit_request in Hreq. cbn [ok_or] in Hreq.
  apply bind_Ok in Hreq as (n' & Hslot & Hreq). cbn [mbind Res_bind] in Hreq. case_bool_decide as Ha; [done|]. cbn [mbind Res_bind] in Hreq.
  case_bool_decide as Hv; [done|]. cbn [mbind Res_bind] in Hreq. apply bind_Ok in Hreq as (active & Hact%map_err_Ok & Hreq).
  apply (request_active v n' active Hn) in Hact. destruct active; [|done]. symmetry in Hact. apply bool_decide_eq_true_1 in Hact. injection Hreq as -> <- <- <-.
  destruct (created_deposit hmac_in hmac_out fetch send peers w v n address val (Some fee) txid ap Hop Hc) as (tx & -> & -> & Hpush & Hs).
  unfold parse_sidechain_id in Hslot. apply bind_Ok in Hslot as (raw & [= <-]%ok_or_Ok & Hsl%ok_or_Ok).
  exists n, tx. split_and!; [done..|]. rewrite <- Hbh in Hop, Hs.
  rewrite (deposit_handled w bh (v_dbs v) u n val address tx Hop Hpush Hs Hact Hcoins parent acc) by lia. unfold deposit_event. by do 2 eexists.
Qed.

(** Two strings for one address, such as a bech32 address in lower and in upper case,
    are one destination: the amount of one of them is not paid. *)
Theorem duplicate_destination_dropped {Address} `{Countable Address} (from_str : bytes -> option Address) (require : Network -> Address -> bool)
    (script_of : Address -> bytes) (is_dust : Amount -> bytes -> bool) (to_string : Address -> bytes) v s1 s2 a v1 v2 :
  from_str s1 = Some a -> from_str s2 = Some a -> require (v_network v) a = true -> is_dust v1 (script_of a) = false -> is_dust v2 (script_of a) = false ->
  validate_destinations from_str require script_of is_dust to_string v [(s1, v1); (s2, v2)] = Ok {[a := v2]}.
Proof.
  intros E1 E2 Hr D1 D2. unfold validate_destinations, destination, parse_checked_address. cbn. rewrite E1. cbn. rewrite Hr. cbn. rewrite D1. cbn.
  rewrite E2. cbn. rewrite Hr. cbn. rewrite D2. cbn. by rewrite insert_insert_eq.
Qed.

(** A mnemonic of 24 words is refused, though the message's documentation names it. *)
Theorem mnemonic_of_24_words_rejected `{SeedLib} read split words password :
  length words = 24%nat ->
  create_wallet_request read split false words [] password = Err (mkConnectError InvalidArgument (D_Text "mnemonic must be 12 words")).
Proof.
  intros Hl. unfold create_wallet_request. rewrite (bool_decide_eq_true_2 ([] = [])), andb_false_r by done. cbn.
  rewrite bool_decide_eq_false_2 by (by intros ->). by rewrite bool_decide_eq_false_2 by (rewrite Hl; lia).
Qed.

(** A request for the bundles of a slot without a slot is answered with an error about
    another message. *)
Theorem bundle_proposals_error_names_peg_data `{ProtoLib} v :
  get_withdrawal_bundle_proposals v None = Err (proto_status (MissingField "sidechain_id" "cusf.mainchain.v1.GetTwoWayPegDataRequest")).
Proof. done. Qed.
