(* ===== verification/NodeChecks.v ===== *)
(** * Checks of the node at start-up

    [lib/node_checks.rs] and [lib/version.rs]: the node's version, pruning, its REST
    server, the endpoint of its notifications and its transaction index. The node's
    answers are arguments; a check that asks again takes the answers in order. *)

From Stdlib Require Import Strings.String.
From stdpp Require Import base numbers list gmap strings.
From S2P Require Import Prelude.
Open Scope Z_scope.

(** ** The version *)

Definition SUPPORTED_BITCOIN_CORE_MAJORS : list Z := [32; 31; 30].

(** [(version / 10_000) as u32] *)
Definition major_from_version_int (version : Z) : Z := (version / 10000) mod 2 ^ 32.

Record DetectedVersion := mkDetectedVersion { dv_version : Z; dv_subversion : string; dv_major : Z }.
(** The help of an unsupported version is made from the majors and whether they were expected. *)
Inductive VersionCheckError := VCE_Rpc | Unsupported (version : Z) (subversion : string) (allowed_majors : list Z) (explicit_expected : bool).

(** [info]: the version and subversion of [getnetworkinfo], [None] if the call fails *)
Definition check_bitcoin_core_version (info : option (Z * string)) (expected_major : option Z) (skip_check : bool) : Res VersionCheckError DetectedVersion :=
  '(version, subversion) ← ok_or VCE_Rpc info;
  let detected := mkDetectedVersion version subversion (major_from_version_int version) in
  if skip_check then Ok detected else
  let allowed_majors := match expected_major with Some m => [m] | None => SUPPORTED_BITCOIN_CORE_MAJORS end in
  if bool_decide (dv_major detected ∈ allowed_majors) then Ok detected
  else Err (Unsupported version subversion allowed_majors (bool_decide (is_Some expected_major))).

(** ** Pruning *)

Inductive PruneCheckError := PCE_Rpc | Pruned.
(** [pruned] of [getblockchaininfo] *)
Definition check_node_not_pruned (info : option bool) : Res PruneCheckError unit :=
  pruned ← ok_or PCE_Rpc info; if pruned : bool then Err Pruned else Ok tt.

(** ** The REST server *)

(** [MainRestClientError], with the status of an HTTP error *)
Inductive RestError := RestServerNotEnabled | Http (status : option Z) | OtherRestError.
#[global] Instance RestError_eq_dec : EqDecision RestError.
Proof. solve_decision. Defined.
Inductive RestServerCheckError := StillWarmingUp (retries : Z) (source : RestError) | RestFailed (source : RestError).
Definition SERVICE_UNAVAILABLE : Z := 503.
Definition MAX_RETRIES : Z := 180.

Section Loops.
Context {W : Type}.

(** The loop with [remaining] retries. *)
Fixpoint rest_loop (get_chain_info : W -> W * option RestError) (remaining : nat) (w : W) : W * Res RestServerCheckError bool :=
  match get_chain_info w with
  | (w, None) => (w, Ok true)
  | (w, Some RestServerNotEnabled) => (w, Ok false)
  | (w, Some (Http status)) =>
      if bool_decide (status = Some SERVICE_UNAVAILABLE) then
        match remaining with
        | O => (w, Err (StillWarmingUp MAX_RETRIES (Http status)))
        | S remaining => rest_loop get_chain_info remaining w
        end
      else (w, Err (RestFailed (Http status)))
  | (w, Some e) => (w, Err (RestFailed e))
  end.
Definition check_rest_server_available (get_chain_info : W -> W * option RestError) (w : W) := rest_loop get_chain_info (Z.to_nat MAX_RETRIES) w.

(** ** The transaction index *)

Record IndexInfo := mkIndexInfo { synced : bool; best_block_height : Z }.
Inductive TxindexCheckError := TCE_Rpc | NotEnabled.
(** The loop waits for the node, so its fuel is a parameter. *)
Fixpoint check_txindex (getindexinfo : W -> W * option (gmap string IndexInfo)) (fuel : nat) (w : W) : option (W * Res TxindexCheckError unit) :=
  match fuel with
  | O => None
  | S fuel =>
      match getindexinfo w with
      | (w, None) => Some (w, Err TCE_Rpc)
      | (w, Some indexes) =>
          match indexes !! "txindex" with
          | None => Some (w, Err NotEnabled)
          | Some txindex => if synced txindex then Some (w, Ok tt) else check_txindex getindexinfo fuel w
          end
      end
  end.
End Loops.

(** ** Notifications *)

Record ZmqNotification := mkZmqNotification { notification_type : string; zmq_address : string }.
Inductive ZmqSequenceCheckError := ZCE_Rpc | ZmqMissing.
Definition zmq_sequence_address (notifications : option (list ZmqNotification)) : Res ZmqSequenceCheckError string :=
  l ← ok_or ZCE_Rpc notifications;
  ok_or ZmqMissing (zmq_address <$> List.find (fun n => bool_decide (notification_type n = "pubsequence")) l).

(** ** Theorems *)

(** The world after [k] requests of the REST server. *)
Fixpoint after {W A} (ask : W -> W * A) (k : nat) (w : W) : W := match k with O => w | S k => after ask k (ask w).1 end.
Definition answer {W A} (ask : W -> W * A) (k : nat) (w : W) : A := (ask (after ask k w)).2.
Definition warming_up (e : option RestError) : Prop := e = Some (Http (Some SERVICE_UNAVAILABLE)).

Definition rest_verdict (e : option RestError) : Res RestServerCheckError bool :=
  match e with None => Ok true | Some RestServerNotEnabled => Ok false | Some e => Err (RestFailed e) end.

Lemma rest_loop_answers {W} (ask : W -> W * option RestError) n w :
  (exists k, (k <= n)%nat /\ (forall j, (j < k)%nat -> warming_up (answer ask j w)) /\ ~ warming_up (answer ask k w) /\
             rest_loop ask n w = (after ask (S k) w, rest_verdict (answer ask k w))) \/
  ((forall j, (j <= n)%nat -> warming_up (answer ask j w)) /\
   rest_loop ask n w = (after ask (S n) w, Err (StillWarmingUp MAX_RETRIES (Http (Some SERVICE_UNAVAILABLE))))).
Proof.
  revert w. induction n as [|n IH]; intros w; destruct (ask w) as [w1 a] eqn:E.
  all: assert (E0 : answer ask 0 w = a) by (by unfold answer; cbn; rewrite E).
  all: assert (ES : forall j, answer ask (S j) w = answer ask j w1) by (intros j; by unfold answer; cbn; rewrite E).
  all: assert (EA : forall j, after ask (S j) w = after ask j w1) by (intros j; cbn; by rewrite E).
  all: destruct (decide (a = Some (Http (Some SERVICE_UNAVAILABLE)))) as [->|Ha]; cbn [rest_loop]; rewrite E.
  - right. split; [intros j Hj; by replace j with 0%nat by lia|]. by rewrite bool_decide_eq_true_2, EA.
  - left. exists 0%nat. split_and!; [lia|lia|by rewrite E0|]. rewrite E0, EA. destruct a as [[|s|]|]; cbn; try done. by rewrite bool_decide_eq_false_2 by congruence.
  - rewrite bool_decide_eq_true_2 by done. destruct (IH w1) as [(k & Hk & Hj & Hn & ->)|[Hj ->]].
    + left. exists (S k). rewrite !ES, EA. split_and!; [lia| |done|done]. intros [|j] ?; [by rewrite E0|]. rewrite ES. apply Hj. lia.
    + right. rewrite EA. split; [|done]. intros [|j] ?; [by rewrite E0|]. rewrite ES. apply Hj. lia.
  - left. exists 0%nat. split_and!; [lia|lia|by rewrite E0|]. rewrite E0, EA. destruct a as [[|s|]|]; cbn; try done. by rewrite bool_decide_eq_false_2 by congruence.
Qed.

(** The check of the REST server asks at most 181 times, and answers with the first
    answer that is not a 503, or that the server is still warming up. *)
Theorem rest_check_bounded {W} (ask : W -> W * option RestError) w :
  (exists k, Z.of_nat k <= MAX_RETRIES /\ (forall j, (j < k)%nat -> warming_up (answer ask j w)) /\ ~ warming_up (answer ask k w) /\
             check_rest_server_available ask w = (after ask (S k) w, rest_verdict (answer ask k w))) \/
  ((forall j, Z.of_nat j <= MAX_RETRIES -> warming_up (answer ask j w)) /\
   (check_rest_server_available ask w).2 = Err (StillWarmingUp MAX_RETRIES (Http (Some SERVICE_UNAVAILABLE)))).
Proof.
  unfold check_rest_server_available. destruct (rest_loop_answers ask (Z.to_nat MAX_RETRIES) w) as [(k & Hk & ?)|[Hj E]].
  - left. exists k. split; [unfold MAX_RETRIES in *; lia|done].
  - right. rewrite E. split; [|done]. intros j ?. apply Hj. unfold MAX_RETRIES in *. lia.
Qed.

(** A node with the version [major.minor.revision] passes exactly when its major version
    is supported, or is the expected one. *)
Theorem version_accepted major minor revision subversion expected :
  0 <= major < 2 ^ 32 -> 0 <= minor < 100 -> 0 <= revision < 100 ->
  is_ok (check_bitcoin_core_version (Some (10000 * major + 100 * minor + revision, subversion)) expected false) = true <->
  match expected with Some m => major = m | None => major = 30 \/ major = 31 \/ major = 32 end.
Proof.
  intros Hm Hn Hr. unfold check_bitcoin_core_version. cbn.
  assert (major_from_version_int (10000 * major + 100 * minor + revision) = major) as ->.
  { unfold major_from_version_int. replace (10000 * major + 100 * minor + revision) with (major * 10000 + (100 * minor + revision)) by lia.
    rewrite Z.div_add_l, Z.div_small, Z.add_0_r by lia. by apply Z.mod_small. }
  unfold SUPPORTED_BITCOIN_CORE_MAJORS. destruct expected as [m|]; case_bool_decide as Hin; cbn; set_solver.
Qed.

(** The wait for the index ends with success as soon as an answer says that the index is
    complete, if the answers before it say that it is being built. *)
Theorem txindex_wait_ends {W} (ask : W -> W * option (gmap string IndexInfo)) w k :
  (forall j, (j < k)%nat -> exists m i, answer ask j w = Some m /\ m !! "txindex" = Some i /\ synced i = false) ->
  (exists m i, answer ask k w = Some m /\ m !! "txindex" = Some i /\ synced i = true) ->
  check_txindex ask (S k) w = Some (after ask (S k) w, Ok tt).
Proof.
  revert w. induction k as [|k IH]; intros w Hw (m & i & Hm & Hi & Hs); cbn [check_txindex].
  - unfold answer in Hm. cbn in *. destruct (ask w) as [w1 a]. cbn in *. subst a. by rewrite Hi, Hs.
  - destruct (Hw 0%nat) as (m0 & i0 & Hm0 & Hi0 & Hs0); [lia|]. unfold answer in Hm0. cbn in Hm0. destruct (ask w) as [w1 a] eqn:E. cbn in Hm0. subst a. rewrite Hi0, Hs0.
    assert (ES : forall j, answer ask (S j) w = answer ask j w1) by (intros j; by unfold answer; cbn; rewrite E).
    replace (after ask (S (S k)) w) with (after ask (S k) w1) by (cbn; by rewrite E). apply IH.
    + intros j Hj. rewrite <- ES. apply Hw. lia.
    + exists m, i. by rewrite <- ES.
Qed.
