(* ===== verification/Summary.v ===== *)
(** * The summary of the consensus state

    [lib/validator/sync_state_summary.rs]: an ordered snapshot of the consensus
    state at the tip, which a later run is compared with. The texts of differences
    are left out; a difference is what its text is made from. *)

From Stdlib Require Import Strings.Byte.
From stdpp Require Import base numbers list gmap sorting.
From S2P Require Import Prelude OrderMap Bitcoin Types Messages Dbs BlockHashes Treasury Diff Handlers ConnectBlock Enforcer Facade.
Open Scope Z_scope.

(** ** The summary *)

Record CtipSummary := mkCtipSummary { cs_outpoint : OutPoint; cs_value_sats : Amount }.
Record PendingWithdrawalSummary := mkPendingWithdrawalSummary { pw_m6id : M6id; pw_vote_count : Z; pw_proposal_height : Z }.
Record SidechainStateSummary := mkSidechainStateSummary {
  ss_sidechain_number : SidechainNumber;
  ss_description_hash : Hash;
  ss_title : option bytes;
  ss_description : option bytes;
  ss_vote_count : Z;
  ss_proposal_height : Z;
  ss_activation_height : option Z;
  ss_ctip : option CtipSummary;
  ss_ctip_sequence_number : option Z;
  ss_pending_withdrawals : list PendingWithdrawalSummary }.
Record SyncStateSummary := mkSyncStateSummary {
  sum_tip_hash : BlockHash;
  sum_tip_height : Z;
  sum_sidechains : list SidechainStateSummary }.

#[global] Instance CtipSummary_eq_dec : EqDecision CtipSummary.
Proof. solve_decision. Defined.
#[global] Instance PendingWithdrawalSummary_eq_dec : EqDecision PendingWithdrawalSummary.
Proof. solve_decision. Defined.
#[global] Instance SidechainStateSummary_eq_dec : EqDecision SidechainStateSummary.
Proof. solve_decision. Defined.
#[global] Instance SyncStateSummary_eq_dec : EqDecision SyncStateSummary.
Proof. solve_decision. Defined.

Abbreviation SidechainKey := (SidechainNumber * Hash)%type.

(** The order of hashes, and of the keys of sidechains *)
Definition hash_le (a b : bytes) : Prop := Is_true (bytes_leb a b).
Definition key_le (a b : SidechainKey) : Prop := hash_le (a.1 :: a.2) (b.1 :: b.2).
Definition pending_le (a b : PendingWithdrawalSummary) : Prop := hash_le (pw_m6id a) (pw_m6id b).
Definition summary_key (sc : SidechainStateSummary) : SidechainKey := (ss_sidechain_number sc, ss_description_hash sc).
Definition sidechain_le (a b : SidechainStateSummary) : Prop := key_le (summary_key a) (summary_key b).
#[global] Instance hash_le_dec a b : Decision (hash_le a b).
Proof. unfold hash_le. apply _. Defined.
#[global] Instance key_le_dec a b : Decision (key_le a b).
Proof. unfold key_le. apply _. Defined.
#[global] Instance pending_le_dec a b : Decision (pending_le a b).
Proof. unfold pending_le. apply _. Defined.
#[global] Instance sidechain_le_dec a b : Decision (sidechain_le a b).
Proof. unfold sidechain_le. apply _. Defined.

Inductive SummaryError := SE_Db (e : DbError) | SE_NotSynced.

Section Summary.
Context `{Bitcoin, Nom}.
Implicit Types (v : Validator).

Definition sidechain_key (sc : Sidechain) : SidechainKey := (sp_sidechain_number (sc_proposal sc), sha256d (sp_description (sc_proposal sc))).

Definition ctip_summary (c : Ctip) : CtipSummary := mkCtipSummary (ctip_outpoint c) (ctip_value c).
Definition pending_summary (e : M6id * PendingM6idInfo) : PendingWithdrawalSummary :=
  mkPendingWithdrawalSummary e.1 (pm_vote_count e.2) (pm_proposal_height e.2).

(** The treasury and the bundles, which only an activated sidechain has *)
Definition treasury_summary v (sc : Sidechain) : Res SummaryError (option CtipSummary * option Z * list PendingWithdrawalSummary) :=
  let n := sp_sidechain_number (sc_proposal sc) in
  if bool_decide (is_Some (activation_height (sc_status sc))) then
    let ctip : option CtipSummary := ctip_summary <$> (get_ctips v !! n) in
    sequence ← map_err SE_Db (get_ctip_sequence_number v n);
    pending ← map_err SE_Db (get_pending_withdrawals v n);
    Ok (ctip, sequence, map pending_summary pending)
  else Ok (None, None, []).

(** [.ok()] *)
Definition readable_declaration (d : SidechainDescription) : Res SummaryError (option SidechainDeclaration) :=
  match sidechain_declaration_try_from d with Ok d => Ok (Some d) | Err _ => Ok None | Panic => Panic end.

Definition summarize_sidechain v (sc : Sidechain) : Res SummaryError SidechainStateSummary :=
  '(ctip, sequence, pending) ← treasury_summary v sc;
  declaration ← readable_declaration (sp_description (sc_proposal sc));
  Ok (mkSidechainStateSummary (sidechain_key sc).1 (sidechain_key sc).2 (sd_title <$> declaration) (sd_description <$> declaration)
        (vote_count (sc_status sc)) (proposal_height (sc_status sc)) (activation_height (sc_status sc)) ctip sequence (merge_sort pending_le pending)).

(** The body of the loop, with the keys seen so far *)
Definition summarize_step v (acc : gset SidechainKey * list SidechainStateSummary) (sc : Sidechain) : Res SummaryError (gset SidechainKey * list SidechainStateSummary) :=
  if decide (sidechain_key sc ∈ acc.1) then Ok acc else
  e ← summarize_sidechain v sc; Ok ({[sidechain_key sc]} ∪ acc.1, acc.2 ++ [e]).

(** The active sidechains come first. *)
Definition sync_state_summary v : Res SummaryError SyncStateSummary :=
  tip_hash ← map_err SE_Db (get_mainchain_tip v);
  o ← map_err SE_Db (try_get_block_height v);
  tip_height ← ok_or SE_NotSynced o;
  active ← map_err SE_Db (get_active_sidechains v);
  r ← foldM (summarize_step v) (active ++ (get_sidechains v).*2) (∅, []);
  Ok (mkSyncStateSummary tip_hash tip_height (merge_sort sidechain_le r.2)).

End Summary.

(** ** Differences *)

Inductive SummaryField := F_vote_count | F_proposal_height | F_activation_height | F_ctip_sequence_number | F_title | F_description | F_ctip | F_pending_withdrawals.
Inductive SummaryDiff :=
| TipHashDiffers | TipHeightDiffers
| AbsentInReference (k : SidechainKey) | AbsentNow (k : SidechainKey)
| FieldDiffers (k : SidechainKey) (f : SummaryField).

Definition differs {A} `{EqDecision A} (a b : A) (d : SummaryDiff) : list SummaryDiff := if decide (a = b) then [] else [d].

Definition field_diffs (sc reference : SidechainStateSummary) : list SummaryDiff :=
  let d := FieldDiffers (summary_key sc) in
  differs (ss_vote_count sc) (ss_vote_count reference) (d F_vote_count) ++
  differs (ss_proposal_height sc) (ss_proposal_height reference) (d F_proposal_height) ++
  differs (ss_activation_height sc) (ss_activation_height reference) (d F_activation_height) ++
  differs (ss_ctip_sequence_number sc) (ss_ctip_sequence_number reference) (d F_ctip_sequence_number) ++
  differs (ss_title sc) (ss_title reference) (d F_title) ++
  differs (ss_description sc) (ss_description reference) (d F_description) ++
  differs (ss_ctip sc) (ss_ctip reference) (d F_ctip) ++
  differs (ss_pending_withdrawals sc) (ss_pending_withdrawals reference) (d F_pending_withdrawals).

(** [collect] into a [BTreeMap]: a later entry replaces one with its key. *)
Definition by_key (l : list SidechainStateSummary) : gmap SidechainKey SidechainStateSummary := foldl (fun m sc => <[summary_key sc := sc]> m) ∅ l.
Definition btree_iter (m : gmap SidechainKey SidechainStateSummary) : list (SidechainKey * SidechainStateSummary) :=
  merge_sort (fun a b => key_le a.1 b.1) (map_to_list m).

Definition sidechain_diffs (s reference : SyncStateSummary) : list SummaryDiff :=
  let current := by_key (sum_sidechains s) in
  let reference_map := by_key (sum_sidechains reference) in
  concat ((fun e => match reference_map !! e.1 with None => [AbsentInReference e.1] | Some ref_sc => field_diffs e.2 ref_sc end) <$> btree_iter current) ++
  concat ((fun e => if decide (is_Some (current !! e.1)) then [] else [AbsentNow e.1]) <$> btree_iter reference_map).

Definition summary_diff (s reference : SyncStateSummary) : list SummaryDiff :=
  differs (sum_tip_hash s) (sum_tip_hash reference) TipHashDiffers ++
  differs (sum_tip_height s) (sum_tip_height reference) TipHeightDiffers ++
  sidechain_diffs s reference.

Definition active_sidechain_count (s : SyncStateSummary) : nat :=
  length (filter (fun sc => is_Some (ss_activation_height sc)) (sum_sidechains s)).
Definition pending_withdrawal_count (s : SyncStateSummary) : nat := sum_list_with (fun sc => length (ss_pending_withdrawals sc)) (sum_sidechains s).

(** ** Files and verification *)

(** [serde_json] *)
Class SummaryJson := {
  to_json_pretty : SyncStateSummary -> bytes;
  from_json : bytes -> option SyncStateSummary;
  (** also with a newline behind it *)
  from_to_json s : from_json (to_json_pretty s ++ [x0a]) = Some s }.

Section Verification.
Context `{SummaryJson}.

(** The file is the summary and a newline. *)
Definition state_file (s : SyncStateSummary) : bytes := to_json_pretty s ++ [x0a].

Inductive VerifyError := VerificationFailed (tip reference_tip : BlockHash) (height reference_height : Z) (diffs : list SummaryDiff).
Definition verify_against_reference (produced : SyncStateSummary) (reference : option SyncStateSummary) : Res VerifyError unit :=
  match reference with
  | None => Ok tt
  | Some reference =>
      if decide (produced = reference) then Ok tt
      else Err (VerificationFailed (sum_tip_hash produced) (sum_tip_hash reference) (sum_tip_height produced) (sum_tip_height reference) (sidechain_diffs produced reference))
  end.

End Verification.
