(* ===== verification/SummaryProofs.v ===== *)
(** * Theorems on the summary of the consensus state

    A summary determines the consensus state that it is made from, up to the order of the
    bundles, and is determined by it; an empty list of differences means equal
    summaries. *)

From Stdlib Require Import Strings.Byte Sorting.Sorted.
From stdpp Require Import base numbers list gmap sorting.
From S2P Require Import Prelude OrderMap Bitcoin Types Messages M6 Dbs BlockHashes Treasury Diff Reversible Handlers HandlerProofs HandlerSpecs ConnectBlock ConnectProofs BlockRules Unconsolidated Reorg Enforcer Facade FacadeProofs Producer ProducerProofs Summary.
Open Scope Z_scope.

(** ** The order of keys *)

Lemma bytes_leb_total a b : bytes_leb a b = true \/ bytes_leb b a = true.
Proof.
  revert b. induction a as [|x a IH]; intros [|y b]; cbn; auto. destruct (Z.lt_trichotomy (u8_val x) (u8_val y)) as [?|[E%u8_val_inj|?]].
  - left. by rewrite bool_decide_eq_true_2.
  - subst y. destruct (IH b) as [E|E]; [left|right]; by rewrite E, (bool_decide_eq_true_2 (x = x)), orb_true_r.
  - right. by rewrite bool_decide_eq_true_2.
Qed.

Lemma bytes_leb_cons x a y b : bytes_leb (x :: a) (y :: b) = true <-> u8_val x < u8_val y \/ x = y /\ bytes_leb a b = true.
Proof. cbn. rewrite orb_true_iff, andb_true_iff, !bool_decide_eq_true. done. Qed.

Lemma bytes_leb_trans a b c : bytes_leb a b = true -> bytes_leb b c = true -> bytes_leb a c = true.
Proof.
  revert b c. induction a as [|x a IH]; [by intros [|y b] [|z c]|]. intros [|y b] [|z c]; try done. rewrite !bytes_leb_cons.
  intros [?|[-> ?]] [?|[-> ?]]; [left; lia|by left|by left|right]. split; [done|by eapply IH].
Qed.

Lemma bytes_leb_antisym a b : bytes_leb a b = true -> bytes_leb b a = true -> a = b.
Proof.
  revert b. induction a as [|x a IH]; intros [|y b]; try done. rewrite !bytes_leb_cons.
  intros [?|[-> ?]] [?|[? ?]]; try lia; subst; try lia. f_equal. by apply IH.
Qed.

Lemma hash_le_true a b : hash_le a b <-> bytes_leb a b = true.
Proof. unfold hash_le. apply Is_true_true. Qed.

#[global] Instance pending_le_total : Total pending_le.
Proof. intros a b. unfold pending_le. rewrite !hash_le_true. apply bytes_leb_total. Qed.
#[global] Instance pending_le_trans : Transitive pending_le.
Proof. intros a b c. unfold pending_le. rewrite !hash_le_true. apply bytes_leb_trans. Qed.
#[global] Instance sidechain_le_total : Total sidechain_le.
Proof. intros a b. unfold sidechain_le, key_le. rewrite !hash_le_true. apply bytes_leb_total. Qed.
#[global] Instance sidechain_le_trans : Transitive sidechain_le.
Proof. intros a b c. unfold sidechain_le, key_le. rewrite !hash_le_true. apply bytes_leb_trans. Qed.

Lemma key_le_antisym a b : key_le a b -> key_le b a -> a = b.
Proof.
  destruct a as [n h], b as [m k]. unfold key_le. rewrite !hash_le_true. intros H1 H2.
  pose proof (bytes_leb_antisym _ _ H1 H2) as E. by injection E as -> ->.
Qed.

(** Sorting lists with the same elements, of which no two have the same key, gives the same list. *)
Lemma sort_unique {A K} (R : A -> A -> Prop) `{forall a b, Decision (R a b), !Transitive R, !Total R} (key : A -> K) l l' :
  (forall a b, R a b -> R b a -> key a = key b) -> NoDup (key <$> l) -> l ≡ₚ l' -> merge_sort R l = merge_sort R l'.
Proof.
  intros Hk Hnd Hp. apply (StronglySorted_unique_strong R); [|by apply StronglySorted_merge_sort..|by rewrite !merge_sort_Permutation].
  intros a b. rewrite !merge_sort_Permutation, <- Hp. intros Ha Hb Hab Hba. specialize (Hk _ _ Hab Hba).
  apply list_elem_of_lookup in Ha as [i Hi], Hb as [j Hj].
  assert (i = j) as ->; [|congruence]. eapply (NoDup_lookup (key <$> l)); [done| |]; rewrite list_lookup_fmap; [by rewrite Hi; cbn; rewrite Hk|by rewrite Hj].
Qed.

Section View.
Context `{Bitcoin, Nom}.
Implicit Types (v w : Validator).

(** ** What the summary is about *)

(** The sidechain under a key: an active one hides a proposal. *)
Definition listed v (k : SidechainKey) : option Sidechain :=
  match sidechain (active_sidechains (v_dbs v)) !! k.1 with
  | Some sc => if decide (sidechain_key sc = k) then Some sc else proposal_id_to_sidechain (v_dbs v) !! mkSidechainProposalId k.1 k.2
  | None => proposal_id_to_sidechain (v_dbs v) !! mkSidechainProposalId k.1 k.2
  end.

Record ConsensusView := mkConsensusView {
  cv_declaration : option (bytes * bytes);
  cv_status : SidechainProposalStatus;
  cv_treasury : option (option Ctip * option Z * gmap M6id PendingM6idInfo) }.

(** A sidechain with its readable declaration and, if it is active, its treasury, the number of
    its treasury outputs and its bundles *)
Definition view_of v (sc : Sidechain) : ConsensusView :=
  let n := sp_sidechain_number (sc_proposal sc) in let a := active_sidechains (v_dbs v) in
  mkConsensusView
    (match sidechain_declaration_try_from (sp_description (sc_proposal sc)) with Ok d => Some (sd_title d, sd_description d) | _ => None end)
    (sc_status sc)
    (if bool_decide (is_Some (activation_height (sc_status sc)))
     then Some (ctip a !! n, treasury_utxo_count a !! n, list_to_map (default [] (pending_m6ids a !! n))) else None).
Definition consensus_view v (k : SidechainKey) : option ConsensusView := view_of v <$> listed v k.

(** Two validators with the same consensus state at the same tip *)
Definition same_state v w : Prop :=
  current_chain_tip (v_dbs v) = current_chain_tip (v_dbs w) /\ try_get_block_height v = try_get_block_height w /\
  forall k, consensus_view v k = consensus_view w k.

#[global] Instance same_state_equiv : Equivalence same_state.
Proof. split; unfold same_state; repeat intro; naive_solver congruence. Qed.

Definition summarisable v : Prop := wf (v_dbs v) /\ slots_named (active_sidechains (v_dbs v)).

(** The entry of a view *)
Definition render (k : SidechainKey) (c : ConsensusView) : SidechainStateSummary :=
  mkSidechainStateSummary k.1 k.2 (fst <$> cv_declaration c) (snd <$> cv_declaration c) (vote_count (cv_status c)) (proposal_height (cv_status c))
    (activation_height (cv_status c)) (ctip_summary <$> (t ← cv_treasury c; t.1.1)) ((fun q => q - 1) <$> (t ← cv_treasury c; t.1.2))
    (merge_sort pending_le (map pending_summary (map_to_list (from_option snd ∅ (cv_treasury c))))).

Lemma pending_le_key a b : pending_le a b -> pending_le b a -> pw_m6id a = pw_m6id b.
Proof. unfold pending_le. rewrite !hash_le_true. apply bytes_leb_antisym. Qed.

Lemma pending_sorted (p : PendingM6ids) : om_wf p ->
  merge_sort pending_le (map pending_summary p) = merge_sort pending_le (map pending_summary (map_to_list (list_to_map p : gmap M6id PendingM6idInfo))).
Proof.
  intros Hp. apply (sort_unique pending_le pw_m6id); [exact pending_le_key| |].
  - change (NoDup (map pw_m6id (map pending_summary p))). rewrite map_map. exact Hp.
  - apply Permutation_map. symmetry. by apply map_to_list_to_map.
Qed.

Lemma summarize_render v sc e : summarisable v -> summarize_sidechain v sc = Ok e -> e = render (sidechain_key sc) (view_of v sc).
Proof.
  intros [[Hwf _] _]. unfold summarize_sidechain. intros ([[c q] p] & Ht & Hr)%bind_Ok. apply bind_Ok in Hr as (d & Hd & [= <-]).
  assert (Ed : sd_title <$> d = fst <$> cv_declaration (view_of v sc) /\ sd_description <$> d = snd <$> cv_declaration (view_of v sc)).
  { cbn. unfold readable_declaration in Hd. destruct (sidechain_declaration_try_from _); [by injection Hd as <-|by injection Hd as <-|done]. }
  destruct Ed as [-> ->]. unfold render, view_of, treasury_summary in *. cbn [cv_declaration cv_status cv_treasury].
  case_bool_decide as Hact; [|by injection Ht as <- <- <-].
  apply bind_Ok in Ht as (q' & Hq%map_err_Ok & Ht). apply bind_Ok in Ht as (p' & Hp%map_err_Ok & [= <- <- <-]). cbn [mbind option_bind fst snd from_option].
  unfold get_pending_withdrawals, db_get in Hp. apply ok_or_Ok in Hp. rewrite Hp. cbn [default from_option id].
  f_equal; [|apply pending_sorted; by eapply (aw_pending _ Hwf)].
  unfold get_ctip_sequence_number in Hq. destruct (treasury_utxo_count _ !! _) as [count|]; [|by injection Hq as <-].
  apply bind_Ok in Hq as (x & Hx & [= <-]). unfold unwrap, checked_sub in Hx. repeat case_match; simplify_eq. done.
Qed.

Lemma render_key k c : summary_key (render k c) = k.
Proof. by destruct k. Qed.

Lemma pending_summary_inj (p q : gmap M6id PendingM6idInfo) :
  merge_sort pending_le (map pending_summary (map_to_list p)) = merge_sort pending_le (map pending_summary (map_to_list q)) -> p = q.
Proof.
  intros E. apply map_to_list_inj. assert (Hp : map pending_summary (map_to_list p) ≡ₚ map pending_summary (map_to_list q))
    by (by rewrite <- (merge_sort_Permutation pending_le), E, merge_sort_Permutation).
  pose (back := fun s => (pw_m6id s, mkPending (pw_vote_count s) (pw_proposal_height s))).
  apply (Permutation_map back) in Hp. rewrite !map_map in Hp.
  assert (Hid : forall l : list (M6id * PendingM6idInfo), map (fun x => back (pending_summary x)) l = l).
  { intros l. rewrite <- (map_id l) at 2. apply map_ext. by intros [m []]. }
  by rewrite !Hid in Hp.
Qed.

Definition treasury_of_active (c : ConsensusView) : Prop := is_Some (cv_treasury c) <-> is_Some (activation_height (cv_status c)).

Lemma render_inj k c d : treasury_of_active c -> treasury_of_active d -> render k c = render k d -> c = d.
Proof.
  destruct c as [dc [vc pc ac] tc], d as [dd [vd pd ad] td]. unfold treasury_of_active, render. cbn [cv_declaration cv_status cv_treasury vote_count proposal_height activation_height].
  intros Hc Hd. intros E. injection E as E1 E2 E3 E4 E5 E6 E7 E8. apply pending_summary_inj in E8. subst vd pd ad. f_equal.
  - destruct dc as [[]|], dd as [[]|]; cbn in *; by simplify_eq.
  - rewrite <- Hd in Hc. destruct tc as [[[c q] p]|], td as [[[c' q'] p']|]; cbn in *; [|by destruct Hc as [[? [=]] _]; eauto|by destruct Hc as [_ [? [=]]]; eauto|done].
    subst p'. do 3 f_equal.
    + destruct c as [[]|], c' as [[]|]; unfold ctip_summary in *; cbn in *; by simplify_eq.
    + destruct q, q'; cbn in *; try done. injection E7 as E7. f_equal. lia.
Qed.

Lemma view_of_active v sc : treasury_of_active (view_of v sc).
Proof. unfold treasury_of_active, view_of. cbn. case_bool_decide as Ha; [by split|]. split; [by intros [? [=]]|done]. Qed.

(** ** The entries *)

(** The first sidechain of every key *)
Fixpoint firsts (seen : gset SidechainKey) (l : list Sidechain) : list Sidechain :=
  match l with
  | [] => []
  | sc :: l => if decide (sidechain_key sc ∈ seen) then firsts seen l else sc :: firsts ({[sidechain_key sc]} ∪ seen) l
  end.

Lemma summarize_firsts v l seen out r :
  foldM (summarize_step v) l (seen, out) = Ok r ->
  exists es, r.2 = out ++ es /\ Forall2 (fun sc e => summarize_sidechain v sc = Ok e) (firsts seen l) es.
Proof.
  revert seen out. induction l as [|sc l IH]; intros seen out; cbn [foldM firsts].
  { intros [= <-]. exists []. by rewrite app_nil_r. }
  intros (acc & Hs & Hr)%bind_Ok. unfold summarize_step in Hs. cbn [fst snd] in Hs. destruct (decide _) as [Hin|Hin].
  - injection Hs as <-. by apply IH.
  - apply bind_Ok in Hs as (e & He & [= <-]). destruct (IH _ _ Hr) as (es & -> & Hes). exists (e :: es). rewrite <- app_assoc. split; [done|by constructor].
Qed.

Lemma firsts_keys seen l : NoDup (sidechain_key <$> firsts seen l) /\ Forall (fun sc => sidechain_key sc ∉ seen) (firsts seen l).
Proof.
  revert seen. induction l as [|sc l IH]; intros seen; cbn [firsts]; [by split; constructor|].
  destruct (decide _) as [Hin|Hin]; [apply IH|]. destruct (IH ({[sidechain_key sc]} ∪ seen)) as [Hnd Hf]. split.
  - cbn. constructor; [|done]. rewrite list_elem_of_fmap. intros (sc' & Hk & Hsc'). eapply Forall_forall in Hf; [|done]. apply Hf. rewrite <- Hk. by apply elem_of_union_l, elem_of_singleton.
  - constructor; [done|]. eapply Forall_impl; [done|]. intros sc' Hn Hs. by apply Hn, elem_of_union_r.
Qed.

(** [find_key] is the first sidechain with a key. *)
Definition find_key (k : SidechainKey) (l : list Sidechain) : option Sidechain := List.find (fun sc => bool_decide (sidechain_key sc = k)) l.

Lemma elem_of_firsts seen l sc : sc ∈ firsts seen l <-> sidechain_key sc ∉ seen /\ find_key (sidechain_key sc) l = Some sc.
Proof.
  revert seen. induction l as [|x l IH]; intros seen; cbn [firsts].
  { rewrite elem_of_nil. unfold find_key. cbn. naive_solver. }
  unfold find_key. cbn [List.find]. fold (find_key (sidechain_key sc) l). destruct (decide (sidechain_key x ∈ seen)) as [Hx|Hx].
  - rewrite IH. case_bool_decide as E; [rewrite <- E; naive_solver|done].
  - rewrite elem_of_cons, IH. rewrite elem_of_union, elem_of_singleton. case_bool_decide as E.
    + split; [intros [->|[Hn _]]; [done|by destruct Hn; left]|]. intros [_ [= <-]]. by left.
    + split; [intros [->|[Hn Hf]]; [done|split; [naive_solver|done]]|]. intros [Hn Hf]. right. split; [|done]. naive_solver congruence.
Qed.

Lemma find_key_app k l l' : find_key k (l ++ l') = match find_key k l with Some sc => Some sc | None => find_key k l' end.
Proof. unfold find_key. induction l as [|sc l IH]; [done|]. cbn. by case_bool_decide. Qed.

Lemma find_key_Some k l sc :
  (forall a b, a ∈ l -> b ∈ l -> sidechain_key a = sidechain_key b -> a = b) -> find_key k l = Some sc <-> sc ∈ l /\ sidechain_key sc = k.
Proof.
  intros Hu. unfold find_key. split.
  - intros [Hin Hb]%find_some. split; [by apply list_elem_of_In|by apply bool_decide_eq_true_1 in Hb].
  - intros [Hin Hk]. destruct (List.find _ l) as [sc'|] eqn:E.
    + apply find_some in E as [Hin' Hb]. apply bool_decide_eq_true_1 in Hb. f_equal. apply Hu; [by apply list_elem_of_In|done|congruence].
    + eapply find_none in E; [|by apply list_elem_of_In]. by rewrite bool_decide_eq_true_2 in E.
Qed.

Lemma elem_of_active v active sc : slots_named (active_sidechains (v_dbs v)) -> get_active_sidechains v = Ok active ->
  sc ∈ active <-> sidechain (active_sidechains (v_dbs v)) !! slot_of sc = Some sc.
Proof.
  intros Hn Ha. assert (Hf : Forall (fun sc => sidechain (active_sidechains (v_dbs v)) !! slot_of sc = Some sc) active).
  { unfold get_active_sidechains in Ha. apply (foldM_snoc_Forall2 _ (fun n sc => sidechain (active_sidechains (v_dbs v)) !! slot_of sc = Some sc)) in Ha as (bs & -> & Hbs).
    - cbn. apply Forall_forall. intros x Hx. apply list_elem_of_lookup in Hx as [i Hi]. eapply Forall2_lookup_r in Hbs as (n & _ & ?); done.
    - intros acc n r Hin%elem_of_numbers Hr. destruct Hin as [x Hx]. rewrite Hx in Hr. apply bind_Ok in Hr as (? & _ & [= <-]).
      exists x. split; [done|]. unfold slot_of. by rewrite (Hn n x Hx). }
  split; [by intros ?; eapply Forall_forall in Hf|]. intros Hsc.
  assert (Hin : slot_of sc ∈ slot_of <$> active) by (rewrite (active_sidechains_slots v active Hn Ha); apply elem_of_numbers; by eexists).
  apply list_elem_of_fmap in Hin as (x & Hx & Hin). eapply Forall_forall in Hf; [|done]. rewrite <- Hx in Hf. congruence.
Qed.

Lemma elem_of_proposals v sc : wf (proposal_id_to_sidechain (v_dbs v)) ->
  sc ∈ (get_sidechains v).*2 <-> proposal_id_to_sidechain (v_dbs v) !! mkSidechainProposalId (sidechain_key sc).1 (sidechain_key sc).2 = Some sc.
Proof.
  intros Hwf. unfold get_sidechains. rewrite merge_sort_Permutation, list_elem_of_fmap. split.
  - intros ([id x] & -> & Hin%elem_of_map_to_list). destruct (Hwf id x Hin) as (Hid & _). by rewrite <- Hid in Hin.
  - intros Hsc. eexists (_, sc). split; [done|by apply elem_of_map_to_list].
Qed.

Lemma find_listed v active k : summarisable v -> get_active_sidechains v = Ok active -> find_key k (active ++ (get_sidechains v).*2) = listed v k.
Proof.
  intros [[_ Hwf] Hn] Ha. rewrite find_key_app. apply option_eq. intros sc.
  assert (Hu1 : forall a b, a ∈ active -> b ∈ active -> sidechain_key a = sidechain_key b -> a = b).
  { intros a b. rewrite !(elem_of_active v active) by done. unfold sidechain_key, slot_of. intros E1 E2 [= E _]. congruence. }
  assert (Hu2 : forall a b, a ∈ (get_sidechains v).*2 -> b ∈ (get_sidechains v).*2 -> sidechain_key a = sidechain_key b -> a = b).
  { intros a b. rewrite !elem_of_proposals by done. intros E1 E2 E. rewrite E in E1. congruence. }
  assert (Hp : find_key k (get_sidechains v).*2 = Some sc <-> proposal_id_to_sidechain (v_dbs v) !! mkSidechainProposalId k.1 k.2 = Some sc).
  { rewrite find_key_Some, elem_of_proposals by done. split; [by intros [? <-]|]. intros E. destruct (Hwf _ _ E) as (Hid & _).
    assert (Hk : sidechain_key sc = k) by (unfold sidechain_key; unfold compute_id in Hid; injection Hid as -> ->; by destruct k). by rewrite Hk. }
  unfold listed. destruct (find_key k active) as [x|] eqn:E.
  - apply find_key_Some in E as [Hx <-]; [|done]. apply (elem_of_active v active x Hn Ha) in Hx. change (sidechain_key x).1 with (slot_of x). rewrite Hx. by rewrite decide_True.
  - rewrite Hp. destruct (sidechain _ !! k.1) as [x|] eqn:Ex; [|done]. rewrite decide_False; [done|]. intros Hk.
    assert (Hin : x ∈ active) by (apply (elem_of_active v active x Hn Ha); rewrite <- Ex, <- Hk; done).
    assert (find_key k active = Some x) by (by apply find_key_Some). congruence.
Qed.

(** The entries of a summary are the views of the sidechains, one for every key, in the order of the keys. *)
Lemma summary_entries v s : summarisable v -> sync_state_summary v = Ok s ->
  current_chain_tip (v_dbs v) = Some (sum_tip_hash s) /\ try_get_block_height v = Ok (Some (sum_tip_height s)) /\
  NoDup (summary_key <$> sum_sidechains s) /\ StronglySorted sidechain_le (sum_sidechains s) /\
  forall e, e ∈ sum_sidechains s <-> exists k c, consensus_view v k = Some c /\ e = render k c.
Proof.
  intros Hok. unfold sync_state_summary. intros (tip & Ht%map_err_Ok & Hs)%bind_Ok. apply bind_Ok in Hs as (o & Ho%map_err_Ok & Hs).
  apply bind_Ok in Hs as (h & Hh%ok_or_Ok & Hs). subst o. apply bind_Ok in Hs as (active & Ha%map_err_Ok & Hs).
  apply bind_Ok in Hs as (r & Hr & [= <-]). cbn [sum_tip_hash sum_tip_height sum_sidechains].
  apply summarize_firsts in Hr as (es & -> & Hes). cbn [app].
  assert (Hrender : Forall2 (fun sc e => e = render (sidechain_key sc) (view_of v sc)) (firsts ∅ (active ++ (get_sidechains v).*2)) es)
    by (eapply Forall2_impl; [exact Hes|]; intros sc e He; exact (summarize_render v sc e Hok He)).
  assert (Hkeys : summary_key <$> es = sidechain_key <$> firsts ∅ (active ++ (get_sidechains v).*2)).
  { clear -Hrender. induction Hrender as [|sc e l es -> _ IH]; [done|]. cbn [fmap list_fmap]. by rewrite render_key, IH. }
  split_and!; [by apply ok_or_Ok in Ht|done| |apply (StronglySorted_merge_sort sidechain_le)|].
  - rewrite merge_sort_Permutation, Hkeys. apply firsts_keys.
  - intros e. rewrite merge_sort_Permutation. unfold consensus_view. split.
    + intros Hin. apply list_elem_of_lookup in Hin as [i Hi]. eapply Forall2_lookup_r in Hrender as (sc & Hsc & ->); [|done].
      apply list_elem_of_lookup_2, elem_of_firsts in Hsc as [_ Hf]. rewrite (find_listed v active) in Hf by done.
      exists (sidechain_key sc), (view_of v sc). by rewrite Hf.
    + intros (k & c & Hc & ->). apply fmap_Some in Hc as (sc & Hsc & ->). rewrite <- (find_listed v active) in Hsc by done.
      assert (Hk : sidechain_key sc = k) by (apply find_some in Hsc as [_ Hb]; by apply bool_decide_eq_true_1 in Hb). subst k.
      assert (Hin : sc ∈ firsts ∅ (active ++ (get_sidechains v).*2)) by (apply elem_of_firsts; split; [set_solver|done]).
      apply list_elem_of_lookup in Hin as [i Hi]. eapply Forall2_lookup_l in Hrender as (e & He & ->); [|done]. by eapply list_elem_of_lookup_2.
Qed.
End View.

(** Two summaries are equal exactly when they are made from the same consensus state at the
    same tip: for every sidechain and every proposal that no active sidechain hides, the
    votes, heights and readable declaration, and for an active one the treasury, the number of
    its outputs and the bundles with their votes. The order of the bundles does not count. *)
Lemma summary_faithful `{Bitcoin, Nom} v w s t :
  summarisable v -> summarisable w -> sync_state_summary v = Ok s -> sync_state_summary w = Ok t -> s = t <-> same_state v w.
Proof.
  intros Hv Hw Hs Ht. destruct (summary_entries v s Hv Hs) as (T1 & K1 & N1 & S1 & E1), (summary_entries w t Hw Ht) as (T2 & K2 & N2 & S2 & E2). split.
  - intros <-. split_and!; [congruence..|]. intros k. apply option_eq. intros c.
    assert (Hinj : forall v w : Validator, (forall e, e ∈ sum_sidechains s <-> exists k c, consensus_view v k = Some c /\ e = render k c) ->
      (forall e, e ∈ sum_sidechains s <-> exists k c, consensus_view w k = Some c /\ e = render k c) -> consensus_view v k = Some c -> consensus_view w k = Some c).
    { clear. intros v w E1 E2 Hc. assert (Hin : render k c ∈ sum_sidechains s) by (apply E1; by exists k, c).
      apply E2 in Hin as (k' & c' & Hc' & Hr). assert (k' = k) as -> by (by rewrite <- (render_key k' c'), <- Hr, render_key).
      apply render_inj in Hr as ->; [done|..].
      - apply fmap_Some in Hc as (sc & _ & ->). apply view_of_active.
      - apply fmap_Some in Hc' as (sc & _ & ->). apply view_of_active. }
    split; by apply Hinj.
  - intros (Et & Eh & Ec). destruct s as [sh sk sl], t as [th tk tl]. cbn in *. assert (sh = th) as -> by congruence. assert (sk = tk) as -> by congruence. f_equal.
    apply (StronglySorted_unique_strong sidechain_le); [|done..|].
    + intros a b Ha Hb Hab Hba. apply E1 in Ha as (k & c & Hk & ->). apply E2 in Hb as (k' & c' & Hk' & ->).
      unfold sidechain_le in Hab, Hba. rewrite !render_key in Hab, Hba. pose proof (key_le_antisym _ _ Hab Hba) as <-. rewrite Ec in Hk. congruence.
    + apply NoDup_Permutation; [by eapply NoDup_fmap_1..|]. intros e. rewrite E1, E2. by setoid_rewrite Ec.
Qed.

(** The outcome does not depend on how a chain was reached: validators with the same tables
    of sidechains and proposals, and the same tip at the same height, have the same summary. *)
Lemma summary_of_core `{Bitcoin, Nom} v w :
  same_core (v_dbs v) (v_dbs w) -> try_get_block_height v = try_get_block_height w -> sync_state_summary v = sync_state_summary w.
Proof.
  intros (Ea & Ep & Et) Eh. unfold sync_state_summary, get_mainchain_tip, get_active_sidechains, get_sidechains. rewrite Ea, Ep, Et, Eh.
  assert (Es : forall sc, summarize_sidechain v sc = summarize_sidechain w sc)
    by (intros sc; unfold summarize_sidechain, treasury_summary, get_ctips, get_ctip_sequence_number, get_pending_withdrawals; by rewrite Ea).
  assert (Et' : forall acc sc, summarize_step v acc sc = summarize_step w acc sc) by (intros acc sc; unfold summarize_step; by rewrite Es).
  assert (Ef : forall l acc, foldM (summarize_step v) l acc = foldM (summarize_step w) l acc).
  { induction l as [|sc l IH]; intros acc; [done|]. cbn [foldM]. rewrite Et'. destruct (summarize_step w acc sc); [apply IH|done..]. }
  destruct (map_err SE_Db (ok_or _ _)) as [tip|e|]; [|done..]. destruct (map_err SE_Db (try_get_block_height w)) as [o|e|]; [|done..].
  destruct o as [h|]; [|done]. destruct (map_err SE_Db _) as [active|e|]; [|done..]. cbn. by rewrite Ef.
Qed.

(** ** Differences *)

Lemma differs_nil {A} `{EqDecision A} (a b : A) d : differs a b d = [] <-> a = b.
Proof. unfold differs. by destruct (decide _). Qed.

Lemma field_diffs_nil a b : summary_key a = summary_key b -> field_diffs a b = [] <-> a = b.
Proof.
  intros Hk. unfold field_diffs. rewrite !app_nil, !differs_nil. destruct a, b. unfold summary_key in Hk. cbn in *. injection Hk as -> ->. split.
  - by intros (-> & -> & -> & -> & -> & -> & -> & ->).
  - by intros [=].
Qed.

Lemma by_key_acc l m k sc : NoDup (summary_key <$> l) ->
  foldl (fun m sc => <[summary_key sc := sc]> m) m l !! k = Some sc <->
  (sc ∈ l /\ summary_key sc = k) \/ (k ∉ summary_key <$> l /\ (m : gmap SidechainKey SidechainStateSummary) !! k = Some sc).
Proof.
  revert m. induction l as [|x l IH]; intros m Hnd; cbn [foldl].
  { cbn. rewrite !elem_of_nil. naive_solver. }
  apply NoDup_cons in Hnd as [Hx Hnd]. rewrite IH by done. cbn [fmap list_fmap]. rewrite !elem_of_cons, lookup_insert_Some.
  split.
  - intros [[? ?]|[Hn [[<- ->]|[Hne ?]]]]; [by left; split; [right|]|left; split; [by left|done]|right; split; [naive_solver|done]].
  - intros [[[->|?] <-]|[Hn ?]]; [right; split; [done|by left]|by left|right; split; [naive_solver|right; naive_solver]].
Qed.

Lemma by_key_lookup l k sc : NoDup (summary_key <$> l) -> by_key l !! k = Some sc <-> sc ∈ l /\ summary_key sc = k.
Proof. intros Hnd. unfold by_key. rewrite by_key_acc by done. rewrite lookup_empty. naive_solver. Qed.

#[local] Arguments by_key : simpl never.

Lemma concat_nil {A B} (f : A -> list B) l : concat (f <$> l) = [] <-> forall a, a ∈ l -> f a = [].
Proof.
  induction l as [|a l IH]; cbn; [split; [by intros _ a ?%elem_of_nil|done]|]. rewrite app_nil, IH. setoid_rewrite elem_of_cons. naive_solver.
Qed.

(** For summaries as [sync_state_summary] makes them, an empty list of differences means that they are equal. *)
Definition canonical (s : SyncStateSummary) : Prop := NoDup (summary_key <$> sum_sidechains s) /\ StronglySorted sidechain_le (sum_sidechains s).
Lemma no_diff_iff_equal s t : canonical s -> canonical t -> summary_diff s t = [] <-> s = t.
Proof.
  intros [Ns Ss] [Nt St]. unfold summary_diff, sidechain_diffs. rewrite !app_nil, !differs_nil, !concat_nil.
  unfold btree_iter. setoid_rewrite merge_sort_Permutation. split.
  - intros (Eh & Ek & Hc & Hr). destruct s as [sh sk sl], t as [th tk tl]. cbn in *. subst. f_equal.
    assert (Hsub : forall sc, sc ∈ sl -> sc ∈ tl).
    { intros sc Hin. assert (Hl : by_key sl !! summary_key sc = Some sc) by (by apply by_key_lookup).
      specialize (Hc (summary_key sc, sc)). cbn in Hc. rewrite elem_of_map_to_list in Hc. specialize (Hc Hl).
      destruct (by_key tl !! summary_key sc) as [r|] eqn:Er; [|done]. apply by_key_lookup in Er as [Hr' Hk]; [|done].
      apply field_diffs_nil in Hc; [|done]. by subst. }
    apply (StronglySorted_unique_strong sidechain_le); [|done..|].
    + intros a b Ha%Hsub Hb Hab Hba. pose proof (key_le_antisym _ _ Hab Hba) as Hk.
      assert (E1 : by_key tl !! summary_key a = Some a) by (by apply by_key_lookup). rewrite Hk in E1.
      assert (E2 : by_key tl !! summary_key b = Some b) by (by apply by_key_lookup). congruence.
    + apply NoDup_Permutation; [by eapply NoDup_fmap_1..|]. intros sc. split; [apply Hsub|]. intros Hin.
      assert (Hl : by_key tl !! summary_key sc = Some sc) by (by apply by_key_lookup). specialize (Hr (summary_key sc, sc)). cbn in Hr. rewrite elem_of_map_to_list in Hr.
      specialize (Hr Hl). case_decide as Hs; [|done]. destruct Hs as [x Hx]. apply by_key_lookup in Hx as [Hx Hk]; [|done].
      apply Hsub in Hx as Hx'. assert (Hl' : by_key tl !! summary_key x = Some x) by (by apply by_key_lookup). rewrite Hk in Hl'. congruence.
  - intros <-. split_and!; [done..| |].
    + intros [k sc] Hin%elem_of_map_to_list. cbn. rewrite Hin. by apply field_diffs_nil.
    + intros [k sc] Hin%elem_of_map_to_list. cbn. rewrite Hin. by rewrite decide_True by by eexists.
Qed.

(** ** The summary of a chain *)

(** An active sidechain carries its slot's number and an activation height. *)
Definition activated (a : ActiveSidechainDbs) : Prop :=
  forall n sc, sidechain a !! n = Some sc -> sp_sidechain_number (sc_proposal sc) = n /\ is_Some (activation_height (sc_status sc)).

Lemma foldM_total {E A S} (f : S -> A -> Res E S) l s : (forall s a, a ∈ l -> exists s', f s a = Ok s') -> exists s', foldM f l s = Ok s'.
Proof.
  revert s. induction l as [|a l IH]; intros s Hf; [by eexists|]. cbn [foldM]. destruct (Hf s a) as [s' ->]; [left|]. cbn. apply IH. intros. apply Hf. by right.
Qed.

Lemma activated_kept a a' : sidechain a' = sidechain a -> activated a -> activated a'.
Proof. unfold activated. by intros ->. Qed.

Lemma keyed_fold_sidechain {A E} (conv : DbError -> E) f (l : list (SidechainNumber * A)) a a' : keyed_fold conv f l a = Ok a' -> sidechain a' = sidechain a.
Proof.
  unfold keyed_fold. apply (foldM_invariant (fun x => sidechain x = sidechain a)); [|done].
  by intros x y e _ <- (p & p' & _ & _ & ->)%with_pending_Ok.
Qed.

Lemma coinbase_msg_activated `{Bitcoin} (d : CoinbaseMsg) h s s' :
  wf s -> apply d h s = Ok s' -> activated (active_sidechains s) -> activated (active_sidechains s').
Proof.
  intros [_ Hp] Ha. destruct d as [d|[id eff]|d|d]; cbn in Ha.
  - apply on_active_Ok in Ha as (a & Ha & ->). rewrite ack_bundles_apply_keyed in Ha. apply activated_kept. by eapply keyed_fold_sidechain.
  - unfold ack_sidechain_proposal_apply, db_get in Ha. cbn [asp_id asp_effect] in Ha. res_inv.
    match goal with E : proposal_id_to_sidechain s !! id = Some ?x |- _ => destruct (Hp _ _ E) as (<- & _ & _) end.
    intros Hact. destruct eff; res_inv; [done|..]; intros n sc Hl; cbn in Hl; apply lookup_insert_Some in Hl as [[<- <-]|[_ Hl]]; eauto.
  - by injection Ha as <-.
  - apply bind_Ok in Ha as (a & (p & p' & _ & _ & ->)%with_pending_Ok & [= <-]). by apply activated_kept.
Qed.

Lemma block_diff_activated `{Bitcoin} (d : BlockDiff) h s s' :
  wf s -> valid d h s -> apply d h s = Ok s' -> activated (active_sidechains s) -> activated (active_sidechains s').
Proof.
  intros Hwf ((s1 & Hr & _ & _) & _) Ha Hact. rewrite block_apply_eq in Ha. apply bind_Ok in Ha as (s4 & Hc & Ha).
  apply on_active_Ok in Ha as (a & Ht & ->). rewrite coinbase_apply_eq, (run_apply _ _ _ _ Hr) in Hc. cbn [mbind Res_bind] in Hc.
  apply bind_Ok in Hc as (s2 & (p & _ & ->)%on_proposals_Ok & Hc). apply on_active_Ok in Hc as (a' & Hk%(keyed_fold_sidechain id (fun _ => remove_failed_withdrawals)) & ->).
  assert (H1 : activated (active_sidechains s1)).
  { clear -Hwf Hact Hr. induction Hr as [|ds x s s2 s3 Hr IH Hv Ha]; [done|]. eapply coinbase_msg_activated; [exact (run_wf h ds s s2 Hwf Hr)|exact Ha|by apply IH]. }
  cbn in *. eapply (activated_kept a'); [|by eapply activated_kept].
  revert Ht. apply (foldM_invariant (fun x => sidechain x = sidechain a')); [|done]. intros x y e _ <- Hk'. exact (sidechain_kept e h x y Hk').
Qed.

Lemma hist_activated `{Bitcoin, Nom} bh s bs : hist bh s bs -> activated (active_sidechains s).
Proof.
  induction 1 as [s (-> & _)|s bs b t t' ev Ht IH Hok Hcon (-> & _) _]; [by intros n sc Hl; cbn in Hl; rewrite lookup_empty in Hl|].
  pose proof (hist_wf _ _ _ Ht) as Hwf. apply connect_block_Ok in Hcon as (s1 & p & Hp & _ & Hr).
  destruct (partial_connect_valid _ _ _ _ _ (so_block _ _ _ Hok) Hp) as (h & _ & Hv & Ha & _).
  apply record_block_core in Hr as [-> _]. by eapply block_diff_activated.
Qed.

Lemma hist_height `{Bitcoin, !BitcoinLaws, Nom} bh v bs b : hist bh (v_dbs v) (bs ++ [b]) -> try_get_block_height v = Ok (Some (Z.of_nat (length bs))).
Proof.
  intros Hh. unfold try_get_block_height. rewrite (hist_tip _ _ _ Hh), last_snoc. cbn. apply hist_snoc_inv in Hh as (t & t' & ev & _ & Hok & Hcon & _ & Hag).
  unfold db_get. destruct (Hag b) as (_ & _ & -> & _); [apply elem_of_app; right; by apply list_elem_of_singleton|].
  destruct (connect_block_summary _ _ _ _ _ (so_block _ _ _ Hok) Hcon) as (s1 & p & _ & _ & _ & _ & _ & _ & -> & _).
  by rewrite (so_height _ _ _ Hok).
Qed.

Lemma declaration_no_panic `{Nom, !NomLaws} d : exists r, readable_declaration d = Ok r.
Proof.
  unfold readable_declaration, sidechain_declaration_try_from. destruct (sidechain_declaration_try_parse d) as [[i decl]|e|] eqn:E; cbn.
  - rewrite (try_parse_consumes_all _ _ _ E). cbn. by eexists.
  - by eexists.
  - exfalso. revert E. unfold sidechain_declaration_try_parse. destruct (nom_tag _ _) as [[i ?]|]; [cbn|by destruct d].
    repeat match goal with |- context [ok_or _ ?x] => let y := fresh in destruct x as [y|]; cbn; [try destruct y as [? ?]|done] end; done.
Qed.

Lemma summarize_sidechain_total `{Bitcoin, Nom, !NomLaws} v sc :
  active_wf (active_sidechains (v_dbs v)) -> (is_Some (activation_height (sc_status sc)) -> is_Some (sidechain (active_sidechains (v_dbs v)) !! slot_of sc)) ->
  exists e, summarize_sidechain v sc = Ok e.
Proof.
  intros [Hd _ [h Ht]] Hact. unfold summarize_sidechain, treasury_summary. destruct (declaration_no_panic (sp_description (sc_proposal sc))) as [decl ->].
  case_bool_decide as Ha; [|by eexists]. apply Hact, Hd in Ha as [p Hp]. unfold slot_of in Hp. unfold get_ctip_sequence_number, get_pending_withdrawals, db_get. rewrite Hp, (tr_count _ _ Ht).
  case_decide as Hn; cbn; [by eexists|]. unfold checked_sub. rewrite bool_decide_eq_true_2; [by eexists|]. destruct (h _); [done|cbn; lia].
Qed.

Lemma active_sidechains_total v : activated (active_sidechains (v_dbs v)) -> exists active, get_active_sidechains v = Ok active.
Proof.
  intros Ha. unfold get_active_sidechains. apply foldM_total. intros acc n _. destruct (sidechain _ !! n) as [sc|] eqn:E; [|by eexists].
  destruct (Ha n sc E) as [_ Hs]. rewrite bool_decide_eq_true_2 by done. by eexists.
Qed.

Lemma summary_total `{Bitcoin, Nom, !NomLaws} v tip h :
  wf (v_dbs v) -> activated (active_sidechains (v_dbs v)) -> current_chain_tip (v_dbs v) = Some tip -> try_get_block_height v = Ok (Some h) ->
  exists s, sync_state_summary v = Ok s.
Proof.
  intros [Hwf Hp] Hact Ht Hh. unfold sync_state_summary, get_mainchain_tip. rewrite Ht, Hh. destruct (active_sidechains_total v Hact) as [active Ha]. rewrite Ha. cbn.
  assert (Hn : slots_named (active_sidechains (v_dbs v))) by (intros n sc E; by apply Hact).
  destruct (foldM_total (summarize_step v) (active ++ (get_sidechains v).*2) (∅, [])) as [r ->]; [|by eexists].
  intros acc sc Hin. unfold summarize_step. destruct (decide _); [by eexists|]. destruct (summarize_sidechain_total v sc Hwf) as [e ->]; [|by eexists].
  intros Hs. apply elem_of_app in Hin as [Hin|Hin].
  - apply (elem_of_active v active sc Hn Ha) in Hin. by eexists.
  - apply elem_of_proposals in Hin; [|done]. destruct (Hp _ _ Hin) as (_ & _ & E). rewrite E in Hs. by destruct Hs.
Qed.

Section Verified.
Context `{Bitcoin, !BitcoinLaws, Nom, !NomLaws, SummaryJson}.

Lemma hist_summarisable bh v bs : hist bh (v_dbs v) bs -> summarisable v.
Proof. intros Hh. split; [by eapply hist_wf|]. intros n sc Hsc. by eapply hist_activated. Qed.

Lemma hist_summary bh v bs b : hist bh (v_dbs v) (bs ++ [b]) -> exists s, sync_state_summary v = Ok s.
Proof.
  intros Hh. eapply summary_total; [by eapply hist_wf|by eapply hist_activated| |by eapply hist_height]. rewrite (hist_tip _ _ _ Hh), last_snoc. done.
Qed.

(** Verification of a run: a validator that has reached a chain of at least one block, over
    whatever detours, has a summary. With the file another run wrote as its reference, verification
    succeeds exactly when both runs ended with the same consensus state, in particular when
    both reached the same chain; and runs that end with different states are told apart
    by at least one difference of their summaries. *)
Lemma verify_sync_state bh v w bs b cs c :
  reach bh (v_dbs v) (bs ++ [b]) -> reach bh (v_dbs w) (cs ++ [c]) ->
  exists s t, sync_state_summary v = Ok s /\ sync_state_summary w = Ok t /\
    (verify_against_reference t (from_json (state_file s)) = Ok tt <-> same_state w v) /\
    (bs ++ [b] = cs ++ [c] -> same_state w v) /\ (summary_diff t s = [] <-> same_state w v).
Proof.
  intros Hv%reach_hist Hw%reach_hist. destruct (hist_summary _ _ _ _ Hv) as [s Hs], (hist_summary _ _ _ _ Hw) as [t Ht].
  assert (Hst : t = s <-> same_state w v) by (eapply summary_faithful; [by eapply hist_summarisable..|done|done]).
  exists s, t. split_and!; [done|done| | |].
  - unfold state_file. rewrite from_to_json. cbn. rewrite <- Hst. destruct (decide (t = s)); naive_solver.
  - intros E. rewrite <- E in Hw. apply Hst. destruct (hist_determined _ _ _ _ Hv Hw) as [Hc _].
    assert (sync_state_summary v = sync_state_summary w) by (apply summary_of_core; [done|by rewrite (hist_height _ _ _ _ Hv), (hist_height _ _ _ _ Hw)]). congruence.
  - rewrite <- Hst. apply no_diff_iff_equal; split.
    1,2: by eapply (summary_entries w t); [eapply hist_summarisable|].
    all: by eapply (summary_entries v s); [eapply hist_summarisable|].
Qed.
End Verified.

(** ** What the summary leaves out *)

(** The validator after a proposal was stored, such as the M1 of a sidechain that is active already *)
Definition with_proposal (v : Validator) (id : SidechainProposalId) (sc : Sidechain) : Validator :=
  set_dbs v (set_proposals (v_dbs v) (<[id := sc]> (proposal_id_to_sidechain (v_dbs v)))).

(** An active sidechain hides a proposal to replace it by itself, with its votes: the summary with
    the proposal is the summary without it. *)
Theorem hidden_proposal_unseen `{Bitcoin, Nom} v id active sc s t :
  summarisable v -> sidechain (active_sidechains (v_dbs v)) !! spi_sidechain_number id = Some active -> compute_id (sc_proposal active) = id ->
  proposal_wf id sc -> sync_state_summary v = Ok s -> sync_state_summary (with_proposal v id sc) = Ok t -> t = s.
Proof.
  intros Hok Ha Hid Hsc Hs Ht. assert (Hok' : summarisable (with_proposal v id sc)).
  { destruct Hok as [[Hw Hp] Hn]. split; [|done]. split; [done|]. cbn. by apply map_Forall_insert_2. }
  apply (summary_faithful _ _ _ _ Hok' Hok Ht Hs). split_and!; [done..|]. intros k. unfold consensus_view.
  assert (El : listed (with_proposal v id sc) k = listed v k) ; [|by rewrite El].
  unfold listed. cbn. destruct (decide (id = mkSidechainProposalId k.1 k.2)) as [E|E]; [|by rewrite !lookup_insert_ne].
  assert (Hk : k.1 = spi_sidechain_number id) by by rewrite E. rewrite Hk, Ha. rewrite !decide_True; [done|..];
    destruct k; unfold compute_id in *; unfold sidechain_key; cbn in *; subst; naive_solver.
Qed.
