(* ===== verification/Tasks.v ===== *)
(** * The tasks of the application

    [app/main.rs] and [app/error.rs]: which failures a fresh sync can clear, the loop that
    syncs again, the mempool tasks, and the endpoint for block templates. Time, the node
    and the shutdown signal are arguments; what a task does in order is a list of events. *)

From Stdlib Require Import Strings.String.
From stdpp Require Import base numbers list strings.
From S2P Require Import Prelude.
Open Scope Z_scope.

(** ** Errors *)

(** [ClientError] of the JSON-RPC client *)
(** [Transport] has the status of a request that the server rejected. *)
Inductive ClientError := Transport (rejected : option Z) (message : string) | Call (code : Z) (message : string) | OtherClientError.
#[global] Instance ClientError_eq_dec : EqDecision ClientError.
Proof. solve_decision. Defined.

(** An error with its chain of sources: the text of each, and the [ClientError] it is, if it is one *)
Abbreviation ErrorSources := (list (string * option ClientError)).

(** [ErrorChain]: the text of an error with its causes *)
Fixpoint error_chain (err : ErrorSources) : string :=
  match err with
  | [] => ""
  | [e] => e.1
  | e :: sources => (e.1 ++ ": " ++ error_chain sources)%string
  end.

(** The errors of the mempool library that the application tells apart *)
Inductive InitialSyncError := ISE_SequenceStream | ISE_JsonRpc (e : ClientError) | ISE_CusfEnforcer (e : ErrorSources) | ISE_Other.
Inductive SyncTaskError :=
| STE_SequenceStream | STE_JsonRpc (e : ClientError) | STE_InitialSyncEnforcer (e : InitialSyncError) | STE_Request (e : ErrorSources)
| STE_ApplySyncActionTimeout | STE_Shutdown | STE_SequenceStreamEnded | STE_Other.
Inductive TaskError := TE_ZmqSequence | TE_JsonRpc (e : ClientError) | TE_InitialSync (e : InitialSyncError) | TE_Other.
Inductive MempoolTask :=
| InitialSync (e : SyncTaskError) | SyncTask (e : SyncTaskError) | ZmqCheck (addr : string) | ZmqNotReachable (addr : string).

(** [str::contains] *)
Fixpoint contains (needle s : string) : bool :=
  String.prefix needle s || match s with EmptyString => false | String _ s => contains needle s end.

Definition is_block_not_found_on_disk (err : ErrorSources) : bool := contains "Block not found on disk" (error_chain err).
Definition is_transport_error (err : ClientError) : bool := match err with Transport _ _ => true | _ => false end.
Definition chain_has_transport_error (err : ErrorSources) : bool :=
  existsb (fun e => match e.2 with Some c => is_transport_error c | None => false end) err.

Definition is_resyncable (e : MempoolTask) : bool :=
  match e with
  | SyncTask inner | InitialSync inner =>
      match inner with
      | STE_SequenceStream | STE_InitialSyncEnforcer ISE_SequenceStream => true
      | STE_JsonRpc err | STE_InitialSyncEnforcer (ISE_JsonRpc err) => is_transport_error err
      | STE_InitialSyncEnforcer (ISE_CusfEnforcer err) => is_block_not_found_on_disk err
      | STE_Request err => chain_has_transport_error err
      | STE_ApplySyncActionTimeout => true
      | _ => false
      end
  | _ => false
  end.

Definition enforcer_task_is_resyncable (err : TaskError) : bool :=
  match err with
  | TE_ZmqSequence | TE_InitialSync ISE_SequenceStream => true
  | TE_JsonRpc err | TE_InitialSync (ISE_JsonRpc err) => is_transport_error err
  | TE_InitialSync (ISE_CusfEnforcer err) => is_block_not_found_on_disk err
  | _ => false
  end.

(** The reports that end a task *)
Inductive Report :=
| R_TaskExited            (** the sync task exited without an error *)
| R_NetworkInfo | R_NotConnected | R_SampleTemplate | R_ServerNew
| R_GbtBind | R_WalletNotInitialized | R_MiningAddress.

(** ** Syncing again *)

Definition MAX_CONSECUTIVE_RESYNCS : nat := 5.
(** In milliseconds *)
Definition RESYNC_BUDGET_RESET : Z := 60000.

Inductive AttemptError (E : Type) := AE_Task (e : E) | AE_Fatal (r : Report).
Arguments AE_Task {_} _.
Arguments AE_Fatal {_} _.

(** How the task ends: with an error of its own, after too many attempts, or with a report. *)
Inductive ResyncError (E : Type) := RE_Task (e : E) | RE_GaveUp (e : E) | RE_Fatal (r : Report).
Arguments RE_Task {_} _.
Arguments RE_GaveUp {_} _.
Arguments RE_Fatal {_} _.

(** One attempt as it happens: what it does, its result, how long it runs, and whether
    shutdown was requested when it failed or during the delay that follows *)
Record Attempt (Ev E : Type) := mkAttempt {
  at_events : list Ev;
  at_result : Res (AttemptError E) unit;
  at_elapsed : Z;
  at_cancelled : bool;
  at_cancelled_in_delay : bool }.
Arguments mkAttempt {_ _} _ _ _ _ _.
Arguments at_events {_ _} _.
Arguments at_result {_ _} _.
Arguments at_elapsed {_ _} _.
Arguments at_cancelled {_ _} _.
Arguments at_cancelled_in_delay {_ _} _.

Section Resync.
Context {Ev E : Type}.
Variable resyncable : E -> bool.
(** The attempt with a number, unless it goes on for ever *)
Variable attempt : nat -> option (Attempt Ev E).

(** The loop from attempt [i] on. It can go on for ever, so [fuel] bounds the attempts. *)
Fixpoint resync_loop (fuel i consecutive : nat) : option (list Ev * Res (ResyncError E) unit) :=
  match fuel with
  | O => None
  | S fuel =>
      a ← attempt i;
      match at_result a with
      | Ok _ => Some (at_events a, Ok tt)
      | Err (AE_Fatal r) => Some (at_events a, Err (RE_Fatal r))
      | Panic => Some (at_events a, Panic)
      | Err (AE_Task err) =>
          if negb (resyncable err) || at_cancelled a then Some (at_events a, Err (RE_Task err)) else
          let consecutive := S (if bool_decide (RESYNC_BUDGET_RESET <= at_elapsed a) then O else consecutive) in
          if bool_decide (MAX_CONSECUTIVE_RESYNCS < consecutive)%nat then Some (at_events a, Err (RE_GaveUp err)) else
          if at_cancelled_in_delay a then Some (at_events a, Ok tt) else
          '(evs, r) ← resync_loop fuel (S i) consecutive; Some (at_events a ++ evs, r)
      end
  end.

Definition run_with_resync (fuel : nat) : option (list Ev * Res (ResyncError E) unit) := resync_loop fuel 0 0.
End Resync.

(** ** Waiting *)

(** What the shutdown signal and the error channel do: a shutdown that is ready wins. *)
Inductive Wait := W_Cancelled | W_Error (e : MempoolTask) | W_Dropped (cancelled : bool).
Definition wait_for_error_or_shutdown (w : Wait) : Res Report (option MempoolTask) :=
  match w with
  | W_Cancelled => Ok None
  | W_Error e => Ok (Some e)
  | W_Dropped false => Err R_TaskExited
  | W_Dropped true => Ok None
  end.

(** The callback of the sync task: what it puts on the error channel *)
Definition report_sync_error (e : SyncTaskError) : option MempoolTask :=
  match e with STE_Shutdown => None | e => Some (SyncTask e) end.

(** [biased]: a shutdown that was requested is seen first, and a channel whose sender was
    dropped without a message is only seen otherwise. *)
Definition wait_of (cancelled : bool) (err : SyncTaskError) : Wait :=
  if cancelled then W_Cancelled else match report_sync_error err with Some e => W_Error e | None => W_Dropped false end.

(** ** A mempool sync *)

(** What is asked of the node, in order *)
Inductive TaskEvent :=
| ZmqProbed | MempoolDumped | Synced
| Published | WaitEnded | Cleared | Stopped.
#[global] Instance TaskEvent_eq_dec : EqDecision TaskEvent.
Proof. solve_decision. Defined.

(** What an attempt of a mempool task meets *)
Record World := mkWorld {
  w_zmq : option bool;                 (** is the port open, [None] for an I/O error *)
  w_initial_sync : option SyncTaskError;
  w_network_info : bool;
  w_templates : list (option ClientError);  (** the answers to [getblocktemplate] *)
  w_server_new : bool;
  w_wait : Wait;
  w_elapsed : Z;
  w_cancelled : bool;
  w_cancelled_in_delay : bool }.

(** [is_address_port_open] after its [strip_prefix]: an address of another kind is empty. *)
Definition zmq_host (addr : string) : string := if String.prefix "tcp://" addr then substring 6 (String.length addr - 6) addr else "".
(** The connection's outcome within the timeout: open, refused or late, or another error *)
Inductive Connect := Connected | Refused | TimedOut | ConnectFailed.
Definition is_address_port_open (c : Connect) : option bool :=
  match c with Connected => Some true | Refused | TimedOut => Some false | ConnectFailed => None end.

Definition sync_mempool (zmq_addr_sequence : string) (mempool_dat : bool) (w : World) : list TaskEvent * Res MempoolTask unit :=
  match w_zmq w with
  | Some true =>
      let dumped := if mempool_dat then [MempoolDumped] else [] in
      match w_initial_sync w with
      | None => ([ZmqProbed] ++ dumped ++ [Synced], Ok tt)
      | Some e => ([ZmqProbed] ++ dumped, Err (InitialSync e))
      end
  | Some false => ([ZmqProbed], Err (ZmqNotReachable zmq_addr_sequence))
  | None => ([ZmqProbed], Err (ZmqCheck zmq_addr_sequence))
  end.

Definition attempt_of {E} (w : World) (r : list TaskEvent * Res (AttemptError E) unit) : Attempt TaskEvent E :=
  mkAttempt r.1 r.2 (w_elapsed w) (w_cancelled w) (w_cancelled_in_delay w).

Definition wait_result (w : World) : Res (AttemptError MempoolTask) unit :=
  match wait_for_error_or_shutdown (w_wait w) with
  | Ok None => Ok tt
  | Ok (Some err) => Err (AE_Task err)
  | Err r => Err (AE_Fatal r)
  | Panic => Panic
  end.

Definition validator_attempt (zmq : string) (mempool_dat : bool) (w : World) : Attempt TaskEvent MempoolTask :=
  attempt_of w
    (let '(evs, r) := sync_mempool zmq mempool_dat w in
     match map_err AE_Task r with
     | Ok _ => (evs ++ [WaitEnded], wait_result w)
     | Err e => (evs, Err e)
     | Panic => (evs, Panic)
     end).
Definition run_validator_mempool_task (fuel : nat) (zmq : string) (mempool_dat : bool) (world : nat -> World) :=
  run_with_resync is_resyncable (fun i => Some (validator_attempt zmq mempool_dat (world i))) fuel.

(** The task of the mempool library as it ends in each attempt *)
Definition run_no_mempool_task (fuel : nat) (task : nat -> option (Attempt TaskEvent TaskError)) :=
  run_with_resync enforcer_task_is_resyncable task fuel.

(** ** The block template server *)

Definition RPC_CLIENT_NOT_CONNECTED : Z := -9.
Definition RPC_CLIENT_IN_INITIAL_DOWNLOAD : Z := -10.
Definition INTERNAL_ERROR_CODE : Z := -32603.

(** The loop for the sample template, over the node's answers. [None]: the node has not
    answered with anything else yet. *)
Fixpoint sample_block_template (answers : list (option ClientError)) : option (Res Report unit) :=
  match answers with
  | [] => None
  | None :: _ => Some (Ok tt)
  | Some err :: answers =>
      match err with
      | Call code _ =>
          if bool_decide (code = RPC_CLIENT_IN_INITIAL_DOWNLOAD) then sample_block_template answers
          else if bool_decide (code = RPC_CLIENT_NOT_CONNECTED) then Some (Err R_NotConnected)
          else Some (Err R_SampleTemplate)
      | _ => Some (Err R_SampleTemplate)
      end
  end.

Definition build_block_template_server (w : World) : option (Res Report unit) :=
  if negb (w_network_info w) then Some (Err R_NetworkInfo) else
  _ ⇐ sample_block_template (w_templates w);
  Some (if w_server_new w then Ok tt else Err R_ServerNew).

(** The attempt of a block producer. One whose template never comes is still waiting. *)
Definition producer_attempt (gbt : bool) (zmq : string) (mempool_dat : bool) (w : World) : option (Attempt TaskEvent MempoolTask) :=
  attempt_of w <$>
    (let '(evs, r) := sync_mempool zmq mempool_dat w in
     match map_err AE_Task r with
     | Ok _ =>
         if gbt then
           match build_block_template_server w with
           | None => None
           | Some (Ok _) => Some (evs ++ [Published; WaitEnded; Cleared], wait_result w)
           | Some (Err r) => Some (evs, Err (AE_Fatal r))
           | Some Panic => Some (evs, Panic)
           end
         else Some (evs ++ [WaitEnded], wait_result w)
     | Err e => Some (evs, Err e)
     | Panic => Some (evs, Panic)
     end).

(** [gbt]: whether templates are served, and then whether the endpoint can be bound *)
Definition run_block_producer_mempool_task (fuel : nat) (gbt : option bool) (zmq : string) (mempool_dat : bool) (world : nat -> World)
    : option (list TaskEvent * Res (ResyncError MempoolTask) unit) :=
  let serve := bool_decide (is_Some gbt) in
  if bool_decide (gbt = Some false) then Some ([], Err (RE_Fatal R_GbtBind)) else
  '(evs, r) ← run_with_resync is_resyncable (fun i => producer_attempt serve zmq mempool_dat (world i)) fuel;
  Some (evs ++ (if serve then [Stopped] else []), r).

(** What the task of the wallet finds: a loaded wallet, [--enable-block-template-server],
    [--coinbase-recipient], and a new address of the wallet if it has one to give *)
Definition run_wallet_mempool_task {Addr} (fuel : nat) (is_initialized enable_block_template_server : bool) (coinbase_recipient new_address : option Addr) (can_bind : bool)
    (zmq : string) (mempool_dat : bool) (world : nat -> World) : option (list TaskEvent * Res (ResyncError MempoolTask) unit) :=
  if negb is_initialized then Some ([], Err (RE_Fatal R_WalletNotInitialized)) else
  if enable_block_template_server then
    match (match coinbase_recipient with Some addr => Some addr | None => new_address end) with
    | None => Some ([], Err (RE_Fatal R_MiningAddress))
    | Some _ => run_block_producer_mempool_task fuel (Some can_bind) zmq mempool_dat world
    end
  else run_block_producer_mempool_task fuel None zmq mempool_dat world.

(** ** Requests *)

(** The slot of [GbtSlot], [true] when a server is published: [publish], [clear] *)
Definition slot_step (slot : bool) (e : TaskEvent) : bool :=
  match e with Published => true | Cleared => false | _ => slot end.
Definition slot_after (evs : list TaskEvent) : bool := foldl slot_step false evs.

Inductive RpcAnswer (A : Type) := Answer (a : A) | RpcError (code : Z) (message : string).
Arguments Answer {_} _.
Arguments RpcError {_} _ _.

Definition get_block_template {A} (slot : bool) (server : RpcAnswer A) : RpcAnswer A :=
  if slot then server else RpcError RPC_CLIENT_IN_INITIAL_DOWNLOAD "enforcer is still syncing, and cannot build block templates yet".

Definition submit_block {A} (slot : bool) (server : RpcAnswer A) (node : Res ClientError A) : option (RpcAnswer A) :=
  if slot then Some server else
  match node with
  | Ok a => Some (Answer a)
  | Err (Call code message) => Some (RpcError code message)
  | Err _ => Some (RpcError INTERNAL_ERROR_CODE "Internal error")
  | Panic => None
  end.
