(* ===== verification/TaskProofs.v ===== *)
(** * Theorems on the tasks of the application

    When the loop gives up, and when block templates are served. *)

From Stdlib Require Import Strings.String.
From stdpp Require Import base numbers list strings.
From S2P Require Import Prelude Tasks.
Open Scope Z_scope.

(** ** The budget *)

Section Budget.
Context {Ev E : Type} (resyncable : E -> bool) (attempt : nat -> option (Attempt Ev E)).

(** Attempt [j] fails with an error that a fresh sync can clear, while nobody asks for shutdown. *)
Definition fails (j : nat) (e : E) : Prop :=
  exists a, attempt j = Some a /\ at_result a = Err (AE_Task e) /\ resyncable e = true /\ at_cancelled a = false.
Definition goes_on (j : nat) : Prop := exists a e, attempt j = Some a /\ fails j e /\ at_cancelled_in_delay a = false.
Definition quick (j : nat) : Prop := exists a, attempt j = Some a /\ at_elapsed a < RESYNC_BUDGET_RESET.

#[local] Instance quick_dec j : Decision (quick j).
Proof.
  unfold quick. destruct (attempt j) as [a|] eqn:Ej.
  - destruct (decide (at_elapsed a < RESYNC_BUDGET_RESET)) as [H|H]; [left; by exists a|right; intros (a' & [= <-] & ?); done].
  - right. by intros (a & ? & _).
Defined.

Definition long (j : nat) : bool := match attempt j with Some a => bool_decide (RESYNC_BUDGET_RESET <= at_elapsed a) | None => false end.

(** The counter after attempt [i + n] failed, from [c] before attempt [i] *)
Fixpoint streak (i c n : nat) : nat := S (if long (i + n) then O else match n with O => c | S n => streak i c n end).

Lemma streak_S i c n : streak i c (S n) = streak (S i) (streak i c 0) n.
Proof.
  induction n as [|n IH]; [cbn [streak]; by rewrite Nat.add_succ_r, !Nat.add_0_r|].
  change (streak (S i) (streak i c 0) (S n)) with (S (if long (S i + S n) then O else streak (S i) (streak i c 0) n)). rewrite <- IH.
  change (streak i c (S (S n))) with (S (if long (i + S (S n)) then O else streak i c (S n))). by rewrite (Nat.add_succ_r i (S n)).
Qed.

(** The loop from attempt [i] on gives up at attempt [i + n]. *)
Definition gives_up_at (i c n : nat) (e : E) : Prop :=
  (forall j, (j < n)%nat -> goes_on (i + j) /\ (streak i c j <= MAX_CONSECUTIVE_RESYNCS)%nat) /\
  fails (i + n) e /\ (MAX_CONSECUTIVE_RESYNCS < streak i c n)%nat.

Lemma fails_step fuel i c a e : attempt i = Some a -> fails i e ->
  resync_loop resyncable attempt (S fuel) i c =
  if bool_decide (MAX_CONSECUTIVE_RESYNCS < streak i c 0)%nat then Some (at_events a, Err (RE_GaveUp e)) else
  if at_cancelled_in_delay a then Some (at_events a, Ok tt) else
  '(evs, r) ← resync_loop resyncable attempt fuel (S i) (streak i c 0); Some (at_events a ++ evs, r).
Proof.
  intros Ha (a' & Ha' & Hr & Hres & Hc). rewrite Ha in Ha'. injection Ha' as <-. cbn [resync_loop streak]. unfold long. rewrite Nat.add_0_r, Ha. cbn [mbind option_bind].
  by rewrite Hr, Hres, Hc.
Qed.

Lemma gives_up_shift i c n e : goes_on i -> (streak i c 0 <= MAX_CONSECUTIVE_RESYNCS)%nat ->
  gives_up_at (S i) (streak i c 0) n e -> gives_up_at i c (S n) e.
Proof.
  intros Hg Hs (Hj & Hf & Hn). split_and!; [|by rewrite Nat.add_succ_r|by rewrite streak_S].
  intros [|j] Hlt; [by rewrite Nat.add_0_r|]. rewrite Nat.add_succ_r, streak_S. apply Hj. lia.
Qed.

Lemma gives_up_unshift i c n e : gives_up_at i c (S n) e ->
  goes_on i /\ (streak i c 0 <= MAX_CONSECUTIVE_RESYNCS)%nat /\ gives_up_at (S i) (streak i c 0) n e.
Proof.
  intros (Hj & Hf & Hn). destruct (Hj 0%nat) as [Hg Hs]; [lia|]. rewrite Nat.add_0_r in Hg. split_and!; [done..|]. split_and!.
  - intros j Hlt. destruct (Hj (S j)) as [? Hs']; [lia|]. rewrite streak_S in Hs'. by rewrite Nat.add_succ_r in *.
  - by rewrite Nat.add_succ_r in Hf.
  - by rewrite streak_S in Hn.
Qed.

Lemma loop_gives_up fuel i c evs e : resync_loop resyncable attempt fuel i c = Some (evs, Err (RE_GaveUp e)) -> exists n, (n < fuel)%nat /\ gives_up_at i c n e.
Proof.
  revert i c evs. induction fuel as [|fuel IH]; intros i c evs; [done|]. intros Hl. destruct (attempt i) as [a|] eqn:Ha; [|cbn in Hl; by rewrite Ha in Hl].
  destruct (at_result a) as [?|[e'|?]|] eqn:Hr; try (cbn in Hl; rewrite Ha in Hl; cbn in Hl; by rewrite Hr in Hl).
  destruct (negb (resyncable e') || at_cancelled a) eqn:Hx; [cbn in Hl; rewrite Ha in Hl; cbn in Hl; by rewrite Hr, Hx in Hl|].
  apply orb_false_iff in Hx as [Hres%negb_false_iff Hc]. assert (Hf : fails i e') by (by exists a).
  rewrite (fails_step _ _ _ a e') in Hl by done. case_bool_decide as Hs.
  - injection Hl as <- <-. exists 0%nat. split; [lia|]. split_and!; [lia|by rewrite Nat.add_0_r|done].
  - destruct (at_cancelled_in_delay a) eqn:Hd; [done|]. destruct (resync_loop _ _ fuel _ _) as [[evs' r]|] eqn:El; [|done]. cbn in Hl. injection Hl as <- ->.
    destruct (IH _ _ _ El) as (n & Hn & Hg). exists (S n). split; [lia|]. apply gives_up_shift; [by exists a, e'|lia|done].
Qed.

Lemma gives_up_loop n i c e : gives_up_at i c n e -> exists evs, resync_loop resyncable attempt (S n) i c = Some (evs, Err (RE_GaveUp e)).
Proof.
  revert i c. induction n as [|n IH]; intros i c Hg.
  - destruct Hg as (_ & Hf & Hs). rewrite Nat.add_0_r in Hf. pose proof Hf as (a & Ha & _). rewrite (fails_step _ _ _ a e) by done. rewrite bool_decide_eq_true_2 by done. by eexists.
  - apply gives_up_unshift in Hg as ((a & e' & Ha & Hf & Hd) & Hs & Hg). destruct (IH _ _ Hg) as [evs Hl]. rewrite (fails_step _ _ _ a e') by done.
    rewrite bool_decide_eq_false_2 by lia. rewrite Hd, Hl. by eexists.
Qed.

(** The counter in terms of the attempts: it is above [k] if the last [k] attempts were quick. *)
Lemma streak_above n k : (forall j, (j <= n)%nat -> is_Some (attempt j)) ->
  (k < streak 0 0 n)%nat <-> (k <= n)%nat /\ forall j, (n - k < j <= n)%nat -> quick j.
Proof.
  revert k. induction n as [|n IH]; intros k Hsome.
  - destruct (Hsome 0%nat) as [a Ha]; [lia|]. cbn. unfold long. rewrite Ha. case_bool_decide; (split; [intros ?; split; [lia|intros j ?; lia]|intros [? _]; lia]).
  - cbn [streak Nat.add]. destruct (Hsome (S n)) as [a Ha]; [lia|]. unfold long. rewrite Ha. destruct k as [|k]; [split; [intros _; split; [lia|intros j ?; lia]|intros _; lia]|].
    specialize (IH k ltac:(auto with lia)). case_bool_decide as Hl.
    + split; [lia|]. intros [_ Hq]. destruct (Hq (S n)) as (a' & Ha' & ?); [lia|]. rewrite Ha in Ha'. injection Ha' as <-. lia.
    + assert (Hn : quick (S n)) by (exists a; split; [done|lia]). split.
      * intros Hs. destruct IH as [[Hk Hq] _]; [lia|]. split; [lia|]. intros j Hj. destruct (decide (j = S n)) as [->|]; [done|apply Hq; lia].
      * intros [Hk Hq]. enough (k < streak 0 0 n)%nat by lia. apply IH. split; [lia|]. intros j Hj. apply Hq. lia.
Qed.

(** C36. The budget of attempts: the loop gives up with an error exactly when some attempt fails with
    it as at least the sixth in a row, all of them recoverably and without a shutdown in between,
    and the last five of these attempts each ran for less than a minute. It does so at the
    first such attempt. *)
Theorem resync_budget e :
  (exists fuel evs, run_with_resync resyncable attempt fuel = Some (evs, Err (RE_GaveUp e))) <->
  exists n, (5 <= n)%nat /\ (forall j, (j < n)%nat -> goes_on j) /\ fails n e /\ (forall j, (n - 5 < j <= n)%nat -> quick j) /\
    forall m, (5 <= m < n)%nat -> exists j, (m - 5 < j <= m)%nat /\ ~ quick j.
Proof.
  assert (Hsome : forall n, (forall j, (j < n)%nat -> goes_on j) -> fails n e -> forall j, (j <= n)%nat -> is_Some (attempt j)).
  { intros n Hg (a & Ha & _) j Hj. destruct (decide (j = n)) as [->|]; [by eexists|]. destruct (Hg j) as (a' & _ & -> & _); [lia|by eexists]. }
  split.
  - intros (fuel & evs & Hr). apply loop_gives_up in Hr as (n & _ & Hj & Hf & Hs). cbn [Nat.add] in *.
    assert (Hg : forall j, (j < n)%nat -> goes_on j) by (intros j ?; by apply Hj). pose proof (Hsome n Hg Hf) as Ha.
    apply (streak_above n 5 Ha) in Hs as [H5 Hq]. exists n. split_and!; [done..|]. intros m Hm. destruct (Hj m) as [_ Hle]; [lia|].
    destruct (decide (Exists (fun j => ~ quick j) (seq (m - 5 + 1) 5))) as [He|He].
    + apply Exists_exists in He as (j & Hin%elem_of_seq & Hnq). exists j. split; [lia|done].
    + exfalso. assert (Hlt : (5 < streak 0 0 m)%nat); [|unfold MAX_CONSECUTIVE_RESYNCS in *; lia].
      apply (streak_above m 5); [intros j ?; apply Ha; lia|]. split; [lia|]. intros j Hj'. apply not_Exists_Forall in He; [|intros ?; apply _].
      rewrite Forall_forall in He. destruct (decide (quick j)) as [?|Hnq]; [done|]. by destruct (He j) ; [apply elem_of_seq; lia|].
  - intros (n & H5 & Hg & Hf & Hq & Hm). pose proof (Hsome n Hg Hf) as Ha. exists (S n). destruct (gives_up_loop n 0 0 e) as [evs He]; [|by exists evs]. split_and!; [|done|].
    + intros j Hj. split; [by apply Hg|]. apply Nat.nlt_ge. intros Hlt. apply (streak_above j 5) in Hlt as [Hj5 Hqj]; [|intros k ?; apply Ha; lia].
      destruct (Hm j) as (k & Hk & Hnq); [lia|]. by apply Hnq, Hqj.
    + by apply (streak_above n 5).
Qed.
End Budget.

(** ** Block templates *)

(** What the attempts of a block producer do, also one that still waits for a template *)
Definition attempt_events (gbt : bool) (zmq : string) (mempool_dat : bool) (w : World) : list TaskEvent :=
  from_option at_events (sync_mempool zmq mempool_dat w).1 (producer_attempt gbt zmq mempool_dat w).
Definition trace (gbt : bool) (zmq : string) (mempool_dat : bool) (world : nat -> World) (n : nat) : list TaskEvent :=
  concat ((fun i => attempt_events gbt zmq mempool_dat (world i)) <$> seq 0 n).

(** The mempool was synced and the server published, and the slot has not been cleared since:
    the sync goes on, or it has ended just now. *)
Definition serving (p : list TaskEvent) : Prop := exists q, p = q ++ [Synced; Published] \/ p = q ++ [Synced; Published; WaitEnded].

Lemma slot_after_app p q : slot_after (p ++ q) = foldl slot_step (slot_after p) q.
Proof. apply foldl_app. Qed.

Lemma serving_slot p : serving p -> slot_after p = true.
Proof. intros [q [->| ->]]; by rewrite slot_after_app. Qed.

(** The events before the sync *)
Definition before (dumped : bool) : list TaskEvent := ZmqProbed :: if dumped then [MempoolDumped] else [].

Lemma attempt_events_cases gbt zmq dat w : exists dumped after, attempt_events gbt zmq dat w = before dumped ++ after /\
  (after = [] \/ after = [Synced] \/ after = [Synced; WaitEnded] \/ after = [Synced; Published; WaitEnded; Cleared]).
Proof.
  unfold attempt_events, producer_attempt, sync_mempool. destruct (w_zmq w) as [[]|]; cbn; [|by exists false, []; auto..].
  exists dat. destruct (w_initial_sync w) as [e|]; cbn; [exists []; split; [by destruct dat|by left]|].
  destruct gbt; cbn; [destruct (build_block_template_server w) as [[]|]; cbn|].
  all: eexists; split; [rewrite <- ?app_assoc; by destruct dat|]; auto.
Qed.

Lemma prefix_is_take {A} (p l : list A) : p `prefix_of` l -> exists k, p = take k l.
Proof. intros [rest ->]. exists (length p). by rewrite take_app_length. Qed.

Lemma slot_in_attempt gbt zmq dat w p : p `prefix_of` attempt_events gbt zmq dat w -> slot_after p = true -> serving p.
Proof.
  destruct (attempt_events_cases gbt zmq dat w) as (dumped & after & -> & Ha). intros [k ->]%prefix_is_take.
  destruct dumped, Ha as [-> |[-> |[-> | ->]]]; destruct k as [|[|[|[|[|[|[|k]]]]]]]; cbn; try done.
  all: try (intros _; first [exists [ZmqProbed; MempoolDumped]; by auto | exists [ZmqProbed]; by auto]).
Qed.

Lemma slot_after_attempt gbt zmq dat w b : foldl slot_step b (attempt_events gbt zmq dat w) = true -> b = true.
Proof. destruct (attempt_events_cases gbt zmq dat w) as (dumped & after & -> & Ha). by destruct dumped, Ha as [-> |[-> |[-> | ->]]]. Qed.

Lemma trace_S gbt zmq dat world n : trace gbt zmq dat world (S n) = trace gbt zmq dat world n ++ attempt_events gbt zmq dat (world n).
Proof. unfold trace. rewrite seq_S, fmap_app, concat_app. cbn. by rewrite app_nil_r. Qed.

Lemma slot_after_trace gbt zmq dat world n : slot_after (trace gbt zmq dat world n) = false.
Proof. apply not_true_is_false. induction n as [|n IH]; [done|]. rewrite trace_S, slot_after_app. by intros ?%slot_after_attempt. Qed.

Lemma serving_app p q : serving q -> serving (p ++ q).
Proof. intros [r [-> | ->]]; exists (p ++ r); rewrite app_assoc; auto. Qed.

Lemma slot_serving gbt zmq dat world n p : p `prefix_of` trace gbt zmq dat world n -> slot_after p = true -> serving p.
Proof.
  revert p. induction n as [|n IH]; intros p; [intros [k ->]%prefix_is_take; cbn; by rewrite take_nil|]. rewrite trace_S. intros [k ->]%prefix_is_take. rewrite take_app.
  destruct (decide (k <= length (trace gbt zmq dat world n))%nat) as [Hk|Hk].
  - replace (k - length (trace gbt zmq dat world n))%nat with 0%nat by lia. rewrite take_0, app_nil_r. apply IH, prefix_take.
  - rewrite (take_ge (trace gbt zmq dat world n)), slot_after_app, slot_after_trace by lia. intros Hs. apply serving_app. eapply slot_in_attempt; [apply prefix_take|exact Hs].
Qed.

Lemma loop_trace gbt zmq dat world fuel i c evs r :
  resync_loop is_resyncable (fun i => producer_attempt gbt zmq dat (world i)) fuel i c = Some (evs, r) ->
  exists n, evs = concat ((fun i => attempt_events gbt zmq dat (world i)) <$> seq i n).
Proof.
  revert i c evs. induction fuel as [|fuel IH]; intros i c evs; [done|]. cbn [resync_loop]. destruct (producer_attempt gbt zmq dat (world i)) as [a|] eqn:Ha; [|done]. cbn [mbind option_bind].
  assert (E1 : at_events a = attempt_events gbt zmq dat (world i)) by (unfold attempt_events; by rewrite Ha).
  assert (Hend : forall r' : Res (ResyncError MempoolTask) unit, Some (at_events a, r') = Some (evs, r) -> exists n, evs = concat ((fun i => attempt_events gbt zmq dat (world i)) <$> seq i n)).
  { intros r' [= <- _]. exists 1%nat. cbn. by rewrite E1, app_nil_r. }
  destruct (at_result a) as [?|[e|?]|]; [by apply Hend| |by apply Hend..]. destruct (negb _ || _); [by apply Hend|]. destruct (bool_decide (MAX_CONSECUTIVE_RESYNCS < _)%nat); [by apply Hend|]. destruct (at_cancelled_in_delay a); [by apply Hend|].
  destruct (resync_loop _ _ fuel _ _) as [[evs' r']|] eqn:El; [|done]. cbn. intros [= <- <-].
  destruct (IH _ _ _ El) as [n ->]. exists (S n). cbn. by rewrite E1.
Qed.

Lemma prefix_app_cases {A} (p l1 l2 : list A) : p `prefix_of` l1 ++ l2 -> p `prefix_of` l1 \/ exists q, p = l1 ++ q /\ q `prefix_of` l2.
Proof. intros [r E]. apply app_eq_inv in E as [(k & -> & ->)|(k & -> & ->)]; [left|right]; [by exists k|]. exists k. split; [done|]. by exists r. Qed.

(** What comes next while templates are served *)
Lemma next_in_attempt gbt zmq dat w p e : p ++ [e] `prefix_of` attempt_events gbt zmq dat w -> slot_after p = true ->
  e = match last p with Some Published => WaitEnded | _ => Cleared end.
Proof.
  destruct (attempt_events_cases gbt zmq dat w) as (dumped & after & -> & Ha). intros [rest E].
  assert (Ep : p = take (length p) (before dumped ++ after)) by (by rewrite E, <- app_assoc, take_app_length).
  assert (Ee : (before dumped ++ after) !! length p = Some e) by (rewrite E, <- app_assoc; by apply list_lookup_middle).
  revert Ep Ee. generalize (length p) as k. intros k Ep Ee. rewrite Ep. clear E Ep.
  destruct dumped, Ha as [-> |[-> |[-> | ->]]]; destruct k as [|[|[|[|[|[|k]]]]]]; intros Hs; rewrite ?lookup_nil in Ee; simplify_eq/=; done.
Qed.

Lemma next_served gbt zmq dat world n p e : p ++ [e] `prefix_of` trace gbt zmq dat world n -> slot_after p = true ->
  e = match last p with Some Published => WaitEnded | _ => Cleared end.
Proof.
  revert p. induction n as [|n IH]; intros p; [intros Hp%prefix_nil_inv; by destruct p|]. rewrite trace_S. intros Hp Hs.
  apply prefix_app_cases in Hp as [Hp|(q & E & Hq)]; [by apply IH|].
  destruct q as [|x q _] using rev_ind.
  - rewrite app_nil_r in E. apply IH; [by rewrite E|done].
  - rewrite app_assoc in E. apply app_inj_tail in E as [-> ->]. rewrite slot_after_app, slot_after_trace in Hs. fold (slot_after q) in Hs.
    rewrite (next_in_attempt _ _ _ _ _ _ Hq Hs). assert (Hne : q <> []) by (by intros ->). destruct q as [|y q _] using rev_ind; [done|]. by rewrite app_assoc, !last_snoc.
Qed.

(** C28. When block templates are served. A request that arrives while the task runs is answered by
    the server exactly if the mempool has been synced, the server was published after that, and the
    slot has not been cleared since; at any other time, also between a failed sync and the
    next one, the answer is Bitcoin Core's error for a node that is syncing. The slot is cleared
    right after the sync has ended: while templates are served, nothing happens but the end of the sync,
    and after it nothing but the clearing. When the task ends, nothing is served and the endpoint is stopped. *)
Theorem templates_while_published {A} (gbt : bool) zmq dat world n p (server : RpcAnswer A) :
  (p `prefix_of` trace gbt zmq dat world n ->
   (serving p /\ get_block_template (slot_after p) server = server) \/
   (~ serving p /\ exists m, get_block_template (slot_after p) server = RpcError RPC_CLIENT_IN_INITIAL_DOWNLOAD m)) /\
  (forall e, serving p -> p ++ [e] `prefix_of` trace gbt zmq dat world n -> e = if decide (last p = Some Published) then WaitEnded else Cleared) /\
  forall fuel evs r, run_block_producer_mempool_task fuel (Some true) zmq dat world = Some (evs, r) ->
    slot_after evs = false /\ last evs = Some Stopped /\ exists n, evs = trace true zmq dat world n ++ [Stopped].
Proof.
  split_and!.
  - intros Hp. destruct (slot_after p) eqn:Hs.
    + left. split; [by eapply slot_serving|done].
    + right. split; [intros ?%serving_slot; congruence|by eexists].
  - intros e Hs%serving_slot Hp. rewrite (next_served _ _ _ _ _ _ _ Hp Hs). destruct (last p) as [[]|]; by case_decide.
  - intros fuel evs r. unfold run_block_producer_mempool_task, run_with_resync. rewrite bool_decide_eq_false_2, bool_decide_eq_true_2 by done.
    destruct (resync_loop _ _ fuel 0 0) as [[evs' r']|] eqn:E; [|done]. cbn. intros [= <- <-]. apply loop_trace in E as [m ->].
    fold (trace true zmq dat world m). rewrite slot_after_app, slot_after_trace, last_snoc. split_and!; [done..|by exists m].
Qed.

(** A request that arrives after the sync has ended and before the slot is cleared is still answered
    with a template of the mempool that is no longer updated. *)
Lemma served_after_sync {A} zmq w (server : RpcAnswer A) :
  w_zmq w = Some true -> w_initial_sync w = None -> build_block_template_server w = Some (Ok tt) ->
  exists p, p `prefix_of` attempt_events true zmq false w /\ last p = Some WaitEnded /\ get_block_template (slot_after p) server = server.
Proof.
  intros Hz Hi Hb. exists [ZmqProbed; Synced; Published; WaitEnded]. split; [|done]. unfold attempt_events, producer_attempt, sync_mempool.
  rewrite Hz, Hi. cbn. rewrite Hb. cbn. by exists [Cleared].
Qed.
