(* ===== verification/Http.v ===== *)
(** * The HTTP layers of the servers

    [app/main.rs]: the access log, the layers that fill in what a request leaves out, and the
    layers that catch panics. A handler is what it does with a request; a client is how
    long it stays. Every answered call is logged once, with the outcome the client sees; defaults
    are filled in without touching what a request has. *)

From Stdlib Require Import Strings.String Strings.Ascii.
From stdpp Require Import base numbers list strings sets.
From S2P Require Import Prelude Proto.
Open Scope Z_scope.

(** ** Panics *)

(** What a future does when it is awaited *)
Inductive Run (A : Type) := Returns (a : A) | Panics (message : string).
Arguments Returns {_} _.
Arguments Panics {_} _.

(** The codes the layers answer with themselves, and those of the handlers *)
Inductive RpcCode := Canceled | InternalCode | HandlerCode (c : ErrorCode).
#[global] Instance RpcCode_eq_dec : EqDecision RpcCode.
Proof. solve_decision. Defined.
Record RpcFailure := mkRpcFailure { rf_code : RpcCode; rf_message : option string }.

(** [Result<A, ConnectError>] *)
Abbreviation Result A := (RpcFailure + A)%type.

Definition catch_panic {A} (fut : Run A) : Result A :=
  match fut with Returns a => inr a | Panics m => inl (mkRpcFailure InternalCode (Some ("panicked: " ++ m)%string)) end.

(** JSON-RPC: [call] builds the future, which may panic as well. *)
Inductive MethodResponse (A : Type) := MR_Answer (a : A) | MR_Error (code : Z) (message : string).
Arguments MR_Answer {_} _.
Arguments MR_Error {_} _ _.
Definition rpc_panic_response {A} (message : string) : MethodResponse A := MR_Error (-32603) ("panicked: " ++ message)%string.
Definition rpc_catch_panic {A} (call : Run (Run (MethodResponse A))) : MethodResponse A :=
  match call with
  | Panics m => rpc_panic_response m
  | Returns (Panics m) => rpc_panic_response m
  | Returns (Returns response) => response
  end.

(** ** The access log *)

Inductive Level := L_Info | L_Warn | L_Error.
(** An event of the log: from the interceptor with the code of the call, or from the fallback
    with the status of the response *)
Inductive LogEvent := ConnectRpc (level : Level) (code : option RpcCode) | Fallback (level : Level) (status : Z).

(** [http_status] of an error is the library's. *)
Class HttpStatus := http_status : RpcCode -> Z.

Section AccessLog.
Context `{HttpStatus} {A : Type}.

Definition is_server_error (status : Z) : bool := bool_decide (500 <= status < 600).
Definition is_client_error (status : Z) : bool := bool_decide (400 <= status < 500).

(** [RpcCall::finish] *)
Definition finish (err : option RpcFailure) : LogEvent :=
  match err with
  | None => ConnectRpc L_Info None
  | Some e => ConnectRpc (if is_server_error (http_status (rf_code e)) then L_Error else L_Warn) (Some (rf_code e))
  end.

(** A stream of payloads that ends after its items; an item that is no result is a panic. *)
Abbreviation Payloads := (list (Run (Result A))).

(** [LoggedPayloadStream]: what is left of the inner stream, and whether the call is still
    to be logged *)
Record LoggedPayloadStream := mkLogged { lp_inner : Payloads; lp_call : bool }.

Definition finish_stream (s : LoggedPayloadStream) (err : option RpcFailure) : LoggedPayloadStream * list LogEvent :=
  if lp_call s then (mkLogged (lp_inner s) false, [finish err]) else (s, []).

(** [poll_next] when the inner stream is ready *)
Definition poll_next (s : LoggedPayloadStream) : LoggedPayloadStream * list LogEvent * Run (option (Result A)) :=
  match lp_inner s with
  | [] => let '(s, evs) := finish_stream s None in (s, evs, Returns None)
  | item :: rest =>
      let s := mkLogged rest (lp_call s) in
      match item with
      | Panics m => (s, [], Panics m)
      | Returns (inl e) => let '(s, evs) := finish_stream s (Some e) in (s, evs, Returns (Some (inl e)))
      | Returns i => (s, [], Returns (Some i))
      end
  end.

Definition drop_stream (s : LoggedPayloadStream) : list LogEvent :=
  (finish_stream s (Some (mkRpcFailure Canceled (Some "stream dropped before completion")))).2.

(** The response is polled [polls] times, or until a poll panics, and then dropped. *)
Fixpoint drain (polls : nat) (s : LoggedPayloadStream) : list LogEvent :=
  match polls with
  | O => drop_stream s
  | S polls =>
      let '(s, evs, item) := poll_next s in
      evs ++ match item with Panics _ => drop_stream s | Returns _ => drain polls s end
  end.

(** What becomes of a request: a client may go away before it is answered. *)
Inductive Handled :=
| UnaryCall (fut : Run (Result A))
| StreamCall (fut : Run (Result Payloads)) (polls : nat)
| ClientGone.

(** [ConnectCatchPanic] inside [ConnectAccessLog]: [catch_panic(..).await.flatten()] *)
Definition flatten {B} (r : Result (Result B)) : Result B := match r with inr r => r | inl e => inl e end.
Definition err_of {B} (r : Result B) : option RpcFailure := match r with inl e => Some e | inr _ => None end.

Definition intercept (h : Handled) : list LogEvent :=
  match h with
  | UnaryCall fut => [finish (err_of (flatten (catch_panic fut)))]
  | StreamCall fut polls =>
      match flatten (catch_panic fut) with
      | inr body => drain polls (mkLogged body true)
      | inl e => [finish (Some e)]
      end
  | ClientGone => []
  end.

(** How the connect service answers: it dispatches to a handler, or does not and gives a
    status or panics, which is answered with the status of an internal error. *)
Inductive Dispatch := Dispatched (h : Handled) | NotDispatched (status : Run Z).

Definition fallback_event (status : Z) : LogEvent :=
  Fallback (if is_server_error status then L_Error else if is_client_error status then L_Warn else L_Info) status.

Definition connect_rpc_catch_panic (status : Run Z) : Z :=
  match catch_panic status with inr s => s | inl e => http_status (rf_code e) end.

(** [connect_rpc_fallback_log] around the service: the interceptor marks what it has seen. *)
Definition connect_rpc_log (d : Dispatch) : list LogEvent :=
  match d with
  | Dispatched h => intercept h
  | NotDispatched status => [fallback_event (connect_rpc_catch_panic status)]
  end.
End AccessLog.
Arguments UnaryCall {_} _.
Arguments StreamCall {_} _ _.
Arguments ClientGone {_}.
Arguments Dispatched {_} _.
Arguments NotDispatched {_} _.
Arguments mkLogged {_} _ _.
Arguments lp_inner {_} _.
Arguments lp_call {_} _.

(** ** Requests *)

Inductive Method := GET | POST | OtherMethod.
#[global] Instance Method_eq_dec : EqDecision Method.
Proof. solve_decision. Defined.
(** A header is its text, [None] inside if it is not text. *)
Record Request := mkRequest {
  method : Method;
  path : string;
  query : option string;
  content_type : option (option string);
  content_length : option (option string);
  body : string }.

Fixpoint split_on (c : ascii) (s : string) : list string :=
  match s with
  | EmptyString => [""%string]
  | String a s =>
      if decide (a = c) then ""%string :: split_on c s
      else match split_on c s with x :: l => String a x :: l | [] => [String a ""] end
  end.
Definition first_part (c : ascii) (s : string) : string := default ""%string (head (split_on c s)).

Definition is_space (a : ascii) : bool := bool_decide (a = " "%char) || bool_decide (a = "009"%char).
Fixpoint trim_start (s : string) : string :=
  match s with String a r => if is_space a then trim_start r else s | EmptyString => s end.
Fixpoint trim_end (s : string) : string :=
  match s with
  | EmptyString => EmptyString
  | String a r => match trim_end r with EmptyString => if is_space a then EmptyString else String a EmptyString | r => String a r end
  end.
Definition trim (s : string) : string := trim_end (trim_start s).

Definition to_ascii_lowercase (a : ascii) : ascii :=
  let n := nat_of_ascii a in if bool_decide (65 <= n <= 90)%nat then ascii_of_nat (n + 32) else a.
Fixpoint eq_ignore_ascii_case (s t : string) : bool :=
  match s, t with
  | EmptyString, EmptyString => true
  | String a s, String b t => bool_decide (to_ascii_lowercase a = to_ascii_lowercase b) && eq_ignore_ascii_case s t
  | _, _ => false
  end.

(** [str::parse::<u64>]: digits, with an optional sign *)
Definition digit (a : ascii) : option Z :=
  let n := nat_of_ascii a in if bool_decide (48 <= n <= 57)%nat then Some (Z.of_nat n - 48) else None.
Fixpoint digits_val (acc : Z) (s : string) : option Z :=
  match s with
  | EmptyString => Some acc
  | String a s => d ← digit a; if bool_decide (10 * acc + d <= u64_max) then digits_val (10 * acc + d) s else None
  end.
Definition parse_u64 (s : string) : option Z :=
  match (match s with String a r => if decide (a = "+"%char) then r else s | EmptyString => s end) with
  | EmptyString => None
  | s => digits_val 0 s
  end.

Definition fill_empty_json_body (req : Request) : Request :=
  let is_unary_json := bool_decide (method req = POST) &&
    match content_type req with
    | Some (Some v) => eq_ignore_ascii_case (trim (first_part ";"%char v)) "application/json"
    | _ => false
    end in
  let is_empty := match content_length req with None => true | Some v => bool_decide ((v ≫= parse_u64) = Some 0) end in
  if negb is_unary_json || negb is_empty then req
  else mkRequest (method req) (path req) (query req) (content_type req) (Some (Some "2"%string)) "{}".

(** [url::form_urlencoded::byte_serialize] *)
Class FormUrlencoded := byte_serialize : string -> string.

Definition query_keys (q : string) : list string := first_part "="%char <$> filter (fun s => s <> ""%string) (split_on "&"%char q).
Definition push_pair (q pair : string) : string := if decide (q = ""%string) then pair else (q ++ "&" ++ pair)%string.

Definition fill_connect_get_defaults `{FormUrlencoded} (req : Request) : Request :=
  if bool_decide (method req <> GET) then req else
  let existing := default ""%string (query req) in
  let has_encoding := bool_decide ("encoding"%string ∈ query_keys existing) in
  let has_message := bool_decide ("message"%string ∈ query_keys existing) in
  if has_encoding && has_message then req else
  let q := if has_encoding then existing else push_pair existing "encoding=json" in
  let q := if has_message then q else push_pair q ("message=" ++ byte_serialize "{}")%string in
  mkRequest (method req) (path req) (Some q) (content_type req) (content_length req) (body req).

(** ** Theorems *)

(** *** The access log *)

Section AccessLog.
Context `{HttpStatus} {A : Type}.
Implicit Types (body : list (Run (Result A))) (d : Dispatch (A := A)).

Definition goods (xs : list A) : list (Run (Result A)) := (fun x => Returns (inr x)) <$> xs.
Definition dropped : RpcFailure := mkRpcFailure Canceled (Some "stream dropped before completion"%string).

(** A stream that has been logged is not logged again. *)
Lemma drain_logged n body : drain n (mkLogged body false) = [].
Proof.
  revert body. induction n as [|n IH]; intros body; [done|]. cbn. destruct body as [|[[e|x]|m] rest]; cbn; [by rewrite IH..|done].
Qed.

Lemma drain_goods n xs rest : drain n (mkLogged (goods xs ++ rest) true) =
  if bool_decide (n <= length xs)%nat then [finish (Some dropped)] else drain (n - length xs) (mkLogged rest true).
Proof.
  revert n. induction xs as [|x xs IH]; intros n; cbn [length].
  - rewrite Nat.sub_0_r. destruct n; by case_bool_decide; [done || lia|]; try lia.
  - destruct n as [|n]; [done|]. cbn. rewrite IH. repeat case_bool_decide; by try lia.
Qed.

(** The outcome of a streaming call: the client stayed to its end, an error ended it, or it was
    dropped or panicked before *)
Inductive stream_outcome (n : nat) body : option RpcFailure -> Prop :=
| outcome_ok xs : body = goods xs -> (length xs < n)%nat -> stream_outcome n body None
| outcome_error xs e rest : body = goods xs ++ Returns (inl e) :: rest -> (length xs < n)%nat -> stream_outcome n body (Some e)
| outcome_dropped xs rest : body = goods xs ++ rest -> n = length xs -> stream_outcome n body (Some dropped)
| outcome_panicked xs m rest : body = goods xs ++ Panics m :: rest -> (length xs < n)%nat -> stream_outcome n body (Some dropped).

Lemma drain_outcome n body o : stream_outcome n body o -> drain n (mkLogged body true) = [finish o].
Proof.
  destruct 1 as [xs -> Hl|xs e rest -> Hl|xs rest -> ->|xs m rest -> Hl].
  - rewrite <- (app_nil_r (goods xs)), drain_goods, bool_decide_eq_false_2 by lia. destruct (n - length xs)%nat as [|k] eqn:E; [lia|]. cbn. by rewrite drain_logged.
  - rewrite drain_goods, bool_decide_eq_false_2 by lia. destruct (n - length xs)%nat as [|k] eqn:E; [lia|]. cbn. by rewrite drain_logged.
  - by rewrite drain_goods, bool_decide_eq_true_2.
  - rewrite drain_goods, bool_decide_eq_false_2 by lia. destruct (n - length xs)%nat as [|k] eqn:E; [lia|]. done.
Qed.

Lemma stream_outcome_total n body : exists o, stream_outcome n body o.
Proof.
  revert n. induction body as [|item body IH]; intros n.
  - destruct n as [|n]; [eexists; by apply (outcome_dropped _ _ [] [])|]. eexists. apply (outcome_ok _ _ []); [done|cbn; lia].
  - destruct n as [|n]; [eexists; by apply (outcome_dropped _ _ [] (item :: body))|]. destruct item as [[e|x]|m].
    + eexists. apply (outcome_error _ _ [] e body); [done|cbn; lia].
    + destruct (IH n) as [o [xs -> ?|xs e rest -> ?|xs rest -> ?|xs m rest -> ?]]; eexists.
      * apply (outcome_ok _ _ (x :: xs)); [done|cbn; lia].
      * apply (outcome_error _ _ (x :: xs) e rest); [done|cbn; lia].
      * apply (outcome_dropped _ _ (x :: xs) rest); [done|cbn; lia].
      * apply (outcome_panicked _ _ (x :: xs) m rest); [done|cbn; lia].
    + eexists. apply (outcome_panicked _ _ [] m body); [done|cbn; lia].
Qed.

(** How a call ends, as the client sees it *)
Inductive call_outcome : Handled (A := A) -> option RpcFailure -> Prop :=
| unary_ok x : call_outcome (UnaryCall (Returns (inr x))) None
| unary_error e : call_outcome (UnaryCall (Returns (inl e))) (Some e)
| unary_panic m : call_outcome (UnaryCall (Panics m)) (Some (mkRpcFailure InternalCode (Some ("panicked: " ++ m)%string)))
| stream_refused e n : call_outcome (StreamCall (Returns (inl e)) n) (Some e)
| stream_panic m n : call_outcome (StreamCall (Panics m) n) (Some (mkRpcFailure InternalCode (Some ("panicked: " ++ m)%string)))
| stream_ends body n o : stream_outcome n body o -> call_outcome (StreamCall (Returns (inr body)) n) o.

(** The access log has one event for every request that is answered, and it says how the call
    ended: a unary call with its answer or its error, a panic as an internal error, a stream
    when the client has read it to its end, with the first error in it, or as cancelled when
    it is dropped; a request that reaches no handler with the status of its response. A
    client that goes away before the answer leaves no event. *)
Theorem access_log_once d :
  match d with
  | Dispatched ClientGone => connect_rpc_log d = []
  | Dispatched h => exists o, call_outcome h o /\ connect_rpc_log d = [finish o]
  | NotDispatched (Returns status) => connect_rpc_log d = [fallback_event status]
  | NotDispatched (Panics _) => connect_rpc_log d = [fallback_event (http_status InternalCode)]
  end.
Proof.
  destruct d as [[[[e|x]|m]|[[e|body]|m] n|]|[status|m]]; try (eexists; split; [constructor|done]); try done.
  destruct (stream_outcome_total n body) as [o Ho]. exists o. split; [by constructor|by apply drain_outcome].
Qed.
End AccessLog.

(** *** Requests *)

(** A serialized value has no separator in it. *)
Class FormUrlencodedLaws `{FormUrlencoded} := byte_serialize_no_amp s : split_on "&"%char (byte_serialize s) = [byte_serialize s].

Lemma split_on_ne c s : split_on c s <> [].
Proof. induction s as [|a s IH]; [done|]. cbn. destruct (decide _); [done|]. by destruct (split_on c s). Qed.

Lemma split_on_app c s t : split_on c (s ++ String c t) = split_on c s ++ split_on c t.
Proof.
  induction s as [|a s IH]; [change ("" +:+ String c t) with (String c t); cbn [split_on]; by rewrite decide_True|].
  change (String a s +:+ String c t) with (String a (s +:+ String c t)). cbn [split_on]. destruct (decide (a = c)) as [->|Hn]; rewrite IH; [done|].
  pose proof (split_on_ne c s). by destruct (split_on c s).
Qed.

Lemma split_on_cons c a s x : a <> c -> split_on c s = [x] -> split_on c (String a s) = [String a x].
Proof. intros Hn Hs. cbn. by rewrite decide_False, Hs. Qed.

Definition query_pairs (q : string) : list string := filter (fun s => s <> ""%string) (split_on "&"%char q).

Lemma push_pair_pairs q pair : query_pairs pair = [pair] -> query_pairs (push_pair q pair) = query_pairs q ++ [pair].
Proof.
  intros Hp. unfold push_pair. destruct (decide (q = ""%string)) as [->|Hq]; [by rewrite Hp|].
  unfold query_pairs in *. change ("&" +:+ pair) with (String "&" pair). by rewrite split_on_app, filter_app, Hp.
Qed.

Section Defaults.
Context `{FormUrlencoded, !FormUrlencodedLaws}.
Definition encoding_pair : string := "encoding=json".
Definition message_pair : string := ("message=" ++ byte_serialize "{}")%string.

Lemma message_pair_pairs : query_pairs message_pair = [message_pair].
Proof.
  assert (Hs : split_on "&"%char message_pair = [message_pair]); [|unfold query_pairs; by rewrite Hs].
  unfold message_pair. do 8 (apply split_on_cons; [done|]). apply byte_serialize_no_amp.
Qed.

Definition has (key : string) (q : string) : bool := bool_decide (key ∈ query_keys q).
Lemma has_pairs key q : has key q = bool_decide (key ∈ first_part "="%char <$> query_pairs q).
Proof. done. Qed.

Lemma request_eta r : r = mkRequest (method r) (path r) (query r) (content_type r) (content_length r) (body r).
Proof. by destruct r. Qed.

(** A GET without them gets [encoding=json] and an empty message; the pairs it has stay as they
    are and in front, nothing else of the request changes, and a second pass changes
    nothing. Other requests are not touched. *)
Theorem get_defaults_filled req : let r := fill_connect_get_defaults req in let q := default ""%string (query req) in let q' := default ""%string (query r) in
  if decide (method req = GET) then
    query_pairs q' = query_pairs q ++ (if has "encoding" q then [] else [encoding_pair]) ++ (if has "message" q then [] else [message_pair]) /\
    has "encoding" q' = true /\ has "message" q' = true /\
    r = mkRequest GET (path req) (query r) (content_type req) (content_length req) (body req) /\ fill_connect_get_defaults r = r
  else r = req.
Proof.
  intros r q q'. destruct (decide (method req = GET)) as [Hm|Hm].
  2:{ unfold r, fill_connect_get_defaults. by rewrite bool_decide_eq_true_2. }
  assert (Hp : query_pairs q' = query_pairs q ++ (if has "encoding" q then [] else [encoding_pair]) ++ (if has "message" q then [] else [message_pair])).
  { unfold q', r, fill_connect_get_defaults. rewrite bool_decide_eq_false_2 by naive_solver. fold q. fold (has "encoding" q) (has "message" q).
    destruct (has "encoding" q), (has "message" q); cbn [andb query default]; rewrite ?app_nil_r; fold q.
    - done.
    - apply (push_pair_pairs q message_pair), message_pair_pairs.
    - by apply (push_pair_pairs q encoding_pair).
    - etrans; [apply (push_pair_pairs (push_pair q encoding_pair) message_pair), message_pair_pairs|]. by rewrite (push_pair_pairs q encoding_pair), <- app_assoc. }
  assert (He : has "encoding" q' = true).
  { rewrite has_pairs, Hp. apply bool_decide_eq_true_2. rewrite !fmap_app, !elem_of_app. destruct (has "encoding" q) eqn:E; [left|right; left; by left]. by apply bool_decide_eq_true_1 in E. }
  assert (Hg : has "message" q' = true).
  { rewrite has_pairs, Hp. apply bool_decide_eq_true_2. rewrite !fmap_app, !elem_of_app. destruct (has "message" q) eqn:E; [left|right; right; by left]. by apply bool_decide_eq_true_1 in E. }
  assert (Hr : r = mkRequest GET (path req) (query r) (content_type req) (content_length req) (body req)).
  { unfold r, fill_connect_get_defaults. rewrite bool_decide_eq_false_2 by naive_solver. destruct (_ && _); cbn; rewrite <- Hm; [apply request_eta|done]. }
  split_and!; [done..|]. assert (Hmr : method r = GET) by (by rewrite Hr). clearbody r. unfold fill_connect_get_defaults. rewrite bool_decide_eq_false_2 by naive_solver.
  fold q'. fold (has "encoding" q') (has "message" q'). by rewrite He, Hg.
Qed.
End Defaults.

(** A JSON request whose length is not announced, as with a chunked body, reaches its handler
    as an empty one, whatever it carries. *)
Theorem unannounced_body_lost req t :
  method req = POST -> content_type req = Some (Some t) -> eq_ignore_ascii_case (trim (first_part ";"%char t)) "application/json" = true ->
  content_length req = None -> body (fill_empty_json_body req) = "{}"%string.
Proof. intros Hm Ht Hj Hl. unfold fill_empty_json_body. by rewrite Hm, Ht, Hj, Hl. Qed.
