(* ===== verification/App.v ===== *)
(** * The application

    [app/main.rs]: start-up, the services and tasks it leads to, the bounded syncs, and how
    the process ends. The answers of the node and the contents of files are arguments. *)

From Stdlib Require Import Strings.String Strings.Byte.
From stdpp Require Import base numbers list gmap strings.
From S2P Require Import Prelude OrderMap Bitcoin Types Dbs BlockHashes Enforcer Facade Wallet NodeChecks Summary Tasks Cli.
Open Scope Z_scope.

(** ** The fork *)

Inductive ForkError := ForkMismatch (requested detected : Fork) | UnknownFork.
Definition resolve_fork (requested detected : option Fork) (chain : Network) : Res ForkError Fork :=
  match requested, detected with
  | Some fork, Some detected =>
      if bool_decide (bool_decide (fork = ForkEcash) <> bool_decide (detected = ForkEcash)) then Err (ForkMismatch fork detected) else Ok fork
  | Some fork, None => Ok fork
  | None, Some detected => Ok detected
  | None, None => if decide (chain = Mainnet) then Err UnknownFork else Ok ForkBitcoin
  end.

(** ** Bounded syncs *)

(** The mempool library's [sync_to_tip]: the validator that it leaves, and the tip it reached *)
Abbreviation SyncToTip := (Validator -> BlockHash -> Validator * Res unit BlockHash).

Inductive SyncToHeightError := PastHeight (current : Z) | NoBlockHash | SyncFailed.

(** [try_get_block_height().ok().flatten()] *)
Definition known_height (v : Validator) : option Z := match try_get_block_height v with Ok h => h | _ => None end.

Definition sync_to_height (getblockhash : Z -> option BlockHash) (sync_to_tip : SyncToTip) (v : Validator) (goal_height : Z)
    : Validator * Res SyncToHeightError (option Z) :=
  let start_height := known_height v in
  if bool_decide (goal_height < default 0 start_height) && given start_height then (v, Err (PastHeight (default 0 start_height))) else
  match getblockhash goal_height with
  | None => (v, Err NoBlockHash)
  | Some target_hash =>
      match sync_to_tip v target_hash with
      | (v, Ok synced_tip) => (v, Ok (known_height v))
      | (v, Err _) => (v, Err SyncFailed)
      | (v, Panic) => (v, Panic)
      end
  end.

Inductive ExitError := EE_Sync (e : SyncToHeightError) | EE_Summary (e : SummaryError) | EE_Write | EE_Verify (e : VerifyError).

Section Bounded.
Context `{Bitcoin, Nom, SummaryJson}.
(** The files, by path *)
Implicit Types (files : gmap Path bytes).

Definition report_sync_state (writable : bool) (v : Validator) (path : Path) files : gmap Path bytes * Res ExitError SyncStateSummary :=
  match sync_state_summary v with
  | Ok summary => if writable then (<[path := state_file summary]> files, Ok summary) else (files, Err EE_Write)
  | Err e => (files, Err (EE_Summary e))
  | Panic => (files, Panic)
  end.

Inductive LoadError := NoFile | InvalidFile.
Definition load_consensus_reference files (path : Path) : Res LoadError SyncStateSummary :=
  contents ← ok_or NoFile (files !! path); ok_or InvalidFile (from_json contents).

Definition run_exit_after_sync (getblockhash : Z -> option BlockHash) (sync_to_tip : SyncToTip) (writable : bool)
    (v : Validator) (goal_height : Z) (path : Path) (reference : option SyncStateSummary) files : Validator * gmap Path bytes * Res ExitError unit :=
  match sync_to_height getblockhash sync_to_tip v goal_height with
  | (v, Ok _) =>
      match report_sync_state writable v path files with
      | (files, Ok produced) => (v, files, map_err EE_Verify (verify_against_reference produced reference))
      | (files, Err e) => (v, files, Err e)
      | (files, Panic) => (v, files, Panic)
      end
  | (v, Err e) => (v, files, Err (EE_Sync e))
  | (v, Panic) => (v, files, Panic)
  end.
End Bounded.

(** It then waits for shutdown. *)
Definition run_freeze_at_height (getblockhash : Z -> option BlockHash) (sync_to_tip : SyncToTip) (v : Validator) (goal_height : Z)
    : Validator * Res SyncToHeightError unit :=
  let '(v, r) := sync_to_height getblockhash sync_to_tip v goal_height in (v, _ ← r; Ok tt).

(** ** Start-up *)

Definition RPC_IN_WARMUP : Z := -28.

Inductive StartupError :=
| S_Reference (e : LoadError) | S_Rest (e : RestServerCheckError) | S_RpcClient
| S_Unauthorized | S_NodeInfo (e : ClientError)
| S_Version (e : VersionCheckError) | S_Fork (e : ForkError) | S_Pruned (e : PruneCheckError)
| S_Template (e : ClientError) | S_NoChallenge | S_StandardSignet
| S_DataDir | S_Validator | S_CoinbaseRecipient | S_Producer
| S_Txindex (e : TxindexCheckError) | S_Wallet | S_Mnemonic | S_CreateWallet
| S_Zmq (e : ZmqSequenceCheckError) | S_NoCoinbaseRecipient.

(** The loop over the answers to [getblockchaininfo]. [None]: the node is still booting. *)
Fixpoint wait_for_node (answers : list (Res ClientError (Network * Z))) : option (Res StartupError (Network * Z)) :=
  match answers with
  | [] => None
  | Ok info :: _ => Some (Ok info)
  | Err err :: answers =>
      match err with
      | Call code _ => if bool_decide (code = RPC_IN_WARMUP) then wait_for_node answers else Some (Err (S_NodeInfo err))
      | Transport (Some 401) _ => Some (Err S_Unauthorized)
      | err => Some (Err (S_NodeInfo err))
      end
  | Panic :: _ => Some Panic
  end.

(** What the node answers *)
Record Node := mkNode {
  n_rest : Res RestServerCheckError bool;
  n_blockchain_info : list (Res ClientError (Network * Z));
  n_network_info : option (Z * string);
  n_pruned : option bool;
  n_template : Res ClientError (option bytes);
  n_txindex : Res TxindexCheckError unit;
  n_zmq : option (list ZmqNotification) }.

(** What the host has: files, and whether the parts can be built. A wallet comes with whether it
    is loaded, whether its seed is encrypted, and whether its sync backend has to be retried. *)
Record Host := mkHost {
  h_files : gmap Path bytes;
  h_rpc_client : bool;
  h_data_dirs : bool;
  h_validator : bool;
  h_producer : bool;
  h_wallet : option (bool * bool * bool);
  h_mnemonic : Path -> bool;        (** the file has a mnemonic *)
  h_create_wallet : bool;
  h_address_valid : bytes -> Network -> bool;
  h_default_signet : bytes -> bool }.

(** [type Enforcer] *)
Inductive Mode := M_Validator | M_Producer | M_Wallet (is_initialized : bool).
#[global] Instance Mode_eq_dec : EqDecision Mode.
Proof. solve_decision. Defined.

Inductive Service := CryptoService | ValidatorService | BlockProducerService | MiningService | WalletService.
#[global] Instance Service_eq_dec : EqDecision Service.
Proof. solve_decision. Defined.

(** The services of [run_connect_server] *)
Definition service_names (block_producer mining wallet : bool) : list Service :=
  [CryptoService; ValidatorService] ++ (if block_producer then [BlockProducerService] else []) ++
  (if mining then [MiningService] else []) ++ (if wallet then [WalletService] else []).

Inductive Task :=
| EnforcerTask (m : Mode) | ValidatorMempoolTask | ProducerMempoolTask (reward : bytes) | WalletMempoolTask (is_initialized : bool) (reward : option bytes)
| ConnectServer (services : list Service) | WalletSyncTask | ChainSourceInitTask
| ExitAfterSyncTask (goal_height : Z) (reference : option SyncStateSummary) | FreezeAtHeightTask (goal_height : Z).

Record Plan := mkPlan {
  pl_params : NetworkParams;
  pl_data_dir : Path;
  pl_mode : Mode;
  pl_zmq : string;
  pl_tasks : list Task }.

Section Startup.
Context `{Bitcoin, HexLib, SummaryJson}.

Definition verify_reference (c : Config) (h : Host) : Res StartupError (option SyncStateSummary) :=
  match verify_consensus_state c with
  | None => Ok None
  | Some path => reference ← map_err S_Reference (load_consensus_reference (h_files h) path); Ok (Some reference)
  end.

Definition signet_challenge (n : Node) (h : Host) (chain : Network) (fork : Fork) : Res StartupError (option bytes) :=
  if decide (chain = Signet) then
    block_template ← map_err S_Template (n_template n);
    challenge ← ok_or S_NoChallenge block_template;
    if bool_decide (fork = ForkBitcoin) && h_default_signet h challenge then Err S_StandardSignet else Ok (Some challenge)
  else Ok None.

(** The parameters, with the overrides of the command line *)
Definition resolve_params (c : Config) (fork : Fork) (chain : Network) (challenge : option bytes) : NetworkParams :=
  let p := network_params_new fork chain challenge in
  mkNetworkParams (np_fork p) (np_thresholds p) (default (bip300_activation_height p) (cli_bip300_activation_height c))
    (match cli_network_magic c with Some magic => Some magic | None => network_magic p end) (op_drivechain p) (replay_protection_lock_time p).

Definition check_recipient (c : Config) (h : Host) (chain : Network) : Res StartupError (option bytes) :=
  match coinbase_recipient c with
  | None => Ok None
  | Some addr => if h_address_valid h addr chain then Ok (Some addr) else Err S_CoinbaseRecipient
  end.

(** The wallet: loaded, or left to its RPCs, or created *)
Definition open_wallet (c : Config) (n : Node) (h : Host) : Res StartupError (bool * bool) :=
  _ ← map_err S_Txindex (n_txindex n);
  '(loaded, encrypted, init) ← ok_or S_Wallet (h_wallet h);
  create ← match mnemonic_path (wallet_opts c) with
           | Some path => if h_mnemonic h path then Ok true else Err S_Mnemonic
           | None => Ok (auto_create (wallet_opts c))
           end;
  match status loaded encrypted with
  | Unlocked => Ok (true, init)
  | Locked => Ok (false, init)
  | Uninitialized => if create : bool then (if h_create_wallet h then Ok (true, init) else Err S_CreateWallet) else Ok (false, init)
  end.

Definition exit_after_sync_mode (c : Config) : bool := given (exit_after_sync c) || given (verify_consensus_state c).
Definition bounded_sync_mode (c : Config) : bool := exit_after_sync_mode c || given (freeze_at_height c).

(** The task that follows the tip of the chain *)
Definition tip_task (c : Config) (m : Mode) (recipient : option bytes) : Res StartupError (list Task) :=
  if bounded_sync_mode c then Ok [] else
  if negb (enable_mempool c) then Ok [EnforcerTask m] else
  match m with
  | M_Validator => Ok [ValidatorMempoolTask]
  | M_Producer => reward ← ok_or S_NoCoinbaseRecipient recipient; Ok [ProducerMempoolTask reward]
  | M_Wallet is_initialized => Ok [WalletMempoolTask is_initialized recipient]
  end.

Definition is_wallet (m : Mode) : bool := match m with M_Wallet _ => true | _ => false end.

Definition wallet_sync_tasks (c : Config) (m : Mode) : list Task :=
  if is_wallet m && negb (skip_periodic_sync (wallet_opts c)) && bool_decide (sync_source (wallet_opts c) <> SyncDisabled) then [WalletSyncTask] else [].

Definition exit_task (c : Config) (reference : option SyncStateSummary) (blocks : Z) : list Task :=
  if exit_after_sync_mode c then
    match reference with
    | Some reference => [ExitAfterSyncTask (sum_tip_height reference) (Some reference)]
    | None => let height := default 0 (exit_after_sync c) in [ExitAfterSyncTask (if bool_decide (height <> 0) then height else blocks) None]
    end
  else [].

Definition services (c : Config) (m : Mode) (chain : Network) : list Service :=
  service_names (enable_wallet c || enable_block_template_server c) (bool_decide (chain ∈ [Regtest; Signet])) (is_wallet m).

Definition main_setup (c : Config) (n : Node) (h : Host) : option (Res StartupError Plan) :=
  reference ⇐ Some (verify_reference c h);
  rest ⇐ Some (map_err S_Rest (n_rest n));
  _ ⇐ Some (if h_rpc_client h then Ok tt else Err S_RpcClient);
  info ⇐ wait_for_node (n_blockchain_info n);
  let '(chain, blocks) := info in
  Some (
    detected_version ← map_err S_Version (check_bitcoin_core_version (n_network_info n) (bitcoin_core_expected_version c) (bitcoin_core_skip_version_check c));
    fork ← map_err S_Fork (resolve_fork (cli_fork c) (fork_detect (dv_subversion detected_version)) chain);
    _ ← map_err S_Pruned (check_node_not_pruned (n_pruned n));
    challenge ← signet_challenge n h chain fork;
    let params := resolve_params c fork chain challenge in
    _ ← (if h_data_dirs h then Ok tt else Err S_DataDir);
    _ ← (if h_validator h then Ok tt else Err S_Validator);
    recipient ← check_recipient c h chain;
    _ ← (if h_producer h then Ok tt else Err S_Producer);
    '(mode, init) ← (if enable_wallet c then '(is_initialized, init) ← open_wallet c n h; Ok (M_Wallet is_initialized, init)
                     else Ok (if enable_block_template_server c then M_Producer else M_Validator, false));
    zmq ← match node_zmq_addr_sequence c with Some addr => Ok addr | None => map_err S_Zmq (zmq_sequence_address (n_zmq n)) end;
    tip ← tip_task c mode recipient;
    Ok (mkPlan params (data_dir c ++ chain_data_dir (h_default_signet h) params chain challenge) mode zmq
         (tip ++ [ConnectServer (services c mode chain)] ++ wallet_sync_tasks c mode ++ (if init : bool then [ChainSourceInitTask] else []) ++
          exit_task c reference blocks ++ match freeze_at_height c with Some goal_height => [FreezeAtHeightTask goal_height] | None => [] end))).
End Startup.

(** ** The end *)

(** What comes first: a task with its result, a task that panicked, or an interrupt *)
Inductive First (E : Type) := TaskEnded (r : Res E unit) | TaskPanicked | NoTasks | Interrupted (received : bool).
Arguments TaskEnded {_} _.
Arguments TaskPanicked {_}.
Arguments NoTasks {_}.
Arguments Interrupted {_} _.
Inductive ProcessError (E : Type) := TaskFailed (e : E) | PanickedTask | NoTasksSpawned | NoSignal.
Arguments TaskFailed {_} _.
Arguments PanickedTask {_}.
Arguments NoTasksSpawned {_}.
Arguments NoSignal {_}.
Definition exit_result {E} (f : First E) : Res (ProcessError E) unit :=
  match f with
  | TaskEnded (Ok _) => Ok tt
  | TaskEnded (Err e) => Err (TaskFailed e)
  | TaskEnded Panic | TaskPanicked => Err PanickedTask
  | NoTasks => Err NoTasksSpawned
  | Interrupted true => Ok tt
  | Interrupted false => Err NoSignal
  end.
