(* ===== verification/AppProofs.v ===== *)
(** * Theorems on the application

    Start-up chooses one task that drives the validator and the services that fit its mode;
    a bounded sync is verified against its reference; secrets stay out of the dump of
    the configuration. *)

From Stdlib Require Import Strings.String Strings.Byte.
From stdpp Require Import base numbers list gmap strings sorting.
From S2P Require Import Prelude OrderMap Bitcoin Types Dbs BlockHashes ConnectBlock ConnectProofs Reorg Enforcer Facade Wallet NodeChecks Summary SummaryProofs Tasks Cli App.
Open Scope Z_scope.

(** ** The fork *)

(** The fork is the requested one, else the one that the node's user agent shows, else Bitcoin
    outside of mainnet; and it never differs from what the user agent shows. *)
Theorem resolve_fork_spec requested detected chain f :
  resolve_fork requested detected chain = Ok f <->
  (requested = Some f \/ requested = None /\ (detected = Some f \/ detected = None /\ f = ForkBitcoin /\ chain <> Mainnet)) /\
  (forall d, detected = Some d -> d = f).
Proof. destruct requested as [[]|], detected as [[]|], f; cbn; try destruct (decide _); naive_solver. Qed.

(** ** Tasks and services *)

(** The tasks that advance the validator *)
Definition drives (t : Task) : bool :=
  match t with
  | EnforcerTask _ | ValidatorMempoolTask | ProducerMempoolTask _ | WalletMempoolTask _ _ | ExitAfterSyncTask _ _ | FreezeAtHeightTask _ => true
  | _ => false
  end.
Definition connect_servers (l : list Task) : list (list Service) := omap (fun t => match t with ConnectServer s => Some s | _ => None end) l.

(** The bounded syncs *)
Definition is_bounded (t : Task) : Prop := match t with ExitAfterSyncTask _ _ | FreezeAtHeightTask _ => True | _ => False end.

Lemma tip_task_drives c m recipient l : tip_task c m recipient = Ok l ->
  connect_servers l = [] /\ length (filter (fun t => drives t = true) l) = (if bounded_sync_mode c then 0 else 1)%nat /\
  Forall (fun t => ~ is_bounded t) l.
Proof.
  unfold tip_task. destruct (bounded_sync_mode c); [intros [= <-]; by split_and!|].
  destruct (enable_mempool c), m; cbn; [|destruct recipient; [|done]|..]; cbn; intros [= <-]; (split_and!; [done..|repeat constructor; cbn; tauto]).
Qed.

Lemma services_producer c m chain : BlockProducerService ∈ services c m chain <-> enable_wallet c || enable_block_template_server c = true.
Proof.
  unfold services, service_names. destruct (enable_wallet c || enable_block_template_server c), (bool_decide _), (is_wallet m); cbn; set_solver.
Qed.

Lemma services_wallet c m chain : WalletService ∈ services c m chain <-> is_wallet m = true.
Proof.
  unfold services, service_names. destruct (enable_wallet c || enable_block_template_server c), (bool_decide _), (is_wallet m); cbn; set_solver.
Qed.

Section Setup.
Context `{Bitcoin, HexLib, SummaryJson}.

(** What a successful start-up leads to *)
Lemma main_setup_plan c n h p : main_setup c n h = Some (Ok p) ->
  exists reference chain blocks recipient init tip,
    tip_task c (pl_mode p) recipient = Ok tip /\ check_recipient c h chain = Ok recipient /\ verify_reference c h = Ok reference /\
    (if enable_wallet c then exists b, open_wallet c n h = Ok (b, init) /\ pl_mode p = M_Wallet b
     else init = false /\ pl_mode p = if enable_block_template_server c then M_Producer else M_Validator) /\
    pl_tasks p = tip ++ [ConnectServer (services c (pl_mode p) chain)] ++ wallet_sync_tasks c (pl_mode p) ++ (if init : bool then [ChainSourceInitTask] else []) ++
      exit_task c reference blocks ++ match freeze_at_height c with Some g => [FreezeAtHeightTask g] | None => [] end.
Proof.
  unfold main_setup, obind. destruct (verify_reference c h) as [reference| |] eqn:Er; [|done..]. destruct (map_err S_Rest _); [|done..].
  destruct (h_rpc_client h); [|done]. destruct (wait_for_node _) as [[[chain blocks]| |]|]; [|done..]. intros [= Hp].
  repeat (apply bind_Ok in Hp as (? & ? & Hp)). destruct x7 as [mode init]. apply bind_Ok in Hp as (zmq & _ & Hp). apply bind_Ok in Hp as (tip & Ht & [= <-]). cbn.
  exists reference, chain, blocks. eexists _, init, tip. split_and!; [done|done|done| |done].
  destruct (enable_wallet c).
  - match goal with H : (open_wallet c n h ≫= _) = Ok _ |- _ => apply bind_Ok in H as ([b i] & Hw & [= <- <-]) end. by exists b.
  - by simplify_eq.
Qed.

(** At most one bounded sync is asked for. *)
Lemma bounded_tasks c reference blocks : clap_accepts c = true ->
  let l := exit_task c reference blocks ++ match freeze_at_height c with Some g => [FreezeAtHeightTask g] | None => [] end in
  connect_servers l = [] /\ length (filter (fun t => drives t = true) l) = (if bounded_sync_mode c then 1 else 0)%nat /\ Forall is_bounded l /\
  (bounded_sync_mode c = true -> l <> []) /\ (bounded_sync_mode c = false -> l = []).
Proof.
  intros Hc. unfold clap_accepts in Hc. repeat (apply andb_true_iff in Hc as [Hc ?]). unfold exit_task, bounded_sync_mode, exit_after_sync_mode in *.
  destruct (exit_after_sync c) as [g|], (verify_consensus_state c) as [path|], (freeze_at_height c) as [f|]; try done; cbn in *.
  all: destruct reference; cbn; split_and!; try done; repeat constructor.
Qed.

(** C35. A start-up whose options clap accepts leads to one Connect server and one task that advances
    the validator: the bounded sync if one was asked for, else the task that follows the tip.
    The policy service is served exactly when blocks are applied with the policy, the wallet
    service exactly with a wallet. *)
Theorem one_task_drives c n h p : clap_accepts c = true -> main_setup c n h = Some (Ok p) ->
  length (filter (fun t => drives t = true) (pl_tasks p)) = 1%nat /\
  exists s, connect_servers (pl_tasks p) = [s] /\
    (BlockProducerService ∈ s <-> pl_mode p <> M_Validator) /\ (WalletService ∈ s <-> is_wallet (pl_mode p) = true) /\
    (bounded_sync_mode c = true <-> exists t, t ∈ pl_tasks p /\ is_bounded t).
Proof.
  intros Hc Hp. destruct (main_setup_plan c n h p Hp) as (reference & chain & blocks & recipient & init & tip & Ht & _ & Hv & Hm & ->).
  destruct (tip_task_drives _ _ _ _ Ht) as (Hs & Hd & Hnb).
  assert (Hw : connect_servers (wallet_sync_tasks c (pl_mode p)) = [] /\ filter (fun t => drives t = true) (wallet_sync_tasks c (pl_mode p)) = [])
    by (unfold wallet_sync_tasks; by destruct (is_wallet _ && _ && _)).
  assert (Hi : connect_servers (if init : bool then [ChainSourceInitTask] else []) = [] /\ filter (fun t => drives t = true) (if init : bool then [ChainSourceInitTask] else []) = []) by (by destruct init).
  set (bounded := exit_task c reference blocks ++ match freeze_at_height c with Some g => [FreezeAtHeightTask g] | None => [] end).
  assert (Hb : connect_servers bounded = [] /\ length (filter (fun t => drives t = true) bounded) = (if bounded_sync_mode c then 1 else 0)%nat /\
    Forall is_bounded bounded /\ (bounded_sync_mode c = true -> bounded <> []) /\ (bounded_sync_mode c = false -> bounded = [])).
  { by apply bounded_tasks. }
  destruct Hw as [Hw1 Hw2], Hi as [Hi1 Hi2], Hb as (Hb1 & Hb2 & Hb3 & Hb4 & Hb5). unfold connect_servers in *. split.
  - rewrite !filter_app, !length_app, Hw2, Hi2. fold bounded. cbn [length app]. rewrite Hd, Hb2. by destruct (bounded_sync_mode c).
  - exists (services c (pl_mode p) chain). rewrite !omap_app, Hs, Hw1, Hi1. fold bounded. rewrite Hb1. split_and!; [done|..].
    + rewrite services_producer. destruct (enable_wallet c); [destruct Hm as (b & _ & ->)|destruct Hm as [_ ->]; destruct (enable_block_template_server c)]; cbn; naive_solver.
    + apply services_wallet.
    + destruct (bounded_sync_mode c) eqn:Eb.
      * split; [intros _|done]. specialize (Hb4 eq_refl). destruct bounded as [|t l]; [done|]. exists t. apply Forall_cons in Hb3 as [? _]. split; [|done]. rewrite !elem_of_app. set_solver.
      * split; [done|]. intros (t & Hin & Hbt). rewrite (Hb5 eq_refl), app_nil_r, !elem_of_app in Hin. rewrite Forall_forall in Hnb.
        destruct Hin as [Hin|[->%list_elem_of_singleton|[Hin|Hin]]]; [by destruct (Hnb t Hin)|done| |].
        -- unfold wallet_sync_tasks in Hin. destruct (is_wallet _ && _ && _); [|set_solver]. by apply list_elem_of_singleton in Hin as ->.
        -- destruct init; [|set_solver]. by apply list_elem_of_singleton in Hin as ->.
Qed.

(** A wallet that is locked, or that is not there and is not to be created, does not keep
    start-up from succeeding, but with a mempool the task that follows the tip ends at once with
    an error, and the process with it: no RPC is left to unlock or create the wallet. *)
Theorem locked_wallet_exits c n h p loaded encrypted init :
  enable_wallet c = true -> enable_mempool c = true -> bounded_sync_mode c = false -> h_wallet h = Some (loaded, encrypted, init) ->
  status loaded encrypted = Locked \/ status loaded encrypted = Uninitialized /\ auto_create (wallet_opts c) = false /\ mnemonic_path (wallet_opts c) = None ->
  main_setup c n h = Some (Ok p) ->
  exists reward, WalletMempoolTask false reward ∈ pl_tasks p /\
    forall fuel gbt new_address can_bind dat world, exists r,
      run_wallet_mempool_task fuel false gbt reward new_address can_bind (pl_zmq p) dat world = Some ([], r) /\ exit_result (TaskEnded r) = Err (TaskFailed (RE_Fatal R_WalletNotInitialized)).
Proof.
  intros He Hm Hb Hw Hs Hp. destruct (main_setup_plan c n h p Hp) as (reference & chain & blocks & recipient & init' & tip & Ht & _ & _ & Hmode & ->).
  rewrite He in Hmode. destruct Hmode as (b & Ho & Hmode). assert (b = false) as ->.
  { unfold open_wallet in Ho. rewrite Hw in Ho. apply bind_Ok in Ho as (? & _ & Ho). cbn in Ho.
    destruct Hs as [Hs|(Hs & Ha & Hn)]; rewrite Hs in Ho; apply bind_Ok in Ho as (cr & Hc & Ho); [by injection Ho|]. rewrite Hn, Ha in Hc. injection Hc as <-. by injection Ho. }
  exists recipient. split; [|intros; eexists; by split]. rewrite Hmode in Ht. unfold tip_task in Ht. rewrite Hb, Hm in Ht. injection Ht as <-. by left.
Qed.
End Setup.

(** ** Bounded syncs *)

Section Exit.
Context `{Bitcoin, !BitcoinLaws, Nom, !NomLaws, SummaryJson}.
Implicit Types (files : gmap Path bytes).

(** C11. A bounded sync with a reference: when the sync reaches a chain, the file has the new summary, and
    the process succeeds exactly when the reference was written by a run that ended with
    the same consensus state. The new file replaces a reference at its path, also after a failure:
    the same verification then succeeds. *)
Theorem exit_after_sync_verifies bh getblockhash sync_to_tip v w u goal target tip path refpath files s bs b cs c :
  default 0 (known_height v) <= goal -> getblockhash goal = Some target -> sync_to_tip v target = (w, Ok tip) ->
  reach bh (v_dbs u) (bs ++ [b]) -> reach bh (v_dbs w) (cs ++ [c]) -> sync_state_summary u = Ok s -> files !! refpath = Some (state_file s) ->
  load_consensus_reference files refpath = Ok s /\
  exists t files' r, sync_state_summary w = Ok t /\ files' = <[path := state_file t]> files /\
    run_exit_after_sync getblockhash sync_to_tip true v goal path (Some s) files = (w, files', r) /\
    (r = Ok tt <-> same_state w u) /\
    (refpath = path -> load_consensus_reference files' refpath = Ok t /\ verify_against_reference t (Some t) = Ok tt).
Proof.
  intros Hle Hg Hsync Hu Hw Hs Hf.
  assert (Hload : forall m x, m !! refpath = Some (state_file x) -> load_consensus_reference m refpath = Ok x).
  { intros m x Hm. unfold load_consensus_reference, state_file in *. rewrite Hm. cbn. by rewrite from_to_json. }
  split; [by apply Hload|]. destruct (verify_sync_state bh u w bs b cs c Hu Hw) as (s' & t & Hs' & Ht & Hv & _). rewrite Hs in Hs'. injection Hs' as <-.
  unfold state_file in Hv. rewrite from_to_json in Hv. exists t, (<[path := state_file t]> files), (map_err EE_Verify (verify_against_reference t (Some s))). split_and!; [done|done| | |].
  - unfold run_exit_after_sync, sync_to_height. rewrite bool_decide_eq_false_2 by lia. cbn [andb]. rewrite Hg, Hsync. unfold report_sync_state. by rewrite Ht.
  - rewrite <- Hv. by destruct (verify_against_reference t (Some s)) as [[]| |].
  - intros <-. split; [apply Hload, lookup_insert_eq|]. cbn. by rewrite decide_True.
Qed.
End Exit.

(** ** The configuration dump *)

Section Dump.
Context `{UrlLib, DebugStr}.

(** Two values that the dump may not tell apart: they are equal, or addresses that differ in their
    password or, without one, in their user *)
Definition same_public (x y : string) : Prop :=
  x = y \/
  (exists user p q rest, url_parse x = Some (user, Some p, rest) /\ url_parse y = Some (user, Some q, rest) /\ has_host rest = true) \/
  (exists user user' rest, user <> ""%string /\ user' <> ""%string /\ url_parse x = Some (user, None, rest) /\ url_parse y = Some (user', None, rest) /\ has_host rest = true).

(** Two command lines that differ in secrets only *)
Definition same_config (command : list Arg) (m m' : ArgMatches) : Prop :=
  forall a, a ∈ command -> value_source m (arg_id a) = value_source m' (arg_id a) /\
    let vs := default [] (try_get_raw m (arg_id a)) in let vs' := default [] (try_get_raw m' (arg_id a)) in
    if is_secret_arg a then vs = [] <-> vs' = [] else Forall2 same_public vs vs'.

Lemma same_public_redacted x y : same_public x y -> default x (redact_embedded_credentials x) = default y (redact_embedded_credentials y).
Proof.
  unfold redact_embedded_credentials. intros [->|[(user & p & q & rest & -> & -> & Hh)|(user & user' & rest & Hn & Hn' & -> & -> & Hh)]]; [done|..]; cbn; rewrite ?Hh; [done|].
  by rewrite !decide_True.
Qed.

(** Secrets do not reach the dump of the configuration: command lines that differ only in
    the values of secret options and in credentials inside of addresses give the same
    lines. *)
Theorem dump_hides_secrets command m m' : same_config command m m' -> effective_config_lines command m = effective_config_lines command m'.
Proof.
  intros Hs. unfold effective_config_lines. apply list_fmap_ext. intros i a Hi. apply list_elem_of_lookup_2 in Hi. rewrite merge_sort_Permutation in Hi.
  apply list_elem_of_filter in Hi as [_ Hin]. destruct (Hs a Hin) as [Hv Hr]. unfold config_line. rewrite Hv. do 3 f_equal.
  generalize dependent (default [] (try_get_raw m (arg_id a))). generalize dependent (default [] (try_get_raw m' (arg_id a))). intros vs' vs Hr. unfold rendered.
  destruct (is_secret_arg a); [by destruct vs, vs'; naive_solver|].
  assert (E : (fun v => debug_str (default v (redact_embedded_credentials v))) <$> vs = (fun v => debug_str (default v (redact_embedded_credentials v))) <$> vs').
  { clear -Hr. induction Hr as [|x y vs vs' Hxy _ IH]; [done|]. cbn [fmap list_fmap]. by rewrite IH, (same_public_redacted x y Hxy). }
  rewrite E. by destruct Hr.
Qed.
End Dump.

(** ** Data directories *)

(** Chains do not share a data directory: equal directories are of the same fork and network, and on
    signets with different challenges of the same network magic. *)
Theorem data_dir_separates `{HexLib, !HexLaws} default_signet p p' network network' challenge challenge' :
  chain_data_dir default_signet p network challenge = chain_data_dir default_signet p' network' challenge' ->
  np_fork p = np_fork p' /\ network = network' /\
  (network = Signet -> forall x y mx my, challenge = Some x -> challenge' = Some y -> network_magic p = Some mx -> network_magic p' = Some my ->
   default_signet x = default_signet y /\ (default_signet x = false -> mx = my)).
Proof.
  unfold chain_data_dir. intros Hd. assert (Hf : fork_name (np_fork p) = fork_name (np_fork p')) by congruence. split; [by destruct (np_fork p), (np_fork p')|].
  destruct network, network'; try (by repeat case_match); (split; [done|]); try done. intros _ x y mx my -> -> Hx Hy. rewrite Hx, Hy in Hd.
  destruct (default_signet x), (default_signet y); [done..| |done|]; [by injection Hd|]. split; [done|]. intros _. injection Hd as _ Hd. change (hex_encode mx = hex_encode my) in Hd.
  assert (E : hex_decode (hex_encode mx) = hex_decode (hex_encode my)) by (by rewrite Hd). rewrite !hex_decode_encode in E. by injection E.
Qed.
