(* ===== verification/Locks.v ===== *)
(** * The locks of the wallet

    [lib/wallet/locks.rs] and the functions of the wallet that take its locks: the slot of a full
    scan, the wallet and its database. A function is the locks it takes and drops in
    order; any number of them run at once. *)

From stdpp Require Import base numbers list relations.
From S2P Require Import Prelude.

(** ** Guards *)

Inductive WalletGuard := GRead | GUpgradable | GWrite.
#[global] Instance WalletGuard_eq_dec : EqDecision WalletGuard.
Proof. solve_decision. Defined.

(** What a function does with the locks. [LockDb] takes the guard of a wallet held for writing
    as evidence. *)
Inductive Op := LockScan | TryLockScan | LockWallet (g : WalletGuard) | UpgradeWallet | LockDb | DropScan | DropWallet | DropDb.
#[global] Instance Op_eq_dec : EqDecision Op.
Proof. solve_decision. Defined.

Record Held := mkHeld { h_scan : bool; h_wallet : option WalletGuard; h_db : bool }.
#[global] Instance Held_eq_dec : EqDecision Held.
Proof. solve_decision. Defined.
Definition nothing : Held := mkHeld false None false.

Definition after (h : Held) (op : Op) : Held :=
  match op with
  | LockScan | TryLockScan => mkHeld true (h_wallet h) (h_db h)
  | LockWallet g => mkHeld (h_scan h) (Some g) (h_db h)
  | UpgradeWallet => mkHeld (h_scan h) (Some GWrite) (h_db h)
  | LockDb => mkHeld (h_scan h) (h_wallet h) true
  | DropScan => mkHeld false (h_wallet h) (h_db h)
  | DropWallet => mkHeld (h_scan h) None (h_db h)
  | DropDb => mkHeld (h_scan h) (h_wallet h) false
  end.

(** The required order: full scan slot, then wallet, then database *)
Definition allowed (h : Held) (op : Op) : bool :=
  match op with
  | LockScan | TryLockScan => bool_decide (h = nothing)
  | LockWallet _ => bool_decide (h_wallet h = None) && negb (h_db h)
  | UpgradeWallet => bool_decide (h_wallet h = Some GUpgradable) && negb (h_db h)
  | LockDb => bool_decide (h_wallet h = Some GWrite) && negb (h_db h)
  | DropScan => h_scan h
  | DropWallet => bool_decide (is_Some (h_wallet h))
  | DropDb => h_db h
  end.
Fixpoint in_order (h : Held) (p : list Op) : bool :=
  match p with
  | [] => bool_decide (h = nothing)
  | op :: p => allowed h op && in_order (after h op) p
  end.

(** ** The functions *)

(** [get_tip], [status], [is_initialized], [get_wallet_balance], [get_utxos], [get_wallet_info] and
    signing read the wallet. *)
Definition reading : list Op := [LockWallet GRead; DropWallet].
(** [create_deposit_psbt], [build_bmm_tx] and the send transactions write without the database. *)
Definition building : list Op := [LockWallet GWrite; DropWallet].

Definition handle_connect_block_locks : list Op := [LockWallet GWrite; LockDb; DropWallet; DropDb].
Definition fast_forward_chain_locks : list Op := [LockWallet GWrite; LockDb; DropWallet; DropDb].
Definition apply_unconfirmed_tx_locks : list Op := [LockWallet GWrite; LockDb; DropDb; DropWallet].
Definition create_new_wallet_locks : list Op := [LockWallet GWrite; LockDb; DropDb; DropWallet].
Definition unlock_existing_wallet_locks : list Op := reading ++ [LockWallet GWrite; LockDb; DropDb; DropWallet].
Definition get_new_address_locks : list Op := [LockWallet GWrite; LockDb; DropDb; DropWallet].
(** [sync_lock] and the commit of its guard *)
Definition sync_locks : list Op := [LockWallet GUpgradable; UpgradeWallet; LockDb; DropDb; DropWallet].
(** [full_scan_guarded]; the slot is a parameter, which is dropped last. *)
Definition full_scan_guarded_locks : list Op := [LockWallet GUpgradable; UpgradeWallet; LockDb; DropWallet; DropDb; DropScan].
Definition full_scan_locks : list Op := LockScan :: full_scan_guarded_locks.
Definition try_full_scan_locks : list Op := TryLockScan :: full_scan_guarded_locks.
(** The wallet data, and once more for each of [n] transactions *)
Definition list_wallet_transactions_locks (n : nat) : list Op := reading ++ concat (replicate n reading).
(** [connect_block] of the wallet: a catch-up by checkpoint or by scan, [n] blocks, and the
    eviction of requests *)
Definition connect_block_locks (fast_forward scan : bool) (n : nat) : list Op :=
  reading ++ reading ++ (if fast_forward then fast_forward_chain_locks ++ reading else []) ++ (if scan then full_scan_locks ++ reading else []) ++
  concat (replicate n handle_connect_block_locks) ++ [LockWallet GWrite; LockDb; DropDb; DropWallet].

Inductive wallet_program : list Op -> Prop :=
| wp_reading : wallet_program reading
| wp_building : wallet_program building
| wp_apply_unconfirmed_tx : wallet_program apply_unconfirmed_tx_locks
| wp_create_new_wallet : wallet_program create_new_wallet_locks
| wp_unlock_existing_wallet : wallet_program unlock_existing_wallet_locks
| wp_get_new_address : wallet_program get_new_address_locks
| wp_sync : wallet_program sync_locks
| wp_full_scan : wallet_program full_scan_locks
| wp_try_full_scan : wallet_program try_full_scan_locks
| wp_list_wallet_transactions n : wallet_program (list_wallet_transactions_locks n)
| wp_connect_block fast_forward scan n : wallet_program (connect_block_locks fast_forward scan n).

(** ** Running *)

Record Thread := mkThread { held : Held; prog : list Op }.
Implicit Types (ts : list Thread) (t u : Thread).

Definition next (t : Thread) : option Op := head (prog t).
Definition waits_to_write (t : Thread) : Prop := next t = Some (LockWallet GWrite) \/ next t = Some UpgradeWallet.

(** Whether thread [i] can have its lock. A waiting writer keeps new readers out. *)
Definition grants ts (i : nat) (op : Op) : Prop :=
  forall j u, j <> i -> ts !! j = Some u ->
    match op with
    | LockScan => h_scan (held u) = false
    | LockWallet GRead => h_wallet (held u) <> Some GWrite /\ ~ waits_to_write u
    | LockWallet GUpgradable => h_wallet (held u) <> Some GWrite /\ h_wallet (held u) <> Some GUpgradable /\ ~ waits_to_write u
    | LockWallet GWrite | UpgradeWallet => h_wallet (held u) = None
    | LockDb => h_db (held u) = false
    | TryLockScan | DropScan | DropWallet | DropDb => True
    end.

Definition scan_free ts (i : nat) : Prop := forall j u, j <> i -> ts !! j = Some u -> h_scan (held u) = false.

(** A function goes on with its next lock; one that finds a scan running ends. *)
Inductive advance ts : list Thread -> Prop :=
| advance_op i t op rest : ts !! i = Some t -> prog t = op :: rest -> op <> TryLockScan -> grants ts i op ->
    advance ts (<[i := mkThread (after (held t) op) rest]> ts)
| advance_try i t rest : ts !! i = Some t -> prog t = TryLockScan :: rest -> scan_free ts i ->
    advance ts (<[i := mkThread (after (held t) TryLockScan) rest]> ts)
| advance_busy i t rest : ts !! i = Some t -> prog t = TryLockScan :: rest -> ~ scan_free ts i ->
    advance ts (<[i := mkThread (held t) []]> ts).

(** A function may also return early, with an error, which drops its guards. *)
Inductive step ts : list Thread -> Prop :=
| step_advance ts' : advance ts ts' -> step ts ts'
| step_return i t : ts !! i = Some t -> prog t <> [] -> step ts (<[i := mkThread nothing []]> ts).

Definition finished ts : Prop := Forall (fun t => prog t = []) ts.

(** ** Exclusion *)

Definition compatible (h k : Held) : Prop :=
  (h_scan h = true -> h_scan k = false) /\ (h_db h = true -> h_db k = false) /\
  (h_wallet h = Some GWrite -> h_wallet k = None) /\ (h_wallet h = Some GUpgradable -> h_wallet k <> Some GUpgradable).

Record safe ts : Prop := {
  sf_order i t : ts !! i = Some t -> in_order (held t) (prog t) = true;
  sf_exclusive i j t u : i <> j -> ts !! i = Some t -> ts !! j = Some u -> compatible (held t) (held u) }.

Lemma in_order_app h p q : in_order h p = true -> in_order nothing q = true -> in_order h (p ++ q) = true.
Proof.
  revert h. induction p as [|op p IH]; intros h; cbn.
  - intros ->%bool_decide_eq_true_1. done.
  - intros [Ha Hp]%andb_true_iff Hq. by rewrite Ha, IH.
Qed.

Lemma in_order_replicate n p : in_order nothing p = true -> in_order nothing (concat (replicate n p)) = true.
Proof. intros Hp. induction n as [|n IH]; [done|]. cbn. by apply in_order_app. Qed.

Lemma wallet_program_in_order p : wallet_program p -> in_order nothing p = true.
Proof.
  destruct 1 as [| | | | | | | | |n|fast_forward scan n]; try done.
  - apply in_order_app; [done|by apply in_order_replicate].
  - unfold connect_block_locks. do 2 (apply in_order_app; [done|]).
    apply in_order_app; [by destruct fast_forward|]. apply in_order_app; [by destruct scan|]. apply in_order_app; [by apply in_order_replicate|done].
Qed.

Lemma compatible_nothing h : compatible h nothing /\ compatible nothing h.
Proof. unfold compatible, nothing. cbn. naive_solver. Qed.

(** Replacing a thread *)
Lemma safe_insert ts i t h p : safe ts -> ts !! i = Some t -> in_order h p = true ->
  (forall j u, j <> i -> ts !! j = Some u -> compatible h (held u) /\ compatible (held u) h) -> safe (<[i := mkThread h p]> ts).
Proof.
  intros [Ho He] Hi Hp Hc. assert (Hlt : (i < length ts)%nat) by by eapply lookup_lt_Some. split.
  - intros j u. rewrite list_lookup_insert_Some. intros [(_ & <- & _)|[_ Hu]]; [done|by eapply Ho].
  - intros j k u w Hne. rewrite !list_lookup_insert_Some. intros [(<- & <- & _)|[Hj Hu]] [(<- & <- & _)|[Hk Hw]]; [done|..].
    + destruct (Hc k w) as [? _]; [congruence|done..].
    + destruct (Hc j u) as [_ ?]; [congruence|done..].
    + exact (He j k u w Hne Hu Hw).
Qed.

Lemma grants_compatible ts i t op rest : safe ts -> ts !! i = Some t -> prog t = op :: rest -> grants ts i op -> (op = TryLockScan -> scan_free ts i) ->
  forall j u, j <> i -> ts !! j = Some u -> compatible (after (held t) op) (held u) /\ compatible (held u) (after (held t) op).
Proof.
  intros Hs Hi Hp Hg Htry j u Hj Hu. pose proof (sf_exclusive _ Hs i j t u ltac:(congruence) Hi Hu) as H1. pose proof (sf_exclusive _ Hs j i u t Hj Hu Hi) as H2.
  pose proof (sf_order _ Hs i t Hi) as Ho. rewrite Hp in Ho. cbn in Ho. apply andb_true_iff in Ho as [Ha _]. specialize (Hg j u Hj Hu).
  assert (Hfree : op = TryLockScan -> h_scan (held u) = false) by (intros E; by apply (Htry E j u)). clear Htry Hi Hp Hu.
  unfold compatible in *. destruct (held t) as [s w d], (held u) as [s' w' d'].
  destruct op as [| |g| | | | |]; cbn in *; try destruct g; try specialize (Hfree eq_refl); repeat (case_bool_decide || apply andb_true_iff in Ha as [Ha ?]); try done;
    destruct_and!; split_and!; intros; simplify_eq; try done; try congruence; eauto; naive_solver.
Qed.

Lemma advance_safe ts ts' : safe ts -> advance ts ts' -> safe ts'.
Proof.
  intros Hs [i t op rest Hi Hp Hn Hg|i t rest Hi Hp Hf|i t rest Hi Hp Hf]; pose proof (sf_order _ Hs i t Hi) as Ho; rewrite Hp in Ho; cbn [in_order] in Ho; apply andb_true_iff in Ho as [Ha Ho].
  - eapply safe_insert; [done..|]. by eapply grants_compatible.
  - eapply safe_insert; [done..|]. eapply (grants_compatible ts i t TryLockScan rest); try done.
  - eapply safe_insert; [done|done| |].
    + cbn in Ha. apply bool_decide_eq_true_1 in Ha as ->. done.
    + intros j u Hj Hu. split; [eapply (sf_exclusive _ Hs i j)|eapply (sf_exclusive _ Hs j i)]; (congruence || done).
Qed.

Lemma step_safe ts ts' : safe ts -> step ts ts' -> safe ts'.
Proof.
  intros Hs [ts1 Ha|i t Hi _]; [by eapply advance_safe|]. eapply safe_insert; [done..|]. intros j u _ _. destruct (compatible_nothing (held u)). by split.
Qed.

(** ** Progress *)


(** [who P]: some thread satisfies [P], or none does. *)
Lemma who (P : Thread -> bool) ts : (exists i t, ts !! i = Some t /\ P t = true) \/ forall i t, ts !! i = Some t -> P t = false.
Proof.
  destruct (decide (Exists (fun t => P t = true) ts)) as [He|He].
  - left. apply Exists_exists in He as (t & [i Hi]%list_elem_of_lookup & Ht). eauto.
  - right. intros i t Hi. apply not_true_is_false. intros Ht. apply He, Exists_exists. exists t. split; [by eapply list_elem_of_lookup_2|done].
Qed.

Lemma try_advances ts i t rest : ts !! i = Some t -> prog t = TryLockScan :: rest -> exists ts', advance ts ts'.
Proof.
  intros Hi Hp. destruct (who (fun u => h_scan (held u)) (<[i := mkThread nothing []]> ts)) as [(j & u & Hj & Hu)|Hn].
  - eexists. eapply advance_busy; [done..|]. intros Hf. apply list_lookup_insert_Some in Hj as [(_ & <- & _)|[Hne Hj]]; [done|]. by rewrite (Hf j u) in Hu.
  - eexists. eapply advance_try; [done..|]. intros j u Hne Hu. apply (Hn j). by rewrite list_lookup_insert_ne.
Qed.

Definition next_is (f : Op -> bool) (t : Thread) : bool := match next t with Some op => f op | None => false end.
Definition is_free (op : Op) : bool := match op with DropScan | DropWallet | DropDb | TryLockScan => true | _ => false end.
Definition is_op (o op : Op) : bool := bool_decide (op = o).
Lemma is_op_true o op : is_op o op = true -> op = o.
Proof. apply bool_decide_eq_true_1. Qed.

Lemma next_is_true f t : next_is f t = true -> exists op rest, prog t = op :: rest /\ f op = true.
Proof. unfold next_is, next. destruct (prog t) as [|op rest]; [done|]. cbn. eauto. Qed.

Lemma free_advances ts i t : ts !! i = Some t -> next_is is_free t = true -> exists ts', advance ts ts'.
Proof.
  intros Hi (op & rest & Hp & Hf)%next_is_true. destruct (decide (op = TryLockScan)) as [->|Hn]; [by eapply try_advances|].
  eexists. eapply advance_op; [done..|]. intros j u _ _. by destruct op.
Qed.

(** What a thread that is not about to drop a lock can be doing *)
Lemma waiting_cases ts i t : safe ts -> ts !! i = Some t -> next_is is_free t = false -> prog t <> [] \/ held t <> nothing ->
  (h_db (held t) = false /\ h_wallet (held t) <> Some GRead) /\
  (h_wallet (held t) = Some GWrite -> next_is (is_op LockDb) t = true) /\
  (h_wallet (held t) = Some GUpgradable -> next_is (is_op UpgradeWallet) t = true) /\
  (h_wallet (held t) = None -> next_is (is_op LockScan) t = true /\ h_scan (held t) = false \/ exists g, next_is (is_op (LockWallet g)) t = true).
Proof.
  intros Hs Hi Hf Hne. pose proof (sf_order _ Hs i t Hi) as Ho. unfold next_is, next in *. destruct t as [[s w d] p]. cbn in *.
  destruct p as [|op rest]; [apply bool_decide_eq_true_1 in Ho; naive_solver|]. cbn in *. apply andb_true_iff in Ho as [Ha _].
  assert (Hop : forall o, is_op o o = true) by (intros o; by apply bool_decide_eq_true_2).
  destruct op as [| |g| | | | |]; try done; cbn in Ha; repeat (case_bool_decide || apply andb_true_iff in Ha as [Ha ?]); try done;
    unfold nothing in *; simplify_eq; try destruct d; try done; naive_solver.
Qed.

(** Threads that follow the order never wait for each other in a circle. *)
Lemma safe_advances ts : safe ts -> ~ finished ts -> exists ts', advance ts ts'.
Proof.
  intros Hs Hnf. destruct (who (next_is is_free) ts) as [(i & t & Hi & Hf)|Hfree]; [by eapply free_advances|].
  assert (Hgo : forall i t o, ts !! i = Some t -> next_is (is_op o) t = true -> o <> TryLockScan -> grants ts i o -> exists ts', advance ts ts').
  { intros i t o Hi (op & rest & Hp & ->%is_op_true)%next_is_true Hn Hg. eexists. by eapply advance_op. }
  assert (Hw : forall i t, ts !! i = Some t -> held t = nothing \/ _) by (intros i t Hi; destruct (decide (held t = nothing)) as [|Hh]; [by left|right; exact (waiting_cases ts i t Hs Hi (Hfree i t Hi) (or_intror Hh))]).
  assert (Hdb : forall i t, ts !! i = Some t -> h_db (held t) = false /\ h_wallet (held t) <> Some GRead) by (intros i t Hi; destruct (Hw i t Hi) as [->|[? _]]; done).
  destruct (who (fun t => bool_decide (h_wallet (held t) = Some GWrite)) ts) as [(i & t & Hi & Hwr%bool_decide_eq_true_1)|Hnw].
  { destruct (Hw i t Hi) as [E|(_ & Hd & _)]; [by rewrite E in Hwr|]. apply (Hgo i t LockDb Hi (Hd Hwr)); [done|]. intros j u _ Hu. by apply (Hdb j u). }
  destruct (who (fun t => bool_decide (h_wallet (held t) = Some GUpgradable)) ts) as [(i & t & Hi & Hup%bool_decide_eq_true_1)|Hnu].
  { destruct (Hw i t Hi) as [E|(_ & _ & Hd & _)]; [by rewrite E in Hup|]. apply (Hgo i t UpgradeWallet Hi (Hd Hup)); [done|]. intros j u Hj Hu.
    pose proof (Hnw j u Hu) as H1%bool_decide_eq_false. destruct (Hdb j u Hu) as [_ H2]. destruct (sf_exclusive _ Hs i j t u ltac:(congruence) Hi Hu) as (_ & _ & _ & H3). specialize (H3 Hup).
    by destruct (h_wallet (held u)) as [[]|]. }
  assert (Hnone : forall i t, ts !! i = Some t -> h_wallet (held t) = None).
  { intros i t Hi. pose proof (Hnw i t Hi) as H1%bool_decide_eq_false. pose proof (Hnu i t Hi) as H2%bool_decide_eq_false. destruct (Hdb i t Hi) as [_ H3]. by destruct (h_wallet (held t)) as [[]|]. }
  assert (Hnext : forall i t, ts !! i = Some t -> prog t <> [] \/ held t <> nothing -> next_is (is_op LockScan) t = true /\ h_scan (held t) = false \/ exists g, next_is (is_op (LockWallet g)) t = true).
  { intros i t Hi Hne. by apply (waiting_cases ts i t Hs Hi (Hfree i t Hi) Hne), (Hnone i). }
  destruct (who (next_is (is_op (LockWallet GWrite))) ts) as [(i & t & Hi & Hx)|Hnlw].
  { apply (Hgo i t _ Hi Hx); [done|]. intros j u _ Hu. by apply (Hnone j). }
  assert (Hquiet : forall j u, ts !! j = Some u -> ~ waits_to_write u).
  { intros j u Hu [E|E]; unfold next in E; destruct (prog u) as [|op rest] eqn:Ep; try done; injection E as ->.
    - pose proof (Hnlw j u Hu) as Hf. unfold next_is, next in Hf. rewrite Ep in Hf. by cbn in Hf.
    - pose proof (sf_order _ Hs j u Hu) as Ho. rewrite Ep in Ho. cbn in Ho. apply andb_true_iff in Ho as [[Hx _]%andb_true_iff _]. apply bool_decide_eq_true_1 in Hx. by rewrite (Hnone j u Hu) in Hx. }
  assert (Hread : forall i t g, ts !! i = Some t -> next_is (is_op (LockWallet g)) t = true -> exists ts', advance ts ts').
  { intros i t g Hi Hx. apply (Hgo i t _ Hi Hx); [done|]. intros j u _ Hu. pose proof (Hnone j u Hu) as E. pose proof (Hquiet j u Hu). rewrite E. by destruct g. }
  assert (Hex : exists i t, ts !! i = Some t /\ prog t <> []).
  { destruct (who (fun t => negb (bool_decide (prog t = []))) ts) as [(i & t & Hi & Hx)|Hall]; [exists i, t; split; [done|]; by apply negb_true_iff, bool_decide_eq_false in Hx|].
    exfalso. apply Hnf, Forall_lookup_2. intros i t Hi. pose proof (Hall i t Hi) as E. apply negb_false_iff, bool_decide_eq_true_1 in E. done. }
  destruct Hex as (i & t & Hi & Hp). destruct (Hnext i t Hi (or_introl Hp)) as [[Hx _]|[g Hx]]; [|by eapply Hread].
  destruct (who (fun t => h_scan (held t)) ts) as [(j & u & Hj & Hsc)|Hns].
  - destruct (Hnext j u Hj) as [[_ E]|[g Hy]]; [right; intros E; by rewrite E in Hsc|congruence|by eapply Hread].
  - apply (Hgo i t LockScan Hi Hx); [done|]. intros k u _ Hu. by apply (Hns k).
Qed.

(** ** Calls of the wallet *)

Definition starts ts : Prop := Forall (fun t => held t = nothing /\ wallet_program (prog t)) ts.
(** The locks that are still to be taken and dropped *)
Definition work ts : nat := sum_list_with (fun t => length (prog t)) ts.

Lemma starts_safe ts : starts ts -> safe ts.
Proof.
  intros Hs. split.
  - intros i t Hi. destruct (Forall_lookup_1 _ _ _ _ Hs Hi) as [-> Hp]. by apply wallet_program_in_order.
  - intros i j t u _ Hi Hj. destruct (Forall_lookup_1 _ _ _ _ Hs Hi) as [-> _]. apply compatible_nothing.
Qed.

Lemma insert_work ts i t u : ts !! i = Some t -> (length (prog u) < length (prog t))%nat -> (work (<[i := u]> ts) < work ts)%nat.
Proof.
  intros Hi Hl. unfold work. rewrite <- (take_drop_middle ts i t Hi) at 2. rewrite insert_take_drop by (by eapply lookup_lt_Some).
  rewrite !sum_list_with_app. cbn. lia.
Qed.

Lemma step_work ts ts' : step ts ts' -> (work ts' < work ts)%nat.
Proof.
  intros [? [i t op rest Hi Hp _ _|i t rest Hi Hp _|i t rest Hi Hp _]|i t Hi Hp]; (eapply insert_work; [done|]); cbn; rewrite ?Hp; cbn; [lia..|]. destruct (prog t); [done|cbn; lia].
Qed.

(** C27. The wallet does not deadlock: however many of its functions run at once, and whichever of
    them return early, no two hold guards that exclude each other, some function can always
    go on until all have ended, which they have with all guards dropped after at most
    as many steps as they have locks to take and drop. *)
Theorem wallet_locks_progress ts n ts' : starts ts -> nsteps step n ts ts' ->
  (forall i j t u, i <> j -> ts' !! i = Some t -> ts' !! j = Some u -> compatible (held t) (held u)) /\
  (finished ts' /\ Forall (fun t => held t = nothing) ts' \/ ~ finished ts' /\ exists ts'', advance ts' ts'') /\
  (n + work ts' <= work ts)%nat.
Proof.
  intros Hs Hn. assert (Hsafe : safe ts').
  { pose proof (starts_safe _ Hs) as H0. clear Hs. induction Hn as [ts|n ts ts1 ts2 Hst _ IH]; [done|]. apply IH. by eapply step_safe. }
  split_and!; [exact (sf_exclusive _ Hsafe)| |].
  - destruct (who (fun t => negb (bool_decide (prog t = []))) ts') as [(i & t & Hi & Hx)|Hall].
    + right. assert (Hnf : ~ finished ts'); [|split; [done|by apply safe_advances]]. intros Hf. rewrite (Forall_lookup_1 _ _ _ _ Hf Hi) in Hx. done.
    + left. assert (Hf : finished ts') by (apply Forall_lookup_2; intros i t Hi; pose proof (Hall i t Hi) as E; by apply negb_false_iff, bool_decide_eq_true_1 in E).
      split; [done|]. apply Forall_lookup_2. intros i t Hi. pose proof (sf_order _ Hsafe i t Hi) as Ho. rewrite (Forall_lookup_1 _ _ _ _ Hf Hi) in Ho. by apply bool_decide_eq_true_1 in Ho.
  - clear Hs Hsafe. induction Hn as [ts|n ts ts1 ts2 Hst _ IH]; [lia|]. apply step_work in Hst. lia.
Qed.
