(* ===== verification/Backend.v ===== *)
(** * The sync backend of the wallet

    [lib/wallet/sync_state.rs] and the part of [lib/wallet/mod.rs] that finds the backend: its
    address, the first connection, the task that retries it, the periodic sync, and what
    the wallet reports about it. The answers of the backend are arguments. *)

From Stdlib Require Import Strings.String.
From stdpp Require Import base numbers list strings pretty.
From S2P Require Import Prelude Bitcoin Types Cli WalletServer.
Open Scope Z_scope.

(** ** The address *)

Record BackendConfig := mkBackendConfig {
  bc_sync_source : WalletSyncSource;
  esplora_url : option string;        (** the text of the URL *)
  electrum_host : option string;
  electrum_port : option Z }.

Definition default_esplora_url (n : Network) : option string :=
  match n with
  | Signet => Some "https://explorer.signet.drivechain.info/api"%string
  | Mainnet => Some "https://explorer.forknet.drivechain.info/api"%string
  | Regtest => Some "http://localhost:3003"%string
  | _ => None
  end.
Definition default_electrum_host_port (n : Network) : option (string * Z) :=
  match n with
  | Signet => Some ("node.signet.drivechain.info"%string, 50001)
  | Mainnet => Some ("node.forknet.drivechain.info"%string, 50001)
  | Regtest => Some ("127.0.0.1"%string, 60401)
  | _ => None
  end.

Inductive InitEsploraClient := BuildEsploraClient | EsploraClientHeight | MissingUrl | ParseUrl.
Inductive InitElectrumClient := ChainMismatch (electrum_block_hash : BlockHash) | CreateElectrumClient | GetInitialBlockHeader | MissingHostPort.
Inductive InitChainSourceClient := ICS_Electrum (e : InitElectrumClient) | ICS_Esplora (e : InitEsploraClient).

Definition is_transient (e : InitChainSourceClient) : bool :=
  match e with
  | ICS_Electrum CreateElectrumClient | ICS_Electrum GetInitialBlockHeader | ICS_Esplora EsploraClientHeight => true
  | _ => false
  end.

Section Backend.
Context `{UrlLib}.

(** A default address is parsed and written again. *)
Definition esplora_endpoint (c : BackendConfig) (n : Network) : Res InitEsploraClient string :=
  match esplora_url c with
  | Some url => Ok url
  | None => default_url ← ok_or MissingUrl (default_esplora_url n); url ← ok_or ParseUrl (url_parse default_url); Ok (url_to_string url)
  end.

Definition electrum_endpoint (c : BackendConfig) (n : Network) : Res InitElectrumClient string :=
  '(host, port) ← match electrum_host c, electrum_port c with
    | Some host, Some port => Ok (host, port)
    | host, port =>
        '(default_host, default_port) ← ok_or MissingHostPort (default_electrum_host_port n);
        Ok (default default_host host, default default_port port)
    end;
  Ok (host +:+ ":" +:+ pretty port)%string.

Definition sync_backend_endpoint (c : BackendConfig) (n : Network) : option string :=
  match bc_sync_source c with
  | Electrum => match electrum_endpoint c n with Ok e => Some e | _ => None end
  | Esplora => match esplora_endpoint c n with Ok url => Some (default url (redact_embedded_credentials url)) | _ => None end
  | SyncDisabled => None
  end.

(** The address that [init_esplora_client] logs *)
Definition logged_esplora_url (url : string) : string := default ""%string (redact_embedded_credentials url).

(** ** Connecting *)

(** What the backend answers: the client can be built, and its height or the first header *)
Record BackendAnswer := mkBackendAnswer { ba_client : bool; ba_height : bool; ba_header : option BlockHash }.

Definition init_esplora_client (c : BackendConfig) (n : Network) (a : BackendAnswer) : Res InitEsploraClient unit :=
  _ ← esplora_endpoint c n;
  _ ← (if ba_client a then Ok tt else Err BuildEsploraClient);
  if ba_height a then Ok tt else Err EsploraClientHeight.

Definition init_electrum_client (chain_hash : Network -> BlockHash) (c : BackendConfig) (n : Network) (a : BackendAnswer) : Res InitElectrumClient unit :=
  _ ← electrum_endpoint c n;
  _ ← (if ba_client a then Ok tt else Err CreateElectrumClient);
  header ← ok_or GetInitialBlockHeader (ba_header a);
  if bool_decide (header <> chain_hash n) then Err (ChainMismatch header) else Ok tt.

(** [ChainSourceClient] *)
Inductive Client := ElectrumClient | EsploraClient.

Variable chain_hash : Network -> BlockHash.

Definition try_init_chain_source_client (c : BackendConfig) (n : Network) (a : BackendAnswer) : Res InitChainSourceClient Client :=
  match bc_sync_source c with
  | Electrum => _ ← map_err ICS_Electrum (init_electrum_client chain_hash c n a); Ok ElectrumClient
  | Esplora => _ ← map_err ICS_Esplora (init_esplora_client c n a); Ok EsploraClient
  | SyncDisabled => Panic
  end.

(** ** The shared state *)

(** [ErrorChain] of an error as text *)
Variable error_text : InitChainSourceClient -> string.

Record SyncState := mkSyncState { st_client : option Client; st_last_error : option string; st_last_synced_at : option Z }.
Definition sync_state_default : SyncState := mkSyncState None None None.
Definition with_last_error (e : option string) : SyncState := mkSyncState None e None.
Definition with_client (c : Client) : SyncState := mkSyncState (Some c) None None.
Definition has_synced (s : SyncState) : bool := bool_decide (is_Some (st_last_synced_at s)).
Definition mark_synced_now (now : Z) (s : SyncState) : SyncState := mkSyncState (st_client s) (st_last_error s) (Some now).
Definition publish_client (c : Client) (s : SyncState) : SyncState := mkSyncState (Some c) None (st_last_synced_at s).
Definition set_last_error (e : string) (s : SyncState) : SyncState := mkSyncState (st_client s) (Some e) (st_last_synced_at s).
Definition record_result {A} (r : Res string A) (s : SyncState) : SyncState :=
  match r with
  | Ok _ => mkSyncState (st_client s) None (st_last_synced_at s)
  | Err e => set_last_error e s
  | Panic => s
  end.
Definition report (s : SyncState) : bool * option string * option Z := (bool_decide (is_Some (st_client s)), st_last_error s, st_last_synced_at s).

(** The state, and whether the connection is to be retried *)
Definition init_chain_source (c : BackendConfig) (n : Network) (a : BackendAnswer) : Res InitChainSourceClient (SyncState * bool) :=
  if decide (bc_sync_source c = SyncDisabled) then Ok (sync_state_default, false) else
  match try_init_chain_source_client c n a with
  | Ok client => Ok (with_client client, false)
  | Err err => if is_transient err then Ok (with_last_error (Some (error_text err)), true) else Err err
  | Panic => Panic
  end.

(** ** The retries *)

Definition INITIAL_RETRY_DELAY : Z := 500.
Definition MAX_RETRY_DELAY : Z := 10000.

(** A round of [ChainSourceInitTask::run]: shutdown during the delay, the wallet dropped, or an
    answer of the backend *)
Inductive Round := R_Cancelled | R_WalletDropped | R_Answer (a : BackendAnswer).

(** The state, the delays so far, and whether the task has returned *)
Fixpoint init_task_loop (c : BackendConfig) (n : Network) (retry_delay : Z) (rounds : list Round) (s : SyncState) : SyncState * list Z * bool :=
  match rounds with
  | [] => (s, [], false)
  | R_Cancelled :: _ | R_WalletDropped :: _ => (s, [retry_delay], true)
  | R_Answer a :: rounds =>
      match try_init_chain_source_client c n a with
      | Ok client => (publish_client client s, [retry_delay], true)
      | Err err =>
          if is_transient err then
            let '(s, delays, done) := init_task_loop c n (Z.min (retry_delay * 2) MAX_RETRY_DELAY) rounds (set_last_error (error_text err) s) in
            (s, retry_delay :: delays, done)
          else (set_last_error (error_text err) s, [retry_delay], true)
      | Panic => (s, [retry_delay], true)
      end
  end.
Definition run_init_task (c : BackendConfig) (n : Network) (rounds : list Round) (s : SyncState) := init_task_loop c n INITIAL_RETRY_DELAY rounds s.

(** ** The periodic sync *)

(** One round of [sync_task]: the sync is run only after the first one. *)
Definition sync_tick (sync : SyncState -> SyncState) (s : SyncState) : SyncState := if has_synced s then sync s else s.

(** The wallet's report on its backend *)
Definition sync_source_info (c : BackendConfig) (n : Network) (s : SyncState) : SyncSourceInfo :=
  let '(connected, last_error, last_synced_at) := report s in mkSyncSourceInfo (bc_sync_source c) (sync_backend_endpoint c n) connected last_error last_synced_at.

(** ** Theorems *)

Definition transient (c : BackendConfig) (n : Network) (a : BackendAnswer) : Prop := exists e, try_init_chain_source_client c n a = Err e /\ is_transient e = true.

(** The delay before try [k] *)
Definition backoff (k : nat) : Z := Z.min (INITIAL_RETRY_DELAY * 2 ^ Z.of_nat k) MAX_RETRY_DELAY.

Lemma backoff_S k : Z.min (backoff k * 2) MAX_RETRY_DELAY = backoff (S k).
Proof. unfold backoff, INITIAL_RETRY_DELAY, MAX_RETRY_DELAY. rewrite Nat2Z.inj_succ, Z.pow_succ_r by lia. lia. Qed.

Lemma init_task_connects c n k failures a client s :
  Forall (transient c n) failures -> try_init_chain_source_client c n a = Ok client ->
  init_task_loop c n (backoff k) ((R_Answer <$> failures) ++ [R_Answer a]) s =
  (mkSyncState (Some client) None (st_last_synced_at s), backoff <$> seq k (S (length failures)), true).
Proof.
  intros Hf Ha. revert k s. induction Hf as [|x failures (e & He & Ht) _ IH]; intros k s; cbn [fmap list_fmap app init_task_loop]; [by rewrite Ha|].
  rewrite He, Ht, backoff_S, IH. done.
Qed.

(** A backend that is not reachable at start-up does not keep the wallet from starting, and
    [GetInfo] shows it as unavailable with the error; once it can be reached, after any
    number of tries, it is shown as available and the error is gone. The tries are half a
    second apart at first, then twice as far each time, and never more than ten seconds. *)
Theorem backend_comes_up c n a0 failures a client :
  bc_sync_source c <> SyncDisabled -> transient c n a0 -> Forall (transient c n) failures -> try_init_chain_source_client c n a = Ok client ->
  let message s := sync_source_message (sync_source_info c n s) in
  exists s, init_chain_source c n a0 = Ok (s, true) /\ sm_state (message s) = STATE_UNAVAILABLE /\ is_Some (sm_last_error (message s)) /\
  exists s', run_init_task c n ((R_Answer <$> failures) ++ [R_Answer a]) s =
      (s', (fun k => Z.min (INITIAL_RETRY_DELAY * 2 ^ Z.of_nat k) MAX_RETRY_DELAY) <$> seq 0 (S (length failures)), true) /\
    sm_state (message s') = STATE_AVAILABLE /\ sm_last_error (message s') = None.
Proof.
  intros Hd (e & He & Ht) Hf Ha. exists (with_last_error (Some (error_text e))). split_and!; [| |by eexists|].
  - unfold init_chain_source. by rewrite decide_False, He, Ht.
  - cbn. unfold sync_source_state. cbn. by rewrite decide_False.
  - exists (mkSyncState (Some client) None None). split_and!; [exact (init_task_connects c n 0 failures a client _ Hf Ha)| |done].
    cbn. unfold sync_source_state. cbn. by rewrite decide_False.
Qed.
End Backend.
