(* ===== verification/WalletInfo.v ===== *)
(** * The wallet's answers about itself

    The rest of [lib/server/wallet/grpc.rs]: [get_info] with [get_wallet_info] of
    [lib/wallet/mod.rs], new addresses, the list of deposits and the full scan. What
    BDK answers is an argument. *)

From Stdlib Require Import Strings.Byte Strings.String.
From stdpp Require Import base numbers list gmap strings.
From S2P Require Import Prelude OrderMap Bitcoin Types Messages M6 Dbs BlockHashes Treasury Diff Handlers ConnectBlock TreasurySafety Enforcer Facade SuffixProofs Wallet WalletProofs WalletSync Proto Server Cli WalletServer Backend.
Open Scope Z_scope.

(** [KeychainKind] *)
Inductive KeychainKind := External | Internal_.
Definition keychain_name (k : KeychainKind) : string := match k with External => "external" | Internal_ => "internal" end.

Record WalletInfo := mkWalletInfo {
  wi_keychain_descriptors : list (KeychainKind * string);
  wi_network : Network;
  wi_transaction_count : Z;
  wi_unspent_output_count : Z;
  wi_tip : BlockHash * Z;
  wi_sync_source : SyncSourceInfo }.

(** What [get_wallet_info] reads of the wallet: its network, keychains, transactions, unspent
    outputs and the tip of its chain *)
Record OpenWallet := mkOpenWallet {
  ow_network : Network; ow_keychains : list (KeychainKind * string); ow_transactions : Z; ow_unspent : Z; ow_tip : BlockHash * Z }.

Record PbTip := mkPbTip { tip_height_ : Z; tip_hash_ : Pb.ReverseHex }.
Record GetInfoResponse := mkGetInfoResponse {
  gi_network : string; gi_transaction_count : Z; gi_unspent_output_count : Z; gi_descriptors : list (string * string); gi_tip : PbTip; gi_sync_source : SyncSourceMessage }.

Definition full_scan_code (e : FullScan) : ErrorCode :=
  match e with
  | FS_NotUnlocked => Unknown
  | InvalidSyncSource | NoMainchainTip => FailedPrecondition
  | ScanInProgress => Aborted
  | ChainSourceFailed => Unavailable
  | FS_ListHeaders _ | CannotConnectUpdate | CreateCheckPointFromHeaders | PersistWallet => Internal
  end.

Section WalletInfo.
Context `{Bitcoin, Nom, ProtoLib, UrlLib}.
(** [Display] of a network, and [ErrorChain] of an error *)
Context (network_to_string : Network -> string).

(** [None]: the wallet is not unlocked. *)
Definition get_wallet_info (c : BackendConfig) (wallet : option OpenWallet) (s : SyncState) : option WalletInfo :=
  w ← wallet;
  Some (mkWalletInfo (ow_keychains w) (ow_network w) (ow_transactions w) (ow_unspent w) (ow_tip w) (sync_source_info c (ow_network w) s)).

(** [as u32] *)
Definition server_get_info (c : BackendConfig) (wallet : option OpenWallet) (s : SyncState) : Res ConnectError GetInfoResponse :=
  info ← ok_or (unknown_err tt) (get_wallet_info c wallet s);
  Ok (mkGetInfoResponse (network_to_string (wi_network info)) (wi_transaction_count info mod 2 ^ 32) (wi_unspent_output_count info mod 2 ^ 32)
        ((fun e => (keychain_name e.1, e.2)) <$> wi_keychain_descriptors info)
        (mkPbTip (wi_tip info).2 (reverse_hex_encode hash_codec (wi_tip info).1)) (sync_source_message (wi_sync_source info))).

(** [next_unused_address] reveals an address, which is kept if it can be persisted. *)
Inductive GetNewAddress := GNA_NotUnlocked | GNA_Persist.
Definition get_new_address {W A} (next_unused_address : W -> A * W) (persist_ok : W -> bool) (wallet : option W) : Res GetNewAddress (A * W) :=
  w ← ok_or GNA_NotUnlocked wallet;
  let '(a, w) := next_unused_address w in
  if persist_ok w then Ok (a, w) else Err GNA_Persist.
Definition create_new_address {W A} (next_unused_address : W -> A * W) (persist_ok : W -> bool) (address_to_string : A -> string) (wallet : option W)
    : Res ConnectError (string * W) :=
  '(a, w) ← map_err unknown_err (get_new_address next_unused_address persist_ok wallet); Ok (address_to_string a, w).

(** A listed deposit: its sidechain and its transaction *)
Definition server_list_sidechain_deposit_transactions (v : Validator) (wallet : option BdkWallet) (transactions : list WalletTx) (get_raw_transaction : Txid -> option Transaction)
    : Res ConnectError (list (Z * PbWalletTransaction)) :=
  txs ← map_err unknown_err (list_wallet_transactions wallet transactions get_raw_transaction);
  deposits ← map_err unknown_err (list_sidechain_deposit_transactions v txs);
  Ok (map (fun d => (u8_val (sd_sidechain_number d), wallet_transaction_to_proto (sd_wallet_tx d))) deposits).

(** The scan's result, from [try_full_scan] *)
Definition server_full_scan (scan : option (Res FullScan (WalletInner * BlockHash))) : option (Res ConnectError (WalletInner * Pb.ReverseHex)) :=
  r ⇐ omap_err (fun e => mkConnectError (full_scan_code e) D_Display) scan;
  Some (Ok (r.1, reverse_hex_encode hash_codec r.2)).
End WalletInfo.

(** ** Theorems *)

(** The first deposit of a sidechain is listed as soon as the wallet has made it, confirmed
    or not, with its sidechain, its amount and the address it is for. *)
Theorem first_deposit_listed `{Bitcoin, !BitcoinLaws, !ReturnLaws, Nom, !NomLaws} hmac_in hmac_out fetch send peers w `{!BdkLaws w}
    v v' n address val fee txid applied :
  op_ok (op_drivechain (v_network_params v)) -> v_network_params v' = v_network_params v -> 0 <= val ->
  create_deposit hmac_in hmac_out fetch send peers (Some w) v n address val fee = Ok (txid, applied) ->
  (try_get_ctip_value_seq v' (mkOutPoint txid 0) = None /\ try_get_ctip v' n = None \/
   exists k a, try_get_ctip_value_seq v' (mkOutPoint txid 0) = Some (k, a, 0)) ->
  exists tx, applied = [tx] /\ forall t, bt_txid t = txid -> bt_tx t = tx ->
    list_sidechain_deposit_transactions v' [t] = Ok [mkSidechainDepositTransaction n val address t].
Proof.
  intros Hop Hn Hv Hc Hctip. apply created_deposit in Hc as (tx & -> & -> & Ha & [(change & Ho & _) Hi]); [|done|done]. exists tx. split; [done|]. intros t Et Etx.
  unfold list_sidechain_deposit_transactions, sidechain_deposit. cbn [foldM]. rewrite Et, Etx, Ho, Hn. cbn [script_pubkey create_m5_deposit_output]. rewrite op_drivechain_parse_script.
  assert (Hs : spent_ctip v' tx n (mkOutPoint (compute_txid tx) 0) = Ok None).
  { unfold spent_ctip. destruct Hctip as [[-> ->]|(k & a & ->)]; done. }
  rewrite Hs. cbn [value create_m5_deposit_output head map_err mbind Res_bind]. rewrite (proj2 (checked_sub_Some val 0 val)) by lia.
  cbn [script_pubkey fmap option_fmap option_map]. rewrite address_parses by done. done.
Qed.
