(* ===== verification/Scenario.v ===== *)
(** * A concrete chain

    One block with every kind of message, run through the definitions with the
    instances of [Bitcoin.Runnable], and the theorems of the library applied
    to it. Slot 1 is active with a treasury of 1000 and a pending bundle that
    has enough votes; slot 3 has a proposal one vote short of activation. The
    block votes for the bundle, activates slot 3, proposes a sidechain and a
    bundle, pays out the first bundle, deposits into slot 1 and carries an
    accepted BMM request. *)

From Stdlib Require Import Strings.Byte.
From stdpp Require Import base numbers list gmap.
From S2P Require Import Prelude OrderMap Bitcoin Types Messages M6 Dbs BlockHashes Treasury Diff Reversible Handlers HandlerProofs HandlerSpecs ConnectBlock ConnectProofs Reorg BlockRules TreasurySafety HashOrder Enforcer EnforcerProofs.
Import Runnable.
Open Scope Z_scope.

(** ** The chain *)

Definition slot : SidechainNumber := x01.
Definition params : NetworkParams := network_params_new ForkBitcoin Regtest None.
Definition handler : BlockHandler := block_handler_new Regtest params.
Definition genesis : Header := mkHeader 1 all_zeros all_zeros 0 1 0.

Definition value_or {E A} (d : A) (r : Res E A) : A := match r with Ok a => a | _ => d end.

Lemma value_or_Ok {E A} (d : A) (r : Res E A) : is_ok r = true -> r = Ok (value_or d r).
Proof. by destruct r. Qed.

(** *** Transactions *)

Definition txid0 : Txid := replicate 32 xaa.
Definition ctip0 : Ctip := mkCtip (mkOutPoint txid0 0) 1000.
Definition treasury_out (v : Amount) : TxOut := mkTxOut v (op_drivechain_script NOP5 slot).
Definition commitment : BmmCommitment := replicate 32 x77.

Definition m6_tx : Transaction :=
  mkTransaction 2 0 [txin_of (ctip_outpoint ctip0)] [treasury_out 400; mkTxOut 500 [x51]].
Definition bundle_id : M6id := (value_or ([], x00) (compute_m6id NOP5 m6_tx 1000)).1.
Definition deposit_tx : Transaction :=
  mkTransaction 2 0 [txin_of (mkOutPoint (compute_txid m6_tx) 0); txin_of (mkOutPoint txid0 7)]
    [treasury_out 650; mkTxOut 0 (new_op_return [x61])].
Definition m8_tx : Transaction :=
  mkTransaction 2 0 [txin_of (mkOutPoint txid0 8)]
    [mkTxOut 0 (value_or [] (m8_script_pubkey slot commitment (block_hash genesis)))].

Definition new_description : SidechainDescription := [x64; x65].
Definition proposal3 : SidechainProposal := mkSidechainProposal x03 [x66].
Definition sidechain3 : Sidechain := mkSidechain proposal3 (mkStatus 5 0 None).

Definition message_out (m : CoinbaseMessage) : TxOut := mkTxOut 0 (value_or [] (coinbase_message_script m)).
Definition coinbase_tx : Transaction :=
  mkTransaction 1 0 []
    (message_out <$> [CM_M4 (OneByte [x00]); CM_M1 (mkM1 x02 new_description);
                      CM_M2 (mkM2 x03 (sha256d [x66])); CM_M3 (mkM3 slot (replicate 32 x55));
                      CM_M7 (mkM7 slot commitment)]).

Definition block1 : Block :=
  mkBlock (mkHeader 1 (block_hash genesis) all_zeros 1 1 1) [coinbase_tx; m6_tx; deposit_tx; m8_tx].

(** *** Tables *)

Definition sidechain1 : Sidechain := mkSidechain (mkSidechainProposal slot []) (mkStatus 6 0 (Some 6)).
Definition pending1 : PendingM6ids := [(bundle_id, mkPending 6 1); (replicate 32 x99, mkPending 2 1)].

Definition no_treasury : ActiveSidechainDbs := mkActive ∅ ∅ {[slot := pending1]} {[slot := sidechain1]} ∅ ∅.
Definition active1 : ActiveSidechainDbs := (value_or (no_treasury, 0) (put_ctip (E := DbError) no_treasury slot ctip0)).1.

Definition hashes1 : BlockHashDbs :=
  mkBlockHashes ∅ ∅ {[block_hash genesis := 1]} ∅ ∅
    {[block_hash genesis := genesis; block_hash (header block1) := header block1]}
    {[block_hash genesis := 0; block_hash (header block1) := 1]} ∅.

Definition tables1 : Dbs :=
  mkDbs active1 hashes1 (Some (block_hash genesis)) {[compute_id proposal3 := sidechain3]} ∅.

(** The tables and the event after the block. *)
Definition connected : Res ConnectBlockError (Dbs * Event) := connect_block handler tables1 block1.
Definition tables2 : Dbs := (value_or (tables1, DisconnectBlock []) connected).1.
Definition event2 : Event := (value_or (tables1, DisconnectBlock []) connected).2.

Lemma connected_Ok : connect_block handler tables1 block1 = Ok (tables2, event2).
Proof.
  assert (Hok : is_ok connected = true) by (vm_compute; reflexivity).
  apply (value_or_Ok (tables1, DisconnectBlock [])) in Hok. unfold tables2, event2.
  by destruct (value_or _ connected).
Qed.

(** What happened: the bundle is paid (400 left), the deposit adds 250, slot 3
    is active, the new bundle has its first vote, the new sidechain is
    proposed. *)
Lemma block1_effects :
  ctip_amount (active_sidechains tables2) slot = 650 /\
  is_Some (sidechain (active_sidechains tables2) !! x03) /\
  pending_m6ids (active_sidechains tables2) !! slot
  = Some [(replicate 32 x99, mkPending 1 1); (replicate 32 x55, mkPending 1 1)] /\
  (map_to_list (proposal_id_to_sidechain tables2)).*2
  = [mkSidechain (mkSidechainProposal x02 new_description) (mkStatus 0 1 None)].
Proof. split_and!; [| |vm_compute; reflexivity..]; [vm_compute; reflexivity|eexists; vm_compute; reflexivity]. Qed.

(** ** The hypotheses of the theorems hold *)

Lemma no_treasury_repr : treasury_repr TreasurySpec.init no_treasury.
Proof. destruct treasury_repr_empty as [E1 E2 E3 E4]. by split. Qed.

Lemma pending1_wf : pending_wf pending1.
Proof.
  split; [by apply (bool_decide_unpack _)|]. unfold votes_ok, u16_max. repeat constructor; cbn; lia.
Qed.

Lemma active1_wf : wf active1.
Proof.
  assert (E : exists q, @put_ctip DbError no_treasury slot ctip0 = Ok (active1, q)) by (eexists; vm_compute; reflexivity).
  destruct E as [q E]. destruct (put_ctip_repr _ _ _ _ _ _ no_treasury_repr eq_refl E) as (Hr & [Ep Es] & _).
  split; rewrite <- ?Ep, <- ?Es.
  - intros n. unfold no_treasury. cbn [pending_m6ids sidechain]. destruct (decide (slot = n)) as [<-|Hne].
    + rewrite !lookup_singleton_eq. split; by eexists.
    + rewrite !lookup_singleton_ne by done. done.
  - intros n p. unfold no_treasury. cbn [pending_m6ids]. intros [_ <-]%lookup_singleton_Some. apply pending1_wf.
  - by eexists.
Qed.

Lemma tables1_wf : wf tables1.
Proof.
  split; [apply active1_wf|]. intros id sc. cbn [proposal_id_to_sidechain tables1].
  intros [<- <-]%lookup_singleton_Some. split_and!; [done|cbn; unfold u16_max; lia..|done].
Qed.

Lemma known1 o : ctip_outpoint_to_value_seq active1 !! o = if decide (o = ctip_outpoint ctip0) then Some (slot, 1000, 0) else None.
Proof.
  assert (E : ctip_outpoint_to_value_seq active1 = {[ctip_outpoint ctip0 := (slot, 1000, 0)]}) by reflexivity.
  rewrite E. case_decide; subst; [by rewrite lookup_singleton_eq|by rewrite lookup_singleton_ne].
Qed.

Lemma txids1_nodup : NoDup (compute_txid <$> tail (txdata block1)).
Proof. by apply (bool_decide_unpack _). Qed.

Lemma block1_ok : block_ok block1 tables1.
Proof.
  split; [by vm_compute| |by vm_compute]. split; [apply txids1_nodup|].
  cbn [tail txdata block1]. repeat constructor; try (vm_compute; reflexivity);
    intros o Ho; unfold outpoint_fresh; cbn [active_sidechains tables1]; rewrite known1; case_decide; [subst o|done| subst o|done| subst o|done];
    exfalso; vm_compute in Ho; discriminate Ho.
Qed.

Lemma block1_utxos : utxo_rules (tail (txdata block1)) (active_sidechains tables1).
Proof.
  split; [apply txids1_nodup|by apply (bool_decide_unpack _)| |].
  - intros o n v q _. cbn [active_sidechains tables1]. rewrite known1. case_decide; [|done]. intros [= <- <- <-]. subst o. vm_compute. reflexivity.
  - repeat constructor; vm_compute; reflexivity.
Qed.

(** ** The theorems on this chain *)

Lemma connect_disconnect_witness :
  disconnect_block tables2 [] (block_hash (header block1))
  = Ok (set_block_hashes tables1 (block_hashes tables2), [DisconnectBlock (block_hash (header block1))]).
Proof. exact (connect_disconnect handler tables1 block1 tables2 event2 [] tables1_wf block1_ok connected_Ok). Defined.

Lemma connect_block_wf_witness : wf tables2.
Proof.
  exact (proj2 (connect_block_wf handler tables1 block1 tables2 event2) tables1_wf block1_ok connected_Ok).
Defined.

Definition paid : Res HandleM5M6 (option DepositsOrSuccessfulWithdrawal * UnconsolidatedCtips) :=
  handle_m5_m6 handler tables1 unconsolidated_default m6_tx.
Definition paid_result : option DepositsOrSuccessfulWithdrawal := (value_or (None, unconsolidated_default) paid).1.
Definition paid_unconsolidated : UnconsolidatedCtips := (value_or (None, unconsolidated_default) paid).2.

Lemma paid_Ok : handle_m5_m6 handler tables1 unconsolidated_default m6_tx = Ok (paid_result, paid_unconsolidated).
Proof.
  assert (Hok : is_ok paid = true) by (vm_compute; reflexivity).
  apply (value_or_Ok (None, unconsolidated_default)) in Hok. unfold paid_result, paid_unconsolidated.
  by destruct (value_or _ paid).
Qed.

Lemma treasury_conservation_witness :
  400 < spent_value tables1 unconsolidated_default slot (input m6_tx) /\
  exists m6id q d, paid_result = Some (M6Withdrawal slot m6id q d) /\
    authorised handler tables1 unconsolidated_default m6_tx slot m6id.
Proof.
  assert (Hlt : 400 < spent_value tables1 unconsolidated_default slot (input m6_tx)) by (vm_compute; reflexivity).
  split; [exact Hlt|].
  destruct (treasury_conservation handler tables1 unconsolidated_default m6_tx paid_result paid_unconsolidated) as (_ & _ & Hc).
  - by apply (bool_decide_unpack _).
  - vm_compute. reflexivity.
  - exact paid_Ok.
  - destruct (Hc 0%nat (treasury_out 400) slot eq_refl) as [Hle|Ha]; [split; [by eexists|by eexists]| |exact Ha].
    exfalso. change (value (treasury_out 400)) with 400 in Hle. lia.
Defined.

Lemma handle_m5_m6_any_order_witness :
  exists infos, fill_ctips handler tables1 unconsolidated_default m6_tx = Ok infos /\
    foldM (handle_m5_m6_slot handler tables1 m6_tx (size infos)) (rev (map_to_list infos)) (None, unconsolidated_default)
    = Ok (paid_result, paid_unconsolidated).
Proof.
  pose (infos := value_or ∅ (fill_ctips handler tables1 unconsolidated_default m6_tx)). exists infos.
  assert (Hf : fill_ctips handler tables1 unconsolidated_default m6_tx = Ok infos)
    by (apply value_or_Ok; vm_compute; reflexivity).
  split; [exact Hf|].
  apply (handle_m5_m6_any_order handler tables1 unconsolidated_default m6_tx infos); [| |exact Hf| |exact paid_Ok].
  - vm_compute. reflexivity.
  - intros o _. reflexivity.
  - symmetry. apply Permutation_rev.
Defined.

Definition info2 : HeaderInfo := match event2 with ConnectBlock hi _ => hi | _ => mkHeaderInfo [] [] 0 0 0 end.
Definition block_info2 : BlockInfo := match event2 with ConnectBlock _ bi => bi | _ => mkBlockInfo [] [] [] end.

Lemma connected_event : connect_block handler tables1 block1 = Ok (tables2, ConnectBlock info2 block_info2).
Proof.
  rewrite connected_Ok. unfold info2, block_info2.
  assert (Hev : match event2 with ConnectBlock _ _ => true | _ => false end = true) by (vm_compute; reflexivity).
  by destruct event2.
Qed.

Lemma treasury_accounting_witness :
  ctip_from handler (tail (txdata block1)) (active_sidechains tables1) (active_sidechains tables2) slot /\
  exists fees, Forall2 (bundle_fee handler slot) (List.filter (withdraws slot) (bi_events block_info2)) fees /\
    ctip_amount (active_sidechains tables2) slot + paid_out slot (bi_events block_info2) + sum fees
    = ctip_amount (active_sidechains tables1) slot + deposited slot (bi_events block_info2).
Proof.
  exact (treasury_accounting handler tables1 block1 tables2 info2 block_info2 slot block1_utxos connected_event).
Defined.

(** 650 + 500 paid out + 100 of fees = 1000 + 250 deposited. *)
Lemma treasury_accounting_numbers :
  ctip_amount (active_sidechains tables2) slot = 650 /\ paid_out slot (bi_events block_info2) = 500 /\
  ctip_amount (active_sidechains tables1) slot = 1000 /\ deposited slot (bi_events block_info2) = 250.
Proof. split_and!; vm_compute; reflexivity. Qed.

(** *** Handlers *)

Lemma failed_iff_hopeless_witness :
  handle_failed_sidechain_proposals handler tables1 6 !! compute_id proposal3 = None.
Proof.
  apply (failed_iff_hopeless handler tables1 6 (compute_id proposal3) sidechain3 10 5); vm_compute; try done.
  split; [done|]. by left.
Defined.

Lemma m4_votes_spec_witness :
  exists d ps, handle_m4_votes tables1 [0] = Ok d /\ apply d 1 active1 = Ok (set_pending active1 ps) /\
    ps !! slot = Some [(bundle_id, mkPending 7 1); (replicate 32 x99, mkPending 1 1)].
Proof.
  destruct (m4_votes_spec tables1 [0] 1 active1_wf) as (_ & Hok & _).
  assert (Hn : numbers (active_sidechains tables1) = [slot]) by (vm_compute; reflexivity).
  assert (Hp : pending_m6ids (active_sidechains tables1) !! slot = Some pending1) by reflexivity.
  destruct Hok as (d & ps & Hd & Ha & Hps).
  - by rewrite Hn.
  - intros n v p (i & Hi & Hv & Hpn). rewrite Hn in Hi. destruct i as [|]; [|done]. injection Hi as <-. injection Hv as <-.
    rewrite Hp in Hpn. injection Hpn as <-. right. right. cbn. lia.
  - exists d, ps. split_and!; [exact Hd|exact Ha|]. rewrite (Hps slot 0 pending1).
    + vm_compute. reflexivity.
    + exists 0%nat. by rewrite Hn.
Defined.

(** A table in which the first bundle leads by 60 votes. *)
Definition leading_pending : PendingM6ids := [(bundle_id, mkPending 62 1); (replicate 32 x99, mkPending 2 1)].
Definition leading_tables : Dbs := set_active tables1 (set_pending active1 {[slot := leading_pending]}).

Lemma leading_tables_wf : wf (active_sidechains leading_tables).
Proof.
  destruct active1_wf as [_ _ Ht]. split.
  - intros n. cbn [active_sidechains leading_tables set_active set_pending pending_m6ids sidechain].
    assert (E : sidechain active1 = {[slot := sidechain1]}) by reflexivity. rewrite E.
    destruct (decide (slot = n)) as [<-|Hne]; [rewrite !lookup_singleton_eq; split; by eexists|by rewrite !lookup_singleton_ne].
  - intros n p. cbn [active_sidechains leading_tables set_active set_pending pending_m6ids].
    intros [_ <-]%lookup_singleton_Some. split; [by apply (bool_decide_unpack _)|].
    unfold votes_ok, u16_max. repeat constructor; cbn; lia.
  - destruct Ht as [h [T1 T2 T3 T4]]. exists h. by split.
Qed.

Lemma leading_by_50_spec_witness :
  exists d, handle_m4_leading_by_50 leading_tables = Ok d /\
    d !! slot = Some (UpvoteAction bundle_id (downvoted_others_for_upvote leading_pending bundle_id)).
Proof.
  destruct (leading_by_50_spec leading_tables leading_tables_wf) as [(d & Hd & Hlead) _]. exists d. split; [exact Hd|].
  apply (Hlead slot leading_pending); [reflexivity|]. exists (mkPending 62 1). split_and!; [vm_compute; done|done|done|].
  intros m j Hne Hj. unfold leading_pending in Hj. cbn [om_get] in Hj. apply om_get_elem in Hj.
  apply elem_of_cons in Hj as [[= -> ->]|Hj]; [done|]. apply list_elem_of_singleton in Hj as [= -> ->]. done.
Defined.

(** Tables in which the block before voted for the bundle. *)
Definition voted_diff : BlockDiff :=
  mkBlockDiff (mkCoinbaseDiff [D_AckBundles {[slot := UpvoteAction bundle_id []]}] ∅ ∅) [].
Definition voted_tables : Dbs :=
  set_block_hashes tables1
    (mkBlockHashes ∅ ∅ ∅ {[block_hash genesis := voted_diff]} ∅ (headers hashes1) (height hashes1) ∅).

Lemma repeat_previous_spec_witness :
  exists d, handle_m4_repeat_previous voted_tables (block_hash genesis) = Ok d /\
    d !! slot = Some (UpvoteAction bundle_id [replicate 32 x99]).
Proof.
  destruct (repeat_previous_spec voted_tables (block_hash genesis) voted_diff active1_wf) as (_ & d & Hd & Hall).
  - vm_compute. discriminate.
  - reflexivity.
  - intros n. change (default ∅ _) with ({[slot := UpvoteAction bundle_id []]} : AckBundles).
    destruct (decide (slot = n)) as [<-|Hne]; [intros _; by eexists|by rewrite lookup_singleton_ne by done; intros []].
  - exists d. split; [exact Hd|]. rewrite Hall. vm_compute. reflexivity.
Defined.

Lemma from_votes_decodes_witness :
  handle_m4_ack_bundles tables1 (block_hash genesis) (from_votes [Upvote 300])
  = map_err M4_Votes (handle_m4_votes tables1 [300]).
Proof. apply (from_votes_decodes tables1 (block_hash genesis) [Upvote 300]). repeat constructor; vm_compute; done. Defined.

Lemma failed_m6ids_spec_witness :
  exists d ps, handle_failed_m6ids handler tables1 12 = Ok d /\
    apply d 12 active1 = Ok (set_pending active1 ps) /\ ps !! slot = Some [].
Proof.
  destruct (failed_m6ids_spec handler tables1 12 active1_wf) as (d & ps & Hd & Ha & Hps). exists d, ps.
  split_and!; [exact Hd|exact Ha|]. rewrite Hps. vm_compute. reflexivity.
Defined.

(** *** Messages *)

Lemma coinbase_message_roundtrip_witness :
  exists script, coinbase_message_script (CM_M7 (mkM7 slot commitment)) = Ok script /\
    coinbase_message_parse script = Some ([], CM_M7 (mkM7 slot commitment)).
Proof. by apply (coinbase_message_roundtrip (CM_M7 (mkM7 slot commitment))). Defined.

Lemma coinbase_message_parse_exact_witness :
  instructions (new_op_return (M4_TAG ++ [x00]))
  = [Some (Op OP_RETURN); Some (PushBytes (coinbase_message_data (CM_M4 RepeatPrevious)))].
Proof.
  apply (coinbase_message_parse_exact (new_op_return (M4_TAG ++ [x00])) [] (CM_M4 RepeatPrevious)).
  vm_compute. reflexivity.
Defined.

Lemma m8_roundtrip_witness :
  exists script, m8_script_pubkey slot commitment (block_hash genesis) = Ok script /\
    m8_parse script = Some ([], mkM8 slot commitment (block_hash genesis)).
Proof. by apply (m8_roundtrip slot commitment (block_hash genesis)). Defined.

Definition declaration (title : bytes) : SidechainDeclaration :=
  mkSidechainDeclaration title [x63] (replicate 32 x01) (replicate 20 x02).

Lemma sidechain_proposal_roundtrip_witness :
  exists out d, create_sidechain_proposal slot (declaration [x61; x62]) = Ok (out, d) /\
    coinbase_message_parse (script_pubkey out) = Some ([], CM_M1 (mkM1 slot d)) /\
    sidechain_declaration_try_from d = Ok (declaration [x61; x62]).
Proof. apply (sidechain_proposal_roundtrip slot (declaration [x61; x62])); vm_compute; done || lia. Defined.

Definition long_declaration : SidechainDeclaration := declaration (replicate 256 x61).
Definition long_output : TxOut * SidechainDescription :=
  value_or (mkTxOut 0 [], []) (create_sidechain_proposal slot long_declaration).

Lemma long_title_does_not_roundtrip_witness :
  sidechain_declaration_try_from long_output.2 <> Ok long_declaration.
Proof.
  apply (long_title_does_not_roundtrip slot long_declaration long_output.1 long_output.2); [vm_compute; lia|].
  vm_compute. reflexivity.
Defined.

Definition builder0 : CoinbaseBuilder := mkCoinbaseBuilder [] coinbase_messages_default.
Definition builder1 : CoinbaseBuilder := value_or builder0 (builder_push builder0 (CM_M7 (mkM7 slot commitment))).

Lemma builder1_reachable : builder_reachable [] builder1.
Proof.
  apply (builder_step [] builder0 (CM_M7 (mkM7 slot commitment))); [|done|vm_compute; done|vm_compute; reflexivity].
  apply builder_start. reflexivity.
Qed.

Lemma builder_roundtrip_witness :
  exists ext, build builder1 = Ok ([] ++ ext) /\ coinbase_messages_new ([] ++ ext) = Ok (cb_messages builder1).
Proof. exact (builder_roundtrip [] builder1 builder1_reachable). Defined.

(** *** Withdrawals *)

Definition bundle_tx : Transaction := mkTransaction 2 0 [] [mkTxOut 0 (new_op_return (be_bytes 8 100)); mkTxOut 500 [x51]].

Lemma into_m6_keeps_m6id_witness :
  compute_m6id NOP5 m6_tx 1000 = Ok (blinded_compute_m6id (mkBlindedM6 100 500 bundle_tx), slot).
Proof.
  apply (into_m6_keeps_m6id bundle_tx (mkBlindedM6 100 500 bundle_tx) NOP5 slot ctip0 [] m6_tx);
    [by apply (bool_decide_unpack _)|by vm_compute|constructor|vm_compute; reflexivity..].
Defined.

(** *** Headers *)

Lemma headers1_wf : chain_wf hashes1.
Proof.
  split.
  - vm_compute. reflexivity.
  - intros x hd. unfold hashes1. cbn [headers]. rewrite lookup_insert_Some, lookup_singleton_Some. intros [[<- <-]|[_ [<- <-]]]; done.
  - intros x hd. unfold hashes1. cbn [headers]. rewrite lookup_insert_Some, lookup_singleton_Some.
    intros [[<- <-]|[_ [<- <-]]].
    + exists 0. by vm_compute.
    + exists 1. split_and!; [reflexivity|lia|]. rewrite decide_False by (vm_compute; done). split; [by eexists|reflexivity].
Qed.

(** A second block on the same parent. *)
Definition fork_header : Header := mkHeader 1 (block_hash genesis) all_zeros 2 1 2.
Definition fork_hashes : BlockHashDbs := value_or hashes1 (put_headers hashes1 [(fork_header, 1)]).

Lemma put_header_wf_witness :
  chain_wf fork_hashes /\ at_height fork_hashes (block_hash fork_header) 1 /\
  at_height fork_hashes (block_hash (header block1)) 1.
Proof.
  destruct (put_header_wf hashes1 fork_header 1 fork_hashes headers1_wf) as (Hw & Ha & Hk).
  - vm_compute. discriminate.
  - reflexivity.
  - vm_compute. by split; [eexists|].
  - reflexivity.
  - split_and!; [exact Hw|exact Ha|]. apply Hk. vm_compute. by split; [eexists|].
Defined.

Lemma last_common_ancestor_spec_witness :
  exists r, last_common_ancestor hashes1 (block_hash (header block1)) (block_hash genesis) = Ok r /\
    is_ancestor hashes1 r (block_hash genesis) /\ r = block_hash genesis.
Proof.
  destruct (last_common_ancestor_spec hashes1 (block_hash (header block1)) (block_hash genesis) headers1_wf)
    as (r & Hr & _ & Ha & _); [right; by eexists..|].
  exists r. split_and!; [exact Hr|exact Ha|].
  assert (E : last_common_ancestor hashes1 (block_hash (header block1)) (block_hash genesis) = Ok (block_hash genesis))
    by (vm_compute; reflexivity).
  rewrite Hr in E. by injection E.
Defined.

Definition synced_hashes : BlockHashDbs :=
  mkBlockHashes {[block_hash (header block1) := []]} {[block_hash (header block1) := []]} (cumulative_work hashes1) ∅
    {[block_hash (header block1) := []]} (headers hashes1) (height hashes1) ∅.

Lemma peg_data_range_spec_witness :
  exists ds, get_two_way_peg_data_range synced_hashes 1 (Some (block_hash genesis)) (block_hash (header block1)) = Some (Ok ds) /\
    (hi_block_hash ∘ twp_header_info <$> ds) = [block_hash (header block1)].
Proof.
  apply (peg_data_range_spec synced_hashes 1 (Some (block_hash genesis)) (block_hash genesis)).
  - destruct headers1_wf as [W1 W2 W3]. by split.
  - apply (segment_snoc _ _ [] _ (header block1)); [reflexivity|]. constructor.
  - done.
  - repeat constructor; by eexists.
  - left. by eexists.
  - by left.
  - done.
Defined.

Lemma treasury_scripts_exact_witness :
  op_drivechain_parse NOP5 (op_drivechain_script NOP5 slot) = Some ([], slot) /\
  op_drivechain_parse NOP8 (op_drivechain_script NOP5 slot) = None.
Proof.
  destruct (treasury_scripts_exact NOP5 NOP8 (op_drivechain_script NOP5 slot) slot) as [Hex Hop].
  split; [by apply Hex|]. destruct (op_drivechain_parse NOP8 _) as [p|]; [|reflexivity].
  exfalso. assert (E : NOP5 = NOP8) by (apply Hop; discriminate). discriminate E.
Defined.

(** *** Rules of accepted blocks *)

Lemma bmm_rules_witness :
  bi_bmm_commitments block_info2 = [(slot, commitment)] /\
  exists q, q ∈ requests (tail (txdata block1)) /\ m8_prev_mainchain_block_hash q = block_hash genesis.
Proof.
  destruct (bmm_rules handler tables1 block1 tables2 info2 block_info2 connected_event)
    as (cb & txs & ms & Htx & _ & _ & _ & _ & Hq); [vm_compute; discriminate|].
  split; [vm_compute; reflexivity|]. injection Htx as _ Htx. exists (mkM8 slot commitment (block_hash genesis)).
  assert (Hin : mkM8 slot commitment (block_hash genesis) ∈ requests (tail (txdata block1)))
    by (assert (E : requests (tail (txdata block1)) = [mkM8 slot commitment (block_hash genesis)])
          by (vm_compute; reflexivity); rewrite E; apply list_elem_of_singleton; reflexivity).
  split; [exact Hin|]. apply Hq. rewrite <- Htx. exact Hin.
Defined.

(** The same block five blocks later. *)
Definition tables5 : Dbs :=
  set_block_hashes tables1
    (mkBlockHashes ∅ ∅ (cumulative_work hashes1) ∅ ∅ (headers hashes1)
       {[block_hash genesis := 5; block_hash (header block1) := 6]} ∅).
Definition connected6 : Dbs * Event := value_or (tables5, DisconnectBlock []) (connect_block handler tables5 block1).
Definition info6 : HeaderInfo := match connected6.2 with ConnectBlock hi _ => hi | _ => info2 end.
Definition block_info6 : BlockInfo := match connected6.2 with ConnectBlock _ bi => bi | _ => block_info2 end.

Lemma connected6_Ok : connect_block handler tables5 block1 = Ok (connected6.1, ConnectBlock info6 block_info6).
Proof.
  assert (Hok : is_ok (connect_block handler tables5 block1) = true) by (vm_compute; reflexivity).
  apply (value_or_Ok (tables5, DisconnectBlock [])) in Hok. fold connected6 in Hok. rewrite Hok. unfold info6, block_info6.
  assert (Hev : match connected6.2 with ConnectBlock _ _ => true | _ => false end = true) by (vm_compute; reflexivity).
  destruct connected6 as [s2 [hi bi|]]; [reflexivity|discriminate Hev].
Qed.

Lemma proposal_votes_bounded_witness :
  votes_bounded (bh_thresholds handler) 6 connected6.1 /\
  exists r, handle_m2_ack_sidechain handler connected6.1 7 x02 (sha256d new_description) = Ok r.
Proof.
  assert (Hh : hi_height info6 = 6) by (vm_compute; reflexivity).
  destruct (proposal_votes_bounded handler tables5 block1 connected6.1 info6 block_info6 connected6_Ok) as [Hb Hv].
  - rewrite Hh. vm_compute. discriminate.
  - rewrite Hh. intros id sc. cbn [proposal_id_to_sidechain tables5 set_block_hashes tables1].
    intros [<- <-]%lookup_singleton_Some. vm_compute. split_and!; discriminate.
  - rewrite Hh in Hb. split; [exact Hb|]. apply Hv. vm_compute. reflexivity.
Defined.

(** *** A reorganisation *)

Definition empty_coinbase : Transaction := mkTransaction 1 0 [] [].
Definition proposing (d : SidechainDescription) : Transaction :=
  mkTransaction 1 0 [] [message_out (CM_M1 (mkM1 x02 d))].
Definition block_g : Block := mkBlock genesis [empty_coinbase].
Definition block_a : Block := mkBlock (header block1) [proposing [x61]].
Definition block_b : Block := mkBlock fork_header [proposing [x62]].

Definition start : Dbs :=
  set_block_hashes dbs_new
    (mkBlockHashes ∅ ∅ {[block_hash genesis := 1; block_hash (header block1) := 2; block_hash fork_header := 2]} ∅ ∅
       {[block_hash genesis := genesis; block_hash (header block1) := header block1; block_hash fork_header := fork_header]}
       {[block_hash genesis := 0; block_hash (header block1) := 1; block_hash fork_header := 1]} ∅).

Definition run (s : Dbs) (b : Block) : Dbs * Event := value_or (s, DisconnectBlock []) (connect_block handler s b).
Definition unrun (s : Dbs) (b : Block) : Dbs * list Event := value_or (s, []) (disconnect_block s [] (block_hash (header b))).

Definition at_g : Dbs := (run start block_g).1.
Definition direct : Dbs := (run at_g block_a).1.
Definition detour : Dbs := (run at_g block_b).1.
Definition back : Dbs := (unrun detour block_b).1.
Definition rerouted : Dbs := (run back block_a).1.

Lemma run_Ok s b : is_ok (connect_block handler s b) = true -> connect_block handler s b = Ok ((run s b).1, (run s b).2).
Proof. intros Hok. apply (value_or_Ok (s, DisconnectBlock [])) in Hok. fold (run s b) in Hok. by destruct (run s b). Qed.

Lemma unrun_Ok s b : is_ok (disconnect_block s [] (block_hash (header b))) = true ->
  disconnect_block s [] (block_hash (header b)) = Ok ((unrun s b).1, (unrun s b).2).
Proof. intros Hok. apply (value_or_Ok (s, [])) in Hok. fold (unrun s b) in Hok. by destruct (unrun s b). Qed.

(** A block with only a coinbase whose header is stored at the next height. *)
Lemma coinbase_step s bs b :
  tail (txdata b) = [] -> headers (block_hashes s) !! block_hash (header b) = Some (header b) ->
  current_chain_tip s <> Some all_zeros -> (block_hash (header b)) ∉ (fun c => block_hash (header c)) <$> bs ->
  height (block_hashes s) !! block_hash (header b) = Some (Z.of_nat (length bs)) -> step_ok s bs b.
Proof. intros Ht Hh Hz Hn Hk. split; [|done..]. split; [done| |done]. rewrite Ht. split; constructor. Qed.

Lemma reach_g : reach handler at_g [block_g].
Proof.
  apply (reach_connect handler start [] block_g _ (run start block_g).2).
  - by apply reach_init.
  - apply coinbase_step; [done|vm_compute; reflexivity|vm_compute; discriminate|apply not_elem_of_nil|vm_compute; reflexivity].
  - apply run_Ok. vm_compute. reflexivity.
Qed.

Lemma reach_next s b :
  reach handler s [block_g] -> is_ok (connect_block handler s b) = true ->
  tail (txdata b) = [] -> headers (block_hashes s) !! block_hash (header b) = Some (header b) ->
  current_chain_tip s <> Some all_zeros -> block_hash (header b) <> block_hash genesis ->
  height (block_hashes s) !! block_hash (header b) = Some 1 -> reach handler (run s b).1 [block_g; b].
Proof.
  intros Hr Hok Ht Hh Hz Hn Hk. apply (reach_connect handler s [block_g] b _ (run s b).2 Hr); [|by apply run_Ok].
  apply coinbase_step; try done. by intros ?%list_elem_of_singleton.
Qed.

(** Connecting G, A gives the same state as connecting G, B, disconnecting B
    and connecting A. *)
Lemma state_determined_by_chain_witness :
  same_core direct rerouted /\ is_Some (proposal_id_to_sidechain rerouted !! compute_id (mkSidechainProposal x02 [x61])).
Proof.
  split; [|eexists; vm_compute; reflexivity].
  apply (state_determined_by_chain handler direct rerouted [block_g; block_a]).
  - apply reach_next; [apply reach_g|vm_compute; (reflexivity || discriminate)..].
  - apply reach_next; [|vm_compute; (reflexivity || discriminate)..].
    apply (reach_disconnect handler detour [block_g] block_b [] _ (unrun detour block_b).2).
    + apply reach_next; [apply reach_g|vm_compute; (reflexivity || discriminate)..].
    + apply unrun_Ok. vm_compute. reflexivity.
Defined.

(** *** The enforcer *)

Definition new_validator : Validator := mkValidator dbs_new Regtest params [].
Definition enf_run (v : Validator) (b : Block) : Validator * ConnectBlockAction :=
  value_or (v, RejectBlock) (enforcer_connect_block v b).
Definition enf_unrun (v : Validator) (b : Block) : Validator * gset Txid :=
  value_or (v, ∅) (enforcer_disconnect_block v (block_hash (header b))).

Definition enf_g : Validator := (enf_run new_validator block_g).1.
Definition enf_b : Validator := (enf_run enf_g block_b).1.
Definition enf_back : Validator := (enf_unrun enf_b block_b).1.
Definition enf_a : Validator := (enf_run enf_back block_a).1.

Lemma enf_run_step v b :
  is_ok (enforcer_connect_block v b) = true -> tail (txdata b) = [] -> block_hash (header b) <> all_zeros ->
  default (header b) (headers (block_hashes (v_dbs v)) !! block_hash (header b)) = header b ->
  enforcer_step v (enf_run v b).1.
Proof.
  intros Hok Ht Hz Hh. apply (step_connect v b _ (enf_run v b).2).
  - split; [rewrite Ht; split; constructor| |done]. intros hd Hd. unfold hash_of in Hd. rewrite Hd in Hh. done.
  - apply (value_or_Ok (v, RejectBlock)) in Hok. fold (enf_run v b) in Hok. by destruct (enf_run v b).
Qed.

Lemma enf_unrun_step v b :
  is_ok (enforcer_disconnect_block v (block_hash (header b))) = true -> current_chain_tip (v_dbs v) <> None ->
  enforcer_step v (enf_unrun v b).1.
Proof.
  intros Hok Ht. apply (step_disconnect v (block_hash (header b)) _ (enf_unrun v b).2 Ht).
  apply (value_or_Ok (v, ∅)) in Hok. fold (enf_unrun v b) in Hok. by destruct (enf_unrun v b).
Qed.

(** G, B, then B replaced by A: the events name all three steps, and a
    subscriber ends at G, A. *)
Lemma enforcer_follows_chain_witness :
  followed (events_tx enf_a) = [block_hash genesis; block_hash (header block_a)] /\
  exists bs, followed (events_tx enf_a) = hash_of <$> bs /\ linked bs /\ wf (v_dbs enf_a).
Proof.
  split; [vm_compute; reflexivity|].
  destruct (enforcer_follows_chain Regtest params enf_a) as (bs & _ & Hl & Hw & _ & Hf);
    [|exists bs; exact (conj Hf (conj Hl Hw))].
  apply (rtc_l _ _ enf_g); [apply (enf_run_step new_validator block_g); vm_compute; (reflexivity || discriminate)|].
  apply (rtc_l _ _ enf_b); [apply (enf_run_step enf_g block_b); vm_compute; (reflexivity || discriminate)|].
  apply (rtc_l _ _ enf_back); [apply (enf_unrun_step enf_b block_b); vm_compute; (reflexivity || discriminate)|].
  apply (rtc_l _ _ enf_a); [apply (enf_run_step enf_back block_a); vm_compute; (reflexivity || discriminate)|].
  constructor.
Defined.

Definition mempool_validator : Validator := mkValidator tables1 Regtest params [].
Definition accepted_tx : Validator * TxAcceptAction := value_or (mempool_validator, RejectTx) (accept_tx mempool_validator m8_tx).
Definition after_block1 : Validator * ConnectBlockAction := enf_run accepted_tx.1 block1.

(** The request of [block1] is accepted into the mempool, and evicted when the
    block is connected. *)
Lemma mempool_tracks_requests_witness :
  exists w evicted, accepted_tx.2 = AcceptTx ∅ w /\ after_block1.2 = AcceptBlock evicted /\ compute_txid m8_tx ∈ evicted.
Proof.
  assert (Ha : accept_tx mempool_validator m8_tx = Ok (accepted_tx.1, AcceptTx ∅ 192)).
  { assert (Hok : is_ok (accept_tx mempool_validator m8_tx) = true) by (vm_compute; reflexivity).
    apply (value_or_Ok (mempool_validator, RejectTx)) in Hok. rewrite Hok. fold accepted_tx.
    assert (E : accepted_tx.2 = AcceptTx ∅ 192) by (vm_compute; reflexivity). rewrite <- E. by destruct accepted_tx. }
  destruct (mempool_tracks_requests mempool_validator) as (Hacc & _).
  destruct (Hacc m8_tx _ _ _ Ha) as (_ & _ & Hq).
  destruct (Hq (mkM8 slot commitment (block_hash genesis))) as (_ & _ & Hseen); [vm_compute; reflexivity|].
  assert (Hok : is_ok (enforcer_connect_block accepted_tx.1 block1) = true) by (vm_compute; reflexivity).
  apply (value_or_Ok (accepted_tx.1, RejectBlock)) in Hok. fold (enf_run accepted_tx.1 block1) in Hok. fold after_block1 in Hok.
  assert (Hb : match after_block1.2 with AcceptBlock _ => true | RejectBlock => false end = true) by (vm_compute; reflexivity).
  destruct after_block1 as [v2 [evicted|]] eqn:E2; [|discriminate Hb]. exists 192, evicted.
  split; [vm_compute; reflexivity|]. split; [reflexivity|].
  destruct (mempool_tracks_requests accepted_tx.1) as (_ & _ & Hconn & _).
  apply (Hconn block1 v2 evicted _ Hok). exists slot. apply Hseen. right. reflexivity.
Defined.
