(* ===== verification/SyncScenario.v ===== *)
(** * Synchronisation on a concrete chain

    The theorems on the synchronisation applied to the small chain of
    [Scenario], with nodes that serve it. *)

From Stdlib Require Import Strings.Byte.
From stdpp Require Import base numbers list gmap.
From S2P Require Import Prelude OrderMap Bitcoin Types Messages M6 Dbs BlockHashes Treasury Diff Reversible Handlers HandlerProofs HandlerSpecs ConnectBlock ConnectProofs Reorg Enforcer EnforcerProofs Sync SyncProofs SyncTermination Headers HeaderProofs Scenario.
Import Runnable.
Open Scope Z_scope.

(** ** Blocks *)

(** A node that has the blocks G and A, and is not being shut down. *)
#[local] Instance small_node : Node unit := {
  getblock_batch w hashes := (w, Some hashes);
  getchainstates w := (w, Some [mkChainstateInfo (Some 1) None (Some true)]);
  is_cancelled w := (w, false);
  sleep w := (w, false);
  deserialize_block r := if decide (r = hash_of block_a) then Some block_a
                         else if decide (r = hash_of block_g) then Some block_g else None }.

Lemma start_headers x hd :
  headers (block_hashes start) !! x = Some hd ->
  (x = block_hash genesis /\ hd = genesis) \/ (x = block_hash (header block1) /\ hd = header block1) \/
  (x = block_hash fork_header /\ hd = fork_header).
Proof.
  unfold start. cbn [block_hashes set_block_hashes headers]. rewrite !lookup_insert_Some, lookup_singleton_Some.
  intros [[<- <-]|[_ [[<- <-]|[_ [<- <-]]]]]; auto.
Qed.

Lemma start_inv : header_inv (block_hashes start).
Proof.
  split; [split|].
  - vm_compute. reflexivity.
  - intros x hd [[-> ->]|[[-> ->]|[-> ->]]]%start_headers; reflexivity.
  - intros x hd [[-> ->]|[[-> ->]|[-> ->]]]%start_headers.
    + exists 0. by vm_compute.
    + exists 1. split_and!; [reflexivity|lia|]. rewrite decide_False by (vm_compute; done). split; [by eexists|reflexivity].
    + exists 1. split_and!; [reflexivity|lia|]. rewrite decide_False by (vm_compute; done). split; [by eexists|reflexivity].
  - intros x [k Hk]. unfold start in *. cbn [block_hashes set_block_hashes height headers] in *.
    rewrite !lookup_insert_Some, lookup_singleton_Some in Hk.
    destruct Hk as [[<- _]|[_ [[<- _]|[_ [<- _]]]]]; eexists; vm_compute; reflexivity.
Qed.

(** From the fork G, B the synchronisation with the tip A. *)
Definition fork_state : SyncState unit := mkSync detour [(run start block_g).2; (run at_g block_b).2] tt.
Definition after_sync : SyncState unit * option (Res SyncError (option InvalidBlock)) :=
  sync_blocks handler 10 None (block_hash (header block_a)) fork_state.

Lemma detour_reach : reach handler detour [block_g; block_b].
Proof. apply reach_next; [apply reach_g|vm_compute; (reflexivity || discriminate)..]. Qed.

Lemma small_block_good b0 b :
  headers b0 = headers (block_hashes start) -> b = block_a \/ b = block_g -> good_block handler b0 b.
Proof.
  intros E Hb. split.
  - intros hd. rewrite E. intros [[Ex ->]|[[Ex ->]|[Ex ->]]]%start_headers; destruct Hb as [-> | ->]; try reflexivity;
      exfalso; vm_compute in Ex; discriminate Ex.
  - intros s bs _ _. destruct Hb as [-> | ->]; split; constructor.
Qed.

Lemma small_node_honest b0 : headers b0 = headers (block_hashes start) -> honest_node (W := unit) handler b0.
Proof.
  intros E w hashes w' raws [= _ <-]. apply Forall_Forall2_diag, Forall_forall. intros h _ b. cbn [deserialize_block small_node].
  destruct (decide (h = hash_of block_a)) as [->|]; [intros [= <-]; split; [reflexivity|apply small_block_good; auto]|].
  destruct (decide (h = hash_of block_g)) as [->|]; [intros [= <-]; split; [reflexivity|apply small_block_good; auto]|discriminate].
Qed.

Lemma run_headers s bs b : step_ok s bs b -> is_ok (connect_block handler s b) = true ->
  headers (block_hashes (run s b).1) = headers (block_hashes s) /\ height (block_hashes (run s b).1) = height (block_hashes s).
Proof.
  intros Hs Hok. destruct (connect_block_summary _ _ _ _ _ (so_block _ _ _ Hs) (run_Ok _ _ Hok)) as (s1 & p & _ & _ & _ & _ & _ & Eh & Ek & _).
  by split.
Qed.

Lemma detour_headers :
  headers (block_hashes detour) = headers (block_hashes start) /\ height (block_hashes detour) = height (block_hashes start).
Proof.
  destruct (run_headers start [] block_g) as [Eh Ek];
    [apply coinbase_step; vm_compute; first [reflexivity|discriminate|apply not_elem_of_nil]|vm_compute; reflexivity|].
  fold at_g in Eh, Ek. rewrite <- Eh, <- Ek.
  apply (run_headers at_g [block_g] block_b); [|vm_compute; reflexivity].
  apply coinbase_step; [reflexivity|vm_compute; reflexivity|vm_compute; discriminate| |vm_compute; reflexivity].
  intros E%list_elem_of_singleton. vm_compute in E. discriminate E.
Qed.

(** B is disconnected, A is connected, and the events say so. *)
Lemma sync_blocks_correct_witness :
  current_chain_tip (sy_dbs after_sync.1) = Some (block_hash (header block_a)) /\
  followed (sy_events after_sync.1) = [block_hash genesis; block_hash (header block_a)] /\
  exists bs, followed (sy_events after_sync.1) = hash_of <$> bs /\ linked bs.
Proof.
  destruct detour_headers as [Eh Ek].
  destruct (sync_blocks_correct handler (block_hash (header block_a)) 10 None fork_state after_sync.1
              [block_g; block_b] after_sync.2) as ((bs & _ & Hl & _ & Hf) & Htip & _).
  - apply reach_hist, detour_reach.
  - exact (header_inv_ext _ _ Eh Ek start_inv).
  - vm_compute. reflexivity.
  - eexists. vm_compute. reflexivity.
  - exact (small_node_honest _ Eh).
  - intros ? [=].
  - unfold after_sync. by destruct (sync_blocks _ _ _ _ _).
  - split; [apply Htip; vm_compute; reflexivity|].
    split; [vm_compute; reflexivity|exists bs; exact (conj Hf Hl)].
Defined.

(** On the main network with a blocks directory. *)
Definition mainnet_handler : BlockHandler := block_handler_new Mainnet (network_params_new ForkBitcoin Mainnet None).
Definition start_state : SyncState unit := mkSync start [] tt.
Definition rewound := rewind (block_hash (header block_a)) start_state.
Definition found := find_missing_blocks (block_hash (header block_a)) all_zeros rewound.1.
Definition pre_activation :=
  connect_pre_activation_blocks mainnet_handler [hash_of block_g; hash_of block_a] found.1.

Lemma blocks_dir_panics_before_activation_witness :
  current_chain_tip (sy_dbs pre_activation.1) = Some (block_hash (header block_a)) /\
  sync_blocks mainnet_handler 10 (Some (fun _ => Ok [])) (block_hash (header block_a)) start_state
  = (pre_activation.1, Some Panic).
Proof.
  split; [vm_compute; reflexivity|].
  apply (blocks_dir_panics_before_activation mainnet_handler (block_hash (header block_a)) 10 (fun _ => Ok [])
           start_state rewound.1 found.1 pre_activation.1 all_zeros [hash_of block_g; hash_of block_a] 1 2).
  - unfold rewound. rewrite (surjective_pairing (rewind _ _)) at 1. f_equal; vm_compute; reflexivity.
  - unfold found. rewrite (surjective_pairing (find_missing_blocks _ _ _)) at 1. f_equal; vm_compute; reflexivity.
  - discriminate.
  - unfold pre_activation. rewrite (surjective_pairing (connect_pre_activation_blocks _ _ _)) at 1. f_equal; vm_compute; reflexivity.
Defined.

(** A node that is validating a snapshot at A in the background for three more
    polls. *)
Definition waiting_node : Node nat := {|
  getblock_batch w hashes := (w, Some hashes);
  getchainstates w := (w, Some (if decide (w = 0%nat) then [mkChainstateInfo (Some 1) None (Some true)]
                                else [mkChainstateInfo (Some 0) None (Some true);
                                      mkChainstateInfo (Some 1) (Some (hash_of block_a)) (Some false)]));
  is_cancelled w := (w, false);
  sleep w := (pred w, false);
  deserialize_block := deserialize_block (W := unit) |}.

Lemma waiting_node_patient : patient (Node0 := waiting_node) (fun w => w).
Proof. split; cbn; try (intros; lia). intros w w' cs -> [= _ <-] bg. vm_compute. discriminate. Qed.

(** G is connected at once, A after the three polls. *)
Lemma sync_blocks_terminates_witness :
  exists N st' r, current_chain_tip (sy_dbs st') = Some (hash_of block_a) /\ r = Ok None /\
    forall fuel, (N <= fuel)%nat -> sync_blocks (Node0 := waiting_node) handler fuel None (hash_of block_a) (mkSync start [] 3%nat) = (st', Some r).
Proof.
  destruct (sync_blocks_terminates (Node0 := waiting_node) handler (hash_of block_a) None (fun w => w) (mkSync start [] 3%nat) [])
    as (N & st' & r & Hr).
  - by apply hist_nil.
  - exact start_inv.
  - reflexivity.
  - eexists. vm_compute. reflexivity.
  - exact waiting_node_patient.
  - exists N, st', r. pose proof (Hr (N + 20)%nat ltac:(lia)) as E. rewrite (Nat.add_comm N) in E.
    assert (Hs : forall n, match sync_blocks (Node0 := waiting_node) handler (20 + n) None (hash_of block_a) (mkSync start [] 3%nat) with
                           | (st, Some (Ok None)) => current_chain_tip (sy_dbs st) = Some (hash_of block_a)
                           | _ => False end) by (intros n; vm_compute; reflexivity).
    specialize (Hs N). rewrite E in Hs. destruct r as [[ib|]|e|]; cbv beta iota in Hs; [destruct Hs| |destruct Hs..]. exact (conj Hs (conj eq_refl Hr)).
Defined.

(** ** Headers *)

Definition small_tree : gmap BlockHash (Header * Z) :=
  {[hash_of block_g := (genesis, 0); hash_of block_a := (header block_a, 1)]}.

Lemma small_tree_lookup x hd k :
  small_tree !! x = Some (hd, k) -> (x = hash_of block_g /\ hd = genesis /\ k = 0) \/ (x = hash_of block_a /\ hd = header block_a /\ k = 1).
Proof. unfold small_tree. rewrite lookup_insert_Some, lookup_singleton_Some. naive_solver. Qed.

Lemma small_tree_ok : block_tree small_tree.
Proof.
  split; intros x hd k [(-> & -> & ->)|(-> & -> & ->)]%small_tree_lookup.
  - split_and!; [reflexivity|vm_compute; discriminate|lia].
  - split_and!; [reflexivity|vm_compute; discriminate|lia].
  - reflexivity.
  - rewrite decide_False by (vm_compute; discriminate). exists genesis. vm_compute. reflexivity.
Qed.

Definition small_header (h : bytes) : option Header := fst <$> small_tree !! h.
Definition small_hash (k : Z) : option BlockHash :=
  if decide (k = 0) then Some (hash_of block_g) else if decide (k = 1) then Some (hash_of block_a) else None.

(** Serves the chain G, A over RPC. *)
Definition small_headers : HeaderNode unit := {|
  getblockheader_height w h := (w, snd <$> small_tree !! h);
  getblockhash w k := (w, small_hash k);
  getblockhash_batch w ks := (w, mapM small_hash ks);
  getblockheader_batch w hs := (w, Some hs);
  rest_headers := None;
  deserialize_header_hex := small_header;
  deserialize_header _ := None |}.

Lemma small_header_tree r hd : small_header r = Some hd -> exists k, small_tree !! block_hash hd = Some (hd, k).
Proof.
  unfold small_header. intros [[hd' k] [Hk E]]%fmap_Some. cbn in E. subst hd'. exists k.
  destruct (bt_hash _ small_tree_ok _ _ _ Hk) as [-> _]. exact Hk.
Qed.

Lemma small_headers_serve : serves_tree (HeaderNode0 := small_headers) small_tree.
Proof.
  split.
  - intros w k w' h. cbn. unfold small_hash. case_decide; [|case_decide; [|discriminate]]; intros [= _ <-]; subst k; eexists; vm_compute; reflexivity.
  - intros w hs w' raws [= _ <-]. apply Forall_forall. intros r _ hd. apply small_header_tree.
  - intros client w h n w' body k es [=].
Qed.

Lemma small_tree_headers b x hd : in_tree small_tree b -> headers b !! x = Some hd -> x = hash_of block_g /\ hd = genesis \/ x = hash_of block_a /\ hd = header block_a.
Proof. intros Hi Hx. destruct (it_sub _ _ Hi _ _ Hx) as (k & [(-> & -> & _)|(-> & -> & _)]%small_tree_lookup & _); auto. Qed.

Lemma small_tree_block b blk : in_tree small_tree b -> blk = block_a \/ blk = block_g -> good_block handler b blk.
Proof.
  intros Hi Hb. split.
  - intros hd [[Ex ->]|[Ex ->]]%(small_tree_headers _ _ _ Hi); destruct Hb as [-> | ->]; try reflexivity; exfalso; vm_compute in Ex; discriminate Ex.
  - intros s bs _ _. destruct Hb as [-> | ->]; split; constructor.
Qed.

Lemma empty_in_tree : in_tree small_tree (block_hashes dbs_new).
Proof. split; [split; [split|]|]; intros *; cbn; rewrite ?lookup_empty; first [reflexivity|discriminate|intros [? [=]]|done]. Qed.

Definition new_state : SyncState unit := mkSync dbs_new [] tt.
Definition after_sync_to_tip : SyncState unit * option (Res SyncError (option InvalidBlock)) :=
  sync_to_tip (HeaderNode0 := small_headers) handler 10 None (hash_of block_a) new_state.

(** An empty database is synchronised to A. *)
Lemma sync_to_tip_correct_witness :
  current_chain_tip (sy_dbs after_sync_to_tip.1) = Some (hash_of block_a) /\
  in_tree small_tree (block_hashes (sy_dbs after_sync_to_tip.1)).
Proof.
  destruct (sync_to_tip_correct (HeaderNode0 := small_headers) small_tree small_tree_ok handler (hash_of block_a) 10 None new_state
              after_sync_to_tip.1 [] after_sync_to_tip.2) as (_ & Hi & Htip & _).
  - exact small_headers_serve.
  - exact empty_in_tree.
  - by apply hist_nil.
  - reflexivity.
  - vm_compute. discriminate.
  - intros b Hb. split; [|intros ? [=]]. intros w hashes w' raws [= _ <-]. apply Forall_Forall2_diag, Forall_forall. intros h _ blk.
    cbn [deserialize_block small_node].
    destruct (decide (h = hash_of block_a)) as [->|]; [intros [= <-]; split; [reflexivity|apply small_tree_block; auto]|].
    destruct (decide (h = hash_of block_g)) as [->|]; [intros [= <-]; split; [reflexivity|apply small_tree_block; auto]|discriminate].
  - unfold after_sync_to_tip. by destruct (sync_to_tip _ _ _ _ _).
  - split; [apply Htip; vm_compute; reflexivity|exact Hi].
Defined.

(** Tables with the header of G only. *)
Definition hashes_g : BlockHashDbs := value_or empty_block_hashes (put_headers empty_block_hashes [(genesis, 0)]).
Definition state_g : SyncState unit := mkSync (set_block_hashes dbs_new hashes_g) [] tt.

Lemma hashes_g_lookup x hd : headers hashes_g !! x = Some hd -> x = hash_of block_g /\ hd = genesis.
Proof.
  assert (E : headers hashes_g = {[hash_of block_g := genesis]}) by reflexivity. rewrite E. intros [<- <-]%lookup_singleton_Some. done.
Qed.

Lemma hashes_g_wf : chain_wf hashes_g.
Proof.
  split.
  - vm_compute. reflexivity.
  - intros x hd [-> ->]%hashes_g_lookup. reflexivity.
  - intros x hd [-> ->]%hashes_g_lookup. exists 0. vm_compute. split_and!; [reflexivity|discriminate|reflexivity].
Qed.

Lemma fetch_best_ancestor_spec_witness :
  exists st', fetch_best_ancestor (HeaderNode0 := small_headers) (hash_of block_a) 1 state_g = (st', Some (Ok (Some (hash_of block_g, 0)))).
Proof.
  destruct (fetch_best_ancestor_spec (HeaderNode0 := small_headers) [hash_of block_g; hash_of block_a] (hash_of block_a) state_g)
    as (st' & r & Hr & _ & _ & Hspec).
  - exact hashes_g_wf.
  - split.
    + intros w k Hk. exists w. cbn [getblockhash small_headers]. unfold small_hash.
      destruct (decide (k = 0)) as [->|H0]; [reflexivity|]. destruct (decide (k = 1)) as [->|H1]; [reflexivity|].
      destruct (Z.to_nat k) as [|[|n]] eqn:E; [lia|lia|reflexivity].
    + intros i p x hd Hp Hx [-> ->]%hashes_g_lookup. destruct i as [|i]; cbn in Hx; [vm_compute in Hx; discriminate Hx|done].
    + intros [E|[E|[]%not_elem_of_nil]%elem_of_cons]%elem_of_cons; vm_compute in E; discriminate E.
  - reflexivity.
  - exists st'. cbn [length] in Hr. change (Z.of_nat 2 - 1) with 1 in Hr. rewrite Hr. do 3 f_equal. destruct r as [[h k]|].
    + destruct Hspec as (Hk & Hx & [hd [-> _]%hashes_g_lookup] & _). destruct (Z.to_nat k) as [|[|n]] eqn:E; [|vm_compute in Hx; discriminate Hx|done].
      do 2 f_equal. lia.
    + exfalso. apply (Hspec 0); [cbn; lia|]. exists (hash_of block_g). split; [reflexivity|]. eexists. vm_compute. reflexivity.
Defined.

(** A REST interface whose active chain is G alone. *)
Definition rest_body : bytes := replicate 80 x00.
Definition rest_node : HeaderNode unit := {|
  getblockheader_height w h := (w, None);
  getblockhash w k := (w, None);
  getblockhash_batch w ks := (w, None);
  getblockheader_batch w hs := (w, None);
  rest_headers := Some (fun w _ _ => (w, Some rest_body));
  deserialize_header_hex _ := None;
  deserialize_header _ := Some genesis |}.

Lemma rest_header_sync_stalls_witness :
  exists w', header_loop (HeaderNode0 := rest_node) 100 (hash_of block_a) 1 (hash_of block_g) 0 state_g = (mkSync (sy_dbs state_g) [] w', None).
Proof.
  apply (rest_header_sync_stalls (HeaderNode0 := rest_node) (fun w _ _ => (w, Some rest_body)) (hash_of block_a) 1 (hash_of block_g) 0 genesis rest_body).
  - reflexivity.
  - exact hashes_g_wf.
  - vm_compute. reflexivity.
  - vm_compute. reflexivity.
  - reflexivity.
  - reflexivity.
  - vm_compute. reflexivity.
  - vm_compute. discriminate.
  - vm_compute. split; reflexivity.
Defined.
