(* ===== verification/PolicyScenario.v ===== *)
(** * The policy store on a concrete chain

    The validator of [Scenario] went from the chain G, B to G, A; the policy
    store still is at B. Its two queued proposals are the ones that A and B
    mine. *)

From Stdlib Require Import Strings.Byte.
From stdpp Require Import base numbers list gmap.
From S2P Require Import Prelude OrderMap Bitcoin Types Messages M6 Dbs BlockHashes Treasury Diff Reversible Handlers HandlerProofs HandlerSpecs ConnectBlock ConnectProofs Reorg Enforcer EnforcerProofs Sync SyncProofs Facade FacadeProofs Policy PolicyProofs Scenario SyncScenario.
Import Runnable.
Open Scope Z_scope.

Definition moved : Validator := mkValidator rerouted Regtest params [].
Definition moved_hashes : BlockHashDbs := block_hashes (v_dbs moved).

Lemma moved_headers : headers moved_hashes = headers (block_hashes start) /\ height moved_hashes = height (block_hashes start).
Proof.
  assert (Eb : block_hashes back = block_hashes detour).
  { apply (disconnect_block_requests detour [] (block_hash (header block_b)) back (unrun detour block_b).2).
    apply unrun_Ok. vm_compute. reflexivity. }
  destruct detour_headers as [Eh Ek]. rewrite <- Eh, <- Ek, <- Eb.
  apply (run_headers back [block_g] block_a); [|vm_compute; reflexivity].
  apply coinbase_step; [reflexivity|vm_compute; reflexivity|vm_compute; discriminate| |vm_compute; reflexivity].
  intros E%list_elem_of_singleton. vm_compute in E. discriminate E.
Qed.

Lemma moved_wf : chain_wf moved_hashes.
Proof. destruct moved_headers as [Eh Ek]. exact (hi_wf _ (header_inv_ext _ _ Eh Ek start_inv)). Qed.

Lemma moved_tip : current_chain_tip (v_dbs moved) = Some (hash_of block_a).
Proof. vm_compute. reflexivity. Qed.

Definition info_of (h : BlockHash) : BlockInfo :=
  match try_get_block_info moved_hashes h with Ok (Some i) => i | _ => mkBlockInfo [] [] [] end.
Definition entry (b : Block) : BlockHash * BlockInfo := (hash_of b, info_of (hash_of b)).

Lemma chain_g : chain_to moved_hashes (hash_of block_g) [entry block_g].
Proof. apply (chain_to_snoc _ (hash_of block_g) genesis _ []); [vm_compute; reflexivity..|]. constructor. Qed.
Lemma chain_a : chain_to moved_hashes (hash_of block_a) [entry block_g; entry block_a].
Proof. apply (chain_to_snoc _ (hash_of block_a) (header block_a) _ [entry block_g]); [vm_compute; reflexivity..|]. exact chain_g. Qed.
Lemma chain_b : chain_to moved_hashes (hash_of block_b) [entry block_g; entry block_b].
Proof. apply (chain_to_snoc _ (hash_of block_b) fork_header _ [entry block_g]); [vm_compute; reflexivity..|]. exact chain_g. Qed.

Lemma fork_after_first {A B} (g x y : A * B) pre o n :
  [g; x] = pre ++ o -> [g; y] = pre ++ n -> (forall z, head o.*1 = Some z -> head n.*1 <> Some z) -> x.1 <> y.1 ->
  pre = [g] /\ o = [x] /\ n = [y].
Proof.
  intros Eo En Hne Hxy. destruct pre as [|e pre]; cbn in *; [subst; by edestruct Hne|]. injection Eo as -> Eo. injection En as En.
  destruct pre as [|e' pre]; cbn in *; [by subst|]. injection Eo as <- _. injection En as En _. by rewrite En in Hxy.
Qed.

Lemma fork_differs : (entry block_b).1 <> (entry block_a).1.
Proof. vm_compute. discriminate. Qed.

(** B is disconnected and A connected. *)
Lemma chain_diff_spec_witness :
  chain_diff moved (Some (hash_of block_b)) = Some (Ok (Some (mkChainDiff (hash_of block_a) 1 false [hash_of block_b] [entry block_a]))) /\
  chain_diff moved None = Some (Ok (Some (mkChainDiff (hash_of block_a) 1 true [] [entry block_g; entry block_a]))).
Proof.
  assert (Hz : hash_of block_a <> all_zeros) by (vm_compute; discriminate).
  split.
  - destruct (chain_diff_spec moved (hash_of block_a) [entry block_g; entry block_a] (Some (hash_of block_b)) moved_wf moved_tip Hz chain_a
                [entry block_g; entry block_b]) as (pre & o & n & Eo & En & Hne & ->); [vm_compute; discriminate|exact chain_b|].
    destruct (fork_after_first (entry block_g) (entry block_b) (entry block_a) pre o n) as (_ & -> & ->);
      [exact Eo|exact En|exact Hne|exact fork_differs|reflexivity].
  - apply (chain_diff_spec moved (hash_of block_a) [entry block_g; entry block_a] None moved_wf moved_tip Hz chain_a). vm_compute. discriminate.
Defined.

(** ** The store *)

Definition queue : PolicyDb :=
  mkPolicyDb [mkProposalRow x02 (sha256d [x61]) [x61] None (Some 0);
              mkProposalRow x02 (sha256d [x62]) [x62] (Some (hash_of block_b)) (Some 0)]
    [] [mkBundleRow slot bundle_id [] None (Some 0) None] [] AAP_NewSlots WBP_Known (Some (hash_of block_b)).

Lemma two_blocks_single_hit {A} (hit : BlockHash * BlockInfo * Z -> option A) x y :
  hit (x, 0) = None -> single_hit hit [x; y].
Proof.
  intros Hx i j e e' Hi Hj He He'. destruct i as [|[|i]]; cbn in Hi; [|injection Hi as <-|done];
    [injection Hi as <-; by rewrite Hx in He|]. destruct j as [|[|j]]; cbn in Hj; [injection Hj as <-; by rewrite Hx in He'|done|done].
Qed.

Lemma queue_cursor : cursor_ok moved queue.
Proof.
  intros _. exists [entry block_g; entry block_b]. split_and!; [exact chain_b|split|split].
  - constructor; [vm_compute; reflexivity|]. constructor; [vm_compute; reflexivity|constructor].
  - constructor; [vm_compute; split; reflexivity|constructor].
  - repeat constructor; apply two_blocks_single_hit; vm_compute; reflexivity.
  - repeat constructor; apply two_blocks_single_hit; vm_compute; reflexivity.
Qed.


(** A codec for the transactions of this file. *)
#[local] Instance fixed_codec : TxCodec := {
  tx_serialize _ := [];
  tx_deserialize _ := None;
  version_decode _ := None;
  varint_decode _ := None;
  txout_decode _ := None;
  lock_time_decode _ := None }.

Definition bundle : BlindedM6 := mkBlindedM6 100 500 Scenario.bundle_tx.

(** The store holds this bundle as pending; queueing it again changes
    nothing but the height. *)
Lemma put_withdrawal_bundle_spec_witness :
  exists db', put_withdrawal_bundle moved queue slot bundle = Some (Ok (db', blinded_compute_m6id bundle)) /\
    marks_match [entry block_g; entry block_a] db' /\ exists r, r ∈ bundle_rows db' /\ settled_in r = None.
Proof.
  destruct (put_withdrawal_bundle_spec moved queue (hash_of block_a) [entry block_g; entry block_a] slot bundle)
    as (db1 & Hr & _ & Hput).
  - exact moved_wf.
  - exact moved_tip.
  - vm_compute. discriminate.
  - exact chain_a.
  - vm_compute. discriminate.
  - constructor.
  - exact queue_cursor.
  - assert (E : match reconcile moved queue with Some (Ok (d, _)) => paid_in [entry block_g; entry block_a] d slot (blinded_compute_m6id bundle) | _ => true end = false)
      by (vm_compute; reflexivity).
    rewrite Hr in E. rewrite E in Hput. destruct Hput as (db' & Hp & _ & Hm & _ & (r & Hin & His) & Hall).
    exists db'. split_and!; [exact Hp|exact Hm|]. exists r. split; [exact Hin|]. exact (Hall r Hin His).
Defined.
