(* ===== verification/ProducerScenario.v ===== *)
(** * The block producer on a concrete chain

    The validator of [Scenario] before its first block: slot 1 is active with
    two pending bundles, slot 3 has a proposal one vote short of activation.
    The policy store queues a sidechain proposal and a bundle, and acknowledges
    the first pending one. *)

From Stdlib Require Import Strings.Byte.
From stdpp Require Import base numbers list gmap.
From S2P Require Import Prelude OrderMap Bitcoin Types Messages M6 Dbs BlockHashes Treasury Diff Reversible Handlers HandlerProofs HandlerSpecs ConnectBlock ConnectProofs Reorg BlockRules TreasurySafety HashOrder Unconsolidated Enforcer EnforcerProofs Sync Facade Policy Producer ProducerProofs SuffixProofs Scenario.
Import Runnable.
Open Scope Z_scope.

#[local] Instance sorted_iter : HashIter := {
  hash_iter A m := map_to_list m;
  hash_iter_perm A m := reflexivity (map_to_list m) }.

#[local] Instance fixed_env : TemplateEnv := {
  tx_weight _ := 0;
  merkle_root_of _ := all_zeros;
  bip34_height_script _ := [];
  max_target_bits := 0;
  unix_time := 7 }.

(** A codec for the transactions of this file. *)
#[local] Instance one_bundle_codec : TxCodec := {
  tx_serialize _ := [];
  tx_deserialize _ := Some Scenario.bundle_tx;
  version_decode _ := None;
  varint_decode _ := None;
  txout_decode _ := None;
  lock_time_decode _ := None }.

Definition policy : PolicyDb :=
  mkPolicyDb [mkProposalRow x02 (sha256d new_description) new_description None (Some 0)] []
    [mkBundleRow slot (replicate 32 x55) [] None (Some 0) None] [(slot, bundle_id)] AAP_All WBP_Known (Some (block_hash genesis)).

Definition extended (p : AckAllProposalsPolicy) : PolicyDb * option (Res ProducerError (list TxOut)) :=
  extend_coinbase_txouts mempool_validator p WBP_Known (block_hash genesis) [] policy.
Definition extended_outs (p : AckAllProposalsPolicy) : list TxOut := match (extended p).2 with Some (Ok l) => l | _ => [] end.
Definition messages_of (outs : list TxOut) : list CoinbaseMessage := omap (fun o => snd <$> coinbase_message_parse (script_pubkey o)) outs.

(** With automatic ACKs the M2 for slot 3 may activate it, so there is no M4;
    without, the M4 votes for the first bundle of slot 1. *)
Lemma extended_messages :
  messages_of (extended_outs AAP_All)
  = [CM_M1 (mkM1 x02 new_description); CM_M2 (mkM2 x03 (sha256d [x66])); CM_M3 (mkM3 slot (replicate 32 x55))] /\
  messages_of (extended_outs AAP_None)
  = [CM_M1 (mkM1 x02 new_description); CM_M3 (mkM3 slot (replicate 32 x55)); CM_M4 (OneByte [x00])].
Proof. split; vm_compute; reflexivity. Qed.

Lemma tables1_ok : tables_ok tables1.
Proof.
  split.
  - exact tables1_wf.
  - intros n sc Hsc. change (sidechain (active_sidechains tables1)) with ({[slot := sidechain1]} : gmap SidechainNumber Sidechain) in Hsc.
    by apply lookup_singleton_Some in Hsc as [<- <-].
  - intros id sc. cbn [proposal_id_to_sidechain tables1]. intros [_ <-]%lookup_singleton_Some. by vm_compute.
  - intros n p. change (pending_m6ids (active_sidechains tables1)) with ({[slot := pending1]} : gmap SidechainNumber PendingM6ids).
    intros [_ <-]%lookup_singleton_Some. by vm_compute.
Qed.

Lemma policy_ok : rows_ok policy.
Proof. split; repeat constructor; by vm_compute. Qed.

Lemma hashes1_inv : header_inv hashes1.
Proof.
  split; [exact headers1_wf|]. intros x [k Hk]. unfold hashes1 in *. cbn [height headers] in *.
  rewrite lookup_insert_Some, lookup_singleton_Some in Hk. destruct Hk as [[<- _]|[_ [<- _]]]; eexists; vm_compute; reflexivity.
Qed.

Definition tip_info : HeaderInfo := mkHeaderInfo (block_hash genesis) all_zeros 0 (header_work genesis) 0.
Definition template_block (p : AckAllProposalsPolicy) : Block := dry_run_block (block_hash genesis) 1 (extended_outs p) [].

Lemma template_new p : headers hashes1 !! block_hash (header (template_block p)) = None /\ block_hash (header (template_block p)) <> all_zeros.
Proof. split; vm_compute; first [reflexivity|discriminate]. Qed.

Lemma coinbase_accepted_witness :
  exists state, get_withdrawal_state_after mempool_validator (template_block AAP_None) = Ok (inl state).
Proof.
  apply (coinbase_accepted mempool_validator policy AAP_None WBP_Known (block_hash genesis) [] (extended AAP_None).1 (extended_outs AAP_None) tip_info).
  - exact tables1_ok.
  - exact policy_ok.
  - exact hashes1_inv.
  - destruct (template_new AAP_None) as [Hn Hz]. split; [split; constructor| |exact Hz]. intros hd Hhd.
    change (headers hashes1 !! block_hash (header (template_block AAP_None)) = Some hd) in Hhd. by rewrite Hn in Hhd.
  - vm_compute. reflexivity.
  - vm_compute. reflexivity.
  - by vm_compute.
  - reflexivity.
  - unfold extended_outs. assert (E : match (extended AAP_None).2 with Some (Ok _) => true | _ => false end = true) by (vm_compute; reflexivity).
    unfold extended in *. destruct (extend_coinbase_txouts _ _ _ _ _ _) as [d [[l| |]|]]; try discriminate E. reflexivity.
Defined.

(** ** The end of a block on a concrete chain

    The tables of [Scenario] before the block, and a deposit of 250 into slot 1
    that does not spend the CTIP: it stays unconsolidated until the producer
    pays the pending bundle, or consolidates the treasury. *)

#[local] Existing Instance sorted_iter.

Definition side_deposit : Transaction :=
  mkTransaction 2 0 [txin_of (mkOutPoint txid0 7)] [treasury_out 250; mkTxOut 0 (new_op_return [x61])].
Definition side_ctip : Ctip := mkCtip (mkOutPoint (compute_txid side_deposit) 0) 250.
Definition pooled : UnconsolidatedCtips := uc_insert slot side_ctip unconsolidated_default.

Definition side : Res HandleM5M6 (option DepositsOrSuccessfulWithdrawal * UnconsolidatedCtips) :=
  handle_m5_m6 handler tables1 unconsolidated_default side_deposit.
Definition side_result : option DepositsOrSuccessfulWithdrawal := (value_or (None, unconsolidated_default) side).1.
Definition side_active : ActiveSidechainDbs :=
  match side_result with Some r => value_or active1 (apply (result_diff r) 1 active1) | None => active1 end.

Lemma side_Ok : side = Ok (side_result, pooled) /\ is_ok (from_option (fun r => apply (result_diff r) 1 active1) Panic side_result) = true.
Proof. split; vm_compute; reflexivity. Qed.

Lemma side_unknown : ctip_outpoint side_ctip <> ctip_outpoint ctip0.
Proof. vm_compute. discriminate. Qed.

Lemma pooled_elem o e : by_outpoint pooled !! o = Some e -> o = ctip_outpoint side_ctip /\ e = (slot, 250).
Proof. unfold pooled, uc_insert, unconsolidated_default. cbn [by_outpoint]. rewrite lookup_insert_Some, lookup_empty. naive_solver. Qed.

Lemma pooled_ok : uc_ok active1 pooled.
Proof.
  split.
  - apply uc_insert_indexed; [apply default_indexed|reflexivity].
  - intros o e [-> _]%pooled_elem. rewrite known1. rewrite decide_False; [done|apply side_unknown].
  - intros o n v [_ [= -> ->]]%pooled_elem. by eexists.
  - intros o n v [_ [= -> ->]]%pooled_elem. done.
Qed.

Lemma default_ok : uc_ok active1 unconsolidated_default.
Proof. split; [apply default_indexed|intros *; unfold unconsolidated_default; cbn [by_outpoint]; by rewrite lookup_empty..]. Qed.

Lemma unconsolidated_invariant_witness : uc_ok side_active pooled.
Proof.
  apply (unconsolidated_invariant handler tables1 unconsolidated_default side_deposit side_result pooled 1).
  - exact default_ok.
  - intros o Ho. unfold outpoint_fresh. cbn [active_sidechains tables1]. rewrite known1. case_decide; [subst o|done].
    exfalso. vm_compute in Ho. discriminate Ho.
  - intros o _. reflexivity.
  - vm_compute. reflexivity.
  - by apply (bool_decide_unpack _).
  - exact (proj1 side_Ok).
  - pose proof (proj2 side_Ok) as Hok. unfold side_active. destruct side_result as [r|]; [|reflexivity].
    cbn [from_option] in Hok. by apply (value_or_Ok active1) in Hok.
Defined.

Definition bundle : BlindedM6 := mkBlindedM6 100 500 bundle_tx.
Definition completed : Res AmountUnderflowError (Transaction * Ctip) := finalize_m6 NOP5 slot ctip0 [side_ctip] bundle.
Definition completed_m6 : Transaction := (value_or (bundle_tx, ctip0) completed).1.
Definition completed_ctip : Ctip := (value_or (bundle_tx, ctip0) completed).2.

Lemma completed_Ok : finalize_m6 NOP5 slot ctip0 [side_ctip] bundle = Ok (completed_m6, completed_ctip).
Proof. vm_compute. reflexivity. Qed.

Lemma treasury1_repr : exists h, treasury_repr h active1.
Proof. destruct active1_wf as [_ _ Hr]. exact Hr. Qed.

Lemma m6_accepted_witness :
  exists q d u', handle_m5_m6 handler tables1 pooled completed_m6 = Ok (Some (M6Withdrawal slot bundle_id q d), u') /\
    m6_new_ctip d = mkCtip (mkOutPoint (compute_txid completed_m6) 0) 650 /\
    forall o n v, by_outpoint u' !! o = Some (n, v) <-> by_outpoint pooled !! o = Some (n, v) /\ n <> slot.
Proof.
  destruct treasury1_repr as [h Hr].
  destruct (m6_accepted h handler tables1 pooled slot ctip0 bundle_tx bundle completed_m6 completed_ctip pending1 0%nat (mkPending 6 1))
    as (u' & Hu & Hlook).
  - exact Hr.
  - exact pooled_ok.
  - by eexists.
  - reflexivity.
  - by vm_compute.
  - vm_compute. reflexivity.
  - by apply (bool_decide_unpack _).
  - reflexivity.
  - intros out n' ->%list_elem_of_singleton [[r Hp] _]. vm_compute in Hp. discriminate Hp.
  - reflexivity.
  - vm_compute. reflexivity.
  - vm_compute. reflexivity.
  - exact completed_Ok.
  - do 2 eexists. exists u'. split; [exact Hu|]. split; [|exact Hlook]. vm_compute. reflexivity.
Defined.

(** A bundle that pays 500 back into the treasury of its slot. *)
Definition circular_tx : Transaction :=
  mkTransaction 2 0 [] [mkTxOut 0 (new_op_return (be_bytes 8 100)); treasury_out 500].
Definition circular : BlindedM6 := mkBlindedM6 100 500 circular_tx.
Definition circular_m6 : Transaction := (value_or (bundle_tx, ctip0) (finalize_m6 NOP5 slot ctip0 [] circular)).1.
Definition circular_ctip : Ctip := (value_or (bundle_tx, ctip0) (finalize_m6 NOP5 slot ctip0 [] circular)).2.

Lemma treasury_payout_rejected_witness :
  suffix_txs_for_proposals {[slot := [(blinded_compute_m6id circular, circular, Some (mkPending 6 1))]]}
    (mkCtips {[slot := ctip0]} unconsolidated_default) params = Ok [circular_m6] /\
  exists n, handle_m5_m6 handler tables1 unconsolidated_default circular_m6 = Err (MultipleOpDrivechainOutputs n).
Proof.
  destruct (treasury_payout_rejected circular_tx circular params {[slot := ctip0]} slot ctip0 (mkPending 6 1) circular_m6 circular_ctip (treasury_out 500))
    as [Hs Hr].
  - vm_compute. reflexivity.
  - by left.
  - reflexivity.
  - reflexivity.
  - by vm_compute.
  - vm_compute. reflexivity.
  - split; [exact Hs|]. apply Hr; [reflexivity|by eexists].
Defined.

Lemma ctip1_known n c : ctip active1 !! n = Some c -> n = slot /\ c = ctip0.
Proof.
  assert (E : ctip active1 = {[slot := ctip0]}) by reflexivity. rewrite E. intros [-> ->]%lookup_singleton_Some. done.
Qed.

Lemma active1_treasury : treasury_ok active1 pooled.
Proof.
  split.
  - exact treasury1_repr.
  - exact pooled_ok.
  - intros n c [_ ->]%ctip1_known. by vm_compute.
  - intros n. unfold slot_total, slot_utxos. destruct (decide (n = slot)) as [->|Hne]; [by vm_compute|].
    destruct (ctip active1 !! n) eqn:E; [by apply ctip1_known in E as [? _]|].
    unfold pooled, uc_insert, unconsolidated_default. cbn [by_sidechain]. rewrite lookup_insert_ne, lookup_empty by done. by vm_compute.
  - intros n p. change (pending_m6ids active1) with ({[slot := pending1]} : gmap SidechainNumber PendingM6ids).
    intros [_ <-]%lookup_singleton_Some. by apply (bool_decide_unpack _).
Qed.

(** The proposals of slot 1: the bundle of above, the other pending one, which has too few
    votes, and one that is not pending *)
Definition proposals : BundleProposals :=
  [(bundle_id, bundle, Some (mkPending 6 1)); (replicate 32 x99, circular, Some (mkPending 2 1)); (replicate 32 x55, circular, None)].
Definition slot_proposals : gmap SidechainNumber BundleProposals := {[slot := proposals]}.

Lemma bundle_sound : sound_bundle handler tables1 bundle.
Proof.
  exists bundle_tx. split_and!; [vm_compute; reflexivity|by apply (bool_decide_unpack _)|reflexivity|].
  intros out n' ->%list_elem_of_singleton [[r Hp] _]. vm_compute in Hp. discriminate Hp.
Qed.

Lemma proposals_ok n l : slot_proposals !! n = Some l -> is_Some (sidechain active1 !! n) /\ bundles_ok handler tables1 n l.
Proof.
  unfold slot_proposals. intros [<- <-]%lookup_singleton_Some. split; [by eexists|]. split; [by apply (bool_decide_unpack _); vm_compute|].
  intros m6id b info Hin Hv. unfold proposals in Hin. rewrite !elem_of_cons in Hin. destruct Hin as [[= -> -> ->]|[[= -> -> ->]|[[=]|[]%not_elem_of_nil]]].
  - split_and!; [vm_compute; reflexivity|exact bundle_sound|]. exists pending1. split; vm_compute; reflexivity.
  - vm_compute in Hv. discriminate Hv.
Qed.

Lemma completed_new : new_txs active1 pooled [completed_m6].
Proof.
  split; [apply NoDup_singleton|]. apply Forall_singleton. split; intros o Ho.
  - unfold outpoint_fresh. rewrite known1. case_decide; [subst o|done]. exfalso. vm_compute in Ho. discriminate Ho.
  - destruct (by_outpoint pooled !! o) eqn:E; [|done]. apply pooled_elem in E as [-> _]. exfalso. vm_compute in Ho. discriminate Ho.
Qed.

(** The suffix pays the first bundle from both treasury outputs of slot 1. *)
Lemma suffix_accepted_witness :
  suffix_txs_for_proposals slot_proposals (mkCtips (ctip active1) pooled) params = Ok [completed_m6] /\
  exists rs s' u', suffix_runs handler 1 tables1 pooled [completed_m6] rs s' u' /\ uc_is_empty u' = true /\
    (exists ws ds, rs = ws ++ ds /\ withdrawal_of <$> ws = [Some (slot, bundle_id)]) /\ ctip_amount (active_sidechains s') slot = 650.
Proof.
  assert (Hs : suffix_txs_for_proposals slot_proposals (mkCtips (ctip active1) pooled) params = Ok [completed_m6]) by (vm_compute; reflexivity).
  split; [exact Hs|].
  destruct (suffix_accepted handler tables1 pooled slot_proposals active1_treasury eq_refl proposals_ok) as (txs & Htxs & Hrun).
  assert (E : txs = [completed_m6]) by (pose proof (eq_trans (eq_sym Htxs) Hs) as E; by injection E). subst txs.
  destruct (Hrun 1) as (rs & s' & u' & Hr & He & (ws & ds & -> & Hws & _) & Hamt).
  - exact completed_new.
  - intros n. change (treasury_utxo_count (active_sidechains tables1)) with ({[slot := 1]} : gmap SidechainNumber Z).
    destruct (decide (n = slot)) as [->|Hne]; [by vm_compute|]. rewrite lookup_singleton_ne by done. by vm_compute.
  - exists (ws ++ ds), s', u'. split; [exact Hr|]. split; [exact He|]. split.
    + exists ws, ds. split; [reflexivity|]. rewrite Hws. vm_compute. reflexivity.
    + rewrite Hamt. vm_compute. reflexivity.
Defined.
