(* ===== verification/BlockFileScenario.v ===== *)
(** * A small blocks directory

    Two obfuscated files of a regtest node, with three blocks, and the index
    entry of the second one. *)

From Stdlib Require Import Strings.Byte.
From stdpp Require Import base numbers list gmap.
From S2P Require Import Prelude OrderMap Bitcoin Types Messages M6 Dbs BlockHashes Treasury Diff Reversible Handlers ConnectBlock Sync BlockFiles BlockFileProofs.
Open Scope Z_scope.

(** ** A codec for headers *)

Definition encode_header (h : Header) : bytes :=
  le_bytes 4 (h_version h mod 2 ^ 32) ++ prev_blockhash h ++ merkle_root h ++ le_bytes 4 (time h) ++ le_bytes 4 (bits h) ++ le_bytes 4 (nonce h).

Definition signed_u32 (z : Z) : Z := if decide (z < 2 ^ 31) then z else z - 2 ^ 32.
Definition slice (i n : nat) (b : bytes) : bytes := take n (drop i b).

Definition decode_header (b : bytes) : option Header :=
  if decide (length b = 80%nat)
  then Some (mkHeader (signed_u32 (le_val (slice 0 4 b))) (slice 4 32 b) (slice 36 32 b) (le_val (slice 68 4 b)) (le_val (slice 72 4 b)) (le_val (slice 76 4 b)))
  else None.

#[local] Instance header_decode : BlockDecode := {
  header_consensus_decode := decode_header;
  txs_consensus_decode _ := Some [] }.

Lemma length_encode_header h : header_fields_ok h -> length (encode_header h) = 80%nat.
Proof. intros (_ & Hp & Hm & _). unfold encode_header. rewrite !length_app, !length_le_bytes, Hp, Hm. done. Qed.

Lemma slice_app i n (a b c : bytes) : length a = i -> length b = n -> slice i n (a ++ b ++ c) = b.
Proof. intros <- <-. unfold slice. rewrite drop_app_length. apply take_app_length. Qed.

Lemma decode_encode_header h : header_fields_ok h -> decode_header (encode_header h) = Some h.
Proof.
  intros Hok. unfold decode_header. rewrite decide_True by by apply length_encode_header. destruct Hok as (Hv & Hp & Hm & Ht & Hb & Hn).
  unfold encode_header. set (v := le_bytes 4 _).
  assert (E0 : slice 0 4 (v ++ prev_blockhash h ++ merkle_root h ++ le_bytes 4 (time h) ++ le_bytes 4 (bits h) ++ le_bytes 4 (nonce h)) = v)
    by exact (slice_app 0 4 [] v _ eq_refl eq_refl).
  rewrite E0, (slice_app 4 32 v (prev_blockhash h)) by done. rewrite (app_assoc v), (slice_app 36 32 (v ++ prev_blockhash h)) by (by rewrite ?length_app, ?Hp).
  rewrite app_assoc, (slice_app 68 4 ((v ++ prev_blockhash h) ++ merkle_root h)) by (by rewrite ?length_app, ?Hp, ?Hm).
  rewrite app_assoc, (slice_app 72 4 (((v ++ prev_blockhash h) ++ merkle_root h) ++ le_bytes 4 (time h))) by (by rewrite ?length_app, ?Hp, ?Hm).
  rewrite app_assoc, <- (app_nil_r (le_bytes 4 (nonce h))).
  rewrite (slice_app 76 4 ((((v ++ prev_blockhash h) ++ merkle_root h) ++ le_bytes 4 (time h)) ++ le_bytes 4 (bits h))) by (by rewrite ?length_app, ?Hp, ?Hm).
  unfold v. rewrite !le_val_bytes; [|done|done|done|apply Z.mod_pos_bound; lia]. destruct h as [ver prev mr t bi no]. cbn in *. f_equal. f_equal.
  unfold signed_u32. destruct (decide (0 <= ver)).
  - rewrite Z.mod_small by lia. by rewrite decide_True by lia.
  - assert (E : ver mod 2 ^ 32 = ver + 2 ^ 32) by (rewrite <- (Z_mod_plus_full ver 1 (2 ^ 32)), Z.mul_1_l; apply Z.mod_small; lia).
    rewrite E, decide_False by lia. lia.
Qed.

#[local] Instance header_codec : HeaderCodec := {
  header_consensus_encode := encode_header;
  length_header_encode := length_encode_header;
  header_decode_encode := decode_encode_header }.

(** ** The directory *)

Definition dir_key : bytes := [x11; x22; x33; x44; x55; x66; x77; x88].
Definition hash_of (b : byte) : BlockHash := replicate 32 b.
Definition stored (v : Z) (prev : byte) (tx : bytes) : Header * bytes := (mkHeader v (hash_of prev) (hash_of xaa) 1700000000 545259519 7, tx).

Definition sb0 : Header * bytes := stored 1 x00 [x01; x02; x03].
Definition sb1 : Header * bytes := stored (-5) x01 [x01].
Definition sb2 : Header * bytes := stored 536870912 x02 [x00; x00; x00; x00; x09].

Definition sb1_pos : Z := position_after REGTEST_MAGIC [sb0].
Definition sb1_index : CDiskBlockIndex :=
  mkCDiskBlockIndex 259900 1 (HAVE_DATA + 5) 1 (Some 0) (Some (sb1_pos + 8)) None 4294967291 (hash_of x01) (hash_of xaa) 1700000000 545259519 7.

Definition index_lookup (k : bytes) : option bytes := if decide (k = x62 :: hash_of x02) then Some (index_serialize sb1_index) else None.

Definition regtest_dir : BlocksDir :=
  mkBlocksDir (Some dir_key)
    (<[0 := block_file (Some dir_key) REGTEST_MAGIC [sb0; sb1] 10]> {[ 1 := block_file (Some dir_key) REGTEST_MAGIC [sb2] 0 ]})
    index_lookup.

Lemma visible_any o : 0 <= o -> visible (Some dir_key) REGTEST_MAGIC o.
Proof.
  intros Ho. exists (xor_u8 xfa (key_byte dir_key o)). split; [cbn; rewrite Z.add_0_r; left|]. unfold key_byte.
  assert (Hm : 0 <= o mod 8 < 8) by (apply Z.mod_pos_bound; lia). change (Z.of_nat (length dir_key)) with 8.
  destruct (Z.to_nat (o mod 8)) as [|[|[|[|[|[|[|[|n]]]]]]]] eqn:E; [vm_compute; discriminate..|lia].
Qed.

Definition small (b : Header * bytes) : Prop := b = sb0 \/ b = sb1 \/ b = sb2.

Lemma storable_small b : small b -> storable b.
Proof. intros [->|[->| ->]]; (split; [repeat split; vm_compute; congruence|vm_compute; congruence]). Qed.

Lemma readable_small l : Forall small l -> readable (Some dir_key) REGTEST_MAGIC l.
Proof.
  intros Hl. split_and!; [done| |].
  - eapply Forall_impl; [exact Hl|apply storable_small].
  - intros pre b post _. apply visible_any. unfold position_after. lia.
Qed.

Ltac solve_small := repeat (apply Forall_cons; split; [unfold small; auto|]); apply Forall_nil_2.

Lemma sb1_index_wf : index_wf sb1_index.
Proof.
  assert (Epos : sb1_pos = 91) by (vm_compute; reflexivity). unfold sb1_index. rewrite Epos.
  assert (Hd : has_data (HAVE_DATA + 5) = true) by reflexivity. assert (Hu : has_undo (HAVE_DATA + 5) = false) by reflexivity.
  constructor; cbn [bi_version bi_height bi_status tx_count file_number data_pos undo_pos block_version bi_prev_block_hash bi_merkle_root bi_timestamp difficulty_target bi_nonce];
    rewrite ?Hd, ?Hu; unfold u64_range, u32_range, u64_max, HAVE_DATA; [lia..| | | |repeat constructor; lia|done].
  - split; [split; [done|by eexists]|]. intros n [= <-]. lia.
  - split; [split; [done|by eexists]|]. intros n [= <-]. lia.
  - split; [split; [by intros [x [=]]|done]|done].
Qed.

Lemma regtest_files : files_from (set_file_number 0 (dir_parser regtest_dir dir_key Regtest None)) 0 [([sb0] ++ [sb1], 10%nat); ([sb2], 0%nat)].
Proof.
  split_and!; [| |vm_compute; congruence].
  - intros [|[|[|i]]] Hi; [vm_compute; reflexivity..|cbn in Hi; lia].
  - apply Forall_cons. split; [apply readable_small; solve_small|]. apply Forall_singleton, readable_small. solve_small.
Qed.

Lemma sb1_located : located regtest_dir (hash_of x09) (hash_of x02) 0 sb1_pos.
Proof. right. split; [discriminate|]. exists sb1_index. split_and!; [vm_compute; reflexivity|exact sb1_index_wf|reflexivity..]. Qed.

(** ** Instances of the theorems *)

Lemma block_file_roundtrip_witness :
  exists p', all_blocks (file_set_offset sb1_pos (block_file_parser_new (Some dir_key) (block_file (Some dir_key) REGTEST_MAGIC [sb0; sb1; sb2] 7) Regtest None))
    = Some (p', Ok (blocks_at REGTEST_MAGIC sb1_pos [sb1; sb2])).
Proof.
  apply (block_file_roundtrip (block_file_parser_new None [] Regtest None) (Some dir_key) [sb0] [sb1; sb2] 7). apply readable_small. solve_small.
Defined.

Lemma blocks_dir_reads_witness :
  blocks_source 3 regtest_dir Regtest None (hash_of x09) (hash_of x02)
  = Some (Ok ((fun b => Ok (parsed_block b)) <$> [mkFileBlock sb1.1 sb1.2 sb1_pos; mkFileBlock sb2.1 sb2.2 0])).
Proof.
  apply (blocks_dir_reads regtest_dir dir_key Regtest None (hash_of x09) (hash_of x02) 0 [sb0] [sb1] 10 [([sb2], 0%nat)] 3).
  - reflexivity.
  - reflexivity.
  - exact regtest_files.
  - exact sb1_located.
  - vm_compute. lia.
Defined.

Lemma block_file_parser_safe_witness :
  exists p r, all_blocks (file_set_offset 3 (block_file_parser_new (Some dir_key) (block_file (Some dir_key) REGTEST_MAGIC [sb0] 9) Regtest None)) = Some (p, r) /\ r <> Panic /\
    forall l, r = Ok l -> Forall (fun b => Z.of_nat (length (fb_raw_tx_data b)) + 80 <= MAX_BLOCK_SERIALIZED_SIZE) l.
Proof. apply (block_file_parser_safe (Some dir_key) (block_file (Some dir_key) REGTEST_MAGIC [sb0] 9) Regtest None 3). lia. Defined.

Lemma testnet4_files_rejected_witness :
  exists p, all_blocks (block_file_parser_new (Some dir_key) (block_file (Some dir_key) (bitcoin_magic Testnet4) [sb0; sb1] 0) Testnet4 None)
  = Some (p, Err (0%nat, InvalidMagic (bitcoin_magic Testnet4) TESTNET_MAGIC 0)).
Proof.
  eexists. apply (testnet4_files_rejected (Some dir_key) sb0 [sb1] 0). exists x0d. split; [vm_compute; left|discriminate].
Defined.
