(* ===== verification/MiningScenario.v ===== *)
(** * Mining on a concrete chain

    A node that serves one template on a regtest chain, with a proposal and a
    transaction in it, and whose blocks the validator connects. *)

From Stdlib Require Import Strings.Byte.
From stdpp Require Import base numbers list gmap relations.
From S2P Require Import Prelude OrderMap Bitcoin Types Messages M6 Dbs BlockHashes Treasury Diff Reversible Handlers HandlerProofs HandlerSpecs ConnectBlock ConnectProofs BlockRules Enforcer Facade Policy Producer Sync BlockFiles BlockFileProofs Mining Mine MiningProofs MineProofs Scenario BlockFileScenario.
Import Runnable.
Open Scope Z_scope.

(** ** The functions of rust-bitcoin *)

(** The double hash of a header is its last 32 bytes, so that the nonce is the
    most significant part. *)
Definition last_bytes (b : bytes) : bytes := take 32 (rev b ++ replicate 32 x00).

#[local] Instance mining_bitcoin : Bitcoin := {|
  sha256d := sha256d (Bitcoin := bitcoin);
  compute_txid := compute_txid (Bitcoin := bitcoin);
  block_hash h := last_bytes (last_bytes (encode_header h));
  header_work := header_work (Bitcoin := bitcoin);
  instructions := instructions (Bitcoin := bitcoin);
  new_op_return := new_op_return (Bitcoin := bitcoin);
  push_opcode := push_opcode (Bitcoin := bitcoin);
  push_slice := push_slice (Bitcoin := bitcoin);
  push_bytes_try_from := push_bytes_try_from (Bitcoin := bitcoin);
  varint_encode := varint_encode (Bitcoin := bitcoin) |}.

#[local] Instance mining_bitcoin_laws : BitcoinLaws (H := mining_bitcoin).
Proof. destruct bitcoin_laws. by split. Qed.

#[local] Instance mining_lib : MiningLib := {|
  calculate_root l := if decide (l = []) then None else Some (digest (Z.of_nat (length l) :: (u8_val <$> concat l)));
  witness_root l := if decide (l = []) then None else Some (digest [Z.of_nat (length l)]);
  script_serialize s := to_u8 (Z.of_nat (length s)) :: s;
  witness_serialize w := concat w;
  header_serialize := encode_header;
  sha256 := last_bytes;
  header_target h := (bits h mod 2 ^ 32) * 2 ^ 224 |}.

Lemma read_push_rest w (d rest : bytes) :
  0 <= Z.of_nat (length d) < 256 ^ Z.of_nat w -> read_push w (le_bytes w (Z.of_nat (length d)) ++ d ++ rest) = Some (d, rest).
Proof.
  intros Hd. unfold read_push. replace w with (length (le_bytes w (Z.of_nat (length d)))) at 1 by apply length_le_bytes.
  by rewrite take_push_app, le_val_bytes, Nat2Z.id, take_push_app by done.
Qed.

Lemma read_script_push_rest fuel (d rest : bytes) :
  Z.of_nat (length d) < 2 ^ 32 ->
  read_script (S fuel) (push_prefix (Z.of_nat (length d)) ++ d ++ rest) = Some (PushBytes d) :: read_script fuel rest.
Proof.
  intros Hd. unfold push_prefix.
  assert (Hnext : forall r, r = Some (d, rest) ->
    match r with Some (d, s') => Some (PushBytes d) :: read_script fuel s' | None => [None] end
    = Some (PushBytes d) :: read_script fuel rest) by by intros r ->.
  repeat case_decide; cbn [app read_script].
  - rewrite u8_val_to_u8, Z.mod_small by lia. rewrite decide_True by lia. apply Hnext. by rewrite Nat2Z.id, take_push_app.
  - apply Hnext, read_push_rest. simpl. lia.
  - apply Hnext, read_push_rest. simpl. lia.
  - apply Hnext, read_push_rest. simpl. lia.
Qed.

Lemma push_bytes_length d d' : push_bytes_try_from (Bitcoin := bitcoin) d = Some d' -> Z.of_nat (length d) < 2 ^ 32.
Proof. cbn [push_bytes_try_from bitcoin]. by case_decide. Qed.

Lemma two_pushes a d :
  push_bytes_try_from (Bitcoin := bitcoin) a = Some a -> push_bytes_try_from (Bitcoin := bitcoin) d = Some d ->
  instructions (Bitcoin := bitcoin) (push_slice (Bitcoin := bitcoin) (new_op_return (Bitcoin := bitcoin) a) d)
  = [Some (Op OP_RETURN); Some (PushBytes a); Some (PushBytes d)].
Proof.
  intros Ha%push_bytes_length Hd%push_bytes_length. cbn [instructions push_slice new_op_return bitcoin]. unfold push.
  set (pa := push_prefix (Z.of_nat (length a))). set (pd := push_prefix (Z.of_nat (length d))).
  assert (Hp : forall n, (1 <= length (push_prefix n))%nat) by (intros n; unfold push_prefix; repeat case_decide; cbn; lia).
  rewrite <- !app_assoc. cbn [app length]. rewrite read_script_return. f_equal.
  assert (E : exists k, length (pa ++ a ++ pd ++ d) = S (S k)).
  { rewrite !length_app. assert (1 <= length pa)%nat by apply Hp. assert (1 <= length pd)%nat by apply Hp. exists (length pa + length a + length pd + length d - 2)%nat. lia. }
  destruct E as [k ->]. unfold pa. rewrite read_script_push_rest by done. f_equal. unfold pd.
  rewrite <- (app_nil_r d) at 2. rewrite read_script_push_rest by done. by destruct k.
Qed.

Lemma length_last_bytes b : length (last_bytes b) = 32%nat.
Proof. unfold last_bytes. rewrite length_take, length_app, length_replicate. lia. Qed.

#[local] Instance mining_laws : MiningLaws.
Proof.
  split.
  - intros l Hl. cbn. case_decide; [done|by eexists].
  - intros l r. cbn [calculate_root mining_lib]. case_decide; [done|]. intros [= <-]. apply length_digest.
  - intros l Hl. cbn. case_decide; [done|by eexists].
  - done.
  - exact length_encode_header.
  - intros h n (_ & Hp & Hm & _) Hn. cbn [header_serialize mining_lib]. unfold encode_header, set_nonce. cbn [h_version prev_blockhash merkle_root time bits nonce].
    rewrite !app_assoc. f_equal. symmetry. apply take_app_length'. rewrite !length_app, !length_le_bytes, Hp, Hm. done.
  - done.
  - exact length_last_bytes.
  - intros h. cbn [header_target mining_lib]. pose proof (Z.mod_pos_bound (bits h) (2 ^ 32) ltac:(lia)). lia.
  - done.
  - intros s d. by eexists.
  - done.
  - exact two_pushes.
Qed.

(** ** The chain *)

Definition regtest_block (v : Z) (prev : BlockHash) (cb : Transaction) : Block := mkBlock (mkHeader v prev all_zeros 1000 1 0) [cb].
Definition empty_coinbase : Transaction := mkTransaction 1 0 [] [].
Definition genesis_block : Block := regtest_block 1 all_zeros empty_coinbase.

Definition connect (v : Validator) (b : Block) : Validator := (value_or (v, AcceptBlock ∅) (enforcer_connect_block v b)).1.
Definition at_genesis : Validator := connect (mkValidator dbs_new Regtest params []) genesis_block.
Definition genesis_tip : BlockHash := block_hash (header genesis_block).

(** The template: a coinbase with the server's reward, a proposal and a
    commitment, and one transaction. *)
Definition proposal_message : CoinbaseMessage := CM_M1 (mkM1 x02 [x64; x65]).
Definition served_coinbase : Transaction :=
  mkTransaction 2 0 [txin_of null_outpoint]
    [mkTxOut 5000000010 [x51]; mkTxOut 0 (value_or [] (coinbase_message_script proposal_message)); mkTxOut 0 (commitment_script (replicate 32 x33))].
Definition plain_tx : Transaction := mkTransaction 2 0 [txin_of (mkOutPoint txid0 3)] [mkTxOut 7 [x51]].
Definition template : BlockTemplate :=
  mkBlockTemplate genesis_tip 2147483648 1001 (Txn []) [mkTemplateTx (compute_txid plain_tx) [x01] 10].

#[local] Instance template_codec : TxCodec := {
  tx_serialize _ := [];
  tx_deserialize b := if decide (b = []) then Some served_coinbase else if decide (b = [x01]) then Some plain_tx else None;
  version_decode _ := None;
  varint_decode _ := None;
  txout_decode _ := None;
  lock_time_decode _ := None }.

Definition height_script (z : Z) : bytes := push [] (le_bytes 4 z).
Definition miner_script : bytes := [x00; x14] ++ replicate 20 x66.
Definition config : MinerConfig := mkMinerConfig true None.

(** The block that the template leads to. *)
Definition built_coinbase : Transaction :=
  value_or empty_coinbase (finalize_coinbase (E := MineError) height_script Regtest 0 miner_script (List.filter is_message (output served_coinbase)) 10).
Definition built_block : Block :=
  value_or genesis_block (add_witness_commitment (E := MineError)
    (mkBlock (mkHeader NO_SOFT_FORK_SIGNALLING genesis_tip all_zeros (block_time config 2000 1000 (mkTemplateHeader 2147483648 1001)) 2147483648 0) [built_coinbase; plain_tx])).
Definition at_built : Validator := connect at_genesis built_block.

Definition producer (v : Validator) : BlockProducer := mkBlockProducer v policy_db_new ∅ None.

(** The world is whether the block was submitted. The template is served on the
    genesis block, and a submitted block is connected. *)
#[local] Instance small_world : MiningWorld bool := {
  producer_of submitted := producer (if submitted : bool then at_built else at_genesis);
  other_tasks w := w;
  get_block_template w _ := (w, Some template);
  system_time _ := Some 2000;
  sign_raw_transaction w _ _ := (w, None);
  run_grind w h := (w, if is_hit h 0 then Some (set_nonce 0 h) else None);
  submit_block _ _ := (true, Some None);
  sleep_poll w := (w, false);
  get_address_info w _ := (w, None) }.

Definition generated : bool * Res MineError BlockHash := generate_block height_script config miner_script false.
Lemma generated_ok : generated = (true, Ok (block_hash (header built_block))).
Proof. vm_compute. reflexivity. Qed.

(** ** Instances of the theorems *)

Lemma built_fields : header_fields_ok (header built_block).
Proof. vm_compute. intuition congruence. Qed.

(** Four threads grind the block. *)
Lemma grind_correct_witness :
  let h := header built_block in
  sn (grind_step h 4) (grind_init 4) /\
  forall r, grind h 4 r ->
    match r with
    | Some h' => exists n, 0 <= n < 2 ^ 32 /\ h' = set_nonce n h /\ is_met_by (header_target h') (block_hash h') = true
    | None => forall n, 0 <= n < 2 ^ 32 -> is_met_by (header_target h) (block_hash (set_nonce n h)) = false
    end.
Proof.
  destruct (grind_correct (header built_block) 4) as (Hsn & _ & Hr); [exact built_fields|unfold u32_max; lia|]. exact (conj Hsn Hr).
Defined.

(** One thread that hits with its first candidate. *)
Lemma grind_first h : is_hit h 0 = true -> grind h 1 (Some (set_nonce 0 h)).
Proof.
  intros Hh. exists (mkGrindState true 0 [Done]). split_and!; [|by repeat constructor|done].
  apply (rtc_l _ _ (mkGrindState false u64_max [Hashing 0 4096])); [by eapply (thread_runs _ _ (grind_init 1) 0%nat (Testing 0) false)|].
  apply (rtc_l _ _ (mkGrindState true u64_max [Storing 0])).
  - eapply (thread_runs _ _ (mkGrindState false u64_max [Hashing 0 4096]) 0%nat (Hashing 0 4096) false); [done|]. change 4096%nat with (S 4095). cbn [thread_step]. by rewrite Hh.
  - apply (rtc_l _ _ (mkGrindState true 0 [Done])); [|done]. by eapply (thread_runs _ _ (mkGrindState true u64_max [Storing 0]) 0%nat (Storing 0) false).
Qed.

Lemma small_world_ok : world_ok (W := bool).
Proof.
  split.
  - intros [] tip; vm_compute; intros [= <-]; reflexivity.
  - intros w rules w' t [= _ <-]. vm_compute. split; congruence.
  - intros w h w' h'. cbn [run_grind small_world]. destruct (is_hit h 0) eqn:Hh; [|done]. intros [= _ <-]. exists 1. split; [done|by apply grind_first].
Qed.

Lemma generate_block_spec_witness :
  exists t w b, get_block_template w [Segwit; Bip300301] = (w, Some t) /\ mined_from t w b /\ block_hash (header b) = block_hash (header built_block).
Proof.
  destruct (generate_block_spec height_script config miner_script false true (block_hash (header built_block))) as (t & w2 & w3 & w4 & b & rules & Ht & _ & Hm & _ & Hb & _).
  - exact small_world_ok.
  - vm_compute. reflexivity.
  - exact generated_ok.
  - exists t, w2, b. injection Ht as <- <-. exact (conj eq_refl (conj Hm (eq_sym Hb))).
Defined.

(** A signet block with a challenge of one opcode. *)
Definition signet_block : Block := mkBlock (header built_block) [mkTransaction 2 0 [txin_of null_outpoint] [mkTxOut 5 [x51]]; plain_tx].
Definition committed_block : Block := value_or genesis_block (add_witness_commitment (E := NoWitnessCommitment) signet_block).
Definition signed_txs : SignetTxs := value_or (mkSignetTxs plain_tx plain_tx) (signet_txs_new committed_block [x51]).
Definition solved_block : Block := value_or genesis_block (add_signet_solution committed_block [x01; x02] [[x03]]).

Lemma signet_solution_verifies_witness :
  bip325_txs solved_block [x51] = Some (signed_txs, script_serialize [x01; x02] ++ witness_serialize [[x03]]) /\
  calculate_root (compute_txid <$> txdata solved_block) = Some (merkle_root (header solved_block)).
Proof.
  apply (signet_solution_verifies signet_block committed_block signed_txs [x51] [x01; x02] [[x03]] solved_block); vm_compute; reflexivity.
Defined.

(** A signet whose tip is an hour old. *)
Lemma block_time_bounds_witness :
  let t := block_time (mkMinerConfig true (Some [x51])) 10000 6400 (mkTemplateHeader 1 6000) in
  t = 8500 /\ 6400 < t.
Proof.
  destruct (block_time_bounds (mkMinerConfig true (Some [x51])) 10000 6400 (mkTemplateHeader 1 6000)) as (Hlt & _ & Hmid); [cbn; lia..|].
  split; [|exact Hlt]. rewrite (Hmid [x51] eq_refl) by (vm_compute; reflexivity). reflexivity.
Defined.
