(* ===== verification/SeedScenario.v ===== *)
(** * Example: a migration and a new wallet

    A concrete instance of what the seed store takes from its libraries, runs of
    whole processes, and the theorems of the seed store applied to them. *)

From Stdlib Require Import Strings.Byte Strings.String.
From stdpp Require Import base numbers list gmap strings pretty relations countable.
From S2P Require Import Prelude OrderMap Bitcoin SeedStore SeedProofs.
Open Scope Z_scope.

(** ** A library *)

#[local] Instance KdfParams_countable : Countable KdfParams :=
  inj_countable' (fun k => (memory_kib k, iterations k, parallelism k)) (fun '(a, b, c) => mkKdfParams a b c) ltac:(by intros []).
#[local] Instance StoredSeed_countable : Countable StoredSeed :=
  inj_countable' (fun s => match s with Plaintext m => inl m | Encrypted a b c k => inr (a, b, c, k) end)
    (fun x => match x with inl m => Plaintext m | inr (a, b, c, k) => Encrypted a b c k end) ltac:(by intros []).
#[local] Instance SeedFile_countable : Countable SeedFile :=
  inj_countable' (fun f => (sf_version f, created_at f, birthday_height f, seed f)) (fun '(a, b, c, d) => mkSeedFile a b c d) ltac:(by intros []).

Fixpoint pos_bytes (p : positive) : bytes :=
  match p with xH => [] | xO p => x00 :: pos_bytes p | xI p => x01 :: pos_bytes p end.
Fixpoint bytes_pos (b : bytes) : positive :=
  match b with [] => xH | x :: b => if decide (x = x00) then xO (bytes_pos b) else xI (bytes_pos b) end.

Lemma bytes_pos_bytes p : bytes_pos (pos_bytes p) = p.
Proof. induction p as [p IH|p IH|]; cbn; [by rewrite IH|by rewrite IH|done]. Qed.

#[local] Instance seed_lib : SeedLib := {
  Mnemonic := bytes;
  mnemonic_to_string m := m; mnemonic_parse := Some; parse_in_normalized := Some;
  argon2id k password salt := Some (password ++ salt);
  aes_encrypt key nonce p := Some p; aes_decrypt key nonce c := Some c;
  from_utf8 := Some;
  to_vec_pretty f := pos_bytes (encode f); from_slice b := decode (bytes_pos b) }.

#[local] Instance seed_laws : SeedLaws.
Proof. split; try done. intros f. cbn. by rewrite bytes_pos_bytes, decode_encode. Qed.

(** ** Runs of whole processes *)

Definition choice_okb {X} (o : Choice) (c : Sys X) (w : World) : bool :=
  match c with
  | PidNonce => bool_decide (drawn w !! tmp_path (os_pid o) (random o) = None)
  | Rng len => bool_decide (List.length (random o) = len)
  | _ => true
  end.

Lemma choice_okb_ok {X} o (c : Sys X) w : choice_okb o c w = true -> choice_ok o c w.
Proof. destruct c; cbn; try done; by intros ?%bool_decide_eq_true. Qed.

Fixpoint choices_ok {A} (db : bool) (i : nat) (os : list Choice) (p : Prog A) (w : World) : bool :=
  match p with
  | Ret _ => true
  | Call c k => match os with
                | o :: os => choice_okb o c w && (let r := exec db i o c w in choices_ok db i os (k r.1) r.2)
                | [] => false
                end
  end.

(** The process [i] of [σ] runs to its end. *)
Lemma run_steps db power i t os p a w w' ps n l :
  ps !! i = Some (t, p) -> choices_ok db i os p w = true -> run db i os p w = Some (a, w') ->
  rtc (step db power) (mkSystem w ps n l) (mkSystem w' (delete i ps) n ((i, t, a) :: l)).
Proof.
  revert p w ps. induction os as [|o os IH]; intros [b|X c k] w ps Hp Hc Hr; cbn in *; simplify_eq.
  1,2: apply rtc_once, (step_end db power (mkSystem _ _ _ _)); done.
  apply andb_true_iff in Hc as [Ho Hc]. eapply rtc_l; [by eapply (step_call db power (mkSystem _ _ _ _)); [done|apply choice_okb_ok]|]. cbn.
  rewrite <- (delete_insert_eq ps i (t, k (exec db i o c w).1)). by eapply IH; [apply lookup_insert_eq|..].
Qed.

Lemma start_run db power t os a w w' n l :
  choices_ok db n os (program t) w = true -> run db n os (program t) w = Some (a, w') ->
  rtc (step db power) (mkSystem w ∅ n l) (mkSystem w' ∅ (S n) ((n, t, a) :: l)).
Proof.
  intros Hc Hr. eapply rtc_l; [apply (step_start db power (mkSystem _ _ _ _) t)|]. cbn.
  assert (E : delete n (<[n := (t, program t)]> ∅ : gmap nat (Task * Prog Outcome)) = ∅) by (by rewrite delete_insert_eq, delete_empty).
  rewrite <- E at 2. eapply run_steps; [apply lookup_insert_eq|done|done].
Qed.

(** ** A migration *)

Definition legacy_row : LegacyRow := mkLegacyRow 7 (Some [x61; x62]) None None None (Some 1700000000).
Definition w_legacy : World := mkWorld ∅ ∅ [] ∅ 0%N ∅ true (Some [legacy_row]) [].
Definition good : Choice := mkChoice false false [] 42 (replicate 8 x05) 1800000000 [x6d] 800000.
Definition bad : Choice := mkChoice true false [] 42 (replicate 8 x05) 1800000000 [x6d] 800000.

Lemma w_legacy_at_rest : at_rest w_legacy.
Proof. split; try done. intros rows [= <-]. repeat constructor. set_solver. Qed.

(** The first start fails to sync the directory, the second one finds the file. *)
Definition first_start : list Choice := replicate 16 good ++ [bad].
Definition second_start : list Choice := replicate 7 good.

Definition after_first : World := default w_legacy (snd <$> run true 0 first_start (program Startup) w_legacy).
Definition after_second : World := default w_legacy (snd <$> run true 1 second_start (program Startup) after_first).

Lemma first_runs : run true 0 first_start (program Startup) w_legacy = Some (Started (Err (ISS_Io OtherIo)), after_first).
Proof. vm_compute. reflexivity. Qed.
Lemma second_runs : run true 1 second_start (program Startup) after_first = Some (Started (Ok tt), after_second).
Proof. vm_compute. reflexivity. Qed.

Definition sys1 : System := mkSystem after_first ∅ 1 [(0%nat, Startup, Started (Err (ISS_Io OtherIo)))].
Definition sys2 : System := mkSystem after_second ∅ 2 [(1%nat, Startup, Started (Ok tt)); (0%nat, Startup, Started (Err (ISS_Io OtherIo)))].

Lemma sys2_reachable power : rtc (step true power) (boot w_legacy) sys2.
Proof.
  transitivity sys1; [apply (start_run true power Startup first_start)|apply (start_run true power Startup second_start)]; vm_compute; reflexivity.
Qed.

(** The row is gone and the file has its seed. *)
Lemma seed_never_lost_witness :
  table after_second = Some [] /\
  ((exists rows', table (world sys2) = Some rows' /\ legacy_row ∈ rows') \/
   exists f, visible_seed_file (world sys2) = Some f /\ row_seed legacy_row = Some (seed f)).
Proof.
  split; [vm_compute; reflexivity|].
  apply (seed_never_lost true true w_legacy sys2 [legacy_row] legacy_row);
    [exact w_legacy_at_rest|by right|apply sys2_reachable|reflexivity|by constructor].
Defined.

Lemma seed_file_immutable_witness :
  visible_seed_file (world sys1) = Some (mkSeedFile 1 1700000000 None (Plaintext [x61; x62])) /\
  visible_seed_file (world sys2) = Some (mkSeedFile 1 1700000000 None (Plaintext [x61; x62])).
Proof.
  assert (E : visible_seed_file (world sys1) = Some (mkSeedFile 1 1700000000 None (Plaintext [x61; x62]))) by (vm_compute; reflexivity).
  split; [exact E|]. refine (proj2 (seed_file_immutable true true w_legacy sys1 sys2 w_legacy_at_rest _ _) _ E).
  - apply (start_run true true Startup first_start); vm_compute; reflexivity.
  - apply (start_run true false Startup second_start); vm_compute; reflexivity.
Defined.

Lemma migration_completes_witness :
  exists w', run_with false 0 good seed_store_new w_legacy = (Ok tt, w') /\
    visible_seed_file w' = Some (migrated_file (Some 1700000000) 1800000000 (Plaintext [x61; x62])) /\ table w' = Some [] /\
    dir w' !! tmp_path 42 (replicate 8 x05) = None /\ run_with false 0 good seed_store_new w' = (Ok tt, w').
Proof.
  apply (migration_completes false 0 good w_legacy legacy_row (Plaintext [x61; x62])); [exact w_legacy_at_rest|reflexivity..].
Defined.

(** ** A new wallet *)

Definition w_empty : World := mkWorld ∅ ∅ [] ∅ 0%N ∅ false None [].
Definition with_random (b : bytes) : Choice := mkChoice false false [] 42 b 1800000000 [x6d] 800000.
Definition creation : list Choice :=
  [with_random (replicate 16 x01); with_random (replicate 12 x02)] ++ replicate 12 good.
Definition create_task : Task := CreateWallet (Some [x61; x62]) (Some [x70; x77]).
Definition after_creation : World := default w_empty (snd <$> run false 0 creation (program create_task) w_empty).

Lemma w_empty_at_rest : at_rest w_empty.
Proof. by split. Qed.

(** What a power loss leaves of it. *)
Definition after_loss : World :=
  mkWorld (dir after_creation) (dir after_creation) [] (inodes after_creation) (next_inode after_creation) (drawn after_creation) false None [].

Definition sys_created : System := mkSystem after_loss ∅ 1 [(0%nat, create_task, Created (Ok tt))].

Lemma sys_created_reachable : rtc (step false true) (boot w_empty) sys_created.
Proof.
  eapply rtc_r; [apply (start_run false true create_task creation); vm_compute; reflexivity|].
  apply (step_power false true (mkSystem after_creation ∅ 1 _)); [done|]. cbn [world]. split.
  - intros p. by left.
  - reflexivity.
  - reflexivity.
  - intros n. cbn [inodes after_loss]. by destruct (inodes after_creation !! n).
  - reflexivity.
  - reflexivity.
  - vm_compute. reflexivity.
  - cbn [table after_loss]. vm_compute. by constructor.
  - reflexivity.
Qed.

Lemma created_wallet_survives_witness :
  (exists f m', visible_seed_file (world sys_created) = Some f /\ (m' = [x61; x62] /\ birthday_height f = None) /\
    forall j o o', fault o = false -> fault o' = false ->
      run false j [o; o'] (unlock_existing_wallet false [x70; x77]) (world sys_created) = Some (Ok m', world sys_created)) /\
  forall j m2 p2, (j, CreateWallet m2 p2, Created (Ok tt)) ∈ log sys_created -> j = 0%nat /\ m2 = Some [x61; x62] /\ p2 = Some [x70; x77].
Proof.
  apply (created_wallet_survives true false w_empty sys_created 0 (Some [x61; x62]) (Some [x70; x77]));
    [exact w_empty_at_rest|exact sys_created_reachable|by constructor].
Defined.

(** ** The commit has to sync the directory

    If it did not, a power loss after the second start could take the seed away:
    the second start deletes the row although the name [seed.json], which the
    first one could not sync, is not on disk yet. *)

Definition lost_first : World := default w_legacy (snd <$> run false 0 first_start (program Startup) w_legacy).
Definition lost_second : World := default w_legacy (snd <$> run false 1 second_start (program Startup) lost_first).
Definition lost : World :=
  mkWorld ∅ ∅ [] (inodes lost_second) (next_inode lost_second) (drawn lost_second) true (Some []) [].

Theorem seed_lost_without_directory_sync :
  exists σ, rtc (step false true) (boot w_legacy) σ /\ table (world σ) = Some [] /\ visible_seed_file (world σ) = None.
Proof.
  exists (mkSystem lost ∅ 2 [(1%nat, Startup, Started (Ok tt)); (0%nat, Startup, Started (Err (ISS_Io OtherIo)))]).
  split; [|done]. eapply rtc_r.
  - transitivity (mkSystem lost_first ∅ 1 [(0%nat, Startup, Started (Err (ISS_Io OtherIo)))]);
      [apply (start_run false true Startup first_start)|apply (start_run false true Startup second_start)]; vm_compute; reflexivity.
  - apply (step_power false true (mkSystem lost_second ∅ 2 _)); [done|]. cbn [world]. split.
    + intros p. right. left. assert (E : dir_durable lost_second = ∅) by (vm_compute; reflexivity). rewrite E. by rewrite !lookup_empty.
    + reflexivity.
    + reflexivity.
    + intros n. cbn [inodes lost]. by destruct (inodes lost_second !! n).
    + reflexivity.
    + reflexivity.
    + vm_compute. reflexivity.
    + cbn [table lost]. vm_compute. by constructor.
    + reflexivity.
Qed.
