(* ===== verification/WalletScenario.v ===== *)
(** * Example: a wallet with one coin

    The chain of [Scenario], with a treasury for slot 1, and the same chain before
    its first deposit; a wallet with one coin of 5000 makes a deposit, a payment and
    a BMM request. *)

From Stdlib Require Import Strings.Byte Sorting.Sorted.
From stdpp Require Import base numbers list gmap sorting.
From S2P Require Import Prelude OrderMap Bitcoin Types Messages M6 Dbs BlockHashes Treasury Diff Handlers HandlerProofs ConnectBlock TreasurySafety Enforcer Facade P2p Wallet WalletProofs Scenario.
Import Runnable.
Open Scope Z_scope.

#[local] Instance return_laws : ReturnLaws.
Proof.
  split; [|by intros d]. intros [|b s]; [done|]. cbn [instructions bitcoin length read_script].
  destruct (decide (u8_val b <= 75)); [by destruct (take_push _ s) as [[]|]|].
  repeat (destruct (decide (b = _)) as [->|]; [by destruct (read_push _ s) as [[]|]|]). by intros [= ->].
Qed.

(** ** The wallet *)

Definition coin : OutPoint := mkOutPoint txid0 7.
Definition change_script : bytes := x00 :: x14 :: replicate 20 x33.

Fixpoint ssorted (cmp : TxOut -> TxOut -> comparison) (l : list TxOut) : bool :=
  match l with [] => true | x :: l => forallb (fun y => bool_decide (cmp x y <> Gt)) l && ssorted cmp l end.

Lemma ssorted_true cmp l : ssorted cmp l = true -> StronglySorted (fun l r => cmp l r <> Gt) l.
Proof.
  induction l as [|x l IH]; intros Hs; constructor; cbn in Hs; apply andb_true_iff in Hs as [Hf Hs]; [by apply IH|].
  rewrite forallb_forall in Hf. apply Forall_forall. intros y Hy%list_elem_of_In%Hf. by apply bool_decide_eq_true_1 in Hy.
Qed.

(** A builder that spends the coin, keeps the order it was given, and refuses when
    that is not the order asked for. *)
Definition purse_finish (b : TxBuilder) : option Transaction :=
  let outs := tb_recipients b ++ [mkTxOut 4000 (default change_script (tb_drain_to b))] in
  let tx := mkTransaction 2 (default 0 (tb_nlocktime b)) [mkTxIn coin [] (default 4294967295 (tb_exact_sequence b)) []] outs in
  match tb_ordering b with Custom _ cmp => if ssorted cmp outs then Some tx else None | _ => Some tx end.

Definition purse : BdkWallet :=
  mkBdkWallet (fun o => bool_decide (o = coin)) (fun _ _ => true) purse_finish (fun tx => Some (true, tx)) (fun _ => true) id
    (fun s => bool_decide (s = change_script)) (fun _ => Some true).

#[local] Instance purse_laws : BdkLaws purse.
Proof.
  assert (Hf : forall b tx, purse_finish b = Some tx ->
    tx = mkTransaction 2 (default 0 (tb_nlocktime b)) [mkTxIn coin [] (default 4294967295 (tb_exact_sequence b)) []]
           (tb_recipients b ++ [mkTxOut 4000 (default change_script (tb_drain_to b))]) /\
    arranged (tb_ordering b) (tb_recipients b ++ [mkTxOut 4000 (default change_script (tb_drain_to b))]) (output tx)).
  { intros b tx. unfold purse_finish. destruct (tb_ordering b) as [| |i cmp] eqn:E; [intros [= <-]; split; [reflexivity|cbn; reflexivity]..|]. case_match eqn:Es; [|done].
    intros [= <-]. split; [done|]. split; [reflexivity|by apply ssorted_true]. }
  split; cbn [finish purse sign_with_signers extract_tx_unchecked_fee_rate knows_utxo].
  - intros b tx [-> Ha]%Hf. eexists. split; [exact Ha|]. constructor; [|done]. cbn. destruct (tb_drain_to b); [by right|left].
    exists (replicate 20 x33). done.
  - intros b tx [-> _]%Hf. constructor; [left; cbn; by rewrite bool_decide_eq_true_2|done].
  - intros b tx t [-> _]%Hf. cbn. by intros ->.
  - intros b tx q [-> _]%Hf. cbn. intros ->. by constructor.
  - intros psbt signed tx [= <- <-]. done.
  - done.
Qed.

(** The node takes every transaction, or the version that does not know the opcode
    answers; there is one peer. *)
Definition takes (tx : Transaction) (_ : option Z) : SendRawTransaction := Sent (compute_txid tx).
Definition refuses (_ : Transaction) (_ : option Z) : SendRawTransaction :=
  CallError (-26) (x21 :: OP_DRIVECHAIN_NOT_SUPPORTED_ERR_MSG_V30_0).
Definition peer (r : Res BroadcastNonstandardTxError bool) (_ : Z) (_ : Transaction) : list (Res BroadcastNonstandardTxError bool) := [r].

Definition hin (i : TxIn) : bytes := op_txid (previous_output i).
Definition hout (o : TxOut) : bytes := script_pubkey o.
Definition fetch (_ : Txid) : option Transaction := None.

Definition tables0 : Dbs := mkDbs no_treasury hashes1 (Some (block_hash genesis)) ∅ ∅.
Definition fresh_validator : Validator := mkValidator tables0 Regtest params [].
Definition validator1 : Validator := mkValidator tables1 Regtest params [].
Definition ecash_validator : Validator := mkValidator tables1 Regtest (network_params_new ForkEcash Regtest None) [].
Definition address : bytes := [x61; x62].

Definition deposit_of (v : Validator) : Res CreateDeposit (Txid * list Transaction) :=
  create_deposit hin hout fetch takes (peer (Ok false)) (Some purse) v slot address 900 (Some 100).

(** The first deposit goes through a node that does not know the opcode, by a peer. *)
Lemma deposit_through_peer : exists txid tx,
  create_deposit hin hout fetch refuses (peer (Ok true)) (Some purse) fresh_validator slot address 900 None = Ok (txid, [tx]).
Proof. eexists _, _. vm_compute. reflexivity. Qed.

Lemma params_ok : op_ok (op_drivechain params).
Proof. by split. Qed.

Lemma purse_coins s u o : ctip_outpoint_to_value_seq (active_sidechains s) !! coin = None -> by_outpoint u !! coin = None ->
  knows_utxo purse o = true -> ctip_outpoint_to_value_seq (active_sidechains s) !! o = None /\ by_outpoint u !! o = None.
Proof. intros H1 H2 E. cbn in E. apply bool_decide_eq_true_1 in E as ->. done. Qed.

Lemma deposit_accepted_witness :
  exists txid tx, deposit_of fresh_validator = Ok (txid, [tx]) /\
  exists diff u', handle_transaction handler tables0 None unconsolidated_default all_zeros tx
    = Ok (Some (Deposits {[slot := mkDeposit 0 (mkOutPoint txid 0) address 900]}, diff), u') /\ u' = unconsolidated_default.
Proof.
  pose (r := value_or ([], []) (deposit_of fresh_validator)).
  assert (E : deposit_of fresh_validator = Ok r) by (apply value_or_Ok; vm_compute; reflexivity). destruct r as [txid applied] eqn:Er.
  destruct (deposit_accepted hin hout fetch takes (peer (Ok false)) purse fresh_validator handler unconsolidated_default slot address 900 (Some 100)
    txid applied all_zeros None eq_refl params_ok (ltac:(by eexists)) (ltac:(lia)) (fun o => purse_coins tables0 unconsolidated_default o eq_refl eq_refl) E)
    as (tx & -> & _ & Hh).
  exists txid, tx. split; [exact E|]. eexists _, _. split; [exact Hh|reflexivity].
Defined.

Lemma later_deposits_unlisted_witness :
  exists txid tx, deposit_of validator1 = Ok (txid, [tx]) /\
  let t := mkBDKWalletTransaction txid tx (Unconfirmed None) 100 0 1000 in
  sidechain_deposit validator1 t = Ok None /\ exists d, sidechain_deposit fresh_validator t = Ok (Some d).
Proof.
  pose (r := value_or ([], []) (deposit_of validator1)).
  assert (E : deposit_of validator1 = Ok r) by (apply value_or_Ok; vm_compute; reflexivity). destruct r as [txid applied] eqn:Er.
  destruct (later_deposits_unlisted hin hout fetch takes (peer (Ok false)) purse validator1 validator1 slot address 900 (Some 100) txid applied ctip0
    params_ok eq_refl E) as (tx & -> & Hu).
  - vm_compute. reflexivity.
  - vm_compute. reflexivity.
  - injection Er as <- _. vm_compute. reflexivity.
  - exists txid, tx. split; [exact E|]. intros t. split; [exact (Hu t eq_refl eq_refl)|]. subst t. injection Er as <- <-. eexists. vm_compute. reflexivity.
Defined.

Definition some_deposit : Transaction := mkTransaction 2 0 [txin_of coin] [treasury_out 900].

Lemma broadcast_deposit_reported_failed_witness :
  broadcast_deposit takes (peer (Err Resolve)) (Some purse) 100 some_deposit = Err (CD_BroadcastNonstandardTx Resolve).
Proof.
  destruct (broadcast_deposit_reported_failed takes (peer (Err Resolve)) (Some purse) 100 some_deposit (compute_txid some_deposit) Resolve) as (e & He & Hb).
  - reflexivity.
  - by left.
  - intros Hp%list_elem_of_singleton. discriminate Hp.
  - rewrite Hb. apply list_elem_of_singleton in He. by injection He as ->.
Defined.

(** A payment on an eCash network. *)
Definition payment : Res SendWalletTransaction (Txid * list Transaction) :=
  send_wallet_transaction takes (Some purse) ecash_validator [(change_script, 900)] (mkCreateTransactionParams (Some (Rate 5)) (Some [x68]) [coin] None).

Lemma replay_protected_witness : exists txid tx, payment = Ok (txid, [tx]) /\ locked 499999998 tx.
Proof.
  pose (r := value_or ([], []) payment).
  assert (E : payment = Ok r) by (apply value_or_Ok; vm_compute; reflexivity). destruct r as [txid applied] eqn:Er.
  destruct (replay_protected hin hout fetch takes (peer (Ok false)) purse ecash_validator 499999998 eq_refl) as (_ & Hs & _).
  destruct (Hs _ _ _ _ E) as (tx & -> & Hl). by exists txid, tx.
Defined.

Definition request : Res CreateBmmRequest Transaction :=
  create_bmm_request takes (peer (Ok true)) (Some purse) validator1 slot (block_hash genesis) commitment 300 1.
Definition request_tx : Transaction := value_or some_deposit request.

Lemma bmm_request_lifecycle_witness :
  request = Ok request_tx /\ handle_m8 request_tx (Some [(slot, commitment)]) (block_hash genesis) = Ok true /\
  handle_m8 request_tx (Some [(slot, txid0)]) (block_hash genesis) <> Ok true /\
  (compute_txid request_tx ∈ evict_stale_bmm_requests [mkWalletTx (compute_txid request_tx) request_tx (Unconfirmed None)] txid0) /\
  (compute_txid request_tx ∉ evict_stale_bmm_requests [mkWalletTx (compute_txid request_tx) request_tx (Unconfirmed None)] (block_hash genesis)).
Proof.
  assert (E : request = Ok request_tx) by (apply value_or_Ok; vm_compute; reflexivity).
  assert (Hg : length (block_hash genesis) = 32%nat) by (vm_compute; reflexivity).
  destruct (bmm_request_lifecycle takes (peer (Ok true)) purse validator1 slot (block_hash genesis) commitment 300 1 request_tx eq_refl Hg E) as (Hm & Hn & _ & He).
  split; [exact E|]. split; [by apply Hm|]. split; [|split].
  - intros [Hc _]%Hm. vm_compute in Hc. discriminate Hc.
  - apply He. eexists. split; [by left|]. split; [reflexivity|]. split; [reflexivity|]. intros acc. unfold handle_m8.
    cbn [wt_tx]. replace (parse_m8_tx request_tx) with (Some (mkM8 slot commitment (block_hash genesis))) by (vm_compute; reflexivity).
    case_match; [by eexists|]. rewrite decide_False; [by eexists|]. vm_compute. discriminate.
  - intros (t & Ht & _ & _ & Hr)%He. apply list_elem_of_singleton in Ht as ->. destruct (Hr None) as [e Hr']. cbn [wt_tx] in Hr'.
    assert (Hok : handle_m8 request_tx None (block_hash genesis) = Ok true) by by apply Hn.
    rewrite Hok in Hr'. discriminate Hr'.
Defined.

(** A payment of 900 with a fee of 100 from the coin of 5000, and the same with an
    input of someone else that pays a fee of 300, of which 50 are the wallet's. *)
Definition funding : Transaction := mkTransaction 2 0 [] (replicate 7 (mkTxOut 1 [x51]) ++ [mkTxOut 5000 change_script; mkTxOut 1150 [x51]]).
Definition get_funding (t : Txid) : option Transaction := if decide (t = txid0) then Some funding else None.
Definition own : WalletTx :=
  mkWalletTx txid0 (mkTransaction 2 0 [txin_of coin] [mkTxOut 900 [x51]; mkTxOut 4000 change_script]) (Confirmed (mkConfirmationBlockTime 1 (block_hash genesis) 5) None).
Definition cofunded : WalletTx :=
  mkWalletTx txid0 (mkTransaction 2 0 [txin_of coin; txin_of (mkOutPoint txid0 8)] [mkTxOut 900 [x51]; mkTxOut 4950 change_script]) (Unconfirmed None).

Lemma wallet_transaction_amounts_witness :
  wallet_transaction (is_mine purse) get_funding own = Ok (mkBDKWalletTransaction txid0 (wt_tx own) (Confirmed (mkConfirmationBlockTime 1 (block_hash genesis) 5) None) 100 0 900) /\
  wallet_transaction (is_mine purse) get_funding cofunded = Panic /\
  list_wallet_transactions (Some purse) [own; cofunded] get_funding = Panic.
Proof.
  assert (Ho : forall l, forallb (fun o => bool_decide (0 <= value o)) l = true -> Forall (fun o => 0 <= value o) l).
  { intros l Hl. rewrite forallb_forall in Hl. apply Forall_forall. intros o Hin%list_elem_of_In%Hl. by apply bool_decide_eq_true_1 in Hin. }
  destruct (wallet_transaction_amounts (is_mine purse) get_funding own 5000 [mkTxOut 5000 change_script]) as [Hown _];
    [vm_compute; reflexivity|by apply Ho|by apply Ho|vm_compute; discriminate|].
  destruct (wallet_transaction_amounts (is_mine purse) get_funding cofunded 6150 [mkTxOut 5000 change_script; mkTxOut 1150 [x51]]) as [_ Hco];
    [vm_compute; reflexivity|by apply Ho|by apply Ho|vm_compute; discriminate|].
  split; [|split].
  - rewrite Hown; [reflexivity|]. constructor; [reflexivity|done].
  - apply Hco. vm_compute. done.
  - vm_compute. reflexivity.
Defined.
