(* ===== verification/WalletSyncScenario.v ===== *)
(** * Example: a wallet on a branch that was left

    Four blocks, and a stale block at height 1 on which the wallet is. *)

From Stdlib Require Import Strings.Byte.
From stdpp Require Import base numbers list gmap.
From S2P Require Import Prelude OrderMap Bitcoin Types Messages M6 Dbs BlockHashes Treasury Diff Handlers ConnectBlock Reorg Enforcer EnforcerProofs Sync SyncProofs Headers HeaderProofs Facade FacadeProofs Policy Producer Wallet WalletSync WalletSyncProofs WalletEnforcer Scenario SyncScenario WalletScenario.
Import Runnable.
Open Scope Z_scope.

Definition head1 : Header := mkHeader 1 (block_hash genesis) all_zeros 1 1 11.
Definition head2 : Header := mkHeader 1 (block_hash head1) all_zeros 2 1 12.
Definition head3 : Header := mkHeader 1 (block_hash head2) all_zeros 3 1 13.
Definition stale1 : Header := mkHeader 1 (block_hash genesis) all_zeros 1 1 14.

Definition entries : list (Header * Z) := [(genesis, 0); (head1, 1); (head2, 2); (head3, 3); (stale1, 1)].
Definition keyed {A} (f : Header * Z -> A) : gmap BlockHash A := list_to_map ((fun e => (block_hash e.1, f e)) <$> entries).
Definition follow_hashes : BlockHashDbs := mkBlockHashes (keyed (fun _ => [])) (keyed (fun _ => [])) ∅ ∅ (keyed (fun _ => [])) (keyed fst) (keyed snd) ∅.
Definition follow_validator : Validator := mkValidator (mkDbs no_treasury follow_hashes (Some (block_hash head3)) ∅ ∅) Regtest params [].
Definition chain_list : list (BlockHash * BlockInfo) := (fun h => (block_hash h, mkBlockInfo [] [] [])) <$> [genesis; head1; head2; head3].

Lemma keyed_Some {A} (f : Header * Z -> A) x y : keyed f !! x = Some y -> exists e, e ∈ entries /\ x = block_hash e.1 /\ y = f e.
Proof. intros Hk%elem_of_list_to_map_2. apply list_elem_of_fmap in Hk as (e & [= -> ->] & He). by exists e. Qed.

Lemma follow_wf : chain_wf follow_hashes.
Proof.
  assert (Hall : forallb (fun e => bool_decide (height follow_hashes !! block_hash e.1 = Some e.2) && bool_decide (0 <= e.2) &&
    if decide (prev_blockhash e.1 = all_zeros) then bool_decide (e.2 = 0)
    else bool_decide (is_Some (headers follow_hashes !! prev_blockhash e.1)) && bool_decide (height follow_hashes !! prev_blockhash e.1 = Some (e.2 - 1))) entries = true)
    by (vm_compute; reflexivity).
  rewrite forallb_forall in Hall. split; [vm_compute; reflexivity| |].
  - intros x hd (e & _ & -> & ->)%keyed_Some. done.
  - intros x hd (e & He & -> & ->)%keyed_Some. exists e.2. apply list_elem_of_In, Hall in He. apply andb_true_iff in He as [He H3]. apply andb_true_iff in He as [H1 H2].
    apply bool_decide_eq_true_1 in H1, H2. split_and!; [done|done|]. case_decide; [by apply bool_decide_eq_true_1 in H3|].
    apply andb_true_iff in H3 as [H3 H4]. apply bool_decide_eq_true_1 in H3, H4. done.
Qed.

Lemma follow_chain : chain_to follow_hashes (block_hash head3) chain_list.
Proof.
  assert (Hsnoc : forall hd l info, headers follow_hashes !! block_hash hd = Some hd -> try_get_block_info follow_hashes (block_hash hd) = Ok (Some info) ->
    chain_to follow_hashes (prev_blockhash hd) l -> chain_to follow_hashes (block_hash hd) (l ++ [(block_hash hd, info)])) by (intros; by eapply chain_to_snoc).
  apply (Hsnoc head3 (take 3 chain_list)); [vm_compute; reflexivity..|]. apply (Hsnoc head2 (take 2 chain_list)); [vm_compute; reflexivity..|].
  apply (Hsnoc head1 (take 1 chain_list)); [vm_compute; reflexivity..|]. apply (Hsnoc genesis []); [vm_compute; reflexivity..|]. constructor.
Qed.

(** ** The node, BDK and the wallet *)

Definition node_hash (k : Z) : option BlockHash := if decide (0 <= k) then fst <$> chain_list !! Z.to_nat k else None.
Definition node_block (h : BlockHash) : option Block := (fun hd => mkBlock hd []) <$> headers follow_hashes !! h.

Definition simple_bdk : Bdk :=
  mkBdk (fun c block h => if decide (c !! (h - 1) = Some (prev_blockhash (header block))) then Ok (put_block c block h)
                          else Err (CannotConnect (Z.min (h - 2) (tip_id c).1)))
    (fun c ids => Some (list_to_map ids ∪ c)) (fun _ c => Some c) (fun txs _ _ => txs) (fun txs new => txs ++ new).

#[local] Instance simple_bdk_laws : BdkChainLaws simple_bdk.
Proof.
  split; cbn.
  - intros c n block h _ _ E. by rewrite decide_True.
  - intros c n block h Hd _ E. rewrite decide_False by done. by destruct (tip_id_dense c n Hd) as (x & -> & _).
  - done.
  - done.
Qed.

Definition wallet_chain : LocalChain := {[0 := block_hash genesis; 1 := block_hash stale1]}.
Definition stale_wallet : WalletInner := mkWalletInner wallet_chain [] (wallet_chain, []) false.
Definition always (_ : LocalChain * list WalletTx) : bool := true.
Definition source (c : LocalChain) : option (LocalChain * list WalletTx) := Some (c, []).

Lemma wallet_chain_Some k x : wallet_chain !! k = Some x -> k = 0 /\ x = block_hash genesis \/ k = 1 /\ x = block_hash stale1.
Proof. unfold wallet_chain. rewrite lookup_insert_Some, lookup_singleton_Some. naive_solver. Qed.

Lemma wallet_chain_dense : dense wallet_chain 1.
Proof.
  split; [lia|]. intros k. split.
  - intros [x [[-> _]|[-> _]]%wallet_chain_Some]; lia.
  - intros Hk. assert (k = 0 \/ k = 1) as [->| ->] by lia; by eexists.
Qed.

Lemma node_serves_chain k x : canon chain_list k = Some x ->
  node_hash k = Some x /\ exists block, node_block x = Some block /\ headers follow_hashes !! x = Some (header block).
Proof.
  intros Hk. split; [exact Hk|]. unfold canon in Hk. case_decide; [|done]. apply fmap_Some in Hk as (e & He & ->). apply list_elem_of_lookup_2 in He.
  assert (Hall : forallb (fun e => bool_decide (is_Some (headers follow_hashes !! e.1))) chain_list = true) by (vm_compute; reflexivity).
  rewrite forallb_forall in Hall. apply list_elem_of_In, Hall, bool_decide_eq_true_1 in He as [hd Hhd]. exists (mkBlock hd []). unfold node_block. rewrite Hhd. done.
Qed.

Lemma wallet_branch : branch_of_headers follow_validator chain_list wallet_chain.
Proof.
  split; [reflexivity|]. intros k x hd [[-> ->]|[-> ->]]%wallet_chain_Some Hhd; (split; [vm_compute; reflexivity|]); [lia|]. intros _.
  assert (E : headers follow_hashes !! block_hash stale1 = Some stale1) by (vm_compute; reflexivity). change (headers follow_hashes !! block_hash stale1 = Some hd) in Hhd. rewrite E in Hhd. injection Hhd as <-. vm_compute. reflexivity.
Qed.

Lemma head3_not_zero : block_hash head3 <> all_zeros.
Proof. vm_compute. discriminate. Qed.

Lemma wallet_follows_chain_witness :
  exists w, sync_wallet_to_tip simple_bdk follow_validator node_hash node_block None always None 50 (Some stale_wallet) (block_hash head3) None = Some (Ok (Some w)) /\
    local_chain w !! 1 = Some (block_hash head1) /\ local_chain w !! 3 = Some (block_hash head3) /\ has_synced w = true.
Proof.
  destruct (wallet_follows_chain simple_bdk follow_validator node_hash node_block always (block_hash head3) chain_list follow_wf follow_chain (fun _ => eq_refl)
    node_serves_chain eq_refl head3_not_zero None None 50 stale_wallet 1 None) as (w & Hs & Ha & _ & Hh).
  - vm_compute. reflexivity.
  - lia.
  - exact I.
  - exact wallet_chain_dense.
  - exact wallet_branch.
  - reflexivity.
  - discriminate.
  - right. split; [reflexivity|left; reflexivity].
  - exists w. split; [exact Hs|]. split; [rewrite Ha by (split; vm_compute; discriminate); reflexivity|].
    split; [rewrite Ha by (split; vm_compute; discriminate); reflexivity|exact Hh].
Defined.

Lemma stale_tip_kept_witness :
  exists w, sync_wallet_to_tip simple_bdk follow_validator node_hash node_block (Some source) always None 1 (Some stale_wallet) (block_hash head3) None = Some (Ok (Some w)) /\
    local_chain w !! 1 = Some (block_hash stale1) /\ local_chain w !! 3 = Some (block_hash head3) /\ has_synced w = true.
Proof.
  destruct (stale_tip_kept simple_bdk follow_validator node_hash node_block always (block_hash head3) chain_list follow_wf follow_chain (fun _ => eq_refl)
    node_serves_chain eq_refl head3_not_zero source 1 stale_wallet 1 (block_hash stale1) None) as (w & Hs & Ha & Hst & Hh).
  - lia.
  - vm_compute. reflexivity.
  - split; [lia|vm_compute; reflexivity].
  - exact I.
  - exact wallet_chain_dense.
  - vm_compute. reflexivity.
  - intros k Hk. unfold canon in Hk. case_decide; [|discriminate Hk]. apply fmap_Some in Hk as (e & He & E). apply list_elem_of_lookup_2 in He.
    assert (Hall : forallb (fun e => bool_decide (block_hash stale1 <> e.1)) chain_list = true) by (vm_compute; reflexivity).
    rewrite forallb_forall in Hall. apply list_elem_of_In, Hall, bool_decide_eq_true_1 in He. exact (He E).
  - intros c. exists []. reflexivity.
  - exists w. split; [exact Hs|]. split; [exact Hst|]. split; [rewrite Ha by (split; vm_compute; discriminate); reflexivity|exact Hh].
Defined.

(** ** A block with a wallet *)

Definition producer0 : BlockProducer := mkBlockProducer validator1 policy_db_new ∅ None.
Definition old_request : WalletTx := mkWalletTx (compute_txid m8_tx) m8_tx (Unconfirmed None).
Definition first_wallet : WalletInner := mkWalletInner {[0 := block_hash genesis]} [old_request; own] ({[0 := block_hash genesis]}, []) false.
Definition connected_wallet :=
  wallet_connect_block simple_bdk node_hash node_block None always None 50 producer0 (Some first_wallet) block1.

Lemma connected_wallet_clean_witness :
  exists p w removed, connected_wallet = Some (Ok (p, Some w, AcceptBlock removed)) /\
    (forall t, t ∈ canonical_txs w -> is_confirmed (chain_position t) = false ->
       forall m8, parse_m8_tx (wt_tx t) = Some m8 -> m8_prev_mainchain_block_hash m8 = block_hash (header block1)) /\ length (canonical_txs w) = 1%nat.
Proof.
  assert (E : match connected_wallet with Some (Ok (_, Some w, AcceptBlock _)) => length (canonical_txs w) =? 1 | _ => false end%nat = true) by (vm_compute; reflexivity).
  destruct connected_wallet as [[[[p [w|]] [removed|]]| |]|] eqn:Er; [|discriminate E..]. exists p, w, removed. split; [reflexivity|]. split; [|by apply Nat.eqb_eq].
  unfold connected_wallet in Er.
  destruct (connected_wallet_clean _ _ _ _ _ _ _ _ _ _ _ _ _ Er) as (_ & w' & [= <-] & _ & Hc). intros t Ht Hu m8 Hm. by apply (Hc t Ht Hu).
Defined.

(** ** The node, the validator and the wallet *)

(** The validator is new, the wallet is on the stale block, and the node is on A. *)
Definition new_synced : Synced := mkSynced (mkValidator dbs_new Regtest params []) false tt.
Definition small_block (h : BlockHash) : option Block := if decide (h = hash_of block_a) then Some block_a else if decide (h = hash_of block_g) then Some block_g else None.
Definition synced_wallet := wallet_sync_to_tip (Node0 := small_node) (HeaderNode0 := small_headers) simple_bdk small_hash small_block always None None 50 NoShutdown 10 None
  (hash_of block_a) new_synced (Some stale_wallet).

Lemma stale_outside_tree : small_tree !! block_hash stale1 = None.
Proof. vm_compute. reflexivity. Qed.

Lemma wallet_branch_of_tree : branch_of_tree small_tree wallet_chain.
Proof.
  split.
  - intros x hd [(-> & _ & _)|(_ & _ & ?)]%small_tree_lookup; [reflexivity|lia].
  - intros k x hd j [[-> ->]|[-> ->]]%wallet_chain_Some Hx.
    + apply small_tree_lookup in Hx as [(_ & _ & ->)|(E & _ & _)]; [split; [reflexivity|lia]|]. exfalso. vm_compute in E. discriminate E.
    + exfalso. rewrite stale_outside_tree in Hx. discriminate Hx.
Qed.

Lemma tree_node_honest b : in_tree small_tree b -> honest_node (Node0 := small_node) handler b.
Proof.
  intros Hb w hashes w' raws [= _ <-]. apply Forall_Forall2_diag, Forall_forall. intros h _ blk. cbn [deserialize_block small_node].
  destruct (decide (h = hash_of block_a)) as [->|]; [intros [= <-]; split; [reflexivity|apply small_tree_block; auto]|].
  destruct (decide (h = hash_of block_g)) as [->|]; [intros [= <-]; split; [reflexivity|apply small_tree_block; auto]|discriminate].
Qed.

