(* ===== verification/ServerScenario.v ===== *)
(** * The RPC servers on a concrete chain

    Encodings that run, and the servers on the validators and the policy store of
    the other examples. *)

From Stdlib Require Import Strings.Byte Strings.String.
From stdpp Require Import base numbers list gmap countable strings sorting.
From S2P Require Import Prelude OrderMap Bitcoin Types Messages M6 Dbs BlockHashes Treasury Diff Reversible Handlers HandlerProofs HandlerSpecs ConnectBlock ConnectProofs Reorg Enforcer EnforcerProofs Sync SyncProofs Facade FacadeProofs Policy PolicyProofs Producer ProducerProofs Proto Server ProducerServer ServerProofs ServiceProofs Scenario SyncScenario PolicyScenario.
Import Runnable.
Open Scope Z_scope.

(** ** Encodings *)

Definition hex_digit (n : Z) : byte := if bool_decide (n < 10) then to_u8 (48 + n) else to_u8 (87 + n).
Definition digit_value (b : byte) : option Z :=
  let n := u8_val b in
  if bool_decide (48 <= n <= 57) then Some (n - 48) else
  if bool_decide (97 <= n <= 102) then Some (n - 87) else
  if bool_decide (65 <= n <= 70) then Some (n - 55) else None.
Fixpoint encode_hex (b : bytes) : bytes :=
  match b with [] => [] | x :: b => hex_digit (u8_val x / 16) :: hex_digit (u8_val x mod 16) :: encode_hex b end.
Fixpoint decode_hex (s : bytes) : option bytes :=
  match s with
  | [] => Some []
  | h :: l :: s => h ← digit_value h; l ← digit_value l; b ← decode_hex s; Some (to_u8 (16 * h + l) :: b)
  | _ => None
  end.

Lemma decode_encode_hex b : decode_hex (encode_hex b) = Some b.
Proof.
  induction b as [|x b IH]; [done|]. cbn [encode_hex decode_hex].
  assert (E : digit_value (hex_digit (u8_val x / 16)) = Some (u8_val x / 16) /\ digit_value (hex_digit (u8_val x mod 16)) = Some (u8_val x mod 16))
    by (destruct x; vm_compute; done).
  destruct E as [-> ->]. cbn [mbind option_bind]. rewrite IH. cbn [mbind option_bind].
  by rewrite <- Z.div_mod, to_u8_val by lia.
Qed.

(** Transactions as numbers, written in base two. *)
#[local] Program Instance TxIn_countable : Countable TxIn :=
  inj_countable' (fun i => (previous_output i, script_sig i, sequence i, witness i)) (fun p => mkTxIn p.1.1.1 p.1.1.2 p.1.2 p.2) _.
Next Obligation. by intros []. Qed.
#[local] Program Instance TxOut_countable : Countable TxOut :=
  inj_countable' (fun o => (value o, script_pubkey o)) (fun p => mkTxOut p.1 p.2) _.
Next Obligation. by intros []. Qed.
#[local] Program Instance Transaction_countable : Countable Transaction :=
  inj_countable' (fun t => (version t, lock_time t, input t, output t)) (fun p => mkTransaction p.1.1.1 p.1.1.2 p.1.2 p.2) _.
Next Obligation. by intros []. Qed.

Fixpoint digits (p : positive) : bytes := match p with xH => [] | xO p => x00 :: digits p | xI p => x01 :: digits p end.
Fixpoint undigits (b : bytes) : positive := match b with [] => xH | x00 :: b => xO (undigits b) | _ :: b => xI (undigits b) end.
Lemma undigits_digits p : undigits (digits p) = p.
Proof. induction p as [p IH|p IH|]; cbn; by rewrite ?IH. Qed.

Definition in_hex {T} (ser : T -> bytes) (de : bytes -> option T) : Consensus T :=
  mkConsensus T ser de (fun t => encode_hex (ser t)) (fun s => decode_hex s ≫= de).
Definition of_length (n : nat) (b : bytes) : option bytes := if decide (length b = n) then Some b else None.

#[local] Instance proto_lib : ProtoLib := {
  array_codec n := in_hex id (of_length n);
  vec_codec := in_hex id Some;
  tx_codec := in_hex (fun tx => digits (encode tx)) (fun b => decode (undigits b));
  to_hex := encode_hex;
  of_hex := decode_hex;
  enum_to_string A _ := [] }.

Lemma in_hex_laws {T} (ser : T -> bytes) de ok : (forall t, ok t -> de (ser t) = Some t) -> CodecLaws (in_hex ser de) ok.
Proof. intros Hd. split; intros t Ht; cbn; [by apply Hd|]. rewrite decode_encode_hex. cbn. by apply Hd. Qed.

#[local] Instance proto_laws : ProtoLaws.
Proof.
  split.
  - intros n. apply in_hex_laws. intros b Hb. unfold of_length, id. by rewrite decide_True.
  - intros n b t. cbn. unfold of_length. case_decide; [by intros [= <-]|done].
  - intros n b t. cbn. intros (b' & _ & Hb')%bind_Some. unfold of_length in Hb'. case_decide; [by injection Hb' as <-|done].
  - apply in_hex_laws. done.
  - apply in_hex_laws. intros tx _. by rewrite undigits_digits, decode_encode.
  - exact decode_encode_hex.
Qed.

(** ** Events *)

(** The event of the first block, and the same with other events in it. *)
Definition shown (events : list BlockEvent) : Event :=
  ConnectBlock info2 (mkBlockInfo (bi_bmm_commitments block_info2) (bi_coinbase_txid block_info2) events).

(** A bundle and a deposit of slot 2 before them, or no proposal; and no bundle. *)
Definition other_slot : list BlockEvent :=
  [BE_WithdrawalBundle (mkWithdrawalBundleEvent x02 bundle_id Failed); BE_Deposits {[x02 := mkDeposit 0 (mkOutPoint bundle_id 0) [] 5]}].
Definition no_proposal (e : BlockEvent) : bool := match e with BE_SidechainProposal _ _ => false | _ => true end.
Definition no_bundle (e : BlockEvent) : bool := match e with BE_WithdrawalBundle _ => false | _ => true end.
Definition events2 : list BlockEvent := bi_events block_info2.

Lemma m6_fits : tx_fits m6_tx.
Proof. split_and!; [done..|repeat constructor; done|repeat constructor; done]. Qed.

Lemma happened2 c t : exists b d, happened slot (mkBlockInfo c t events2) = [inr (b, Submitted); inr (bundle_id, Succeeded 1 m6_tx); inl d] /\
  length b = 32%nat /\ length (op_txid (dep_outpoint d)) = 32%nat.
Proof. eexists _, _. split; [vm_compute; reflexivity|]. split; reflexivity. Qed.

Lemma happened2_ok c t : Forall happening_ok (happened slot (mkBlockInfo c t events2)).
Proof. destruct (happened2 c t) as (b & d & -> & Hb & Hd). repeat constructor; cbn; try done; apply m6_fits. Qed.

Lemma happened_kept n c t f l : Forall happening_ok (happened n (mkBlockInfo c t l)) -> Forall happening_ok (happened n (mkBlockInfo c t (List.filter f l))).
Proof.
  unfold happened. cbn [bi_events]. induction l as [|e l IH]; [done|]. cbn [concat fmap list_fmap List.filter]. rewrite filter_app, fmap_app, Forall_app. intros [He Hl].
  destruct (f e); [|by apply IH]. cbn [concat fmap list_fmap]. rewrite filter_app, fmap_app, Forall_app. split; [done|by apply IH].
Qed.

Lemma other_slot_unseen c t l : happened slot (mkBlockInfo c t (other_slot ++ l)) = happened slot (mkBlockInfo c t l).
Proof.
  unfold happened. cbn [bi_events]. rewrite fmap_app, concat_app, filter_app.
  assert (E : filter (fun x => x.1 = slot) (concat (recorded <$> other_slot)) = []) by (vm_compute; reflexivity). by rewrite E.
Qed.

Lemma shown_ok events : Forall happening_ok (happened slot (mkBlockInfo (bi_bmm_commitments block_info2) (bi_coinbase_txid block_info2) events)) ->
  event_ok slot (shown events).
Proof.
  intros Hh. split; [split_and!; vm_compute; done|]. split; [|exact Hh].
  assert (E : om_get slot (bi_bmm_commitments block_info2) = Some commitment) by (vm_compute; reflexivity). cbn [bi_bmm_commitments]. rewrite E. by intros c [= <-].
Qed.

(** The client of slot 1 cannot tell whether the block has a proposal or anything of slot 2, and
    can tell whether it has its withdrawal. *)
Lemma client_sees_its_sidechain_witness :
  event_into_proto (shown (other_slot ++ List.filter no_proposal events2)) slot = event_into_proto (shown events2) slot /\
  event_into_proto (shown (List.filter no_bundle events2)) slot <> event_into_proto (shown events2) slot.
Proof.
  assert (Ho : event_ok slot (shown (other_slot ++ List.filter no_proposal events2))).
  { apply shown_ok. rewrite other_slot_unseen. apply happened_kept. apply happened2_ok. }
  assert (Hb : event_ok slot (shown (List.filter no_bundle events2))).
  { apply shown_ok. apply happened_kept. apply happened2_ok. }
  assert (H2 : event_ok slot (shown events2)) by (apply shown_ok; apply happened2_ok).
  split.
  - apply (client_sees_its_sidechain slot (shown (other_slot ++ List.filter no_proposal events2)) (shown events2) Ho H2). vm_compute. reflexivity.
  - intros E. apply (client_sees_its_sidechain slot (shown (List.filter no_bundle events2)) (shown events2) Hb H2) in E. vm_compute in E. discriminate E.
Defined.

(** ** The producer's service *)

#[local] Instance one_bundle_codec : TxCodec := {
  tx_serialize _ := [];
  tx_deserialize _ := Some Scenario.bundle_tx;
  version_decode _ := None;
  varint_decode _ := None;
  txout_decode _ := None;
  lock_time_decode _ := None }.

(** The chain of the policy store's example, with the treasury of slot 1. *)
Definition served : Validator := mkValidator (set_active (v_dbs moved) active1) Regtest params [].

Lemma served_slots : slots_named (active_sidechains (v_dbs served)).
Proof.
  intros n sc Hsc. change (({[slot := sidechain1]} : gmap SidechainNumber Sidechain) !! n = Some sc) in Hsc. by apply lookup_singleton_Some in Hsc as [<- <-].
Qed.

Lemma served_hashes : block_hashes (v_dbs served) = moved_hashes.
Proof. reflexivity. Qed.
Lemma served_tip : current_chain_tip (v_dbs served) = Some (hash_of block_a).
Proof. vm_compute. reflexivity. Qed.
Lemma served_wf : chain_wf (block_hashes (v_dbs served)).
Proof. rewrite served_hashes. exact moved_wf. Qed.
Lemma served_chain : chain_to (block_hashes (v_dbs served)) (hash_of block_a) [entry block_g; entry block_a].
Proof. rewrite served_hashes. exact chain_a. Qed.
Lemma served_cursor : cursor_ok served queue.
Proof. unfold cursor_ok. rewrite served_hashes. exact queue_cursor. Qed.
Lemma served_quiet : Forall quiet (take (Z.to_nat (bip300_activation_height (v_network_params served))) [entry block_g; entry block_a]).
Proof. constructor. Qed.


Lemma declared_fits : declaration_fits (declaration [x61; x62]).
Proof. split_and!; vm_compute; done || lia. Qed.

Lemma submit_sidechain_proposal_spec_witness :
  exists out description db', create_sidechain_proposal slot (declaration [x61; x62]) = Ok (out, description) /\
    submit_sidechain_proposal served queue (Some (u8_val slot)) (Some (declaration_to_proto (declaration [x61; x62]))) = Some (Ok (db', tt)) /\
    marks_match [entry block_g; entry block_a] db' /\ exists row, row ∈ proposal_rows db' /\ row_is slot (sha256d description) row /\ mined_in row = None.
Proof.
  assert (Hz : hash_of block_a <> all_zeros) by (vm_compute; discriminate).
  assert (H0 : 0 <= bip300_activation_height (v_network_params served)) by (vm_compute; discriminate).
  assert (Hl : Z.of_nat (length [entry block_g; entry block_a]) <= u32_max) by (vm_compute; discriminate).
  pose proof (submit_sidechain_proposal_spec served queue (hash_of block_a) [entry block_g; entry block_a] slot (declaration [x61; x62])
    served_wf served_tip Hz served_chain H0 served_quiet served_cursor Hl declared_fits) as Hp.
  rewrite bool_decide_eq_true_2 in Hp by (vm_compute; discriminate). destruct Hp as (out & description & db1 & Hc & _ & _ & Hr & _ & _ & Hq).
  exists out, description.
  assert (Hn : ~ already_queued db1 slot (sha256d description)).
  { assert (E : match reconcile served queue, create_sidechain_proposal slot (declaration [x61; x62]) with
      | Some (Ok (d, _)), Ok (_, x) => bool_decide (already_queued d slot (sha256d x)) | _, _ => true end = false) by (vm_compute; reflexivity).
    rewrite Hr, Hc in E. by apply bool_decide_eq_false_1 in E. }
  destruct (decide (already_queued db1 slot (sha256d description))) as [Hy|_]; [by destruct (Hn Hy)|].
  destruct Hq as (db' & Hs & _ & Hmm & _ & _ & row & Hin & Hrow & Hm & _). exists db'. split_and!; [exact Hc|exact Hs|exact Hmm|]. exists row. split_and!; [exact Hin|exact Hrow|exact Hm].
Defined.

(** ** Confirmations and requests *)

(** A block with the proposal, and the one on top of it. *)
Definition proposed : SidechainProposal := mkSidechainProposal x02 new_description.
Definition on_top : HeaderInfo := mkHeaderInfo (replicate 32 x08) (hi_block_hash info2) 2 2 2.

(** Both blocks are answered with one confirmation. *)
Lemma proposal_confirmations_witness :
  let o := mkOutPoint (bi_coinbase_txid block_info2) 1 in
  stream_proposal_confirmations proposed [Some (ConnectBlock info2 block_info2); Some (ConnectBlock on_top (mkBlockInfo [] [] []))]
    = [Ok (PR_Confirmed (reverse_hex_encode hash_codec (hi_block_hash info2)) 1 1 (out_point_to_proto o) (reverse_hex_encode hash_codec (block_hash genesis)));
       Ok (PR_Confirmed (reverse_hex_encode hash_codec (replicate 32 x08)) 1 2 (out_point_to_proto o) (reverse_hex_encode hash_codec (hi_block_hash info2)))].
Proof.
  pose proof (proposal_confirmations proposed [(info2, block_info2); (on_top, mkBlockInfo [] [] [])]) as Hp. intros o.
  etransitivity; [apply Hp; [split; [reflexivity|done]|]|vm_compute; reflexivity].
  apply NoDup_cons. split; [|apply NoDup_singleton]. intros E%list_elem_of_singleton. vm_compute in E. discriminate E.
Defined.

#[local] Instance sorted_iter : HashIter := {
  hash_iter A m := map_to_list m;
  hash_iter_perm A m := reflexivity (map_to_list m) }.

(** The request of [Scenario] is seen on the genesis block, with the fee that the node tells. *)
Definition bid (_ : Txid) : Res ProducerError (option Amount) := Ok (Some 30).
Definition answered : Res ConnectError (list PbBmmRequest) :=
  server_get_seen_bmm_requests bid accepted_tx.1 (Some (reverse_hex_encode hash_codec (block_hash genesis))) (u8_val <$> Some slot).

Definition seen_ids : gset Txid := {[compute_txid m8_tx]}.
Definition seen_requests : gmap BmmCommitment (gset Txid) := {[commitment := seen_ids]}.

Lemma seen_on_genesis :
  get_seen_bmm_requests_for_parent_block (block_hashes (v_dbs accepted_tx.1)) (block_hash genesis) !! slot = Some seen_requests.
Proof. apply (bool_decide_eq_true_1 _). vm_compute. reflexivity. Qed.

Lemma seen_bmm_requests_answer_witness :
  exists rs, answered = Ok rs /\
    mkPbBmmRequest (u8_val slot) (reverse_hex_encode hash_codec (compute_txid m8_tx)) (consensus_hex_encode hash_codec commitment) 30 ∈ rs.
Proof.
  assert (E : answered = Ok (value_or [] answered)) by (apply value_or_Ok; vm_compute; reflexivity). unfold answered in E.
  destruct (seen_bmm_requests_answer bid accepted_tx.1 (block_hash genesis) (Some slot) (value_or [] answered)) as [_ Hq]; [apply length_digest|exact E|].
  exists (value_or [] answered). split; [exact E|]. apply Hq.
  exists slot, seen_requests, commitment, seen_ids, (compute_txid m8_tx), 30.
  split; [intros w Hw; injection Hw as <-; reflexivity|]. split; [exact seen_on_genesis|].
  split; [apply lookup_singleton_eq|]. split; [apply elem_of_singleton; reflexivity|]. split; reflexivity.
Defined.
