(* ===== verification/AppScenario.v ===== *)
(** * The application on concrete inputs

    Runs that are verified, start-ups, tasks and calls of the wallet, with the theorems
    of the application applied to them. *)

From Stdlib Require Import Strings.Byte Strings.String.
From stdpp Require Import base numbers list gmap countable strings relations.
From S2P Require Import Prelude OrderMap Bitcoin Types Messages Dbs BlockHashes ConnectBlock ConnectProofs Reorg Enforcer Facade Wallet NodeChecks Summary SummaryProofs Tasks TaskProofs Http Cli App AppProofs Locks Backend Scenario ServerScenario.
Import Runnable.
Open Scope Z_scope.

(** ** Verification *)

#[local] Program Instance CtipSummary_countable : Countable CtipSummary :=
  inj_countable' (fun c => (cs_outpoint c, cs_value_sats c)) (fun p => mkCtipSummary p.1 p.2) _.
Next Obligation. by intros []. Qed.
#[local] Program Instance Pending_countable : Countable PendingWithdrawalSummary :=
  inj_countable' (fun c => (pw_m6id c, pw_vote_count c, pw_proposal_height c)) (fun p => mkPendingWithdrawalSummary p.1.1 p.1.2 p.2) _.
Next Obligation. by intros []. Qed.
#[local] Program Instance SidechainState_countable : Countable SidechainStateSummary :=
  inj_countable' (fun c => (ss_sidechain_number c, ss_description_hash c, ss_title c, ss_description c, (ss_vote_count c, ss_proposal_height c, ss_activation_height c),
                            (ss_ctip c, ss_ctip_sequence_number c, ss_pending_withdrawals c)))
    (fun '(n, h, t, d, (v, p, a), (c, q, w)) => mkSidechainStateSummary n h t d v p a c q w) _.
Next Obligation. by intros []. Qed.
#[local] Program Instance SyncState_countable : Countable SyncStateSummary :=
  inj_countable' (fun c => (sum_tip_hash c, sum_tip_height c, sum_sidechains c)) (fun p => mkSyncStateSummary p.1.1 p.1.2 p.2) _.
Next Obligation. by intros []. Qed.

#[local] Program Instance summary_json : SummaryJson := {
  to_json_pretty s := digits (encode s);
  from_json b := decode (undigits (removelast b)) }.
Next Obligation. intros s. cbn. rewrite removelast_last, undigits_digits. apply decode_encode. Qed.

Definition with_tables (s : Dbs) : Validator := mkValidator s Regtest params [].
Definition state_path : Path := ["data"; "consensus-state.json"]%string.
Definition no_summary : SyncStateSummary := mkSyncStateSummary [] 0 [].
Definition direct_summary : SyncStateSummary := value_or no_summary (sync_state_summary (with_tables direct)).

(** A run over the detour, verified against the direct one, and a run that ends on the other branch *)
Lemma exit_after_sync_verifies_witness :
  (exists files, run_exit_after_sync (fun _ => Some (hash_of block_a)) (fun _ h => (with_tables rerouted, Ok h)) true (with_tables at_g) 1 state_path (Some direct_summary)
    {[state_path := state_file direct_summary]} = (with_tables rerouted, files, Ok tt)) /\
  verify_against_reference (value_or no_summary (sync_state_summary (with_tables detour))) (Some direct_summary) <> Ok tt.
Proof.
  assert (Hr : reach handler direct ([block_g] ++ [block_a])) by (apply reach_next; [apply reach_g|vm_compute; (reflexivity || discriminate)..]).
  assert (Hd : reach handler detour ([block_g] ++ [block_b])) by (apply reach_next; [apply reach_g|vm_compute; (reflexivity || discriminate)..]).
  assert (Hw : reach handler rerouted ([block_g] ++ [block_a])).
  { apply reach_next; [|vm_compute; (reflexivity || discriminate)..]. apply (reach_disconnect handler detour [block_g] block_b [] _ (unrun detour block_b).2 Hd). apply unrun_Ok. vm_compute. reflexivity. }
  assert (Hs : sync_state_summary (with_tables direct) = Ok direct_summary) by (apply value_or_Ok; vm_compute; reflexivity).
  assert (Hh : default 0 (known_height (with_tables at_g)) <= 1) by (vm_compute; discriminate).
  split.
  - destruct (exit_after_sync_verifies handler (fun _ => Some (hash_of block_a)) (fun _ h => (with_tables rerouted, Ok h)) (with_tables at_g) (with_tables rerouted) (with_tables direct) 1
      (hash_of block_a) (hash_of block_a) state_path state_path {[state_path := state_file direct_summary]} direct_summary [block_g] block_a [block_g] block_a
      Hh eq_refl eq_refl Hr Hw Hs (lookup_singleton_eq _ _)) as (_ & t & files & r & _ & _ & Hrun & Hiff & _).
    exists files. rewrite Hrun. f_equal. apply Hiff. destruct (verify_sync_state handler (with_tables direct) (with_tables rerouted) [block_g] block_a [block_g] block_a Hr Hw) as (? & ? & _ & _ & _ & Hsame & _). by apply Hsame.
  - vm_compute. discriminate.
Defined.

(** ** Start-up *)

#[local] Instance hex_lib : HexLib := { hex_decode s := decode_hex (list_byte_of_string s); hex_encode b := string_of_list_byte (encode_hex b) }.
#[local] Instance hex_laws : HexLaws.
Proof. intros b. unfold hex_decode, hex_encode, hex_lib. by rewrite list_byte_of_string_of_list_byte, decode_encode_hex. Qed.

(** A wallet with a mempool and block templates, and the same frozen at a height *)
Definition wallet_config (freeze : option Z) : Config :=
  mkConfig ["data"%string] true true true None (mkLoggerConfig Compact None Never 100) None None None None None None
    (mkWalletConfig false false Esplora None) None None freeze None false.
Definition regtest_node : Node :=
  mkNode (Ok true) [Err (Call (-28) "loading"%string); Ok (Regtest, 100)] (Some (300200, "/Satoshi:30.2.0/"%string)) (Some false) (Ok None) (Ok tt)
    (Some [mkZmqNotification "pubsequence" "tcp://127.0.0.1:29000"]).
(** [wallet]: loaded, encrypted, to be retried *)
Definition host (wallet : bool * bool * bool) : Host := mkHost ∅ true true true true (Some wallet) (fun _ => true) true (fun _ _ => true) (fun _ => false).

Definition no_plan : Plan := mkPlan params [] M_Validator "" [].
Definition planned (c : Config) (h : Host) : Plan := match main_setup c regtest_node h with Some (Ok p) => p | _ => no_plan end.

Lemma one_task_drives_witness :
  pl_tasks (planned (wallet_config (Some 50)) (host (true, false, true))) =
    [ConnectServer [CryptoService; ValidatorService; BlockProducerService; MiningService; WalletService]; WalletSyncTask; ChainSourceInitTask; FreezeAtHeightTask 50] /\
  length (filter (fun t => drives t = true) (pl_tasks (planned (wallet_config (Some 50)) (host (true, false, true))))) = 1%nat.
Proof.
  split; [vm_compute; reflexivity|].
  destruct (one_task_drives (wallet_config (Some 50)) regtest_node (host (true, false, true)) (planned (wallet_config (Some 50)) (host (true, false, true)))) as [Hd _];
    [vm_compute; reflexivity|vm_compute; reflexivity|exact Hd].
Defined.

(** An encrypted wallet that waits for its password *)
Lemma locked_wallet_exits_witness :
  exists reward, WalletMempoolTask false reward ∈ pl_tasks (planned (wallet_config None) (host (false, true, false))).
Proof.
  destruct (locked_wallet_exits (wallet_config None) regtest_node (host (false, true, false)) (planned (wallet_config None) (host (false, true, false))) false true false) as (reward & Hin & _);
    [reflexivity..|left; reflexivity|vm_compute; reflexivity|exists reward; exact Hin].
Defined.

(** ** Tasks *)

(** Six attempts that fail at once; with one of a minute among them the budget lasts. *)
Definition failing (elapsed : nat -> Z) (i : nat) : option (Attempt TaskEvent MempoolTask) :=
  Some (mkAttempt [] (Err (AE_Task (SyncTask STE_SequenceStream))) (elapsed i) false false).
Lemma gives_up_after_six : run_with_resync is_resyncable (failing (fun _ => 1)) 6 = Some ([], Err (RE_GaveUp (SyncTask STE_SequenceStream))) /\
  run_with_resync is_resyncable (failing (fun i => if decide (i = 5%nat) then 60000 else 1)) 10 = None.
Proof. split; vm_compute; reflexivity. Qed.

(** A sync that loses a notification while templates are served, one that cannot reach the node's
    notifications, and one that is shut down *)
Definition serving_world (w : Wait) (zmq : bool) : World := mkWorld (Some zmq) None true [Some (Call (-10) "IBD"%string); None] true w 90000 false false.
Definition serving_worlds (i : nat) : World :=
  if decide (i = 0%nat) then serving_world (W_Error (SyncTask STE_SequenceStream)) true
  else if decide (i = 1%nat) then serving_world W_Cancelled true else serving_world W_Cancelled false.
Lemma serving_run : run_block_producer_mempool_task 5 (Some true) "tcp://127.0.0.1:29000" false serving_worlds =
  Some ([ZmqProbed; Synced; Published; WaitEnded; Cleared; ZmqProbed; Synced; Published; WaitEnded; Cleared; Stopped], Ok tt).
Proof. vm_compute. reflexivity. Qed.

(** ** Calls of the wallet *)

(** Two scans, of which the second waits, and a block *)
Definition calls : list Thread :=
  [mkThread nothing full_scan_locks; mkThread nothing full_scan_locks; mkThread nothing (connect_block_locks true false 1)].
Lemma wallet_locks_progress_witness : starts calls /\ exists ts, advance (<[0%nat := mkThread (mkHeld true None false) full_scan_guarded_locks]> calls) ts.
Proof.
  assert (Hs : starts calls) by (repeat constructor). split; [exact Hs|].
  assert (Hstep : step calls (<[0%nat := mkThread (mkHeld true None false) full_scan_guarded_locks]> calls)).
  { apply step_advance, (advance_op calls 0 (mkThread nothing full_scan_locks) LockScan full_scan_guarded_locks); [done..|].
    intros [|[|[|j]]] u Hne Hu; [done|injection Hu as <-; done|injection Hu as <-; done|done]. }
  destruct (wallet_locks_progress calls 1 _ Hs (nsteps_once _ _ Hstep)) as (_ & [[Hf _]|[_ Ha]] & _); [|exact Ha].
  exfalso. apply Forall_cons in Hf as [Hf _]. discriminate Hf.
Defined.

(** ** The backend *)

#[local] Instance url_lib : UrlLib := {
  UrlRest := string;
  url_parse s := if String.prefix "http" s then Some (""%string, None, s) else None;
  url_to_string u := u.2;
  has_host _ := true }.
Definition regtest_backend : BackendConfig := mkBackendConfig Esplora None None None.
Definition unreachable : BackendAnswer := mkBackendAnswer true false None.
Lemma backend_comes_up_witness :
  (run_init_task (fun _ => []) (fun _ => "timed out"%string) regtest_backend Regtest [R_Answer unreachable; R_Answer unreachable; R_Answer (mkBackendAnswer true true None)]
     (with_last_error (Some "timed out"%string))).1.2 = [500; 1000; 2000].
Proof.
  assert (Ht : transient (fun _ => []) regtest_backend Regtest unreachable) by (exists (ICS_Esplora EsploraClientHeight); split; reflexivity).
  destruct (backend_comes_up (fun _ => []) (fun _ => "timed out"%string) regtest_backend Regtest unreachable [unreachable; unreachable] (mkBackendAnswer true true None) EsploraClient) as (s & Hs & _ & _ & s' & Hr & _);
    [discriminate|exact Ht|repeat constructor; exact Ht|reflexivity|]. cbn in Hs. injection Hs as <-. cbn [fmap list_fmap app] in Hr. rewrite Hr. reflexivity.
Defined.
